(* ===== verification/_CoqProject ===== *)
-Q . S2P
Prelude.v
Memory.v
Status.v
Pool.v
InitGraph.v
InitGraphSpec.v
Decimal.v
ParseNumber.v
Codec.v
Oid.v
Double.v
Printf.v
CNumber.v
Text.v
HostPort.v
Md5.v
BsonTypes.v
Format.v
Element.v
Obj.v
Validate.v
ValidateSpec.v
Access.v
Md5Spec.v
Extract.v
Compare.v
Order.v
Builder.v
FailPoint.v
Ticket.v
BQueue.v
JsObj.v
JsObjSpec.v
Embedded.v
ObjFields.v
ReadPref.v
NodeSelect.v
Monitor.v
NodeErrors.v
MonitorThreads.v
Wire.v
Cursor.v
MessagePort.v
BuilderSpec.v
BuilderSafe.v
Storage.v
Json.v
JsonPrint.v
JsonText.v
JsonSpec.v
JsonSafe.v
Pgbson.v
PgbsonSpec.v
Rows.v
PgText.v
Commands.v
Connection.v
Decode.v
Indexes.v
GridFs.v
ConnPool.v
ConnPoolOrder.v
ConnPoolSafe.v
