(* ===== verification/Prelude.v ===== *)
(** * A verification of pgbson, BSON documents for PostgreSQL

    The extension (src/pgbson) stores BSON documents in a column type.  Its own
    code, pgbson_exports.cpp and pgbson_internal.cpp, is SQL functions; the
    documents are read, compared, built, validated, printed and parsed by the
    BSON library of the MongoDB C++ driver that it vendors and links
    (mongo-cxx-driver-v2.4/src/mongo, below only its subdirectory is named).
    This development models that code on bytes and proves what it computes on
    documents.

    ** How a program is modelled

    A computation returns [result A]: a value or an [err], an exception of the
    driver with its code, an error reported to PostgreSQL, a read outside a
    buffer, behaviour C++ leaves undefined, or fuel that has run out.  Integers
    are [Z] with their wrap-around written out ([u32], [s64], ...); where
    overflow is undefined in C++ it is an error.  Bytes are [byte], a string is
    a list of them, a [double] is its bit pattern.  A pointer is a buffer with
    an offset, and every load checks the bounds.  State is passed: a builder
    is an argument and a result.

    The abstract side is in Format.v: a document is a list of named values and
    [enc_doc] its layout.  [obj_rep o d] says that the object [o], a pointer,
    is at the encoding of the well-formed document [d] and [elem_rep], of
    Element.v, that an element is.  Most theorems have the form: on objects
    that encode documents, the code returns this function of the documents.

    ** The parts, and the files that hold them

    The base.  Prelude.v: outcomes, integers, bytes, lists, tactics.  Memory.v:
    buffers, pointers, memcmp and the string functions.  Decimal.v, Double.v,
    Printf.v, CNumber.v: decimal notation, IEEE 754 doubles, printing a double,
    and strtol, strtoll, strtoull and strtod: what the code uses of the
    language and its library.

    The driver's utilities.  Status.v: base/status.cpp and error_codes.h, with
    the reference counts in Module [Refs].  InitGraph.v, InitGraphSpec.v:
    base/initializer_dependency_graph.cpp and initializer.cpp.  ParseNumber.v:
    base/parse_number.cpp.  Codec.v: util/hex.h, util/base64.cpp, bson/oid.cpp;
    Oid.v: the machine and process part of identifiers, sequential ones.
    Md5.v: util/md5.cpp; Md5Spec.v: that it is the function of RFC 1321.
    Text.v: util/stringutils.cpp, util/text.cpp and the dotted names of
    db/jsobj.cpp.  HostPort.v: util/net/hostandport.h and the connection strings
    of client/dbclient.cpp.

    Threads.  Pool.v: agents that share a state, atomic words
    (platform/atomic_word.h), and invariants of all interleavings.
    FailPoint.v: util/fail_point.cpp; Ticket.v:
    util/concurrency/ticketholder.h; BQueue.v: util/queue.h.

    Reading documents.  BsonTypes.v: bson/bsontypes.h.  Format.v: documents.
    Element.v: BSONElement, its sizes and accessors (bson/bsonelement.h,
    bson/bson-inl.h).  Obj.v: BSONObj and its iterator, with the two forms of
    loop over the elements that the driver has, [loop_more] and [loop_eoo], and
    their simulations by a fold over the fields; all later loops are instances.
    Access.v: looking up fields, plain and dotted, hash, binary equality.
    Extract.v: bson/util/bson_extract.cpp.  Compare.v: woCompare and its
    variants; Order.v: in what sense it is an order.  Validate.v,
    ValidateSpec.v: bson/bson_validate.cpp.

    Building documents.  Builder.v: BufBuilder, BSONObjBuilder and sub-builders
    (bson/util/builder.h, bson/bsonobjbuilder.h).  BuilderSpec.v: what they
    write, and the limits; BuilderSafe.v: what they do past the limit.
    JsObj.v, JsObjSpec.v, Storage.v: the object functions of db/jsobj.cpp:
    arrays, rebuilt objects, key patterns, bounds of a type, query operators,
    what may be stored.  Embedded.v: util/embedded_builder.h, nested objects
    from dotted names.  ObjFields.v: the fields at a dotted name, sorted
    iterators, numbers from text.

    Replica sets (client/dbclient_rs.cpp).  ReadPref.v: queries with options
    and read preferences.  NodeSelect.v: the choice of a member.  Monitor.v:
    the monitor of a set, what it learns from the replies of the members.
    NodeErrors.v: that what it reads and builds gives no error of an index.
    MonitorThreads.v: the threads that share it, its locks and its checks.

    The client.  Wire.v: messages, what a server reads in them (db/dbmessage.h)
    and the requests a client writes (client/dbclient.cpp).  Cursor.v:
    client/dbclientcursor.cpp and the queries.  MessagePort.v:
    util/net/message_port.cpp, with the messages kept to go out together.
    Commands.v: commands as queries, and authentication.  Connection.v: a
    connection to one server, opened again after a failure.  Indexes.v: names
    of collections (db/namespace-inl.h), indexes asked for and remembered.
    GridFs.v: client/gridfs.cpp, files in chunks.  Decode.v: the inverse of the
    encoding, for servers of examples; not code of the driver.  ConnPool.v,
    ConnPoolOrder.v, ConnPoolSafe.v: client/connpool.cpp, connections kept for
    later use, the order of the pools, and what its callers can rely on.

    Text.  Json.v: the parser of extended JSON (db/json.cpp), JsonPrint.v: the
    printer (db/jsobj.cpp).  JsonText.v: the text of a document and that the
    printer writes it.  JsonSpec.v: the parser reads it back.  JsonSafe.v: the
    parser on any input.

    The extension.  Pgbson.v, PgbsonSpec.v: binary input and output, field
    access, comparison operators, hash, array functions
    (pgbson_exports.cpp).  Rows.v: row_to_bson (pgbson_internal.cpp).
    PgText.v: the text input and output, bson_in and bson_out.

    How they interact.  The SQL functions of Pgbson.v call Obj.v, Access.v and
    Compare.v on the bytes of a datum and return the buffer of a builder of
    Builder.v; PgText.v calls Json.v, which appends what it reads to a builder,
    and JsonPrint.v, which walks an object; the validator returns a value of
    Status.v.  What PostgreSQL provides is the class [PgApi] (Pgbson.v), the
    order of a hash map is the class [HashOrder] (InitGraph.v), std::sort the
    class [StdSort] (ObjFields.v).  A read preference is appended to a query
    with the builder, read back with Access.v, and its tags are visited by the
    sorted iterator of ObjFields.v; NodeSelect.v compares them with what the
    members reported, with the comparison of Compare.v, and Monitor.v keeps the
    members it selects from.  The functions of a cursor, the commands, the
    indexes and the files are stated of any connection, the class [Clients]
    (Cursor.v); Connection.v makes one of a port of MessagePort.v, and a command
    is a query of Cursor.v by its virtual query.  The memory of indexes is the
    class [IndexCache] (Indexes.v), what a step of a connection leaves alone the
    class [Respects] (Connection.v), what a pooled connection does when it is
    opened or asked the class [Outside] (ConnPool.v).

    ** What the theorems show

    Order: the comparison of two encoded documents is [compare_doc] of the
    documents; it is antisymmetric, and transitive, under conditions that
    cannot be dropped (Order.v).  The operators and the hash of the index
    classes agree with it (PgbsonSpec.v).

    Round trips: text output and input (PgText.v), binary output and input
    (PgbsonSpec.v), identifiers and base64 (Codec.v), numbers (BuilderSpec.v),
    connection strings (HostPort.v), dotted and nested names (Embedded.v), the
    read preference of a query (ReadPref.v), the requests of a client and what a
    server reads in them (Wire.v), a stored file (GridFs.v).

    Safety on any input: the parser ends on every text with a document whose
    values have their types, or with one of three exceptions, within the
    builders' limits (JsonSafe.v, PgText.v); the validator reads nothing outside
    its buffer (ValidateSpec.v); the counts of statuses never free what is used
    (Status.v); the reader of a message stays in it when it validates (Wire.v).

    The client: the objects of a query are the server's documents in order, up
    to an empty batch or to a limit that no server can make a cursor pass
    (Cursor.v), over a connection, too (Connection.v); messages of a port arrive
    whole and in order (MessagePort.v); a command is answered by the server's
    answer and authentication sends the key of the password (Commands.v); a
    connection that failed is not opened more often than its backoff allows
    (Connection.v); an index is asked for once (Indexes.v); a file is read back
    as it was stored (GridFs.v); no connection of a pool is used after it was
    deleted or by two callers, and once one that failed was given back none
    opened before it is in its pool (ConnPoolSafe.v).

    All interleavings of threads: the counts of fail points (FailPoint.v),
    tickets (Ticket.v), the order of a queue, and its limit as long as sums of
    sizes do not wrap (BQueue.v); the monitor of a replica set uses no index
    outside its nodes although it gives its lock back between finding one and
    using it, and its locks do not block all threads (MonitorThreads.v).

    Function: each SQL function returns the stated function of the documents,
    null and errors included (PgbsonSpec.v, PgText.v), and row_to_bson the
    bytes of the columns, which are a document when none is a text or a "char"
    (Rows.v); builders write
    the document of the fields appended (BuilderSpec.v); the printer writes the
    text of the document (JsonText.v); the validator accepts exactly the bytes
    of documents when no size it meets is below its least (ValidateSpec.v); the
    initializers run after their prerequisites (InitGraphSpec.v); names are
    ordered by their keys (Text.v); the MD5 digest of a message in pieces is the
    reference function of the message (Md5Spec.v); the sorted iterators give the
    fields in order (ObjFields.v); a member is selected exactly when the
    preference accepts one, and selections go round (NodeSelect.v); the nodes
    of a monitor follow the hosts reported (Monitor.v).

    Where the code falls short of its intent a theorem shows an instance:
    [woCompare_not_transitive], [woCompare_date_timestamp] (Order.v),
    [bson_unwind_array_hole] (PgbsonSpec.v), [text_column_overread],
    [char_column_lost] (Rows.v), [date_signed] (JsonText.v), [text_nul_in_name],
    [text_lenient] (PgText.v), [validateBSON_diverges], [validateBSON_size_zero]
    (ValidateSpec.v), [okForStorage_reference_hides] (Storage.v),
    [numbers_least_undefined] (BuilderSpec.v), [type_bounds_exceptions]
    (JsObjSpec.v), [justForked_pid] (Oid.v), [quote_repeats_backslashes]
    (Text.v), [nTimes_overshoot], [getData_unguarded] (FailPoint.v),
    [clear_strands_producer], [maximum_of_one], [sum_wraps] (BQueue.v),
    [sync_not_symmetric], [two_slashes] (HostPort.v), [object_split],
    [empty_component] (Embedded.v), [sign_and_point], [addFields_no_id]
    (ObjFields.v), [dollar_query] (ReadPref.v), [reselection_empty],
    [first_choice_second_member], [nearest_remembered], [number_no_text],
    [local_primary_down] (NodeSelect.v), [repeated_host], [two_spellings],
    [fewer_hosts] (Monitor.v), [two_populate] (MonitorThreads.v),
    [remove_from_writeback], [object_past_end], [number_past_end],
    [pullInt_const_diverges] (Wire.v), [empty_batch_ends],
    [limit_reduced_twice], [next_past_message], [scoped_client_kept] (Cursor.v),
    [pieces_refused], [long_refused] (MessagePort.v), [no_dot] (Commands.v),
    [null_response], [not_opened_again] (Connection.v), [remembered_unsent]
    (Indexes.v), [huge_not_stored], [whole_chunk_stored_twice] (GridFs.v),
    [kept_although_bad], [cleared_untold], [flush_turns_around]
    (ConnPoolSafe.v).

    ** Bounds and fuel

    A loop over the elements of an object takes the length of the buffer as
    fuel, and so does the recursion on nesting: an element is at least two
    bytes and an embedded object is shorter than what holds it.  The refinement
    theorems conclude [Ok], so the fuel suffices.  The parser's recursion takes
    the length of its input; [fromjson_total] says that [OutOfFuel] is not
    among its results.  The validator's loop need not stop, so its fuel is an
    argument: [validateBSON_terminates] gives the turns that are enough,
    [validateBSON_diverges] an input where none are.  The sort of initializers
    takes the number of nodes, and [topSort_correct] shows it is enough.  The
    loops over the members of a set have a turn for each member, that over the
    tags one for each tag and one more ([select_by_tags]).  A loop over a
    cursor takes a turn for each object and one more ([query_gives_documents]);
    a port reads at most as many pieces as bytes are to come.  A connection that
    sends may open itself again, which sends; the levels of Connection.v count
    how deep.  The loops of GridFs.v take a turn for each chunk and one more; of
    4 GiB and more no number is enough ([huge_not_stored]).
    The depth of the C stack is not modelled: the recursions of the comparison,
    the printer and the parser have no limit of their own in the code.

    The limits of the code are kept as they are: 64MB for a buffer
    ([BufferMaxSize]), 16MB with 16KB for an object ([BSONObjMaxInternalSize]).
    Texts are taken up to 2^28 characters in the theorems on the parser, so
    that no single append passes the range of an [int].

    ** Not modelled

    PostgreSQL itself: detoasting, memory contexts, the catalog and the output
    functions of types are parameters, as is Boost's notation of a date.  The
    branch for floating-point timestamps.  Messages: an assertion is its code,
    a parse error has no text.  The indented form of the printer.  toString and
    hexDump of elements and objects, the stream operators of the builders (<<),
    the reference counts of object buffers, and MurmurHash; a counted buffer is
    a buffer that stays.  Of the client: the bytes
    on a socket are any, and SSL, time-outs of sockets and the resolution of
    names are left out; the table of all sets with the thread that checks them,
    DBClientReplicaSet and the connection to config servers; the text of the
    last error, and the SASL library, a parameter; the statistics of a pool.
    The platform layer
    (sockets, logging) and the headers of server components (db/btree.h,
    db/queryutil.h, db/ops/update_internal.h, ...) whose
    implementation the repository does not hold. *)

From stdpp Require Import base list numbers strings option countable tactics.
From Stdlib Require Import Strings.Byte.
From Stdlib Require Import ZArith Lia.

#[global] Open Scope Z_scope.

Declare Scope bson_scope.
Delimit Scope bson_scope with bson.
#[global] Open Scope bson_scope.

(** ** Outcomes of a C++ computation *)

(** The error codes the extension reports to PostgreSQL. *)
Inductive pg_errcode :=
  | ERRCODE_INTERNAL_ERROR
  | ERRCODE_INVALID_TEXT_REPRESENTATION
  | ERRCODE_INVALID_BINARY_REPRESENTATION.

(** How a computation of the modelled code can fail to return a value: an
    exception of the driver or of a library, an error reported to PostgreSQL,
    an access outside a buffer, an index outside the vector of a replica set's
    nodes, behaviour the language leaves undefined; the
    fuel of a recursion running out is shown not to happen where it matters. *)
Inductive err :=
  | MsgAssert (code : Z)
  | UserAssert (code : Z)
  | VerifyFailed
  | StdException (what : list byte)
  | ConversionError (target_type : list byte)
  | Ereport (errcode : pg_errcode) (errmsg : list byte)
  | OutOfBounds
  | IndexOutside
  | UndefinedBehaviour
  | OutOfFuel.

(** What a [catch (...)] catches: PostgreSQL's own errors are long jumps. *)
Definition is_exception (e : err) : bool :=
  match e with
  | MsgAssert _ | UserAssert _ | VerifyFailed | StdException _ | ConversionError _ => true
  | _ => false
  end.

Inductive result (A : Type) :=
  | Ok (a : A)
  | Err (e : err).
Arguments Ok {A} a.
Arguments Err {A} e.

Definition bind {A B : Type} (m : result A) (k : A -> result B) : result B :=
  match m with
  | Ok a => k a
  | Err e => Err e
  end.

Notation "'let*' x := m 'in' k" := (bind m (fun x => k))
  (at level 10, x name, m at level 200, k at level 200,
   format "'[v' 'let*'  x  :=  m  'in' '//' k ']'") : bson_scope.
Notation "'let*' ' p := m 'in' k" := (bind m (fun x => match x with p => k end))
  (at level 10, p pattern, m at level 200, k at level 200) : bson_scope.

(** [massert], [uassert] and [verify] of util/assert_util.h. *)
Definition massert (code : Z) (b : bool) : result unit :=
  if b then Ok tt else Err (MsgAssert code).
Definition uassert (code : Z) (b : bool) : result unit :=
  if b then Ok tt else Err (UserAssert code).
Definition verify (b : bool) : result unit :=
  if b then Ok tt else Err VerifyFailed.

Definition is_ok {A} (m : result A) : bool :=
  match m with Ok _ => true | Err _ => false end.

(** [result_map f m]: the value of [m], mapped. *)
Definition result_map {A B} (f : A -> B) (m : result A) : result B :=
  bind m (fun a => Ok (f a)).

Lemma bind_ok_inv {A B} (m : result A) (k : A -> result B) (b : B) :
  bind m k = Ok b -> exists a, m = Ok a /\ k a = Ok b.
Proof. destruct m as [a|e]; simpl; intros H; [eauto | discriminate]. Qed.

Lemma bind_assoc {A B C} (m : result A) (f : A -> result B) (g : B -> result C) :
  bind (bind m f) g = bind m (fun a => bind (f a) g).
Proof. by destruct m. Qed.

Lemma bind_ext {A B} (m : result A) (f g : A -> result B) :
  (forall a, m = Ok a -> f a = g a) -> bind m f = bind m g.
Proof. destruct m; simpl; auto. Qed.

(** Decompose every hypothesis that says a composed computation succeeded. *)
Ltac inv_bind :=
  repeat match goal with
  | H : bind _ _ = Ok _ |- _ =>
      let a := fresh "a" in let Ha := fresh "Ha" in
      apply bind_ok_inv in H as (a & Ha & H)
  | H : Ok _ = Ok _ |- _ => injection H as H; subst
  | H : Err _ = Ok _ |- _ => discriminate H
  end.

(** ** Fixed-width integers *)

Definition wrap_u (w : Z) (z : Z) : Z := z mod 2 ^ w.
Definition wrap_s (w : Z) (z : Z) : Z := (z + 2 ^ (w - 1)) mod 2 ^ w - 2 ^ (w - 1).

Abbreviation u8 := (wrap_u 8).
Abbreviation u32 := (wrap_u 32).
Abbreviation u64 := (wrap_u 64).
Abbreviation s8 := (wrap_s 8).
Abbreviation s16 := (wrap_s 16).
Abbreviation s32 := (wrap_s 32).
Abbreviation s64 := (wrap_s 64).

Definition in_u (w z : Z) : bool := (0 <=? z) && (z <? 2 ^ w).
Definition in_s (w z : Z) : bool := (- 2 ^ (w - 1) <=? z) && (z <? 2 ^ (w - 1)).

Lemma in_u_spec w z : in_u w z = true <-> 0 <= z < 2 ^ w.
Proof. unfold in_u. lia. Qed.

Lemma in_s_spec w z : in_s w z = true <-> - 2 ^ (w - 1) <= z < 2 ^ (w - 1).
Proof. unfold in_s. lia. Qed.

Lemma wrap_u_small w z : 0 <= z < 2 ^ w -> wrap_u w z = z.
Proof. intros. unfold wrap_u. by apply Z.mod_small. Qed.

Lemma wrap_u_range w z : 0 <= w -> 0 <= wrap_u w z < 2 ^ w.
Proof. intros. unfold wrap_u. apply Z.mod_pos_bound. lia. Qed.

Lemma pow2_split w : 1 <= w -> 2 ^ w = 2 * 2 ^ (w - 1).
Proof. intros. rewrite <- Z.pow_succ_r by lia. f_equal. lia. Qed.

Lemma wrap_s_small w z : 1 <= w -> - 2 ^ (w - 1) <= z < 2 ^ (w - 1) -> wrap_s w z = z.
Proof.
  intros Hw Hz. unfold wrap_s. pose proof (pow2_split w Hw).
  rewrite Z.mod_small; lia.
Qed.

Lemma wrap_s_range w z : 1 <= w -> - 2 ^ (w - 1) <= wrap_s w z < 2 ^ (w - 1).
Proof.
  intros Hw. unfold wrap_s. pose proof (pow2_split w Hw).
  pose proof (Z.mod_pos_bound (z + 2 ^ (w - 1)) (2 ^ w)). lia.
Qed.

Lemma wrap_s_mod w z : 1 <= w -> wrap_s w (z mod 2 ^ w) = wrap_s w z.
Proof.
  intros Hw. unfold wrap_s. f_equal.
  rewrite Zplus_mod_idemp_l. done.
Qed.

Lemma wrap_s_u w z : 1 <= w -> wrap_u w (wrap_s w z) = wrap_u w z.
Proof.
  intros Hw. unfold wrap_s, wrap_u.
  rewrite Zminus_mod_idemp_l. f_equal. lia.
Qed.

(** ** Bytes *)

#[global] Instance byte_eq_dec : EqDecision byte := Byte.byte_eq_dec.
#[global] Instance byte_countable : Countable byte := inj_countable Byte.to_N Byte.of_N Byte.of_to_N.

(** The value of a byte as [unsigned char] and as [char] (signed on the
    platforms the extension is built for). *)
Definition bz (b : byte) : Z := Z.of_N (Byte.to_N b).
Definition sc (b : byte) : Z := wrap_s 8 (bz b).

(** The byte a wider integer is truncated to. *)
Definition zb (z : Z) : byte :=
  match Byte.of_N (Z.to_N (z mod 256)) with
  | Some b => b
  | None => x00
  end.

Lemma bz_range b : 0 <= bz b < 256.
Proof.
  unfold bz. pose proof (Byte.to_N_bounded b). lia.
Qed.

Lemma bz_inj b c : bz b = bz c -> b = c.
Proof.
  unfold bz. intros H%N2Z.inj.
  pose proof (Byte.of_to_N b) as Hb. rewrite H, Byte.of_to_N in Hb. congruence.
Qed.

Lemma zb_bz b : zb (bz b) = b.
Proof.
  unfold zb. pose proof (bz_range b). rewrite Z.mod_small by done.
  unfold bz. by rewrite N2Z.id, Byte.of_to_N.
Qed.

Lemma bz_zb z : bz (zb z) = z mod 256.
Proof.
  unfold zb. pose proof (Z.mod_pos_bound z 256 eq_refl).
  destruct (Byte.of_N (Z.to_N (z mod 256))) eqn:E.
  - apply Byte.to_of_N in E. unfold bz. rewrite E. lia.
  - apply Byte.of_N_None_iff in E. lia.
Qed.

Lemma zb_mod z : zb (z mod 256) = zb z.
Proof. apply bz_inj. rewrite !bz_zb. by rewrite Z.mod_mod. Qed.

(** Byte string literals and their length in bytes. *)
Definition bstr (s : string) : list byte := Stdlib.Strings.String.list_byte_of_string s.
Definition zlen {A} (l : list A) : Z := Z.of_nat (length l).

Lemma zlen_app {A} (l k : list A) : zlen (l ++ k) = zlen l + zlen k.
Proof. unfold zlen. rewrite length_app. lia. Qed.
Lemma zlen_cons {A} (x : A) l : zlen (x :: l) = 1 + zlen l.
Proof. unfold zlen. simpl. lia. Qed.
Lemma zlen_nil {A} : zlen (@nil A) = 0.
Proof. done. Qed.
Lemma zlen_nonneg {A} (l : list A) : 0 <= zlen l.
Proof. unfold zlen. lia. Qed.
Lemma zlen_nat {A} (l : list A) : Z.to_nat (zlen l) = length l.
Proof. apply Nat2Z.id. Qed.

(** ** Little-endian integers *)

Fixpoint le_bytes (n : nat) (z : Z) : list byte :=
  match n with
  | O => []
  | S n' => zb z :: le_bytes n' (z / 256)
  end.

Fixpoint le_val (bs : list byte) : Z :=
  match bs with
  | [] => 0
  | b :: r => bz b + 256 * le_val r
  end.

Lemma length_le_bytes n z : length (le_bytes n z) = n.
Proof. revert z. induction n as [|n IH]; intros z; simpl; auto. Qed.

Lemma zlen_le_bytes n z : zlen (le_bytes n z) = Z.of_nat n.
Proof. unfold zlen. by rewrite length_le_bytes. Qed.

Lemma le_val_range bs : 0 <= le_val bs < 256 ^ zlen bs.
Proof.
  induction bs as [|b bs IH]; [split; [done|reflexivity]|].
  rewrite zlen_cons, Z.pow_add_r by (pose proof (zlen_nonneg bs); lia).
  cbn [le_val]. change (256 ^ 1) with 256. pose proof (bz_range b). lia.
Qed.

Lemma le_val_bytes n z : le_val (le_bytes n z) = z mod 256 ^ Z.of_nat n.
Proof.
  revert z. induction n as [|n IH]; intros z.
  - simpl. by rewrite Z.mod_1_r.
  - cbn [le_bytes le_val]. rewrite IH, bz_zb.
    rewrite Nat2Z.inj_succ, Z.pow_succ_r by lia.
    rewrite Z.rem_mul_r by lia. lia.
Qed.

Lemma le_bytes_val bs : le_bytes (length bs) (le_val bs) = bs.
Proof.
  induction bs as [|b bs IH]; [done|].
  cbn [length le_bytes le_val]. pose proof (bz_range b).
  f_equal.
  - rewrite <- zb_mod, Z.mul_comm, Z_mod_plus_full, zb_mod. apply zb_bz.
  - rewrite Z.mul_comm, Z.div_add by lia.
    by rewrite (Z.div_small (bz b)), Z.add_0_l by lia.
Qed.

Lemma le_bytes_inj n x y :
  le_bytes n x = le_bytes n y -> x mod 256 ^ Z.of_nat n = y mod 256 ^ Z.of_nat n.
Proof. intros H. by rewrite <- !le_val_bytes, H. Qed.

Lemma le_bytes_mod n z : le_bytes n (z mod 256 ^ Z.of_nat n) = le_bytes n z.
Proof.
  rewrite <- le_val_bytes. rewrite <- (length_le_bytes n z) at 1. apply le_bytes_val.
Qed.

Lemma le_bytes_split m n z : le_bytes (m + n) z = le_bytes m z ++ le_bytes n (z / 256 ^ Z.of_nat m).
Proof.
  revert z. induction m as [|m IH]; intros z; cbn [Nat.add le_bytes app].
  - change (256 ^ Z.of_nat 0) with 1. by rewrite Z.div_1_r.
  - rewrite IH, Nat2Z.inj_succ, Z.pow_succ_r by lia. by rewrite Z.div_div by lia.
Qed.

Lemma le_val_single c : zlen c = 1 -> exists b, c = [b] /\ le_val c = bz b.
Proof.
  destruct c as [|b [|b' c]]; [done| |rewrite !zlen_cons; pose proof (zlen_nonneg c); lia].
  intros _. exists b. split; [done|]. cbn. lia.
Qed.

#[global] Opaque le_bytes.
#[global] Opaque le_val.
#[global] Arguments zlen : simpl never.
#[global] Arguments wrap_s : simpl never.
#[global] Arguments wrap_u : simpl never.

Abbreviation le16 := (le_bytes 2).
Abbreviation le32 := (le_bytes 4).
Abbreviation le64 := (le_bytes 8).

Lemma s32_le32 z : in_s 32 z = true -> s32 (le_val (le32 z)) = z.
Proof.
  intros Hz%in_s_spec. rewrite le_val_bytes.
  change (256 ^ Z.of_nat 4) with (2 ^ 32).
  rewrite wrap_s_mod by lia. by apply wrap_s_small.
Qed.

Lemma s64_le64 z : in_s 64 z = true -> s64 (le_val (le64 z)) = z.
Proof.
  intros Hz%in_s_spec. rewrite le_val_bytes.
  change (256 ^ Z.of_nat 8) with (2 ^ 64).
  rewrite wrap_s_mod by lia. by apply wrap_s_small.
Qed.

Lemma le64_val z : in_u 64 z = true -> le_val (le64 z) = z.
Proof.
  intros Hz%in_u_spec. rewrite le_val_bytes.
  change (256 ^ Z.of_nat 8) with (2 ^ 64). by apply Z.mod_small.
Qed.

Lemma le32_val z : in_u 32 z = true -> le_val (le32 z) = z.
Proof.
  intros Hz%in_u_spec. rewrite le_val_bytes.
  change (256 ^ Z.of_nat 4) with (2 ^ 32). by apply Z.mod_small.
Qed.

(** Reading an integer and laying it out again. *)
Lemma le32_s32 a : zlen a = 4 -> le32 (s32 (le_val a)) = a.
Proof.
  intros Ha. rewrite <- le_bytes_mod. change (256 ^ Z.of_nat 4) with (2 ^ 32).
  change (s32 (le_val a) mod 2 ^ 32) with (u32 (s32 (le_val a))). rewrite wrap_s_u by lia.
  pose proof (le_val_range a) as H. rewrite Ha in H. rewrite wrap_u_small by done.
  assert (length a = 4%nat) as E by (unfold zlen in Ha; lia). rewrite <- E. apply le_bytes_val.
Qed.

Lemma le64_s64 a : zlen a = 8 -> le64 (s64 (le_val a)) = a.
Proof.
  intros Ha. rewrite <- le_bytes_mod. change (256 ^ Z.of_nat 8) with (2 ^ 64).
  change (s64 (le_val a) mod 2 ^ 64) with (u64 (s64 (le_val a))). rewrite wrap_s_u by lia.
  pose proof (le_val_range a) as H. rewrite Ha in H. rewrite wrap_u_small by done.
  assert (length a = 8%nat) as E by (unfold zlen in Ha; lia). rewrite <- E. apply le_bytes_val.
Qed.

(** ** Three-way comparison of byte strings *)

(** [memcmp] and [strcmp] promise only the sign of their result; the model
    returns -1, 0 or 1.  Bytes compare as [unsigned char]. *)
Fixpoint lex_cmp (a b : list byte) : Z :=
  match a, b with
  | [], [] => 0
  | [], _ :: _ => -1
  | _ :: _, [] => 1
  | x :: a', y :: b' =>
      if bz x <? bz y then -1
      else if bz y <? bz x then 1
      else lex_cmp a' b'
  end.

Lemma lex_cmp_refl a : lex_cmp a a = 0.
Proof. induction a as [|x a IH]; simpl; [done|]. by rewrite Z.ltb_irrefl. Qed.

Lemma lex_cmp_antisym a b : lex_cmp b a = - lex_cmp a b.
Proof.
  revert b. induction a as [|x a IH]; intros [|y b]; simpl; auto.
  destruct (Z.ltb_spec (bz x) (bz y)), (Z.ltb_spec (bz y) (bz x)); try lia. apply IH.
Qed.

Lemma lex_cmp_eq a b : lex_cmp a b = 0 -> a = b.
Proof.
  revert b. induction a as [|x a IH]; intros [|y b]; simpl; try done.
  destruct (Z.ltb_spec (bz x) (bz y)), (Z.ltb_spec (bz y) (bz x)); try lia.
  intros Hc%IH. f_equal; [apply bz_inj; lia | done].
Qed.

Lemma lex_cmp_range a b : -1 <= lex_cmp a b <= 1.
Proof.
  revert b. induction a as [|x a IH]; intros [|y b]; simpl; try lia.
  repeat case_match; try lia. apply IH.
Qed.

Lemma lex_cmp_trans a b c :
  lex_cmp a b <= 0 -> lex_cmp b c <= 0 -> lex_cmp a c <= 0.
Proof.
  revert b c. induction a as [|x a IH]; intros [|y b] [|z c]; simpl; try lia.
  destruct (Z.ltb_spec (bz x) (bz y)), (Z.ltb_spec (bz y) (bz x)),
    (Z.ltb_spec (bz y) (bz z)), (Z.ltb_spec (bz z) (bz y)),
    (Z.ltb_spec (bz x) (bz z)), (Z.ltb_spec (bz z) (bz x)); try lia.
  apply IH.
Qed.

Lemma lex_cmp_lt_trans a b c : lex_cmp a b < 0 -> lex_cmp b c < 0 -> lex_cmp a c < 0.
Proof.
  intros Hab Hbc. pose proof (lex_cmp_trans a b c ltac:(lia) ltac:(lia)).
  destruct (Z.eq_dec (lex_cmp a c) 0) as [->%lex_cmp_eq|]; [|lia].
  rewrite lex_cmp_antisym in Hbc. lia.
Qed.

(** A string with no NUL byte, as a C string or a field name is. *)
Definition no_nul (s : list byte) : bool := forallb (fun b => negb (Byte.eqb b x00)) s.

Lemma no_nul_app a b : no_nul (a ++ b) = no_nul a && no_nul b.
Proof. apply forallb_app. Qed.

Lemma byte_eqb_spec b c : reflect (b = c) (Byte.eqb b c).
Proof.
  destruct (Byte.eqb b c) eqn:E; constructor.
  - by apply Byte.byte_dec_bl.
  - intros ->. by rewrite Byte.byte_dec_lb in E.
Qed.

Lemma byte_eqb_refl b : Byte.eqb b b = true.
Proof. by apply Byte.byte_dec_lb. Qed.

(** A predicate on bytes holds everywhere when it computes to [true] on each. *)
Definition all_bytes : list byte :=
  map (fun n => zb (Z.of_nat n)) (seq 0 256).

Lemma all_bytes_in b : In b all_bytes.
Proof.
  unfold all_bytes. apply in_map_iff. pose proof (bz_range b).
  exists (Z.to_nat (bz b)). split.
  - rewrite Z2Nat.id by lia. apply zb_bz.
  - apply in_seq. lia.
Qed.

Lemma for_all_bytes (P : byte -> bool) : forallb P all_bytes = true -> forall b, P b = true.
Proof. intros H b. eapply forallb_forall in H; [exact H | apply all_bytes_in]. Qed.
