(* ===== verification/Memory.v ===== *)
(** * Memory: buffers, pointers into them, and the C string functions

    A pointer is a buffer with an offset into it; the offset may leave the
    buffer, and a read through such a pointer is [Err OutOfBounds].  The
    predicate [p ↦ bs] says the bytes at [p] start with [bs]; the lemmas of
    this file read it off for every kind of load. *)

From stdpp Require Import base list numbers option tactics.
From Stdlib Require Import Strings.Byte ZArith Lia.
From S2P Require Import Prelude.

Record ptr := Ptr { mem : list byte; off : Z }.

Definition padd (p : ptr) (n : Z) : ptr := Ptr (mem p) (off p + n).
Notation "p +! n" := (padd p n) (at level 50, left associativity) : bson_scope.

(** The bytes from [p] to the end of its buffer. *)
Definition rest (p : ptr) : result (list byte) :=
  if (off p <? 0) || (zlen (mem p) <? off p) then Err OutOfBounds
  else Ok (drop (Z.to_nat (off p)) (mem p)).

(** [*p] and [memcpy] of [n] bytes from [p]. *)
Definition load (p : ptr) : result byte :=
  let* r := rest p in
  match r with
  | b :: _ => Ok b
  | [] => Err OutOfBounds
  end.

Definition loads (p : ptr) (n : Z) : result (list byte) :=
  let* r := rest p in
  if (0 <=? n) && (n <=? zlen r) then Ok (take (Z.to_nat n) r) else Err OutOfBounds.

Definition load_s32 (p : ptr) : result Z :=
  let* bs := loads p 4 in Ok (s32 (le_val bs)).
Definition load_u32 (p : ptr) : result Z :=
  let* bs := loads p 4 in Ok (le_val bs).
Definition load_s64 (p : ptr) : result Z :=
  let* bs := loads p 8 in Ok (s64 (le_val bs)).
Definition load_u64 (p : ptr) : result Z :=
  let* bs := loads p 8 in Ok (le_val bs).

(** The bytes before the first NUL, when there is one. *)
Fixpoint until_nul (bs : list byte) : option (list byte) :=
  match bs with
  | [] => None
  | b :: r => if Byte.eqb b x00 then Some [] else (b ::.) <$> until_nul r
  end.

(** The C string at [p]; a string with no terminator in its buffer runs off it. *)
Definition cstr (p : ptr) : result (list byte) :=
  let* r := rest p in
  match until_nul r with
  | Some s => Ok s
  | None => Err OutOfBounds
  end.

Definition strlen (p : ptr) : result Z := let* s := cstr p in Ok (zlen s).

Definition strcmp (p q : ptr) : result Z :=
  let* a := cstr p in
  let* b := cstr q in
  Ok (lex_cmp a b).

Definition memcmp (p q : ptr) (n : Z) : result Z :=
  let* a := loads p n in
  let* b := loads q n in
  Ok (lex_cmp a b).

(** [mongo::strnlen] of bson/util/misc.h: the index of the first NUL among
    the first [n] bytes, -1 when there is none. *)
Fixpoint strnlen_go (bs : list byte) (i : Z) (n : nat) : result Z :=
  match n with
  | O => Ok (-1)
  | S n' =>
      match bs with
      | [] => Err OutOfBounds
      | b :: r => if Byte.eqb b x00 then Ok i else strnlen_go r (i + 1) n'
      end
  end.

Definition strnlen (p : ptr) (n : Z) : result Z :=
  if n <=? 0 then Ok (-1)
  else let* r := rest p in strnlen_go r 0 (Z.to_nat n).

(** ** What a pointer points to *)

Definition points (p : ptr) (bs : list byte) : Prop :=
  0 <= off p /\ exists post, drop (Z.to_nat (off p)) (mem p) = bs ++ post /\
    off p <= zlen (mem p).
Notation "p ↦ bs" := (points p bs) (at level 70) : bson_scope.

Lemma points_start bs : Ptr bs 0 ↦ bs.
Proof.
  split; [done|]. exists []. simpl. rewrite app_nil_r. split; [done|].
  apply zlen_nonneg.
Qed.

Lemma points_rest p bs : p ↦ bs -> exists post, rest p = Ok (bs ++ post).
Proof.
  intros (H0 & post & Hd & Hl). exists post. unfold rest.
  destruct (Z.ltb_spec (off p) 0); [lia|].
  destruct (Z.ltb_spec (zlen (mem p)) (off p)); [lia|]. simpl. by rewrite Hd.
Qed.

Lemma rest_points p r : rest p = Ok r -> p ↦ r.
Proof.
  unfold rest, points. destruct (Z.ltb_spec (off p) 0); [done|].
  destruct (Z.ltb_spec (zlen (mem p)) (off p)); [done|]. simpl. intros [= <-].
  split; [done|]. exists []. by rewrite app_nil_r.
Qed.

Lemma points_app_l p a b : p ↦ a ++ b -> p ↦ a.
Proof.
  intros (H0 & post & Hd & Hl). split; [done|]. exists (b ++ post).
  by rewrite app_assoc.
Qed.

Lemma points_app_r p a b n : p ↦ a ++ b -> n = zlen a -> p +! n ↦ b.
Proof.
  intros (H0 & post & Hd & Hl) ->. unfold points, padd. simpl.
  pose proof (zlen_nonneg a). split; [lia|]. exists post.
  assert (length (drop (Z.to_nat (off p)) (mem p)) = length ((a ++ b) ++ post)) as Hlen
    by by rewrite Hd.
  rewrite length_drop, !length_app in Hlen. unfold zlen in *.
  rewrite Z2Nat.inj_add, Nat2Z.id by lia.
  rewrite <- drop_drop, Hd, <- app_assoc, drop_app_length. split; [done|lia].
Qed.

Lemma points_nil p a : p ↦ a -> p ↦ [].
Proof. apply (points_app_l p [] a). Qed.

Lemma padd_0 p : p +! 0 = p.
Proof. destruct p as [m o]. unfold padd. simpl. f_equal. lia. Qed.

Lemma padd_padd p m n : p +! m +! n = p +! (m + n).
Proof. destruct p as [b o]. unfold padd. simpl. f_equal. lia. Qed.

Lemma points_load p b r : p ↦ b :: r -> load p = Ok b.
Proof.
  intros H. apply points_rest in H as [post H]. unfold load. by rewrite H.
Qed.

Lemma points_loads p a b n : p ↦ a ++ b -> n = zlen a -> loads p n = Ok a.
Proof.
  intros H ->. apply points_rest in H as [post H]. unfold loads. rewrite H. simpl.
  rewrite !zlen_app. pose proof (zlen_nonneg a). pose proof (zlen_nonneg b).
  pose proof (zlen_nonneg post).
  destruct (Z.leb_spec 0 (zlen a)); [|lia].
  destruct (Z.leb_spec (zlen a) (zlen a + zlen b + zlen post)); [|lia]. simpl.
  by rewrite zlen_nat, <- app_assoc, take_app_length.
Qed.

Lemma points_loads_all p a n : p ↦ a -> n = zlen a -> loads p n = Ok a.
Proof. intros H. apply (points_loads p a []). by rewrite app_nil_r. Qed.

Lemma points_load_s32 p z r :
  p ↦ le32 z ++ r -> in_s 32 z = true -> load_s32 p = Ok z.
Proof.
  intros H Hz. unfold load_s32. erewrite points_loads by (eauto; done).
  cbn [bind]. by rewrite s32_le32.
Qed.

Lemma points_load_u32 p z r :
  p ↦ le32 z ++ r -> in_u 32 z = true -> load_u32 p = Ok z.
Proof.
  intros H Hz. unfold load_u32. erewrite points_loads by (eauto; done).
  cbn [bind]. by rewrite le32_val.
Qed.

Lemma points_load_s64 p z r :
  p ↦ le64 z ++ r -> in_s 64 z = true -> load_s64 p = Ok z.
Proof.
  intros H Hz. unfold load_s64. erewrite points_loads by (eauto; done).
  cbn [bind]. by rewrite s64_le64.
Qed.

Lemma points_load_u64 p z r :
  p ↦ le64 z ++ r -> in_u 64 z = true -> load_u64 p = Ok z.
Proof.
  intros H Hz. unfold load_u64. erewrite points_loads by (eauto; done).
  cbn [bind]. by rewrite le64_val.
Qed.

Lemma until_nul_app s r : no_nul s = true -> until_nul (s ++ x00 :: r) = Some s.
Proof.
  induction s as [|b s IH]; simpl; [done|].
  destruct (Byte.eqb b x00); simpl; [done|]. intros Hs. by rewrite IH.
Qed.

Lemma points_cstr p s r : p ↦ s ++ x00 :: r -> no_nul s = true -> cstr p = Ok s.
Proof.
  intros H Hs. apply points_rest in H as [post H]. unfold cstr. rewrite H. cbn [bind].
  by rewrite <- app_assoc, <- app_comm_cons, until_nul_app.
Qed.

Lemma points_strlen p s r :
  p ↦ s ++ x00 :: r -> no_nul s = true -> strlen p = Ok (zlen s).
Proof. intros H Hs. unfold strlen. by erewrite points_cstr by eauto. Qed.

Lemma until_nul_no_nul bs s : until_nul bs = Some s -> no_nul s = true.
Proof.
  revert s. induction bs as [|b bs IH]; simpl; [done|]. intros s.
  destruct (Byte.eqb b x00) eqn:E; [by intros [= <-]|].
  destruct (until_nul bs); simpl; [|done]. intros [= <-]. simpl. rewrite E. simpl. auto.
Qed.

Lemma strnlen_go_spec s r i n :
  no_nul s = true -> (length s < n)%nat ->
  strnlen_go (s ++ x00 :: r) i n = Ok (i + zlen s).
Proof.
  revert i n. induction s as [|b s IH]; intros i n Hs Hn; destruct n as [|n];
    simpl in *; try lia.
  - rewrite zlen_nil. f_equal. lia.
  - destruct (Byte.eqb b x00); simpl in Hs; [done|].
    rewrite IH by (auto; lia). rewrite zlen_cons. f_equal. lia.
Qed.

Lemma points_strnlen p s r n :
  p ↦ s ++ x00 :: r -> no_nul s = true -> zlen s < n -> strnlen p n = Ok (zlen s).
Proof.
  intros H Hs Hn. apply points_rest in H as [post H]. unfold strnlen.
  pose proof (zlen_nonneg s). destruct (Z.leb_spec n 0); [lia|].
  rewrite H. cbn [bind]. rewrite <- app_assoc, <- app_comm_cons.
  rewrite strnlen_go_spec; [done|done|]. unfold zlen in *. lia.
Qed.
