(* ===== verification/Status.v ===== *)
(** * Status: the error values of base/status.h and base/status.cpp

    A [Status] is a handle on a shared, immutable [ErrorInfo] with a reference
    count.  [Status] here is the value a handle stands for, which the other
    components use; Module [Refs] is the store behind it, with the operations
    of base/status.cpp.  [refcount_refines] says the store implements the
    values: no operation touches an [ErrorInfo] that is freed, and none is
    lost. *)

From stdpp Require Import base list numbers strings option gmap fin_maps tactics.
From Stdlib Require Import Strings.Byte ZArith Lia.
From S2P Require Import Prelude.

Module ErrorCodes.
Inductive Error :=
  | OK | InternalError | BadValue | DuplicateKey | NoSuchKey | GraphContainsCycle
  | HostUnreachable | HostNotFound | UnknownError | FailedToParse | CannotMutateObject
  | UserNotFound | UnsupportedFormat | Unauthorized | TypeMismatch | Overflow | InvalidLength
  | ProtocolError | AuthenticationFailed | CannotReuseObject | IllegalOperation
  | EmptyArrayOperation | InvalidBSON | AlreadyInitialized | LockTimeout | RemoteValidationError.

#[global] Instance Error_eq_dec : EqDecision Error.
Proof. solve_decision. Defined.
End ErrorCodes.

Record Status := MkStatus { code : ErrorCodes.Error; reason : list byte; location : Z }.

#[global] Instance Status_eq_dec : EqDecision Status.
Proof. solve_decision. Defined.

Definition Status_OK : Status := MkStatus ErrorCodes.OK [] 0.
Definition error_status (c : ErrorCodes.Error) (r : list byte) : Status := MkStatus c r 0.

Definition isOK (s : Status) : bool := bool_decide (code s = ErrorCodes.OK).

(** Equality of two statuses looks at the code and the location, not at the
    reason. *)
Definition compare (s other : Status) : bool :=
  bool_decide (code s = code other) && (location s =? location other).
Definition compareCode (s : Status) (other : ErrorCodes.Error) : bool := bool_decide (code s = other).

(** ** The store *)

Module Refs.

Record ErrorInfo := MkErrorInfo { refs : Z; info : Status }.

(** Errors by address, handles by name; address 0 is [getOKInfo()], which is
    static. *)
Record store := MkStore { errors : gmap nat ErrorInfo; next : nat; handles : gmap nat nat }.

Definition OKInfo : nat := 0.
Definition initial : store := MkStore {[ OKInfo := MkErrorInfo 0 Status_OK ]} 1 ∅.

Definition set_errors (m : gmap nat ErrorInfo) (st : store) : store := MkStore m (next st) (handles st).
Definition set_handles (m : gmap nat nat) (st : store) : store := MkStore (errors st) (next st) m.

(** An access to an [ErrorInfo] or a handle that is not there. *)
Definition find_error (e : nat) (st : store) : result ErrorInfo :=
  match errors st !! e with Some x => Ok x | None => Err OutOfBounds end.
Definition find_handle (h : nat) (st : store) : result nat :=
  match handles st !! h with Some e => Ok e | None => Err OutOfBounds end.

(** [error->refs.fetchAndAdd(1)]. *)
Definition ref (e : nat) (st : store) : result store :=
  if bool_decide (e = OKInfo) then Ok st
  else let* x := find_error e st in
       Ok (set_errors (<[e := MkErrorInfo (u32 (refs x + 1)) (info x)]> (errors st)) st).

Definition unref (e : nat) (st : store) : result store :=
  if bool_decide (e = OKInfo) then Ok st
  else let* x := find_error e st in
       let n := u32 (refs x - 1) in
       Ok (set_errors (if n =? 0 then delete e (errors st)
                       else <[e := MkErrorInfo n (info x)]> (errors st)) st).

(** A handle is made once and is not used after its end. *)
Definition fresh_handle (h : nat) (st : store) : result unit :=
  match handles st !! h with Some _ => Err UndefinedBehaviour | None => Ok tt end.

Definition new_handle (h e : nat) (st : store) : store := set_handles (<[h := e]> (handles st)) st.

(** [Status h = Status::OK()]. *)
Definition make_OK (h : nat) (st : store) : result store :=
  let* _ := fresh_handle h st in
  let* st := ref OKInfo st in
  Ok (new_handle h OKInfo st).

(** [Status h(code, reason, location)]. *)
Definition make (h : nat) (s : Status) (st : store) : result store :=
  let* _ := fresh_handle h st in
  let e := next st in
  let st := MkStore (<[e := MkErrorInfo 0 s]> (errors st)) (S e) (handles st) in
  let* st := ref e st in
  Ok (new_handle h e st).

(** [Status h(other)]. *)
Definition copy (h other : nat) (st : store) : result store :=
  let* _ := fresh_handle h st in
  let* e := find_handle other st in
  let* st := ref e st in
  Ok (new_handle h e st).

(** [h = other]. *)
Definition assign (h other : nat) (st : store) : result store :=
  let* e := find_handle h st in
  let* e' := find_handle other st in
  let* st := ref e' st in
  let* st := unref e st in
  Ok (new_handle h e' st).

Definition destroy (h : nat) (st : store) : result store :=
  let* e := find_handle h st in
  let* st := unref e st in
  Ok (set_handles (delete h (handles st)) st).

(** The accessors. *)
Definition read (h : nat) (st : store) : result Status :=
  let* e := find_handle h st in
  let* x := find_error e st in
  Ok (info x).

Inductive op :=
  | MakeOK (h : nat)
  | Make (h : nat) (s : Status)
  | Copy (h other : nat)
  | Assign (h other : nat)
  | Destroy (h : nat).

Definition step (o : op) (st : store) : result store :=
  match o with
  | MakeOK h => make_OK h st
  | Make h s => make h s st
  | Copy h other => copy h other st
  | Assign h other => assign h other st
  | Destroy h => destroy h st
  end.

Fixpoint run (os : list op) (st : store) : result store :=
  match os with
  | [] => Ok st
  | o :: os => let* st := step o st in run os st
  end.

(** ** The values the handles stand for *)

Abbreviation values := (gmap nat Status).

(** What each operation means, where it is used as the language allows. *)
Definition spec_step (o : op) (a : values) : option values :=
  match o with
  | MakeOK h => match a !! h with None => Some (<[h := Status_OK]> a) | Some _ => None end
  | Make h s => match a !! h with None => Some (<[h := s]> a) | Some _ => None end
  | Copy h other => match a !! h, a !! other with None, Some s => Some (<[h := s]> a) | _, _ => None end
  | Assign h other => match a !! h, a !! other with Some _, Some s => Some (<[h := s]> a) | _, _ => None end
  | Destroy h => match a !! h with Some _ => Some (delete h a) | None => None end
  end.

Fixpoint spec_run (os : list op) (a : values) : option values :=
  match os with
  | [] => Some a
  | o :: os => a' ← spec_step o a; spec_run os a'
  end.

(** Never more handles than the 32-bit counter can count. *)
Definition handle_limit : Z := 2 ^ 32 - 2.

(** ** Counting handles *)

Definition count (e : nat) (m : gmap nat nat) : nat := size (filter (fun p : nat * nat => snd p = e) m).

Definition one (e e' : nat) : nat := if decide (e' = e) then 1%nat else 0%nat.

Lemma tally_insert e h e' m : m !! h = None -> count e (<[h := e']> m) = (one e e' + count e m)%nat.
Proof.
  intros Hm. unfold count, one. rewrite map_filter_insert. cbn [snd].
  destruct (decide (e' = e)).
  - rewrite map_size_insert_None; [done|]. by rewrite map_lookup_filter, Hm.
  - by rewrite delete_id.
Qed.

Lemma count_delete e h e' m : m !! h = Some e' -> count e m = (one e e' + count e (delete h m))%nat.
Proof. intros Hm. rewrite <- (insert_delete_id m h e' Hm) at 1. by rewrite tally_insert by apply lookup_delete_eq. Qed.

Lemma count_size e m : (count e m <= size m)%nat.
Proof. unfold count. apply map_subseteq_size, map_filter_subseteq. Qed.

(** ** The store implements the values *)

Definition tallies (m : gmap nat ErrorInfo) (c : nat -> nat) : Prop :=
  forall e x, e <> OKInfo -> m !! e = Some x -> refs x = Z.of_nat (c e).

Lemma limit_u32 n : Z.of_nat n <= handle_limit + 1 -> u32 (Z.of_nat n) = Z.of_nat n.
Proof. intros H. apply wrap_u_small. unfold handle_limit in H. lia. Qed.

Lemma ref_tallies e st c : is_Some (errors st !! e) -> tallies (errors st) c -> Z.of_nat (c e) <= handle_limit ->
  exists m, ref e st = Ok (set_errors m st) /\ tallies m (fun e' => one e' e + c e')%nat /\
    forall e', info <$> m !! e' = info <$> errors st !! e'.
Proof.
  intros [x Hx] Ht Hc. unfold ref, find_error. destruct (bool_decide (e = OKInfo)) eqn:He.
  - apply bool_decide_eq_true in He as ->. exists (errors st). split; [by destruct st|]. split; [|done].
    intros e' x' Hne Hx'. unfold one. rewrite decide_False by done. by apply Ht.
  - apply bool_decide_eq_false in He. rewrite Hx. cbn [bind]. eexists. split; [done|]. split.
    + intros e' x' Hne. destruct (decide (e = e')) as [<-|Hd].
      * rewrite lookup_insert_eq. intros [= <-]. cbn [refs]. rewrite (Ht e x He Hx).
        unfold one. rewrite decide_True by done.
        replace (Z.of_nat (c e) + 1) with (Z.of_nat (1 + c e)) by lia. apply limit_u32. lia.
      * rewrite lookup_insert_ne by done. unfold one. rewrite decide_False by done. by apply Ht.
    + intros e'. destruct (decide (e = e')) as [<-|Hd].
      * by rewrite lookup_insert_eq, Hx.
      * by rewrite lookup_insert_ne.
Qed.

Lemma unref_tallies e st c : is_Some (errors st !! e) -> tallies (errors st) (fun e' => one e' e + c e')%nat ->
  Z.of_nat (c e) <= handle_limit ->
  exists m, unref e st = Ok (set_errors m st) /\ tallies m c /\
    (forall e', e' <> e \/ e = OKInfo \/ (0 < c e)%nat -> info <$> m !! e' = info <$> errors st !! e') /\
    (e <> OKInfo -> c e = 0%nat -> m !! e = None).
Proof.
  intros [x Hx] Ht Hc. unfold unref, find_error. destruct (bool_decide (e = OKInfo)) eqn:He.
  - apply bool_decide_eq_true in He as ->. exists (errors st). split; [by destruct st|]. split; [|done].
    intros e' x' Hne Hx'. pose proof (Ht e' x' Hne Hx') as H. unfold one in H. by rewrite decide_False in H by done.
  - apply bool_decide_eq_false in He. rewrite Hx. cbn [bind].
    assert (u32 (refs x - 1) = Z.of_nat (c e)) as ->.
    { rewrite (Ht e x He Hx). unfold one. rewrite decide_True by done.
      replace (Z.of_nat (1 + c e) - 1) with (Z.of_nat (c e)) by lia. apply limit_u32. lia. }
    eexists. split; [done|]. destruct (Z.eqb_spec (Z.of_nat (c e)) 0) as [Hz|Hnz].
    + split; [|split; [|by rewrite lookup_delete_eq]].
      * intros e' x' Hne Hx'. apply lookup_delete_Some in Hx' as [Hd Hx']. pose proof (Ht e' x' Hne Hx') as H.
        unfold one in H. by rewrite decide_False in H.
      * intros e' [Hd|[Hd|Hd]]; [by rewrite lookup_delete_ne|done|lia].
    + split; [|split; [|lia]].
      * intros e' x' Hne. destruct (decide (e = e')) as [<-|Hd].
        { rewrite lookup_insert_eq. by intros [= <-]. }
        rewrite lookup_insert_ne by done. intros Hx'. pose proof (Ht e' x' Hne Hx') as H.
        unfold one in H. by rewrite decide_False in H.
      * intros e' _. destruct (decide (e = e')) as [<-|Hd]; [by rewrite lookup_insert_eq, Hx|by rewrite lookup_insert_ne].
Qed.

(** The counters count the handles; an error is kept as long as one is on it. *)
Record store_ok (st : store) : Prop := {
  ok_static : info <$> errors st !! OKInfo = Some Status_OK;
  ok_counts : tallies (errors st) (fun e => count e (handles st));
  ok_live : forall e, e <> OKInfo -> is_Some (errors st !! e) <-> (0 < count e (handles st))%nat;
  ok_fresh : forall e, is_Some (errors st !! e) -> (e < next st)%nat;
}.

Definition stands_for (st : store) (a : values) : Prop :=
  forall h, a !! h = (e ← handles st !! h; info <$> errors st !! e).

Lemma handle_counted st h e : handles st !! h = Some e -> (0 < count e (handles st))%nat.
Proof. intros Hh. rewrite (count_delete e h e _ Hh). unfold one. rewrite decide_True by done. lia. Qed.

Lemma handle_error st h e : store_ok st -> handles st !! h = Some e -> is_Some (errors st !! e).
Proof.
  intros Hst Hh. destruct (decide (e = OKInfo)) as [-> |He].
  - pose proof (ok_static st Hst) as H. by destruct (errors st !! OKInfo).
  - apply (ok_live st Hst e He). by apply (handle_counted st h).
Qed.

Lemma stands_dom st a : store_ok st -> stands_for st a -> forall h, a !! h = None <-> handles st !! h = None.
Proof.
  intros Hst Ha h. rewrite (Ha h). destruct (handles st !! h) as [e|] eqn:Hh; [|done]. cbn [mbind option_bind].
  destruct (handle_error st h e Hst Hh) as [x ->]. done.
Qed.

Lemma stands_size st a : store_ok st -> stands_for st a -> size (handles st) = size a.
Proof.
  intros Hst Ha. rewrite <- (size_dom (handles st)), <- (size_dom a). f_equal. apply set_eq. intros h.
  rewrite !elem_of_dom, <- !not_eq_None_Some. by rewrite (stands_dom st a Hst Ha h).
Qed.


Ltac store_simpl := unfold new_handle, set_handles, set_errors; cbn [handles errors next].

Lemma same_dom (m m' : gmap nat ErrorInfo) e :
  info <$> m !! e = info <$> m' !! e -> is_Some (m !! e) <-> is_Some (m' !! e).
Proof. destruct (m !! e), (m' !! e); intros H; try discriminate H; split; intros H'; (by destruct H') || by eexists. Qed.

(** A handle more, on an error that is there. *)
Lemma new_handle_ok st a h e x : store_ok st -> stands_for st a -> a !! h = None -> errors st !! e = Some x ->
  Z.of_nat (size a) <= handle_limit ->
  exists m, ref e st = Ok (set_errors m st) /\ store_ok (new_handle h e (set_errors m st)) /\
    stands_for (new_handle h e (set_errors m st)) (<[h := info x]> a).
Proof.
  intros Hst Ha Hh Hx Hsz. apply (stands_dom st a Hst Ha) in Hh.
  destruct (ref_tallies e st _ (mk_is_Some _ _ Hx) (ok_counts st Hst)) as (m & Hr & Ht & Hi).
  { pose proof (count_size e (handles st)). rewrite (stands_size st a Hst Ha) in *. lia. }
  exists m. split; [done|]. pose proof (fun e' => same_dom m (errors st) e' (Hi e')) as Hdom.
  split; [split|].
  - store_simpl. rewrite Hi. apply Hst.
  - store_simpl. intros e' x' Hne Hx'. rewrite (Ht e' x' Hne Hx'). by rewrite tally_insert.
  - store_simpl. intros e' Hne. rewrite Hdom, (ok_live st Hst e' Hne), tally_insert by done.
    unfold one. destruct (decide (e = e')) as [<-|]; [|done].
    split; [lia|]. intros _. apply (ok_live st Hst e Hne). by exists x.
  - store_simpl. intros e' He'. apply Hdom in He'. by apply (ok_fresh st Hst).
  - intros h'. store_simpl. destruct (decide (h = h')) as [<-|Hd].
    + rewrite !lookup_insert_eq. change (Some (info x) = info <$> m !! e). by rewrite Hi, Hx.
    + rewrite !lookup_insert_ne by done. rewrite (Ha h').
      destruct (handles st !! h') as [e'|]; [|done]. change (info <$> errors st !! e' = info <$> m !! e'). by rewrite Hi.
Qed.

(** Taking back a reference leaves the errors that the handles [hs] are on. *)
Lemma unref_ok st e hs : info <$> errors st !! OKInfo = Some Status_OK ->
  tallies (errors st) (fun e' => one e' e + count e' hs)%nat ->
  (forall e', e' <> OKInfo -> is_Some (errors st !! e') <-> (0 < one e' e + count e' hs)%nat) ->
  (forall e', is_Some (errors st !! e') -> (e' < next st)%nat) -> Z.of_nat (size hs) <= handle_limit ->
  exists m, unref e st = Ok (set_errors m st) /\ store_ok (set_handles hs (set_errors m st)) /\
    forall e', e' = OKInfo \/ (0 < count e' hs)%nat -> info <$> m !! e' = info <$> errors st !! e'.
Proof.
  intros Hok Ht Hlive Hfresh Hsz. set (c := fun e' => count e' hs) in *.
  assert (one e e = 1%nat) as H1 by (unfold one; by rewrite decide_True).
  assert (is_Some (errors st !! e)) as He.
  { destruct (decide (e = OKInfo)) as [-> |Hne]; [by destruct (errors st !! OKInfo)|]. apply (Hlive e Hne). lia. }
  destruct (unref_tallies e st c He Ht) as (m & Hr & Ht' & Hi & Hgone).
  { unfold c. pose proof (count_size e hs). lia. }
  assert (forall e', e' = OKInfo \/ (0 < c e')%nat -> info <$> m !! e' = info <$> errors st !! e') as Hi'.
  { intros e' Hor. apply Hi. destruct (decide (e' = e)) as [-> |]; [right|by left]. exact Hor. }
  exists m. split; [done|]. split; [split|exact Hi'].
  - store_simpl. rewrite Hi'; [done|by left].
  - store_simpl. exact Ht'.
  - store_simpl. intros e' Hne. change (count e' hs) with (c e'). destruct (decide (c e' = 0%nat)) as [H0|H0].
    + rewrite H0. split; [|lia]. intros Hs. exfalso. destruct (decide (e' = e)) as [-> |Hd].
      * rewrite (Hgone Hne H0) in Hs. by destruct Hs.
      * rewrite (same_dom m (errors st)), (Hlive e' Hne) in Hs by (apply Hi; by left).
        unfold one in Hs. rewrite decide_False in Hs by done. change (count e' hs) with (c e') in Hs. lia.
    + split; [lia|]. intros Hs. rewrite (same_dom m (errors st)), (Hlive e' Hne) by (apply Hi'; by right).
      change (count e' hs) with (c e'). lia.
  - store_simpl. intros e' Hs. apply Hfresh. destruct (decide (e' = e)) as [-> |Hd]; [done|].
    apply (same_dom m (errors st)); [apply Hi; by left|done].
Qed.

Lemma destroy_ok st a h e : store_ok st -> stands_for st a -> handles st !! h = Some e ->
  Z.of_nat (size a) <= handle_limit ->
  exists st', destroy h st = Ok st' /\ store_ok st' /\ stands_for st' (delete h a).
Proof.
  intros Hst Ha Hh Hsz. unfold destroy, find_handle. rewrite Hh. cbn [bind].
  pose proof (fun e' => count_delete e' h e _ Hh) as Hc.
  destruct (unref_ok st e (delete h (handles st))) as (m & -> & Hok & Hi); [apply Hst| | |apply Hst| |].
  - intros e' x Hne Hx. rewrite (ok_counts st Hst e' x Hne Hx). by rewrite Hc.
  - intros e' Hne. by rewrite (ok_live st Hst e' Hne), Hc.
  - rewrite map_size_delete_Some by by eexists. rewrite (stands_size st a Hst Ha). lia.
  - cbn [bind]. eexists. split; [done|]. split; [exact Hok|]. intros h'. store_simpl.
    destruct (decide (h = h')) as [<-|Hd]; [by rewrite !lookup_delete_eq|].
    rewrite !lookup_delete_ne by done. rewrite (Ha h'). destruct (handles st !! h') as [e'|] eqn:Hh'; [|done].
    change (info <$> errors st !! e' = info <$> m !! e'). symmetry. apply Hi. right.
    rewrite (count_delete e' h' e') by by rewrite lookup_delete_ne. unfold one. rewrite decide_True by done. lia.
Qed.

Lemma assign_ok st a h e other e' s : store_ok st -> stands_for st a -> handles st !! h = Some e ->
  handles st !! other = Some e' -> a !! other = Some s -> Z.of_nat (size a) <= handle_limit ->
  exists st', assign h other st = Ok st' /\ store_ok st' /\ stands_for st' (<[h := s]> a).
Proof.
  intros Hst Ha Hh Ho Hs Hsz. unfold assign, find_handle. rewrite Hh, Ho. cbn [bind].
  pose proof (fun e2 => count_delete e2 h e _ Hh) as Hc.
  assert (forall e2, count e2 (<[h := e']> (handles st)) = one e2 e' + count e2 (delete h (handles st)))%nat as Hc'.
  { intros e2. rewrite <- insert_delete_eq, tally_insert; [done|]. apply lookup_delete_eq. }
  destruct (handle_error st other e' Hst Ho) as [x Hx].
  destruct (ref_tallies e' st _ (mk_is_Some _ _ Hx) (ok_counts st Hst)) as (m1 & -> & Ht1 & Hi1).
  { pose proof (count_size e' (handles st)). rewrite (stands_size st a Hst Ha) in *. lia. }
  cbn [bind]. pose proof (fun e2 => same_dom m1 (errors st) e2 (Hi1 e2)) as Hdom.
  destruct (unref_ok (set_errors m1 st) e (<[h := e']> (handles st))) as (m & -> & Hok & Hi).
  - store_simpl. rewrite Hi1. apply Hst.
  - store_simpl. intros e2 x2 Hne Hx2. rewrite (Ht1 e2 x2 Hne Hx2), Hc, Hc'. lia.
  - store_simpl. intros e2 Hne. rewrite Hdom, (ok_live st Hst e2 Hne), Hc, Hc'.
    unfold one at 3. destruct (decide (e' = e2)) as [<-|]; [|lia].
    split; [lia|]. intros _. rewrite <- Hc. by apply (handle_counted st other).
  - store_simpl. intros e2 He2. apply Hdom in He2. by apply (ok_fresh st Hst).
  - rewrite map_size_insert_Some by by eexists. rewrite (stands_size st a Hst Ha). lia.
  - cbn [bind]. eexists. split; [done|]. split; [exact Hok|]. intros h'.
    unfold set_errors in Hi. cbn [errors] in Hi. store_simpl.
    assert (forall h2 e2, <[h := e']> (handles st) !! h2 = Some e2 -> info <$> m !! e2 = info <$> errors st !! e2) as Hsame.
    { intros h2 e2 H2. rewrite Hi, Hi1; [done|right]. rewrite (count_delete e2 h2 e2 _ H2). unfold one.
      rewrite decide_True by done. lia. }
    destruct (decide (h = h')) as [<-|Hd].
    + rewrite !lookup_insert_eq. change (Some s = info <$> m !! e'). rewrite (Hsame h e') by apply lookup_insert_eq.
      rewrite (Ha other), Ho in Hs. by rewrite <- Hs.
    + pose proof (Hsame h') as Hsame'. rewrite !lookup_insert_ne in * by done. rewrite (Ha h').
      destruct (handles st !! h') as [e2|]; [|done]. change (info <$> errors st !! e2 = info <$> m !! e2).
      symmetry. by apply Hsame'.
Qed.

Lemma make_ok st a h s : store_ok st -> stands_for st a -> handles st !! h = None ->
  Z.of_nat (size a) <= handle_limit ->
  exists st', make h s st = Ok st' /\ store_ok st' /\ stands_for st' (<[h := s]> a).
Proof.
  intros Hst Ha Hh Hsz. unfold make, fresh_handle. rewrite Hh. cbn [bind].
  assert (errors st !! next st = None) as Hnew.
  { destruct (errors st !! next st) eqn:E; [|done]. pose proof (ok_fresh st Hst _ (mk_is_Some _ _ E)). lia. }
  assert (next st <> OKInfo) as Hne.
  { intros E. pose proof (ok_static st Hst) as H. rewrite <- E, Hnew in H. done. }
  assert (count (next st) (handles st) = 0%nat) as H0.
  { destruct (decide (0 < count (next st) (handles st))%nat) as [Hc|]; [|lia].
    apply (ok_live st Hst _ Hne) in Hc. rewrite Hnew in Hc. by destruct Hc. }
  set (st1 := MkStore (<[next st := MkErrorInfo 0 s]> (errors st)) (S (next st)) (handles st)).
  destruct (ref_tallies (next st) st1 (fun e => count e (handles st))) as (m & -> & Ht & Hi).
  - exists (MkErrorInfo 0 s). apply lookup_insert_eq.
  - intros e x He. cbn [errors st1]. destruct (decide (next st = e)) as [<-|Hd].
    + rewrite lookup_insert_eq. intros [= <-]. by rewrite H0.
    + rewrite lookup_insert_ne by done. by apply (ok_counts st Hst).
  - rewrite H0. done.
  - cbn [bind]. eexists. split; [done|].
    assert (forall e, e <> next st -> info <$> m !! e = info <$> errors st !! e) as Hold.
    { intros e Hd. rewrite Hi. cbn [errors st1]. by rewrite lookup_insert_ne. }
    assert (info <$> m !! next st = Some s) as Hthis by (rewrite Hi; cbn [errors st1]; by rewrite lookup_insert_eq).
    split; [split|].
    + store_simpl. rewrite Hold by done. apply Hst.
    + store_simpl. cbn [handles st1]. intros e x He Hx. rewrite (Ht e x He Hx). by rewrite tally_insert.
    + store_simpl. cbn [handles st1]. intros e He. rewrite tally_insert by done. unfold one.
      destruct (decide (next st = e)) as [<-|Hd].
      * split; [lia|]. intros _. destruct (m !! next st); [by eexists|done].
      * rewrite (same_dom m (errors st)) by (apply Hold; done). by apply (ok_live st Hst).
    + store_simpl. cbn [next st1]. intros e He. destruct (decide (next st = e)) as [<-|Hd]; [lia|].
      apply (same_dom m (errors st)) in He; [|apply Hold; done]. apply (ok_fresh st Hst) in He. lia.
    + intros h'. store_simpl. cbn [handles st1]. destruct (decide (h = h')) as [<-|Hd].
      * rewrite !lookup_insert_eq. by symmetry.
      * rewrite !lookup_insert_ne by done. rewrite (Ha h'). destruct (handles st !! h') as [e|] eqn:Hh'; [|done].
        change (info <$> errors st !! e = info <$> m !! e). rewrite Hold; [done|]. intros ->.
        apply handle_counted in Hh'. lia.
Qed.

Lemma copy_ok st a h other e s : store_ok st -> stands_for st a -> a !! h = None -> handles st !! other = Some e ->
  a !! other = Some s -> Z.of_nat (size a) <= handle_limit ->
  exists m, ref e st = Ok (set_errors m st) /\ store_ok (new_handle h e (set_errors m st)) /\
    stands_for (new_handle h e (set_errors m st)) (<[h := s]> a).
Proof.
  intros Hst Ha Hh Ho Hs Hsz. destruct (handle_error st other e Hst Ho) as [x Hx].
  rewrite (Ha other), Ho in Hs. change (info <$> errors st !! e = Some s) in Hs. rewrite Hx in Hs. injection Hs as <-.
  by apply new_handle_ok.
Qed.

Lemma step_refines o st a a' : store_ok st -> stands_for st a -> spec_step o a = Some a' ->
  Z.of_nat (size a) <= handle_limit -> exists st', step o st = Ok st' /\ store_ok st' /\ stands_for st' a'.
Proof.
  intros Hst Ha Ho Hsz. pose proof (stands_dom st a Hst Ha) as Hdom.
  assert (forall h s, a !! h = Some s -> exists e, handles st !! h = Some e) as Hsome.
  { intros h s Hs. rewrite (Ha h) in Hs. destruct (handles st !! h) as [e|]; [by exists e|done]. }
  destruct o as [h|h s|h other|h other|h]; cbn [spec_step step] in *.
  - destruct (a !! h) eqn:Hh; [done|]. injection Ho as <-.
    unfold make_OK, fresh_handle. rewrite (proj1 (Hdom h) Hh). cbn [bind].
    pose proof (ok_static st Hst) as Hok. destruct (errors st !! OKInfo) as [x|] eqn:Hx; [|done]. injection Hok as Hx'.
    destruct (new_handle_ok st a h OKInfo x Hst Ha Hh Hx Hsz) as (m & -> & H1 & H2). rewrite Hx' in H2.
    eexists. by split.
  - destruct (a !! h) eqn:Hh; [done|]. injection Ho as <-. apply make_ok; [done|done|by apply Hdom|done].
  - destruct (a !! h) eqn:Hh; [done|]. destruct (a !! other) as [s|] eqn:Hs; [|done]. injection Ho as <-.
    destruct (Hsome other s Hs) as [e He]. unfold copy, fresh_handle, find_handle.
    rewrite (proj1 (Hdom h) Hh), He. cbn [bind].
    destruct (copy_ok st a h other e s Hst Ha Hh He Hs Hsz) as (m & -> & H). eexists. by split.
  - destruct (a !! h) as [s0|] eqn:Hh; [|done]. destruct (a !! other) as [s|] eqn:Hs; [|done]. injection Ho as <-.
    destruct (Hsome h s0 Hh) as [e He]. destruct (Hsome other s Hs) as [e' He'].
    by apply (assign_ok st a h e other e' s).
  - destruct (a !! h) as [s0|] eqn:Hh; [|done]. injection Ho as <-.
    destruct (Hsome h s0 Hh) as [e He]. by apply (destroy_ok st a h e).
Qed.

Lemma spec_step_size o a a' : spec_step o a = Some a' -> (size a' <= S (size a))%nat.
Proof.
  assert (forall h s, (size (<[h := s]> a) <= S (size a))%nat) as Hi.
  { intros h s. rewrite map_size_insert. destruct (a !! h); unfold id; lia. }
  destruct o as [h|h s|h other|h other|h]; cbn [spec_step]; destruct (a !! h) eqn:E; try discriminate;
    try (destruct (a !! other); [|discriminate]); intros [= <-]; auto.
  rewrite map_size_delete_Some by by eexists. lia.
Qed.

Lemma run_refines os : forall st a a', store_ok st -> stands_for st a -> spec_run os a = Some a' ->
  Z.of_nat (size a + length os) <= handle_limit ->
  exists st', run os st = Ok st' /\ store_ok st' /\ stands_for st' a'.
Proof.
  induction os as [|o os IH]; intros st a a' Hst Ha Hr Hsz; cbn [spec_run run length] in *.
  - injection Hr as <-. by exists st.
  - destruct (spec_step o a) as [a1|] eqn:Ho; [|done]. change (spec_run os a1 = Some a') in Hr.
    destruct (step_refines o st a a1 Hst Ha Ho) as (st1 & -> & Hst1 & Ha1); [lia|]. cbn [bind].
    pose proof (spec_step_size o a a1 Ho). apply (IH st1 a1); [done|done|done|lia].
Qed.

Lemma initial_ok : store_ok initial.
Proof.
  split.
  - done.
  - intros e x Hne Hx. cbn [errors initial] in Hx. by apply lookup_singleton_Some in Hx as [<- _].
  - intros e Hne. cbn [errors initial handles]. rewrite lookup_singleton_ne by (by intros <-).
    split; [by intros [? ?]|]. unfold count. rewrite map_filter_empty, map_size_empty. lia.
  - intros e [x Hx]. cbn [errors initial] in Hx. apply lookup_singleton_Some in Hx as [<- _]. cbn. unfold OKInfo. lia.
Qed.

(** C34: the reference counts keep the handles right: operations on statuses
    that the language allows, up to 2^32-2 of them, succeed, touch nothing that
    is freed, and leave each handle with the value it would have if statuses
    were copied; and exactly the errors that some handle is on are kept, beside
    the static one. *)
Theorem refcount_refines os a : spec_run os ∅ = Some a -> Z.of_nat (length os) <= handle_limit ->
  exists st, run os initial = Ok st /\
    (forall h, read h st = match a !! h with Some s => Ok s | None => Err OutOfBounds end) /\
    (forall e, is_Some (errors st !! e) <-> e = OKInfo \/ exists h, handles st !! h = Some e).
Proof.
  intros Hr Hsz. destruct (run_refines os initial ∅ a) as (st & Hrun & Hst & Ha); [apply initial_ok|done|done|done|].
  exists st. split; [done|]. split.
  - intros h. unfold read, find_handle. rewrite (Ha h). destruct (handles st !! h) as [e|] eqn:Hh; [|done].
    cbn [bind]. unfold find_error. destruct (handle_error st h e Hst Hh) as [x Hx]. cbn. by rewrite Hx.
  - intros e. split.
    + intros He. destruct (decide (e = OKInfo)) as [-> |Hne]; [by left|right].
      apply (ok_live st Hst e Hne) in He. unfold count in He.
      destruct (decide (filter (fun p : nat * nat => snd p = e) (handles st) = ∅)) as [E|E].
      * rewrite E, map_size_empty in He. lia.
      * apply map_choose in E as (h & e' & Hf). apply map_lookup_filter_Some in Hf as [Hh Hs]. cbn in Hs.
        subst e'. by exists h.
    + intros [-> |[h Hh]]; [|by apply (handle_error st h)].
      pose proof (ok_static st Hst) as H. by destruct (errors st !! OKInfo).
Qed.

Definition refcount_sample : list op :=
  [Make 1 (error_status ErrorCodes.BadValue (bstr "x")); Copy 2 1; Assign 1 1; Destroy 1; MakeOK 3;
   Make 4 (error_status ErrorCodes.NoSuchKey (bstr "y")); Assign 2 4; Assign 4 3].

Lemma refcount_refines_witness : exists st, run refcount_sample initial = Ok st /\
  read 2 st = Ok (error_status ErrorCodes.NoSuchKey (bstr "y")) /\ size (errors st) = 2%nat.
Proof.
  destruct (refcount_refines refcount_sample _ eq_refl ltac:(by vm_compute)) as (st & Hr & Hv & _).
  exists st. split; [done|]. split; [by rewrite Hv|].
  vm_compute in Hr. injection Hr as <-. by vm_compute.
Defined.

End Refs.
