(* ===== verification/Pool.v ===== *)
(** * Pool: agents that share a state, and the words they share
    (platform/atomic_word.h)

    A concurrent component is a function that lets one agent do one atomic
    action: an operation on an atomic word, an access to a plain field, taking
    or leaving a mutex.  A world is the shared state and the list of what each
    agent is at; a step lets any agent act.  Memory is sequentially consistent:
    [loadRelaxed] is a [load]. *)

From stdpp Require Import base list numbers option relations tactics.
From Stdlib Require Import ZArith Lia.
From S2P Require Import Prelude.

(** ** Atomic words

    Each operation returns what the code gets and the new value; [wrap] is the
    wrap-around of the word's type. *)

Section atomic_word.
Context (wrap : Z -> Z).

Definition fetchAndAdd (v increment : Z) : Z * Z := (v, wrap (v + increment)).

Definition fetchAndSubtract (v decrement : Z) : Z * Z := fetchAndAdd v (wrap (0 - decrement)).

Definition addAndFetch (v increment : Z) : Z * Z :=
  let '(old, v') := fetchAndAdd v increment in (wrap (old + increment), v').

Definition subtractAndFetch (v decrement : Z) : Z * Z :=
  let '(old, v') := fetchAndSubtract v decrement in (wrap (old - decrement), v').

Definition compareAndSwap (v expected newValue : Z) : Z * Z :=
  (v, if v =? expected then newValue else v).
End atomic_word.

Lemma addAndFetch_u32 v n : addAndFetch u32 v n = (u32 (v + n), u32 (v + n)).
Proof. done. Qed.

Lemma subtractAndFetch_u32 v n : subtractAndFetch u32 v n = (u32 (v - n), u32 (v - n)).
Proof.
  unfold subtractAndFetch, fetchAndSubtract, fetchAndAdd, wrap_u.
  by rewrite Zplus_mod_idemp_r.
Qed.

Lemma subtractAndFetch_s32 v n : subtractAndFetch s32 v n = (s32 (v - n), s32 (v - n)).
Proof.
  unfold subtractAndFetch, fetchAndSubtract, fetchAndAdd. f_equal. unfold wrap_s.
  apply (f_equal (fun z => z - 2 ^ (32 - 1))).
  set (m := 2 ^ 32). set (h := 2 ^ (32 - 1)).
  replace (v + ((0 - n + h) mod m - h) + h) with (v + (0 - n + h) mod m) by lia.
  rewrite Zplus_mod_idemp_r. f_equal. lia.
Qed.

(** ** Counting agents *)

Section count.
Context {L : Type} (f : L -> bool).

Fixpoint count (ls : list L) : Z :=
  match ls with
  | [] => 0
  | l :: ls' => Z.b2z (f l) + count ls'
  end.

Lemma count_range ls : 0 <= count ls <= zlen ls.
Proof. induction ls; simpl; unfold zlen in *; simpl; [lia | destruct (f a); simpl; lia]. Qed.

Lemma count_insert ls i l l' :
  ls !! i = Some l -> count (<[i:=l']> ls) = count ls - Z.b2z (f l) + Z.b2z (f l').
Proof.
  revert i. induction ls as [|x ls IH]; intros [|i] H; simplify_eq/=; [lia|].
  rewrite (IH _ H). lia.
Qed.

Lemma count_pos ls i l : ls !! i = Some l -> f l = true -> 0 < count ls.
Proof.
  revert i. induction ls as [|x ls IH]; intros [|i] H Hf; simplify_eq/=.
  - rewrite Hf. pose proof (count_range ls). simpl. lia.
  - specialize (IH _ H Hf). destruct (f x); simpl; lia.
Qed.

Lemma count_two ls i j l l' :
  i <> j -> ls !! i = Some l -> ls !! j = Some l' -> f l = true -> f l' = true -> 1 < count ls.
Proof.
  intros Hij Hi Hj Hl Hl'.
  pose proof (count_insert ls i l l Hi).
  revert i j Hij Hi Hj H. induction ls as [|x ls IH]; intros [|i] [|j] Hij Hi Hj _; simplify_eq/=.
  - pose proof (count_pos _ _ _ Hj Hl'). rewrite Hl. simpl. lia.
  - pose proof (count_pos _ _ _ Hi Hl). rewrite Hl'. simpl. lia.
  - assert (i <> j) by congruence.
    specialize (IH i j H Hi Hj (count_insert ls i l l Hi)). destruct (f x); simpl; lia.
Qed.

Lemma count_none ls : (forall i l, ls !! i = Some l -> f l = false) -> count ls = 0.
Proof.
  induction ls as [|x ls IH]; intros H; simpl; [done|].
  rewrite (H 0%nat x eq_refl). simpl. apply IH. intros i l Hi. apply (H (S i) l Hi).
Qed.
End count.

Lemma count_exists {L} (f : L -> bool) ls :
  0 < count f ls -> exists i l, ls !! i = Some l /\ f l = true.
Proof.
  induction ls as [|x ls IH]; simpl; [lia|]. intros H.
  destruct (f x) eqn:E; [by exists 0%nat, x|].
  destruct IH as (i & l & ? & ?); [simpl in H; lia|]. by exists (S i), l.
Qed.

Lemma count_le {L} (f g : L -> bool) ls :
  (forall l, f l = true -> g l = true) -> count f ls <= count g ls.
Proof.
  intros H. induction ls as [|l ls IH]; simpl; [done|].
  specialize (H l). destruct (f l), (g l); simpl; lia.
Qed.

Lemma count_replicate {L} (f : L -> bool) n l :
  count f (replicate n l) = Z.of_nat n * Z.b2z (f l).
Proof. induction n as [|n IH]; cbn [replicate count]; [lia|]. rewrite IH. lia. Qed.

(** ** Worlds and steps *)

Record world (Sh L : Type) := World { shared : Sh; agents : list L }.
Arguments World {Sh L}.
Arguments shared {Sh L}.
Arguments agents {Sh L}.

Section pool.
(** [C] is what an agent that may choose does next. *)
Context {Sh L C : Type} (exec : C -> Sh -> L -> option (Sh * L)).

Definition act (i : nat) (c : C) (w : world Sh L) : option (world Sh L) :=
  l ← agents w !! i;
  '(sh, l') ← exec c (shared w) l;
  Some (World sh (<[i := l']> (agents w))).

Definition pool_step (w w' : world Sh L) : Prop := exists i c, act i c w = Some w'.

(** The worlds of a schedule, for examples. *)
Fixpoint run_schedule (sched : list (nat * C)) (w : world Sh L) : option (world Sh L) :=
  match sched with
  | [] => Some w
  | (i, c) :: sched' => w' ← act i c w; run_schedule sched' w'
  end.

Lemma run_schedule_reachable sched w w' :
  run_schedule sched w = Some w' -> rtc pool_step w w'.
Proof.
  revert w. induction sched as [|[i c] sched IH]; intros w H; simpl in H; [by simplify_eq|].
  apply bind_Some in H as (w1 & H1 & H2). eapply rtc_l; [exists i, c; exact H1 | by apply IH].
Qed.

Lemma act_inv i c w w' :
  act i c w = Some w' ->
  exists l sh l', agents w !! i = Some l /\ exec c (shared w) l = Some (sh, l')
    /\ w' = World sh (<[i := l']> (agents w)).
Proof.
  unfold act. intros (l & Hl & H)%bind_Some.
  apply bind_Some in H as ([sh l'] & He & H). simplify_eq. eauto 10.
Qed.

(** Rule induction on the steps of a world. *)
Lemma pool_invariant (I : world Sh L -> Prop) w0 w :
  I w0 ->
  (forall w i c l sh l', I w -> agents w !! i = Some l -> exec c (shared w) l = Some (sh, l') ->
     I (World sh (<[i := l']> (agents w)))) ->
  rtc pool_step w0 w -> I w.
Proof.
  intros H0 Hs Hr. induction Hr as [|w0 w1 w2 (i & c & Hact) _ IH]; [done|].
  apply IH. apply act_inv in Hact as (l & sh & l' & Hl & He & ->). eauto.
Qed.

Lemma pool_length w0 w : rtc pool_step w0 w -> length (agents w) = length (agents w0).
Proof.
  induction 1 as [|w0 w1 w2 (i & c & Hact) _ IH]; [done|].
  apply act_inv in Hact as (l & sh & l' & Hl & He & ->). rewrite IH. simpl. apply length_insert.
Qed.

(** One agent alone, until it [stops]. *)
Fixpoint run_alone (stops : L -> bool) (c : C) (fuel : nat) (sh : Sh) (l : L) : option (Sh * L) :=
  if stops l then Some (sh, l)
  else
    match fuel with
    | O => None
    | S fuel' => '(sh', l') ← exec c sh l; run_alone stops c fuel' sh' l'
    end.
End pool.
