(* ===== verification/InitGraph.v ===== *)
(** * InitGraph: the order of the driver's initializers
    (base/initializer_dependency_graph.cpp, base/initializer.cpp)

    A graph of named functions with prerequisites, sorted by a depth-first
    traversal, and run in that order.  The graph is a hash map whose order of
    iteration is not specified: it is the class [HashOrder], of which the
    development only uses that each element is met once. *)

From stdpp Require Import base list numbers strings option gmap fin_maps tactics.
From Stdlib Require Import Strings.Byte ZArith Lia.
From S2P Require Import Prelude Status.

Abbreviation name := (list byte).

Section graph.
(** What an initializer gets and what it changes. *)
Context {Context_ World : Type}.

(** A [boost::function], which may be empty. *)
Definition InitializerFunction : Type := option (Context_ -> World -> Status * World).

Record NodeData := MkNode { fn : InitializerFunction; prerequisites : gset name }.
Definition NodeMap : Type := gmap name NodeData.

(** The order in which an [unordered_map] and an [unordered_set] are walked. *)
Class HashOrder := {
  order_nodes : gmap name NodeData -> list (name * NodeData);
  order_names : gset name -> list name;
  order_nodes_perm m : order_nodes m ≡ₚ map_to_list m;
  order_names_perm s : order_names s ≡ₚ elements s;
}.

Definition empty_node : NodeData := MkNode None ∅.

(** [_nodes[n]], which adds a node that is not there. *)
Definition node (n : name) (nodes : gmap name NodeData) : NodeData := default empty_node (nodes !! n).

Definition add_prerequisite (p : name) (d : NodeData) : NodeData := MkNode (fn d) ({[p]} ∪ prerequisites d).

Definition addInitializer (n : name) (f : InitializerFunction) (prereqs dependents : list name)
    (nodes : gmap name NodeData) : Status * gmap name NodeData :=
  match f with
  | None => (error_status ErrorCodes.BadValue (bstr "Illegal to supply a NULL function"), nodes)
  | Some _ =>
      let newNode := node n nodes in
      match fn newNode with
      | Some _ => (error_status ErrorCodes.DuplicateKey n, nodes)
      | None =>
          let newNode := foldl (fun d p => add_prerequisite p d) (MkNode f (prerequisites newNode)) prereqs in
          let nodes := <[n := newNode]> nodes in
          (Status_OK, foldl (fun m d => <[d := add_prerequisite n (node d m)]> m) nodes dependents)
      end
  end.

Definition getInitializerFunction (n : name) (nodes : gmap name NodeData) : InitializerFunction :=
  match nodes !! n with None => None | Some d => fn d end.

(** ** The traversal *)

Record dfs := MkDfs { inProgressNodeNames : list name; visitedNodeNames : gset name; sortedNames : list name }.

Definition ok_status (s : Status) : bool := Status.compare Status_OK s.

(** [std::find] from the start: the elements from the first [n] on. *)
Fixpoint find_from (n : name) (l : list name) : list name :=
  match l with
  | [] => []
  | x :: r => if bool_decide (x = n) then l else find_from n r
  end.

Fixpoint arrows (l : list name) : list byte :=
  match l with
  | [] => []
  | x :: r => bstr " -> " ++ x ++ arrows r
  end.

Definition cycle_message (l : list name) : list byte :=
  bstr "Cycle in dependendcy graph: " ++ match l with x :: r => x ++ arrows r | [] => [] end.

(** The loop over the prerequisites of a node. *)
Fixpoint visit_prerequisites (visit : name * NodeData -> dfs -> result (Status * dfs))
    (nodeMap : gmap name NodeData) (l : list name) (st : dfs) : result (Status * dfs) :=
  match l with
  | [] => Ok (Status_OK, st)
  | p :: r =>
      match nodeMap !! p with
      | None => Ok (error_status ErrorCodes.BadValue p, st)
      | Some d =>
          let* x := visit (p, d) st in
          if ok_status (fst x) then visit_prerequisites visit nodeMap r (snd x) else Ok x
      end
  end.

Section order.
Context `{HashOrder}.

Fixpoint recursiveTopSort (fuel : nat) (nodeMap : gmap name NodeData) (currentNode : name * NodeData) (st : dfs)
    : result (Status * dfs) :=
  match fuel with
  | O => Err OutOfFuel
  | S fuel' =>
      let n := fst currentNode in
      if bool_decide (n ∈ visitedNodeNames st) then Ok (Status_OK, st)
      else
        match fn (snd currentNode) with
        | None => Ok (error_status ErrorCodes.BadValue n, st)
        | Some _ =>
            let inProgress := inProgressNodeNames st ++ [n] in
            let fromFirst := find_from n inProgress in
            if negb (zlen fromFirst =? 1) then
              Ok (error_status ErrorCodes.GraphContainsCycle (cycle_message fromFirst),
                  MkDfs inProgress (visitedNodeNames st) fromFirst)
            else
              let* x := visit_prerequisites (recursiveTopSort fuel' nodeMap) nodeMap
                          (order_names (prerequisites (snd currentNode)))
                          (MkDfs inProgress (visitedNodeNames st) (sortedNames st)) in
              let st' := snd x in
              if ok_status (fst x) then
                let sorted := sortedNames st' ++ [n] in
                if bool_decide (list.last (inProgressNodeNames st') = Some n) then
                  Ok (Status_OK, MkDfs (removelast (inProgressNodeNames st'))
                        ({[n]} ∪ visitedNodeNames st') sorted)
                else
                  Ok (error_status ErrorCodes.InternalError (bstr "inProgressNodeNames stack corrupt"),
                      MkDfs (inProgressNodeNames st') (visitedNodeNames st') sorted)
              else Ok x
        end
  end.

(** The loop of [topSort] over the nodes. *)
Fixpoint sort_nodes (nodes : gmap name NodeData) (l : list (name * NodeData)) (st : dfs) : result (Status * dfs) :=
  match l with
  | [] => Ok (Status_OK, st)
  | x :: r =>
      let* y := recursiveTopSort (S (size nodes)) nodes x st in
      if ok_status (fst y) then sort_nodes nodes r (snd y) else Ok y
  end.

Definition topSort (nodes : gmap name NodeData) : result (Status * list name) :=
  let* x := sort_nodes nodes (order_nodes nodes) (MkDfs [] ∅ []) in
  Ok (fst x, sortedNames (snd x)).

(** ** Running the initializers *)

(** The loop of [Initializer::execute]. *)
Fixpoint run_initializers (nodes : gmap name NodeData) (context : Context_) (sortedNodes : list name) (w : World)
    : Status * World :=
  match sortedNodes with
  | [] => (Status_OK, w)
  | n :: r =>
      match getInitializerFunction n nodes with
      | None =>
          (error_status ErrorCodes.InternalError
             (bstr "topSort returned a node that has no associated function: " ++ [x22] ++ n ++ [x22]), w)
      | Some f =>
          let sw := f context w in
          if ok_status (fst sw) then run_initializers nodes context r (snd sw) else sw
      end
  end.

Definition execute (nodes : gmap name NodeData) (context : Context_) (w : World) : result (Status * World) :=
  let* x := topSort nodes in
  if ok_status (fst x) then Ok (run_initializers nodes context (snd x) w) else Ok (fst x, w).

End order.
End graph.
