(* ===== verification/InitGraphSpec.v ===== *)
(** * InitGraphSpec: the initializers run after their prerequisites

    [topSort] ends on every graph, with an order in which each node follows
    its prerequisites, a cycle, or a name that has no function; [execute] runs
    the functions in such an order until one fails. *)

From stdpp Require Import base list numbers strings option gmap fin_maps tactics.
From Stdlib Require Import Strings.Byte ZArith Lia.
From S2P Require Import Prelude Status InitGraph.

Section spec.
Context {Context_ World : Type}.
Abbreviation Nodes := (gmap name (@NodeData Context_ World)).

(** ** Graphs *)

(** [m] is a prerequisite of [n]. *)
Definition prereq (G : Nodes) (n m : name) : Prop := exists d, G !! n = Some d /\ m ∈ prerequisites d.

Definition has_function (G : Nodes) (n : name) : Prop := getInitializerFunction n G <> None.

(** A name the graph mentions that no initializer has. *)
Definition missing (G : Nodes) (m : name) : Prop :=
  ~ has_function G m /\ (is_Some (G !! m) \/ exists n, prereq G n m).

(** Each element has the next one as a prerequisite. *)
Fixpoint chain (G : Nodes) (l : list name) : Prop :=
  match l with
  | x :: (y :: _) as r => prereq G x y /\ chain G r
  | _ => True
  end.

Definition is_cycle (G : Nodes) (l : list name) : Prop :=
  exists x c, l = x :: c ++ [x] /\ chain G l.

(** Every node after its prerequisites. *)
Definition ordered (G : Nodes) (l : list name) : Prop :=
  forall l1 n l2 m, l = l1 ++ n :: l2 -> prereq G n m -> m ∈ l1.

Definition topological (G : Nodes) (l : list name) : Prop :=
  NoDup l /\ (forall n, n ∈ l <-> is_Some (G !! n)) /\ ordered G l.

(** ** The state of the traversal *)

Record dfs_ok (G : Nodes) (st : dfs) : Prop := {
  ok_path_nodup : NoDup (inProgressNodeNames st);
  ok_path_nodes : forall n, n ∈ inProgressNodeNames st -> has_function G n;
  ok_path_chain : chain G (inProgressNodeNames st);
  ok_sorted_nodup : NoDup (sortedNames st);
  ok_sorted_visited : forall n, n ∈ sortedNames st <-> n ∈ visitedNodeNames st;
  ok_sorted_nodes : forall n, n ∈ sortedNames st -> has_function G n;
  ok_disjoint : forall n, n ∈ inProgressNodeNames st -> n ∈ visitedNodeNames st -> False;
  ok_ordered : ordered G (sortedNames st);
}.

(** How a visit may end: the node is visited, or why it is not. *)
Definition visit_ends (G : Nodes) (st : dfs) (n : name) (s : Status) (st' : dfs) : Prop :=
  if ok_status s then
    dfs_ok G st' /\ inProgressNodeNames st' = inProgressNodeNames st /\ n ∈ visitedNodeNames st' /\
    visitedNodeNames st ⊆ visitedNodeNames st'
  else
    (code s = ErrorCodes.GraphContainsCycle /\ is_cycle G (sortedNames st')) \/
    (exists m, s = error_status ErrorCodes.BadValue m /\ missing G m).

Lemma has_function_node G n : has_function G n -> is_Some (G !! n).
Proof. unfold has_function, getInitializerFunction. by destruct (G !! n). Qed.

Lemma chain_app G l x y : chain G (l ++ [x]) -> prereq G x y -> chain G (l ++ [x; y]).
Proof.
  induction l as [|a l IH]; [by intros _ Hp|]. intros H Hp. destruct l as [|b l]; cbn in *; [tauto|].
  split; [tauto|]. apply IH; [apply H|done].
Qed.

Lemma chain_drop G l1 l2 : chain G (l1 ++ l2) -> chain G l2.
Proof.
  induction l1 as [|a l1 IH]; [done|]. intros H. apply IH. cbn in H.
  destruct (l1 ++ l2) as [|b r]; [done|]. tauto.
Qed.

Lemma find_from_cons n a l : find_from n (a :: l) = if bool_decide (a = n) then a :: l else find_from n l.
Proof. done. Qed.

(** The first occurrence of a name in a path that ends with it. *)
Lemma find_from_last n l : n ∉ l -> find_from n (l ++ [n]) = [n].
Proof.
  induction l as [|a l IH]; intros Hn; cbn [app]; rewrite find_from_cons; [by rewrite bool_decide_eq_true_2|].
  rewrite not_elem_of_cons in Hn. destruct Hn as [Hd Hn]. rewrite bool_decide_eq_false_2 by done. by apply IH.
Qed.

Lemma find_from_cycle n l : n ∈ l -> exists l1 c, l ++ [n] = l1 ++ n :: c ++ [n] /\ find_from n (l ++ [n]) = n :: c ++ [n].
Proof.
  induction l as [|a l IH]; intros Hn; [by apply not_elem_of_nil in Hn|]. cbn [app]. rewrite find_from_cons.
  destruct (decide (a = n)) as [-> |Hd].
  - exists [], l. by rewrite bool_decide_eq_true_2.
  - rewrite bool_decide_eq_false_2 by done. apply elem_of_cons in Hn as [->|Hn]; [done|].
    destruct (IH Hn) as (l1 & c & E1 & E2). exists (a :: l1), c. split; [by rewrite E1|exact E2].
Qed.

(** A path is no longer than the graph. *)
Lemma path_length G l : NoDup l -> (forall n, n ∈ l -> has_function G n) -> (length l <= size G)%nat.
Proof.
  intros Hn Hf. rewrite <- size_dom, <- (size_list_to_set (C := gset name) l Hn).
  apply subseteq_size. intros n Hl. apply elem_of_list_to_set in Hl. apply elem_of_dom. by apply has_function_node, Hf.
Qed.

Lemma ordered_snoc G l n : ordered G l -> (forall m, prereq G n m -> m ∈ l) -> ordered G (l ++ [n]).
Proof.
  intros Ho Hn l1 x l2 m E Hp. destruct l2 as [|y l2] using rev_ind.
  - apply app_inj_tail in E as [-> ->]. by apply Hn.
  - clear IHl2. rewrite app_comm_cons, app_assoc in E. apply app_inj_tail in E as [-> _]. by apply (Ho l1 x l2 m).
Qed.

Definition failed (G : Nodes) (s : Status) (st : @dfs) : Prop :=
  (code s = ErrorCodes.GraphContainsCycle /\ is_cycle G (sortedNames st)) \/
  (exists m, s = error_status ErrorCodes.BadValue m /\ missing G m).

Lemma missing_name G n m : prereq G n m -> ~ has_function G m -> missing G m.
Proof. intros Hp Hf. split; [done|]. right. by exists n. Qed.

Lemma no_function G n d : G !! n = Some d -> fn d = None -> ~ has_function G n.
Proof. intros Hn Hd Hf. apply Hf. unfold getInitializerFunction. by rewrite Hn. Qed.

Section order.
Context `{!@HashOrder Context_ World}.

(** The visits of the prerequisites of the last node of a path. *)
Lemma prerequisites_correct G visit n path :
  (forall p d st, dfs_ok G st -> inProgressNodeNames st = path -> prereq G n p -> G !! p = Some d ->
    exists s st', visit (p, d) st = Ok (s, st') /\ visit_ends G st p s st') ->
  forall l st, dfs_ok G st -> inProgressNodeNames st = path -> (forall p, p ∈ l -> prereq G n p) ->
  exists s st', visit_prerequisites visit G l st = Ok (s, st') /\
    if ok_status s then
      dfs_ok G st' /\ inProgressNodeNames st' = path /\ (forall p, p ∈ l -> p ∈ visitedNodeNames st') /\
      visitedNodeNames st ⊆ visitedNodeNames st'
    else failed G s st'.
Proof.
  intros Hvisit l. induction l as [|p l IH]; intros st Hst Hpath Hl; cbn [visit_prerequisites].
  { exists Status_OK, st. split; [done|]. cbn. split; [done|]. split; [done|]. split; [|done].
    intros p Hp. by apply not_elem_of_nil in Hp. }
  assert (prereq G n p) as Hp by (apply Hl, elem_of_cons; by left).
  destruct (G !! p) as [d|] eqn:Hd.
  2: { eexists _, st. split; [done|]. cbn. right. exists p. split; [done|]. apply (missing_name G n p Hp).
       intros Hf%has_function_node. rewrite Hd in Hf. by destruct Hf. }
  destruct (Hvisit p d st Hst Hpath Hp Hd) as (s & st1 & -> & Hends). cbn [bind fst snd].
  unfold visit_ends in Hends. destruct (ok_status s) eqn:Hs.
  - destruct Hends as (Hst1 & Hpath1 & Hp1 & Hsub). rewrite Hpath in Hpath1.
    destruct (IH st1 Hst1 Hpath1) as (s' & st2 & -> & H2).
    { intros q Hq. apply Hl, elem_of_cons. by right. }
    exists s', st2. split; [done|]. destruct (ok_status s'); [|done].
    destruct H2 as (Hst2 & Hpath2 & Hin & Hsub2). split; [done|]. split; [done|]. split; [|set_solver].
    intros q [->|Hq]%elem_of_cons; [set_solver|by apply Hin].
  - exists s, st1. split; [done|]. by rewrite Hs.
Qed.

Lemma dfs_push G n d st : dfs_ok G st -> G !! n = Some d -> fn d <> None -> n ∉ inProgressNodeNames st ->
  n ∉ visitedNodeNames st -> (forall y, list.last (inProgressNodeNames st) = Some y -> prereq G y n) ->
  dfs_ok G (MkDfs (inProgressNodeNames st ++ [n]) (visitedNodeNames st) (sortedNames st)).
Proof.
  intros Hst Hn Hd Hpath Hv Hlast. split; cbn [inProgressNodeNames visitedNodeNames sortedNames]; try apply Hst.
  - apply list.NoDup_app. split; [apply Hst|]. split; [|apply list.NoDup_singleton].
    intros x Hx ->%list_elem_of_singleton. done.
  - intros x [Hx| ->%list_elem_of_singleton]%elem_of_app; [by apply (ok_path_nodes G st Hst)|].
    unfold has_function, getInitializerFunction. by rewrite Hn.
  - destruct (inProgressNodeNames st) as [|y l _] eqn:E using rev_ind; [done|].
    rewrite <- app_assoc. apply chain_app; [rewrite <- E; apply Hst|]. apply Hlast. by rewrite last_snoc.
  - intros x [Hx| ->%list_elem_of_singleton]%elem_of_app Hxv; [by apply (ok_disjoint G st Hst x)|done].
Qed.

Lemma dfs_pop G n d path st : dfs_ok G st -> G !! n = Some d -> inProgressNodeNames st = path ++ [n] ->
  (forall p, p ∈ prerequisites d -> p ∈ visitedNodeNames st) ->
  dfs_ok G (MkDfs path ({[n]} ∪ visitedNodeNames st) (sortedNames st ++ [n])).
Proof.
  intros Hst Hn Hpath Hpre. pose proof (ok_path_nodup G st Hst) as Hnd. rewrite Hpath in Hnd.
  apply list.NoDup_app in Hnd as (Hnd & Hdis & _).
  assert (n ∉ visitedNodeNames st) as Hnv.
  { intros Hv. apply (ok_disjoint G st Hst n); [|done]. rewrite Hpath. set_solver. }
  assert (has_function G n) as Hf by (apply (ok_path_nodes G st Hst); rewrite Hpath; set_solver).
  split; cbn [inProgressNodeNames visitedNodeNames sortedNames].
  - done.
  - intros x Hx. apply (ok_path_nodes G st Hst). rewrite Hpath. set_solver.
  - pose proof (ok_path_chain G st Hst) as Hc. rewrite Hpath in Hc. clear -Hc.
    induction path as [|a path IH]; [done|]. destruct path as [|b path]; [done|]. cbn in *. split; [tauto|]. apply IH, Hc.
  - apply list.NoDup_app. split; [apply Hst|]. split; [|apply list.NoDup_singleton].
    intros x Hx ->%list_elem_of_singleton. by apply Hnv, (ok_sorted_visited G st Hst).
  - intros x. rewrite elem_of_app, (ok_sorted_visited G st Hst), list_elem_of_singleton, elem_of_union, elem_of_singleton. tauto.
  - intros x [Hx| ->%list_elem_of_singleton]%elem_of_app; [by apply (ok_sorted_nodes G st Hst)|done].
  - intros x Hx [->%elem_of_singleton|Hv]%elem_of_union.
    + by apply (Hdis n Hx), list_elem_of_singleton.
    + apply (ok_disjoint G st Hst x); [rewrite Hpath; set_solver|done].
  - apply ordered_snoc; [apply Hst|]. intros m (d' & Hd' & Hm). rewrite Hn in Hd'. injection Hd' as <-.
    by apply (ok_sorted_visited G st Hst), Hpre.
Qed.

Lemma recursive_correct G fuel : forall n d st, dfs_ok G st -> G !! n = Some d ->
  (forall y, list.last (inProgressNodeNames st) = Some y -> prereq G y n) ->
  (size G < fuel + length (inProgressNodeNames st))%nat ->
  exists s st', recursiveTopSort fuel G (n, d) st = Ok (s, st') /\ visit_ends G st n s st'.
Proof.
  induction fuel as [|fuel IH]; intros n d st Hst Hn Hlast Hfuel.
  { pose proof (path_length G _ (ok_path_nodup G st Hst) (ok_path_nodes G st Hst)). lia. }
  cbn [recursiveTopSort fst snd]. unfold visit_ends.
  destruct (decide (n ∈ visitedNodeNames st)) as [Hv|Hv].
  { rewrite bool_decide_eq_true_2 by done. exists Status_OK, st. split; [done|]. by cbn. }
  rewrite bool_decide_eq_false_2 by done. destruct (fn d) as [f|] eqn:Hd.
  2: { eexists _, st. split; [done|]. right. exists n. split; [done|].
       split; [by apply (no_function G n d)|]. left. by exists d. }
  destruct (decide (n ∈ inProgressNodeNames st)) as [Hp|Hp].
  { destruct (find_from_cycle n _ Hp) as (l1 & c & E & Ef). rewrite Ef.
    assert ((zlen (n :: c ++ [n]) =? 1) = false) as ->.
    { rewrite zlen_cons, zlen_app, zlen_cons, zlen_nil. pose proof (zlen_nonneg c). apply Z.eqb_neq. lia. }
    eexists _, _. split; [done|]. left. split; [done|]. exists n, c. split; [done|].
    apply (chain_drop G l1). cbn [sortedNames]. rewrite <- E.
    destruct (inProgressNodeNames st) as [|y l _] eqn:Ep using rev_ind; [by apply not_elem_of_nil in Hp|].
    rewrite <- app_assoc. apply chain_app; [rewrite <- Ep; apply Hst|]. apply Hlast. by rewrite last_snoc. }
  rewrite find_from_last by done. change (zlen [n] =? 1) with true. cbn [negb].
  assert (fn d <> None) as Hd' by by rewrite Hd.
  pose proof (dfs_push G n d st Hst Hn Hd' Hp Hv Hlast) as Hst1.
  set (st1 := MkDfs (inProgressNodeNames st ++ [n]) (visitedNodeNames st) (sortedNames st)) in *.
  destruct (prerequisites_correct G (recursiveTopSort fuel G) n (inProgressNodeNames st ++ [n])) with
    (l := order_names (prerequisites d)) (st := st1) as (s & st2 & -> & H2); [|done|done| |].
  - intros p d' st' Hst' Hpath Hpre Hpd. apply IH; [done|done| |].
    + rewrite Hpath, last_snoc. by intros y [= <-].
    + rewrite Hpath, length_app. cbn [length]. lia.
  - intros p Hpin. exists d. split; [done|]. rewrite order_names_perm in Hpin. by apply elem_of_elements.
  - cbn [bind fst snd]. destruct (ok_status s) eqn:Hs.
    + destruct H2 as (Hst2 & Hpath2 & Hin & Hsub). rewrite Hpath2, last_snoc, removelast_last.
      rewrite bool_decide_eq_true_2 by done. eexists _, _. split; [done|]. cbn.
      split; [|split; [done|split; set_solver]].
      apply (dfs_pop G n d); [done|done|done|]. intros p Hpre. apply Hin. rewrite order_names_perm.
      by apply elem_of_elements.
    + exists s, st2. split; [done|]. by rewrite Hs.
Qed.

Lemma sort_nodes_correct G l : forall st, dfs_ok G st -> inProgressNodeNames st = [] ->
  (forall n d, (n, d) ∈ l -> G !! n = Some d) ->
  exists s st', sort_nodes G l st = Ok (s, st') /\
    if ok_status s then
      dfs_ok G st' /\ (forall n d, (n, d) ∈ l -> n ∈ visitedNodeNames st') /\ visitedNodeNames st ⊆ visitedNodeNames st'
    else failed G s st'.
Proof.
  induction l as [|[n d] l IH]; intros st Hst Hpath Hl; cbn [sort_nodes].
  { exists Status_OK, st. split; [done|]. cbn. split; [done|]. split; [|done].
    intros n d Hn. by apply not_elem_of_nil in Hn. }
  destruct (recursive_correct G (S (size G)) n d st Hst) as (s & st1 & -> & Hends).
  - apply Hl, elem_of_cons. by left.
  - by rewrite Hpath.
  - lia.
  - cbn [bind fst snd]. unfold visit_ends in Hends. destruct (ok_status s) eqn:Hs.
    + destruct Hends as (Hst1 & Hpath1 & Hn & Hsub). rewrite Hpath in Hpath1.
      destruct (IH st1 Hst1 Hpath1) as (s' & st2 & -> & H2).
      { intros n' d' Hn'. apply Hl, elem_of_cons. by right. }
      exists s', st2. split; [done|]. destruct (ok_status s'); [|done].
      destruct H2 as (Hst2 & Hin & Hsub2). split; [done|]. split; [|set_solver].
      intros n' d' [[= -> ->]|Hn']%elem_of_cons; [set_solver|by apply (Hin n' d')].
    + exists s, st1. split; [done|]. by rewrite Hs.
Qed.

Lemma dfs_start G : dfs_ok G (MkDfs [] ∅ []).
Proof.
  split; cbn [inProgressNodeNames visitedNodeNames sortedNames]; try apply NoDup_nil_2; try done;
    try (intros n Hn; by apply not_elem_of_nil in Hn).
  - intros n. split; intros Hn; [by apply not_elem_of_nil in Hn|by apply elem_of_empty in Hn].
  - intros l1 n l2 m E. by destruct l1.
Qed.

Lemma topSort_cases G : exists s l, topSort G = Ok (s, l) /\
  if ok_status s then topological G l /\ (forall n, n ∈ l -> has_function G n)
  else (code s = ErrorCodes.GraphContainsCycle /\ is_cycle G l) \/
       (exists m, s = error_status ErrorCodes.BadValue m /\ missing G m).
Proof.
  unfold topSort.
  destruct (sort_nodes_correct G (order_nodes G) (MkDfs [] ∅ []) (dfs_start G) eq_refl) as (s & st & -> & Hsort).
  - intros n d Hn. rewrite order_nodes_perm in Hn. by apply elem_of_map_to_list.
  - cbn [bind fst snd]. exists s, (sortedNames st). split; [done|]. destruct (ok_status s); [|done].
    destruct Hsort as (Hst & Hin & _). split; [|apply Hst]. split; [apply Hst|]. split; [|apply Hst].
    intros n. split; [intros Hn; by apply has_function_node, (ok_sorted_nodes G st Hst)|].
    intros [d Hd]. apply (ok_sorted_visited G st Hst), (Hin n d). rewrite order_nodes_perm.
    by apply elem_of_map_to_list.
Qed.
End order.

(** ** Topological orders *)

Lemma ordered_lookup G l i n m : ordered G l -> l !! i = Some n -> prereq G n m ->
  exists j, (j < i)%nat /\ l !! j = Some m.
Proof.
  intros Ho Hi Hp. pose proof (take_drop_middle l i n Hi) as E. symmetry in E.
  pose proof (Ho _ _ _ m E Hp) as Hm. apply list_elem_of_lookup in Hm as [j Hj].
  apply lookup_take_Some in Hj as [Hj Hlt]. by exists j.
Qed.

Lemma chain_lookup G l : ordered G l -> forall c i x, chain G (x :: c) -> l !! i = Some x ->
  forall y, y ∈ c -> exists j, (j < i)%nat /\ l !! j = Some y.
Proof.
  intros Ho c. induction c as [|z c IH]; intros i x Hc Hi y Hy; [by apply not_elem_of_nil in Hy|].
  destruct Hc as [Hp Hc]. destruct (ordered_lookup G l i x z Ho Hi Hp) as (k & Hk & Hz).
  apply elem_of_cons in Hy as [->|Hy]; [by exists k|].
  destruct (IH k z Hc Hz y Hy) as (j & Hj & Hjy). exists j. split; [lia|done].
Qed.

Lemma topological_acyclic G l c : topological G l -> ~ is_cycle G c.
Proof.
  intros (Hn & Hnodes & Ho) (x & r & -> & Hc).
  assert (x ∈ l) as Hx.
  { apply Hnodes. destruct r as [|y r]; destruct Hc as [(d & Hd & _) _]; by exists d. }
  apply list_elem_of_lookup in Hx as [i Hi].
  destruct (chain_lookup G l Ho (r ++ [x]) i x Hc Hi x) as (j & Hj & Hjx).
  - apply elem_of_app. right. by apply list_elem_of_singleton.
  - pose proof (NoDup_lookup l i j x Hn Hi Hjx). lia.
Qed.

Lemma topological_complete G l m : topological G l -> (forall n, n ∈ l -> has_function G n) -> ~ missing G m.
Proof.
  intros (Hn & Hnodes & Ho) Hf [Hm [Hs|(n & Hp)]]; apply Hm, Hf.
  - by apply Hnodes.
  - assert (n ∈ l) as Hin by (apply Hnodes; destruct Hp as (d & Hd & _); by exists d).
    apply list_elem_of_lookup in Hin as [i Hi].
    destruct (ordered_lookup G l i n m Ho Hi Hp) as (j & _ & Hj). apply list_elem_of_lookup. by exists j.
Qed.

Definition legal (G : Nodes) : Prop := (forall c, ~ is_cycle G c) /\ forall m, ~ missing G m.

(** ** Building the graph *)

Lemma prereq_node (G : Nodes) a b : prereq G a b <-> b ∈ prerequisites (node a G).
Proof.
  unfold prereq, node. destruct (G !! a) as [d|]; cbn.
  - split; [by intros (d' & [= <-] & Hb)|]. intros Hb. by exists d.
  - split; [by intros (d & ? & _)|]. intros Hb. by apply elem_of_empty in Hb.
Qed.

Lemma function_node (G : Nodes) a : getInitializerFunction a G = fn (node a G).
Proof. unfold getInitializerFunction, node. by destruct (G !! a). Qed.

Lemma node_insert (G : Nodes) a b d : node a (<[b := d]> G) = if decide (b = a) then d else node a G.
Proof. unfold node. destruct (decide (b = a)) as [-> |Hd]; [by rewrite lookup_insert_eq|by rewrite lookup_insert_ne]. Qed.

Lemma fold_prerequisites l : forall d : @NodeData Context_ World,
  let d' := foldl (fun d p => add_prerequisite p d) d l in
  fn d' = fn d /\ forall p, p ∈ prerequisites d' <-> p ∈ prerequisites d \/ p ∈ l.
Proof.
  induction l as [|x l IH]; intros d; cbn [foldl].
  - split; [done|]. intros p. split; [by left|]. intros [H|H]; [done|by apply not_elem_of_nil in H].
  - destruct (IH (add_prerequisite x d)) as [Hf Hp]. split; [done|]. intros p. rewrite Hp, elem_of_cons. cbn.
    rewrite elem_of_union, elem_of_singleton. tauto.
Qed.

Lemma fold_dependents n l : forall G : Nodes,
  let G' := foldl (fun m d => <[d := add_prerequisite n (node d m)]> m) G l in
  forall a, fn (node a G') = fn (node a G) /\
    forall p, p ∈ prerequisites (node a G') <-> p ∈ prerequisites (node a G) \/ a ∈ l /\ p = n.
Proof.
  induction l as [|x l IH]; intros G; cbn [foldl]; intros a.
  - split; [done|]. intros p. split; [by left|]. intros [H|[H _]]; [done|by apply not_elem_of_nil in H].
  - destruct (IH (<[x := add_prerequisite n (node x G)]> G) a) as [Hf Hp]. rewrite node_insert in Hf, Hp.
    destruct (decide (x = a)) as [-> |Hd]; cbn in Hf, Hp; (split; [done|]); intros p; rewrite Hp, elem_of_cons;
      rewrite ?elem_of_union, ?elem_of_singleton; split; [tauto..| |].
    + intros [H|[H ->]]; [tauto|]. tauto.
    + intros [H|[[H|H] E]]; [tauto|by symmetry in H|tauto].
Qed.

(** Adding an initializer adds its function, its prerequisites and itself
    as a prerequisite of its dependents, and nothing else; an empty function or
    a name that has one is refused and the graph is left as it was. *)
Theorem addInitializer_correct (n : name) (f : @InitializerFunction Context_ World) (prereqs dependents : list name) (G : Nodes) :
  let '(s, G') := addInitializer n f prereqs dependents G in
  match f with
  | None => code s = ErrorCodes.BadValue /\ G' = G
  | Some _ =>
      (has_function G n /\ s = error_status ErrorCodes.DuplicateKey n /\ G' = G) \/
      (~ has_function G n /\ s = Status_OK /\
       (forall a, getInitializerFunction a G' = if decide (a = n) then f else getInitializerFunction a G) /\
       forall a b, prereq G' a b <-> prereq G a b \/ (a = n /\ b ∈ prereqs) \/ (a ∈ dependents /\ b = n))
  end.
Proof.
  unfold addInitializer. destruct f as [f|]; [|done]. pose proof (function_node G n) as Hf.
  destruct (fn (node n G)) as [g|] eqn:Hg.
  - left. split; [|done]. unfold has_function. by rewrite Hf.
  - right. split; [unfold has_function; intros H; by apply H|].
    split; [done|]. set (d := foldl _ _ prereqs). destruct (fold_prerequisites prereqs (MkNode (Some f) (prerequisites (node n G)))) as [Hd Hp].
    fold d in Hd, Hp. pose proof (fold_dependents n dependents (<[n := d]> G)) as Hdep. cbv zeta in Hdep.
    split.
    + intros a. rewrite function_node. destruct (Hdep a) as [-> _]. rewrite node_insert.
      destruct (decide (n = a)) as [<-|Hne]; [by rewrite decide_True|]. rewrite decide_False by congruence.
      by rewrite function_node.
    + intros a b. rewrite !prereq_node. destruct (Hdep a) as [_ ->]. rewrite node_insert.
      destruct (decide (n = a)) as [<-|Hne]; [rewrite Hp; cbn; tauto|]. split; [tauto|].
      intros [H|[[-> H]|H]]; [tauto|done|tauto].
Qed.

(** ** Sorting and running *)

Section properties.
Context `{!@HashOrder Context_ World}.

(** C35: the sort ends on every graph, whatever the order in which the hash map
    is walked: on a graph without cycles whose names all have a function it
    gives each node once, after its prerequisites; on any other it reports a
    cycle, which it gives, or a name without a function.  No other error is
    possible. *)
Theorem topSort_correct (G : Nodes) : exists s l, topSort G = Ok (s, l) /\
  if ok_status s then legal G /\ topological G l
  else (code s = ErrorCodes.GraphContainsCycle /\ is_cycle G l) \/
       (exists m, s = error_status ErrorCodes.BadValue m /\ missing G m).
Proof.
  destruct (topSort_cases G) as (s & l & E & Hl). exists s, l. split; [done|].
  destruct (ok_status s); [|done]. destruct Hl as [Ht Hf]. split; [|done]. split.
  - intros c. by apply (topological_acyclic G l).
  - intros m. by apply (topological_complete G l).
Qed.

(** Running functions in order until one fails. *)
Inductive runs (G : Nodes) (context : Context_) : list name -> World -> Status -> World -> Prop :=
  | runs_end w : runs G context [] w Status_OK w
  | runs_next n l f w s w1 s' w2 : getInitializerFunction n G = Some f -> f context w = (s, w1) -> ok_status s = true ->
      runs G context l w1 s' w2 -> runs G context (n :: l) w s' w2
  | runs_fail n l f w s w1 : getInitializerFunction n G = Some f -> f context w = (s, w1) -> ok_status s = false ->
      runs G context (n :: l) w s w1.

Lemma run_initializers_runs (G : Nodes) context l : (forall n, n ∈ l -> has_function G n) -> forall w s w',
  run_initializers G context l w = (s, w') -> runs G context l w s w'.
Proof.
  induction l as [|n l IH]; intros Hl w s w' E; cbn [run_initializers] in E.
  - injection E as <- <-. constructor.
  - pose proof (Hl n (list_elem_of_here n l)) as Hn. unfold has_function in Hn.
    destruct (getInitializerFunction n G) as [f|] eqn:Hf; [|done]. destruct (f context w) as [s1 w1] eqn:Hs.
    cbn [fst snd] in E. destruct (ok_status s1) eqn:Ho.
    + apply (runs_next G context n l f w s1 w1); [done..|]. apply IH; [|done]. intros m Hm. apply Hl.
      by apply list_elem_of_further.
    + injection E as <- <-. by apply (runs_fail G context n l f).
Qed.

(** executing a legal graph runs its functions one after the other, each
    after its prerequisites have succeeded, until one fails, whose status is
    the result; on a graph that is not legal nothing runs and the status says
    why. *)
Theorem execute_correct (G : Nodes) context w : exists s w', execute G context w = Ok (s, w') /\
  ((legal G /\ exists l, topological G l /\ runs G context l w s w') \/
   (w' = w /\ ((code s = ErrorCodes.GraphContainsCycle /\ exists c, is_cycle G c) \/
               exists m, s = error_status ErrorCodes.BadValue m /\ missing G m))).
Proof.
  destruct (topSort_cases G) as (s & l & E & Hl). unfold execute. rewrite E. cbn [bind fst snd].
  destruct (ok_status s).
  - destruct Hl as [Ht Hf]. destruct (run_initializers G context l w) as [s' w'] eqn:Hr. exists s', w'. split; [done|].
    left. split; [split; intros ?; by eapply topological_acyclic || by eapply topological_complete|].
    exists l. split; [done|]. by apply run_initializers_runs.
  - exists s, w. split; [done|]. right. split; [done|]. destruct Hl as [[Hc Hy]|Hm]; [left|by right].
    split; [done|by exists l].
Qed.
End properties.
End spec.

(** ** An example: three initializers, the names sorted as the map lists them *)

#[export] Instance sorted_order {C W} : @HashOrder C W.
Proof. by refine {| order_nodes := map_to_list; order_names := elements |}. Defined.

Definition log_step (n : name) : @InitializerFunction unit (list name) := Some (fun _ w => (Status_OK, w ++ [n])).

Definition sample_graph : gmap name (@NodeData unit (list name)) :=
  let add n p d G := snd (addInitializer n (log_step n) p d G) in
  add (bstr "a") [bstr "c"] [] (add (bstr "b") [] [bstr "c"] (add (bstr "c") [] [] ∅)).

Example sample_runs : execute sample_graph tt [] = Ok (Status_OK, [bstr "b"; bstr "c"; bstr "a"]).
Proof. by vm_compute. Qed.

Example sample_cycle :
  let l := [bstr "d"; bstr "a"; bstr "c"; bstr "b"; bstr "d"] in
  topSort (snd (addInitializer (bstr "d") (log_step (bstr "d")) [bstr "a"] [bstr "b"] sample_graph))
  = Ok (error_status ErrorCodes.GraphContainsCycle (cycle_message l), l).
Proof. by vm_compute. Qed.
