(* ===== verification/Decimal.v ===== *)
(** * Decimal: integers in decimal notation

    What [operator<<] and [printf("%d")] write for an integer, and the value of
    a string of digits, with the round trip between the two. *)

From stdpp Require Import base list numbers strings option tactics.
From Stdlib Require Import Strings.Byte ZArith Lia.
From S2P Require Import Prelude.

Definition digit (d : Z) : byte := zb (48 + d).
Definition is_digit (c : byte) : bool := (48 <=? bz c) && (bz c <=? 57).
Definition digit_val (c : byte) : Z := bz c - 48.

(** The digits of [n], most significant first, before [acc]. *)
Fixpoint dec_go (fuel : nat) (n : Z) (acc : list byte) : list byte :=
  match fuel with
  | O => acc
  | S fuel' =>
      let acc' := digit (n mod 10) :: acc in
      if n <? 10 then acc' else dec_go fuel' (n / 10) acc'
  end.

Definition dec_nonneg (n : Z) : list byte := dec_go (S (Z.to_nat (Z.log2 n))) n [].
Definition dec (n : Z) : list byte :=
  if n <? 0 then "-"%byte :: dec_nonneg (- n) else dec_nonneg n.

Definition dec_val_from (a : Z) (s : list byte) : Z :=
  fold_left (fun x c => x * 10 + digit_val c) s a.
Definition dec_val (s : list byte) : Z := dec_val_from 0 s.

Lemma bz_digit d : 0 <= d < 10 -> bz (digit d) = 48 + d.
Proof. intros. unfold digit. rewrite bz_zb. apply Z.mod_small. lia. Qed.

Lemma is_digit_digit d : 0 <= d < 10 -> is_digit (digit d) = true.
Proof. intros. unfold is_digit. rewrite bz_digit by done. lia. Qed.

Lemma digit_val_digit d : 0 <= d < 10 -> digit_val (digit d) = d.
Proof. intros. unfold digit_val. rewrite bz_digit by done. lia. Qed.

(** A digit is none of the other characters the parsers look for. *)
Lemma is_digit_neq c b : is_digit c = true -> is_digit b = false -> Byte.eqb c b = false.
Proof.
  intros Hc Hb. destruct (byte_eqb_spec c b) as [->|]; [congruence|done].
Qed.

Lemma dec_go_spec fuel : forall n acc, 0 <= n -> Z.log2 n < Z.of_nat fuel ->
  exists ds, dec_go fuel n acc = ds ++ acc /\ forallb is_digit ds = true /\ ds <> [] /\
    (forall a, dec_val_from a ds = a * 10 ^ zlen ds + n) /\
    (forall k, 0 < k -> n < 10 ^ k -> zlen ds <= k) /\
    (0 < n -> head ds <> Some "0"%byte).
Proof.
  induction fuel as [|fuel IH]; intros n acc Hn Hf.
  { pose proof (Z.log2_nonneg n). lia. }
  pose proof (Z.mod_pos_bound n 10 eq_refl). pose proof (Z.div_mod n 10 ltac:(lia)).
  cbn [dec_go]. destruct (Z.ltb_spec n 10).
  - exists [digit (n mod 10)]. rewrite Z.mod_small by lia. split; [done|].
    split; [simpl; by rewrite is_digit_digit|]. split; [done|]. split.
    + intros a. unfold dec_val_from. cbn [fold_left]. rewrite digit_val_digit by lia.
      change (zlen [digit n]) with 1. lia.
    + split; [intros k Hk _; change (zlen [digit n]) with 1; lia|].
      intros Hpos [= E]. apply (f_equal bz) in E. rewrite bz_digit in E by lia.
      change (bz "0") with 48 in E. lia.
  - assert (Z.log2 (n / 10) < Z.of_nat fuel) as Hlog.
    { assert (Z.log2 (n / 10) < Z.log2 n); [|lia]. apply Z.log2_lt_pow2; [lia|].
      pose proof (Z.log2_spec n ltac:(lia)) as [Hl Hu]. rewrite Z.pow_succ_r in Hu
        by apply Z.log2_nonneg. apply Z.div_lt_upper_bound; [lia|].
      pose proof (Z.pow_pos_nonneg 2 (Z.log2 n) ltac:(lia) (Z.log2_nonneg n)). lia. }
    destruct (IH (n / 10) (digit (n mod 10) :: acc)) as (ds & -> & Hd & Hne & Hv & Hlen & Hhd);
      [lia|done|].
    exists (ds ++ [digit (n mod 10)]). rewrite <- app_assoc. split; [done|].
    rewrite forallb_app, Hd. cbn [forallb]. rewrite is_digit_digit by lia. split; [done|].
    split; [by destruct ds|]. split.
    + intros a. unfold dec_val_from in *. rewrite fold_left_app, Hv. cbn [fold_left].
      rewrite digit_val_digit by lia. rewrite zlen_app. change (zlen [_]) with 1.
      rewrite Z.pow_add_r by (pose proof (zlen_nonneg ds); lia). lia.
    + split; [|intros Hpos; destruct ds; [done|]; apply Hhd; lia].
      intros k Hk Hnk. rewrite zlen_app. change (zlen [digit (n mod 10)]) with 1.
      destruct (Z.eq_dec k 1) as [->|]; [lia|].
      enough (zlen ds <= k - 1) by lia. apply Hlen; [lia|].
      apply Z.div_lt_upper_bound; [lia|]. rewrite <- Z.pow_succ_r by lia.
      by replace (Z.succ (k - 1)) with k by lia.
Qed.

Lemma dec_nonneg_spec n : 0 <= n ->
  forallb is_digit (dec_nonneg n) = true /\ dec_nonneg n <> [] /\
  dec_val (dec_nonneg n) = n /\
  (forall k, 0 < k -> n < 10 ^ k -> zlen (dec_nonneg n) <= k) /\
  (0 < n -> head (dec_nonneg n) <> Some "0"%byte).
Proof.
  intros Hn. pose proof (Z.log2_nonneg n).
  destruct (dec_go_spec (S (Z.to_nat (Z.log2 n))) n []) as (ds & E & Hd & Hne & Hv & Hl & Hh);
    [done|lia|].
  unfold dec_nonneg. rewrite E, app_nil_r. split; [done|]. split; [done|]. split; [|done].
  unfold dec_val. rewrite Hv. lia.
Qed.

(** The decimal notation of an integer determines it. *)
Lemma dec_nonneg_inj m n : 0 <= m -> 0 <= n -> dec_nonneg m = dec_nonneg n -> m = n.
Proof.
  intros Hm Hn E. destruct (dec_nonneg_spec m Hm) as (_ & _ & <- & _).
  destruct (dec_nonneg_spec n Hn) as (_ & _ & <- & _). by rewrite E.
Qed.

Lemma is_digit_no_nul s : forallb is_digit s = true -> no_nul s = true.
Proof.
  unfold no_nul. induction s as [|c s IH]; simpl; [done|]. intros [Hc Hs]%andb_prop.
  rewrite (IH Hs), andb_true_r. by rewrite (is_digit_neq c x00 Hc).
Qed.

Lemma dec_no_nul n : no_nul (dec n) = true.
Proof.
  unfold dec. destruct (Z.ltb_spec n 0).
  - change (no_nul (dec_nonneg (- n)) = true).
    apply is_digit_no_nul, dec_nonneg_spec. lia.
  - apply is_digit_no_nul, dec_nonneg_spec. lia.
Qed.
