(* ===== verification/ParseNumber.v ===== *)
(** * ParseNumber: [parseNumberFromStringWithBase] (base/parse_number.cpp)

    The overflow checks of the source are written on the integers of the width
    parsed into; [parse_spec] shows that they accept exactly the strings whose
    value is in range, and that the value is then the one returned. *)

From stdpp Require Import base list numbers strings option tactics.
From Stdlib Require Import Strings.Byte ZArith Lia.
From S2P Require Import Prelude Decimal.

(** The failing statuses. *)
Inductive parse_error :=
  | InvalidBase
  | NoDigits
  | BadDigit
  | Underflow
  | NegativeValue
  | Overflow.

Definition _digitValue (c : byte) : Z :=
  let z := bz c in
  if (48 <=? z) && (z <=? 57) then z - 48
  else if (97 <=? z) && (z <=? 122) then z - 97 + 10
  else if (65 <=? z) && (z <=? 90) then z - 65 + 10
  else 36.

(** The string without its sign, and whether it was negative. *)
Definition _extractSign (s : list byte) : list byte * bool :=
  match s with
  | [] => (s, false)
  | c :: r =>
      if Byte.eqb c "-" then (r, true)
      else if Byte.eqb c "+" then (r, false)
      else (s, false)
  end.

Definition startsWith (s pre : list byte) : bool :=
  bool_decide (take (length pre) s = pre).

(** The string without its base prefix, and the base. *)
Definition _extractBase (s : list byte) (inputBase : Z) : list byte * Z :=
  let hex_prefix := startsWith s (bstr "0x") || startsWith s (bstr "0X") in
  if inputBase =? 0 then
    if (2 <? zlen s) && hex_prefix then (drop 2 s, 16)
    else if (1 <? zlen s) && startsWith s (bstr "0") then (s, 8)
    else (s, 10)
  else if (inputBase =? 16) && hex_prefix then (drop 2 s, inputBase)
  else (s, inputBase).

(** The loops over the digits; [Z.quot] is the division of C. *)
Fixpoint parse_pos (max base : Z) (s : list byte) (n : Z) : parse_error + Z :=
  match s with
  | [] => inr n
  | c :: r =>
      let d := _digitValue c in
      if base <=? d then inl BadDigit
      else if (Z.quot max base <? n) || (max - n * base <? d) then inl Overflow
      else parse_pos max base r (n * base + d)
  end.

Fixpoint parse_neg (min base : Z) (s : list byte) (n : Z) : parse_error + Z :=
  match s with
  | [] => inr n
  | c :: r =>
      let d := _digitValue c in
      if base <=? d then inl BadDigit
      else if (n <? Z.quot min base) || (- d <? min - n * base) then inl Underflow
      else parse_neg min base r (n * base - d)
  end.

(** The range of an integer type. *)
Definition limits_min (signed : bool) (w : Z) : Z := if signed then - 2 ^ (w - 1) else 0.
Definition limits_max (signed : bool) (w : Z) : Z := if signed then 2 ^ (w - 1) - 1 else 2 ^ w - 1.

Definition parseNumberFromStringWithBase (signed : bool) (w : Z) (stringValue : list byte)
    (base : Z) : parse_error + Z :=
  if (base =? 1) || (base <? 0) || (36 <? base) then inl InvalidBase
  else
    let '(s, isNegative) := _extractSign stringValue in
    let '(s, base) := _extractBase s base in
    match s with
    | [] => inl NoDigits
    | _ =>
        if isNegative then
          if signed then parse_neg (limits_min signed w) base s 0 else inl NegativeValue
        else parse_pos (limits_max signed w) base s 0
    end.

(** [parseNumberFromString(s, n)]: base 0, that is by prefix. *)
Definition parseNumberFromString (signed : bool) (w : Z) (s : list byte) : parse_error + Z :=
  parseNumberFromStringWithBase signed w s 0.

(** ** The loops compute the value, or notice it is out of range *)

Definition digits_val (base : Z) (n : Z) (s : list byte) : Z :=
  fold_left (fun x c => x * base + _digitValue c) s n.

Definition digits_ok (base : Z) (s : list byte) : bool :=
  forallb (fun c => _digitValue c <? base) s.

Lemma _digitValue_nonneg c : 0 <= _digitValue c.
Proof. unfold _digitValue. pose proof (bz_range c). repeat case_match; lia. Qed.

Lemma digits_val_ge base n s : 1 <= base -> 0 <= n -> n <= digits_val base n s.
Proof.
  intros Hb. unfold digits_val. revert n. induction s as [|c s IH]; intros n Hn; simpl; [lia|].
  pose proof (_digitValue_nonneg c). specialize (IH (n * base + _digitValue c)). nia.
Qed.

Lemma parse_pos_spec max base s : 2 <= base -> digits_ok base s = true -> forall n,
  0 <= n <= max ->
  parse_pos max base s n =
    if digits_val base n s <=? max then inr (digits_val base n s) else inl Overflow.
Proof.
  intros Hb. induction s as [|c s IH]; intros Hd n Hn.
  - simpl. by destruct (Z.leb_spec n max); [|lia].
  - simpl in Hd. apply andb_prop in Hd as [Hc Hs]. apply Z.ltb_lt in Hc.
    cbn [parse_pos digits_val fold_left]. fold (digits_val base (n * base + _digitValue c) s).
    destruct (Z.leb_spec base (_digitValue c)); [lia|].
    rewrite Z.quot_div_nonneg by lia. pose proof (_digitValue_nonneg c).
    pose proof (digits_val_ge base (n * base + _digitValue c) s ltac:(lia) ltac:(nia)).
    pose proof (Z.div_mod max base ltac:(lia)). pose proof (Z.mod_pos_bound max base ltac:(lia)).
    destruct (Z.ltb_spec (max / base) n) as [Ho|Ho]; cbn [orb].
    { destruct (Z.leb_spec (digits_val base (n * base + _digitValue c) s) max); [nia|done]. }
    destruct (Z.ltb_spec (max - n * base) (_digitValue c)).
    { destruct (Z.leb_spec (digits_val base (n * base + _digitValue c) s) max); [lia|done]. }
    apply IH; [done|nia].
Qed.

(** The loop for negative numbers mirrors the other one. *)
Lemma parse_neg_mirror max base s : 1 <= base -> 0 <= max -> forall n,
  parse_neg (- max) base s (- n) =
    match parse_pos max base s n with
    | inr x => inr (- x)
    | inl Overflow => inl Underflow
    | inl e => inl e
    end.
Proof.
  intros Hb Hm. induction s as [|c s IH]; intros n; [done|]. cbn [parse_neg parse_pos].
  destruct (base <=? _digitValue c); [done|].
  rewrite Z.quot_opp_l by lia.
  replace (- n <? - Z.quot max base) with (Z.quot max base <? n) by lia.
  replace (- _digitValue c <? - max - - n * base) with (max - n * base <? _digitValue c) by lia.
  destruct ((Z.quot max base <? n) || (max - n * base <? _digitValue c)); [done|].
  rewrite <- IH. f_equal. lia.
Qed.

(** ** The whole function *)

Lemma digits_ok_no_sign base c s : base <= 36 -> digits_ok base (c :: s) = true ->
  _extractSign (c :: s) = (c :: s, false).
Proof.
  intros Hb Hd. simpl in Hd. apply andb_prop in Hd as [Hc _]. apply Z.ltb_lt in Hc. simpl.
  destruct (byte_eqb_spec c "-") as [->|]; [by change (_digitValue "-") with 36 in Hc; lia|].
  destruct (byte_eqb_spec c "+") as [->|]; [by change (_digitValue "+") with 36 in Hc; lia|done].
Qed.

Lemma extractBase_plain s base : 2 <= base -> base <> 16 -> _extractBase s base = (s, base).
Proof.
  intros H1 H2. unfold _extractBase. destruct (Z.eqb_spec base 0); [lia|].
  by destruct (Z.eqb_spec base 16).
Qed.

Lemma base_ok base : 2 <= base <= 36 -> (base =? 1) || (base <? 0) || (36 <? base) = false.
Proof. lia. Qed.

Lemma limits_nonneg signed w : 1 <= w -> 0 <= limits_max signed w.
Proof.
  intros. unfold limits_max. pose proof (Z.pow_pos_nonneg 2 (w - 1)).
  pose proof (Z.pow_pos_nonneg 2 w). destruct signed; lia.
Qed.

Lemma parse_digits signed w base s :
  1 <= w -> 2 <= base <= 36 -> base <> 16 -> s <> [] -> digits_ok base s = true ->
  parseNumberFromStringWithBase signed w s base =
    (if digits_val base 0 s <=? limits_max signed w then inr (digits_val base 0 s)
     else inl Overflow) /\
  parseNumberFromStringWithBase signed w ("-"%byte :: s) base =
    if signed then
      if limits_min signed w <=? - digits_val base 0 s then inr (- digits_val base 0 s)
      else inl Underflow
    else inl NegativeValue.
Proof.
  intros Hw Hb H16 Hne Hd. pose proof (limits_nonneg signed w Hw).
  unfold parseNumberFromStringWithBase. rewrite base_ok by done.
  destruct s as [|c s]; [done|]. rewrite (digits_ok_no_sign base) by (done || lia).
  change (_extractSign ("-"%byte :: c :: s)) with (c :: s, true). cbv beta iota.
  rewrite extractBase_plain by lia. cbv beta iota. split.
  - apply parse_pos_spec; [lia|done|lia].
  - destruct signed; [|done]. unfold limits_min.
    assert (0 < 2 ^ (w - 1)) by (apply Z.pow_pos_nonneg; lia).
    change 0 with (- 0) at 1. rewrite parse_neg_mirror by lia.
    rewrite parse_pos_spec by (done || lia).
    destruct (Z.leb_spec (digits_val base 0 (c :: s)) (2 ^ (w - 1))),
      (Z.leb_spec (- 2 ^ (w - 1)) (- digits_val base 0 (c :: s))); done || lia.
Qed.

(** for every integer type and every base from 2 to 36 other than 16, a
    string of digits of that base parses to its value when the type can hold
    it and is otherwise reported as an overflow; with a minus sign, a signed
    type gets the opposite value when it is at least the type's minimum and an
    underflow otherwise, and an unsigned type refuses it. *)
Theorem parseNumber_correct signed w base s :
  1 <= w -> 2 <= base <= 36 -> base <> 16 -> s <> [] -> digits_ok base s = true ->
  parseNumberFromStringWithBase signed w s base =
    (if digits_val base 0 s <=? limits_max signed w then inr (digits_val base 0 s)
     else inl Overflow) /\
  parseNumberFromStringWithBase signed w ("-"%byte :: s) base =
    if signed then
      if limits_min signed w <=? - digits_val base 0 s then inr (- digits_val base 0 s)
      else inl Underflow
    else inl NegativeValue.
Proof. apply parse_digits. Qed.

Lemma parseNumber_correct_witness :
  parseNumberFromStringWithBase true 64 (bstr "9223372036854775808") 10 = inl Overflow /\
  parseNumberFromStringWithBase true 64 (bstr "-9223372036854775808") 10 = inr (- 2 ^ 63).
Proof.
  apply (parseNumber_correct true 64 10 (bstr "9223372036854775808")); done || lia.
Defined.

(** ** Decimal digits *)

Lemma digits_dec s : forallb is_digit s = true ->
  digits_ok 10 s = true /\ digits_val 10 0 s = dec_val s.
Proof.
  intros Hd. unfold dec_val, dec_val_from, digits_val. generalize 0.
  induction s as [|c s IH]; intros n; [done|]. simpl in Hd. apply andb_prop in Hd as [Hc Hs].
  assert (_digitValue c = digit_val c /\ digit_val c < 10) as [Hv Hlt].
  { unfold is_digit in Hc. unfold _digitValue, digit_val. rewrite Hc. lia. }
  cbn [digits_ok forallb fold_left]. rewrite Hv.
  destruct (IH Hs (n * 10 + digit_val c)) as [Hok Hval]. split; [|done].
  unfold digits_ok in Hok. rewrite Hok. lia.
Qed.

Lemma parse_dec_pos signed w s : forallb is_digit s = true -> s <> [] -> 1 <= w ->
  parseNumberFromStringWithBase signed w s 10 =
    if dec_val s <=? limits_max signed w then inr (dec_val s) else inl Overflow.
Proof.
  intros Hd Hne Hw. destruct (digits_dec s Hd) as [Hok <-]. by apply parse_digits.
Qed.

(** Printing an integer and parsing it back. *)
Lemma parse_dec_roundtrip signed w n : 1 <= w -> limits_min signed w <= n <= limits_max signed w ->
  parseNumberFromStringWithBase signed w (dec n) 10 = inr n.
Proof.
  intros Hw Hn. unfold dec. destruct (Z.ltb_spec n 0) as [Hneg|Hpos].
  - destruct (dec_nonneg_spec (- n) ltac:(lia)) as (Hd & Hne & Hv & _).
    destruct (digits_dec _ Hd) as [Hok Hval].
    destruct (parse_digits signed w 10 (dec_nonneg (- n))) as [_ ->]; try (done || lia).
    rewrite Hval, Hv. destruct signed; [|unfold limits_min in Hn; lia].
    destruct (Z.leb_spec (limits_min true w) (- - n)); [f_equal; lia|lia].
  - destruct (dec_nonneg_spec n Hpos) as (Hd & Hne & Hv & _).
    rewrite parse_dec_pos by done. rewrite Hv. by destruct (Z.leb_spec n (limits_max signed w)); [|lia].
Qed.

(** A decimal index as an array writes it is not taken for an octal one. *)
Lemma parse_index n : 0 <= n < 2 ^ 32 -> parseNumberFromString false 32 (dec n) = inr n.
Proof.
  intros Hn. destruct (dec_nonneg_spec n ltac:(lia)) as (Hd & Hne & Hv & _ & Hh).
  assert (parseNumberFromStringWithBase false 32 (dec n) 10 = inr n) as H10
    by (apply parse_dec_roundtrip; [lia|unfold limits_min, limits_max; lia]).
  unfold dec in *. destruct (Z.ltb_spec n 0); [lia|].
  unfold parseNumberFromString, parseNumberFromStringWithBase in *.
  cbn [Z.eqb Z.ltb Z.compare orb] in *.
  destruct (Z.eq_dec n 0) as [->|Hz]; [done|]. specialize (Hh ltac:(lia)).
  destruct (dec_nonneg n) as [|c r] eqn:E; [done|]. clear E.
  assert (forall x, startsWith (c :: r) ("0"%byte :: x) = false) as H0.
  { intros x. unfold startsWith. apply bool_decide_eq_false. simpl. intros [= ->]. by apply Hh. }
  destruct (_extractSign (c :: r)) as [t b] eqn:Es.
  assert (t = c :: r /\ b = false) as [-> ->].
  { simpl in Hd. apply andb_prop in Hd as [Hc _]. simpl in Es.
    rewrite (is_digit_neq c "-" Hc), (is_digit_neq c "+" Hc) in Es by done. by simplify_eq. }
  unfold _extractBase in *. change (bstr "0x") with ["0"%byte; "x"%byte] in *.
  change (bstr "0X") with ["0"%byte; "X"%byte] in *. change (bstr "0") with ["0"%byte] in *.
  rewrite !H0, !andb_false_r in *. exact H10.
Qed.
