(* ===== verification/Codec.v ===== *)
(** * Codec: hexadecimal, object identifiers and base64
    (util/hex.h, bson/oid.h, bson/oid.cpp, util/base64.h, util/base64.cpp)

    An [OID] is its twelve bytes.  What the system gives to a new identifier,
    the time, the machine and process bytes and the counter, are arguments of
    [OID_gen]; the counter it leaves is its result. *)

From stdpp Require Import base list numbers strings option tactics.
From Stdlib Require Import Strings.Byte ZArith Lia.
From S2P Require Import Prelude.

(** ** Hexadecimal *)

(** [int fromHex(char c)]. *)
Definition fromHex_digit (c : byte) : result Z :=
  let z := bz c in
  if (48 <=? z) && (z <=? 57) then Ok (z - 48)
  else if (97 <=? z) && (z <=? 102) then Ok (z - 97 + 10)
  else if (65 <=? z) && (z <=? 70) then Ok (z - 65 + 10)
  else Err VerifyFailed.

(** [char fromHex(const char *c)]: the first two characters. *)
Definition fromHex (c0 c1 : byte) : result byte :=
  let* h := fromHex_digit c0 in
  let* l := fromHex_digit c1 in
  Ok (zb (Z.lor (Z.shiftl h 4) l)).

Definition hexchars_upper : list byte := bstr "0123456789ABCDEF".
Definition hexchars_lower : list byte := bstr "0123456789abcdef".
Definition hex_at (hexchars : list byte) (i : Z) : byte := nth (Z.to_nat i) hexchars x00.

Definition toHex_with (hexchars : list byte) (raw : list byte) : list byte :=
  flat_map (fun c => [hex_at hexchars (Z.shiftr (Z.land (bz c) 0xF0) 4);
                      hex_at hexchars (Z.land (bz c) 0x0F)]) raw.
Definition toHex : list byte -> list byte := toHex_with hexchars_upper.
Definition toHexLower : list byte -> list byte := toHex_with hexchars_lower.

(** ** Object identifiers *)

Definition kOIDSize : Z := 12.

(** The loop of [OID::init(const std::string&)]. *)
Fixpoint fromHex_pairs (s : list byte) : result (list byte) :=
  match s with
  | c0 :: c1 :: r =>
      let* b := fromHex c0 c1 in
      let* bs := fromHex_pairs r in
      Ok (b :: bs)
  | _ => Ok []
  end.

Definition OID_init_string (s : list byte) : result (list byte) :=
  let* _ := verify (zlen s =? 24) in
  fromHex_pairs s.

Definition OID_str (oid : list byte) : list byte := toHexLower oid.

Definition OID_compare (a b : list byte) : Z := lex_cmp a b.

(** The bytes of an [unsigned], most significant first. *)
Definition be32 (t : Z) : list byte := rev (le32 t).

(** [OID::init()]: the time, the machine and process bytes, the low three
    bytes of the counter, most significant first; the counter moves on. *)
Definition OID_gen (t : Z) (machineAndPid : list byte) (inc : Z) : list byte * Z :=
  (be32 (u32 t) ++ machineAndPid ++ rev (take 3 (le32 inc)), u32 (inc + 1)).

(** [OID::init(Date_t date, bool max)]. *)
Definition OID_init_date (date : Z) (max : bool) : list byte :=
  be32 (s32 (date / 1000)) ++ repeat (if max then xff else x00) 8.

(** [OID::asTimeT()]: the time as an [int]. *)
Definition OID_asTimeT (oid : list byte) : Z := s32 (le_val (rev (take 4 oid))).

(** ** Base64 *)

Definition b64_chars : list byte :=
  bstr "ABCDEFGHIJKLMNOPQRSTUVWXYZabcdefghijklmnopqrstuvwxyz0123456789+/".

(** [alphabet.e(x)]. *)
Definition b64_e (x : Z) : byte := nth (Z.to_nat (Z.land x 0x3f)) b64_chars x00.

(** [alphabet.decode[c]]: zero for a character outside the alphabet. *)
Fixpoint index_of (c : byte) (l : list byte) (i : Z) : Z :=
  match l with
  | [] => 0
  | b :: r => if Byte.eqb b c then i else index_of c r (i + 1)
  end.
Definition b64_decode_table (c : byte) : Z := index_of c b64_chars 0.

(** The loop of [encode]; [u8] is the store into an [unsigned char]. *)
Fixpoint b64_encode_go (bs : list byte) : list byte :=
  match bs with
  | [] => []
  | [a] => [b64_e (Z.shiftr (bz a) 2); b64_e (u8 (Z.shiftl (bz a) 4))]
  | [a; b] =>
      [b64_e (Z.shiftr (bz a) 2);
       b64_e (Z.lor (u8 (Z.shiftl (bz a) 4)) (Z.land (Z.shiftr (bz b) 4) 0xF));
       b64_e (u8 (Z.shiftl (Z.land (bz b) 0xF) 2))]
  | a :: b :: c :: r =>
      b64_e (Z.shiftr (bz a) 2) ::
      b64_e (Z.lor (u8 (Z.shiftl (bz a) 4)) (Z.land (Z.shiftr (bz b) 4) 0xF)) ::
      b64_e (Z.lor (u8 (Z.shiftl (Z.land (bz b) 0xF) 2)) (Z.land (Z.shiftr (bz c) 6) 0x3)) ::
      b64_e (Z.land (bz c) 0x3f) :: b64_encode_go r
  end.

Definition b64_encode (bs : list byte) : list byte :=
  b64_encode_go bs ++
  (let m := Z.rem (zlen bs) 3 in
   if m =? 1 then bstr "==" else if m =? 2 then bstr "=" else []).

(** The loop of [decode], four characters at a time. *)
Fixpoint b64_decode_go (s : list byte) : list byte :=
  match s with
  | c0 :: c1 :: c2 :: c3 :: r =>
      let d := b64_decode_table in
      let buf := [
        zb (Z.lor (Z.land (Z.shiftl (d c0) 2) 0xFC) (Z.land (Z.shiftr (d c1) 4) 0x3));
        zb (Z.lor (Z.land (Z.shiftl (d c1) 4) 0xF0) (Z.land (Z.shiftr (d c2) 2) 0xF));
        zb (Z.lor (Z.land (Z.shiftl (d c2) 6) 0xC0) (Z.land (d c3) 0x3F))] in
      let n := if Byte.eqb c3 "=" then (if Byte.eqb c2 "=" then 1 else 2)%nat else 3%nat in
      take n buf ++ b64_decode_go r
  | _ => []
  end.

Definition b64_decode (s : list byte) : result (list byte) :=
  let* _ := uassert 10270 (Z.rem (zlen s) 4 =? 0) in
  Ok (b64_decode_go s).

(** ** Hexadecimal round trips *)

Lemma fromHex_toHex hexchars b : (hexchars = hexchars_lower \/ hexchars = hexchars_upper) ->
  fromHex (hex_at hexchars (Z.shiftr (Z.land (bz b) 0xF0) 4)) (hex_at hexchars (Z.land (bz b) 0x0F))
  = Ok b.
Proof.
  intros Hh.
  assert (match fromHex (hex_at hexchars (Z.shiftr (Z.land (bz b) 0xF0) 4))
            (hex_at hexchars (Z.land (bz b) 0x0F)) with
          | Ok c => Byte.eqb c b | Err _ => false end = true) as H.
  { revert b. apply for_all_bytes. destruct Hh as [->| ->]; by vm_compute. }
  destruct (fromHex _ _) as [d|]; [|done]. destruct (byte_eqb_spec d b); [by subst|done].
Qed.

Lemma fromHex_pairs_toHex hexchars bs :
  (hexchars = hexchars_lower \/ hexchars = hexchars_upper) ->
  fromHex_pairs (toHex_with hexchars bs) = Ok bs.
Proof.
  intros Hh. induction bs as [|b bs IH]; [done|]. cbn [toHex_with flat_map app fromHex_pairs].
  rewrite (fromHex_toHex _ _ Hh). cbn [bind]. fold (toHex_with hexchars bs). by rewrite IH.
Qed.

Lemma length_toHex hexchars bs : length (toHex_with hexchars bs) = (2 * length bs)%nat.
Proof. unfold toHex_with. induction bs as [|b bs IH]; simpl; [done|]. rewrite IH. lia. Qed.

(** ** Base64: a group of three bytes comes back *)

Lemma b64_decode_e x : b64_decode_table (b64_e x) = Z.land x 63.
Proof.
  unfold b64_e. set (y := Z.land x 63).
  assert (0 <= y < 64) as Hy.
  { unfold y. change 63 with (Z.ones 6). rewrite Z.land_ones by lia. by apply Z.mod_pos_bound. }
  clearbody y. clear x.
  assert (forallb (fun i : nat => b64_decode_table (nth i b64_chars x00) =? Z.of_nat i) (seq 0 64) = true)
    as H by by vm_compute.
  rewrite forallb_forall in H. specialize (H (Z.to_nat y)). rewrite Z.eqb_eq in H.
  rewrite H; [lia|]. apply in_seq. lia.
Qed.

Lemma b64_e_not_pad x : Byte.eqb (b64_e x) "=" = false.
Proof.
  unfold b64_e. set (y := Z.land x 63).
  assert (0 <= y < 64) as Hy.
  { unfold y. change 63 with (Z.ones 6). rewrite Z.land_ones by lia. by apply Z.mod_pos_bound. }
  clearbody y. clear x.
  assert (forallb (fun i : nat => negb (Byte.eqb (nth i b64_chars x00) "=")) (seq 0 64) = true)
    as H by by vm_compute.
  rewrite forallb_forall in H. specialize (H (Z.to_nat y)). rewrite negb_true_iff in H.
  apply H, in_seq. lia.
Qed.

(** Facts about one or two bytes, checked on all of them. *)
Lemma for_all_pairs (P : byte -> byte -> bool) :
  forallb (fun a => forallb (P a) all_bytes) all_bytes = true -> forall a b, P a b = true.
Proof.
  intros H a. apply for_all_bytes. pattern a. revert a. by apply for_all_bytes.
Qed.

(** The second and the third character of a group, as six bits. *)
Definition six1 (a b : Z) : Z :=
  Z.land (Z.lor (u8 (Z.shiftl a 4)) (Z.land (Z.shiftr b 4) 0xF)) 63.
Definition six2 (b c : Z) : Z :=
  Z.land (Z.lor (u8 (Z.shiftl (Z.land b 0xF) 2)) (Z.land (Z.shiftr c 6) 0x3)) 63.

Lemma six1_spec a b :
  Z.land (Z.shiftr (six1 (bz a) (bz b)) 4) 0x3 = Z.land (bz a) 3 /\
  Z.land (Z.shiftl (six1 (bz a) (bz b)) 4) 0xF0 = Z.land (bz b) 0xF0.
Proof.
  rewrite <- !Z.eqb_eq, <- andb_true_iff. revert a b. apply for_all_pairs. by vm_compute.
Qed.

Lemma six2_spec b c :
  Z.land (Z.shiftr (six2 (bz b) (bz c)) 2) 0xF = Z.land (bz b) 0xF /\
  Z.land (Z.shiftl (six2 (bz b) (bz c)) 6) 0xC0 = Z.land (bz c) 0xC0.
Proof.
  rewrite <- !Z.eqb_eq, <- andb_true_iff. revert b c. apply for_all_pairs. by vm_compute.
Qed.

Lemma byte_parts a :
  Z.lor (Z.land (Z.shiftl (Z.land (Z.shiftr (bz a) 2) 63) 2) 0xFC) (Z.land (bz a) 3) = bz a /\
  Z.lor (Z.land (bz a) 0xF0) (Z.land (bz a) 0xF) = bz a /\
  Z.lor (Z.land (bz a) 0xC0) (Z.land (Z.land (Z.land (bz a) 0x3f) 63) 0x3F) = bz a.
Proof.
  rewrite <- !Z.eqb_eq, <- !andb_true_iff. revert a. apply for_all_bytes. by vm_compute.
Qed.

(** A group of which [n] bytes are kept. *)
Lemma b64_group a b c :
  zb (Z.lor (Z.land (Z.shiftl (Z.land (Z.shiftr (bz a) 2) 63) 2) 0xFC)
            (Z.land (Z.shiftr (six1 (bz a) (bz b)) 4) 0x3)) = a /\
  zb (Z.lor (Z.land (Z.shiftl (six1 (bz a) (bz b)) 4) 0xF0)
            (Z.land (Z.shiftr (six2 (bz b) (bz c)) 2) 0xF)) = b /\
  zb (Z.lor (Z.land (Z.shiftl (six2 (bz b) (bz c)) 6) 0xC0)
            (Z.land (Z.land (Z.land (bz c) 0x3f) 63) 0x3F)) = c.
Proof.
  destruct (six1_spec a b) as [-> ->], (six2_spec b c) as [-> ->].
  destruct (byte_parts a) as (-> & _ & _), (byte_parts b) as (_ & -> & _), (byte_parts c) as (_ & _ & ->).
  by rewrite !zb_bz.
Qed.

Lemma six1_last a : Z.land (u8 (Z.shiftl a 4)) 63 = six1 a (bz x00).
Proof. unfold six1. change (Z.land (Z.shiftr (bz x00) 4) 0xF) with 0. by rewrite Z.lor_0_r. Qed.
Lemma six2_last b : Z.land (u8 (Z.shiftl (Z.land b 0xF) 2)) 63 = six2 b (bz x00).
Proof. unfold six2. change (Z.land (Z.shiftr (bz x00) 6) 0x3) with 0. by rewrite Z.lor_0_r. Qed.

Lemma b64_encode_step a b c r : b64_encode (a :: b :: c :: r) =
  [b64_e (Z.shiftr (bz a) 2);
   b64_e (Z.lor (u8 (Z.shiftl (bz a) 4)) (Z.land (Z.shiftr (bz b) 4) 0xF));
   b64_e (Z.lor (u8 (Z.shiftl (Z.land (bz b) 0xF) 2)) (Z.land (Z.shiftr (bz c) 6) 0x3));
   b64_e (Z.land (bz c) 0x3f)] ++ b64_encode r.
Proof.
  unfold b64_encode. rewrite !zlen_cons. cbn [b64_encode_go app].
  pose proof (zlen_nonneg r). rewrite !Z.rem_mod_nonneg by lia.
  replace (1 + (1 + (1 + zlen r))) with (zlen r + 1 * 3) by lia. by rewrite Z_mod_plus_full.
Qed.

(** Lists three at a time. *)
Lemma list_ind3 {A} (P : list A -> Prop) :
  P [] -> (forall a, P [a]) -> (forall a b, P [a; b]) ->
  (forall a b c r, P r -> P (a :: b :: c :: r)) -> forall l, P l.
Proof.
  intros H0 H1 H2 H3. fix IH 1. intros [|a [|b [|c r]]]; [done|apply H1|apply H2|apply H3, IH].
Qed.

Lemma b64_roundtrip bs : b64_decode_go (b64_encode bs) = bs /\
  zlen (b64_encode bs) = 4 * ((zlen bs + 2) / 3).
Proof.
  induction bs as [|a|a b|a b c r [IH IHl]] using list_ind3.
  - done.
  - split; [|done]. unfold b64_encode. change (Z.rem (zlen [a]) 3 =? 1) with true.
    cbn [b64_encode_go app bstr]. change (bstr "==") with ["="; "="]%byte. cbn [app b64_decode_go].
    rewrite byte_eqb_refl, !b64_decode_e, six1_last. cbn [take]. f_equal.
    by destruct (b64_group a x00 x00) as (-> & _).
  - split; [|done]. unfold b64_encode. change (Z.rem (zlen [a; b]) 3 =? 1) with false.
    change (Z.rem (zlen [a; b]) 3 =? 2) with true.
    change (bstr "=") with ["="]%byte. cbn [b64_encode_go app b64_decode_go].
    rewrite byte_eqb_refl, b64_e_not_pad, !b64_decode_e, six2_last. fold (six1 (bz a) (bz b)).
    cbn [take]. by destruct (b64_group a b x00) as (-> & -> & _).
  - rewrite b64_encode_step. split.
    + cbn [app b64_decode_go]. rewrite b64_e_not_pad, !b64_decode_e.
      fold (six1 (bz a) (bz b)) (six2 (bz b) (bz c)). cbn [take app].
      destruct (b64_group a b c) as (-> & -> & ->). by rewrite IH.
    + rewrite zlen_app, IHl, !zlen_cons. change (zlen []) with 0.
      replace (1 + (1 + (1 + zlen r)) + 2) with (zlen r + 2 + 1 * 3) by lia.
      rewrite Z_div_plus_full by lia. change (zlen (_ :: _)) with 4. lia.
Qed.

(** base64 decoding undoes encoding, whatever the bytes and their number:
    the padding tells the length of the last group, and the encoded text is
    four characters for every three bytes or part of them. *)
Theorem base64_roundtrip bs :
  b64_decode (b64_encode bs) = Ok bs /\ zlen (b64_encode bs) = 4 * ((zlen bs + 2) / 3).
Proof.
  destruct (b64_roundtrip bs) as [H Hl]. split; [|done]. unfold b64_decode. rewrite Hl, H.
  pose proof (zlen_nonneg bs). assert (0 <= (zlen bs + 2) / 3) by (apply Z.div_pos; lia).
  rewrite Z.rem_mod_nonneg by lia.
  rewrite Z.mul_comm, Z_mod_mult. done.
Qed.

Lemma fromHex_pairs_length n : forall s x, length s = (2 * n)%nat -> fromHex_pairs s = Ok x -> length x = n.
Proof.
  induction n as [|n IH]; intros [|c0 [|c1 s]] x Hs Hx; simpl in Hs; try lia.
  - by injection Hx as <-.
  - cbn [fromHex_pairs] in Hx. inv_bind. simpl. f_equal. apply (IH s); [lia|done].
Qed.

Lemma OID_init_length s x : OID_init_string s = Ok x -> zlen x = 12.
Proof.
  unfold OID_init_string. destruct (Z.eqb_spec (zlen s) 24) as [Hs|]; [|done].
  cbn [verify bind]. unfold zlen in *. intros Hx. rewrite (fromHex_pairs_length 12 s x); [done|lia|done].
Qed.

(** the text of an identifier is 24 digits that read back as its twelve
    bytes, in lower or upper case, and a text of another length, or with a
    character that is no hexadecimal digit, is rejected. *)
Theorem OID_roundtrip o :
  (zlen o = 12 -> OID_init_string (OID_str o) = Ok o /\ OID_init_string (toHex o) = Ok o /\
     zlen (OID_str o) = 24) /\
  (forall s, zlen s <> 24 -> OID_init_string s = Err VerifyFailed) /\
  (forall s x, OID_init_string s = Ok x -> zlen x = 12).
Proof.
  split; [|split].
  - intros Ho. unfold OID_init_string, OID_str, toHexLower, toHex.
    assert (forall h, zlen (toHex_with h o) = 24) as Hl
      by (intros h; unfold zlen in *; rewrite length_toHex; lia).
    rewrite !Hl. change (24 =? 24) with true. cbn [verify bind].
    rewrite !fromHex_pairs_toHex by auto. done.
  - intros s Hs. unfold OID_init_string. by destruct (Z.eqb_spec (zlen s) 24).
  - apply OID_init_length.
Qed.

Lemma OID_roundtrip_witness :
  OID_init_string (OID_str (repeat xab 12)) = Ok (repeat xab 12).
Proof. destruct (OID_roundtrip (repeat xab 12)) as [H _]. by apply H. Defined.

(** ** The order of identifiers *)

Lemma lex_cmp_prefix a b r s : length a = length b -> lex_cmp a b <> 0 ->
  lex_cmp (a ++ r) (b ++ s) = lex_cmp a b.
Proof.
  revert b. induction a as [|x a IH]; intros [|y b] Hl Hc; try done; simpl in *.
  destruct (bz x <? bz y); [done|]. destruct (bz y <? bz x); [done|]. apply IH; [lia|done].
Qed.

Lemma lex_cmp_same_length a b r s : length a = length b ->
  lex_cmp (a ++ r) (b ++ s) = if lex_cmp a b =? 0 then lex_cmp r s else lex_cmp a b.
Proof.
  intros Hl. destruct (Z.eqb_spec (lex_cmp a b) 0) as [E|E]; [|by apply lex_cmp_prefix].
  apply lex_cmp_eq in E as ->. clear Hl. induction b as [|x b IH]; [done|]. simpl.
  by rewrite Z.ltb_irrefl, IH.
Qed.

(** Bytes with the most significant first compare as the number they are. *)
Lemma lex_cmp_be a : forall b, length a = length b ->
  lex_cmp (rev a) (rev b) = Z.sgn (le_val a - le_val b).
Proof.
  induction a as [|x a IH]; intros [|y b] Hl; try done. injection Hl as Hl. cbn [rev le_val].
  rewrite lex_cmp_same_length by (by rewrite !length_rev). rewrite (IH b Hl).
  pose proof (bz_range x). pose proof (bz_range y). cbn [lex_cmp].
  destruct (Z.eqb_spec (Z.sgn (le_val a - le_val b)) 0) as [E|E].
  - apply Z.sgn_null_iff in E. replace (le_val a) with (le_val b) by lia.
    destruct (Z.ltb_spec (bz x) (bz y)); [rewrite Z.sgn_neg; lia|].
    destruct (Z.ltb_spec (bz y) (bz x)); [rewrite Z.sgn_pos; lia|].
    replace (bz x) with (bz y) by lia. by rewrite Z.sub_diag.
  - destruct (Z.lt_total (le_val a) (le_val b)) as [H1|[H1|H1]].
    + rewrite !Z.sgn_neg; lia.
    + rewrite H1, Z.sub_diag in E. done.
    + rewrite !Z.sgn_pos; lia.
Qed.

Lemma be32_compare s t : in_u 32 s = true -> in_u 32 t = true ->
  lex_cmp (be32 s) (be32 t) = Z.sgn (s - t).
Proof.
  intros Hs Ht. unfold be32. rewrite lex_cmp_be by (by rewrite !length_le_bytes).
  by rewrite !le32_val.
Qed.

Lemma length_be32 t : length (be32 t) = 4%nat.
Proof. unfold be32. by rewrite length_rev, length_le_bytes. Qed.

Lemma take3_le32 i : take 3 (le32 i) = le_bytes 3 i.
Proof. done. Qed.

(** identifiers generated by a process are ordered by the second they are
    made in and, within a second, by the low 24 bits of the counter, so that
    fewer than 2^24 identifiers made in a row are all different. *)
Theorem OID_gen_order t1 t2 m i j :
  in_u 32 t1 = true -> in_u 32 t2 = true -> 0 <= i -> 0 <= j ->
  let o1 := fst (OID_gen t1 m i) in
  let o2 := fst (OID_gen t2 m j) in
  (t1 < t2 -> OID_compare o1 o2 = -1) /\
  (t1 = t2 -> OID_compare o1 o2 = Z.sgn (i mod 2 ^ 24 - j mod 2 ^ 24)) /\
  (0 < j - i < 2 ^ 24 -> o1 <> o2).
Proof.
  intros H1 H2 Hi Hj o1 o2. subst o1 o2. unfold OID_gen, OID_compare. cbn [fst].
  rewrite !(wrap_u_small 32) by (by apply in_u_spec).
  assert (forall x, le_val (take 3 (le32 x)) = x mod 2 ^ 24) as Hinc
    by (intros x; rewrite take3_le32, le_val_bytes; done).
  assert (lex_cmp (rev (take 3 (le32 i))) (rev (take 3 (le32 j))) =
    Z.sgn (i mod 2 ^ 24 - j mod 2 ^ 24)) as Hc.
  { rewrite lex_cmp_be by done. by rewrite !Hinc. }
  split; [|split].
  - intros Ht. rewrite lex_cmp_same_length by (by rewrite !length_be32).
    rewrite be32_compare by done. by rewrite Z.sgn_neg by lia.
  - intros <-. rewrite lex_cmp_same_length by done. rewrite lex_cmp_refl. cbn [Z.eqb].
    by rewrite lex_cmp_same_length, lex_cmp_refl by done.
  - intros Hij [_ E]%app_inj_1; [|by rewrite !length_be32].
    apply app_inv_head in E. rewrite E, lex_cmp_refl in Hc.
    symmetry in Hc. apply Z.sgn_null_iff in Hc.
    assert ((j - i) mod 2 ^ 24 = 0) as Hz.
    { rewrite Zminus_mod. replace (j mod 2 ^ 24) with (i mod 2 ^ 24) by lia. by rewrite Z.sub_diag. }
    rewrite Z.mod_small in Hz; lia.
Qed.

Lemma OID_gen_order_witness :
  OID_compare (fst (OID_gen 7 (repeat x01 5) 255)) (fst (OID_gen 7 (repeat x01 5) 256)) = -1.
Proof.
  destruct (OID_gen_order 7 7 (repeat x01 5) 255 256) as (_ & H & _); [done|done|lia|lia|].
  by rewrite H.
Defined.

Lemma lex_cmp_least r n : length r = n -> lex_cmp (repeat x00 n) r <= 0.
Proof.
  revert n. induction r as [|x r IH]; intros [|n] Hl; simpl in *; try lia.
  change (bz x00) with 0. pose proof (bz_range x).
  destruct (Z.ltb_spec 0 (bz x)); [lia|]. destruct (Z.ltb_spec (bz x) 0); [lia|]. apply IH. lia.
Qed.

Lemma lex_cmp_greatest r n : length r = n -> lex_cmp r (repeat xff n) <= 0.
Proof.
  revert n. induction r as [|x r IH]; intros [|n] Hl; simpl in *; try lia.
  change (bz xff) with 255. pose proof (bz_range x).
  destruct (Z.ltb_spec (bz x) 255); [lia|]. destruct (Z.ltb_spec 255 (bz x)); [lia|]. apply IH. lia.
Qed.

(** The identifiers made from a date bound those of its second: every
    identifier whose time is that second lies between the least and the
    greatest one, and the time of both reads back. *)
Theorem OID_date_bounds date o :
  0 <= date / 1000 < 2 ^ 31 -> zlen o = 12 -> OID_asTimeT o = date / 1000 ->
  OID_compare (OID_init_date date false) o <= 0 /\
  OID_compare o (OID_init_date date true) <= 0 /\
  OID_asTimeT (OID_init_date date false) = date / 1000.
Proof.
  intros Hd Hl Ht. unfold OID_init_date.
  rewrite (wrap_s_small 32) by (change (2 ^ (32 - 1)) with (2 ^ 31); lia).
  set (t := date / 1000) in *.
  assert (in_s 32 t = true) as Hs by (apply in_s_spec; change (2 ^ (32 - 1)) with (2 ^ 31); lia).
  assert (exists r, o = be32 t ++ r /\ length r = 8%nat) as (r & -> & Hr).
  { exists (drop 4 o). unfold zlen in Hl. rewrite length_drop. split; [|lia].
    rewrite <- (take_drop 4 o) at 1. f_equal. unfold OID_asTimeT in Ht.
    apply rev_inj. unfold be32. rewrite rev_involutive.
    assert (length (rev (take 4 o)) = 4%nat) as Hl4 by (rewrite length_rev, length_take; lia).
    rewrite <- (le_bytes_val (rev (take 4 o))), Hl4.
    rewrite <- (le_bytes_mod 4 t), <- (le_bytes_mod 4 (le_val _)). f_equal.
    change (256 ^ Z.of_nat 4) with (2 ^ 32). rewrite <- Ht.
    fold (wrap_u 32 (le_val (rev (take 4 o)))). fold (wrap_u 32 (wrap_s 32 (le_val (rev (take 4 o))))).
    by rewrite wrap_s_u by lia. }
  unfold OID_compare. rewrite !lex_cmp_same_length by done. rewrite lex_cmp_refl. cbn [Z.eqb].
  split; [by apply (lex_cmp_least r 8)|]. split; [by apply (lex_cmp_greatest r 8)|].
  unfold OID_asTimeT. rewrite take_app_length' by (by rewrite length_be32).
  unfold be32. rewrite rev_involutive. by apply s32_le32.
Qed.

Lemma OID_date_bounds_witness :
  OID_compare (OID_init_date 5000 false) (OID_init_date 5999 true) <= 0.
Proof.
  destruct (OID_date_bounds 5000 (OID_init_date 5999 true)) as [H _].
  - split; [by apply Z.leb_le|by apply Z.ltb_lt].
  - reflexivity.
  - reflexivity.
  - exact H.
Defined.
