(* ===== verification/Oid.v ===== *)
(** * Oid: the process part of object identifiers, and sequential ones
    (bson/oid.h, bson/oid.cpp)

    The static members [ourMachine] and [ourMachineAndPid] are a state of two
    five-byte values; the random number and the process id the system gives
    are arguments.  Identifiers of the sequential kind hold a counter of 64
    bits. *)

From stdpp Require Import base list numbers strings option tactics.
From Stdlib Require Import Strings.Byte ZArith Lia.
From S2P Require Import Prelude Codec.

(** ** The machine number and the process id *)

(** Three bytes of machine number, two bytes of process id. *)
Definition MachineAndPid : Type := list byte.
Definition _machineNumber (x : MachineAndPid) : list byte := take 3 x.
Definition _pid (x : MachineAndPid) : list byte := drop 3 x.

(** [s ^= v] on an [unsigned short] that lies in two bytes. *)
Definition xor_short (s : list byte) (v : Z) : list byte := le_bytes 2 (Z.lxor (le_val s) (wrap_u 16 v)).

(** The high half of the process id goes to the last two bytes of the machine
    number. *)
Definition foldInPid (p : Z) (x : MachineAndPid) : MachineAndPid :=
  take 1 x ++ xor_short (take 2 (drop 1 x)) (Z.shiftr p 16) ++ xor_short (_pid x) p.

Record machine := MkMachine { ourMachine : MachineAndPid; ourMachineAndPid : MachineAndPid }.

(** With the random number [n]: the value, and the state with the new machine. *)
Definition genMachineAndPid (n p : Z) (st : machine) : MachineAndPid * machine :=
  let m := take 5 (le64 n) in (foldInPid p m, MkMachine m (ourMachineAndPid st)).

Definition regenMachineId (n p : Z) (st : machine) : machine :=
  let '(x, st') := genMachineAndPid n p st in MkMachine (ourMachine st') x.

Definition getMachineId (st : machine) : Z := le_val (_machineNumber (ourMachineAndPid st) ++ [x00]).

(** [x != y]: the machine numbers are arrays, so what is compared is where they
    lie. *)
Definition MachineAndPid_ne (same_place : bool) (x y : MachineAndPid) : bool :=
  negb (bool_decide (_pid x = _pid y)) || negb same_place.

Definition justForked (n p : Z) (st : machine) : result machine :=
  let x := foldInPid p (ourMachine st) in
  let st' := regenMachineId n p st in
  let* _ := verify (MachineAndPid_ne false x (ourMachineAndPid st')) in
  Ok (MkMachine (ourMachine st') x).

(** ** Identifiers *)

Definition OID_clear : list byte := repeat x00 12.
Definition OID_isSet (o : list byte) : bool :=
  negb (le_val (take 8 o) =? 0) || negb (le_val (drop 8 o) =? 0).
Definition OID_eq (o r : list byte) : bool :=
  (le_val (take 8 o) =? le_val (take 8 r)) && (le_val (drop 8 o) =? le_val (drop 8 r)).
Definition OID_lt (o r : list byte) : bool := OID_compare o r <? 0.
Definition OID_le (o r : list byte) : bool := OID_compare o r <=? 0.
Definition OID_toIncString (o : list byte) : list byte := toHexLower (drop 9 o).
Definition OID_asDateT (o : list byte) : Z := OID_asTimeT o * 1000.

(** [OID::initSequential()]: the counter moves on. *)
Definition OID_initSequential (t sequence : Z) : list byte * Z :=
  (be32 (u32 t) ++ rev (le64 sequence), wrap_u 64 (sequence + 1)).

(** ** What they guarantee *)

Lemma xor_short_inj s v w : length s = 2%nat ->
  xor_short s v = xor_short s w -> wrap_u 16 v = wrap_u 16 w.
Proof.
  intros Hs E. unfold xor_short in E. apply le_bytes_inj in E.
  change (256 ^ Z.of_nat 2) with (2 ^ 16) in E.
  pose proof (le_val_range s) as Hr. unfold zlen in Hr. rewrite Hs in Hr.
  assert (forall x, 0 <= Z.lxor (le_val s) (wrap_u 16 x) < 2 ^ 16) as Hx.
  { intros x. pose proof (wrap_u_range 16 x ltac:(lia)) as Hw.
    assert (0 <= Z.lxor (le_val s) (wrap_u 16 x)) as H0 by (apply Z.lxor_nonneg; lia).
    split; [done|]. destruct (Z.eq_dec (Z.lxor (le_val s) (wrap_u 16 x)) 0) as [->|]; [done|].
    apply Z.log2_lt_pow2; [lia|]. eapply Z.le_lt_trans; [apply Z.log2_lxor; lia|].
    assert (forall y, 0 <= y < 2 ^ 16 -> Z.log2 y < 16) as Hl.
    { intros y Hy. destruct (Z.eq_dec y 0) as [->|]; [done|]. apply Z.log2_lt_pow2; lia. }
    apply Z.max_lub_lt; apply Hl; [|lia]. change (256 ^ Z.of_nat 2) with (2 ^ 16) in Hr. lia. }
  rewrite !Z.mod_small in E by apply Hx.
  apply (f_equal (Z.lxor (le_val s))) in E. by rewrite <- !Z.lxor_assoc, !Z.lxor_nilpotent, !Z.lxor_0_l in E.
Qed.

(** Processes of one machine with different process ids write different bytes. *)
Lemma foldInPid_inj p q x : length x = 5%nat -> in_u 32 p = true -> in_u 32 q = true ->
  foldInPid p x = foldInPid q x -> p = q.
Proof.
  intros Hx Hp%in_u_spec Hq%in_u_spec E. unfold foldInPid in E.
  apply app_inv_head in E. apply app_inj_1 in E as [Eh El]; [|unfold xor_short; by rewrite !length_le_bytes].
  apply xor_short_inj in Eh; [|rewrite length_take, length_drop; lia].
  apply xor_short_inj in El; [|unfold _pid; rewrite length_drop; lia].
  unfold wrap_u in *. rewrite !Z.shiftr_div_pow2 in Eh by lia.
  rewrite !Z.mod_small in Eh by (split; [apply Z.div_pos|apply Z.div_lt_upper_bound]; lia).
  rewrite (Z.div_mod p (2 ^ 16)), (Z.div_mod q (2 ^ 16)) by lia. by rewrite Eh, El.
Qed.

(** After a fork the child writes the machine's bytes with its own process id,
    and the check of the code never fails: it compares addresses. *)
Lemma justForked_pid n p st : exists m,
  justForked n p st = Ok (MkMachine m (foldInPid p (ourMachine st))).
Proof. unfold justForked, MachineAndPid_ne. rewrite orb_true_r. eexists. done. Qed.

Lemma length_OID_sequential t i : length (fst (OID_initSequential t i)) = 12%nat.
Proof. unfold OID_initSequential. cbn [fst]. by rewrite length_app, length_be32, length_rev, length_le_bytes. Qed.

(** Sequential identifiers are ordered by their second, and then by the
    counter. *)
Lemma OID_sequential_order t1 t2 i j :
  in_u 32 t1 = true -> in_u 32 t2 = true -> in_u 64 i = true -> in_u 64 j = true ->
  OID_compare (fst (OID_initSequential t1 i)) (fst (OID_initSequential t2 j)) =
  if t1 =? t2 then Z.sgn (i - j) else Z.sgn (t1 - t2).
Proof.
  intros H1 H2 Hi Hj. unfold OID_initSequential, OID_compare. cbn [fst].
  rewrite !(wrap_u_small 32) by (by apply in_u_spec).
  rewrite lex_cmp_same_length by (by rewrite !length_be32). rewrite be32_compare by done.
  rewrite lex_cmp_be by (by rewrite !length_le_bytes). rewrite !le64_val by done.
  destruct (Z.eqb_spec t1 t2) as [->|].
  - by rewrite Z.sub_diag.
  - destruct (Z.eqb_spec (Z.sgn (t1 - t2)) 0); [lia|done].
Qed.

(** The comparison of two integers in the union is that of the bytes. *)
Lemma OID_eq_spec o r : length o = 12%nat -> length r = 12%nat -> OID_eq o r = true <-> o = r.
Proof.
  intros Ho Hr. unfold OID_eq. split.
  - intros [Ea Eb]%andb_prop. apply Z.eqb_eq in Ea, Eb.
    rewrite <- (take_drop 8 o), <- (take_drop 8 r).
    assert (forall (n : nat) (a b : list byte), length a = n -> length b = n -> le_val a = le_val b -> a = b) as Hi.
    { intros n a b Ha Hb E. rewrite <- (le_bytes_val a), <- (le_bytes_val b), Ha, Hb, E. done. }
    f_equal; [apply (Hi 8%nat)|apply (Hi 4%nat)]; rewrite ?length_take, ?length_drop; (done || lia).
  - intros ->. by rewrite !Z.eqb_refl.
Qed.
