(* ===== verification/Double.v ===== *)
(** * Double: IEEE 754 binary64 values as bit patterns

    A [double] of the source is its 64-bit pattern, as it lies in a BSON
    buffer.  Comparison and conversion from an integer are those of
    [SpecFloat] (round to nearest, ties to even); [d_key] is the order
    embedding into the integers that the comparison theorems use. *)

From stdpp Require Import base numbers tactics.
From Stdlib Require Import ZArith Lia SpecFloat.
From S2P Require Import Prelude.

Definition d_sign (b : Z) : bool := 2 ^ 63 <=? b.
Definition d_exp (b : Z) : Z := (b / 2 ^ 52) mod 2 ^ 11.
Definition d_man (b : Z) : Z := b mod 2 ^ 52.

(** The value of a bit pattern. *)
Definition d_spec (b : Z) : spec_float :=
  let s := d_sign b in
  let e := d_exp b in
  let m := d_man b in
  if e =? 2047 then (if m =? 0 then S754_infinity s else S754_nan)
  else if e =? 0 then
    match m with
    | Zpos p => S754_finite s p (-1074)
    | _ => S754_zero s
    end
  else
    match m + 2 ^ 52 with
    | Zpos p => S754_finite s p (e - 1075)
    | _ => S754_zero s
    end.

(** The bit pattern of a value in canonical form. *)
Definition d_bits (f : spec_float) : Z :=
  let sgn (s : bool) := if s then 2 ^ 63 else 0 in
  match f with
  | S754_zero s => sgn s
  | S754_infinity s => sgn s + 2047 * 2 ^ 52
  | S754_nan => 2047 * 2 ^ 52 + 2 ^ 51
  | S754_finite s m e =>
      if Zpos m <? 2 ^ 52 then sgn s + Zpos m
      else sgn s + (e + 1075) * 2 ^ 52 + (Zpos m - 2 ^ 52)
  end.

(** The conversion of an integer to [double]. *)
Definition d_of_Z (n : Z) : Z := d_bits (binary_normalize 53 1024 n 0 false).

Definition d_isnan (b : Z) : bool := (d_exp b =? 2047) && negb (d_man b =? 0).
Definition d_isinf (b : Z) : bool := (d_exp b =? 2047) && (d_man b =? 0).
Definition d_ltb (a b : Z) : bool := SFltb (d_spec a) (d_spec b).
Definition d_eqb (a b : Z) : bool := SFeqb (d_spec a) (d_spec b).
Definition d_leb (a b : Z) : bool := SFleb (d_spec a) (d_spec b).

(** The truncation of a [double] towards zero; [None] for NaN and infinities. *)
Definition d_trunc (b : Z) : option Z :=
  match d_spec b with
  | S754_zero _ => Some 0
  | S754_finite s m e =>
      let v := if 0 <=? e then Zpos m * 2 ^ e else Zpos m / 2 ^ (- e) in
      Some (if s then - v else v)
  | _ => None
  end.

Definition d_zero : Z := 0.
Definition d_nan : Z := d_bits S754_nan.
Definition d_inf : Z := d_bits (S754_infinity false).
Definition d_ninf : Z := d_bits (S754_infinity true).
(** [numeric_limits<double>::max()]. *)
Definition d_max : Z := 2046 * 2 ^ 52 + (2 ^ 52 - 1).
Definition d_opp (b : Z) : Z := if d_sign b then b - 2 ^ 63 else b + 2 ^ 63.

(** ** The order of doubles as an order of integers *)

Definition d_mag (b : Z) : Z := b mod 2 ^ 63.
Definition d_key (b : Z) : Z := if d_sign b then - d_mag b else d_mag b.

Lemma d_fields b : in_u 64 b = true ->
  b = (if d_sign b then 2 ^ 63 else 0) + d_exp b * 2 ^ 52 + d_man b /\
  d_mag b = d_exp b * 2 ^ 52 + d_man b /\
  0 <= d_exp b < 2 ^ 11 /\ 0 <= d_man b < 2 ^ 52.
Proof.
  intros Hb%in_u_spec. unfold d_sign, d_exp, d_man, d_mag.
  pose proof (Z.mod_pos_bound b (2 ^ 52) eq_refl).
  pose proof (Z.mod_pos_bound (b / 2 ^ 52) (2 ^ 11) eq_refl).
  assert (b / 2 ^ 52 / 2 ^ 11 = b / 2 ^ 63) as Hd
    by (rewrite Z.div_div by lia; f_equal).
  pose proof (Z.div_mod b (2 ^ 52) ltac:(lia)).
  pose proof (Z.div_mod (b / 2 ^ 52) (2 ^ 11) ltac:(lia)) as H2. rewrite Hd in H2.
  pose proof (Z.div_mod b (2 ^ 63) ltac:(lia)).
  pose proof (Z.mod_pos_bound b (2 ^ 63) eq_refl).
  destruct (Z.leb_spec (2 ^ 63) b).
  - assert (b / 2 ^ 63 = 1) as E by (symmetry; apply (Z.div_unique _ _ _ (b - 2^63)); lia).
    rewrite E in *. lia.
  - assert (b / 2 ^ 63 = 0) as E by (apply Z.div_small; lia). rewrite E in *. lia.
Qed.

(** A bit pattern read as sign, significand and exponent. *)
Lemma d_spec_finite b : in_u 64 b = true -> d_exp b <> 2047 -> d_mag b <> 0 ->
  exists m e, d_spec b = S754_finite (d_sign b) m e /\
    d_mag b = (e + 1074) * 2 ^ 52 + Zpos m /\ -1074 <= e <= 971 /\
    Zpos m < 2 ^ 53 /\ (-1074 < e -> 2 ^ 52 <= Zpos m).
Proof.
  intros Hb He Hz. destruct (d_fields b Hb) as (_ & Hm & Hr & Hn).
  unfold d_spec. destruct (Z.eqb_spec (d_exp b) 2047); [done|].
  destruct (Z.eqb_spec (d_exp b) 0) as [E|E].
  - destruct (d_man b) as [|p|p] eqn:Em; [lia| |lia].
    exists p, (-1074). repeat split; lia.
  - destruct (d_man b + 2 ^ 52) as [|p|p] eqn:Em; [lia| |lia].
    exists p, (d_exp b - 1075). repeat split; lia.
Qed.

Lemma d_spec_cases b : in_u 64 b = true ->
  (d_isnan b = true /\ d_spec b = S754_nan) \/
  (d_isnan b = false /\ d_spec b = S754_infinity (d_sign b) /\ d_mag b = 2047 * 2 ^ 52) \/
  (d_isnan b = false /\ d_spec b = S754_zero (d_sign b) /\ d_mag b = 0) \/
  (d_isnan b = false /\ 0 < d_mag b < 2047 * 2 ^ 52 /\
   exists m e, d_spec b = S754_finite (d_sign b) m e /\
    d_mag b = (e + 1074) * 2 ^ 52 + Zpos m /\ -1074 <= e <= 971 /\
    Zpos m < 2 ^ 53 /\ (-1074 < e -> 2 ^ 52 <= Zpos m)).
Proof.
  intros Hb. destruct (d_fields b Hb) as (_ & Hm & Hr & Hn). unfold d_isnan.
  destruct (Z.eqb_spec (d_exp b) 2047) as [E|E]; simpl.
  - unfold d_spec. rewrite E, Z.eqb_refl.
    destruct (Z.eqb_spec (d_man b) 0) as [E'|E']; simpl; [right; left|left]; auto.
    repeat split; lia.
  - destruct (Z.eq_dec (d_mag b) 0) as [Ez|Ez].
    + right; right; left. assert (d_exp b = 0 /\ d_man b = 0) as [H1 H2] by lia.
      unfold d_spec. rewrite H1, H2. auto.
    + right; right; right. split; [done|]. split; [lia|]. by apply d_spec_finite.
Qed.

Lemma Zpos_compare m n : Pos.compare_cont Eq m n = (Zpos m ?= Zpos n).
Proof. done. Qed.

(** Decide a [Z.compare] goal. *)
Ltac z_compare :=
  match goal with
  | |- (_ ?= _) = Eq => apply Z.compare_eq_iff; lia
  | |- (_ ?= _) = Lt => apply Z.compare_lt_iff; lia
  | |- (_ ?= _) = Gt => apply Z.compare_gt_iff; lia
  end.

(** [SFcompare] on two doubles is the comparison of their keys. *)
Lemma d_compare_key a b : in_u 64 a = true -> in_u 64 b = true ->
  d_isnan a = false -> d_isnan b = false ->
  SFcompare (d_spec a) (d_spec b) = Some (d_key a ?= d_key b).
Proof.
  intros Ha Hb Na Nb. unfold d_key.
  destruct (d_spec_cases a Ha) as [[? ?]|[(_ & -> & Ma)|[(_ & -> & Ma)|(_ & Ra & ma & ea & -> & Ma & ?)]]];
    [congruence|..];
  (destruct (d_spec_cases b Hb) as [[? ?]|[(_ & -> & Mb)|[(_ & -> & Mb)|(_ & Rb & mb & eb & -> & Mb & ?)]]];
    [congruence|..]);
  destruct (d_sign a), (d_sign b); simpl; f_equal; try rewrite Ma; try rewrite Mb;
    try (symmetry; z_compare);
    rewrite ?Zpos_compare, ?Z.compare_opp.
  - destruct (Z.compare_spec ea eb) as [->| |]; cbn [CompOpp].
    + destruct (Z.compare_spec (Zpos ma) (Zpos mb)); cbn [CompOpp]; symmetry; z_compare.
    + symmetry. z_compare.
    + symmetry. z_compare.
  - destruct (Z.compare_spec ea eb) as [->| |]; cbn [CompOpp].
    + destruct (Z.compare_spec (Zpos ma) (Zpos mb)); cbn [CompOpp]; symmetry; z_compare.
    + symmetry. z_compare.
    + symmetry. z_compare.
Qed.

Lemma d_ltb_key a b : in_u 64 a = true -> in_u 64 b = true ->
  d_ltb a b = negb (d_isnan a) && negb (d_isnan b) && (d_key a <? d_key b).
Proof.
  intros Ha Hb. unfold d_ltb, SFltb.
  destruct (d_isnan a) eqn:Na.
  { destruct (d_spec_cases a Ha) as [[_ ->]|[[? ?]|[[? ?]|[? ?]]]]; simpl; congruence. }
  destruct (d_isnan b) eqn:Nb.
  { destruct (d_spec_cases b Hb) as [[_ ->]|[[? ?]|[[? ?]|[? ?]]]]; [|congruence..].
    destruct (d_spec a); done. }
  rewrite d_compare_key by done. simpl. unfold Z.ltb. by destruct (_ ?= _).
Qed.

Lemma d_eqb_key a b : in_u 64 a = true -> in_u 64 b = true ->
  d_eqb a b = negb (d_isnan a) && negb (d_isnan b) && (d_key a =? d_key b).
Proof.
  intros Ha Hb. unfold d_eqb, SFeqb.
  destruct (d_isnan a) eqn:Na.
  { destruct (d_spec_cases a Ha) as [[_ ->]|[[? ?]|[[? ?]|[? ?]]]]; simpl; congruence. }
  destruct (d_isnan b) eqn:Nb.
  { destruct (d_spec_cases b Hb) as [[_ ->]|[[? ?]|[[? ?]|[? ?]]]]; [|congruence..].
    destruct (d_spec a); done. }
  rewrite d_compare_key by done. simpl. rewrite Z.eqb_compare. by destruct (_ ?= _).
Qed.

(** ** Integers below 2^53 convert exactly *)

Lemma digits2_log2 p : Zpos (digits2_pos p) = Z.log2 (Zpos p) + 1.
Proof.
  induction p as [p IH|p IH|]; [..|done]; cbn [digits2_pos]; rewrite Pos2Z.inj_succ, IH.
  - change (Zpos p~1) with (2 * Zpos p + 1). rewrite Z.log2_succ_double by lia. lia.
  - change (Zpos p~0) with (2 * Zpos p). rewrite Z.log2_double by lia. lia.
Qed.

Lemma iter_xO m d : Zpos (Pos.iter xO m d) = Zpos m * 2 ^ Zpos d.
Proof.
  induction d as [|d IH] using Pos.peano_ind; [simpl; lia|].
  rewrite Pos.iter_succ, Pos2Z.inj_succ, Z.pow_succ_r by lia.
  rewrite (Pos2Z.inj_xO (Pos.iter xO m d)), IH. lia.
Qed.

(** The magnitude bits of an integer below 2^53. *)
Definition int_mag (m : Z) : Z :=
  (Z.log2 m + 1023) * 2 ^ 52 + (m * 2 ^ (52 - Z.log2 m) - 2 ^ 52).

Lemma normal_significand m : 0 < m < 2 ^ 53 ->
  0 <= Z.log2 m <= 52 /\ 2 ^ 52 <= m * 2 ^ (52 - Z.log2 m) < 2 ^ 53.
Proof.
  intros Hm. pose proof (Z.log2_spec m ltac:(lia)) as Hl. pose proof (Z.log2_nonneg m).
  assert (Z.log2 m < 53) by (apply Z.log2_lt_pow2; lia).
  assert (0 < 2 ^ (52 - Z.log2 m)) by (apply Z.pow_pos_nonneg; lia).
  split; [lia|].
  replace (2 ^ 52) with (2 ^ Z.log2 m * 2 ^ (52 - Z.log2 m))
    by (rewrite <- Z.pow_add_r by lia; f_equal; lia).
  replace (2 ^ 53) with (2 ^ Z.succ (Z.log2 m) * 2 ^ (52 - Z.log2 m))
    by (rewrite <- Z.pow_add_r by lia; f_equal; lia).
  nia.
Qed.

Lemma binary_round_small s p : Zpos p < 2 ^ 53 ->
  exists q, binary_round 53 1024 s p 0 = S754_finite s q (Z.log2 (Zpos p) - 52) /\
    Zpos q = Zpos p * 2 ^ (52 - Z.log2 (Zpos p)).
Proof.
  intros Hp. destruct (normal_significand (Zpos p) ltac:(lia)) as [Hl Hq].
  set (l := Z.log2 (Zpos p)) in *.
  assert (forall x e, Z.log2 (Zpos x) = 52 -> -1074 <= e <= 971 ->
    binary_round_aux 53 1024 s (Zpos x) e loc_Exact = S754_finite s x e) as Haux.
  { clear. intros x e Hx He. unfold binary_round_aux, shr_fexp, fexp, emin. cbn [Zdigits2].
    rewrite digits2_log2, Hx. replace (Z.max (52 + 1 + e - 53) (3 - 1024 - 53) - e) with 0 by lia.
    cbn [shr shr_record_of_loc shr_m loc_of_shr_record round_nearest_even].
    cbn [Zdigits2]. rewrite digits2_log2, Hx.
    replace (Z.max (52 + 1 + e - 53) (3 - 1024 - 53) - e) with 0 by lia. cbn [shr shr_m].
    by destruct (Z.leb_spec e (1024 - 53)); [|lia]. }
  unfold binary_round, shl_align, fexp, emin. rewrite digits2_log2. fold l.
  replace (Z.max (l + 1 + 0 - 53) (3 - 1024 - 53) - 0) with (l - 52) by lia.
  destruct (l - 52) as [|d|d] eqn:E; [|lia|].
  - exists p. split; [|by replace (52 - l) with 0 by lia; lia].
    rewrite Haux; [f_equal; lia|unfold l in *; lia|lia].
  - assert (Zpos (Pos.iter xO p d) = Zpos p * 2 ^ (52 - l)) as Hi
      by (rewrite iter_xO; repeat f_equal; lia).
    exists (Pos.iter xO p d). split; [|done].
    replace (Z.max (l + 1 + 0 - 53) (3 - 1024 - 53)) with (l - 52) by lia.
    rewrite <- E. apply Haux; [|lia]. rewrite Hi, Z.log2_mul_pow2 by lia. fold l. lia.
Qed.

Lemma d_of_Z_small n : 0 < Z.abs n < 2 ^ 53 ->
  d_of_Z n = (if n <? 0 then 2 ^ 63 else 0) + int_mag (Z.abs n).
Proof.
  intros Hn. unfold d_of_Z, int_mag. destruct n as [|p|p]; [lia| |]; cbn [binary_normalize].
  - change (Z.abs (Zpos p)) with (Zpos p) in *.
    destruct (binary_round_small false p ltac:(lia)) as (q & -> & Hq).
    destruct (normal_significand (Zpos p) Hn) as [? ?]. cbn [d_bits]. rewrite <- Hq.
    destruct (Z.ltb_spec (Zpos q) (2 ^ 52)); [lia|]. change (Zpos p <? 0) with false. cbv iota. lia.
  - change (Z.abs (Zneg p)) with (Zpos p) in *.
    destruct (binary_round_small true p ltac:(lia)) as (q & -> & Hq).
    destruct (normal_significand (Zpos p) Hn) as [? ?]. cbn [d_bits]. rewrite <- Hq.
    destruct (Z.ltb_spec (Zpos q) (2 ^ 52)); [lia|]. change (Zneg p <? 0) with true. cbv iota. lia.
Qed.

Lemma int_mag_range m : 0 < m < 2 ^ 53 -> 1023 * 2 ^ 52 <= int_mag m < 1076 * 2 ^ 52.
Proof.
  intros Hm. destruct (normal_significand m Hm) as [? ?]. unfold int_mag. lia.
Qed.

Lemma int_mag_mono m n : 0 < m < n -> n < 2 ^ 53 -> int_mag m < int_mag n.
Proof.
  intros Hm Hn. destruct (normal_significand m ltac:(lia)) as [? ?].
  destruct (normal_significand n ltac:(lia)) as [? ?]. unfold int_mag.
  pose proof (Z.log2_le_mono m n ltac:(lia)).
  destruct (Z.eq_dec (Z.log2 m) (Z.log2 n)) as [E|E]; [|lia].
  rewrite E in *. assert (0 < 2 ^ (52 - Z.log2 n)) by (apply Z.pow_pos_nonneg; lia). nia.
Qed.

(** Such a conversion is a number, of the integer's sign and magnitude. *)
Lemma d_of_Z_key n : Z.abs n < 2 ^ 53 ->
  in_u 64 (d_of_Z n) = true /\ d_isnan (d_of_Z n) = false /\
  d_key (d_of_Z n) = (if n =? 0 then 0 else if n <? 0 then - int_mag (- n) else int_mag n).
Proof.
  intros Hn. destruct (Z.eqb_spec n 0) as [->|Hz]; [done|].
  rewrite d_of_Z_small by lia. pose proof (int_mag_range (Z.abs n) ltac:(lia)) as Hr.
  set (m := int_mag (Z.abs n)) in *.
  assert (forall b, 0 <= m < 2 ^ 63 -> m < 2047 * 2 ^ 52 ->
    let x := (if b : bool then 2 ^ 63 else 0) + m in
    in_u 64 x = true /\ d_isnan x = false /\ d_key x = if b then - m else m) as Hx.
  { clear. intros b H1 H2 x.
    assert (in_u 64 x = true) as Hu by (apply in_u_spec; subst x; destruct b; lia).
    assert (d_sign x = b) as Hs.
    { unfold d_sign. subst x. destruct b; [apply Z.leb_le|apply Z.leb_gt]; lia. }
    assert (d_mag x = m) as Hm.
    { unfold d_mag. subst x. destruct b; [rewrite Z.add_comm, <- (Z.mul_1_l (2 ^ 63)) at 1;
        rewrite Z_mod_plus_full|]; apply Z.mod_small; lia. }
    destruct (d_fields x Hu) as (_ & Hf & ? & ?). rewrite Hm in Hf.
    split; [done|]. split; [|unfold d_key; by rewrite Hs, Hm].
    unfold d_isnan. destruct (Z.eqb_spec (d_exp x) 2047); [|done]. simpl.
    apply negb_false_iff, Z.eqb_eq. lia. }
  destruct (Hx (n <? 0) ltac:(lia) ltac:(lia)) as (? & ? & Hk). split; [done|]. split; [done|].
  rewrite Hk. subst m. destruct (Z.ltb_spec n 0); repeat f_equal; lia.
Qed.

Lemma d_of_Z_mono a b : Z.abs a < 2 ^ 53 -> Z.abs b < 2 ^ 53 ->
  a < b -> d_key (d_of_Z a) < d_key (d_of_Z b).
Proof.
  intros Ha Hb Hab. destruct (d_of_Z_key a Ha) as (_ & _ & ->).
  destruct (d_of_Z_key b Hb) as (_ & _ & ->).
  pose proof (int_mag_range a). pose proof (int_mag_range (- a)).
  pose proof (int_mag_range b). pose proof (int_mag_range (- b)).
  pose proof (int_mag_mono a b). pose proof (int_mag_mono (- b) (- a)).
  destruct (Z.eqb_spec a 0), (Z.eqb_spec b 0), (Z.ltb_spec a 0), (Z.ltb_spec b 0); lia.
Qed.

(** What the conversion of an integer below 2^53 stands for. *)
Lemma d_of_Z_finite n : 0 < Z.abs n < 2 ^ 53 ->
  exists m e, d_spec (d_of_Z n) = S754_finite (n <? 0) m e /\
    if 0 <=? e then Z.abs n = Zpos m * 2 ^ e else Zpos m = Z.abs n * 2 ^ (- e).
Proof.
  intros Hn. destruct (d_of_Z_key n ltac:(lia)) as (Hu & Hnan & Hk).
  destruct (Z.eqb_spec n 0); [lia|].
  assert (d_mag (d_of_Z n) = int_mag (Z.abs n) /\ d_sign (d_of_Z n) = (n <? 0)) as [Hm Hs].
  { pose proof (int_mag_range (Z.abs n) ltac:(lia)).
    pose proof (Z.mod_pos_bound (d_of_Z n) (2 ^ 63) ltac:(lia)) as Hp. fold (d_mag (d_of_Z n)) in Hp.
    unfold d_key in Hk. destruct (d_sign (d_of_Z n)), (Z.ltb_spec n 0).
    - rewrite (Z.abs_neq n) in * by lia. lia.
    - rewrite (Z.abs_eq n) in * by lia. lia.
    - rewrite (Z.abs_neq n) in * by lia. lia.
    - rewrite (Z.abs_eq n) in * by lia. lia. }
  pose proof (int_mag_range (Z.abs n) ltac:(lia)) as Hr.
  destruct (d_fields (d_of_Z n) Hu) as (_ & Hf & Hfr & Hfm). rewrite Hm in Hf.
  destruct (d_spec_finite (d_of_Z n) Hu) as (m & e & Hd & Hme & He & Hm53 & Hmin); [lia|rewrite Hm; lia|].
  destruct (normal_significand (Z.abs n) ltac:(lia)) as [Hl Hsig].
  rewrite Hs in Hd. exists m, e. split; [done|]. rewrite Hm in Hme. unfold int_mag in Hme.
  set (l := Z.log2 (Z.abs n)) in *. assert (e = l - 52 /\ Zpos m = Z.abs n * 2 ^ (52 - l)) as [-> ->].
  { destruct (Z.eq_dec e (-1074)); [lia|]. specialize (Hmin ltac:(lia)). lia. }
  destruct (Z.leb_spec 0 (l - 52)).
  - replace (l - 52) with 0 by lia. replace (52 - l) with 0 by lia. lia.
  - by replace (- (l - 52)) with (52 - l) by lia.
Qed.

(** An integer below 2^53 survives the conversion to [double] and back. *)
Lemma d_trunc_of_Z n : Z.abs n < 2 ^ 53 -> d_trunc (d_of_Z n) = Some n.
Proof.
  intros Hn. destruct (Z.eq_dec n 0) as [->|Hz]; [done|].
  destruct (d_of_Z_finite n ltac:(lia)) as (m & e & Hd & Hm). unfold d_trunc. rewrite Hd. f_equal.
  replace (if 0 <=? e then _ else _) with (Z.abs n); [destruct (Z.ltb_spec n 0); lia|].
  destruct (Z.leb_spec 0 e); [done|]. rewrite Hm. symmetry. apply Z.div_mul.
  apply Z.pow_nonzero; lia.
Qed.

(** ** Division of integers *)

Lemma d_spec_bits m e : 2 ^ 52 <= Zpos m < 2 ^ 53 -> -1074 <= e <= 971 ->
  d_spec (d_bits (S754_finite false m e)) = S754_finite false m e.
Proof.
  intros Hm He. cbn [d_bits]. destruct (Z.ltb_spec (Zpos m) (2 ^ 52)); [lia|].
  set (b := _ + _). assert (in_u 64 b = true) as Hb by (apply in_u_spec; unfold b; lia).
  destruct (d_fields b Hb) as (E & _ & Hx & Hy). assert (d_sign b = false) as Hs by (apply Z.leb_gt; unfold b; lia).
  rewrite Hs in E. unfold b in E at 1. assert (d_exp b = e + 1075) as Ex by lia. assert (d_man b = Zpos m - 2 ^ 52) as Ey by lia.
  unfold d_spec. rewrite Ex, Ey, Hs. destruct (Z.eqb_spec (e + 1075) 2047); [lia|]. destruct (Z.eqb_spec (e + 1075) 0); [lia|].
  replace (_ + 2 ^ 52) with (Zpos m) by lia. f_equal. lia.
Qed.

Lemma d_of_Z_normal n : 0 < n < 2 ^ 53 -> exists m,
  d_spec (d_of_Z n) = S754_finite false m (Z.log2 n - 52) /\ Zpos m = n * 2 ^ (52 - Z.log2 n).
Proof.
  intros Hn. destruct (normal_significand n Hn) as [Hl Hs]. rewrite d_of_Z_small by lia.
  rewrite (proj2 (Z.ltb_ge n 0)), Z.abs_eq by lia. rewrite Z.add_0_l. unfold int_mag.
  set (M := n * 2 ^ (52 - Z.log2 n)) in *. destruct M as [|m|m] eqn:EM; [lia| |lia]. exists m. split; [|done].
  replace (_ + _) with (d_bits (S754_finite false m (Z.log2 n - 52))).
  - apply d_spec_bits; lia.
  - cbn [d_bits]. destruct (Z.ltb_spec (Zpos m) (2 ^ 52)); lia.
Qed.

Lemma round_step x l e : 2 ^ 52 <= x < 2 ^ 54 -> -1000 <= e <= 900 -> exists y e' l',
  shr_fexp 53 1024 x e l = (shr_record_of_loc y l', e') /\ e <= e' <= e + 1 /\ 2 ^ 52 <= y < 2 ^ 53 /\
  (e' = e -> y = x /\ l' = l) /\ (e' = e + 1 -> x = 2 * y + x mod 2) /\ (x mod 2 = 0 -> l = loc_Exact -> l' = loc_Exact).
Proof.
  intros Hx He. unfold shr_fexp, fexp, emin. destruct x as [|p|p]; [lia| |lia]. cbn [Zdigits2]. rewrite digits2_log2.
  destruct (Z.ltb_spec (Zpos p) (2 ^ 53)) as [Hp|Hp].
  - assert (Z.log2 (Zpos p) = 52) as -> by (apply Z.log2_unique; lia).
    replace (Z.max _ _ - e) with 0 by lia. exists (Zpos p), e, l. cbn [shr]. repeat split; lia || done.
  - assert (Z.log2 (Zpos p) = 53) as -> by (apply Z.log2_unique; lia).
    replace (Z.max _ _ - e) with 1 by lia. cbn [shr iter_pos].
    destruct p as [p|p|]; [| |lia].
    + exists (Zpos p), (e + 1), (match l with loc_Exact => loc_Inexact Eq | _ => loc_Inexact Gt end).
      split; [by destruct l as [|[]]|]. split; [lia|]. split; [lia|]. split; [lia|].
      assert (Zpos p~1 mod 2 = 1) as -> by (rewrite Zmod_odd; done). split; [lia|]. done.
    + exists (Zpos p), (e + 1), (match l with loc_Exact => loc_Exact | _ => loc_Inexact Lt end).
      split; [by destruct l as [|[]]|]. split; [lia|]. split; [lia|]. split; [lia|].
      assert (Zpos p~0 mod 2 = 0) as -> by (rewrite Zmod_odd; done). split; [lia|]. by intros _ ->.
Qed.

(** Rounding to 53 bits. *)
Lemma round_value x l e : 2 ^ 52 <= x < 2 ^ 54 -> -1000 <= e <= 800 -> exists m e',
  binary_round_aux 53 1024 false x e l = S754_finite false m e' /\ 2 ^ 52 <= Zpos m < 2 ^ 53 /\ e <= e' <= e + 2 /\
  x - 1 <= Zpos m * 2 ^ (e' - e) <= x + 2 /\ (l = loc_Exact -> x mod 2 = 0 -> Zpos m * 2 ^ (e' - e) = x).
Proof.
  intros Hx He. unfold binary_round_aux. destruct (round_step x l e Hx ltac:(lia)) as (y & e1 & l1 & -> & He1 & Hy & H0 & H1 & Hex).
  assert (loc_of_shr_record (shr_record_of_loc y l1) = l1) as -> by by destruct l1 as [|[]].
  assert (shr_m (shr_record_of_loc y l1) = y) as -> by by destruct l1 as [|[]].
  set (z := round_nearest_even y l1). assert (y <= z <= y + 1 /\ (l1 = loc_Exact -> z = y)) as [Hz Hze].
  { unfold z. destruct l1 as [|[]]; cbn [round_nearest_even]; try destruct (Z.even y); (split; [lia|done]). }
  destruct (round_step z loc_Exact e1 ltac:(lia) ltac:(lia)) as (u & e2 & l2 & -> & He2 & Hu & K0 & K1 & Kex).
  assert (shr_m (shr_record_of_loc u l2) = u) as -> by by destruct l2 as [|[]].
  destruct u as [|m|m] eqn:Eu; [lia| |lia]. rewrite (proj2 (Z.leb_le e2 (1024 - 53))) by lia. exists m, e2.
  split; [done|]. split; [done|]. split; [lia|].
  assert (Zpos m * 2 ^ (e2 - e1) = z) as Em.
  { destruct (Z.eq_dec e2 e1) as [->|]; [rewrite Z.sub_diag; destruct (K0 eq_refl); lia|].
    replace (e2 - e1) with 1 by lia. pose proof (K1 ltac:(lia)) as Hk. pose proof (Z.mod_pos_bound z 2 ltac:(lia)). lia. }
  replace (e2 - e) with (e2 - e1 + (e1 - e)) by lia. rewrite Z.pow_add_r by lia. rewrite Z.mul_assoc, Em.
  pose proof (Z.mod_pos_bound x 2 ltac:(lia)). destruct (Z.eq_dec e1 e) as [->|].
  - destruct (H0 eq_refl) as [-> ->]. rewrite Z.sub_diag. split; [lia|]. intros Hl _. rewrite Hze by done. lia.
  - replace (e1 - e) with 1 by lia. pose proof (H1 ltac:(lia)) as Hxy. split; [lia|]. intros Hl Hm. rewrite Hze by auto. lia.
Qed.
