(* ===== verification/Printf.v ===== *)
(** * Printf: how a [double] is written on a stream

    [operator<<] of a [double] on a stream of precision [P] writes what
    [printf("%.<P>g")] does: the value rounded to [P] significant decimal
    digits, to even at a tie, without trailing zeros, with an exponent when
    that is below -4 or at least [P].  The rounding is computed exactly. *)

From stdpp Require Import base list numbers strings option tactics.
From Stdlib Require Import Strings.Byte ZArith Lia Floats.SpecFloat.
From S2P Require Import Prelude Decimal Double.

(** [num / den] rounded to an integer, to even at a tie. *)
Definition round_half_even (num den : Z) : Z :=
  let q := num / den in
  let r := num mod den in
  if 2 * r <? den then q
  else if den <? 2 * r then q + 1
  else if Z.even q then q else q + 1.

(** The exponent of ten of a positive [num / den]: 10^x <= num / den < 10^(x+1). *)
Definition log10_floor (num den : Z) : Z :=
  if den <=? num then zlen (dec_nonneg (num / den)) - 1
  else - zlen (dec_nonneg ((den - 1) / num)).

(** [num / den] scaled by a power of ten, rounded. *)
Definition scaled (num den x : Z) : Z :=
  if 0 <=? x then round_half_even (num * 10 ^ x) den
  else round_half_even num (den * 10 ^ (- x)).

Fixpoint strip_zeros (s : list byte) : list byte :=
  match s with
  | [] => []
  | c :: r =>
      match strip_zeros r with
      | [] => if Byte.eqb c "0" then [] else [c]
      | r' => c :: r'
      end
  end.

Definition with_fraction (int_part frac : list byte) : list byte :=
  match strip_zeros frac with
  | [] => int_part
  | f => int_part ++ "."%byte :: f
  end.

(** At least two digits of exponent. *)
Definition exponent (x : Z) : list byte :=
  let ds := dec_nonneg (Z.abs x) in
  "e"%byte :: (if x <? 0 then "-" else "+")%byte ::
  (if zlen ds <? 2 then "0"%byte :: ds else ds).

(** The [P] digits of a number with the exponent [x], laid out. *)
Definition layout_g (P : Z) (digits : list byte) (x : Z) : list byte :=
  if (x <? -4) || (P <=? x) then
    with_fraction (take 1 digits) (drop 1 digits) ++ exponent x
  else if 0 <=? x then
    with_fraction (take (Z.to_nat (x + 1)) digits) (drop (Z.to_nat (x + 1)) digits)
  else with_fraction ["0"%byte] (repeat "0"%byte (Z.to_nat (- x - 1)) ++ digits).

Definition positive_g (P num den : Z) : list byte :=
  let x := log10_floor num den in
  let d := scaled num den (P - 1 - x) in
  if d =? 10 ^ P then layout_g P (dec_nonneg (10 ^ (P - 1))) (x + 1)
  else layout_g P (dec_nonneg d) x.

(** What a stream of precision [P] writes for the [double] of bits [b]. *)
Definition format_double (P : Z) (b : Z) : list byte :=
  let sign (s : bool) (t : list byte) := if s then "-"%byte :: t else t in
  match d_spec b with
  | S754_zero s => sign s (bstr "0")
  | S754_infinity s => sign s (bstr "inf")
  | S754_nan => sign (d_sign b) (bstr "nan")
  | S754_finite s m e =>
      sign s (if 0 <=? e then positive_g P (Zpos m * 2 ^ e) 1
              else positive_g P (Zpos m) (2 ^ (- e)))
  end.

(** ** Integers print as integers *)

Lemma dec_go_acc fuel : forall n acc, dec_go fuel n acc = dec_go fuel n [] ++ acc.
Proof.
  induction fuel as [|fuel IH]; intros n acc; [done|]. cbn [dec_go].
  destruct (n <? 10); [done|]. rewrite IH, (IH _ [_]), <- app_assoc. done.
Qed.

Lemma log2_div10 n : 10 <= n -> Z.log2 (n / 10) < Z.log2 n.
Proof.
  intros Hn. apply Z.log2_lt_pow2; [apply Z.div_str_pos; lia|].
  pose proof (Z.log2_spec n ltac:(lia)) as [Hl Hu]. rewrite Z.pow_succ_r in Hu by apply Z.log2_nonneg.
  apply Z.div_lt_upper_bound; [lia|].
  pose proof (Z.pow_pos_nonneg 2 (Z.log2 n) ltac:(lia) (Z.log2_nonneg n)). lia.
Qed.

Lemma dec_go_fuel f1 : forall f2 n, 0 <= n -> Z.log2 n < Z.of_nat f1 -> Z.log2 n < Z.of_nat f2 ->
  dec_go f1 n [] = dec_go f2 n [].
Proof.
  induction f1 as [|f1 IH]; intros [|f2] n Hn H1 H2;
    try (pose proof (Z.log2_nonneg n); lia). cbn [dec_go].
  destruct (Z.ltb_spec n 10); [done|]. pose proof (log2_div10 n ltac:(lia)).
  rewrite dec_go_acc, (dec_go_acc f2). f_equal. apply IH; [apply Z.div_pos; lia|lia|lia].
Qed.

Lemma dec_nonneg_times10 n : 0 < n -> dec_nonneg (n * 10) = dec_nonneg n ++ ["0"%byte].
Proof.
  intros Hn. unfold dec_nonneg at 1. cbn [dec_go]. destruct (Z.ltb_spec (n * 10) 10); [lia|].
  rewrite Z.mod_mul, Z.div_mul by lia. rewrite dec_go_acc. f_equal.
  pose proof (log2_div10 (n * 10) ltac:(lia)) as Hl. rewrite Z.div_mul in Hl by lia.
  pose proof (Z.log2_nonneg n). unfold dec_nonneg. apply dec_go_fuel; lia.
Qed.

Lemma dec_nonneg_pow10 n j : 0 < n ->
  dec_nonneg (n * 10 ^ Z.of_nat j) = dec_nonneg n ++ repeat "0"%byte j.
Proof.
  intros Hn. induction j as [|j IH]; [by rewrite Z.mul_1_r, app_nil_r|].
  rewrite Nat2Z.inj_succ, Z.pow_succ_r by lia.
  replace (n * (10 * 10 ^ Z.of_nat j)) with (n * 10 ^ Z.of_nat j * 10) by lia.
  rewrite dec_nonneg_times10, IH, <- app_assoc.
  - change (repeat "0"%byte (S j)) with ("0"%byte :: repeat "0"%byte j). by rewrite repeat_cons.
  - pose proof (Z.pow_pos_nonneg 10 (Z.of_nat j)). nia.
Qed.

Lemma dec_val_from_bound s : forall a, forallb is_digit s = true ->
  a * 10 ^ zlen s <= dec_val_from a s < (a + 1) * 10 ^ zlen s.
Proof.
  unfold dec_val_from. induction s as [|c s IH]; intros a; cbn [forallb fold_left]; [rewrite zlen_nil; lia|].
  intros [Hc Hs]%andb_prop. specialize (IH (a * 10 + digit_val c) Hs).
  rewrite zlen_cons, Z.pow_add_r by (pose proof (zlen_nonneg s); lia).
  unfold is_digit, digit_val in *. change (10 ^ 1) with 10.
  pose proof (Z.pow_pos_nonneg 10 (zlen s) ltac:(lia) (zlen_nonneg s)). nia.
Qed.

(** The number of digits is the logarithm. *)
Lemma dec_nonneg_length n : 0 < n ->
  10 ^ (zlen (dec_nonneg n) - 1) <= n < 10 ^ zlen (dec_nonneg n).
Proof.
  intros Hn. destruct (dec_nonneg_spec n ltac:(lia)) as (Hd & Hne & Hv & _ & Hh).
  specialize (Hh Hn). destruct (dec_nonneg n) as [|c s] eqn:E; [done|]. clear Hne E.
  unfold dec_val, dec_val_from in Hv. cbn [fold_left] in Hv. cbn [forallb] in Hd.
  apply andb_prop in Hd as [Hc Hs].
  pose proof (dec_val_from_bound s (0 * 10 + digit_val c) Hs) as Hb. unfold dec_val_from in Hb.
  rewrite Hv in Hb. rewrite zlen_cons, Z.pow_add_r by (pose proof (zlen_nonneg s); lia).
  replace (1 + zlen s - 1) with (zlen s) by lia. change (10 ^ 1) with 10.
  pose proof (Z.pow_pos_nonneg 10 (zlen s) ltac:(lia) (zlen_nonneg s)).
  unfold is_digit, digit_val in *.
  assert (bz c <> 48) by (intros E; apply Hh; simpl; f_equal; by apply bz_inj). nia.
Qed.

Lemma strip_zeros_repeat j : strip_zeros (repeat "0"%byte j) = [].
Proof. induction j as [|j IH]; simpl; [done|]. by rewrite IH. Qed.

Lemma positive_g_int P n den : 0 < den -> 0 < n < 10 ^ P -> 1 <= P ->
  positive_g P (n * den) den = dec_nonneg n.
Proof.
  intros Hden Hn HP. unfold positive_g, log10_floor.
  destruct (Z.leb_spec den (n * den)); [|nia]. rewrite Z.div_mul by lia.
  pose proof (dec_nonneg_length n ltac:(lia)) as Hl. set (k := zlen (dec_nonneg n)) in *.
  assert (1 <= k) as Hk.
  { destruct (dec_nonneg_spec n ltac:(lia)) as (_ & Hne & _).
    unfold k. destruct (dec_nonneg n); [done|]. rewrite zlen_cons. pose proof (zlen_nonneg l). lia. }
  assert (k <= P) as HkP.
  { unfold k. by apply dec_nonneg_spec; lia. }
  replace (P - 1 - (k - 1)) with (P - k) by lia. unfold scaled.
  destruct (Z.leb_spec 0 (P - k)); [|lia].
  replace (n * den * 10 ^ (P - k)) with (n * 10 ^ (P - k) * den) by lia.
  unfold round_half_even. rewrite Z.div_mul, Z.mod_mul by lia.
  destruct (Z.ltb_spec (2 * 0) den); [|lia].
  assert (n * 10 ^ (P - k) < 10 ^ P) as Hlt.
  { replace (10 ^ P) with (10 ^ k * 10 ^ (P - k)) by (rewrite <- Z.pow_add_r by lia; f_equal; lia).
    pose proof (Z.pow_pos_nonneg 10 (P - k)). nia. }
  destruct (Z.eqb_spec (n * 10 ^ (P - k)) (10 ^ P)); [lia|].
  rewrite <- (Z2Nat.id (P - k)) by lia. rewrite dec_nonneg_pow10 by lia.
  unfold layout_g. destruct (Z.ltb_spec (k - 1) (-4)); [lia|]. destruct (Z.leb_spec P (k - 1)); [lia|].
  destruct (Z.leb_spec 0 (k - 1)); [|lia]. cbn [orb].
  replace (Z.to_nat (k - 1 + 1)) with (length (dec_nonneg n)) by (unfold k, zlen; lia).
  rewrite take_app_length, drop_app_length. unfold with_fraction. by rewrite strip_zeros_repeat.
Qed.

(** An integer that fits the precision is written as it is. *)
Lemma format_double_int P n : 1 <= P -> Z.abs n < 2 ^ 53 -> Z.abs n < 10 ^ P -> n <> 0 ->
  format_double P (d_of_Z n) = dec n.
Proof.
  intros HP H53 Hn Hz.
  unfold format_double.
  destruct (d_of_Z_finite n) as (m & e & Hs & Hm); [lia|]. rewrite Hs.
  assert ((if 0 <=? e then positive_g P (Zpos m * 2 ^ e) 1 else positive_g P (Zpos m) (2 ^ (- e)))
    = dec_nonneg (Z.abs n)) as ->.
  { destruct (Z.leb_spec 0 e).
    - rewrite <- Hm. rewrite <- (Z.mul_1_r (Z.abs n)) at 1. apply positive_g_int; lia.
    - rewrite Hm. apply positive_g_int; [apply Z.pow_pos_nonneg; lia|lia|lia]. }
  unfold dec. destruct (Z.ltb_spec n 0); [by rewrite Z.abs_neq by lia|by rewrite Z.abs_eq by lia].
Qed.

(** ** The text of a number has no NUL *)

Lemma no_nul_take_drop k s : no_nul s = true -> no_nul (take k s) = true /\ no_nul (drop k s) = true.
Proof. rewrite <- (take_drop k s) at 1. rewrite no_nul_app. apply andb_prop. Qed.

Lemma no_nul_strip s : no_nul s = true -> no_nul (strip_zeros s) = true.
Proof.
  induction s as [|c s IH]; [done|]. cbn [no_nul forallb strip_zeros]. intros [Hc Hs]%andb_prop.
  specialize (IH Hs). destruct (strip_zeros s) as [|d r].
  - destruct (Byte.eqb c "0"); [done|]. cbn [no_nul forallb]. by rewrite Hc.
  - cbn [no_nul forallb] in *. by rewrite Hc.
Qed.

Lemma no_nul_repeat c k : Byte.eqb c x00 = false -> no_nul (repeat c k) = true.
Proof. intros Hc. induction k as [|k IH]; [done|]. cbn [repeat no_nul forallb]. by rewrite Hc. Qed.

Lemma no_nul_digits n : 0 <= n -> no_nul (dec_nonneg n) = true.
Proof. intros Hn. by apply is_digit_no_nul, dec_nonneg_spec. Qed.

Lemma with_fraction_no_nul a b : no_nul a = true -> no_nul b = true -> no_nul (with_fraction a b) = true.
Proof.
  intros Ha Hb. unfold with_fraction. pose proof (no_nul_strip b Hb) as H.
  destruct (strip_zeros b) as [|c r]; [done|]. rewrite no_nul_app, Ha. exact H.
Qed.

Lemma layout_g_no_nul P ds x : no_nul ds = true -> no_nul (layout_g P ds x) = true.
Proof.
  intros Hd. unfold layout_g. pose proof (fun k => no_nul_take_drop k ds Hd) as H.
  destruct ((x <? -4) || (P <=? x)); [|destruct (0 <=? x)].
  - rewrite no_nul_app. rewrite with_fraction_no_nul by apply H. unfold exponent.
    pose proof (no_nul_digits (Z.abs x) ltac:(lia)) as Hx. cbn [andb no_nul forallb].
    destruct (x <? 0), (zlen (dec_nonneg (Z.abs x)) <? 2); exact Hx.
  - apply with_fraction_no_nul; apply H.
  - apply with_fraction_no_nul; [done|]. by rewrite no_nul_app, no_nul_repeat.
Qed.

Lemma round_half_even_nonneg num den : 0 <= num -> 0 <= den -> 0 <= round_half_even num den.
Proof.
  intros Hn Hd. unfold round_half_even.
  assert (0 <= num / den) by (destruct (Z.eq_dec den 0) as [->|]; [by rewrite Z.div_0_r|apply Z.div_pos; lia]).
  repeat case_match; lia.
Qed.

Lemma format_double_no_nul P b : no_nul (format_double P b) = true.
Proof.
  assert (forall num den, 0 <= num -> 0 <= den -> no_nul (positive_g P num den) = true) as Hp.
  { intros num den Hn Hd. unfold positive_g.
    assert (0 <= scaled num den (P - 1 - log10_floor num den)).
    { unfold scaled. destruct (0 <=? P - 1 - log10_floor num den) eqn:E; apply round_half_even_nonneg;
        try lia; apply Z.mul_nonneg_nonneg; try lia; apply Z.pow_nonneg; lia. }
    destruct (scaled _ _ _ =? 10 ^ P); apply layout_g_no_nul, no_nul_digits; [|lia].
    apply Z.pow_nonneg. lia. }
  unfold format_double. destruct (d_spec b) as [s|s| |s m e]; [by destruct s|by destruct s|by destruct (d_sign b)|].
  assert (no_nul (if 0 <=? e then positive_g P (Z.pos m * 2 ^ e) 1 else positive_g P (Z.pos m) (2 ^ (- e)))
    = true) as H.
  { destruct (0 <=? e); apply Hp; lia. }
  destruct s; [|exact H]. exact H.
Qed.
