(* ===== verification/CNumber.v ===== *)
(** * CNumber: the conversions of text to numbers of the C library

    [strtol], [strtoll], [strtoull] and [strtod] as the JSON code uses them: in
    base ten, on the rest of a C string.  The text after the number is what
    [endptr] is set to; no conversion leaves it at the start.  [errno] tells a
    value out of range.  [strtod] rounds the exact value of the text to the
    nearest [double]; a value that is not in the normal range and is not exact
    is out of range too, as in glibc.  The payload a text of the form nan(...)
    may ask for is left to the implementation by the standard: here it is
    ignored. *)

From stdpp Require Import base list numbers strings option tactics.
From Stdlib Require Import Strings.Byte ZArith Lia Floats.SpecFloat.
From S2P Require Import Prelude Decimal Double.

(** ** Characters *)

Definition isspace (c : byte) : bool := ((9 <=? bz c) && (bz c <=? 13)) || (bz c =? 32).
Definition isxdigit (c : byte) : bool :=
  is_digit c || ((97 <=? bz c) && (bz c <=? 102)) || ((65 <=? bz c) && (bz c <=? 70)).
Definition isalnum_ (c : byte) : bool :=
  is_digit c || ((97 <=? bz c) && (bz c <=? 122)) || ((65 <=? bz c) && (bz c <=? 90)) ||
  (bz c =? 95).
Definition tolower (c : byte) : byte :=
  if (65 <=? bz c) && (bz c <=? 90) then zb (bz c + 32) else c.

Fixpoint skip_space (s : list byte) : list byte :=
  match s with
  | [] => []
  | c :: r => if isspace c then skip_space r else s
  end.

(** The longest prefix of characters that satisfy [f], and what follows. *)
Fixpoint span (f : byte -> bool) (s : list byte) : list byte * list byte :=
  match s with
  | [] => ([], [])
  | c :: r => if f c then let '(a, b) := span f r in (c :: a, b) else ([], s)
  end.

Definition take_sign (s : list byte) : bool * list byte :=
  match s with
  | c :: r => if Byte.eqb c "-" then (true, r) else if Byte.eqb c "+" then (false, r) else (false, s)
  | [] => (false, s)
  end.

(** ** Integers *)

(** The sign, the magnitude and the rest, when there is a digit. *)
Definition scan_integer (s : list byte) : option (bool * Z * list byte) :=
  let '(neg, s1) := take_sign (skip_space s) in
  match span is_digit s1 with
  | ([], _) => None
  | (ds, r) => Some (neg, dec_val ds, r)
  end.

Record converted := Converted { conv_value : Z; conv_erange : bool; conv_rest : list byte }.

(** [strtoll], and [strtol] where [long] has 64 bits. *)
Definition strtoll (s : list byte) : option converted :=
  match scan_integer s with
  | None => None
  | Some (neg, m, r) =>
      let z := if neg : bool then - m else m in
      Some (if in_s 64 z then Converted z false r
            else Converted (if neg then - 2 ^ 63 else 2 ^ 63 - 1) true r)
  end.

(** [strtoull], and [strtoul] where [long] has 64 bits: a minus sign negates
    the unsigned value. *)
Definition strtoull (s : list byte) : option converted :=
  match scan_integer s with
  | None => None
  | Some (neg, m, r) =>
      Some (if m <? 2 ^ 64 then Converted (u64 (if neg : bool then - m else m)) false r
            else Converted (2 ^ 64 - 1) true r)
  end.

(** ** Floating point *)

(** The [double] nearest to the fraction. *)
Definition ratio_bits (neg : bool) (num den : Z) : Z :=
  if num =? 0 then d_bits (S754_zero neg)
  else if den =? 1 then d_of_Z (if neg then - num else num)
  else d_bits (SFdiv 53 1024 (S754_finite neg (Z.to_pos num) 0) (S754_finite false (Z.to_pos den) 0)).

(** Too large to round to a finite [double]; or below the least normal one,
    once rounded to its precision, and not a multiple of the least [double]. *)
Definition ratio_erange (num den : Z) : bool :=
  ((2 ^ 1024 - 2 ^ 970) * den <=? num) ||
  (negb (num =? 0) && (num * 2 ^ 1076 <? (2 ^ 54 - 1) * den) &&
   negb ((num * 2 ^ 1074) mod den =? 0)).

Definition ratio (neg : bool) (num den : Z) (r : list byte) : converted :=
  Converted (ratio_bits neg num den) (ratio_erange num den) r.

(** The exponent after the letter [e], when there is one; [None]: there is
    no exponent here. *)
Definition scan_exponent (e : byte) (s : list byte) : Z * list byte :=
  match s with
  | c :: r =>
      if Byte.eqb (tolower c) e then
        let '(neg, r1) := take_sign r in
        match span is_digit r1 with
        | ([], _) => (0, s)
        | (ds, r2) => (if neg : bool then - dec_val ds else dec_val ds, r2)
        end
      else (0, s)
  | [] => (0, s)
  end.

(** Digits, a point and digits: the digits, the count of those after the
    point, the rest; there is one at least. *)
Definition scan_digits (f : byte -> bool) (s : list byte) : option (list byte * Z * list byte) :=
  let '(ds, r) := span f s in
  let '(fs, r2) :=
    match r with
    | c :: r1 => if Byte.eqb c "." then span f r1 else ([], r)
    | [] => ([], r)
    end in
  match ds, fs with
  | [], [] => None
  | _, [] => Some (ds, 0, match r with
                           | c :: r1 => if Byte.eqb c "." then r1 else r
                           | [] => r
                           end)
  | _, _ => Some (ds ++ fs, zlen fs, r2)
  end.

(** [num * base^x] as a fraction. *)
Definition scale (neg : bool) (num base x : Z) (r : list byte) : converted :=
  if 0 <=? x then ratio neg (num * base ^ x) 1 r else ratio neg num (base ^ (- x)) r.

Definition hex_val (s : list byte) : Z :=
  fold_left (fun a c =>
    16 * a + (if is_digit c then digit_val c else bz (tolower c) - 87)) s 0.

Definition scan_decimal (neg : bool) (s : list byte) : option converted :=
  match scan_digits is_digit s with
  | None => None
  | Some (ds, k, r) => let '(x, r') := scan_exponent "e" r in Some (scale neg (dec_val ds) 10 (x - k) r')
  end.

Definition scan_hexadecimal (neg : bool) (s : list byte) : option converted :=
  match scan_digits isxdigit s with
  | None => None
  | Some (ds, k, r) => let '(x, r') := scan_exponent "p" r in Some (scale neg (hex_val ds) 2 (x - 4 * k) r')
  end.

(** [s] without the word [w], whatever the case of its letters. *)
Fixpoint strip_word (w s : list byte) : option (list byte) :=
  match w, s with
  | [], _ => Some s
  | c :: w', d :: s' => if Byte.eqb c (tolower d) then strip_word w' s' else None
  | _ :: _, [] => None
  end.

Definition with_sign (neg : bool) (bits : Z) : Z := if neg then d_opp bits else bits.

(** What may follow [nan]: characters in parentheses. *)
Definition nan_tail (s : list byte) : list byte :=
  match s with
  | c :: r =>
      if Byte.eqb c "(" then
        match snd (span isalnum_ r) with
        | d :: r' => if Byte.eqb d ")" then r' else s
        | [] => s
        end
      else s
  | [] => s
  end.

Definition strtod (s : list byte) : option converted :=
  let '(neg, s1) := take_sign (skip_space s) in
  match strip_word (bstr "infinity") s1 with
  | Some r => Some (Converted (with_sign neg d_inf) false r)
  | None =>
  match strip_word (bstr "inf") s1 with
  | Some r => Some (Converted (with_sign neg d_inf) false r)
  | None =>
  match strip_word (bstr "nan") s1 with
  | Some r => Some (Converted (with_sign neg d_nan) false (nan_tail r))
  | None =>
  match strip_word (bstr "0x") s1 with
  | Some r =>
      match scan_hexadecimal neg r with
      | Some c => Some c
      | None => scan_decimal neg s1
      end
  | None => scan_decimal neg s1
  end end end end.

(** ** Lemmas *)

Lemma span_app f a b : forallb f a = true ->
  match b with [] => True | c :: _ => f c = false end -> span f (a ++ b) = (a, b).
Proof.
  intros Ha Hb. induction a as [|c a IH]; cbn [app span].
  - destruct b as [|c b]; [done|]. cbn [span]. by rewrite Hb.
  - cbn [forallb] in Ha. apply andb_prop in Ha as [-> Ha]. by rewrite IH.
Qed.

Lemma span_spec f s a b : span f s = (a, b) -> s = a ++ b /\ forallb f a = true.
Proof.
  revert a b. induction s as [|c s IH]; intros a b; cbn [span].
  - by intros [= <- <-].
  - destruct (f c) eqn:E; [|by intros [= <- <-]]. destruct (span f s) as [x y].
    intros [= <- <-]. destruct (IH x y eq_refl) as [-> Hx]. cbn [forallb app]. by rewrite E, Hx.
Qed.

Lemma skip_space_le s : (length (skip_space s) <= length s)%nat.
Proof. induction s as [|c s IH]; cbn [skip_space]; [done|]. destruct (isspace c); simpl; lia. Qed.

Lemma take_sign_le s neg r : take_sign s = (neg, r) -> (length r <= length s)%nat.
Proof.
  unfold take_sign. destruct s as [|c s]; [by intros [= _ <-]|].
  repeat case_match; intros [= <- <-]; simpl; lia.
Qed.

Lemma span_le f s a b : span f s = (a, b) -> (length a + length b = length s)%nat.
Proof. intros [-> _]%span_spec. by rewrite length_app. Qed.

(** ** A number ends where the text that follows cannot continue it *)

(** What follows a number in a list: a comma or a space. *)
Definition delim (r : list byte) : Prop :=
  match r with c :: _ => c = ","%byte \/ c = " "%byte | [] => False end.

(** A fact about the first byte of such a text. *)
Lemma delim_hd (P : byte -> Prop) r : delim r -> P ","%byte -> P " "%byte ->
  match r with c :: _ => P c | [] => True end.
Proof. destruct r as [|c r]; [done|]. by intros [-> | ->]. Qed.

Lemma span_local f a r : match r with c :: _ => f c = false | [] => True end ->
  span f (a ++ r) = (fst (span f a), snd (span f a) ++ r).
Proof.
  intros Hr. induction a as [|c a IH]; cbn [app span fst snd].
  - destruct r as [|c r]; [done|]. cbn [span]. by rewrite Hr.
  - destruct (f c); [|done]. rewrite IH. by destruct (span f a).
Qed.

Lemma strip_word_local w a r : delim r ->
  forallb (fun c => negb (Byte.eqb c ",") && negb (Byte.eqb c " ")) w = true ->
  strip_word w (a ++ r) = option_map (fun y => y ++ r) (strip_word w a).
Proof.
  intros Hr. revert a. induction w as [|c w IH]; intros a Hw; [done|].
  cbn [forallb] in Hw. rewrite !andb_true_iff, !negb_true_iff in Hw. destruct Hw as [[Hc Hs] Hw].
  destruct a as [|d a]; cbn [app strip_word].
  - destruct r as [|e r]; [done|]. cbn [option_map strip_word].
    destruct Hr as [-> | ->]; [change (tolower ",") with ","%byte; by rewrite Hc|].
    change (tolower " ") with " "%byte. by rewrite Hs.
  - destruct (Byte.eqb c (tolower d)); [by apply IH|done].
Qed.

Lemma take_sign_local a r : a <> [] -> take_sign (a ++ r) = (fst (take_sign a), snd (take_sign a) ++ r).
Proof.
  destruct a as [|c a]; [done|]. intros _. cbn [app take_sign].
  destruct (Byte.eqb c "-"); [done|]. by destruct (Byte.eqb c "+").
Qed.

Lemma take_sign_delim r : delim r -> take_sign r = (false, r).
Proof. destruct r as [|c r]; [done|]. by intros [-> | ->]. Qed.

Definition local_triple (r : list byte) (x : list byte * Z * list byte) : list byte * Z * list byte :=
  (fst (fst x), snd (fst x), snd x ++ r).

Lemma scan_digits_local f a r : delim r -> f ","%byte = false -> f " "%byte = false ->
  scan_digits f (a ++ r) = option_map (local_triple r) (scan_digits f a).
Proof.
  intros Hr H1 H2. pose proof (delim_hd (fun c => f c = false) r Hr H1 H2) as Hf.
  unfold scan_digits. rewrite span_local by done. destruct (span f a) as [ds s]. cbn [fst snd].
  destruct s as [|c s]; cbn [app].
  - destruct r as [|c r]; [done|].
    replace (Byte.eqb c ".") with false by (by destruct Hr as [-> | ->]). by destruct ds.
  - destruct (Byte.eqb c "."); [|by destruct ds].
    rewrite span_local by done. destruct (span f s) as [fs y]. cbn [fst snd].
    by destruct ds, fs.
Qed.

Lemma scan_exponent_local e a r : delim r -> e <> ","%byte -> e <> " "%byte ->
  scan_exponent e (a ++ r) = (fst (scan_exponent e a), snd (scan_exponent e a) ++ r).
Proof.
  intros Hr H1 H2. destruct a as [|c a]; cbn [app scan_exponent].
  - destruct r as [|c r]; [done|]. cbn [scan_exponent fst snd app].
    assert (Byte.eqb (tolower c) e = false) as ->; [|done].
    destruct (byte_eqb_spec (tolower c) e) as [<-|]; [|done]. by destruct Hr as [-> | ->].
  - destruct (Byte.eqb (tolower c) e); [|done].
    pose proof (delim_hd (fun c => is_digit c = false) r Hr eq_refl eq_refl) as Hf.
    destruct a as [|d a].
    + cbn [app take_sign span fst snd]. rewrite take_sign_delim by done.
      destruct r as [|x r]; [done|]. cbn [span]. by rewrite Hf.
    + rewrite take_sign_local by done. destruct (take_sign (d :: a)) as [neg s]. cbn [fst snd].
      rewrite span_local by done. destruct (span is_digit s) as [[|x ds] y]; cbn [fst snd]; done.
Qed.

Definition local_conv (r : list byte) (c : converted) : converted :=
  Converted (conv_value c) (conv_erange c) (conv_rest c ++ r).

Lemma scale_local neg num base x a r :
  scale neg num base x (a ++ r) = local_conv r (scale neg num base x a).
Proof. unfold scale. by destruct (0 <=? x). Qed.

Lemma scan_decimal_local neg a r : delim r ->
  scan_decimal neg (a ++ r) = option_map (local_conv r) (scan_decimal neg a).
Proof.
  intros Hr. unfold scan_decimal. rewrite scan_digits_local by done.
  destruct (scan_digits is_digit a) as [[[ds k] y]|]; [|done]. cbn [option_map local_triple fst snd].
  rewrite scan_exponent_local by done. destruct (scan_exponent "e" y). cbn [fst snd].
  by rewrite scale_local.
Qed.

Lemma scan_hexadecimal_local neg a r : delim r ->
  scan_hexadecimal neg (a ++ r) = option_map (local_conv r) (scan_hexadecimal neg a).
Proof.
  intros Hr. unfold scan_hexadecimal. rewrite scan_digits_local by done.
  destruct (scan_digits isxdigit a) as [[[ds k] y]|]; [|done]. cbn [option_map local_triple fst snd].
  rewrite scan_exponent_local by done. destruct (scan_exponent "p" y). cbn [fst snd].
  by rewrite scale_local.
Qed.

Lemma nan_tail_local a r : delim r -> nan_tail (a ++ r) = nan_tail a ++ r.
Proof.
  intros Hr. destruct a as [|c a]; cbn [app nan_tail].
  - destruct r as [|c r]; [done|]. cbn [nan_tail]. by destruct Hr as [-> | ->].
  - destruct (Byte.eqb c "("); [|done].
    rewrite span_local by (by apply (delim_hd (fun c => isalnum_ c = false))). cbn [snd].
    destruct (snd (span isalnum_ a)) as [|d y]; cbn [app].
    + destruct r as [|d r]; [done|]. by destruct Hr as [-> | ->].
    + by destruct (Byte.eqb d ")").
Qed.

Lemma skip_space_start c a : isspace c = false -> skip_space (c :: a) = c :: a.
Proof. intros Hc. cbn [skip_space]. by rewrite Hc. Qed.

(** The text of a number is converted the same before a delimiter. *)
Lemma strtod_local c a r : delim r -> isspace c = false ->
  strtod ((c :: a) ++ r) = option_map (local_conv r) (strtod (c :: a)).
Proof.
  intros Hr Hc. unfold strtod. cbn [app]. rewrite !skip_space_start by done.
  change (c :: a ++ r) with ((c :: a) ++ r). rewrite take_sign_local by done.
  destruct (take_sign (c :: a)) as [neg s]. cbn [fst snd].
  rewrite !strip_word_local by done.
  destruct (strip_word (bstr "infinity") s); [done|]. cbn [option_map].
  destruct (strip_word (bstr "inf") s); [done|]. cbn [option_map].
  destruct (strip_word (bstr "nan") s) as [y|]; cbn [option_map].
  { by rewrite nan_tail_local. }
  destruct (strip_word (bstr "0x") s) as [y|]; cbn [option_map].
  - rewrite scan_hexadecimal_local by done.
    destruct (scan_hexadecimal neg y); [done|]. cbn [option_map]. by apply scan_decimal_local.
  - by apply scan_decimal_local.
Qed.

Lemma scan_integer_local c a r : delim r -> isspace c = false ->
  scan_integer ((c :: a) ++ r) =
  option_map (fun x => (fst x, snd x ++ r)) (scan_integer (c :: a)).
Proof.
  intros Hr Hc. unfold scan_integer. cbn [app]. rewrite !skip_space_start by done.
  change (c :: a ++ r) with ((c :: a) ++ r). rewrite take_sign_local by done.
  destruct (take_sign (c :: a)) as [neg s]. cbn [fst snd].
  rewrite span_local by (by apply (delim_hd (fun c => is_digit c = false))).
  by destruct (span is_digit s) as [[|d ds] y].
Qed.

Lemma strtoll_local c a r : delim r -> isspace c = false ->
  strtoll ((c :: a) ++ r) = option_map (local_conv r) (strtoll (c :: a)).
Proof.
  intros Hr Hc. unfold strtoll. rewrite scan_integer_local by done.
  destruct (scan_integer (c :: a)) as [[[neg m] y]|]; [|done]. cbn [option_map fst snd].
  by destruct (in_s 64 (if neg then - m else m)).
Qed.

(** ** Integers in decimal *)

Lemma dec_cons n : exists c r, dec n = c :: r /\ isspace c = false /\
  (is_digit c = true \/ c = "-"%byte /\ exists d r', r = d :: r' /\ is_digit d = true).
Proof.
  assert (forall m, 0 <= m -> exists c r, dec_nonneg m = c :: r /\ is_digit c = true) as Hd.
  { intros m Hm. destruct (dec_nonneg_spec m Hm) as (Hs & Hne & _).
    destruct (dec_nonneg m) as [|c r]; [done|]. exists c, r. split; [done|].
    cbn [forallb] in Hs. by apply andb_prop in Hs as [-> _]. }
  unfold dec. destruct (Z.ltb_spec n 0).
  - destruct (Hd (- n)) as (d & r & -> & Hdig); [lia|]. exists "-"%byte, (d :: r).
    split; [done|]. split; [done|]. right. split; [done|]. by exists d, r.
  - destruct (Hd n) as (d & r & -> & Hdig); [lia|]. exists d, r. split; [done|]. split; [|by left].
    unfold isspace, is_digit in *. lia.
Qed.

Lemma digit_facts c : is_digit c = true ->
  Byte.eqb c "-" = false /\ Byte.eqb c "+" = false /\ isspace c = false /\ tolower c = c.
Proof.
  intros Hc. repeat split; try by apply is_digit_neq.
  - unfold isspace, is_digit in *. lia.
  - unfold tolower, is_digit in *. by replace (_ && _) with false by lia.
Qed.

Lemma take_sign_dec n : exists c r, dec_nonneg (Z.abs n) = c :: r /\ is_digit c = true /\
  take_sign (skip_space (dec n)) = (n <? 0, dec_nonneg (Z.abs n)).
Proof.
  destruct (dec_nonneg_spec (Z.abs n)) as (Hs & Hne & _); [lia|].
  unfold dec. destruct (Z.ltb_spec n 0).
  - rewrite (Z.abs_neq n) in * by lia. destruct (dec_nonneg (- n)) as [|c r]; [done|].
    cbn [forallb] in Hs. apply andb_prop in Hs as [Hc _]. by exists c, r.
  - rewrite (Z.abs_eq n) in * by lia. destruct (dec_nonneg n) as [|c r]; [done|].
    cbn [forallb] in Hs. apply andb_prop in Hs as [Hc _]. exists c, r. split; [done|]. split; [done|].
    destruct (digit_facts c Hc) as (H1 & H2 & H3 & _). cbn [skip_space]. rewrite H3.
    cbn [take_sign]. by rewrite H1, H2.
Qed.

Lemma span_all f a : forallb f a = true -> span f a = (a, []).
Proof. intros Ha. rewrite <- (app_nil_r a) at 1. by apply span_app. Qed.

Lemma scan_integer_dec n : scan_integer (dec n) = Some (n <? 0, Z.abs n, []).
Proof.
  destruct (take_sign_dec n) as (c & r & E & Hc & Ht). unfold scan_integer. rewrite Ht.
  destruct (dec_nonneg_spec (Z.abs n)) as (Hs & Hne & Hv & _); [lia|].
  rewrite span_all by done. rewrite E in *. by rewrite Hv.
Qed.

Lemma strtoll_dec n : in_s 64 n = true -> strtoll (dec n) = Some (Converted n false []).
Proof.
  intros Hn. unfold strtoll. rewrite scan_integer_dec.
  replace (if n <? 0 then - Z.abs n else Z.abs n) with n by (destruct (Z.ltb_spec n 0); lia).
  by rewrite Hn.
Qed.

Lemma strtoull_dec n : 0 <= n < 2 ^ 64 -> strtoull (dec n) = Some (Converted n false []).
Proof.
  intros Hn. unfold strtoull. rewrite scan_integer_dec. rewrite Z.abs_eq by lia.
  destruct (Z.ltb_spec n (2 ^ 64)); [|lia]. destruct (Z.ltb_spec n 0); [lia|].
  by rewrite wrap_u_small.
Qed.

Lemma strip_word_digits w c s : is_digit c = true -> match w with d :: _ => is_digit d = false | [] => False end ->
  strip_word w (c :: s) = None.
Proof.
  destruct w as [|d w]; [done|]. intros Hc Hd. cbn [strip_word].
  destruct (digit_facts c Hc) as (_ & _ & _ & ->). destruct (byte_eqb_spec d c); [congruence|done].
Qed.

(** An integer of 64 bits is read as a [double] without an error. *)
Lemma strtod_dec n : Z.abs n < 2 ^ 64 -> exists bits, strtod (dec n) = Some (Converted bits false []).
Proof.
  intros Hn. destruct (take_sign_dec n) as (c & r & E & Hc & Ht).
  destruct (dec_nonneg_spec (Z.abs n)) as (Hs & Hne & Hv & _); [lia|].
  unfold strtod. rewrite Ht, E. rewrite !(strip_word_digits _ c) by done.
  assert (strip_word (bstr "0x") (c :: r) = None) as ->.
  { change (bstr "0x") with ("0"%byte :: bstr "x"). cbn [strip_word].
    destruct (Byte.eqb "0" (tolower c)); [|done].
    rewrite E in Hs. cbn [forallb] in Hs. apply andb_prop in Hs as [_ Hr].
    destruct r as [|d r]; [done|]. cbn [forallb] in Hr. apply andb_prop in Hr as [Hd _].
    by apply (strip_word_digits (bstr "x") d). }
  rewrite <- E. unfold scan_decimal, scan_digits. rewrite span_all by done. rewrite E.
  rewrite <- E, Hv. cbn [scan_exponent]. change (0 - 0) with 0. unfold scale. cbn [Z.leb].
  exists (ratio_bits (n <? 0) (Z.abs n * 10 ^ 0) 1).
  change (0 <=? 0) with true. cbn iota. unfold ratio. f_equal. f_equal.
  rewrite Z.pow_0_r, Z.mul_1_r. unfold ratio_erange. rewrite !Z.mul_1_r.
  apply orb_false_iff. split.
  - apply Z.leb_gt. assert (2 ^ 64 <= 2 ^ 1024 - 2 ^ 970) by (by vm_compute). lia.
  - destruct (Z.eqb_spec (Z.abs n) 0); [done|]. cbn [negb andb]. apply andb_false_iff. left.
    apply Z.ltb_ge. assert (2 ^ 54 - 1 <= 2 ^ 1076) by (by vm_compute). lia.
Qed.
