(* ===== verification/Text.v ===== *)
(** * Text: strings of the driver (util/stringutils.cpp, util/text.cpp, and the
    comparison of dotted names of db/jsobj.cpp)

    Splitting and joining, the comparison that reads digits as numbers, the
    test of UTF-8, the number at the whole of a string, and command lines for
    Windows (the functions that call Windows are left out).  A position in a
    string is the suffix that starts there.  [LexNumCmp_order] gives the order of
    [LexNumCmp]: the comparison is the lexicographic one of the keys of the two
    strings. *)

From stdpp Require Import base list numbers strings option tactics.
From Stdlib Require Import Strings.Byte ZArith Lia.
From S2P Require Import Prelude Memory Decimal CNumber.

Definition dot : byte := "."%byte.

(** ** Splitting and joining *)

(** [str.find(delim)]: what stands before the first [delim] and after it. *)
Fixpoint break_at (delim : byte) (s : list byte) : option (list byte * list byte) :=
  match s with
  | [] => None
  | c :: r =>
      if Byte.eqb c delim then Some ([], r)
      else match break_at delim r with Some (w, r') => Some (c :: w, r') | None => None end
  end.

(** The loop of [splitStringDelim] from a position on. *)
Fixpoint split_from (fuel : nat) (delim : byte) (s : list byte) : list (list byte) :=
  match fuel, break_at delim s with
  | S fuel', Some (w, r) => w :: split_from fuel' delim r
  | _, _ => [s]
  end.

Definition splitStringDelim (s : list byte) (delim : byte) : list (list byte) :=
  match s with
  | [] => []
  | _ => split_from (length s) delim s
  end.

Fixpoint joinStringDelim (strs : list (list byte)) (delim : byte) : list byte :=
  match strs with
  | [] => []
  | [s] => s
  | s :: r => s ++ delim :: joinStringDelim r delim
  end.

(** ** The comparison of text and numbers *)

Definition is_max (c : byte) : bool := Byte.eqb c xff.

(** The digits at a position, less the leading zeros at the start of a word. *)
Fixpoint skip_zeros (s : list byte) : list byte :=
  match s with
  | c :: r => if Byte.eqb c "0" then skip_zeros r else s
  | [] => []
  end.

Definition word_digits (startWord : bool) (s : list byte) : list byte * list byte :=
  span is_digit (if startWord then skip_zeros s else s).

(** The sign of [strncmp] on two runs of digits of one length, and of the
    lengths before that. *)
Definition compare_runs (a b : list byte) : Z :=
  if (length b <? length a)%nat then 1
  else if (length a <? length b)%nat then -1
  else lex_cmp a b.

(** What a string that goes on adds when the other one has ended. *)
Definition goes_on (s : list byte) : bool :=
  match s with c :: _ => negb (Byte.eqb c x00) | [] => false end.

Fixpoint LexNumCmp_go (fuel : nat) (lexOnly startWord : bool) (s1 s2 : list byte) : result Z :=
  match fuel with
  | O => Err OutOfFuel
  | S fuel' =>
      match s1, s2 with
      | c1 :: r1, c2 :: r2 =>
          let d1 := Byte.eqb c1 dot in
          let d2 := Byte.eqb c2 dot in
          if d1 && negb d2 then Ok (-1)
          else if d2 && negb d1 then Ok 1
          else if d1 && d2 then LexNumCmp_go fuel' lexOnly true r1 r2
          else
            let p1 := is_max c1 in
            let p2 := is_max c2 in
            if p1 && negb p2 then Ok 1
            else if p2 && negb p1 then Ok (-1)
            else
              let n1 := is_digit c1 in
              let n2 := is_digit c2 in
              if negb lexOnly && n1 && n2 then
                let '(w1, e1) := word_digits startWord s1 in
                let '(w2, e2) := word_digits startWord s2 in
                let result := compare_runs w1 w2 in
                if result =? 0 then LexNumCmp_go fuel' lexOnly false e1 e2 else Ok result
              else if negb lexOnly && n1 then Ok 1
              else if negb lexOnly && n2 then Ok (-1)
              else if sc c2 <? sc c1 then Ok 1
              else if sc c1 <? sc c2 then Ok (-1)
              else LexNumCmp_go fuel' lexOnly false r1 r2
      | _, _ => Ok (if goes_on s1 then 1 else if goes_on s2 then -1 else 0)
      end
  end.

Definition LexNumCmp_cmp (sd1 sd2 : list byte) (lexOnly : bool) : result Z :=
  LexNumCmp_go (S (length sd1)) lexOnly true sd1 sd2.

(** [LexNumCmp::operator()]. *)
Definition LexNumCmp_less (lexOnly : bool) (s1 s2 : list byte) : result bool :=
  let* x := LexNumCmp_cmp s1 s2 lexOnly in Ok (x <? 0).

(** [strncmp(a, b, n) == 0] where [n] is the size of [a] and [a] has no NUL. *)
Fixpoint starts_with (a b : list byte) : option (list byte) :=
  match a, b with
  | [], _ => Some b
  | x :: a', y :: b' => if Byte.eqb x y then starts_with a' b' else None
  | _ :: _, [] => None
  end.

Definition followed_by_dash (a b : list byte) : bool :=
  match starts_with a b with Some (c :: _) => Byte.eqb c "-" | _ => false end.

Definition versionCmp (rhs lhs : list byte) : result Z :=
  if bool_decide (rhs = lhs) then Ok 0
  else if (length rhs <? length lhs)%nat && followed_by_dash rhs lhs then Ok 1
  else if (length lhs <? length rhs)%nat && followed_by_dash lhs rhs then Ok (-1)
  else LexNumCmp_cmp rhs lhs false.

(** ** Dotted names *)

Inductive FieldCompareResult := LEFT_SUBFIELD | LEFT_BEFORE | SAME | RIGHT_BEFORE | RIGHT_SUBFIELD.

(** The piece at a position, and the position after its dot. *)
Definition next_piece (s : list byte) : list byte * list byte :=
  match break_at dot s with Some (w, r) => (w, r) | None => (s, []) end.

(** [c.c_str()] ends at a NUL. *)
Definition c_str (s : list byte) : list byte :=
  match until_nul s with Some w => w | None => s end.

Fixpoint compareDotted_go (maxLoops : nat) (lexOnly : bool) (l r : list byte) : result FieldCompareResult :=
  match maxLoops with
  | O => Err VerifyFailed
  | S n =>
      let '(c, l') := next_piece l in
      let '(d, r') := next_piece r in
      let* x := LexNumCmp_cmp (c_str c) (c_str d) lexOnly in
      if x <? 0 then Ok LEFT_BEFORE
      else if 0 <? x then Ok RIGHT_BEFORE
      else
        match l', r' with
        | [], [] => Ok SAME
        | [], _ => Ok RIGHT_SUBFIELD
        | _, [] => Ok LEFT_SUBFIELD
        | _, _ => compareDotted_go n lexOnly l' r'
        end
  end.

Definition maxLoops : Z := 1024 * 1024.
Definition compareDottedFieldNames (l r : list byte) (lexOnly : bool) : result FieldCompareResult :=
  compareDotted_go (Z.to_nat maxLoops) lexOnly l r.

(** ** UTF-8 *)

Definition leadingOnes (c : Z) : Z :=
  if c <? 0x80 then 0
  else if c <? 0xC0 then 1
  else if c <? 0xE0 then 2
  else if c <? 0xF0 then 3
  else if c <? 0xF8 then 4
  else if c <? 0xFC then 5
  else if c <? 0xFE then 6
  else if c <? 0xFF then 7
  else 8.

(** The loop, on the bytes of a C string. *)
Fixpoint validUTF8_go (left_ : Z) (s : list byte) : bool :=
  match s with
  | [] => left_ =? 0
  | c :: r =>
      let ones := leadingOnes (bz c) in
      if negb (left_ =? 0) then
        if negb (ones =? 1) then false else validUTF8_go (left_ - 1) r
      else if ones =? 0 then validUTF8_go 0 r
      else if ones =? 1 then false
      else if 0xF4 <? bz c then false
      else if (bz c =? 0xC0) || (bz c =? 0xC1) then false
      else validUTF8_go (ones - 1) r
  end.

Definition isValidUTF8 (s : list byte) : bool := validUTF8_go 0 (c_str s).

(** ** The number at the whole of a string *)

Definition parseLL (n : list byte) : result Z :=
  match n with
  | [] => Err (UserAssert 13307)
  | _ =>
      match strtoll n with
      | Some c =>
          match conv_rest c with
          | [] => if conv_erange c then Err (UserAssert 13305) else Ok (conv_value c)
          | _ => Err (UserAssert 13305)
          end
      | None => Err (UserAssert 13305)
      end
  end.

(** ** [StringSplitter] *)

(** [strstr(s, splitter)]: what stands before the splitter and after it. *)
Fixpoint find_sub (splitter s : list byte) : option (list byte * list byte) :=
  match starts_with splitter s with
  | Some r => Some ([], r)
  | None =>
      match s with
      | [] => None
      | c :: s' => match find_sub splitter s' with Some (w, r) => Some (c :: w, r) | None => None end
      end
  end.

(** The splitters that follow are passed over, one character at a time. *)
Fixpoint skip_splitters (splitter s : list byte) : list byte :=
  match s with
  | [] => []
  | _ :: r => match starts_with splitter s with Some _ => skip_splitters splitter r | None => s end
  end.

(** [next()]: the fragment and what is left of [_big]. *)
Definition splitter_next (splitter big : list byte) : list byte * list byte :=
  match find_sub splitter big with
  | Some (w, r) => (w, skip_splitters splitter r)
  | None => (big, [])
  end.

Fixpoint splitter_split_go (fuel : nat) (splitter big : list byte) : result (list (list byte)) :=
  match big, fuel with
  | [], _ => Ok []
  | _, O => Err OutOfFuel
  | _, S fuel' =>
      let '(w, r) := splitter_next splitter big in
      let* l := splitter_split_go fuel' splitter r in Ok (w :: l)
  end.
Definition splitter_split (splitter big : list byte) : result (list (list byte)) :=
  splitter_split_go (length big) splitter big.

Fixpoint splitter_join (l : list (list byte)) (split : list byte) : list byte :=
  match l with
  | [] => []
  | [s] => s
  | s :: r => s ++ split ++ splitter_join r split
  end.

(** ** Command lines for Windows *)

Definition backslash : byte := x5c.
Definition quote_char : byte := x22.
Definition must_quote (c : byte) : bool := Byte.eqb c " " || Byte.eqb c x09 || Byte.eqb c quote_char.

(** The loop over the argument, with the backslashes collected. *)
Fixpoint quote_go (s backslashes : list byte) : list byte :=
  match s with
  | [] => []
  | c :: r =>
      if Byte.eqb c backslash then
        let b := backslashes ++ [c] in
        (match r with [] => b ++ b | _ => [] end) ++ quote_go r b
      else if Byte.eqb c quote_char then
        backslashes ++ backslashes ++ [backslash; quote_char] ++ quote_go r backslashes
      else backslashes ++ [c] ++ quote_go r []
  end.

Definition quoteForWindowsCommandLine (arg : list byte) : list byte :=
  match arg with
  | [] => [quote_char; quote_char]
  | _ => if existsb must_quote arg then quote_char :: quote_go arg [] ++ [quote_char] else arg
  end.

Definition constructUtf8WindowsCommandLine (argv : list (list byte)) : list byte :=
  match argv with
  | [] => []
  | a :: r => quoteForWindowsCommandLine a ++
      flat_map (fun x => " "%byte :: quoteForWindowsCommandLine x) r
  end.

(** ** The order of [LexNumCmp] *)

(** What the comparison sees of a string, two numbers for a character: a dot,
    a character by its (signed) code, a run of digits, and the character 255.
    A run at the start of a word counts by its value, any other by its length
    and then its value. *)
Definition run_key (startWord : bool) (w : list byte) : Z :=
  if startWord then dec_val w else 10 ^ zlen w + dec_val w.

Fixpoint keys (fuel : nat) (lexOnly startWord : bool) (s : list byte) : list Z :=
  match fuel, s with
  | S fuel', c :: r =>
      if Byte.eqb c dot then 0 :: 0 :: keys fuel' lexOnly true r
      else if is_max c then 3 :: 0 :: keys fuel' lexOnly false r
      else if negb lexOnly && is_digit c then
        let '(w, e) := span is_digit s in
        2 :: run_key startWord w :: keys fuel' lexOnly false e
      else 1 :: sc c :: keys fuel' lexOnly false r
  | _, _ => []
  end.
Definition string_keys (lexOnly : bool) (s : list byte) : list Z := keys (length s) lexOnly true s.

(** The lexicographic order of lists of numbers. *)
Fixpoint zlex (a b : list Z) : Z :=
  match a, b with
  | [], [] => 0
  | [], _ => -1
  | _, [] => 1
  | x :: a', y :: b' => if x <? y then -1 else if y <? x then 1 else zlex a' b'
  end.

Lemma zlex_refl a : zlex a a = 0.
Proof. induction a as [|x a IH]; [done|]. simpl. by rewrite Z.ltb_irrefl. Qed.

Lemma zlex_lt_trans a b c : zlex a b < 0 -> zlex b c < 0 -> zlex a c < 0.
Proof.
  revert b c. induction a as [|x a IH]; intros [|y b] [|z c]; simpl; try done.
  destruct (Z.ltb_spec x y), (Z.ltb_spec y z), (Z.ltb_spec x z); try lia;
    destruct (Z.ltb_spec y x), (Z.ltb_spec z y), (Z.ltb_spec z x); try lia. apply IH.
Qed.

Lemma zlex_antisym a b : zlex b a = - zlex a b.
Proof.
  revert b. induction a as [|x a IH]; intros [|y b]; simpl; try done.
  destruct (Z.ltb_spec x y), (Z.ltb_spec y x); try lia. apply IH.
Qed.

Lemma zlex_eq a b : zlex a b = 0 -> a = b.
Proof.
  revert b. induction a as [|x a IH]; intros [|y b]; simpl; try done.
  destruct (Z.ltb_spec x y), (Z.ltb_spec y x); try lia. intros E%IH. f_equal; [lia|done].
Qed.

(** What is not below and not below again is not below. *)
Lemma zlex_nlt_trans a b c : 0 <= zlex a b -> 0 <= zlex b c -> 0 <= zlex a c.
Proof.
  intros Hab Hbc. destruct (Z.eq_dec (zlex a b) 0) as [->%zlex_eq|]; [done|].
  destruct (Z.eq_dec (zlex b c) 0) as [<-%zlex_eq|]; [done|].
  pose proof (zlex_lt_trans c b a). rewrite (zlex_antisym a b), (zlex_antisym b c),
    (zlex_antisym a c) in H. lia.
Qed.

(** *** Runs of digits *)

Lemma span_digits (s : list byte) : forallb is_digit (fst (span is_digit s)) = true /\
  (length (snd (span is_digit s)) <= length s)%nat.
Proof.
  induction s as [|c s [IHd IHl]]; [done|]. cbn [span].
  destruct (is_digit c) eqn:Hc; [|split; [done|simpl; lia]].
  destruct (span is_digit s) as [w e]. cbn [fst snd forallb length] in *. rewrite Hc. split; [done|lia].
Qed.

Lemma skip_zeros_length s : (length (skip_zeros s) <= length s)%nat.
Proof.
  induction s as [|c s IH]; [done|]. cbn [skip_zeros]. destruct (Byte.eqb c "0"); simpl; lia.
Qed.

Lemma span_digits_length c r : is_digit c = true ->
  (length (snd (span is_digit (c :: r))) <= length r)%nat.
Proof.
  intros Hc. cbn [span]. rewrite Hc. pose proof (span_digits r) as [_ H]. by destruct (span is_digit r).
Qed.

Lemma dec_val_from_shift s : forall a, dec_val_from a s = a * 10 ^ zlen s + dec_val s.
Proof.
  induction s as [|c s IH]; intros a; [change (a = a * 1 + 0); lia|].
  unfold dec_val, dec_val_from in *. cbn [fold_left]. rewrite IH, (IH (0 * 10 + _)).
  rewrite zlen_cons, Z.pow_add_r by (pose proof (zlen_nonneg s); lia). lia.
Qed.

Lemma dec_val_cons c s : dec_val (c :: s) = digit_val c * 10 ^ zlen s + dec_val s.
Proof. unfold dec_val at 1, dec_val_from. cbn [fold_left]. apply dec_val_from_shift. Qed.

Lemma dec_val_bounds s : forallb is_digit s = true -> 0 <= dec_val s < 10 ^ zlen s.
Proof.
  induction s as [|c s IH]; [done|]. intros [Hc Hs]%andb_prop. specialize (IH Hs).
  rewrite dec_val_cons, zlen_cons, Z.pow_add_r by (pose proof (zlen_nonneg s); lia).
  unfold is_digit, digit_val in *. nia.
Qed.

Lemma lex_cmp_digits a : forall b, length a = length b ->
  forallb is_digit a = true -> forallb is_digit b = true ->
  lex_cmp a b = Z.sgn (dec_val a - dec_val b).
Proof.
  induction a as [|x a IH]; intros [|y b] Hl Ha Hb; try done.
  cbn [forallb] in Ha, Hb. apply andb_prop in Ha as [Hx Ha]. apply andb_prop in Hb as [Hy Hb].
  injection Hl as Hl. cbn [lex_cmp]. rewrite IH by done.
  pose proof (dec_val_bounds a Ha) as Ba. pose proof (dec_val_bounds b Hb) as Bb.
  rewrite !dec_val_cons. assert (zlen a = zlen b) as E by (unfold zlen; lia). rewrite E in *.
  unfold digit_val. destruct (Z.ltb_spec (bz x) (bz y)); [nia|].
  destruct (Z.ltb_spec (bz y) (bz x)); [nia|]. f_equal. nia.
Qed.

(** The run the code compares, and the whole run: the rest is the same, and so
    is the value. *)
Lemma word_digits_spec sw s : let '(w, e) := word_digits sw s in
  e = snd (span is_digit s) /\ forallb is_digit w = true /\
  if sw then dec_val w = dec_val (fst (span is_digit s)) /\ head w <> Some "0"%byte
  else w = fst (span is_digit s).
Proof.
  unfold word_digits. destruct sw; [|destruct (span_digits s) as [Hd _]; by destruct (span is_digit s)].
  induction s as [|c s IH]; [done|]. cbn [skip_zeros].
  destruct (byte_eqb_spec c "0") as [->|Hc].
  - change (span is_digit ("0"%byte :: s)) with
      (let '(a, b) := span is_digit s in ("0"%byte :: a, b)).
    destruct (span is_digit s) as [a b], (span is_digit (skip_zeros s)) as [w e].
    destruct IH as (-> & Hw & -> & Hh). cbn [fst snd]. rewrite dec_val_cons. by repeat split.
  - pose proof (span_digits (c :: s)) as [Hd _].
    destruct (span is_digit (c :: s)) as [w e] eqn:E. split; [done|]. split; [done|]. split; [done|].
    cbn [span] in E. destruct (is_digit c); [|by injection E as <- <-].
    destruct (span is_digit s). injection E as <- <-. by intros [= ->].
Qed.

Lemma longer_run_greater (a b : list byte) : forallb is_digit a = true -> forallb is_digit b = true ->
  head b <> Some "0"%byte -> (length a < length b)%nat -> dec_val a < dec_val b.
Proof.
  intros Ha Hb Hh Hl. destruct b as [|c b]; [simpl in Hl; lia|].
  cbn [forallb] in Hb. apply andb_prop in Hb as [Hc Hb]. rewrite dec_val_cons.
  assert (1 <= digit_val c) as Hd.
  { unfold is_digit, digit_val in *. destruct (Z.eq_dec (bz c) 48) as [E|]; [|lia].
    destruct Hh. change 48 with (bz "0"%byte) in E. by apply bz_inj in E as ->. }
  pose proof (dec_val_bounds a Ha). pose proof (dec_val_bounds b Hb).
  assert (10 ^ zlen a <= 10 ^ zlen b) by (apply Z.pow_le_mono_r; simpl in Hl; unfold zlen; lia). nia.
Qed.

(** Runs without leading zeros compare by value. *)
Lemma compare_runs_value a b : forallb is_digit a = true -> forallb is_digit b = true ->
  head a <> Some "0"%byte -> head b <> Some "0"%byte ->
  compare_runs a b = Z.sgn (dec_val a - dec_val b).
Proof.
  intros Ha Hb Ha0 Hb0. unfold compare_runs.
  destruct (Nat.ltb_spec (length b) (length a)) as [Hl|]; [pose proof (longer_run_greater b a Hb Ha Ha0 Hl); lia|].
  destruct (Nat.ltb_spec (length a) (length b)) as [Hl|]; [pose proof (longer_run_greater a b Ha Hb Hb0 Hl); lia|].
  apply lex_cmp_digits; [lia|done|done].
Qed.

Lemma compare_runs_length a b : forallb is_digit a = true -> forallb is_digit b = true ->
  compare_runs a b = Z.sgn (run_key false a - run_key false b).
Proof.
  intros Ha Hb. unfold compare_runs, run_key.
  pose proof (dec_val_bounds a Ha). pose proof (dec_val_bounds b Hb).
  assert (forall x y : list byte, (length x < length y)%nat -> 10 * 10 ^ zlen x <= 10 ^ zlen y) as Hp.
  { intros x y Hl. rewrite <- Z.pow_succ_r by apply zlen_nonneg.
    apply Z.pow_le_mono_r; unfold zlen; lia. }
  destruct (Nat.ltb_spec (length b) (length a)) as [Hl|]; [specialize (Hp b a Hl); lia|].
  destruct (Nat.ltb_spec (length a) (length b)) as [Hl|]; [specialize (Hp a b Hl); lia|].
  assert (length a = length b) as E by lia. rewrite lex_cmp_digits by done.
  f_equal. unfold zlen. rewrite E. lia.
Qed.

Lemma compare_runs_key sw s1 s2 :
  compare_runs (fst (word_digits sw s1)) (fst (word_digits sw s2)) =
  Z.sgn (run_key sw (fst (span is_digit s1)) - run_key sw (fst (span is_digit s2))).
Proof.
  pose proof (word_digits_spec sw s1) as W1. pose proof (word_digits_spec sw s2) as W2.
  destruct (word_digits sw s1) as [w1 e1], (word_digits sw s2) as [w2 e2]. cbn [fst].
  destruct W1 as (_ & D1 & K1), W2 as (_ & D2 & K2). destruct sw.
  - destruct K1 as [K1 H1], K2 as [K2 H2]. cbn [run_key]. rewrite <- K1, <- K2.
    by apply compare_runs_value.
  - rewrite <- K1, <- K2. by apply compare_runs_length.
Qed.

(** *** The comparison is the order of the keys *)

Lemma zlex_keys a b ka kb : a <> b ->
  zlex (a :: ka) (b :: kb) = if a <? b then -1 else 1.
Proof. intros Hne. simpl. destruct (Z.ltb_spec a b); [done|]. by replace (b <? a) with true by lia. Qed.

Lemma zlex_cons a ka kb : zlex (a :: ka) (a :: kb) = zlex ka kb.
Proof. simpl. by rewrite Z.ltb_irrefl. Qed.

Lemma zlex_sgn a b ka kb :
  zlex (a :: ka) (b :: kb) = if Z.sgn (a - b) =? 0 then zlex ka kb else Z.sgn (a - b).
Proof.
  simpl. destruct (Z.ltb_spec a b); [by replace (Z.sgn (a - b)) with (-1) by lia|].
  destruct (Z.ltb_spec b a); [by replace (Z.sgn (a - b)) with 1 by lia|].
  by replace (Z.sgn (a - b)) with 0 by lia.
Qed.

Lemma keys_class fuel lexOnly sw c r : exists k x ks,
  keys (S fuel) lexOnly sw (c :: r) = k :: x :: ks /\
  k = (if Byte.eqb c dot then 0 else if is_max c then 3
       else if negb lexOnly && is_digit c then 2 else 1).
Proof.
  cbn [keys]. destruct (Byte.eqb c dot); [eauto|]. destruct (is_max c); [eauto|].
  destruct (negb lexOnly && is_digit c); [|eauto]. destruct (span is_digit (c :: r)). eauto.
Qed.

Lemma is_max_eq c : is_max c = true -> c = xff.
Proof. unfold is_max. by destruct (byte_eqb_spec c xff). Qed.

(** The keys do not depend on fuel that suffices. *)
Lemma keys_fuel m lexOnly : forall sw n s, (length s <= m)%nat -> (length s <= n)%nat ->
  keys m lexOnly sw s = keys n lexOnly sw s.
Proof.
  induction m as [|m IH]; intros sw [|n] [|c r] Hm Hn; simpl in Hm, Hn; try done; try lia.
  cbn [keys]. rewrite (IH true n r), (IH false n r) by lia.
  destruct (Byte.eqb c dot); [done|]. destruct (is_max c); [done|].
  destruct (negb lexOnly && is_digit c) eqn:Hd; [|done]. apply andb_prop in Hd as [_ Hd].
  pose proof (span_digits_length c r Hd) as Hw. destruct (span is_digit (c :: r)) as [w e].
  cbn [snd] in Hw. f_equal. f_equal. apply IH; lia.
Qed.

Lemma goes_on_no_nul s : no_nul s = true -> goes_on s = match s with [] => false | _ => true end.
Proof. destruct s as [|c s]; [done|]. by intros [Hc _]%andb_prop. Qed.

Lemma span_no_nul s : no_nul s = true -> no_nul (snd (span is_digit s)) = true.
Proof.
  induction s as [|c r IH]; [done|]. intros H. cbn [span].
  destruct (is_digit c); [|done]. apply andb_prop in H as [_ H]. specialize (IH H).
  by destruct (span is_digit r).
Qed.

(** After a run of digits: the code and the keys go on from the same place. *)
Lemma word_digits_rest sw c r : is_digit c = true -> no_nul (c :: r) = true ->
  let e := snd (span is_digit (c :: r)) in
  snd (word_digits sw (c :: r)) = e /\ no_nul e = true /\ (length e <= length r)%nat.
Proof.
  intros Hc Hn. pose proof (word_digits_spec sw (c :: r)) as W.
  destruct (word_digits sw (c :: r)) as [w e]. destruct W as [-> _]. split; [done|].
  split; [by apply span_no_nul|by apply span_digits_length].
Qed.

Lemma LexNumCmp_go_keys fuel lexOnly : forall sw m1 m2 s1 s2,
  (length s1 < fuel)%nat -> (length s1 <= m1)%nat -> (length s2 <= m2)%nat ->
  no_nul s1 = true -> no_nul s2 = true ->
  LexNumCmp_go fuel lexOnly sw s1 s2 = Ok (zlex (keys m1 lexOnly sw s1) (keys m2 lexOnly sw s2)).
Proof.
  induction fuel as [|fuel IH]; intros sw m1 m2 s1 s2 Hf H1 H2 N1 N2; [lia|].
  destruct s1 as [|c1 r1], s2 as [|c2 r2]; cbn [LexNumCmp_go];
    rewrite ?goes_on_no_nul by done; cbn [length] in *.
  { by destruct m1, m2. }
  { destruct m2 as [|m2]; [lia|]. destruct (keys_class m2 lexOnly sw c2 r2) as (k & x & ks & -> & _).
    by destruct m1. }
  { destruct m1 as [|m1]; [lia|]. destruct (keys_class m1 lexOnly sw c1 r1) as (k & x & ks & -> & _).
    by destruct m2. }
  destruct m1 as [|m1], m2 as [|m2]; try lia.
  assert (no_nul r1 = true /\ no_nul r2 = true) as [M1 M2].
  { apply andb_prop in N1 as [_ ?]. by apply andb_prop in N2 as [_ ?]. }
  destruct (keys_class m1 lexOnly sw c1 r1) as (k1 & x1 & ks1 & E1 & K1).
  destruct (keys_class m2 lexOnly sw c2 r2) as (k2 & x2 & ks2 & E2 & K2).
  destruct (Z.eq_dec k1 k2) as [Ek|Ek].
  - clear E1 E2. cbn [keys].
    destruct (Byte.eqb c1 dot), (Byte.eqb c2 dot); try (by destruct (is_max c1), (is_max c2),
      (negb lexOnly && is_digit c1), (negb lexOnly && is_digit c2); subst; discriminate).
    { cbn [andb negb]. rewrite !zlex_cons. apply IH; (done || lia). }
    cbn [andb negb].
    destruct (is_max c1) eqn:X1, (is_max c2) eqn:X2; try (by destruct
      (negb lexOnly && is_digit c1), (negb lexOnly && is_digit c2); subst; discriminate).
    { apply is_max_eq in X1 as ->. apply is_max_eq in X2 as ->.
      change (is_digit xff) with false. rewrite !andb_false_r, Z.ltb_irrefl, !zlex_cons.
      apply IH; (done || lia). }
    cbn [andb negb].
    destruct (negb lexOnly && is_digit c1) eqn:D1, (negb lexOnly && is_digit c2) eqn:D2;
      try (subst; discriminate).
    + apply andb_prop in D1 as [Hl D1]. apply andb_prop in D2 as [_ D2].
      rewrite D2. cbn [andb].
      pose proof (compare_runs_key sw (c1 :: r1) (c2 :: r2)) as Hk.
      destruct (word_digits_rest sw c1 r1 D1 N1) as (W1 & L1 & P1).
      destruct (word_digits_rest sw c2 r2 D2 N2) as (W2 & L2 & P2).
      destruct (word_digits sw (c1 :: r1)) as [w1 e1], (word_digits sw (c2 :: r2)) as [w2 e2].
      destruct (span is_digit (c1 :: r1)), (span is_digit (c2 :: r2)). cbn [fst snd] in *. subst.
      rewrite zlex_cons, zlex_sgn, Hk. case_match; [|done]. apply IH; (done || lia).
    + cbn [andb]. rewrite zlex_cons, zlex_sgn.
      destruct (Z.ltb_spec (sc c2) (sc c1)); [by replace (Z.sgn _) with 1 by lia|].
      destruct (Z.ltb_spec (sc c1) (sc c2)); [by replace (Z.sgn _) with (-1) by lia|].
      replace (Z.sgn _) with 0 by lia. apply IH; (done || lia).
  - rewrite E1, E2, (zlex_keys _ _ _ _ Ek). rewrite K1, K2 in Ek |- *.
    destruct (Byte.eqb c1 dot), (Byte.eqb c2 dot); try done;
    destruct (is_max c1), (is_max c2); try done;
    destruct lexOnly; try done; destruct (is_digit c1), (is_digit c2); try done.
Qed.

Lemma LexNumCmp_cmp_keys lexOnly s1 s2 : no_nul s1 = true -> no_nul s2 = true ->
  LexNumCmp_cmp s1 s2 lexOnly = Ok (zlex (string_keys lexOnly s1) (string_keys lexOnly s2)).
Proof. intros. apply LexNumCmp_go_keys; (done || lia). Qed.

(** [LexNumCmp] compares two strings without NUL as the lexicographic order of
    what it sees of them: a dot before the characters, these by their signed
    code, then the runs of digits, by value at the start of a word and elsewhere
    by length and value, then the character 255.  Used as the order of
    a container it is a strict weak order. *)
Theorem LexNumCmp_order lexOnly s1 s2 s3
    (H1 : no_nul s1 = true) (H2 : no_nul s2 = true) (H3 : no_nul s3 = true) :
  LexNumCmp_cmp s1 s2 lexOnly = Ok (zlex (string_keys lexOnly s1) (string_keys lexOnly s2)) /\
  LexNumCmp_less lexOnly s1 s1 = Ok false /\
  (LexNumCmp_less lexOnly s1 s2 = Ok true -> LexNumCmp_less lexOnly s2 s3 = Ok true ->
   LexNumCmp_less lexOnly s1 s3 = Ok true) /\
  (LexNumCmp_less lexOnly s1 s2 = Ok false -> LexNumCmp_less lexOnly s2 s3 = Ok false ->
   LexNumCmp_less lexOnly s1 s3 = Ok false).
Proof.
  unfold LexNumCmp_less. rewrite !LexNumCmp_cmp_keys by done. cbn [bind].
  rewrite zlex_refl. split; [done|]. split; [done|].
  pose proof (zlex_lt_trans (string_keys lexOnly s1) (string_keys lexOnly s2) (string_keys lexOnly s3)).
  pose proof (zlex_nlt_trans (string_keys lexOnly s1) (string_keys lexOnly s2) (string_keys lexOnly s3)).
  split; intros [= ?] [= ?]; f_equal; lia.
Qed.

Lemma LexNumCmp_order_witness :
  LexNumCmp_cmp (bstr "a.09.b") (bstr "a.10.b") false = Ok (-1) /\
  LexNumCmp_less false (bstr "a.9.b") (bstr "a.09.c") = Ok true /\
  LexNumCmp_less false (bstr "a.9.b") (bstr "a.10") = Ok true.
Proof.
  destruct (LexNumCmp_order false (bstr "a.9.b") (bstr "a.09.c") (bstr "a.10")
    eq_refl eq_refl eq_refl) as (_ & _ & Ht & _).
  split; [by vm_compute|]. split; [by vm_compute|].
  apply Ht; by vm_compute.
Defined.

(** ** Dotted names as paths *)

(** The pieces the comparison walks through: a dot at the end adds none. *)
Fixpoint path_from (fuel : nat) (s : list byte) : list (list byte) :=
  match fuel with
  | O => []
  | S fuel' =>
      let '(c, r) := next_piece s in
      c :: match r with [] => [] | _ => path_from fuel' r end
  end.
Definition path (s : list byte) : list (list byte) := path_from (S (length s)) s.
Definition path_keys (lexOnly : bool) (s : list byte) : list (list Z) :=
  map (string_keys lexOnly) (path s).

Lemma break_at_spec delim s w r : break_at delim s = Some (w, r) -> s = w ++ delim :: r.
Proof.
  revert w r. induction s as [|c s IH]; intros w r; [done|]. cbn [break_at].
  destruct (byte_eqb_spec c delim) as [->|]; [by intros [= <- <-]|].
  destruct (break_at delim s) as [[w' r']|]; [|done]. intros [= <- <-].
  by rewrite (IH w' r' eq_refl).
Qed.

Lemma c_str_no_nul s : no_nul s = true -> c_str s = s.
Proof.
  unfold c_str. induction s as [|c s IH]; [done|]. intros [Hc Hs]%andb_prop. cbn [until_nul].
  destruct (Byte.eqb c x00); [done|]. specialize (IH Hs). by destruct (until_nul s); subst.
Qed.

Lemma next_piece_spec s : no_nul s = true ->
  let '(c, r) := next_piece s in
  no_nul c = true /\ no_nul r = true /\ (r = [] \/ length r < length s)%nat.
Proof.
  intros Hs. unfold next_piece. destruct (break_at dot s) as [[w r]|] eqn:E; [|auto].
  apply break_at_spec in E as ->. rewrite no_nul_app in Hs.
  apply andb_prop in Hs as [Hw [_ Hr]%andb_prop]. rewrite length_app. simpl. auto with lia.
Qed.

(** What a result of the comparison says of the paths [p] and [q]. *)
Definition path_relation (x : FieldCompareResult) (p q : list (list Z)) : Prop :=
  match x with
  | SAME => p = q
  | RIGHT_SUBFIELD => exists k, k <> [] /\ q = p ++ k
  | LEFT_SUBFIELD => exists k, k <> [] /\ p = q ++ k
  | LEFT_BEFORE => exists c a b u v, p = c ++ a :: u /\ q = c ++ b :: v /\ zlex a b < 0
  | RIGHT_BEFORE => exists c a b u v, p = c ++ a :: u /\ q = c ++ b :: v /\ zlex b a < 0
  end.

Lemma path_relation_cons x k p q : path_relation x p q -> path_relation x (k :: p) (k :: q).
Proof.
  destruct x; simpl.
  - intros (u & Hu & ->). by exists u.
  - intros (c & a & b & u & v & -> & -> & H). by exists (k :: c), a, b, u, v.
  - by intros ->.
  - intros (c & a & b & u & v & -> & -> & H). by exists (k :: c), a, b, u, v.
  - intros (u & Hu & ->). by exists u.
Qed.

Lemma path_from_cons m s : (0 < m)%nat -> exists c t, path_from m s = c :: t.
Proof. destruct m as [|m]; [lia|]. intros _. cbn [path_from]. destruct (next_piece s). eauto. Qed.

Lemma compareDotted_go_spec lexOnly n : forall m1 m2 l r,
  (length l < n)%nat -> (length l < m1)%nat -> (length r < m2)%nat ->
  no_nul l = true -> no_nul r = true ->
  exists x, compareDotted_go n lexOnly l r = Ok x /\
    path_relation x (map (string_keys lexOnly) (path_from m1 l))
      (map (string_keys lexOnly) (path_from m2 r)).
Proof.
  induction n as [|n IH]; intros m1 m2 l r Hn H1 H2 Nl Nr; [lia|].
  destruct m1 as [|m1]; [lia|]. destruct m2 as [|m2]; [lia|].
  cbn [compareDotted_go path_from].
  pose proof (next_piece_spec l Nl) as Pl. pose proof (next_piece_spec r Nr) as Pr.
  destruct (next_piece l) as [c l'], (next_piece r) as [d r'].
  destruct Pl as (Nc & Nl' & Pl), Pr as (Nd & Nr' & Pr).
  rewrite !c_str_no_nul, LexNumCmp_cmp_keys by done. cbn [bind map].
  set (kc := string_keys lexOnly c). set (kd := string_keys lexOnly d).
  destruct (Z.ltb_spec (zlex kc kd) 0) as [Hlt|].
  { exists LEFT_BEFORE. split; [done|]. exists [], kc, kd. eauto. }
  destruct (Z.ltb_spec 0 (zlex kc kd)) as [Hgt|].
  { exists RIGHT_BEFORE. split; [done|]. exists [], kc, kd. rewrite (zlex_antisym kc kd).
    do 2 eexists. split_and!; [done..|lia]. }
  assert (kc = kd) as -> by (apply zlex_eq; lia). clearbody kd.
  destruct l' as [|x l'], r' as [|y r'].
  - exists SAME. done.
  - exists RIGHT_SUBFIELD. split; [done|]. eexists. split; [|done].
    destruct Pr as [|Pr]; [done|]. destruct (path_from_cons m2 (y :: r')) as (p & t & ->); [lia|done].
  - exists LEFT_SUBFIELD. split; [done|]. eexists. split; [|done].
    destruct Pl as [|Pl]; [done|]. destruct (path_from_cons m1 (x :: l')) as (p & t & ->); [lia|done].
  - destruct Pl as [|Pl]; [done|]. destruct Pr as [|Pr]; [done|].
    destruct (IH m1 m2 (x :: l') (y :: r')) as (z & Hz & Hp); [lia..|done|done|].
    exists z. split; [done|]. by apply path_relation_cons.
Qed.

(** The comparison of dotted names returns, for names without NUL shorter than
    its bound on loops, and says how the two paths stand to each other. *)
Lemma compareDotted_correct lexOnly l r :
  no_nul l = true -> no_nul r = true -> zlen l < maxLoops ->
  exists x, compareDottedFieldNames l r lexOnly = Ok x /\
    path_relation x (path_keys lexOnly l) (path_keys lexOnly r).
Proof.
  intros Nl Nr Hl. apply compareDotted_go_spec; [|lia|lia|done|done].
  unfold zlen in Hl. lia.
Qed.

(** ** Round trip of splitting and joining *)

Lemma split_from_join delim fuel : forall s, (length s <= fuel)%nat ->
  split_from fuel delim s <> [] /\ joinStringDelim (split_from fuel delim s) delim = s.
Proof.
  induction fuel as [|fuel IH]; intros s Hs; [by destruct s|]. cbn [split_from].
  destruct (break_at delim s) as [[w r]|] eqn:E; [|done].
  apply break_at_spec in E as ->. rewrite length_app in Hs. simpl in Hs.
  destruct (IH r) as [Hne Hj]; [lia|]. split; [done|]. cbn [joinStringDelim].
  destruct (split_from fuel delim r) eqn:Er; [done|]. by rewrite Hj.
Qed.

Lemma split_join s delim : joinStringDelim (splitStringDelim s delim) delim = s.
Proof. destruct s as [|c s]; [done|]. by apply split_from_join. Qed.

(** ** What [isValidUTF8] accepts *)

(** A byte of ASCII, or a lead byte and as many continuation bytes as it
    announces: the code points themselves are not looked at. *)
Inductive utf8_text : list byte -> Prop :=
  | utf8_end : utf8_text []
  | utf8_ascii c s : bz c < 0x80 -> utf8_text s -> utf8_text (c :: s)
  | utf8_lead c k s : 0xC2 <= bz c <= 0xF4 -> zlen k = leadingOnes (bz c) - 1 ->
      Forall (fun x => 0x80 <= bz x < 0xC0) k -> utf8_text s -> utf8_text (c :: k ++ s).

Lemma leadingOnes_cases c :
  leadingOnes (bz c) = 0 <-> bz c < 0x80.
Proof. unfold leadingOnes. pose proof (bz_range c). repeat case_match; lia. Qed.

Lemma leadingOnes_one c : leadingOnes (bz c) = 1 <-> 0x80 <= bz c < 0xC0.
Proof. unfold leadingOnes. pose proof (bz_range c). repeat case_match; lia. Qed.

Lemma leadingOnes_more c : 0xC2 <= bz c <= 0xF4 -> 2 <= leadingOnes (bz c) <= 4.
Proof. unfold leadingOnes. intros. repeat case_match; lia. Qed.

Lemma validUTF8_continue k : forall s,
  Forall (fun x => 0x80 <= bz x < 0xC0) k -> validUTF8_go (zlen k) (k ++ s) = validUTF8_go 0 s.
Proof.
  induction k as [|c k IH]; intros s Hk; [done|].
  inversion Hk as [|? ? Hc Hk0]; subst. cbn [app validUTF8_go].
  pose proof (zlen_nonneg k). rewrite zlen_cons, (proj2 (leadingOnes_one c)) by done.
  replace (1 + zlen k =? 0) with false by lia. cbn [negb Z.eqb Pos.eqb].
  replace (1 + zlen k - 1) with (zlen k) by lia. by apply IH.
Qed.

Lemma validUTF8_split s : forall n, 0 <= n -> validUTF8_go n s = true ->
  exists k r, s = k ++ r /\ zlen k = n /\ Forall (fun x => 0x80 <= bz x < 0xC0) k /\
    validUTF8_go 0 r = true.
Proof.
  induction s as [|c s IH]; intros n Hn.
  { simpl. intros H. exists [], []. rewrite zlen_nil. split_and!; [done|lia|done|done]. }
  destruct (Z.eq_dec n 0) as [->|].
  { intros H. exists [], (c :: s). done. }
  cbn [validUTF8_go]. replace (n =? 0) with false by lia. cbn [negb].
  destruct (Z.eqb_spec (leadingOnes (bz c)) 1) as [Hc|]; [|done]. cbn [negb].
  intros H. destruct (IH (n - 1)) as (k & r & -> & Hl & Hk & Hr); [lia|done|].
  exists (c :: k), r. rewrite zlen_cons. split_and!; [done|lia| |done].
  constructor; [by apply leadingOnes_one|done].
Qed.

Lemma validUTF8_spec s : validUTF8_go 0 s = true <-> utf8_text s.
Proof.
  split.
  - induction s as [s IH] using (induction_ltof1 _ (@length byte)). unfold ltof in IH.
    destruct s as [|c s]; [constructor|]. cbn [validUTF8_go Z.eqb negb].
    destruct (Z.eqb_spec (leadingOnes (bz c)) 0) as [H0|H0].
    { intros H. apply utf8_ascii; [by apply leadingOnes_cases|]. apply IH; [simpl; lia|done]. }
    destruct (Z.eqb_spec (leadingOnes (bz c)) 1) as [H1|H1]; [done|].
    destruct (Z.ltb_spec 0xF4 (bz c)); [done|].
    destruct (Z.eqb_spec (bz c) 0xC0); [done|]. destruct (Z.eqb_spec (bz c) 0xC1); [done|].
    cbn [orb]. intros Hv.
    assert (0xC2 <= bz c <= 0xF4) as Hc.
    { rewrite leadingOnes_cases in H0. rewrite leadingOnes_one in H1. lia. }
    pose proof (leadingOnes_more c Hc).
    apply validUTF8_split in Hv as (k & r & -> & Hl & Hk & Hr); [|lia].
    apply utf8_lead; [done..|]. apply IH; [|done]. simpl. rewrite length_app. lia.
  - induction 1 as [|c s Hc _ IH|c k s Hc Hl Hk _ IH]; [done|..]; cbn [validUTF8_go Z.eqb negb].
    + by rewrite (proj2 (leadingOnes_cases c) Hc).
    + pose proof (leadingOnes_more c Hc).
      replace (leadingOnes (bz c) =? 0) with false by lia.
      replace (leadingOnes (bz c) =? 1) with false by lia.
      replace (0xF4 <? bz c) with false by lia. replace (_ || _) with false by lia.
      rewrite <- Hl. by rewrite validUTF8_continue.
Qed.

(** ** The splitter stops, and its fragments hold no splitter *)

Lemma starts_with_spec a b r : starts_with a b = Some r <-> b = a ++ r.
Proof.
  revert b. induction a as [|x a IH]; intros b; cbn [starts_with].
  - split; [by intros [= ->]|by intros ->].
  - destruct b as [|y b]; [done|]. destruct (byte_eqb_spec x y) as [->|Hne].
    + rewrite IH. split; [by intros ->|by intros [= ->]].
    + split; [done|]. intros [= ? _]. congruence.
Qed.

Lemma find_sub_spec splitter s : match find_sub splitter s with
  | Some (w, r) => s = w ++ splitter ++ r /\ forall a b, s = a ++ splitter ++ b -> (length w <= length a)%nat
  | None => forall a b, s <> a ++ splitter ++ b
  end.
Proof.
  induction s as [|c s IH]; cbn [find_sub].
  - destruct (starts_with splitter []) as [r|] eqn:E.
    + apply starts_with_spec in E. split; [done|]. intros. simpl. lia.
    + intros [|? a] t Hs; [|done]. symmetry in Hs. by rewrite (proj2 (starts_with_spec splitter [] t) (eq_sym Hs)) in E.
  - destruct (starts_with splitter (c :: s)) as [r|] eqn:E.
    { apply starts_with_spec in E. split; [done|]. intros. simpl. lia. }
    assert (forall a b, c :: s = a ++ splitter ++ b -> exists a', a = c :: a' /\ s = a' ++ splitter ++ b) as Hc.
    { intros [|x a] b Hs; [|by injection Hs as <- Hs; exists a].
      by rewrite (proj2 (starts_with_spec splitter (c :: s) b) Hs) in E. }
    destruct (find_sub splitter s) as [[w r]|].
    + destruct IH as [-> Hmin]. split; [done|]. intros a b (a' & -> & Hs)%Hc. apply Hmin in Hs. simpl. lia.
    + intros a b (a' & -> & Hs)%Hc. by apply (IH a' b).
Qed.

Lemma skip_splitters_length splitter s : (length (skip_splitters splitter s) <= length s)%nat.
Proof.
  induction s as [|c s IH]; [done|]. cbn [skip_splitters].
  destruct (starts_with splitter (c :: s)); simpl; lia.
Qed.

Lemma skip_splitters_empty s : skip_splitters [] s = [].
Proof. induction s as [|c s IH]; [done|]. exact IH. Qed.

Lemma splitter_next_shorter splitter c s : (length (snd (splitter_next splitter (c :: s))) <= length s)%nat.
Proof.
  unfold splitter_next. pose proof (find_sub_spec splitter (c :: s)) as H.
  destruct (find_sub splitter (c :: s)) as [[w r]|]; [|simpl; lia]. cbn [snd].
  destruct splitter as [|x splitter]; [rewrite skip_splitters_empty; simpl; lia|].
  destruct H as [E _]. apply (f_equal length) in E. rewrite !length_app in E. simpl in E.
  pose proof (skip_splitters_length (x :: splitter) r). lia.
Qed.

(** The split ends whatever the splitter, the empty one included. *)
Lemma splitter_split_total splitter s : exists l, splitter_split splitter s = Ok l.
Proof.
  unfold splitter_split. generalize (le_n (length s)). generalize (length s) at 2 3. intros n. revert s.
  induction n as [|n IH]; intros [|c s] Hn; simpl in Hn; try lia; try (by eexists).
  cbn [splitter_split_go]. pose proof (splitter_next_shorter splitter c s) as Hs.
  destruct (splitter_next splitter (c :: s)) as [w r]. destruct (IH r) as [l ->]; [simpl in Hs; lia|].
  by eexists.
Qed.

(** No fragment holds a splitter that is not empty. *)
Lemma splitter_next_fragment splitter s a b : splitter <> [] ->
  fst (splitter_next splitter s) <> a ++ splitter ++ b.
Proof.
  intros Hne. unfold splitter_next. pose proof (find_sub_spec splitter s) as H.
  destruct (find_sub splitter s) as [[w r]|]; [|apply H]. cbn [fst]. intros ->. destruct H as [-> Hmin].
  specialize (Hmin a (b ++ splitter ++ r) ltac:(by rewrite <- !app_assoc)). rewrite !length_app in Hmin.
  destruct splitter; [done|]. simpl in Hmin. lia.
Qed.

(** Backslashes before a quotation mark are not forgotten after it: the text for
    the argument of a backslash, a quotation mark and a letter has one more
    backslash before the letter. *)
Example quote_repeats_backslashes :
  quoteForWindowsCommandLine [backslash; quote_char; "a"%byte] =
    [quote_char; backslash; backslash; backslash; quote_char; backslash; "a"%byte; quote_char].
Proof. done. Qed.
