(* ===== verification/HostPort.v ===== *)
(** * HostPort: addresses of servers and strings that name connections
    (util/net/hostandport.h, ConnectionString of client/dbclientinterface.h and
    client/dbclient.cpp)

    A [HostAndPort] without a port stands for the default port, so equality of
    addresses is coarser than equality of records; the printed form decides it.
    Making the connection a string names is left out: it is network code. *)

From stdpp Require Import base list numbers strings option sets tactics.
From Stdlib Require Import Strings.Byte ZArith Lia.
From S2P Require Import Prelude Memory Decimal CNumber Text.

(** ** HostAndPort *)

Record HostAndPort := MkHost { _host : list byte; _port : Z }.

Definition DefaultDBPort : Z := 27017.

Definition HostAndPort_empty : HostAndPort := MkHost [] (-1).

(** The part before the last [delim] and the part after it ([strrchr]). *)
Fixpoint break_last (delim : byte) (s : list byte) : option (list byte * list byte) :=
  match s with
  | [] => None
  | c :: r =>
      match break_last delim r with
      | Some (a, b) => Some (c :: a, b)
      | None => if Byte.eqb c delim then Some ([], r) else None
      end
  end.

(** [atoi]: no digit is zero, a number that is not an [int] is undefined. *)
Definition atoi (s : list byte) : result Z :=
  match strtoll s with
  | None => Ok 0
  | Some c => if in_s 32 (conv_value c) then Ok (conv_value c) else Err UndefinedBehaviour
  end.

(** [init(p)] on the characters of a C string. *)
Definition init (p : list byte) : result HostAndPort :=
  let* _ := massert 13110 (bool_decide (p <> [])) in
  match break_last ":" p with
  | Some (before, after) =>
      let* port := atoi after in
      let* _ := uassert 13095 (port >? 0) in
      Ok (MkHost before port)
  | None => Ok (MkHost p (-1))
  end.

Definition HostAndPort_string (s : list byte) : result HostAndPort := init (c_str s).

Definition HostAndPort_hp (h : list byte) (p : Z) : result HostAndPort :=
  let* _ := verify (negb (bool_decide (head (c_str h) = Some "#"%byte))) in
  Ok (MkHost h p).

Definition host (h : HostAndPort) : list byte := _host h.
Definition hasPort (h : HostAndPort) : bool := _port h >=? 0.
Definition port (h : HostAndPort) : Z := if hasPort h then _port h else DefaultDBPort.
Definition setPort (p : Z) (h : HostAndPort) : HostAndPort := MkHost (_host h) p.
Definition host_empty (h : HostAndPort) : bool := bool_decide (_host h = []) && (_port h <? 0).

(** [operator==] and [operator<]. *)
Definition host_eq (a b : HostAndPort) : bool := bool_decide (host a = host b) && (port a =? port b).
Definition host_lt (a b : HostAndPort) : bool :=
  if lex_cmp (host a) (host b) <? 0 then true
  else if bool_decide (host a = host b) then port a <? port b
  else false.

(** [append] and [toString]: outside debug builds. *)
Definition host_append (h : HostAndPort) (ss : list byte) : list byte :=
  let ss := ss ++ host h in
  if negb (port h =? -1) then ss ++ ":"%byte :: dec (port h) else ss.

Definition host_toString (includePort : bool) (h : HostAndPort) : list byte :=
  if includePort then host_append h [] else host h.

Definition starts (prefix s : list byte) : bool := bool_decide (take (length prefix) s = prefix).

Definition isLocalHost (h : HostAndPort) : bool :=
  existsb (fun s => bool_decide (host h = s)) [bstr "localhost"; bstr "::1"; bstr "anonymous unix socket"]
  || starts (bstr "127.") (c_str (host h))
  || bool_decide (head (c_str (host h)) = Some "/"%byte).

(** ** ConnectionString *)

Inductive ConnectionType := INVALID | MASTER | PAIR | SET | SYNC | CUSTOM.

#[global] Instance ConnectionType_eq_dec : EqDecision ConnectionType.
Proof. solve_decision. Defined.

Record ConnectionString := MkConn {
  _type : ConnectionType;
  _servers : list HostAndPort;
  _string : list byte;
  _setName : list byte
}.

Definition ConnectionString_invalid : ConnectionString := MkConn INVALID [] [] [].

(** [push_back] of each string, which makes a [HostAndPort] of it. *)
Fixpoint to_hosts (strs : list (list byte)) : result (list HostAndPort) :=
  match strs with
  | [] => Ok []
  | s :: r =>
      let* h := HostAndPort_string s in
      let* hs := to_hosts r in
      Ok (h :: hs)
  end.

Definition starts_dollar (s : list byte) : bool := bool_decide (head s = Some "$"%byte).

(** [_fillServers]: the type, the servers and the set name it leaves. *)
Definition _fillServers (s : list byte) (cs : ConnectionString) : result ConnectionString :=
  let ty := if starts_dollar s then CUSTOM else _type cs in
  let '(ty, name, s) :=
    match break_at "/" s with
    | Some (a, b) => (if bool_decide (ty = CUSTOM) then CUSTOM else SET, a, b)
    | None => (ty, _setName cs, s)
    end in
  let* hs := to_hosts (split_from (length s) "," s) in
  Ok (MkConn ty (_servers cs ++ hs) (_string cs) name).

Definition join_hosts (hs : list HostAndPort) : list byte :=
  joinStringDelim (map (host_toString true) hs) ",".

Definition _finishInit (cs : ConnectionString) : ConnectionString :=
  let ty := match _type cs, _servers cs with
            | MASTER, h :: _ => if starts_dollar (host h) then CUSTOM else MASTER
            | t, _ => t
            end in
  MkConn ty (_servers cs)
    ((if bool_decide (ty = SET) then _setName cs ++ bstr "/" else []) ++ join_hosts (_servers cs))
    (_setName cs).

(** The three constructors. *)
Definition ConnectionString_host (server : HostAndPort) : ConnectionString :=
  _finishInit (MkConn MASTER [server] [] []).

Definition ConnectionString_of (type : ConnectionType) (s setName : list byte) : result ConnectionString :=
  let* cs := _fillServers s (MkConn type [] [] setName) in
  let n := length (_servers cs) in
  let* _ :=
    match _type cs with
    | MASTER => verify (n =? 1)%nat
    | SET =>
        let* _ := verify (negb (bool_decide (_setName cs = []))) in
        verify (1 <=? n)%nat
    | PAIR => verify (n =? 2)%nat
    | _ => verify (0 <? n)%nat
    end in
  Ok (_finishInit cs).

Definition ConnectionString_favored (s : list byte) (favoredMultipleType : ConnectionType)
    : result ConnectionString :=
  let* cs := _fillServers s (MkConn INVALID [] [] []) in
  let set_type t := MkConn t (_servers cs) (_string cs) (_setName cs) in
  let* cs :=
    if negb (bool_decide (_type cs = INVALID)) then Ok cs
    else if (length (_servers cs) =? 1)%nat then Ok (set_type MASTER)
    else
      let* _ := verify (bool_decide (favoredMultipleType = SET \/ favoredMultipleType = SYNC)) in
      Ok (set_type favoredMultipleType) in
  Ok (_finishInit cs).

Definition isValid (cs : ConnectionString) : bool := negb (bool_decide (_type cs = INVALID)).
Definition conn_toString (cs : ConnectionString) : list byte := _string cs.

(** [v[i]] of a vector. *)
Definition server (i : nat) (cs : ConnectionString) : result HostAndPort :=
  match _servers cs !! i with Some h => Ok h | None => Err OutOfBounds end.

Definition sameLogicalEndpoint (cs other : ConnectionString) : result bool :=
  if negb (bool_decide (_type cs = _type other)) then Ok false
  else
    let same i j := let* a := server i cs in let* b := server j other in Ok (host_eq a b) in
    match _type cs with
    | INVALID => Ok true
    | MASTER => same 0%nat 0%nat
    | PAIR =>
        let* b00 := same 0%nat 0%nat in
        if b00 then same 1%nat 1%nat
        else
          let* b01 := same 0%nat 1%nat in
          if b01 then same 1%nat 0%nat else Ok false
    | SET => Ok (bool_decide (_setName cs = _setName other))
    | SYNC =>
        if negb (length (_servers cs) =? length (_servers other))%nat then Ok false
        else Ok (forallb (fun h => existsb (host_eq h) (_servers other)) (_servers cs))
    | CUSTOM => Ok (bool_decide (_string cs = _string other))
    end.

Fixpoint count_char (c : byte) (s : list byte) : nat :=
  match s with [] => 0 | x :: r => (if Byte.eqb x c then 1 else 0) + count_char c r end.

(** [parse]: [INVALID] comes with a message. *)
Definition parse (h : list byte) : result ConnectionString :=
  match break_at "/" h with
  | Some (a :: a', b) => ConnectionString_of SET b (a :: a')
  | _ =>
      match count_char "," h with
      | 0%nat => let* hp := HostAndPort_string h in Ok (ConnectionString_host hp)
      | 1%nat => ConnectionString_of PAIR h []
      | 2%nat => ConnectionString_of SYNC h []
      | _ => Ok ConnectionString_invalid
      end
  end.

Definition typeToString (t : ConnectionType) : list byte :=
  match t with
  | INVALID => bstr "invalid"
  | MASTER => bstr "master"
  | PAIR => bstr "pair"
  | SET => bstr "set"
  | SYNC => bstr "sync"
  | CUSTOM => bstr "custom"
  end.

(** ** Splitting at a character *)

Lemma break_at_free delim a b :
  delim ∉ a -> break_at delim (a ++ delim :: b) = Some (a, b).
Proof.
  intros Ha. induction a as [|c a IH]; cbn [app break_at].
  - by rewrite byte_eqb_refl.
  - destruct (byte_eqb_spec c delim) as [->|]; [set_solver|]. rewrite IH by set_solver. done.
Qed.

Lemma break_at_none delim s : delim ∉ s -> break_at delim s = None.
Proof.
  intros Hs. induction s as [|c s IH]; [done|]. cbn [break_at].
  destruct (byte_eqb_spec c delim) as [->|]; [set_solver|]. by rewrite IH by set_solver.
Qed.

Lemma break_at_inv delim s :
  match break_at delim s with
  | Some (a, b) => s = a ++ delim :: b /\ (delim ∉ a)
  | None => delim ∉ s
  end.
Proof.
  induction s as [|c s IH]; cbn [break_at]; [set_solver|].
  destruct (byte_eqb_spec c delim) as [->|]; [split; [done | set_solver]|].
  destruct (break_at delim s) as [[a b]|]; [destruct IH as [-> ?]; split; [done|]|]; set_solver.
Qed.

Lemma break_last_free delim a b : delim ∉ b -> break_last delim (a ++ delim :: b) = Some (a, b).
Proof.
  intros Hb. induction a as [|c a IH]; cbn [app break_last]; [|by rewrite IH].
  assert (break_last delim b = None) as ->; [|by rewrite byte_eqb_refl].
  clear -Hb. induction b as [|c b IH]; [done|]. cbn [break_last]. rewrite IH by set_solver.
  destruct (byte_eqb_spec c delim) as [->|]; [set_solver | done].
Qed.

Lemma break_last_inv delim s :
  match break_last delim s with
  | Some (a, b) => s = a ++ delim :: b
  | None => delim ∉ s
  end.
Proof.
  induction s as [|c s IH]; cbn [break_last]; [set_solver|].
  destruct (break_last delim s) as [[a b]|]; [by rewrite IH|].
  destruct (byte_eqb_spec c delim) as [->|]; set_solver.
Qed.

Lemma split_from_joined delim ps fuel :
  Forall (fun p => delim ∉ p) ps -> ps <> [] -> (length (joinStringDelim ps delim) <= fuel)%nat ->
  split_from fuel delim (joinStringDelim ps delim) = ps.
Proof.
  revert fuel. induction ps as [|p ps IH]; intros fuel Hf Hne Hl; [done|].
  inversion Hf as [|? ? Hp Hps]; subst. destruct ps as [|q ps].
  - cbn [joinStringDelim] in *. destruct fuel; cbn [split_from]; [done|]. by rewrite break_at_none.
  - change (joinStringDelim (p :: q :: ps) delim) with (p ++ delim :: joinStringDelim (q :: ps) delim) in *.
    rewrite length_app in Hl. cbn [length] in Hl. destruct fuel as [|fuel]; [lia|].
    cbn [split_from]. rewrite break_at_free by done. f_equal. apply IH; [done | done | lia].
Qed.

Lemma split_from_pieces delim fuel s :
  (length s <= fuel)%nat ->
  Forall (fun p => (delim ∉ p) /\ (forall c, c ∈ p -> c ∈ s)) (split_from fuel delim s).
Proof.
  revert s. induction fuel as [|fuel IH]; intros s Hs; cbn [split_from].
  { destruct s; [|simpl in Hs; lia]. constructor; [set_solver | constructor]. }
  pose proof (break_at_inv delim s) as H. destruct (break_at delim s) as [[a b]|].
  - destruct H as [-> Ha]. rewrite length_app in Hs. simpl in Hs.
    constructor; [split; [done|]; intros; apply elem_of_app; by left|].
    eapply List.Forall_impl; [|apply IH; lia]. intros p [Hp Hc]. split; [done|].
    intros c Hcp. apply elem_of_app. right. right. by apply Hc.
  - constructor; [done | constructor].
Qed.

Lemma count_char_free c a : c ∉ a -> count_char c a = 0%nat.
Proof.
  induction a as [|x a IH]; intros H; [done|]. cbn [count_char].
  destruct (byte_eqb_spec x c) as [->|]; [set_solver | apply IH; set_solver].
Qed.

Lemma count_char_app c a b : count_char c (a ++ b) = (count_char c a + count_char c b)%nat.
Proof. induction a as [|x a IH]; [done|]. cbn [app count_char]. rewrite IH. lia. Qed.

Lemma count_char_zero c a : count_char c a = 0%nat -> c ∉ a.
Proof.
  induction a as [|x a IH]; cbn [count_char]; [set_solver|].
  destruct (byte_eqb_spec x c); [done | set_solver].
Qed.

Lemma split_from_length delim fuel s :
  (length s <= fuel)%nat -> length (split_from fuel delim s) = S (count_char delim s).
Proof.
  revert s. induction fuel as [|fuel IH]; intros s Hs; cbn [split_from].
  { destruct s; [done | simpl in Hs; lia]. }
  pose proof (break_at_inv delim s) as H. destruct (break_at delim s) as [[a b]|].
  - destruct H as [-> Ha]. rewrite length_app in Hs. simpl in Hs. cbn [length].
    rewrite IH, count_char_app, (count_char_free _ a) by (done || lia).
    cbn [count_char]. by rewrite byte_eqb_refl.
  - cbn [length]. by rewrite count_char_free.
Qed.

(** ** Addresses and their printed form *)

Lemma dec_free c n : is_digit c = false -> c <> "-"%byte -> c ∉ dec n.
Proof.
  intros Hc Hm Hin. unfold dec in Hin.
  assert (forall m, 0 <= m -> c ∉ dec_nonneg m) as Hf.
  { intros m Hmm Hx. destruct (dec_nonneg_spec m Hmm) as (Hs & _).
    rewrite forallb_forall in Hs. specialize (Hs c). rewrite list_elem_of_In in Hx. by rewrite Hs in Hc. }
  destruct (Z.ltb_spec n 0); [apply elem_of_cons in Hin as [->|Hin]; [done|]|];
    eapply Hf; [|done| |done]; lia.
Qed.

Lemma port_range h : 0 <= port h.
Proof. unfold port, hasPort, DefaultDBPort. destruct (Z.geb_spec (_port h) 0); lia. Qed.

Lemma toString_eq h : host_toString true h = host h ++ ":"%byte :: dec (port h).
Proof.
  unfold host_toString, host_append. pose proof (port_range h).
  by destruct (Z.eqb_spec (port h) (-1)); [lia|].
Qed.

Lemma atoi_dec n : in_s 32 n = true -> atoi (dec n) = Ok n.
Proof.
  intros Hn. unfold atoi. rewrite strtoll_dec; [cbn [conv_value]; by rewrite Hn|].
  apply in_s_spec in Hn. apply in_s_spec. lia.
Qed.

(** The address with its port written out. *)
Definition explicit (h : HostAndPort) : HostAndPort := MkHost (host h) (port h).

Lemma init_toString h : 0 < port h < 2 ^ 31 -> init (host_toString true h) = Ok (explicit h).
Proof.
  intros Hp. rewrite toString_eq. unfold init. rewrite bool_decide_true by (by destruct (host h)).
  cbn [massert bind]. rewrite break_last_free by (by apply dec_free).
  rewrite atoi_dec by (apply in_s_spec; lia). cbn [bind].
  by destruct (Z.gtb_spec (port h) 0); [|lia].
Qed.

(** Addresses are equal exactly when they print the same. *)
Lemma host_eq_toString a b : host_eq a b = true <-> host_toString true a = host_toString true b.
Proof.
  unfold host_eq. rewrite !toString_eq. split.
  - intros [H1%bool_decide_eq_true H2%Z.eqb_eq]%andb_prop. by rewrite H1, H2.
  - intros H. pose proof (break_last_free ":" (host a) (dec (port a)) ltac:(by apply dec_free)) as H1.
    rewrite H, break_last_free in H1 by (by apply dec_free). simplify_eq.
    rewrite bool_decide_true by done. apply Z.eqb_eq.
    pose proof (port_range a). pose proof (port_range b). unfold dec in *.
    destruct (Z.ltb_spec (port a) 0), (Z.ltb_spec (port b) 0); try lia.
    by apply dec_nonneg_inj.
Qed.

(** ** Equality and order of addresses *)

#[global] Instance host_equiv : Equiv HostAndPort := fun a b => host_eq a b = true.

Lemma host_equiv_spec (a b : HostAndPort) : a ≡ b <-> host a = host b /\ port a = port b.
Proof.
  unfold equiv, host_equiv, host_eq. rewrite andb_true_iff, bool_decide_eq_true, Z.eqb_eq. done.
Qed.

#[global] Instance host_equivalence : Equivalence (≡@{HostAndPort}).
Proof.
  split.
  - intros a. by apply host_equiv_spec.
  - intros a b [? ?]%host_equiv_spec. by apply host_equiv_spec.
  - intros a b c [? ?]%host_equiv_spec [? ?]%host_equiv_spec. apply host_equiv_spec. split; congruence.
Qed.

#[global] Instance host_equiv_dec : RelDecision (≡@{HostAndPort}).
Proof. intros a b. unfold equiv, host_equiv. apply _. Defined.

#[global] Instance host_toString_proper p : Proper ((≡) ==> (=)) (host_toString p).
Proof.
  intros a b Hab. destruct p; [by apply host_eq_toString|]. by apply host_equiv_spec in Hab as [? _].
Qed.

#[global] Instance host_eq_proper : Proper ((≡) ==> (≡) ==> (=)) host_eq.
Proof.
  intros a b [H1 H2]%host_equiv_spec c d [H3 H4]%host_equiv_spec.
  unfold host_eq. by rewrite H1, H2, H3, H4.
Qed.

#[global] Instance host_lt_proper : Proper ((≡) ==> (≡) ==> (=)) host_lt.
Proof.
  intros a b [H1 H2]%host_equiv_spec c d [H3 H4]%host_equiv_spec.
  unfold host_lt. by rewrite H1, H2, H3, H4.
Qed.

Lemma explicit_equiv h : explicit h ≡ h.
Proof.
  apply host_equiv_spec. split; [done|]. unfold explicit, port at 1, hasPort. simpl.
  pose proof (port_range h). by destruct (Z.geb_spec (port h) 0); [|lia].
Qed.

(** [operator<] is a strict total order of addresses up to [operator==]. *)
Lemma host_lt_order :
  (forall a, host_lt a a = false)
  /\ (forall a b c, host_lt a b = true -> host_lt b c = true -> host_lt a c = true)
  /\ (forall a b, host_lt a b = true \/ a ≡ b \/ host_lt b a = true).
Proof.
  assert (Hs : forall a b, host_lt a b = true <->
             lex_cmp (host a) (host b) < 0 \/ host a = host b /\ port a < port b).
  { intros a b. unfold host_lt. destruct (Z.ltb_spec (lex_cmp (host a) (host b)) 0); [intuition lia|].
    case_bool_decide; [rewrite Z.ltb_lt|]; intuition lia. }
  split_and!.
  - intros a. apply not_true_iff_false. rewrite Hs, lex_cmp_refl. lia.
  - intros a b c. rewrite !Hs. intros [H1|[H1 H1']] [H2|[H2 H2']].
    + left. pose proof (lex_cmp_trans (host a) (host b) (host c) ltac:(lia) ltac:(lia)).
      pose proof (lex_cmp_trans (host b) (host c) (host a)).
      pose proof (lex_cmp_antisym (host a) (host c)). pose proof (lex_cmp_antisym (host a) (host b)). lia.
    + left. by rewrite <- H2.
    + left. by rewrite H1.
    + right. split; [congruence | lia].
  - intros a b. rewrite !Hs, host_equiv_spec. pose proof (lex_cmp_antisym (host a) (host b)).
    destruct (Z.lt_trichotomy (lex_cmp (host a) (host b)) 0) as [?|[E|?]]; [by left; left | | by right; right; left; lia].
    apply lex_cmp_eq in E. destruct (Z.lt_trichotomy (port a) (port b)) as [?|[?|?]]; [left; by right | | ].
    + right. left. done.
    + right. right. right. by split.
Qed.

(** ** Connection strings read back *)

Lemma c_str_chars s c : c ∈ c_str s -> c ∈ s /\ c <> x00.
Proof.
  unfold c_str. induction s as [|x s IH]; cbn [until_nul]; [set_solver|].
  destruct (byte_eqb_spec x x00) as [->|]; [set_solver|].
  destruct (until_nul s); set_solver.
Qed.

Lemma c_str_free s : x00 ∉ s -> c_str s = s.
Proof.
  intros H. apply c_str_no_nul. unfold no_nul. apply forallb_forall. intros c Hc%list_elem_of_In.
  destruct (byte_eqb_spec c x00) as [->|]; done.
Qed.

Lemma starts_dollar_c_str s : starts_dollar (c_str s) = starts_dollar s.
Proof.
  unfold c_str. destruct s as [|c s]; [done|]. cbn [until_nul].
  destruct (byte_eqb_spec c x00) as [->|]; [done|]. by destruct (until_nul s).
Qed.

(** What a parsed address is made of. *)
Lemma HostAndPort_string_inv s h :
  HostAndPort_string s = Ok h ->
  0 < port h < 2 ^ 31
  /\ (forall c, c ∈ host h -> c ∈ s /\ c <> x00)
  /\ head (host_toString true h) = head (c_str s).
Proof.
  unfold HostAndPort_string, init. intros H. inv_bind. rewrite toString_eq.
  assert (forall c, c ∈ c_str s -> c ∈ s /\ c <> x00) as Hc by apply c_str_chars.
  pose proof (break_last_inv ":" (c_str s)) as Hb.
  destruct (break_last ":" (c_str s)) as [[a0 b]|].
  - rewrite Hb in Hc |- *. inv_bind. unfold atoi in Ha0.
    assert (in_s 32 a1 = true) as Hr%in_s_spec by (repeat case_match; by simplify_eq).
    unfold uassert in Ha1. destruct (Z.gtb_spec a1 0); [|done].
    assert (port (MkHost a0 a1) = a1) as ->
      by (unfold port, hasPort; simpl; by destruct (Z.geb_spec a1 0); [|lia]).
    split_and!; [lia | lia | | by destruct a0].
    intros c Hin. apply Hc. simpl in Hin. set_solver.
  - simplify_eq. split_and!; [done | done | by intros c Hin; apply Hc |].
    unfold massert in Ha. case_bool_decide; [|done]. simpl. by destruct (c_str s).
Qed.

Lemma string_toString h :
  0 < port h < 2 ^ 31 -> x00 ∉ host h ->
  HostAndPort_string (host_toString true h) = Ok (explicit h).
Proof.
  intros Hp Hn. unfold HostAndPort_string. rewrite c_str_free; [by apply init_toString|].
  rewrite toString_eq. intros Hin. apply elem_of_app in Hin as [?|Hin]; [done|].
  apply elem_of_cons in Hin as [?|Hin]; [done|]. revert Hin. by apply dec_free.
Qed.

Lemma to_hosts_inv ps hs :
  to_hosts ps = Ok hs ->
  Forall2 (fun p h => 0 < port h < 2 ^ 31 /\ (forall c, c ∈ host h -> c ∈ p /\ c <> x00)
             /\ starts_dollar (host_toString true h) = starts_dollar p) ps hs.
Proof.
  revert hs. induction ps as [|p ps IH]; intros hs H; simpl in H; inv_bind; constructor; [|by apply IH].
  apply HostAndPort_string_inv in Ha as (? & ? & Hh). split; [done|]. split; [done|].
  rewrite <- (starts_dollar_c_str p). unfold starts_dollar. by rewrite Hh.
Qed.

Lemma to_hosts_toString hs :
  Forall (fun h => 0 < port h < 2 ^ 31 /\ x00 ∉ host h) hs ->
  to_hosts (map (host_toString true) hs) = Ok (map explicit hs).
Proof.
  induction 1 as [|h hs [Hp Hn] _ IH]; [done|]. cbn [map to_hosts]. rewrite string_toString by done.
  cbn [bind]. by rewrite IH.
Qed.

Lemma toString_explicit hs : map (host_toString true) (map explicit hs) = map (host_toString true) hs.
Proof.
  rewrite map_map. apply map_ext. intros h. by rewrite explicit_equiv.
Qed.

Lemma join_chars delim ps c :
  c ∈ joinStringDelim ps delim -> c = delim \/ exists p, p ∈ ps /\ c ∈ p.
Proof.
  induction ps as [|p ps IH]; cbn [joinStringDelim]; [set_solver|]. intros H.
  destruct ps as [|q ps]; [right; exists p; set_solver|].
  apply elem_of_app in H as [H|H]; [right; exists p; set_solver|].
  apply elem_of_cons in H as [->|H]; [by left|].
  destruct (IH H) as [?|(x & ? & ?)]; [by left|]. right. exists x. set_solver.
Qed.

Lemma starts_dollar_join ps delim :
  delim <> "$"%byte -> starts_dollar (joinStringDelim ps delim) = starts_dollar (default [] (head ps)).
Proof.
  intros Hd. destruct ps as [|p [|q ps]]; [done | done |].
  cbn [joinStringDelim head default]. destruct p; [|done].
  unfold starts_dollar. simpl. apply bool_decide_eq_false. by intros [= ->].
Qed.

(** Splitting a joined list of addresses, and what is kept of the string it was
    parsed from. *)
Lemma hosts_roundtrip s hs :
  to_hosts (split_from (length s) "," s) = Ok hs ->
  let s' := join_hosts hs in
  to_hosts (split_from (length s') "," s') = Ok (map explicit hs)
  /\ starts_dollar s' = starts_dollar s
  /\ count_char "," s' = count_char "," s
  /\ length hs = S (count_char "," s)
  /\ ("/"%byte ∉ s -> "/"%byte ∉ s').
Proof.
  intros H s'. pose proof (split_from_pieces "," _ s (Nat.le_refl _)) as Hp.
  pose proof (split_from_length "," _ s (Nat.le_refl _)) as Hlen.
  pose proof (split_from_join "," _ s (Nat.le_refl _)) as [Hne Hj].
  pose proof (starts_dollar_join (split_from (length s) "," s) "," ltac:(done)) as Hd. rewrite Hj in Hd.
  apply to_hosts_inv in H. revert Hp Hlen Hne Hd H. generalize (split_from (length s) "," s) as ps.
  intros ps Hp Hlen Hne Hd H. clear Hj.
  assert (length ps = length hs) as El by (by eapply Forall2_length).
  assert (Forall (fun h => 0 < port h < 2 ^ 31 /\ x00 ∉ host h) hs) as Hok.
  { eapply Forall2_Forall_r; [exact H|]. apply Forall_true. clear. naive_solver. }
  assert (Forall (fun p => ","%byte ∉ p) (map (host_toString true) hs)) as Hfree.
  { clear -H Hp. induction H as [|p h ps hs (_ & Hc & _) _ IH]; [constructor|].
    inversion Hp as [|? ? [Hpc _] Hps]; subst. constructor; [|by apply IH].
    rewrite toString_eq. intros Hin. apply elem_of_app in Hin as [?%Hc|Hin]; [naive_solver|].
    apply elem_of_cons in Hin as [?|Hin]; [done|]. revert Hin. by apply dec_free. }
  assert (map (host_toString true) hs <> []) as Hne' by (destruct ps, hs; done).
  assert (split_from (length s') "," s' = map (host_toString true) hs) as Hs'
    by (by apply split_from_joined).
  pose proof (split_from_length "," _ s' (Nat.le_refl _)) as Hl'.
  rewrite Hs' in *. split_and!.
  - by apply to_hosts_toString.
  - subst s'. unfold join_hosts. rewrite starts_dollar_join, Hd by done.
    destruct H as [|p h ps hs (_ & _ & Hc) _]; [done|]. exact Hc.
  - rewrite length_map in Hl'. lia.
  - lia.
  - intros Hsl Hin. apply join_chars in Hin as [?|(x & Hx & Hin)]; [done|].
    apply list_elem_of_fmap in Hx as (h & -> & Hh).
    apply list_elem_of_lookup in Hh as [i Hi].
    destruct (Forall2_lookup_r _ _ _ _ _ H Hi) as (p & Hpi & _ & Hc & _).
    rewrite toString_eq in Hin. apply elem_of_app in Hin as [Hin|Hin].
    + destruct (Hc _ Hin) as [Hin' _]. destruct (Forall_lookup_1 _ _ _ _ Hp Hpi) as [_ Hsub].
      by apply Hsl, Hsub.
    + apply elem_of_cons in Hin as [?|Hin]; [done|]. revert Hin. by apply dec_free.
Qed.

Definition conn_explicit (cs : ConnectionString) : ConnectionString :=
  MkConn (_type cs) (map explicit (_servers cs)) (_string cs) (_setName cs).

Lemma join_explicit hs : join_hosts (map explicit hs) = join_hosts hs.
Proof. unfold join_hosts. by rewrite toString_explicit. Qed.

(** The constructor on a string without a set name. *)
Lemma of_roundtrip ty s n cs :
  ty = SET \/ ty = PAIR \/ ty = SYNC -> "/"%byte ∉ s ->
  ConnectionString_of ty s n = Ok cs -> _type cs <> CUSTOM ->
  exists hs, to_hosts (split_from (length s) "," s) = Ok hs
    /\ cs = MkConn ty hs ((if bool_decide (ty = SET) then n ++ bstr "/" else []) ++ join_hosts hs) n
    /\ ConnectionString_of ty (join_hosts hs) n = Ok (conn_explicit cs).
Proof.
  intros Hty Hs H Hc. unfold ConnectionString_of, _fillServers in H. cbn [_type _servers _string _setName] in H.
  rewrite break_at_none in H by done.
  destruct (to_hosts (split_from (length s) "," s)) as [hs|e] eqn:E; [|done].
  cbn [bind] in H. exists hs. split; [done|].
  destruct (hosts_roundtrip _ _ E) as (Hh & Hd & _ & _ & Hsl).
  destruct (starts_dollar s) eqn:Ed.
  { cbn [_type _servers _setName app] in H. destruct (verify _); [|done]. cbn [bind] in H.
    simplify_eq. }
  assert (cs = _finishInit (MkConn ty hs [] n)) as ->.
  { clear -H. cbn [app] in H. inv_bind; done. }
  assert (_finishInit (MkConn ty hs [] n)
          = MkConn ty hs ((if bool_decide (ty = SET) then n ++ bstr "/" else []) ++ join_hosts hs) n) as Ef.
  { unfold _finishInit. cbn [_type _servers _setName]. by destruct Hty as [->|[->| ->]]. }
  split; [done|]. unfold ConnectionString_of, _fillServers. cbn [_type _servers _string _setName].
  rewrite break_at_none, Hh, Hd by auto. cbn [bind app _type _servers _setName].
  cbn [bind app _type _servers _setName] in H. rewrite length_map.
  destruct (match ty with MASTER => _ | PAIR => _ | SET => _ | _ => _ end); [|done].
  cbn [bind]. f_equal. rewrite Ef. unfold _finishInit, conn_explicit.
  cbn [_type _servers _setName _string]. rewrite join_explicit. by destruct Hty as [->|[->| ->]].
Qed.

Lemma host_eq_explicit h : host_eq h (explicit h) = true.
Proof. change (h ≡ explicit h). symmetry. apply explicit_equiv. Qed.

Lemma same_explicit cs :
  (_type cs = MASTER -> (1 <= length (_servers cs))%nat) ->
  (_type cs = PAIR -> (2 <= length (_servers cs))%nat) ->
  sameLogicalEndpoint cs (conn_explicit cs) = Ok true.
Proof.
  intros Hm Hp. unfold sameLogicalEndpoint, conn_explicit, server. cbn [_type _servers _setName _string].
  rewrite bool_decide_true by done. cbn [negb].
  destruct (_type cs).
  - done.
  - specialize (Hm eq_refl). destruct (_servers cs) as [|h hs]; [simpl in Hm; lia|].
    simpl. by rewrite host_eq_explicit.
  - specialize (Hp eq_refl). destruct (_servers cs) as [|h [|k hs]]; [simpl in Hp; lia..|].
    simpl. rewrite host_eq_explicit. simpl. by rewrite host_eq_explicit.
  - by rewrite bool_decide_true.
  - rewrite length_map, Nat.eqb_refl. cbn [negb]. f_equal. apply forallb_forall. intros h Hh.
    apply existsb_exists. exists (explicit h). split; [by apply in_map | apply host_eq_explicit].
  - by rewrite bool_decide_true.
Qed.

Lemma of_SET_empty ty s cs :
  ty = PAIR \/ ty = SYNC -> head s = Some "/"%byte -> ConnectionString_of ty s [] = Ok cs -> False.
Proof.
  intros Hty Hs H. destruct s as [|c s]; [done|]. simplify_eq/=.
  unfold ConnectionString_of, _fillServers in H. cbn [break_at _type] in H.
  rewrite byte_eqb_refl in H. change (starts_dollar ("/"%byte :: s)) with false in H.
  destruct Hty as [-> | ->]; cbn [bool_decide] in H; inv_bind; simplify_eq/=; done.
Qed.

Lemma break_at_head c s : head s = Some c -> exists b, break_at c s = Some ([], b).
Proof.
  destruct s as [|x s]; [done|]. intros [= ->]. exists s. cbn [break_at]. by rewrite byte_eqb_refl.
Qed.

Lemma host_roundtrip s h cs :
  "/"%byte ∉ s \/ head s = Some "/"%byte -> count_char "," s = 0%nat ->
  HostAndPort_string s = Ok h -> cs = ConnectionString_host h -> _type cs <> CUSTOM ->
  parse (conn_toString cs) = Ok (conn_explicit cs) /\ sameLogicalEndpoint cs (conn_explicit cs) = Ok true.
Proof.
  intros Hs Hn Hh -> Hc. destruct (HostAndPort_string_inv _ _ Hh) as (Hp & Hchars & Hhead).
  unfold ConnectionString_host, _finishInit in *. cbn [_type _servers _setName] in *.
  destruct (starts_dollar (host h)) eqn:Ed; [done|].
  split; [|apply same_explicit; simpl; [lia | done]].
  change (conn_toString _) with (host_toString true h).
  assert (count_char "," (host_toString true h) = 0%nat) as Hn'.
  { rewrite toString_eq. apply count_char_free. intros Hin. apply elem_of_app in Hin as [Hin|Hin].
    - apply Hchars in Hin as [Hin _]. by apply count_char_zero in Hn.
    - apply elem_of_cons in Hin as [?|Hin]; [done|]. revert Hin. by apply dec_free. }
  assert (parse (host_toString true h)
          = let* hp := HostAndPort_string (host_toString true h) in Ok (ConnectionString_host hp)) as ->.
  { unfold parse. rewrite Hn'. destruct Hs as [Hs|Hs].
    - rewrite break_at_none; [done|]. rewrite toString_eq. intros Hin.
      apply elem_of_app in Hin as [Hin|Hin]; [by apply Hchars in Hin as [Hin _]|].
      apply elem_of_cons in Hin as [?|Hin]; [done|]. revert Hin. by apply dec_free.
    - destruct s as [|c s]; [done|]. injection Hs as ->.
      assert (head (c_str ("/"%byte :: s)) = Some "/"%byte) as Hc'
        by (unfold c_str; cbn [until_nul]; by destruct (until_nul s)).
      rewrite Hc' in Hhead. by destruct (break_at_head _ _ Hhead) as [b ->]. }
  rewrite string_toString by (done || (intros Hin; by apply Hchars in Hin as [_ ?])).
  cbn [bind]. unfold ConnectionString_host, _finishInit, conn_explicit.
  cbn [_type _servers _setName _string map]. change (host (explicit h)) with (host h). rewrite Ed.
  unfold join_hosts. cbn [map joinStringDelim].
  by rewrite (host_toString_proper true _ _ (explicit_equiv h)).
Qed.

(** C39: A connection string printed and parsed again: the parser reads what it
    printed, and the result has the same type and set name and the same servers
    with their ports written out; so printing and parsing once more changes
    nothing, and the two name the same endpoint.  Strings for custom connections
    and sets with a slash among their servers are excepted. *)
Theorem parse_toString s cs :
  parse s = Ok cs -> _type cs <> INVALID -> _type cs <> CUSTOM ->
  (_type cs = SET -> count_char "/" s = 1%nat) ->
  parse (conn_toString cs) = Ok (conn_explicit cs)
  /\ sameLogicalEndpoint cs (conn_explicit cs) = Ok true.
Proof.
  intros H Hi Hc Hs. unfold parse in H. pose proof (break_at_inv "/" s) as Hb.
  destruct (break_at "/" s) as [[[|a a'] b]|].
  - (* a slash at the start *)
    destruct Hb as [Es _]. assert (head s = Some "/"%byte) as Hh by (by rewrite Es). clear Es.
    destruct (count_char "," s) as [|[|[|k]]] eqn:En; [| | |by simplify_eq].
    + inv_bind. by apply (host_roundtrip s _ _ (or_intror Hh) En Ha).
    + exfalso. eapply (of_SET_empty PAIR); eauto.
    + exfalso. eapply (of_SET_empty SYNC); eauto.
  - (* a set name *)
    destruct Hb as [Es Hn].
    assert (_type cs = SET) as Hset.
    { unfold ConnectionString_of, _fillServers in H. destruct (starts_dollar b) eqn:Ed.
      - exfalso. apply Hc. destruct (break_at "/" b) as [[n r]|]; inv_bind; by simplify_eq/=.
      - destruct (break_at "/" b) as [[n r]|]; inv_bind; by simplify_eq/=. }
    specialize (Hs Hset). rewrite Es, count_char_app in Hs. cbn [count_char] in Hs.
    rewrite byte_eqb_refl in Hs.
    assert ("/"%byte ∉ b) as Hb by (apply count_char_zero; lia).
    destruct (of_roundtrip SET _ _ _ (or_introl eq_refl) Hb H Hc) as (hs & Hh & Ecs & Hof).
    split; [|apply same_explicit; rewrite Hset; done].
    rewrite <- Hof, Ecs. unfold conn_toString, parse. cbn [_string].
    change (if bool_decide (SET = SET) then (a :: a') ++ bstr "/" else []) with ((a :: a') ++ bstr "/").
    rewrite <- app_assoc. change (bstr "/" ++ join_hosts hs) with ("/"%byte :: join_hosts hs).
    by rewrite break_at_free.
  - assert (forall ty, ty = PAIR \/ ty = SYNC -> ConnectionString_of ty s [] = Ok cs ->
      count_char "," s = (if bool_decide (ty = PAIR) then 1 else 2)%nat ->
      parse (conn_toString cs) = Ok (conn_explicit cs)
      /\ sameLogicalEndpoint cs (conn_explicit cs) = Ok true) as Hof.
    { intros ty Hty Hof Hn.
      destruct (of_roundtrip ty _ _ _ (or_intror Hty) Hb Hof Hc) as (hs & Hh & Ecs & Hof').
      destruct (hosts_roundtrip _ _ Hh) as (_ & _ & Hcm & Hl & Hsl).
      split; [|apply same_explicit; rewrite Ecs; cbn [_type _servers]; [by destruct Hty as [-> | ->]|]].
      - assert (conn_toString cs = join_hosts hs) as -> by (rewrite Ecs; by destruct Hty as [-> | ->]).
        unfold parse. rewrite break_at_none, Hcm, Hn by auto. by destruct Hty as [-> | ->].
      - intros ->. rewrite Hl, Hn, bool_decide_true by done. lia. }
    destruct (count_char "," s) as [|[|[|k]]] eqn:En; [| | |by simplify_eq].
    + inv_bind. by apply (host_roundtrip s _ _ (or_introl Hb) En Ha).
    + by apply (Hof PAIR); [left | |].
    + by apply (Hof SYNC); [right | |].
Qed.

Lemma parse_toString_witness : exists cs,
  parse (bstr "rs0/db1,db2:27018") = Ok cs
  /\ conn_toString cs = bstr "rs0/db1:27017,db2:27018"
  /\ parse (conn_toString cs) = Ok (conn_explicit cs).
Proof.
  destruct (parse (bstr "rs0/db1,db2:27018")) as [cs|e] eqn:E; [|discriminate].
  exists cs. assert (Hc : _type cs = SET /\ conn_toString cs = bstr "rs0/db1:27017,db2:27018")
    by (vm_compute in E; injection E as <-; split; reflexivity).
  destruct Hc as [Ht Hs]. split; [reflexivity|]. split; [exact Hs|].
  apply (parse_toString _ cs E); [by rewrite Ht | by rewrite Ht |]. intros _. reflexivity.
Defined.

(** The excepted strings: the part up to the second slash replaces the set name. *)
Example two_slashes :
  result_map _setName (parse (bstr "a/b/c")) = Ok (bstr "b")
  /\ result_map conn_toString (parse (bstr "a/b/c")) = Ok (bstr "b/c:27017").
Proof. by vm_compute. Qed.

(** [sameLogicalEndpoint] of two lists of three servers only looks for the
    servers of one in the other, so it is not symmetric. *)
Example sync_not_symmetric :
  exists x y, parse (bstr "a,a,b") = Ok x /\ parse (bstr "a,b,c") = Ok y
    /\ sameLogicalEndpoint x y = Ok true /\ sameLogicalEndpoint y x = Ok false.
Proof. do 2 eexists. by vm_compute. Qed.

(** A port is any positive [int]. *)
Example port_unchecked : result_map port (HostAndPort_string (bstr "h:99999x")) = Ok 99999.
Proof. by vm_compute. Qed.
