(* ===== verification/Md5.v ===== *)
(** * Md5: the MD5 digest (util/md5.h, util/md5.cpp, util/md5.hpp)

    The state is the two words of the length in bits, the four registers and
    the block being filled.  A message is given in pieces, each a list of
    bytes; a register is a 32-bit word.  The words of a block are read as on a
    little-endian machine; the branch for big-endian machines computes the same
    words. *)

From stdpp Require Import base list numbers strings option tactics.
From Stdlib Require Import Strings.Byte ZArith Lia.
From S2P Require Import Prelude Decimal Codec.

Module Md5.

(** ** The constants *)

Definition T_MASK : Z := 0xffffffff.
Definition T1 : Z := Z.lxor T_MASK 0x28955b87.
Definition T2 : Z := Z.lxor T_MASK 0x173848a9.
Definition T3 : Z := 0x242070db.
Definition T4 : Z := Z.lxor T_MASK 0x3e423111.
Definition T5 : Z := Z.lxor T_MASK 0x0a83f050.
Definition T6 : Z := 0x4787c62a.
Definition T7 : Z := Z.lxor T_MASK 0x57cfb9ec.
Definition T8 : Z := Z.lxor T_MASK 0x02b96afe.
Definition T9 : Z := 0x698098d8.
Definition T10 : Z := Z.lxor T_MASK 0x74bb0850.
Definition T11 : Z := Z.lxor T_MASK 0x0000a44e.
Definition T12 : Z := Z.lxor T_MASK 0x76a32841.
Definition T13 : Z := 0x6b901122.
Definition T14 : Z := Z.lxor T_MASK 0x02678e6c.
Definition T15 : Z := Z.lxor T_MASK 0x5986bc71.
Definition T16 : Z := 0x49b40821.
Definition T17 : Z := Z.lxor T_MASK 0x09e1da9d.
Definition T18 : Z := Z.lxor T_MASK 0x3fbf4cbf.
Definition T19 : Z := 0x265e5a51.
Definition T20 : Z := Z.lxor T_MASK 0x16493855.
Definition T21 : Z := Z.lxor T_MASK 0x29d0efa2.
Definition T22 : Z := 0x02441453.
Definition T23 : Z := Z.lxor T_MASK 0x275e197e.
Definition T24 : Z := Z.lxor T_MASK 0x182c0437.
Definition T25 : Z := 0x21e1cde6.
Definition T26 : Z := Z.lxor T_MASK 0x3cc8f829.
Definition T27 : Z := Z.lxor T_MASK 0x0b2af278.
Definition T28 : Z := 0x455a14ed.
Definition T29 : Z := Z.lxor T_MASK 0x561c16fa.
Definition T30 : Z := Z.lxor T_MASK 0x03105c07.
Definition T31 : Z := 0x676f02d9.
Definition T32 : Z := Z.lxor T_MASK 0x72d5b375.
Definition T33 : Z := Z.lxor T_MASK 0x0005c6bd.
Definition T34 : Z := Z.lxor T_MASK 0x788e097e.
Definition T35 : Z := 0x6d9d6122.
Definition T36 : Z := Z.lxor T_MASK 0x021ac7f3.
Definition T37 : Z := Z.lxor T_MASK 0x5b4115bb.
Definition T38 : Z := 0x4bdecfa9.
Definition T39 : Z := Z.lxor T_MASK 0x0944b49f.
Definition T40 : Z := Z.lxor T_MASK 0x4140438f.
Definition T41 : Z := 0x289b7ec6.
Definition T42 : Z := Z.lxor T_MASK 0x155ed805.
Definition T43 : Z := Z.lxor T_MASK 0x2b10cf7a.
Definition T44 : Z := 0x04881d05.
Definition T45 : Z := Z.lxor T_MASK 0x262b2fc6.
Definition T46 : Z := Z.lxor T_MASK 0x1924661a.
Definition T47 : Z := 0x1fa27cf8.
Definition T48 : Z := Z.lxor T_MASK 0x3b53a99a.
Definition T49 : Z := Z.lxor T_MASK 0x0bd6ddbb.
Definition T50 : Z := 0x432aff97.
Definition T51 : Z := Z.lxor T_MASK 0x546bdc58.
Definition T52 : Z := Z.lxor T_MASK 0x036c5fc6.
Definition T53 : Z := 0x655b59c3.
Definition T54 : Z := Z.lxor T_MASK 0x70f3336d.
Definition T55 : Z := Z.lxor T_MASK 0x00100b82.
Definition T56 : Z := Z.lxor T_MASK 0x7a7ba22e.
Definition T57 : Z := 0x6fa87e4f.
Definition T58 : Z := Z.lxor T_MASK 0x01d3191f.
Definition T59 : Z := Z.lxor T_MASK 0x5cfebceb.
Definition T60 : Z := 0x4e0811a1.
Definition T61 : Z := Z.lxor T_MASK 0x08ac817d.
Definition T62 : Z := Z.lxor T_MASK 0x42c50dca.
Definition T63 : Z := 0x2ad7d2bb.
Definition T64 : Z := Z.lxor T_MASK 0x14792c6e.

(** ** A block *)

Record regs := Regs { ra : Z; rb : Z; rc : Z; rd : Z }.
Inductive reg := RA | RB | RC | RD.

Definition get (x : reg) (r : regs) : Z :=
  match x with RA => ra r | RB => rb r | RC => rc r | RD => rd r end.
Definition put (x : reg) (v : Z) (r : regs) : regs :=
  match x with
  | RA => Regs v (rb r) (rc r) (rd r)
  | RB => Regs (ra r) v (rc r) (rd r)
  | RC => Regs (ra r) (rb r) v (rd r)
  | RD => Regs (ra r) (rb r) (rc r) v
  end.

Definition not32 (x : Z) : Z := u32 (Z.lnot x).
Definition ROTATE_LEFT (x n : Z) : Z := Z.lor (u32 (Z.shiftl x n)) (Z.shiftr x (32 - n)).
Definition F (x y z : Z) : Z := Z.lor (Z.land x y) (Z.land (not32 x) z).
Definition G (x y z : Z) : Z := Z.lor (Z.land x z) (Z.land y (not32 z)).
Definition H (x y z : Z) : Z := Z.lxor (Z.lxor x y) z.
Definition I (x y z : Z) : Z := Z.lxor y (Z.lor x (not32 z)).

(** [X[k]]. *)
Definition word (data : list byte) (k : Z) : Z := le_val (take 4 (drop (Z.to_nat (4 * k)) data)).

(** The macro [SET] of each round. *)
Definition SET_with (f : Z -> Z -> Z -> Z) (data : list byte) (a b c d : reg) (k s Ti : Z) (r : regs) : regs :=
  let t := u32 (get a r + f (get b r) (get c r) (get d r) + word data k + Ti) in
  put a (u32 (ROTATE_LEFT t s + get b r)) r.

Definition round1 (data : list byte) : list (regs -> regs) :=
  let SET := SET_with F data in
  [SET RA RB RC RD 0 7 T1; SET RD RA RB RC 1 12 T2;
   SET RC RD RA RB 2 17 T3; SET RB RC RD RA 3 22 T4;
   SET RA RB RC RD 4 7 T5; SET RD RA RB RC 5 12 T6;
   SET RC RD RA RB 6 17 T7; SET RB RC RD RA 7 22 T8;
   SET RA RB RC RD 8 7 T9; SET RD RA RB RC 9 12 T10;
   SET RC RD RA RB 10 17 T11; SET RB RC RD RA 11 22 T12;
   SET RA RB RC RD 12 7 T13; SET RD RA RB RC 13 12 T14;
   SET RC RD RA RB 14 17 T15; SET RB RC RD RA 15 22 T16].

Definition round2 (data : list byte) : list (regs -> regs) :=
  let SET := SET_with G data in
  [SET RA RB RC RD 1 5 T17; SET RD RA RB RC 6 9 T18;
   SET RC RD RA RB 11 14 T19; SET RB RC RD RA 0 20 T20;
   SET RA RB RC RD 5 5 T21; SET RD RA RB RC 10 9 T22;
   SET RC RD RA RB 15 14 T23; SET RB RC RD RA 4 20 T24;
   SET RA RB RC RD 9 5 T25; SET RD RA RB RC 14 9 T26;
   SET RC RD RA RB 3 14 T27; SET RB RC RD RA 8 20 T28;
   SET RA RB RC RD 13 5 T29; SET RD RA RB RC 2 9 T30;
   SET RC RD RA RB 7 14 T31; SET RB RC RD RA 12 20 T32].

Definition round3 (data : list byte) : list (regs -> regs) :=
  let SET := SET_with H data in
  [SET RA RB RC RD 5 4 T33; SET RD RA RB RC 8 11 T34;
   SET RC RD RA RB 11 16 T35; SET RB RC RD RA 14 23 T36;
   SET RA RB RC RD 1 4 T37; SET RD RA RB RC 4 11 T38;
   SET RC RD RA RB 7 16 T39; SET RB RC RD RA 10 23 T40;
   SET RA RB RC RD 13 4 T41; SET RD RA RB RC 0 11 T42;
   SET RC RD RA RB 3 16 T43; SET RB RC RD RA 6 23 T44;
   SET RA RB RC RD 9 4 T45; SET RD RA RB RC 12 11 T46;
   SET RC RD RA RB 15 16 T47; SET RB RC RD RA 2 23 T48].

Definition round4 (data : list byte) : list (regs -> regs) :=
  let SET := SET_with I data in
  [SET RA RB RC RD 0 6 T49; SET RD RA RB RC 7 10 T50;
   SET RC RD RA RB 14 15 T51; SET RB RC RD RA 5 21 T52;
   SET RA RB RC RD 12 6 T53; SET RD RA RB RC 3 10 T54;
   SET RC RD RA RB 10 15 T55; SET RB RC RD RA 1 21 T56;
   SET RA RB RC RD 8 6 T57; SET RD RA RB RC 15 10 T58;
   SET RC RD RA RB 6 15 T59; SET RB RC RD RA 13 21 T60;
   SET RA RB RC RD 4 6 T61; SET RD RA RB RC 11 10 T62;
   SET RC RD RA RB 2 15 T63; SET RB RC RD RA 9 21 T64].

Definition run (steps : list (regs -> regs)) (r : regs) : regs := fold_left (fun r step => step r) steps r.

Definition add_regs (r s : regs) : regs :=
  Regs (u32 (ra r + ra s)) (u32 (rb r + rb s)) (u32 (rc r + rc s)) (u32 (rd r + rd s)).

(** The registers that [md5_process] leaves; [data] is the 64 bytes it reads. *)
Definition md5_process (abcd : regs) (data : list byte) : regs :=
  add_regs abcd (run (round1 data ++ round2 data ++ round3 data ++ round4 data) abcd).

(** ** The message *)

Record md5_state := MkState { count0 : Z; count1 : Z; abcd : regs; buf : list byte }.

(** [md5_init] leaves the block as it is. *)
Definition md5_init (pms : md5_state) : md5_state :=
  MkState 0 0 (Regs 0x67452301 (Z.lxor T_MASK 0x10325476) (Z.lxor T_MASK 0x67452301) 0x10325476) (buf pms).

(** [memcpy(pms->buf + offset, p, n)]: the bytes [p] into the block. *)
Definition copy_into (b : list byte) (offset : Z) (p : list byte) : list byte :=
  take (Z.to_nat offset) b ++ p ++ drop (Z.to_nat offset + length p) b.

(** The loop over full blocks: the registers and the bytes left. *)
Fixpoint process_blocks (fuel : nat) (r : regs) (p : list byte) : regs * list byte :=
  match fuel with
  | O => (r, p)
  | S fuel' => if 64 <=? zlen p then process_blocks fuel' (md5_process r (take 64 p)) (drop 64 p) else (r, p)
  end.

Definition full_blocks (count0 count1 : Z) (r : regs) (b p : list byte) : md5_state :=
  let '(r', left_) := process_blocks (length p) r p in
  MkState count0 count1 r' (match left_ with [] => b | _ => copy_into b 0 left_ end).

Definition md5_append (pms : md5_state) (data : list byte) : result md5_state :=
  let nbytes := zlen data in
  let offset := Z.land (Z.shiftr (count0 pms) 3) 63 in
  if negb (in_s 32 (Z.shiftl nbytes 3)) then Err UndefinedBehaviour
  else
    let nbits := u32 (Z.shiftl nbytes 3) in
    if nbytes <=? 0 then Ok pms
    else
      let c1 := u32 (count1 pms + Z.shiftr nbytes 29) in
      let c0 := u32 (count0 pms + nbits) in
      let c1 := if c0 <? nbits then u32 (c1 + 1) else c1 in
      if offset =? 0 then Ok (full_blocks c0 c1 (abcd pms) (buf pms) data)
      else
        let copy := if 64 <? offset + nbytes then 64 - offset else nbytes in
        let b := copy_into (buf pms) offset (take (Z.to_nat copy) data) in
        if offset + copy <? 64 then Ok (MkState c0 c1 (abcd pms) b)
        else Ok (full_blocks c0 c1 (md5_process (abcd pms) b) b (drop (Z.to_nat copy) data)).

(** [(md5_byte_t)(w >> ((i & 3) << 3))] for the four values of [i & 3]. *)
Definition word_bytes (w : Z) : list byte :=
  map (fun i => zb (Z.shiftr w (Z.shiftl i 3))) [0; 1; 2; 3].

Definition pad : list byte := x80 :: repeat x00 63.

Definition md5_finish (pms : md5_state) : result (list byte) :=
  let data := word_bytes (count0 pms) ++ word_bytes (count1 pms) in
  let n := Z.land (u32 (55 - Z.shiftr (count0 pms) 3)) 63 + 1 in
  let* pms := md5_append pms (take (Z.to_nat n) pad) in
  let* pms := md5_append pms data in
  let r := abcd pms in
  Ok (word_bytes (ra r) ++ word_bytes (rb r) ++ word_bytes (rc r) ++ word_bytes (rd r)).

(** ** The functions of util/md5.hpp *)

(** [md5(buf, nbytes, digest)] with a state on the stack. *)
Definition md5 (st : md5_state) (data : list byte) : result (list byte) :=
  let* st := md5_append (md5_init st) data in
  md5_finish st.

Definition digestToString (digest : list byte) : list byte :=
  flat_map (fun c => [nth (Z.to_nat (Z.land (Z.shiftr (bz c) 4) 0xf)) (bstr "0123456789abcdef") x00;
                      nth (Z.to_nat (Z.land (bz c) 0xf)) (bstr "0123456789abcdef") x00]) digest.

Definition md5simpledigest (st : md5_state) (data : list byte) : result (list byte) :=
  let* d := md5 st data in Ok (digestToString d).

End Md5.
