(* ===== verification/BsonTypes.v ===== *)
(** * BsonTypes: the BSON type codes (bson/bsontypes.h)

    The enumeration [BSONType], the number each type sorts under
    ([canonicalizeBSONType]) and its name ([typeName], db/jsobj.cpp). *)

From stdpp Require Import base list numbers strings option tactics.
From Stdlib Require Import Strings.Byte ZArith Lia.
From S2P Require Import Prelude.

(** [type()] casts any signed char to the enumeration: codes outside it are
    [InvalidType], which every switch sends to its default case. *)
Inductive BSONType :=
  | MinKey
  | EOO
  | NumberDouble
  | BSONString
  | Object
  | Array
  | BinData
  | Undefined
  | jstOID
  | BSONBool
  | Date
  | jstNULL
  | RegEx
  | DBRef
  | Code
  | Symbol
  | CodeWScope
  | NumberInt
  | Timestamp
  | NumberLong
  | MaxKey
  | InvalidType (c : Z).

#[global] Instance BSONType_eq_dec : EqDecision BSONType.
Proof. solve_decision. Defined.

Definition type_code (t : BSONType) : Z :=
  match t with
  | MinKey => -1
  | EOO => 0
  | NumberDouble => 1
  | BSONString => 2
  | Object => 3
  | Array => 4
  | BinData => 5
  | Undefined => 6
  | jstOID => 7
  | BSONBool => 8
  | Date => 9
  | jstNULL => 10
  | RegEx => 11
  | DBRef => 12
  | Code => 13
  | Symbol => 14
  | CodeWScope => 15
  | NumberInt => 16
  | Timestamp => 17
  | NumberLong => 18
  | MaxKey => 127
  | InvalidType c => c
  end.

(** The enumerator a signed char value names. *)
Definition type_of_code (c : Z) : BSONType :=
  match c with
  | -1 => MinKey
  | 0 => EOO
  | 1 => NumberDouble
  | 2 => BSONString
  | 3 => Object
  | 4 => Array
  | 5 => BinData
  | 6 => Undefined
  | 7 => jstOID
  | 8 => BSONBool
  | 9 => Date
  | 10 => jstNULL
  | 11 => RegEx
  | 12 => DBRef
  | 13 => Code
  | 14 => Symbol
  | 15 => CodeWScope
  | 16 => NumberInt
  | 17 => Timestamp
  | 18 => NumberLong
  | 127 => MaxKey
  | _ => InvalidType c
  end.

(** The byte a type is written as, and the type of a byte read back. *)
Definition type_byte (t : BSONType) : byte := zb (type_code t).
Definition byte_type (b : byte) : BSONType := type_of_code (sc b).

Definition valid_type (t : BSONType) : bool :=
  match t with InvalidType _ => false | _ => true end.

Lemma byte_type_type_byte t : valid_type t = true -> byte_type (type_byte t) = t.
Proof. by destruct t. Qed.

(** [canonicalizeBSONType]: where a type falls in the sort order. *)
Definition canonicalizeBSONType (t : BSONType) : result Z :=
  match t with
  | MinKey | MaxKey => Ok (type_code t)
  | EOO | Undefined => Ok 0
  | jstNULL => Ok 5
  | NumberDouble | NumberInt | NumberLong => Ok 10
  | BSONString | Symbol => Ok 15
  | Object => Ok 20
  | Array => Ok 25
  | BinData => Ok 30
  | jstOID => Ok 35
  | BSONBool => Ok 40
  | Date | Timestamp => Ok 45
  | RegEx => Ok 50
  | DBRef => Ok 55
  | Code => Ok 60
  | CodeWScope => Ok 65
  | InvalidType _ => Err VerifyFailed
  end.

(** [typeName] (db/jsobj.cpp). *)
Definition typeName (t : BSONType) : string :=
  match t with
  | MinKey => "MinKey"
  | EOO => "EOO"
  | NumberDouble => "NumberDouble"
  | BSONString => "String"
  | Object => "Object"
  | Array => "Array"
  | BinData => "BinaryData"
  | Undefined => "Undefined"
  | jstOID => "OID"
  | BSONBool => "Bool"
  | Date => "Date"
  | jstNULL => "NULL"
  | RegEx => "RegEx"
  | DBRef => "DBRef"
  | Code => "Code"
  | Symbol => "Symbol"
  | CodeWScope => "CodeWScope"
  | NumberInt => "NumberInt32"
  | Timestamp => "Timestamp"
  | NumberLong => "NumberLong64"
  | MaxKey => "MaxKey"
  | InvalidType _ => "Invalid"
  end.

(** The canonical number of a type the enumeration has. *)
Definition canon (t : BSONType) : Z :=
  match canonicalizeBSONType t with Ok c => c | Err _ => -1 end.

Lemma canonicalize_canon t : valid_type t = true -> canonicalizeBSONType t = Ok (canon t).
Proof. by destruct t. Qed.
