(* ===== verification/Format.v ===== *)
(** * Format: BSON documents and their encoding

    The abstract data model the byte-level code is measured against: a
    document is a list of named values, and [enc_doc] is the layout the
    comment of bson/bsonobj.h describes.  [wf_doc] is the well-formedness of a
    document: names are C strings, integers fit their width, every object and
    string stays within the size limit of bson/util/builder.h. *)

From stdpp Require Import base list numbers option tactics.
From Stdlib Require Import Strings.Byte ZArith Lia.
From S2P Require Import Prelude Memory BsonTypes.

(** [BSONObjMaxUserSize], [BSONObjMaxInternalSize] and [BufferMaxSize]. *)
Definition BSONObjMaxUserSize : Z := 16 * 1024 * 1024.
Definition BSONObjMaxInternalSize : Z := BSONObjMaxUserSize + 16 * 1024.
Definition BufferMaxSize : Z := 64 * 1024 * 1024.

Inductive value :=
  | VMinKey
  | VMaxKey
  | VUndefined
  | VNull
  | VDouble (bits : Z)
  | VString (s : list byte)
  | VCode (s : list byte)
  | VSymbol (s : list byte)
  | VObject (d : list (list byte * value))
  | VArray (d : list (list byte * value))
  | VBinData (subtype : byte) (data : list byte)
  | VOID (oid : list byte)
  | VBool (b : bool)
  | VDate (millis : Z)
  | VTimestamp (t : Z)
  | VRegEx (pat opts : list byte)
  | VDBRef (ns oid : list byte)
  | VCodeWScope (code : list byte) (scope : list (list byte * value))
  | VInt (n : Z)
  | VLong (n : Z).

Abbreviation field := (list byte * value)%type.
Abbreviation doc := (list field).

(** Induction that reaches the values nested in documents. *)
Section value_induction.
Variable P : value -> Prop.
Hypothesis Hleaf : forall v,
  match v with VObject _ | VArray _ | VCodeWScope _ _ => True | _ => P v end.
Hypothesis Hobj : forall d, Forall (fun f : field => P (snd f)) d -> P (VObject d).
Hypothesis Harr : forall d, Forall (fun f : field => P (snd f)) d -> P (VArray d).
Hypothesis Hcode : forall c d, Forall (fun f : field => P (snd f)) d -> P (VCodeWScope c d).

Fixpoint value_nested_ind (v : value) : P v.
Proof.
  pose (go := fix go (d : doc) : Forall (fun f : field => P (snd f)) d :=
    match d with
    | [] => Forall_nil_2 _
    | f :: r => Forall_cons_2 _ f r (value_nested_ind (snd f)) (go r)
    end).
  destruct v as [ | | | | b | s | s | s | d | d | u x | o | b | m | t | p o | n o | c d | n | n ].
  - exact (Hleaf VMinKey).
  - exact (Hleaf VMaxKey).
  - exact (Hleaf VUndefined).
  - exact (Hleaf VNull).
  - exact (Hleaf (VDouble b)).
  - exact (Hleaf (VString s)).
  - exact (Hleaf (VCode s)).
  - exact (Hleaf (VSymbol s)).
  - exact (Hobj d (go d)).
  - exact (Harr d (go d)).
  - exact (Hleaf (VBinData u x)).
  - exact (Hleaf (VOID o)).
  - exact (Hleaf (VBool b)).
  - exact (Hleaf (VDate m)).
  - exact (Hleaf (VTimestamp t)).
  - exact (Hleaf (VRegEx p o)).
  - exact (Hleaf (VDBRef n o)).
  - exact (Hcode c d (go d)).
  - exact (Hleaf (VInt n)).
  - exact (Hleaf (VLong n)).
Defined.
End value_induction.

Definition vtype (v : value) : BSONType :=
  match v with
  | VMinKey => MinKey
  | VMaxKey => MaxKey
  | VUndefined => Undefined
  | VNull => jstNULL
  | VDouble _ => NumberDouble
  | VString _ => BSONString
  | VCode _ => Code
  | VSymbol _ => Symbol
  | VObject _ => Object
  | VArray _ => Array
  | VBinData _ _ => BinData
  | VOID _ => jstOID
  | VBool _ => BSONBool
  | VDate _ => Date
  | VTimestamp _ => Timestamp
  | VRegEx _ _ => RegEx
  | VDBRef _ _ => DBRef
  | VCodeWScope _ _ => CodeWScope
  | VInt _ => NumberInt
  | VLong _ => NumberLong
  end.

(** A string as the code lays it out: its size with the NUL, its bytes, the NUL. *)
Definition enc_string (s : list byte) : list byte := le32 (zlen s + 1) ++ s ++ [x00].

(** An object around its encoded elements: the total size, the elements, EOO. *)
Definition enc_frame (body : list byte) : list byte :=
  le32 (zlen body + 5) ++ body ++ [x00].

Fixpoint enc_value (v : value) : list byte :=
  let elems := flat_map (fun f : field =>
    type_byte (vtype (snd f)) :: fst f ++ x00 :: enc_value (snd f)) in
  match v with
  | VMinKey | VMaxKey | VUndefined | VNull => []
  | VDouble b => le64 b
  | VString s | VCode s | VSymbol s => enc_string s
  | VObject d | VArray d => enc_frame (elems d)
  | VBinData u x => le32 (zlen x) ++ u :: x
  | VOID o => o
  | VBool b => [if b then x01 else x00]
  | VDate m => le64 m
  | VTimestamp t => le64 t
  | VRegEx p o => p ++ x00 :: o ++ [x00]
  | VDBRef n o => enc_string n ++ o
  | VCodeWScope c d =>
      let body := enc_string c ++ enc_frame (elems d) in
      le32 (zlen body + 4) ++ body
  | VInt n => le32 n
  | VLong n => le64 n
  end.

Definition enc_elem (f : field) : list byte :=
  type_byte (vtype (snd f)) :: fst f ++ x00 :: enc_value (snd f).
Definition enc_elems (d : doc) : list byte := flat_map enc_elem d.
Definition enc_doc (d : doc) : list byte := enc_frame (enc_elems d).

(** ** Well-formed documents *)

Fixpoint wf_value (v : value) : bool :=
  let wf_fields := forallb (fun f : field => no_nul (fst f) && wf_value (snd f)) in
  match v with
  | VMinKey | VMaxKey | VUndefined | VNull | VBool _ => true
  | VDouble b => in_u 64 b
  | VString s | VCode s | VSymbol s => zlen s + 1 <? BSONObjMaxInternalSize
  | VObject d | VArray d =>
      wf_fields d && (zlen (enc_value v) <=? BSONObjMaxInternalSize)
  | VBinData _ x => zlen x <? BSONObjMaxInternalSize
  | VOID o => zlen o =? 12
  | VDate m => in_u 64 m
  | VTimestamp t => in_u 64 t
  | VRegEx p o => no_nul p && no_nul o &&
      (zlen p + zlen o + 2 <? BSONObjMaxInternalSize)
  | VDBRef n o => (zlen n + 1 <? BSONObjMaxInternalSize) && (zlen o =? 12)
  | VCodeWScope c d =>
      no_nul c && wf_fields d && (zlen (enc_value v) <=? BSONObjMaxInternalSize)
  | VInt n => in_s 32 n
  | VLong n => in_s 64 n
  end.

Definition wf_field (f : field) : bool := no_nul (fst f) && wf_value (snd f).
Definition wf_doc (d : doc) : bool :=
  forallb wf_field d && (zlen (enc_doc d) <=? BSONObjMaxInternalSize).

(** ** Facts about the encoding *)

Lemma enc_value_object d : enc_value (VObject d) = enc_doc d.
Proof. done. Qed.
Lemma enc_value_array d : enc_value (VArray d) = enc_doc d.
Proof. done. Qed.
Lemma enc_value_code c d : enc_value (VCodeWScope c d) =
  le32 (zlen (enc_string c ++ enc_doc d) + 4) ++ enc_string c ++ enc_doc d.
Proof. done. Qed.

Lemma wf_value_object d : wf_value (VObject d) = wf_doc d.
Proof. done. Qed.
Lemma wf_value_array d : wf_value (VArray d) = wf_doc d.
Proof. done. Qed.

Lemma zlen_enc_string s : zlen (enc_string s) = zlen s + 5.
Proof.
  unfold enc_string. rewrite !zlen_app, zlen_le_bytes, zlen_cons, zlen_nil. lia.
Qed.

Lemma zlen_enc_frame b : zlen (enc_frame b) = zlen b + 5.
Proof.
  unfold enc_frame. rewrite !zlen_app, zlen_le_bytes, zlen_cons, zlen_nil. lia.
Qed.

Lemma zlen_enc_doc d : zlen (enc_doc d) = zlen (enc_elems d) + 5.
Proof. apply zlen_enc_frame. Qed.

Lemma zlen_enc_elem n v : zlen (enc_elem (n, v)) = zlen n + zlen (enc_value v) + 2.
Proof. unfold enc_elem. simpl. rewrite zlen_cons, zlen_app, zlen_cons. lia. Qed.

Lemma enc_elems_cons f d : enc_elems (f :: d) = enc_elem f ++ enc_elems d.
Proof. done. Qed.

Lemma zlen_enc_elems_cons f d :
  zlen (enc_elems (f :: d)) = zlen (enc_elem f) + zlen (enc_elems d).
Proof. by rewrite enc_elems_cons, zlen_app. Qed.

Lemma enc_elems_app d1 d2 : enc_elems (d1 ++ d2) = enc_elems d1 ++ enc_elems d2.
Proof. apply flat_map_app. Qed.

Lemma vtype_valid v : valid_type (vtype v) = true.
Proof. by destruct v. Qed.

Lemma vtype_not_eoo v : vtype v <> EOO.
Proof. by destruct v. Qed.

(** The parts of a well-formed document. *)
Lemma wf_doc_cons f d : wf_doc (f :: d) = true ->
  wf_field f = true /\ wf_doc d = true.
Proof.
  unfold wf_doc. simpl. intros [[Hf Hd]%andb_prop Hs]%andb_prop. split; [done|].
  rewrite Hd. simpl. apply Z.leb_le in Hs. apply Z.leb_le.
  rewrite zlen_enc_doc in *. rewrite zlen_enc_elems_cons in Hs.
  pose proof (zlen_nonneg (enc_elem f)). lia.
Qed.

Lemma wf_doc_size d : wf_doc d = true -> zlen (enc_doc d) <= BSONObjMaxInternalSize.
Proof. unfold wf_doc. intros [_ ?%Z.leb_le]%andb_prop. done. Qed.

Lemma wf_field_parts n v : wf_field (n, v) = true -> no_nul n = true /\ wf_value v = true.
Proof. unfold wf_field. simpl. apply andb_prop. Qed.

Lemma wf_doc_Forall d : wf_doc d = true -> Forall (fun f => wf_field f = true) d.
Proof.
  unfold wf_doc. intros [H _]%andb_prop. apply List.Forall_forall.
  by apply forallb_forall.
Qed.

Lemma wf_value_code c d : wf_value (VCodeWScope c d) = true ->
  no_nul c = true /\ wf_doc d = true /\
  zlen c + zlen (enc_doc d) + 9 <= BSONObjMaxInternalSize.
Proof.
  cbn [wf_value]. intros [[Hc Hd]%andb_prop Hs%Z.leb_le]%andb_prop.
  rewrite enc_value_code, zlen_app, zlen_le_bytes, zlen_app, zlen_enc_string in Hs.
  split; [done|]. pose proof (zlen_nonneg c).
  split; [|lia]. unfold wf_doc. apply andb_true_intro. split; [exact Hd|].
  apply Z.leb_le. lia.
Qed.

Lemma obj_max_val : BSONObjMaxInternalSize = 16793600.
Proof. done. Qed.

(** Every object and string size a well-formed document stores is an [int]. *)
Lemma small_s32 z : 0 <= z <= BSONObjMaxInternalSize -> in_s 32 z = true.
Proof.
  rewrite obj_max_val. intros. apply in_s_spec.
  change (2 ^ (32 - 1)) with 2147483648. lia.
Qed.
Lemma small_u32 z : 0 <= z <= BSONObjMaxInternalSize -> in_u 32 z = true.
Proof.
  rewrite obj_max_val. intros. apply in_u_spec. change (2 ^ 32) with 4294967296. lia.
Qed.

(** The size of a value is bounded when it is well-formed. *)
Lemma wf_value_size v : wf_value v = true ->
  zlen (enc_value v) <= BSONObjMaxInternalSize + 16.
Proof.
  destruct v; cbn [wf_value]; intros Hw;
    try (apply andb_prop in Hw as [Hw ?%Z.leb_le]; lia);
    rewrite ?andb_true_iff, ?Z.ltb_lt, ?Z.eqb_eq in Hw; cbn [enc_value];
    rewrite ?zlen_enc_string, ?zlen_le_bytes, ?zlen_nil, ?zlen_app, ?zlen_cons,
      ?zlen_app, ?zlen_enc_string, ?zlen_le_bytes, ?zlen_cons, ?zlen_nil;
    rewrite ?obj_max_val in *; try lia.
Qed.
