(* ===== verification/Element.v ===== *)
(** * Element: [BSONElement] (bson/bsonelement.h, bson/bson-inl.h)

    An element is a pointer to its type byte, with the two sizes the class
    caches (-1 while they are not known).  The accessors read through the
    pointer; [elem_rep] says an element is the encoding of a named value, and
    the lemmas give each accessor's result on such an element. *)

From stdpp Require Import base list numbers option tactics.
From Stdlib Require Import Strings.Byte ZArith Lia.
From S2P Require Import Prelude Memory Double BsonTypes Format.

Record BSONElement := MkElement {
  data : ptr;
  fieldNameSize_ : Z;
  totalSize : Z
}.

(** ** Type and field name *)

Definition type (e : BSONElement) : result BSONType :=
  let* b := load (data e) in Ok (byte_type b).

Definition is_eoo (t : BSONType) : bool := bool_decide (t = EOO).

Definition eoo (e : BSONElement) : result bool :=
  let* t := type e in Ok (is_eoo t).

Definition canonicalType (e : BSONElement) : result Z :=
  let* t := type e in canonicalizeBSONType t.

(** A string literal, and the static NUL of the empty element. *)
Definition literal (s : list byte) : ptr := Ptr (s ++ [x00]) 0.

Definition fieldName (e : BSONElement) : result ptr :=
  let* b := eoo e in
  Ok (if b then literal [] else data e +! 1).

Definition fieldNameSize (e : BSONElement) : result Z :=
  if fieldNameSize_ e =? -1 then
    let* p := fieldName e in
    let* n := strlen p in
    Ok (s32 (n + 1))
  else Ok (fieldNameSize_ e).

(** ** Constructors *)

Definition BSONElement_empty : BSONElement := MkElement (literal []) 0 1.

Definition BSONElement_at (d : ptr) : result BSONElement :=
  let* b := eoo (MkElement d (-1) (-1)) in
  Ok (if b then MkElement d 0 1 else MkElement d (-1) (-1)).

Definition BSONElement_max (d : ptr) (maxLen : Z) : result BSONElement :=
  let* b := eoo (MkElement d (-1) (-1)) in
  if b then Ok (MkElement d 0 1)
  else if maxLen =? -1 then Ok (MkElement d (-1) (-1))
  else
    let* p := fieldName (MkElement d (-1) (-1)) in
    let* sz := strnlen p (maxLen - 1) in
    let* _ := uassert 10333 (negb (sz =? -1)) in
    Ok (MkElement d (s32 (sz + 1)) (-1)).

(** ** Raw values *)

Definition value_ptr (e : BSONElement) : result ptr :=
  let* n := fieldNameSize e in
  Ok (data e +! (n + 1)).

Definition boolean (e : BSONElement) : result bool :=
  let* p := value_ptr e in
  let* b := load p in
  Ok (negb (Byte.eqb b x00)).

Definition date (e : BSONElement) : result Z :=
  let* p := value_ptr e in load_u64 p.

Definition _numberDouble (e : BSONElement) : result Z :=
  let* p := value_ptr e in load_u64 p.
Definition _numberInt (e : BSONElement) : result Z :=
  let* p := value_ptr e in load_s32 p.
Definition _numberLong (e : BSONElement) : result Z :=
  let* p := value_ptr e in load_s64 p.
Definition __oid (e : BSONElement) : result (list byte) :=
  let* p := value_ptr e in loads p 12.

Definition valuestrsize (e : BSONElement) : result Z :=
  let* p := value_ptr e in load_s32 p.
Definition elem_objsize (e : BSONElement) : result Z :=
  let* p := value_ptr e in load_u32 p.
Definition valuestr (e : BSONElement) : result ptr :=
  let* p := value_ptr e in Ok (p +! 4).

(** ** Size *)

(** The size of the value in bytes, by type; [size()] adds the type byte and
    the field name. *)
Definition value_size_of (e : BSONElement) (t : BSONType) : result Z :=
  match t with
  | EOO | Undefined | jstNULL | MaxKey | MinKey => Ok 0
  | BSONBool => Ok 1
  | NumberInt => Ok 4
  | Timestamp | Date | NumberDouble | NumberLong => Ok 8
  | jstOID => Ok 12
  | Symbol | Code | BSONString =>
      let* n := valuestrsize e in Ok (s32 (n + 4))
  | DBRef => let* n := valuestrsize e in Ok (s32 (n + 4 + 12))
  | CodeWScope | Object | Array => let* n := elem_objsize e in Ok (s32 n)
  | BinData => let* n := valuestrsize e in Ok (s32 (n + 4 + 1))
  | RegEx =>
      let* p := value_ptr e in
      let* len1 := strlen p in
      let* len2 := strlen (p +! (len1 + 1)) in
      Ok (s32 (len1 + 1 + len2 + 1))
  | InvalidType _ => Err (MsgAssert 10320)
  end.

Definition size (e : BSONElement) : result Z :=
  if 0 <=? totalSize e then Ok (totalSize e)
  else
    let* t := type e in
    let* x := value_size_of e t in
    let* n := fieldNameSize e in
    Ok (s32 (x + n + 1)).

(** [size(maxLen)]: the same, refusing to read sizes beyond [maxLen] bytes. *)
Definition size_max (e : BSONElement) (maxLen : Z) : result Z :=
  if 0 <=? totalSize e then Ok (totalSize e)
  else
    let* n := fieldNameSize e in
    let remain := maxLen - n - 1 in
    let enough code := massert code ((maxLen =? -1) || (3 <? remain)) in
    let* t := type e in
    let* x :=
      match t with
      | EOO | Undefined | jstNULL | MaxKey | MinKey => Ok 0
      | BSONBool => Ok 1
      | NumberInt => Ok 4
      | Timestamp | Date | NumberDouble | NumberLong => Ok 8
      | jstOID => Ok 12
      | Symbol | Code | BSONString =>
          let* _ := enough 10313 in
          let* k := valuestrsize e in Ok (s32 (k + 4))
      | CodeWScope =>
          let* _ := enough 10314 in
          let* k := elem_objsize e in Ok (s32 k)
      | DBRef =>
          let* _ := enough 10315 in
          let* k := valuestrsize e in Ok (s32 (k + 4 + 12))
      | Object | Array =>
          let* _ := enough 10316 in
          let* k := elem_objsize e in Ok (s32 k)
      | BinData =>
          let* _ := enough 10317 in
          let* k := valuestrsize e in Ok (s32 (k + 4 + 1))
      | RegEx =>
          let* p := value_ptr e in
          let* len1 := if maxLen =? -1 then strlen p else strnlen p remain in
          let q := p +! (len1 + 1) in
          let* len2 :=
            if maxLen =? -1 then strlen q
            else
              let x := u64 (remain - len1 - 1) in
              let* _ := verify (x <=? 2147483647) in
              strnlen q x in
          Ok (s32 (len1 + 1 + len2 + 1))
      | InvalidType _ => Err (MsgAssert 13655)
      end in
    Ok (s32 (x + n + 1)).

Definition valuesize (e : BSONElement) : result Z :=
  let* s := size e in
  let* n := fieldNameSize e in
  Ok (s - n - 1).

(** ** Classification *)

Definition isNumber_type (t : BSONType) : bool :=
  match t with NumberLong | NumberDouble | NumberInt => true | _ => false end.
Definition isNumber (e : BSONElement) : result bool :=
  let* t := type e in Ok (isNumber_type t).

Definition isSimpleType (e : BSONElement) : result bool :=
  let* t := type e in
  Ok match t with
     | NumberLong | NumberDouble | NumberInt | BSONString | BSONBool | Date | jstOID => true
     | _ => false
     end.

Definition isABSONObj (e : BSONElement) : result bool :=
  let* t := type e in
  Ok match t with Object | Array => true | _ => false end.

Definition mayEncapsulate (e : BSONElement) : result bool :=
  let* t := type e in
  Ok match t with Object | Array | CodeWScope => true | _ => false end.

Definition isNull (e : BSONElement) : result bool :=
  let* t := type e in Ok (bool_decide (t = jstNULL)).
Definition isBoolean (e : BSONElement) : result bool :=
  let* t := type e in Ok (bool_decide (t = BSONBool)).
Definition booleanSafe (e : BSONElement) : result bool :=
  let* b := isBoolean e in
  if b then boolean e else Ok false.

(** ** Conversions of numbers *)

(** [trueValue()]: zero, null, undefined and EOO are false. *)
Definition trueValue (e : BSONElement) : result bool :=
  let* t := type e in
  match t with
  | NumberLong => let* n := _numberLong e in Ok (negb (n =? 0))
  | NumberDouble => let* d := _numberDouble e in Ok (negb (d_eqb d d_zero))
  | NumberInt => let* n := _numberInt e in Ok (negb (n =? 0))
  | BSONBool => boolean e
  | EOO | jstNULL | Undefined => Ok false
  | _ => Ok true
  end.

Definition numberDouble (e : BSONElement) : result Z :=
  let* t := type e in
  match t with
  | NumberDouble => _numberDouble e
  | NumberInt => let* n := _numberInt e in Ok (d_of_Z n)
  | NumberLong => let* n := _numberLong e in Ok (d_of_Z n)
  | _ => Ok d_zero
  end.
Definition number := numberDouble.

(** The cast of a [double] to a [w]-bit integer: undefined when the truncated
    value does not fit. *)
Definition d_cast (w : Z) (d : Z) : result Z :=
  match d_trunc d with
  | Some n => if in_s w n then Ok n else Err UndefinedBehaviour
  | None => Err UndefinedBehaviour
  end.

Definition numberInt (e : BSONElement) : result Z :=
  let* t := type e in
  match t with
  | NumberDouble => let* d := _numberDouble e in d_cast 32 d
  | NumberInt => _numberInt e
  | NumberLong => let* n := _numberLong e in Ok (s32 n)
  | _ => Ok 0
  end.

Definition numberLong (e : BSONElement) : result Z :=
  let* t := type e in
  match t with
  | NumberDouble => let* d := _numberDouble e in d_cast 64 d
  | NumberInt => _numberInt e
  | NumberLong => _numberLong e
  | _ => Ok 0
  end.

Definition LLONG_MAX : Z := 2 ^ 63 - 1.
Definition LLONG_MIN : Z := - 2 ^ 63.

Definition safeNumberLong (e : BSONElement) : result Z :=
  let* t := type e in
  match t with
  | NumberDouble =>
      let* d := numberDouble e in
      if d_isnan d then Ok 0
      else if d_ltb (d_of_Z LLONG_MAX) d then Ok LLONG_MAX
      else if d_ltb d (d_of_Z LLONG_MIN) then Ok LLONG_MIN
      else numberLong e
  | _ => numberLong e
  end.

(** ** Strings, code, binary data, regular expressions *)

(** [std::string(p, n)]: the [n] bytes at [p]. *)
Definition std_string (p : ptr) (n : Z) : result (list byte) := loads p n.

Definition str (e : BSONElement) : result (list byte) :=
  let* t := type e in
  if bool_decide (t = BSONString) then
    let* p := valuestr e in
    let* n := valuestrsize e in
    std_string p (n - 1)
  else Ok [].

Definition valuestrsafe (e : BSONElement) : result ptr :=
  let* t := type e in
  if bool_decide (t = BSONString) then valuestr e else Ok (literal []).

Definition codeWScopeCode (e : BSONElement) : result ptr :=
  let* t := type e in
  let* _ := massert 16177 (bool_decide (t = CodeWScope)) in
  let* p := value_ptr e in Ok (p +! (4 + 4)).

Definition codeWScopeCodeLen (e : BSONElement) : result Z :=
  let* t := type e in
  let* _ := massert 16178 (bool_decide (t = CodeWScope)) in
  let* p := value_ptr e in load_s32 (p +! 4).

Definition codeWScopeScopeDataUnsafe (e : BSONElement) : result ptr :=
  let* p := codeWScopeCode e in
  let* n := strlen p in
  Ok (p +! (n + 1)).

Definition codeWScopeScopeData (e : BSONElement) : result ptr :=
  let* p := codeWScopeCode e in
  let* n := codeWScopeCodeLen e in
  Ok (p +! n).

(** [binData]: the pointer to the data and its length. *)
Definition binData (e : BSONElement) : result (ptr * Z) :=
  let* t := type e in
  let* _ := verify (bool_decide (t = BinData)) in
  let* n := valuestrsize e in
  let* p := value_ptr e in
  Ok (p +! 5, n).

Definition ByteArrayDeprecated : Z := 2.

Definition binDataType (e : BSONElement) : result Z :=
  let* t := type e in
  let* _ := verify (bool_decide (t = BinData)) in
  let* p := value_ptr e in
  let* c := load (p +! 4) in
  Ok (bz c).

Definition binDataClean (e : BSONElement) : result (ptr * Z) :=
  let* u := binDataType e in
  if negb (u =? ByteArrayDeprecated) then binData e
  else
    let* n := valuestrsize e in
    let* p := value_ptr e in
    Ok (p +! (5 + 4), n - 4).

Definition regex (e : BSONElement) : result ptr :=
  let* t := type e in
  let* _ := verify (bool_decide (t = RegEx)) in
  value_ptr e.

Definition regexFlags (e : BSONElement) : result ptr :=
  let* p := regex e in
  let* n := strlen p in
  Ok (p +! (n + 1)).

(** [timestampTime()]: the seconds of the timestamp, in milliseconds. *)
Definition timestampTime (e : BSONElement) : result Z :=
  let* p := value_ptr e in
  let* t := load_u32 (p +! 4) in
  Ok (u64 (t * 1000)).
Definition timestampInc (e : BSONElement) : result Z :=
  let* p := value_ptr e in load_u32 p.

Definition dbrefNS (e : BSONElement) : result ptr :=
  let* t := type e in
  let* _ := uassert 10063 (bool_decide (t = DBRef)) in
  let* p := value_ptr e in Ok (p +! 4).

Definition dbrefOID (e : BSONElement) : result (list byte) :=
  let* t := type e in
  let* _ := uassert 10064 (bool_decide (t = DBRef)) in
  let* start := value_ptr e in
  let* n := load_s32 start in
  loads (start +! (4 + n)) 12.

(** ** Checked accessors: [chk] throws when the type is another one *)

Definition chk (e : BSONElement) (t : BSONType) : result unit :=
  let* u := type e in
  if bool_decide (t = u) then Ok tt else Err (MsgAssert 13111).
Definition chk_expr (b : bool) : result unit := massert 13118 b.

Definition Elem_String (e : BSONElement) : result (list byte) :=
  let* _ := chk e BSONString in
  let* p := valuestr e in cstr p.
Definition Elem_Date (e : BSONElement) : result Z :=
  let* _ := chk e Date in date e.
Definition Elem_Number (e : BSONElement) : result Z :=
  let* b := isNumber e in
  let* _ := chk_expr b in number e.
Definition Elem_Double (e : BSONElement) : result Z :=
  let* _ := chk e NumberDouble in _numberDouble e.
Definition Elem_Long (e : BSONElement) : result Z :=
  let* _ := chk e NumberLong in _numberLong e.
Definition Elem_Int (e : BSONElement) : result Z :=
  let* _ := chk e NumberInt in _numberInt e.
Definition Elem_Bool (e : BSONElement) : result bool :=
  let* _ := chk e BSONBool in boolean e.
Definition Elem_OID (e : BSONElement) : result (list byte) :=
  let* _ := chk e jstOID in __oid e.
Definition Elem_Null (e : BSONElement) : result unit :=
  let* b := isNull e in chk_expr b.
Definition Elem_OK (e : BSONElement) : result unit :=
  let* b := eoo e in chk_expr (negb b).

(** [validate()]: the sizes a string-like or CodeWScope element stores. *)
Definition validate (e : BSONElement) : result unit :=
  let* t := type e in
  match t with
  | DBRef | Code | Symbol | BSONString =>
      let* n := valuestrsize e in
      let x := u32 n in
      let lenOk := (0 <? x) && (x <? BSONObjMaxInternalSize) in
      let* p := valuestr e in
      if lenOk then
        let* b := load (p +! (x - 1)) in
        if Byte.eqb b x00 then Ok tt
        else let* _ := strnlen p x in Err (MsgAssert 10321)
      else Err (MsgAssert 10321)
  | CodeWScope =>
      let* p := value_ptr e in
      let* total := load_s32 p in
      let* _ := massert 10322 (8 <=? total) in
      let* strSizeWNull := load_s32 (p +! 4) in
      let* _ := massert 10323 (s32 (strSizeWNull + 4 + 4) <=? total) in
      let* ok :=
        if 0 <? strSizeWNull then
          let* c := codeWScopeCode e in
          let* n := strnlen c strSizeWNull in
          Ok (strSizeWNull - 1 =? n)
        else Ok false in
      let* _ := massert 10324 ok in
      let* _ := massert 10325 (s32 (strSizeWNull + 4 + 4 + 4) <=? total) in
      let* objSize := load_s32 (p +! (4 + 4 + strSizeWNull)) in
      massert 10326 (total =? s32 (4 + 4 + strSizeWNull + objSize))
  | _ => Ok tt
  end.

(** ** Elements that encode a field *)

(** [elem_rep e n v]: [e] points to the encoding of the field [n : v], and
    each cached size is unknown or right. *)
Definition elem_rep (e : BSONElement) (n : list byte) (v : value) : Prop :=
  data e ↦ enc_elem (n, v) /\
  (fieldNameSize_ e = -1 \/ fieldNameSize_ e = zlen n + 1) /\
  (totalSize e = -1 \/ totalSize e = zlen (enc_elem (n, v))).

Definition eoo_rep (e : BSONElement) : Prop :=
  data e ↦ [x00] /\ fieldNameSize_ e = 0 /\ totalSize e = 1.

(** A field as it occurs inside a well-formed document: well-formed itself and
    within the size limit. *)
Definition elem_ok (e : BSONElement) (n : list byte) (v : value) : Prop :=
  elem_rep e n v /\ wf_field (n, v) = true /\
  zlen (enc_elem (n, v)) <= BSONObjMaxInternalSize.

(** The 4-byte length that begins a string-like value. *)
Definition str_payload (v : value) : option (list byte) :=
  match v with
  | VString s | VCode s | VSymbol s => Some s
  | VDBRef ns _ => Some ns
  | _ => None
  end.

Section elem_specs.
Context (e : BSONElement) (n : list byte) (v : value).
Hypothesis Hok : elem_ok e n v.

Lemma elem_name_small : 0 <= zlen n + 1 <= BSONObjMaxInternalSize.
Proof using Hok.
  destruct Hok as (_ & _ & Hs). rewrite zlen_enc_elem in Hs.
  pose proof (zlen_nonneg n). pose proof (zlen_nonneg (enc_value v)). lia.
Qed.

Lemma elem_no_nul : no_nul n = true.
Proof using Hok. destruct Hok as (_ & Hw & _). by apply wf_field_parts in Hw as [? _]. Qed.

Lemma elem_wf_value : wf_value v = true.
Proof using Hok. destruct Hok as (_ & Hw & _). by apply wf_field_parts in Hw as [_ ?]. Qed.

Lemma type_rep : type e = Ok (vtype v).
Proof using Hok.
  unfold type. destruct Hok as [[Hp _] _]. erewrite points_load by exact Hp.
  cbn [bind]. by rewrite byte_type_type_byte by apply vtype_valid.
Qed.

Lemma eoo_rep_false : eoo e = Ok false.
Proof using Hok.
  unfold eoo. rewrite type_rep. cbn [bind]. unfold is_eoo.
  rewrite bool_decide_false; [done | apply vtype_not_eoo].
Qed.

Lemma fieldName_rep : fieldName e = Ok (data e +! 1).
Proof using Hok. unfold fieldName. by rewrite eoo_rep_false. Qed.

Lemma fieldName_points : data e +! 1 ↦ n ++ x00 :: enc_value v.
Proof using Hok.
  destruct Hok as [[Hp _] _]. apply (points_app_r _ [type_byte (vtype v)]); done.
Qed.

Lemma fieldName_cstr : cstr (data e +! 1) = Ok n.
Proof using Hok.
  eapply points_cstr; [apply fieldName_points | apply elem_no_nul].
Qed.

Lemma fieldNameSize_rep : fieldNameSize e = Ok (zlen n + 1).
Proof using Hok.
  pose proof elem_name_small as Hs. unfold fieldNameSize.
  destruct Hok as [(_ & [->| ->] & _) _].
  - simpl. rewrite fieldName_rep. cbn [bind]. unfold strlen. rewrite fieldName_cstr.
    cbn [bind]. f_equal. apply wrap_s_small; [lia|]. by apply in_s_spec, small_s32.
  - destruct (Z.eqb_spec (zlen n + 1) (-1)); [lia|done].
Qed.

Lemma value_ptr_rep : value_ptr e = Ok (data e +! (zlen n + 2)).
Proof using Hok.
  unfold value_ptr. rewrite fieldNameSize_rep. cbn [bind]. f_equal. f_equal. lia.
Qed.

Lemma value_points : data e +! (zlen n + 2) ↦ enc_value v.
Proof using Hok.
  destruct Hok as [[Hp _] _].
  apply (points_app_r _ (type_byte (vtype v) :: n ++ [x00])).
  - by rewrite <- app_comm_cons, <- app_assoc.
  - rewrite zlen_cons, zlen_app, zlen_cons, zlen_nil. lia.
Qed.

Lemma isNumber_rep : isNumber e = Ok (isNumber_type (vtype v)).
Proof using Hok. unfold isNumber. by rewrite type_rep. Qed.

Lemma canonicalType_rep : canonicalType e = Ok (canon (vtype v)).
Proof using Hok.
  unfold canonicalType. rewrite type_rep. cbn [bind].
  apply canonicalize_canon, vtype_valid.
Qed.

Lemma valuestrsize_rep s : str_payload v = Some s -> valuestrsize e = Ok (zlen s + 1).
Proof using Hok.
  intros Hv. unfold valuestrsize. rewrite value_ptr_rep. cbn [bind].
  pose proof value_points as Hp. pose proof elem_wf_value as Hw.
  pose proof (zlen_nonneg s).
  destruct v; simplify_eq/=; eapply points_load_s32;
    try (unfold enc_string in Hp; rewrite <- ?app_assoc in Hp; exact Hp);
    apply small_s32; rewrite ?andb_true_iff, ?Z.ltb_lt in Hw; lia.
Qed.

Lemma valuestr_rep : valuestr e = Ok (data e +! (zlen n + 2) +! 4).
Proof using Hok. unfold valuestr. by rewrite value_ptr_rep. Qed.

Lemma valuestr_points s : str_payload v = Some s ->
  exists r, data e +! (zlen n + 2) +! 4 ↦ s ++ x00 :: r.
Proof using Hok.
  intros Hv. pose proof value_points as Hp.
  destruct v; simplify_eq/=; unfold enc_string in Hp; rewrite <- ?app_assoc in Hp;
    eexists; (eapply points_app_r; [exact Hp|]; by rewrite zlen_le_bytes).
Qed.

Lemma str_contents_rep s : str_payload v = Some s ->
  std_string (data e +! (zlen n + 2) +! 4) (zlen s + 1 - 1) = Ok s.
Proof using Hok.
  intros [r Hr]%valuestr_points. unfold std_string.
  eapply points_loads; [exact Hr|]. lia.
Qed.

End elem_specs.

Section elem_values.
Context (e : BSONElement) (n : list byte).

Lemma numberInt_rep k : elem_ok e n (VInt k) -> _numberInt e = Ok k.
Proof.
  intros H. unfold _numberInt. rewrite (value_ptr_rep _ _ _ H). cbn [bind].
  pose proof (value_points _ _ _ H) as Hp. simpl in Hp.
  eapply points_load_s32; [by rewrite app_nil_r | exact (elem_wf_value _ _ _ H)].
Qed.

Lemma numberLong_rep k : elem_ok e n (VLong k) -> _numberLong e = Ok k.
Proof.
  intros H. unfold _numberLong. rewrite (value_ptr_rep _ _ _ H). cbn [bind].
  pose proof (value_points _ _ _ H) as Hp. simpl in Hp.
  eapply points_load_s64; [by rewrite app_nil_r | exact (elem_wf_value _ _ _ H)].
Qed.

Lemma numberDouble_rep b : elem_ok e n (VDouble b) -> _numberDouble e = Ok b.
Proof.
  intros H. unfold _numberDouble. rewrite (value_ptr_rep _ _ _ H). cbn [bind].
  pose proof (value_points _ _ _ H) as Hp. simpl in Hp.
  eapply points_load_u64; [by rewrite app_nil_r | exact (elem_wf_value _ _ _ H)].
Qed.

Lemma date_rep v m : (v = VDate m \/ v = VTimestamp m) -> elem_ok e n v -> date e = Ok m.
Proof.
  intros Hv H. unfold date. rewrite (value_ptr_rep _ _ _ H). cbn [bind].
  pose proof (value_points _ _ _ H) as Hp. pose proof (elem_wf_value _ _ _ H) as Hw.
  destruct Hv as [->| ->]; simpl in Hp, Hw;
    (eapply points_load_u64; [by rewrite app_nil_r | exact Hw]).
Qed.

Lemma boolean_rep b : elem_ok e n (VBool b) -> boolean e = Ok b.
Proof.
  intros H. unfold boolean. rewrite (value_ptr_rep _ _ _ H). cbn [bind].
  pose proof (value_points _ _ _ H) as Hp. simpl in Hp.
  erewrite points_load by exact Hp. by destruct b.
Qed.

Lemma oid_rep o : elem_ok e n (VOID o) -> __oid e = Ok o.
Proof.
  intros H. unfold __oid. rewrite (value_ptr_rep _ _ _ H). cbn [bind].
  pose proof (value_points _ _ _ H) as Hp. pose proof (elem_wf_value _ _ _ H) as Hw.
  apply Z.eqb_eq in Hw. by apply points_loads_all.
Qed.

End elem_values.

(** ** The size of an element is the length of its encoding *)

Lemma s32_small z : 0 <= z <= BSONObjMaxInternalSize -> s32 z = z.
Proof. intros. apply wrap_s_small; [lia|]. by apply in_s_spec, small_s32. Qed.

Section elem_size.
Context (e : BSONElement) (n : list byte) (v : value).
Hypothesis Hok : elem_ok e n v.

Lemma enc_value_small : 0 <= zlen (enc_value v) <= BSONObjMaxInternalSize.
Proof using Hok.
  destruct Hok as (_ & _ & Hs). rewrite zlen_enc_elem in Hs.
  pose proof (zlen_nonneg n). pose proof (zlen_nonneg (enc_value v)). lia.
Qed.

Lemma elem_objsize_rep sz r :
  enc_value v = le32 sz ++ r -> 0 <= sz <= BSONObjMaxInternalSize ->
  elem_objsize e = Ok sz.
Proof using Hok.
  intros He Hs. unfold elem_objsize. rewrite (value_ptr_rep _ _ _ Hok). cbn [bind].
  pose proof (value_points _ _ _ Hok) as Hp. rewrite He in Hp.
  eapply points_load_u32; [exact Hp | by apply small_u32].
Qed.

End elem_size.

Lemma value_size_rep e n v :
  elem_ok e n v -> value_size_of e (vtype v) = Ok (zlen (enc_value v)).
Proof.
  intros Hok. pose proof (enc_value_small _ _ _ Hok) as Hb.
  pose proof (value_points _ _ _ Hok) as Hp.
  pose proof (elem_wf_value _ _ _ Hok) as Hw.
  destruct v as [ | | | | b | s | s | s | d | d | u x | o | b | m | t | pt o | ns o | c d | k | k ];
    cbn [vtype value_size_of]; try done.
  - by rewrite (valuestrsize_rep _ _ _ Hok s), <- (s32_small _ Hb) by done;
      cbn [enc_value bind]; rewrite zlen_enc_string; f_equal; f_equal; lia.
  - by rewrite (valuestrsize_rep _ _ _ Hok s), <- (s32_small _ Hb) by done;
      cbn [enc_value bind]; rewrite zlen_enc_string; f_equal; f_equal; lia.
  - by rewrite (valuestrsize_rep _ _ _ Hok s), <- (s32_small _ Hb) by done;
      cbn [enc_value bind]; rewrite zlen_enc_string; f_equal; f_equal; lia.
  - rewrite enc_value_object in *. rewrite zlen_enc_doc in *.
    rewrite (elem_objsize_rep _ _ _ Hok _ _ eq_refl Hb). cbn [bind]. by rewrite s32_small.
  - rewrite enc_value_array in *. rewrite zlen_enc_doc in *.
    rewrite (elem_objsize_rep _ _ _ Hok _ _ eq_refl Hb). cbn [bind]. by rewrite s32_small.
  - cbn [enc_value] in *. rewrite zlen_app, zlen_le_bytes, zlen_cons in *.
    pose proof (zlen_nonneg x). unfold valuestrsize.
    rewrite (value_ptr_rep _ _ _ Hok). cbn [bind].
    erewrite points_load_s32 by (eauto; apply small_s32; lia). cbn [bind].
    rewrite s32_small by lia. f_equal. lia.
  - cbn [enc_value wf_value] in *. apply Z.eqb_eq in Hw. by rewrite Hw.
  - cbn [enc_value wf_value] in *. apply andb_prop in Hw as [[Hp1 Hp2]%andb_prop _].
    rewrite (value_ptr_rep _ _ _ Hok). cbn [bind].
    rewrite (points_strlen _ pt _ Hp Hp1). cbn [bind].
    assert (data e +! (zlen n + 2) +! (zlen pt + 1) ↦ o ++ [x00]) as Hq.
    { apply (points_app_r _ (pt ++ [x00])); [by rewrite <- app_assoc|].
      rewrite zlen_app, zlen_cons, zlen_nil. lia. }
    rewrite (points_strlen _ o _ Hq Hp2). cbn [bind].
    rewrite zlen_app, zlen_cons, zlen_app, zlen_cons, zlen_nil in *.
    rewrite s32_small by lia. f_equal. lia.
  - rewrite (valuestrsize_rep _ _ _ Hok ns) by done. cbn [enc_value wf_value bind] in *.
    apply andb_prop in Hw as [_ Ho%Z.eqb_eq].
    rewrite zlen_app, zlen_enc_string, Ho in *. pose proof (zlen_nonneg ns).
    rewrite s32_small by lia. f_equal. lia.
  - rewrite enc_value_code in *. rewrite zlen_app, zlen_le_bytes in *.
    rewrite (elem_objsize_rep _ _ _ Hok (zlen (enc_string c ++ enc_doc d) + 4) _ eq_refl) by lia.
    cbn [bind]. rewrite s32_small by lia. f_equal. lia.
Qed.

Lemma size_rep e n v : elem_ok e n v -> size e = Ok (zlen (enc_elem (n, v))).
Proof.
  intros Hok. unfold size. pose proof (zlen_nonneg (enc_elem (n, v))).
  pose proof (enc_value_small _ _ _ Hok) as Hv. pose proof (elem_name_small _ _ _ Hok) as Hn.
  assert (totalSize e = -1 \/ totalSize e = zlen (enc_elem (n, v))) as [Ht|Ht]
    by apply Hok; rewrite Ht.
  - simpl. rewrite (type_rep _ _ _ Hok). cbn [bind]. rewrite (value_size_rep _ _ _ Hok). cbn [bind].
    rewrite (fieldNameSize_rep _ _ _ Hok). cbn [bind].
    destruct Hok as (_ & _ & Hs).
    rewrite zlen_enc_elem in *. rewrite s32_small by lia. f_equal. lia.
  - by destruct (Z.leb_spec 0 (zlen (enc_elem (n, v)))); [|lia].
Qed.

Lemma valuesize_rep e n v : elem_ok e n v -> valuesize e = Ok (zlen (enc_value v)).
Proof.
  intros Hok. unfold valuesize. rewrite (size_rep _ _ _ Hok). cbn [bind].
  rewrite (fieldNameSize_rep _ _ _ Hok). cbn [bind]. rewrite zlen_enc_elem.
  f_equal. lia.
Qed.
