(* ===== verification/Obj.v ===== *)
(** * Obj: [BSONObj] and [BSONObjIterator] (bson/bsonobj.h,
    bson/bsonobjiterator.h, bson/bson-inl.h, db/jsobj.cpp)

    An object is the pointer to its first byte, which begins its total size.
    The loops of the source over an object's elements come in two shapes,
    [while (i.more())] and [while (i.moreWithEOO())] with a break at EOO; they
    are [loop_more] and [loop_eoo], whose fuel is the size of the buffer.
    [loop_more_sim] and [loop_eoo_sim] relate each to a fold over the fields of
    the document the object encodes. *)

From stdpp Require Import base list numbers strings option tactics.
From Stdlib Require Import Strings.Byte ZArith Lia.
From S2P Require Import Prelude Memory Double BsonTypes Format Element.

Abbreviation BSONObj := ptr.

(** ** Size and construction *)

Definition objsize (o : BSONObj) : result Z := load_s32 o.

Definition isValid (o : BSONObj) : result bool :=
  let* x := objsize o in
  Ok ((0 <? x) && (x <=? BSONObjMaxInternalSize)).

(** [BSONObj(const char *p)]: [init] refuses a size that is not valid. *)
Definition BSONObj_init (p : ptr) : result BSONObj :=
  let* b := isValid p in
  if b then Ok p else Err (MsgAssert 10334).

Definition BSONObj_empty : BSONObj := Ptr [x05; x00; x00; x00; x00] 0.

Definition isEmpty (o : BSONObj) : result bool :=
  let* x := objsize o in Ok (x <=? 5).

(** [copy()]: the object's own bytes in a fresh buffer. *)
Definition copy (o : BSONObj) : result BSONObj :=
  let* n := objsize o in
  let* bs := loads o n in
  BSONObj_init (Ptr bs 0).

Definition embeddedObject (e : BSONElement) : result BSONObj :=
  let* b := isABSONObj e in
  let* _ := verify b in
  let* p := value_ptr e in
  BSONObj_init p.

Definition embeddedObjectUserCheck (e : BSONElement) : result BSONObj :=
  let* b := isABSONObj e in
  if b then let* p := value_ptr e in BSONObj_init p
  else Err (UserAssert 10065).

Definition codeWScopeObject (e : BSONElement) : result BSONObj :=
  let* t := type e in
  let* _ := verify (bool_decide (t = CodeWScope)) in
  let* p := value_ptr e in
  let* strSizeWNull := load_s32 (p +! 4) in
  BSONObj_init (p +! (4 + 4 + strSizeWNull)).

(** ** Iteration *)

Record BSONObjIterator := MkIter { _pos : ptr; _theend : Z }.

Definition BSONObjIterator_of (o : BSONObj) : result BSONObjIterator :=
  let* sz := objsize o in
  if sz =? 0 then Ok (MkIter (Ptr [] 0) 0)
  else Ok (MkIter (o +! 4) (off o + sz - 1)).

Definition more (i : BSONObjIterator) : bool := off (_pos i) <? _theend i.
Definition moreWithEOO (i : BSONObjIterator) : bool := off (_pos i) <=? _theend i.

Definition next (i : BSONObjIterator) : result (BSONElement * BSONObjIterator) :=
  let* _ := verify (off (_pos i) <=? _theend i) in
  let* e := BSONElement_at (_pos i) in
  let* n := size e in
  Ok (e, MkIter (_pos i +! n) (_theend i)).

(** [next(true)]: sizes are read only within the object. *)
Definition next_checked (i : BSONObjIterator) : result (BSONElement * BSONObjIterator) :=
  let* _ := verify (off (_pos i) <=? _theend i) in
  let maxLen := _theend i + 1 - off (_pos i) in
  let* _ := verify (0 <? maxLen) in
  let* e := BSONElement_max (_pos i) maxLen in
  let* esize := size_max e maxLen in
  let* _ := massert 16446 (0 <? esize) in
  Ok (e, MkIter (_pos i +! esize) (_theend i)).

(** What a loop body asks for: go on with a new state, or return. *)
Inductive step (S R : Type) :=
  | Continue (s : S)
  | Return (r : R).
Arguments Continue {S R} s.
Arguments Return {S R} r.

Section loops.
Context {S R : Type} (body : S -> BSONElement -> result (step S R)).

(** [while ( i.more() ) { BSONElement e = i.next(); ... }] *)
Fixpoint loop_more (fuel : nat) (i : BSONObjIterator) (s : S) : result (step S R) :=
  match fuel with
  | O => Err OutOfFuel
  | Datatypes.S fuel' =>
      if more i then
        let* '(e, i') := next i in
        let* st := body s e in
        match st with
        | Continue s' => loop_more fuel' i' s'
        | Return r => Ok (Return r)
        end
      else Ok (Continue s)
  end.

(** [while ( i.moreWithEOO() ) { BSONElement e = i.next(); if ( e.eoo() ) break; ... }] *)
Fixpoint loop_eoo (fuel : nat) (i : BSONObjIterator) (s : S) : result (step S R) :=
  match fuel with
  | O => Err OutOfFuel
  | Datatypes.S fuel' =>
      if moreWithEOO i then
        let* '(e, i') := next i in
        let* b := eoo e in
        if b then Ok (Continue s)
        else
          let* st := body s e in
          match st with
          | Continue s' => loop_eoo fuel' i' s'
          | Return r => Ok (Return r)
          end
      else Ok (Continue s)
  end.
End loops.

(** Every element takes at least one byte of the buffer. *)
Definition fuel_of (o : ptr) : nat := S (length (mem o)).

Definition for_elements {S R} (o : BSONObj) (s : S)
    (body : S -> BSONElement -> result (step S R)) : result (step S R) :=
  let* i := BSONObjIterator_of o in
  loop_more body (fuel_of o) i s.

Definition for_elements_eoo {S R} (o : BSONObj) (s : S)
    (body : S -> BSONElement -> result (step S R)) : result (step S R) :=
  let* i := BSONObjIterator_of o in
  loop_eoo body (fuel_of o) i s.

(** The value a loop ends with when its body never returns. *)
Definition finish {S R} (k : S -> result R) (st : result (step S R)) : result R :=
  let* x := st in
  match x with
  | Continue s => k s
  | Return r => Ok r
  end.

Definition bytes_eqb (a b : list byte) : bool := bool_decide (a = b).

(** ** Field access *)

Definition firstElement (o : BSONObj) : result BSONElement := BSONElement_at (o +! 4).

Definition firstElementFieldName (o : BSONObj) : result ptr :=
  let p := o +! 4 in
  let* b := load p in
  Ok (if Byte.eqb b x00 then literal [] else p +! 1).

Definition firstElementType (o : BSONObj) : result BSONType :=
  let* b := load (o +! 4) in Ok (byte_type b).

Definition field_name (e : BSONElement) : result (list byte) :=
  let* p := fieldName e in cstr p.

Definition getField (o : BSONObj) (name : list byte) : result BSONElement :=
  finish (fun _ => Ok BSONElement_empty)
    (for_elements o tt (fun _ e =>
       let* f := field_name e in
       Ok (if bytes_eqb name f then Return e else Continue tt))).

Definition hasField (o : BSONObj) (name : list byte) : result bool :=
  let* e := getField o name in
  let* b := eoo e in Ok (negb b).

Definition getObjectField (o : BSONObj) (name : list byte) : result BSONObj :=
  let* e := getField o name in
  let* t := type e in
  if bool_decide (t = Object) || bool_decide (t = Array) then embeddedObject e
  else Ok BSONObj_empty.

(** [strchr(name, '.')]: what is before and after the first dot. *)
Fixpoint split_dot (s : list byte) : option (list byte * list byte) :=
  match s with
  | [] => None
  | c :: r =>
      if Byte.eqb c "."%byte then Some ([], r)
      else match split_dot r with
           | Some (a, b) => Some (c :: a, b)
           | None => None
           end
  end.

(** [getFieldDotted(const char *name)]: each call drops at least the dot, so the
    length of the name bounds the recursion. *)
Fixpoint getFieldDotted_go (fuel : nat) (o : BSONObj) (name : list byte) : result BSONElement :=
  match fuel with
  | O => Err OutOfFuel
  | S fuel' =>
      let* e := getField o name in
      let* b := eoo e in
      if b then
        match split_dot name with
        | Some (lft, rgt) =>
            let* sub := getObjectField o lft in
            let* emp := isEmpty sub in
            if emp then Ok BSONElement_empty else getFieldDotted_go fuel' sub rgt
        | None => Ok e
        end
      else Ok e
  end.
Definition getFieldDotted (o : BSONObj) (name : list byte) : result BSONElement :=
  getFieldDotted_go (S (length name)) o name.

(** [std::string::c_str()] as a C string: what is before the first NUL. *)
Definition c_str (s : list byte) : list byte :=
  match until_nul s with Some t => t | None => s end.
Definition getFieldDotted_string (o : BSONObj) (name : list byte) : result BSONElement :=
  getFieldDotted o (c_str name).

(** [getFieldDottedOrArray]: stops at the first array; returns the element and
    what is left of the name. *)
Fixpoint getFieldDottedOrArray_go (fuel : nat) (o : BSONObj) (name : list byte)
    : result (BSONElement * list byte) :=
  match fuel with
  | O => Err OutOfFuel
  | S fuel' =>
      let* '(sub, name') :=
        match split_dot name with
        | Some (lft, rgt) => let* e := getField o lft in Ok (e, rgt)
        | None => let* e := getField o name in Ok (e, [])
        end in
      let* b := eoo sub in
      if b then Ok (BSONElement_empty, name')
      else
        let* t := type sub in
        if bool_decide (t = Array) || bool_decide (name' = []) then Ok (sub, name')
        else if bool_decide (t = Object) then
          let* o' := embeddedObject sub in getFieldDottedOrArray_go fuel' o' name'
        else Ok (BSONElement_empty, name')
  end.
Definition getFieldDottedOrArray (o : BSONObj) (name : list byte)
    : result (BSONElement * list byte) :=
  getFieldDottedOrArray_go (S (length name)) o name.

Definition nFields (o : BSONObj) : result Z :=
  finish Ok (for_elements_eoo o 0 (fun n _ => Ok (Continue (n + 1)))).

Definition elems (o : BSONObj) : result (list BSONElement) :=
  finish (fun l => Ok (rev l))
    (for_elements o [] (fun l e => Ok (Continue (e :: l)))).

Definition INT_MIN : Z := - 2 ^ 31.
Definition INT_MAX : Z := 2 ^ 31 - 1.

Definition getIntField (o : BSONObj) (name : list byte) : result Z :=
  let* e := getField o name in
  let* b := isNumber e in
  if b then let* d := number e in d_cast 32 d else Ok INT_MIN.

Definition getBoolField (o : BSONObj) (name : list byte) : result bool :=
  let* e := getField o name in
  let* t := type e in
  if bool_decide (t = BSONBool) then boolean e else Ok false.

Definition getStringField (o : BSONObj) (name : list byte) : result ptr :=
  let* e := getField o name in
  let* t := type e in
  if bool_decide (t = BSONString) then valuestr e else Ok (literal []).

(** [getObjectID]: the [_id] field, when there is one. *)
Definition getObjectID (o : BSONObj) : result (option BSONElement) :=
  let* f := getField o (bstr "_id") in
  let* b := eoo f in
  Ok (if b then None else Some f).

(** ** Whole-object functions *)

Definition binaryEqual (o r : BSONObj) : result bool :=
  let* os := objsize o in
  let* rs := objsize r in
  if os =? rs then
    if os =? 0 then Ok true
    else let* c := memcmp o r os in Ok (c =? 0)
  else Ok false.

(** The loop of [hash()] on the object's bytes: [x = x * 131 + p[i]] in
    unsigned arithmetic, [p[i]] a signed char. *)
Definition hash_step (x : Z) (b : byte) : Z := u32 (x * 131 + sc b).
Definition hash (o : BSONObj) : result Z :=
  let* n := objsize o in
  let* bs := if n <=? 0 then Ok [] else loads o n in
  let x := fold_left hash_step bs 0 in
  Ok (s32 (Z.lor (Z.land x 0x7fffffff) 0x8000000)).

(** ** Objects that encode a document *)

Definition obj_rep (o : BSONObj) (d : doc) : Prop := o ↦ enc_doc d /\ wf_doc d = true.

(** An iterator that has the fields [d] before it. *)
Definition it_rep (i : BSONObjIterator) (d : doc) : Prop :=
  _pos i ↦ enc_elems d ++ [x00] /\
  _theend i = off (_pos i) + zlen (enc_elems d) /\ wf_doc d = true.

Section obj_specs.
Context (o : BSONObj) (d : doc).
Hypothesis Ho : obj_rep o d.

Lemma obj_small : 5 <= zlen (enc_doc d) <= BSONObjMaxInternalSize.
Proof using Ho.
  destruct Ho as [_ Hw]. pose proof (wf_doc_size d Hw). rewrite zlen_enc_doc in *.
  pose proof (zlen_nonneg (enc_elems d)). lia.
Qed.

Lemma objsize_rep : objsize o = Ok (zlen (enc_doc d)).
Proof using Ho.
  pose proof obj_small. destruct Ho as [Hp _]. unfold objsize. rewrite zlen_enc_doc.
  eapply points_load_s32; [exact Hp|]. apply small_s32. rewrite zlen_enc_doc in *. lia.
Qed.

Lemma isValid_rep : isValid o = Ok true.
Proof using Ho.
  pose proof obj_small. unfold isValid. rewrite objsize_rep. cbn [bind]. f_equal. lia.
Qed.

Lemma BSONObj_init_rep : BSONObj_init o = Ok o.
Proof using Ho. unfold BSONObj_init. by rewrite isValid_rep. Qed.

Lemma isEmpty_rep : isEmpty o = Ok (bool_decide (d = [])).
Proof using Ho.
  unfold isEmpty. rewrite objsize_rep. cbn [bind]. rewrite zlen_enc_doc. f_equal.
  destruct d as [|[n v] r]; [done|]. rewrite zlen_enc_elems_cons, zlen_enc_elem.
  pose proof (zlen_nonneg n). pose proof (zlen_nonneg (enc_value v)).
  pose proof (zlen_nonneg (enc_elems r)). apply Z.leb_gt. lia.
Qed.

Lemma copy_rep : copy o = Ok (Ptr (enc_doc d) 0).
Proof using Ho.
  unfold copy. rewrite objsize_rep. cbn [bind]. destruct Ho as [Hp Hw].
  rewrite (points_loads_all _ _ _ Hp eq_refl). cbn [bind].
  unfold BSONObj_init, isValid, objsize. pose proof obj_small as Hs.
  rewrite zlen_enc_doc in Hs.
  erewrite points_load_s32;
    [|apply points_start|apply small_s32; lia]. cbn [bind].
  by replace (_ && _) with true by lia.
Qed.

Lemma iterator_rep : exists i, BSONObjIterator_of o = Ok i /\ it_rep i d /\
  mem (_pos i) = mem o.
Proof using Ho.
  pose proof obj_small as Hs. unfold BSONObjIterator_of. rewrite objsize_rep. cbn [bind].
  destruct (Z.eqb_spec (zlen (enc_doc d)) 0); [lia|].
  eexists. split; [done|]. split; [|done]. destruct Ho as [Hp Hw]. split; [|split]; simpl.
  - eapply points_app_r; [exact Hp|]. by rewrite zlen_le_bytes.
  - rewrite zlen_enc_doc. lia.
  - done.
Qed.

Lemma fuel_enough : (length d < fuel_of o)%nat.
Proof using Ho.
  destruct Ho as [(H0 & post & Hd & Hl) _]. unfold fuel_of.
  assert (Z.of_nat (length d) <= zlen (enc_elems d)) as Hle.
  { clear. induction d as [|[n v] r IH]; [done|].
    rewrite zlen_enc_elems_cons, zlen_enc_elem. simpl.
    pose proof (zlen_nonneg n). pose proof (zlen_nonneg (enc_value v)). lia. }
  assert (zlen (enc_doc d) <= zlen (mem o)).
  { unfold zlen. apply (f_equal length) in Hd. rewrite length_drop, length_app in Hd. lia. }
  rewrite zlen_enc_doc in *. unfold zlen in *. lia.
Qed.
End obj_specs.

Definition elem_of_pos (p : ptr) : BSONElement := MkElement p (-1) (-1).

Lemma next_rep i f d : it_rep i (f :: d) ->
  let e := elem_of_pos (_pos i) in
  let i' := MkIter (_pos i +! zlen (enc_elem f)) (_theend i) in
  more i = true /\ next i = Ok (e, i') /\ elem_ok e (fst f) (snd f) /\ it_rep i' d.
Proof.
  intros (Hp & He & Hw). destruct f as [n v]. cbn [fst snd].
  pose proof (wf_doc_size _ Hw) as Hs. apply wf_doc_cons in Hw as [Hf Hw].
  rewrite zlen_enc_doc, zlen_enc_elems_cons in Hs. rewrite zlen_enc_elems_cons in He.
  pose proof (zlen_nonneg (enc_elems d)).
  assert (0 < zlen (enc_elem (n, v))).
  { rewrite zlen_enc_elem. pose proof (zlen_nonneg n).
    pose proof (zlen_nonneg (enc_value v)). lia. }
  rewrite enc_elems_cons, <- app_assoc in Hp.
  assert (elem_ok (elem_of_pos (_pos i)) n v) as Hok.
  { split; [|split; [done|lia]]. split; [|auto]. by apply points_app_l in Hp. }
  split; [unfold more; lia|]. split; [|split; [done|]].
  - unfold next. replace (off (_pos i) <=? _theend i) with true by lia. cbn [verify bind].
    unfold BSONElement_at. fold (elem_of_pos (_pos i)).
    rewrite (eoo_rep_false _ _ _ Hok). cbn [bind]. by rewrite (size_rep _ _ _ Hok).
  - split; [|split]; simpl; [|lia|done]. eapply points_app_r; [exact Hp|done].
Qed.

Lemma next_rep_end i : it_rep i [] ->
  more i = false /\ moreWithEOO i = true /\
  next i = Ok (MkElement (_pos i) 0 1, MkIter (_pos i +! 1) (_theend i)) /\
  eoo_rep (MkElement (_pos i) 0 1).
Proof.
  intros (Hp & He & Hw). change (zlen (enc_elems [])) with 0 in He. simpl in Hp.
  unfold more, moreWithEOO. split; [lia|]. split; [lia|]. split; [|by split].
  unfold next. replace (off (_pos i) <=? _theend i) with true by lia. cbn [verify bind].
  unfold BSONElement_at, eoo, type. simpl data.
  erewrite points_load by exact Hp. done.
Qed.

Lemma eoo_rep_true e : eoo_rep e -> eoo e = Ok true.
Proof. intros (Hp & _). unfold eoo, type. by erewrite points_load by exact Hp. Qed.

(** ** The loops as folds over the fields *)

Section simulation.
Context {S R S' R' : Type}.
Context (body : S -> BSONElement -> result (step S R)).
Context (abody : S' -> field -> step S' R').
Context (RS : S -> S' -> Prop) (RR : R -> R' -> Prop).

Fixpoint run_fields (d : doc) (s : S') : step S' R' :=
  match d with
  | [] => Continue s
  | f :: r =>
      match abody s f with
      | Continue s' => run_fields r s'
      | Return x => Return x
      end
  end.

Inductive step_rel : step S R -> step S' R' -> Prop :=
  | step_rel_continue s s' : RS s s' -> step_rel (Continue s) (Continue s')
  | step_rel_return r r' : RR r r' -> step_rel (Return r) (Return r').

Definition body_rel (m : list byte) (d : doc) : Prop := forall s s' e n v,
  RS s s' -> elem_ok e n v -> In (n, v) d -> mem (data e) = m ->
  exists st, body s e = Ok st /\ step_rel st (abody s' (n, v)).

Lemma body_rel_cons m f d : body_rel m (f :: d) -> body_rel m d.
Proof. intros H s s' e n v Hs He Hin. apply H; [done|done|by right]. Qed.

Lemma loop_more_sim d : forall fuel i s s',
  (length d < fuel)%nat -> it_rep i d -> body_rel (mem (_pos i)) d -> RS s s' ->
  exists st, loop_more body fuel i s = Ok st /\ step_rel st (run_fields d s').
Proof.
  induction d as [|[n v] d IH]; intros [|fuel] i s s' Hfuel Hi Hb Hs; simpl in Hfuel; try lia.
  - apply next_rep_end in Hi as (Hm & _). simpl. rewrite Hm. eexists. split; [done|].
    by constructor.
  - apply next_rep in Hi as (Hm & Hn & Hok & Hi'). cbn [loop_more]. rewrite Hm, Hn. cbn [bind].
    destruct (Hb s s' _ n v Hs Hok ltac:(by left) eq_refl) as (st & Hst & Hr).
    rewrite Hst. cbn [bind run_fields]. destruct Hr as [t t' Ht|r r' Hr].
    + apply IH; [lia|done|by eapply body_rel_cons|done].
    + eexists. split; [done|]. by constructor.
Qed.

Lemma loop_eoo_sim d : forall fuel i s s',
  (length d < fuel)%nat -> it_rep i d -> body_rel (mem (_pos i)) d -> RS s s' ->
  exists st, loop_eoo body fuel i s = Ok st /\ step_rel st (run_fields d s').
Proof.
  induction d as [|[n v] d IH]; intros [|fuel] i s s' Hfuel Hi Hb Hs; simpl in Hfuel; try lia.
  - apply next_rep_end in Hi as (_ & Hm & Hn & He). cbn [loop_eoo]. rewrite Hm, Hn. cbn [bind].
    rewrite (eoo_rep_true _ He). eexists. split; [done|]. by constructor.
  - apply next_rep in Hi as (Hm & Hn & Hok & Hi'). cbn [loop_eoo].
    replace (moreWithEOO i) with true by (unfold more, moreWithEOO in *; lia).
    rewrite Hn. cbn [bind]. rewrite (eoo_rep_false _ _ _ Hok). cbn [bind].
    destruct (Hb s s' _ n v Hs Hok ltac:(by left) eq_refl) as (st & Hst & Hr).
    rewrite Hst. cbn [bind run_fields]. destruct Hr as [t t' Ht|r r' Hr].
    + apply IH; [lia|done|by eapply body_rel_cons|done].
    + eexists. split; [done|]. by constructor.
Qed.

Lemma for_elements_sim o d s s' :
  obj_rep o d -> body_rel (mem o) d -> RS s s' ->
  exists st, for_elements o s body = Ok st /\ step_rel st (run_fields d s').
Proof.
  intros Ho Hb Hs. destruct (iterator_rep o d Ho) as (i & Hi & Hr & Hm).
  unfold for_elements. rewrite Hi. cbn [bind].
  apply loop_more_sim; [by apply fuel_enough|done|by rewrite Hm|done].
Qed.

Lemma for_elements_eoo_sim o d s s' :
  obj_rep o d -> body_rel (mem o) d -> RS s s' ->
  exists st, for_elements_eoo o s body = Ok st /\ step_rel st (run_fields d s').
Proof.
  intros Ho Hb Hs. destruct (iterator_rep o d Ho) as (i & Hi & Hr & Hm).
  unfold for_elements_eoo. rewrite Hi. cbn [bind].
  apply loop_eoo_sim; [by apply fuel_enough|done|by rewrite Hm|done].
Qed.
End simulation.

(** ** Loop invariants over the fields seen so far *)

Section invariant.
Context {S R : Type}.
Context (body : S -> BSONElement -> result (step S R)).
Context (Inv : doc -> S -> Prop) (all : doc).

(** The body, run on the field after [pre], keeps the invariant. *)
Definition keeps (m : list byte) : Prop := forall pre n v post s e,
  all = pre ++ (n, v) :: post -> Inv pre s -> elem_ok e n v -> mem (data e) = m ->
  exists s', body s e = Ok (Continue s') /\ Inv (pre ++ [(n, v)]) s'.

Lemma loop_more_inv d : forall pre fuel i s,
  all = pre ++ d -> (length d < fuel)%nat -> it_rep i d -> keeps (mem (_pos i)) -> Inv pre s ->
  exists s', loop_more body fuel i s = Ok (Continue s') /\ Inv all s'.
Proof.
  induction d as [|[n v] d IH]; intros pre [|fuel] i s Hall Hf Hi Hk Hs; simpl in Hf; try lia.
  - apply next_rep_end in Hi as (Hm & _). simpl. rewrite Hm. exists s. split; [done|].
    by rewrite Hall, app_nil_r.
  - apply next_rep in Hi as (Hm & Hn & Hok & Hi'). cbn [loop_more]. rewrite Hm, Hn. cbn [bind].
    destruct (Hk pre n v d s _ Hall Hs Hok eq_refl) as (s' & Hs' & Hinv). rewrite Hs'.
    cbn [bind]. apply (IH (pre ++ [(n, v)])); [|lia|done|done|done].
    by rewrite <- app_assoc.
Qed.

Lemma loop_eoo_inv d : forall pre fuel i s,
  all = pre ++ d -> (length d < fuel)%nat -> it_rep i d -> keeps (mem (_pos i)) -> Inv pre s ->
  exists s', loop_eoo body fuel i s = Ok (Continue s') /\ Inv all s'.
Proof.
  induction d as [|[n v] d IH]; intros pre [|fuel] i s Hall Hf Hi Hk Hs; simpl in Hf; try lia.
  - apply next_rep_end in Hi as (_ & Hm & Hn & He). cbn [loop_eoo]. rewrite Hm, Hn. cbn [bind].
    rewrite (eoo_rep_true _ He). exists s. split; [done|]. by rewrite Hall, app_nil_r.
  - apply next_rep in Hi as (Hm & Hn & Hok & Hi'). cbn [loop_eoo].
    replace (moreWithEOO i) with true by (unfold more, moreWithEOO in *; lia).
    rewrite Hn. cbn [bind]. rewrite (eoo_rep_false _ _ _ Hok). cbn [bind].
    destruct (Hk pre n v d s _ Hall Hs Hok eq_refl) as (s' & Hs' & Hinv). rewrite Hs'.
    cbn [bind]. apply (IH (pre ++ [(n, v)])); [|lia|done|done|done].
    by rewrite <- app_assoc.
Qed.

Lemma for_elements_inv o s : obj_rep o all -> keeps (mem o) -> Inv [] s ->
  exists s', for_elements o s body = Ok (Continue s') /\ Inv all s'.
Proof.
  intros Ho Hk Hs. destruct (iterator_rep o all Ho) as (i & Hi & Hr & Hm).
  unfold for_elements. rewrite Hi. cbn [bind].
  apply (loop_more_inv all []); [done|by apply fuel_enough|done|by rewrite Hm|done].
Qed.

Lemma for_elements_eoo_inv o s : obj_rep o all -> keeps (mem o) -> Inv [] s ->
  exists s', for_elements_eoo o s body = Ok (Continue s') /\ Inv all s'.
Proof.
  intros Ho Hk Hs. destruct (iterator_rep o all Ho) as (i & Hi & Hr & Hm).
  unfold for_elements_eoo. rewrite Hi. cbn [bind].
  apply (loop_eoo_inv all []); [done|by apply fuel_enough|done|by rewrite Hm|done].
Qed.
End invariant.
