(* ===== verification/Validate.v ===== *)
(** * Validate: the validator of BSON data (bson/bson_validate.cpp)

    [validateBSON] walks a buffer with a position and a stack of the objects
    it is in, as a machine with the states of [ValidationState].  The buffer's
    operations are a reader that ends with a status or goes on; the walk is a
    loop on fuel over [validate_step], because the code's loop need not stop:
    ValidateSpec.v shows when it does. *)

From stdpp Require Import base list numbers strings option tactics.
From Stdlib Require Import Strings.Byte ZArith Lia.
From S2P Require Import Prelude Memory Status BsonTypes Format Obj.

Module BsonValidate.

(** Every status that is not OK has this code. *)
Definition InvalidBSON (reason : list byte) : Status := error_status ErrorCodes.InvalidBSON reason.

(** ** The buffer *)

Record Buffer := MkBuffer { _buffer : ptr; _position : Z; _maxLength : Z }.

Definition at_position (b : Buffer) (pos : Z) : Buffer := MkBuffer (_buffer b) pos (_maxLength b).
Definition here (b : Buffer) : ptr := _buffer b +! _position b.

(** What a step of the validator ends with: a value and the buffer, a status
    that is not OK, or an error that is no status of the code. *)
Inductive outcome (A : Type) :=
  | Read (a : A) (b : Buffer)
  | Invalid (reason : list byte)
  | Stuck (e : err).
Arguments Read {A} a b.
Arguments Invalid {A} reason.
Arguments Stuck {A} e.

Definition reader (A : Type) := Buffer -> outcome A.

#[export] Instance reader_ret : MRet reader := fun A a b => Read a b.
#[export] Instance reader_bind : MBind reader := fun A B k m b =>
  match m b with
  | Read a b' => k a b'
  | Invalid r => Invalid r
  | Stuck e => Stuck e
  end.

Definition invalid {A} (reason : list byte) : reader A := fun _ => Invalid reason.

(** [if (!ok) return Status(ErrorCodes::InvalidBSON, reason)]. *)
Definition check (reason : list byte) (ok : bool) : reader unit := fun b =>
  if ok then Read tt b else Invalid reason.

(** A number of [size] bytes, as bytes: [None] where the code returns false. *)
Definition readNumber (size : Z) : reader (option (list byte)) := fun b =>
  if _maxLength b <? u64 (_position b + size) then Read None b
  else match loads (here b) size with
       | Ok bs => Read (Some bs) (at_position b (u64 (_position b + size)))
       | Err e => Stuck e
       end.

Definition readNumber_or (reason : list byte) (size : Z) : reader (list byte) :=
  x ← readNumber size;
  match x with Some bs => mret bs | None => invalid reason end.

(** [memchr] looks at the bytes up to the NUL it finds, as [strnlen] does. *)
Definition readCString : reader (list byte) := fun b =>
  match strnlen (here b) (u64 (_maxLength b - _position b)) with
  | Err e => Stuck e
  | Ok len =>
      if len =? -1 then Invalid (bstr "no end of c-string")
      else match loads (here b) len with
           | Ok s => Read s (at_position b (u64 (_position b + (len + 1))))
           | Err e => Stuck e
           end
  end.

(** The sum is unsigned: a negative [sz] moves the position back. *)
Definition skip (sz : Z) : reader bool := fun b =>
  let b' := at_position b (u64 (_position b + u64 sz)) in
  Read (_position b' <? _maxLength b') b'.

Definition skip_or (reason : list byte) (sz : Z) : reader unit :=
  ok ← skip sz; check reason ok.

(** An [int] computed from what was read; one that overflows is undefined. *)
Definition checked_int (n : Z) : reader Z := fun b =>
  if in_s 32 n then Read n b else Stuck UndefinedBehaviour.

Definition invalid_bson : list byte := bstr "invalid bson".

(** [readUTF8String(NULL)]: no caller asks for the string. *)
Definition readUTF8String : reader unit :=
  sz ← readNumber_or invalid_bson 4;
  n ← checked_int (s32 (le_val sz) - 1);
  skip_or invalid_bson n;;
  c ← readNumber_or invalid_bson 1;
  check (bstr "not null terminate string") (le_val c =? 0).

(** ** The state of the walk *)

Inductive State := BeginObj | WithinObj | EndObj | BeginCodeWScope | EndCodeWScope | Done.

#[export] Instance State_eq_dec : EqDecision State.
Proof. solve_decision. Defined.

(** The top bit of the start position says whether the frame is a code with
    scope. *)
Record ValidationObjectFrame := MkFrame { expectedSize : Z; _startPosition : Z }.

Definition ValidationObjectFrame_new : ValidationObjectFrame := MkFrame 0 0.

Definition code_bit : Z := - 2 ^ 31.

Definition startPosition (f : ValidationObjectFrame) : Z := Z.land (_startPosition f) (Z.lnot code_bit).
Definition isCodeWithScope (f : ValidationObjectFrame) : bool :=
  negb (Z.land (_startPosition f) code_bit =? 0).

Definition setStartPosition (pos : Z) (f : ValidationObjectFrame) : ValidationObjectFrame :=
  MkFrame (expectedSize f)
    (Z.lor (Z.land (_startPosition f) code_bit) (Z.land pos (Z.lnot code_bit))).

Definition setIsCodeWithScope (isCodeWithScope : bool) (f : ValidationObjectFrame) : ValidationObjectFrame :=
  MkFrame (expectedSize f)
    (if isCodeWithScope then Z.lor (_startPosition f) code_bit
     else Z.land (_startPosition f) (Z.lnot code_bit)).

Definition setExpectedSize (n : Z) (f : ValidationObjectFrame) : ValidationObjectFrame :=
  MkFrame n (_startPosition f).

(** One element: the state the walk is in after it. *)
Definition validateElementInfo : reader State :=
  ty ← readNumber_or invalid_bson 1;
  let type := type_of_code (s8 (le_val ty)) in
  if bool_decide (type = EOO) then mret EndObj
  else
    name ← readCString;
    match type with
    | MinKey | MaxKey | jstNULL | Undefined => mret WithinObj
    | jstOID => skip_or invalid_bson 12;; mret WithinObj
    | NumberInt => skip_or invalid_bson 4;; mret WithinObj
    | BSONBool => skip_or invalid_bson 1;; mret WithinObj
    | NumberDouble | NumberLong | Timestamp | Date => skip_or invalid_bson 8;; mret WithinObj
    | DBRef => readUTF8String;; ignored ← skip 12; mret WithinObj
    | RegEx => readCString;; readCString;; mret WithinObj
    | Code | Symbol | BSONString => readUTF8String;; mret WithinObj
    | BinData =>
        sz ← readNumber_or invalid_bson 4;
        n ← checked_int (1 + s32 (le_val sz));
        skip_or invalid_bson n;; mret WithinObj
    | CodeWScope => mret BeginCodeWScope
    | Object | Array => mret BeginObj
    | EOO | InvalidType _ => invalid (bstr "invalid bson type")
    end.

(** [frames], the innermost first; [curr] is its head, and dangles when there
    is none. *)
Record config := MkConfig { state : State; frames : list ValidationObjectFrame; buffer : Buffer }.

(** A new frame at the position, with the size that is read there. *)
Definition push_frame (code : bool) (reason : list byte) : reader ValidationObjectFrame := fun b =>
  (size ← readNumber_or reason 4;
   mret (setExpectedSize (s32 (le_val size))
     (setIsCodeWithScope code (setStartPosition (s32 (_position b)) ValidationObjectFrame_new)))) b.

(** [int actualLength = buffer->position() - curr->startPosition()]. *)
Definition actualLength (b : Buffer) (curr : ValidationObjectFrame) : Z :=
  s32 (_position b - startPosition curr).

(** One turn of the loop: the next configuration, a status that is not OK, or
    an error. *)
Definition validate_step (c : config) : outcome config :=
  let b := buffer c in
  let continue (fs : list ValidationObjectFrame) (r : reader State) : reader config := fun b =>
    match r b with
    | Read st b' => Read (MkConfig st fs b') b'
    | Invalid reason => Invalid reason
    | Stuck e => Stuck e
    end in
  match state c with
  | BeginObj =>
      (curr ← push_frame false (bstr "bson size is larger than buffer size");
       continue (curr :: frames c) validateElementInfo) b
  | WithinObj => continue (frames c) validateElementInfo b
  | EndObj =>
      match frames c with
      | [] => Stuck OutOfBounds
      | curr :: fs =>
          if actualLength b curr =? expectedSize curr then
            match fs with
            | [] => Read (MkConfig Done [] b) b
            | curr' :: _ =>
                Read (MkConfig (if isCodeWithScope curr' then EndCodeWScope else WithinObj) fs b) b
            end
          else Invalid (bstr "bson length doesn't match what we found")
      end
  | BeginCodeWScope =>
      (curr ← push_frame true (bstr "invalid bson CodeWScope size");
       readUTF8String;;
       continue (curr :: frames c) (mret BeginObj)) b
  | EndCodeWScope =>
      match frames c with
      | [] => Stuck OutOfBounds
      | curr :: fs =>
          if actualLength b curr =? expectedSize curr then
            match fs with
            | [] => Invalid (bstr "unnested CodeWScope")
            | _ => Read (MkConfig WithinObj fs b) b
            end
          else Invalid (bstr "bson length for CodeWScope doesn't match what we found")
      end
  | Done => Read c b
  end.

Fixpoint validate_loop (fuel : nat) (c : config) : result Status :=
  if bool_decide (state c = Done) then Ok Status_OK
  else
    match fuel with
    | O => Err OutOfFuel
    | S fuel' =>
        match validate_step c with
        | Read c' _ => validate_loop fuel' c'
        | Invalid reason => Ok (InvalidBSON reason)
        | Stuck e => Err e
        end
    end.

Definition validateBSONIterative (fuel : nat) (b : Buffer) : result Status :=
  validate_loop fuel (MkConfig BeginObj [] b).

Definition validateBSON (fuel : nat) (originalBuffer : ptr) (maxLength : Z) : result Status :=
  if maxLength <? 5 then Ok (InvalidBSON (bstr "bson data has to be at least 5 bytes"))
  else validateBSONIterative fuel (MkBuffer originalBuffer 0 maxLength).

(** [BSONObj::valid()]. *)
Definition valid (fuel : nat) (o : BSONObj) : result bool :=
  let* n := objsize o in
  let* s := validateBSON fuel o (u64 n) in
  Ok (isOK s).

End BsonValidate.
