(* ===== verification/ValidateSpec.v ===== *)
(** * ValidateSpec: what the validator accepts and when it stops

    [lays_fields] says which bytes are the elements of a document, as
    Format.v encodes them but with any byte for a boolean.  On a buffer that
    holds such an object the validator answers OK; what it accepts is one when
    the sizes it met are positive; a size that is not can send it back, and a
    buffer of eleven bytes keeps it in its loop for ever. *)

From stdpp Require Import base list numbers strings option relations tactics.
From Stdlib Require Import Strings.Byte ZArith Lia.
From S2P Require Import Prelude Memory Status BsonTypes Format Element Obj Validate.
Import BsonValidate.

(** ** The frames *)

Lemma land_code_bit pos : 0 <= pos < 2 ^ 31 -> Z.land pos code_bit = 0.
Proof.
  intros H. change code_bit with (Z.lnot (Z.ones 31)). rewrite <- Z.ldiff_land.
  destruct (Z.eq_dec pos 0) as [-> |]; [done|]. apply Z.ldiff_ones_r_low; [lia|]. apply Z.log2_lt_pow2; lia.
Qed.

Lemma land_lnot_code_bit pos : 0 <= pos < 2 ^ 31 -> Z.land pos (Z.lnot code_bit) = pos.
Proof.
  intros H. change (Z.lnot code_bit) with (Z.ones 31). rewrite Z.land_ones by lia. by apply Z.mod_small.
Qed.

Definition frame (code : bool) (pos size : Z) : ValidationObjectFrame :=
  setExpectedSize size (setIsCodeWithScope code (setStartPosition pos ValidationObjectFrame_new)).

Lemma frame_start code pos size : 0 <= pos < 2 ^ 31 -> startPosition (frame code pos size) = pos.
Proof.
  intros H. unfold startPosition, frame, setExpectedSize, setIsCodeWithScope, setStartPosition. cbn [_startPosition].
  rewrite Z.land_0_l, Z.lor_0_l, (land_lnot_code_bit pos) by done. destruct code.
  - rewrite Z.land_lor_distr_l, (land_lnot_code_bit pos) by done. apply Z.lor_0_r.
  - by rewrite !(land_lnot_code_bit pos).
Qed.

Lemma frame_code code pos size : 0 <= pos < 2 ^ 31 -> isCodeWithScope (frame code pos size) = code.
Proof.
  intros H. unfold isCodeWithScope, frame, setExpectedSize, setIsCodeWithScope, setStartPosition. cbn [_startPosition].
  rewrite Z.land_0_l, Z.lor_0_l, (land_lnot_code_bit pos) by done. destruct code.
  - by rewrite Z.land_lor_distr_l, (land_code_bit pos).
  - by rewrite (land_lnot_code_bit pos), (land_code_bit pos).
Qed.

(** ** The bytes of an object *)

(** A value that is not nested, of the range of its type. *)
Definition flat (v : value) : bool :=
  match v with
  | VMinKey | VMaxKey | VUndefined | VNull | VString _ | VCode _ | VSymbol _ | VBinData _ _ => true
  | VDouble n | VDate n | VTimestamp n => in_u 64 n
  | VOID o | VDBRef _ o => zlen o =? 12
  | VRegEx p o => no_nul p && no_nul o
  | VInt n => in_s 32 n
  | VLong n => in_s 64 n
  | VBool _ | VObject _ | VArray _ | VCodeWScope _ _ => false
  end.

Definition enc_code (c b : list byte) : list byte :=
  le32 (zlen (enc_string c ++ enc_frame b) + 4) ++ enc_string c ++ enc_frame b.

Inductive lays_out : value -> list byte -> Prop :=
  | lays_flat v : flat v = true -> lays_out v (enc_value v)
  | lays_bool c : lays_out (VBool (negb (Byte.eqb c x00))) [c]
  | lays_object d b : lays_fields d b -> lays_out (VObject d) (enc_frame b)
  | lays_array d b : lays_fields d b -> lays_out (VArray d) (enc_frame b)
  | lays_code c d b : lays_fields d b -> lays_out (VCodeWScope c d) (enc_code c b)
with lays_fields : doc -> list byte -> Prop :=
  | lays_nil : lays_fields [] []
  | lays_cons n v d vb b : no_nul n = true -> lays_out v vb -> lays_fields d b ->
      lays_fields ((n, v) :: d) (type_byte (vtype v) :: n ++ x00 :: vb ++ b).

Scheme lays_out_ind2 := Minimality for lays_out Sort Prop
  with lays_fields_ind2 := Minimality for lays_fields Sort Prop.
Combined Scheme lays_ind from lays_out_ind2, lays_fields_ind2.

(** What an element is between the bytes before and after it, with the state
    the walk is in after it. *)
Inductive element : State -> list byte -> list byte -> Prop :=
  | element_end s : element EndObj (x00 :: s) s
  | element_value n v vb s : no_nul n = true -> lays_out v vb ->
      element WithinObj (type_byte (vtype v) :: n ++ x00 :: vb ++ s) s
  | element_nested n t s : no_nul n = true -> t = Object \/ t = Array ->
      element BeginObj (type_byte t :: n ++ x00 :: s) s
  | element_code n s : no_nul n = true -> element BeginCodeWScope (type_byte CodeWScope :: n ++ x00 :: s) s.

(** The encoding of a well-formed document is laid out. *)
Lemma lays_enc_fields d : Forall (fun f : field => wf_value (snd f) = true -> lays_out (snd f) (enc_value (snd f))) d ->
  forallb wf_field d = true -> lays_fields d (enc_elems d).
Proof.
  induction 1 as [|[n v] d Hv _ IH]; intros Hw; [constructor|]. cbn [forallb] in Hw.
  apply andb_prop in Hw as [[Hn Hv']%wf_field_parts Hw]. rewrite enc_elems_cons. unfold enc_elem. cbn [fst snd].
  rewrite <- app_comm_cons, <- app_assoc. constructor; [done|by apply Hv|by apply IH].
Qed.

Lemma lays_enc v : wf_value v = true -> lays_out v (enc_value v).
Proof.
  pattern v. apply value_nested_ind; clear v.
  - intros v. destruct v; try exact I; intros Hw; try (apply lays_flat; cbn [wf_value flat] in *;
      rewrite ?andb_true_iff in Hw; rewrite ?andb_true_iff; tauto).
    destruct b; [apply (lays_bool x01)|apply (lays_bool x00)].
  - intros d IH [Hw _]%andb_prop. apply lays_object. by apply lays_enc_fields.
  - intros d IH [Hw _]%andb_prop. apply lays_array. by apply lays_enc_fields.
  - intros c d IH [[_ Hw]%andb_prop _]%andb_prop. rewrite enc_value_code. apply lays_code. by apply lays_enc_fields.
Qed.

Lemma lays_enc_doc d : wf_doc d = true -> lays_fields d (enc_elems d).
Proof. intros [Hw _]%andb_prop. apply lays_enc_fields; [apply List.Forall_forall; intros f _; apply lays_enc|done]. Qed.

(** ** The sizes the validator meets *)

Definition from {A} (m : reader A) (test : A -> Buffer -> bool) (b : Buffer) : bool :=
  match m b with Read a b' => test a b' | _ => true end.

(** The size of a string counts its NUL. *)
Definition size_at_least (n : Z) : Buffer -> bool :=
  from (readNumber_or invalid_bson 4) (fun sz _ => n <=? s32 (le_val sz)).

(** The element has no size less than the least one of its type. *)
Definition element_size_ok : Buffer -> bool :=
  from (readNumber_or invalid_bson 1) (fun ty => from readCString (fun _ b =>
    match type_of_code (s8 (le_val ty)) with
    | Code | Symbol | BSONString | DBRef => size_at_least 1 b
    | BinData => size_at_least 0 b
    | _ => true
    end)).

(** The turn of the loop meets no such size. *)
Definition step_size_ok (c : config) : bool :=
  match state c with
  | WithinObj => element_size_ok (buffer c)
  | BeginObj => from (readNumber_or invalid_bson 4) (fun _ => element_size_ok) (buffer c)
  | BeginCodeWScope => from (readNumber_or invalid_bson 4) (fun _ => size_at_least 1) (buffer c)
  | EndObj | EndCodeWScope | Done => true
  end.

(** No turn of the walk from [c] meets one. *)
Fixpoint sizes_ok (fuel : nat) (c : config) : bool :=
  step_size_ok c &&
  match fuel, validate_step c with
  | S fuel', Read c' _ => sizes_ok fuel' c'
  | _, _ => true
  end.

(** The element from its type byte and name on. *)
Definition after_name (type : BSONType) : reader State :=
  match type with
  | MinKey | MaxKey | jstNULL | Undefined => mret WithinObj
  | jstOID => skip_or invalid_bson 12;; mret WithinObj
  | NumberInt => skip_or invalid_bson 4;; mret WithinObj
  | BSONBool => skip_or invalid_bson 1;; mret WithinObj
  | NumberDouble | NumberLong | Timestamp | Date => skip_or invalid_bson 8;; mret WithinObj
  | DBRef => readUTF8String;; ignored ← skip 12; mret WithinObj
  | RegEx => readCString;; readCString;; mret WithinObj
  | Code | Symbol | BSONString => readUTF8String;; mret WithinObj
  | BinData =>
      sz ← readNumber_or invalid_bson 4;
      n ← checked_int (1 + s32 (le_val sz));
      skip_or invalid_bson n;; mret WithinObj
  | CodeWScope => mret BeginCodeWScope
  | Object | Array => mret BeginObj
  | EOO | InvalidType _ => invalid (bstr "invalid bson type")
  end.

Definition size_ok (t : BSONType) : Buffer -> bool :=
  match t with
  | Code | Symbol | BSONString | DBRef => size_at_least 1
  | BinData => size_at_least 0
  | _ => fun _ => true
  end.

(** ** Reading from a buffer *)

Section buffer.
Variables (p : ptr) (bs : list byte).
Hypothesis Hp : p ↦ bs.
Hypothesis Hz : zlen bs < 2 ^ 31.

(** The buffer with the bytes [s] left, a suffix of its bytes. *)
Definition left_ (s : list byte) : Buffer := MkBuffer p (zlen bs - zlen s) (zlen bs).

Definition suffix_ (s : list byte) : Prop := s `suffix_of` bs.

Lemma suffix_zlen s : suffix_ s -> 0 <= zlen s <= zlen bs.
Proof. intros [a Ha]. pose proof (f_equal zlen Ha) as H. rewrite zlen_app in H. pose proof (zlen_nonneg a).
  pose proof (zlen_nonneg s). lia. Qed.

Lemma suffix_drop a s : suffix_ (a ++ s) -> suffix_ s.
Proof. intros [b Hb]. exists (b ++ a). by rewrite <- app_assoc. Qed.

Lemma here_left s : suffix_ s -> here (left_ s) ↦ s.
Proof.
  intros [a Ha]. unfold here, left_. cbn [_buffer _position].
  apply (points_app_r _ a); [by rewrite <- Ha|]. pose proof (f_equal zlen Ha) as H. rewrite zlen_app in H. lia.
Qed.

(** Every position within the buffer leaves a suffix. *)
Lemma position_suffix n : 0 <= n <= zlen bs -> exists s, suffix_ s /\
  MkBuffer p n (zlen bs) = left_ s /\ zlen s = zlen bs - n.
Proof.
  intros Hn. exists (drop (Z.to_nat n) bs).
  assert (zlen (drop (Z.to_nat n) bs) = zlen bs - n) as Hl by (unfold zlen in *; rewrite length_drop; lia).
  split; [apply suffix_drop with (take (Z.to_nat n) bs); by rewrite take_drop; exists []|].
  split; [|done]. unfold left_. f_equal. lia.
Qed.

Lemma readNumber_here a s k : suffix_ (a ++ s) -> zlen a = k -> readNumber k (left_ (a ++ s)) = Read (Some a) (left_ s).
Proof.
  intros Hs Ha. pose proof (suffix_zlen _ Hs) as Hl. rewrite zlen_app in Hl. pose proof (zlen_nonneg a).
  pose proof (zlen_nonneg s). unfold readNumber. cbn [_maxLength _position left_].
  rewrite zlen_app, wrap_u_small by (change (2 ^ 64) with (2 ^ 31 * 2 ^ 33); lia).
  rewrite (proj2 (Z.ltb_ge _ _)) by lia. change (MkBuffer _ _ _) with (left_ (a ++ s)).
  rewrite (points_loads _ a s) by (done || by apply here_left). unfold at_position, left_. cbn. do 2 f_equal. lia.
Qed.

Lemma readNumber_short s k : suffix_ s -> zlen s < k <= 8 -> readNumber k (left_ s) = Read None (left_ s).
Proof.
  intros Hs Hk. pose proof (suffix_zlen _ Hs). unfold readNumber. cbn [_maxLength _position left_].
  rewrite wrap_u_small by (change (2 ^ 64) with (2 ^ 31 * 2 ^ 33); lia). by rewrite (proj2 (Z.ltb_lt _ _)) by lia.
Qed.

Lemma readNumber_cases r s k : suffix_ s -> 0 <= k <= 8 ->
  (exists a s', s = a ++ s' /\ zlen a = k /\ readNumber_or r k (left_ s) = Read a (left_ s')) \/
  (zlen s < k /\ readNumber_or r k (left_ s) = Invalid r).
Proof.
  intros Hs Hk. unfold readNumber_or, mbind, reader_bind. destruct (Z_lt_ge_dec (zlen s) k) as [Hl|Hl].
  - right. by rewrite readNumber_short by (done || lia).
  - left. exists (take (Z.to_nat k) s), (drop (Z.to_nat k) s). rewrite take_drop. split; [done|].
    assert (zlen (take (Z.to_nat k) s) = k) as Ht by (unfold zlen in *; rewrite length_take; lia). split; [done|].
    rewrite <- (take_drop (Z.to_nat k) s) at 1. by rewrite (readNumber_here _ _ k) by (by rewrite ?take_drop).
Qed.

Lemma readNumber_or_here r a s k : suffix_ (a ++ s) -> zlen a = k ->
  readNumber_or r k (left_ (a ++ s)) = Read a (left_ s).
Proof. intros Hs Ha. unfold readNumber_or, mbind, reader_bind. by rewrite (readNumber_here a s k Hs Ha). Qed.

Lemma strnlen_go_none s r i : no_nul s = true -> strnlen_go (s ++ r) i (length s) = Ok (-1).
Proof.
  revert i. induction s as [|c s IH]; intros i Hs; [by destruct r|]. unfold no_nul in *.
  cbn [forallb strnlen_go length app] in *.
  apply andb_prop in Hs as [Hc%negb_true_iff Hs]. rewrite Hc. by apply IH.
Qed.

Lemma readCString_here n s : suffix_ (n ++ x00 :: s) -> no_nul n = true ->
  readCString (left_ (n ++ x00 :: s)) = Read n (left_ s).
Proof.
  intros Hs Hn. pose proof (suffix_zlen _ Hs) as Hl. rewrite zlen_app, zlen_cons in Hl.
  pose proof (zlen_nonneg n). pose proof (zlen_nonneg s). unfold readCString.
  assert (u64 (_maxLength (left_ (n ++ x00 :: s)) - _position (left_ (n ++ x00 :: s))) = zlen n + (1 + zlen s)) as ->.
  { cbn [_maxLength _position left_]. rewrite zlen_app, zlen_cons.
    rewrite wrap_u_small; [lia|]. change (2 ^ 64) with (2 ^ 31 * 2 ^ 33). lia. }
  pose proof (here_left _ Hs) as Hh.
  rewrite (points_strnlen _ n s) by (done || lia). rewrite (proj2 (Z.eqb_neq _ _)) by lia.
  rewrite (points_loads _ n (x00 :: s)) by done.
  unfold at_position, left_. cbn [_buffer _position _maxLength]. rewrite zlen_app, zlen_cons.
  rewrite wrap_u_small by (change (2 ^ 64) with (2 ^ 31 * 2 ^ 33); lia). do 2 f_equal. lia.
Qed.

Lemma until_nul_split s : (exists n r, s = n ++ x00 :: r /\ no_nul n = true) \/ no_nul s = true.
Proof.
  induction s as [|c s IH]; [by right|]. destruct (byte_eqb_spec c x00) as [->|Hc].
  - left. by exists [], s.
  - destruct IH as [(n & r & -> & Hn)|Hn]; [left|right].
    + exists (c :: n), r. split; [done|]. unfold no_nul in *. cbn [forallb]. rewrite Hn, andb_true_r. by destruct (byte_eqb_spec c x00).
    + unfold no_nul in *. cbn [forallb]. rewrite Hn, andb_true_r. by destruct (byte_eqb_spec c x00).
Qed.

Lemma readCString_cases s : suffix_ s ->
  (exists n s', s = n ++ x00 :: s' /\ no_nul n = true /\ readCString (left_ s) = Read n (left_ s')) \/
  (exists r, readCString (left_ s) = Invalid r).
Proof.
  intros Hs. destruct (until_nul_split s) as [(n & r & -> & Hn)|Hn].
  - left. exists n, r. by rewrite readCString_here.
  - right. eexists. pose proof (suffix_zlen _ Hs) as Hl. unfold readCString.
    assert (u64 (_maxLength (left_ s) - _position (left_ s)) = zlen s) as ->.
    { cbn [_maxLength _position left_]. rewrite wrap_u_small; [lia|]. change (2 ^ 64) with (2 ^ 31 * 2 ^ 33). lia. }
    assert (strnlen (here (left_ s)) (zlen s) = Ok (-1)) as ->; [|done].
    unfold strnlen. destruct (Z.leb_spec (zlen s) 0); [done|]. destruct (points_rest _ _ (here_left _ Hs)) as [post ->].
    cbn [bind]. rewrite zlen_nat. by rewrite strnlen_go_none.
Qed.
(** [m] ends with [Q] of what it read and of the bytes left, with a status, or
    with an [int] that overflows. *)
Definition reads {A} (m : reader A) (s : list byte) (Q : A -> list byte -> Prop) : Prop :=
  match m (left_ s) with
  | Read a b => exists s', b = left_ s' /\ suffix_ s' /\ Q a s'
  | Invalid _ => True
  | Stuck e => e = UndefinedBehaviour
  end.

Lemma reads_bind {A B} (m : reader A) (k : A -> reader B) s P Q : reads m s P ->
  (forall a s', suffix_ s' -> P a s' -> reads (k a) s' Q) ->
  reads (@mbind reader reader_bind _ _ k m) s Q.
Proof.
  unfold reads, mbind, reader_bind. intros Hm Hk. destruct (m (left_ s)) as [a b|r|e]; [|done|done].
  destruct Hm as (s' & -> & Hs & HP). by apply (Hk a s').
Qed.

Lemma reads_ret {A} (a : A) s (Q : A -> list byte -> Prop) : suffix_ s -> Q a s -> reads (@mret reader reader_ret _ a) s Q.
Proof. intros Hs HQ. by exists s. Qed.

Lemma reads_invalid {A} r s (Q : A -> list byte -> Prop) : reads (invalid r) s Q.
Proof. done. Qed.

Lemma reads_check r b s (Q : unit -> list byte -> Prop) : suffix_ s -> (b = true -> Q tt s) -> reads (check r b) s Q.
Proof. intros Hs HQ. unfold reads, check. destruct b; [|done]. exists s. by repeat split; auto. Qed.

Lemma reads_number r k s : suffix_ s -> 0 <= k <= 8 ->
  reads (readNumber_or r k) s (fun a s' => s = a ++ s' /\ zlen a = k).
Proof.
  intros Hs Hk. unfold reads. destruct (readNumber_cases r s k Hs Hk) as [(a & s' & -> & Ha & ->)|[_ ->]]; [|done].
  exists s'. split; [done|]. split; [by apply suffix_drop in Hs|done].
Qed.

Lemma reads_cstring s : suffix_ s -> reads readCString s (fun n s' => s = n ++ x00 :: s' /\ no_nul n = true).
Proof.
  intros Hs. unfold reads. destruct (readCString_cases s Hs) as [(n & s' & -> & Hn & ->)|[r ->]]; [|done].
  exists s'. split; [done|]. split; [|done]. by apply (suffix_drop (n ++ [x00])); rewrite <- app_assoc.
Qed.

Lemma reads_checked_int n s (Q : Z -> list byte -> Prop) : suffix_ s -> (in_s 32 n = true -> Q n s) -> reads (checked_int n) s Q.
Proof. intros Hs HQ. unfold reads, checked_int. destruct (in_s 32 n); [|done]. exists s. by repeat split; auto. Qed.

(** A number of bytes that is not negative is skipped; a negative one leads
    anywhere before the end. *)
Lemma reads_skip r n s : suffix_ s -> in_s 32 n = true ->
  reads (skip_or r n) s (fun _ s' => 0 <= n -> exists a, s = a ++ s' /\ zlen a = n).
Proof.
  intros Hs Hn%in_s_spec. pose proof (suffix_zlen _ Hs). change (2 ^ (32 - 1)) with (2 ^ 31) in Hn.
  unfold reads, skip_or, mbind, reader_bind, skip, check. cbn [_maxLength _position _buffer left_ at_position].
  destruct (Z_lt_ge_dec n 0) as [Hneg|Hpos].
  - pose proof (wrap_u_range 64 (zlen bs - zlen s + u64 n) ltac:(lia)) as Hr.
    destruct (Z.ltb_spec (u64 (zlen bs - zlen s + u64 n)) (zlen bs)); [|done].
    destruct (position_suffix (u64 (zlen bs - zlen s + u64 n))) as (s' & Hs' & E & _); [lia|].
    exists s'. split; [exact E|]. split; [done|lia].
  - assert (u64 (zlen bs - zlen s + u64 n) = zlen bs - zlen s + n) as ->.
    { rewrite (wrap_u_small 64 n), wrap_u_small by (change (2 ^ 64) with (2 ^ 31 * 2 ^ 33); lia). done. }
    destruct (Z.ltb_spec (zlen bs - zlen s + n) (zlen bs)); [|done].
    exists (drop (Z.to_nat n) s).
    assert (zlen (drop (Z.to_nat n) s) = zlen s - n) as Hl by (unfold zlen in *; rewrite length_drop; lia).
    split; [unfold at_position, left_; cbn; f_equal; lia|].
    split; [apply suffix_drop with (take (Z.to_nat n) s); by rewrite take_drop|].
    intros _. exists (take (Z.to_nat n) s). rewrite take_drop. split; [done|].
    unfold zlen in *. rewrite length_take. lia.
Qed.

Lemma size_at_least_here k a s : suffix_ (a ++ s) -> zlen a = 4 ->
  size_at_least k (left_ (a ++ s)) = (k <=? s32 (le_val a)).
Proof. intros Hs Ha. unfold size_at_least, from. by rewrite (readNumber_or_here _ _ _ 4). Qed.

Lemma reads_utf8 s : suffix_ s ->
  reads readUTF8String s (fun _ s' => size_at_least 1 (left_ s) = true -> exists x, s = enc_string x ++ s').
Proof.
  intros Hs. unfold readUTF8String. eapply reads_bind; [by apply reads_number|].
  intros a s1 Hs1 [-> Ha]. rewrite size_at_least_here by done.
  eapply (reads_bind _ _ _ (fun n s' => s' = s1 /\ n = s32 (le_val a) - 1 /\ in_s 32 n = true)).
  { by apply reads_checked_int. }
  intros n s1' _ (-> & Hn & Hr). eapply reads_bind; [by apply reads_skip|]. intros [] s2 Hs2 H2.
  eapply reads_bind; [by apply reads_number|]. intros c s3 Hs3 [-> Hc].
  apply reads_check; [done|]. intros H0%Z.eqb_eq Hsz%Z.leb_le.
  destruct H2 as (x & -> & Hx); [lia|]. exists x. unfold enc_string.
  replace (zlen x + 1) with (s32 (le_val a)) by lia. rewrite le32_s32 by done.
  destruct (le_val_single c Hc) as (b & -> & Hb). assert (b = x00) as -> by (apply bz_inj; by rewrite <- Hb).
  by rewrite <- !app_assoc.
Qed.
(** ** One element *)

Lemma type_byte_of_code c : type_byte (type_of_code (sc c)) = c.
Proof.
  pose proof (for_all_bytes (fun c => Byte.eqb (type_byte (type_of_code (sc c))) c) ltac:(by vm_compute) c) as H.
  cbv beta in H. by destruct (byte_eqb_spec (type_byte (type_of_code (sc c))) c).
Qed.

(** A value of a fixed number of bytes. *)
Lemma reads_fixed n k s t (mk : list byte -> value) : suffix_ s -> no_nul n = true -> 0 <= k < 2 ^ 31 ->
  (forall a, zlen a = k -> lays_out (mk a) a /\ type_byte (vtype (mk a)) = t) ->
  reads (skip_or invalid_bson k;; @mret reader reader_ret _ WithinObj) s
    (fun st s' => element st (t :: n ++ x00 :: s) s').
Proof.
  intros Hs Hn Hk Hmk. eapply reads_bind; [apply reads_skip; [done|]|].
  { apply in_s_spec. change (2 ^ (32 - 1)) with (2 ^ 31). lia. }
  intros [] s' Hs' (a & -> & Ha); [lia|]. apply reads_ret; [done|]. destruct (Hmk a Ha) as [Hv <-].
  by apply element_value.
Qed.

Lemma reads_element_string n s t (mk : list byte -> value) : suffix_ s -> no_nul n = true ->
  (forall x, lays_out (mk x) (enc_string x) /\ type_byte (vtype (mk x)) = t) ->
  reads (readUTF8String;; @mret reader reader_ret _ WithinObj) s
    (fun st s' => size_at_least 1 (left_ s) = true -> element st (t :: n ++ x00 :: s) s').
Proof.
  intros Hs Hn Hmk. eapply reads_bind; [by apply reads_utf8|]. intros [] s' Hs' H. apply reads_ret; [done|].
  intros Hsz. destruct (H Hsz) as [x ->]. destruct (Hmk x) as [Hv <-]. by apply element_value.
Qed.

Lemma reads_bindata n s : suffix_ s -> no_nul n = true ->
  reads (sz ← readNumber_or invalid_bson 4; n ← checked_int (1 + s32 (le_val sz));
         skip_or invalid_bson n;; @mret reader reader_ret _ WithinObj) s
    (fun st s' => size_at_least 0 (left_ s) = true -> element st (type_byte BinData :: n ++ x00 :: s) s').
Proof.
  intros Hs Hn. eapply reads_bind; [by apply reads_number|]. intros a s1 Hs1 [-> Ha].
  rewrite size_at_least_here by done.
  eapply (reads_bind _ _ _ (fun m s' => s' = s1 /\ m = 1 + s32 (le_val a) /\ in_s 32 m = true)).
  { by apply reads_checked_int. }
  intros m s1' _ (-> & Hm & Hr). eapply reads_bind; [by apply reads_skip|]. intros [] s2 Hs2 H2.
  apply reads_ret; [done|]. intros Hsz%Z.leb_le. destruct H2 as (x & -> & Hx); [lia|].
  destruct x as [|u x]; [rewrite zlen_nil in Hx; lia|]. rewrite zlen_cons in Hx.
  replace (a ++ (u :: x) ++ s2) with (enc_value (VBinData u x) ++ s2).
  - apply (element_value n (VBinData u x)); [done|by apply lays_flat].
  - cbn [enc_value]. replace (zlen x) with (s32 (le_val a)) by lia. rewrite le32_s32 by done. by rewrite <- app_assoc.
Qed.

(** A position past the end: the code does not ask whether a database reference
    has all of its identifier. *)
Definition overrun (b : Buffer) : Prop :=
  _buffer b = p /\ _maxLength b = zlen bs /\ zlen bs < _position b < 2 ^ 32.

Definition read_element (st : State) (b : Buffer) (s : list byte) (ok : bool) : Prop :=
  (exists s', b = left_ s' /\ suffix_ s' /\ (ok = true -> element st s s')) \/ (st = WithinObj /\ overrun b).

Lemma read_dbref n s : suffix_ s -> no_nul n = true ->
  match (readUTF8String;; ignored ← skip 12; @mret reader reader_ret _ WithinObj) (left_ s) with
  | Read st b => read_element st b (type_byte DBRef :: n ++ x00 :: s) (size_at_least 1 (left_ s))
  | Invalid _ => True
  | Stuck e => e = UndefinedBehaviour
  end.
Proof.
  intros Hs Hn. pose proof (reads_utf8 s Hs) as H. unfold reads in H.
  unfold mbind at 1, reader_bind at 1. destruct (readUTF8String (left_ s)) as [a b|r|e]; [|done|done].
  destruct H as (s' & -> & Hs' & Hx). unfold mbind, reader_bind, skip, mret, reader_ret, read_element.
  pose proof (suffix_zlen _ Hs') as Hl. cbn [_position _maxLength left_ at_position].
  assert (u64 (zlen bs - zlen s' + u64 12) = zlen bs - zlen s' + 12) as E.
  { rewrite (wrap_u_small 64 12), wrap_u_small by (change (2 ^ 64) with (2 ^ 31 * 2 ^ 33); lia). done. }
  rewrite E. destruct (Z_lt_ge_dec (zlen s') 12) as [Hlt|Hge].
  - right. split; [done|]. split; [done|]. split; [done|]. cbn. change (2 ^ 32) with (2 ^ 31 * 2). lia.
  - left. exists (drop 12 s'). assert (zlen (drop 12 s') = zlen s' - 12) as Hd by (unfold zlen in *; rewrite length_drop; lia).
    split; [unfold at_position, left_; cbn; f_equal; lia|].
    split; [apply suffix_drop with (take 12 s'); by rewrite take_drop|].
    intros Hsz. destruct (Hx Hsz) as [x ->]. rewrite <- (take_drop 12 s') at 1. rewrite app_assoc.
    apply (element_value n (VDBRef x (take 12 s'))); [done|]. apply (lays_flat (VDBRef x (take 12 s'))).
    cbn [flat]. apply Z.eqb_eq. unfold zlen in *. rewrite length_take. lia.
Qed.

Lemma reads_outcome m s (Q : State -> list byte -> Prop) (ok : bool) n t :
  reads m s (fun st s' => Q st s') ->
  (forall st s', Q st s' -> ok = true -> element st (t :: n ++ x00 :: s) s') ->
  match m (left_ s) with
  | Read st b => read_element st b (t :: n ++ x00 :: s) ok
  | Invalid _ => True
  | Stuck e => e = UndefinedBehaviour
  end.
Proof.
  unfold reads. intros H HQ. destruct (m (left_ s)) as [st b|r|e]; [|done|done].
  destruct H as (s' & -> & Hs & H). left. exists s'. by repeat split; eauto.
Qed.

Lemma le64_val_8 a : zlen a = 8 -> le64 (le_val a) = a /\ in_u 64 (le_val a) = true.
Proof.
  intros Ha. pose proof (le_val_range a) as H. rewrite Ha in H. split.
  - assert (length a = 8%nat) as E by (unfold zlen in Ha; lia). rewrite <- E. apply le_bytes_val.
  - by apply in_u_spec.
Qed.

(** What follows the name of an element, by the shape of its value. *)
Definition outcome_ok (m : reader State) (t : BSONType) (n s : list byte) (ok : bool) : Prop :=
  match m (left_ s) with
  | Read st b => read_element st b (type_byte t :: n ++ x00 :: s) ok
  | Invalid _ => True
  | Stuck e => e = UndefinedBehaviour
  end.

Lemma after_none t n s v : suffix_ s -> no_nul n = true -> flat v = true -> enc_value v = [] -> vtype v = t ->
  outcome_ok (@mret reader reader_ret _ WithinObj) t n s true.
Proof.
  intros Hs Hn Hf He <-. left. exists s. split; [done|]. split; [done|]. intros _.
  pose proof (element_value n v [] s Hn) as H. apply H. rewrite <- He. by apply lays_flat.
Qed.

Lemma after_fixed t n s k mk : suffix_ s -> no_nul n = true ->
  (forall a, zlen a = k -> lays_out (mk a) a /\ type_byte (vtype (mk a)) = type_byte t) -> 0 <= k < 2 ^ 31 ->
  outcome_ok (skip_or invalid_bson k;; @mret reader reader_ret _ WithinObj) t n s true.
Proof.
  intros Hs Hn Hmk Hk. eapply reads_outcome; [by apply (reads_fixed n k s (type_byte t) mk)|]. by intros st s' H _.
Qed.

Lemma after_string t n s mk : suffix_ s -> no_nul n = true ->
  (forall x, lays_out (mk x) (enc_string x) /\ type_byte (vtype (mk x)) = type_byte t) ->
  outcome_ok (readUTF8String;; @mret reader reader_ret _ WithinObj) t n s (size_at_least 1 (left_ s)).
Proof.
  intros Hs Hn Hmk. eapply reads_outcome; [by apply (reads_element_string n s (type_byte t) mk)|].
  intros st s' H Hok. by apply H.
Qed.

Lemma after_u64 t n s mk : suffix_ s -> no_nul n = true ->
  (forall x, in_u 64 x = true -> lays_out (mk x) (le64 x) /\ type_byte (vtype (mk x)) = type_byte t) ->
  outcome_ok (skip_or invalid_bson 8;; @mret reader reader_ret _ WithinObj) t n s true.
Proof.
  intros Hs Hn Hmk. apply (after_fixed t n s 8 (fun a => mk (le_val a))); [done|done| |lia]. intros a Ha.
  destruct (le64_val_8 a Ha) as [E Hr]. rewrite <- E at 2. by apply Hmk.
Qed.

Lemma after_name_cases t n s : suffix_ s -> no_nul n = true ->
  outcome_ok (after_name t) t n s (size_ok t (left_ s)).
Proof.
  intros Hs Hn. pose proof (fun v => after_none t n s v Hs Hn) as Hnone.
  pose proof (fun k mk => after_fixed t n s k mk Hs Hn) as Hfixed.
  pose proof (fun mk => after_string t n s mk Hs Hn) as Hstring.
  pose proof (fun mk => after_u64 t n s mk Hs Hn) as H64.
  destruct t; cbn [after_name size_ok]; try exact I.
  - by apply (Hnone VMinKey).
  - apply (H64 VDouble). intros x Hx. split; [by apply (lays_flat (VDouble x))|done].
  - apply (Hstring VString). intros x. split; [by apply (lays_flat (VString x))|done].
  - left. exists s. repeat split; [done|]. intros _. by apply element_nested; [|left].
  - left. exists s. repeat split; [done|]. intros _. by apply element_nested; [|right].
  - eapply reads_outcome; [by apply reads_bindata|]. intros st s' H Hok. by apply H.
  - by apply (Hnone VUndefined).
  - apply (Hfixed 12 VOID); [|lia]. intros a Ha. split; [|done]. apply (lays_flat (VOID a)). by apply Z.eqb_eq.
  - apply (Hfixed 1 (fun a => match a with c :: _ => VBool (negb (Byte.eqb c x00)) | [] => VNull end)); [|lia].
    intros a Ha. destruct (le_val_single a Ha) as (c & -> & _). split; [apply lays_bool|done].
  - apply (H64 VDate). intros x Hx. split; [by apply (lays_flat (VDate x))|done].
  - by apply (Hnone VNull).
  - apply (reads_outcome _ _ (fun st s' => element st (type_byte RegEx :: n ++ x00 :: s) s')); [|by auto].
    eapply reads_bind; [by apply reads_cstring|]. intros pat s1 Hs1 [-> Hpat].
    eapply reads_bind; [by apply reads_cstring|]. intros opt s2 Hs2 [-> Hopt]. apply reads_ret; [done|].
    pose proof (element_value n (VRegEx pat opt) (pat ++ x00 :: opt ++ [x00]) s2 Hn) as H.
    rewrite <- !app_assoc, <- app_comm_cons, <- app_assoc in H. apply H.
    apply (lays_flat (VRegEx pat opt)). cbn [flat]. by rewrite Hpat, Hopt.
  - by apply read_dbref.
  - apply (Hstring VCode). intros x. split; [by apply (lays_flat (VCode x))|done].
  - apply (Hstring VSymbol). intros x. split; [by apply (lays_flat (VSymbol x))|done].
  - left. exists s. repeat split; [done|]. intros _. by apply element_code.
  - apply (Hfixed 4 (fun a => VInt (s32 (le_val a)))); [|lia]. intros a Ha. split; [|done].
    rewrite <- (le32_s32 a Ha) at 2. apply (lays_flat (VInt _)). apply in_s_spec. by apply wrap_s_range.
  - apply (H64 VTimestamp). intros x Hx. split; [by apply (lays_flat (VTimestamp x))|done].
  - apply (Hfixed 8 (fun a => VLong (s64 (le_val a)))); [|lia]. intros a Ha. split; [|done].
    rewrite <- (le64_s64 a Ha) at 2. apply (lays_flat (VLong _)). apply in_s_spec. by apply wrap_s_range.
  - by apply (Hnone VMaxKey).
Qed.

Lemma element_cases s : suffix_ s ->
  match validateElementInfo (left_ s) with
  | Read st b => read_element st b s (element_size_ok (left_ s))
  | Invalid _ => True
  | Stuck e => e = UndefinedBehaviour
  end.
Proof.
  intros Hs. unfold validateElementInfo, element_size_ok, from. unfold mbind at 1, reader_bind at 1.
  destruct (readNumber_cases invalid_bson s 1 Hs) as [(ty & s1 & -> & Hty & ->)|[_ ->]]; [lia| |done].
  destruct (le_val_single ty Hty) as (c & -> & Hc). rewrite Hc. change (s8 (bz c)) with (sc c).
  pose proof (suffix_drop [c] _ Hs) as Hs1. pose proof (type_byte_of_code c) as Eb.
  destruct (bool_decide (type_of_code (sc c) = EOO)) eqn:He.
  - apply bool_decide_eq_true in He. rewrite He in Eb. left. exists s1. split; [done|]. split; [done|].
    intros _. rewrite <- Eb. apply element_end.
  - unfold mbind at 1, reader_bind at 1.
    destruct (readCString_cases s1 Hs1) as [(n & s2 & -> & Hn & ->)|[r ->]]; [|done].
    assert (suffix_ s2) as Hs2 by (apply (suffix_drop (n ++ [x00])); by rewrite <- app_assoc).
    pose proof (after_name_cases (type_of_code (sc c)) n s2 Hs2 Hn) as H. unfold outcome_ok in H. rewrite Eb in H.
    destruct (type_of_code (sc c)); exact H.
Qed.

(** ** One turn of the loop *)

(** The walk at a suffix of the bytes. *)
Definition walk : Type := State * list ValidationObjectFrame * list byte.
Definition cf (w : walk) : config := MkConfig w.1.1 w.1.2 (left_ w.2).
Definition pos (s : list byte) : Z := zlen bs - zlen s.

Definition after_end (fs : list ValidationObjectFrame) : State :=
  match fs with
  | [] => Done
  | f :: _ => if isCodeWithScope f then EndCodeWScope else WithinObj
  end.

(** The turns whose sizes are right. *)
Inductive turn : walk -> walk -> Prop :=
  | turn_begin fs a s1 st s2 : suffix_ (a ++ s1) -> zlen a = 4 -> element st s1 s2 ->
      turn (BeginObj, fs, a ++ s1) (st, frame false (pos (a ++ s1)) (s32 (le_val a)) :: fs, s2)
  | turn_within f fs s st s2 : suffix_ s -> element st s s2 ->
      turn (WithinObj, f :: fs, s) (st, f :: fs, s2)
  | turn_end f fs s : suffix_ s -> actualLength (left_ s) f = expectedSize f ->
      turn (EndObj, f :: fs, s) (after_end fs, fs, s)
  | turn_code fs a x s : suffix_ (a ++ enc_string x ++ s) -> zlen a = 4 ->
      turn (BeginCodeWScope, fs, a ++ enc_string x ++ s)
        (BeginObj, frame true (pos (a ++ enc_string x ++ s)) (s32 (le_val a)) :: fs, s)
  | turn_end_code f f' fs s : suffix_ s -> actualLength (left_ s) f = expectedSize f ->
      turn (EndCodeWScope, f :: f' :: fs, s) (WithinObj, f' :: fs, s).

Lemma element_suffix st s s' : suffix_ s -> element st s s' -> suffix_ s'.
Proof.
  intros Hs H. destruct H as [s|n v vb s|n t s|n s].
  - by apply (suffix_drop [x00]).
  - apply (suffix_drop (type_byte (vtype v) :: n ++ x00 :: vb)). cbn [app]. by rewrite <- app_assoc.
  - apply (suffix_drop (type_byte t :: n ++ [x00])). cbn [app]. by rewrite <- app_assoc.
  - apply (suffix_drop (type_byte CodeWScope :: n ++ [x00])). cbn [app]. by rewrite <- app_assoc.
Qed.

Lemma element_shorter st s s' : element st s s' -> zlen s' < zlen s.
Proof.
  intros H. destruct H as [s|n v vb s|n t s|n s]; rewrite ?zlen_cons, ?zlen_app, ?zlen_cons, ?zlen_app;
    try pose proof (zlen_nonneg n); try pose proof (zlen_nonneg vb); lia.
Qed.

Lemma push_frame_here code r a s : suffix_ (a ++ s) -> zlen a = 4 ->
  push_frame code r (left_ (a ++ s)) = Read (frame code (pos (a ++ s)) (s32 (le_val a))) (left_ s).
Proof.
  intros Hs Ha. unfold push_frame, mbind, reader_bind, mret, reader_ret.
  rewrite (readNumber_or_here _ a s 4) by done. pose proof (suffix_zlen _ Hs) as H.
  assert (s32 (_position (left_ (a ++ s))) = pos (a ++ s)) as ->; [|done].
  apply wrap_s_small; [lia|]. unfold pos. cbn [_position left_]. change (2 ^ (32 - 1)) with (2 ^ 31). lia.
Qed.

Lemma push_frame_cases code r s : suffix_ s ->
  (exists a s1, s = a ++ s1 /\ zlen a = 4 /\
    push_frame code r (left_ s) = Read (frame code (pos s) (s32 (le_val a))) (left_ s1)) \/
  (zlen s < 4 /\ push_frame code r (left_ s) = Invalid r).
Proof.
  intros Hs. destruct (readNumber_cases r s 4 Hs) as [(a & s1 & -> & Ha & _)|[Hl E]]; [lia| |].
  - left. exists a, s1. by rewrite push_frame_here.
  - right. split; [done|]. unfold push_frame, mbind, reader_bind. by rewrite E.
Qed.

Definition frames_ok (c : config) : Prop :=
  match state c with WithinObj | EndObj | EndCodeWScope => frames c <> [] | _ => True end.

(** At a suffix of the buffer, or past its end. *)
Definition at_walk (c : config) (w : walk) : Prop := c = cf w /\ suffix_ w.2.
Definition past_end (c : config) : Prop := state c = WithinObj /\ overrun (buffer c).

Definition config_ok (c : config) : Prop := frames_ok c /\ ((exists w, at_walk c w) \/ past_end c).

Lemma overrun_step c : past_end c -> validate_step c = Invalid invalid_bson.
Proof.
  intros [Hst (_ & Hm & Hr)]. pose proof (zlen_nonneg bs). unfold validate_step. rewrite Hst.
  unfold validateElementInfo, readNumber_or, readNumber.
  unfold mbind, reader_bind. rewrite wrap_u_small by (change (2 ^ 64) with (2 ^ 32 * 2 ^ 32); lia).
  by rewrite (proj2 (Z.ltb_lt _ _)) by lia.
Qed.

(** The result of a turn, whatever the sizes, and what they add. *)
Definition turned (w : walk) (c' : config) (b : Buffer) : Prop :=
  b = buffer c' /\ config_ok c' /\
  (step_size_ok (cf w) = true -> (exists w', at_walk c' w' /\ turn w w') \/ past_end c').

Definition turns (w : walk) (o : outcome config) : Prop :=
  match o with
  | Read c' b => turned w c' b
  | Invalid _ => True
  | Stuck e => e = UndefinedBehaviour
  end.

Lemma turned_to w w' : frames_ok (cf w') -> suffix_ w'.2 -> (step_size_ok (cf w) = true -> turn w w') ->
  turned w (cf w') (left_ w'.2).
Proof.
  intros Hf Hs Ht. split; [done|]. split; [split; [done|left; by exists w']|].
  intros Hok. left. exists w'. split; [done|by apply Ht].
Qed.

Lemma read_element_turned w st b s f fs (ok : bool) : suffix_ s -> read_element st b s ok ->
  (step_size_ok (cf w) = true -> ok = true) ->
  (forall s', element st s s' -> turn w (st, f :: fs, s')) ->
  turned w (MkConfig st (f :: fs) b) b.
Proof.
  intros Hs H Hok Ht. destruct H as [(s' & -> & Hs' & He)|[-> Ho]].
  - apply (turned_to w (st, f :: fs, s')); [by destruct st|done|]. intros Hc. by apply Ht, He, Hok.
  - split; [done|]. split; [split; [done|by right]|]. intros _. by right.
Qed.

Lemma step_cases w : suffix_ w.2 -> frames_ok (cf w) -> w.1.1 <> Done -> turns w (validate_step (cf w)).
Proof.
  destruct w as [[st fs] s]. cbn [fst snd]. intros Hs Hf Hd. unfold validate_step, cf.
  cbn [state frames buffer fst snd]. destruct st; [| | | | |done].
  - unfold mbind, reader_bind.
    destruct (push_frame_cases false (bstr "bson size is larger than buffer size") s Hs)
      as [(a & s1 & -> & Ha & ->)|[_ ->]]; [|done].
    pose proof (suffix_drop _ _ Hs) as Hs1. pose proof (element_cases s1 Hs1) as He.
    destruct (validateElementInfo (left_ s1)) as [st b|r|e]; [|done|done].
    apply (read_element_turned _ st b s1 _ _ _ Hs1 He).
    + unfold step_size_ok, from. cbn [cf state buffer fst snd]. by rewrite (readNumber_or_here _ a s1 4).
    + intros s' H. by apply turn_begin.
  - destruct fs as [|f fs]; [done|]. pose proof (element_cases s Hs) as He.
    destruct (validateElementInfo (left_ s)) as [st b|r|e]; [|done|done].
    apply (read_element_turned _ st b s _ _ _ Hs He); [done|]. intros s' H. by apply turn_within.
  - destruct fs as [|f fs]; [done|].
    destruct (Z.eqb_spec (actualLength (left_ s) f) (expectedSize f)) as [E|]; [|done].
    pose proof (turn_end f fs s Hs E) as Ht.
    destruct fs as [|f' fs]; apply (turned_to _ (_, _, s)); try done. cbn. by destruct (isCodeWithScope f').
  - unfold mbind, reader_bind.
    destruct (push_frame_cases true (bstr "invalid bson CodeWScope size") s Hs)
      as [(a & s1 & -> & Ha & ->)|[_ ->]]; [|done].
    pose proof (suffix_drop _ _ Hs) as Hs1. pose proof (reads_utf8 s1 Hs1) as Hr. unfold reads in Hr.
    destruct (readUTF8String (left_ s1)) as [u b|r|e]; [|done|done]. destruct Hr as (s2 & -> & Hs2 & Hx).
    apply (turned_to _ (BeginObj, _, s2)); [done|done|]. intros Hok.
    unfold step_size_ok, from in Hok. cbn [cf state buffer fst snd] in Hok.
    rewrite (readNumber_or_here _ a s1 4) in Hok by done.
    destruct (Hx Hok) as [x ->]. by apply turn_code.
  - destruct fs as [|f fs]; [done|].
    destruct (Z.eqb_spec (actualLength (left_ s) f) (expectedSize f)) as [E|]; [|done].
    destruct fs as [|f' fs]; [done|]. apply (turned_to _ (WithinObj, f' :: fs, s)); [done|done|].
    intros _. by apply turn_end_code.
Qed.

(** ** Safety and termination *)

Lemma loop_safe fuel : forall c, config_ok c ->
  match validate_loop fuel c with Ok _ => True | Err e => e = UndefinedBehaviour \/ e = OutOfFuel end.
Proof.
  induction fuel as [|fuel IH]; intros c Hc; cbn [validate_loop]; destruct (bool_decide _) eqn:Hd; try done; [by right|].
  apply bool_decide_eq_false in Hd. destruct Hc as [Hf [(w & -> & Hs)|Hp']]; [|by rewrite overrun_step].
  pose proof (step_cases w Hs Hf Hd) as H. destruct (validate_step (cf w)) as [c' b|r|e]; [|done|by left]. apply IH, H.
Qed.

Definition weight (st : State) : Z := match st with EndObj => 2 | EndCodeWScope => 1 | _ => 0 end.

Lemma weight_range st : 0 <= weight st <= 2.
Proof. destruct st; cbn; lia. Qed.

(** What is left of the walk. *)
Definition measure (w : walk) : Z := 3 * zlen w.2 + weight w.1.1.

Lemma measure_nonneg w : 0 <= measure w.
Proof. unfold measure. pose proof (zlen_nonneg w.2). pose proof (weight_range w.1.1). lia. Qed.

Lemma turn_measure w w' : turn w w' -> measure w' < measure w.
Proof.
  intros H. destruct H as [fs a s1 st s2 Hs Ha He|f fs s st s2 Hs He|f fs s Hs E|fs a x s Hs Ha|f f' fs s Hs E];
    unfold measure; cbn [fst snd]; try apply element_shorter in He; try pose proof (weight_range st);
    rewrite ?zlen_app; cbn [weight]; try lia.
  - destruct fs as [|f' fs]; cbn; [lia|]. destruct (isCodeWithScope f'); cbn; lia.
  - pose proof (zlen_nonneg (enc_string x)). lia.
Qed.

Lemma past_end_ends fuel c : past_end c -> validate_loop (S fuel) c = Ok (InvalidBSON invalid_bson).
Proof.
  intros H. cbn [validate_loop]. rewrite (overrun_step c H). destruct H as [-> _]. by rewrite bool_decide_eq_false_2.
Qed.

Lemma loop_ends fuel : forall w, suffix_ w.2 -> frames_ok (cf w) -> sizes_ok fuel (cf w) = true ->
  measure w + 1 < Z.of_nat fuel -> validate_loop fuel (cf w) <> Err OutOfFuel.
Proof.
  induction fuel as [|fuel IH]; intros w Hs Hf Hok Hm; pose proof (measure_nonneg w) as Hw; [lia|].
  cbn [validate_loop sizes_ok] in *. destruct (bool_decide _) eqn:Hd; [done|]. apply bool_decide_eq_false in Hd.
  apply andb_prop in Hok as [Hok Hoks]. pose proof (step_cases w Hs Hf Hd) as H.
  destruct (validate_step (cf w)) as [c' b|r|e]; [|done|by injection 1 as ->]. destruct H as (_ & Hc' & Ht).
  destruct (Ht Hok) as [(w' & [-> Hs'] & Ht'%turn_measure)|Hpe].
  - apply IH; [done|apply Hc'|done|lia].
  - destruct fuel as [|fuel]; [lia|]. by rewrite past_end_ends.
Qed.

(** ** What is accepted *)

Lemma loop_accepts fuel : forall w, suffix_ w.2 -> frames_ok (cf w) -> sizes_ok fuel (cf w) = true ->
  validate_loop fuel (cf w) = Ok Status_OK -> exists k w', nsteps turn k w w' /\ w'.1.1 = Done.
Proof.
  induction fuel as [|fuel IH]; intros w Hs Hf Hok Hl; cbn [validate_loop sizes_ok] in *;
    destruct (bool_decide _) eqn:Hd; try (apply bool_decide_eq_true in Hd; exists O, w; by split; [constructor|]); [done|].
  apply bool_decide_eq_false in Hd. apply andb_prop in Hok as [Hok Hoks]. pose proof (step_cases w Hs Hf Hd) as H.
  destruct (validate_step (cf w)) as [c' b|r|e]; [|done|done]. destruct H as (_ & Hc' & Ht).
  destruct (Ht Hok) as [(w' & [-> Hs'] & Ht')|Hpe].
  - destruct (IH w' Hs' (proj1 Hc') Hoks Hl) as (k & w2 & Hk & H2). exists (S k), w2. split; [by econstructor|done].
  - exfalso. destruct fuel as [|fuel]; [|by rewrite past_end_ends in Hl].
    cbn [validate_loop] in Hl. destruct Hpe as [Hw _]. by rewrite Hw, bool_decide_eq_false_2 in Hl.
Qed.

Lemma pos_range s : suffix_ s -> 0 <= pos s < 2 ^ 31.
Proof. intros Hs. pose proof (suffix_zlen _ Hs). unfold pos. lia. Qed.

Lemma frame_length code s size s' : suffix_ s -> suffix_ s' -> zlen s' <= zlen s ->
  actualLength (left_ s') (frame code (pos s) size) = zlen s - zlen s'.
Proof.
  intros Hs Hs' Hl. unfold actualLength. rewrite frame_start by by apply pos_range. cbn [_position left_].
  pose proof (suffix_zlen _ Hs). pose proof (suffix_zlen _ Hs'). unfold pos.
  rewrite wrap_s_small by (change (2 ^ (32 - 1)) with (2 ^ 31); lia). lia.
Qed.

Definition within_sound_at (k : nat) : Prop := forall f fs s w, isCodeWithScope f = false -> suffix_ s ->
  nsteps turn k (WithinObj, f :: fs, s) w -> w.1.1 = Done ->
  exists d b s' j, lays_fields d b /\ s = b ++ x00 :: s' /\ suffix_ s' /\ (j < k)%nat /\
    nsteps turn j (EndObj, f :: fs, s') w.

Lemma begin_sound k fs s w : within_sound_at k -> suffix_ s -> nsteps turn k (BeginObj, fs, s) w -> w.1.1 = Done ->
  exists d b s' j, lays_fields d b /\ s = enc_frame b ++ s' /\ suffix_ s' /\ (j < k)%nat /\
    nsteps turn j (after_end fs, fs, s') w.
Proof.
  intros IH Hs Hk Hw. inversion Hk as [|k' ? w1 ? Ht Hk']; subst; [done|].
  inversion Ht as [fs' a s1 st s2 _ Ha He| | | |]; subst. pose proof (suffix_drop _ _ Hs) as Hs1.
  set (fr := frame false (pos (a ++ s1)) (s32 (le_val a))) in *.
  destruct (IH fr fs s1 w) as (d & b & s' & j & Hd & -> & Hs' & Hj & Hrun);
    [apply frame_code; by apply pos_range|done|by econstructor; [apply turn_within|]|done|].
  inversion Hrun as [|j' ? w2 ? Ht2 Hrun']; subst; [done|].
  inversion Ht2 as [| |f0 fs0 s0 _ E| |]; subst. unfold fr in E.
  pose proof (zlen_nonneg s'). pose proof (zlen_nonneg b).
  rewrite frame_length in E by (done || rewrite !zlen_app, zlen_cons; lia).
  rewrite !zlen_app, zlen_cons in E. cbn [frame setExpectedSize expectedSize] in E.
  exists d, b, s', j'. split; [done|]. split; [|split; [done|split; [lia|done]]].
  unfold enc_frame. replace (zlen b + 5) with (s32 (le_val a)) by lia. rewrite le32_s32 by done.
  by rewrite <- !app_assoc.
Qed.

Lemma within_sound k : within_sound_at k.
Proof.
  induction (lt_wf k) as [k _ IH]. intros f fs s w Hf Hs Hk Hw.
  inversion Hk as [|k' ? w1 ? Ht Hk']; subst; [done|].
  inversion Ht as [|f0 fs0 s0 st s2 _ He| | |]; subst. pose proof (element_suffix _ _ _ Hs He) as Hs2.
  assert (forall n v vb s3 j, no_nul n = true -> lays_out v vb -> s = type_byte (vtype v) :: n ++ x00 :: vb ++ s3 ->
    suffix_ s3 -> (j < S k')%nat -> nsteps turn j (WithinObj, f :: fs, s3) w ->
    exists d b s' j', lays_fields d b /\ s = b ++ x00 :: s' /\ suffix_ s' /\ (j' < S k')%nat /\
      nsteps turn j' (EndObj, f :: fs, s') w) as Hrest.
  { intros n v vb s3 j Hn Hv -> Hs3 Hj Hrun.
    destruct (IH j Hj f fs s3 w Hf Hs3 Hrun Hw) as (d & b & s' & j' & Hd & -> & Hs' & Hj' & Hr).
    exists ((n, v) :: d), (type_byte (vtype v) :: n ++ x00 :: vb ++ b), s', j'.
    split; [by constructor|]. split; [|split; [done|split; [lia|done]]].
    cbn [app]. by rewrite <- !app_assoc, <- app_comm_cons, <- app_assoc. }
  destruct He as [s|n v vb s Hn Hv|n t s Hn Hto|n s Hn].
  - exists [], [], s, k'. split; [constructor|]. split; [done|]. split; [done|]. split; [lia|done].
  - by apply (Hrest n v vb s k'); [..|lia|].
  - destruct (begin_sound k' (f :: fs) s w (IH k' ltac:(lia)) Hs2 Hk' Hw) as (d & b & s3 & j & Hd & -> & Hs3 & Hj & Hr).
    cbn [after_end] in Hr. rewrite Hf in Hr.
    destruct Hto as [-> | ->].
    + apply (Hrest n (VObject d) (enc_frame b) s3 j); [done|by constructor|done|done|lia|done].
    + apply (Hrest n (VArray d) (enc_frame b) s3 j); [done|by constructor|done|done|lia|done].
  - inversion Hk' as [|k2 ? w2 ? Ht2 Hk2]; subst; [done|].
    inversion Ht2 as [| | |fs1 a x s1 _ Ha|]; subst.
    assert (suffix_ s1) as Hs1 by (apply suffix_drop in Hs2; by apply suffix_drop in Hs2).
    set (fr := frame true (pos (a ++ enc_string x ++ s1)) (s32 (le_val a))) in *.
    destruct (begin_sound k2 (fr :: f :: fs) s1 w (IH k2 ltac:(lia)) Hs1 Hk2 Hw)
      as (d & b & s3 & j & Hd & -> & Hs3 & Hj & Hr).
    cbn [after_end] in Hr. unfold fr in Hr at 1. rewrite frame_code in Hr by by apply pos_range.
    inversion Hr as [|j2 ? w3 ? Ht3 Hr3]; subst; [done|].
    inversion Ht3 as [| | | |f1 f2 fs2 s4 _ E]; subst. unfold fr in E.
    pose proof (zlen_nonneg s3). pose proof (zlen_nonneg (enc_string x)). pose proof (zlen_nonneg (enc_frame b)).
    rewrite frame_length in E by (done || rewrite !zlen_app; lia).
    rewrite !zlen_app in E. cbn [frame setExpectedSize expectedSize] in E.
    apply (Hrest n (VCodeWScope x d) (enc_code x b) s3 j2); [done|by constructor| |done|lia|done].
    cbn [vtype]. do 3 f_equal. unfold enc_code. rewrite zlen_app.
    replace (zlen (enc_string x) + zlen (enc_frame b) + 4) with (s32 (le_val a)) by lia.
    rewrite le32_s32 by done. by rewrite <- !app_assoc.
Qed.

(** ** What is laid out is accepted *)

Definition step_to (c c' : config) : Prop :=
  state c <> Done /\ validate_step c = Read c' (buffer c') /\ step_size_ok c = true.

Definition path (w w' : walk) : Prop := rtc step_to (cf w) (cf w').

Lemma skip_or_here r n a c s : suffix_ (a ++ c :: s) -> zlen a = n ->
  skip_or r n (left_ (a ++ c :: s)) = Read tt (left_ (c :: s)).
Proof.
  intros Hs Ha. pose proof (suffix_zlen _ Hs) as Hl. rewrite zlen_app, zlen_cons in Hl.
  pose proof (zlen_nonneg a). pose proof (zlen_nonneg s).
  unfold skip_or, mbind, reader_bind, skip, check. cbn [_position _maxLength left_ at_position].
  rewrite zlen_app, zlen_cons.
  rewrite (wrap_u_small 64 n), wrap_u_small by (change (2 ^ 64) with (2 ^ 31 * 2 ^ 33); lia).
  rewrite (proj2 (Z.ltb_lt _ _)) by lia. unfold at_position, left_. cbn. rewrite zlen_cons. do 2 f_equal. lia.
Qed.

Lemma size_value n : 0 <= n < 2 ^ 31 -> s32 (le_val (le32 n)) = n.
Proof. intros H. apply s32_le32. apply in_s_spec. change (2 ^ (32 - 1)) with (2 ^ 31). lia. Qed.

Lemma readUTF8String_here x s : suffix_ (enc_string x ++ s) ->
  readUTF8String (left_ (enc_string x ++ s)) = Read tt (left_ s) /\
  size_at_least 1 (left_ (enc_string x ++ s)) = true.
Proof.
  intros Hs. pose proof (suffix_zlen _ Hs) as Hl. rewrite zlen_app, zlen_enc_string in Hl.
  pose proof (zlen_nonneg x). pose proof (zlen_nonneg s). unfold enc_string in *.
  rewrite <- !app_assoc in *. cbn [app] in *.
  split; [|rewrite size_at_least_here by done; apply Z.leb_le; rewrite size_value by lia; lia].
  unfold readUTF8String. unfold mbind at 1, reader_bind at 1. rewrite (readNumber_or_here _ _ _ 4) by done.
  rewrite size_value by lia. unfold mbind at 1, reader_bind at 1, checked_int at 1.
  replace (in_s 32 (zlen x + 1 - 1)) with true
    by (symmetry; apply in_s_spec; change (2 ^ (32 - 1)) with (2 ^ 31); lia).
  pose proof (suffix_drop _ _ Hs) as Hs1. unfold mbind at 1, reader_bind at 1.
  rewrite (skip_or_here _ _ x) by (done || lia). unfold mbind, reader_bind.
  pose proof (suffix_drop _ _ Hs1) as Hs2. by rewrite (readNumber_or_here _ [x00] s 1).
Qed.

Definition nested (v : value) : bool :=
  match v with VObject _ | VArray _ | VCodeWScope _ _ => true | _ => false end.

(** The bytes of a value that is not nested, from its name on. *)
Lemma after_name_here v vb s : lays_out v vb -> nested v = false -> s <> [] -> suffix_ (vb ++ s) ->
  after_name (vtype v) (left_ (vb ++ s)) = Read WithinObj (left_ s) /\ size_ok (vtype v) (left_ (vb ++ s)) = true.
Proof.
  intros Hv Hn Hne Hs. destruct s as [|c s]; [done|].
  assert (forall k r, zlen vb = k -> (skip_or r k;; @mret reader reader_ret _ WithinObj) (left_ (vb ++ c :: s))
    = Read WithinObj (left_ (c :: s))) as Hskip.
  { intros k r Hk. unfold mbind, reader_bind. by rewrite (skip_or_here r k vb). }
  destruct Hv as [v Hf|b|d b _|d b _|x d b _]; [|by split; [apply Hskip|]|done..].
  destruct v; try discriminate Hf; cbn [enc_value vtype after_name size_ok] in *; try done;
    try (split; [apply Hskip; apply zlen_le_bytes|done]).
  - destruct (readUTF8String_here _ _ Hs) as [H1 H2]. split; [|done]. unfold mbind, reader_bind. by rewrite H1.
  - destruct (readUTF8String_here _ _ Hs) as [H1 H2]. split; [|done]. unfold mbind, reader_bind. by rewrite H1.
  - destruct (readUTF8String_here _ _ Hs) as [H1 H2]. split; [|done]. unfold mbind, reader_bind. by rewrite H1.
  - clear Hskip. pose proof (suffix_zlen _ Hs) as Hl. rewrite <- app_assoc in *. cbn [app] in *.
    rewrite zlen_app, zlen_cons, zlen_app, zlen_le_bytes in Hl. pose proof (zlen_nonneg data).
    pose proof (zlen_nonneg (c :: s)). rewrite size_at_least_here by done. rewrite size_value by lia.
    split; [|by apply Z.leb_le]. unfold mbind at 1, reader_bind at 1. rewrite (readNumber_or_here _ _ _ 4) by done.
    rewrite size_value by lia. unfold mbind at 1, reader_bind at 1, checked_int.
    replace (in_s 32 (1 + zlen data)) with true
      by (symmetry; apply in_s_spec; change (2 ^ (32 - 1)) with (2 ^ 31); lia).
    pose proof (suffix_drop _ _ Hs) as Hs1. unfold mbind, reader_bind.
    by rewrite (skip_or_here _ _ (subtype :: data) c s) by (done || by rewrite zlen_cons).
  - split; [|done]. apply Hskip. by apply Z.eqb_eq.
  - split; [|done]. cbn [flat] in Hf. apply andb_prop in Hf as [Hpat Hopt].
    rewrite <- app_assoc, <- app_comm_cons, <- app_assoc in *. cbn [app] in *.
    unfold mbind, reader_bind. rewrite readCString_here by done.
    assert (suffix_ (opts ++ x00 :: c :: s)) as Hs1 by (apply (suffix_drop (pat ++ [x00])); by rewrite <- app_assoc).
    by rewrite readCString_here.
  - rewrite <- app_assoc in *. destruct (readUTF8String_here _ _ Hs) as [H1 H2]. split; [|done].
    unfold mbind, reader_bind. rewrite H1. unfold skip. cbn [_position _maxLength left_ at_position].
    pose proof (suffix_drop _ _ Hs) as Hs1. pose proof (suffix_zlen _ Hs1) as Hl. rewrite zlen_app in *.
    cbn [flat] in Hf. apply Z.eqb_eq in Hf. pose proof (zlen_nonneg (c :: s)).
    rewrite (wrap_u_small 64 12), wrap_u_small by (change (2 ^ 64) with (2 ^ 31 * 2 ^ 33); lia).
    unfold mret, reader_ret, at_position, left_. cbn. do 2 f_equal. lia.
Qed.

Lemma type_read c : type_of_code (s8 (le_val [c])) = byte_type c.
Proof.
  destruct (le_val_single [c] eq_refl) as (b & E & Hb). injection E as <-. by rewrite Hb.
Qed.

Lemma element_here t n s : valid_type t = true -> t <> EOO -> no_nul n = true ->
  suffix_ (type_byte t :: n ++ x00 :: s) ->
  validateElementInfo (left_ (type_byte t :: n ++ x00 :: s)) = after_name t (left_ s) /\
  element_size_ok (left_ (type_byte t :: n ++ x00 :: s)) = size_ok t (left_ s).
Proof.
  intros Ht Hne Hn Hs. change (type_byte t :: n ++ x00 :: s) with ([type_byte t] ++ n ++ x00 :: s) in *.
  pose proof (suffix_drop _ _ Hs) as Hs1.
  unfold validateElementInfo, element_size_ok, from. unfold mbind at 1, reader_bind at 1.
  rewrite (readNumber_or_here _ [type_byte t] _ 1) by done. rewrite type_read, byte_type_type_byte by done.
  rewrite bool_decide_eq_false_2 by done. unfold mbind at 1, reader_bind at 1. rewrite readCString_here by done.
  split; by destruct t.
Qed.

Lemma end_here s : suffix_ (x00 :: s) -> validateElementInfo (left_ (x00 :: s)) = Read EndObj (left_ s) /\
  element_size_ok (left_ (x00 :: s)) = true.
Proof.
  intros Hs. change (x00 :: s) with ([x00] ++ s) in *. unfold validateElementInfo, element_size_ok, from.
  unfold mbind at 1, reader_bind at 1. rewrite (readNumber_or_here _ [x00] _ 1) by done. rewrite type_read.
  split; [done|]. by destruct (readCString (left_ s)).
Qed.

Lemma within_step f fs s st s' : validateElementInfo (left_ s) = Read st (left_ s') ->
  element_size_ok (left_ s) = true -> step_to (cf (WithinObj, f :: fs, s)) (cf (st, f :: fs, s')).
Proof. intros Hv Hok. split; [done|]. split; [|exact Hok]. unfold validate_step, cf. cbn. by rewrite Hv. Qed.

(** The frame an object is in while it is walked. *)
Definition frame_at (code : bool) (s : list byte) (size : Z) : ValidationObjectFrame := frame code (pos s) size.

Lemma begin_step fs a s c : suffix_ (a ++ s) -> zlen a = 4 ->
  step_to (cf (WithinObj, frame_at false (a ++ s) (s32 (le_val a)) :: fs, s)) c ->
  step_to (cf (BeginObj, fs, a ++ s)) c.
Proof.
  intros Hs Ha (_ & Hv & Hok). split; [done|]. split.
  - rewrite <- Hv. unfold validate_step, cf. cbn [state buffer frames fst snd]. unfold mbind, reader_bind.
    by rewrite push_frame_here.
  - unfold step_size_ok, cf, from in *. cbn [state buffer frames fst snd] in *. by rewrite (readNumber_or_here _ a s 4).
Qed.

Lemma end_step f fs s : actualLength (left_ s) f = expectedSize f ->
  step_to (cf (EndObj, f :: fs, s)) (cf (after_end fs, fs, s)).
Proof.
  intros E. split; [done|]. split; [|done]. unfold validate_step, cf. cbn. rewrite E, Z.eqb_refl. by destruct fs.
Qed.

(** Walking the elements gives the walk over the object. *)
Lemma object_path fs b s : suffix_ (enc_frame b ++ s) ->
  (forall f, isCodeWithScope f = false -> path (WithinObj, f :: fs, b ++ x00 :: s) (EndObj, f :: fs, s)) ->
  path (BeginObj, fs, enc_frame b ++ s) (after_end fs, fs, s).
Proof.
  intros Hs Hp'. pose proof (suffix_zlen _ Hs) as Hl. rewrite zlen_app, zlen_enc_frame in Hl.
  pose proof (zlen_nonneg b). pose proof (zlen_nonneg s). unfold enc_frame in *. rewrite <- !app_assoc in *. cbn [app] in *.
  assert (suffix_ s) as Hs3.
  { apply suffix_drop in Hs. apply suffix_drop in Hs. by apply (suffix_drop [x00]). }
  set (f := frame_at false (le32 (zlen b + 5) ++ b ++ x00 :: s) (zlen b + 5)).
  specialize (Hp' f (frame_code _ _ _ (pos_range _ Hs))). unfold path in *.
  destruct (rtc_inv _ _ Hp') as [E|(c1 & H1 & H2)].
  - apply (f_equal state) in E. discriminate E.
  - etrans; [eapply rtc_l; [|exact H2]|].
    + apply begin_step; [done|done|]. by rewrite size_value by lia.
    + apply rtc_once, end_step. unfold f, frame_at.
      rewrite frame_length by (done || rewrite !zlen_app, zlen_cons, zlen_le_bytes; lia).
      rewrite !zlen_app, zlen_cons, zlen_le_bytes. cbn. lia.
Qed.

Lemma code_step fs x s n : suffix_ (le32 n ++ enc_string x ++ s) -> 0 <= n < 2 ^ 31 ->
  step_to (cf (BeginCodeWScope, fs, le32 n ++ enc_string x ++ s))
    (cf (BeginObj, frame_at true (le32 n ++ enc_string x ++ s) n :: fs, s)).
Proof.
  intros Hs Hn. pose proof (suffix_drop _ _ Hs) as Hs1. destruct (readUTF8String_here x s Hs1) as [H1 H2].
  split; [done|]. split.
  - unfold validate_step, cf. cbn [state buffer frames fst snd]. unfold mbind, reader_bind.
    rewrite push_frame_here by done. rewrite H1, size_value by done. done.
  - unfold step_size_ok, cf, from. cbn [state buffer frames fst snd]. by rewrite (readNumber_or_here _ _ _ 4).
Qed.

Lemma end_code_step f f' fs s : actualLength (left_ s) f = expectedSize f ->
  step_to (cf (EndCodeWScope, f :: f' :: fs, s)) (cf (WithinObj, f' :: fs, s)).
Proof.
  intros E. split; [done|]. split; [|done]. unfold validate_step, cf. cbn. by rewrite E, Z.eqb_refl.
Qed.

(** The walk over a value, from the type byte of its element to what follows. *)
Definition value_path (v : value) (vb : list byte) : Prop := forall n f fs s, isCodeWithScope f = false ->
  no_nul n = true -> s <> [] -> suffix_ (type_byte (vtype v) :: n ++ x00 :: vb ++ s) ->
  path (WithinObj, f :: fs, type_byte (vtype v) :: n ++ x00 :: vb ++ s) (WithinObj, f :: fs, s).

Definition fields_path (d : doc) (b : list byte) : Prop := forall f fs s, isCodeWithScope f = false ->
  suffix_ (b ++ x00 :: s) -> path (WithinObj, f :: fs, b ++ x00 :: s) (EndObj, f :: fs, s).

Lemma value_suffix t n s : suffix_ (type_byte t :: n ++ x00 :: s) -> suffix_ s.
Proof. intros Hs. apply (suffix_drop (type_byte t :: n ++ [x00])). cbn [app]. by rewrite <- app_assoc. Qed.

Lemma flat_path v vb : lays_out v vb -> nested v = false -> value_path v vb.
Proof.
  intros Hv Hn n f fs s Hf Hnn Hs Hsu. apply rtc_once. pose proof (value_suffix _ _ _ Hsu) as Hs1.
  destruct (element_here (vtype v) n (vb ++ s) (vtype_valid v) (vtype_not_eoo v) Hnn Hsu) as [E1 E2].
  destruct (after_name_here v vb s Hv Hn Hs Hs1) as [H1 H2].
  apply within_step; [by rewrite E1|by rewrite E2].
Qed.

Lemma object_value_path t d b n f fs s : t = Object \/ t = Array -> fields_path d b -> isCodeWithScope f = false ->
  no_nul n = true -> suffix_ (type_byte t :: n ++ x00 :: enc_frame b ++ s) ->
  path (WithinObj, f :: fs, type_byte t :: n ++ x00 :: enc_frame b ++ s) (WithinObj, f :: fs, s).
Proof.
  intros Ht Hd Hf Hnn Hsu. pose proof (value_suffix _ _ _ Hsu) as Hs1.
  destruct (element_here t n (enc_frame b ++ s)) as [E1 E2]; [by destruct Ht as [-> | ->]..|done|done|].
  eapply rtc_l; [apply (within_step _ _ _ BeginObj (enc_frame b ++ s)); rewrite ?E1, ?E2; by destruct Ht as [-> | ->]|].
  assert (after_end (f :: fs) = WithinObj) as E by (cbn; by rewrite Hf). rewrite <- E.
  apply object_path; [done|]. intros fr Hfr. apply Hd; [done|].
  unfold enc_frame in Hs1. rewrite <- !app_assoc in Hs1. cbn [app] in Hs1. by apply suffix_drop in Hs1.
Qed.

Lemma code_value_path x d b : fields_path d b -> value_path (VCodeWScope x d) (enc_code x b).
Proof.
  intros Hd n f fs s Hf Hnn _ Hsu. cbn [vtype] in *. pose proof (value_suffix _ _ _ Hsu) as Hs1.
  destruct (element_here CodeWScope n (enc_code x b ++ s)) as [E1 E2]; [done..|].
  eapply rtc_l; [by apply (within_step _ _ _ BeginCodeWScope (enc_code x b ++ s)); rewrite ?E1, ?E2|].
  pose proof (suffix_zlen _ Hs1) as Hl. unfold enc_code in *.
  rewrite <- !app_assoc in *. pose proof (suffix_drop _ _ Hs1) as Hs2. pose proof (suffix_drop _ _ Hs2) as Hs3.
  pose proof (suffix_drop _ _ Hs3) as Hs4.
  rewrite !zlen_app, zlen_le_bytes, zlen_enc_string, zlen_enc_frame in *.
  pose proof (zlen_nonneg x). pose proof (zlen_nonneg b). pose proof (zlen_nonneg s).
  eapply rtc_l; [apply code_step; [done|lia]|].
  set (fr := frame_at true _ _). etrans; [apply (object_path _ b s Hs3)|].
  { intros fr' Hfr. apply Hd; [done|]. unfold enc_frame in Hs3. rewrite <- !app_assoc in Hs3. by apply suffix_drop in Hs3. }
  cbn [after_end]. unfold fr at 1, frame_at at 1. rewrite frame_code by by apply pos_range.
  apply rtc_once, end_code_step. unfold fr, frame_at.
  rewrite frame_length by (done || rewrite !zlen_app; pose proof (zlen_nonneg (enc_string x));
    pose proof (zlen_nonneg (enc_frame b)); rewrite zlen_le_bytes; lia).
  rewrite !zlen_app, zlen_le_bytes, zlen_enc_string, zlen_enc_frame. cbn. lia.
Qed.

Lemma laid_out_paths : (forall v vb, lays_out v vb -> value_path v vb) /\ (forall d b, lays_fields d b -> fields_path d b).
Proof.
  apply lays_ind.
  - intros v Hv. apply flat_path; [by apply lays_flat|by destruct v].
  - intros c. apply flat_path; [by apply lays_bool|done].
  - intros d b _ Hd n f fs s Hf Hn _. by apply (object_value_path Object d); [left|..].
  - intros d b _ Hd n f fs s Hf Hn _. by apply (object_value_path Array d); [right|..].
  - intros c d b _ Hd. by apply code_value_path.
  - intros f fs s Hf Hs. apply rtc_once. destruct (end_here s Hs) as [H1 H2]. by apply within_step.
  - intros n v d vb b Hn _ Hv _ Hd f fs s Hf Hs.
    assert ((type_byte (vtype v) :: n ++ x00 :: vb ++ b) ++ x00 :: s =
      type_byte (vtype v) :: n ++ x00 :: vb ++ b ++ x00 :: s) as E.
    { cbn [app]. by rewrite <- !app_assoc, <- app_comm_cons, <- app_assoc. }
    rewrite E in *. unfold path. etrans; [apply Hv; [done|done| |done]|].
    { by destruct b. }
    apply Hd; [done|]. apply value_suffix in Hs. by apply suffix_drop in Hs.
Qed.

Lemma path_sizes c c' : rtc step_to c c' -> (forall fuel, sizes_ok fuel c' = true) -> forall fuel, sizes_ok fuel c = true.
Proof.
  induction 1 as [c|c1 c2 c3 (Hd & Hv & Hok) _ IH]; [done|]. intros H fuel.
  destruct fuel as [|fuel]; cbn [sizes_ok]; rewrite Hok; [done|]. rewrite Hv. by apply IH.
Qed.

Lemma done_sizes fs b fuel : sizes_ok fuel (MkConfig Done fs b) = true.
Proof. by induction fuel as [|fuel IH]. Qed.

Lemma path_loop c c' : rtc step_to c c' -> state c' = Done ->
  forall fuel, validate_loop fuel c = Ok Status_OK \/ validate_loop fuel c = Err OutOfFuel.
Proof.
  induction 1 as [c|c1 c2 c3 (Hd & Hv & Hok) _ IH]; intros Hdone fuel.
  - left. destruct fuel; cbn [validate_loop]; by rewrite bool_decide_eq_true_2.
  - destruct fuel as [|fuel]; cbn [validate_loop]; rewrite bool_decide_eq_false_2 by done; [by right|].
    rewrite Hv. by apply IH.
Qed.

(** ** The walk from the start of the buffer *)

Lemma start_left : MkConfig BeginObj [] (MkBuffer p 0 (zlen bs)) = cf (BeginObj, [], bs).
Proof. unfold cf, left_. cbn. by rewrite Z.sub_diag. Qed.

Lemma start_suffix : suffix_ bs.
Proof. by exists []. Qed.

Lemma start_validate fuel : 5 <= zlen bs -> validateBSON fuel p (zlen bs) = validate_loop fuel (cf (BeginObj, [], bs)).
Proof.
  intros H. unfold validateBSON, validateBSONIterative. rewrite (proj2 (Z.ltb_ge _ _)) by lia. by rewrite start_left.
Qed.

Lemma start_ends fuel : 5 <= zlen bs -> sizes_ok fuel (cf (BeginObj, [], bs)) = true -> 3 * zlen bs + 2 <= Z.of_nat fuel ->
  validateBSON fuel p (zlen bs) <> Err OutOfFuel.
Proof.
  intros H5 Hs Hf. rewrite start_validate by done. apply loop_ends; [apply start_suffix|done|done|].
  unfold measure. cbn. lia.
Qed.

Lemma start_complete fuel d b r : lays_fields d b -> bs = enc_frame b ++ r -> 3 * zlen bs + 2 <= Z.of_nat fuel ->
  validateBSON fuel p (zlen bs) = Ok Status_OK.
Proof.
  intros Hd Hb Hf.
  assert (5 <= zlen bs) as H5.
  { rewrite Hb, zlen_app, zlen_enc_frame. pose proof (zlen_nonneg b). pose proof (zlen_nonneg r). lia. }
  assert (path (BeginObj, [], bs) (Done, [], r)) as Hpath.
  { rewrite Hb. pose proof start_suffix as Hs. rewrite Hb in Hs at 1. apply object_path; [done|]. intros f Hfr.
    apply (proj2 laid_out_paths _ _ Hd); [done|]. unfold enc_frame in Hs. rewrite <- !app_assoc in Hs.
    by apply suffix_drop in Hs. }
  pose proof (path_sizes _ _ Hpath (fun n => done_sizes _ _ n) fuel) as Hs.
  pose proof (start_ends fuel H5 Hs Hf) as He. rewrite start_validate in * by done.
  destruct (path_loop _ _ Hpath eq_refl fuel) as [E|E]; [done|]. by rewrite E in He.
Qed.

Lemma start_sound fuel : sizes_ok fuel (cf (BeginObj, [], bs)) = true -> validateBSON fuel p (zlen bs) = Ok Status_OK ->
  exists d b r, lays_fields d b /\ bs = enc_frame b ++ r.
Proof.
  intros Hs Hv. destruct (Z_lt_ge_dec (zlen bs) 5) as [Hlt|Hge].
  { unfold validateBSON in Hv. by rewrite (proj2 (Z.ltb_lt _ _)) in Hv by lia. }
  rewrite start_validate in Hv by lia.
  destruct (loop_accepts fuel (BeginObj, [], bs)) as (k & w & Hk & Hw); [apply start_suffix|done|done|done|].
  destruct (begin_sound k [] bs w (within_sound k) start_suffix Hk Hw) as (d & b & r & _ & Hd & Hb & _).
  by exists d, b, r.
Qed.
End buffer.

(** ** The properties *)

Definition start (p : ptr) (n : Z) : config := MkConfig BeginObj [] (MkBuffer p 0 n).

(** C11: the validator reads nothing outside the buffer it is given, whatever
    its bytes, and uses no object that is not on the stack: it answers, goes on
    past any number of turns, or computes an [int] that overflows. *)
Theorem validateBSON_safe fuel p bs : p ↦ bs -> zlen bs < 2 ^ 31 ->
  (exists s, validateBSON fuel p (zlen bs) = Ok s) \/ validateBSON fuel p (zlen bs) = Err OutOfFuel \/
  validateBSON fuel p (zlen bs) = Err UndefinedBehaviour.
Proof.
  intros Hp Hz. destruct (Z_lt_ge_dec (zlen bs) 5) as [Hlt|Hge].
  { left. unfold validateBSON. rewrite (proj2 (Z.ltb_lt _ _)) by lia. by eexists. }
  rewrite (start_validate p bs fuel) by lia.
  pose proof (loop_safe p bs Hp Hz fuel (cf p bs (BeginObj, [], bs))) as H.
  destruct (validate_loop fuel _) as [s|e]; [left; by exists s|right].
  destruct H as [-> | ->]; [|by right|by left].
  split; [done|]. left. exists (BeginObj, [], bs). split; [done|]. by exists [].
Qed.

Definition bad_size_sample : list byte := le32 11 ++ [x02; x00; xfa; xff; xff; xff; x00].

Lemma validateBSON_safe_witness : bad_size_sample <> [] /\
  ((exists s, validateBSON 100 (Ptr bad_size_sample 0) 11 = Ok s) \/
   validateBSON 100 (Ptr bad_size_sample 0) 11 = Err OutOfFuel \/
   validateBSON 100 (Ptr bad_size_sample 0) 11 = Err UndefinedBehaviour).
Proof. split; [done|]. apply (validateBSON_safe 100 _ bad_size_sample); [apply points_start|by vm_compute]. Defined.

Lemma validateBSON_outcome fuel p bs : p ↦ bs -> zlen bs < 2 ^ 31 ->
  sizes_ok fuel (start p (zlen bs)) = true -> 3 * zlen bs + 2 <= Z.of_nat fuel ->
  (exists s, validateBSON fuel p (zlen bs) = Ok s) \/ validateBSON fuel p (zlen bs) = Err UndefinedBehaviour.
Proof.
  intros Hp Hz Hs Hf. destruct (Z_lt_ge_dec (zlen bs) 5) as [Hlt|Hge].
  { left. unfold validateBSON. rewrite (proj2 (Z.ltb_lt _ _)) by lia. by eexists. }
  unfold start in Hs. rewrite start_left in Hs.
  pose proof (start_ends p bs Hp Hz fuel ltac:(lia) Hs Hf) as He.
  rewrite (start_validate p bs fuel) in * by lia.
  pose proof (loop_safe p bs Hp Hz fuel (cf p bs (BeginObj, [], bs))) as H.
  destruct (validate_loop fuel _) as [s|e]; [left; by exists s|right].
  destruct H as [-> | ->]; [|done|done].
  split; [done|]. left. exists (BeginObj, [], bs). split; [done|]. by exists [].
Qed.

(** the validator stops within three turns for each byte and two more,
    when no string it meets has a size below one and no binary data a size
    below zero. *)
Theorem validateBSON_terminates fuel p bs : p ↦ bs -> zlen bs < 2 ^ 31 ->
  sizes_ok fuel (start p (zlen bs)) = true -> 3 * zlen bs + 2 <= Z.of_nat fuel ->
  (exists s, validateBSON fuel p (zlen bs) = Ok s) \/ validateBSON fuel p (zlen bs) = Err UndefinedBehaviour.
Proof. apply validateBSON_outcome. Qed.

(** An object cut off in a string. *)
Definition truncated_sample : list byte := le32 40 ++ [x02; "a"%byte; x00; x09; x00; x00; x00; "b"%byte].

Lemma validateBSON_terminates_witness :
  (exists s, validateBSON 40 (Ptr truncated_sample 0) 12 = Ok s) \/
  validateBSON 40 (Ptr truncated_sample 0) 12 = Err UndefinedBehaviour.
Proof.
  apply (validateBSON_terminates 40 (Ptr truncated_sample 0) truncated_sample); [apply points_start|by vm_compute..].
Defined.

(** C10: the validator accepts the buffers that start with an object: the code
    answers OK on the bytes of any document, with any byte for a boolean and
    anything after it, and what it accepts is one when no size it met is below
    the least of its type.  In particular it accepts every well-formed
    document. *)
Theorem validateBSON_correct fuel p bs : p ↦ bs -> zlen bs < 2 ^ 31 -> 3 * zlen bs + 2 <= Z.of_nat fuel ->
  ((exists d b r, lays_fields d b /\ bs = enc_frame b ++ r) -> validateBSON fuel p (zlen bs) = Ok Status_OK) /\
  (sizes_ok fuel (start p (zlen bs)) = true -> validateBSON fuel p (zlen bs) = Ok Status_OK ->
   exists d b r, lays_fields d b /\ bs = enc_frame b ++ r) /\
  (forall d r, wf_doc d = true -> bs = enc_doc d ++ r -> validateBSON fuel p (zlen bs) = Ok Status_OK).
Proof.
  intros Hp Hz Hf. split; [|split].
  - intros (d & b & r & Hd & Hb). by apply (start_complete p bs Hp Hz fuel d b r).
  - intros Hs Hv. unfold start in Hs. rewrite start_left in Hs. by apply (start_sound p bs Hp Hz fuel).
  - intros d r Hd Hb. apply (start_complete p bs Hp Hz fuel d (enc_elems d) r); [by apply lays_enc_doc|done|done].
Qed.

Definition validate_sample : doc :=
  [(bstr "a", VArray [(bstr "0", VString (bstr "x")); (bstr "1", VBool true)]);
   (bstr "b", VCodeWScope (bstr "f()") [(bstr "y", VObject [])]);
   (bstr "c", VDBRef (bstr "ns") (bstr "0123456789ab")); (bstr "d", VBinData x00 (bstr "data"));
   (bstr "e", VRegEx (bstr "p") (bstr "i")); (bstr "f", VNull)].

Lemma validateBSON_correct_witness :
  validateBSON 1000 (Ptr (enc_doc validate_sample) 0) (zlen (enc_doc validate_sample)) = Ok Status_OK.
Proof.
  apply (proj2 (proj2 (validateBSON_correct 1000 (Ptr (enc_doc validate_sample) 0) (enc_doc validate_sample)
    (points_start _) ltac:(by vm_compute) ltac:(by vm_compute))) validate_sample []).
  - by vm_compute.
  - by rewrite app_nil_r.
Defined.

(** [BSONObj::valid()] holds of a well-formed object. *)
Lemma valid_rep fuel o d : obj_rep o d -> 3 * zlen (enc_doc d) + 2 <= Z.of_nat fuel -> valid fuel o = Ok true.
Proof.
  intros Ho Hf. pose proof (obj_small o d Ho) as Hl. rewrite obj_max_val in Hl. unfold valid.
  rewrite (objsize_rep o d Ho). cbn [bind]. rewrite wrap_u_small by (change (2 ^ 64) with 18446744073709551616; lia).
  rewrite (start_complete o (enc_doc d) (proj1 Ho) ltac:(change (2 ^ 31) with 2147483648; lia) fuel d (enc_elems d) []).
  - done.
  - apply lays_enc_doc, Ho.
  - by rewrite app_nil_r.
  - done.
Qed.

(** The configuration the walk of [bad_size_sample] comes back to. *)
Definition bad_size_loop : config :=
  MkConfig WithinObj [frame false 0 11] (MkBuffer (Ptr bad_size_sample 0) 4 11).

Lemma bad_size_turn : validate_step bad_size_loop = Read bad_size_loop (buffer bad_size_loop).
Proof. by vm_compute. Qed.

Lemma bad_size_start :
  validate_step (start (Ptr bad_size_sample 0) 11) = Read bad_size_loop (buffer bad_size_loop).
Proof. by vm_compute. Qed.

Lemma bad_size_loops fuel : validate_loop fuel bad_size_loop = Err OutOfFuel.
Proof.
  induction fuel as [|fuel IH]; cbn [validate_loop]; rewrite bool_decide_eq_false_2 by done; [done|].
  by rewrite bad_size_turn.
Qed.

(** the validator does not answer on every buffer: a string whose size is
    negative takes it back to the string's element, turn after turn, on an
    object of eleven bytes.  [BSONObj::valid()] does not return on it. *)
Theorem validateBSON_diverges fuel : validateBSON fuel (Ptr bad_size_sample 0) (zlen bad_size_sample) = Err OutOfFuel /\
  valid fuel (Ptr bad_size_sample 0) = Err OutOfFuel.
Proof.
  assert (validateBSON fuel (Ptr bad_size_sample 0) 11 = Err OutOfFuel) as H.
  { unfold validateBSON, validateBSONIterative. change (11 <? 5) with false. cbn iota.
    destruct fuel as [|fuel]; [done|]. cbn [validate_loop]. rewrite bool_decide_eq_false_2 by done.
    fold (start (Ptr bad_size_sample 0) 11). rewrite bad_size_start. apply bad_size_loops. }
  split; [exact H|]. unfold valid. change (objsize (Ptr bad_size_sample 0)) with (Ok 11). cbn [bind].
  change (u64 11) with 11. by rewrite H.
Qed.

(** A string whose size is zero, without even its terminator, is accepted,
    though no document is laid out so. *)
Theorem validateBSON_size_zero : exists bs, validateBSON 100 (Ptr bs 0) (zlen bs) = Ok Status_OK /\
  zlen bs = 11 /\ forall d b, lays_fields d b -> bs <> enc_frame b.
Proof.
  exists (le32 11 ++ [x02; x00; x00; x00; x00; x00; x00]). split; [by vm_compute|]. split; [by vm_compute|].
  intros d b Hd E. assert (zlen b = 6) as Hb.
  { pose proof (f_equal zlen E) as H. rewrite zlen_enc_frame in H.
    change (zlen (le32 11 ++ _)) with 11 in H. lia. }
  unfold enc_frame in E. rewrite Hb in E. apply app_inv_head in E.
  change [x02; x00; x00; x00; x00; x00; x00] with ([x02; x00; x00; x00; x00; x00] ++ [x00]) in E.
  apply app_inv_tail in E. subst b. inversion Hd as [|n v d' vb b' Hn Hv _ Hd' Et]; subst.
  assert (vtype v = BSONString) as Ht.
  { rewrite <- (byte_type_type_byte (vtype v)) by apply vtype_valid. by rewrite Et. }
  pose proof (f_equal zlen H) as Hl. rewrite zlen_app, zlen_cons, zlen_app in Hl. change (zlen [_; _; _; _; _]) with 5 in Hl.
  pose proof (zlen_nonneg n). pose proof (zlen_nonneg b').
  inversion Hv; subst; try discriminate Ht. destruct v; try discriminate Ht.
  cbn [enc_value] in Hl. rewrite zlen_enc_string in Hl. pose proof (zlen_nonneg s). lia.
Qed.
