(* ===== verification/Access.v ===== *)
(** * Access: field access refines lookup in the document

    The abstract side of [getField], [getFieldDotted], [nFields], [elems],
    [binaryEqual] and [hash] (Obj.v): what each returns on an object that
    encodes a well-formed document, and that the encoding determines the
    document. *)

From stdpp Require Import base list numbers strings option tactics.
From Stdlib Require Import Strings.Byte ZArith Lia.
From S2P Require Import Prelude Memory Double BsonTypes Format Element Obj.

(** ** The encoding is injective *)

Lemma app_inj_len {A} (a b r s : list A) :
  length a = length b -> a ++ r = b ++ s -> a = b /\ r = s.
Proof. intros. by apply app_inj_1. Qed.

Lemma cstring_inj a b r s : no_nul a = true -> no_nul b = true ->
  a ++ x00 :: r = b ++ x00 :: s -> a = b /\ r = s.
Proof.
  intros Ha Hb E. assert (a = b) as ->.
  { pose proof (until_nul_app a r Ha) as H1. rewrite E, (until_nul_app b s Hb) in H1.
    congruence. }
  apply app_inv_head in E. by injection E.
Qed.

Lemma le_prefix_inj n x y r s :
  x mod 256 ^ Z.of_nat n = x -> y mod 256 ^ Z.of_nat n = y ->
  le_bytes n x ++ r = le_bytes n y ++ s -> x = y /\ r = s.
Proof.
  intros Hx Hy [H1%le_bytes_inj H2]%app_inj_len; [|by rewrite !length_le_bytes].
  split; congruence.
Qed.

Lemma le32_size_inj x y r s :
  0 <= x <= 2 * BSONObjMaxInternalSize -> 0 <= y <= 2 * BSONObjMaxInternalSize ->
  le32 x ++ r = le32 y ++ s -> x = y /\ r = s.
Proof.
  rewrite obj_max_val. intros Hx Hy. apply le_prefix_inj;
    change (256 ^ Z.of_nat 4) with 4294967296; apply Z.mod_small; lia.
Qed.

Lemma le64_u_inj x y r s : in_u 64 x = true -> in_u 64 y = true ->
  le64 x ++ r = le64 y ++ s -> x = y /\ r = s.
Proof.
  intros Hx%in_u_spec Hy%in_u_spec. apply le_prefix_inj;
    change (256 ^ Z.of_nat 8) with (2 ^ 64); by apply Z.mod_small.
Qed.

Lemma le_s_inj n w x y r s : 8 * Z.of_nat n = w -> 1 <= w ->
  in_s w x = true -> in_s w y = true ->
  le_bytes n x ++ r = le_bytes n y ++ s -> x = y /\ r = s.
Proof.
  intros Hn Hw Hx%in_s_spec Hy%in_s_spec [H1%le_bytes_inj H2]%app_inj_len;
    [|by rewrite !length_le_bytes].
  split; [|done]. change 256 with (2 ^ 8) in H1. rewrite <- Z.pow_mul_r, Hn in H1 by lia.
  rewrite <- (wrap_s_small w x), <- (wrap_s_small w y) by done.
  by rewrite <- (wrap_s_mod w x), <- (wrap_s_mod w y), H1 by done.
Qed.

Lemma enc_string_inj a b r s :
  zlen a < BSONObjMaxInternalSize -> zlen b < BSONObjMaxInternalSize ->
  enc_string a ++ r = enc_string b ++ s -> a = b /\ r = s.
Proof.
  intros Ha Hb. unfold enc_string. rewrite <- !app_assoc.
  pose proof (zlen_nonneg a). pose proof (zlen_nonneg b).
  intros [Hl E]%le32_size_inj; [|rewrite obj_max_val in *; lia..].
  unfold zlen in Hl. apply app_inj_len in E as [-> E]; [|lia]. by injection E.
Qed.

Definition value_prefix (v : value) : Prop := forall w r s,
  wf_value v = true -> wf_value w = true -> vtype v = vtype w ->
  enc_value v ++ r = enc_value w ++ s -> v = w /\ r = s.

Lemma type_byte_inj t u : valid_type t = true -> valid_type u = true ->
  type_byte t = type_byte u -> t = u.
Proof.
  intros Ht Hu E. rewrite <- (byte_type_type_byte t), <- (byte_type_type_byte u) by done.
  by rewrite E.
Qed.

Lemma vtype_byte_nonzero v : type_byte (vtype v) <> x00.
Proof. by destruct v. Qed.

Lemma enc_elems_prefix d : Forall (fun f : field => value_prefix (snd f)) d ->
  forall d' r s, forallb wf_field d = true -> forallb wf_field d' = true ->
  enc_elems d ++ x00 :: r = enc_elems d' ++ x00 :: s -> d = d' /\ r = s.
Proof.
  induction 1 as [|[n v] d Hv _ IH]; intros [|[n' v'] d'] r s Hw Hw' E.
  - split; [done|]. by injection E.
  - injection E as E _. symmetry in E. by apply vtype_byte_nonzero in E.
  - injection E as E _. by apply vtype_byte_nonzero in E.
  - rewrite !enc_elems_cons, <- !app_assoc in E. unfold enc_elem in E. simpl in E.
    rewrite <- !app_assoc in E. injection E as Et E.
    apply type_byte_inj in Et; [|apply vtype_valid..].
    simpl in Hw, Hw'. apply andb_prop in Hw as [[Hn Hwv]%wf_field_parts Hw].
    apply andb_prop in Hw' as [[Hn' Hwv']%wf_field_parts Hw'].
    rewrite <- ?app_comm_cons in E.
    apply cstring_inj in E as [-> E]; [|done..].
    apply Hv in E as [Ev E]; [|done..]. simpl in Ev. subst v'.
    by apply IH in E as [-> ->].
Qed.

Lemma enc_doc_prefix d d' r s :
  Forall (fun f : field => value_prefix (snd f)) d ->
  wf_doc d = true -> wf_doc d' = true ->
  enc_doc d ++ r = enc_doc d' ++ s -> d = d' /\ r = s.
Proof.
  intros Hd Hw Hw' E. pose proof (wf_doc_size _ Hw) as Hs. pose proof (wf_doc_size _ Hw') as Hs'.
  rewrite zlen_enc_doc in Hs, Hs'.
  pose proof (zlen_nonneg (enc_elems d)). pose proof (zlen_nonneg (enc_elems d')).
  unfold enc_doc, enc_frame in E. rewrite <- !app_assoc in E.
  apply le32_size_inj in E as [_ E]; [|lia..].
  unfold wf_doc in *. apply andb_prop in Hw as [Hw _]. apply andb_prop in Hw' as [Hw' _].
  by apply (enc_elems_prefix d Hd) in E.
Qed.

Ltac wf_split := repeat match goal with
  | H : _ && _ = true |- _ => apply andb_prop in H as [? ?]
  | H : (_ <? _) = true |- _ => apply Z.ltb_lt in H
  | H : (_ =? _) = true |- _ => apply Z.eqb_eq in H
  end.

Lemma enc_value_prefix v : value_prefix v.
Proof.
  revert v. apply value_nested_ind.
  - intros v. destruct v; try done; intros w r0 s0 Hv Hw Ht E; destruct w; try discriminate Ht;
      cbn [enc_value wf_value] in *; wf_split; try done;
      rewrite <- ?app_assoc, <- ?app_comm_cons in *.
    + by apply le64_u_inj in E as [-> ->].
    + apply enc_string_inj in E as [-> ->]; [done|lia..].
    + apply enc_string_inj in E as [-> ->]; [done|lia..].
    + apply enc_string_inj in E as [-> ->]; [done|lia..].
    + pose proof (zlen_nonneg data). pose proof (zlen_nonneg data0).
      apply le32_size_inj in E as [El E]; [|lia..]. injection E as -> E.
      apply app_inj_len in E as [-> ->]; [done|]. unfold zlen in El. lia.
    + apply app_inj_len in E as [-> ->]; [done|]. unfold zlen in *. lia.
    + destruct b, b0; try discriminate E; injection E as ->; done.
    + by apply le64_u_inj in E as [-> ->].
    + by apply le64_u_inj in E as [-> ->].
    + apply cstring_inj in E as [-> E]; [|done..].
      rewrite <- ?app_assoc in E. apply cstring_inj in E as [-> ->]; done.
    + apply enc_string_inj in E as [-> E]; [|lia..].
      apply app_inj_len in E as [-> ->]; [done|]. unfold zlen in *. lia.
    + apply (le_s_inj 4 32) in E as [-> ->]; done.
    + apply (le_s_inj 8 64) in E as [-> ->]; done.
  - intros d IH w r s Hv Hw Ht E. destruct w; try discriminate Ht. by apply enc_doc_prefix in E as [-> ->].
  - intros d IH w r s Hv Hw Ht E. destruct w; try discriminate Ht. by apply enc_doc_prefix in E as [-> ->].
  - intros c d IH w r s Hv Hw Ht E. destruct w; try discriminate Ht.
    apply wf_value_code in Hv as (? & Hd & Hs). apply wf_value_code in Hw as (? & Hd' & Hs').
    rewrite !enc_value_code, <- !app_assoc in E.
    pose proof (zlen_nonneg c). pose proof (zlen_nonneg code).
    pose proof (zlen_nonneg (enc_doc d)). pose proof (zlen_nonneg (enc_doc scope)).
    apply le32_size_inj in E as [_ E]; [|rewrite zlen_app, zlen_enc_string; lia..].
    apply enc_string_inj in E as [-> E]; [|lia..].
    by apply enc_doc_prefix in E as [-> ->].
Qed.

(** Two well-formed documents with the same bytes are the same document. *)
Lemma enc_doc_inj d d' : wf_doc d = true -> wf_doc d' = true ->
  enc_doc d = enc_doc d' -> d = d'.
Proof.
  intros Hw Hw' E. apply (enc_doc_prefix d d' [] []); [|done|done|by rewrite !app_nil_r].
  apply List.Forall_forall. intros. apply enc_value_prefix.
Qed.

(** ** Lookup in a document *)

Definition find_field (d : doc) (name : list byte) : option field :=
  List.find (fun f : field => bytes_eqb name (fst f)) d.

(** The fields of a value that holds some. *)
Definition sub_doc (v : value) : option doc :=
  match v with
  | VObject d | VArray d => Some d
  | _ => None
  end.

(** Dotted lookup: a field with the whole name wins, else the part before the
    first dot names a subdocument. *)
Fixpoint find_dotted (fuel : nat) (d : doc) (name : list byte) : option field :=
  match fuel with
  | O => None
  | S fuel' =>
      match find_field d name with
      | Some f => Some f
      | None =>
          match split_dot name with
          | Some (lft, rgt) =>
              f ← find_field d lft; d' ← sub_doc (snd f); find_dotted fuel' d' rgt
          | None => None
          end
      end
  end.

(** What a lookup returned: the field's element in the same buffer, or EOO. *)
Definition found (m : list byte) (e : BSONElement) (r : option field) : Prop :=
  match r with
  | Some (n, v) => elem_ok e n v /\ mem (data e) = m
  | None => e = BSONElement_empty
  end.

Lemma eoo_empty : eoo BSONElement_empty = Ok true.
Proof. done. Qed.

Lemma found_eoo m e r : found m e r -> eoo e = Ok (match r with Some _ => false | None => true end).
Proof.
  destruct r as [[n v]|]; simpl.
  - intros [Hok _]. apply (eoo_rep_false _ _ _ Hok).
  - intros ->. apply eoo_empty.
Qed.

Lemma field_name_rep e n v : elem_ok e n v -> field_name e = Ok n.
Proof.
  intros Hok. unfold field_name. rewrite (fieldName_rep _ _ _ Hok). cbn [bind].
  apply (fieldName_cstr _ _ _ Hok).
Qed.

Lemma find_field_run d name :
  run_fields (fun (_ : unit) (f : field) =>
    if bytes_eqb name (fst f) then Return f else Continue tt) d tt =
  match find_field d name with Some f => Return f | None => Continue tt end.
Proof.
  unfold find_field. induction d as [|f d IH]; [done|]. simpl.
  by destruct (bytes_eqb name (fst f)).
Qed.

Lemma getField_rep o d name : obj_rep o d ->
  exists e, getField o name = Ok e /\ found (mem o) e (find_field d name).
Proof.
  intros Ho. unfold getField.
  edestruct (for_elements_sim (R:=BSONElement)
    (fun (_ : unit) e => let* f := field_name e in
       Ok (if bytes_eqb name f then Return e else Continue tt))
    (fun (_ : unit) (f : field) =>
       if bytes_eqb name (fst f) then Return f else Continue tt)
    (fun _ _ => True) (fun e f => found (mem o) e (Some f)) o d tt tt Ho)
    as (st & Hst & Hrel); [|done|].
  - intros _ [] e n v _ Hok _ Hm. rewrite (field_name_rep _ _ _ Hok). cbn [bind fst].
    destruct (bytes_eqb name n); eexists; split; [done|by constructor|done|by constructor].
  - rewrite Hst. rewrite find_field_run in Hrel.
    destruct (find_field d name); inversion Hrel; subst; by eexists.
Qed.

Lemma find_field_wf d name f : wf_doc d = true -> find_field d name = Some f ->
  fst f = name /\ In f d /\ wf_field f = true.
Proof.
  intros Hw%wf_doc_Forall Hf. apply List.find_some in Hf as [Hin Heq].
  apply bool_decide_eq_true in Heq. split; [done|]. split; [done|].
  rewrite List.Forall_forall in Hw. auto.
Qed.

Lemma embedded_rep e n v d : elem_ok e n v -> sub_doc v = Some d ->
  exists o, embeddedObject e = Ok o /\ obj_rep o d /\ mem o = mem (data e) /\
    value_ptr e = Ok o.
Proof.
  intros Hok Hv. assert (obj_rep (data e +! (zlen n + 2)) d) as Ho.
  { pose proof (value_points _ _ _ Hok) as Hp. pose proof (elem_wf_value _ _ _ Hok) as Hw.
    destruct v; simplify_eq/=; split; try exact Hw; exact Hp. }
  eexists. split; [|split; [exact Ho|split; [done|apply (value_ptr_rep _ _ _ Hok)]]].
  unfold embeddedObject, isABSONObj. rewrite (type_rep _ _ _ Hok). cbn [bind].
  replace (match vtype v with Object | Array => true | _ => false end) with true
    by (by destruct v).
  cbn [verify bind]. rewrite (value_ptr_rep _ _ _ Hok). cbn [bind].
  by apply (BSONObj_init_rep _ d).
Qed.

Lemma is_container v :
  bool_decide (vtype v = Object) || bool_decide (vtype v = Array) =
  match sub_doc v with Some _ => true | None => false end.
Proof. by destruct v. Qed.

Lemma obj_rep_empty : obj_rep BSONObj_empty [].
Proof. split; [|done]. apply (points_start (enc_doc [])). Qed.

(** The subdocument a name leads to: empty when there is none. *)
Definition object_field (d : doc) (name : list byte) : doc :=
  match find_field d name with
  | Some f => default [] (sub_doc (snd f))
  | None => []
  end.

Lemma getObjectField_rep o d name : obj_rep o d ->
  exists o', getObjectField o name = Ok o' /\ obj_rep o' (object_field d name) /\
    (object_field d name <> [] -> mem o' = mem o).
Proof.
  intros Ho. destruct (getField_rep o d name Ho) as (e & He & Hf).
  unfold getObjectField. rewrite He. cbn [bind]. unfold object_field.
  destruct (find_field d name) as [[n v]|]; simpl in Hf.
  - destruct Hf as [Hok Hm]. rewrite (type_rep _ _ _ Hok). cbn [bind snd].
    rewrite is_container. destruct (sub_doc v) as [d'|] eqn:Ev; simpl.
    + destruct (embedded_rep e n v d' Hok Ev) as (o' & Ho' & Hr & Hm' & _).
      exists o'. split; [done|]. split; [done|]. congruence.
    + eexists. split; [done|]. split; [apply obj_rep_empty|done].
  - subst e. eexists. split; [done|]. split; [apply obj_rep_empty|done].
Qed.

Lemma split_dot_length s l r : split_dot s = Some (l, r) -> length s = S (length l + length r).
Proof.
  revert l. induction s as [|c s IH]; intros l; simpl; [done|].
  destruct (Byte.eqb c "."); [by intros [= <- <-]|].
  destruct (split_dot s) as [[a b]|]; [|done]. intros [= <- <-]. simpl. f_equal. by apply IH.
Qed.

Lemma find_dotted_nil fuel name : find_dotted fuel [] name = None.
Proof. destruct fuel; [done|]. simpl. by destruct (split_dot name) as [[a b]|]. Qed.

Lemma getFieldDotted_go_rep fuel : forall o d name, obj_rep o d -> (length name < fuel)%nat ->
  exists e, getFieldDotted_go fuel o name = Ok e /\
    found (mem o) e (find_dotted fuel d name).
Proof.
  induction fuel as [|fuel IH]; intros o d name Ho Hl; [lia|]. cbn [getFieldDotted_go find_dotted].
  destruct (getField_rep o d name Ho) as (e & He & Hf). rewrite He. cbn [bind].
  rewrite (found_eoo _ _ _ Hf). cbn [bind].
  destruct (find_field d name) as [f|]; [by exists e|].
  destruct (split_dot name) as [[lft rgt]|] eqn:Es; [|by exists e].
  apply split_dot_length in Es.
  destruct (getObjectField_rep o d lft Ho) as (o' & Ho' & Hr & Hm). rewrite Ho'. cbn [bind].
  rewrite (isEmpty_rep _ _ Hr). cbn [bind]. unfold object_field in *.
  destruct (find_field d lft) as [[n v]|]; [|by eexists].
  cbn [snd mbind option_bind] in *.
  destruct (sub_doc v) as [d'|]; simpl in *; [|by eexists].
  case_bool_decide as Hd.
  - subst d'. rewrite find_dotted_nil. by eexists.
  - destruct (IH o' d' rgt Hr ltac:(lia)) as (e' & He' & Hf').
    exists e'. split; [done|]. by rewrite <- Hm.
Qed.

Lemma getFieldDotted_rep o d name : obj_rep o d ->
  exists e, getFieldDotted o name = Ok e /\
    found (mem o) e (find_dotted (S (length name)) d name).
Proof. intros Ho. apply getFieldDotted_go_rep; [done|lia]. Qed.

(** ** Paths: when no field name has a dot, a dotted name is a path *)

Fixpoint get_path (d : doc) (path : list (list byte)) : option field :=
  match path with
  | [] => None
  | [n] => find_field d n
  | n :: rest => f ← find_field d n; d' ← sub_doc (snd f); get_path d' rest
  end.

Fixpoint join_dot (path : list (list byte)) : list byte :=
  match path with
  | [] => []
  | [n] => n
  | n :: rest => n ++ "."%byte :: join_dot rest
  end.

Definition dot_free (s : list byte) : bool := forallb (fun c => negb (Byte.eqb c ".")) s.

Fixpoint value_dot_free (v : value) : bool :=
  match v with
  | VObject d | VArray d =>
      forallb (fun f : field => dot_free (fst f) && value_dot_free (snd f)) d
  | _ => true
  end.
Definition doc_dot_free (d : doc) : bool :=
  forallb (fun f : field => dot_free (fst f) && value_dot_free (snd f)) d.

Lemma split_dot_app n r : dot_free n = true -> split_dot (n ++ "."%byte :: r) = Some (n, r).
Proof.
  induction n as [|c n IH]; simpl; [done|]. intros [Hc Hn]%andb_prop.
  apply negb_true_iff in Hc. rewrite Hc. by rewrite (IH Hn).
Qed.

Lemma split_dot_free n : dot_free n = true -> split_dot n = None.
Proof.
  induction n as [|c n IH]; simpl; [done|]. intros [Hc Hn]%andb_prop.
  apply negb_true_iff in Hc. rewrite Hc. by rewrite (IH Hn).
Qed.

Lemma find_field_dot_free d name f : doc_dot_free d = true -> find_field d name = Some f ->
  dot_free name = true /\ (forall d', sub_doc (snd f) = Some d' -> doc_dot_free d' = true).
Proof.
  intros Hd Hf. apply List.find_some in Hf as [Hin Heq]. apply bool_decide_eq_true in Heq.
  unfold doc_dot_free in Hd. rewrite forallb_forall in Hd.
  apply Hd in Hin as [Hn Hv]%andb_prop. split; [by rewrite Heq|].
  intros d'. destruct (snd f); simpl; intros; simplify_eq/=; done.
Qed.

Lemma find_dotted_path path : forall d fuel,
  path <> [] -> forallb dot_free path = true -> doc_dot_free d = true ->
  (length (join_dot path) < fuel)%nat ->
  find_dotted fuel d (join_dot path) = get_path d path.
Proof.
  induction path as [|n path IH]; intros d [|fuel] Hne Hp Hd Hl; try done; try lia.
  simpl in Hp. apply andb_prop in Hp as [Hn Hp].
  destruct path as [|m path].
  - cbn [find_dotted join_dot get_path]. destruct (find_field d n); [done|].
    by rewrite split_dot_free.
  - change (join_dot (n :: m :: path)) with (n ++ "."%byte :: join_dot (m :: path)) in *.
    cbn [find_dotted].
    destruct (find_field d (n ++ "."%byte :: join_dot (m :: path))) as [f|] eqn:Ef.
    { apply find_field_dot_free in Ef as [Ef _]; [|done]. exfalso. revert Ef. clear.
      unfold dot_free. rewrite forallb_app. simpl. by rewrite andb_false_r. }
    rewrite split_dot_app by done.
    change (get_path d (n :: m :: path)) with
      (f ← find_field d n; d' ← sub_doc (snd f); get_path d' (m :: path)).
    destruct (find_field d n) as [f|] eqn:Ef'; [|done]. cbn [mbind option_bind].
    destruct (sub_doc (snd f)) as [d'|] eqn:Es; [|done]. cbn [mbind option_bind].
    rewrite length_app in Hl. cbn [length] in Hl.
    apply IH; [done|done| |lia].
    by eapply find_field_dot_free.
Qed.

(** ** Counting and collecting elements *)

Lemma nFields_rep o d : obj_rep o d -> nFields o = Ok (zlen d).
Proof.
  intros Ho. unfold nFields.
  edestruct (for_elements_eoo_sim (R:=Z) (R':=unit)
    (fun n (_ : BSONElement) => Ok (Continue (n + 1)))
    (fun n (_ : field) => Continue (n + 1)) eq (fun _ _ => False) o d 0 0 Ho)
    as (st & Hst & Hrel); [|done|].
  - intros s s' e n v -> _ _ _. eexists. split; [done|]. by constructor.
  - rewrite Hst. cbn [finish bind].
    assert (forall k, run_fields (R':=unit) (fun n (_ : field) => Continue (n + 1)) d k
      = Continue (k + zlen d)) as Hrun.
    { clear. induction d as [|f d IH]; intros k; simpl;
        [rewrite zlen_nil|rewrite IH, zlen_cons]; f_equal; lia. }
    rewrite Hrun in Hrel. by inversion Hrel; subst.
Qed.

Definition elems_of (m : list byte) (es : list BSONElement) (d : doc) : Prop :=
  Forall2 (fun e (f : field) => elem_ok e (fst f) (snd f) /\ mem (data e) = m) es d.

Lemma Forall2_rev {A B} (P : A -> B -> Prop) l k : Forall2 P l k -> Forall2 P (rev l) (rev k).
Proof. induction 1; simpl; [done|]. apply Forall2_app; auto. Qed.

Lemma elems_rep o d : obj_rep o d -> exists es, elems o = Ok es /\ elems_of (mem o) es d.
Proof.
  intros Ho. unfold elems.
  edestruct (for_elements_sim (R:=list BSONElement) (R':=unit)
    (fun l (e : BSONElement) => Ok (Continue (e :: l)))
    (fun l (f : field) => Continue (f :: l))
    (fun es d => elems_of (mem o) es d) (fun _ _ => False) o d [] [] Ho)
    as (st & Hst & Hrel); [|constructor|].
  - intros s s' e n v Hs Hok _ Hm. eexists. split; [done|]. constructor.
    constructor; [done|]. exact Hs.
  - rewrite Hst. cbn [finish bind].
    assert (forall k, run_fields (R':=unit) (fun l (f : field) => Continue (f :: l)) d k
      = Continue (rev d ++ k)) as Hrun.
    { clear. induction d as [|f d IH]; intros k; simpl; [done|].
      rewrite IH. by rewrite <- app_assoc. }
    rewrite Hrun, app_nil_r in Hrel. inversion Hrel; subst. eexists. split; [done|].
    rewrite <- (List.rev_involutive d). by apply Forall2_rev.
Qed.

(** ** Binary equality and hashing *)

Lemma binaryEqual_rep o r d d' : obj_rep o d -> obj_rep r d' ->
  exists b, binaryEqual o r = Ok b /\ (b = true <-> d = d').
Proof.
  intros Ho Hr. unfold binaryEqual. rewrite (objsize_rep _ _ Ho), (objsize_rep _ _ Hr).
  cbn [bind]. pose proof (obj_small _ _ Ho).
  destruct (Z.eqb_spec (zlen (enc_doc d)) (zlen (enc_doc d'))) as [E|E].
  - destruct (Z.eqb_spec (zlen (enc_doc d)) 0); [lia|]. unfold memcmp.
    rewrite (points_loads_all o _ _ (proj1 Ho) eq_refl).
    rewrite (points_loads_all r _ _ (proj1 Hr) E). cbn [bind].
    eexists. split; [done|]. rewrite Z.eqb_eq. split.
    + intros Hc%lex_cmp_eq. apply enc_doc_inj; [apply Ho|apply Hr|done].
    + intros ->. apply lex_cmp_refl.
  - eexists. split; [done|]. split; [done|]. intros ->. done.
Qed.

(** Any two buffers [binaryEqual] accepts hash alike. *)
Lemma binaryEqual_hash o r : binaryEqual o r = Ok true -> hash o = hash r.
Proof.
  unfold binaryEqual, hash. intros H. inv_bind. rewrite Ha, Ha0. cbn [bind].
  destruct (Z.eqb_spec a a0) as [->|]; [|done].
  destruct (Z.eqb_spec a0 0) as [->|]; [done|]. unfold memcmp in H. inv_bind.
  apply Z.eqb_eq, lex_cmp_eq in H. subst.
  destruct (a0 <=? 0); [done|]. congruence.
Qed.

Lemma hash_range o h : hash o = Ok h -> 2 ^ 27 <= h < 2 ^ 31.
Proof.
  unfold hash. intros H. inv_bind.
  set (x := fold_left hash_step a0 0).
  assert (0 <= Z.land x 0x7fffffff < 2 ^ 31) as Hx.
  { change 0x7fffffff with (Z.ones 31). rewrite Z.land_ones by lia.
    apply Z.mod_pos_bound. lia. }
  set (y := Z.land x 0x7fffffff) in *.
  assert (0 <= Z.lor y 0x8000000) by (apply Z.lor_nonneg; lia).
  assert (Z.lor y 0x8000000 < 2 ^ 31).
  { destruct (Z.eq_dec (Z.lor y 0x8000000) 0) as [->|]; [lia|].
    apply Z.log2_lt_pow2; [lia|]. rewrite Z.log2_lor by lia.
    apply Z.max_lub_lt; [|done].
    destruct (Z.eq_dec y 0) as [->|]; [done|]. apply Z.log2_lt_pow2; lia. }
  assert (2 ^ 27 <= Z.lor y 0x8000000).
  { apply Z.log2_le_pow2.
    - destruct (Z.eq_dec (Z.lor y 0x8000000) 0) as [[_ ?]%Z.lor_eq_0_iff|]; [done|lia].
    - rewrite Z.log2_lor by lia. change (Z.log2 0x8000000) with 27. lia. }
  rewrite wrap_s_small; [lia|lia|]. change (2 ^ (32 - 1)) with (2 ^ 31). lia.
Qed.
