(* ===== verification/Md5Spec.v ===== *)
(** * Md5Spec: the MD5 code computes the function of RFC 1321

    The reference pads the whole message, cuts it into blocks and folds a
    compression function written as a loop with tables.  The code appends
    pieces of any length and unrolls the loop with renamed registers: the
    digest is that of the concatenation of the pieces. *)

From stdpp Require Import base list numbers strings option tactics.
From Stdlib Require Import Strings.Byte ZArith Lia.
From S2P Require Import Prelude Memory Codec Md5 Format Obj.

Import Md5.

(** [BSONObj::md5]. *)
Definition BSONObj_md5 (st : md5_state) (o : BSONObj) : result (list byte) :=
  let* n := objsize o in
  let* bs := loads o n in
  let* st := md5_append (md5_init st) bs in
  let* d := md5_finish st in
  Ok (digestToString d).

(** ** The function of RFC 1321 *)

Definition rfc_K : list Z :=
  [0xd76aa478; 0xe8c7b756; 0x242070db; 0xc1bdceee; 0xf57c0faf; 0x4787c62a; 0xa8304613; 0xfd469501;
   0x698098d8; 0x8b44f7af; 0xffff5bb1; 0x895cd7be; 0x6b901122; 0xfd987193; 0xa679438e; 0x49b40821;
   0xf61e2562; 0xc040b340; 0x265e5a51; 0xe9b6c7aa; 0xd62f105d; 0x02441453; 0xd8a1e681; 0xe7d3fbc8;
   0x21e1cde6; 0xc33707d6; 0xf4d50d87; 0x455a14ed; 0xa9e3e905; 0xfcefa3f8; 0x676f02d9; 0x8d2a4c8a;
   0xfffa3942; 0x8771f681; 0x6d9d6122; 0xfde5380c; 0xa4beea44; 0x4bdecfa9; 0xf6bb4b60; 0xbebfbc70;
   0x289b7ec6; 0xeaa127fa; 0xd4ef3085; 0x04881d05; 0xd9d4d039; 0xe6db99e5; 0x1fa27cf8; 0xc4ac5665;
   0xf4292244; 0x432aff97; 0xab9423a7; 0xfc93a039; 0x655b59c3; 0x8f0ccc92; 0xffeff47d; 0x85845dd1;
   0x6fa87e4f; 0xfe2ce6e0; 0xa3014314; 0x4e0811a1; 0xf7537e82; 0xbd3af235; 0x2ad7d2bb; 0xeb86d391].
Definition rfc_shifts : list (list Z) := [[7; 12; 17; 22]; [5; 9; 14; 20]; [4; 11; 16; 23]; [6; 10; 15; 21]].
Definition rfc_function (round : nat) : Z -> Z -> Z -> Z := nth round [F; G; H; I] F.
(** The word of the block that step [i] of a round takes. *)
Definition rfc_index (round : nat) (i : Z) : Z :=
  match round with
  | O => i
  | 1%nat => (5 * i + 1) mod 16
  | 2%nat => (3 * i + 5) mod 16
  | _ => (7 * i) mod 16
  end.

Definition rfc_step (data : list byte) (r : regs) (i : nat) : regs :=
  let round := (i / 16)%nat in
  let t := u32 (ra r + rfc_function round (rb r) (rc r) (rd r) +
                word data (rfc_index round (Z.of_nat (i mod 16))) + nth i rfc_K 0) in
  Regs (rd r) (u32 (rb r + ROTATE_LEFT t (nth (i mod 4) (nth round rfc_shifts []) 0))) (rb r) (rc r).

Definition rfc_block (r : regs) (data : list byte) : regs :=
  add_regs r (fold_left (rfc_step data) (seq 0 64) r).

Definition rfc_init : regs := Regs 0x67452301 0xefcdab89 0x98badcfe 0x10325476.

(** The first [n] blocks of a message. *)
Fixpoint blocks (n : nat) (m : list byte) : list (list byte) :=
  match n with O => [] | S n' => take 64 m :: blocks n' (drop 64 m) end.

Definition rfc_padded (m : list byte) : list byte :=
  m ++ x80 :: repeat x00 (Z.to_nat ((55 - zlen m) mod 64)) ++ le_bytes 8 (8 * zlen m).

Definition rfc_md5 (m : list byte) : list byte :=
  let p := rfc_padded m in
  let r := fold_left rfc_block (blocks (length p / 64) p) rfc_init in
  le_bytes 4 (ra r) ++ le_bytes 4 (rb r) ++ le_bytes 4 (rc r) ++ le_bytes 4 (rd r).

(** ** One block *)

(** A step of the loop, its index, shift and constant given. *)
Definition step_with (f : Z -> Z -> Z -> Z) (data : list byte) (r : regs) (x : Z * Z * Z) : regs :=
  let t := u32 (ra r + f (rb r) (rc r) (rd r) + word data (fst (fst x)) + snd x) in
  Regs (rd r) (u32 (rb r + ROTATE_LEFT t (snd (fst x)))) (rb r) (rc r).

(** The unrolled steps with these parameters, four by four. *)
Fixpoint unroll (f : Z -> Z -> Z -> Z) (data : list byte) (ps : list (Z * Z * Z)) : list (regs -> regs) :=
  match ps with
  | (k0, s0, T0) :: (k1, s1, T1) :: (k2, s2, T2) :: (k3, s3, T3) :: ps' =>
      SET_with f data RA RB RC RD k0 s0 T0 :: SET_with f data RD RA RB RC k1 s1 T1 ::
      SET_with f data RC RD RA RB k2 s2 T2 :: SET_with f data RB RC RD RA k3 s3 T3 :: unroll f data ps'
  | _ => []
  end.

(** Four unrolled steps are four steps of the loop: the registers are renamed
    four times and are then where they were. *)
Lemma four_steps f data k0 k1 k2 k3 s0 s1 s2 s3 T0 T1 T2 T3 r :
  run (unroll f data [(k0, s0, T0); (k1, s1, T1); (k2, s2, T2); (k3, s3, T3)]) r =
  fold_left (step_with f data) [(k0, s0, T0); (k1, s1, T1); (k2, s2, T2); (k3, s3, T3)] r.
Proof.
  destruct r as [a b c d]. unfold run, unroll, SET_with, step_with.
  cbn [fold_left get put ra rb rc rd fst snd].
  set (a' := u32 (ROTATE_LEFT _ s0 + b)).
  replace (u32 (b + ROTATE_LEFT _ s0)) with a' by (unfold a'; f_equal; lia). clearbody a'.
  set (d' := u32 (ROTATE_LEFT _ s1 + a')).
  replace (u32 (a' + ROTATE_LEFT _ s1)) with d' by (unfold d'; f_equal; lia). clearbody d'.
  set (c' := u32 (ROTATE_LEFT _ s2 + d')).
  replace (u32 (d' + ROTATE_LEFT _ s2)) with c' by (unfold c'; f_equal; lia). clearbody c'.
  f_equal. f_equal. lia.
Qed.

Lemma run_unroll f data n : forall ps r, length ps = (4 * n)%nat ->
  run (unroll f data ps) r = fold_left (step_with f data) ps r.
Proof.
  induction n as [|n IH]; intros ps r Hl; [by destruct ps|].
  destruct ps as [|[[k0 s0] T0] [|[[k1 s1] T1] [|[[k2 s2] T2] [|[[k3 s3] T3] ps]]]]; simpl in Hl; try lia.
  change (run (unroll f data ps) (run (unroll f data [(k0, s0, T0); (k1, s1, T1); (k2, s2, T2); (k3, s3, T3)]) r) =
    fold_left (step_with f data) ps
      (fold_left (step_with f data) [(k0, s0, T0); (k1, s1, T1); (k2, s2, T2); (k3, s3, T3)] r)).
  rewrite four_steps. apply IH. lia.
Qed.

Lemma run_app l1 l2 r : run (l1 ++ l2) r = run l2 (run l1 r).
Proof. apply fold_left_app. Qed.

(** The parameters of the sixteen steps of a round. *)
Definition round_params (round : nat) : list (Z * Z * Z) :=
  map (fun i => (rfc_index round (Z.of_nat (i mod 16)), nth (i mod 4) (nth round rfc_shifts []) 0,
                 nth i rfc_K 0)) (seq (16 * round) 16).

Lemma round_loop round data r : (round < 4)%nat ->
  fold_left (rfc_step data) (seq (16 * round) 16) r =
  fold_left (step_with (rfc_function round) data) (round_params round) r.
Proof.
  intros Hr. unfold round_params. rewrite <- (map_id (seq (16 * round) 16)) at 1.
  assert (forall i, In i (seq (16 * round) 16) -> (i / 16 = round)%nat) as Hi.
  { intros i [Hl Hu]%in_seq. symmetry. apply (Nat.div_unique i 16 round (i - 16 * round)); lia. }
  revert r Hi. induction (seq (16 * round) 16) as [|i l IH]; intros r Hi; [done|].
  cbn [map fold_left]. rewrite IH by (intros j Hj; apply Hi; by right). f_equal.
  unfold rfc_step. by rewrite (Hi i (or_introl eq_refl)).
Qed.

Lemma md5_process_block r data : md5_process r data = rfc_block r data.
Proof.
  unfold md5_process, rfc_block. f_equal. rewrite !run_app.
  change (seq 0 64) with (seq (16 * 0) 16 ++ seq (16 * 1) 16 ++ seq (16 * 2) 16 ++ seq (16 * 3) 16).
  rewrite !fold_left_app, !round_loop by lia.
  change (round1 data) with (unroll F data (round_params 0)).
  change (round2 data) with (unroll G data (round_params 1)).
  change (round3 data) with (unroll H data (round_params 2)).
  change (round4 data) with (unroll I data (round_params 3)).
  by rewrite !(run_unroll _ _ 4).
Qed.

(** ** The message in pieces *)

(** The registers after the blocks of [m], whose length is a multiple of 64. *)
Definition absorb (r : regs) (m : list byte) : regs := fold_left rfc_block (blocks (length m / 64) m) r.

Definition whole (m : list byte) : Prop := Nat.divide 64 (length m).

Lemma whole_length m : whole m -> length m = (64 * (length m / 64))%nat.
Proof. intros [k Hk]. rewrite Hk. rewrite Nat.div_mul by lia. lia. Qed.

Lemma whole_nil : whole [].
Proof. by exists 0%nat. Qed.

Lemma whole_app a b : whole a -> whole b -> whole (a ++ b).
Proof. unfold whole. rewrite length_app. apply Nat.divide_add_r. Qed.

Lemma whole_block p : length p = 64%nat -> whole p.
Proof. intros H. exists 1%nat. lia. Qed.

Lemma blocks_app n k a b : length a = (64 * n)%nat -> blocks (n + k) (a ++ b) = blocks n a ++ blocks k b.
Proof.
  revert a. induction n as [|n IH]; intros a Ha; [by destruct a|].
  cbn [Nat.add blocks app]. rewrite take_app_le, drop_app_le by lia.
  f_equal. apply IH. rewrite length_drop. lia.
Qed.

Lemma absorb_app r a b : whole a -> absorb r (a ++ b) = absorb (absorb r a) b.
Proof.
  intros Ha%whole_length. unfold absorb.
  rewrite length_app. rewrite Ha at 1. rewrite (Nat.mul_comm 64), (Nat.add_comm (_ * 64)), Nat.div_add by lia.
  rewrite Nat.add_comm, blocks_app by done. apply fold_left_app.
Qed.

Lemma absorb_block r p : length p = 64%nat -> absorb r p = md5_process r p.
Proof.
  intros Hp. unfold absorb. rewrite Hp, md5_process_block. cbn -[rfc_block take drop].
  by rewrite take_ge by lia.
Qed.

Lemma process_blocks_spec fuel : forall r p, (length p <= fuel)%nat -> exists full tail,
  p = full ++ tail /\ whole full /\ (length tail < 64)%nat /\ process_blocks fuel r p = (absorb r full, tail).
Proof.
  induction fuel as [|fuel IH]; intros r p Hf.
  { destruct p; [|simpl in Hf; lia]. exists [], []. split_and!; [done|apply whole_nil|simpl; lia|done]. }
  cbn [process_blocks]. destruct (Z.leb_spec 64 (zlen p)) as [Hp|Hp]; unfold zlen in Hp.
  - assert (length (take 64 p) = 64%nat) as Hl by (rewrite length_take; lia).
    destruct (IH (md5_process r (take 64 p)) (drop 64 p)) as (full & tail & Hd & Hw & Ht & Hb);
      [rewrite length_drop; lia|].
    exists (take 64 p ++ full), tail. rewrite <- app_assoc, <- Hd, take_drop. split; [done|].
    split; [apply whole_app; [by apply whole_block|done]|]. split; [done|].
    by rewrite Hb, absorb_app, (absorb_block r (take 64 p)) by (done || by apply whole_block).
  - exists [], p. split_and!; [done|apply whole_nil|lia|done].
Qed.

(** ** The state holds the message so far *)

Definition holds (st : md5_state) (m : list byte) : Prop := exists full tail,
  m = full ++ tail /\ whole full /\ (length tail < 64)%nat /\
  abcd st = absorb rfc_init full /\ length (buf st) = 64%nat /\ take (length tail) (buf st) = tail /\
  count0 st = u32 (8 * zlen m) /\ count1 st = u32 (8 * zlen m / 2 ^ 32).

Lemma init_holds st : length (buf st) = 64%nat -> holds (md5_init st) [].
Proof. intros Hb. exists [], []. split_and!; try done; [apply whole_nil|simpl; lia]. Qed.

Lemma copy_into_length b o p : 0 <= o -> o + zlen p <= zlen b -> length (copy_into b o p) = length b.
Proof.
  unfold zlen. intros. unfold copy_into. rewrite !length_app, length_take, length_drop. lia.
Qed.

Lemma take_copy_into b o p : 0 <= o -> o + zlen p <= zlen b ->
  take (Z.to_nat o + length p) (copy_into b o p) = take (Z.to_nat o) b ++ p.
Proof.
  unfold zlen. intros. unfold copy_into. rewrite app_assoc, take_app_le;
    [apply take_ge|]; rewrite length_app, length_take; lia.
Qed.

(** The two words count the bits of the message. *)
Lemma count_append a n : 0 <= a -> 0 <= n < 2 ^ 31 ->
  let c0 := u32 (u32 a + n) in
  let c1 := u32 (u32 (a / 2 ^ 32) + 0) in
  c0 = u32 (a + n) /\ (if c0 <? n then u32 (c1 + 1) else c1) = u32 ((a + n) / 2 ^ 32).
Proof.
  intros Ha Hn. unfold wrap_u.
  pose proof (Z.div_mod a (2 ^ 32) ltac:(lia)). pose proof (Z.mod_pos_bound a (2 ^ 32) ltac:(lia)).
  set (q := a / 2 ^ 32) in *. set (r := a mod 2 ^ 32) in *.
  rewrite Z.add_0_r, !Z.mod_mod by lia.
  assert ((a + n) mod 2 ^ 32 = (r + n) mod 2 ^ 32) as E.
  { replace (a + n) with (r + n + q * 2 ^ 32) by lia. by rewrite Z.mod_add by lia. }
  split; [done|].
  assert ((a + n) / 2 ^ 32 = q + (r + n) / 2 ^ 32) as ->.
  { replace (a + n) with (r + n + q * 2 ^ 32) by lia. rewrite Z.div_add by lia. lia. }
  destruct (Z_lt_ge_dec (r + n) (2 ^ 32)) as [Hc|Hc].
  - rewrite (Z.mod_small (r + n)), (Z.div_small (r + n)) by lia.
    destruct (Z.ltb_spec (r + n) n); [lia|]. by rewrite Z.add_0_r.
  - rewrite <- (Z.mod_add (r + n) (-1)), (Z.mod_small (r + n + _)) by lia.
    replace ((r + n) / 2 ^ 32) with 1 by (apply (Z.div_unique (r + n) (2 ^ 32) 1 (r + n - 2 ^ 32)); lia).
    destruct (Z.ltb_spec (r + n + -1 * 2 ^ 32) n); [|lia]. by rewrite Zplus_mod_idemp_l.
Qed.

Lemma offset_spec a : 0 <= a -> Z.land (Z.shiftr (u32 (8 * a)) 3) 63 = a mod 64.
Proof.
  intros Ha. change 63 with (Z.ones 6). rewrite Z.land_ones, Z.shiftr_div_pow2 by lia.
  unfold wrap_u. change (2 ^ 32) with (8 * 2 ^ 29). rewrite Z.mul_mod_distr_l by lia.
  change (2 ^ 3) with 8. rewrite Z.mul_comm, Z.div_mul by lia.
  change (2 ^ 6) with 64. apply Z.mod_mod_divide. by exists (2 ^ 23).
Qed.

Lemma whole_mod full tail : whole full -> (length tail < 64)%nat -> zlen (full ++ tail) mod 64 = zlen tail.
Proof.
  intros [k Hk] Ht. unfold zlen. rewrite length_app, Hk.
  symmetry. apply (Z.mod_unique _ 64 (Z.of_nat k)); lia.
Qed.

Definition counts (m : list byte) (c0 c1 : Z) : Prop :=
  c0 = u32 (8 * zlen m) /\ c1 = u32 (8 * zlen m / 2 ^ 32).

Lemma full_blocks_holds c0 c1 f b p : whole f -> length b = 64%nat -> counts (f ++ p) c0 c1 ->
  holds (full_blocks c0 c1 (absorb rfc_init f) b p) (f ++ p).
Proof.
  intros Hf Hb [H0 H1]. unfold full_blocks.
  destruct (process_blocks_spec (length p) (absorb rfc_init f) p ltac:(lia)) as (full & tail & -> & Hw & Ht & ->).
  exists (f ++ full), tail. cbn [abcd buf count0 count1]. rewrite <- absorb_app by done.
  split_and!; [by rewrite app_assoc|by apply whole_app|done|done| | |done|done].
  - destruct tail; [done|]. rewrite copy_into_length by (unfold zlen; lia). done.
  - destruct tail as [|c tail]; [done|].
    change (length (c :: tail)) with (Z.to_nat 0 + length (c :: tail))%nat.
    by rewrite take_copy_into by (unfold zlen; lia).
Qed.

Lemma append_counts m data : zlen data < 2 ^ 28 ->
  let nbits := u32 (Z.shiftl (zlen data) 3) in
  let c0 := u32 (u32 (8 * zlen m) + nbits) in
  let c1 := u32 (u32 (8 * zlen m / 2 ^ 32) + Z.shiftr (zlen data) 29) in
  counts (m ++ data) c0 (if c0 <? nbits then u32 (c1 + 1) else c1).
Proof.
  intros Hd. pose proof (zlen_nonneg m). pose proof (zlen_nonneg data).
  rewrite Z.shiftl_mul_pow2, Z.shiftr_div_pow2, (Z.div_small (zlen data)) by lia.
  rewrite (wrap_u_small 32 (_ * _)) by lia.
  destruct (count_append (8 * zlen m) (zlen data * 2 ^ 3)) as [E0 E1]; [lia|lia|].
  unfold counts. cbv zeta in *. rewrite E1. rewrite zlen_app.
  replace (8 * (zlen m + zlen data)) with (8 * zlen m + zlen data * 2 ^ 3) by lia. done.
Qed.

(** What [memcpy] makes of a block that holds [tail]. *)
Lemma fill_spec b tail part : length b = 64%nat -> take (length tail) b = tail ->
  (length tail + length part <= 64)%nat ->
  length (copy_into b (zlen tail) part) = 64%nat /\
  take (length tail + length part) (copy_into b (zlen tail) part) = tail ++ part.
Proof.
  intros Hb Ht Hl. pose proof (zlen_nonneg tail). split.
  - by rewrite copy_into_length by (unfold zlen in *; lia).
  - pose proof (take_copy_into b (zlen tail) part) as E. rewrite zlen_nat, Ht in E.
    apply E; unfold zlen; lia.
Qed.

(** The pieces of a message are appended one after the other, in the block when
    they do not fill it. *)
Lemma append_holds st m data : holds st m -> zlen data < 2 ^ 28 ->
  exists st', md5_append st data = Ok st' /\ holds st' (m ++ data).
Proof.
  intros (full & tail & Hm & Hw & Ht & Hr & Hb & Htail & H0 & H1) Hd.
  pose proof (zlen_nonneg data) as Hn. pose proof (append_counts m data Hd) as Hc. cbv zeta in Hc.
  unfold md5_append. rewrite H0, H1. rewrite offset_spec by apply zlen_nonneg.
  rewrite Hm, whole_mod by done. rewrite <- Hm. cbv zeta.
  replace (in_s 32 (Z.shiftl (zlen data) 3)) with true
    by (symmetry; apply in_s_spec; rewrite Z.shiftl_mul_pow2 by lia; lia). cbn [negb].
  destruct (Z.leb_spec (zlen data) 0) as [Hz|Hz].
  { destruct data; [|rewrite zlen_cons in Hz; pose proof (zlen_nonneg data); lia].
    rewrite app_nil_r. eexists. split; [done|]. exists full, tail. done. }
  set (c0 := u32 (u32 (8 * zlen m) + _)) in *.
  set (c1 := if c0 <? _ then _ else _) in *. clearbody c0 c1.
  pose proof (zlen_nonneg tail) as Htn. assert (zlen tail < 64) as Ht' by (unfold zlen; lia).
  destruct (Z.eqb_spec (zlen tail) 0) as [Et|Et].
  { destruct tail; [|rewrite zlen_cons in Et; pose proof (zlen_nonneg tail); lia].
    rewrite app_nil_r in Hm. subst m. eexists. split; [done|]. rewrite Hr. by apply full_blocks_holds. }
  set (copy := if 64 <? zlen tail + zlen data then 64 - zlen tail else zlen data).
  assert (0 <= copy <= zlen data /\ zlen tail + copy <= 64) as [Hcopy Hfit]
    by (unfold copy; destruct (Z.ltb_spec 64 (zlen tail + zlen data)); lia).
  set (part := take (Z.to_nat copy) data). set (b := copy_into (buf st) (zlen tail) part).
  assert (zlen part = copy) as Hpart by (unfold part, zlen in *; rewrite length_take; lia).
  destruct (fill_spec (buf st) tail part Hb Htail) as [Hlb Hbt]; [unfold zlen in *; lia|]. fold b in Hlb, Hbt.
  destruct (Z.ltb_spec (zlen tail + copy) 64) as [Hl|Hl].
  - assert (copy = zlen data) as Hall
      by (unfold copy in *; destruct (Z.ltb_spec 64 (zlen tail + zlen data)); lia).
    assert (part = data) as Hp by (apply take_ge; unfold zlen in *; lia).
    eexists. split; [done|]. exists full, (tail ++ data). destruct Hc as [Hc0 Hc1].
    split_and!; [by rewrite Hm, app_assoc|done| |done|done| |done|done].
    + rewrite length_app. unfold zlen in *. lia.
    + rewrite length_app. rewrite <- Hp. exact Hbt.
  - assert (b = tail ++ part) as Hbe by (rewrite <- Hbt; symmetry; apply take_ge; unfold zlen in *; lia).
    eexists. split; [done|]. rewrite Hr, <- absorb_block, <- absorb_app by done.
    assert (m ++ data = (full ++ b) ++ drop (Z.to_nat copy) data) as E.
    { rewrite Hm, Hbe, <- !app_assoc. unfold part. by rewrite take_drop. }
    rewrite E in *. apply full_blocks_holds; [apply whole_app; [done|by apply whole_block]|done|done].
Qed.

(** ** The end of the message *)

Lemma word_bytes_le w : word_bytes w = le_bytes 4 w.
Proof.
  unfold word_bytes. cbn [map le_bytes].
  change (Z.shiftl 0 3) with 0. change (Z.shiftl 1 3) with 8. change (Z.shiftl 2 3) with 16.
  change (Z.shiftl 3 3) with 24. rewrite !Z.shiftr_div_pow2, !Z.div_div, Z.div_1_r by lia. done.
Qed.

Lemma length_bytes (m : list byte) : le_bytes 8 (8 * zlen m) =
  word_bytes (u32 (8 * zlen m)) ++ word_bytes (u32 (8 * zlen m / 2 ^ 32)).
Proof.
  rewrite !word_bytes_le. unfold wrap_u. change (2 ^ 32) with (256 ^ Z.of_nat 4).
  rewrite !le_bytes_mod. apply (le_bytes_split 4 4).
Qed.

Lemma pad_size n : 0 <= n -> Z.land (u32 (55 - Z.shiftr (u32 (8 * n)) 3)) 63 = (55 - n) mod 64.
Proof.
  intros Hn. change 63 with (Z.ones 6). rewrite Z.land_ones, Z.shiftr_div_pow2 by lia.
  unfold wrap_u. change (2 ^ 32) with (8 * 2 ^ 29) at 1. rewrite Z.mul_mod_distr_l by lia.
  change (2 ^ 3) with 8. rewrite (Z.mul_comm 8 (n mod _)), Z.div_mul by lia.
  change (2 ^ 6) with 64. rewrite Z.mod_mod_divide by (by exists (2 ^ 26)).
  rewrite Zminus_mod, (Z.mod_mod_divide n) by (by exists (2 ^ 23)). by rewrite <- Zminus_mod.
Qed.

Lemma take_pad n : 0 <= n < 64 -> take (Z.to_nat (n + 1)) pad = x80 :: repeat x00 (Z.to_nat n).
Proof.
  intros Hn. replace (Z.to_nat (n + 1)) with (S (Z.to_nat n)) by lia. unfold pad. cbn [take].
  f_equal. rewrite <- (Nat.min_l (Z.to_nat n) 63) at 2 by lia.
  generalize 63%nat. induction (Z.to_nat n) as [|k IH]; intros [|j]; [done..|]. cbn. by rewrite IH.
Qed.

Lemma whole_padded m : whole (rfc_padded m).
Proof.
  unfold whole, rfc_padded. rewrite length_app. cbn [length]. rewrite length_app, repeat_length, length_le_bytes.
  pose proof (Z.mod_pos_bound (55 - zlen m) 64 ltac:(lia)). pose proof (Z.div_mod (55 - zlen m) 64 ltac:(lia)).
  exists (Z.to_nat (1 - (55 - zlen m) / 64)). unfold zlen in *. lia.
Qed.

Lemma holds_whole st m : holds st m -> whole m -> abcd st = absorb rfc_init m.
Proof.
  intros (full & tail & -> & [k Hk] & Ht & Hr & _) [j Hj]. rewrite length_app in Hj.
  destruct tail; [by rewrite app_nil_r|]. simpl in *. lia.
Qed.

Lemma finish_holds st m : holds st m -> md5_finish st = Ok (rfc_md5 m).
Proof.
  intros Hm. pose proof (zlen_nonneg m) as Hn. pose proof (Z.mod_pos_bound (55 - zlen m) 64 ltac:(lia)) as Hk.
  unfold md5_finish. destruct Hm as (full & tail & Hm). destruct Hm as (E & Hw & Ht & Hr & Hb & Htail & H0 & H1).
  rewrite H0, H1, pad_size, take_pad, <- length_bytes by done.
  assert (holds st m) as Hst by (exists full, tail; done).
  set (k := (55 - zlen m) mod 64) in *.
  destruct (append_holds st m (x80 :: repeat x00 (Z.to_nat k)) Hst) as (st1 & -> & H1st).
  { unfold zlen. cbn [length]. rewrite repeat_length. lia. }
  cbn [bind]. destruct (append_holds st1 _ (le_bytes 8 (8 * zlen m)) H1st) as (st2 & -> & H2st); [done|].
  cbn [bind]. rewrite <- app_assoc in H2st. apply holds_whole in H2st; [|apply whole_padded].
  rewrite H2st, !word_bytes_le. done.
Qed.

(** Appending the pieces of a message in order. *)
Fixpoint append_all (st : md5_state) (pieces : list (list byte)) : result md5_state :=
  match pieces with
  | [] => Ok st
  | p :: r => let* st' := md5_append st p in append_all st' r
  end.

Lemma append_all_holds pieces : forall st m, holds st m -> Forall (fun p => zlen p < 2 ^ 28) pieces ->
  exists st', append_all st pieces = Ok st' /\ holds st' (m ++ concat pieces).
Proof.
  induction pieces as [|p pieces IH]; intros st m Hm Hp.
  { exists st. by rewrite app_nil_r. }
  inversion Hp as [|? ? Hp0 Hps]; subst. cbn [append_all concat].
  destruct (append_holds st m p Hm Hp0) as (st1 & -> & H1). cbn [bind].
  rewrite app_assoc. by apply IH.
Qed.

Lemma hex_digits c :
  [nth (Z.to_nat (Z.land (Z.shiftr (bz c) 4) 0xf)) (bstr "0123456789abcdef") x00;
   nth (Z.to_nat (Z.land (bz c) 0xf)) (bstr "0123456789abcdef") x00] =
  [hex_at hexchars_lower (Z.shiftr (Z.land (bz c) 0xF0) 4); hex_at hexchars_lower (Z.land (bz c) 0x0F)].
Proof. eapply bool_decide_eq_true_1. revert c. apply for_all_bytes. by vm_compute. Qed.

Lemma digestToString_hex d : digestToString d = toHexLower d.
Proof. apply flat_map_ext. intros c. apply hex_digits. Qed.

Lemma digest_holds st p : length (buf st) = 64%nat -> zlen p < 2 ^ 28 ->
  (let* st := md5_append (md5_init st) p in md5_finish st) = Ok (rfc_md5 p).
Proof.
  intros Hb Hp. destruct (append_holds (md5_init st) [] p) as (st1 & -> & H1); [by apply init_holds|done|].
  cbn [bind]. by apply finish_holds.
Qed.

(** C40: the digest is the MD5 of RFC 1321 of the message, whatever the pieces
    it is appended in, each below 2^28 bytes, and whatever the block held
    before; the digest of an object is that of its encoding, in hexadecimal. *)
Theorem md5_correct st : length (buf st) = 64%nat ->
  (forall pieces, Forall (fun p => zlen p < 2 ^ 28) pieces ->
   (let* st := append_all (md5_init st) pieces in md5_finish st) = Ok (rfc_md5 (concat pieces))) /\
  (forall o d, obj_rep o d -> BSONObj_md5 st o = Ok (toHexLower (rfc_md5 (enc_doc d)))).
Proof.
  intros Hb. split.
  - intros pieces Hp. destruct (append_all_holds pieces (md5_init st) []) as (st1 & -> & H1);
      [by apply init_holds|done|]. cbn [bind]. by apply finish_holds.
  - intros o d Ho. pose proof (obj_small _ _ Ho). unfold BSONObj_md5. rewrite (objsize_rep _ _ Ho). cbn [bind].
    rewrite (points_loads_all o _ _ (proj1 Ho) eq_refl). cbn [bind]. rewrite <- bind_assoc.
    rewrite digest_holds; [|done|rewrite obj_max_val in *; lia]. cbn [bind]. by rewrite digestToString_hex.
Qed.

Definition md5_start : md5_state := MkState 0 0 (Regs 0 0 0 0) (repeat x00 64).

Lemma md5_correct_witness :
  (let* st := append_all (md5_init md5_start) [bstr "message "; []; bstr "digest"] in md5_finish st) =
    Ok (rfc_md5 (bstr "message digest")) /\
  BSONObj_md5 md5_start (Ptr (enc_doc [(bstr "a", VInt 7)]) 0) = Ok (toHexLower (rfc_md5 (enc_doc [(bstr "a", VInt 7)]))).
Proof.
  destruct (md5_correct md5_start eq_refl) as [Hp Ho]. split.
  - apply (Hp [bstr "message "; []; bstr "digest"]). by repeat constructor.
  - apply Ho. split; [apply points_start|by vm_compute].
Defined.

(** The test suite of the RFC, which util/md5main.cpp runs. *)
Example md5_tests : map (fun s => md5simpledigest md5_start (bstr s))
    [EmptyString; "a"; "abc"; "message digest"; "abcdefghijklmnopqrstuvwxyz";
     "ABCDEFGHIJKLMNOPQRSTUVWXYZabcdefghijklmnopqrstuvwxyz0123456789";
     "12345678901234567890123456789012345678901234567890123456789012345678901234567890"]%string =
  map (fun s => Ok (bstr s))
    ["d41d8cd98f00b204e9800998ecf8427e"; "0cc175b9c0f1b6a831c399e269772661";
     "900150983cd24fb0d6963f7d28e17f72"; "f96b697d7cb7938d525a2f31aaf161d0";
     "c3fcd3d76192e4007dfb496cca67e13b"; "d174ab98d277d9f5a5611c2c9f419d9f";
     "57edf4a22be3c955ac49da2e2107b67a"]%string.
Proof. by vm_compute. Qed.
