(* ===== verification/Extract.v ===== *)
(** * Extract: reading the fields of an object with a status
    (bson/util/bson_extract.cpp)

    Each function takes the object, a name and what the output variable holds,
    and returns the status with what the variable holds afterwards.  The
    specification reads the same off the document. *)

From stdpp Require Import base list numbers strings option tactics.
From Stdlib Require Import Strings.Byte ZArith Lia.
From S2P Require Import Prelude Memory Double Status BsonTypes Format Element Obj Access.

Definition bsonExtractField (object : BSONObj) (fieldName : list byte) (outElement : BSONElement)
    : result (Status * BSONElement) :=
  let* element := getField object fieldName in
  let* missing := eoo element in
  if missing then Ok (error_status ErrorCodes.NoSuchKey fieldName, outElement)
  else Ok (Status_OK, element).

Definition type_mismatch (expected found : BSONType) : Status :=
  error_status ErrorCodes.TypeMismatch
    (bstr "Expected " ++ bstr (typeName expected) ++ bstr " found " ++ bstr (typeName found)).

Definition bsonExtractTypedField (object : BSONObj) (fieldName : list byte) (ty : BSONType) (outElement : BSONElement)
    : result (Status * BSONElement) :=
  let* r := bsonExtractField object fieldName outElement in
  if negb (isOK (fst r)) then Ok r
  else
    let* t := type (snd r) in
    if bool_decide (ty <> t) then Ok (type_mismatch ty t, snd r) else Ok (Status_OK, snd r).

Definition bsonExtractBooleanFieldWithDefault (object : BSONObj) (fieldName : list byte) (defaultValue : bool)
    (out : bool) : result (Status * bool) :=
  let* r := bsonExtractField object fieldName BSONElement_empty in
  let status := fst r in
  let value := snd r in
  if compareCode status ErrorCodes.NoSuchKey then Ok (Status_OK, defaultValue)
  else if negb (isOK status) then Ok (status, out)
  else
    let* number := isNumber value in
    let* boolean := isBoolean value in
    if negb number && negb boolean then
      Ok (error_status ErrorCodes.TypeMismatch (bstr "Expected boolean or number type"), out)
    else
      let* b := trueValue value in
      Ok (Status_OK, b).

Definition bsonExtractStringField (object : BSONObj) (fieldName : list byte) (out : list byte)
    : result (Status * list byte) :=
  let* r := bsonExtractTypedField object fieldName BSONString BSONElement_empty in
  if negb (isOK (fst r)) then Ok (fst r, out)
  else
    let* s := str (snd r) in
    Ok (Status_OK, s).

Definition bsonExtractStringFieldWithDefault (object : BSONObj) (fieldName defaultValue : list byte) (out : list byte)
    : result (Status * list byte) :=
  let* r := bsonExtractStringField object fieldName out in
  let status := fst r in
  if compareCode status ErrorCodes.NoSuchKey then Ok (Status_OK, defaultValue)
  else if negb (isOK status) then Ok r
  else Ok (Status_OK, snd r).

(** ** The specification, on documents *)

Definition no_such_key (name : list byte) : Status := error_status ErrorCodes.NoSuchKey name.

(** The truth of a number or a boolean. *)
Definition truth (v : value) : option bool :=
  match v with
  | VLong n | VInt n => Some (negb (n =? 0))
  | VDouble d => Some (negb (d_eqb d d_zero))
  | VBool b => Some b
  | _ => None
  end.

Definition spec_string (d : doc) (name : list byte) (out : list byte) : Status * list byte :=
  match find_field d name with
  | None => (no_such_key name, out)
  | Some (_, VString s) => (Status_OK, s)
  | Some (_, v) => (type_mismatch BSONString (vtype v), out)
  end.

Definition spec_string_default (d : doc) (name defaultValue : list byte) (out : list byte) : Status * list byte :=
  match find_field d name with
  | None => (Status_OK, defaultValue)
  | Some (_, VString s) => (Status_OK, s)
  | Some (_, v) => (type_mismatch BSONString (vtype v), out)
  end.

Definition spec_boolean_default (d : doc) (name : list byte) (defaultValue out : bool) : Status * bool :=
  match find_field d name with
  | None => (Status_OK, defaultValue)
  | Some (_, v) =>
      match truth v with
      | Some b => (Status_OK, b)
      | None => (error_status ErrorCodes.TypeMismatch (bstr "Expected boolean or number type"), out)
      end
  end.

(** ** The functions compute the specification *)

Section extract.
Context (o : BSONObj) (d : doc) (name : list byte).
Hypothesis Ho : obj_rep o d.

Lemma bsonExtractField_rep out : exists e, bsonExtractField o name out =
    Ok (match find_field d name with Some _ => (Status_OK, e) | None => (no_such_key name, out) end) /\
  match find_field d name with Some (n, v) => elem_ok e n v | None => True end.
Proof using Ho.
  destruct (getField_rep o d name Ho) as (e & E & Hf). unfold bsonExtractField. rewrite E. cbn [bind].
  rewrite (found_eoo _ _ _ Hf). cbn [bind]. exists e. destruct (find_field d name) as [[n v]|]; [|done].
  split; [done|apply Hf].
Qed.

Lemma bsonExtractTypedField_rep ty out : exists e, bsonExtractTypedField o name ty out =
    Ok (match find_field d name with
        | Some (_, v) => (if decide (ty = vtype v) then Status_OK else type_mismatch ty (vtype v), e)
        | None => (no_such_key name, out) end) /\
  match find_field d name with Some (n, v) => elem_ok e n v | None => True end.
Proof using Ho.
  destruct (bsonExtractField_rep out) as (e & E & Hf). exists e. unfold bsonExtractTypedField. rewrite E. cbn [bind].
  destruct (find_field d name) as [[n v]|]; [|done]. split; [|done]. cbn [fst snd].
  change (negb (isOK Status_OK)) with false. cbn iota. rewrite (type_rep _ _ _ Hf). cbn [bind].
  destruct (decide (ty = vtype v)) as [Et|Et].
  - by rewrite bool_decide_eq_false_2 by (intros H; by apply H).
  - by rewrite bool_decide_eq_true_2.
Qed.

Lemma bsonExtractStringField_rep out : bsonExtractStringField o name out = Ok (spec_string d name out).
Proof using Ho.
  destruct (bsonExtractTypedField_rep BSONString BSONElement_empty) as (e & E & Hf).
  unfold bsonExtractStringField, spec_string. rewrite E. cbn [bind].
  destruct (find_field d name) as [[n v]|]; [|done]. cbn [fst snd].
  destruct (decide (BSONString = vtype v)) as [Et|Et].
  - destruct v; try discriminate Et. change (negb (isOK Status_OK)) with false. cbn iota.
    unfold str. rewrite (type_rep _ _ _ Hf). cbn [bind vtype]. rewrite bool_decide_eq_true_2 by done.
    rewrite (valuestr_rep _ _ _ Hf). cbn [bind]. rewrite (valuestrsize_rep _ _ _ Hf s) by done. cbn [bind].
    by rewrite (str_contents_rep _ _ _ Hf s).
  - change (negb (isOK (type_mismatch BSONString (vtype v)))) with true. cbn iota. by destruct v.
Qed.

Lemma truth_rep e n v b : elem_ok e n v -> truth v = Some b -> trueValue e = Ok b.
Proof.
  intros He Hb. unfold trueValue. rewrite (type_rep _ _ _ He). cbn [bind].
  destruct v; try discriminate Hb; injection Hb as <-; cbn [vtype].
  - by rewrite (numberDouble_rep _ _ _ He).
  - by apply (boolean_rep _ n).
  - by rewrite (numberInt_rep _ _ _ He).
  - by rewrite (numberLong_rep _ _ _ He).
Qed.
End extract.

(** the functions that read a field with a status do what their comments
    say, on every well-formed object: a missing field is [NoSuchKey] or the
    default, a field of another type is [TypeMismatch], whose message names the
    two types, and leaves the output as it was, and any other field gives its
    value. *)
Theorem bsonExtract_correct o d name : obj_rep o d ->
  (forall ty out, exists e, bsonExtractTypedField o name ty out = Ok
     match find_field d name with
     | Some (_, v) => (if decide (ty = vtype v) then Status_OK else type_mismatch ty (vtype v), e)
     | None => (no_such_key name, out)
     end /\ match find_field d name with Some (n, v) => elem_ok e n v | None => True end) /\
  (forall out, bsonExtractStringField o name out = Ok (spec_string d name out)) /\
  (forall def out, bsonExtractStringFieldWithDefault o name def out = Ok (spec_string_default d name def out)) /\
  (forall def out, bsonExtractBooleanFieldWithDefault o name def out = Ok (spec_boolean_default d name def out)).
Proof.
  intros Ho. split; [|split; [|split]].
  - intros ty out. by apply bsonExtractTypedField_rep.
  - intros out. by apply bsonExtractStringField_rep.
  - intros def out. unfold bsonExtractStringFieldWithDefault. rewrite (bsonExtractStringField_rep o d name Ho). cbn [bind].
    unfold spec_string, spec_string_default. destruct (find_field d name) as [[n v]|]; [|done]. by destruct v.
  - intros def out. unfold bsonExtractBooleanFieldWithDefault, spec_boolean_default.
    destruct (bsonExtractField_rep o d name Ho BSONElement_empty) as (e & -> & He). cbn [bind fst snd].
    destruct (find_field d name) as [[n v]|]; [|done].
    change (compareCode (fst (Status_OK, e)) ErrorCodes.NoSuchKey) with false. cbn [fst snd].
    change (negb (isOK Status_OK)) with false. cbn iota.
    rewrite (isNumber_rep _ _ _ He). unfold isBoolean. rewrite (type_rep _ _ _ He). cbn [bind].
    destruct (truth v) as [b|] eqn:Hb.
    + rewrite (truth_rep _ _ _ _ He Hb). destruct v; try discriminate Hb; done.
    + destruct v; try discriminate Hb; done.
Qed.

Definition extract_sample : doc := [(bstr "n", VDouble d_zero); (bstr "s", VString (bstr "x"))].

Lemma bsonExtract_correct_witness :
  bsonExtractStringField (Ptr (enc_doc extract_sample) 0) (bstr "n") [] =
    Ok (error_status ErrorCodes.TypeMismatch (bstr "Expected String found NumberDouble"), []) /\
  bsonExtractBooleanFieldWithDefault (Ptr (enc_doc extract_sample) 0) (bstr "n") true true = Ok (Status_OK, false).
Proof.
  destruct (bsonExtract_correct (Ptr (enc_doc extract_sample) 0) extract_sample (bstr "n")) as (_ & H1 & _ & H2).
  - split; [apply points_start|by vm_compute].
  - split; [by rewrite H1|by rewrite H2].
Defined.
