(* ===== verification/Compare.v ===== *)
(** * Compare: [compareElementValues], [woCompare] and the functions built on
    them (bson/bson-inl.h, bson/ordering.h, db/jsobj.cpp)

    The byte-level comparison, and [compare_doc], the order on documents it
    implements.  [compareElementValues] and [BSONObj::woCompare] call each
    other; the model ties the knot with a depth bound, for which the size of
    the buffer is enough. *)

From stdpp Require Import base list numbers strings option tactics.
From Stdlib Require Import Strings.Byte ZArith Lia.
From S2P Require Import Prelude Memory Double BsonTypes Format Element Obj Access.

(** ** The comparison of elements *)

(** [if (a < b) return -1; return a == b ? 0 : 1;] *)
Definition three_way (a b : Z) : Z := if a <? b then -1 else if a =? b then 0 else 1.

(** The label [dodouble]: NaN is below every number and equal to itself. *)
Definition double_way (a b : Z) : Z :=
  if d_ltb a b then -1
  else if d_eqb a b then 0
  else if d_isnan a then (if d_isnan b then 0 else -1)
  else 1.

Definition compareDoubles (l r : BSONElement) : result Z :=
  let* a := number l in
  let* b := number r in
  Ok (double_way a b).

(** [res ? res : k], the next comparison when this one finds no difference. *)
Definition or_else (m k : result Z) : result Z :=
  let* x := m in if x =? 0 then k else Ok x.

Definition compareElementValues (woCompare : BSONObj -> BSONObj -> result Z)
    (l r : BSONElement) : result Z :=
  let* lt := type l in
  match lt with
  | EOO | Undefined | jstNULL | MaxKey | MinKey =>
      let* a := canonicalType l in
      let* b := canonicalType r in
      let f := a - b in
      Ok (if f <? 0 then -1 else if f =? 0 then 0 else 1)
  | BSONBool =>
      let* p := value_ptr l in
      let* q := value_ptr r in
      let* a := load p in
      let* b := load q in
      Ok (sc a - sc b)
  | Timestamp =>
      let* a := date l in
      let* b := date r in
      Ok (three_way a b)
  | Date =>
      let* a := Elem_Date l in
      let* b := Elem_Date r in
      Ok (three_way (s64 a) (s64 b))
  | NumberLong =>
      let* rt := type r in
      if bool_decide (rt = NumberLong) then
        let* a := _numberLong l in
        let* b := _numberLong r in
        Ok (three_way a b)
      else compareDoubles l r
  | NumberInt =>
      let* rt := type r in
      if bool_decide (rt = NumberInt) then
        let* a := _numberInt l in
        let* b := _numberInt r in
        Ok (three_way a b)
      else compareDoubles l r
  | NumberDouble => compareDoubles l r
  | jstOID =>
      let* p := value_ptr l in
      let* q := value_ptr r in
      memcmp p q 12
  | Code | Symbol | BSONString =>
      let* lsz := valuestrsize l in
      let* rsz := valuestrsize r in
      let* p := valuestr l in
      let* q := valuestr r in
      or_else (memcmp p q (Z.min lsz rsz)) (Ok (lsz - rsz))
  | Object | Array =>
      let* a := embeddedObject l in
      let* b := embeddedObject r in
      woCompare a b
  | DBRef =>
      let* lsz := valuesize l in
      let* rsz := valuesize r in
      let* p := value_ptr l in
      let* q := value_ptr r in
      or_else (Ok (lsz - rsz)) (memcmp p q lsz)
  | BinData =>
      let* lu := elem_objsize l in
      let* ru := elem_objsize r in
      let lsz := s32 lu in
      let rsz := s32 ru in
      let* p := value_ptr l in
      let* q := value_ptr r in
      or_else (Ok (lsz - rsz)) (memcmp (p +! 4) (q +! 4) (lsz + 1))
  | RegEx =>
      let* p := regex l in
      let* q := regex r in
      or_else (strcmp p q)
        (let* pf := regexFlags l in
         let* qf := regexFlags r in
         strcmp pf qf)
  | CodeWScope =>
      let* a := canonicalType l in
      let* b := canonicalType r in
      or_else (Ok (a - b))
        (or_else
           (let* p := codeWScopeCode l in
            let* q := codeWScopeCode r in
            strcmp p q)
           (let* p := codeWScopeScopeDataUnsafe l in
            let* q := codeWScopeScopeDataUnsafe r in
            strcmp p q))
  | InvalidType _ => Err VerifyFailed
  end.

(** [BSONElement::woCompare]. *)
Definition elem_woCompare (woCompare : BSONObj -> BSONObj -> result Z)
    (considerFieldName : bool) (l r : BSONElement) : result Z :=
  let* lt := canonicalType l in
  let* rt := canonicalType r in
  let x := lt - rt in
  let* ln := isNumber l in
  let* rn := isNumber r in
  if negb (x =? 0) && (negb ln || negb rn) then Ok x
  else
    or_else
      (if considerFieldName then
         let* p := fieldName l in
         let* q := fieldName r in
         strcmp p q
       else Ok 0)
      (compareElementValues woCompare l r).

(** ** The comparison of objects *)

(** The loop of [woCompare(r, idxKey, considerFieldName)]. *)
Fixpoint wo_loop (cmp : BSONElement -> BSONElement -> result Z) (ordered : bool)
    (fuel : nat) (i j k : BSONObjIterator) : result Z :=
  match fuel with
  | O => Err OutOfFuel
  | S fuel' =>
      let* '(l, i') := next i in
      let* '(r, j') := next j in
      let* '(o, k') := if ordered then next k else Ok (BSONElement_empty, k) in
      let* le := eoo l in
      let* re := eoo r in
      if le then Ok (if re then 0 else -1)
      else if re then Ok 1
      else
        let* x := cmp l r in
        let* neg := if ordered then let* d := number o in Ok (d_ltb d d_zero) else Ok false in
        let x := if neg then - x else x in
        if x =? 0 then wo_loop cmp ordered fuel' i' j' k' else Ok x
  end.

Fixpoint woCompare_go (depth : nat) (o r idxKey : BSONObj) (considerFieldName : bool)
    : result Z :=
  match depth with
  | O => Err OutOfFuel
  | S depth' =>
      let* oe := isEmpty o in
      let* re := isEmpty r in
      if oe then Ok (if re then 0 else -1)
      else if re then Ok 1
      else
        let* ke := isEmpty idxKey in
        let* i := BSONObjIterator_of o in
        let* j := BSONObjIterator_of r in
        let* k := BSONObjIterator_of idxKey in
        wo_loop
          (elem_woCompare (fun a b => woCompare_go depth' a b BSONObj_empty true)
             considerFieldName)
          (negb ke) (fuel_of o) i j k
  end.

Definition woCompare_ordered (o r idxKey : BSONObj) (considerFieldName : bool) : result Z :=
  woCompare_go (fuel_of o) o r idxKey considerFieldName.

(** [woCompare(r)], with its default arguments. *)
Definition woCompare (o r : BSONObj) : result Z :=
  woCompare_ordered o r BSONObj_empty true.

(** [BSONElement::woCompare] between elements of any objects. *)
Definition element_woCompare (considerFieldName : bool) (l r : BSONElement) : result Z :=
  elem_woCompare
    (fun a b => woCompare_go (fuel_of a) a b BSONObj_empty true) considerFieldName l r.

Definition valuesEqual (l r : BSONElement) : result bool :=
  let* x := element_woCompare false l r in Ok (x =? 0).
Definition elem_eq (l r : BSONElement) : result bool :=
  let* x := element_woCompare true l r in Ok (x =? 0).

(** [BSONElement::operator<]. *)
Definition elem_lt (l r : BSONElement) : result bool :=
  let* a := canonicalType l in
  let* b := canonicalType r in
  let x := a - b in
  if x <? 0 then Ok true
  else if 0 <? x then Ok false
  else
    let* c := compareElementValues
      (fun a b => woCompare_go (fuel_of a) a b BSONObj_empty true) l r in
    Ok (c <? 0).

(** ** The order on documents *)

Definition zcmp (a b : Z) : Z := Z.sgn (a - b).

(** The number a value is compared as. *)
Definition value_double (v : value) : Z :=
  match v with
  | VDouble b => b
  | VInt n | VLong n => d_of_Z n
  | _ => d_zero
  end.

(** What the comparison of two code scopes looks at: their bytes up to the
    first NUL, which is in the object's size. *)
Definition scope_prefix (d : doc) : list byte := default [] (until_nul (enc_doc d)).

Section compare_fields.
Variable considerFieldName : bool.
Variable compare_value : value -> value -> result Z.

Definition compare_field (f g : field) : result Z :=
  or_else (Ok (zcmp (canon (vtype (snd f))) (canon (vtype (snd g)))))
    (or_else (Ok (if considerFieldName then lex_cmp (fst f) (fst g) else 0))
       (compare_value (snd f) (snd g))).

Fixpoint compare_fields (d d' : doc) : result Z :=
  match d, d' with
  | [], [] => Ok 0
  | [], _ :: _ => Ok (-1)
  | _ :: _, [] => Ok 1
  | f :: r, g :: r' => or_else (compare_field f g) (compare_fields r r')
  end.
End compare_fields.

(** The sign of the comparison of two values of one canonical type; a date on
    the left of a timestamp is an error. *)
Fixpoint compare_value (v w : value) : result Z :=
  match v, w with
  | VBool a, VBool b => Ok (zcmp (Z.b2z a) (Z.b2z b))
  | VTimestamp a, (VTimestamp b | VDate b) => Ok (zcmp a b)
  | VDate a, VDate b => Ok (zcmp (s64 a) (s64 b))
  | VDate _, VTimestamp _ => Err (MsgAssert 13111)
  | VLong a, VLong b => Ok (zcmp a b)
  | VInt a, VInt b => Ok (zcmp a b)
  | VDouble _, (VDouble _ | VInt _ | VLong _)
  | VInt _, (VDouble _ | VLong _)
  | VLong _, (VDouble _ | VInt _) =>
      Ok (double_way (value_double v) (value_double w))
  | VOID a, VOID b => Ok (lex_cmp a b)
  | (VString a | VSymbol a | VCode a), (VString b | VSymbol b | VCode b) => Ok (lex_cmp a b)
  | VObject d, VObject d' | VArray d, VArray d' => compare_fields true compare_value d d'
  | VDBRef n o, VDBRef n' o' =>
      or_else (Ok (zcmp (zlen n) (zlen n')))
        (or_else (Ok (lex_cmp n n')) (Ok (lex_cmp o o')))
  | VBinData u x, VBinData u' x' =>
      or_else (Ok (zcmp (zlen x) (zlen x'))) (Ok (lex_cmp (u :: x) (u' :: x')))
  | VRegEx p o, VRegEx p' o' => or_else (Ok (lex_cmp p p')) (Ok (lex_cmp o o'))
  | VCodeWScope c d, VCodeWScope c' d' =>
      or_else (Ok (lex_cmp c c')) (Ok (lex_cmp (scope_prefix d) (scope_prefix d')))
  | _, _ => Ok 0
  end.

Definition compare_doc (d d' : doc) : result Z := compare_fields true compare_value d d'.

(** ** The comparison of values implements [compare_value] *)

Abbreviation sgn_of := (result_map Z.sgn).

Lemma sgn_three_way a b : Z.sgn (three_way a b) = zcmp a b.
Proof.
  unfold three_way, zcmp.
  destruct (Z.ltb_spec a b); [|destruct (Z.eqb_spec a b)]; lia.
Qed.

Lemma sgn_double_way a b : Z.sgn (double_way a b) = double_way a b.
Proof. unfold double_way. by repeat case_match. Qed.

Lemma sgn_lex_cmp a b : Z.sgn (lex_cmp a b) = lex_cmp a b.
Proof. pose proof (lex_cmp_range a b). lia. Qed.

Lemma sgn_zcmp a b : Z.sgn (zcmp a b) = zcmp a b.
Proof. unfold zcmp. lia. Qed.

Lemma sgn_or_else m k : sgn_of (or_else m k) = or_else (sgn_of m) (sgn_of k).
Proof.
  unfold or_else, result_map. destruct m as [x|]; [|done]. cbn [bind].
  destruct (Z.eqb_spec x 0) as [->|]; [done|]. cbn [bind].
  by destruct (Z.eqb_spec (Z.sgn x) 0); [lia|].
Qed.

Lemma points_loads_take p bs m : p ↦ bs -> 0 <= m <= zlen bs ->
  loads p m = Ok (take (Z.to_nat m) bs).
Proof.
  intros Hp Hm. eapply (points_loads _ _ (drop (Z.to_nat m) bs)); [by rewrite take_drop|].
  unfold zlen in *. rewrite length_take. lia.
Qed.

(** Comparing sized strings with their terminators, then their sizes, is the
    lexicographic order of the strings. *)
Lemma sized_lex a b : forall m, m = S (Nat.min (length a) (length b)) ->
  or_else (Ok (lex_cmp (take m (a ++ [x00])) (take m (b ++ [x00]))))
    (Ok (zcmp (zlen a) (zlen b))) = Ok (lex_cmp a b).
Proof.
  unfold zcmp. revert b. induction a as [|x a IH]; intros [|y b] m ->; try done.
  - cbn. rewrite zlen_cons. change (zlen (@nil byte)) with 0. pose proof (zlen_nonneg b).
    change (bz x00) with 0. pose proof (bz_range y).
    destruct (Z.ltb_spec 0 (bz y)); [done|]. destruct (Z.ltb_spec (bz y) 0); [lia|].
    cbn. f_equal. lia.
  - cbn. rewrite zlen_cons. change (zlen (@nil byte)) with 0. pose proof (zlen_nonneg a).
    change (bz x00) with 0. pose proof (bz_range x).
    destruct (Z.ltb_spec (bz x) 0); [lia|]. destruct (Z.ltb_spec 0 (bz x)); [done|].
    cbn. f_equal. lia.
  - cbn [app take lex_cmp length Nat.min]. rewrite !zlen_cons.
    destruct (bz x <? bz y); [done|]. destruct (bz y <? bz x); [done|].
    replace (1 + zlen a - (1 + zlen b)) with (zlen a - zlen b) by lia. by apply IH.
Qed.

Lemma lex_cmp_app a b x y : length a = length b ->
  Ok (lex_cmp (a ++ x) (b ++ y)) = or_else (Ok (lex_cmp a b)) (Ok (lex_cmp x y)).
Proof.
  revert b. induction a as [|c a IH]; intros [|e b] Hl; try done.
  simpl in Hl. cbn [app lex_cmp].
  destruct (bz c <? bz e); [done|]. destruct (bz e <? bz c); [done|]. apply IH. lia.
Qed.

Section value_comparison.
Context (cmp : BSONObj -> BSONObj -> result Z).
Context (l r : BSONElement) (n n' : list byte) (v w : value).
Hypothesis Hl : elem_ok l n v.
Hypothesis Hr : elem_ok r n' w.

Lemma string_cmp_rep a b : str_payload v = Some a -> str_payload w = Some b ->
  sgn_of (let* lsz := valuestrsize l in
          let* rsz := valuestrsize r in
          let* p := valuestr l in
          let* q := valuestr r in
          or_else (memcmp p q (Z.min lsz rsz)) (Ok (lsz - rsz))) = Ok (lex_cmp a b).
Proof using Hl Hr.
  intros Ha Hb. rewrite (valuestrsize_rep _ _ _ Hl a Ha), (valuestrsize_rep _ _ _ Hr b Hb).
  rewrite (valuestr_rep _ _ _ Hl), (valuestr_rep _ _ _ Hr). cbn [bind].
  destruct (valuestr_points _ _ _ Hl a Ha) as [ra Hpa].
  destruct (valuestr_points _ _ _ Hr b Hb) as [rb Hpb].
  pose proof (zlen_nonneg a). pose proof (zlen_nonneg b).
  assert (forall p (s t : list byte) x m, p ↦ s ++ x00 :: x -> 0 <= m <= zlen s + 1 ->
    loads p m = Ok (take (Z.to_nat m) (s ++ [x00]))) as Hload.
  { intros p s t x m Hp Hm. apply points_loads_take.
    - apply (points_app_l _ _ x). by rewrite <- app_assoc.
    - rewrite zlen_app. change (zlen [x00]) with 1. lia. }
  unfold memcmp. rewrite (Hload _ a a _ _ Hpa), (Hload _ b b _ _ Hpb) by lia. cbn [bind].
  rewrite sgn_or_else. unfold result_map. cbn [bind]. rewrite sgn_lex_cmp.
  rewrite <- (sized_lex a b _ eq_refl). unfold zcmp.
  replace (Z.to_nat (Z.min (zlen a + 1) (zlen b + 1))) with
    (S (Nat.min (length a) (length b))) by (unfold zlen; lia).
  by replace (zlen a + 1 - (zlen b + 1)) with (zlen a - zlen b) by lia.
Qed.

Lemma double_cmp_rep : isNumber_type (vtype v) = true -> isNumber_type (vtype w) = true ->
  compareDoubles l r = Ok (double_way (value_double v) (value_double w)).
Proof using Hl Hr.
  assert (forall e k x, elem_ok e k x -> isNumber_type (vtype x) = true ->
    number e = Ok (value_double x)) as Hn.
  { clear. intros e k x He Hx. unfold number, numberDouble. rewrite (type_rep _ _ _ He).
    destruct x; try done; cbn [bind vtype].
    - apply (numberDouble_rep _ _ _ He).
    - by rewrite (numberInt_rep _ _ _ He).
    - by rewrite (numberLong_rep _ _ _ He). }
  intros Hv Hw. unfold compareDoubles. by rewrite (Hn _ _ _ Hl Hv), (Hn _ _ _ Hr Hw).
Qed.

Lemma dbref_cmp_rep ns o ns' o' : v = VDBRef ns o -> w = VDBRef ns' o' ->
  sgn_of (let* lsz := valuesize l in
          let* rsz := valuesize r in
          let* p := value_ptr l in
          let* q := value_ptr r in
          or_else (Ok (lsz - rsz)) (memcmp p q lsz)) = compare_value v w.
Proof using Hl Hr.
  intros Ev Ew. rewrite (valuesize_rep _ _ _ Hl), (valuesize_rep _ _ _ Hr).
  rewrite (value_ptr_rep _ _ _ Hl), (value_ptr_rep _ _ _ Hr). cbn [bind].
  pose proof (value_points _ _ _ Hl) as Hp. pose proof (value_points _ _ _ Hr) as Hq.
  pose proof (elem_wf_value _ _ _ Hl) as Hwv. pose proof (elem_wf_value _ _ _ Hr) as Hww.
  rewrite Ev, Ew in *. cbn [enc_value wf_value compare_value] in *. wf_split.
  rewrite !zlen_app, !zlen_enc_string. unfold memcmp, or_else, result_map, zcmp. cbn [bind].
  replace (zlen ns + 5 + zlen o - (zlen ns' + 5 + zlen o')) with (zlen ns - zlen ns') by lia.
  destruct (Z.eqb_spec (zlen ns - zlen ns') 0) as [E|E].
  - rewrite E. cbn.
    erewrite (points_loads_all _ _ _ Hp) by (rewrite zlen_app, zlen_enc_string; lia).
    erewrite (points_loads_all _ _ _ Hq) by (rewrite zlen_app, zlen_enc_string; lia).
    cbn [bind]. rewrite sgn_lex_cmp. unfold enc_string.
    replace (zlen ns') with (zlen ns) by lia. rewrite <- !app_assoc.
    rewrite lex_cmp_app by (by rewrite !length_le_bytes). rewrite lex_cmp_refl. cbn [or_else bind].
    cbn. rewrite lex_cmp_app by (unfold zlen in *; lia). done.
  - cbn [bind]. destruct (Z.eqb_spec (Z.sgn (zlen ns - zlen ns')) 0); [lia|done].
Qed.

Lemma bindata_cmp_rep u x u' x' : v = VBinData u x -> w = VBinData u' x' ->
  sgn_of (let* lu := elem_objsize l in
          let* ru := elem_objsize r in
          let lsz := s32 lu in
          let rsz := s32 ru in
          let* p := value_ptr l in
          let* q := value_ptr r in
          or_else (Ok (lsz - rsz)) (memcmp (p +! 4) (q +! 4) (lsz + 1))) = compare_value v w.
Proof using Hl Hr.
  intros Ev Ew. rewrite (value_ptr_rep _ _ _ Hl), (value_ptr_rep _ _ _ Hr).
  pose proof (value_points _ _ _ Hl) as Hp. pose proof (value_points _ _ _ Hr) as Hq.
  pose proof (elem_wf_value _ _ _ Hl) as Hwv. pose proof (elem_wf_value _ _ _ Hr) as Hww.
  rewrite Ev in Hwv, Hp. rewrite Ew in Hww, Hq. cbn [enc_value wf_value] in *. wf_split.
  pose proof (zlen_nonneg x). pose proof (zlen_nonneg x').
  rewrite (elem_objsize_rep _ _ _ Hl (zlen x) (u :: x)) by (rewrite ?Ev; done || lia).
  rewrite (elem_objsize_rep _ _ _ Hr (zlen x') (u' :: x')) by (rewrite ?Ew; done || lia).
  cbn [bind]. rewrite !s32_small by lia.
  assert (data l +! (zlen n + 2) +! 4 ↦ u :: x) as Hp'
    by (eapply points_app_r; [exact Hp|done]).
  assert (data r +! (zlen n' + 2) +! 4 ↦ u' :: x') as Hq'
    by (eapply points_app_r; [exact Hq|done]).
  rewrite Ev, Ew. cbn [compare_value]. rewrite sgn_or_else.
  unfold or_else, result_map, zcmp. cbn [bind].
  destruct (Z.eqb_spec (Z.sgn (zlen x - zlen x')) 0) as [E|E]; [|done]. unfold memcmp.
  rewrite (points_loads_all _ _ _ Hp') by (rewrite zlen_cons; lia).
  rewrite (points_loads_all _ _ _ Hq') by (rewrite zlen_cons; lia).
  cbn [bind]. by rewrite sgn_lex_cmp.
Qed.
Lemma object_cmp_rep d d' : sub_doc v = Some d -> sub_doc w = Some d' ->
  (forall a b, obj_rep a d -> obj_rep b d' -> mem a = mem (data l) -> sgn_of (cmp a b) = compare_doc d d') ->
  sgn_of (let* a := embeddedObject l in let* b := embeddedObject r in cmp a b) = compare_doc d d'.
Proof using Hl Hr.
  intros Hv Hw Hcmp. destruct (embedded_rep _ _ _ _ Hl Hv) as (a & -> & Hra & Hm & _).
  destruct (embedded_rep _ _ _ _ Hr Hw) as (b & -> & Hrb & _). cbn [bind]. by apply Hcmp.
Qed.

Lemma oid_cmp_rep a b : v = VOID a -> w = VOID b ->
  sgn_of (let* p := value_ptr l in let* q := value_ptr r in memcmp p q 12) = Ok (lex_cmp a b).
Proof using Hl Hr.
  intros Hv Hw. rewrite (value_ptr_rep _ _ _ Hl), (value_ptr_rep _ _ _ Hr). cbn [bind]. unfold memcmp.
  pose proof (value_points _ _ _ Hl) as Hp. pose proof (value_points _ _ _ Hr) as Hq.
  pose proof (elem_wf_value _ _ _ Hl) as Hwv. pose proof (elem_wf_value _ _ _ Hr) as Hww.
  rewrite Hv, Hw in *. cbn [enc_value wf_value] in *. wf_split.
  rewrite (points_loads_all _ _ _ Hp), (points_loads_all _ _ _ Hq) by done.
  unfold result_map. cbn [bind]. by rewrite sgn_lex_cmp.
Qed.

Lemma date_cmp_rep a b : (v = VDate a \/ v = VTimestamp a) -> (w = VDate b \/ w = VTimestamp b) ->
  sgn_of (let* x := date l in let* y := date r in Ok (three_way x y)) = Ok (zcmp a b).
Proof using Hl Hr.
  intros Hv Hw. rewrite (date_rep _ _ _ a ltac:(naive_solver) Hl), (date_rep _ _ _ b ltac:(naive_solver) Hr).
  unfold result_map. cbn [bind]. by rewrite sgn_three_way.
Qed.
End value_comparison.

Lemma regex_rep e n p o : elem_ok e n (VRegEx p o) ->
  exists a b, regex e = Ok a /\ cstr a = Ok p /\ regexFlags e = Ok b /\ cstr b = Ok o.
Proof.
  intros Hok. pose proof (value_points _ _ _ Hok) as Hp.
  pose proof (elem_wf_value _ _ _ Hok) as Hw. cbn [enc_value wf_value] in *. wf_split.
  assert (regex e = Ok (data e +! (zlen n + 2))) as Hr.
  { unfold regex. rewrite (type_rep _ _ _ Hok). cbn [bind vtype].
    apply (value_ptr_rep _ _ _ Hok). }
  eexists _, _. split; [exact Hr|]. split; [eapply points_cstr; [exact Hp|done]|].
  unfold regexFlags. rewrite Hr. cbn [bind]. rewrite (points_strlen _ p _ Hp) by done.
  split; [done|]. apply (points_cstr _ o []); [|done].
  apply (points_app_r _ (p ++ [x00])); [by rewrite <- app_assoc|].
  rewrite zlen_app. done.
Qed.

Lemma until_nul_app_some a b s : until_nul a = Some s -> until_nul (a ++ b) = Some s.
Proof.
  revert s. induction a as [|x a IH]; intros s; simpl; [done|].
  destruct (Byte.eqb x x00); [done|]. destruct (until_nul a) as [t|]; [|done].
  intros [= <-]. by rewrite (IH t).
Qed.

Lemma until_nul_last a : exists s, until_nul (a ++ [x00]) = Some s.
Proof.
  induction a as [|x a [s IH]]; [by eexists|]. simpl.
  destruct (Byte.eqb x x00); [by eexists|]. rewrite IH. by eexists.
Qed.

Lemma scope_prefix_until d : until_nul (enc_doc d) = Some (scope_prefix d).
Proof.
  unfold scope_prefix, enc_doc, enc_frame. rewrite app_assoc.
  by destruct (until_nul_last (le32 (zlen (enc_elems d) + 5) ++ enc_elems d)) as [s ->].
Qed.

Lemma codeWScope_rep e n c d : elem_ok e n (VCodeWScope c d) ->
  exists a b, codeWScopeCode e = Ok a /\ cstr a = Ok c /\
    codeWScopeScopeDataUnsafe e = Ok b /\ b ↦ enc_doc d /\ cstr b = Ok (scope_prefix d).
Proof.
  intros Hok. pose proof (value_points _ _ _ Hok) as Hp.
  pose proof (elem_wf_value _ _ _ Hok) as (Hc & Hd & Hs)%wf_value_code.
  rewrite enc_value_code in Hp.
  assert (codeWScopeCode e = Ok (data e +! (zlen n + 2) +! 8)) as Hr.
  { unfold codeWScopeCode. rewrite (type_rep _ _ _ Hok). cbn [bind vtype].
    by rewrite (value_ptr_rep _ _ _ Hok). }
  assert (data e +! (zlen n + 2) +! 8 ↦ c ++ x00 :: enc_doc d) as Hq.
  { apply (points_app_r _ (le32 (zlen (enc_string c ++ enc_doc d) + 4) ++ le32 (zlen c + 1)));
      [|by rewrite zlen_app, !zlen_le_bytes].
    unfold enc_string in Hp |- *. rewrite <- !app_assoc in *. exact Hp. }
  eexists _, _. split; [exact Hr|]. split; [eapply points_cstr; [exact Hq|done]|].
  unfold codeWScopeScopeDataUnsafe. rewrite Hr. cbn [bind].
  rewrite (points_strlen _ c _ Hq) by done. split; [done|].
  assert (data e +! (zlen n + 2) +! 8 +! (zlen c + 1) ↦ enc_doc d) as Hscope.
  { apply (points_app_r _ (c ++ [x00])); [by rewrite <- app_assoc|]. by rewrite zlen_app. }
  split; [exact Hscope|]. apply points_rest in Hscope as [post Hpost]. unfold cstr.
  rewrite Hpost. cbn [bind].
  by rewrite (until_nul_app_some _ _ _ (scope_prefix_until d)).
Qed.

Lemma zcmp_refl a : zcmp a a = 0.
Proof. unfold zcmp. lia. Qed.

Lemma compareElementValues_rep cmp l r n n' v w :
  elem_ok l n v -> elem_ok r n' w -> canon (vtype v) = canon (vtype w) ->
  (forall d d' a b, sub_doc v = Some d -> sub_doc w = Some d' ->
     obj_rep a d -> obj_rep b d' -> mem a = mem (data l) ->
     sgn_of (cmp a b) = compare_doc d d') ->
  sgn_of (compareElementValues cmp l r) = compare_value v w.
Proof.
  intros Hl Hr Hc Hsub. unfold compareElementValues. rewrite (type_rep _ _ _ Hl).
  pose proof (canonicalType_rep _ _ _ Hl) as Hcl. pose proof (canonicalType_rep _ _ _ Hr) as Hcr.
  destruct v, w; try discriminate Hc; cbn [vtype bind];
    try (rewrite Hcl, Hcr; done);
    try (by apply (string_cmp_rep _ _ _ _ _ _ Hl Hr));
    try (by eapply (dbref_cmp_rep _ _ _ _ _ _ Hl Hr));
    try (by eapply (bindata_cmp_rep _ _ _ _ _ _ Hl Hr));
    try (rewrite (type_rep _ _ _ Hr); cbn [bind vtype]);
    try (rewrite ?bool_decide_false by done;
         rewrite (double_cmp_rep _ _ _ _ _ _ Hl Hr) by done;
         unfold result_map; cbn [bind]; by rewrite sgn_double_way).
  - apply (object_cmp_rep _ _ _ _ _ _ _ Hl Hr d d0 eq_refl eq_refl). intros; by eapply Hsub.
  - apply (object_cmp_rep _ _ _ _ _ _ _ Hl Hr d d0 eq_refl eq_refl). intros; by eapply Hsub.
  - by apply (oid_cmp_rep _ _ _ _ _ _ Hl Hr).
  - rewrite (value_ptr_rep _ _ _ Hl), (value_ptr_rep _ _ _ Hr). cbn [bind].
    pose proof (value_points _ _ _ Hl) as Hp. pose proof (value_points _ _ _ Hr) as Hq.
    erewrite (points_load _ _ _ Hp), (points_load _ _ _ Hq). by destruct b, b0.
  - unfold Elem_Date, chk. rewrite (type_rep _ _ _ Hl), (type_rep _ _ _ Hr). cbn [bind vtype].
    rewrite !bool_decide_true by done.
    rewrite (date_rep _ _ _ _ (or_introl eq_refl) Hl), (date_rep _ _ _ _ (or_introl eq_refl) Hr).
    unfold result_map. cbn [bind]. by rewrite sgn_three_way.
  - unfold Elem_Date, chk. rewrite (type_rep _ _ _ Hl), (type_rep _ _ _ Hr). cbn [bind vtype].
    cbn. by rewrite (date_rep _ _ _ _ (or_introl eq_refl) Hl).
  - apply (date_cmp_rep _ _ _ _ _ _ Hl Hr); auto.
  - apply (date_cmp_rep _ _ _ _ _ _ Hl Hr); auto.
  - destruct (regex_rep _ _ _ _ Hl) as (a & b & Ha & Hca & Hb & Hcb).
    destruct (regex_rep _ _ _ _ Hr) as (a' & b' & Ha' & Hca' & Hb' & Hcb').
    rewrite Ha, Ha', Hb, Hb'. cbn [bind]. unfold strcmp. rewrite Hca, Hca', Hcb, Hcb'.
    rewrite sgn_or_else. unfold result_map. cbn [bind]. by rewrite !sgn_lex_cmp.
  - destruct (codeWScope_rep _ _ _ _ Hl) as (a & b & Ha & Hca & Hb & _ & Hcb).
    destruct (codeWScope_rep _ _ _ _ Hr) as (a' & b' & Ha' & Hca' & Hb' & _ & Hcb').
    rewrite Hcl, Hcr, Ha, Ha', Hb, Hb'. cbn [bind]. unfold strcmp. rewrite Hca, Hca', Hcb, Hcb'.
    rewrite !sgn_or_else. unfold result_map. cbn [bind]. by rewrite !sgn_lex_cmp.
  - rewrite bool_decide_true by done.
    rewrite (numberInt_rep _ _ _ Hl), (numberInt_rep _ _ _ Hr).
    unfold result_map. cbn [bind]. by rewrite sgn_three_way.
  - rewrite bool_decide_true by done.
    rewrite (numberLong_rep _ _ _ Hl), (numberLong_rep _ _ _ Hr).
    unfold result_map. cbn [bind]. by rewrite sgn_three_way.
Qed.

(** ** The comparison of objects implements [compare_doc] *)

Definition sub_spec (cmp : BSONObj -> BSONObj -> result Z) (m : list byte) (v w : value) :=
  forall d d' a b, sub_doc v = Some d -> sub_doc w = Some d' ->
    obj_rep a d -> obj_rep b d' -> mem a = m -> sgn_of (cmp a b) = compare_doc d d'.

Lemma number_same_canon v w :
  isNumber_type (vtype v) = true -> isNumber_type (vtype w) = true ->
  canon (vtype v) = canon (vtype w).
Proof. by destruct v, w. Qed.

Lemma elem_woCompare_rep cmp cfn l r n n' v w :
  elem_ok l n v -> elem_ok r n' w -> sub_spec cmp (mem (data l)) v w ->
  sgn_of (elem_woCompare cmp cfn l r) = compare_field cfn compare_value (n, v) (n', w).
Proof.
  intros Hl Hr Hsub. unfold elem_woCompare, compare_field. cbn [fst snd].
  rewrite (canonicalType_rep _ _ _ Hl), (canonicalType_rep _ _ _ Hr).
  rewrite (isNumber_rep _ _ _ Hl), (isNumber_rep _ _ _ Hr). cbn [bind].
  destruct (Z.eqb_spec (canon (vtype v) - canon (vtype w)) 0) as [E|E]; cbn [negb andb].
  - assert (canon (vtype v) = canon (vtype w)) as Ec by lia.
    unfold zcmp. rewrite E. rewrite sgn_or_else.
    rewrite (compareElementValues_rep _ _ _ _ _ _ _ Hl Hr Ec Hsub).
    unfold or_else at 2. cbn [bind]. f_equal. destruct cfn; [|done].
    rewrite (fieldName_rep _ _ _ Hl), (fieldName_rep _ _ _ Hr). cbn [bind]. unfold strcmp.
    rewrite (fieldName_cstr _ _ _ Hl), (fieldName_cstr _ _ _ Hr).
    unfold result_map. cbn [bind]. by rewrite sgn_lex_cmp.
  - replace (negb _ || negb _) with true.
    + unfold or_else, result_map. cbn [bind]. unfold zcmp.
      by destruct (Z.eqb_spec (Z.sgn (canon (vtype v) - canon (vtype w))) 0); [lia|].
    + destruct (isNumber_type (vtype v)) eqn:Nv; [|done].
      destruct (isNumber_type (vtype w)) eqn:Nw; [|done].
      pose proof (number_same_canon v w Nv Nw). lia.
Qed.

(** What the loop needs of its element comparison. *)
Definition elem_spec (cmp : BSONElement -> BSONElement -> result Z) cfn m (d : doc) : Prop :=
  forall l r n n' v w, elem_ok l n v -> elem_ok r n' w -> In (n, v) d -> mem (data l) = m ->
    sgn_of (cmp l r) = compare_field cfn compare_value (n, v) (n', w).

Lemma wo_loop_rep cmp cfn d : forall d' fuel i j k,
  it_rep i d -> it_rep j d' -> (length d < fuel)%nat -> elem_spec cmp cfn (mem (_pos i)) d ->
  sgn_of (wo_loop cmp false fuel i j k) = compare_fields cfn compare_value d d'.
Proof.
  induction d as [|[n v] d IH]; intros d' [|fuel] i j k Hi Hj Hf Hcmp; try (simpl in Hf; lia).
  - apply next_rep_end in Hi as (_ & _ & Hi & He). cbn [wo_loop]. rewrite Hi. cbn [bind].
    destruct d' as [|[n' w] d'].
    + apply next_rep_end in Hj as (_ & _ & Hj & He'). rewrite Hj. cbn [bind].
      by rewrite (eoo_rep_true _ He), (eoo_rep_true _ He').
    + apply next_rep in Hj as (_ & Hj & Hok & _). rewrite Hj. cbn [bind].
      by rewrite (eoo_rep_true _ He), (eoo_rep_false _ _ _ Hok).
  - apply next_rep in Hi as (_ & Hi & Hok & Hi'). cbn [wo_loop]. rewrite Hi. cbn [bind].
    destruct d' as [|[n' w] d'].
    + apply next_rep_end in Hj as (_ & _ & Hj & He'). rewrite Hj. cbn [bind].
      by rewrite (eoo_rep_false _ _ _ Hok), (eoo_rep_true _ He').
    + apply next_rep in Hj as (_ & Hj & Hok' & Hj'). rewrite Hj. cbn [bind fst snd] in *.
      rewrite (eoo_rep_false _ _ _ Hok), (eoo_rep_false _ _ _ Hok'). cbn [bind compare_fields].
      rewrite <- (Hcmp _ _ _ _ _ _ Hok Hok' ltac:(by left) eq_refl).
      destruct (cmp _ _) as [x|]; [|done]. cbn [bind].
      destruct (Z.eqb_spec x 0) as [->|Ex].
      * unfold or_else. cbn. apply IH; [done|done|simpl in Hf; lia|].
        intros ? ? ? ? ? ? ? ? ? ?. apply Hcmp; [done|done|by right|done].
      * unfold or_else, result_map. cbn [bind].
        by destruct (Z.eqb_spec (Z.sgn x) 0); [lia|].
Qed.

(** Nesting depth, and that the encoding is at least as long. *)
Fixpoint value_depth (v : value) : nat :=
  match v with
  | VObject d | VArray d => S (list_max (map (fun f : field => value_depth (snd f)) d))
  | _ => O
  end.
Definition doc_depth (d : doc) : nat := list_max (map (fun f : field => value_depth (snd f)) d).

Lemma list_max_in_le (l : list nat) x : In x l -> (x <= list_max l)%nat.
Proof.
  intros H. pose proof (proj1 (List.list_max_le l (list_max l)) (le_n _)) as Hl.
  rewrite List.Forall_forall in Hl. auto.
Qed.

Lemma doc_depth_size_with (d : doc) :
  Forall (fun f : field => (value_depth (snd f) <= length (enc_value (snd f)))%nat) d ->
  (doc_depth d <= length (enc_elems d))%nat.
Proof.
  unfold doc_depth. induction 1 as [|[n v] d Hv _ IH]; [done|].
  rewrite enc_elems_cons, length_app. unfold enc_elem. cbn [fst snd length map list_max] in *.
  rewrite length_app. cbn [length]. change (list_max (?a :: ?b)) with (Nat.max a (list_max b)). lia.
Qed.

Lemma value_depth_size v : (value_depth v <= length (enc_value v))%nat.
Proof.
  assert (forall d, length (enc_doc d) = (length (enc_elems d) + 5)%nat) as Hd.
  { intros d. pose proof (zlen_enc_doc d). unfold zlen in *. lia. }
  revert v. apply value_nested_ind; [by destruct v; simpl; try lia|..].
  - intros d IH. rewrite enc_value_object, Hd.
    apply doc_depth_size_with in IH. unfold doc_depth in IH. simpl. lia.
  - intros d IH. rewrite enc_value_array, Hd.
    apply doc_depth_size_with in IH. unfold doc_depth in IH. simpl. lia.
  - intros c d IH. simpl. lia.
Qed.

Lemma doc_depth_size d : (doc_depth d <= length (enc_elems d))%nat.
Proof.
  apply doc_depth_size_with. apply List.Forall_forall. intros. apply value_depth_size.
Qed.

Lemma woCompare_go_rep depth : forall o r d d' cfn,
  obj_rep o d -> obj_rep r d' -> (doc_depth d < depth)%nat ->
  sgn_of (woCompare_go depth o r BSONObj_empty cfn) = compare_fields cfn compare_value d d'.
Proof.
  induction depth as [|depth IH]; intros o r d d' cfn Ho Hr Hd; [lia|]. cbn [woCompare_go].
  rewrite (isEmpty_rep _ _ Ho), (isEmpty_rep _ _ Hr). cbn [bind].
  case_bool_decide as E; [subst d; by destruct d'|].
  case_bool_decide as E'; [subst d'; by destruct d|].
  rewrite (isEmpty_rep _ _ obj_rep_empty). cbn [bind].
  destruct (iterator_rep _ _ Ho) as (i & -> & Hi & Hm). cbn [bind].
  destruct (iterator_rep _ _ Hr) as (j & -> & Hj & _). cbn [bind].
  destruct (iterator_rep _ _ obj_rep_empty) as (k & -> & Hk & _). cbn [bind].
  apply wo_loop_rep; [done|done|by apply fuel_enough|].
  intros l q n n' v w Hl Hq Hin Hml. apply elem_woCompare_rep; [done|done|].
  intros s s' a b Hs Hs' Ha Hb Hma. apply IH; [done|done|].
  assert (value_depth v <= doc_depth d)%nat as Hv.
  { apply list_max_in_le, in_map_iff. by exists (n, v). }
  assert (value_depth v = S (doc_depth s)) by (destruct v; simplify_eq/=; done). lia.
Qed.

Lemma obj_bytes_bound o d : obj_rep o d -> (length (enc_doc d) <= length (mem o))%nat.
Proof.
  intros [(H0 & post & Hd & Hl) _]. apply (f_equal length) in Hd.
  rewrite length_drop, length_app in Hd. lia.
Qed.

Lemma depth_enough o d : obj_rep o d -> (doc_depth d < fuel_of o)%nat.
Proof.
  intros Ho. pose proof (obj_bytes_bound _ _ Ho). pose proof (doc_depth_size d).
  pose proof (zlen_enc_doc d). unfold zlen, fuel_of in *. lia.
Qed.

Lemma woCompare_rep o r d d' : obj_rep o d -> obj_rep r d' ->
  sgn_of (woCompare o r) = compare_doc d d'.
Proof. intros. apply woCompare_go_rep; [done|done|by apply depth_enough]. Qed.

Lemma element_woCompare_rep cfn l r n n' v w : elem_ok l n v -> elem_ok r n' w ->
  sgn_of (element_woCompare cfn l r) = compare_field cfn compare_value (n, v) (n', w).
Proof.
  intros Hl Hr. apply elem_woCompare_rep; [done|done|].
  intros d d' a b _ _ Ha Hb _. apply woCompare_go_rep; [done|done|by apply depth_enough].
Qed.
