(* ===== verification/Order.v ===== *)
(** * Order: in what sense [woCompare] is an order

    The extension declares a btree operator class on [bson_compare], so the
    comparison should be a total order.  It is reflexive and antisymmetric on
    documents that do not mix dates and timestamps, and transitive when the
    64-bit integers are below 2^53; [woCompare_not_transitive] and
    [woCompare_date_timestamp] show that neither condition can be dropped. *)

From stdpp Require Import base list numbers strings option tactics.
From Stdlib Require Import Strings.Byte ZArith Lia SpecFloat.
From S2P Require Import Prelude Memory Double BsonTypes Format Element Obj Access Compare.

(** ** Conditions on documents *)

(** Which of the two 64-bit instants a document may hold. *)
Fixpoint dates_ok (b : bool) (v : value) : bool :=
  match v with
  | VDate _ => b
  | VTimestamp _ => negb b
  | VObject d | VArray d => forallb (fun f : field => dates_ok b (snd f)) d
  | _ => true
  end.
Definition doc_dates_ok (b : bool) (d : doc) : bool :=
  forallb (fun f : field => dates_ok b (snd f)) d.

(** Every number is one a [double] represents exactly. *)
Fixpoint exact (v : value) : bool :=
  match v with
  | VLong n | VInt n => Z.abs n <? 2 ^ 53
  | VDouble b => in_u 64 b
  | VObject d | VArray d => forallb (fun f : field => exact (snd f)) d
  | _ => true
  end.
Definition doc_exact (d : doc) : bool := forallb (fun f : field => exact (snd f)) d.

(** ** Antisymmetry *)

Lemma zcmp_antisym a b : zcmp b a = - zcmp a b.
Proof. unfold zcmp. lia. Qed.

Lemma SFcompare_antisym x y :
  SFcompare y x = match SFcompare x y with Some c => Some (CompOpp c) | None => None end.
Proof.
  destruct x as [a|a| |a m e], y as [b|b| |b m' e']; try done; try (by destruct a);
    try (by destruct b); try (by destruct a, b).
  destruct a, b; try done; simpl; rewrite (Z.compare_antisym e e');
    destruct (e ?= e'); try done; simpl;
    change (Pos.compare_cont Eq m' m) with (m' ?= m)%positive;
    change (Pos.compare_cont Eq m m') with (m ?= m')%positive;
    by rewrite (Pos.compare_antisym m m'), ?CompOpp_involutive.
Qed.

Lemma d_isnan_spec b : d_isnan b = match d_spec b with S754_nan => true | _ => false end.
Proof.
  unfold d_isnan, d_spec. destruct (d_exp b =? 2047); [by destruct (d_man b =? 0)|].
  simpl. destruct (d_exp b =? 0); [by destruct (d_man b)|by destruct (d_man b + 2 ^ 52)].
Qed.

Lemma double_way_antisym a b : double_way b a = - double_way a b.
Proof.
  unfold double_way, d_ltb, d_eqb, SFltb, SFeqb. rewrite (SFcompare_antisym (d_spec a) (d_spec b)).
  rewrite !d_isnan_spec.
  destruct (SFcompare (d_spec a) (d_spec b)) as [[]|] eqn:E; try done; cbn [CompOpp];
    destruct (d_spec a), (d_spec b); try done; by destruct s.
Qed.

(** [m] and [k] are opposite comparisons. *)
Definition opposite (m k : result Z) : Prop := exists c, m = Ok c /\ k = Ok (- c).

Lemma opposite_ok a b : b = - a -> opposite (Ok a) (Ok b).
Proof. intros ->. by eexists. Qed.

Lemma opposite_or_else m k m' k' : opposite m m' -> opposite k k' ->
  opposite (or_else m k) (or_else m' k').
Proof.
  intros (c & -> & ->) Hk. unfold or_else. cbn [bind].
  destruct (Z.eqb_spec c 0) as [->|]; [done|].
  destruct (Z.eqb_spec (- c) 0); [lia|]. by eexists.
Qed.

Create HintDb bson_order.
#[export] Hint Resolve opposite_ok opposite_or_else zcmp_antisym lex_cmp_antisym
  double_way_antisym : bson_order.

Definition value_antisym b v := forall w, dates_ok b v = true -> dates_ok b w = true ->
  canon (vtype v) = canon (vtype w) -> opposite (compare_value v w) (compare_value w v).

Lemma compare_fields_antisym b cfn d :
  Forall (fun f : field => value_antisym b (snd f)) d -> forall d',
  doc_dates_ok b d = true -> doc_dates_ok b d' = true ->
  opposite (compare_fields cfn compare_value d d') (compare_fields cfn compare_value d' d).
Proof.
  induction 1 as [|[n v] d Hv _ IH]; intros [|[n' w] d'] Hd Hd'; cbn [compare_fields];
    try (by eexists).
  simpl in Hd, Hd'. apply andb_prop in Hd as [Hvd Hd]. apply andb_prop in Hd' as [Hwd Hd'].
  apply opposite_or_else; [|by apply IH]. unfold compare_field. cbn [fst snd] in *.
  destruct (Z.eq_dec (canon (vtype v)) (canon (vtype w))) as [E|E].
  - rewrite E. apply opposite_or_else; [rewrite zcmp_refl; by eexists|].
    apply opposite_or_else; [|by apply Hv]. destruct cfn; auto with bson_order.
  - unfold or_else. cbn [bind]. rewrite (zcmp_antisym (canon (vtype v))). unfold zcmp.
    destruct (Z.eqb_spec (Z.sgn (canon (vtype v) - canon (vtype w))) 0); [lia|].
    destruct (Z.eqb_spec (- Z.sgn (canon (vtype v) - canon (vtype w))) 0); [lia|].
    by eexists.
Qed.

Lemma compare_value_antisym b v : value_antisym b v.
Proof.
  revert v. apply value_nested_ind.
  - intros v. destruct v; try done; intros w Hv Hw Hc; destruct w; try discriminate Hc;
      cbn [compare_value dates_ok] in *; auto 6 with bson_order; destruct b; discriminate.
  - intros d IH w Hv Hw Hc. destruct w; try discriminate Hc. by apply (compare_fields_antisym b).
  - intros d IH w Hv Hw Hc. destruct w; try discriminate Hc. by apply (compare_fields_antisym b).
  - intros c d IH w Hv Hw Hc. destruct w; try discriminate Hc.
    cbn [compare_value]. auto with bson_order.
Qed.

Lemma compare_doc_antisym b d d' : doc_dates_ok b d = true -> doc_dates_ok b d' = true ->
  opposite (compare_doc d d') (compare_doc d' d).
Proof.
  intros. apply (compare_fields_antisym b); [|done|done].
  apply List.Forall_forall. intros. apply compare_value_antisym.
Qed.

(** ** Reflexivity: it needs no condition *)

Lemma or_else_zero m k : m = Ok 0 -> k = Ok 0 -> or_else m k = Ok 0.
Proof. by intros -> ->. Qed.

Lemma double_way_refl a : double_way a a = 0.
Proof. pose proof (double_way_antisym a a). lia. Qed.

Lemma compare_fields_refl cfn d :
  Forall (fun f : field => compare_value (snd f) (snd f) = Ok 0) d ->
  compare_fields cfn compare_value d d = Ok 0.
Proof.
  induction 1 as [|[n v] d Hv _ IH]; [done|]. cbn [compare_fields].
  apply or_else_zero; [|done]. unfold compare_field. cbn [fst snd] in *.
  rewrite zcmp_refl, lex_cmp_refl. apply or_else_zero; [done|].
  apply or_else_zero; [by destruct cfn|done].
Qed.

Lemma compare_value_refl v : compare_value v v = Ok 0.
Proof.
  revert v. apply value_nested_ind.
  - intros v; destruct v; try done; cbn [compare_value];
      rewrite ?zcmp_refl, ?lex_cmp_refl, ?double_way_refl; done.
  - intros d IH. by apply compare_fields_refl.
  - intros d IH. by apply compare_fields_refl.
  - intros c d IH. cbn. by rewrite !lex_cmp_refl.
Qed.

Lemma compare_doc_refl d : compare_doc d d = Ok 0.
Proof.
  apply compare_fields_refl, List.Forall_forall. intros. apply compare_value_refl.
Qed.

(** ** Transitivity *)

(** From [a <= b] and [b <= c] follows [a <= c], with equality only when both
    are equalities. *)
Definition chain (m k p : result Z) : Prop := forall a b,
  m = Ok a -> k = Ok b -> a <= 0 -> b <= 0 ->
  exists c, p = Ok c /\ c <= 0 /\ (c = 0 <-> a = 0 /\ b = 0).

Lemma chain_ok a b c : (a <= 0 -> b <= 0 -> c <= 0 /\ (c = 0 <-> a = 0 /\ b = 0)) ->
  chain (Ok a) (Ok b) (Ok c).
Proof. intros H a' b' [= <-] [= <-] Ha Hb. exists c. split; [done|]. by apply H. Qed.

Lemma chain_zcmp a b c : chain (Ok (zcmp a b)) (Ok (zcmp b c)) (Ok (zcmp a c)).
Proof. apply chain_ok. unfold zcmp. lia. Qed.

Lemma chain_lex a b c : chain (Ok (lex_cmp a b)) (Ok (lex_cmp b c)) (Ok (lex_cmp a c)).
Proof.
  apply chain_ok. intros Hab Hbc. pose proof (lex_cmp_trans a b c Hab Hbc) as Hac.
  split; [done|]. split.
  - intros E%lex_cmp_eq. subst c. pose proof (lex_cmp_antisym a b). lia.
  - intros [Ea%lex_cmp_eq Eb%lex_cmp_eq]. subst. apply lex_cmp_refl.
Qed.

Lemma chain_or_else m1 m2 m3 k1 k2 k3 : chain m1 m2 m3 ->
  (m1 = Ok 0 -> m2 = Ok 0 -> chain k1 k2 k3) ->
  chain (or_else m1 k1) (or_else m2 k2) (or_else m3 k3).
Proof.
  intros Hm Hk a b Ha Hb Hla Hlb. unfold or_else in *.
  destruct m1 as [x|]; [|done]. destruct m2 as [y|]; [|done]. cbn [bind] in *.
  assert (x <= 0) by (destruct (Z.eqb_spec x 0); simplify_eq; lia).
  assert (y <= 0) by (destruct (Z.eqb_spec y 0); simplify_eq; lia).
  destruct (Hm x y eq_refl eq_refl) as (z & -> & Hz & Hz0); [done|done|]. cbn [bind].
  destruct (Z.eqb_spec x 0) as [->|]; [destruct (Z.eqb_spec y 0) as [->|]|];
    destruct (Z.eqb_spec z 0) as [->|]; simplify_eq; try lia;
    try (eexists; split; [done|]; lia).
  apply Hk; done.
Qed.

#[export] Hint Resolve chain_zcmp chain_lex chain_or_else : bson_order.

(** The key numbers are compared by: NaN is below every other one. *)
Definition nkey (b : Z) : Z := if d_isnan b then - 2 ^ 64 else d_key b.

Lemma d_key_range b : - 2 ^ 63 < d_key b < 2 ^ 63.
Proof.
  unfold d_key, d_mag. pose proof (Z.mod_pos_bound b (2 ^ 63) eq_refl).
  destruct (d_sign b); lia.
Qed.

Lemma double_way_key a b : in_u 64 a = true -> in_u 64 b = true ->
  double_way a b = zcmp (nkey a) (nkey b).
Proof.
  intros Ha Hb. unfold double_way, nkey. rewrite d_ltb_key, d_eqb_key by done.
  pose proof (d_key_range a). pose proof (d_key_range b). unfold zcmp.
  destruct (d_isnan a), (d_isnan b); cbn [negb andb]; try lia.
  destruct (Z.ltb_spec (d_key a) (d_key b)); [lia|].
  destruct (Z.eqb_spec (d_key a) (d_key b)); lia.
Qed.

Lemma int_key_zcmp a b : Z.abs a < 2 ^ 53 -> Z.abs b < 2 ^ 53 ->
  zcmp a b = zcmp (nkey (d_of_Z a)) (nkey (d_of_Z b)).
Proof.
  intros Ha Hb. unfold nkey.
  destruct (d_of_Z_key a Ha) as (_ & -> & _). destruct (d_of_Z_key b Hb) as (_ & -> & _).
  pose proof (d_of_Z_mono a b Ha Hb). pose proof (d_of_Z_mono b a Hb Ha). unfold zcmp.
  destruct (Z.lt_trichotomy a b) as [?|[->|?]]; lia.
Qed.

Lemma exact_double v : exact v = true -> isNumber_type (vtype v) = true ->
  in_u 64 (value_double v) = true.
Proof.
  destruct v; try done; cbn [exact value_double]; intros H _; try done;
    apply Z.ltb_lt in H; by apply d_of_Z_key.
Qed.

Lemma number_compare v w : exact v = true -> exact w = true ->
  isNumber_type (vtype v) = true -> isNumber_type (vtype w) = true ->
  compare_value v w = Ok (zcmp (nkey (value_double v)) (nkey (value_double w))).
Proof.
  intros Hv Hw Nv Nw. pose proof (exact_double v Hv Nv). pose proof (exact_double w Hw Nw).
  destruct v; try done; destruct w; try done; cbn [compare_value];
    rewrite ?double_way_key by done; try done;
    cbn [exact] in *; apply Z.ltb_lt in Hv, Hw; by rewrite int_key_zcmp.
Qed.

Definition value_chain b v := forall w x,
  dates_ok b v = true -> dates_ok b w = true -> dates_ok b x = true ->
  exact v = true -> exact w = true -> exact x = true ->
  canon (vtype v) = canon (vtype w) -> canon (vtype w) = canon (vtype x) ->
  chain (compare_value v w) (compare_value w x) (compare_value v x).

Lemma compare_fields_chain b cfn d :
  Forall (fun f : field => value_chain b (snd f)) d -> forall d' d'',
  doc_dates_ok b d = true -> doc_dates_ok b d' = true -> doc_dates_ok b d'' = true ->
  doc_exact d = true -> doc_exact d' = true -> doc_exact d'' = true ->
  chain (compare_fields cfn compare_value d d') (compare_fields cfn compare_value d' d'')
    (compare_fields cfn compare_value d d'').
Proof.
  induction 1 as [|[n v] d Hv _ IH]; intros [|[n' w] d'] [|[n'' x] d''] Hd Hd' Hd'' He He' He'';
    cbn [compare_fields];
    try (intros p q Hp Hq ? ?; try injection Hp as <-; try injection Hq as <-; try lia;
         (eexists; split; [reflexivity|lia])).
  cbn [doc_dates_ok doc_exact forallb snd] in *.
  apply andb_prop in Hd as [Hvd Hd], Hd' as [Hwd Hd'], Hd'' as [Hxd Hd''],
    He as [Hve He], He' as [Hwe He'], He'' as [Hxe He''].
  apply chain_or_else; [|intros _ _; by apply IH]. unfold compare_field. cbn [fst snd] in *.
  apply chain_or_else; [apply chain_zcmp|]. intros [= E1] [= E2]. unfold zcmp in E1, E2.
  apply chain_or_else; [destruct cfn; [apply chain_lex|by apply chain_ok]|].
  intros _ _. apply Hv; done || lia.
Qed.

Lemma compare_value_chain b v : value_chain b v.
Proof.
  revert v. apply value_nested_ind.
  - intros v. destruct v; try done; intros w x Hv Hw Hx Ev Ew Ex Hc Hc';
      destruct w; try discriminate Hc; destruct x; try discriminate Hc';
      try (rewrite !number_compare by done; apply chain_zcmp);
      cbn [compare_value dates_ok] in *; try (by destruct b);
      auto 6 with bson_order; by apply chain_ok.
  - intros d IH w x ? ? ? ? ? ? Hc Hc'. destruct w; try discriminate Hc.
    destruct x; try discriminate Hc'. by apply (compare_fields_chain b).
  - intros d IH w x ? ? ? ? ? ? Hc Hc'. destruct w; try discriminate Hc.
    destruct x; try discriminate Hc'. by apply (compare_fields_chain b).
  - intros c d IH w x ? ? ? ? ? ? Hc Hc'. destruct w; try discriminate Hc.
    destruct x; try discriminate Hc'. cbn [compare_value]. auto with bson_order.
Qed.

Lemma compare_doc_chain b d d' d'' :
  doc_dates_ok b d = true -> doc_dates_ok b d' = true -> doc_dates_ok b d'' = true ->
  doc_exact d = true -> doc_exact d' = true -> doc_exact d'' = true ->
  chain (compare_doc d d') (compare_doc d' d'') (compare_doc d d'').
Proof.
  intros. apply (compare_fields_chain b); try done.
  apply List.Forall_forall. intros. apply compare_value_chain.
Qed.

(** ** What this says of [woCompare] *)

Lemma sgn_of_inv m c : sgn_of m = Ok c -> exists x, m = Ok x /\ Z.sgn x = c.
Proof. destruct m as [x|]; [|done]. intros [= <-]. by eexists. Qed.

(** C1: [BSONObj::woCompare] of two objects that encode well-formed documents
    returns a number with the sign of [compare_doc], and throws exactly when
    [compare_doc] is an error: fields are compared in order, each by canonical
    type, then name, then value, and the shorter document comes first.  The
    depth and loop bounds of the model are never reached. *)
Theorem woCompare_refines o r d d' : obj_rep o d -> obj_rep r d' ->
  result_map Z.sgn (woCompare o r) = compare_doc d d'.
Proof. apply woCompare_rep. Qed.

(** C3: on documents that do not mix dates and timestamps the comparison never
    throws, and exchanging its arguments exchanges its sign. *)
Theorem woCompare_antisymmetric b o r d d' :
  obj_rep o d -> obj_rep r d' -> doc_dates_ok b d = true -> doc_dates_ok b d' = true ->
  exists x y, woCompare o r = Ok x /\ woCompare r o = Ok y /\ Z.sgn y = - Z.sgn x.
Proof.
  intros Ho Hr Hd Hd'. destruct (compare_doc_antisym b d d' Hd Hd') as (c & H1 & H2).
  rewrite <- (woCompare_rep _ _ _ _ Ho Hr) in H1. rewrite <- (woCompare_rep _ _ _ _ Hr Ho) in H2.
  apply sgn_of_inv in H1 as (x & Hx & <-). apply sgn_of_inv in H2 as (y & Hy & ?). by eexists _, _.
Qed.

(** Two objects with the same well-formed document compare equal, in
    particular whenever [binaryEqual] accepts them. *)
Theorem woCompare_reflexive o r d : obj_rep o d -> obj_rep r d -> woCompare o r = Ok 0.
Proof.
  intros Ho Hr. pose proof (woCompare_rep _ _ _ _ Ho Hr) as H. rewrite compare_doc_refl in H.
  apply sgn_of_inv in H as (x & Hx & Hs). rewrite Hx. f_equal. lia.
Qed.

(** C4: the comparison is transitive on documents that do not mix dates and
    timestamps and whose integers are below 2^53: from [a <= b] and [b <= c]
    follows [a <= c], and [a = c] only when both are equalities. *)
Theorem woCompare_transitive b o p q d d' d'' x y :
  obj_rep o d -> obj_rep p d' -> obj_rep q d'' ->
  doc_dates_ok b d = true -> doc_dates_ok b d' = true -> doc_dates_ok b d'' = true ->
  doc_exact d = true -> doc_exact d' = true -> doc_exact d'' = true ->
  woCompare o p = Ok x -> woCompare p q = Ok y -> x <= 0 -> y <= 0 ->
  exists z, woCompare o q = Ok z /\ z <= 0 /\ (z = 0 <-> x = 0 /\ y = 0).
Proof.
  intros Ho Hp Hq Hd Hd' Hd'' He He' He'' Hx Hy Hlx Hly.
  pose proof (compare_doc_chain b _ _ _ Hd Hd' Hd'' He He' He'') as Hc.
  rewrite <- (woCompare_rep _ _ _ _ Ho Hp), <- (woCompare_rep _ _ _ _ Hp Hq),
    <- (woCompare_rep _ _ _ _ Ho Hq), Hx, Hy in Hc.
  destruct (Hc (Z.sgn x) (Z.sgn y)) as (c & Hs & ? & ?); [done|done|lia|lia|].
  apply sgn_of_inv in Hs as (z & Hz & <-). exists z. split; [done|]. lia.
Qed.

(** ** Concrete documents *)

(** An object in a buffer of its own. *)
Definition obj_of (d : doc) : BSONObj := Ptr (enc_doc d) 0.

Lemma obj_of_rep d : wf_doc d = true -> obj_rep (obj_of d) d.
Proof. split; [apply points_start|done]. Qed.

Definition doc_double : doc := [(bstr "a", VDouble (d_of_Z (2 ^ 53)))].
Definition doc_long : doc := [(bstr "a", VLong (2 ^ 53))].
Definition doc_long_succ : doc := [(bstr "a", VLong (2 ^ 53 + 1))].
Definition doc_date : doc := [(bstr "a", VDate 1)].
Definition doc_timestamp : doc := [(bstr "a", VTimestamp 2)].

(** without the bound on integers the comparison is not transitive: as
    documents {a: x}, the 64-bit integer 2^53 equals the double 2^53, which
    equals the 64-bit integer 2^53 + 1, but the two integers differ. *)
Theorem woCompare_not_transitive :
  woCompare (obj_of doc_long) (obj_of doc_double) = Ok 0 /\
  woCompare (obj_of doc_double) (obj_of doc_long_succ) = Ok 0 /\
  woCompare (obj_of doc_long) (obj_of doc_long_succ) = Ok (-1).
Proof. vm_compute. auto. Qed.

(** A date and a timestamp have one canonical type, but comparing a date
    with a timestamp throws assertion 13111, while the other way round
    answers. *)
Theorem woCompare_date_timestamp :
  woCompare (obj_of doc_date) (obj_of doc_timestamp) = Err (MsgAssert 13111) /\
  woCompare (obj_of doc_timestamp) (obj_of doc_date) = Ok 1.
Proof. vm_compute. auto. Qed.

(** A document with every kind of value the conditions speak of. *)
Definition doc_sample (n : Z) : doc :=
  [(bstr "a", VInt n); (bstr "b", VString (bstr "text"));
   (bstr "c", VObject [(bstr "x", VDate 7); (bstr "y", VArray [(bstr "0", VLong (- 5))])]);
   (bstr "d", VDouble (d_of_Z 3)); (bstr "e", VNull)].

Lemma woCompare_refines_witness :
  result_map Z.sgn (woCompare (obj_of (doc_sample 1)) (obj_of (doc_sample 2)))
  = compare_doc (doc_sample 1) (doc_sample 2).
Proof. apply woCompare_refines; by apply obj_of_rep. Defined.

Lemma woCompare_antisymmetric_witness :
  exists x y, woCompare (obj_of (doc_sample 1)) (obj_of (doc_sample 2)) = Ok x /\
    woCompare (obj_of (doc_sample 2)) (obj_of (doc_sample 1)) = Ok y /\ Z.sgn y = - Z.sgn x.
Proof.
  apply (woCompare_antisymmetric true _ _ (doc_sample 1) (doc_sample 2));
    done || by apply obj_of_rep.
Defined.

Lemma woCompare_reflexive_witness :
  woCompare (obj_of (doc_sample 1)) (obj_of (doc_sample 1)) = Ok 0.
Proof. by apply (woCompare_reflexive _ _ (doc_sample 1)); apply obj_of_rep. Defined.

Lemma woCompare_transitive_witness :
  exists z, woCompare (obj_of (doc_sample 1)) (obj_of (doc_sample 3)) = Ok z /\ z <= 0 /\
    (z = 0 <-> -1 = 0 /\ -1 = 0).
Proof.
  apply (woCompare_transitive true _ (obj_of (doc_sample 2)) _
    (doc_sample 1) (doc_sample 2) (doc_sample 3));
    try (by apply obj_of_rep); try (by vm_compute); lia.
Defined.
