(* ===== verification/Builder.v ===== *)
(** * Builder: [BufBuilder], [BSONObjBuilder] and [BSONArrayBuilder]
    (bson/util/builder.h, bson/bsonobjbuilder.h, bson/bson-inl.h,
    bson/bson_db.h, db/jsobj.cpp)

    A [BufBuilder] is the bytes written so far and the capacity of the
    allocation, which grows by doubling up to 64MB.  A builder is state passed
    from one append to the next; a sub-builder takes over its parent's buffer,
    as in the source, where both refer to one [BufBuilder].

    [writes m bs] says that [m] appends exactly [bs] whenever they fit; each
    append writes the encoding of its field, and [obj] returns the encoding of
    the document of the fields appended. *)

From stdpp Require Import base list numbers strings option tactics.
From Stdlib Require Import Strings.Byte ZArith Lia.
From S2P Require Import Prelude Memory Decimal Double BsonTypes Format Element Obj Access Compare.

(** ** [BufBuilder] *)

Record BufBuilder := MkBuf { buf : list byte; cap : Z }.

Definition len (b : BufBuilder) : Z := zlen (buf b).

(** [int a = 64; while (a < newLen) a = a * 2;] *)
Fixpoint grow_size (fuel : nat) (a newLen : Z) : result Z :=
  match fuel with
  | O => Err OutOfFuel
  | S fuel' =>
      if a <? newLen then
        if in_s 32 (a * 2) then grow_size fuel' (a * 2) newLen else Err UndefinedBehaviour
      else Ok a
  end.

Definition grow_reallocate (b : BufBuilder) (newLen : Z) : result BufBuilder :=
  let* a := grow_size 32 64 newLen in
  if BufferMaxSize <? a then Err (MsgAssert 13548)
  else Ok (MkBuf (buf b) a).

Definition grow (b : BufBuilder) (by_ : Z) : result BufBuilder :=
  let newLen := len b + by_ in
  if in_s 32 newLen then
    if cap b <? newLen then grow_reallocate b newLen else Ok b
  else Err UndefinedBehaviour.

(** [grow] followed by the write of the bytes it made room for. *)
Definition bb_append (bs : list byte) (b : BufBuilder) : result BufBuilder :=
  let* b' := grow b (zlen bs) in
  Ok (MkBuf (buf b' ++ bs) (cap b')).

Definition BufBuilder_new (initsize : Z) : BufBuilder := MkBuf [] initsize.
Definition reset (b : BufBuilder) : BufBuilder := MkBuf [] (cap b).
Definition reset_max (maxSize : Z) (b : BufBuilder) : BufBuilder :=
  if negb (maxSize =? 0) && (maxSize <? cap b) then MkBuf [] maxSize else MkBuf [] (cap b).
(** [skip]: the bytes are written later. *)
Definition skip (n : Z) : BufBuilder -> result BufBuilder :=
  bb_append (repeat x00 (Z.to_nat n)).
Definition setlen (n : Z) (b : BufBuilder) : BufBuilder := MkBuf (take (Z.to_nat n) (buf b)) (cap b).

Definition appendChar (c : byte) : BufBuilder -> result BufBuilder := bb_append [c].
Definition appendNum_char (c : byte) : BufBuilder -> result BufBuilder := bb_append [c].
Definition appendNum_short (n : Z) : BufBuilder -> result BufBuilder := bb_append (le16 n).
Definition appendNum_int (n : Z) : BufBuilder -> result BufBuilder := bb_append (le32 n).
Definition appendNum_unsigned (n : Z) : BufBuilder -> result BufBuilder := bb_append (le32 n).
Definition appendNum_bool (b : bool) : BufBuilder -> result BufBuilder :=
  bb_append [if b then x01 else x00].
Definition appendNum_double (bits : Z) : BufBuilder -> result BufBuilder := bb_append (le64 bits).
Definition appendNum_longlong (n : Z) : BufBuilder -> result BufBuilder := bb_append (le64 n).
Definition appendNum_ulonglong (n : Z) : BufBuilder -> result BufBuilder := bb_append (le64 n).

Definition appendBuf (src : ptr) (n : Z) (b : BufBuilder) : result BufBuilder :=
  let* bs := loads src n in bb_append bs b.

Definition appendStr (s : list byte) (includeEndingNull : bool) : BufBuilder -> result BufBuilder :=
  bb_append (s ++ if includeEndingNull then [x00] else []).

(** ** [BSONObjBuilder] *)

Record BSONObjBuilder := MkBuilder {
  _b : BufBuilder;
  _offset : Z;
  owned : bool;
  _doneCalled : bool
}.

Definition set_b (b : BSONObjBuilder) (x : BufBuilder) : BSONObjBuilder :=
  MkBuilder x (_offset b) (owned b) (_doneCalled b).

(** Run a write on the builder's buffer. *)
Definition on_b (m : BufBuilder -> result BufBuilder) (b : BSONObjBuilder) : result BSONObjBuilder :=
  let* x := m (_b b) in Ok (set_b b x).

(** One write after the other. *)
Definition seq_w {A} (m k : A -> result A) : A -> result A :=
  fun x => let* y := m x in k y.
Notation "m ;> k" := (seq_w m k) (at level 90, right associativity) : bson_scope.

(** [BSONObjBuilder(int initsize)]: room for the reference count and the size. *)
Definition BSONObjBuilder_new (initsize : Z) : result BSONObjBuilder :=
  let* x := (appendNum_unsigned 0 ;> skip 4) (BufBuilder_new (initsize + 4)) in
  Ok (MkBuilder x 4 true false).

(** [BSONObjBuilder(BufBuilder&)]: writes into a buffer given to it. *)
Definition BSONObjBuilder_on (base : BufBuilder) : result BSONObjBuilder :=
  let* x := skip 4 base in
  Ok (MkBuilder x (len base) false false).

(** The type byte and the field name every append starts with. *)
Definition header (t : BSONType) (fieldName : list byte) : BufBuilder -> result BufBuilder :=
  appendNum_char (type_byte t) ;> appendStr fieldName true.

Definition append_elem (e : BSONElement) (b : BSONObjBuilder) : result BSONObjBuilder :=
  let* z := eoo e in
  let* _ := verify (negb z) in
  let* n := size e in
  on_b (appendBuf (data e) n) b.

Definition appendAs (e : BSONElement) (fieldName : list byte) (b : BSONObjBuilder)
    : result BSONObjBuilder :=
  let* z := eoo e in
  let* _ := verify (negb z) in
  let* t := type e in
  let* p := value_ptr e in
  let* n := valuesize e in
  on_b (header t fieldName ;> appendBuf p n) b.

Definition append_obj (fieldName : list byte) (subObj : BSONObj) (b : BSONObjBuilder)
    : result BSONObjBuilder :=
  let* n := objsize subObj in
  on_b (header Object fieldName ;> appendBuf subObj n) b.

Definition appendObject (fieldName : list byte) (objdata : ptr) (size_ : Z) (b : BSONObjBuilder)
    : result BSONObjBuilder :=
  let* n := if size_ =? 0 then load_s32 objdata else Ok size_ in
  let* _ := verify ((4 <? n) && (n <? 100000000)) in
  on_b (header Object fieldName ;> appendBuf objdata n) b.

(** The buffer a sub-builder is to be constructed on. *)
Definition subobjStart (fieldName : list byte) (b : BSONObjBuilder) : result BSONObjBuilder :=
  on_b (header Object fieldName) b.
Definition subarrayStart (fieldName : list byte) (b : BSONObjBuilder) : result BSONObjBuilder :=
  on_b (header Array fieldName) b.

Definition appendArray (fieldName : list byte) (subObj : BSONObj) (b : BSONObjBuilder)
    : result BSONObjBuilder :=
  let* n := objsize subObj in
  on_b (header Array fieldName ;> appendBuf subObj n) b.

Definition appendBool (fieldName : list byte) (val : Z) : BSONObjBuilder -> result BSONObjBuilder :=
  on_b (header BSONBool fieldName ;> appendNum_char (if val =? 0 then x00 else x01)).
Definition append_bool (fieldName : list byte) (val : bool)
    : BSONObjBuilder -> result BSONObjBuilder :=
  on_b (header BSONBool fieldName ;> appendNum_char (if val then x01 else x00)).
Definition append_int (fieldName : list byte) (n : Z) : BSONObjBuilder -> result BSONObjBuilder :=
  on_b (header NumberInt fieldName ;> appendNum_int n).
Definition append_unsigned (fieldName : list byte) (n : Z)
    : BSONObjBuilder -> result BSONObjBuilder :=
  append_int fieldName (s32 n).
Definition append_longlong (fieldName : list byte) (n : Z)
    : BSONObjBuilder -> result BSONObjBuilder :=
  on_b (header NumberLong fieldName ;> appendNum_longlong n).
Definition append_double (fieldName : list byte) (bits : Z)
    : BSONObjBuilder -> result BSONObjBuilder :=
  on_b (header NumberDouble fieldName ;> appendNum_double bits).

(** The absolute value of a [long long]: negating the least one overflows. *)
Definition ll_abs (n : Z) : result Z :=
  let x := if n <? 0 then - n else n in
  if in_s 64 x then Ok x else Err UndefinedBehaviour.

Definition appendIntOrLL (fieldName : list byte) (n : Z) (b : BSONObjBuilder)
    : result BSONObjBuilder :=
  let* x := ll_abs n in
  if x <? INT_MAX / 2 then append_int fieldName (s32 n) b else append_longlong fieldName n b.

Definition appendNumber_size_t (fieldName : list byte) (n : Z)
    : BSONObjBuilder -> result BSONObjBuilder :=
  if n <? 2 ^ 30 then append_int fieldName (s32 n) else append_longlong fieldName (s64 n).

Definition appendNumber_longlong (fieldName : list byte) (llNumber : Z) (b : BSONObjBuilder)
    : result BSONObjBuilder :=
  let* nonNegative := ll_abs llNumber in
  if nonNegative <? 2 ^ 30 then append_int fieldName (s32 llNumber) b
  else if nonNegative <? 2 ^ 40 then append_double fieldName (d_of_Z llNumber) b
  else append_longlong fieldName llNumber b.

(** An [OID] is its twelve bytes. *)
Definition append_OID (fieldName : list byte) (oid : list byte)
    : BSONObjBuilder -> result BSONObjBuilder :=
  on_b (header jstOID fieldName ;> appendBuf (Ptr oid 0) 12).

Definition appendTimeT (fieldName : list byte) (dt : Z) : BSONObjBuilder -> result BSONObjBuilder :=
  on_b (header Date fieldName ;> appendNum_ulonglong (u64 (u64 dt * 1000))).
Definition appendDate (fieldName : list byte) (dt : Z) : BSONObjBuilder -> result BSONObjBuilder :=
  on_b (header Date fieldName ;> appendNum_ulonglong dt).
Definition appendRegex (fieldName regex_ options : list byte)
    : BSONObjBuilder -> result BSONObjBuilder :=
  on_b (header RegEx fieldName ;> appendStr regex_ true ;> appendStr options true).
Definition appendCode (fieldName code : list byte) : BSONObjBuilder -> result BSONObjBuilder :=
  on_b (header Code fieldName ;> appendNum_int (zlen code + 1) ;> appendStr code true).

(** [append(fieldName, const char *str, int sz)]: [sz] includes the NUL. *)
Definition append_strsz (fieldName : list byte) (str_ : ptr) (sz : Z)
    : BSONObjBuilder -> result BSONObjBuilder :=
  on_b (header BSONString fieldName ;> appendNum_int sz ;> appendBuf str_ sz).
Definition append_cstr (fieldName : list byte) (str_ : ptr) (b : BSONObjBuilder)
    : result BSONObjBuilder :=
  let* n := strlen str_ in
  append_strsz fieldName str_ (n + 1) b.
Definition append_string (fieldName str_ : list byte) : BSONObjBuilder -> result BSONObjBuilder :=
  append_strsz fieldName (literal str_) (zlen str_ + 1).
Definition append_StringData (fieldName str_ : list byte)
    : BSONObjBuilder -> result BSONObjBuilder :=
  on_b (header BSONString fieldName ;> appendNum_int (zlen str_ + 1) ;> appendStr str_ true).
Definition appendSymbol (fieldName symbol : list byte) : BSONObjBuilder -> result BSONObjBuilder :=
  on_b (header Symbol fieldName ;> appendNum_int (zlen symbol + 1) ;> appendStr symbol true).

Definition appendNull (fieldName : list byte) : BSONObjBuilder -> result BSONObjBuilder :=
  on_b (header jstNULL fieldName).
Definition appendMinKey (fieldName : list byte) : BSONObjBuilder -> result BSONObjBuilder :=
  on_b (header MinKey fieldName).
Definition appendMaxKey (fieldName : list byte) : BSONObjBuilder -> result BSONObjBuilder :=
  on_b (header MaxKey fieldName).
Definition appendUndefined (fieldName : list byte) : BSONObjBuilder -> result BSONObjBuilder :=
  on_b (header Undefined fieldName).

Definition appendTimestamp (fieldName : list byte) (val : Z)
    : BSONObjBuilder -> result BSONObjBuilder :=
  on_b (header Timestamp fieldName ;> appendNum_ulonglong val).
(** [appendTimestamp(fieldName, time, inc)]: seconds in the upper half. *)
Definition appendTimestamp_inc (fieldName : list byte) (time inc : Z)
    : BSONObjBuilder -> result BSONObjBuilder :=
  appendTimestamp fieldName (u32 (time / 1000) * 2 ^ 32 + inc).

Definition appendDBRef (fieldName ns oid : list byte) : BSONObjBuilder -> result BSONObjBuilder :=
  on_b (header DBRef fieldName ;> appendNum_int (zlen ns + 1) ;> appendStr ns true ;>
        appendBuf (Ptr oid 0) 12).

Definition appendBinData (fieldName : list byte) (n : Z) (subtype : byte) (src : ptr)
    : BSONObjBuilder -> result BSONObjBuilder :=
  on_b (header BinData fieldName ;> appendNum_int n ;> appendNum_char subtype ;> appendBuf src n).
Definition appendBinDataArrayDeprecated (fieldName : list byte) (src : ptr) (n : Z)
    : BSONObjBuilder -> result BSONObjBuilder :=
  on_b (header BinData fieldName ;> appendNum_int (s32 (n + 4)) ;> appendNum_char x02 ;>
        appendNum_int n ;> appendBuf src n).

Definition appendCodeWScope (fieldName code : list byte) (scope : BSONObj) (b : BSONObjBuilder)
    : result BSONObjBuilder :=
  let* n := objsize scope in
  on_b (header CodeWScope fieldName ;> appendNum_int (4 + 4 + zlen code + 1 + n) ;>
        appendNum_int (zlen code + 1) ;> appendStr code true ;> appendBuf scope n) b.

Definition appendWhere (code : list byte) (scope : BSONObj)
    : BSONObjBuilder -> result BSONObjBuilder :=
  appendCodeWScope (bstr "$where") code scope.

(** ** Finishing an object *)

(** Overwrite the bytes at [at_] with [bs]. *)
Definition patch (l : list byte) (at_ : Z) (bs : list byte) : list byte :=
  take (Z.to_nat at_) l ++ bs ++ drop (Z.to_nat at_ + length bs) l.

(** [_done]: write the EOO, then the size at the object's start. *)
Definition _done (b : BSONObjBuilder) : result BSONObjBuilder :=
  if _doneCalled b then Ok b
  else
    let* x := appendNum_char x00 (_b b) in
    let size_ := len x - _offset b in
    Ok (MkBuilder (MkBuf (patch (buf x) (_offset b) (le32 size_)) (cap x))
          (_offset b) (owned b) true).

Definition objdata (b : BSONObjBuilder) : ptr := Ptr (buf (_b b)) (_offset b).

(** [done()]: the object, in the builder's own buffer. *)
Definition done (b : BSONObjBuilder) : result (BSONObj * BSONObjBuilder) :=
  let* b' := _done b in
  let* o := BSONObj_init (objdata b') in
  Ok (o, b').
Definition doneFast (b : BSONObjBuilder) : result BSONObjBuilder := _done b.

(** [obj()]: the buffer is handed over with the object. *)
Definition obj (b : BSONObjBuilder) : result BSONObj :=
  let* _ := massert 10335 (owned b) in
  let* b' := _done b in
  BSONObj_init (objdata b').

(** [asTempObj()]: the object so far; the next append overwrites its EOO. *)
Definition asTempObj (b : BSONObjBuilder) : result (BSONObj * BSONObjBuilder) :=
  let* b' := _done b in
  let* temp := BSONObj_init (objdata b') in
  Ok (temp, MkBuilder (setlen (len (_b b') - 1) (_b b')) (_offset b') (owned b') false).

(** [sub.done()] for a builder on its parent's buffer: the parent goes on with
    what the sub-builder left. *)
Definition sub_done (parent sub : BSONObjBuilder) : result BSONObjBuilder :=
  let* sub' := _done sub in
  Ok (set_b parent (_b sub')).

(** ** What the appends write *)

Definition buf_ok (b : BufBuilder) : Prop := len b <= cap b.
Definition fits (b : BufBuilder) (n : Z) : Prop := len b + n <= BufferMaxSize.

Lemma grow_size_ok fuel : forall k newLen,
  6 <= k <= 26 -> newLen <= BufferMaxSize -> (26 - k < Z.of_nat fuel) ->
  exists j, grow_size fuel (2 ^ k) newLen = Ok (2 ^ j) /\ k <= j <= 26 /\ newLen <= 2 ^ j.
Proof.
  change BufferMaxSize with (2 ^ 26).
  induction fuel as [|fuel IH]; intros k newLen Hk Hn Hf; [lia|]. cbn [grow_size].
  destruct (Z.ltb_spec (2 ^ k) newLen) as [Hlt|Hge]; [|exists k; split; [done|lia]].
  assert (k < 26) by (destruct (Z.eq_dec k 26) as [->|]; lia).
  replace (2 ^ k * 2) with (2 ^ (k + 1)) by (rewrite Z.pow_add_r by lia; lia).
  assert (2 ^ (k + 1) <= 2 ^ 26) by (apply Z.pow_le_mono_r; lia).
  replace (in_s 32 (2 ^ (k + 1))) with true
    by (symmetry; apply in_s_spec; change (2 ^ (32 - 1)) with 2147483648;
        change (2 ^ 26) with 67108864 in *; lia).
  destruct (IH (k + 1) newLen) as (j & -> & Hj & Hl); [lia|done|lia|]. exists j. split; [done|lia].
Qed.

Lemma bb_append_ok bs b : buf_ok b -> fits b (zlen bs) ->
  exists b', bb_append bs b = Ok b' /\ buf b' = buf b ++ bs /\ buf_ok b'.
Proof.
  unfold buf_ok, fits, bb_append, grow. intros Hb Hf.
  pose proof (zlen_nonneg (buf b)). pose proof (zlen_nonneg bs).
  replace (in_s 32 (len b + zlen bs)) with true
    by (symmetry; apply in_s_spec; change (2 ^ (32 - 1)) with 2147483648;
        change BufferMaxSize with 67108864 in Hf; unfold len in *; lia).
  destruct (Z.ltb_spec (cap b) (len b + zlen bs)).
  - unfold grow_reallocate.
    destruct (grow_size_ok 32 6 (len b + zlen bs)) as (j & Hj & Hr & Hl); [lia|done|lia|].
    change (2 ^ 6) with 64 in Hj. rewrite Hj. cbn [bind].
    assert (2 ^ j <= BufferMaxSize) by (change BufferMaxSize with (2 ^ 26); apply Z.pow_le_mono_r; lia).
    destruct (Z.ltb_spec BufferMaxSize (2 ^ j)); [lia|]. cbn [bind].
    eexists. split; [done|]. split; [done|]. unfold len in *. simpl. rewrite zlen_app. lia.
  - cbn [bind]. eexists. split; [done|]. split; [done|].
    unfold len in *. simpl. rewrite zlen_app. lia.
Qed.

(** What was not past the limit stays within it: past it the append throws. *)
Lemma grow_size_big fuel : forall a newLen,
  0 < a -> a <= BufferMaxSize -> BufferMaxSize < newLen -> 2 ^ 31 <= a * 2 ^ Z.of_nat fuel ->
  match grow_size fuel a newLen with Ok x => BufferMaxSize < x | Err e => e <> OutOfFuel end.
Proof.
  assert (forall fuel a newLen, 0 < a -> a < 2 ^ 31 -> BufferMaxSize < newLen ->
    2 ^ 31 <= a * 2 ^ Z.of_nat fuel ->
    match grow_size fuel a newLen with Ok x => BufferMaxSize < x | Err e => e <> OutOfFuel end)
    as H; [|intros; apply H; try done; change BufferMaxSize with (2 ^ 26) in *; lia].
  clear. intros fuel. induction fuel as [|fuel IH]; intros a newLen Ha Hm Hn Hp.
  - simpl in Hp. lia.
  - cbn [grow_size]. destruct (Z.ltb_spec a newLen); [|lia].
    destruct (in_s 32 (a * 2)) eqn:E; [|done]. apply in_s_spec in E.
    change (2 ^ (32 - 1)) with (2 ^ 31) in E.
    apply IH; [lia|lia|done|].
    rewrite Nat2Z.inj_succ, Z.pow_succ_r in Hp by lia. lia.
Qed.

(** [m] appends [bs] when they fit. *)
Definition writes (m : BufBuilder -> result BufBuilder) (bs : list byte) : Prop :=
  forall b, buf_ok b -> fits b (zlen bs) ->
  exists b', m b = Ok b' /\ buf b' = buf b ++ bs /\ buf_ok b'.

Lemma writes_append bs : writes (bb_append bs) bs.
Proof. intros b. apply bb_append_ok. Qed.

Lemma writes_seq m k a c : writes m a -> writes k c -> writes (m ;> k) (a ++ c).
Proof.
  intros Hm Hk b Hb Hf. unfold fits in Hf. rewrite zlen_app in Hf.
  pose proof (zlen_nonneg a). pose proof (zlen_nonneg c).
  destruct (Hm b Hb) as (b1 & H1 & E1 & Hb1); [unfold fits; lia|]. unfold seq_w.
  rewrite H1. cbn [bind].
  destruct (Hk b1 Hb1) as (b2 & H2 & E2 & Hb2).
  { unfold fits, len in *. rewrite E1, zlen_app. lia. }
  exists b2. split; [done|]. split; [|done]. by rewrite E2, E1, app_assoc.
Qed.

Lemma writes_eq m a c : writes m a -> a = c -> writes m c.
Proof. by intros ? <-. Qed.

Lemma writes_buf p n bs : loads p n = Ok bs -> writes (appendBuf p n) bs.
Proof. intros Hp b Hb Hf. unfold appendBuf. rewrite Hp. cbn [bind]. by apply bb_append_ok. Qed.

Lemma writes_header t name : writes (header t name) (type_byte t :: name ++ [x00]).
Proof.
  eapply writes_eq; [apply writes_seq; apply writes_append|]. done.
Qed.

(** Prove [writes] of a chain of appends, up to the shape of the bytes. *)
Create HintDb writes.
#[export] Hint Resolve writes_append writes_header writes_buf writes_seq : writes.
Ltac writes_chain :=
  eapply writes_eq;
  [ repeat (apply writes_seq; [solve [eauto with writes]|]); solve [eauto with writes]
  | unfold enc_elem, enc_value, enc_string; cbn [fst snd vtype enc_value app];
    rewrite <- ?app_comm_cons, <- ?app_assoc; cbn [app];
    rewrite ?app_nil_r; try reflexivity ].

(** ** Builders that hold a document *)

(** The builder has written the fields [d] after [pre] and the four bytes left
    for the size. *)
Definition b_rep (b : BSONObjBuilder) (pre : list byte) (d : doc) : Prop :=
  exists ph, buf (_b b) = pre ++ ph ++ enc_elems d /\ zlen ph = 4 /\
    _offset b = zlen pre /\ _doneCalled b = false /\ buf_ok (_b b).

(** A builder operation that appends the field [f]. *)
Definition appends (m : BSONObjBuilder -> result BSONObjBuilder) (f : field) : Prop :=
  forall b pre d, b_rep b pre d -> fits (_b b) (zlen (enc_elem f)) ->
  exists b', m b = Ok b' /\ b_rep b' pre (d ++ [f]) /\ owned b' = owned b.

Lemma on_b_appends m f : writes m (enc_elem f) -> appends (on_b m) f.
Proof.
  intros Hm b pre d (ph & E & Hp & Ho & Hd & Hok) Hf.
  destruct (Hm (_b b) Hok Hf) as (x & Hx & Ex & Hxok). unfold on_b. rewrite Hx. cbn [bind].
  eexists. split; [reflexivity|]. split; [|done]. exists ph. simpl.
  split; [|by repeat split]. rewrite Ex, E, enc_elems_app, <- !app_assoc.
  unfold enc_elems. simpl. by rewrite app_nil_r.
Qed.

Lemma append_bool_rep name v : appends (append_bool name v) (name, VBool v).
Proof. apply on_b_appends. writes_chain. Qed.
Lemma appendBool_rep name v : appends (appendBool name v) (name, VBool (negb (v =? 0))).
Proof. apply on_b_appends. writes_chain. by destruct (v =? 0). Qed.
Lemma append_int_rep name n : appends (append_int name n) (name, VInt n).
Proof. apply on_b_appends. writes_chain. Qed.
Lemma append_longlong_rep name n : appends (append_longlong name n) (name, VLong n).
Proof. apply on_b_appends. writes_chain. Qed.
Lemma append_double_rep name n : appends (append_double name n) (name, VDouble n).
Proof. apply on_b_appends. writes_chain. Qed.
Lemma appendDate_rep name n : appends (appendDate name n) (name, VDate n).
Proof. apply on_b_appends. writes_chain. Qed.
Lemma appendTimestamp_rep name n : appends (appendTimestamp name n) (name, VTimestamp n).
Proof. apply on_b_appends. writes_chain. Qed.
Lemma appendNull_rep name : appends (appendNull name) (name, VNull).
Proof. apply on_b_appends. writes_chain. Qed.
Lemma appendUndefined_rep name : appends (appendUndefined name) (name, VUndefined).
Proof. apply on_b_appends. writes_chain. Qed.
Lemma appendMinKey_rep name : appends (appendMinKey name) (name, VMinKey).
Proof. apply on_b_appends. writes_chain. Qed.
Lemma appendMaxKey_rep name : appends (appendMaxKey name) (name, VMaxKey).
Proof. apply on_b_appends. writes_chain. Qed.
Lemma appendRegex_rep name p o : appends (appendRegex name p o) (name, VRegEx p o).
Proof. apply on_b_appends. writes_chain. Qed.
Lemma append_StringData_rep name s : appends (append_StringData name s) (name, VString s).
Proof. apply on_b_appends. writes_chain. Qed.
Lemma appendSymbol_rep name s : appends (appendSymbol name s) (name, VSymbol s).
Proof. apply on_b_appends. writes_chain. Qed.
Lemma appendCode_rep name s : appends (appendCode name s) (name, VCode s).
Proof. apply on_b_appends. writes_chain. Qed.

(** Appends that read the bytes they copy. *)

Lemma points_buf p bs n : p ↦ bs -> n = zlen bs -> loads p n = Ok bs.
Proof. apply points_loads_all. Qed.
#[export] Hint Resolve points_buf points_start : writes.

Lemma append_strsz_rep name p s : p ↦ s ++ [x00] ->
  appends (append_strsz name p (zlen s + 1)) (name, VString s).
Proof.
  intros Hp. apply on_b_appends.
  assert (loads p (zlen s + 1) = Ok (s ++ [x00])).
  { apply points_loads_all; [done|]. by rewrite zlen_app. }
  writes_chain.
Qed.

Lemma append_string_rep name s : appends (append_string name s) (name, VString s).
Proof. apply append_strsz_rep, points_start. Qed.

Lemma append_cstr_rep name p s r : p ↦ s ++ x00 :: r -> no_nul s = true ->
  appends (append_cstr name p) (name, VString s).
Proof.
  intros Hp Hs b pre d Hb Hf. unfold append_cstr.
  rewrite (points_strlen _ _ _ Hp Hs). cbn [bind].
  apply append_strsz_rep; [|done|done]. apply (points_app_l _ _ r). by rewrite <- app_assoc.
Qed.

Lemma append_OID_rep name o : zlen o = 12 -> appends (append_OID name o) (name, VOID o).
Proof.
  intros Ho. apply on_b_appends.
  assert (loads (Ptr o 0) 12 = Ok o) by (by apply points_loads_all; [apply points_start|]).
  writes_chain.
Qed.

Lemma appendDBRef_rep name ns o : zlen o = 12 ->
  appends (appendDBRef name ns o) (name, VDBRef ns o).
Proof.
  intros Ho. apply on_b_appends.
  assert (loads (Ptr o 0) 12 = Ok o) by (by apply points_loads_all; [apply points_start|]).
  writes_chain.
Qed.

Lemma appendBinData_rep name u p x : p ↦ x ->
  appends (appendBinData name (zlen x) u p) (name, VBinData u x).
Proof.
  intros Hp. apply on_b_appends.
  assert (loads p (zlen x) = Ok x) by (by apply points_loads_all).
  writes_chain.
Qed.

Lemma append_obj_rep name o d : obj_rep o d -> appends (append_obj name o) (name, VObject d).
Proof.
  intros Ho b pre d' Hb Hf. unfold append_obj. rewrite (objsize_rep _ _ Ho). cbn [bind].
  apply (on_b_appends _ (name, VObject d)); [|done|done].
  assert (loads o (zlen (enc_doc d)) = Ok (enc_doc d)) by (apply points_loads_all; [apply Ho|done]).
  writes_chain.
Qed.

Lemma appendArray_rep name o d : obj_rep o d -> appends (appendArray name o) (name, VArray d).
Proof.
  intros Ho b pre d' Hb Hf. unfold appendArray. rewrite (objsize_rep _ _ Ho). cbn [bind].
  apply (on_b_appends _ (name, VArray d)); [|done|done].
  assert (loads o (zlen (enc_doc d)) = Ok (enc_doc d)) by (apply points_loads_all; [apply Ho|done]).
  writes_chain.
Qed.

Lemma appendCodeWScope_rep name c o d : obj_rep o d ->
  appends (appendCodeWScope name c o) (name, VCodeWScope c d).
Proof.
  intros Ho b pre d' Hb Hf. unfold appendCodeWScope. rewrite (objsize_rep _ _ Ho). cbn [bind].
  apply (on_b_appends _ (name, VCodeWScope c d)); [|done|done].
  assert (loads o (zlen (enc_doc d)) = Ok (enc_doc d)) by (apply points_loads_all; [apply Ho|done]).
  eapply writes_eq; [repeat (apply writes_seq; [solve [eauto with writes]|]); eauto with writes|].
  unfold enc_elem. cbn [fst snd vtype]. rewrite enc_value_code. unfold enc_string at 1 2.
  rewrite !zlen_app, zlen_le_bytes. change (zlen [x00]) with 1.
  replace (Z.of_nat 4 + (zlen c + 1) + zlen (enc_doc d) + 4)
    with (4 + 4 + zlen c + 1 + zlen (enc_doc d)) by lia.
  rewrite <- ?app_comm_cons, <- ?app_assoc. reflexivity.
Qed.

Lemma append_elem_rep e n v : elem_ok e n v -> appends (append_elem e) (n, v).
Proof.
  intros Hok b pre d Hb Hf. unfold append_elem. rewrite (eoo_rep_false _ _ _ Hok). cbn [bind verify negb].
  rewrite (size_rep _ _ _ Hok). cbn [bind].
  apply (on_b_appends _ (n, v)); [|done|done]. apply writes_buf, points_loads_all; [apply Hok|done].
Qed.

(** [appendAs] copies the value under another name. *)
Lemma appendAs_rep e n v name : elem_ok e n v -> appends (appendAs e name) (name, v).
Proof.
  intros Hok b pre d Hb Hf. unfold appendAs. rewrite (eoo_rep_false _ _ _ Hok). cbn [bind verify negb].
  rewrite (type_rep _ _ _ Hok). cbn [bind]. rewrite (value_ptr_rep _ _ _ Hok). cbn [bind].
  rewrite (valuesize_rep _ _ _ Hok). cbn [bind].
  apply (on_b_appends _ (name, v)); [|done|done].
  eapply writes_eq; [apply writes_seq; [apply writes_header|]|].
  - apply writes_buf, points_loads_all; [apply (value_points _ _ _ Hok)|done].
  - unfold enc_elem. cbn [fst snd]. by rewrite <- app_comm_cons, <- app_assoc.
Qed.

(** A 64-bit number is stored so that it reads back, as an int when it is
    small; the least one is not covered: its absolute value overflows. *)
Definition int_or_ll (n : Z) : value := if Z.abs n <? INT_MAX / 2 then VInt n else VLong n.

Lemma ll_abs_spec n : - 2 ^ 63 < n < 2 ^ 63 -> ll_abs n = Ok (Z.abs n).
Proof.
  intros Hn. unfold ll_abs. replace (if n <? 0 then - n else n) with (Z.abs n)
    by (destruct (Z.ltb_spec n 0); lia).
  replace (in_s 64 (Z.abs n)) with true; [done|].
  symmetry. apply in_s_spec. change (2 ^ (64 - 1)) with (2 ^ 63). lia.
Qed.

Lemma appendIntOrLL_rep name n : - 2 ^ 63 < n < 2 ^ 63 ->
  appends (appendIntOrLL name n) (name, int_or_ll n).
Proof.
  intros Hn b pre d Hb Hf. unfold appendIntOrLL, int_or_ll in *. rewrite ll_abs_spec by done.
  cbn [bind]. destruct (Z.ltb_spec (Z.abs n) (INT_MAX / 2)) as [Hs|Hs].
  - rewrite wrap_s_small.
    + by apply append_int_rep.
    + lia.
    + change (INT_MAX / 2) with 1073741823 in Hs. change (2 ^ (32 - 1)) with 2147483648. lia.
  - by apply append_longlong_rep.
Qed.

(** ** The finished object *)

Lemma patch_app pre ph rest_ bs : length ph = length bs ->
  patch (pre ++ ph ++ rest_) (zlen pre) bs = pre ++ bs ++ rest_.
Proof.
  intros Hl. unfold patch. rewrite zlen_nat, take_app_length. do 2 f_equal.
  rewrite <- drop_drop, drop_app_length, <- Hl. apply drop_app_length.
Qed.

Lemma _done_rep b pre d : b_rep b pre d -> fits (_b b) 1 ->
  exists b', _done b = Ok b' /\ buf (_b b') = pre ++ enc_doc d /\ _offset b' = zlen pre /\
    owned b' = owned b /\ _doneCalled b' = true /\ buf_ok (_b b').
Proof.
  intros (ph & E & Hp & Ho & Hd & Hok) Hf. unfold _done. rewrite Hd.
  destruct (bb_append_ok [x00] (_b b) Hok Hf) as (x & Hx & Ex & Hxok).
  unfold appendNum_char. rewrite Hx. cbn [bind]. eexists. split; [reflexivity|].
  cbn [_b buf _offset owned _doneCalled]. rewrite E, <- app_assoc in Ex.
  unfold len. rewrite Ex, Ho, <- app_assoc, !zlen_app, Hp. change (zlen [x00]) with 1.
  assert (forall z, patch (pre ++ ph ++ enc_elems d ++ [x00]) (zlen pre) (le32 z)
    = pre ++ le32 z ++ enc_elems d ++ [x00]) as Hpatch.
  { intros z. apply patch_app. rewrite length_le_bytes. unfold zlen in Hp. lia. }
  rewrite Hpatch. split.
  - unfold enc_doc, enc_frame.
    by replace (zlen pre + (4 + (zlen (enc_elems d) + 1)) - zlen pre)
      with (zlen (enc_elems d) + 5) by lia.
  - split; [done|]. split; [done|]. split; [done|]. unfold buf_ok, len in *. cbn [buf cap].
    rewrite Ex in Hxok. rewrite !zlen_app, zlen_le_bytes in *. lia.
Qed.

Lemma obj_at pre d : wf_doc d = true -> obj_rep (Ptr (pre ++ enc_doc d) (zlen pre)) d.
Proof.
  intros Hw. split; [|done]. pose proof (points_start (pre ++ enc_doc d)) as Hp.
  apply (points_app_r _ _ _ (zlen pre)) in Hp; [|done]. exact Hp.
Qed.

Lemma obj_done b pre d : b_rep b pre d -> fits (_b b) 1 -> wf_doc d = true -> owned b = true ->
  exists o, obj b = Ok o /\ obj_rep o d.
Proof.
  intros Hb Hf Hw Ho. destruct (_done_rep b pre d Hb Hf) as (b' & Hd & Eb & Eo & _).
  unfold obj. rewrite Ho. cbn [massert bind]. rewrite Hd. cbn [bind]. unfold objdata.
  rewrite Eb, Eo. pose proof (obj_at pre d Hw) as Hr.
  exists (Ptr (pre ++ enc_doc d) (zlen pre)). split; [by apply (BSONObj_init_rep _ d)|done].
Qed.

Lemma new_rep initsize : 4 <= initsize <= BSONObjMaxInternalSize -> exists b,
  BSONObjBuilder_new initsize = Ok b /\ b_rep b (le32 0) [] /\ owned b = true /\ len (_b b) = 8.
Proof.
  intros Hi. unfold BSONObjBuilder_new.
  destruct (writes_seq _ _ _ _ (writes_append (le32 0)) (writes_append (repeat x00 4))
    (BufBuilder_new (initsize + 4))) as (x & Hx & Ex & Hok).
  - unfold buf_ok, len. cbn. change (zlen (@nil byte)) with 0. lia.
  - unfold fits, len. cbn. by vm_compute.
  - unfold appendNum_unsigned, skip. change (Z.to_nat 4) with 4%nat. rewrite Hx. cbn [bind].
    eexists. split; [reflexivity|]. split; [|split; [done|]].
    + exists (repeat x00 4). cbn [_b _offset _doneCalled]. by rewrite Ex.
    + unfold len. cbn [_b]. by rewrite Ex.
Qed.

(** ** Sub-builders *)

(** The type byte and name of a field, as bytes. *)
Definition enc_header (t : BSONType) (name : list byte) : list byte :=
  type_byte t :: name ++ [x00].

(** A builder that is [b] with the header of a sub-document written. *)
Definition opened (b b' : BSONObjBuilder) (h : list byte) : Prop :=
  buf (_b b') = buf (_b b) ++ h /\ _offset b' = _offset b /\ owned b' = owned b /\
  _doneCalled b' = _doneCalled b.

Lemma sub_start_rep t name b pre d :
  b_rep b pre d -> fits (_b b) (zlen name + 6) ->
  exists b' sub, on_b (header t name) b = Ok b' /\ BSONObjBuilder_on (_b b') = Ok sub /\
    opened b b' (enc_header t name) /\
    b_rep sub (buf (_b b) ++ enc_header t name) [] /\ owned sub = false.
Proof.
  intros (ph & E & Hp & Ho & Hd & Hok) Hf. unfold fits in Hf.
  assert (zlen (enc_header t name) = zlen name + 2) as Hz
    by (unfold enc_header; rewrite zlen_cons, zlen_app; change (zlen [x00]) with 1; lia).
  destruct (writes_header t name (_b b) Hok) as (x & Hx & Ex & Hxok).
  { unfold fits. fold (enc_header t name). lia. }
  fold (enc_header t name) in Ex.
  destruct (bb_append_ok (repeat x00 4) x Hxok) as (y & Hy & Ey & Hyok).
  { unfold fits, len in *. rewrite Ex, zlen_app. change (zlen (repeat x00 4)) with 4. lia. }
  unfold on_b. rewrite Hx. cbn [bind]. eexists _, _. split; [reflexivity|].
  unfold BSONObjBuilder_on, skip. cbn [set_b _b]. change (Z.to_nat 4) with 4%nat.
  rewrite Hy. cbn [bind]. split; [reflexivity|]. split; [by repeat split|]. split; [|done].
  exists (repeat x00 4). cbn [_b _offset _doneCalled]. rewrite Ey, Ex.
  unfold enc_elems. simpl flat_map. rewrite app_nil_r.
  repeat split; [|done]. unfold len. by rewrite Ex.
Qed.

Lemma sub_done_rep v t name b b' sub pre d d' :
  b_rep b pre d -> opened b b' (enc_header t name) ->
  b_rep sub (buf (_b b) ++ enc_header t name) d' -> fits (_b sub) 1 ->
  vtype v = t -> enc_value v = enc_doc d' ->
  exists b'', sub_done b' sub = Ok b'' /\ b_rep b'' pre (d ++ [(name, v)]) /\
    owned b'' = owned b /\ len (_b b'') = len (_b sub) + 1.
Proof.
  intros (ph & E & Hp & Ho & Hd & Hok) (Eb & Eo & Ew & Ed) Hs Hf Ht Hv.
  destruct (_done_rep _ _ _ Hs Hf) as (s & Hs' & Es & _ & _ & _ & Hsok).
  unfold sub_done. rewrite Hs'. cbn [bind]. eexists. split; [reflexivity|].
  split; [|split; [done|]].
  - exists ph. cbn [set_b _b _offset _doneCalled]. rewrite Es, E, <- !app_assoc, enc_elems_app.
    split; [|by rewrite Eo, Ed; repeat split].
    do 3 f_equal. unfold enc_elems. cbn [flat_map]. rewrite app_nil_r. unfold enc_elem, enc_header.
    cbn [fst snd]. rewrite Ht, Hv. by rewrite <- app_comm_cons, <- app_assoc.
  - destruct Hs as (ph' & Es' & Hp' & _). unfold len. cbn [set_b _b]. rewrite Es, Es'.
    rewrite !zlen_app, zlen_enc_doc, Hp'. lia.
Qed.
