(* ===== verification/FailPoint.v ===== *)
(** * FailPoint: fault injection points shared by threads
    (util/fail_point.h, util/fail_point.cpp)

    A fail point is a word with an active bit and a count of the threads that
    are inside, the settings those threads read, and a mutex for the threads
    that change the settings.  Each function of the code is a sequence of
    atomic actions here, so that the actions of all threads interleave (Pool.v).
    The theorems are the two invariants the header file promises and what the
    mode [nTimes] does. *)

From stdpp Require Import base list numbers strings option relations tactics.
From Stdlib Require Import ZArith Lia.
From S2P Require Import Prelude Memory BsonTypes Format Element Obj Builder Pool.

(** ** The state *)

Inductive Mode := off | alwaysOn | random | nTimes | numModes.
Inductive RetCode := fastOff | slowOff | slowOn.

Definition mode_value (m : Mode) : Z :=
  match m with off => 0 | alwaysOn => 1 | random => 2 | nTimes => 3 | numModes => 4 end.

#[global] Instance RetCode_eq_dec : EqDecision RetCode.
Proof. solve_decision. Defined.

#[global] Instance Mode_eq_dec : EqDecision Mode.
Proof. solve_decision. Defined.

(** [1 << 31] as an unsigned number, and its complement. *)
Definition ACTIVE_BIT : Z := u32 (s32 (2 ^ 31)).
Definition REF_COUNTER_MASK : Z := Z.lxor ACTIVE_BIT (2 ^ 32 - 1).

Record FailPoint := MkFailPoint {
  _fpInfo : Z;
  _mode : Mode;
  _timesOrPeriod : Z;
  _data : BSONObj;
  _modMutex : bool
}.

Definition FailPoint_new : FailPoint := MkFailPoint 0 off 0 BSONObj_empty false.

Definition set_fpInfo (f : FailPoint) (v : Z) : FailPoint :=
  MkFailPoint v (_mode f) (_timesOrPeriod f) (_data f) (_modMutex f).
Definition set_mode (f : FailPoint) (m : Mode) : FailPoint :=
  MkFailPoint (_fpInfo f) m (_timesOrPeriod f) (_data f) (_modMutex f).
Definition set_timesOrPeriod (f : FailPoint) (v : Z) : FailPoint :=
  MkFailPoint (_fpInfo f) (_mode f) v (_data f) (_modMutex f).
Definition set_data (f : FailPoint) (d : BSONObj) : FailPoint :=
  MkFailPoint (_fpInfo f) (_mode f) (_timesOrPeriod f) d (_modMutex f).
Definition set_modMutex (f : FailPoint) (b : bool) : FailPoint :=
  MkFailPoint (_fpInfo f) (_mode f) (_timesOrPeriod f) (_data f) b.

(** ** What a thread is at *)

(** The loops of [enableFailPoint] and [disableFailPoint]: before the first
    load, or about to swap with an expected value. *)
Inductive cas_loop := CasLoad | CasSwap (expectedCurrentVal : Z).

Record SetArgs := MkArgs { arg_mode : Mode; arg_val : Z; arg_extra : BSONObj }.

(** What the last call of a thread outside the fail point gave. *)
Inductive outcome :=
  | NoCall
  | OpenedFastOff
  | Closed
  | SetReturned
  | SetThrew (code : Z)
  | GotBSON (mode : Mode) (data : BSONObj).

Inductive pc :=
  | Idle (last : outcome)
  (* shouldFailOpenBlock has seen the active bit *)
  | OpenAdd
  | OpenMode
  | OpenTimes
  | OpenDisable (d : cas_loop)
  (* between shouldFailOpenBlock and shouldFailCloseBlock *)
  | InBlock (ret : RetCode) (seen : option BSONObj)
  | SetLock (a : SetArgs)
  | SetDisable (a : SetArgs) (d : cas_loop)
  | SetWait (a : SetArgs)
  | SetCheck (a : SetArgs)
  | SetMode (a : SetArgs)
  | SetTimes (a : SetArgs)
  | SetData (a : SetArgs)
  | SetEnable (a : SetArgs) (d : cas_loop)
  | SetUnlock (o : outcome)
  | BsonLock
  | BsonMode
  | BsonData (m : Mode)
  | BsonUnlock (m : Mode) (d : BSONObj)
  (* fassertFailed *)
  | Aborted (code : Z).

(** ** The functions *)

(** One turn of the loop around [compareAndSwap]; [None] when it is left. *)
Definition cas_step (newVal : Z -> Z) (d : cas_loop) (info : Z) : Z * option cas_loop :=
  match d with
  | CasLoad => (info, Some (CasSwap info))
  | CasSwap expected =>
      let '(current, info') := compareAndSwap info expected (newVal expected) in
      (info', if expected =? current then None else Some (CasSwap current))
  end.

Definition enableFailPoint : cas_loop -> Z -> Z * option cas_loop :=
  cas_step (fun v => Z.lor v ACTIVE_BIT).

Definition disableFailPoint : cas_loop -> Z -> Z * option cas_loop :=
  cas_step (fun v => Z.land v REF_COUNTER_MASK).

Definition slowShouldFailOpenBlock (f : FailPoint) (p : pc) : option (FailPoint * pc) :=
  match p with
  | OpenAdd =>
      let '(localFpInfo, info) := addAndFetch u32 (_fpInfo f) 1 in
      Some (set_fpInfo f info,
            if Z.land localFpInfo ACTIVE_BIT =? 0 then InBlock slowOff None else OpenMode)
  | OpenMode =>
      Some (f, match _mode f with
               | alwaysOn => InBlock slowOn None
               | random => Aborted 16443
               | nTimes => OpenTimes
               | _ => Aborted 16444
               end)
  | OpenTimes =>
      let '(newVal, t) := subtractAndFetch s32 (_timesOrPeriod f) 1 in
      Some (set_timesOrPeriod f t, if newVal <=? 0 then OpenDisable CasLoad else InBlock slowOn None)
  | OpenDisable d =>
      let '(info, d') := disableFailPoint d (_fpInfo f) in
      Some (set_fpInfo f info,
            match d' with Some d' => OpenDisable d' | None => InBlock slowOn None end)
  | _ => None
  end.

Definition shouldFailOpenBlock (f : FailPoint) : FailPoint * pc :=
  (f, if Z.land (_fpInfo f) ACTIVE_BIT =? 0 then Idle OpenedFastOff else OpenAdd).

Definition shouldFailCloseBlock (f : FailPoint) : FailPoint * pc :=
  (set_fpInfo f (snd (subtractAndFetch u32 (_fpInfo f) 1)), Idle Closed).

(** [scoped_lock]: blocked while another thread has the mutex. *)
Definition lock (f : FailPoint) (p : pc) : option (FailPoint * pc) :=
  if _modMutex f then None else Some (set_modMutex f true, p).

Definition setMode_step (f : FailPoint) (p : pc) : option (FailPoint * pc) :=
  match p with
  | SetLock a => lock f (SetDisable a CasLoad)
  | SetDisable a d =>
      let '(info, d') := disableFailPoint d (_fpInfo f) in
      Some (set_fpInfo f info, match d' with Some d' => SetDisable a d' | None => SetWait a end)
  | SetWait a => Some (f, if _fpInfo f =? 0 then SetCheck a else SetWait a)
  | SetCheck a =>
      Some (f, if mode_value (arg_mode a) <? mode_value numModes then SetMode a
               else SetUnlock (SetThrew 16442))
  | SetMode a => Some (set_mode f (arg_mode a), SetTimes a)
  | SetTimes a => Some (set_timesOrPeriod f (s32 (arg_val a)), SetData a)
  | SetData a =>
      Some (set_data f (arg_extra a),
            if decide (arg_mode a = off) then SetUnlock SetReturned else SetEnable a CasLoad)
  | SetEnable a d =>
      let '(info, d') := enableFailPoint d (_fpInfo f) in
      Some (set_fpInfo f info,
            match d' with Some d' => SetEnable a d' | None => SetUnlock SetReturned end)
  | SetUnlock o => Some (set_modMutex f false, Idle o)
  | _ => None
  end.

Definition toBSON_step (f : FailPoint) (p : pc) : option (FailPoint * pc) :=
  match p with
  | BsonLock => lock f BsonMode
  | BsonMode => Some (f, BsonData (_mode f))
  | BsonData m => Some (f, BsonUnlock m (_data f))
  | BsonUnlock m d => Some (set_modMutex f false, Idle (GotBSON m d))
  | _ => None
  end.

(** The object [toBSON] builds of what it has read. *)
Definition toBSON_obj (m : Mode) (d : BSONObj) : result BSONObj :=
  let* b := BSONObjBuilder_new 512 in
  let* b := append_int (bstr "mode") (mode_value m) b in
  let* b := append_obj (bstr "data") d b in
  obj b.

(** What a thread with a choice calls. *)
Inductive call :=
  | Open
  | Close
  | GetData
  | CallSetMode (a : SetArgs)
  | CallToBSON.

(** One action of a thread.  [GetData] is [ScopedFailPoint::getData], called
    in the body of MONGO_FAIL_POINT_BLOCK, where [isActive] has been true. *)
Definition exec (c : call) (f : FailPoint) (p : pc) : option (FailPoint * pc) :=
  match p with
  | Idle _ =>
      match c with
      | Open => Some (shouldFailOpenBlock f)
      | CallSetMode a => Some (f, SetLock a)
      | CallToBSON => Some (f, BsonLock)
      | _ => None
      end
  | InBlock ret seen =>
      match c, ret with
      | Close, _ => Some (shouldFailCloseBlock f)
      | GetData, slowOn => Some (f, InBlock ret (Some (_data f)))
      | _, _ => None
      end
  | OpenAdd | OpenMode | OpenTimes | OpenDisable _ => slowShouldFailOpenBlock f p
  | BsonLock | BsonMode | BsonData _ | BsonUnlock _ _ => toBSON_step f p
  | Aborted _ => None
  | _ => setMode_step f p
  end.

Definition threads : Type := world FailPoint pc.

(** A new fail point and [n] threads that have called nothing. *)
Definition start (n : nat) : threads := World FailPoint_new (replicate n (Idle NoCall)).

Definition reachable (n : nat) (w : threads) : Prop := rtc (pool_step exec) (start n) w.

(** ** What the threads hold *)

(** Counted in [_fpInfo]. *)
Definition holds (p : pc) : bool :=
  match p with
  | OpenMode | OpenTimes | OpenDisable _ | InBlock _ _ | Aborted _ => true
  | _ => false
  end.

(** Inside, having seen the active bit: what [_mode] and [_data] are read by. *)
Definition reading (p : pc) : bool :=
  match p with
  | OpenMode | OpenTimes | OpenDisable _ | InBlock slowOn _ | Aborted _ => true
  | _ => false
  end.

(** In the mutex. *)
Definition locked (p : pc) : bool :=
  match p with
  | SetDisable _ _ | SetWait _ | SetCheck _ | SetMode _ | SetTimes _ | SetData _
  | SetEnable _ _ | SetUnlock _ | BsonMode | BsonData _ | BsonUnlock _ _ => true
  | _ => false
  end.

(** Past the wait of [setMode], to where the fail point is enabled. *)
Definition writing (p : pc) : bool :=
  match p with
  | SetCheck _ | SetMode _ | SetTimes _ | SetData _ | SetEnable _ _ => true
  | _ => false
  end.

(** Past the deactivation. *)
Definition deactivated (p : pc) : bool :=
  match p with SetWait _ => true | _ => writing p end.

Definition is_active (f : FailPoint) : bool := Z.testbit (_fpInfo f) 31.

(** ** Words with an active bit *)

Definition word (b : bool) (refs : Z) : Z := Z.b2z b * 2 ^ 31 + refs.

Lemma ACTIVE_BIT_val : ACTIVE_BIT = 2 ^ 31.
Proof. reflexivity. Qed.

Lemma MASK_val : REF_COUNTER_MASK = Z.ones 31.
Proof. reflexivity. Qed.

Section word.
Context (b : bool) (r : Z) (Hr : 0 <= r < 2 ^ 31).

Lemma word_bit i : 0 <= i ->
  Z.testbit (word b r) i = if i <? 31 then Z.testbit r i else (i =? 31) && b.
Proof.
  intros Hi. unfold word. destruct (Z.ltb_spec i 31) as [Hlt|Hge].
  - rewrite <- (Z.mod_pow2_bits_low _ 31) by lia.
    by rewrite Z.add_comm, Z_mod_plus_full, Z.mod_small by lia.
  - destruct (Z.eqb_spec i 31) as [->|Hne].
    + rewrite Z.testbit_eqb, Z.add_comm, Z.div_add, Z.div_small by lia. by destruct b.
    + rewrite <- (Z.mod_small (_ + r) (2 ^ 32)) by (destruct b; simpl; lia).
      by apply Z.mod_pow2_bits_high; lia.
Qed.

Lemma word_land : Z.land (word b r) REF_COUNTER_MASK = r.
Proof.
  rewrite MASK_val, Z.land_ones by lia. unfold word. rewrite Z.add_comm, Z_mod_plus_full.
  apply Z.mod_small. lia.
Qed.

Lemma word_active : Z.testbit (word b r) 31 = b.
Proof. by rewrite word_bit. Qed.

Lemma word_and_active : Z.land (word b r) ACTIVE_BIT = Z.b2z b * 2 ^ 31.
Proof.
  apply Z.bits_inj'. intros i Hi. rewrite Z.land_spec, ACTIVE_BIT_val, Z.pow2_bits_eqb by lia.
  destruct (Z.eqb_spec 31 i) as [<-|Hne].
  - rewrite word_active. by destruct b.
  - rewrite andb_false_r. destruct b; simpl Z.b2z; [|by rewrite Z.mul_0_l, Z.bits_0].
    rewrite Z.mul_1_l, Z.pow2_bits_eqb by lia. symmetry. by apply Z.eqb_neq.
Qed.
End word.

Lemma word_or_active b r : 0 <= r < 2 ^ 31 -> Z.lor (word b r) ACTIVE_BIT = word true r.
Proof.
  intros Hr. apply Z.bits_inj'. intros i Hi.
  rewrite Z.lor_spec, ACTIVE_BIT_val, Z.pow2_bits_eqb, !word_bit by lia.
  destruct (Z.ltb_spec i 31), (Z.eqb_spec 31 i), (Z.eqb_spec i 31); try lia;
    by rewrite ?orb_false_r, ?orb_true_r.
Qed.

(** ** The invariant *)

(** The modes an enabled fail point has. *)
Definition enabled_mode (m : Mode) : bool :=
  match m with alwaysOn | random | nTimes => true | _ => false end.

(** What a thread knows of the mode. *)
Definition knows (m : Mode) (p : pc) : Prop :=
  match p with
  | SetMode a => arg_mode a <> numModes
  | SetTimes a | SetData a => m = arg_mode a /\ arg_mode a <> numModes
  | SetEnable a _ => m = arg_mode a /\ enabled_mode m = true
  | Aborted c => c = 16443
  | _ => True
  end.

Record fp_inv (w : threads) : Prop := {
  inv_word : exists b, _fpInfo (shared w) = word b (count holds (agents w))
    /\ (b = true \/ 0 < count reading (agents w) -> enabled_mode (_mode (shared w)) = true)
    /\ (0 < count deactivated (agents w) -> b = false);
  inv_mutex : count locked (agents w) = Z.b2z (_modMutex (shared w));
  inv_writing : 0 < count writing (agents w) -> count reading (agents w) = 0;
  inv_knows : forall i p, agents w !! i = Some p -> knows (_mode (shared w)) p
}.

Lemma count_reading_holds ls : count reading ls <= count holds ls.
Proof. apply count_le. by intros []. Qed.

Lemma count_writing_deactivated ls : count writing ls <= count deactivated ls.
Proof. apply count_le. by intros []. Qed.

Lemma count_deactivated_locked ls : count deactivated ls <= count locked ls.
Proof. apply count_le. by intros []. Qed.

Lemma knows_unlocked m m' p : locked p = false -> knows m p -> knows m' p.
Proof. by destruct p. Qed.

Lemma others_unlocked w i l j p :
  fp_inv w -> agents w !! i = Some l -> locked l = true -> i <> j -> agents w !! j = Some p ->
  locked p = false.
Proof.
  intros HI Hi Hl Hij Hj. destruct (locked p) eqn:Hp; [|done].
  pose proof (count_two locked _ _ _ _ _ Hij Hi Hj Hl Hp). rewrite (inv_mutex _ HI) in H.
  destruct (_modMutex (shared w)); simpl in H; lia.
Qed.

(** How the invariant is kept when one thread moves. *)
Lemma inv_move w i l f' l' b' :
  let delta g := count g (agents w) - Z.b2z (g l) + Z.b2z (g l') in
  fp_inv w -> agents w !! i = Some l ->
  _fpInfo f' = word b' (delta holds) ->
  (b' = true \/ 0 < delta reading -> enabled_mode (_mode f') = true) ->
  (0 < delta deactivated -> b' = false) ->
  delta locked = Z.b2z (_modMutex f') ->
  (0 < delta writing -> delta reading = 0) ->
  _mode f' = _mode (shared w) \/ locked l = true ->
  knows (_mode f') l' ->
  fp_inv (World f' (<[i := l']> (agents w))).
Proof.
  intros delta HI Hl Hw Hm Hd Hk Hwr Hmode Hkn. unfold delta in *.
  constructor; simpl; rewrite ?(count_insert _ _ _ _ _ Hl); [by exists b' | done | done |].
  intros j p Hj. destruct (decide (i = j)) as [<-|Hij].
  - rewrite list_lookup_insert_eq in Hj by eauto using lookup_lt_Some. by simplify_eq.
  - rewrite list_lookup_insert_ne in Hj by done.
    destruct Hmode as [->|Hlk]; [eauto using inv_knows|].
    eapply knows_unlocked; [eauto using others_unlocked | eauto using inv_knows].
Qed.

Lemma fp_start n : fp_inv (start n).
Proof.
  constructor; simpl; rewrite ?count_replicate; simpl; rewrite ?Z.mul_0_r; try done.
  - exists false. split_and!; [done | by intros [?|?] | done].
  - intros i p [-> _]%lookup_replicate. done.
Qed.

(** Moving with the word unchanged, a reference taken or left. *)
Ltac counts w :=
  pose proof (count_range holds (agents w)); pose proof (count_range reading (agents w));
  pose proof (count_range writing (agents w)); pose proof (count_reading_holds (agents w));
  pose proof (count_writing_deactivated (agents w));
  pose proof (count_deactivated_locked (agents w)).

Ltac counted Hl :=
  match type of Hl with
  | _ !! _ = Some _ =>
      try pose proof (count_pos holds _ _ _ Hl eq_refl);
      try pose proof (count_pos reading _ _ _ Hl eq_refl);
      try pose proof (count_pos writing _ _ _ Hl eq_refl);
      try pose proof (count_pos deactivated _ _ _ Hl eq_refl);
      try pose proof (count_pos locked _ _ _ Hl eq_refl)
  end.

Ltac move_with w b Hl HI :=
  eapply (inv_move w _ _ _ _ b HI Hl); simpl; counts w; counted Hl;
  try match goal with H : count locked _ = Z.b2z ?x |- _ =>
      tryif first [constr_eq x true | constr_eq x false] then idtac else destruct x; cbn [Z.b2z] in H |- *
    end;
  try solve [lia | tauto | intuition lia
            | lazymatch goal with |- _ = word _ _ =>
                try match goal with H : _fpInfo _ = word _ _ |- _ => rewrite H end; f_equal; lia end
            | match goal with
              | H : 0 < count deactivated _ -> _ |- 0 < _ -> _ => intros; apply H; lia
              | H : _ \/ _ -> enabled_mode _ = true |- _ \/ _ -> _ =>
                  intros [?|?]; [lia || (apply H; left; congruence) | apply H; right; lia]
              end].

Lemma word_range b r : 0 <= r < 2 ^ 31 -> 0 <= word b r < 2 ^ 32.
Proof. unfold word. destruct b; simpl; lia. Qed.

Lemma word_move b r d : 0 <= r + d < 2 ^ 31 -> u32 (word b r + d) = word b (r + d).
Proof.
  intros H. unfold word. rewrite <- Z.add_assoc.
  apply wrap_u_small. apply (word_range b (r + d) H).
Qed.

Lemma active_bit_zero b : (Z.b2z b * 2 ^ 31 =? 0) = negb b.
Proof. by destruct b. Qed.

Lemma disable_cases b r d info d' :
  0 <= r < 2 ^ 31 -> disableFailPoint d (word b r) = (info, d') ->
  (info = word b r /\ exists x, d' = Some x) \/ (info = word false r /\ d' = None).
Proof.
  intros Hr. unfold disableFailPoint, cas_step, compareAndSwap.
  destruct d as [|e]; [intros [= <- <-]; eauto|].
  rewrite (Z.eqb_sym (word b r)). destruct (Z.eqb_spec e (word b r)) as [->|]; intros [= <- <-]; eauto.
  right. by rewrite word_land.
Qed.

Lemma enable_cases b r d info d' :
  0 <= r < 2 ^ 31 -> enableFailPoint d (word b r) = (info, d') ->
  (info = word b r /\ exists x, d' = Some x) \/ (info = word true r /\ d' = None).
Proof.
  intros Hr. unfold enableFailPoint, cas_step, compareAndSwap.
  destruct d as [|e]; [intros [= <- <-]; eauto|].
  rewrite (Z.eqb_sym (word b r)). destruct (Z.eqb_spec e (word b r)) as [->|]; intros [= <- <-]; eauto.
  right. by rewrite word_or_active.
Qed.

Section moves.
Context (w : threads) (i : nat).
Context (HI : fp_inv w) (Hn : zlen (agents w) < 2 ^ 31).

Lemma refs_range : 0 <= count holds (agents w) < 2 ^ 31.
Proof. pose proof (count_range holds (agents w)). lia. Qed.

Lemma refs_free p : agents w !! i = Some p -> holds p = false -> count holds (agents w) + 1 < 2 ^ 31.
Proof.
  intros Hl Hp. pose proof (count_insert holds _ _ _ BsonMode Hl) as H0.
  pose proof (count_insert holds _ _ _ OpenMode Hl) as H1. rewrite Hp in *.
  pose proof (count_range holds (<[i:=OpenMode]> (agents w))). unfold zlen in *.
  rewrite length_insert in H. simpl in *. lia.
Qed.

Lemma open_inv p f' p' :
  agents w !! i = Some p -> slowShouldFailOpenBlock (shared w) p = Some (f', p') ->
  fp_inv (World f' (<[i := p']> (agents w))).
Proof.
  intros Hl He. destruct (inv_word _ HI) as (b & Hw & Hm & Hd). pose proof (inv_mutex _ HI).
  pose proof (inv_writing _ HI). pose proof refs_range as Hr.
  destruct p; try discriminate He; unfold slowShouldFailOpenBlock in He.
  - pose proof (refs_free _ Hl eq_refl).
    rewrite addAndFetch_u32, Hw, word_move, word_and_active, active_bit_zero in He by lia.
    injection He as <- <-. destruct b; [move_with w true Hl HI | move_with w false Hl HI].
  - injection He as <- <-.
    assert (Hen : enabled_mode (_mode (shared w)) = true)
      by (apply Hm; right; exact (count_pos reading _ _ _ Hl eq_refl)).
    destruct (_mode (shared w)) eqn:E; try discriminate Hen; move_with w b Hl HI;
      by rewrite E.
  - rewrite subtractAndFetch_s32 in He. injection He as <- <-.
    destruct (_ <=? 0); move_with w b Hl HI.
  - destruct (disableFailPoint _ _) as [info d'] eqn:Ed. injection He as <- <-.
    rewrite Hw in Ed. apply disable_cases in Ed as [[-> [x ->]]|[-> ->]]; [| |done].
    + move_with w b Hl HI.
    + move_with w false Hl HI.
Qed.

Lemma close_inv ret seen :
  agents w !! i = Some (InBlock ret seen) ->
  fp_inv (World (fst (shouldFailCloseBlock (shared w)))
            (<[i := snd (shouldFailCloseBlock (shared w))]> (agents w))).
Proof.
  intros Hl. destruct (inv_word _ HI) as (b & Hw & Hm & Hd). pose proof (inv_mutex _ HI).
  pose proof (inv_writing _ HI). pose proof refs_range as Hr.
  pose proof (count_pos holds _ _ _ Hl eq_refl).
  unfold shouldFailCloseBlock. rewrite subtractAndFetch_u32, Hw. simpl.
  rewrite <- Z.add_opp_r, word_move by lia.
  destruct ret; move_with w b Hl HI.
Qed.

Lemma setMode_inv p f' p' :
  agents w !! i = Some p -> setMode_step (shared w) p = Some (f', p') ->
  fp_inv (World f' (<[i := p']> (agents w))).
Proof.
  intros Hl He. destruct (inv_word _ HI) as (b & Hw & Hm & Hd). pose proof (inv_mutex _ HI) as Hmx.
  pose proof (inv_writing _ HI). pose proof refs_range as Hr.
  pose proof (inv_knows _ HI _ _ Hl) as Hk.
  destruct p; try discriminate He; unfold setMode_step, lock in He.
  - destruct (_modMutex (shared w)); [discriminate He|]. injection He as <- <-.
    move_with w b Hl HI.
  - destruct (disableFailPoint _ _) as [info d'] eqn:Ed. injection He as <- <-.
    rewrite Hw in Ed. apply disable_cases in Ed as [[-> [x ->]]|[-> ->]]; [| |done].
    + move_with w b Hl HI.
    + move_with w false Hl HI.
  - injection He as <- <-. destruct (Z.eqb_spec (_fpInfo (shared w)) 0) as [Hz|]; [|move_with w b Hl HI].
    assert (b = false /\ count holds (agents w) = 0) as [-> Hz0]
      by (rewrite Hw in Hz; unfold word in Hz; destruct b; simpl in Hz; lia).
    move_with w false Hl HI.
  - injection He as <- <-. destruct (mode_value (arg_mode a) <? _) eqn:E; move_with w b Hl HI.
    intros E'. by rewrite E' in E.
  - injection He as <- <-. assert (b = false) as ->
      by (apply Hd; exact (count_pos deactivated _ _ _ Hl eq_refl)).
    move_with w false Hl HI. by split.
  - injection He as <- <-. move_with w b Hl HI; exact Hk.
  - injection He as <- <-. destruct Hk as [Hk1 Hk2].
    destruct (decide _) as [Hoff|Hoff]; move_with w b Hl HI.
    rewrite Hk1. by destruct (arg_mode a).
  - destruct (enableFailPoint _ _) as [info d'] eqn:Ed. injection He as <- <-.
    rewrite Hw in Ed. apply enable_cases in Ed as [[-> [x ->]]|[-> ->]]; [| |done].
    + move_with w b Hl HI; exact Hk.
    + move_with w true Hl HI; by intros _; apply Hk.
  - injection He as <- <-. move_with w b Hl HI.
Qed.

Lemma toBSON_inv p f' p' :
  agents w !! i = Some p -> toBSON_step (shared w) p = Some (f', p') ->
  fp_inv (World f' (<[i := p']> (agents w))).
Proof.
  intros Hl He. destruct (inv_word _ HI) as (b & Hw & Hm & Hd). pose proof (inv_mutex _ HI) as Hmx.
  pose proof (inv_writing _ HI).
  destruct p; try discriminate He; unfold toBSON_step, lock in He.
  - destruct (_modMutex (shared w)); [discriminate He|]. injection He as <- <-.
    move_with w b Hl HI.
  - injection He as <- <-. move_with w b Hl HI.
  - injection He as <- <-. move_with w b Hl HI.
  - injection He as <- <-. move_with w b Hl HI.
Qed.

Lemma exec_inv c p f' p' :
  agents w !! i = Some p -> exec c (shared w) p = Some (f', p') ->
  fp_inv (World f' (<[i := p']> (agents w))).
Proof.
  intros Hl He. destruct (inv_word _ HI) as (b & Hw & Hm & Hd). pose proof (inv_mutex _ HI) as Hmx.
  pose proof (inv_writing _ HI).
  destruct p; try discriminate He;
    try (eapply open_inv; [exact Hl | exact He]); try (eapply setMode_inv; [exact Hl | exact He]);
    try (eapply toBSON_inv; [exact Hl | exact He]); simpl in He.
  - destruct c; try discriminate He; injection He as <- <-;
      [destruct (_ =? 0) | |]; move_with w b Hl HI.
  - destruct c, ret; try discriminate He; 
      first [injection He as <- <-; by eapply (close_inv _ _ Hl)
            | injection He as <- <-; move_with w b Hl HI].
Qed.
End moves.

Theorem fp_reachable n w : Z.of_nat n < 2 ^ 31 -> reachable n w -> fp_inv w.
Proof.
  intros Hn Hr.
  assert (fp_inv w /\ zlen (agents w) < 2 ^ 31) as [? _]; [|done].
  apply (pool_invariant exec (fun w => fp_inv w /\ zlen (agents w) < 2 ^ 31) (start n)); [| |exact Hr].
  - split; [apply fp_start|]. simpl. unfold zlen. by rewrite length_replicate.
  - intros w' i c l sh l' [HI Hlen] Hl He. split; [by eapply exec_inv|].
    simpl. unfold zlen in *. by rewrite length_insert.
Qed.
Lemma exec_keeps c f p f' p' :
  exec c f p = Some (f', p') -> writing p = false -> _mode f' = _mode f /\ _data f' = _data f.
Proof.
  intros He Hp. destruct p; try discriminate Hp; try discriminate He; simpl in He;
    unfold lock, shouldFailOpenBlock, shouldFailCloseBlock in He; repeat case_match;
    by simplify_eq/=.
Qed.

(** C36: The two invariants of fail_point.h hold whenever fewer than 2^31
    threads use a fail point, in every interleaving: the word is the active bit
    and the number of threads that must still leave; while the fail point is
    active, or while a thread is inside that has seen it active, no action of
    any thread changes the mode or the data; and the failure 16444, an enabled
    fail point with a mode that is not supported, does not happen. *)
Theorem fail_point_invariants n w :
  Z.of_nat n < 2 ^ 31 -> reachable n w ->
  _fpInfo (shared w) = word (is_active (shared w)) (count holds (agents w))
  /\ (forall i, agents w !! i <> Some (Aborted 16444))
  /\ (forall i c w', act exec i c w = Some w' ->
        is_active (shared w) = true \/ (exists j p, agents w !! j = Some p /\ reading p = true) ->
        _mode (shared w') = _mode (shared w) /\ _data (shared w') = _data (shared w)).
Proof.
  intros Hn Hr. pose proof (fp_reachable _ _ Hn Hr) as HI.
  assert (zlen (agents w) < 2 ^ 31) as Hlen
    by (unfold zlen; rewrite (pool_length _ _ _ Hr); simpl; by rewrite length_replicate).
  destruct (inv_word _ HI) as (b & Hw & _ & Hd).
  assert (is_active (shared w) = b) as Hb
    by (unfold is_active; rewrite Hw; apply word_active, (refs_range _ Hlen)).
  split_and!; [by rewrite Hb | |].
  - intros i Hi. discriminate (inv_knows _ HI _ _ Hi).
  - intros i c w' (l & sh & l' & Hl & He & ->)%act_inv Hact. simpl.
    apply (exec_keeps _ _ _ _ _ He). destruct (writing l) eqn:Hwr; [|done].
    pose proof (count_pos writing _ _ _ Hl Hwr) as Hpos.
    pose proof (count_writing_deactivated (agents w)).
    destruct Hact as [Hact|(j & p & Hj & Hp)]; [rewrite Hb, Hd in Hact by lia; discriminate|].
    pose proof (count_pos reading _ _ _ Hj Hp). rewrite (inv_writing _ HI Hpos) in H0. lia.
Qed.

Lemma fail_point_invariants_witness :
  let a := MkArgs alwaysOn 0 BSONObj_empty in
  let w := World (MkFailPoint (2 ^ 31 + 1) alwaysOn 0 BSONObj_empty false)
             [Idle SetReturned; InBlock slowOn None] in
  reachable 2 w /\ is_active (shared w) = true
  /\ _fpInfo (shared w) = word (is_active (shared w)) (count holds (agents w)).
Proof.
  intros a w. set (sched := repeat (0%nat, CallSetMode a) 12 ++ repeat (1%nat, Open) 3).
  assert (Hr : reachable 2 w)
    by (exact (run_schedule_reachable exec sched (start 2) w eq_refl)).
  split; [exact Hr|]. split; [reflexivity|].
  exact (proj1 (fail_point_invariants 2 w eq_refl Hr)).
Defined.

(** ** One thread alone *)

Definition returned (p : pc) : bool :=
  match p with Idle _ | InBlock _ _ | Aborted _ => true | _ => false end.

(** [setMode] by a thread that finds the mutex free and nobody inside; fuel 12
    is the longest of its paths. *)
Definition setMode (a : SetArgs) (f : FailPoint) : option (FailPoint * pc) :=
  run_alone exec returned Open 12 f (SetLock a).

(** [shouldFailOpenBlock] to its return, without interference. *)
Definition open_alone (f : FailPoint) : option (FailPoint * RetCode) :=
  let '(f, p) := shouldFailOpenBlock f in
  '(f, p) ← run_alone exec returned Open 8 f p;
  match p with
  | Idle _ => Some (f, fastOff)
  | InBlock ret _ => Some (f, ret)
  | _ => None
  end.

Definition shouldFail (f : FailPoint) : option (FailPoint * bool) :=
  '(f, ret) ← open_alone f;
  match ret with
  | fastOff => Some (f, false)
  | _ => Some (fst (shouldFailCloseBlock f), bool_decide (ret = slowOn))
  end.

(** Calls of [shouldFail] one after another. *)
Fixpoint shouldFail_calls (k : nat) (f : FailPoint) : option (list bool) :=
  match k with
  | O => Some []
  | S k' => '(f, b) ← shouldFail f; bs ← shouldFail_calls k' f; Some (b :: bs)
  end.

(** The settings an idle fail point has. *)
Definition set_to (a : SetArgs) : FailPoint :=
  MkFailPoint (if decide (arg_mode a = off) then 0 else 2 ^ 31) (arg_mode a) (s32 (arg_val a))
    (arg_extra a) false.

Lemma setMode_set a f b :
  _fpInfo f = word b 0 -> _modMutex f = false -> arg_mode a <> numModes ->
  setMode a f = Some (set_to a, Idle SetReturned).
Proof.
  intros Hw Hm Ha. destruct f as [w m t d mx]. simpl in Hw, Hm. subst.
  destruct b, a as [[] v x]; try done.
Qed.

(** A call of setMode that finds the mutex free and no thread inside ends,
    whatever the fail point was: a mode that exists is set with its value and
    data, and the fail point is active exactly when the mode is not off; the
    mode after the last makes the call throw 16442 and leaves the fail point
    inactive, with the settings it had. *)
Theorem setMode_alone a f b :
  _fpInfo f = word b 0 -> _modMutex f = false ->
  setMode a f =
    Some (if decide (arg_mode a = numModes)
          then (set_fpInfo f 0, Idle (SetThrew 16442))
          else (set_to a, Idle SetReturned)).
Proof.
  intros Hw Hm. destruct (decide _) as [Ha|Ha]; [|by eapply setMode_set].
  destruct f as [w m t d mx]. simpl in Hw, Hm. subst. destruct b, a as [[] v x]; done.
Qed.

(** An active fail point in mode [nTimes] with a count. *)
Definition counting (t : Z) (d : BSONObj) : FailPoint := MkFailPoint (2 ^ 31) nTimes t d false.

Lemma shouldFail_nTimes t d :
  shouldFail (counting t d) =
    Some (if s32 (t - 1) <=? 0 then MkFailPoint 0 nTimes (s32 (t - 1)) d false
          else counting (s32 (t - 1)) d, true).
Proof.
  unfold shouldFail, open_alone, counting.
  change (shouldFailOpenBlock _) with (MkFailPoint (2 ^ 31) nTimes t d false, OpenAdd).
  cbn [run_alone returned].
  change (exec Open _ OpenAdd) with (Some (MkFailPoint (2 ^ 31 + 1) nTimes t d false, OpenMode)).
  cbn [mbind option_bind run_alone returned exec slowShouldFailOpenBlock _mode _timesOrPeriod].
  rewrite subtractAndFetch_s32. by destruct (_ <=? 0).
Qed.

Lemma shouldFail_inactive m t d : shouldFail (MkFailPoint 0 m t d false) = Some (MkFailPoint 0 m t d false, false).
Proof. done. Qed.

Lemma calls_inactive k m t d :
  shouldFail_calls k (MkFailPoint 0 m t d false) = Some (replicate k false).
Proof. induction k as [|k IH]; [done|]. cbn [shouldFail_calls].
  rewrite shouldFail_inactive. cbn [mbind option_bind]. by rewrite IH. Qed.

Lemma calls_counting k t d :
  in_s 32 t = true -> 1 <= t ->
  shouldFail_calls k (counting t d) =
    Some (replicate (k `min` Z.to_nat t) true ++ replicate (k - Z.to_nat t) false).
Proof.
  revert t. induction k as [|k IH]; intros t Hs Ht; [done|].
  cbn [shouldFail_calls]. rewrite shouldFail_nTimes. apply in_s_spec in Hs.
  rewrite wrap_s_small by lia. destruct (Z.leb_spec (t - 1) 0) as [Hz|Hz]; cbn [mbind option_bind].
  - replace t with 1 by lia. rewrite calls_inactive. change (Z.to_nat 1) with 1%nat.
    cbn [Nat.min Nat.sub mbind option_bind]. by rewrite Nat.sub_0_r, Nat.min_0_r.
  - rewrite IH by (try apply in_s_spec; lia). cbn [mbind option_bind].
    replace (Z.to_nat t) with (S (Z.to_nat (t - 1))) by lia. done.
Qed.

(** How often a fail point in mode [nTimes] with the value [v] fires. *)
Definition fires (v : Z) : nat := Z.to_nat (if (1 <=? v) && (v <=? 2 ^ 31) then v else 1).

Lemma calls_fires k v d :
  in_u 32 v = true ->
  shouldFail_calls k (counting (s32 v) d) =
    Some (replicate (k `min` fires v) true ++ replicate (k - fires v) false).
Proof.
  intros Hv%in_u_spec. unfold fires.
  destruct (Z.leb_spec 1 v) as [H1|H1]; [destruct (Z.leb_spec v (2 ^ 31)) as [H2|H2]|]; simpl andb.
  - destruct (Z.eq_dec v (2 ^ 31)) as [Heq|Hne].
    + assert (s32 (s32 v - 1) = v - 1) as E by (by subst v).
      destruct k as [|k]; [done|]. cbn [shouldFail_calls]. rewrite shouldFail_nTimes, E.
      destruct (Z.leb_spec (v - 1) 0); [lia|]. cbn [mbind option_bind].
      rewrite calls_counting by (try apply in_s_spec; lia). cbn [mbind option_bind].
      by replace (Z.to_nat v) with (S (Z.to_nat (v - 1))) by lia.
    + rewrite wrap_s_small by lia. apply calls_counting; [apply in_s_spec; lia | done].
  - assert (s32 v = v - 2 ^ 32) as -> by (unfold wrap_s; rewrite <- (Z.mod_add _ (-1)), Z.mod_small; lia).
    destruct k as [|k]; [done|]. cbn [shouldFail_calls]. rewrite shouldFail_nTimes, wrap_s_small by lia.
    destruct (Z.leb_spec (v - 2 ^ 32 - 1) 0); [|lia]. cbn [mbind option_bind].
    rewrite calls_inactive. change (Z.to_nat 1) with 1%nat.
    cbn [Nat.min Nat.sub mbind option_bind]. by rewrite Nat.sub_0_r, Nat.min_0_r.
  - replace v with 0 by lia. destruct k as [|k]; [done|]. cbn [shouldFail_calls].
    rewrite shouldFail_nTimes. change (s32 (s32 0 - 1)) with (-1). change (-1 <=? 0) with true. cbn [mbind option_bind].
    rewrite calls_inactive. change (Z.to_nat 1) with 1%nat.
    cbn [Nat.min Nat.sub mbind option_bind]. by rewrite Nat.sub_0_r, Nat.min_0_r.
Qed.

(** In mode nTimes with a value from 1 to 2^31, calls of shouldFail that do
    not overlap answer true exactly that many times and false from then on; the
    values 0 and above 2^31 answer true once. *)
Theorem nTimes_fires k a f b :
  _fpInfo f = word b 0 -> _modMutex f = false -> arg_mode a = nTimes -> in_u 32 (arg_val a) = true ->
  exists f', setMode a f = Some (f', Idle SetReturned)
    /\ shouldFail_calls k f' =
         Some (replicate (k `min` fires (arg_val a)) true ++ replicate (k - fires (arg_val a)) false).
Proof.
  intros Hw Hm Ha Hv. exists (set_to a). split; [by eapply setMode_set; rewrite ?Ha|].
  unfold set_to. rewrite Ha, decide_False by done. by apply calls_fires.
Qed.

Lemma nTimes_fires_witness : exists f',
  setMode (MkArgs nTimes 2 BSONObj_empty) FailPoint_new = Some (f', Idle SetReturned)
  /\ shouldFail_calls 4 f' = Some [true; true; false; false].
Proof.
  destruct (nTimes_fires 4 (MkArgs nTimes 2 BSONObj_empty) FailPoint_new false
              eq_refl eq_refl eq_refl eq_refl) as (f' & H1 & H2).
  exists f'. split; [exact H1 | exact H2].
Defined.

(** Calls that overlap: with the value 1, two threads that have both seen the
    active bit before the count is taken both answer true, as the call that
    brings the count to zero or below still answers true. *)
Example nTimes_overshoot : exists w,
  reachable 3 w /\ map (fun i => agents w !! i) [1; 2]%nat
    = [Some (InBlock slowOn None); Some (InBlock slowOn None)].
Proof.
  set (a := MkArgs nTimes 1 BSONObj_empty).
  set (sched := repeat (0%nat, CallSetMode a) 12 ++
         [(1, Open); (2, Open); (1, Open); (2, Open); (1, Open); (2, Open)]%nat
         ++ repeat (1%nat, Open) 3 ++ repeat (2%nat, Open) 3).
  assert (Hs : is_Some (run_schedule exec sched (start 3))) by (vm_compute; eauto).
  destruct Hs as [w Hw]. exists w. split.
  - by eapply run_schedule_reachable.
  - vm_compute in Hw. by simplify_eq.
Qed.

(** ** ScopedFailPoint and MONGO_FAIL_POINT_BLOCK *)

Record ScopedFailPoint := MkScoped { _once : bool; _shouldClose : bool }.

Definition ScopedFailPoint_new : ScopedFailPoint := MkScoped false false.

Definition isActive (s : ScopedFailPoint) (f : FailPoint) : option (bool * ScopedFailPoint * FailPoint) :=
  if _once s then Some (false, s, f)
  else
    '(f, ret) ← open_alone f;
    Some (bool_decide (ret = slowOn), MkScoped true (bool_decide (ret <> fastOff)), f).

(** [fassert(16445, _shouldClose)]: without it the process ends. *)
Definition getData (s : ScopedFailPoint) (f : FailPoint) : option BSONObj :=
  if _shouldClose s then Some (_data f) else None.

Definition ScopedFailPoint_delete (s : ScopedFailPoint) (f : FailPoint) : FailPoint :=
  if _shouldClose s then fst (shouldFailCloseBlock f) else f.

(** The [for] statement of the macro, around a body that counts its runs and
    notes what it reads. *)
Fixpoint block_go (fuel : nat) (s : ScopedFailPoint) (f : FailPoint) (reads : list (option BSONObj))
    : option (FailPoint * list (option BSONObj)) :=
  match fuel with
  | O => None
  | S fuel' =>
      match isActive s f with
      | None => None
      | Some (true, s', f') => block_go fuel' s' f' (reads ++ [getData s' f'])
      | Some (false, s', f') => Some (ScopedFailPoint_delete s' f', reads)
      end
  end.

Definition FAIL_POINT_BLOCK (f : FailPoint) : option (FailPoint * list (option BSONObj)) :=
  block_go 2 ScopedFailPoint_new f [].

(** The block is [shouldFail] with a body: it runs the body once where
    [shouldFail] is true, with the data, and leaves the same fail point. *)
Theorem block_once f f' b :
  shouldFail f = Some (f', b) ->
  exists f1 ret, open_alone f = Some (f1, ret) /\ b = bool_decide (ret = slowOn)
    /\ FAIL_POINT_BLOCK f = Some (f', if b then [Some (_data f1)] else []).
Proof.
  unfold shouldFail, FAIL_POINT_BLOCK. intros ([f1 ret] & Ho & H)%bind_Some.
  exists f1, ret. split; [done|]. unfold block_go, isActive. simpl _once. cbn iota. rewrite Ho.
  destruct ret; simplify_eq/=; done.
Qed.

(** What [getData] checks is that there is a reference, not that the active bit
    was seen.  A thread that takes its reference after [setMode] has waited has
    one, so the check would let it read the data while they are written. *)
Example getData_unguarded : exists w a,
  reachable 2 w /\ agents w = [SetData a; InBlock slowOff None]
  /\ getData (MkScoped true (bool_decide (slowOff <> fastOff))) (shared w) = Some (_data (shared w)).
Proof.
  set (a := MkArgs alwaysOn 0 BSONObj_empty).
  set (sched := repeat (0%nat, CallSetMode a) 12 ++ [(1%nat, Open)]
         ++ repeat (0%nat, CallSetMode a) 5 ++ [(1%nat, Open)] ++ repeat (0%nat, CallSetMode a) 3).
  assert (Hs : is_Some (run_schedule exec sched (start 2))) by (vm_compute; eauto).
  destruct Hs as [w Hw]. exists w, a. split; [by eapply run_schedule_reachable|].
  vm_compute in Hw. by simplify_eq.
Qed.
