(* ===== verification/Ticket.v ===== *)
(** * Ticket: a counting semaphore with a condition variable
    (util/concurrency/ticketholder.h)

    The code between taking and leaving the mutex is one step, as every access
    to the counters that changes them is inside it.  Waiting on the condition
    leaves the mutex and puts the thread to sleep in the same step; a
    notification, after the mutex is left, is a step of its own, and wakes a
    sleeping thread if there is one.  A sleeping thread may also wake for no
    reason.  A woken thread tests the counter again. *)

From stdpp Require Import base list numbers option relations tactics.
From Stdlib Require Import ZArith Lia.
From S2P Require Import Prelude Pool.

Record TicketHolder := MkTickets { _outof : Z; _num : Z }.

Definition TicketHolder_new (num : Z) : TicketHolder := MkTickets num num.

Definition available (t : TicketHolder) : Z := _num t.
Definition used (t : TicketHolder) : Z := _outof t - _num t.
Definition outof (t : TicketHolder) : Z := _outof t.

Definition _tryAcquire (t : TicketHolder) : bool * TicketHolder :=
  if _num t <=? 0 then (false, t) else (true, MkTickets (_outof t) (_num t - 1)).

(** The regions of [release] and [resize] in the mutex; [resize] answers
    whether it goes on to notify. *)
Definition release (t : TicketHolder) : TicketHolder := MkTickets (_outof t) (_num t + 1).

Definition resize (newSize : Z) (t : TicketHolder) : bool * TicketHolder :=
  if used t >? newSize then (false, t) else (true, MkTickets newSize (newSize - used t)).

(** ** Threads *)

Inductive at_ :=
  | Running
  | Waiting        (* asleep in [_newTicket.wait] *)
  | Woken          (* about to test the counter again *)
  | NotifyOne      (* in [release], past the mutex *)
  | NotifyAll.     (* in [resize], past the mutex *)

#[global] Instance at_eq_dec : EqDecision at_.
Proof. solve_decision. Defined.

(** A thread has taken [held] tickets that it has not released. *)
Record thread := MkThread { held : nat; pc : at_ }.

Definition threads : Type := world TicketHolder thread.

Definition go (th : thread) (p : at_) : thread := MkThread (held th) p.
Definition wake (th : thread) : thread := if decide (pc th = Waiting) then go th Woken else th.

(** A thread in [waitForTicket] that has the mutex. *)
Definition wait_turn (t : TicketHolder) (th : thread) : TicketHolder * thread :=
  let '(ok, t') := _tryAcquire t in
  if ok then (t', MkThread (S (held th)) Running) else (t, go th Waiting).

Inductive tstep : threads -> threads -> Prop :=
  | step_tryAcquire t ls i th t' ok :
      ls !! i = Some th -> pc th = Running -> _tryAcquire t = (ok, t') ->
      tstep (World t ls) (World t' (<[i := MkThread ((if ok then 1 else 0) + held th) Running]> ls))
  | step_wait t ls i th t' th' :
      ls !! i = Some th -> pc th = Running \/ pc th = Woken -> wait_turn t th = (t', th') ->
      tstep (World t ls) (World t' (<[i := th']> ls))
  | step_spurious t ls i th :
      ls !! i = Some th -> pc th = Waiting ->
      tstep (World t ls) (World t (<[i := go th Woken]> ls))
  | step_release t ls i th h :
      (* only a thread that has a ticket releases one, as ScopedTicket does *)
      ls !! i = Some th -> pc th = Running -> held th = S h ->
      tstep (World t ls) (World (release t) (<[i := MkThread h NotifyOne]> ls))
  | step_notify_none t ls i th :
      ls !! i = Some th -> pc th = NotifyOne -> (forall j x, ls !! j = Some x -> pc x <> Waiting) ->
      tstep (World t ls) (World t (<[i := go th Running]> ls))
  | step_notify_one t ls i th j x :
      ls !! i = Some th -> pc th = NotifyOne -> ls !! j = Some x -> pc x = Waiting ->
      tstep (World t ls) (World t (<[j := go x Woken]> (<[i := go th Running]> ls)))
  | step_resize t ls i th newSize ok t' :
      ls !! i = Some th -> pc th = Running -> resize newSize t = (ok, t') ->
      tstep (World t ls) (World t' (<[i := go th (if ok then NotifyAll else Running)]> ls))
  | step_notify_all t ls i th :
      ls !! i = Some th -> pc th = NotifyAll ->
      tstep (World t ls) (World t (wake <$> <[i := go th Running]> ls)).

Definition start (num : Z) (n : nat) : threads :=
  World (TicketHolder_new num) (replicate n (MkThread 0 Running)).

(** ** The invariant *)

Definition is_at (p : at_) (th : thread) : bool := bool_decide (pc th = p).

Fixpoint total (ls : list thread) : Z :=
  match ls with [] => 0 | th :: ls' => Z.of_nat (held th) + total ls' end.

Lemma total_insert ls i th th' :
  ls !! i = Some th -> total (<[i := th']> ls) = total ls - Z.of_nat (held th) + Z.of_nat (held th').
Proof.
  revert i. induction ls as [|x ls IH]; intros [|i] H; simplify_eq/=; [lia|]. rewrite (IH _ H). lia.
Qed.

Lemma total_wake ls : total (wake <$> ls) = total ls.
Proof.
  induction ls as [|x ls IH]; [done|]. cbn [fmap list_fmap total]. rewrite IH.
  unfold wake. by case_decide.
Qed.

Lemma total_nonneg ls : 0 <= total ls.
Proof. induction ls; simpl; lia. Qed.

Lemma waiting_wake ls : count (is_at Waiting) (wake <$> ls) = 0.
Proof.
  apply count_none. intros i l (x & -> & _)%list_lookup_fmap_Some.
  unfold wake, is_at. case_decide; by apply bool_decide_eq_false.
Qed.

(** A sleeping thread is not forgotten: the tickets that are free are no more
    than the threads that have been or are about to be woken, or all will be. *)
Definition remembered (w : threads) : Prop :=
  count (is_at Waiting) (agents w) = 0 \/ 0 < count (is_at NotifyAll) (agents w)
  \/ _num (shared w) <= count (is_at Woken) (agents w) + count (is_at NotifyOne) (agents w).

Record tickets_inv (w : threads) : Prop := {
  inv_num : 0 <= _num (shared w);
  inv_total : total (agents w) = used (shared w);
  inv_remembered : remembered w
}.

Lemma tickets_start num n : 0 <= num -> tickets_inv (start num n).
Proof.
  intros Hn. constructor; simpl; [done| |].
  - induction n; simpl in *; unfold used in *; simpl in *; lia.
  - unfold remembered. simpl. left. rewrite count_replicate. simpl. lia.
Qed.

(** The counts after one thread has moved. *)
Lemma moved ls i th th' p :
  ls !! i = Some th ->
  count (is_at p) (<[i := th']> ls) =
    count (is_at p) ls - Z.b2z (bool_decide (pc th = p)) + Z.b2z (bool_decide (pc th' = p)).
Proof. apply (count_insert (is_at p)). Qed.

Lemma here ls i th : ls !! i = Some th -> 0 < count (is_at (pc th)) ls.
Proof. intros H. apply (count_pos _ _ _ _ H). by apply bool_decide_eq_true. Qed.

Ltac moves Hl :=
  pose proof (here _ _ _ Hl);
  unfold remembered in *; simpl in *; rewrite ?(moved _ _ _ _ _ Hl), ?(total_insert _ _ _ _ Hl); simpl;
  repeat match goal with H : pc _ = _ |- _ => rewrite H in * end;
  repeat (rewrite bool_decide_true by done || rewrite bool_decide_false by done); simpl.

Ltac count_bounds ls :=
  pose proof (count_range (is_at Waiting) ls); pose proof (count_range (is_at Woken) ls);
  pose proof (count_range (is_at NotifyOne) ls); pose proof (count_range (is_at NotifyAll) ls).

Lemma tstep_inv w w' : tickets_inv w -> tstep w w' -> tickets_inv w'.
Proof.
  intros [Hn Ht Hr] Hs. destruct Hs as [t ls i th t' ok Hl Hp Ha|t ls i th t' th' Hl Hp Ha|t ls i th Hl Hp
    |t ls i th h Hl Hp Hh|t ls i th Hl Hp Hno|t ls i th j x Hl Hp Hj Hx|t ls i th sz ok t' Hl Hp Ha|t ls i th Hl Hp];
    simpl in *; count_bounds ls.
  - unfold _tryAcquire in Ha. destruct (Z.leb_spec (_num t) 0); simplify_eq/=;
      constructor; moves Hl; unfold used in *; simpl; lia.
  - unfold wait_turn, _tryAcquire in Ha. destruct (Z.leb_spec (_num t) 0); simplify_eq/=;
      destruct Hp as [Hp|Hp]; constructor; moves Hl; unfold used in *; simpl; lia.
  - constructor; moves Hl; lia.
  - constructor; moves Hl; unfold used in *; simpl; lia.
  - constructor; moves Hl; [done | lia |]. left.
    rewrite count_none; [lia|]. intros j x Hj. apply bool_decide_eq_false. by apply (Hno j).
  - assert (Hij : <[i:=go th Running]> ls !! j = Some x)
      by (rewrite list_lookup_insert_ne; congruence).
    constructor; simpl; [done | |].
    + rewrite (total_insert _ _ _ _ Hij), (total_insert _ _ _ _ Hl). simpl. lia.
    + pose proof (here _ _ _ Hj). unfold remembered in *. simpl in *.
      rewrite !(moved _ _ _ _ _ Hij), !(moved _ _ _ _ _ Hl). rewrite Hp, Hx in *. simpl.
      repeat (rewrite bool_decide_true by done || rewrite bool_decide_false by done). simpl. lia.
  - unfold resize in Ha. destruct (Z.gtb_spec (used t) sz); simplify_eq/=;
      constructor; moves Hl; unfold used in *; simpl; lia.
  - constructor; simpl; [done | |].
    + rewrite total_wake, (total_insert _ _ _ _ Hl). simpl. lia.
    + left. apply waiting_wake.
Qed.

Lemma tickets_reachable num n w : 0 <= num -> rtc tstep (start num n) w -> tickets_inv w.
Proof.
  intros Hn Hr. remember (start num n) as w0 eqn:E.
  assert (tickets_inv w0) as H0 by (subst; by apply tickets_start). clear E.
  induction Hr; eauto using tstep_inv.
Qed.

Lemma count_at ls p : 0 < count (is_at p) ls -> exists i th, ls !! i = Some th /\ pc th = p.
Proof. intros (i & th & Hl & Hp%bool_decide_eq_true)%count_exists. eauto. Qed.

(** C38: A ticket holder used by threads that release only tickets they have:
    in every interleaving the tickets that are out are the ones the threads
    have, and no more than there are; and no wakeup is lost: while a thread
    sleeps and a ticket is free, some thread is about to test the counter again
    or about to notify. *)
Theorem ticket_holder_safe num n w :
  0 <= num -> rtc tstep (start num n) w ->
  total (agents w) = used (shared w) /\ 0 <= used (shared w) <= outof (shared w)
  /\ ((exists i th, agents w !! i = Some th /\ pc th = Waiting) -> 0 < available (shared w) ->
      exists i th, agents w !! i = Some th /\ (pc th = Woken \/ pc th = NotifyOne \/ pc th = NotifyAll)).
Proof.
  intros Hn Hr. destruct (tickets_reachable _ _ _ Hn Hr) as [H1 H2 H3].
  pose proof (total_nonneg (agents w)). unfold used, outof, available in *.
  split_and!; [done | lia | lia |]. intros (i & th & Hl & Hp) Ha.
  pose proof (here _ _ _ Hl) as Hw. rewrite Hp in Hw. count_bounds (agents w).
  destruct H3 as [H3|[H3|H3]]; [lia | |].
  - apply count_at in H3 as (j & x & ? & ?). eauto 10.
  - destruct (Z.le_gt_cases (count (is_at Woken) (agents w)) 0).
    + assert (0 < count (is_at NotifyOne) (agents w)) as Hpos by lia.
      apply count_at in Hpos as (j & x & ? & ?). eauto 10.
    + assert (0 < count (is_at Woken) (agents w)) as Hpos by lia.
      apply count_at in Hpos as (j & x & ? & ?). eauto 10.
Qed.

(** One ticket, two threads: the first takes it, the second sleeps, the first
    has released it and not yet notified. *)
Lemma ticket_holder_safe_witness :
  let w := World (MkTickets 1 1) [MkThread 0 NotifyOne; MkThread 0 Waiting] in
  rtc tstep (start 1 2) w
  /\ exists i th, agents w !! i = Some th /\ (pc th = Woken \/ pc th = NotifyOne \/ pc th = NotifyAll).
Proof.
  intros w.
  assert (Hr : rtc tstep (start 1 2) w).
  { eapply rtc_l; [by apply (step_tryAcquire (TicketHolder_new 1) _ 0%nat (MkThread 0 Running))|].
    eapply rtc_l; [by eapply (step_wait _ _ 1%nat (MkThread 0 Running)); [done | left | done]|].
    eapply rtc_l; [by apply (step_release _ _ 0%nat (MkThread 1 Running) 0)|]. by apply rtc_refl. }
  split; [exact Hr|].
  apply (ticket_holder_safe 1 2 w ltac:(done) Hr); [|done].
  by exists 1%nat, (MkThread 0 Waiting).
Defined.
