(* ===== verification/BQueue.v ===== *)
(** * BQueue: a bounded queue between threads (util/queue.h)

    Every operation is one region in the mutex, or ends in a wait on one of two
    conditions and starts again when woken.  [notify_one] is called inside the
    mutex, so it is part of the step: it wakes a thread that sleeps on the
    condition, if there is one.  A timed wait may also end with its time. *)

From stdpp Require Import base list numbers option relations tactics.
From Stdlib Require Import ZArith Lia.
From S2P Require Import Prelude Pool.

Section queue.
Context {T : Type} (_getSize : T -> Z).

Record BlockingQueue := MkQueue { _queue : list T; _maxSize : Z; _currentSize : Z }.

Definition BlockingQueue_new (size : Z) : BlockingQueue := MkQueue [] size 0.
Definition BlockingQueue_unbounded : BlockingQueue := BlockingQueue_new (2 ^ 64 - 1).

(** One turn of [push] in the mutex: [None] is the wait. *)
Definition push_turn (t : T) (q : BlockingQueue) : option BlockingQueue :=
  let tSize := _getSize t in
  if u64 (_currentSize q + tSize) >=? _maxSize q then None
  else Some (MkQueue (_queue q ++ [t]) (_maxSize q) (u64 (_currentSize q + tSize))).

(** The common part of [tryPop] and [blockingPop]. *)
Definition pop_turn (q : BlockingQueue) : option (T * BlockingQueue) :=
  match _queue q with
  | [] => None
  | t :: rest => Some (t, MkQueue rest (_maxSize q) (u64 (_currentSize q - _getSize t)))
  end.

Definition clear (q : BlockingQueue) : BlockingQueue := MkQueue [] (_maxSize q) 0.
Definition empty (q : BlockingQueue) : bool := match _queue q with [] => true | _ => false end.
Definition size (q : BlockingQueue) : Z := _currentSize q.
Definition maxSize (q : BlockingQueue) : Z := _maxSize q.
(** [int] of a [size_t]. *)
Definition count_ (q : BlockingQueue) : Z := s32 (zlen (_queue q)).
Definition peek (q : BlockingQueue) : option T := head (_queue q).

(** ** Threads *)

Inductive at_ :=
  | Running
  | PushWaiting (t : T)
  | PushWoken (t : T)
  | PopWaiting (timed : bool)
  | PopWoken (timed : bool).

(** What is shared, with the values that have come in and gone out. *)
Record state := MkState { queue : BlockingQueue; pushed : list T; removed : list T }.

Definition threads : Type := world state at_.

Definition push_waiting (p : at_) : bool := match p with PushWaiting _ => true | _ => false end.
Definition pop_waiting (p : at_) : bool := match p with PopWaiting _ => true | _ => false end.
Definition pop_woken (p : at_) : bool := match p with PopWoken _ => true | _ => false end.

Definition woken (p : at_) : at_ :=
  match p with PushWaiting t => PushWoken t | PopWaiting b => PopWoken b | _ => p end.

(** [notify_one] on the condition that the threads [on] sleep on. *)
Inductive notify_one (on : at_ -> bool) : list at_ -> list at_ -> Prop :=
  | notify_none ls : (forall j p, ls !! j = Some p -> on p = false) -> notify_one on ls ls
  | notify_some ls j p : ls !! j = Some p -> on p = true -> notify_one on ls (<[j := woken p]> ls).

Inductive qstep : threads -> threads -> Prop :=
  | step_push q ins outs ls i p t q' ls' :
      ls !! i = Some p -> p = Running \/ p = PushWoken t -> push_turn t q = Some q' ->
      notify_one pop_waiting (<[i := Running]> ls) ls' ->
      qstep (World (MkState q ins outs) ls) (World (MkState q' (ins ++ [t]) outs) ls')
  | step_push_wait q ins outs ls i p t :
      ls !! i = Some p -> p = Running \/ p = PushWoken t -> push_turn t q = None ->
      qstep (World (MkState q ins outs) ls) (World (MkState q ins outs) (<[i := PushWaiting t]> ls))
  | step_pop q ins outs ls i p t q' ls' :
      ls !! i = Some p -> p = Running \/ pop_woken p = true -> pop_turn q = Some (t, q') ->
      notify_one push_waiting (<[i := Running]> ls) ls' ->
      qstep (World (MkState q ins outs) ls) (World (MkState q' ins (outs ++ [t])) ls')
  | step_pop_wait q ins outs ls i p timed :
      ls !! i = Some p -> p = Running \/ p = PopWoken timed -> pop_turn q = None ->
      qstep (World (MkState q ins outs) ls) (World (MkState q ins outs) (<[i := PopWaiting timed]> ls))
  | step_timeout s ls i :
      ls !! i = Some (PopWaiting true) -> qstep (World s ls) (World s (<[i := Running]> ls))
  | step_spurious s ls i p :
      ls !! i = Some p -> qstep (World s ls) (World s (<[i := woken p]> ls))
  | step_clear q ins outs ls i :
      ls !! i = Some Running ->
      qstep (World (MkState q ins outs) ls) (World (MkState (clear q) ins (outs ++ _queue q)) ls).

Definition start (q : BlockingQueue) (n : nat) : threads := World (MkState q [] []) (replicate n Running).

(** ** The invariant *)

Fixpoint sizes (ts : list T) : Z := match ts with [] => 0 | t :: ts' => _getSize t + sizes ts' end.

Lemma sizes_app ts us : sizes (ts ++ us) = sizes ts + sizes us.
Proof. induction ts; simpl; lia. Qed.

Lemma notified_consumers ls ls' :
  notify_one pop_waiting ls ls' ->
  count pop_waiting ls' = 0
  \/ 0 < count pop_waiting ls /\ count pop_woken ls' = count pop_woken ls + 1.
Proof.
  intros [ls0 Hn|ls0 j p Hj Hp].
  - left. by apply count_none.
  - right. split; [by eapply count_pos|]. rewrite (count_insert _ _ _ _ _ Hj). destruct p; simpl in *; try discriminate; lia.
Qed.

Lemma notified_producers ls ls' :
  notify_one push_waiting ls ls' ->
  count pop_waiting ls' = count pop_waiting ls /\ count pop_woken ls' = count pop_woken ls.
Proof.
  intros [ls0 Hn|ls0 j p Hj Hp]; [done|].
  rewrite !(count_insert _ _ _ _ _ Hj). destruct p; simpl in *; try discriminate; lia.
Qed.
End queue.

Lemma sizes_nonneg {T} (f : T -> Z) ts : (forall t, 0 <= f t) -> 0 <= sizes f ts.
Proof. intros H. induction ts as [|t ts IH]; simpl; [lia|]. pose proof (H t). lia. Qed.

Lemma u64_add a b : u64 (u64 a + b) = u64 (a + b).
Proof. unfold wrap_u. apply Zplus_mod_idemp_l. Qed.

Section safe.
Context {T : Type} (_getSize : T -> Z) (max : Z).

(** Sizes that do not wrap: one more than what is below the maximum is a
    [size_t], as with the size 1 and any maximum. *)
Definition no_wrap : Prop := 0 <= max /\ forall t, 0 <= _getSize t /\ max + _getSize t <= 2 ^ 64.

Definition bounded (ts : list T) : Prop := ts = [] \/ sizes _getSize ts < max.

Record queue_inv (w : threads (T := T)) : Prop := {
  inv_fifo : pushed (shared w) = removed (shared w) ++ _queue (queue (shared w));
  inv_max : _maxSize (queue (shared w)) = max;
  inv_size : _currentSize (queue (shared w)) = u64 (sizes _getSize (_queue (queue (shared w))));
  inv_bound : no_wrap -> bounded (_queue (queue (shared w)));
  (* as many consumers are woken as there are values, while one sleeps *)
  inv_consumers : count pop_waiting (agents w) = 0
    \/ zlen (_queue (queue (shared w))) <= count pop_woken (agents w)
}.

(** What is below the maximum is the sum itself. *)
Lemma bounded_exact ts : no_wrap -> bounded ts -> u64 (sizes _getSize ts) = sizes _getSize ts.
Proof.
  intros [Hm Hs] Hb. pose proof (sizes_nonneg _getSize ts (fun t => proj1 (Hs t))).
  destruct Hb as [-> |Hb]; [done|]. destruct ts as [|t ts]; [done|]. pose proof (Hs t). apply wrap_u_small; lia.
Qed.

Lemma push_turn_ok t q q' : _maxSize q = max -> _currentSize q = u64 (sizes _getSize (_queue q)) ->
  (no_wrap -> bounded (_queue q)) -> push_turn _getSize t q = Some q' ->
  q' = MkQueue (_queue q ++ [t]) max (u64 (sizes _getSize (_queue q ++ [t]))) /\ (no_wrap -> bounded (_queue q ++ [t])).
Proof.
  intros Hm Hc Hb H. unfold push_turn in H. rewrite Hc, Hm, u64_add in H. rewrite sizes_app. cbn [sizes]. rewrite Z.add_0_r.
  destruct (Z.geb_spec (u64 (sizes _getSize (_queue q) + _getSize t)) max) as [|Hlt]; simplify_eq. split; [done|].
  intros Hw. right. rewrite sizes_app. cbn [sizes]. rewrite Z.add_0_r. specialize (Hb Hw). destruct Hw as [H0 Hs].
  pose proof (Hs t). pose proof (sizes_nonneg _getSize (_queue q) (fun t => proj1 (Hs t))).
  rewrite wrap_u_small in Hlt; [done|]. destruct Hb as [Hb|Hb]; [|lia]. rewrite Hb in *. cbn [sizes] in *.
  split; [lia|]. destruct (Z.eq_dec max 0) as [E|]; [|lia]. pose proof (Z.mod_pos_bound (0 + _getSize t) (2 ^ 64)).
  unfold wrap_u in Hlt. lia.
Qed.

Lemma pop_turn_ok t q q' : _maxSize q = max -> _currentSize q = u64 (sizes _getSize (_queue q)) ->
  (no_wrap -> bounded (_queue q)) -> pop_turn _getSize q = Some (t, q') ->
  exists rest, _queue q = t :: rest /\ q' = MkQueue rest max (u64 (sizes _getSize rest)) /\ (no_wrap -> bounded rest).
Proof.
  intros Hm Hc Hb H. unfold pop_turn in H. destruct (_queue q) as [|u rest] eqn:E; simplify_eq.
  exists rest. split; [done|]. split.
  - rewrite Hc, Hm. cbn [sizes]. f_equal. unfold Z.sub. rewrite u64_add. f_equal. lia.
  - intros Hw. right. specialize (Hb Hw). destruct Hw as [_ Hs]. pose proof (Hs t). destruct Hb as [|Hb]; [done|].
    cbn [sizes] in Hb. lia.
Qed.

Lemma qstep_inv w w' : queue_inv w -> qstep _getSize w w' -> queue_inv w'.
Proof.
  intros [Hf Hm Hs Hb Hc] H.
  destruct H as [q ins outs ls i p t q' ls' Hl Hp Ht Hn|q ins outs ls i p t Hl Hp Ht
    |q ins outs ls i p t q' ls' Hl Hp Ht Hn|q ins outs ls i p timed Hl Hp Ht|s ls i Hl|s ls i p Hl
    |q ins outs ls i Hl]; simpl in *.
  - destruct (push_turn_ok _ _ _ Hm Hs Hb Ht) as [-> Hlt]. constructor; simpl; [|done|done|done|].
    + by rewrite Hf, (assoc_L (++)).
    + apply notified_consumers in Hn. rewrite !(count_insert _ _ _ _ _ Hl) in Hn.
      rewrite zlen_app. unfold zlen at 2. simpl.
      pose proof (count_range pop_waiting ls).
      destruct Hn as [Hn|[Hw Hn]]; [by left|]. right.
      destruct Hp as [-> | ->]; simpl in Hw, Hn; lia.
  - constructor; simpl; try done. rewrite !(count_insert _ _ _ _ _ Hl).
    destruct Hp as [-> | ->]; simpl; try lia.
  - destruct (pop_turn_ok _ _ _ Hm Hs Hb Ht) as (rest & E & -> & Hr). constructor; simpl; try done.
    + by rewrite Hf, E, <- (assoc_L (++)).
    + apply notified_producers in Hn as [-> ->]. rewrite !(count_insert _ _ _ _ _ Hl).
      rewrite E in Hc. unfold zlen in *. simpl in Hc.
      destruct Hp as [-> | Hp]; [|destruct p; try discriminate Hp]; simpl; try lia.
  - assert (_queue q = []) as E by (unfold pop_turn in Ht; by destruct (_queue q)).
    constructor; simpl; try done. rewrite E. right. unfold zlen. simpl.
    pose proof (count_range pop_woken (<[i:=PopWaiting timed]> ls)). lia.
  - pose proof (count_pos pop_waiting _ _ _ Hl eq_refl).
    constructor; simpl; try done. rewrite !(count_insert _ _ _ _ _ Hl). simpl. lia.
  - constructor; simpl; try done. rewrite !(count_insert _ _ _ _ _ Hl).
    destruct p; simpl; try lia. pose proof (count_pos pop_waiting _ _ _ Hl eq_refl). lia.
  - constructor; simpl; try done; [by rewrite Hf, app_nil_r | by left |].
    right. unfold zlen. simpl. pose proof (count_range pop_woken ls). lia.
Qed.

(** C37: A queue with any size function and any maximum, used by any threads in
    any interleaving of push, tryPop, blockingPop with and without a time, and
    clear: values leave in the order they came; the size is the sum of the sizes
    of what is queued, as a [size_t]; no consumer is forgotten: while one sleeps
    and the queue is not empty, a consumer has been woken; and when the sum
    cannot wrap, the size is the sum itself and, unless the queue is empty, below
    the maximum.  The sum cannot wrap when the maximum and a size are together at
    most 2^64, as with the default size 1 of each value, also without a bound. *)
Theorem queue_safe n w :
  rtc (qstep _getSize) (start (BlockingQueue_new max) n) w ->
  pushed (shared w) = removed (shared w) ++ _queue (queue (shared w))
  /\ size (queue (shared w)) = u64 (sizes _getSize (_queue (queue (shared w))))
  /\ ((exists i p, agents w !! i = Some p /\ pop_waiting p = true) -> empty (queue (shared w)) = false ->
      exists i p, agents w !! i = Some p /\ pop_woken p = true)
  /\ (no_wrap -> size (queue (shared w)) = sizes _getSize (_queue (queue (shared w)))
      /\ (_queue (queue (shared w)) = [] \/ size (queue (shared w)) < maxSize (queue (shared w)))).
Proof.
  intros Hr.
  assert (queue_inv w) as [Hf Hm Hs Hb Hc].
  { remember (start _ n) as w0 eqn:E. assert (queue_inv w0) as H0.
    { subst. constructor; simpl; try done; [by left|]. right. unfold zlen. simpl.
      apply count_range. }
    clear E. induction Hr; eauto using qstep_inv. }
  unfold size, maxSize. rewrite Hm, Hs. split; [done|]. split; [done|]. split.
  - intros (i & p & Hl & Hp) He. apply count_exists.
    pose proof (count_pos _ _ _ _ Hl Hp). unfold empty in He. destruct (_queue _); [done|].
    unfold zlen in Hc. simpl in Hc. lia.
  - intros Hw. rewrite bounded_exact by auto. split; [done|by apply Hb].
Qed.
End safe.

(** Two threads and a maximum of two: a value is queued, the other thread
    sleeps in push, and the queue is cleared. *)
Definition stranded : threads (T := unit) :=
  World (MkState (MkQueue [] 2 0) [tt] [tt]) [Running; PushWaiting tt].

Lemma stranded_reachable : rtc (qstep (fun _ => 1)) (start (BlockingQueue_new 2) 2) stranded.
Proof.
  eapply rtc_l.
  { eapply (step_push _ _ _ _ _ 0%nat Running tt); [done | by left | done |].
    apply notify_none. by intros [|[|j]] p [= <-]. }
  eapply rtc_l.
  { by eapply (step_push_wait _ _ _ _ _ 1%nat Running tt); [done | left | done]. }
  eapply rtc_l; [by apply (step_clear _ _ _ _ _ 0%nat)|]. apply rtc_refl.
Qed.

(** [clear] does not notify, so the producer sleeps on before an empty queue. *)
Example clear_strands_producer :
  rtc (qstep (fun _ => 1)) (start (BlockingQueue_new 2) 2) stranded
  /\ empty (queue (shared stranded)) = true
  /\ is_Some (push_turn (fun _ => 1) tt (queue (shared stranded)))
  /\ agents stranded = [Running; PushWaiting tt].
Proof. split_and!; [apply stranded_reachable | done | by eexists | done]. Qed.

(** The maximum is not reached: a queue for one value takes none. *)
Example maximum_of_one (t : unit) : push_turn (fun _ => 1) t (BlockingQueue_new 1) = None.
Proof. done. Qed.

(** Sizes of which the sum wraps: of a maximum of ten, nearly 2^64 are taken, and
    the queue has the size 0. *)
Example sum_wraps :
  push_turn (fun n => n) (2 ^ 64 - 1) (MkQueue [1] 10 1) = Some (MkQueue [1; 2 ^ 64 - 1] 10 0).
Proof. reflexivity. Qed.

(** A queue without a bound, with a value. *)
Definition one_value : threads (T := unit) :=
  World (MkState (MkQueue [tt] (2 ^ 64 - 1) 1) [tt] []) [Running].

Lemma one_value_reachable : rtc (qstep (fun _ => 1)) (start BlockingQueue_unbounded 1) one_value.
Proof.
  eapply rtc_l.
  { eapply (step_push _ _ _ _ _ 0%nat Running tt); [done | by left | done |].
    apply notify_none. by intros [|j] p [= <-]. }
  apply rtc_refl.
Qed.

Lemma queue_safe_witness : no_wrap (fun _ : unit => 1) (2 ^ 64 - 1) /\
  size (queue (shared one_value)) = 1 /\ size (queue (shared one_value)) < maxSize (queue (shared one_value)).
Proof.
  assert (no_wrap (fun _ : unit => 1) (2 ^ 64 - 1)) as Hw by (split; [done|intros _; split; done]).
  split; [exact Hw|].
  destruct (queue_safe (fun _ => 1) (2 ^ 64 - 1) 1 one_value one_value_reachable) as (_ & _ & _ & Hs).
  destruct (Hs Hw) as [E [H|H]]; [discriminate|]. split; [exact E|exact H].
Defined.
