(* ===== verification/JsObj.v ===== *)
(** * JsObj: the object functions of db/jsobj.cpp, bson/bson-inl.h and
    bson/ordering.h that walk, compare and rebuild objects

    Each loop of the source is one of the loops of Obj.v with its body. *)

From stdpp Require Import base list numbers strings option tactics.
From Stdlib Require Import Strings.Byte ZArith Lia.
From S2P Require Import Prelude Memory Decimal ParseNumber Double BsonTypes Format Element Obj.
From S2P Require Import Access Compare Builder.

(** ** Arrays *)

(** [v.resize(u+1)] when [u] is past the end, then [v[u] = e]: holes hold the
    empty element. *)
Definition vector_set (v : list BSONElement) (u : Z) (e : BSONElement) : list BSONElement :=
  let v' := v ++ repeat BSONElement_empty (Z.to_nat u + 1 - length v) in
  <[Z.to_nat u := e]> v'.

(** [BSONElement::Array()]. *)
Definition Elem_Array (e : BSONElement) : result (list BSONElement) :=
  let* _ := chk e Array in
  let* o := embeddedObjectUserCheck e in
  finish Ok
    (for_elements o [] (fun v x =>
       let* f := field_name x in
       match parseNumberFromString false 32 f with
       | inr u =>
           let* _ := verify (u <? 1000000) in
           Ok (Continue (vector_set v u x))
       | inl _ => Ok (Continue v)
       end)).

Definition couldBeArray (o : BSONObj) : result bool :=
  finish (fun _ => Ok true)
    (for_elements_eoo o 0 (fun index e =>
       let* f := field_name e in
       Ok (if bytes_eqb f (dec index) then Continue (index + 1) else Return false))).

(** ** Comparisons built on [woCompare] *)

Record Ordering := MkOrdering { bits : Z }.

Definition Ordering_get (o : Ordering) (i : Z) : Z :=
  if Z.testbit (bits o) i then -1 else 1.
Definition descending (o : Ordering) (mask : Z) : Z := Z.land (bits o) mask.

(** [Ordering::make]: the loop ends at EOO. *)
Fixpoint Ordering_make_go (fuel : nat) (k : BSONObjIterator) (b n : Z) : result Ordering :=
  match fuel with
  | O => Err OutOfFuel
  | S fuel' =>
      let* '(e, k') := next k in
      let* z := eoo e in
      if z then Ok (MkOrdering b)
      else
        let* _ := uassert 13103 (n <=? 31) in
        let* d := number e in
        let b' := if d_ltb d d_zero then Z.lor b (2 ^ n) else b in
        Ordering_make_go fuel' k' b' (n + 1)
  end.
Definition Ordering_make (o : BSONObj) : result Ordering :=
  let* k := BSONObjIterator_of o in Ordering_make_go (fuel_of o) k 0 0.

(** [woCompare(r, Ordering, considerFieldName)]. *)
Fixpoint wo_loop_ordering (o : Ordering) (cfn : bool) (fuel : nat) (i j : BSONObjIterator)
    (mask : Z) : result Z :=
  match fuel with
  | O => Err OutOfFuel
  | S fuel' =>
      let* '(l, i') := next i in
      let* '(r, j') := next j in
      let* le := eoo l in
      let* re := eoo r in
      if le then Ok (if re then 0 else -1)
      else if re then Ok 1
      else
        let* x := element_woCompare cfn l r in
        let x := if descending o mask =? 0 then x else - x in
        if x =? 0 then wo_loop_ordering o cfn fuel' i' j' (u32 (mask * 2)) else Ok x
  end.

Definition woCompare_ordering (a b : BSONObj) (o : Ordering) (considerFieldName : bool)
    : result Z :=
  let* ae := isEmpty a in
  let* be := isEmpty b in
  if ae then Ok (if be then 0 else -1)
  else if be then Ok 1
  else
    let* i := BSONObjIterator_of a in
    let* j := BSONObjIterator_of b in
    wo_loop_ordering o considerFieldName (fuel_of a) i j 1.

(** [staticNull.firstElement()]: a null with an empty name. *)
Definition static_null : BSONObj := Ptr (enc_doc [([], VNull)]) 0.

(** [woSortOrder]. *)
Definition woSortOrder (o other sortKey : BSONObj) (useDotted : bool) : result Z :=
  let get (x : BSONObj) (name : list byte) :=
    let* e := if useDotted then getFieldDotted x name else getField x name in
    let* z := eoo e in
    if z then firstElement static_null else Ok e in
  let* oe := isEmpty o in
  let* re := isEmpty other in
  if oe then Ok (if re then 0 else -1)
  else if re then Ok 1
  else
    let* ke := isEmpty sortKey in
    let* _ := uassert 10060 (negb ke) in
    finish (fun _ => Ok 0)
      (for_elements_eoo sortKey tt (fun _ f =>
         let* name := field_name f in
         let* l := get o name in
         let* r := get other name in
         let* x := element_woCompare false l r in
         let* d := number f in
         let x := if d_ltb d d_zero then - x else x in
         Ok (if x =? 0 then Continue tt else Return x))).

(** Walk two iterators together while both have elements. *)
Fixpoint zip_more (f : BSONElement -> BSONElement -> result bool) (fuel : nat)
    (a b : BSONObjIterator) : result (option (BSONObjIterator * BSONObjIterator)) :=
  match fuel with
  | O => Err OutOfFuel
  | S fuel' =>
      if more a && more b then
        let* '(x, a') := next a in
        let* '(y, b') := next b in
        let* ok := f x y in
        if ok then zip_more f fuel' a' b' else Ok None
      else Ok (Some (a, b))
  end.

Definition isPrefixOf (o other : BSONObj) : result bool :=
  let* a := BSONObjIterator_of o in
  let* b := BSONObjIterator_of other in
  let* r := zip_more elem_eq (fuel_of o) a b in
  Ok match r with Some (a', _) => negb (more a') | None => false end.

Definition same_name (x y : BSONElement) : result bool :=
  let* p := field_name x in
  let* q := field_name y in
  Ok (bytes_eqb p q).

Definition isFieldNamePrefixOf (o other : BSONObj) : result bool :=
  let* a := BSONObjIterator_of o in
  let* b := BSONObjIterator_of other in
  let* r := zip_more same_name (fuel_of o) a b in
  Ok match r with Some (a', _) => negb (more a') | None => false end.

Definition fieldsMatch (lhs rhs : BSONObj) : result bool :=
  let* a := BSONObjIterator_of lhs in
  let* b := BSONObjIterator_of rhs in
  let* r := zip_more same_name (fuel_of lhs) a b in
  Ok match r with Some (a', b') => negb (more a' || more b') | None => false end.

(** [BSONObj::equal]. *)
Fixpoint equal_loop (fuel : nat) (i j : BSONObjIterator) : result bool :=
  match fuel with
  | O => Err OutOfFuel
  | S fuel' =>
      let* '(l, i') := next i in
      let* '(r, j') := next j in
      let* le := eoo l in
      if le then eoo r
      else
        let* same := elem_eq l r in
        if same then equal_loop fuel' i' j' else Ok false
  end.
Definition equal (o rhs : BSONObj) : result bool :=
  let* i := BSONObjIterator_of o in
  let* j := BSONObjIterator_of rhs in
  equal_loop (fuel_of o) i j.

(** ** Lookups *)

(** The position of a field in [indexKey] selects an element of [o]. *)
Definition getFieldUsingIndexNames (o : BSONObj) (name : list byte) (indexKey : BSONObj)
    : result BSONElement :=
  let* st := for_elements_eoo indexKey 0 (fun j f =>
    let* n := field_name f in
    Ok (if bytes_eqb n name then Return j else Continue (j + 1))) in
  match st with
  | Continue _ => Ok BSONElement_empty
  | Return j =>
      finish (fun _ => Ok BSONElement_empty)
        (for_elements_eoo o j (fun j g => Ok (if j =? 0 then Return g else Continue (j - 1))))
  end.

(** [getFieldNames]: the names, in order; the source collects them in a set. *)
Definition getFieldNames (o : BSONObj) : result (list (list byte) * Z) :=
  finish Ok
    (for_elements_eoo o ([], 0) (fun '(names, n) e =>
       let* f := field_name e in
       Ok (Continue (names ++ [f], n + 1)))).

(** ** Objects rebuilt from others *)

(** [while (i.moreWithEOO()) { ... }] appending to a fresh builder, then [obj()]. *)
Definition rebuild (initsize : Z) (o : BSONObj)
    (body : BSONObjBuilder -> BSONElement -> result BSONObjBuilder) : result BSONObj :=
  let* b := BSONObjBuilder_new initsize in
  finish obj
    (for_elements_eoo o b (fun b e => let* b' := body b e in Ok (Continue b'))).

Definition extractFieldsUnDotted (o pattern : BSONObj) : result BSONObj :=
  rebuild 512 pattern (fun b e =>
    let* f := field_name e in
    let* x := getField o f in
    let* z := eoo x in
    if z then Ok b else appendAs x [] b).

Definition extractFields (o pattern : BSONObj) (fillWithNull : bool) : result BSONObj :=
  rebuild 32 pattern (fun b e =>
    let* f := field_name e in
    let* x := getFieldDotted o f in
    let* z := eoo x in
    if negb z then appendAs x f b
    else if fillWithNull then appendNull f b
    else Ok b).

Definition filterFieldsUndotted (o filter : BSONObj) (inFilter : bool) : result BSONObj :=
  rebuild 512 o (fun b e =>
    let* f := field_name e in
    let* x := getField filter f in
    let* z := eoo x in
    if (z && negb inFilter) || (negb z && inFilter) then append_elem e b else Ok b).

(** The same with [while (i.more())]. *)
Definition rebuild_more (initsize : Z) (o : BSONObj)
    (body : BSONObjBuilder -> BSONElement -> result BSONObjBuilder) : result BSONObj :=
  let* b := BSONObjBuilder_new initsize in
  finish obj
    (for_elements o b (fun b e => let* b' := body b e in Ok (Continue b'))).

Definition removeField (o : BSONObj) (name : list byte) : result BSONObj :=
  rebuild_more 512 o (fun b e =>
    let* f := field_name e in
    if bytes_eqb name f then Ok b else append_elem e b).

(** [clientReadable]: MinKey and MaxKey become marker objects. *)
Definition marker (name : list byte) : result BSONObj :=
  let* m := BSONObjBuilder_new 512 in
  let* m' := append_int name 1 m in
  let* '(o, _) := done m' in Ok o.

Definition clientReadable (o : BSONObj) : result BSONObj :=
  rebuild 512 o (fun b e =>
    let* t := type e in
    match t with
    | MinKey =>
        let* f := field_name e in
        let* m := marker (bstr "$minElement") in
        append_obj f m b
    | MaxKey =>
        let* f := field_name e in
        let* m := marker (bstr "$maxElement") in
        append_obj f m b
    | _ => append_elem e b
    end).

(** [replaceFieldNames]: the names come from a second iterator, while it has
    any. *)
Definition replaceFieldNames (o names : BSONObj) : result BSONObj :=
  let* b := BSONObjBuilder_new 512 in
  let* j := BSONObjIterator_of names in
  let* '(f, j) := if moreWithEOO j then next j
                 else let* e := firstElement BSONObj_empty in Ok (e, j) in
  let* st := for_elements_eoo (R := BSONObj) o (b, f, j) (fun '(b, f, j) e =>
    let* z := eoo f in
    if negb z then
      let* name := field_name f in
      let* b' := appendAs e name b in
      let* '(f', j') := next j in
      Ok (Continue (b', f', j'))
    else
      let* b' := append_elem e b in
      Ok (Continue (b', f, j))) in
  match st with
  | Continue (b, _, _) => obj b
  | Return r => Ok r
  end.

(** [appendElements] and [appendElementsUnique] of the builder. *)
Definition appendElements (x : BSONObj) (b : BSONObjBuilder) : result BSONObjBuilder :=
  finish Ok (for_elements_eoo x b (fun b e => let* b' := append_elem e b in Ok (Continue b'))).

(** [BSONObjBuilder::iterator()]: over the object begun, which has no EOO yet. *)
Definition builder_iterator (b : BSONObjBuilder) : BSONObjIterator :=
  MkIter (objdata b +! 4) (zlen (buf (_b b)) - 1).

Definition builder_names (b : BSONObjBuilder) : result (list (list byte)) :=
  finish Ok
    (loop_more (fun names e => let* f := field_name e in Ok (Continue (f :: names)))
       (fuel_of (objdata b)) (builder_iterator b) []).

Definition appendElementsUnique (x : BSONObj) (b : BSONObjBuilder) : result BSONObjBuilder :=
  let* have := builder_names b in
  finish Ok
    (for_elements x b (fun b e =>
       let* f := field_name e in
       if existsb (bytes_eqb f) have then Ok (Continue b)
       else let* b' := append_elem e b in Ok (Continue b'))).

(** [nested2dotted]: sub-objects are spelled out with dotted names; the depth
    of the object bounds the recursion. *)
Fixpoint nested2dotted_go (depth : nat) (b : BSONObjBuilder) (o : BSONObj) (base : list byte)
    : result BSONObjBuilder :=
  match depth with
  | O => Err OutOfFuel
  | S depth' =>
      finish Ok
        (for_elements o b (fun b e =>
           let* t := type e in
           let* f := field_name e in
           if bool_decide (t = Object) then
             let* sub := embeddedObject e in
             let* b' := nested2dotted_go depth' b sub (base ++ f ++ bstr ".") in
             Ok (Continue b')
           else
             let* b' := appendAs e (base ++ f) b in
             Ok (Continue b')))
  end.
Definition nested2dotted (o : BSONObj) : result BSONObj :=
  let* b := BSONObjBuilder_new 512 in
  let* b' := nested2dotted_go (fuel_of o) b o [] in
  obj b'.

(** ** Checks on field names *)

Definition has_char (c : byte) (s : list byte) : bool := existsb (Byte.eqb c) s.

Fixpoint okForStorage_go (depth : nat) (o : BSONObj) : result bool :=
  match depth with
  | O => Err OutOfFuel
  | S depth' =>
      finish (fun _ => Ok true)
        (for_elements o tt (fun _ e =>
           let* name := field_name e in
           if has_char "." name || has_char "$" name then
             Ok (Return (bytes_eqb name (bstr "$ref") || bytes_eqb name (bstr "$id")))
           else
             let* t := type e in
             if bytes_eqb name (bstr "_id") && bool_decide (t = RegEx) then Ok (Return false)
             else
               let* ok :=
                 match t with
                 | Object | Array => let* s := embeddedObject e in okForStorage_go depth' s
                 | CodeWScope => let* s := codeWScopeObject e in okForStorage_go depth' s
                 | _ => Ok true
                 end in
               Ok (if ok : bool then Continue tt else Return false)))
  end.
Definition okForStorage (o : BSONObj) : result bool := okForStorage_go (fuel_of o) o.

(** ** Query operators *)

Inductive MatchType :=
  | Equality
  | LT
  | LTE
  | GTE
  | GT
  | opIN
  | NE
  | opSIZE
  | opALL
  | NIN
  | opEXISTS
  | opMOD
  | opTYPE
  | opREGEX
  | opOPTIONS
  | opELEM_MATCH
  | opNEAR
  | opWITHIN
  | opMAX_DISTANCE
  | opGEO_INTERSECTS.

#[global] Instance MatchType_eq_dec : EqDecision MatchType.
Proof. solve_decision. Defined.

(** The character at [i] of a C string, its terminator included. *)
Definition at_ (fn : list byte) (i : nat) : byte := nth i fn x00.
(** [fn[i] == c0 && fn[i+1] == c1 && ... && fn[i+n] == 0]: the rest of the name. *)
Definition ends_with_at (fn : list byte) (i : nat) (s : list byte) : bool :=
  bytes_eqb (drop i fn) s.

(** [BSONElement::getGtLtOp]: the tests in the order of the source. *)
Definition getGtLtOp_name (fn : list byte) (def : MatchType) : MatchType :=
  let c := at_ fn in
  if negb (Byte.eqb (c 0%nat) "$" && negb (Byte.eqb (c 1%nat) x00)) then def
  else if Byte.eqb (c 2%nat) "t" then
    if Byte.eqb (c 1%nat) "g" then
      if Byte.eqb (c 3%nat) x00 then GT
      else if Byte.eqb (c 3%nat) "e" && Byte.eqb (c 4%nat) x00 then GTE
      else def
    else if Byte.eqb (c 1%nat) "l" then
      if Byte.eqb (c 3%nat) x00 then LT
      else if Byte.eqb (c 3%nat) "e" && Byte.eqb (c 4%nat) x00 then LTE
      else def
    else def
  else if Byte.eqb (c 1%nat) "n" && Byte.eqb (c 2%nat) "e" then
    if Byte.eqb (c 3%nat) x00 then NE
    else if Byte.eqb (c 3%nat) "a" && Byte.eqb (c 4%nat) "r" then opNEAR
    else def
  else if Byte.eqb (c 1%nat) "m" then
    if ends_with_at fn 2 (bstr "od") then opMOD
    else if ends_with_at fn 2 (bstr "axDistance") then opMAX_DISTANCE
    else def
  else if ends_with_at fn 1 (bstr "type") then opTYPE
  else if ends_with_at fn 1 (bstr "in") then opIN
  else if ends_with_at fn 1 (bstr "nin") then NIN
  else if ends_with_at fn 1 (bstr "all") then opALL
  else if ends_with_at fn 1 (bstr "size") then opSIZE
  else if Byte.eqb (c 1%nat) "e" then
    if ends_with_at fn 2 (bstr "xists") then opEXISTS
    else if ends_with_at fn 2 (bstr "lemMatch") then opELEM_MATCH
    else def
  else if ends_with_at fn 1 (bstr "regex") then opREGEX
  else if ends_with_at fn 1 (bstr "options") then opOPTIONS
  else if ends_with_at fn 1 (bstr "within") then opWITHIN
  else if ends_with_at fn 1 (bstr "geoIntersects") then opGEO_INTERSECTS
  else if ends_with_at fn 1 (bstr "geoNear") then opNEAR
  else if ends_with_at fn 1 (bstr "geoWithin") then opWITHIN
  else def.

Definition getGtLtOp (e : BSONElement) (def : MatchType) : result MatchType :=
  let* fn := field_name e in Ok (getGtLtOp_name fn def).

(** The free function [getGtLtOp(e)]. *)
Definition element_getGtLtOp (e : BSONElement) : result MatchType :=
  let* t := type e in
  if bool_decide (t = Object) then
    let* o := embeddedObject e in
    let* fe := firstElement o in
    getGtLtOp fe Equality
  else Ok Equality.

Definition appendElementHandlingGtLt (e : BSONElement) (b : BSONObjBuilder)
    : result BSONObjBuilder :=
  let* t := type e in
  if bool_decide (t = Object) then
    let* o := embeddedObject e in
    let* fe := firstElement o in
    let* fn := field_name fe in
    if Byte.eqb (at_ fn 0) "$" && negb (Byte.eqb (at_ fn 1) x00) && Byte.eqb (at_ fn 2) "t" then
      let* name := field_name e in appendAs fe name b
    else append_elem e b
  else append_elem e b.

(** ** Bounds of a type *)

Definition zero_oid : list byte := repeat x00 12.
Definition ff_oid : list byte := repeat xff 12.

Definition appendMinForType (name : list byte) (t : BSONType) (b : BSONObjBuilder)
    : result BSONObjBuilder :=
  match t with
  | NumberInt | NumberDouble | NumberLong => append_double name (d_opp d_max) b
  | Symbol | BSONString => append_cstr name (literal []) b
  | Date => appendBool name 1 b
  | Timestamp => appendTimestamp name 0 b
  | Undefined => appendUndefined name b
  | MinKey => appendMinKey name b
  | MaxKey => appendMaxKey name b
  | jstOID => append_OID name zero_oid b
  | BSONBool => appendBool name 0 b
  | jstNULL => appendNull name b
  | Object => append_obj name BSONObj_empty b
  | Array => appendArray name BSONObj_empty b
  | BinData => appendBinData name 0 x00 (Ptr [] 0) b
  | RegEx => appendRegex name [] [] b
  | DBRef => appendDBRef name [] zero_oid b
  | Code => appendCode name [] b
  | CodeWScope => appendCodeWScope name [] BSONObj_empty b
  | EOO | InvalidType _ => Err (UserAssert 10061)
  end.

Definition appendMaxForType (name : list byte) (t : BSONType) (b : BSONObjBuilder)
    : result BSONObjBuilder :=
  match t with
  | NumberInt | NumberDouble | NumberLong => append_double name d_max b
  | Symbol | BSONString => appendMinForType name Object b
  | Date => appendDate name LLONG_MAX b
  | Timestamp => appendTimestamp name (2 ^ 64 - 1) b
  | Undefined => appendUndefined name b
  | MinKey => appendMinKey name b
  | MaxKey => appendMaxKey name b
  | jstOID => append_OID name ff_oid b
  | BSONBool => appendBool name 1 b
  | jstNULL => appendNull name b
  | Object => appendMinForType name Array b
  | Array => appendMinForType name BinData b
  | BinData => appendMinForType name jstOID b
  | RegEx => appendMinForType name DBRef b
  | DBRef => appendMinForType name Code b
  | Code => appendMinForType name CodeWScope b
  | CodeWScope => appendMinForType name MaxKey b
  | EOO | InvalidType _ => Err (UserAssert 14853)
  end.

(** ** [BSONArrayBuilder]: the next index and a builder *)

Record BSONArrayBuilder := MkArr { arr_i : Z; arr_b : BSONObjBuilder }.

(** [numStr(i)], also of its cached first hundred. *)
Definition numStr (i : Z) : list byte := dec i.

Definition BSONArrayBuilder_new (initsize : Z) : result BSONArrayBuilder :=
  let* b := BSONObjBuilder_new initsize in Ok (MkArr 0 b).
Definition BSONArrayBuilder_on (base : BufBuilder) : result BSONArrayBuilder :=
  let* b := BSONObjBuilder_on base in Ok (MkArr 0 b).

(** [_b.append(num(), x)] for an append of the object builder. *)
Definition arr_append (app : list byte -> BSONObjBuilder -> result BSONObjBuilder)
    (a : BSONArrayBuilder) : result BSONArrayBuilder :=
  let* b := app (numStr (arr_i a)) (arr_b a) in
  Ok (MkArr (arr_i a + 1) b).

Definition arr_appendNull : BSONArrayBuilder -> result BSONArrayBuilder := arr_append appendNull.
Definition arr_append_elem (e : BSONElement) : BSONArrayBuilder -> result BSONArrayBuilder :=
  arr_append (appendAs e).

(** [fill(int upTo)]: nulls up to the position. *)
Fixpoint arr_fill_go (fuel : nat) (upTo : Z) (a : BSONArrayBuilder) : result BSONArrayBuilder :=
  match fuel with
  | O => Err OutOfFuel
  | S fuel' =>
      if arr_i a <? upTo then
        let* a' := arr_appendNull a in arr_fill_go fuel' upTo a'
      else Ok a
  end.
Definition arr_fill (upTo : Z) (a : BSONArrayBuilder) : result BSONArrayBuilder :=
  let* _ := uassert 15891 (upTo <=? 1500000) in
  arr_fill_go (S (Z.to_nat (upTo - arr_i a))) upTo a.

(** [fill(name)]: the position is the number the name spells. *)
Definition arr_fill_name (name : list byte) (a : BSONArrayBuilder) : result BSONArrayBuilder :=
  match parseNumberFromStringWithBase true 64 name 10 with
  | inr n => arr_fill (s32 n) a
  | inl _ => Err (UserAssert 13048)
  end.

Definition arr_append_named (app : list byte -> BSONObjBuilder -> result BSONObjBuilder)
    (name : list byte) (a : BSONArrayBuilder) : result BSONArrayBuilder :=
  let* a' := arr_fill_name name a in arr_append app a'.

(** [appendTimestamp(sec, inc)]: hands the seconds on as milliseconds. *)
Definition arr_appendTimestamp (sec inc : Z) : BSONArrayBuilder -> result BSONArrayBuilder :=
  arr_append (fun name => appendTimestamp_inc name sec inc).

Definition arr_done (a : BSONArrayBuilder) : result (BSONObj * BSONObjBuilder) := done (arr_b a).
Definition arr_obj (a : BSONArrayBuilder) : result BSONObj := obj (arr_b a).
