(* ===== verification/JsObjSpec.v ===== *)
(** * JsObjSpec: what the functions of JsObj.v return

    Array access and array building, objects rebuilt field by field, the
    bounds of a type, the query operator names, and the two ways of comparing
    by a key pattern. *)

From stdpp Require Import base list numbers strings option tactics.
From Stdlib Require Import Strings.Byte ZArith Lia.
From S2P Require Import Prelude Memory Decimal ParseNumber Double BsonTypes Format Element Obj.
From S2P Require Import Access Compare Order Builder JsObj.

(** ** Arrays: fields named by their positions *)

Fixpoint indexed (k : Z) (d : doc) : bool :=
  match d with
  | [] => true
  | (n, _) :: r => bytes_eqb n (dec k) && indexed (k + 1) r
  end.

Lemma indexed_app k d d' : indexed k (d ++ d') = indexed k d && indexed (k + zlen d) d'.
Proof.
  revert k. induction d as [|[n v] d IH]; intros k; cbn [app indexed].
  - by rewrite zlen_nil, Z.add_0_r.
  - rewrite IH, zlen_cons, andb_assoc. f_equal. f_equal. lia.
Qed.

Lemma indexed_nth d pre n v post : indexed 0 d = true -> d = pre ++ (n, v) :: post ->
  n = dec (zlen pre).
Proof.
  intros Hd ->. rewrite indexed_app in Hd. apply andb_prop in Hd as [_ Hd]. simpl in Hd.
  apply andb_prop in Hd as [Hn _]. by apply bool_decide_eq_true in Hn.
Qed.

Lemma vector_set_next v e : vector_set v (zlen v) e = v ++ [e].
Proof.
  unfold vector_set. rewrite zlen_nat.
  replace (length v + 1 - length v)%nat with 1%nat by lia. cbn [repeat].
  rewrite insert_app_r_alt by lia. by rewrite Nat.sub_diag.
Qed.

Lemma Elem_Array_rep e n d : elem_ok e n (VArray d) -> indexed 0 d = true -> zlen d <= 1000000 ->
  exists es, Elem_Array e = Ok es /\ elems_of (mem (data e)) es d.
Proof.
  intros Hok Hd Hl. unfold Elem_Array, chk. rewrite (type_rep _ _ _ Hok). cbn [bind vtype].
  rewrite bool_decide_true by done. cbn [bind].
  destruct (embedded_rep _ _ _ d Hok eq_refl) as (o & _ & Ho & Hm & Hv).
  unfold embeddedObjectUserCheck, isABSONObj. rewrite (type_rep _ _ _ Hok), Hv. cbn [bind vtype].
  rewrite (BSONObj_init_rep _ _ Ho). cbn [bind].
  edestruct (for_elements_inv (R := list BSONElement)
    (fun v x => let* f := field_name x in
       match parseNumberFromString false 32 f with
       | inr u => let* _ := verify (u <? 1000000) in Ok (Continue (vector_set v u x))
       | inl _ => Ok (Continue v)
       end)
    (fun pre v => elems_of (mem (data e)) v pre) d o []) as (es & Hes & Hinv).
  - done.
  - intros pre f v post s x Hall Hs Hx Hmx. rewrite (field_name_rep _ _ _ Hx). cbn [bind].
    rewrite (indexed_nth d pre f v post Hd Hall) in *.
    assert (zlen pre < 1000000).
    { rewrite Hall, zlen_app, zlen_cons in Hl. pose proof (zlen_nonneg post). lia. }
    pose proof (zlen_nonneg pre). rewrite parse_index by lia.
    destruct (Z.ltb_spec (zlen pre) 1000000); [|lia]. cbn [verify bind].
    eexists. split; [done|].
    assert (zlen s = zlen pre) as Hlen by (unfold zlen; f_equal; by eapply Forall2_length).
    rewrite <- Hlen at 1. rewrite vector_set_next. apply Forall2_app; [done|]. constructor; [|constructor].
    split; [done|congruence].
  - constructor.
  - rewrite Hes. by exists es.
Qed.

(** [couldBeArray] accepts exactly the documents whose fields are named 0,
    1, 2, ... in this order. *)
Theorem couldBeArray_correct o d : obj_rep o d -> couldBeArray o = Ok (indexed 0 d).
Proof.
  intros Ho. unfold couldBeArray.
  edestruct (for_elements_eoo_sim (R:=bool)
    (fun index e => let* f := field_name e in
       Ok (if bytes_eqb f (dec index) then Continue (index + 1) else Return false))
    (fun index (f : field) =>
       if bytes_eqb (fst f) (dec index) then Continue (index + 1) else Return false)
    eq eq o d 0 0 Ho) as (st & Hst & Hrel); [|done|].
  - intros s ? e n v <- Hok _ _. rewrite (field_name_rep _ _ _ Hok). cbn [bind fst].
    eexists. split; [done|]. by destruct (bytes_eqb n (dec s)); constructor.
  - rewrite Hst. clear Hst.
    assert (forall k, run_fields (fun index (f : field) =>
       if bytes_eqb (fst f) (dec index) then Continue (index + 1) else Return false) d k
      = if indexed k d then Continue (k + zlen d) else Return false) as Hrun.
    { clear. induction d as [|[n v] d IH]; intros k; cbn [run_fields indexed fst].
      - by rewrite zlen_nil, Z.add_0_r.
      - destruct (bytes_eqb n (dec k)); [|done]. rewrite IH, zlen_cons. cbn [andb].
        destruct (indexed (k + 1) d); [|done]. f_equal. lia. }
    rewrite Hrun in Hrel. by destruct (indexed 0 d); inversion Hrel; subst.
Qed.

Lemma couldBeArray_correct_witness :
  couldBeArray (obj_of [(bstr "0", VNull); (bstr "1", VInt 5)]) = Ok true.
Proof. by apply (couldBeArray_correct _ [(bstr "0", VNull); (bstr "1", VInt 5)]), obj_of_rep. Defined.

(** ** Objects rebuilt field by field *)

(** [m] appends the fields [fs] when they fit. *)
Definition does (m : BSONObjBuilder -> result BSONObjBuilder) (fs : doc) : Prop :=
  forall b pre d, b_rep b pre d -> fits (_b b) (zlen (enc_elems fs)) ->
  exists b', m b = Ok b' /\ b_rep b' pre (d ++ fs) /\ owned b' = owned b.

Lemma does_nothing : does Ok [].
Proof. intros b pre d Hb _. exists b. by rewrite app_nil_r. Qed.

Lemma does_append m f : appends m f -> does m [f].
Proof.
  intros Hm b pre d Hb Hf. apply Hm; [done|]. unfold enc_elems in Hf. simpl in Hf.
  by rewrite app_nil_r in Hf.
Qed.

Lemma b_rep_len b pre d : b_rep b pre d -> len (_b b) = zlen pre + 4 + zlen (enc_elems d).
Proof. intros (ph & E & Hp & _). unfold len. rewrite E, !zlen_app, Hp. lia. Qed.

(** The loop state after the fields [pre]: a builder holding what they gave. *)
Definition built (step_ : field -> doc) (pre : doc) (b : BSONObjBuilder) : Prop :=
  b_rep b (le32 0) (flat_map step_ pre) /\ owned b = true.

Lemma built_keeps (step_ : field -> doc) (body : BSONObjBuilder -> BSONElement -> result BSONObjBuilder) d m :
  wf_doc (flat_map step_ d) = true ->
  (forall e n v, elem_ok e n v -> In (n, v) d -> mem (data e) = m ->
     does (fun b => body b e) (step_ (n, v))) ->
  keeps (R := BSONObj) (fun b e => let* b' := body b e in Ok (Continue b')) (built step_) d m.
Proof.
  intros Hw Hbody pre n v post b e Hall [Hb Ho] Hok Hm.
  destruct (Hbody e n v Hok) with (b := b) (pre := le32 0) (d := flat_map step_ pre)
    as (b' & Hb' & Hrep & How); [|done|done| |].
  - rewrite Hall. apply in_or_app. right. by left.
  - unfold fits. rewrite (b_rep_len _ _ _ Hb), zlen_le_bytes.
    apply wf_doc_size in Hw. rewrite Hall, flat_map_app, zlen_enc_doc, enc_elems_app, zlen_app in Hw.
    cbn [flat_map] in Hw. rewrite enc_elems_app, zlen_app in Hw.
    pose proof (zlen_nonneg (enc_elems (flat_map step_ post))).
    rewrite obj_max_val in Hw. change BufferMaxSize with 67108864. lia.
  - rewrite Hb'. cbn [bind]. exists b'. split; [done|]. split; [|congruence].
    rewrite flat_map_app. cbn [flat_map]. by rewrite app_nil_r.
Qed.

Lemma built_obj step_ d b : wf_doc (flat_map step_ d) = true -> built step_ d b ->
  exists o, obj b = Ok o /\ obj_rep o (flat_map step_ d).
Proof.
  intros Hw [Hb Ho]. eapply obj_done; [done| |done|done].
  unfold fits. rewrite (b_rep_len _ _ _ Hb), zlen_le_bytes.
  apply wf_doc_size in Hw. rewrite zlen_enc_doc, obj_max_val in Hw.
  change BufferMaxSize with 67108864. lia.
Qed.

Section rebuild.
Context (step_ : field -> doc) (body : BSONObjBuilder -> BSONElement -> result BSONObjBuilder).
Context (o : BSONObj) (d : doc).
Hypothesis Ho : obj_rep o d.
Hypothesis Hw : wf_doc (flat_map step_ d) = true.
Hypothesis Hbody : forall e n v, elem_ok e n v -> In (n, v) d -> mem (data e) = mem o ->
  does (fun b => body b e) (step_ (n, v)).

Lemma rebuild_rep initsize : 4 <= initsize <= BSONObjMaxInternalSize ->
  exists o', rebuild initsize o body = Ok o' /\ obj_rep o' (flat_map step_ d).
Proof using Ho Hw Hbody.
  intros Hi. unfold rebuild. destruct (new_rep initsize Hi) as (b & -> & Hb & Hown & _).
  cbn [bind].
  edestruct (for_elements_eoo_inv (R := BSONObj)
    (fun b e => let* b' := body b e in Ok (Continue b')) (built step_) d o b Ho)
    as (b' & -> & Hb'); [by apply built_keeps|done|].
  cbn [finish bind]. by apply built_obj.
Qed.

Lemma rebuild_more_rep initsize : 4 <= initsize <= BSONObjMaxInternalSize ->
  exists o', rebuild_more initsize o body = Ok o' /\ obj_rep o' (flat_map step_ d).
Proof using Ho Hw Hbody.
  intros Hi. unfold rebuild_more. destruct (new_rep initsize Hi) as (b & -> & Hb & Hown & _). cbn [bind].
  edestruct (for_elements_inv (R := BSONObj)
    (fun b e => let* b' := body b e in Ok (Continue b')) (built step_) d o b Ho)
    as (b' & -> & Hb'); [by apply built_keeps|done|].
  cbn [finish bind]. by apply built_obj.
Qed.
End rebuild.

(** Leaving fields out keeps a document well-formed. *)
Lemma wf_doc_sub (step_ : field -> doc) d :
  (forall f, In f d -> step_ f = [] \/ step_ f = [f]) ->
  wf_doc d = true -> wf_doc (flat_map step_ d) = true.
Proof.
  intros Hs Hw. unfold wf_doc in *. apply andb_prop in Hw as [Hf Hl]. apply andb_true_intro.
  assert (forallb wf_field (flat_map step_ d) = true /\
    zlen (enc_elems (flat_map step_ d)) <= zlen (enc_elems d)) as [H1 H2].
  { clear Hl. induction d as [|f d IH]; [done|]. simpl in Hf. apply andb_prop in Hf as [Hff Hfd].
    destruct (IH ltac:(intros; apply Hs; by right) Hfd) as [IH1 IH2].
    cbn [flat_map]. rewrite forallb_app, enc_elems_app, zlen_app, zlen_enc_elems_cons, IH1.
    destruct (Hs f ltac:(by left)) as [-> | ->]; cbn [forallb].
    - split; [done|]. change (zlen (enc_elems [])) with 0. pose proof (zlen_nonneg (enc_elem f)). lia.
    - rewrite Hff. split; [done|]. rewrite zlen_enc_elems_cons.
      change (zlen (enc_elems [])) with 0. lia. }
  split; [done|]. apply Z.leb_le in Hl. apply Z.leb_le. rewrite zlen_enc_doc in *. lia.
Qed.

(** [removeField] returns the document without the fields of that name,
    every other field untouched and in order. *)
Theorem removeField_correct o d name : obj_rep o d ->
  exists o', removeField o name = Ok o' /\
    obj_rep o' (List.filter (fun f : field => negb (bytes_eqb name (fst f))) d).
Proof.
  intros Ho. pose (step_ := fun f : field => if bytes_eqb name (fst f) then [] else [f]).
  assert (forall l, List.filter (fun f : field => negb (bytes_eqb name (fst f))) l
    = flat_map step_ l) as ->.
  { intros l. induction l as [|f l IH]; [done|]. simpl. unfold step_ at 1.
    destruct (bytes_eqb name (fst f)); simpl; by rewrite IH. }
  apply rebuild_more_rep; [done| | |rewrite obj_max_val; lia].
  - apply wf_doc_sub; [|apply Ho]. intros f _. unfold step_. destruct (bytes_eqb name (fst f)); auto.
  - intros e n v Hok _ _ b pre d' Hb Hf. rewrite (field_name_rep _ _ _ Hok). cbn [bind].
    unfold step_ in *. cbn [fst] in *. destruct (bytes_eqb name n).
    + by apply does_nothing.
    + by apply (does_append _ _ (append_elem_rep _ _ _ Hok)).
Qed.

Lemma removeField_correct_witness :
  exists o', removeField (obj_of (doc_sample 1)) (bstr "c") = Ok o' /\
    obj_rep o' (List.filter (fun f : field => negb (bytes_eqb (bstr "c") (fst f))) (doc_sample 1)).
Proof. by apply removeField_correct, obj_of_rep. Defined.

(** What [extractFields] takes for one field of the pattern. *)
Definition extract_step (d : doc) (fillWithNull : bool) (f : field) : doc :=
  match find_dotted (S (length (fst f))) d (fst f) with
  | Some (_, v) => [(fst f, v)]
  | None => if fillWithNull then [(fst f, VNull)] else []
  end.

(** [extractFields] answers the pattern's fields, in the pattern's order
    and under the pattern's (dotted) names, each with the value the object has
    there, and with nulls for the missing ones when asked to. *)
Theorem extractFields_correct o p d dp fill : obj_rep o d -> obj_rep p dp ->
  wf_doc (flat_map (extract_step d fill) dp) = true ->
  exists o', extractFields o p fill = Ok o' /\ obj_rep o' (flat_map (extract_step d fill) dp).
Proof.
  intros Ho Hp Hw. apply rebuild_rep; [done|done| |rewrite obj_max_val; lia].
  intros e n v Hok _ _ b pre d' Hb Hf. rewrite (field_name_rep _ _ _ Hok). cbn [bind].
  destruct (getFieldDotted_rep o d n Ho) as (x & Hx & Hfound). rewrite Hx. cbn [bind].
  rewrite (found_eoo _ _ _ Hfound). unfold extract_step in *. cbn [bind fst] in *.
  destruct (find_dotted (S (length n)) d n) as [[n' v']|]; cbn [found negb] in *.
  - by apply (does_append _ _ (appendAs_rep _ _ _ n (proj1 Hfound))).
  - destruct fill; [by apply (does_append _ _ (appendNull_rep n))|by apply does_nothing].
Qed.

Lemma extractFields_correct_witness :
  let dp := [(bstr "c.x", VNull); (bstr "zz", VNull); (bstr "a", VNull)] in
  exists o', extractFields (obj_of (doc_sample 1)) (obj_of dp) true = Ok o' /\
    obj_rep o' (flat_map (extract_step (doc_sample 1) true) dp).
Proof. by apply extractFields_correct; try apply obj_of_rep. Defined.

(** ** Query operators: the character tests are a table lookup *)

Definition operator_table : list (list byte * MatchType) :=
  [(bstr "$gt", GT); (bstr "$gte", GTE); (bstr "$lt", LT); (bstr "$lte", LTE);
   (bstr "$ne", NE); (bstr "$mod", opMOD); (bstr "$maxDistance", opMAX_DISTANCE);
   (bstr "$type", opTYPE); (bstr "$in", opIN); (bstr "$nin", NIN); (bstr "$all", opALL);
   (bstr "$size", opSIZE); (bstr "$exists", opEXISTS); (bstr "$elemMatch", opELEM_MATCH);
   (bstr "$regex", opREGEX); (bstr "$options", opOPTIONS); (bstr "$within", opWITHIN);
   (bstr "$geoIntersects", opGEO_INTERSECTS); (bstr "$geoNear", opNEAR);
   (bstr "$geoWithin", opWITHIN)].

Definition lookup_operator (fn : list byte) (def : MatchType) : MatchType :=
  if startsWith fn (bstr "$near") then opNEAR
  else match List.find (fun p => bytes_eqb fn (fst p)) operator_table with
       | Some (_, op) => op
       | None => def
       end.

(** Names that tests on their characters pin down. *)
Lemma at_eqb fn i c : Byte.eqb (at_ fn i) c = true -> at_ fn i = c.
Proof. by destruct (byte_eqb_spec (at_ fn i) c). Qed.

Lemma at_rest fn i s : ends_with_at fn i s = true -> drop i fn = s.
Proof. apply bool_decide_eq_true. Qed.

Lemma name_rest fn c s : at_ fn 0 = c -> drop 1 fn = s -> s <> [] -> fn = c :: s.
Proof. destruct fn as [|x fn]; [by intros ? <-|]. cbn. by intros -> <-. Qed.

Lemma name_rest2 fn c e s : at_ fn 0 = c -> at_ fn 1 = e -> drop 2 fn = s -> s <> [] -> fn = c :: e :: s.
Proof.
  destruct fn as [|x [|y fn]]; [by intros ? ? <-|by intros ? ? <-|]. cbn. by intros -> -> <-.
Qed.

Lemma name_end fn i : no_nul fn = true -> at_ fn i = x00 -> (length fn <= i)%nat.
Proof.
  unfold at_. revert i. induction fn as [|x fn IH]; intros i Hn Hi; simpl in *; [lia|].
  apply andb_prop in Hn as [Hx Hn]. destruct i as [|i].
  - subst x. done.
  - apply IH in Hi; [lia|done].
Qed.

Lemma name3 fn a b c : no_nul fn = true -> at_ fn 0 = a -> at_ fn 1 = b -> at_ fn 2 = c ->
  at_ fn 3 = x00 -> a <> x00 -> b <> x00 -> c <> x00 -> fn = [a; b; c].
Proof.
  intros Hn Ha Hb Hc H3%name_end; [|done].
  destruct fn as [|x [|y [|z [|t fn]]]]; unfold at_ in *; simpl in *; try congruence. lia.
Qed.

Lemma name4 fn a b c d : no_nul fn = true -> at_ fn 0 = a -> at_ fn 1 = b -> at_ fn 2 = c ->
  at_ fn 3 = d -> at_ fn 4 = x00 -> a <> x00 -> b <> x00 -> c <> x00 -> d <> x00 ->
  fn = [a; b; c; d].
Proof.
  intros Hn Ha Hb Hc Hd H4%name_end; [|done].
  destruct fn as [|x [|y [|z [|t [|u fn]]]]]; unfold at_ in *; simpl in *; try congruence. lia.
Qed.

Lemma near_prefix fn : at_ fn 0 = "$"%byte -> at_ fn 1 = "n"%byte -> at_ fn 2 = "e"%byte ->
  at_ fn 3 = "a"%byte -> at_ fn 4 = "r"%byte -> startsWith fn (bstr "$near") = true.
Proof.
  unfold at_. destruct fn as [|c0 [|c1 [|c2 [|c3 [|c4 r]]]]]; simpl; try done.
  by intros -> -> -> -> ->.
Qed.

(** The hand-written character tests of [getGtLtOp] recognise exactly the
    names of the operator table, and as [$near] every name that starts so. *)
Theorem getGtLtOp_table fn def : no_nul fn = true -> getGtLtOp_name fn def = lookup_operator fn def.
Proof.
  intros Hn. unfold lookup_operator. destruct (startsWith fn (bstr "$near")) eqn:Es.
  { apply bool_decide_eq_true in Es.
    destruct fn as [|c0 [|c1 [|c2 [|c3 [|c4 r]]]]]; try discriminate Es.
    by injection Es as -> -> -> -> ->. }
  destruct (List.find _ _) as [[k op]|] eqn:Ef.
  { apply List.find_some in Ef as [Hin Heq]. apply bool_decide_eq_true in Heq. simpl in Heq. subst k.
    clear Es Hn. simpl in Hin. repeat destruct Hin as [Hin|Hin]; try done; by injection Hin as <- <-. }
  assert (forall k op, In (k, op) operator_table -> fn <> k) as Hno.
  { intros k op Hin. eapply List.find_none in Ef; [|exact Hin]. by apply bool_decide_eq_false in Ef. }
  clear Ef. unfold getGtLtOp_name.
  destruct (negb _) eqn:E0; [done|]. apply negb_false_iff, andb_prop in E0 as [E0%at_eqb _].
  repeat match goal with
  | |- (if ?c then _ else _) = _ => destruct c eqn:?
  end; try reflexivity; exfalso;
  repeat match goal with
  | H : _ && _ = true |- _ => apply andb_prop in H as [? ?]
  | H : Byte.eqb (at_ fn _) _ = true |- _ => apply at_eqb in H
  | H : ends_with_at fn _ _ = true |- _ => apply at_rest in H
  end;
  try (rewrite near_prefix in Es by assumption; discriminate Es);
  (eapply Hno;
   [|first [ eapply name3; solve [eassumption | done] | eapply name4; solve [eassumption | done]
           | eapply name_rest2; solve [eassumption | done]
           | eapply name_rest; solve [eassumption | done] ]]);
  vm_compute; repeat first [left; reflexivity | right].
Qed.

Lemma getGtLtOp_table_witness :
  getGtLtOp_name (bstr "$elemMatch") Equality = lookup_operator (bstr "$elemMatch") Equality.
Proof. by apply getGtLtOp_table. Defined.

(** ** The bounds of a type *)

Definition min_value (t : BSONType) : option value :=
  match t with
  | NumberInt | NumberDouble | NumberLong => Some (VDouble (d_opp d_max))
  | Symbol | BSONString => Some (VString [])
  | Date => Some (VBool true)
  | Timestamp => Some (VTimestamp 0)
  | Undefined => Some VUndefined
  | MinKey => Some VMinKey
  | MaxKey => Some VMaxKey
  | jstOID => Some (VOID zero_oid)
  | BSONBool => Some (VBool false)
  | jstNULL => Some VNull
  | Object => Some (VObject [])
  | Array => Some (VArray [])
  | BinData => Some (VBinData x00 [])
  | RegEx => Some (VRegEx [] [])
  | DBRef => Some (VDBRef [] zero_oid)
  | Code => Some (VCode [])
  | CodeWScope => Some (VCodeWScope [] [])
  | EOO | InvalidType _ => None
  end.

Definition max_value (t : BSONType) : option value :=
  match t with
  | NumberInt | NumberDouble | NumberLong => Some (VDouble d_max)
  | Symbol | BSONString => min_value Object
  | Date => Some (VDate LLONG_MAX)
  | Timestamp => Some (VTimestamp (2 ^ 64 - 1))
  | Undefined => Some VUndefined
  | MinKey => Some VMinKey
  | MaxKey => Some VMaxKey
  | jstOID => Some (VOID ff_oid)
  | BSONBool => Some (VBool true)
  | jstNULL => Some VNull
  | Object => min_value Array
  | Array => min_value BinData
  | BinData => min_value jstOID
  | RegEx => min_value DBRef
  | DBRef => min_value Code
  | Code => min_value CodeWScope
  | CodeWScope => min_value MaxKey
  | EOO | InvalidType _ => None
  end.

Lemma appendMinForType_rep name t v : min_value t = Some v -> appends (appendMinForType name t) (name, v).
Proof.
  intros Hv. destruct t; simplify_eq/=; cbn [appendMinForType].
  - apply appendMinKey_rep.
  - apply append_double_rep.
  - apply (append_cstr_rep name (literal []) [] []); [apply points_start|done].
  - apply append_obj_rep, obj_rep_empty.
  - apply appendArray_rep, obj_rep_empty.
  - apply (appendBinData_rep name x00 (Ptr [] 0) []), points_start.
  - apply appendUndefined_rep.
  - by apply append_OID_rep.
  - apply (appendBool_rep name 0).
  - apply (appendBool_rep name 1).
  - apply appendNull_rep.
  - apply appendRegex_rep.
  - by apply appendDBRef_rep.
  - apply appendCode_rep.
  - apply (append_cstr_rep name (literal []) [] []); [apply points_start|done].
  - apply appendCodeWScope_rep, obj_rep_empty.
  - apply append_double_rep.
  - apply appendTimestamp_rep.
  - apply append_double_rep.
  - apply appendMaxKey_rep.
Qed.

Lemma appendMaxForType_rep name t v : max_value t = Some v -> appends (appendMaxForType name t) (name, v).
Proof.
  intros Hv. destruct t; cbn [max_value appendMaxForType] in *;
    try (by apply (appendMinForType_rep name _ v)); try done; simplify_eq.
  - apply appendMinKey_rep.
  - apply append_double_rep.
  - apply appendUndefined_rep.
  - by apply append_OID_rep.
  - apply (appendBool_rep name 1).
  - apply appendDate_rep.
  - apply appendNull_rep.
  - apply append_double_rep.
  - apply appendTimestamp_rep.
  - apply append_double_rep.
  - apply appendMaxKey_rep.
Qed.

(** Values the bounds are right for: no infinities or NaN, integers a double
    holds, and no code with a scope and empty text. *)
Definition boundable (v : value) : bool :=
  match v with
  | VDouble b => in_u 64 b && negb (d_exp b =? 2047)
  | VInt n | VLong n => Z.abs n <? 2 ^ 53
  | VCodeWScope c _ => negb (bool_decide (c = []))
  | _ => true
  end.

Lemma lex_cmp_nil s : lex_cmp [] s <= 0.
Proof. by destruct s. Qed.

Lemma lex_cmp_zeros k s : length s = k -> lex_cmp (repeat x00 k) s <= 0.
Proof.
  revert k. induction s as [|c s IH]; intros k <-; [done|]. cbn [length repeat lex_cmp].
  pose proof (bz_range c). change (bz x00) with 0.
  destruct (Z.ltb_spec 0 (bz c)); [lia|]. destruct (Z.ltb_spec (bz c) 0); [lia|]. by apply IH.
Qed.

Lemma lex_cmp_ff k s : length s = k -> 0 <= lex_cmp (repeat xff k) s.
Proof.
  revert k. induction s as [|c s IH]; intros k <-; [done|]. cbn [length repeat lex_cmp].
  pose proof (bz_range c). change (bz xff) with 255.
  destruct (Z.ltb_spec 255 (bz c)); [lia|]. destruct (Z.ltb_spec (bz c) 255); [lia|]. by apply IH.
Qed.

Lemma finite_key b : in_u 64 b = true -> d_exp b <> 2047 ->
  d_isnan b = false /\ - d_key d_max <= d_key b <= d_key d_max.
Proof.
  intros Hb He. destruct (d_fields b Hb) as (_ & Hm & Hr & Hn).
  split; [unfold d_isnan; by destruct (Z.eqb_spec (d_exp b) 2047)|].
  change (d_key d_max) with (2047 * 2 ^ 52 - 1). unfold d_key.
  change (2 ^ 11) with 2048 in Hr. destruct (d_sign b); lia.
Qed.

Lemma number_finite v : boundable v = true -> isNumber_type (vtype v) = true ->
  exact v = true /\ d_isnan (value_double v) = false /\
  - d_key d_max <= d_key (value_double v) <= d_key d_max.
Proof.
  intros Hb Hn. destruct v; try discriminate Hn; cbn [boundable exact value_double] in *.
  - apply andb_prop in Hb as [Hu He]. split; [done|]. apply finite_key; [done|].
    by apply negb_true_iff, Z.eqb_neq in He.
  - split; [done|]. apply Z.ltb_lt in Hb. destruct (d_of_Z_key n Hb) as (_ & Hnan & Hk).
    split; [done|]. rewrite Hk. pose proof (int_mag_range n). pose proof (int_mag_range (- n)).
    change (d_key d_max) with (2047 * 2 ^ 52 - 1).
    destruct (Z.eqb_spec n 0); [lia|]. destruct (Z.ltb_spec n 0); lia.
  - split; [done|]. apply Z.ltb_lt in Hb. destruct (d_of_Z_key n Hb) as (_ & Hnan & Hk).
    split; [done|]. rewrite Hk. pose proof (int_mag_range n). pose proof (int_mag_range (- n)).
    change (d_key d_max) with (2047 * 2 ^ 52 - 1).
    destruct (Z.eqb_spec n 0); [lia|]. destruct (Z.ltb_spec n 0); lia.
Qed.

Lemma or_else_le a b : a <= 0 -> (a = 0 -> b <= 0) -> exists c, or_else (Ok a) (Ok b) = Ok c /\ c <= 0.
Proof.
  intros Ha Hb. unfold or_else. cbn [bind]. destruct (Z.eqb_spec a 0); eexists; split; eauto.
Qed.

Definition below (v w : value) : Prop := forall n n',
  exists c, compare_field false compare_value (n, v) (n', w) = Ok c /\ c <= 0.

(** A value of a lower canonical type is below. *)
Lemma below_canon v w : canon (vtype v) < canon (vtype w) -> below v w.
Proof.
  intros H n n'. unfold compare_field, or_else, zcmp. cbn [fst snd bind].
  destruct (Z.eqb_spec (Z.sgn (canon (vtype v) - canon (vtype w))) 0); [lia|].
  eexists. split; [done|lia].
Qed.

Lemma below_value v w c : canon (vtype v) = canon (vtype w) -> compare_value v w = Ok c -> c <= 0 ->
  below v w.
Proof.
  intros H Hc Hle n n'. unfold compare_field. cbn [fst snd]. rewrite H, zcmp_refl, Hc.
  by exists c.
Qed.

Lemma below_or v w a b : canon (vtype v) = canon (vtype w) ->
  compare_value v w = or_else (Ok a) (Ok b) -> a <= 0 -> (a = 0 -> b <= 0) -> below v w.
Proof.
  intros H Hc Ha Hb. destruct (or_else_le a b Ha Hb) as (c & E & Hle).
  apply (below_value v w c); congruence || done.
Qed.

Lemma min_below v lo : wf_value v = true -> boundable v = true -> min_value (vtype v) = Some lo ->
  below lo v.
Proof.
  intros Hw Hb Hlo. destruct (isNumber_type (vtype v)) eqn:Hn.
  { destruct (number_finite v Hb Hn) as (Hex & Hnan & Hr).
    assert (lo = VDouble (d_opp d_max)) as -> by (destruct v; simplify_eq/=; done).
    eapply below_value; [by destruct v| |].
    - rewrite number_compare by done. reflexivity.
    - unfold nkey. rewrite Hnan. cbn [value_double]. change (d_isnan (d_opp d_max)) with false.
      change (d_key (d_opp d_max)) with (- d_key d_max). unfold zcmp. lia. }
  destruct v; try discriminate Hn; cbn [min_value vtype] in Hlo; injection Hlo as <-;
    try (by apply below_canon); cbn [wf_value] in Hw; wf_split;
    try (by eapply below_value).
  - eapply below_value; [done|reflexivity|apply lex_cmp_nil].
  - eapply below_value; [done|reflexivity|apply lex_cmp_nil].
  - eapply below_value; [done|reflexivity|apply lex_cmp_nil].
  - by destruct d; eapply below_value.
  - by destruct d; eapply below_value.
  - pose proof (zlen_nonneg data).
    eapply below_or; [done|reflexivity|unfold zcmp; change (zlen (@nil byte)) with 0; lia|].
    unfold zcmp. change (zlen (@nil byte)) with 0. intros Hz.
    destruct data as [|c x]; [|rewrite zlen_cons in Hz; pose proof (zlen_nonneg x); lia].
    cbn [lex_cmp]. pose proof (bz_range subtype). change (bz x00) with 0.
    destruct (Z.ltb_spec 0 (bz subtype)); [lia|]. by destruct (Z.ltb_spec (bz subtype) 0); [lia|].
  - eapply below_value; [done|reflexivity|]. apply lex_cmp_zeros. unfold zlen in *. lia.
  - by destruct b; eapply below_value.
  - eapply below_value; [done|reflexivity|]. unfold zcmp.
    match goal with H : in_u 64 _ = true |- _ => apply in_u_spec in H end. lia.
  - eapply below_or; [done|reflexivity|apply lex_cmp_nil|intros _; apply lex_cmp_nil].
  - destruct (or_else_le (lex_cmp [] ns) (lex_cmp zero_oid oid)) as (c & Hc & Hle);
      [apply lex_cmp_nil|intros _; apply lex_cmp_zeros; unfold zlen in *; lia|].
    eapply below_or; [done|cbn [compare_value]; rewrite Hc; reflexivity| |done].
    pose proof (zlen_nonneg ns). unfold zcmp. change (zlen (@nil byte)) with 0. lia.
  - eapply below_or; [done|reflexivity|apply lex_cmp_nil|].
    intros E%lex_cmp_eq. subst code. discriminate Hb.
Qed.

Lemma max_above v hi : wf_value v = true -> boundable v = true -> max_value (vtype v) = Some hi ->
  below v hi.
Proof.
  intros Hw Hb Hhi. destruct (isNumber_type (vtype v)) eqn:Hn.
  { destruct (number_finite v Hb Hn) as (Hex & Hnan & Hr).
    assert (hi = VDouble d_max) as -> by (destruct v; simplify_eq/=; done).
    eapply below_value; [by destruct v| |].
    - rewrite number_compare by done. reflexivity.
    - unfold nkey. rewrite Hnan. cbn [value_double]. change (d_isnan d_max) with false.
      cbv iota. unfold zcmp. lia. }
  destruct v; try discriminate Hn; cbn [max_value min_value vtype] in Hhi; injection Hhi as <-;
    try (by apply below_canon); cbn [wf_value] in Hw; wf_split;
    try (by eapply below_value).
  - eapply below_value; [done|reflexivity|]. rewrite lex_cmp_antisym.
    pose proof (lex_cmp_ff 12 oid). change ff_oid with (repeat xff 12). unfold zlen in *. lia.
  - by destruct b; eapply below_value.
  - eapply below_value; [done|reflexivity|]. unfold zcmp. pose proof (wrap_s_range 64 millis).
    change (s64 LLONG_MAX) with LLONG_MAX. unfold LLONG_MAX. change (64 - 1) with 63 in *. lia.
  - eapply below_value; [done|reflexivity|]. unfold zcmp.
    match goal with H : in_u 64 _ = true |- _ => apply in_u_spec in H end. lia.
Qed.

(** for every well-formed value [v] but the infinities, NaN and code with
    empty text and a scope, [appendMinForType] of its type appends a value the
    comparison puts at or below [v] and [appendMaxForType] one at or above. *)
Theorem type_bounds_correct v : wf_value v = true -> boundable v = true ->
  exists lo hi,
    (forall name, appends (appendMinForType name (vtype v)) (name, lo)) /\
    (forall name, appends (appendMaxForType name (vtype v)) (name, hi)) /\
    below lo v /\ below v hi.
Proof.
  intros Hw Hb.
  assert (exists lo hi, min_value (vtype v) = Some lo /\ max_value (vtype v) = Some hi)
    as (lo & hi & Hlo & Hhi) by (destruct v; by eexists _, _).
  exists lo, hi. split; [intros; by apply appendMinForType_rep|].
  split; [intros; by apply appendMaxForType_rep|].
  split; [by apply min_below|by apply max_above].
Qed.

Lemma type_bounds_correct_witness :
  exists lo hi,
    (forall name, appends (appendMinForType name (vtype (VLong (- 7)))) (name, lo)) /\
    (forall name, appends (appendMaxForType name (vtype (VLong (- 7)))) (name, hi)) /\
    below lo (VLong (- 7)) /\ below (VLong (- 7)) hi.
Proof. by apply type_bounds_correct. Defined.

(** The object with the least element of a type, compared with a document. *)
Definition against_min (t : BSONType) (d : doc) : result Z :=
  let* b := BSONObjBuilder_new 512 in
  let* b := appendMinForType [] t b in
  let* o := obj b in
  woCompare (obj_of d) o.

(** The exceptions are real: minus infinity is below the lower bound
    [appendMinForType] gives for the doubles, and so is NaN; code with empty
    text and a scope of 256 bytes is below the lower bound of its type. *)
Theorem type_bounds_exceptions :
  against_min NumberDouble [([], VDouble d_ninf)] = Ok (-1) /\
  against_min NumberDouble [([], VDouble d_nan)] = Ok (-1) /\
  against_min CodeWScope [([], VCodeWScope [] [(bstr "a", VString (repeat "x"%byte 243))])]
    = Ok (-1).
Proof. vm_compute. auto. Qed.

(** ** Array builders number their elements *)

(** The array builder holds the values [vs], named by their positions. *)
Definition number_fields (k : Z) (vs : list value) : doc :=
  zip_with (fun i v => (dec i, v)) (seqZ k (zlen vs)) vs.

Definition arr_rep (a : BSONArrayBuilder) (pre : list byte) (vs : list value) : Prop :=
  arr_i a = zlen vs /\ b_rep (arr_b a) pre (number_fields 0 vs).

Lemma number_fields_cons k v vs : number_fields k (v :: vs) = (dec k, v) :: number_fields (k + 1) vs.
Proof.
  unfold number_fields. rewrite zlen_cons. pose proof (zlen_nonneg vs).
  rewrite seqZ_cons by lia. cbn [zip_with]. do 2 f_equal.
  replace (Z.pred (1 + zlen vs)) with (zlen vs) by lia. by replace (Z.succ k) with (k + 1) by lia.
Qed.

Lemma number_fields_snoc k vs v : number_fields k (vs ++ [v]) = number_fields k vs ++ [(dec (k + zlen vs), v)].
Proof.
  revert k. induction vs as [|w vs IH]; intros k.
  - cbn [app]. rewrite number_fields_cons, zlen_nil. by replace (k + 0) with k by lia.
  - rewrite <- app_comm_cons, !number_fields_cons, IH, zlen_cons.
    by replace (k + 1 + zlen vs) with (k + (1 + zlen vs)) by lia.
Qed.

Lemma number_fields_indexed k vs : indexed k (number_fields k vs) = true.
Proof.
  revert k. induction vs as [|v vs IH]; intros k; [done|].
  rewrite number_fields_cons. cbn [indexed]. rewrite IH, andb_true_r.
  by apply bool_decide_eq_true.
Qed.

Lemma arr_append_rep app v a pre vs : (forall name, appends (app name) (name, v)) ->
  arr_rep a pre vs -> fits (_b (arr_b a)) (zlen (enc_elem (dec (zlen vs), v))) ->
  exists a', arr_append app a = Ok a' /\ arr_rep a' pre (vs ++ [v]) /\
    owned (arr_b a') = owned (arr_b a).
Proof.
  intros Happ [Hi Hb] Hf. unfold arr_append, numStr. rewrite Hi.
  destruct (Happ (dec (zlen vs)) _ _ _ Hb Hf) as (b' & -> & Hb' & Ho). cbn [bind].
  eexists. split; [reflexivity|]. split; [|done]. split; cbn [arr_i arr_b].
  - rewrite zlen_app. done.
  - by rewrite number_fields_snoc.
Qed.

(** Filling up to a position appends nulls, each of at most nine bytes. *)
Lemma arr_fill_go_rep fuel : forall upTo a pre vs, upTo <= 1500000 ->
  arr_rep a pre vs -> (Z.to_nat (upTo - zlen vs) < fuel)%nat ->
  fits (_b (arr_b a)) (9 * Z.max 0 (upTo - zlen vs)) ->
  exists a', arr_fill_go fuel upTo a = Ok a' /\
    arr_rep a' pre (vs ++ repeat VNull (Z.to_nat (upTo - zlen vs))) /\
    owned (arr_b a') = owned (arr_b a).
Proof.
  induction fuel as [|fuel IH]; intros upTo a pre vs Hu Ha Hf Hfit; [lia|]. cbn [arr_fill_go].
  destruct Ha as [Hi Hb]. rewrite Hi. destruct (Z.ltb_spec (zlen vs) upTo) as [Hlt|Hge].
  - pose proof (zlen_nonneg vs). destruct (dec_nonneg_spec (zlen vs) ltac:(lia)) as (_ & _ & _ & Hl & _).
    assert (zlen (enc_elem (dec (zlen vs), VNull)) <= 9) as Hsz.
    { rewrite zlen_enc_elem. change (zlen (enc_value VNull)) with 0. unfold dec.
      destruct (Z.ltb_spec (zlen vs) 0); [lia|]. specialize (Hl 7 ltac:(lia)). lia. }
    destruct (arr_append_rep appendNull VNull a pre vs) as (a1 & Ha1 & Hr & Ho).
    { intros. apply appendNull_rep. } { done. } { unfold fits in *. lia. }
    unfold arr_appendNull. rewrite Ha1. cbn [bind].
    destruct (IH upTo a1 pre (vs ++ [VNull])) as (a2 & Ha2 & Hr2 & Ho2); try done.
    { rewrite zlen_app. change (zlen [VNull]) with 1. lia. }
    { unfold fits in *. rewrite zlen_app. change (zlen [VNull]) with 1.
      rewrite (b_rep_len _ _ _ (proj2 Hr)), number_fields_snoc, enc_elems_app, zlen_app.
      rewrite (b_rep_len _ _ _ Hb) in Hfit.
      assert (zlen (enc_elems [(dec (0 + zlen vs), VNull)]) = zlen (enc_elem (dec (zlen vs), VNull))) as ->.
      { unfold enc_elems. cbn [flat_map]. by rewrite app_nil_r. }
      lia. }
    exists a2. split; [done|]. split; [|congruence].
    rewrite zlen_app in Hr2. change (zlen [VNull]) with 1 in Hr2. rewrite <- app_assoc in Hr2.
    replace (Z.to_nat (upTo - zlen vs)) with (S (Z.to_nat (upTo - (zlen vs + 1)))) by lia. done.
  - replace (Z.to_nat (upTo - zlen vs)) with O by lia. cbn [repeat]. rewrite app_nil_r.
    by exists a.
Qed.

Lemma fill_size vs n : zlen vs <= 2 ^ 31 -> n <= 1500000 ->
  zlen (enc_elems (number_fields 0 (vs ++ repeat VNull (Z.to_nat (n - zlen vs))))) <=
  zlen (enc_elems (number_fields 0 vs)) + 9 * Z.max 0 (n - zlen vs).
Proof.
  intros Hv Hn. pose proof (zlen_nonneg vs).
  assert (forall k : nat, zlen vs + Z.of_nat k <= Z.max (zlen vs) n ->
    zlen (enc_elems (number_fields 0 (vs ++ repeat VNull k))) <=
    zlen (enc_elems (number_fields 0 vs)) + 9 * Z.of_nat k) as Hk.
  { induction k as [|k IH]; intros Hle; [cbn [repeat]; rewrite app_nil_r; lia|].
    replace (S k) with (k + 1)%nat by lia. rewrite repeat_app. cbn [repeat].
    rewrite app_assoc, number_fields_snoc, enc_elems_app, zlen_app.
    replace (zlen (enc_elems [(dec (0 + zlen (vs ++ repeat VNull k)), VNull)]))
      with (zlen (enc_elem (dec (zlen vs + Z.of_nat k), VNull))).
    2: { unfold enc_elems. cbn [flat_map]. rewrite app_nil_r, zlen_app. unfold zlen at 5.
         by rewrite repeat_length. }
    rewrite zlen_enc_elem. change (zlen (enc_value VNull)) with 0.
    destruct (dec_nonneg_spec (zlen vs + Z.of_nat k) ltac:(lia)) as (_ & _ & _ & Hl & _).
    unfold dec. destruct (Z.ltb_spec (zlen vs + Z.of_nat k) 0); [lia|].
    specialize (Hl 7 ltac:(lia) ltac:(lia)). specialize (IH ltac:(lia)). lia. }
  specialize (Hk (Z.to_nat (n - zlen vs)) ltac:(lia)). lia.
Qed.

(** Appending a value to an array builder under the decimal name of a
    position first fills the array with nulls up to it, and the values are
    then named 0, 1, 2, ... without a gap; a position already passed is
    ignored and the value goes to the end; a name that is no number throws
    13048 and a position above 1,500,000 throws 15891. *)
Theorem arr_append_named_correct app v a pre vs n :
  (forall name, appends (app name) (name, v)) -> arr_rep a pre vs ->
  0 <= n < 2 ^ 31 -> zlen vs < 2 ^ 31 ->
  (1500000 < n -> arr_append_named app (dec n) a = Err (UserAssert 15891)) /\
  (n <= 1500000 ->
   fits (_b (arr_b a)) (9 * Z.max 0 (n - zlen vs) + zlen (enc_value v) + 12) ->
   exists a', arr_append_named app (dec n) a = Ok a' /\
     arr_rep a' pre (vs ++ repeat VNull (Z.to_nat (n - zlen vs)) ++ [v]) /\
     indexed 0 (number_fields 0 (vs ++ repeat VNull (Z.to_nat (n - zlen vs)) ++ [v])) = true).
Proof.
  intros Happ Ha Hn Hvs. unfold arr_append_named, arr_fill_name, arr_fill.
  rewrite parse_dec_roundtrip by (unfold limits_min, limits_max; lia).
  rewrite wrap_s_small by (change (2 ^ (32 - 1)) with (2 ^ 31); lia). split.
  { intros Hbig. by destruct (Z.leb_spec n 1500000); [lia|]. }
  intros Hsmall Hfit. destruct (Z.leb_spec n 1500000); [|lia]. cbn [uassert bind].
  pose proof (zlen_nonneg vs). pose proof (zlen_nonneg (enc_value v)).
  destruct (arr_fill_go_rep (S (Z.to_nat (n - arr_i a))) n a pre vs) as (a1 & -> & Hr & Ho); try done.
  { rewrite (proj1 Ha). lia. } { unfold fits in *. lia. }
  cbn [bind]. set (ws := vs ++ repeat VNull (Z.to_nat (n - zlen vs))) in *.
  assert (zlen ws = Z.max (zlen vs) n) as Hws.
  { unfold ws. rewrite zlen_app. unfold zlen at 2. rewrite repeat_length. lia. }
  destruct (arr_append_rep app v a1 pre ws Happ Hr) as (a2 & Ha2 & Hr2 & _).
  { destruct (dec_nonneg_spec (zlen ws) ltac:(lia)) as (_ & _ & _ & Hl & _).
    unfold fits in *. rewrite zlen_enc_elem. unfold dec. destruct (Z.ltb_spec (zlen ws) 0); [lia|].
    specialize (Hl 10 ltac:(lia) ltac:(lia)).
    enough (len (_b (arr_b a1)) <= len (_b (arr_b a)) + 9 * Z.max 0 (n - zlen vs)) by lia.
    rewrite (b_rep_len _ _ _ (proj2 Hr)), (b_rep_len _ _ _ (proj2 Ha)).
    enough (zlen (enc_elems (number_fields 0 ws)) <=
      zlen (enc_elems (number_fields 0 vs)) + 9 * Z.max 0 (n - zlen vs)) by lia.
    apply fill_size; lia. }
  exists a2. split; [done|]. unfold ws in Hr2. rewrite <- app_assoc in Hr2.
  split; [done|]. apply number_fields_indexed.
Qed.

Lemma arr_append_named_correct_witness :
  exists a a', BSONArrayBuilder_new 512 = Ok a /\
    arr_append_named (fun name => append_int name 7) (bstr "2") a = Ok a' /\
    arr_rep a' (le32 0) [VNull; VNull; VInt 7].
Proof.
  destruct (new_rep 512 ltac:(by vm_compute)) as (b & Hb & Hr & _ & Hl).
  destruct (arr_append_named_correct (fun name => append_int name 7) (VInt 7) (MkArr 0 b) (le32 0) [] 2)
    as [_ H].
  - intros. apply append_int_rep.
  - by split.
  - by vm_compute.
  - by vm_compute.
  - destruct H as (a' & Ha' & Hr' & _); [by vm_compute| |].
    + unfold fits. cbn [arr_b]. rewrite Hl. by vm_compute.
    + exists (MkArr 0 b), a'. split; [unfold BSONArrayBuilder_new; by rewrite Hb|]. by split.
Defined.
