(* ===== verification/Embedded.v ===== *)
(** * Embedded: nested objects and dotted names (util/embedded_builder.h,
    dotted2nested and nested2dotted of db/jsobj.cpp, bson2map of
    bson/bson-inl.h)

    An [EmbeddedBuilder] keeps a builder for each component of the name it has
    appended last, all on one buffer, and opens and closes them as the next
    name needs.  It expects the names in order, as [dotted2nested] gives them.
    [dotted] spells a document out by dotted names, and is what the two
    conversions preserve. *)

From stdpp Require Import base list numbers strings option sets sorting tactics.
From Stdlib Require Import Strings.Byte ZArith Lia.
From S2P Require Import Prelude Memory Decimal Text BsonTypes Format Element Obj Access Compare Order Builder JsObj JsObjSpec.

(** ** The builder *)

(** [s.substr(pos)]. *)
Definition substr (pos : nat) (s : list byte) : result (list byte) :=
  if (length s <? pos)%nat then Err (StdException (bstr "basic_string::substr")) else Ok (drop pos s).

(** [_builders], the innermost first; the last one is the builder given. *)
Abbreviation EmbeddedBuilder := (list (list byte * BSONObjBuilder)).

Definition EmbeddedBuilder_new (b : BSONObjBuilder) : EmbeddedBuilder := [([], b)].

(** [splitDot]: the part before the first dot, and the rest. *)
Definition splitDot (str_ : list byte) : list byte * list byte :=
  match split_dot str_ with Some (ret, rest) => (ret, rest) | None => ([], str_) end.

Definition addBuilder (name : list byte) (eb : EmbeddedBuilder) : result EmbeddedBuilder :=
  match eb with
  | [] => Err UndefinedBehaviour
  | (n, back) :: eb' =>
      let* back := subobjStart name back in
      let* newBuilder := BSONObjBuilder_on (_b back) in
      Ok ((name, newBuilder) :: (n, back) :: eb')
  end.

Definition popBuilder (eb : EmbeddedBuilder) : result EmbeddedBuilder :=
  match eb with
  | (_, back) :: (n, parent) :: eb' =>
      let* '(_, back) := done back in
      Ok ((n, set_b parent (_b back)) :: eb')
  | _ => Err UndefinedBehaviour
  end.

Fixpoint popBuilders (n : nat) (eb : EmbeddedBuilder) : result EmbeddedBuilder :=
  match n with
  | O => Ok eb
  | S n' => let* eb' := popBuilder eb in popBuilders n' eb'
  end.

(** The first loop of [prepareContext]: the builders the name goes through, and
    what is left of it. *)
Fixpoint follow (firsts : list (list byte)) (name : list byte) : result (nat * list byte) :=
  match firsts with
  | [] => Ok (O, name)
  | first :: firsts' =>
      let n := length first in
      if bytes_eqb (take n name) first && (Byte.eqb (at_ name n) "." || Byte.eqb (at_ name n) x00) then
        let* name := substr (n + 1) name in
        let* '(i, name) := follow firsts' name in
        Ok (S i, name)
      else Ok (O, name)
  end.

(** The last loop: a builder for each component. *)
Fixpoint open_path (fuel : nat) (name : list byte) (eb : EmbeddedBuilder)
    : result (list byte * EmbeddedBuilder) :=
  match fuel with
  | O => Err OutOfFuel
  | S fuel' =>
      match splitDot name with
      | ([], name) => Ok (name, eb)
      | (next, name) => let* eb := addBuilder next eb in open_path fuel' name eb
      end
  end.

Definition prepareContext (name : list byte) (eb : EmbeddedBuilder)
    : result (list byte * EmbeddedBuilder) :=
  let firsts := tail (rev (map fst eb)) in
  let* '(i, name) := follow firsts name in
  let* eb := popBuilders (length firsts - i) eb in
  open_path (S (length name)) name eb.

Definition on_back {A} (f : BSONObjBuilder -> result (A * BSONObjBuilder)) (eb : EmbeddedBuilder)
    : result (A * EmbeddedBuilder) :=
  match eb with
  | [] => Err UndefinedBehaviour
  | (n, back) :: eb' => let* '(a, back) := f back in Ok (a, (n, back) :: eb')
  end.

(** An object without fields only opens its builder, so that fields can follow. *)
Definition eb_appendAs (e : BSONElement) (name : list byte) (eb : EmbeddedBuilder)
    : result EmbeddedBuilder :=
  let* t := type e in
  let* empty_object := if bool_decide (t = Object) then let* n := valuesize e in Ok (n =? 5) else Ok false in
  if empty_object : bool then
    let* '(_, eb) := prepareContext (name ++ bstr ".foo") eb in Ok eb
  else
    let* '(name, eb) := prepareContext name eb in
    let* '(_, eb) := on_back (fun b => let* b := appendAs e name b in Ok (tt, b)) eb in
    Ok eb.

(** [subarrayStartAs]: the buffer for the array. *)
Definition subarrayStartAs (name : list byte) (eb : EmbeddedBuilder) : result (BufBuilder * EmbeddedBuilder) :=
  let* '(name, eb) := prepareContext name eb in
  on_back (fun b => let* b := subarrayStart name b in Ok (_b b, b)) eb.

Definition eb_done (eb : EmbeddedBuilder) : result EmbeddedBuilder := popBuilders (length eb - 1) eb.

(** ** The conversions *)

(** [m[name] = e] of a [std::map], which is kept as a sorted list. *)
Fixpoint map_set {A} (k : list byte) (x : A) (m : list (list byte * A)) : list (list byte * A) :=
  match m with
  | [] => [(k, x)]
  | (k', x') :: m' =>
      if lex_cmp k k' <? 0 then (k, x) :: m
      else if lex_cmp k' k <? 0 then (k', x') :: map_set k x m'
      else (k', x) :: m'
  end.

Definition bson2map (o : BSONObj) : result (list (list byte * BSONElement)) :=
  finish Ok
    (for_elements o [] (fun m e => let* n := field_name e in Ok (Continue (map_set n e m)))).

Fixpoint append_all (sorted : list (list byte * BSONElement)) (eb : EmbeddedBuilder) : result EmbeddedBuilder :=
  match sorted with
  | [] => Ok eb
  | (n, e) :: sorted' => let* eb := eb_appendAs e n eb in append_all sorted' eb
  end.

Definition dotted2nested (b : BSONObjBuilder) (o : BSONObj) : result BSONObjBuilder :=
  let* sorted := bson2map o in
  let* eb := append_all sorted (EmbeddedBuilder_new b) in
  let* eb := eb_done eb in
  match eb with
  | [(_, b)] => Ok b
  | _ => Err UndefinedBehaviour
  end.

(** The form that returns an object. *)
Definition dotted2nested_obj (o : BSONObj) : result BSONObj :=
  let* b := BSONObjBuilder_new 512 in
  let* b := dotted2nested b o in
  obj b.

(** [BSONElementFieldNameCmp], the order of [bson2set]. *)
Definition BSONElementFieldNameCmp (l r : BSONElement) : result bool :=
  let* a := field_name l in
  let* b := field_name r in
  Ok (lex_cmp a b <=? 0).

(** ** Documents by dotted names *)

(** The fields of a value under a name; an object without fields has none. *)
Fixpoint dotted_value (name : list byte) (v : value) {struct v} : doc :=
  match v with
  | VObject d => flat_map (fun f : field => dotted_value (name ++ dot :: fst f) (snd f)) d
  | _ => [(name, v)]
  end.

Definition dotted (d : doc) : doc := flat_map (fun f : field => dotted_value (fst f) (snd f)) d.

(** The fields with a prefix on their names. *)
Definition under (p : list byte) : doc -> doc := map (fun f : field => (p ++ fst f, snd f)).

Lemma under_nil l : under [] l = l.
Proof. unfold under. rewrite <- (map_id l) at 2. apply map_ext. by intros []. Qed.

Lemma under_app p l l' : under p (l ++ l') = under p l ++ under p l'.
Proof. apply map_app. Qed.

Lemma under_under p q l : under p (under q l) = under (p ++ q) l.
Proof.
  unfold under. rewrite map_map. apply map_ext. intros [n v]. cbn. by rewrite app_assoc.
Qed.

Lemma under_value p v : forall n, under p (dotted_value n v) = dotted_value (p ++ n) v.
Proof.
  pattern v. apply value_nested_ind; clear v; [intros v|intros d IH|intros d _|intros c d _]; try done.
  - destruct v; try exact I; done.
  - intros n. cbn [dotted_value]. induction IH as [|[k v] d Hv _ IHd]; [done|].
    cbn [flat_map fst snd] in *. rewrite under_app, Hv, IHd. do 2 f_equal. by rewrite <- app_assoc.
Qed.

Lemma dotted_app d d' : dotted (d ++ d') = dotted d ++ dotted d'.
Proof. apply flat_map_app. Qed.

Lemma dotted_object n d : dotted_value n (VObject d) = under (n ++ [dot]) (dotted d).
Proof.
  cbn [dotted_value]. induction d as [|[k v] d IH]; [done|]. unfold dotted in *.
  cbn [flat_map fst snd]. rewrite under_app, <- IH, under_value. by rewrite <- app_assoc.
Qed.

Lemma under_dotted p d : under p (dotted d) = flat_map (fun f : field => dotted_value (p ++ fst f) (snd f)) d.
Proof.
  induction d as [|[k v] d IH]; [done|]. unfold dotted in *. cbn [flat_map fst snd].
  by rewrite under_app, under_value, IH.
Qed.

(** The recursion of [nested2dotted]: the size of an object bounds its depth. *)
Lemma nested2dotted_does depth : forall d o base,
  obj_rep o d -> zlen (enc_doc d) <= Z.of_nat depth ->
  does (fun b => nested2dotted_go depth b o base) (under base (dotted d)).
Proof.
  induction depth as [|depth IH]; intros d o base Ho Hd.
  { rewrite zlen_enc_doc in Hd. pose proof (zlen_nonneg (enc_elems d)). lia. }
  intros b pre d0 Hb Hf. cbn [nested2dotted_go]. rewrite under_dotted in *.
  set (stp := fun f : field => dotted_value (base ++ fst f) (snd f)) in *.
  edestruct (for_elements_inv (R := BSONObjBuilder) (S := BSONObjBuilder)
    (fun b e => let* t := type e in let* f := field_name e in
       if bool_decide (t = Object) then
         let* sub := embeddedObject e in
         let* b' := nested2dotted_go depth b sub (base ++ f ++ bstr ".") in Ok (Continue b')
       else let* b' := appendAs e (base ++ f) b in Ok (Continue b'))
    (fun seen b' => b_rep b' pre (d0 ++ flat_map stp seen) /\ owned b' = owned b) d o b Ho)
    as (b' & -> & Hb' & How).
  - intros seen n v post s e Hall [Hs How] Hok Hm.
    rewrite (type_rep _ _ _ Hok), (field_name_rep _ _ _ Hok). cbn [bind].
    assert (does (fun b => if bool_decide (vtype v = Object) then
              let* sub := embeddedObject e in nested2dotted_go depth b sub (base ++ n ++ bstr ".")
            else appendAs e (base ++ n) b) (stp (n, v))) as Hdo.
    { destruct (decide (vtype v = Object)) as [Hv|Hv].
      - rewrite bool_decide_true by done. destruct v as [ | | | | | | | |d'| | | | | | | | | | | ]; try done.
        destruct (embedded_rep _ _ _ d' Hok eq_refl) as (sub & Hsub & Hsr & _). rewrite Hsub. cbn [bind].
        unfold stp. cbn [fst snd]. rewrite dotted_object, <- app_assoc. apply IH; [done|].
        rewrite Hall in Hd. rewrite zlen_enc_doc, enc_elems_app, zlen_app, zlen_enc_elems_cons, zlen_enc_elem in Hd.
        rewrite enc_value_object in Hd. pose proof (zlen_nonneg n). pose proof (zlen_nonneg (enc_elems seen)).
        pose proof (zlen_nonneg (enc_elems post)). lia.
      - rewrite bool_decide_false by done. unfold stp. cbn [fst snd].
        replace (dotted_value (base ++ n) v) with [(base ++ n, v)] by (by destruct v).
        apply does_append, (appendAs_rep _ _ _ _ Hok). }
    destruct (Hdo s pre _ Hs) as (s' & Hs' & Hr & Ho').
    + unfold fits in *. rewrite (b_rep_len _ _ _ Hs), enc_elems_app, zlen_app.
      rewrite (b_rep_len _ _ _ Hb), Hall, flat_map_app, enc_elems_app, zlen_app in Hf. cbn [flat_map] in Hf.
      rewrite enc_elems_app, zlen_app in Hf. pose proof (zlen_nonneg (enc_elems (flat_map stp post))). lia.
    + exists s'. split.
      * destruct (bool_decide _); [|by rewrite Hs'].
        apply bind_ok_inv in Hs' as (sub & -> & Hs'). cbn [bind]. by rewrite Hs'.
      * split; [|congruence]. rewrite flat_map_app. cbn [flat_map]. by rewrite app_nil_r, app_assoc.
  - split; [|done]. by rewrite app_nil_r.
  - cbn [finish bind]. by exists b'.
Qed.

Lemma nested2dotted_rep o d : obj_rep o d -> wf_doc (dotted d) = true ->
  exists o', nested2dotted o = Ok o' /\ obj_rep o' (dotted d).
Proof.
  intros Ho Hw. unfold nested2dotted.
  destruct (new_rep 512 ltac:(by vm_compute)) as (b & -> & Hb & Hown & Hl). cbn [bind].
  pose proof (wf_doc_size _ Hw) as Hs. rewrite zlen_enc_doc, obj_max_val in Hs.
  destruct (nested2dotted_does (fuel_of o) d o [] Ho) with (b := b) (pre := le32 0) (d := @nil field)
    as (b' & -> & Hb' & How); [|done| |].
  - destruct Ho as [(_ & post & Hd & Hl') _]. unfold fuel_of.
    assert (zlen (enc_doc d) <= zlen (mem o)); [|unfold zlen in *; lia].
    unfold zlen. apply (f_equal length) in Hd. rewrite length_drop, length_app in Hd. lia.
  - rewrite under_nil. unfold fits. rewrite Hl. change BufferMaxSize with 67108864. lia.
  - cbn [bind]. rewrite under_nil in Hb'. eapply obj_done; [done| |done|congruence].
    unfold fits. rewrite (b_rep_len _ _ _ Hb'), zlen_le_bytes. change BufferMaxSize with 67108864. cbn [app]. lia.
Qed.

(** ** What the open builders hold *)

(** The document each builder has so far, innermost first, as the builders. *)
Abbreviation context := (list (list byte * doc)).

Inductive stack_rep : EmbeddedBuilder -> list byte -> context -> Prop :=
  | stack_root n b pre d : b_rep b pre d -> stack_rep [(n, b)] pre [(n, d)]
  | stack_sub n b bs pre d ctx p name sub sd :
      stack_rep ((n, b) :: bs) pre ((n, d) :: ctx) ->
      opened b p (enc_header Object name) ->
      b_rep sub (buf (_b b) ++ enc_header Object name) sd ->
      stack_rep ((name, sub) :: (n, p) :: bs) pre ((name, sd) :: (n, d) :: ctx).

(** The name the open builders spell, with a dot after each. *)
Fixpoint path_of (ctx : context) : list byte :=
  match ctx with
  | [] | [_] => []
  | (n, _) :: ctx' => path_of ctx' ++ n ++ [dot]
  end.

(** What has been appended, by dotted names. *)
Fixpoint flat (ctx : context) : doc :=
  match ctx with
  | [] => []
  | (_, d) :: ctx' => flat ctx' ++ under (path_of ctx) (dotted d)
  end.

(** The bytes used, when the open builders are closed. *)
Definition used (eb : EmbeddedBuilder) : Z :=
  match eb with [] => 0 | (_, b) :: _ => len (_b b) + zlen eb - 1 end.

Definition wf_context (ctx : context) : Prop :=
  Forall (fun p : list byte * doc => no_nul (fst p) = true /\ Forall (fun f => wf_field f = true) (snd p)) ctx.

Lemma stack_length eb pre ctx : stack_rep eb pre ctx -> map fst eb = map fst ctx /\ (1 <= length eb)%nat.
Proof. induction 1 as [|n b bs pre d ctx p name sub sd Hs [IH _] Ho Hb]; cbn in *; [split; [done|lia]|]. split; [congruence|lia]. Qed.

(** The innermost builder can be replaced by one that holds something else. *)
Lemma stack_back n b bs pre d ctx :
  stack_rep ((n, b) :: bs) pre ((n, d) :: ctx) ->
  exists bpre, b_rep b bpre d /\ forall b' d', b_rep b' bpre d' -> stack_rep ((n, b') :: bs) pre ((n, d') :: ctx).
Proof.
  inversion 1; subst.
  - exists pre. split; [done|]. intros. by constructor.
  - eexists. split; [done|]. intros. by econstructor.
Qed.

Lemma stack_top eb pre ctx : stack_rep eb pre ctx ->
  exists n b bs d ctx', eb = (n, b) :: bs /\ ctx = (n, d) :: ctx'.
Proof. destruct 1; eauto 10. Qed.

Lemma b_rep_size b pre d : b_rep b pre d -> zlen (enc_elems d) + 4 <= len (_b b).
Proof. intros Hb. rewrite (b_rep_len _ _ _ Hb). pose proof (zlen_nonneg pre). lia. Qed.

Lemma wf_fields d : Forall (fun f => wf_field f = true) d ->
  zlen (enc_elems d) + 5 <= BSONObjMaxInternalSize -> wf_doc d = true.
Proof.
  intros H Hz. unfold wf_doc. rewrite zlen_enc_doc. apply andb_true_intro. split; [|lia].
  apply forallb_forall. by apply List.Forall_forall.
Qed.

(** The size within which everything stays. *)
Definition roomy (n : Z) : Prop := n + 1 <= BSONObjMaxInternalSize.

Lemma roomy_fits b n : len b + n <= BSONObjMaxInternalSize -> fits b n.
Proof. unfold fits. rewrite obj_max_val. change BufferMaxSize with 67108864. lia. Qed.

Lemma done_rep b pre d : b_rep b pre d -> fits (_b b) 1 -> wf_doc d = true ->
  exists o b', done b = Ok (o, b') /\ _done b = Ok b'.
Proof.
  intros Hb Hf Hw. destruct (_done_rep _ _ _ Hb Hf) as (b' & Hd & E & Ho & _).
  unfold done. rewrite Hd. cbn [bind]. unfold objdata. rewrite E, Ho.
  rewrite (BSONObj_init_rep _ d (obj_at pre d Hw)). cbn [bind]. eauto.
Qed.

Lemma popBuilder_rep eb pre x y ctx :
  stack_rep eb pre (x :: y :: ctx) -> wf_context (x :: y :: ctx) -> roomy (used eb) ->
  exists eb', popBuilder eb = Ok eb' /\
    stack_rep eb' pre ((fst y, snd y ++ [(fst x, VObject (snd x))]) :: ctx) /\ used eb' = used eb /\
    wf_context ((fst y, snd y ++ [(fst x, VObject (snd x))]) :: ctx).
Proof.
  intros Hs Hw Hroom. inversion Hs as [|n b bs ? d ? p name sub sd Hs' Hop Hsub]; subst. cbn [fst snd].
  destruct (stack_back _ _ _ _ _ _ Hs') as (bpre & Hb & Hrep).
  unfold roomy, used in Hroom. cbn [length] in Hroom. rewrite !zlen_cons in Hroom. pose proof (zlen_nonneg bs).
  pose proof (b_rep_size _ _ _ Hsub) as Hz.
  apply Forall_cons_1 in Hw as [[Hn Hwd] [[Hm Hwp] Hw]%Forall_cons_1]. cbn [fst snd] in *.
  assert (fits (_b sub) 1) as Hf by (apply roomy_fits; lia).
  assert (wf_doc sd = true) as Hsd by (apply wf_fields; [done|lia]).
  destruct (done_rep _ _ _ Hsub Hf Hsd) as (o & sub' & Hd & Hd').
  destruct (sub_done_rep (VObject sd) Object name b p sub bpre d sd Hb Hop Hsub Hf eq_refl eq_refl)
    as (b'' & H1 & H2 & H3 & H4).
  unfold sub_done in H1. rewrite Hd' in H1. cbn [bind] in H1. injection H1 as H1.
  cbn [popBuilder]. rewrite Hd. cbn [bind]. eexists. split; [reflexivity|]. rewrite H1.
  split; [by apply Hrep|]. unfold used. rewrite H4, !zlen_cons. split; [lia|].
  constructor; [|done]. split; [done|]. apply Forall_app. split; [done|]. constructor; [|done].
  unfold wf_field. cbn [fst snd]. by rewrite Hn, wf_value_object, Hsd.
Qed.

Lemma path_value n d d' ctx : path_of ((n, d) :: ctx) = path_of ((n, d') :: ctx).
Proof. by destruct ctx. Qed.

Lemma flat_pop x y ctx :
  flat ((fst y, snd y ++ [(fst x, VObject (snd x))]) :: ctx) = flat (x :: y :: ctx).
Proof.
  destruct x as [n d], y as [m dp]. cbn [fst snd].
  change (flat ((n, d) :: (m, dp) :: ctx)) with
    ((flat ctx ++ under (path_of ((m, dp) :: ctx)) (dotted dp))
     ++ under (path_of ((m, dp) :: ctx) ++ n ++ [dot]) (dotted d)).
  cbn [flat]. rewrite (path_value m _ dp), dotted_app, under_app, <- app_assoc. do 2 f_equal.
  unfold dotted at 1. cbn [flat_map fst snd]. by rewrite app_nil_r, dotted_object, under_under.
Qed.

Lemma flat_push n ctx : flat ((n, []) :: ctx) = flat ctx.
Proof. cbn [flat]. unfold dotted, under. cbn. by rewrite app_nil_r. Qed.

Lemma flat_append n d k v ctx :
  flat ((n, d ++ [(k, v)]) :: ctx) = flat ((n, d) :: ctx) ++ dotted_value (path_of ((n, d) :: ctx) ++ k) v.
Proof.
  cbn [flat]. rewrite (path_value n _ d), dotted_app, under_app, <- app_assoc. do 2 f_equal.
  unfold dotted. cbn [flat_map fst snd]. by rewrite app_nil_r, under_value.
Qed.

Lemma popBuilders_rep n : forall eb pre ctx,
  stack_rep eb pre ctx -> wf_context ctx -> roomy (used eb) -> (n < length ctx)%nat ->
  exists eb' ctx', popBuilders n eb = Ok eb' /\ stack_rep eb' pre ctx' /\ used eb' = used eb /\
    wf_context ctx' /\ flat ctx' = flat ctx /\ map fst ctx' = drop n (map fst ctx).
Proof.
  induction n as [|n IH]; intros eb pre ctx Hs Hw Hroom Hn; cbn [popBuilders].
  - exists eb, ctx. by repeat split.
  - destruct ctx as [|x [|y ctx]]; cbn in Hn; [lia|lia|].
    destruct (popBuilder_rep _ _ _ _ _ Hs Hw Hroom) as (eb1 & -> & Hs1 & Hu1 & Hw1). cbn [bind].
    rewrite <- Hu1 in Hroom |- *.
    destruct (IH _ _ _ Hs1 Hw1 Hroom) as (eb' & ctx' & H1 & H2 & H3 & H4 & H5 & H6); [cbn; lia|].
    exists eb', ctx'. split; [done|]. split; [done|]. split; [done|]. split; [done|].
    split; [by rewrite H5, flat_pop|]. by rewrite H6.
Qed.

Lemma addBuilder_rep name eb pre ctx :
  stack_rep eb pre ctx -> wf_context ctx -> no_nul name = true ->
  used eb + zlen name + 7 <= BSONObjMaxInternalSize ->
  exists eb', addBuilder name eb = Ok eb' /\ stack_rep eb' pre ((name, []) :: ctx) /\
    used eb' = used eb + zlen name + 7 /\ wf_context ((name, []) :: ctx).
Proof.
  intros Hs Hw Hn Hroom. destruct (stack_top _ _ _ Hs) as (n & b & bs & d & ctx' & -> & ->).
  destruct (stack_back _ _ _ _ _ _ Hs) as (bpre & Hb & _).
  unfold used in *. rewrite zlen_cons in Hroom. pose proof (zlen_nonneg bs).
  destruct (sub_start_rep Object name b bpre d Hb) as (p & sub & Hp & Hsub & Hop & Hr & _);
    [apply roomy_fits; lia|].
  cbn [addBuilder]. unfold subobjStart. rewrite Hp. cbn [bind]. rewrite Hsub. cbn [bind].
  eexists. split; [reflexivity|]. split; [by econstructor|]. split; [|constructor; [by split; [|apply Forall_nil_2]|done]].
  rewrite (b_rep_len _ _ _ Hr), !zlen_app, !zlen_cons. change (zlen (enc_elems [])) with 0.
  unfold enc_header. rewrite zlen_cons, zlen_app. change (zlen [x00]) with 1. unfold len. lia.
Qed.

(** ** Names and their components *)

(** No component but the last is empty. *)
Fixpoint path_ok_from (start : bool) (s : list byte) : bool :=
  match s with
  | [] => true
  | c :: r => if Byte.eqb c dot then negb start && path_ok_from true r else path_ok_from false r
  end.
Definition path_ok (s : list byte) : bool := path_ok_from true s.

Definition dots (ns : list (list byte)) : list byte := flat_map (fun n => n ++ [dot]) ns.

Lemma path_ok_rest a b : forall st, path_ok_from st (a ++ dot :: b) = true -> path_ok b = true.
Proof.
  induction a as [|c a IH]; intros st H; cbn in H.
  - by apply andb_prop in H as [_ H].
  - destruct (Byte.eqb c dot); [apply andb_prop in H as [_ H]|]; by eapply IH.
Qed.

Lemma split_dot_spec s l r : split_dot s = Some (l, r) -> s = l ++ dot :: r.
Proof.
  revert l. induction s as [|c s IH]; intros l H; cbn in H; [done|].
  destruct (byte_eqb_spec c "."%byte) as [->|_]; [by injection H as <- <-|].
  destruct (split_dot s) as [[a b]|]; [|done]. injection H as <- <-. cbn. by rewrite (IH a eq_refl).
Qed.

Lemma path_of_dots ctx : path_of ctx = dots (tail (rev (map fst ctx))).
Proof.
  induction ctx as [|[n d] [|[m d'] ctx] IH]; [done|done|].
  change (path_of ((n, d) :: (m, d') :: ctx)) with (path_of ((m, d') :: ctx) ++ n ++ [dot]).
  rewrite IH. cbn [map fst rev]. set (l := rev (map fst ctx) ++ [m]).
  assert (l <> []) by (subst l; by intros [_ ?]%app_eq_nil).
  destruct l as [|x l]; [done|]. cbn [tail app]. unfold dots. rewrite flat_map_app. cbn [flat_map].
  by rewrite app_nil_r.
Qed.

Lemma path_names ctx ctx' : map fst ctx = map fst ctx' -> path_of ctx = path_of ctx'.
Proof. intros H. by rewrite !path_of_dots, H. Qed.

(** [follow] takes off what the name shares with the open builders; it fails
    on the name of an open builder itself. *)
Lemma follow_spec ns : forall name, no_nul name = true ->
  (exists i rest, follow ns name = Ok (i, rest) /\ name = dots (take i ns) ++ rest /\ (i <= length ns)%nat) \/
  (exists q, dots ns = name ++ dot :: q).
Proof.
  induction ns as [|n ns IH]; intros name Hn; cbn [follow].
  { left. exists 0%nat, name. done. }
  destruct (decide (take (length n) name = n)) as [Ht|Ht].
  2: { left. exists 0%nat, name. unfold bytes_eqb. rewrite bool_decide_false by done. split; [done|]. split; [done|lia]. }
  unfold bytes_eqb. rewrite bool_decide_true by done. rewrite <- (take_drop (length n) name), Ht in Hn |- *.
  set (tl := drop (length n) name) in *. clearbody tl. clear Ht name.
  unfold at_. rewrite app_nth2, Nat.sub_diag by lia. destruct tl as [|c tl]; cbn [nth andb].
  - right. exists (dots ns). rewrite app_nil_r. cbn. by rewrite <- app_assoc.
  - rewrite no_nul_app in Hn. apply andb_prop in Hn as [_ Hn]. cbn in Hn. apply andb_prop in Hn as [Hc Hn].
    destruct (byte_eqb_spec c "."%byte) as [->|Hd]; cbn [orb].
    + unfold substr. rewrite length_app. cbn [length].
      destruct (Nat.ltb_spec (length n + S (length tl)) (length n + 1)); [lia|]. cbn [bind].
      replace (drop (length n + 1) (n ++ "."%byte :: tl)) with tl
        by (by rewrite <- drop_drop, drop_app_length).
      destruct (IH tl Hn) as [(i & rest & -> & E & Hi)|(q & Hq)].
      * left. exists (S i), rest. cbn [bind take length]. split; [done|]. split; [|lia].
        cbn [dots flat_map]. fold (dots (take i ns)). by rewrite E, <- !app_assoc.
      * right. exists q. cbn [dots flat_map]. fold (dots ns). by rewrite Hq, <- !app_assoc.
    + apply negb_true_iff in Hc. rewrite Hc. left. exists 0%nat, (n ++ c :: tl). split; [done|]. split; [done|lia].
Qed.

Lemma open_path_rep fuel : forall name eb pre ctx,
  (length name < fuel)%nat -> stack_rep eb pre ctx -> wf_context ctx -> no_nul name = true ->
  used eb + 4 * zlen name <= BSONObjMaxInternalSize ->
  exists r eb' ctx' mid, open_path fuel name eb = Ok (r, eb') /\ stack_rep eb' pre ctx' /\
    wf_context ctx' /\ flat ctx' = flat ctx /\ used eb' + 4 * zlen r <= used eb + 4 * zlen name /\
    no_nul r = true /\ path_of ctx ++ name = path_of ctx' ++ mid ++ r /\ (path_ok name = true -> mid = []) /\
    (length ctx <= length ctx')%nat.
Proof.
  induction fuel as [|fuel IH]; intros name eb pre ctx Hf Hs Hw Hn Hroom; [lia|]. cbn [open_path].
  unfold splitDot. destruct (split_dot name) as [[next r]|] eqn:Es.
  2: { exists name, eb, ctx, []. by repeat split. }
  apply split_dot_spec in Es as ->. rewrite no_nul_app in Hn. apply andb_prop in Hn as [Hx Hr].
  cbn in Hr. rewrite length_app in Hf. cbn [length] in Hf. rewrite zlen_app, zlen_cons in Hroom.
  pose proof (zlen_nonneg r). pose proof (zlen_nonneg next).
  destruct next as [|c next].
  { exists r, eb, ctx, [dot]. split; [done|]. split; [done|]. split; [done|]. split; [done|].
    split; [rewrite zlen_app, !zlen_cons; change (zlen (@nil byte)) with 0; lia|].
    split; [done|]. split; [done|]. split; [|done]. intros Hp. by cbn in Hp. }
  rewrite zlen_cons in Hroom. pose proof (zlen_nonneg next).
  destruct (addBuilder_rep (c :: next) eb pre ctx Hs Hw Hx) as (eb1 & -> & Hs1 & Hu1 & Hw1);
    [rewrite zlen_cons; lia|]. cbn [bind]. rewrite zlen_cons in Hu1.
  destruct (IH r eb1 pre _ ltac:(lia) Hs1 Hw1 Hr ltac:(lia))
    as (r' & eb' & ctx' & mid & -> & Hs' & Hw' & Hfl & Hu' & Hr' & Hp & Hok & Hl).
  exists r', eb', ctx', mid. split; [done|]. split; [done|]. split; [done|]. split; [by rewrite Hfl, flat_push|].
  split; [rewrite zlen_app, !zlen_cons; lia|]. split; [done|]. split; [|split].
  - rewrite <- Hp. destruct (stack_top _ _ _ Hs) as (m & ? & ? & d & ctx0 & _ & ->).
    cbn [path_of]. rewrite <- !app_assoc. done.
  - intros Hpo. apply Hok. by eapply path_ok_rest.
  - cbn in Hl. lia.
Qed.

(** The name is not that of an open builder, nor of one around it. *)
Definition fresh (name : list byte) (ctx : context) : Prop := forall q, path_of ctx <> name ++ dot :: q.

Lemma prepareContext_rep name eb pre ctx :
  stack_rep eb pre ctx -> wf_context ctx -> no_nul name = true -> fresh name ctx ->
  used eb + 4 * zlen name + 1 <= BSONObjMaxInternalSize ->
  exists r eb' ctx' mid, prepareContext name eb = Ok (r, eb') /\ stack_rep eb' pre ctx' /\
    wf_context ctx' /\ flat ctx' = flat ctx /\ used eb' + 4 * zlen r <= used eb + 4 * zlen name /\
    no_nul r = true /\ name = path_of ctx' ++ mid ++ r /\ (path_ok name = true -> mid = []).
Proof.
  intros Hs Hw Hn Hfr Hroom. unfold prepareContext.
  destruct (stack_length _ _ _ Hs) as [Hfst Hlen]. rewrite Hfst.
  pose proof (f_equal length Hfst) as Hl. rewrite !length_map in Hl.
  set (firsts := tail (rev (map fst ctx))).
  assert (length firsts = length ctx - 1)%nat as Hfl.
  { subst firsts. destruct (rev (map fst ctx)) as [|x l] eqn:E.
    - apply (f_equal length) in E. rewrite length_rev, length_map in E. cbn in *. lia.
    - apply (f_equal length) in E. rewrite length_rev, length_map in E. cbn in *. lia. }
  destruct (follow_spec firsts name Hn) as [(i & rest & Hf & En & Hi)|(q & Hq)].
  2: { exfalso. apply (Hfr q). by rewrite path_of_dots. }
  rewrite Hf. cbn [bind]. pose proof (zlen_nonneg name). pose proof (zlen_nonneg rest).
  destruct (popBuilders_rep (length firsts - i) eb pre ctx Hs Hw) as (eb1 & ctx1 & -> & Hs1 & Hu1 & Hw1 & Hfl1 & Hm);
    [unfold roomy; lia|lia|]. cbn [bind].
  assert (zlen rest <= zlen name) as Hzr by (rewrite En, zlen_app; pose proof (zlen_nonneg (dots (take i firsts))); lia).
  rewrite En, no_nul_app in Hn. apply andb_prop in Hn as [_ Hn].
  destruct (open_path_rep (S (length rest)) rest eb1 pre ctx1)
    as (r & eb' & ctx' & mid & -> & Hs' & Hw' & Hfl' & Hu' & Hr' & Hp & Hok & _); [lia|done|done|done|lia|].
  exists r, eb', ctx', mid. split; [done|]. split; [done|]. split; [done|]. split; [congruence|].
  split; [lia|]. split; [done|].
  assert (path_of ctx1 = dots (take i firsts)) as Hp1.
  { rewrite path_of_dots, Hm. f_equal. subst firsts.
    set (k := (length (tail (rev (map fst ctx))) - i)%nat) in *.
    rewrite <- (take_drop k (map fst ctx)) at 2. rewrite rev_app_distr.
    assert (length (rev (drop k (map fst ctx))) = S i) as Hd
      by (rewrite length_rev, length_drop, length_map; lia).
    destruct (rev (drop k (map fst ctx))) as [|x l]; cbn in Hd; [lia|]. cbn [tail app].
    rewrite take_app_length'; [done|lia]. }
  split; [by rewrite En at 1; rewrite <- Hp1, Hp|].
  intros Hpo. apply Hok. rewrite En in Hpo. destruct i as [|i].
  - by destruct firsts.
  - destruct firsts as [|n0 firsts']; [cbn in Hi; lia|].
    assert (exists z, dots (take (S i) (n0 :: firsts')) = z ++ [dot]) as (z & Hz).
    { destruct (exists_last (l := take (S i) (n0 :: firsts'))) as (l & y & ->); [done|].
      unfold dots. rewrite flat_map_app. cbn [flat_map]. rewrite app_nil_r. eexists. by rewrite app_assoc. }
    rewrite Hz, <- app_assoc in Hpo. by eapply path_ok_rest.
Qed.

Lemma path_ends ctx : path_of ctx = [] \/ exists x, path_of ctx = x ++ [dot].
Proof.
  destruct ctx as [|[n d] [|[m d'] ctx]]; [by left|by left|]. right.
  exists (path_of ((m, d') :: ctx) ++ n). by rewrite <- app_assoc.
Qed.

(** The builders that the name with a last component [.foo] opens are those of
    the name. *)
Lemma dummy_prefix name ctx q :
  name ++ bstr ".foo" = path_of ctx ++ q -> path_of ctx `prefix_of` name ++ [dot].
Proof.
  intros E. destruct (path_ends ctx) as [->|(x & Hx)]; [apply prefix_nil|]. rewrite Hx in *.
  change (bstr ".foo") with ([dot] ++ bstr "foo") in E. rewrite (app_assoc name) in E.
  apply app_eq_inv in E as [(k & E & Eq)|(k & E & Ef)]; [by exists k|].
  destruct k as [|c k] using rev_ind; [rewrite app_nil_r in E; by rewrite E|].
  exfalso. rewrite app_assoc in E. apply app_inj_2 in E as [_ [= <-]]; [|done].
  assert (dot ∈ bstr "foo") as Hd by (rewrite Ef; set_solver).
  vm_compute in Hd. repeat (apply elem_of_cons in Hd as [?|Hd]; [done|]); by apply elem_of_nil in Hd.
Qed.

Definition is_empty_object (v : value) : bool := match v with VObject [] => true | _ => false end.

Lemma object_size5 v : vtype v = Object -> (zlen (enc_value v) =? 5) = is_empty_object v.
Proof.
  destruct v as [ | | | | | | | |d| | | | | | | | | | | ]; try done. intros _.
  rewrite enc_value_object, zlen_enc_doc. destruct d as [|[n v] d]; [done|].
  cbn [is_empty_object]. rewrite zlen_enc_elems_cons, zlen_enc_elem.
  pose proof (zlen_nonneg n). pose proof (zlen_nonneg (enc_value v)). pose proof (zlen_nonneg (enc_elems d)). lia.
Qed.

Lemma appendAs_stack e n v name eb pre ctx :
  elem_ok e n v -> stack_rep eb pre ctx -> wf_context ctx -> no_nul name = true ->
  used eb + zlen (enc_elem (name, v)) <= BSONObjMaxInternalSize ->
  exists eb' ctx', on_back (fun b => let* b := appendAs e name b in Ok (tt, b)) eb = Ok (tt, eb') /\
    stack_rep eb' pre ctx' /\ wf_context ctx' /\ path_of ctx' = path_of ctx /\
    flat ctx' = flat ctx ++ dotted_value (path_of ctx ++ name) v /\
    used eb' = used eb + zlen (enc_elem (name, v)).
Proof.
  intros Hok Hs Hw Hn Hroom. destruct (stack_top _ _ _ Hs) as (m & b & bs & d & ctx0 & -> & ->).
  destruct (stack_back _ _ _ _ _ _ Hs) as (bpre & Hb & Hrep).
  unfold used in *. rewrite zlen_cons in *. pose proof (zlen_nonneg bs).
  destruct (appendAs_rep _ _ _ name Hok b bpre d Hb) as (b' & Hb' & Hr & _); [apply roomy_fits; lia|].
  cbn [on_back]. rewrite Hb'. cbn [bind]. eexists _, ((m, d ++ [(name, v)]) :: ctx0).
  split; [reflexivity|]. split; [by apply Hrep|]. split; [|split; [apply path_value|split; [apply flat_append|]]].
  - apply Forall_cons_1 in Hw as [[Hm Hd] Hw]. constructor; [|done]. split; [done|].
    apply Forall_app. split; [done|]. constructor; [|apply Forall_nil_2]. unfold wf_field. cbn [fst snd].
    by rewrite Hn, (elem_wf_value _ _ _ Hok).
  - rewrite (b_rep_len _ _ _ Hr), (b_rep_len _ _ _ Hb), enc_elems_app, zlen_app, zlen_enc_elems_cons, zlen_cons.
    change (zlen (enc_elems [])) with 0. lia.
Qed.

Lemma eb_appendAs_rep e n v name eb pre ctx :
  elem_ok e n v -> stack_rep eb pre ctx -> wf_context ctx -> no_nul name = true -> path_ok name = true ->
  fresh name ctx -> used eb + 4 * zlen (enc_elem (name, v)) + 1 <= BSONObjMaxInternalSize ->
  exists eb' ctx', eb_appendAs e name eb = Ok eb' /\ stack_rep eb' pre ctx' /\ wf_context ctx' /\
    flat ctx' = flat ctx ++ dotted_value name v /\ used eb' <= used eb + 4 * zlen (enc_elem (name, v)) /\
    path_of ctx' `prefix_of` name ++ [dot].
Proof.
  intros Hok Hs Hw Hn Hp Hfr Hroom. unfold eb_appendAs.
  rewrite (type_rep _ _ _ Hok). cbn [bind].
  assert ((if bool_decide (vtype v = Object) then let* n := valuesize e in Ok (n =? 5) else Ok false)
    = Ok (is_empty_object v)) as ->.
  { destruct (decide (vtype v = Object)) as [Hv|Hv].
    - rewrite bool_decide_true by done. rewrite (valuesize_rep _ _ _ Hok). cbn [bind]. by rewrite object_size5.
    - rewrite bool_decide_false by done. by destruct v. }
  cbn [bind]. rewrite zlen_enc_elem in *. pose proof (zlen_nonneg (enc_value v)). pose proof (zlen_nonneg name).
  destruct (is_empty_object v) eqn:Hv.
  - assert (v = VObject []) as -> by (by destruct v as [ | | | | | | | |[]| | | | | | | | | | | ]). change (zlen (enc_value (VObject []))) with 5 in *.
    destruct (prepareContext_rep (name ++ bstr ".foo") eb pre ctx Hs Hw) as
      (r & eb' & ctx' & mid & -> & Hs' & Hw' & Hfl & Hu & Hr & E & _).
    + by rewrite no_nul_app, Hn.
    + intros q Hq. apply (Hfr (bstr "foo" ++ dot :: q)). by rewrite Hq, <- app_assoc.
    + rewrite zlen_app. change (zlen (bstr ".foo")) with 4. lia.
    + cbn [bind]. exists eb', ctx'. split; [done|]. split; [done|]. split; [done|].
      split; [cbn; by rewrite app_nil_r|]. rewrite zlen_app in Hu. change (zlen (bstr ".foo")) with 4 in Hu.
      pose proof (zlen_nonneg r). split; [lia|]. by eapply dummy_prefix.
  - destruct (prepareContext_rep name eb pre ctx Hs Hw Hn Hfr) as
      (r & eb' & ctx' & mid & -> & Hs' & Hw' & Hfl & Hu & Hr & E & Hmid); [lia|].
    cbn [bind]. rewrite (Hmid Hp) in E. cbn [app] in E. pose proof (zlen_nonneg r).
    destruct (appendAs_stack e n v r eb' pre ctx' Hok Hs' Hw' Hr) as
      (eb2 & ctx2 & -> & Hs2 & Hw2 & Hp2 & Hf2 & Hu2); [rewrite zlen_enc_elem; lia|].
    cbn [bind]. exists eb2, ctx2. split; [done|]. split; [done|]. split; [done|].
    split; [by rewrite Hf2, Hfl, <- E|]. rewrite zlen_enc_elem in Hu2. split; [lia|].
    rewrite Hp2, E. exists (r ++ [dot]). by rewrite <- app_assoc.
Qed.

(** ** The fields in the order of the map *)

Definition sort_doc (d : doc) : doc := fold_left (fun m f => map_set (fst f) (snd f) m) d [].

Definition before (f g : field) : Prop := lex_cmp (fst f) (fst g) < 0.

Lemma map_set_Forall {A} (P : list byte * A -> Prop) k x m :
  P (k, x) -> (forall k' y, lex_cmp k k' = 0 -> P (k', y) -> P (k', x)) -> Forall P m -> Forall P (map_set k x m).
Proof.
  intros Hx Hr. induction 1 as [|[k' y] m Hy Hm IH]; cbn [map_set]; [by repeat constructor|].
  destruct (Z.ltb_spec (lex_cmp k k') 0); [by repeat constructor|].
  destruct (Z.ltb_spec (lex_cmp k' k) 0); [by constructor|]. constructor; [|done].
  apply (Hr _ y); [|done]. pose proof (lex_cmp_antisym k k'). lia.
Qed.

Lemma map_set_sorted k v m : StronglySorted before m -> StronglySorted before (map_set k v m).
Proof.
  induction 1 as [|[k' v'] m Hs IH Hm]; cbn [map_set]; [repeat constructor|].
  destruct (Z.ltb_spec (lex_cmp k k') 0) as [Hlt|Hge].
  - constructor; [by constructor|]. constructor; [done|]. eapply List.Forall_impl; [|exact Hm].
    unfold before. cbn [fst]. intros [j w] Hj. cbn [fst] in *. by eapply lex_cmp_lt_trans.
  - destruct (Z.ltb_spec (lex_cmp k' k) 0) as [Hlt|Hge'].
    + constructor; [done|]. apply map_set_Forall; [done| |done]. by intros j y _ Hj.
    + constructor; [done|]. exact Hm.
Qed.

Lemma sort_doc_ind (P : doc -> Prop) d :
  P [] -> (forall f m, In f d -> P m -> P (map_set (fst f) (snd f) m)) -> P (sort_doc d).
Proof.
  intros H0 Hs. unfold sort_doc. revert H0. generalize (@nil field) as m.
  induction d as [|f d IH]; intros m H0; [done|]. cbn [fold_left]. apply IH.
  - intros g m' Hg. apply Hs. by right.
  - apply Hs; [by left|done].
Qed.

Lemma sort_doc_sorted d : StronglySorted before (sort_doc d).
Proof. apply sort_doc_ind; [constructor|]. intros. by apply map_set_sorted. Qed.

Lemma map_set_size k v m : zlen (enc_elems (map_set k v m)) <= zlen (enc_elem (k, v)) + zlen (enc_elems m).
Proof.
  induction m as [|[k' v'] m IH]; cbn [map_set]; [rewrite zlen_enc_elems_cons; lia|].
  destruct (Z.ltb_spec (lex_cmp k k') 0); [rewrite zlen_enc_elems_cons; lia|].
  rewrite !zlen_enc_elems_cons. destruct (Z.ltb_spec (lex_cmp k' k) 0); rewrite !zlen_enc_elems_cons; [lia|].
  assert (k = k') as <- by (apply lex_cmp_eq; pose proof (lex_cmp_antisym k k'); lia).
  rewrite !zlen_enc_elem. pose proof (zlen_nonneg k). pose proof (zlen_nonneg (enc_value v')). lia.
Qed.

Lemma sort_doc_size d : zlen (enc_elems (sort_doc d)) <= zlen (enc_elems d).
Proof.
  unfold sort_doc. assert (forall m, zlen (enc_elems (fold_left (fun m f => map_set (fst f) (snd f) m) d m))
    <= zlen (enc_elems d) + zlen (enc_elems m)) as H; [|specialize (H []); change (zlen (enc_elems [])) with 0 in H; lia].
  induction d as [|[k v] d IH]; intros m; cbn [fold_left fst snd]; [change (zlen (enc_elems [])) with 0; lia|].
  specialize (IH (map_set k v m)). pose proof (map_set_size k v m). rewrite zlen_enc_elems_cons. lia.
Qed.

(** The elements of the map encode the fields. *)
Definition map_rep (p : list byte * BSONElement) (f : field) : Prop :=
  fst p = fst f /\ elem_ok (snd p) (fst f) (snd f).

Lemma map_set_rep k e v m m' :
  Forall2 map_rep m m' -> elem_ok e k v -> Forall2 map_rep (map_set k e m) (map_set k v m').
Proof.
  intros Hm He. induction Hm as [|[k1 e1] [k' v'] m m' [Hk Hv] Hm IH]; cbn [map_set].
  { apply Forall2_cons; [by split|by apply Forall2_nil]. }
  cbn [fst snd] in *. subst k1.
  destruct (Z.ltb_spec (lex_cmp k k') 0); [constructor; [by split|by constructor]|].
  destruct (Z.ltb_spec (lex_cmp k' k) 0); apply Forall2_cons; [by split|exact IH| |exact Hm].
  assert (k' = k) as -> by (apply lex_cmp_eq; pose proof (lex_cmp_antisym k k'); lia). by split.
Qed.

Lemma bson2map_rep o d : obj_rep o d -> exists m, bson2map o = Ok m /\ Forall2 map_rep m (sort_doc d).
Proof.
  intros Ho. unfold bson2map.
  edestruct (for_elements_inv (R := list (list byte * BSONElement))
    (fun m e => let* n := field_name e in Ok (Continue (map_set n e m)))
    (fun seen m => Forall2 map_rep m (sort_doc seen)) d o [] Ho) as (m & -> & Hm).
  - intros pre n v post m e _ Hm Hok _. rewrite (field_name_rep _ _ _ Hok). cbn [bind].
    eexists. split; [done|]. unfold sort_doc. rewrite fold_left_app. by apply map_set_rep.
  - constructor.
  - by exists m.
Qed.

Lemma lex_cmp_prefix_le a b : lex_cmp a (a ++ b) <= 0.
Proof. induction a as [|x a IH]; [by destruct b|]. cbn. by rewrite Z.ltb_irrefl. Qed.

Lemma fresh_next name name' ctx :
  path_of ctx `prefix_of` name ++ [dot] -> lex_cmp name name' < 0 -> fresh name' ctx.
Proof.
  intros (z & Hz) Hlt q Hq. rewrite Hq, <- app_assoc in Hz. cbn [app] in Hz.
  assert (exists y, name = name' ++ y) as (y & ->).
  { apply app_eq_inv in Hz as [(k & -> & _)|(k & -> & E)]; [by exists k|].
    destruct k as [|c k]; [exists []; by rewrite !app_nil_r|].
    injection E as _ E. by destruct k. }
  pose proof (lex_cmp_prefix_le name' y). pose proof (lex_cmp_antisym name' (name' ++ y)). lia.
Qed.

(** ** The conversions, on documents *)

Lemma append_all_rep fs : forall es eb pre ctx,
  Forall2 map_rep es fs -> StronglySorted before fs ->
  Forall (fun f : field => no_nul (fst f) = true /\ path_ok (fst f) = true /\ fresh (fst f) ctx) fs ->
  stack_rep eb pre ctx -> wf_context ctx ->
  used eb + 4 * zlen (enc_elems fs) + 1 <= BSONObjMaxInternalSize ->
  exists eb' ctx', append_all es eb = Ok eb' /\ stack_rep eb' pre ctx' /\ wf_context ctx' /\
    flat ctx' = flat ctx ++ dotted fs /\ used eb' + 1 <= BSONObjMaxInternalSize.
Proof.
  induction fs as [|[n v] fs IH]; intros es eb pre ctx Hes Hsort Hok Hs Hw Hroom.
  - inversion Hes; subst. change (zlen (enc_elems [])) with 0 in Hroom. exists eb, ctx.
    split; [done|]. split; [done|]. split; [done|]. split; [by rewrite app_nil_r|lia].
  - inversion Hes as [|[k e] ? es' ? [Hk He] Hes']; subst. cbn [fst snd] in *. subst k.
    apply StronglySorted_inv in Hsort as [Hsort Hbef].
    apply Forall_cons_1 in Hok as [(Hn & Hp & Hfr) Hok]. cbn [fst] in *.
    rewrite zlen_enc_elems_cons in Hroom. pose proof (zlen_nonneg (enc_elems fs)).
    destruct (eb_appendAs_rep e n v n eb pre ctx He Hs Hw Hn Hp Hfr) as
      (eb1 & ctx1 & Ha & Hs1 & Hw1 & Hf1 & Hu1 & Hp1); [lia|].
    cbn [append_all]. rewrite Ha. cbn [bind].
    destruct (IH es' eb1 pre ctx1 Hes' Hsort) as (eb' & ctx' & -> & Hs' & Hw' & Hf' & Hu'); [|done|done|lia|].
    + rewrite List.Forall_forall in Hok, Hbef |- *. intros g Hg. destruct (Hok g Hg) as (? & ? & _).
      split; [done|]. split; [done|]. eapply fresh_next; [exact Hp1|]. exact (Hbef g Hg).
    + exists eb', ctx'. split; [done|]. split; [done|]. split; [done|]. split; [|done].
      rewrite Hf', Hf1, <- app_assoc. done.
Qed.

Lemma sort_doc_Forall (P : field -> Prop) d :
  Forall P d -> Forall P (sort_doc d).
Proof.
  intros Hd. rewrite List.Forall_forall in Hd. apply sort_doc_ind; [apply Forall_nil_2|].
  intros [k v] m Hin Hm. specialize (Hd _ Hin). apply map_set_Forall; [done| |done].
  intros k' y Hk%lex_cmp_eq _. cbn [fst snd] in *. by rewrite <- Hk.
Qed.

(** The conversion appends to its builder some fields that spell out, by dotted
    names, as the fields of the object in order. *)
Lemma dotted2nested_rep o d b pre :
  obj_rep o d -> forallb (fun f : field => path_ok (fst f)) d = true ->
  b_rep b pre [] -> len (_b b) + 4 * zlen (enc_elems d) + 1 <= BSONObjMaxInternalSize ->
  exists b' d', dotted2nested b o = Ok b' /\ b_rep b' pre d' /\ wf_doc d' = true /\
    len (_b b') + 1 <= BSONObjMaxInternalSize /\ dotted d' = dotted (sort_doc d).
Proof.
  intros Ho Hpath Hb Hroom. unfold dotted2nested.
  destruct (bson2map_rep o d Ho) as (m & -> & Hm). cbn [bind].
  pose proof (sort_doc_size d) as Hsz.
  assert (Forall (fun f : field => no_nul (fst f) = true /\ path_ok (fst f) = true /\ fresh (fst f) [([], [])])
            (sort_doc d)) as Hok.
  { apply sort_doc_Forall. destruct Ho as [_ Hw%wf_doc_Forall].
    rewrite List.Forall_forall in Hw |- *. rewrite forallb_forall in Hpath. intros [n v] Hin.
    specialize (Hw _ Hin). apply wf_field_parts in Hw as [Hn _].
    split; [done|]. split; [exact (Hpath _ Hin)|]. intros q Hq. cbn [path_of fst] in Hq. by destruct n. }
  destruct (append_all_rep _ m (EmbeddedBuilder_new b) pre [([], [])] Hm (sort_doc_sorted d) Hok)
    as (eb & ctx & -> & Hs & Hw & Hf & Hu).
  - by constructor.
  - constructor; [|apply Forall_nil_2]. split; [done|apply Forall_nil_2].
  - unfold used, EmbeddedBuilder_new. rewrite zlen_cons. change (zlen (@nil (list byte * BSONObjBuilder))) with 0. lia.
  - cbn [bind]. destruct (stack_length _ _ _ Hs) as [Hfst Hlen].
    pose proof (f_equal length Hfst) as Hl. rewrite !length_map in Hl.
    destruct (popBuilders_rep (length eb - 1) eb pre ctx Hs Hw Hu) as (eb' & ctx' & He & Hs' & Hu' & Hw' & Hf' & Hm');
      [lia|]. unfold eb_done. rewrite He. cbn [bind].
    apply (f_equal length) in Hm'. rewrite length_drop, !length_map in Hm'.
    destruct Hs' as [n b' pre d' Hb'|]; [|cbn in Hm'; lia].
    assert (len (_b b') + 1 <= BSONObjMaxInternalSize) as Hlb.
    { change (used [(n, b')]) with (len (_b b') + 1 - 1) in Hu'. lia. }
    pose proof (b_rep_size _ _ _ Hb').
    exists b', d'. split; [done|]. split; [done|]. split; [|split; [done|]].
    + apply Forall_cons_1 in Hw' as [[_ Hwd] _]. apply wf_fields; [done|lia].
    + cbn in Hf'. rewrite under_nil in Hf'. rewrite Hf', Hf. done.
Qed.

(** The builder given stays the owner, or not, of its buffer. *)
Fixpoint root_owned (eb : EmbeddedBuilder) : option bool :=
  match eb with
  | [] => None
  | [(_, b)] => Some (owned b)
  | _ :: eb' => root_owned eb'
  end.

Lemma last_owned n b m b' (eb : EmbeddedBuilder) :
  owned b' = owned b -> root_owned ((m, b') :: eb) = root_owned ((n, b) :: eb).
Proof. intros H. destruct eb as [|x eb]; cbn; [by rewrite H|done]. Qed.

Lemma on_b_owned m b b' : on_b m b = Ok b' -> owned b' = owned b.
Proof. unfold on_b. intros H. inv_bind. done. Qed.

Lemma popBuilder_owned eb eb' : popBuilder eb = Ok eb' -> root_owned eb' = root_owned eb.
Proof.
  destruct eb as [|[n b] [|[m p] eb]]; cbn [popBuilder]; [done|done|]. intros H.
  apply bind_ok_inv in H as ([o b1] & _ & H). injection H as <-. exact (last_owned m p m _ eb eq_refl).
Qed.

Lemma popBuilders_owned n : forall eb eb', popBuilders n eb = Ok eb' -> root_owned eb' = root_owned eb.
Proof.
  induction n as [|n IH]; intros eb eb' H; cbn in H; [by injection H as ->|].
  apply bind_ok_inv in H as (eb1 & H1 & H). rewrite (IH _ _ H). by apply popBuilder_owned.
Qed.

Lemma addBuilder_owned name eb eb' : addBuilder name eb = Ok eb' -> root_owned eb' = root_owned eb.
Proof.
  destruct eb as [|[n b] eb]; cbn [addBuilder]; [done|]. intros H.
  apply bind_ok_inv in H as (b1 & H1 & H). apply bind_ok_inv in H as (b2 & _ & H). injection H as <-.
  apply on_b_owned in H1. by apply (last_owned n b n b1 eb).
Qed.

Lemma open_path_owned fuel : forall name eb r eb', open_path fuel name eb = Ok (r, eb') ->
  root_owned eb' = root_owned eb.
Proof.
  induction fuel as [|fuel IH]; intros name eb r eb' H; cbn in H; [done|].
  destruct (splitDot name) as [[|c next] rest]; [by injection H as _ ->|].
  apply bind_ok_inv in H as (eb1 & H1 & H). rewrite (IH _ _ _ _ H). by eapply addBuilder_owned.
Qed.

Lemma prepareContext_owned name eb r eb' : prepareContext name eb = Ok (r, eb') -> root_owned eb' = root_owned eb.
Proof.
  unfold prepareContext. intros H. apply bind_ok_inv in H as ([i rest] & _ & H).
  apply bind_ok_inv in H as (eb1 & H1 & H). rewrite (open_path_owned _ _ _ _ _ H). by eapply popBuilders_owned.
Qed.

Lemma eb_appendAs_owned e name eb eb' : eb_appendAs e name eb = Ok eb' -> root_owned eb' = root_owned eb.
Proof.
  unfold eb_appendAs. intros H. apply bind_ok_inv in H as (t & _ & H). apply bind_ok_inv in H as ([] & _ & H).
  - apply bind_ok_inv in H as ([r eb1] & H1 & H). injection H as <-. by eapply prepareContext_owned.
  - apply bind_ok_inv in H as ([r eb1] & H1 & H). apply bind_ok_inv in H as ([u eb2] & H2 & H). injection H as <-.
    rewrite <- (prepareContext_owned _ _ _ _ H1). destruct eb1 as [|[n b] eb1]; [done|]. cbn [on_back] in H2.
    apply bind_ok_inv in H2 as ([? b'] & H2 & E). injection E as _ <-. apply last_owned.
    apply bind_ok_inv in H2 as (b1 & H2 & E). injection E as _ <-.
    unfold appendAs in H2. inv_bind. by eapply on_b_owned.
Qed.

Lemma dotted2nested_owned b o b' : dotted2nested b o = Ok b' -> owned b' = owned b.
Proof.
  unfold dotted2nested. intros H. apply bind_ok_inv in H as (m & _ & H).
  apply bind_ok_inv in H as (eb1 & H1 & H). apply bind_ok_inv in H as (eb2 & H2 & H).
  destruct eb2 as [|[n b2] []]; try done. injection H as <-. apply popBuilders_owned in H2.
  assert (forall m eb eb', append_all m eb = Ok eb' -> root_owned eb' = root_owned eb) as Hall.
  { clear. induction m as [|[n e] m IH]; intros eb eb' H; cbn in H; [by injection H as ->|].
    apply bind_ok_inv in H as (eb1 & H1 & H). rewrite (IH _ _ H). by eapply eb_appendAs_owned. }
  rewrite (Hall _ _ _ H1) in H2. by injection H2.
Qed.

(** dotted2nested of an object up to 4MB whose names have no empty component
    but perhaps the last never fails, and its result, spelled out by dotted
    names, is the object's fields in the order of their names, objects among
    the values spelled out as well; nested2dotted of the result gives these
    fields, when they fit in an object. *)
Theorem dotted2nested_correct o d :
  obj_rep o d -> forallb (fun f : field => path_ok (fst f)) d = true ->
  4 * zlen (enc_doc d) <= BSONObjMaxInternalSize ->
  exists o' d', dotted2nested_obj o = Ok o' /\ obj_rep o' d' /\ dotted d' = dotted (sort_doc d) /\
    (wf_doc (dotted (sort_doc d)) = true ->
     exists o'', nested2dotted o' = Ok o'' /\ obj_rep o'' (dotted (sort_doc d))).
Proof.
  intros Ho Hp Hz. rewrite zlen_enc_doc in Hz. unfold dotted2nested_obj.
  destruct (new_rep 512 ltac:(by vm_compute)) as (b & -> & Hb & Hown & Hl). cbn [bind].
  destruct (dotted2nested_rep o d b (le32 0) Ho Hp Hb) as (b' & d' & Hd & Hb' & Hw & Hlb & Hdot); [lia|].
  rewrite Hd. cbn [bind].
  destruct (obj_done b' (le32 0) d' Hb') as (o' & -> & Ho'); [apply roomy_fits; lia|done| |].
  - rewrite <- Hown. by eapply dotted2nested_owned.
  - exists o', d'. split; [done|]. split; [done|]. split; [done|]. rewrite <- Hdot. intros Hwf.
    by apply nested2dotted_rep.
Qed.

Definition dotted_sample : doc :=
  [(bstr "b", VInt 1); (bstr "a.c", VInt 2); (bstr "a.b", VObject []); (bstr "a.b.d", VObject [(bstr "q", VNull)])].

Lemma dotted2nested_correct_witness : exists o' o'' d',
  dotted2nested_obj (obj_of dotted_sample) = Ok o' /\ obj_rep o' d' /\ nested2dotted o' = Ok o'' /\
  obj_rep o'' [(bstr "a.b.d.q", VNull); (bstr "a.c", VInt 2); (bstr "b", VInt 1)].
Proof.
  destruct (dotted2nested_correct (obj_of dotted_sample) dotted_sample) as (o' & d' & H1 & H2 & _ & H3).
  - by apply obj_of_rep.
  - reflexivity.
  - by vm_compute.
  - destruct (H3 eq_refl) as (o'' & H4 & H5). exists o', o'', d'.
    split; [exact H1|]. split; [exact H2|]. split; [exact H4|exact H5].
Defined.

(** The order of the map is not the order of the paths: a name between an
    object's name and the names under it makes the object appear twice. *)
Example object_split : exists o',
  dotted2nested_obj (obj_of [(bstr "a.b", VInt 1); (bstr "a.c", VInt 2); (bstr "a", VObject []); (bstr "a-b", VInt 3)]) = Ok o' /\
  obj_rep o' [(bstr "a", VObject []); (bstr "a-b", VInt 3); (bstr "a", VObject [(bstr "b", VInt 1); (bstr "c", VInt 2)])].
Proof.
  eexists. split; [vm_compute; reflexivity|]. split; [|reflexivity].
  split; [cbn [off]; lia|]. exists []. split; [reflexivity|by vm_compute].
Qed.

(** An empty component is dropped, so two names can become one. *)
Example empty_component : exists o',
  dotted2nested_obj (obj_of [(bstr ".a", VInt 1); (bstr "a", VInt 2)]) = Ok o' /\
  obj_rep o' [(bstr "a", VInt 1); (bstr "a", VInt 2)].
Proof.
  eexists. split; [vm_compute; reflexivity|]. split; [|reflexivity].
  split; [cbn [off]; lia|]. exists []. split; [reflexivity|by vm_compute].
Qed.

(** The order of [bson2set] holds between an element and itself, which an order
    of a [std::set] must not. *)
Lemma FieldNameCmp_reflexive e n v : elem_ok e n v -> BSONElementFieldNameCmp e e = Ok true.
Proof.
  intros He. unfold BSONElementFieldNameCmp. rewrite (field_name_rep _ _ _ He). cbn [bind].
  by rewrite lex_cmp_refl.
Qed.
