(* ===== verification/ObjFields.v ===== *)
(** * ObjFields: the functions of db/jsobj.cpp that gather fields
    (getFieldsDotted, addFields), the iterators in the order of the names
    (BSONObjIteratorSorted, BSONArrayIteratorSorted), and appendAsNumber

    [std::sort] is the class [StdSort]; [boost::lexical_cast] is an argument of
    [appendAsNumber]. *)

From stdpp Require Import base list numbers strings option sorting tactics.
From Stdlib Require Import Strings.Byte ZArith Lia.
From S2P Require Import Prelude Memory Decimal Double CNumber Text HostPort BsonTypes Format Element Obj Access.
From S2P Require Import Compare Order Builder JsObj JsObjSpec.

(** ** [getFieldsDotted] *)

Section getFieldsDotted.
(** [insert] is that of the collection: a set or a multiset of elements. *)
Context {Coll : Type} (insert : BSONElement -> Coll -> result Coll) (expandLastArray : bool).

Definition insert_elements (o : BSONObj) (ret : Coll) : result Coll :=
  finish Ok (for_elements o ret (fun ret x => let* ret := insert x ret in Ok (Continue ret))).

(** [allDigits]: the first component of the name is a number. *)
Definition allDigits (next : list byte) : bool :=
  match span is_digit next with
  | ([], _) => false
  | (_, []) => true
  | (_, c :: _) => Byte.eqb c "."
  end.

(** Each call drops at least the dot, so the length of the name bounds them. *)
Fixpoint getFieldsDotted_go (fuel : nat) (o : BSONObj) (name : list byte) (ret : Coll) : result Coll :=
  match fuel with
  | O => Err OutOfFuel
  | S fuel' =>
      let* e := getField o name in
      let* z := eoo e in
      if z then
        match split_dot name with
        | None => Ok ret
        | Some (left_, next) =>
            let* e := getField o left_ in
            let* t := type e in
            match t with
            | Object => let* s := embeddedObject e in getFieldsDotted_go fuel' s next ret
            | Array =>
                let* s := embeddedObject e in
                if allDigits next then getFieldsDotted_go fuel' s next ret
                else
                  finish Ok (for_elements s ret (fun ret e2 =>
                    let* t2 := type e2 in
                    if bool_decide (t2 = Object) || bool_decide (t2 = Array) then
                      let* s2 := embeddedObject e2 in
                      let* ret := getFieldsDotted_go fuel' s2 next ret in
                      Ok (Continue ret)
                    else Ok (Continue ret)))
            | _ => Ok ret
            end
        end
      else
        let* t := type e in
        if bool_decide (t = Array) && expandLastArray then
          let* s := embeddedObject e in insert_elements s ret
        else insert e ret
  end.

Definition getFieldsDotted (o : BSONObj) (name : list byte) (ret : Coll) : result Coll :=
  getFieldsDotted_go (S (length name)) o name ret.
End getFieldsDotted.

(** [BSONElementSet] and [BSONElementMSet], kept as sorted lists: the elements
    are compared without their names. *)
Fixpoint set_insert (multi : bool) (e : BSONElement) (s : list BSONElement) : result (list BSONElement) :=
  match s with
  | [] => Ok [e]
  | x :: s' =>
      let* c := element_woCompare false e x in
      if c <? 0 then Ok (e :: s)
      else if (c =? 0) && negb multi then Ok s
      else let* s' := set_insert multi e s' in Ok (x :: s')
  end.

(** ** [addFields] *)

(** The loop goes on past the end of the object's fields, to the EOO, whose
    name is empty. *)
Fixpoint addFields_go (fuel : nat) (fields : list (list byte)) (i : BSONObjIterator)
    (b : BSONObjBuilder) (n : Z) (gotId : bool) : result (BSONObjBuilder * Z) :=
  match fuel with
  | O => Err OutOfFuel
  | S fuel' =>
      if moreWithEOO i then
        let* '(e, i) := next i in
        let* fname := field_name e in
        let is_id := bytes_eqb fname (bstr "_id") in
        let N := zlen fields in
        if existsb (bytes_eqb fname) fields then
          let* b := append_elem e b in
          let n := n + 1 in
          let gotId := gotId || is_id in
          if (n =? N) && gotId then Ok (b, n) else addFields_go fuel' fields i b n gotId
        else if is_id then
          let* b := append_elem e b in
          if n =? N then Ok (b, n) else addFields_go fuel' fields i b n true
        else addFields_go fuel' fields i b n gotId
      else Ok (b, n)
  end.

(** [o.addFields(from, fields)], with the set as the list of its names: how many
    were added, and the object after. *)
Definition addFields (o : BSONObj) (isOwned : bool) (from : BSONObj) (fields : list (list byte))
    : result (Z * BSONObj) :=
  let* z := isEmpty o in
  let* _ := verify (z && negb isOwned) in
  let* b := BSONObjBuilder_new 512 in
  let* i := BSONObjIterator_of from in
  let* '(b, n) := addFields_go (S (fuel_of from)) fields i b 0 false in
  if n =? 0 then Ok (n, o)
  else let* r := obj b in Ok (n, r).

(** ** [appendAsNumber] *)

(** The characters after the sign: none but digits and one point, which is
    whether there is a point. *)
Fixpoint number_chars (hasDec : bool) (s : list byte) : option bool :=
  match s with
  | [] => Some hasDec
  | c :: r =>
      if is_digit c then number_chars hasDec r
      else if Byte.eqb c "." then if hasDec then None else number_chars true r
      else None
  end.

Definition atof (s : list byte) : Z :=
  match strtod s with Some c => conv_value c | None => d_zero end.

(** [lexical_cast] is [boost::lexical_cast<long long>], [None] when it throws. *)
Definition appendAsNumber (lexical_cast : list byte -> option Z) (fieldName data : list byte)
    (b : BSONObjBuilder) : result (bool * BSONObjBuilder) :=
  if bool_decide (data = []) || bytes_eqb data (bstr "-") || bytes_eqb data (bstr ".") then Ok (false, b)
  else
    let digits := match data with c :: r => if Byte.eqb c "-" then r else data | [] => [] end in
    match number_chars false digits with
    | None => Ok (false, b)
    | Some true => let* b := append_double fieldName (atof data) b in Ok (true, b)
    | Some false =>
        if (length data <? 8)%nat then
          let* n := atoi data in
          let* b := append_int fieldName n b in Ok (true, b)
        else
          match lexical_cast data with
          | Some num => let* b := append_longlong fieldName num b in Ok (true, b)
          | None => Ok (false, b)
          end
    end.

(** ** Iteration in the order of the names *)

(** [std::sort]: it permutes, and sorts when the comparison is a strict weak
    order. *)
Definition strict_weak {A} (less : A -> A -> bool) (l : list A) : Prop :=
  (forall a, In a l -> less a a = false) /\
  (forall a b c, In a l -> In b l -> In c l -> less a b = true -> less b c = true -> less a c = true) /\
  (forall a b c, In a l -> In b l -> In c l -> less a b = false -> less b c = false -> less a c = false).

Class StdSort := {
  std_sort : forall {A : Type}, (A -> A -> bool) -> list A -> list A;
  std_sort_permutation : forall A (less : A -> A -> bool) l, std_sort less l ≡ₚ l;
  std_sort_sorted : forall A (less : A -> A -> bool) l, strict_weak less l ->
    StronglySorted (fun a b => less b a = false) (std_sort less l)
}.

Section sorted.
Context {sort_ : StdSort}.

(** [ElementFieldCmp] on two names: digits count as numbers in an array. *)
Definition ElementFieldCmp (isArray : bool) (s1 s2 : list byte) : bool :=
  match LexNumCmp_less (negb isArray) s1 s2 with Ok b => b | Err _ => false end.

(** [_fields] and [_cur]: the elements with the names they are sorted by. *)
Record BSONIteratorSorted := MkSorted { _fields : list (list byte * BSONElement); _cur : nat }.

Definition BSONIteratorSorted_of (isArray : bool) (o : BSONObj) : result BSONIteratorSorted :=
  let* _nfields := nFields o in
  let* fields := finish Ok (for_elements o [] (fun fs e =>
                   let* n := field_name e in Ok (Continue (fs ++ [(n, e)])))) in
  let* _ := verify (zlen fields =? _nfields) in
  Ok (MkSorted (std_sort (fun a b => ElementFieldCmp isArray (fst a) (fst b)) fields) 0).

Definition BSONObjIteratorSorted := BSONIteratorSorted_of false.
Definition BSONArrayIteratorSorted := BSONIteratorSorted_of true.

Definition sorted_more (i : BSONIteratorSorted) : bool := (_cur i <? length (_fields i))%nat.

Definition sorted_next (i : BSONIteratorSorted) : BSONElement * BSONIteratorSorted :=
  match _fields i !! _cur i with
  | Some (_, e) => (e, MkSorted (_fields i) (S (_cur i)))
  | None => (BSONElement_empty, i)
  end.

(** [while (i.more()) f(i.next())]. *)
Fixpoint sorted_rest (fuel : nat) (i : BSONIteratorSorted) : list BSONElement :=
  match fuel with
  | O => []
  | S fuel' => if sorted_more i then let '(e, i') := sorted_next i in e :: sorted_rest fuel' i' else []
  end.
Definition sorted_elements (i : BSONIteratorSorted) : list BSONElement := sorted_rest (length (_fields i)) i.
End sorted.

(** ** What [getFieldsDotted] finds, on paths *)

Definition is_number (s : list byte) : bool := negb (bool_decide (s = [])) && forallb is_digit s.

Section fields_at.
Context (expandLastArray : bool).

(** An array is gone through unless the path gives a position. *)
Fixpoint fields_at (p : list byte) (path : list (list byte)) (d : doc) {struct path} : doc :=
  match find_field d p with
  | None => []
  | Some f =>
      match path with
      | [] => match snd f with VArray d' => if expandLastArray then d' else [f] | _ => [f] end
      | q :: path' =>
          match snd f with
          | VObject d' => fields_at q path' d'
          | VArray d' =>
              if is_number q then fields_at q path' d'
              else flat_map (fun g : field => from_option (fields_at q path') [] (sub_doc (snd g))) d'
          | _ => []
          end
      end
  end.

Definition collect (e : BSONElement) (ret : list BSONElement) : result (list BSONElement) := Ok (ret ++ [e]).

Lemma allDigits_path q path : dot_free q = true -> allDigits (join_dot (q :: path)) = is_number q.
Proof.
  intros Hq. assert (exists r, join_dot (q :: path) = q ++ r /\ match r with [] => True | c :: _ => c = "."%byte end)
    as (r & -> & Hr).
  { destruct path as [|x path]; [exists []; by rewrite app_nil_r|]. by eexists. }
  unfold allDigits, is_number. destruct (forallb is_digit q) eqn:Ed.
  - rewrite span_app; [|done|by destruct r; subst]. destruct q; [done|]. by destruct r; subst.
  - assert (exists a c q', q = a ++ c :: q' /\ forallb is_digit a = true /\ is_digit c = false) as (a & c & q' & -> & Ha & Hc).
    { clear Hq. induction q as [|c q IH]; [done|]. cbn in Ed. destruct (is_digit c) eqn:Ec.
      - destruct (IH Ed) as (a & c' & q' & -> & Ha & Hc). exists (c :: a), c', q'. cbn [forallb app]. rewrite Ec. by split_and!.
      - by exists [], c, q. }
    rewrite <- app_assoc, span_app by done. cbn [app]. rewrite andb_false_r.
    unfold dot_free in Hq. rewrite forallb_app in Hq. apply andb_prop in Hq as [_ Hq]. cbn in Hq.
    apply andb_prop in Hq as [Hq%negb_true_iff _]. by destruct a.
Qed.

Lemma insert_elements_rep o d ret : obj_rep o d ->
  exists es, insert_elements collect o ret = Ok (ret ++ es) /\ elems_of (mem o) es d.
Proof.
  intros Ho. unfold insert_elements.
  edestruct (for_elements_inv (R := list BSONElement)
    (fun ret x => let* ret := collect x ret in Ok (Continue ret))
    (fun seen r => exists es, r = ret ++ es /\ elems_of (mem o) es seen) d o ret Ho)
    as (r & -> & es & -> & Hes); [|exists []; rewrite app_nil_r; split; [done|constructor]|by exists es].
  intros pre n v post r e _ (es & -> & Hes) Hok Hm. eexists. split; [reflexivity|].
  exists (es ++ [e]). split; [by rewrite app_assoc|]. apply Forall2_app; [done|]. apply Forall2_cons; [by split|apply Forall2_nil_2].
Qed.

Lemma sub_doc_dot_free v d : value_dot_free v = true -> sub_doc v = Some d -> doc_dot_free d = true.
Proof. by destruct v; cbn; intros; simplify_eq. Qed.

Lemma find_path_none d n r : doc_dot_free d = true -> find_field d (n ++ "."%byte :: r) = None.
Proof.
  intros Hd. destruct (find_field d (n ++ "."%byte :: r)) as [f|] eqn:Ef; [|done].
  apply find_field_dot_free in Ef as [Ef _]; [|done]. revert Ef. unfold dot_free.
  rewrite forallb_app. cbn. by rewrite andb_false_r.
Qed.

Lemma getFieldsDotted_go_rep path : forall p fuel o d ret,
  obj_rep o d -> doc_dot_free d = true -> forallb dot_free (p :: path) = true ->
  (length (join_dot (p :: path)) < fuel)%nat ->
  exists es, getFieldsDotted_go collect expandLastArray fuel o (join_dot (p :: path)) ret = Ok (ret ++ es) /\
    elems_of (mem o) es (fields_at p path d).
Proof.
  induction path as [|q path IH]; intros p [|fuel] o d ret Ho Hd Hp Hf; try lia.
  - cbn [join_dot getFieldsDotted_go fields_at] in *. cbn in Hp. rewrite andb_true_r in Hp.
    destruct (getField_rep o d p Ho) as (e & -> & Hfound). cbn [bind].
    rewrite (found_eoo _ _ _ Hfound). destruct (find_field d p) as [[n v]|]; cbn [found bind snd] in *.
    2: { rewrite split_dot_free by done. exists []. rewrite app_nil_r. split; [done|]. constructor. }
    destruct Hfound as [Hok Hm]. rewrite (type_rep _ _ _ Hok). cbn [bind].
    assert (exists es, collect e ret = Ok (ret ++ es) /\ elems_of (mem o) es [(n, v)]) as Hone.
    { exists [e]. split; [done|]. apply Forall2_cons; [by split|apply Forall2_nil_2]. }
    destruct v; try exact Hone. cbn [vtype]. rewrite bool_decide_true by done.
    destruct expandLastArray; [|exact Hone]. cbn [andb].
    destruct (embedded_rep _ _ _ _ Hok eq_refl) as (s & -> & Hs & Hms & _). cbn [bind].
    rewrite <- Hm, <- Hms. by apply insert_elements_rep.
  - change (join_dot (p :: q :: path)) with (p ++ "."%byte :: join_dot (q :: path)) in *.
    cbn [getFieldsDotted_go fields_at]. cbn [forallb] in Hp. apply andb_prop in Hp as [Hp Hq].
    destruct (getField_rep o d (p ++ "."%byte :: join_dot (q :: path)) Ho) as (e0 & -> & Hf0). cbn [bind].
    rewrite (found_eoo _ _ _ Hf0), find_path_none by done. cbn [bind]. clear e0 Hf0.
    rewrite split_dot_app by done. rewrite length_app in Hf. cbn [length] in Hf.
    destruct (getField_rep o d p Ho) as (e & -> & Hfound). cbn [bind].
    assert (exists es, Ok ret = Ok (ret ++ es) /\ elems_of (mem o) es []) as Hnone
      by (exists []; rewrite app_nil_r; split; [done|constructor]).
    destruct (find_field d p) as [[n v]|] eqn:Ef; cbn [found] in Hfound; [|subst e; exact Hnone].
    destruct Hfound as [Hok Hm]. rewrite (type_rep _ _ _ Hok). cbn [bind snd].
    destruct (find_field_dot_free _ _ _ Hd Ef) as [_ Hsub].
    destruct v as [ | | | | | | | |d'|d'| | | | | | | | | | ]; try exact Hnone; cbn [vtype];
      destruct (embedded_rep _ _ _ d' Hok eq_refl) as (s & -> & Hs & Hms & _); cbn [bind];
      rewrite <- Hm, <- Hms; specialize (Hsub d' eq_refl).
    + apply IH; [done|done|done|lia].
    + rewrite allDigits_path by (by apply andb_prop in Hq as [Hq _]).
      destruct (is_number q); [apply IH; [done|done|done|lia]|].
      edestruct (for_elements_inv (R := list BSONElement)
        (fun ret e2 => let* t2 := type e2 in
           if bool_decide (t2 = Object) || bool_decide (t2 = Array) then
             let* s2 := embeddedObject e2 in
             let* ret := getFieldsDotted_go collect expandLastArray fuel s2 (join_dot (q :: path)) ret in
             Ok (Continue ret)
           else Ok (Continue ret))
        (fun seen r => exists es, r = ret ++ es /\ elems_of (mem s) es
           (flat_map (fun g : field => from_option (fields_at q path) [] (sub_doc (snd g))) seen)) d' s ret Hs)
        as (r & -> & es & -> & Hes); [| |by exists es].
      * intros pre k w post r x Hall (es & -> & Hes) Hx Hmx. rewrite (type_rep _ _ _ Hx). cbn [bind].
        rewrite is_container, flat_map_app. cbn [flat_map snd]. rewrite app_nil_r.
        destruct (sub_doc w) as [d2|] eqn:Ew; cbn [from_option].
        -- destruct (embedded_rep _ _ _ d2 Hx Ew) as (s2 & -> & Hs2 & Hm2 & _). cbn [bind].
           destruct (IH q fuel s2 d2 (ret ++ es) Hs2) as (es2 & -> & Hes2); [|done|lia|].
           ++ eapply sub_doc_dot_free; [|exact Ew]. unfold doc_dot_free in Hsub.
              rewrite forallb_forall in Hsub.
              assert (In (k, w) d') as Hin by (rewrite Hall; apply in_or_app; right; by left).
              by apply Hsub, andb_prop in Hin as [_ Hin].
           ++ cbn [bind]. eexists. split; [reflexivity|]. exists (es ++ es2). split; [by rewrite app_assoc|].
              apply Forall2_app; [done|]. by rewrite <- Hmx, <- Hm2.
        -- eexists. split; [reflexivity|]. exists es. split; [done|]. by rewrite app_nil_r.
      * exists []. rewrite app_nil_r. split; [done|constructor].
Qed.
End fields_at.

(** In an object none of whose names has a dot, getFieldsDotted inserts the
    elements the path leads to, in order: an array on the way is entered at the
    position the path gives, or else each of its objects and arrays is, and an
    array at the end is spread when that is asked for. *)
Theorem getFieldsDotted_correct expand p path o d :
  obj_rep o d -> doc_dot_free d = true -> forallb dot_free (p :: path) = true ->
  exists es, getFieldsDotted collect expand o (join_dot (p :: path)) [] = Ok es /\
    elems_of (mem o) es (fields_at expand p path d).
Proof.
  intros Ho Hd Hp. destruct (getFieldsDotted_go_rep expand path p
    (S (length (join_dot (p :: path)))) o d [] Ho Hd Hp ltac:(lia)) as (es & H1 & H2). by exists es.
Qed.

Lemma getFieldsDotted_correct_witness :
  let d := [(bstr "a", VArray [(bstr "0", VObject [(bstr "b", VInt 1)]);
                               (bstr "1", VObject [(bstr "b", VArray [(bstr "0", VInt 2); (bstr "1", VInt 3)])])])] in
  exists es, getFieldsDotted collect true (obj_of d) (bstr "a.b") [] = Ok es /\
    elems_of (mem (obj_of d)) es [(bstr "b", VInt 1); (bstr "0", VInt 2); (bstr "1", VInt 3)].
Proof.
  intros d. apply (getFieldsDotted_correct true (bstr "a") [bstr "b"] (obj_of d) d).
  - by apply obj_of_rep.
  - reflexivity.
  - reflexivity.
Defined.

(** ** What [addFields] adds *)

Section addFields_spec.
Context (fields : list (list byte)).
Hypothesis Hset : List.NoDup fields.
Hypothesis Hnamed : existsb (bytes_eqb []) fields = false.

Definition requested (f : field) : bool := existsb (bytes_eqb (fst f)) fields.
Definition is_id (f : field) : bool := bytes_eqb (fst f) (bstr "_id").

(** What is selected of one field, and of several. *)
Definition selected (f : field) : doc := if requested f || is_id f then [f] else [].

Lemma field_name_eoo e : eoo_rep e -> field_name e = Ok [].
Proof. intros He. unfold field_name, fieldName. rewrite (eoo_rep_true _ He). done. Qed.

Lemma requested_in f : requested f = true <-> In (fst f) fields.
Proof.
  unfold requested. rewrite existsb_exists. split.
  - by intros (x & Hx & ->%bool_decide_eq_true).
  - intros Hin. exists (fst f). split; [done|]. by apply bool_decide_eq_true.
Qed.

(** When as many fields have been taken as were asked for, none is left. *)
Lemma selected_rest seen rest :
  List.NoDup (map fst (seen ++ rest)) ->
  length (List.filter requested seen) = length fields -> existsb is_id seen = true ->
  flat_map selected rest = [].
Proof.
  intros Hn Hl Hid. rewrite map_app in Hn.
  assert (incl fields (map fst (List.filter requested seen))) as Hincl.
  { apply NoDup_length_incl; [|rewrite length_map; lia|].
    - apply NoDup_app_remove_r in Hn. clear -Hn. induction seen as [|f seen IH]; [constructor|].
      cbn in Hn. apply List.NoDup_cons_iff in Hn as [Hf Hn]. cbn [List.filter].
      destruct (requested f); [|by apply IH]. cbn. constructor; [|by apply IH].
      intros Hin. apply Hf. apply in_map_iff in Hin as (g & <- & [Hg _]%filter_In). by apply in_map.
    - intros x Hx. apply in_map_iff in Hx as (g & <- & [_ Hg]%filter_In). by apply requested_in. }
  assert (forall f, In f rest -> requested f || is_id f = false) as Hnone.
  { intros f Hf. apply (in_map fst) in Hf.
    assert (forall g, In g seen -> fst g <> fst f) as Hne.
    { intros g Hg E. clear -Hn Hf Hg E. apply (in_map fst) in Hg. rewrite E in Hg.
      revert Hn. induction (map fst seen) as [|x l IH]; [done|]. cbn. intros [Hx Hl]%List.NoDup_cons_iff.
      destruct Hg as [->|Hg]; [|by apply IH]. apply Hx, in_or_app. by right. }
    apply orb_false_intro.
    - destruct (requested f) eqn:Er; [|done]. exfalso. apply requested_in in Er.
      apply Hincl, in_map_iff in Er as (g & Eg & [Hg _]%filter_In). by apply (Hne g).
    - destruct (is_id f) eqn:Ef; [|done]. exfalso. apply existsb_exists in Hid as (g & Hg & Eg).
      apply bool_decide_eq_true in Ef, Eg. apply (Hne g); [done|congruence]. }
  clear -Hnone. induction rest as [|f rest IH]; [done|]. cbn [flat_map]. unfold selected at 1.
  rewrite (Hnone f) by (by left). apply IH. intros g Hg. apply Hnone. by right.
Qed.

Lemma selected_none rest : flat_map selected rest = [] -> zlen (List.filter requested rest) = 0.
Proof.
  induction rest as [|x rest IH]; [done|]. cbn [flat_map List.filter]. unfold selected at 1.
  destruct (requested x); [done|]. cbn [orb]. destruct (is_id x); [done|]. apply IH.
Qed.

(** The loop has been through [seen]. *)
Record taken (seen : doc) (b : BSONObjBuilder) (n : Z) (gotId : bool) : Prop := {
  taken_b : b_rep b (le32 0) (flat_map selected seen);
  taken_owned : owned b = true;
  taken_n : n = zlen (List.filter requested seen);
  taken_id : gotId = existsb is_id seen
}.

Lemma taken_all seen rest b n :
  List.NoDup (map fst (seen ++ rest)) -> taken seen b n true -> n = zlen fields ->
  taken (seen ++ rest) b n true.
Proof.
  intros Hn [Hb Ho Hc Hid] Hl.
  pose proof (selected_rest seen rest Hn ltac:(unfold zlen in *; lia) ltac:(done)) as Hr.
  split; [|done| |].
  - by rewrite flat_map_app, Hr, app_nil_r.
  - rewrite List.filter_app, zlen_app, (selected_none rest Hr). lia.
  - by rewrite existsb_app, <- Hid.
Qed.

Lemma taken_skip seen f b n g : taken seen b n g -> requested f || is_id f = false -> taken (seen ++ [f]) b n g.
Proof.
  intros [Hb Ho Hc Hid] Hf. split; [|done| |].
  - rewrite flat_map_app. cbn [flat_map]. unfold selected at 2. by rewrite Hf, !app_nil_r.
  - rewrite List.filter_app. cbn. apply orb_false_elim in Hf as [-> _]. by rewrite app_nil_r.
  - rewrite existsb_app. cbn. apply orb_false_elim in Hf as [_ ->]. by rewrite !orb_false_r.
Qed.

Lemma taken_append d seen rest e f b n g :
  d = (seen ++ [f]) ++ rest -> wf_doc (flat_map selected d) = true -> elem_ok e (fst f) (snd f) ->
  taken seen b n g -> requested f || is_id f = true ->
  exists b', append_elem e b = Ok b' /\
    taken (seen ++ [f]) b' (if requested f then n + 1 else n) (g || is_id f).
Proof.
  intros Hd Hw Hok [Hb Ho Hc Hid] Hf.
  assert (flat_map selected (seen ++ [f]) = flat_map selected seen ++ [f]) as Hsel
    by (rewrite flat_map_app; cbn [flat_map]; unfold selected at 2; by rewrite Hf).
  destruct (does_append _ _ (append_elem_rep _ _ _ Hok) b _ _ Hb) as (b' & H1 & H2 & H3).
  { replace (fst f, snd f) with f by (by destruct f).
    unfold fits. rewrite (b_rep_len _ _ _ Hb), zlen_le_bytes. apply wf_doc_size in Hw.
    rewrite Hd, flat_map_app, Hsel, zlen_enc_doc, !enc_elems_app, !zlen_app, obj_max_val in Hw.
    pose proof (zlen_nonneg (enc_elems (flat_map selected rest))). change BufferMaxSize with 67108864. lia. }
  replace (fst f, snd f) with f in H2 by (by destruct f).
  exists b'. split; [done|]. split; [by rewrite Hsel|congruence| |].
  - rewrite List.filter_app, zlen_app, <- Hc. cbn [List.filter]. destruct (requested f); [done|].
    change (zlen (@nil field)) with 0. lia.
  - rewrite existsb_app, <- Hid. cbn. by rewrite orb_false_r.
Qed.

(** The turn at the EOO, after which there is nothing. *)
Lemma addFields_go_end fuel i b n g : it_rep i [] -> (1 < fuel)%nat ->
  addFields_go fuel fields i b n g = Ok (b, n).
Proof using Hnamed.
  intros Hi Hf. destruct fuel as [|[|fuel]]; [lia|lia|].
  destruct (next_rep_end i Hi) as (_ & Hm & Hnx & He). cbn [addFields_go]. rewrite Hm, Hnx. cbn [bind].
  rewrite (field_name_eoo _ He). cbn [bind]. rewrite Hnamed.
  change (bytes_eqb [] (bstr "_id")) with false. unfold moreWithEOO. cbn [_pos _theend].
  destruct Hi as (_ & -> & _). change (zlen (enc_elems [])) with 0.
  by replace (off (_pos i +! 1) <=? off (_pos i) + 0) with false by (symmetry; apply Z.leb_gt; cbn; lia).
Qed.

Lemma addFields_go_rep d rest : wf_doc (flat_map selected d) = true -> List.NoDup (map fst d) ->
  forall fuel i seen b n g,
  d = seen ++ rest -> it_rep i rest -> taken seen b n g -> (length rest + 1 < fuel)%nat ->
  exists b' n' g', addFields_go fuel fields i b n g = Ok (b', n') /\ taken d b' n' g'.
Proof using Hset Hnamed.
  intros Hw Hnd. induction rest as [|[k v] rest IH]; intros fuel i seen b n g Hd Hi Ht Hf; cbn in Hf.
  - rewrite app_nil_r in Hd. subst seen. exists b, n, g. split; [|done].
    apply addFields_go_end; [done|lia].
  - destruct fuel as [|fuel]; [lia|].
    apply next_rep in Hi as (Hm & Hnx & Hok & Hi'). cbn [addFields_go].
    replace (moreWithEOO i) with true by (unfold more, moreWithEOO in *; lia). rewrite Hnx. cbn [bind fst snd] in *.
    rewrite (field_name_rep _ _ _ Hok). cbn [bind].
    change (existsb (bytes_eqb k) fields) with (requested (k, v)).
    change (bytes_eqb k (bstr "_id")) with (is_id (k, v)).
    set (f := (k, v)) in *. assert (d = (seen ++ [f]) ++ rest) as Hd' by (by rewrite <- app_assoc).
    assert (forall b' n' g', taken (seen ++ [f]) b' n' g' -> exists b2 n2 g2,
      addFields_go fuel fields (MkIter (_pos i +! zlen (enc_elem f)) (_theend i)) b' n' g' = Ok (b2, n2) /\
      taken d b2 n2 g2) as Hgo by (intros b' n' g' Ht'; apply (IH _ _ (seen ++ [f])); try done; lia).
    assert (forall b' n', taken (seen ++ [f]) b' n' true -> n' = zlen fields -> exists b2 n2 g2,
      Ok (b', n') = Ok (b2, n2) /\ taken d b2 n2 g2) as Hstop.
    { intros b' n' Ht' Hn'. exists b', n', true. split; [done|]. rewrite Hd' in Hnd |- *. by apply taken_all. }
    pose proof (taken_append d seen rest _ f b n g Hd' Hw Hok Ht) as Happ.
    destruct (requested f) eqn:Er; [|destruct (is_id f) eqn:Ei]; cbn [orb] in Happ.
    + destruct (Happ eq_refl) as (b' & -> & Ht'). cbn [bind].
      destruct (Z.eqb_spec (n + 1) (zlen fields)); [|by apply Hgo]. cbn [andb].
      destruct (g || is_id f); [by apply Hstop|by apply Hgo].
    + destruct (Happ eq_refl) as (b' & -> & Ht'). cbn [bind]. rewrite orb_true_r in Ht'.
      destruct (Z.eqb_spec n (zlen fields)); [by apply Hstop|by apply Hgo].
    + apply Hgo, taken_skip; [done|]. by rewrite Er, Ei.
Qed.

(** addFields of an object whose names are distinct: it answers how many of the
    fields asked for the object has; when there is one, the result is these
    fields and the _id, in their order in the object; otherwise nothing is
    taken, not even the _id. *)
Theorem addFields_correct o from d :
  isEmpty o = Ok true -> obj_rep from d -> List.NoDup (map fst d) ->
  exists r, addFields o false from fields = Ok (zlen (List.filter requested d), r) /\
    if zlen (List.filter requested d) =? 0 then r = o else obj_rep r (flat_map selected d).
Proof using Hset Hnamed.
  intros He Hfrom Hnd. unfold addFields. rewrite He. cbn [bind andb negb verify].
  destruct (new_rep 512 ltac:(by vm_compute)) as (b & -> & Hb & Ho & _). cbn [bind].
  destruct (iterator_rep from d Hfrom) as (i & -> & Hi & _). cbn [bind].
  assert (wf_doc (flat_map selected d) = true) as Hw.
  { apply wf_doc_sub; [|apply Hfrom]. intros f _. unfold selected. destruct (requested f || is_id f); auto. }
  destruct (addFields_go_rep d d Hw Hnd (S (fuel_of from)) i [] b 0 false) as (b' & n & g & -> & [Hb' Ho' -> _]);
    [done|done|by split|pose proof (fuel_enough from d Hfrom); lia|]. cbn [bind].
  destruct (Z.eqb_spec (zlen (List.filter requested d)) 0); [by exists o|].
  destruct (built_obj selected d b' Hw (conj Hb' Ho')) as (r & -> & Hr). cbn [bind]. by exists r.
Qed.
End addFields_spec.

Lemma addFields_correct_witness : exists r,
  addFields BSONObj_empty false (obj_of (doc_sample 1)) [bstr "a"] = Ok (1, r).
Proof.
  destruct (addFields_correct [bstr "a"] (List.NoDup_cons _ (fun H : In _ [] => H) (List.NoDup_nil _)) eq_refl BSONObj_empty
    (obj_of (doc_sample 1)) (doc_sample 1)) as (r & Hr & _).
  - reflexivity.
  - by apply obj_of_rep.
  - apply NoDup_ListNoDup. by apply (bool_decide_unpack (NoDup (map fst (doc_sample 1)))).
  - by exists r.
Defined.

(** ** A sort *)

Section insertion_sort.
Context {A : Type} (less : A -> A -> bool).

Fixpoint insert_sorted (x : A) (l : list A) : list A :=
  match l with
  | [] => [x]
  | y :: l' => if less y x then y :: insert_sorted x l' else x :: l
  end.
Definition insertion_sort (l : list A) : list A := fold_right insert_sorted [] l.

Lemma insert_sorted_permutation x l : insert_sorted x l ≡ₚ x :: l.
Proof.
  induction l as [|y l IH]; [done|]. cbn. destruct (less y x); [|done].
  rewrite IH. by constructor.
Qed.

Lemma insertion_sort_permutation l : insertion_sort l ≡ₚ l.
Proof. induction l as [|x l IH]; [done|]. cbn. by rewrite insert_sorted_permutation, IH. Qed.

Lemma insert_sorted_sorted x l : strict_weak less (x :: l) ->
  StronglySorted (fun a b => less b a = false) l -> StronglySorted (fun a b => less b a = false) (insert_sorted x l).
Proof.
  intros (Hi & Ht & Hn). induction 1 as [|y l Hs IH Hy]; cbn; [repeat constructor|].
  destruct (less y x) eqn:E.
  - constructor.
    + apply IH; intros; [apply Hi|eapply Ht|eapply Hn]; try done; cbn in *; tauto.
    + rewrite insert_sorted_permutation. constructor; [|done].
      destruct (less x y) eqn:E'; [|done]. rewrite <- (Hi x) by (by left).
      symmetry. eapply (Ht x y x); cbn; auto.
  - constructor; [by constructor|]. constructor; [done|].
    rewrite List.Forall_forall in Hy |- *. intros z Hz. apply (Hn z y x); cbn; auto.
Qed.

Lemma insertion_sort_sorted l : strict_weak less l ->
  StronglySorted (fun a b => less b a = false) (insertion_sort l).
Proof.
  induction l as [|x l IH]; cbn; [constructor|]. intros Hw.
  assert (forall y, In y (insertion_sort l) -> In y l) as Hin.
  { intros y. apply Permutation_in, insertion_sort_permutation. }
  apply insert_sorted_sorted.
  - destruct Hw as (Hi & Ht & Hn). split; [|split]; cbn in *.
    + intros a Ha. apply Hi. destruct Ha; auto.
    + intros a b c Ha Hb Hc. apply Ht; [destruct Ha|destruct Hb|destruct Hc]; auto.
    + intros a b c Ha Hb Hc. apply Hn; [destruct Ha|destruct Hb|destruct Hc]; auto.
  - apply IH. destruct Hw as (Hi & Ht & Hn). split; [|split]; cbn in *; intros; eauto.
Qed.
End insertion_sort.

Definition insertion_StdSort : StdSort := {|
  std_sort A := insertion_sort;
  std_sort_permutation A := insertion_sort_permutation;
  std_sort_sorted A := insertion_sort_sorted
|}.

(** ** What the sorted iterators give *)

Section sorted_spec.
Context {sort_ : StdSort} (isArray : bool).

Abbreviation name_keys := (string_keys (negb isArray)).

Lemma ElementFieldCmp_keys a b : no_nul a = true -> no_nul b = true ->
  ElementFieldCmp isArray a b = (zlex (name_keys a) (name_keys b) <? 0).
Proof. intros. unfold ElementFieldCmp, LexNumCmp_less. by rewrite LexNumCmp_cmp_keys. Qed.

(** [f] may stand before [g]. *)
Definition ordered (f g : field) : Prop := zlex (name_keys (fst f)) (name_keys (fst g)) <= 0.

Definition names_ok (fs : list (list byte * BSONElement)) : Prop := Forall (fun p => no_nul (fst p) = true) fs.

Lemma names_strict_weak fs : names_ok fs ->
  strict_weak (fun a b : list byte * BSONElement => ElementFieldCmp isArray (fst a) (fst b)) fs.
Proof.
  intros Hok. unfold names_ok in Hok. rewrite List.Forall_forall in Hok. split; [|split].
  - intros a Ha. rewrite ElementFieldCmp_keys by auto. by rewrite zlex_refl.
  - intros a b c Ha Hb Hc. rewrite !ElementFieldCmp_keys by auto.
    pose proof (zlex_lt_trans (name_keys (fst a)) (name_keys (fst b)) (name_keys (fst c))). lia.
  - intros a b c Ha Hb Hc. rewrite !ElementFieldCmp_keys by auto.
    pose proof (zlex_nlt_trans (name_keys (fst a)) (name_keys (fst b)) (name_keys (fst c))). lia.
Qed.

Lemma sorted_rest_all fs : forall k n, (k + n = length fs)%nat ->
  sorted_rest n (MkSorted fs k) = map snd (drop k fs).
Proof.
  intros k n. revert k. induction n as [|n IH]; intros k Hk.
  - rewrite drop_ge by lia. done.
  - cbn [sorted_rest]. unfold sorted_more. cbn [_fields _cur].
    destruct (Nat.ltb_spec k (length fs)); [|lia].
    destruct (lookup_lt_is_Some_2 fs k) as [[x e] Hx]; [lia|]. unfold sorted_next. cbn [_fields _cur]. rewrite Hx.
    rewrite (drop_S _ _ _ Hx). cbn [map snd]. f_equal. apply IH. lia.
Qed.

Lemma sorted_elements_all fs : sorted_elements (MkSorted fs 0) = map snd fs.
Proof. unfold sorted_elements. cbn [_fields]. by rewrite sorted_rest_all. Qed.

Definition pair_rep (m : list byte) (p : list byte * BSONElement) (f : field) : Prop :=
  fst p = fst f /\ elem_ok (snd p) (fst f) (snd f) /\ mem (data (snd p)) = m.

Lemma Forall2_perm {A B} (R : A -> B -> Prop) l l' k :
  l' ≡ₚ l -> Forall2 R l k -> exists k', k' ≡ₚ k /\ Forall2 R l' k'.
Proof.
  intros Hp. symmetry in Hp. revert k. induction Hp as [|x l l' _ IH|x y l|l1 l2 l3 _ IH1 _ IH2]; intros k H.
  - by exists k.
  - inversion H as [|? b ? k0 Hb Hk]; subst. destruct (IH k0 Hk) as (k' & Hp & H'). exists (b :: k').
    split; [by rewrite Hp|by constructor].
  - inversion H as [|? b ? k0 Hb Hk]; subst. inversion Hk as [|? c ? k1 Hc Hk']; subst.
    exists (c :: b :: k1). split; [constructor|by repeat constructor].
  - destruct (IH1 k H) as (k1 & Hp1 & H1). destruct (IH2 k1 H1) as (k2 & Hp2 & H2). exists k2.
    split; [by rewrite Hp2|done].
Qed.

Lemma StronglySorted_weaken {A} (R S : A -> A -> Prop) l :
  (forall a b, R a b -> S a b) -> StronglySorted R l -> StronglySorted S l.
Proof.
  intros HRS. induction 1 as [|a l _ IH Ha]; [constructor|]. constructor; [done|].
  eapply List.Forall_impl; [apply HRS|done].
Qed.

Lemma StronglySorted_rep {A B} (R : A -> A -> Prop) (S : B -> B -> Prop) (rel : A -> B -> Prop) l k :
  (forall a b x y, rel a x -> rel b y -> R a b -> S x y) ->
  Forall2 rel l k -> StronglySorted R l -> StronglySorted S k.
Proof.
  intros HRS. induction 1 as [|a x l k Hax Hlk IH]; [constructor|]. intros [Hs Ha]%StronglySorted_inv.
  constructor; [by apply IH|]. clear Hs IH. induction Hlk as [|b y l k Hby _ IH]; [constructor|].
  apply Forall_cons_1 in Ha as [Hab Ha]. constructor; [by eapply HRS|by apply IH].
Qed.

Lemma sorted_rep o d : obj_rep o d -> exists i d',
  BSONIteratorSorted_of isArray o = Ok i /\ d' ≡ₚ d /\ StronglySorted ordered d' /\
  elems_of (mem o) (sorted_elements i) d'.
Proof.
  intros Ho. unfold BSONIteratorSorted_of. rewrite (nFields_rep _ _ Ho). cbn [bind].
  edestruct (for_elements_inv (R := list (list byte * BSONElement))
    (fun fs e => let* n := field_name e in Ok (Continue (fs ++ [(n, e)])))
    (fun seen fs => Forall2 (pair_rep (mem o)) fs seen) d o [] Ho) as (fs & -> & Hfs); [|constructor|].
  { intros pre n v post fs e _ Hfs Hok Hm. rewrite (field_name_rep _ _ _ Hok). cbn [bind].
    eexists. split; [reflexivity|]. apply Forall2_app; [done|]. apply Forall2_cons; [by split|apply Forall2_nil_2]. }
  cbn [finish bind]. unfold zlen. rewrite (Forall2_length Hfs), Z.eqb_refl. cbn [verify bind].
  set (less := fun a b : list byte * BSONElement => ElementFieldCmp isArray (fst a) (fst b)).
  destruct (Forall2_perm _ _ _ _ (std_sort_permutation _ less fs) Hfs) as (d' & Hp & Hrep).
  assert (names_ok fs) as Hok.
  { destruct Ho as [_ Hw%wf_doc_Forall]. clear -Hfs Hw. induction Hfs as [|p f fs d (Hn & _) _ IH]; [constructor|].
    apply Forall_cons_1 in Hw as [Hf Hw]. constructor; [|by apply IH]. rewrite Hn. destruct f.
    by apply wf_field_parts in Hf as [Hf _]. }
  eexists _, d'. split; [reflexivity|]. split; [done|]. split.
  - eapply (StronglySorted_rep (fun a b => names_ok [a; b] /\ less b a = false)); [|exact Hrep|].
    + intros a b x y (Ea & _) (Eb & _) [Hn Hl]. unfold less in Hl.
      apply Forall_cons_1 in Hn as [Ha [Hb _]%Forall_cons_1].
      rewrite ElementFieldCmp_keys in Hl by done. unfold ordered. rewrite <- Ea, <- Eb.
      rewrite (zlex_antisym (name_keys (fst b)) (name_keys (fst a))). lia.
    + pose proof (std_sort_sorted _ less fs (names_strict_weak fs Hok)) as Hs.
      assert (names_ok (std_sort less fs)) as Hok' by (unfold names_ok; by rewrite std_sort_permutation).
      clear -Hs Hok'. induction Hs as [|a l Hs IH Ha]; [constructor|].
      apply Forall_cons_1 in Hok' as [Hna Hnl]. constructor; [by apply IH|].
      unfold names_ok in *. rewrite List.Forall_forall in Ha, Hnl |- *. intros b Hb.
      split; [|by apply Ha]. constructor; [done|]. constructor; [by apply Hnl|apply Forall_nil_2].
  - rewrite sorted_elements_all. unfold elems_of. clear -Hrep.
    induction Hrep as [|p f l d' (_ & ? & ?) _ IH]; cbn [map]; constructor; done.
Qed.
End sorted_spec.

(** The keys of the decimal notation of a position are the position. *)
Lemma string_keys_dec n : 0 <= n -> string_keys false (dec n) = [2; n].
Proof.
  intros Hn. unfold dec. destruct (Z.ltb_spec n 0); [lia|].
  destruct (dec_nonneg_spec n Hn) as (Hd & Hne & Hv & _). unfold string_keys.
  destruct (dec_nonneg n) as [|c r] eqn:E; [done|]. cbn [length keys negb andb].
  assert (is_digit c = true) as Hc by (cbn in Hd; by apply andb_prop in Hd as [? _]).
  rewrite (is_digit_neq c dot Hc eq_refl). unfold is_max. rewrite (is_digit_neq c xff Hc eq_refl), Hc.
  rewrite <- (app_nil_r (c :: r)), span_app by done. cbn [run_key]. rewrite Hv.
  by destruct (length r).
Qed.

(** [f] and [g] are named by positions, [f] by an earlier one. *)
Definition earlier (f g : field) : Prop := exists m n, fst f = dec m /\ fst g = dec n /\ 0 <= m < n.

Lemma indexed_earlier d : forall k, 0 <= k -> indexed k d = true ->
  StronglySorted earlier d /\ Forall (fun f => exists m, fst f = dec m /\ k <= m) d.
Proof.
  induction d as [|[n v] d IH]; intros k Hk Hd; [by repeat constructor|]. cbn [indexed] in Hd.
  apply andb_prop in Hd as [Hn%bool_decide_eq_true Hd]. destruct (IH (k + 1) ltac:(lia) Hd) as [H1 H2]. split.
  - constructor; [done|]. eapply List.Forall_impl; [|exact H2]. intros f (m & Hm & Hlt).
    exists k, m. split; [done|]. split; [done|]. lia.
  - constructor; [by exists k|]. eapply List.Forall_impl; [|exact H2]. intros f (m & Hm & Hlt).
    exists m. split; [done|]. lia.
Qed.

Lemma earlier_ordered f g : earlier f g -> ordered true f g /\ ~ ordered true g f.
Proof.
  intros (m & n & Ef & Eg & Hmn). unfold ordered. cbn [negb]. rewrite Ef, Eg, !string_keys_dec by lia. cbn.
  destruct (Z.ltb_spec m n), (Z.ltb_spec n m); lia.
Qed.

Lemma earlier_unique d f g : StronglySorted earlier d -> f ∈ d -> g ∈ d ->
  ordered true f g -> ordered true g f -> f = g.
Proof.
  intros Hs Hf Hg Hfg Hgf. induction Hs as [|x d Hs IH Hx]; [by apply elem_of_nil in Hf|].
  rewrite List.Forall_forall in Hx.
  apply elem_of_cons in Hf as [->|Hf], Hg as [->|Hg]; [done| | |by apply IH]; exfalso.
  - by apply (earlier_ordered x g ltac:(by apply Hx, list_elem_of_In)).
  - by apply (earlier_ordered x f ltac:(by apply Hx, list_elem_of_In)).
Qed.

Lemma sorted_array_order d d' : d' ≡ₚ d -> StronglySorted (ordered true) d' -> indexed 0 d = true -> d' = d.
Proof.
  intros Hp Hs Hd. destruct (indexed_earlier d 0 ltac:(lia) Hd) as [Hlt _].
  eapply (StronglySorted_unique_strong (ordered true)); [|done| |done].
  - intros f g Hf Hg. rewrite Hp in Hf. by apply (earlier_unique d).
  - eapply StronglySorted_weaken; [|exact Hlt]. intros f g Hfg. by apply earlier_ordered.
Qed.

(** The sorted iterators give every field of the object, in the order of the
    names: of their characters, or with digits as numbers.  For an array whose
    fields are named by their positions the order is that of the array. *)
Theorem sorted_iterator_correct `{StdSort} isArray o d : obj_rep o d -> exists i d',
  BSONIteratorSorted_of isArray o = Ok i /\ d' ≡ₚ d /\ StronglySorted (ordered isArray) d' /\
  elems_of (mem o) (sorted_elements i) d' /\
  (isArray = true -> indexed 0 d = true -> d' = d).
Proof.
  intros Ho. destruct (sorted_rep isArray o d Ho) as (i & d' & Hi & Hp & Hs & He).
  exists i, d'. split; [done|]. split; [done|]. split; [done|]. split; [done|]. intros ->.
  by apply sorted_array_order.
Qed.

Lemma sorted_iterator_correct_witness :
  let d := [(bstr "b10", VInt 1); (bstr "b9", VInt 2); (bstr "a", VNull)] in
  exists i d', BSONIteratorSorted_of (sort_ := insertion_StdSort) false (obj_of d) = Ok i /\ d' ≡ₚ d /\
    elems_of (mem (obj_of d)) (sorted_elements i) d'.
Proof.
  intros d. destruct (sorted_iterator_correct (H := insertion_StdSort) false (obj_of d) d)
    as (i & d' & H1 & H2 & _ & H3 & _).
  - by apply obj_of_rep.
  - by exists i, d'.
Defined.

(** ** Numbers as text *)

Lemma number_chars_digits s : forallb is_digit s = true -> number_chars false s = Some false.
Proof.
  induction s as [|c s IH]; [done|]. cbn [forallb number_chars]. intros [-> H]%andb_prop. by apply IH.
Qed.

Definition number_field (name : list byte) (n : Z) : field :=
  (name, if (length (dec n) <? 8)%nat then VInt n else VLong n).

Lemma dec_shape n : exists s r, dec n = s ++ r /\ (s = [] \/ s = ["-"%byte]) /\ forallb is_digit r = true /\ r <> [] /\
  r = dec_nonneg (Z.abs n).
Proof.
  unfold dec. destruct (Z.ltb_spec n 0).
  - exists ["-"%byte], (dec_nonneg (- n)). destruct (dec_nonneg_spec (- n)) as (H1 & H2 & _); [lia|].
    split; [done|]. split; [by right|]. split; [done|]. split; [done|]. f_equal. lia.
  - exists [], (dec_nonneg n). destruct (dec_nonneg_spec n) as (H1 & H2 & _); [lia|].
    split; [done|]. split; [by left|]. split; [done|]. split; [done|]. f_equal. lia.
Qed.

(** The decimal notation of a 64-bit integer is appended as the integer, as an
    int when it has less than eight characters and as a long otherwise. *)
Theorem appendAsNumber_correct lexical_cast name n b pre d :
  (forall k, in_s 64 k = true -> lexical_cast (dec k) = Some k) -> in_s 64 n = true ->
  b_rep b pre d -> fits (_b b) (zlen (enc_elem (number_field name n))) ->
  exists b', appendAsNumber lexical_cast name (dec n) b = Ok (true, b') /\ b_rep b' pre (d ++ [number_field name n]).
Proof.
  intros Hlc Hn Hb Hf. unfold appendAsNumber, number_field in *.
  destruct (dec_shape n) as (s & r & E & Hs & Hr & Hne & Er).
  assert (bool_decide (dec n = []) || bytes_eqb (dec n) (bstr "-") || bytes_eqb (dec n) (bstr ".") = false) as ->.
  { rewrite E. unfold bytes_eqb. destruct r as [|c r]; [done|]. cbn in Hr. apply andb_prop in Hr as [Hc _].
    rewrite !bool_decide_false; [done| | |]; destruct Hs as [-> | ->]; cbn; try done; intros [= -> _]; done. }
  assert (match dec n with c :: r => if Byte.eqb c "-" then r else dec n | [] => [] end = r) as ->.
  { rewrite E. destruct Hs as [-> | ->]; cbn [app]; [|done]. destruct r as [|c r]; [done|].
    cbn in Hr. apply andb_prop in Hr as [Hc _]. by rewrite (is_digit_neq c "-"%byte Hc eq_refl). }
  rewrite number_chars_digits by done. destruct (Nat.ltb_spec (length (dec n)) 8) as [Hlen|Hlen].
  - rewrite atoi_dec. 2: {
      apply in_s_spec. destruct (dec_nonneg_spec (Z.abs n)) as (Hd & _ & Hv & _); [lia|].
      pose proof (dec_val_bounds _ Hd) as Hbd. rewrite Hv, <- Er in Hbd.
      assert (zlen r <= 7). { unfold zlen. rewrite E, length_app in Hlen. lia. }
      assert (10 ^ zlen r <= 10 ^ 7) by (apply Z.pow_le_mono_r; lia).
      change (2 ^ (32 - 1)) with 2147483648. change (10 ^ 7) with 10000000 in *. lia. }
    cbn [bind]. destruct (append_int_rep name n b pre d Hb Hf) as (b' & -> & Hb' & _). cbn [bind]. by exists b'.
  - rewrite Hlc by done. destruct (append_longlong_rep name n b pre d Hb Hf) as (b' & -> & Hb' & _). cbn [bind]. by exists b'.
Qed.

Definition read_long (s : list byte) : option Z :=
  match parseLL s with Ok n => Some n | Err _ => None end.

Lemma appendAsNumber_correct_witness : exists b b',
  BSONObjBuilder_new 512 = Ok b /\
  appendAsNumber read_long (bstr "n") (dec (-12345678)) b = Ok (true, b') /\
  b_rep b' (le32 0) [(bstr "n", VLong (-12345678))].
Proof.
  destruct (new_rep 512 ltac:(by vm_compute)) as (b & Hnew & Hb & _ & Hl).
  destruct (appendAsNumber_correct read_long (bstr "n") (-12345678) b (le32 0) []) as (b' & H1 & H2).
  - intros k Hk. unfold read_long, parseLL. destruct (dec k) eqn:E; [by destruct (dec_cons k) as (? & ? & E' & _); rewrite E in E'|].
    rewrite <- E, strtoll_dec by done. done.
  - reflexivity.
  - exact Hb.
  - unfold fits. rewrite Hl. by vm_compute.
  - by exists b, b'.
Defined.

(** The texts that are only a sign or a point are refused, but not both: a sign
    and a point are the number zero. *)
Example sign_and_point lc b : appendAsNumber lc (bstr "n") (bstr "-") b = Ok (false, b) /\
  appendAsNumber lc (bstr "n") (bstr "-.") b = (let* b := append_double (bstr "n") d_zero b in Ok (true, b)).
Proof. by split. Qed.

(** When none of the fields asked for is there, the _id is not added either. *)
Example addFields_no_id :
  addFields BSONObj_empty false (obj_of [(bstr "_id", VInt 1); (bstr "a", VInt 2)]) [bstr "b"] = Ok (0, BSONObj_empty).
Proof. by vm_compute. Qed.
