(* ===== verification/ReadPref.v ===== *)
(** * ReadPref: queries with options and the preference of a node to read from
    (class Query of client/dbclientinterface.h and client/dbclient.cpp, TagSet
    of client/dbclient_rs.h, and of client/dbclient_rs.cpp what reads the
    preference out of a query)

    A query is an object: the criteria alone, or the criteria as its field
    "query" beside options, which the builder methods append.  The theorem is
    that the preference one puts in is the one that is read out. *)

From stdpp Require Import base list numbers strings option sorting tactics.
From Stdlib Require Import Strings.Byte ZArith Lia.
From S2P Require Import Prelude Memory Decimal Text BsonTypes Format Element Obj Access Compare Order Builder JsObj JsObjSpec ObjFields.

(** ** Query *)

(** None when the query has no options; otherwise [*hasDollar]. *)
Definition isComplex (o : BSONObj) : result (option bool) :=
  let* q := hasField o (bstr "query") in
  if q then Ok (Some false)
  else
    let* q := hasField o (bstr "$query") in
    if q then Ok (Some true) else Ok None.

Definition makeComplex (o : BSONObj) : result BSONObj :=
  let* c := isComplex o in
  match c with
  | Some _ => Ok o
  | None =>
      let* b := BSONObjBuilder_new 512 in
      let* b := append_obj (bstr "query") o b in
      obj b
  end.

(** [app] is [b.append(fieldName, val)]. *)
Definition appendComplex (app : BSONObjBuilder -> result BSONObjBuilder) (o : BSONObj) : result BSONObj :=
  let* o := makeComplex o in
  let* b := BSONObjBuilder_new 512 in
  let* b := appendElements o b in
  let* b := app b in
  obj b.

Definition query_sort (s : BSONObj) : BSONObj -> result BSONObj := appendComplex (append_obj (bstr "orderby") s).
Definition query_hint (keyPattern : BSONObj) : BSONObj -> result BSONObj :=
  appendComplex (append_obj (bstr "$hint") keyPattern).
Definition explain : BSONObj -> result BSONObj := appendComplex (append_bool (bstr "$explain") true).
Definition snapshot : BSONObj -> result BSONObj := appendComplex (append_bool (bstr "$snapshot") true).
Definition minKey (val : BSONObj) : BSONObj -> result BSONObj := appendComplex (append_obj (bstr "$min") val).
Definition maxKey (val : BSONObj) : BSONObj -> result BSONObj := appendComplex (append_obj (bstr "$max") val).

Definition where_ (jscode : list byte) (scope o : BSONObj) : result BSONObj :=
  let* c := isComplex o in
  let* _ := verify (match c with Some _ => false | None => true end) in
  let* b := BSONObjBuilder_new 512 in
  let* b := appendElements o b in
  let* b := appendWhere jscode scope b in
  obj b.

Definition getFilter (o : BSONObj) : result BSONObj :=
  let* c := isComplex o in
  match c with
  | None => Ok o
  | Some hasDollar => getObjectField o (if hasDollar then bstr "$query" else bstr "query")
  end.

Definition getSort (o : BSONObj) : result BSONObj :=
  let* c := isComplex o in
  match c with
  | None => Ok BSONObj_empty
  | Some _ =>
      let* ret := getObjectField o (bstr "orderby") in
      let* z := isEmpty ret in
      if z then getObjectField o (bstr "$orderby") else Ok ret
  end.

Definition getHint (o : BSONObj) : result BSONObj :=
  let* c := isComplex o in
  match c with None => Ok BSONObj_empty | Some _ => getObjectField o (bstr "$hint") end.

Definition isExplain (o : BSONObj) : result bool :=
  let* c := isComplex o in
  match c with None => Ok false | Some _ => getBoolField o (bstr "$explain") end.

(** ** The preference *)

Inductive ReadPreference := PrimaryOnly | PrimaryPreferred | SecondaryOnly | SecondaryPreferred | Nearest.

#[global] Instance ReadPreference_eq_dec : EqDecision ReadPreference.
Proof. solve_decision. Defined.

(** The names of [Query::ReadPrefField], [ReadPrefModeField] and
    [ReadPrefTagsField]. *)
Definition ReadPrefField : list byte := bstr "$readPreference".
Definition ReadPrefModeField : list byte := bstr "mode".
Definition ReadPrefTagsField : list byte := bstr "tags".

Definition mode_name (pref : ReadPreference) : list byte :=
  match pref with
  | PrimaryOnly => bstr "primary"
  | PrimaryPreferred => bstr "primaryPreferred"
  | SecondaryOnly => bstr "secondary"
  | SecondaryPreferred => bstr "secondaryPreferred"
  | Nearest => bstr "nearest"
  end.

Definition readPref (pref : ReadPreference) (tags o : BSONObj) : result BSONObj :=
  let* b := BSONObjBuilder_new 512 in
  let* b := append_string ReadPrefModeField (mode_name pref) b in
  let* z := isEmpty tags in
  let* b := if negb z then appendArray ReadPrefTagsField tags b else Ok b in
  let* '(doc, _) := done b in
  appendComplex (append_obj ReadPrefField doc) o.

Definition hasReadPreference (queryObj : BSONObj) : result bool :=
  let* e := getField queryObj (bstr "$queryOptions") in
  let* abson := isABSONObj e in
  let* hasReadPrefOption :=
    if abson then let* q := embeddedObjectUserCheck e in hasField q ReadPrefField else Ok false in
  let* c := isComplex queryObj in
  let* direct := match c with Some _ => hasField queryObj ReadPrefField | None => Ok false end in
  Ok (direct || hasReadPrefOption).

(** [getOwned]: the object itself when it owns its bytes. *)
Definition getOwned (isOwned : bool) (o : BSONObj) : result BSONObj := if isOwned then Ok o else copy o.

(** ** TagSet *)

Section tags.
Context {sort_ : StdSort}.

Record TagSet := MkTagSet {
  _currentTag : BSONObj;
  _isExhausted : bool;
  _tags : BSONObj;
  _tagIterator : BSONIteratorSorted
}.

Definition TagSet_next (t : TagSet) : result TagSet :=
  if sorted_more (_tagIterator t) then
    let '(nextTag, i) := sorted_next (_tagIterator t) in
    let* b := isABSONObj nextTag in
    let* _ := uassert 16357 b in
    let* tag := embeddedObjectUserCheck nextTag in
    Ok (MkTagSet tag (_isExhausted t) (_tags t) i)
  else Ok (MkTagSet (_currentTag t) true (_tags t) (_tagIterator t)).

Definition TagSet_empty : result TagSet :=
  let* i := BSONArrayIteratorSorted BSONObj_empty in
  Ok (MkTagSet BSONObj_empty true BSONObj_empty i).

Definition TagSet_of (isOwned : bool) (tags : BSONObj) : result TagSet :=
  let* tags := getOwned isOwned tags in
  let* i := BSONArrayIteratorSorted tags in
  TagSet_next (MkTagSet BSONObj_empty false tags i).

(** The copy constructor; a set of tags owns its array. *)
Definition TagSet_copy (other : TagSet) : result TagSet :=
  let* tags := getOwned true (_tags other) in
  let* i := BSONArrayIteratorSorted tags in
  TagSet_next (MkTagSet BSONObj_empty false tags i).

Definition getCurrentTag (t : TagSet) : result BSONObj :=
  let* _ := verify (negb (_isExhausted t)) in Ok (_currentTag t).

Definition isExhausted (t : TagSet) : bool := _isExhausted t.

Definition TagSet_equals (t other : TagSet) : result bool := equal (_tags t) (_tags other).

Record ReadPreferenceSetting := MkSetting { pref : ReadPreference; tags : TagSet }.

Definition ReadPreferenceSetting_of (p : ReadPreference) (t : TagSet) : result ReadPreferenceSetting :=
  let* t := TagSet_copy t in Ok (MkSetting p t).

Definition setting_equals (s other : ReadPreferenceSetting) : result bool :=
  if bool_decide (pref s = pref other) then TagSet_equals (tags s) (tags other) else Ok false.

(** ** Reading the preference of a query *)

(** [BSON_ARRAY(BSONObj())]. *)
Definition one_empty_tag : result BSONObj :=
  let* a := BSONArrayBuilder_new 512 in
  let* a := arr_append (fun n => append_obj n BSONObj_empty) a in
  arr_obj a.

(** [uasserted(16383)] when the mode is no mode. *)
Definition mode_of (mode : list byte) : result ReadPreference :=
  if bytes_eqb mode (bstr "primary") then Ok PrimaryOnly
  else if bytes_eqb mode (bstr "primaryPreferred") then Ok PrimaryPreferred
  else if bytes_eqb mode (bstr "secondary") then Ok SecondaryOnly
  else if bytes_eqb mode (bstr "secondaryPreferred") then Ok SecondaryPreferred
  else if bytes_eqb mode (bstr "nearest") then Ok Nearest
  else Err (UserAssert 16383).

(** [element\[field\]]. *)
Definition sub_field (e : BSONElement) (field : list byte) : result BSONElement :=
  let* o := embeddedObjectUserCheck e in getField o field.

Definition default_setting (p : ReadPreference) : result ReadPreferenceSetting :=
  let* a := one_empty_tag in
  let* t := TagSet_of true a in
  ReadPreferenceSetting_of p t.

Definition _extractReadPref (query : BSONObj) : result ReadPreferenceSetting :=
  let* has := hasReadPreference query in
  if negb has then default_setting SecondaryPreferred
  else
    let* direct := hasField query ReadPrefField in
    let* readPrefElement :=
      if direct then getField query ReadPrefField
      else let* q := getField query (bstr "$queryOptions") in sub_field q ReadPrefField in
    let* b := isABSONObj readPrefElement in
    let* _ := uassert 16381 b in
    let* prefDoc := embeddedObjectUserCheck readPrefElement in
    let* b := hasField prefDoc ReadPrefModeField in
    let* _ := uassert 16382 b in
    let* modeElem := getField prefDoc ReadPrefModeField in
    let* mode := Elem_String modeElem in
    let* p := mode_of mode in
    let* hasTags := hasField prefDoc ReadPrefTagsField in
    if negb hasTags then default_setting p
    else
      let* tagsElem := getField prefDoc ReadPrefTagsField in
      let* t := type tagsElem in
      let* _ := uassert 16385 (bool_decide (t = Array)) in
      let* o := embeddedObjectUserCheck tagsElem in
      let* o := getOwned false o in
      let* ts := TagSet_of true o in
      let* _ :=
        if bool_decide (p = PrimaryOnly) && negb (isExhausted ts) then
          let* tag := getCurrentTag ts in
          let* z := isEmpty tag in
          uassert 16384 z
        else Ok tt in
      ReadPreferenceSetting_of p ts.
End tags.

(** ** Which queries may go to a secondary *)

Definition QueryOption_SlaveOk : Z := 2 ^ 2.

Definition _secOkCmdList : list (list byte) :=
  map bstr ["aggregate"; "collStats"; "count"; "distinct"; "dbStats"; "geoNear"; "geoSearch"; "geoWalk"; "group"]%string.

Definition _isQueryOkToSecondary (ns : list byte) (queryOptionFlags : Z) (queryObj : BSONObj) : result bool :=
  if negb (Z.land queryOptionFlags QueryOption_SlaveOk =? 0) then Ok true
  else
    let* has := hasReadPreference queryObj in
    if negb has then Ok false
    else
      match find_sub (bstr ".$cmd") ns with
      | None => Ok true
      | Some _ =>
          let* first := firstElement queryObj in
          let* name := field_name first in
          let* actualQueryObj :=
            if bytes_eqb name (bstr "query") then
              let* e := getField queryObj (bstr "query") in embeddedObject e
            else Ok queryObj in
          let* p := firstElementFieldName actualQueryObj in
          let* cmdName := cstr p in
          if existsb (bytes_eqb cmdName) _secOkCmdList then Ok true
          else if bytes_eqb cmdName (bstr "mapReduce") || bytes_eqb cmdName (bstr "mapreduce") then
            let* out := hasField actualQueryObj (bstr "out") in
            if negb out then Ok false
            else
              let* outElem := getField actualQueryObj (bstr "out") in
              let* b := isABSONObj outElem in
              if b then let* e := sub_field outElem (bstr "inline") in trueValue e else Ok false
          else Ok false
      end.

(** ** Accessors on documents *)

Definition has (d : doc) (name : list byte) : bool :=
  match find_field d name with Some _ => true | None => false end.

Lemma hasField_rep o d name : obj_rep o d -> hasField o name = Ok (has d name).
Proof.
  intros Ho. unfold hasField, has. destruct (getField_rep o d name Ho) as (e & -> & Hf). cbn [bind].
  rewrite (found_eoo _ _ _ Hf). by destruct (find_field d name).
Qed.

Definition container (r : option field) : option doc := f ← r; sub_doc (snd f).

Lemma isABSONObj_found m e r : found m e r ->
  isABSONObj e = Ok (match container r with Some _ => true | None => false end).
Proof.
  destruct r as [[n v]|]; cbn [found]; [|by intros ->]. intros [Hok _].
  unfold isABSONObj. rewrite (type_rep _ _ _ Hok). by destruct v.
Qed.

Lemma userCheck_found m e r d : found m e r -> container r = Some d ->
  exists o, embeddedObjectUserCheck e = Ok o /\ obj_rep o d /\ mem o = m.
Proof.
  intros Hf Hc. pose proof (isABSONObj_found _ _ _ Hf) as Hb. rewrite Hc in Hb.
  destruct r as [[n v]|]; [|done]. destruct Hf as [Hok Hm].
  destruct (embedded_rep _ _ _ d Hok Hc) as (o & H1 & H2 & H3 & H4).
  exists o. split; [|split; [done|congruence]].
  unfold embeddedObjectUserCheck. rewrite Hb, H4. cbn [bind]. by apply (BSONObj_init_rep _ d).
Qed.

Lemma until_nul_c_str s r : until_nul (s ++ x00 :: r) = Some (c_str s).
Proof.
  unfold c_str. induction s as [|b s IH]; [done|]. cbn [app until_nul].
  destruct (Byte.eqb b x00); [done|]. rewrite IH. cbn. by destruct (until_nul s).
Qed.

Lemma Elem_String_rep e n s : elem_ok e n (VString s) -> Elem_String e = Ok (c_str s).
Proof.
  intros Hok. unfold Elem_String, chk. rewrite (type_rep _ _ _ Hok). cbn [bind].
  rewrite bool_decide_true by done. cbn [bind]. rewrite (valuestr_rep _ _ _ Hok). cbn [bind].
  destruct (valuestr_points _ _ _ Hok s eq_refl) as [r Hp]. unfold cstr.
  apply points_rest in Hp as [post ->]. cbn [bind]. rewrite <- app_assoc, <- app_comm_cons.
  by rewrite until_nul_c_str.
Qed.

(** ** Builders run *)

Lemma wf_doc_app a b : wf_doc (a ++ b) = true -> wf_doc a = true /\ wf_doc b = true.
Proof.
  unfold wf_doc. intros [Hf Hl]%andb_prop. rewrite forallb_app in Hf. apply andb_prop in Hf as [Ha Hb].
  rewrite zlen_enc_doc, enc_elems_app, zlen_app in Hl. rewrite !zlen_enc_doc.
  pose proof (zlen_nonneg (enc_elems a)). pose proof (zlen_nonneg (enc_elems b)).
  rewrite Ha, Hb. cbn [andb]. lia.
Qed.

Lemma does_then m k fs gs : does m fs -> does k gs -> does (fun b => let* b' := m b in k b') (fs ++ gs).
Proof.
  intros Hm Hk b pre d Hb Hf. unfold fits in *. rewrite enc_elems_app, zlen_app in Hf.
  pose proof (zlen_nonneg (enc_elems gs)).
  destruct (Hm b pre d Hb) as (b1 & -> & Hb1 & Ho1); [unfold fits; lia|]. cbn [bind].
  destruct (Hk b1 pre (d ++ fs) Hb1) as (b2 & -> & Hb2 & Ho2).
  { unfold fits. rewrite (b_rep_len _ _ _ Hb1), enc_elems_app, zlen_app.
    rewrite (b_rep_len _ _ _ Hb) in Hf. lia. }
  exists b2. rewrite app_assoc. split; [done|]. split; [done|]. congruence.
Qed.

(** A new builder, what is done to it, and its object. *)
Lemma run_builder m fs : does m fs -> wf_doc fs = true ->
  exists b b', BSONObjBuilder_new 512 = Ok b /\ m b = Ok b' /\
    (exists o, obj b' = Ok o /\ obj_rep o fs) /\ (exists o b2, done b' = Ok (o, b2) /\ obj_rep o fs).
Proof.
  intros Hm Hw. destruct (new_rep 512 ltac:(by vm_compute)) as (b & Hn & Hb & Ho & Hl).
  pose proof (wf_doc_size _ Hw) as Hs. rewrite zlen_enc_doc, obj_max_val in Hs.
  destruct (Hm b (le32 0) [] Hb) as (b' & Hb' & Hr & Ho').
  { unfold fits. rewrite Hl. change BufferMaxSize with 67108864. lia. }
  assert (fits (_b b') 1) as Hf.
  { unfold fits. rewrite (b_rep_len _ _ _ Hr), zlen_le_bytes. cbn [app]. change BufferMaxSize with 67108864. lia. }
  exists b, b'. split; [done|]. split; [done|]. split.
  - eapply obj_done; [exact Hr|done|done|congruence].
  - destruct (_done_rep b' _ _ Hr Hf) as (b2 & Hd & Eb & Eo & _). pose proof (obj_at (le32 0) fs Hw) as Hat.
    cbn [app] in Eb. unfold done. rewrite Hd. cbn [bind]. unfold objdata. rewrite Eb, Eo.
    rewrite (BSONObj_init_rep _ fs Hat). cbn [bind]. by eexists _, b2.
Qed.

Lemma appendElements_rep x d : obj_rep x d -> does (appendElements x) d.
Proof.
  intros Hx b pre d0 Hb Hf. unfold appendElements.
  edestruct (for_elements_eoo_inv (R := BSONObjBuilder)
    (fun b e => let* b' := append_elem e b in Ok (Continue b'))
    (fun seen b' => b_rep b' pre (d0 ++ seen) /\ owned b' = owned b) d x b Hx) as (b' & -> & Hb' & Ho').
  - intros seen n v post b1 e Hall [Hb1 Ho1] Hok _.
    destruct (append_elem_rep e n v Hok b1 _ _ Hb1) as (b2 & -> & Hb2 & Ho2).
    { unfold fits in *. rewrite (b_rep_len _ _ _ Hb1), enc_elems_app, zlen_app.
      rewrite (b_rep_len _ _ _ Hb), Hall, enc_elems_app, zlen_app, zlen_enc_elems_cons in Hf.
      pose proof (zlen_nonneg (enc_elems post)). lia. }
    cbn [bind]. exists b2. split; [done|]. rewrite app_assoc. split; [done|]. congruence.
  - by rewrite app_nil_r.
  - cbn [finish]. by exists b'.
Qed.

(** ** What the methods of a query do *)

Definition query_doc (d : doc) : doc :=
  if has d (bstr "query") || has d (bstr "$query") then d else [(bstr "query", VObject d)].

Lemma isComplex_rep o d : obj_rep o d ->
  isComplex o = Ok (if has d (bstr "query") then Some false else if has d (bstr "$query") then Some true else None).
Proof.
  intros Ho. unfold isComplex. rewrite !(hasField_rep o d) by done. cbn [bind].
  destruct (has d (bstr "query")); [done|]. by destruct (has d (bstr "$query")).
Qed.

Lemma makeComplex_rep o d : obj_rep o d -> wf_doc (query_doc d) = true ->
  exists o', makeComplex o = Ok o' /\ obj_rep o' (query_doc d).
Proof.
  intros Ho Hw. unfold makeComplex. rewrite (isComplex_rep o d Ho). cbn [bind]. unfold query_doc in *.
  destruct (has d (bstr "query")); [by exists o|]. destruct (has d (bstr "$query")); [by exists o|]. cbn [orb] in *.
  destruct (run_builder (append_obj (bstr "query") o) [(bstr "query", VObject d)])
    as (b & b' & -> & H & (o' & Hobj & Ho') & _); [by apply does_append, append_obj_rep|done|].
  cbn [bind]. rewrite H. cbn [bind]. by exists o'.
Qed.

Lemma appendComplex_rep app fs o d : obj_rep o d -> does app fs -> wf_doc (query_doc d ++ fs) = true ->
  exists o', appendComplex app o = Ok o' /\ obj_rep o' (query_doc d ++ fs).
Proof.
  intros Ho Ha Hw. unfold appendComplex.
  destruct (makeComplex_rep o d Ho) as (q & -> & Hq); [by apply wf_doc_app in Hw as [? _]|]. cbn [bind].
  destruct (run_builder _ _ (does_then _ _ _ _ (appendElements_rep q _ Hq) Ha) Hw)
    as (b & b' & -> & H & (o' & Hobj & Ho') & _).
  cbn [bind] in *. rewrite <- (bind_assoc _ (fun b => app b) (fun b => obj b)), H. cbn [bind]. by exists o'.
Qed.

(** ** Tag sets *)

Section tag_specs.
Context {sort_ : StdSort}.

(** The tags still to come. *)
Definition iter_tags (i : BSONIteratorSorted) (ds : list doc) : Prop :=
  Forall2 (fun p t => exists n v, elem_ok (snd p) n v /\ sub_doc v = Some t) (drop (_cur i) (_fields i)) ds.

(** The current tag is the first of [ds], and when there is none the set is
    exhausted. *)
Definition tags_rep (t : TagSet) (ds : list doc) : Prop :=
  match ds with
  | [] => _isExhausted t = true
  | d :: ds' => _isExhausted t = false /\ obj_rep (_currentTag t) d /\ iter_tags (_tagIterator t) ds'
  end.

Lemma drop_cons {A} (l : list A) n x r : drop n l = x :: r -> l !! n = Some x /\ drop (S n) l = r.
Proof.
  revert l. induction n as [|n IH]; intros [|y l]; cbn [drop lookup list_lookup]; try done.
  - rewrite drop_0. by intros [= -> ->].
  - apply IH.
Qed.

Lemma TagSet_next_rep ex cur tg i ds : iter_tags i ds -> (ex = false \/ ds = []) ->
  exists t, TagSet_next (MkTagSet cur ex tg i) = Ok t /\ tags_rep t ds /\ _tags t = tg.
Proof.
  intros Hi Hex. unfold TagSet_next, sorted_more, sorted_next. cbn [_tagIterator _currentTag _isExhausted _tags].
  unfold iter_tags in Hi. destruct (drop (_cur i) (_fields i)) as [|[k e] r] eqn:Ed.
  - inversion Hi; subst. apply (f_equal length) in Ed. rewrite length_drop in Ed. cbn in Ed.
    destruct (Nat.ltb_spec (_cur i) (length (_fields i))); [lia|]. by eexists.
  - apply Forall2_cons_inv_l in Hi as (d & ds' & (n & v & Hok & Hv) & Hr & ->).
    destruct Hex as [-> | ?]; [|done]. apply drop_cons in Ed as [Hl Hd]. rewrite Hl.
    apply lookup_lt_Some in Hl. destruct (Nat.ltb_spec (_cur i) (length (_fields i))); [|lia].
    assert (found (mem (data e)) e (Some (n, v))) as Hf by done. cbn [snd] in Hf.
    rewrite (isABSONObj_found _ _ _ Hf). unfold container. cbn [mbind option_bind snd]. rewrite Hv. cbn [uassert bind].
    destruct (userCheck_found _ _ _ d Hf Hv) as (o & -> & Ho & _). cbn [bind].
    eexists. split; [reflexivity|]. split; [|done]. split; [done|]. split; [done|].
    unfold iter_tags. cbn [_tagIterator _cur _fields]. by rewrite Hd.
Qed.

Lemma next_tag_rep t d ds : tags_rep t (d :: ds) ->
  exists t', TagSet_next t = Ok t' /\ tags_rep t' ds /\ _tags t' = _tags t.
Proof.
  intros (He & _ & Hi). destruct t as [c ex tg i]. cbn in *. apply TagSet_next_rep; [done|by left].
Qed.

(** An array of objects. *)
Definition tag_array (dt : doc) (ds : list doc) : Prop :=
  indexed 0 dt = true /\ Forall2 (fun (f : field) d => sub_doc (snd f) = Some d) dt ds.

Lemma TagSet_over_rep o dt ds : obj_rep o dt -> tag_array dt ds ->
  exists t, (let* i := BSONArrayIteratorSorted o in TagSet_next (MkTagSet BSONObj_empty false o i)) = Ok t /\
    tags_rep t ds /\ _tags t = o.
Proof.
  intros Ho [Hd Hds]. destruct (sorted_rep true o dt Ho) as (i & d' & Hi & Hp & Hs & He).
  rewrite (sorted_array_order dt d' Hp Hs Hd) in He. unfold BSONArrayIteratorSorted. rewrite Hi. cbn [bind].
  apply TagSet_next_rep; [|by left]. unfold iter_tags.
  assert (exists fs, i = MkSorted fs 0) as [fs ->].
  { unfold BSONIteratorSorted_of in Hi. apply bind_ok_inv in Hi as (n & _ & Hi).
    apply bind_ok_inv in Hi as (fs & _ & Hi). apply bind_ok_inv in Hi as (u & _ & Hi).
    injection Hi as <-. by eexists. }
  rewrite sorted_elements_all in He. cbn [_cur _fields]. rewrite drop_0. unfold elems_of in He.
  clear -He Hds. revert dt ds He Hds. induction fs as [|[k e] fs IH]; intros dt ds He Hds; cbn [map] in He.
  - inversion He; subst. inversion Hds; subst. constructor.
  - inversion He as [|? [n v] ? dt' [Hok _] Hr]; subst. inversion Hds as [|? d ? ds' Hv Hr']; subst.
    constructor; [by exists n, v|]. by eapply IH.
Qed.

Lemma TagSet_copy_rep t dt ds : obj_rep (_tags t) dt -> tag_array dt ds ->
  exists t', TagSet_copy t = Ok t' /\ tags_rep t' ds /\ _tags t' = _tags t.
Proof. intros Ho Hd. by apply (TagSet_over_rep (_tags t) dt). Qed.

Lemma TagSet_of_rep owned o dt ds : obj_rep o dt -> tag_array dt ds ->
  exists t, TagSet_of owned o = Ok t /\ tags_rep t ds /\ obj_rep (_tags t) dt.
Proof.
  intros Ho Hd. unfold TagSet_of, getOwned.
  assert (exists o', (if owned then Ok o else copy o) = Ok o' /\ obj_rep o' dt) as (o' & -> & Ho').
  { destruct owned; [by exists o|]. rewrite (copy_rep o dt Ho). eexists. split; [done|].
    destruct Ho. by apply obj_of_rep. }
  cbn [bind]. destruct (TagSet_over_rep o' dt ds Ho' Hd) as (t & -> & Ht & <-). by exists t.
Qed.

Lemma one_empty_tag_rep : exists a, one_empty_tag = Ok a /\ obj_rep a [(bstr "0", VObject [])].
Proof.
  eexists. split; [vm_compute; reflexivity|].
  exact (obj_at (le32 0) [(bstr "0", VObject [])] eq_refl).
Qed.

Lemma default_setting_rep p : exists s, default_setting p = Ok s /\ pref s = p /\ tags_rep (tags s) [[]].
Proof.
  unfold default_setting. destruct one_empty_tag_rep as (a & -> & Ha). cbn [bind].
  assert (tag_array [(bstr "0", VObject [])] [[]]) as Ht by (split; [done|by repeat constructor]).
  destruct (TagSet_of_rep true a _ _ Ha Ht) as (t & -> & _ & Hrep). cbn [bind]. unfold ReadPreferenceSetting_of.
  destruct (TagSet_copy_rep t _ _ Hrep Ht) as (t' & -> & Ht' & _). by eexists.
Qed.

(** ** What is read out of a query *)

Definition has_pref (d : doc) : bool :=
  ((has d (bstr "query") || has d (bstr "$query")) && has d ReadPrefField)
  || match container (find_field d (bstr "$queryOptions")) with Some d' => has d' ReadPrefField | None => false end.

Definition pref_field (d : doc) : option field :=
  if has d ReadPrefField then find_field d ReadPrefField
  else d' ← container (find_field d (bstr "$queryOptions")); find_field d' ReadPrefField.

Definition tag_docs (dt : doc) : list doc := omap (fun f : field => sub_doc (snd f)) dt.

Definition first_is_empty (ds : list doc) : bool := match ds with (_ :: _) :: _ => false | _ => true end.

Definition extracted (d : doc) : result (ReadPreference * list doc) :=
  if negb (has_pref d) then Ok (SecondaryPreferred, [[]])
  else
    match container (pref_field d) with
    | None => Err (UserAssert 16381)
    | Some pd =>
        match find_field pd ReadPrefModeField with
        | None => Err (UserAssert 16382)
        | Some (_, VString s) =>
            let* p := mode_of (c_str s) in
            match find_field pd ReadPrefTagsField with
            | None => Ok (p, [[]])
            | Some (_, VArray dt) =>
                if bool_decide (p = PrimaryOnly) && negb (first_is_empty (tag_docs dt)) then Err (UserAssert 16384)
                else Ok (p, tag_docs dt)
            | Some _ => Err (UserAssert 16385)
            end
        | Some _ => Err (MsgAssert 13111)
        end
    end.

(** Every array of tags in the preference is one of objects. *)
Definition tags_ok (d : doc) : Prop := forall pd n dt,
  container (pref_field d) = Some pd -> find_field pd ReadPrefTagsField = Some (n, VArray dt) ->
  tag_array dt (tag_docs dt).

Lemma hasReadPreference_rep o d : obj_rep o d -> hasReadPreference o = Ok (has_pref d).
Proof.
  intros Ho. unfold hasReadPreference, has_pref. destruct (getField_rep o d (bstr "$queryOptions") Ho) as (e & -> & Hf).
  cbn [bind]. rewrite (isABSONObj_found _ _ _ Hf). cbn [bind]. rewrite (isComplex_rep o d Ho).
  assert (forall b, (let* direct := if has d (bstr "query") || has d (bstr "$query") then Ok (has d ReadPrefField)
    else Ok false in Ok (direct || b))
    = Ok ((has d (bstr "query") || has d (bstr "$query")) && has d ReadPrefField || b)) as Hdirect
    by (intros b; by destruct (_ || _)).
  destruct (container _) as [d'|] eqn:Ec.
  - destruct (userCheck_found _ _ _ d' Hf Ec) as (q & -> & Hq & _). cbn [bind].
    rewrite (hasField_rep q d' _ Hq), <- Hdirect. cbn [bind]. rewrite (hasField_rep o d _ Ho).
    by destruct (has d (bstr "query")), (has d (bstr "$query")).
  - rewrite <- Hdirect. cbn [bind]. rewrite (hasField_rep o d _ Ho).
    by destruct (has d (bstr "query")), (has d (bstr "$query")).
Qed.

Lemma pref_element_rep o d : obj_rep o d -> has_pref d = true -> exists e m,
  (if has d ReadPrefField then getField o ReadPrefField
   else let* q := getField o (bstr "$queryOptions") in sub_field q ReadPrefField) = Ok e /\
  found m e (pref_field d).
Proof.
  intros Ho Hp. unfold pref_field, has_pref in *. destruct (has d ReadPrefField) eqn:Eh.
  - destruct (getField_rep o d ReadPrefField Ho) as (e & -> & Hf). by eexists _, _.
  - rewrite andb_false_r in Hp. destruct (getField_rep o d (bstr "$queryOptions") Ho) as (q & -> & Hf).
    destruct (container (find_field d (bstr "$queryOptions"))) as [d'|] eqn:Ec; [|done]. cbn [bind mbind option_bind].
    unfold sub_field. destruct (userCheck_found _ _ _ d' Hf Ec) as (q' & -> & Hq & _). cbn [bind].
    destruct (getField_rep q' d' ReadPrefField Hq) as (e & -> & He). by eexists _, _.
Qed.

Lemma setting_rep p t dt ds : tags_rep t ds -> obj_rep (_tags t) dt -> tag_array dt ds ->
  exists s, ReadPreferenceSetting_of p t = Ok s /\ pref s = p /\ tags_rep (tags s) ds.
Proof.
  intros _ Ho Hd. unfold ReadPreferenceSetting_of. destruct (TagSet_copy_rep t dt ds Ho Hd) as (t' & -> & Ht & _).
  by eexists.
Qed.

(** What the end of the function does with the tags of the preference. *)
Lemma extract_tags p e n dt : elem_ok e n (VArray dt) -> tag_array dt (tag_docs dt) ->
  let r := (let* t := type e in
    let* _ := uassert 16385 (bool_decide (t = Array)) in
    let* o := embeddedObjectUserCheck e in
    let* o := getOwned false o in
    let* ts := TagSet_of true o in
    let* _ :=
      if bool_decide (p = PrimaryOnly) && negb (isExhausted ts) then
        let* tag := getCurrentTag ts in
        let* z := isEmpty tag in
        uassert 16384 z
      else Ok tt in
    ReadPreferenceSetting_of p ts) in
  if bool_decide (p = PrimaryOnly) && negb (first_is_empty (tag_docs dt)) then r = Err (UserAssert 16384)
  else exists s, r = Ok s /\ pref s = p /\ tags_rep (tags s) (tag_docs dt).
Proof.
  intros Hok Hd. cbn zeta. rewrite (type_rep _ _ _ Hok). cbn [bind vtype]. rewrite (bool_decide_true (Array = Array)) by done.
  cbn [uassert bind]. destruct (userCheck_found (mem (data e)) e (Some (n, VArray dt)) dt) as (o & -> & Ho & _); [done|done|].
  cbn [bind getOwned]. rewrite (copy_rep o dt Ho). cbn [bind].
  assert (obj_rep (Ptr (enc_doc dt) 0) dt) as Ho' by (destruct Ho; by apply obj_of_rep).
  destruct (TagSet_of_rep true _ dt _ Ho' Hd) as (t & -> & Ht & Hrep). cbn [bind].
  destruct (setting_rep p t dt _ Ht Hrep Hd) as (s & Hs & Hps & Hts).
  unfold isExhausted, getCurrentTag. destruct (bool_decide (p = PrimaryOnly)); cbn [andb].
  - destruct (tag_docs dt) as [|d1 ds]; cbn [tags_rep first_is_empty] in *.
    + rewrite Ht. cbn [negb bind]. by exists s.
    + destruct Ht as (-> & Hc & _). cbn [negb verify bind]. rewrite (isEmpty_rep _ _ Hc). cbn [bind].
      destruct d1; cbn; [|done]. by exists s.
  - cbn [bind]. by exists s.
Qed.

Lemma _extractReadPref_rep o d : obj_rep o d -> tags_ok d ->
  match extracted d with
  | Ok (p, ds) => exists s, _extractReadPref o = Ok s /\ pref s = p /\ tags_rep (tags s) ds
  | Err x => _extractReadPref o = Err x
  end.
Proof.
  intros Ho Htags. unfold _extractReadPref, extracted. rewrite (hasReadPreference_rep o d Ho). cbn [bind].
  destruct (has_pref d) eqn:Ep; cbn [negb]; [|apply default_setting_rep].
  rewrite (hasField_rep o d _ Ho). cbn [bind].
  destruct (pref_element_rep o d Ho Ep) as (e & m & -> & Hf). cbn [bind].
  rewrite (isABSONObj_found _ _ _ Hf). cbn [bind]. unfold tags_ok in Htags.
  destruct (container (pref_field d)) as [pd|] eqn:Ec; cbn [uassert bind]; [|done].
  destruct (userCheck_found _ _ _ pd Hf Ec) as (po & -> & Hpo & _). cbn [bind].
  rewrite (hasField_rep po pd _ Hpo). cbn [bind]. unfold has.
  destruct (getField_rep po pd ReadPrefModeField Hpo) as (me & -> & Hm).
  destruct (find_field pd ReadPrefModeField) as [[k v]|]; cbn [uassert bind found] in *; [|done].
  destruct Hm as [Hmok _].
  assert (match v with VString _ => True | _ => Elem_String me = Err (MsgAssert 13111) end) as Hbad.
  { destruct v; try done; unfold Elem_String, chk; rewrite (type_rep _ _ _ Hmok); done. }
  destruct v; try (by rewrite Hbad). rewrite (Elem_String_rep _ _ _ Hmok). cbn [bind].
  destruct (mode_of (c_str s)) as [p|]; cbn [bind]; [|done].
  rewrite (hasField_rep po pd _ Hpo). cbn [bind]. unfold has.
  destruct (getField_rep po pd ReadPrefTagsField Hpo) as (te & -> & Ht).
  destruct (find_field pd ReadPrefTagsField) as [[k' w]|] eqn:Et; cbn [negb bind found] in *; [|apply default_setting_rep].
  destruct Ht as [Htok _].
  assert (match w with VArray _ => True | _ => bool_decide (vtype w = Array) = false end) as Hw by (by destruct w).
  destruct w as [ | | | | | | | |dw|dw| | | | | | | | | | ];
    try (rewrite (type_rep _ _ _ Htok); cbn [bind]; by rewrite Hw).
  pose proof (extract_tags p te k' dw Htok (Htags pd k' dw eq_refl Et)) as H. cbn zeta in H.
  by destruct (bool_decide (p = PrimaryOnly) && negb (first_is_empty (tag_docs dw))).
Qed.

(** ** The preference of a query is what was set *)

Definition pref_doc (p : ReadPreference) (dt : doc) : doc :=
  (ReadPrefModeField, VString (mode_name p)) ::
  (if bool_decide (dt = []) then [] else [(ReadPrefTagsField, VArray dt)]).

Lemma find_field_last d n v : has d n = false -> find_field (d ++ [(n, v)]) n = Some (n, v).
Proof.
  unfold has, find_field. induction d as [|f d IH]; cbn.
  - intros _. unfold bytes_eqb. by rewrite bool_decide_true.
  - by destruct (bytes_eqb n (fst f)).
Qed.

Lemma has_app a b n : has (a ++ b) n = has a n || has b n.
Proof.
  unfold has, find_field. induction a as [|f a IH]; [done|]. cbn. by destruct (bytes_eqb n (fst f)).
Qed.

Lemma query_doc_complex d b : has (query_doc d ++ b) (bstr "query") || has (query_doc d ++ b) (bstr "$query") = true.
Proof.
  rewrite !has_app. unfold query_doc.
  destruct (has d (bstr "query")) eqn:E1; cbn [orb]; [by rewrite E1|].
  destruct (has d (bstr "$query")) eqn:E2; [|done]. rewrite E2. cbn [orb]. by rewrite orb_true_r.
Qed.

Lemma readPref_doc p dt d o otags : obj_rep o d -> obj_rep otags dt ->
  wf_doc (query_doc d ++ [(ReadPrefField, VObject (pref_doc p dt))]) = true ->
  exists q, readPref p otags o = Ok q /\ obj_rep q (query_doc d ++ [(ReadPrefField, VObject (pref_doc p dt))]).
Proof.
  intros Ho Ht Hw. unfold readPref.
  assert (wf_doc (pref_doc p dt) = true) as Hwp.
  { apply wf_doc_app in Hw as [_ Hw%wf_doc_cons]. by destruct Hw as [[_ Hw]%wf_field_parts _]. }
  destruct (run_builder (fun b => let* b := append_string ReadPrefModeField (mode_name p) b in
      let* z := isEmpty otags in if negb z then appendArray ReadPrefTagsField otags b else Ok b) (pref_doc p dt))
    as (b & b' & -> & H & _ & (po & b2 & Hdone & Hpo)); [|done|].
  { apply (does_then _ _ [_]); [apply does_append, append_string_rep|]. rewrite (isEmpty_rep otags dt Ht). cbn [bind].
    destruct (bool_decide (dt = [])); cbn [negb]; [apply does_nothing|by apply does_append, appendArray_rep]. }
  cbn [bind]. destruct (append_string ReadPrefModeField (mode_name p) b) as [b1|]; cbn [bind] in *; [|done].
  destruct (isEmpty otags) as [z|]; cbn [bind] in *; [|done]. rewrite H. cbn [bind]. rewrite Hdone. cbn [bind].
  by apply appendComplex_rep; [|apply does_append, append_obj_rep|].
Qed.

Lemma mode_of_name p : mode_of (c_str (mode_name p)) = Ok p.
Proof. by destruct p. Qed.

Lemma extracted_pref p dt d : has (query_doc d) ReadPrefField = false ->
  let q := query_doc d ++ [(ReadPrefField, VObject (pref_doc p dt))] in
  container (pref_field q) = Some (pref_doc p dt) /\
  extracted q =
    if bool_decide (p = PrimaryOnly) && negb (first_is_empty (tag_docs dt)) then Err (UserAssert 16384)
    else Ok (p, if bool_decide (dt = []) then [[]] else tag_docs dt).
Proof.
  intros Hn q. assert (has q ReadPrefField = true) as Hq by (unfold q; rewrite has_app; apply orb_true_r).
  assert (container (pref_field q) = Some (pref_doc p dt)) as Hc.
  { unfold pref_field. rewrite Hq. unfold q. by rewrite find_field_last. }
  split; [done|]. unfold extracted. rewrite Hc. unfold has_pref. rewrite Hq. unfold q at 1 2. rewrite query_doc_complex.
  cbn [andb orb negb].
  change (find_field (pref_doc p dt) ReadPrefModeField) with (Some (ReadPrefModeField, VString (mode_name p))).
  cbv beta iota. rewrite mode_of_name. cbn [bind]. unfold pref_doc. case_bool_decide as Edt.
  - change (find_field [(ReadPrefModeField, VString (mode_name p))] ReadPrefTagsField) with (@None field).
    rewrite Edt. cbn. by rewrite andb_false_r.
  - change (find_field [(ReadPrefModeField, VString (mode_name p)); (ReadPrefTagsField, VArray dt)] ReadPrefTagsField)
      with (Some (ReadPrefTagsField, VArray dt)).
    done.
Qed.

Lemma tag_array_docs dt ds : tag_array dt ds -> tag_docs dt = ds /\ (bool_decide (dt = []) = true <-> ds = []).
Proof.
  intros [_ Hd]. split.
  - unfold tag_docs. induction Hd as [|f d dt ds Hf _ IH]; [done|]. cbn [omap list_omap]. by rewrite Hf, IH.
  - rewrite bool_decide_eq_true. destruct Hd; done.
Qed.
End tag_specs.

(** The criteria of a query. *)
Definition criteria (d : doc) : doc :=
  if has d (bstr "query") then object_field d (bstr "query")
  else if has d (bstr "$query") then object_field d (bstr "$query") else d.

Lemma find_field_app a b n : find_field (a ++ b) n =
  match find_field a n with Some f => Some f | None => find_field b n end.
Proof.
  unfold find_field. induction a as [|f a IH]; [done|]. cbn. by destruct (bytes_eqb n (fst f)).
Qed.

Lemma getFilter_rep o d : obj_rep o d -> exists f, getFilter o = Ok f /\ obj_rep f (criteria d).
Proof.
  intros Ho. unfold getFilter, criteria. rewrite (isComplex_rep o d Ho). cbn [bind].
  destruct (has d (bstr "query")).
  - destruct (getObjectField_rep o d (bstr "query") Ho) as (f & Hf & Hr & _). by exists f.
  - destruct (has d (bstr "$query")); [|by exists o].
    destruct (getObjectField_rep o d (bstr "$query") Ho) as (f & Hf & Hr & _). by exists f.
Qed.

Lemma criteria_query_doc d n v : n <> bstr "query" -> n <> bstr "$query" ->
  criteria (query_doc d ++ [(n, v)]) = criteria d.
Proof.
  intros Hn1 Hn2.
  assert (forall m, n <> m -> find_field [(n, v)] m = None) as Hone.
  { intros m Hm. unfold find_field. cbn. unfold bytes_eqb. by rewrite bool_decide_false. }
  assert (forall e m, n <> m -> has (e ++ [(n, v)]) m = has e m) as Hhas.
  { intros e m Hm. rewrite has_app. unfold has at 2. rewrite Hone by done. apply orb_false_r. }
  assert (forall e m, n <> m -> object_field (e ++ [(n, v)]) m = object_field e m) as Hof.
  { intros e m Hm. unfold object_field. rewrite find_field_app, Hone by done. by destruct (find_field e m). }
  unfold criteria. rewrite !Hhas, !Hof by done. unfold query_doc.
  destruct (has d (bstr "query")) eqn:E1; cbn [orb]; [by rewrite E1|].
  destruct (has d (bstr "$query")) eqn:E2; [by rewrite E1, E2|]. done.
Qed.



(** ** A command that is wrapped in "$query"

    [isComplex] and [getFilter] take "query" and "$query"; what may go to a
    secondary only "query": the command named "$query" is not in the list. *)
Definition count_command (wrapper : list byte) : BSONObj :=
  obj_of [(wrapper, VObject [(bstr "count", VString (bstr "c"))]);
          (ReadPrefField, VObject [(ReadPrefModeField, VString (bstr "secondary"))])].

Example dollar_query :
  _isQueryOkToSecondary (bstr "db.$cmd") 0 (count_command (bstr "query")) = Ok true /\
  _isQueryOkToSecondary (bstr "db.$cmd") 0 (count_command (bstr "$query")) = Ok false.
Proof. split; vm_compute; reflexivity. Qed.
