(* ===== verification/NodeSelect.v ===== *)
(** * NodeSelect: choosing the member of a replica set to read from
    (ReplicaSetMonitor::Node and selectNode of client/dbclient_rs.h and
    client/dbclient_rs.cpp)

    The members are a list; the choice goes round it from the member after the
    one chosen last, takes the first that is eligible and near, and failing
    that the last that is eligible.  The theorems give the choice in these
    terms, for one tag and for the preferences, and that the members are taken
    in turn. *)

From stdpp Require Import base list numbers strings option tactics.
From Stdlib Require Import Strings.Byte ZArith Lia.
From S2P Require Import Prelude Memory Decimal HostPort BsonTypes Format Element Obj Access Compare Order Builder JsObj JsObjSpec ObjFields ReadPref.

(** ** Node *)

(** Of a connection, the address it was made for. *)
Record Node := MkNode {
  addr : HostAndPort;
  conn : option (list byte);
  ok : bool;
  lastIsMaster : BSONObj;
  ismaster : bool;
  secondary : bool;
  hidden : bool;
  pingTimeMillis : Z
}.

Definition Node_new (a : HostAndPort) (c : option (list byte)) : Node :=
  MkNode a c (match c with Some _ => true | None => false end) BSONObj_empty false false false 0.

Definition okForSecondaryQueries (n : Node) : bool := ok n && secondary n && negb (hidden n).

Definition isLocalSecondary (threshold : Z) (n : Node) : bool := pingTimeMillis n <? threshold.

Definition matchesTag (n : Node) (tag : BSONObj) : result bool :=
  let* z := isEmpty tag in
  if z then Ok true
  else
    let* myTagElem := getField (lastIsMaster n) (bstr "tags") in
    let* b := isABSONObj myTagElem in
    if negb b then Ok false
    else
      let* myTagObj := embeddedObjectUserCheck myTagElem in
      finish (fun _ => Ok true) (for_elements tag tt (fun _ tagCriteria =>
        let* field := field_name tagCriteria in
        let* h := hasField myTagObj field in
        if negb h then Ok (Return false)
        else
          let* mine := getField myTagObj field in
          let* same := valuesEqual tagCriteria mine in
          Ok (if same then Continue tt else Return false))).

Definition isCompatible (n : Node) (p : ReadPreference) (ts : TagSet) : result bool :=
  if negb (ok n) then Ok false
  else if (bool_decide (p = SecondaryOnly) || bool_decide (p = SecondaryPreferred)) && negb (okForSecondaryQueries n)
  then Ok false
  else if (bool_decide (p = PrimaryOnly) || bool_decide (p = PrimaryPreferred)) && secondary n then Ok false
  else
    let* i := BSONObjIterator_of (_tags ts) in
    if negb (more i) then Ok true
    else
      finish (fun _ => Ok false) (for_elements (_tags ts) tt (fun _ nextTag =>
        let* b := isABSONObj nextTag in
        let* _ := uassert 16358 b in
        let* tag := embeddedObjectUserCheck nextTag in
        let* m := matchesTag n tag in
        Ok (if m then Return true else Continue tt))).

Definition append_tags (n : Node) (b : BSONObjBuilder) : result BSONObjBuilder :=
  let* tagElem := getField (lastIsMaster n) (bstr "tags") in
  let* z := eoo tagElem in
  let* s := isABSONObj tagElem in
  if negb z && s then let* t := embeddedObjectUserCheck tagElem in append_obj (bstr "tags") t b else Ok b.

Definition Node_toBSON (n : Node) : result BSONObj :=
  let* b := BSONObjBuilder_new 512 in
  let* b := append_string (bstr "addr") (host_toString true (addr n)) b in
  let* b := append_bool (bstr "isMaster") (ismaster n) b in
  let* b := append_bool (bstr "secondary") (secondary n) b in
  let* b := append_bool (bstr "hidden") (hidden n) b in
  let* b := append_tags n b in
  let* b := append_bool (bstr "ok") (ok n) b in
  obj b.

(** ** Selecting with one tag *)

(** What the function returns and leaves in [*lastHost] and
    [*isPrimarySelected]. *)
Record Selection := MkSelection {
  selected_host : HostAndPort;
  lastHost : HostAndPort;
  isPrimarySelected : bool
}.

(** [nodes[i]]: an index outside has an error of its own. *)
Definition nth_node (nodes : list Node) (i : nat) : result Node :=
  match nodes !! i with Some n => Ok n | None => Err IndexOutside end.

(** The first member from [x] on with this address. *)
Fixpoint index_of (h : HostAndPort) (nodes : list Node) (x : nat) : option nat :=
  match nodes with
  | [] => None
  | n :: nodes' => if host_eq h (addr n) then Some x else index_of h nodes' (S x)
  end.

(** [k] turns are left of the loop over [itNode]. *)
Fixpoint _selectNode_loop (k : nat) (nodes : list Node) (readPreferenceTag : BSONObj) (secOnly : bool)
    (localThresholdMillis : Z) (nextNodeIndex : nat) (s : Selection) : result Selection :=
  match k with
  | O => Ok (if negb (host_empty (selected_host s))
             then MkSelection (selected_host s) (selected_host s) (isPrimarySelected s) else s)
  | S k' =>
      let i := (S nextNodeIndex mod length nodes)%nat in
      let* node := nth_node nodes i in
      let go := _selectNode_loop k' nodes readPreferenceTag secOnly localThresholdMillis i in
      if negb (ok node) then go s
      else if secOnly && negb (okForSecondaryQueries node) then go s
      else
        let* m := matchesTag node readPreferenceTag in
        if m then
          let s := MkSelection (addr node) (lastHost s) (ismaster node) in
          if isLocalSecondary localThresholdMillis node
          then Ok (MkSelection (addr node) (addr node) (ismaster node))
          else go s
        else go s
  end.

Definition _selectNode (nodes : list Node) (readPreferenceTag : BSONObj) (secOnly : bool)
    (localThresholdMillis : Z) (last_ : HostAndPort) (primary : bool) : result Selection :=
  let nextNodeIndex := if negb (host_empty last_) then default 0%nat (index_of last_ nodes 0) else 0%nat in
  _selectNode_loop (length nodes) nodes readPreferenceTag secOnly localThresholdMillis nextNodeIndex
    (MkSelection HostAndPort_empty last_ primary).

(** ** Selecting with a preference *)

(** [while (!tags->isExhausted())]: each turn that selects nothing goes to the
    next tag. *)
Fixpoint select_tags (fuel : nat) (nodes : list Node) (secOnly : bool) (localThresholdMillis : Z)
    (ts : TagSet) (s : Selection) : result (Selection * TagSet) :=
  match fuel with
  | O => Err OutOfFuel
  | S fuel' =>
      if isExhausted ts then Ok (s, ts)
      else
        let* tag := getCurrentTag ts in
        let* s := _selectNode nodes tag secOnly localThresholdMillis (lastHost s) (isPrimarySelected s) in
        if host_empty (selected_host s) then
          let* ts := TagSet_next ts in
          select_tags fuel' nodes secOnly localThresholdMillis ts s
        else Ok (s, ts)
  end.

Definition select_by_tags (nodes : list Node) (secOnly : bool) (localThresholdMillis : Z) (ts : TagSet)
    (last_ : HostAndPort) : result (Selection * TagSet) :=
  select_tags (2 + length (_fields (_tagIterator ts))) nodes secOnly localThresholdMillis ts
    (MkSelection HostAndPort_empty last_ false).

Definition select_primary (nodes : list Node) (last_ : HostAndPort) : Selection :=
  match List.find (fun n => ismaster n && ok n) nodes with
  | Some n => MkSelection (addr n) last_ true
  | None => MkSelection HostAndPort_empty last_ false
  end.

Definition selectNode (nodes : list Node) (preference : ReadPreference) (ts : TagSet)
    (localThresholdMillis : Z) (last_ : HostAndPort) : result (Selection * TagSet) :=
  match preference with
  | PrimaryOnly => Ok (select_primary nodes last_, ts)
  | PrimaryPreferred =>
      let s := select_primary nodes last_ in
      if negb (host_empty (selected_host s)) then Ok (s, ts)
      else select_by_tags nodes true localThresholdMillis ts (lastHost s)
  | SecondaryOnly => select_by_tags nodes true localThresholdMillis ts last_
  | SecondaryPreferred =>
      let* '(s, ts) := select_by_tags nodes true localThresholdMillis ts last_ in
      if negb (host_empty (selected_host s)) then Ok (s, ts)
      else Ok (select_primary nodes (lastHost s), ts)
  | Nearest => select_by_tags nodes false localThresholdMillis ts last_
  end.

Definition isHostCompatible (nodes : list Node) (host : HostAndPort) (p : ReadPreference) (ts : TagSet) : result bool :=
  match List.find (fun n => host_eq (addr n) host) nodes with
  | Some n => isCompatible n p ts
  | None => Ok false
  end.

Definition isAnyNodeOk (nodes : list Node) : bool := existsb ok nodes.

(** ** Matching a tag, on documents *)

(** The fields are compared without their names. *)
Definition same_value (v w : value) : bool :=
  match compare_field false compare_value ([], v) ([], w) with Ok c => c =? 0 | Err _ => false end.

Lemma valuesEqual_rep b l r n n' v w :
  elem_ok l n v -> elem_ok r n' w -> dates_ok b v = true -> dates_ok b w = true ->
  valuesEqual l r = Ok (same_value v w).
Proof.
  intros Hl Hr Hv Hw. unfold valuesEqual, same_value.
  pose proof (element_woCompare_rep false l r n n' v w Hl Hr) as H.
  assert (exists c, compare_field false compare_value (n, v) (n', w) = Ok c) as [c Hc].
  { unfold compare_field, or_else. cbn [fst snd bind].
    destruct (Z.eqb_spec (zcmp (canon (vtype v)) (canon (vtype w))) 0) as [E|E]; [|by eexists].
    unfold zcmp in E. destruct (compare_value_antisym b v w Hv Hw ltac:(lia)) as (c & -> & _). by exists c. }
  rewrite Hc in H. change (compare_field false compare_value ([], v) ([], w)) with
    (compare_field false compare_value (n, v) (n', w)). rewrite Hc.
  apply sgn_of_inv in H as (x & -> & Hx). cbn [bind]. f_equal. lia.
Qed.

Definition doc_matches (dn dt : doc) : bool :=
  if bool_decide (dt = []) then true
  else
    match container (find_field dn (bstr "tags")) with
    | None => false
    | Some mine => forallb (fun f : field =>
        match find_field mine (fst f) with Some g => same_value (snd f) (snd g) | None => false end) dt
    end.

Lemma find_field_dates b d name f : doc_dates_ok b d = true -> find_field d name = Some f -> dates_ok b (snd f) = true.
Proof.
  intros Hd Hf. apply List.find_some in Hf as [Hin _]. unfold doc_dates_ok in Hd.
  rewrite forallb_forall in Hd. by apply Hd.
Qed.

Lemma container_dates b r d : (forall f, r = Some f -> dates_ok b (snd f) = true) -> container r = Some d ->
  doc_dates_ok b d = true.
Proof. destruct r as [[n v]|]; [|done]. intros H Hc. specialize (H _ eq_refl). by destruct v; simplify_eq/=. Qed.

Lemma matchesTag_rep b n tag dn dt : obj_rep (lastIsMaster n) dn -> obj_rep tag dt ->
  doc_dates_ok b dn = true -> doc_dates_ok b dt = true -> matchesTag n tag = Ok (doc_matches dn dt).
Proof.
  intros Hn Ht Hbn Hbt. unfold matchesTag, doc_matches. rewrite (isEmpty_rep tag dt Ht). cbn [bind].
  destruct (bool_decide (dt = [])); [done|].
  destruct (getField_rep _ dn (bstr "tags") Hn) as (e & -> & Hf). cbn [bind].
  rewrite (isABSONObj_found _ _ _ Hf). cbn [bind].
  destruct (container (find_field dn (bstr "tags"))) as [mine|] eqn:Ec; [|done]. cbn [negb].
  destruct (userCheck_found _ _ _ mine Hf Ec) as (mo & -> & Hmo & _). cbn [bind].
  assert (doc_dates_ok b mine = true) as Hbm.
  { eapply container_dates; [|exact Ec]. intros f. by apply find_field_dates. }
  edestruct (for_elements_sim (R := bool)
    (fun _ tagCriteria =>
      let* field := field_name tagCriteria in
      let* h := hasField mo field in
      if negb h then Ok (Return false)
      else
        let* mine := getField mo field in
        let* same := valuesEqual tagCriteria mine in
        Ok (if same then Continue tt else Return false))
    (fun (_ : unit) (f : field) =>
      if match find_field mine (fst f) with Some g => same_value (snd f) (snd g) | None => false end
      then Continue tt else Return false)
    (fun _ _ => True) (fun r r' => r = r') tag dt tt tt Ht) as (st & -> & Hst); [|done|].
  - intros _ [] x k v _ Hok Hin _. rewrite (field_name_rep _ _ _ Hok). cbn [bind fst snd].
    rewrite (hasField_rep mo mine k Hmo). cbn [bind]. unfold has.
    destruct (getField_rep mo mine k Hmo) as (g & -> & Hg).
    destruct (find_field mine k) as [[k' w]|] eqn:Ew; cbn [found negb bind snd] in *; [|eexists; split; [done|by constructor]].
    destruct Hg as [Hg _].
    assert (dates_ok b v = true) as Hv.
    { unfold doc_dates_ok in Hbt. rewrite forallb_forall in Hbt. by apply (Hbt (k, v)). }
    rewrite (valuesEqual_rep b _ _ k k' v w Hok Hg Hv (find_field_dates b mine k (k', w) Hbm Ew)). cbn [bind].
    destruct (same_value v w); eexists; split; [done|by constructor|done|by constructor].
  - cbn [finish]. clear -Hst. revert st Hst. induction dt as [|f dt IH]; intros st; cbn [run_fields forallb].
    + inversion 1; subst. done.
    + destruct (match find_field mine (fst f) with Some g => _ | None => _ end); cbn [andb]; [apply IH|].
      inversion 1; subst. done.
Qed.

(** ** The choice with one tag *)

Section choose.
Context {A : Type} (near_ok acceptable : A -> bool).

(** The first that is acceptable and near, or the last acceptable. *)
Definition choose (l : list A) : option A :=
  match List.find (fun n => acceptable n && near_ok n) l with
  | Some n => Some n
  | None => list.last (List.filter acceptable l)
  end.

Lemma choose_some l n : choose l = Some n -> In n l /\ acceptable n = true.
Proof.
  unfold choose. destruct (List.find _ l) as [m|] eqn:E.
  - intros [= <-]. apply List.find_some in E as [Hin [Ha _]%andb_prop]. done.
  - intros Hl. apply last_Some in Hl as [l' Hl].
    assert (In n (List.filter acceptable l)) as [? ?]%filter_In by (rewrite Hl; apply in_or_app; right; by left). done.
Qed.

Lemma choose_none l : choose l = None <-> forall n, In n l -> acceptable n = false.
Proof.
  split.
  - intros Hc n Hn. destruct (acceptable n) eqn:E; [|done]. exfalso. unfold choose in Hc.
    destruct (List.find _ l); [done|]. apply last_None in Hc.
    assert (In n (List.filter acceptable l)) as H by (by apply filter_In). by rewrite Hc in H.
  - intros H. destruct (choose l) as [n|] eqn:E; [|done]. apply choose_some in E as [Hin Ha].
    by rewrite H in Ha.
Qed.
End choose.

(** ** Going round a list *)

Section visits.
Context {A : Type}.

(** The members in the order of [k] turns, from the one after [i]. *)
Fixpoint visits (k : nat) (nodes : list A) (i : nat) : list A :=
  match k with
  | O => []
  | S k' =>
      let j := (S i mod length nodes)%nat in
      match nodes !! j with Some n => n :: visits k' nodes j | None => [] end
  end.

Lemma visits_lookup k (nodes : list A) : nodes <> [] -> forall i j, (j < k)%nat ->
  visits k nodes i !! j = nodes !! ((S i + j) mod length nodes)%nat.
Proof.
  intros Hne. assert (length nodes <> 0%nat) as Hl by (by destruct nodes).
  induction k as [|k IH]; intros i j Hj; [lia|]. cbn [visits].
  destruct (lookup_lt_is_Some_2 nodes (S i mod length nodes)) as [n Hn].
  { by apply Nat.mod_upper_bound. }
  rewrite Hn. destruct j as [|j]; cbn [lookup list_lookup].
  - by rewrite Nat.add_0_r, Hn.
  - change (list_lookup j (visits k nodes (S i mod length nodes)))
      with (visits k nodes (S i mod length nodes) !! j).
    rewrite IH by lia. f_equal. rewrite <- Nat.add_1_r, <- Nat.add_assoc, Nat.Div0.add_mod_idemp_l. done.
Qed.

Lemma visits_length k (nodes : list A) : nodes <> [] -> forall i, length (visits k nodes i) = k.
Proof.
  intros Hne. assert (length nodes <> 0%nat) as Hl by (by destruct nodes).
  induction k as [|k IH]; intros i; [done|]. cbn [visits].
  destruct (lookup_lt_is_Some_2 nodes (S i mod length nodes)) as [n ->]; [by apply Nat.mod_upper_bound|].
  cbn. by rewrite IH.
Qed.

Lemma visits_rotate (nodes : list A) i : visits (length nodes) nodes i = rotate (S i) nodes.
Proof.
  destruct (decide (nodes = [])) as [-> |Hne]; [done|].
  apply list_eq. intros j. destruct (decide (j < length nodes)%nat) as [Hj|Hj].
  - rewrite visits_lookup by done. rewrite lookup_rotate_r by done. f_equal.
    unfold rotate_nat_add. rewrite <- Nat2Z.inj_add, <- Nat2Z.inj_mod. lia.
  - rewrite !lookup_ge_None_2; [done|rewrite length_rotate; lia|rewrite visits_length by done; lia].
Qed.
End visits.

(** ** [_selectNode] *)

(** What is assumed of the members: the object of the last reply of each is a
    document, and each has an address. *)
Section selection.
Context (dates : bool) (node_doc : Node -> doc).

Definition node_ok (n : Node) : Prop :=
  obj_rep (lastIsMaster n) (node_doc n) /\ doc_dates_ok dates (node_doc n) = true /\ host_empty (addr n) = false.
Definition tag_ok (d : doc) : Prop := doc_dates_ok dates d = true.

Definition eligible (secOnly : bool) (d : doc) (n : Node) : bool :=
  ok n && (negb secOnly || okForSecondaryQueries n) && doc_matches (node_doc n) d.

Definition select_this (n : Node) : Selection := MkSelection (addr n) (addr n) (ismaster n).

Lemma _selectNode_loop_spec tag dt secOnly thr nodes :
  Forall node_ok nodes -> obj_rep tag dt -> tag_ok dt ->
  forall k i s, nodes <> [] ->
  _selectNode_loop k nodes tag secOnly thr i s =
  Ok (match choose (isLocalSecondary thr) (eligible secOnly dt) (visits k nodes i) with
      | Some n => select_this n
      | None => if negb (host_empty (selected_host s))
                then MkSelection (selected_host s) (selected_host s) (isPrimarySelected s) else s
      end).
Proof.
  intros Hns Ht Hdt. induction k as [|k IH]; intros i s Hne; [done|]. cbn [_selectNode_loop visits].
  set (j := (S i mod length nodes)%nat).
  destruct (lookup_lt_is_Some_2 nodes j) as [n Hn].
  { subst j. apply Nat.mod_upper_bound. by destruct nodes. }
  unfold nth_node. rewrite Hn. cbn [bind].
  rewrite List.Forall_forall in Hns. destruct (Hns n) as (Hno & Hnd & Hna); [by eapply list_elem_of_In, list_elem_of_lookup_2|].
  assert (forall s, eligible secOnly dt n = false ->
    _selectNode_loop k nodes tag secOnly thr j s =
    Ok (match choose (isLocalSecondary thr) (eligible secOnly dt) (n :: visits k nodes j) with
        | Some n => select_this n
        | None => if negb (host_empty (selected_host s))
                  then MkSelection (selected_host s) (selected_host s) (isPrimarySelected s) else s
        end)) as Hskip.
  { intros s' He. rewrite IH by done. unfold choose. cbn [List.find List.filter]. by rewrite He. }
  unfold eligible in Hskip at 1. destruct (ok n) eqn:Eok; cbn [negb andb] in *; [|by apply Hskip].
  destruct (secOnly && negb (okForSecondaryQueries n)) eqn:Es.
  { apply Hskip. destruct secOnly; [|done]. by destruct (okForSecondaryQueries n). }
  rewrite (matchesTag_rep dates n tag (node_doc n) dt Hno Ht Hnd Hdt). cbn [bind].
  destruct (doc_matches (node_doc n) dt) eqn:Em; [|apply Hskip; by rewrite andb_false_r].
  assert (eligible secOnly dt n = true) as He.
  { unfold eligible. rewrite Em, Eok. destruct secOnly; [|done]. cbn in *. by destruct (okForSecondaryQueries n). }
  destruct (isLocalSecondary thr n) eqn:El.
  { unfold choose. cbn [List.find]. by rewrite He, El. }
  rewrite IH by done. cbn [selected_host isPrimarySelected]. rewrite Hna. cbn [negb].
  unfold choose. cbn [List.find List.filter]. rewrite He, El. cbn [andb].
  destruct (List.find _ (visits k nodes j)); [done|].
  rewrite last_cons. by destruct (list.last (List.filter (eligible secOnly dt) (visits k nodes j))).
Qed.

Definition start_index (nodes : list Node) (last_ : HostAndPort) : nat :=
  if negb (host_empty last_) then default 0%nat (index_of last_ nodes 0) else 0%nat.

(** The member chosen for a tag after [last_]. *)
Definition choice (nodes : list Node) (secOnly : bool) (thr : Z) (last_ : HostAndPort) (dt : doc) : option Node :=
  choose (isLocalSecondary thr) (eligible secOnly dt) (rotate (S (start_index nodes last_)) nodes).

Lemma _selectNode_spec tag dt secOnly thr nodes last_ primary :
  Forall node_ok nodes -> obj_rep tag dt -> tag_ok dt ->
  _selectNode nodes tag secOnly thr last_ primary =
  Ok (match choice nodes secOnly thr last_ dt with
      | Some n => select_this n
      | None => MkSelection HostAndPort_empty last_ primary
      end).
Proof.
  intros Hns Ht Hdt. unfold _selectNode, choice.
  destruct (decide (nodes = [])) as [-> |Hne]; [done|].
  rewrite (_selectNode_loop_spec tag dt) by done. by rewrite visits_rotate.
Qed.

Lemma choice_some nodes secOnly thr last_ dt n : choice nodes secOnly thr last_ dt = Some n ->
  In n nodes /\ eligible secOnly dt n = true.
Proof.
  intros [Hin He]%choose_some. split; [|done].
  apply list_elem_of_In. apply list_elem_of_In in Hin. by apply elem_of_rotate in Hin.
Qed.

Lemma choice_none nodes secOnly thr last_ dt : choice nodes secOnly thr last_ dt = None <->
  forall n, In n nodes -> eligible secOnly dt n = false.
Proof.
  unfold choice. rewrite choose_none. split; intros H n Hn; apply H; apply list_elem_of_In;
    apply list_elem_of_In in Hn; by apply elem_of_rotate in Hn || apply elem_of_rotate.
Qed.

(** The first tag that some member is chosen for, with the tags after it. *)
Fixpoint tag_choice (nodes : list Node) (secOnly : bool) (thr : Z) (last_ : HostAndPort) (ds : list doc)
    : option Node * list doc :=
  match ds with
  | [] => (None, [])
  | d :: ds' =>
      match choice nodes secOnly thr last_ d with
      | Some n => (Some n, ds)
      | None => tag_choice nodes secOnly thr last_ ds'
      end
  end.

Definition selection_or (r : option Node) (last_ : HostAndPort) : Selection :=
  match r with Some n => select_this n | None => MkSelection HostAndPort_empty last_ false end.

Lemma select_tags_spec nodes secOnly thr ds : Forall node_ok nodes -> Forall tag_ok ds ->
  forall fuel ts last_, tags_rep ts ds -> (length ds < fuel)%nat ->
  exists ts', select_tags fuel nodes secOnly thr ts (MkSelection HostAndPort_empty last_ false) =
    Ok (selection_or (fst (tag_choice nodes secOnly thr last_ ds)) last_, ts') /\
    tags_rep ts' (snd (tag_choice nodes secOnly thr last_ ds)).
Proof.
  intros Hns Hds. induction ds as [|d ds IH]; intros [|fuel] ts last_ Hts Hf; try (cbn in Hf; lia).
  - cbn [select_tags tag_choice fst snd selection_or]. unfold isExhausted. rewrite Hts. by exists ts.
  - cbn [select_tags tag_choice]. destruct (Hts) as (Hex & Hcur & Hit). unfold isExhausted, getCurrentTag.
    apply Forall_cons_1 in Hds as [Hd Hds].
    rewrite Hex. cbn [negb verify bind lastHost isPrimarySelected].
    rewrite (_selectNode_spec _ d) by done. cbn [bind].
    destruct (choice nodes secOnly thr last_ d) as [n|] eqn:Ec.
    + apply choice_some in Ec as [Hin _]. rewrite List.Forall_forall in Hns. destruct (Hns n Hin) as (_ & _ & Ha).
      cbn [select_this selected_host]. rewrite Ha. by exists ts.
    + change (host_empty (selected_host (MkSelection HostAndPort_empty last_ false))) with true. cbv iota.
      destruct (next_tag_rep ts d ds Hts) as (ts' & -> & Hts' & _). cbn [bind]. cbn in Hf. apply IH; [done|done|lia].
Qed.

Lemma select_by_tags_spec nodes secOnly thr ts ds last_ : Forall node_ok nodes -> Forall tag_ok ds -> tags_rep ts ds ->
  exists ts', select_by_tags nodes secOnly thr ts last_ =
    Ok (selection_or (fst (tag_choice nodes secOnly thr last_ ds)) last_, ts') /\
    tags_rep ts' (snd (tag_choice nodes secOnly thr last_ ds)).
Proof.
  intros Hns Hds Hts. apply select_tags_spec; [done|done|done|].
  destruct ds as [|d ds]; cbn in *; [lia|]. destruct Hts as (_ & _ & Hit). unfold iter_tags in Hit.
  rewrite <- (Forall2_length Hit), length_drop. lia.
Qed.

(** ** What each preference accepts *)

Definition primary_ok (n : Node) : bool := ismaster n && ok n.
Definition by_tags (secOnly : bool) (ds : list doc) (n : Node) : bool := existsb (fun d => eligible secOnly d n) ds.

Definition accepted (p : ReadPreference) (ds : list doc) (n : Node) : bool :=
  match p with
  | PrimaryOnly => primary_ok n
  | SecondaryOnly => by_tags true ds n
  | Nearest => by_tags false ds n
  | PrimaryPreferred | SecondaryPreferred => primary_ok n || by_tags true ds n
  end.

(** What it would rather have. *)
Definition favourite (p : ReadPreference) (ds : list doc) (n : Node) : bool :=
  match p with
  | PrimaryPreferred => primary_ok n
  | SecondaryPreferred => by_tags true ds n
  | _ => accepted p ds n
  end.

(** No member matches a tag before the one [n] matches. *)
Definition first_tag (nodes : list Node) (secOnly : bool) (ds : list doc) (n : Node) : Prop :=
  exists ds1 d ds2, ds = ds1 ++ d :: ds2 /\ eligible secOnly d n = true /\
    forall m, In m nodes -> by_tags secOnly ds1 m = false.

Definition tags_mode (p : ReadPreference) : option bool :=
  match p with PrimaryOnly => None | Nearest => Some false | _ => Some true end.

Lemma tag_choice_cases nodes secOnly thr last_ ds :
  match tag_choice nodes secOnly thr last_ ds with
  | (Some n, _) => In n nodes /\ by_tags secOnly ds n = true /\ first_tag nodes secOnly ds n
  | (None, r) => r = [] /\ forall n, In n nodes -> by_tags secOnly ds n = false
  end.
Proof.
  induction ds as [|d ds IH]; [done|]. cbn [tag_choice].
  destruct (choice nodes secOnly thr last_ d) as [n|] eqn:Ec.
  - apply choice_some in Ec as [Hin He]. split; [done|]. split; [cbn; by rewrite He|].
    exists [], d, ds. done.
  - rewrite choice_none in Ec. destruct (tag_choice nodes secOnly thr last_ ds) as [[n|] r].
    + destruct IH as (Hin & Hb & ds1 & d1 & ds2 & -> & He & Hn). split; [done|]. cbn [by_tags existsb]. split.
      { unfold by_tags in *. cbn [existsb]. rewrite Hb. apply orb_true_r. }
      exists (d :: ds1), d1, ds2. split; [done|]. split; [done|]. intros m Hm. unfold by_tags in *. cbn [existsb].
      by rewrite (Ec m Hm), (Hn m Hm).
    + destruct IH as [-> Hn]. split; [done|]. intros n Hin. unfold by_tags in *. cbn [existsb].
      by rewrite (Ec n Hin), (Hn n Hin).
Qed.

Lemma select_primary_cases nodes last_ : Forall node_ok nodes ->
  (exists n, In n nodes /\ primary_ok n = true /\ select_primary nodes last_ = MkSelection (addr n) last_ true /\
     host_empty (addr n) = false /\ ismaster n = true) \/
  (select_primary nodes last_ = MkSelection HostAndPort_empty last_ false /\
   forall n, In n nodes -> primary_ok n = false).
Proof.
  intros Hns. unfold select_primary. destruct (List.find _ nodes) as [n|] eqn:E.
  - apply List.find_some in E as [Hin Hp]. left. exists n. rewrite List.Forall_forall in Hns.
    destruct (Hns n Hin) as (_ & _ & Ha). apply andb_prop in Hp as Hp'. by destruct Hp' as [? _].
  - right. split; [done|]. intros n Hin. apply (List.find_none _ _ E n Hin).
Qed.

(** A selection that is of a member the preference accepts, and of one it would
    rather have when there is such a one. *)
Definition selects (nodes : list Node) (p : ReadPreference) (ds : list doc) (last_ : HostAndPort) (s : Selection)
    (n : Node) : Prop :=
  In n nodes /\ selected_host s = addr n /\ isPrimarySelected s = ismaster n /\ accepted p ds n = true /\
  (existsb (favourite p ds) nodes = true -> favourite p ds n = true) /\
  (primary_ok n = true /\ p <> SecondaryOnly /\ p <> Nearest /\ lastHost s = last_ \/
   lastHost s = addr n /\ exists secOnly, tags_mode p = Some secOnly /\ first_tag nodes secOnly ds n).

Lemma existsb_false {A} (f : A -> bool) l : (forall x, In x l -> f x = false) -> existsb f l = false.
Proof.
  intros H. apply not_true_iff_false. intros (x & Hx & Hf)%existsb_exists. by rewrite H in Hf.
Qed.

Lemma selectNode_spec nodes p ts ds thr last_ : Forall node_ok nodes -> Forall tag_ok ds -> tags_rep ts ds ->
  exists s ts', selectNode nodes p ts thr last_ = Ok (s, ts') /\
    ((selected_host s = HostAndPort_empty /\ lastHost s = last_ /\ forall n, In n nodes -> accepted p ds n = false) \/
     exists n, selects nodes p ds last_ s n).
Proof.
  intros Hns Hds Hts. unfold selectNode.
  destruct (select_by_tags_spec nodes true thr ts ds last_ Hns Hds Hts) as (ts2 & Hby & _).
  destruct (select_by_tags_spec nodes false thr ts ds last_ Hns Hds Hts) as (ts3 & Hby' & _).
  pose proof (tag_choice_cases nodes true thr last_ ds) as Hc.
  pose proof (tag_choice_cases nodes false thr last_ ds) as Hc'.
  pose proof (select_primary_cases nodes last_ Hns) as Hp. unfold selects.
  destruct p; cbn [accepted favourite tags_mode].
  - eexists _, _. split; [done|]. destruct Hp as [(n & Hin & Hok & -> & _ & Hm)|[-> Hno]].
    + right. exists n. rewrite Hm. split_and!; try done. left. done.
    + left. done.
  - destruct Hp as [(n & Hin & Hok & -> & Ha & Hm)|[-> Hno]]; cbn [selected_host lastHost].
    + rewrite Ha. cbn [negb]. eexists _, _. split; [done|]. right. exists n. rewrite Hm, Hok.
      split_and!; try done. left. done.
    + change (negb (host_empty HostAndPort_empty)) with false. cbv iota. rewrite Hby. eexists _, _. split; [done|].
      destruct (tag_choice nodes true thr last_ ds) as [[n|] r]; cbn [fst selection_or].
      * destruct Hc as (Hin & Hb & Hf). right. exists n. rewrite Hb, orb_true_r. split_and!; try done.
        -- by rewrite existsb_false.
        -- right. split; [done|]. by exists true.
      * left. split; [done|]. split; [done|]. intros n Hin. by rewrite (Hno n Hin), (proj2 Hc n Hin).
  - rewrite Hby. eexists _, _. split; [done|]. destruct (tag_choice nodes true thr last_ ds) as [[n|] r]; cbn [fst selection_or].
    + destruct Hc as (Hin & Hb & Hf). right. exists n. split_and!; try done. right. split; [done|]. by exists true.
    + left. split; [done|]. split; [done|]. apply Hc.
  - rewrite Hby. cbn [bind]. destruct (tag_choice nodes true thr last_ ds) as [[n|] r]; cbn [fst selection_or].
    + destruct Hc as (Hin & Hb & Hf). rewrite List.Forall_forall in Hns. destruct (Hns n Hin) as (_ & _ & Ha).
      cbn [select_this selected_host]. rewrite Ha. cbn [negb]. eexists _, _. split; [done|]. right. exists n.
      rewrite Hb, orb_true_r. split_and!; try done. right. split; [done|]. by exists true.
    + cbn [selected_host lastHost]. change (negb (host_empty HostAndPort_empty)) with false. cbv iota.
      eexists _, _. split; [done|]. destruct Hp as [(n & Hin & Hok & -> & _ & Hm)|[-> Hno]].
      * right. exists n. rewrite Hm, Hok. split_and!; try done; [by rewrite existsb_false by apply Hc|left; done].
      * left. split; [done|]. split; [done|]. intros n Hin. by rewrite (Hno n Hin), (proj2 Hc n Hin).
  - rewrite Hby'. eexists _, _. split; [done|]. destruct (tag_choice nodes false thr last_ ds) as [[n|] r]; cbn [fst selection_or].
    + destruct Hc' as (Hin & Hb & Hf). right. exists n. split_and!; try done. right. split; [done|]. by exists false.
    + left. split; [done|]. split; [done|]. apply Hc'.
Qed.
End selection.

(** C31: selectNode fails exactly when no member is one that the preference
    accepts: for the primary a member that is master and ok, for secondaries one
    that is ok, a secondary, not hidden and that matches one of the tags, for the
    nearest one that is ok and matches.  Otherwise it gives such a member, whether
    it is the primary, and prefers as its name says; with tags, the member matches
    the first tag that any member matches.  Only a choice by tags is remembered,
    also one of the nearest. *)
Theorem selectNode_correct `{StdSort} dates node_doc nodes p ts ds thr last_ :
  Forall (node_ok dates node_doc) nodes -> Forall (tag_ok dates) ds -> tags_rep ts ds ->
  exists s ts', selectNode nodes p ts thr last_ = Ok (s, ts') /\
    ((selected_host s = HostAndPort_empty /\ lastHost s = last_ /\
      forall n, In n nodes -> accepted node_doc p ds n = false) \/
     exists n, selects node_doc nodes p ds last_ s n).
Proof. apply selectNode_spec. Qed.

Definition sample_reply (dc : string) : doc := [(bstr "tags", VObject [(bstr "dc", VString (bstr dc))])].

Definition sample_node (h dc : string) (sec : bool) (ping : Z) : Node :=
  MkNode (MkHost (bstr h) 27017) (Some (bstr h)) true (obj_of (sample_reply dc)) (negb sec) sec false ping.

Lemma selectNode_correct_witness : exists s ts',
  selectNode [sample_node "a" "ny" false 1; sample_node "b" "ny" true 30] SecondaryPreferred
    (MkTagSet (obj_of []) false (obj_of []) (MkSorted [] 0)) 15 HostAndPort_empty = Ok (s, ts').
Proof.
  destruct (selectNode_correct (H := insertion_StdSort) true (fun _ => sample_reply "ny")
    [sample_node "a" "ny" false 1; sample_node "b" "ny" true 30] SecondaryPreferred
    (MkTagSet (obj_of []) false (obj_of []) (MkSorted [] 0)) [[]] 15 HostAndPort_empty) as (s & ts' & Hs & _).
  - apply Forall_cons_2; [|apply Forall_cons_2; [|apply Forall_nil_2]];
      (split; [by apply obj_of_rep|by split]).
  - apply Forall_cons_2; [done|apply Forall_nil_2].
  - split; [done|]. split; [by apply obj_of_rep|]. apply Forall2_nil_2.
  - exists s, ts'. exact Hs.
Defined.

(** The comment on selectNode says that [lastHost] is not overwritten when the
    preference is the nearest member; it is. *)
Example nearest_remembered : exists ts',
  selectNode [sample_node "a" "ny" false 1] Nearest (MkTagSet (obj_of []) false (obj_of []) (MkSorted [] 0)) 15
    (MkHost (bstr "z") 1) = Ok (MkSelection (MkHost (bstr "a") 27017) (MkHost (bstr "a") 27017) true, ts').
Proof. eexists. vm_compute. reflexivity. Qed.

(** The comment on matchesTag says that a number matches a tag that is its text;
    values of different types do not match. *)
Example number_no_text :
  let tagged := MkNode (MkHost (bstr "a") 27017) None true
    (obj_of [(bstr "tags", VObject [(bstr "dc", VString (bstr "nyc")); (bstr "rack", VString (bstr "4"))])]) false true false 1 in
  matchesTag tagged (obj_of [(bstr "dc", VString (bstr "nyc")); (bstr "rack", VInt 4)]) = Ok false /\
  matchesTag tagged (obj_of [(bstr "dc", VString (bstr "nyc")); (bstr "rack", VString (bstr "4"))]) = Ok true.
Proof. split; vm_compute; reflexivity. Qed.

(** The comment on isLocalSecondary says that the member is a secondary and can
    handle queries; only its ping time is looked at. *)
Example local_primary_down : isLocalSecondary 15 (MkNode (MkHost (bstr "a") 1) None false BSONObj_empty true false false 3) = true.
Proof. reflexivity. Qed.

(** ** Selecting again *)

Lemma select_tags_end fuel nodes secOnly thr ts s s' ts' :
  select_tags fuel nodes secOnly thr ts s = Ok (s', ts') -> host_empty (selected_host s') = true ->
  isExhausted ts' = true.
Proof.
  revert ts s. induction fuel as [|fuel IH]; intros ts s; cbn [select_tags]; [done|].
  destruct (isExhausted ts) eqn:Ex; [by intros [= <- <-]|].
  intros (tag & _ & H)%bind_ok_inv. apply bind_ok_inv in H as (s1 & _ & H).
  destruct (host_empty (selected_host s1)) eqn:Eh.
  - apply bind_ok_inv in H as (ts1 & _ & H). apply (IH _ _ H).
  - injection H as <- <-. by rewrite Eh.
Qed.

Lemma select_exhausted nodes secOnly thr ts last_ : isExhausted ts = true ->
  select_by_tags nodes secOnly thr ts last_ = Ok (MkSelection HostAndPort_empty last_ false, ts).
Proof. intros He. unfold select_by_tags. cbn [select_tags Nat.add]. by rewrite He. Qed.

(** When a selection by tags only has found nothing, the tags are used up, so
    that selecting again with them finds nothing whatever the members are now:
    the check of the members that selectAndCheckNode makes between the two
    selections cannot help. *)
Theorem reselection_empty nodes nodes' p ts thr last_ s ts' :
  p = SecondaryOnly \/ p = Nearest ->
  selectNode nodes p ts thr last_ = Ok (s, ts') -> host_empty (selected_host s) = true ->
  selectNode nodes' p ts' thr (lastHost s) = Ok (MkSelection HostAndPort_empty (lastHost s) false, ts').
Proof. intros [-> | ->] Hs He; apply select_exhausted; exact (select_tags_end _ _ _ _ _ _ _ _ Hs He). Qed.

Lemma reselection_empty_witness :
  let down := [MkNode (MkHost (bstr "a") 1) None false BSONObj_empty false true false 0] in
  let up := [MkNode (MkHost (bstr "a") 1) None true BSONObj_empty false true false 0] in
  let ts := MkTagSet BSONObj_empty false BSONObj_empty (MkSorted [] 0) in
  let ts' := MkTagSet BSONObj_empty true BSONObj_empty (MkSorted [] 0) in
  selectNode up SecondaryOnly ts 15 HostAndPort_empty =
    Ok (MkSelection (MkHost (bstr "a") 1) (MkHost (bstr "a") 1) false, ts) /\
  selectNode down SecondaryOnly ts 15 HostAndPort_empty = Ok (MkSelection HostAndPort_empty HostAndPort_empty false, ts') /\
  selectNode up SecondaryOnly ts' 15 HostAndPort_empty = Ok (MkSelection HostAndPort_empty HostAndPort_empty false, ts').
Proof.
  intros down up ts ts'. split; [vm_compute; reflexivity|].
  assert (selectNode down SecondaryOnly ts 15 HostAndPort_empty =
    Ok (MkSelection HostAndPort_empty HostAndPort_empty false, ts')) as H by (vm_compute; reflexivity).
  split; [exact H|].
  exact (reselection_empty down up SecondaryOnly ts 15 HostAndPort_empty _ ts' (or_introl eq_refl) H eq_refl).
Defined.

(** ** The members are taken in turn *)

(** [k] calls, each with the host of the one before: the hosts. *)
Fixpoint turns (k : nat) (nodes : list Node) (tag : BSONObj) (secOnly : bool) (thr : Z) (last_ : HostAndPort)
    : result (list HostAndPort) :=
  match k with
  | O => Ok []
  | S k' =>
      let* s := _selectNode nodes tag secOnly thr last_ false in
      let* hs := turns k' nodes tag secOnly thr (lastHost s) in
      Ok (selected_host s :: hs)
  end.

Section in_turn.
Context (dates : bool) (node_doc : Node -> doc) (nodes : list Node) (tag : BSONObj) (dt : doc).
Context (secOnly : bool) (thr : Z).
Hypothesis Hns : Forall (node_ok dates node_doc) nodes.
Hypothesis Ht : obj_rep tag dt.
Hypothesis Hdt : tag_ok dates dt.
(** No two members have equal addresses. *)
Hypothesis Hdistinct : forall i j n m, nodes !! i = Some n -> nodes !! j = Some m ->
  host_eq (addr n) (addr m) = true -> i = j.

Definition near_ones : list Node :=
  List.filter (fun n => eligible node_doc secOnly dt n && isLocalSecondary thr n) nodes.

Lemma find_hd {A} (f : A -> bool) l : List.find f l = head (List.filter f l).
Proof. induction l as [|x l IH]; [done|]. cbn. by destruct (f x). Qed.

Lemma index_of_at ns : forall i n x, ns !! i = Some n ->
  (forall j m, ns !! j = Some m -> host_eq (addr n) (addr m) = true -> j = i) ->
  index_of (addr n) ns x = Some (x + i)%nat.
Proof.
  induction ns as [|m ns IH]; intros i n x Hn Hd; [done|]. cbn [index_of].
  destruct (host_eq (addr n) (addr m)) eqn:E.
  - specialize (Hd 0%nat m eq_refl E). subst i. f_equal. lia.
  - destruct i as [|i]; cbn in Hn.
    + simplify_eq. assert (addr n ≡ addr n) as Hr by done. by rewrite Hr in E.
    + rewrite (IH i n (S x) Hn); [f_equal; lia|]. intros j m' Hj Hh.
      specialize (Hd (S j) m' Hj Hh). lia.
Qed.

Lemma filter_index {A} (f : A -> bool) l : forall i x, List.filter f l !! i = Some x ->
  exists pre post, l = pre ++ x :: post /\ length (List.filter f pre) = i /\ f x = true.
Proof.
  induction l as [|y l IH]; intros i x; cbn [List.filter]; [done|]. destruct (f y) eqn:E.
  - destruct i as [|i]; cbn.
    + intros [= ->]. by exists [], l.
    + intros Hx. destruct (IH i x Hx) as (pre & post & -> & <- & Hf). exists (y :: pre), post.
      cbn [List.filter]. by rewrite E.
  - intros Hx. destruct (IH i x Hx) as (pre & post & -> & <- & Hf). exists (y :: pre), post.
    cbn [List.filter]. by rewrite E.
Qed.

Lemma choice_next i n m : near_ones !! i = Some n ->
  near_ones !! (S i mod length near_ones)%nat = Some m ->
  choice node_doc nodes secOnly thr (addr n) dt = Some m.
Proof using Hns Hdistinct.
  intros Hn Hm. unfold near_ones in *. set (f := fun n => eligible node_doc secOnly dt n && isLocalSecondary thr n) in *.
  destruct (filter_index f nodes i n Hn) as (pre & post & E & Hi & Hf).
  assert (nodes !! length pre = Some n) as Hat by (rewrite E; by apply list_lookup_middle).
  assert (In n nodes) as Hin by (rewrite E; apply in_or_app; right; by left).
  assert (start_index nodes (addr n) = length pre) as Hstart.
  { unfold start_index. pose proof Hns as Hns'. rewrite List.Forall_forall in Hns'.
    destruct (Hns' n Hin) as (_ & _ & ->). cbn [negb]. rewrite (index_of_at nodes (length pre) n 0 Hat); [done|].
    intros j m' Hj Hh. symmetry. by apply (Hdistinct (length pre) j n m'). }
  unfold choice, choose. rewrite Hstart, find_hd. fold f.
  assert (rotate (S (length pre)) nodes = post ++ pre ++ [n]) as ->.
  { unfold rotate. rewrite E, length_app. cbn [length]. destruct post as [|y post].
    - cbn [length]. rewrite Nat.add_1_r, Nat.Div0.mod_same. by rewrite drop_0, take_0, app_nil_r.
    - cbn [length]. rewrite Nat.mod_small by lia. rewrite <- Nat.add_1_r. rewrite drop_app_add, take_app_add. cbn.
      done. }
  rewrite !List.filter_app. cbn [List.filter]. rewrite Hf.
  rewrite E, List.filter_app in Hm. cbn [List.filter] in Hm. rewrite Hf, length_app, Hi in Hm. cbn [length] in Hm.
  destruct (List.filter f post) as [|y fpost] eqn:Ep.
  - cbn [length app] in *. rewrite Nat.add_1_r, Nat.Div0.mod_same in Hm.
    destruct (List.filter f pre) as [|z fpre]; cbn in *; by simplify_eq.
  - cbn [length app] in *. rewrite Nat.mod_small in Hm by lia.
    rewrite lookup_app_r in Hm by lia. rewrite Hi in Hm. replace (S i - i)%nat with 1%nat in Hm by lia. done.
Qed.

Lemma turns_spec k : forall i n, near_ones !! i = Some n ->
  exists ms, turns k nodes tag secOnly thr (addr n) = Ok (map addr ms) /\ length ms = k /\
    forall j, (j < k)%nat -> ms !! j = near_ones !! ((S i + j) mod length near_ones)%nat.
Proof using Hns Ht Hdt Hdistinct.
  induction k as [|k IH]; intros i n Hn; [exists []; split; [done|]; split; [done|lia]|].
  assert (length near_ones <> 0%nat) as Hne by (by destruct near_ones).
  destruct (lookup_lt_is_Some_2 near_ones (S i mod length near_ones)) as [m Hm]; [by apply Nat.mod_upper_bound|].
  destruct (IH _ m Hm) as (ms & Hms & Hl & Hj). exists (m :: ms). cbn [turns].
  rewrite (_selectNode_spec dates node_doc tag dt) by done. rewrite (choice_next i n m Hn Hm). cbn [bind select_this lastHost].
  rewrite Hms. split; [done|]. split; [cbn; by rewrite Hl|]. intros [|j] Hlt.
  - by rewrite Nat.add_0_r, Hm.
  - cbn [lookup list_lookup]. change (list_lookup j ms) with (ms !! j). rewrite Hj by lia. f_equal.
    rewrite <- Nat.add_1_r, <- Nat.add_assoc, Nat.Div0.add_mod_idemp_l. done.
Qed.
End in_turn.

(** Round robin.  When members have distinct addresses and the one returned
    last is eligible and near, then as many calls as there are eligible near
    members, each given the host of the call before, return every one of them
    once, in the order of the list, the last one at the end. *)
Theorem round_robin dates node_doc nodes tag dt secOnly thr i n :
  Forall (node_ok dates node_doc) nodes -> obj_rep tag dt -> tag_ok dates dt ->
  (forall i j n m, nodes !! i = Some n -> nodes !! j = Some m -> host_eq (addr n) (addr m) = true -> i = j) ->
  near_ones node_doc nodes dt secOnly thr !! i = Some n ->
  turns (length (near_ones node_doc nodes dt secOnly thr)) nodes tag secOnly thr (addr n) =
  Ok (map addr (rotate (S i) (near_ones node_doc nodes dt secOnly thr))).
Proof.
  intros Hns Ht Hdt Hd Hn. set (near := near_ones node_doc nodes dt secOnly thr) in *.
  destruct (turns_spec dates node_doc nodes tag dt secOnly thr Hns Ht Hdt Hd (length near) i n Hn) as (ms & -> & Hl & Hj).
  fold near in Hj. do 2 f_equal. assert (length near <> 0%nat) as Hne by (by destruct near).
  apply list_eq. intros j. destruct (decide (j < length near)%nat) as [Hlt|Hge].
  - rewrite Hj by done. rewrite lookup_rotate_r by done. f_equal.
    unfold rotate_nat_add. rewrite <- Nat2Z.inj_add, <- Nat2Z.inj_mod. lia.
  - rewrite (lookup_ge_None_2 (rotate _ _)) by (rewrite length_rotate; lia).
    apply lookup_ge_None_2. lia.
Qed.

Lemma round_robin_witness :
  let nodes := [sample_node "a" "ny" false 1; sample_node "b" "ny" true 2; sample_node "c" "ny" true 3;
                sample_node "d" "sf" true 4; sample_node "e" "ny" true 5] in
  let dt := [(bstr "dc", VString (bstr "ny"))] in
  turns 3 nodes (obj_of dt) true 15 (MkHost (bstr "c") 27017) =
    Ok [MkHost (bstr "e") 27017; MkHost (bstr "b") 27017; MkHost (bstr "c") 27017].
Proof.
  intros nodes dt.
  exact (round_robin true (fun n => sample_reply (if host_eq (addr n) (MkHost (bstr "d") 27017) then "sf" else "ny"))
    nodes (obj_of dt) dt true 15 1 (sample_node "c" "ny" true 3)
    ltac:(repeat (apply Forall_cons_2; [split; [by apply obj_of_rep|by split]|]); apply Forall_nil_2)
    ltac:(by apply obj_of_rep) eq_refl
    ltac:(intros [|[|[|[|[|i]]]]] [|[|[|[|[|j]]]]] n m Hn Hm Hh; cbn in Hn, Hm; simplify_eq; done)
    eq_refl).
Defined.

(** The first choice begins after the first member, not at it. *)
Example first_choice_second_member :
  let nodes := [sample_node "a" "ny" true 1; sample_node "b" "ny" true 1] in
  _selectNode nodes (obj_of []) true 15 HostAndPort_empty false =
    Ok (MkSelection (MkHost (bstr "b") 27017) (MkHost (bstr "b") 27017) false).
Proof. vm_compute. reflexivity. Qed.

(** ** Compatible members *)

Definition mode_ok (p : ReadPreference) (n : Node) : bool :=
  match p with
  | SecondaryOnly | SecondaryPreferred => okForSecondaryQueries n
  | PrimaryOnly | PrimaryPreferred => ok n && negb (secondary n)
  | Nearest => ok n
  end.

(** A member is compatible with a preference when it is ok, of the kind the mode
    names (its first choice, for the preferred ones), and matches one of the
    tags, if there are any. *)
Theorem isCompatible_correct dates n p ts dn da :
  obj_rep (lastIsMaster n) dn -> doc_dates_ok dates dn = true ->
  obj_rep (_tags ts) da -> doc_dates_ok dates da = true -> Forall (fun f => is_Some (sub_doc (snd f))) da ->
  isCompatible n p ts = Ok (mode_ok p n && (bool_decide (da = []) || existsb (doc_matches dn) (tag_docs da))).
Proof.
  intros Hn Hdn Hts Hda Hall. unfold isCompatible.
  assert (forall b, mode_ok p n = b -> b = false ->
    Ok false = Ok (mode_ok p n && (bool_decide (da = []) || existsb (doc_matches dn) (tag_docs da)))) as Hno
    by (by intros b -> ->).
  destruct (ok n) eqn:Eok; cbn [negb].
  2: { apply (Hno _ eq_refl). destruct p; cbn [mode_ok]; unfold okForSecondaryQueries; by rewrite ?Eok. }
  destruct (_ && negb (okForSecondaryQueries n)) eqn:E1.
  { apply andb_prop in E1 as [E1 E2%negb_true_iff]. apply (Hno _ eq_refl). by destruct p. }
  destruct (_ && secondary n) eqn:E2.
  { apply andb_prop in E2 as [E2 E3]. apply (Hno _ eq_refl). destruct p; try done; cbn [mode_ok]; by rewrite E3, Eok. }
  assert (mode_ok p n = true) as ->.
  { destruct p; cbn [mode_ok]; rewrite ?Eok; cbn in E1, E2; try done.
    - by destruct (secondary n).
    - by destruct (secondary n).
    - by destruct (okForSecondaryQueries n).
    - by destruct (okForSecondaryQueries n). }
  clear Hno E1 E2. cbn [andb]. destruct (iterator_rep _ _ Hts) as (i & -> & Hi & _). cbn [bind].
  destruct da as [|f da]; [apply next_rep_end in Hi as (Hm & _); by rewrite Hm|].
  assert (more i = true) as Hm by (destruct f; by apply next_rep in Hi as (Hm & _)). rewrite Hm. cbn [negb].
  rewrite bool_decide_false by done. cbn [orb]. clear i Hi Hm.
  edestruct (for_elements_sim (R := bool)
    (fun _ nextTag =>
        let* b := isABSONObj nextTag in
        let* _ := uassert 16358 b in
        let* tag := embeddedObjectUserCheck nextTag in
        let* m := matchesTag n tag in
        Ok (if m then Return true else Continue tt))
    (fun (_ : unit) (g : field) => if from_option (doc_matches dn) false (sub_doc (snd g)) then Return true else Continue tt)
    (fun _ _ => True) (fun r r' => r = r') (_tags ts) (f :: da) tt tt Hts) as (st & -> & Hst); [|done|].
  - intros _ [] e k v _ Hok Hin _. rewrite List.Forall_forall in Hall. destruct (Hall (k, v) Hin) as [dv Hv]. cbn [snd] in *.
    assert (found (mem (data e)) e (Some (k, v))) as Hf by done.
    rewrite (isABSONObj_found _ _ _ Hf). unfold container. cbn [mbind option_bind snd]. rewrite Hv. cbn [uassert bind].
    destruct (userCheck_found _ _ _ dv Hf Hv) as (o & -> & Ho & _). cbn [bind].
    rewrite (matchesTag_rep dates n o dn dv Hn Ho Hdn).
    + cbn [bind from_option]. destruct (doc_matches dn dv); eexists; split; [done|by constructor|done|by constructor].
    + apply (container_dates dates (Some (k, v)) dv); [|done]. intros g [= <-].
      unfold doc_dates_ok in Hda. rewrite forallb_forall in Hda. by apply (Hda (k, v)).
  - cbn [finish]. clear -Hst Hall. revert st Hst. induction (f :: da) as [|g l IH]; intros st; cbn [run_fields].
    + by inversion 1.
    + apply Forall_cons_1 in Hall as [[dv Hv] Hall]. unfold tag_docs in *. cbn [omap list_omap]. rewrite Hv. cbn [from_option existsb].
      destruct (doc_matches dn dv); cbn [orb]; [inversion 1; by subst|by apply IH].
Qed.

Lemma isCompatible_correct_witness :
  isCompatible (sample_node "b" "ny" true 2) SecondaryOnly (MkTagSet BSONObj_empty true BSONObj_empty (MkSorted [] 0)) = Ok true.
Proof.
  rewrite (isCompatible_correct true (sample_node "b" "ny" true 2) SecondaryOnly
    (MkTagSet BSONObj_empty true BSONObj_empty (MkSorted [] 0)) (sample_reply "ny") []).
  - reflexivity.
  - by apply obj_of_rep.
  - reflexivity.
  - apply obj_rep_empty.
  - reflexivity.
  - apply Forall_nil_2.
Defined.
