(* ===== verification/Monitor.v ===== *)
(** * Monitor: the view a client has of a replica set
    (class ReplicaSetMonitor of client/dbclient_rs.h and client/dbclient_rs.cpp)

    The state of a monitor, and for each method what it does while it holds the
    lock of the monitor.  The methods as a whole, which give the lock back
    between these parts, are in MonitorThreads.v. *)

From stdpp Require Import base list numbers strings option sorting tactics.
From Stdlib Require Import Strings.Byte ZArith Lia.
From S2P Require Import Prelude Memory Decimal Double Text HostPort BsonTypes Format Element Obj Access Order Builder JsObj JsObjSpec ObjFields ReadPref NodeSelect.

(** ** The state *)

Record ReplicaSetMonitor := MkMonitor {
  _name : list byte;
  _nodes : list Node;
  _master : Z;
  _nextSlave : Z;
  _localThresholdMillis : Z;
  _lastReadPrefHost : HostAndPort;
  _failedChecks : Z
}.

Definition Monitor_new (name : list byte) (localThresholdMillis : Z) : ReplicaSetMonitor :=
  MkMonitor name [] (-1) 0 localThresholdMillis HostAndPort_empty 0.

Definition set_nodes (ns : list Node) (m : ReplicaSetMonitor) : ReplicaSetMonitor :=
  MkMonitor (_name m) ns (_master m) (_nextSlave m) (_localThresholdMillis m) (_lastReadPrefHost m) (_failedChecks m).
Definition set_master (v : Z) (m : ReplicaSetMonitor) : ReplicaSetMonitor :=
  MkMonitor (_name m) (_nodes m) v (_nextSlave m) (_localThresholdMillis m) (_lastReadPrefHost m) (_failedChecks m).
Definition set_nextSlave (v : Z) (m : ReplicaSetMonitor) : ReplicaSetMonitor :=
  MkMonitor (_name m) (_nodes m) (_master m) v (_localThresholdMillis m) (_lastReadPrefHost m) (_failedChecks m).
Definition set_lastReadPrefHost (h : HostAndPort) (m : ReplicaSetMonitor) : ReplicaSetMonitor :=
  MkMonitor (_name m) (_nodes m) (_master m) (_nextSlave m) (_localThresholdMillis m) h (_failedChecks m).
Definition set_failedChecks (v : Z) (m : ReplicaSetMonitor) : ReplicaSetMonitor :=
  MkMonitor (_name m) (_nodes m) (_master m) (_nextSlave m) (_localThresholdMillis m) (_lastReadPrefHost m) v.
Definition setLocalThresholdMillis (v : Z) (m : ReplicaSetMonitor) : ReplicaSetMonitor :=
  MkMonitor (_name m) (_nodes m) (_master m) (_nextSlave m) v (_lastReadPrefHost m) (_failedChecks m).

Definition set_ok (b : bool) (n : Node) : Node :=
  MkNode (addr n) (conn n) b (lastIsMaster n) (ismaster n) (secondary n) (hidden n) (pingTimeMillis n).
Definition set_conn (c : option (list byte)) (n : Node) : Node :=
  MkNode (addr n) c (ok n) (lastIsMaster n) (ismaster n) (secondary n) (hidden n) (pingTimeMillis n).
Definition set_ismaster (b : bool) (n : Node) : Node :=
  MkNode (addr n) (conn n) (ok n) (lastIsMaster n) b (secondary n) (hidden n) (pingTimeMillis n).

Definition size (m : ReplicaSetMonitor) : Z := zlen (_nodes m).

(** [_nodes\[i\]], read and changed; [i] is an [int] or an [unsigned]. *)
Definition at_node (i : Z) (m : ReplicaSetMonitor) : result Node :=
  if i <? 0 then Err IndexOutside else nth_node (_nodes m) (Z.to_nat i).

Definition change_node (f : Node -> Node) (i : Z) (m : ReplicaSetMonitor) : result ReplicaSetMonitor :=
  let* n := at_node i m in Ok (set_nodes (<[Z.to_nat i := f n]> (_nodes m)) m).

(** ** Addresses *)

Fixpoint seedString (servers : list HostAndPort) : list byte :=
  match servers with
  | [] => []
  | h :: r => host_toString true h ++ match r with [] => [] | _ => ","%byte :: seedString r end
  end.

Fixpoint append_addrs (i : nat) (ns : list Node) (ss : list byte) : list byte :=
  match ns with
  | [] => ss
  | n :: r =>
      let ss := if (0 <? i)%nat then ss ++ bstr "," else ss in
      append_addrs (S i) r (host_append (addr n) ss)
  end.

Definition _getServerAddress_inlock (m : ReplicaSetMonitor) : list byte :=
  append_addrs 0 (_nodes m) (if bool_decide (_name m = []) then [] else _name m ++ bstr "/").

(** A string compared with an address is made one. *)
Fixpoint find_from (i : Z) (ns : list Node) (server : list byte) : result Z :=
  match ns with
  | [] => Ok (-1)
  | n :: r =>
      let* h := HostAndPort_string server in
      if host_eq (addr n) h then Ok i else find_from (i + 1) r server
  end.

Definition _find_inlock (server : list byte) (m : ReplicaSetMonitor) : result Z := find_from 0 (_nodes m) server.

Definition contains (server : list byte) (m : ReplicaSetMonitor) : result bool :=
  let* i := _find_inlock server m in Ok (0 <=? i).

(** ** Failures that clients report *)

Definition notifyFailure (server : HostAndPort) (m : ReplicaSetMonitor) : result ReplicaSetMonitor :=
  if (_master m >=? 0) && (_master m <? size m) then
    let* n := at_node (_master m) m in
    if host_eq server (addr n) then
      let* m := change_node (set_ok false) (_master m) m in Ok (set_master (-1) m)
    else Ok m
  else Ok m.

Definition notifySlaveFailure (server : HostAndPort) (m : ReplicaSetMonitor) : result ReplicaSetMonitor :=
  let* x := _find_inlock (host_toString true server) m in
  if x >=? 0 then change_node (set_ok false) x m else Ok m.

(** ** The master *)

(** The first part of [getMaster]: the master known to be ok. *)
Definition getMaster_known (m : ReplicaSetMonitor) : result (option HostAndPort) :=
  let* _ := verify (_master m <? size m) in
  if _master m >=? 0 then let* n := at_node (_master m) m in Ok (if ok n then Some (addr n) else None)
  else Ok None.

(** The second part, after the check of the set. *)
Definition getMaster_checked (m : ReplicaSetMonitor) : result HostAndPort :=
  let* _ := uassert 10009 (_master m >=? 0) in
  let* _ := verify (_master m <? size m) in
  let* n := at_node (_master m) m in
  Ok (addr n).

(** ** A slave *)

(** [(_nextSlave + 1) % _nodes.size()] as an [int]. *)
Definition slave_after (m : ReplicaSetMonitor) : Z := s32 (u64 (_nextSlave m + 1) mod size m).

(** [k] turns are left; [inl]: the host to return. *)
Fixpoint getSlave_loop (k : nat) (preferLocal : bool) (fallbackNode : HostAndPort) (m : ReplicaSetMonitor)
    : ReplicaSetMonitor * result (HostAndPort + HostAndPort) :=
  match k with
  | O => (m, Ok (inr fallbackNode))
  | S k' =>
      let m := set_nextSlave (slave_after m) m in
      if _nextSlave m =? _master m then getSlave_loop k' preferLocal fallbackNode m
      else
        match at_node (_nextSlave m) m with
        | Err e => (m, Err e)
        | Ok n =>
            if okForSecondaryQueries n then
              if negb preferLocal || isLocalSecondary (_localThresholdMillis m) n then (m, Ok (inl (addr n)))
              else getSlave_loop k' preferLocal (addr n) m
            else getSlave_loop k' preferLocal fallbackNode m
        end
  end.

Definition getSlave (preferLocal : bool) (m : ReplicaSetMonitor) : ReplicaSetMonitor * result HostAndPort :=
  let '(m, r) := getSlave_loop (length (_nodes m)) preferLocal HostAndPort_empty m in
  (m, let* r := r in
      match r with
      | inl h => Ok h
      | inr fallbackNode =>
          if negb (host_empty fallbackNode) then Ok fallbackNode
          else
            let* usable :=
              if (_master m >=? 0) && (_master m <? size m) then let* n := at_node (_master m) m in Ok (ok n)
              else Ok false in
            let* _ := massert 15899 usable in
            let* n := at_node (_master m) m in
            Ok (addr n)
      end).

(** The first part of [getSlave(prev)]: whether [prev] is still good. *)
Definition getSlave_prev (prev : HostAndPort) (m : ReplicaSetMonitor) : result bool :=
  let* _ := verify (port prev >=? 0) in
  if bool_decide (host prev = []) then Ok false
  else
    match List.find (fun n => host_eq prev (addr n)) (_nodes m) with
    | Some n => Ok (okForSecondaryQueries n)
    | None => Ok false
    end.

(** ** Changes of the set *)

(** [std::set<string>::insert]. *)
Fixpoint string_insert (s : list byte) (l : list (list byte)) : list (list byte) :=
  match l with
  | [] => [s]
  | x :: l' =>
      if lex_cmp s x <? 0 then s :: l
      else if lex_cmp x s <? 0 then x :: string_insert s l'
      else l
  end.

(** The hosts to add, in order, and the positions of the nodes to remove. *)
Definition _getHostDiff_inlock (hostList : BSONObj) (m : ReplicaSetMonitor)
    : result (list (list byte) * list nat) :=
  let* '(added, found) :=
    finish Ok (for_elements hostList ([], []) (fun s e =>
      let '(added, found) := s in
      let* toCheck := Elem_String e in
      let* nodeIndex := _find_inlock toCheck m in
      Ok (Continue (if nodeIndex <? 0 then (string_insert toCheck added, found)
                    else (added, nodeIndex :: found))))) in
  Ok (added, List.filter (fun i => negb (existsb (Z.eqb (Z.of_nat i)) found)) (seq 0 (length (_nodes m)))).

(** The count of the hosts stops at the first that is not known. *)
Definition _shouldChangeHosts (hostList : BSONObj) (origHosts : Z) (m : ReplicaSetMonitor) : result bool :=
  let* '(numHosts, changed) :=
    finish (fun n => Ok (n, false)) (for_elements hostList 0 (fun n e =>
      let* toCheck := Elem_String e in
      let* index := _find_inlock toCheck m in
      Ok (if index >=? 0 then Continue (n + 1) else Return (n + 1, true)))) in
  Ok ((changed || negb (origHosts =? numHosts)) && (numHosts >? 0)).

(** Erasing from the end, so that the positions stay right. *)
Definition erase_nodes (removed : list nat) (ns : list Node) : list Node :=
  fold_left (fun ns i => delete i ns) (rev removed) ns.

(** [connect] makes a connection, or not; the nodes when it throws are those
    added before. *)
Fixpoint add_nodes (connect : HostAndPort -> option (list byte)) (added : list (list byte)) (ns : list Node)
    : list Node * result unit :=
  match added with
  | [] => (ns, Ok tt)
  | s :: r =>
      match HostAndPort_string s with
      | Err e => (ns, Err e)
      | Ok host =>
          let t := _type (ConnectionString_host host) in
          if bool_decide (t = MASTER) || bool_decide (t = CUSTOM)
          then add_nodes connect r (ns ++ [Node_new host (connect host)])
          else (ns, Err (UserAssert 16530))
      end
  end.

(** The part of [_checkHosts] in the lock: the monitor after it, whether it is
    changed and whether it threw. *)
Definition _checkHosts (connect : HostAndPort -> option (list byte)) (hostList : BSONObj) (m : ReplicaSetMonitor)
    : ReplicaSetMonitor * bool * result unit :=
  match _shouldChangeHosts hostList (size m) m with
  | Err e => (m, false, Err e)
  | Ok false => (m, false, Ok tt)
  | Ok true =>
      match _getHostDiff_inlock hostList m with
      | Err e => (m, false, Err e)
      | Ok (added, removed) =>
          if (0 <? length added)%nat || (0 <? length removed)%nat then
            let '(ns, r) := add_nodes connect added (erase_nodes removed (_nodes m)) in
            match r with
            | Err e => (set_nodes ns m, true, Err e)
            | Ok _ => (set_master (-1) (set_nodes ns m), true, Ok tt)
            end
          else (m, false, Err VerifyFailed)
      end
  end.

(** ** What the members report *)

(** Of a member in the reply to replSetGetStatus: its name, and whether it is
    healthy and primary or secondary. *)
Definition member_name (hi_next : BSONElement) : result (list byte) :=
  let* member := embeddedObjectUserCheck hi_next in
  let* e := getField member (bstr "name") in
  Elem_String e.

Definition is_double (x : Z) (n : Z) : bool := d_eqb x (d_of_Z n).

Definition member_ok (hi_next : BSONElement) : result bool :=
  let* member := embeddedObjectUserCheck hi_next in
  let* e := getField member (bstr "state") in
  let* state := Elem_Number e in
  let* e := getField member (bstr "health") in
  let* health := Elem_Number e in
  Ok (is_double health 1 && (is_double state 1 || is_double state 2)).

(** The array of members in the reply; [None] when it has none. *)
Definition status_members (status : BSONObj) : result (option BSONObj) :=
  let* h := hasField status (bstr "members") in
  if negb h then Ok None
  else
    let* e := getField status (bstr "members") in
    let* t := type e in
    if negb (bool_decide (t = Array)) then Ok None
    else let* o := embeddedObjectUserCheck e in Ok (Some o).

(** ** The reply to isMaster *)

Definition of_this_set (o : BSONObj) (name : list byte) : result bool :=
  let* e := getField o (bstr "setName") in
  let* t := type e in
  if bool_decide (t = BSONString) then let* s := Elem_String e in Ok (bool_decide (s = name)) else Ok false.

(** The moving average of the ping time, in [int]s. *)
Definition smooth_ping (ping commandTime : Z) : result Z :=
  if ping =? 0 then Ok commandTime
  else
    let d := commandTime - ping in
    let v := ping + Z.quot d 4 in
    if in_s 32 d && in_s 32 v then Ok v else Err UndefinedBehaviour.

Definition update_node (o : BSONObj) (commandTime : Z) (n : Node) : result Node :=
  let* ping := smooth_ping (pingTimeMillis n) commandTime in
  let* e := getField o (bstr "hidden") in
  let* h := trueValue e in
  let* e := getField o (bstr "secondary") in
  let* s := trueValue e in
  let* e := getField o (bstr "ismaster") in
  let* i := trueValue e in
  let* c := copy o in
  Ok (MkNode (addr n) (conn n) (ok n) c i s h ping).

Definition update_at (o : BSONObj) (commandTime : Z) (i : Z) (m : ReplicaSetMonitor) : result ReplicaSetMonitor :=
  let* n := at_node i m in
  let* n := update_node o commandTime n in
  Ok (set_nodes (<[Z.to_nat i := n]> (_nodes m)) m).

(** [while (it.more()) b.append(it.next())]. *)
Definition append_all_elems (o : BSONObj) (a : BSONArrayBuilder) : result BSONArrayBuilder :=
  finish Ok (for_elements o a (fun a e => let* a := arr_append_elem e a in Ok (Continue a))).

(** The hosts and the passive hosts that the reply lists. *)
Definition reported_hosts (o : BSONObj) : result BSONObj :=
  let* b := BSONArrayBuilder_new 512 in
  let* hosts := getField o (bstr "hosts") in
  let* t := type hosts in
  let* b := if bool_decide (t = Array) then
              let* h := embeddedObjectUserCheck hosts in append_all_elems h b
            else Ok b in
  let* h := hasField o (bstr "passives") in
  let* passives := getField o (bstr "passives") in
  let* t := type passives in
  let* b := if h && bool_decide (t = Array) then
              let* p := embeddedObjectUserCheck passives in append_all_elems p b
            else Ok b in
  arr_obj b.

(** [maybePrimary], set before the hosts are gone through. *)
Definition reported_primary (o : BSONObj) : result (option (list byte)) :=
  let* hosts := getField o (bstr "hosts") in
  let* t := type hosts in
  if bool_decide (t = Array) then
    let* p := getField o (bstr "primary") in
    let* t := type p in
    if bool_decide (t = BSONString) then let* s := Elem_String p in Ok (Some s) else Ok None
  else Ok None.

(** Whether the node at the offset still has this connection. *)
Definition _checkConnMatch_inlock (serverAddress : list byte) (nodeOffset : Z) (m : ReplicaSetMonitor) : bool :=
  match _nodes m !! Z.to_nat nodeOffset with
  | Some n => (0 <=? nodeOffset) && bytes_eqb serverAddress (host_toString true (addr n))
  | None => false
  end.

(** ** The end of a check that found no master *)

Definition no_master (checkAllSecondaries : bool) (m : ReplicaSetMonitor) : ReplicaSetMonitor :=
  let m := set_nodes (map (set_ismaster false) (_nodes m)) (set_master (-1) m) in
  if checkAllSecondaries then
    if isAnyNodeOk (_nodes m) then set_failedChecks 0 m else set_failedChecks (_failedChecks m + 1) m
  else m.

(** ** The state as an object *)

Definition append_node_info (a : BSONArrayBuilder) (n : Node) : result BSONArrayBuilder :=
  let* b := BSONObjBuilder_new 512 in
  let* b := append_string (bstr "addr") (host_toString true (addr n)) b in
  let* b := append_bool (bstr "ok") (ok n) b in
  let* b := append_bool (bstr "ismaster") (ismaster n) b in
  let* b := append_bool (bstr "hidden") (hidden n) b in
  let* b := append_bool (bstr "secondary") (secondary n) b in
  let* b := append_int (bstr "pingTimeMillis") (pingTimeMillis n) b in
  let* b := append_tags n b in
  let* o := obj b in
  arr_append (fun name => append_obj name o) a.

Fixpoint append_nodes_info (ns : list Node) (a : BSONArrayBuilder) : result BSONArrayBuilder :=
  match ns with
  | [] => Ok a
  | n :: r => let* a := append_node_info a n in append_nodes_info r a
  end.

Definition appendInfo (m : ReplicaSetMonitor) (b : BSONObjBuilder) : result BSONObjBuilder :=
  let* sub := subarrayStart (bstr "hosts") b in
  let* hosts := BSONArrayBuilder_on (_b sub) in
  let* hosts := append_nodes_info (_nodes m) hosts in
  let* b := sub_done sub (arr_b hosts) in
  let* b := append_int (bstr "master") (_master m) b in
  append_int (bstr "nextSlave") (_nextSlave m) b.

(** [selectNode] on the nodes of the monitor: what it returns, and the host it
    remembers. *)
Definition select_inlock (preference : ReadPreference) (ts : TagSet) (m : ReplicaSetMonitor)
    : result (Selection * TagSet * ReplicaSetMonitor) :=
  let* '(s, ts) := selectNode (_nodes m) preference ts (_localThresholdMillis m) (_lastReadPrefHost m) in
  Ok (s, ts, set_lastReadPrefHost (lastHost s) m).

(** ** The addresses, as a connection string *)

Lemma seedString_join hs : seedString hs = join_hosts hs.
Proof.
  unfold join_hosts. induction hs as [|h hs IH]; [done|]. cbn [seedString map joinStringDelim].
  rewrite IH. destruct hs; [by rewrite app_nil_r|done].
Qed.

Lemma append_addrs_join ns : forall i ss, append_addrs i ns ss =
  ss ++ (if (0 <? i)%nat then match ns with [] => [] | _ => bstr "," end else []) ++ join_hosts (map addr ns).
Proof.
  induction ns as [|n ns IH]; intros i ss.
  - cbn [append_addrs map]. destruct (0 <? i)%nat; by rewrite app_nil_r.
  - cbn [append_addrs]. rewrite IH. cbn [Nat.ltb Nat.leb].
    assert (forall s, host_append (addr n) s = s ++ host_toString true (addr n)) as Ha.
    { intros s. unfold host_toString, host_append. cbn [app]. destruct (negb _); by rewrite <- ?app_assoc. }
    rewrite Ha. unfold join_hosts. cbn [map joinStringDelim].
    destruct i; destruct ns as [|n' ns]; cbn [map]; rewrite <- ?app_assoc; cbn; by rewrite ?app_nil_r.
Qed.

(** The address of a named set is the connection string of its members. *)
Theorem server_address_correct m : _name m <> [] ->
  _getServerAddress_inlock m = conn_toString (_finishInit (MkConn SET (map addr (_nodes m)) [] (_name m))).
Proof.
  intros Hn. unfold _getServerAddress_inlock. rewrite bool_decide_false by done.
  rewrite append_addrs_join. unfold conn_toString, _finishInit. cbn [_type _servers _setName _string].
  rewrite bool_decide_true by done. change (0 <? 0)%nat with false. done.
Qed.

Lemma server_address_correct_witness :
  _getServerAddress_inlock (set_nodes [Node_new (MkHost (bstr "a") 1) None; Node_new (MkHost (bstr "b") (-1)) None]
    (Monitor_new (bstr "rs") 15)) = bstr "rs/a:1,b:27017".
Proof. rewrite server_address_correct; [vm_compute; reflexivity|done]. Defined.

(** ** Looking a host up *)

Lemma find_from_spec ns server h : HostAndPort_string server = Ok h -> forall i,
  find_from i ns server = Ok (match index_of h ns 0 with Some k => i + Z.of_nat k | None => -1 end).
Proof.
  intros Hh. induction ns as [|n ns IH]; intros i; [done|]. cbn [find_from index_of]. rewrite Hh. cbn [bind].
  replace (host_eq (addr n) h) with (host_eq h (addr n)).
  2: { unfold host_eq. rewrite (Z.eqb_sym (port h)). f_equal. apply bool_decide_ext. by split. }
  destruct (host_eq h (addr n)); [f_equal; lia|]. rewrite IH.
  assert (forall x, index_of h ns (S x) = S <$> index_of h ns x) as Hs.
  { clear. induction ns as [|n ns IH]; intros x; [done|]. cbn [index_of]. destruct (host_eq h (addr n)); [done|]. apply IH. }
  rewrite Hs. destruct (index_of h ns 0); cbn [fmap option_fmap option_map]; f_equal; lia.
Qed.

Lemma index_of_some h ns k : index_of h ns 0 = Some k -> exists n, ns !! k = Some n /\ host_eq h (addr n) = true.
Proof.
  assert (forall x, index_of h ns x = Some k -> exists n, (x <= k)%nat /\ ns !! (k - x)%nat = Some n /\ host_eq h (addr n) = true) as H.
  { induction ns as [|n ns IH]; intros x; [done|]. cbn [index_of]. destruct (host_eq h (addr n)) eqn:E.
    - intros [= ->]. exists n. rewrite Nat.sub_diag. done.
    - intros (m & Hle & Hm & He)%IH. exists m. split; [lia|]. split; [|done].
      replace (k - x)%nat with (S (k - S x)) by lia. done. }
  intros (n & _ & Hn & He)%H. exists n. by rewrite Nat.sub_0_r in Hn.
Qed.

Lemma index_of_none h ns : index_of h ns 0 = None <-> forall n, In n ns -> host_eq h (addr n) = false.
Proof.
  generalize 0%nat as x. induction ns as [|n ns IH]; intros x; cbn [index_of]; [by split|].
  destruct (host_eq h (addr n)) eqn:E.
  - split; [done|]. intros H. specialize (H n ltac:(by left)). congruence.
  - rewrite IH. split; intros H; [intros m [<- |Hm]; [done|by apply H]|intros m Hm; apply H; by right].
Qed.

(** ** The slave that is chosen *)

Definition numbered (ns : list Node) : list (Z * Node) := imap (fun i n => (Z.of_nat i, n)) ns.

Section slave.
Context (preferLocal : bool) (thr master : Z).

Definition slave_ok (p : Z * Node) : bool := negb (fst p =? master) && okForSecondaryQueries (snd p).
Definition slave_near (p : Z * Node) : bool := negb preferLocal || isLocalSecondary thr (snd p).

(** Where the search stops. *)
Definition stops_at (l : list (Z * Node)) (from : Z) : Z :=
  match List.find (fun p => slave_ok p && slave_near p) l with
  | Some (i, _) => i
  | None => match list.last l with Some (i, _) => i | None => from end
  end.

Definition fallback_of (l : list (Z * Node)) (h : HostAndPort) : HostAndPort :=
  match list.last (List.filter slave_ok l) with Some (_, n) => addr n | None => h end.
End slave.

Lemma numbered_lookup ns i : numbered ns !! i = (fun n => (Z.of_nat i, n)) <$> ns !! i.
Proof. unfold numbered. by rewrite list_lookup_imap. Qed.

Lemma numbered_length ns : length (numbered ns) = length ns.
Proof. apply length_imap. Qed.

Lemma slave_after_spec m : 0 <= _nextSlave m < 2 ^ 31 -> 0 < size m <= 2 ^ 31 ->
  slave_after m = Z.of_nat (S (Z.to_nat (_nextSlave m)) mod length (_nodes m)).
Proof.
  intros Hn Hs. unfold slave_after, size, zlen in *. rewrite (wrap_u_small 64) by (cbn; lia).
  assert (0 <= (_nextSlave m + 1) mod Z.of_nat (length (_nodes m)) < Z.of_nat (length (_nodes m))) as Hr
    by (apply Z.mod_pos_bound; lia).
  rewrite (wrap_s_small 32) by (cbn; lia). rewrite Nat2Z.inj_mod. f_equal. lia.
Qed.

Lemma getSlave_loop_spec k : forall preferLocal fb m,
  0 <= _nextSlave m < 2 ^ 31 -> 0 < size m <= 2 ^ 31 ->
  let thr := _localThresholdMillis m in let master := _master m in
  let l := visits k (numbered (_nodes m)) (Z.to_nat (_nextSlave m)) in
  getSlave_loop k preferLocal fb m =
  (set_nextSlave (stops_at preferLocal thr master l (_nextSlave m)) m,
   Ok (match List.find (fun p => slave_ok master p && slave_near preferLocal thr p) l with
       | Some (_, n) => inl (addr n)
       | None => inr (fallback_of master l fb)
       end)).
Proof.
  induction k as [|k IH]; intros pl fb m Hn Hs thr master l; [by destruct m|].
  cbn [getSlave_loop]. rewrite (slave_after_spec m Hn Hs). subst l. cbn [visits].
  rewrite numbered_length. set (j := (S (Z.to_nat (_nextSlave m)) mod length (_nodes m))%nat).
  assert (j < length (_nodes m))%nat as Hj by (apply Nat.mod_upper_bound; unfold size, zlen in Hs; lia).
  destruct (lookup_lt_is_Some_2 (_nodes m) j Hj) as [n Hat]. rewrite numbered_lookup, Hat. cbn [fmap option_fmap option_map].
  set (m' := set_nextSlave (Z.of_nat j) m).
  assert (at_node (_nextSlave m') m' = Ok n) as ->.
  { unfold at_node, nth_node. cbn [m' _nextSlave set_nextSlave _nodes].
    destruct (Z.ltb_spec (Z.of_nat j) 0); [lia|]. by rewrite Nat2Z.id, Hat. }
  unfold size, zlen in Hs.
  specialize (IH pl) as IH'. pose proof (fun fb => IH' fb m' ltac:(cbn; lia) ltac:(unfold size, zlen; cbn; lia)) as IH2.
  cbv zeta in IH2. cbn [m' _nextSlave set_nextSlave _nodes _master _localThresholdMillis] in IH2. fold m' in IH2.
  rewrite Nat2Z.id in IH2. fold thr master in IH2.
  set (rest := visits k (numbered (_nodes m)) j) in *.
  assert (forall fb, slave_ok master (Z.of_nat j, n) = false ->
    getSlave_loop k pl fb m' =
    (set_nextSlave (stops_at pl thr master ((Z.of_nat j, n) :: rest) (_nextSlave m)) m,
     Ok (match List.find (fun p => slave_ok master p && slave_near pl thr p) ((Z.of_nat j, n) :: rest) with
       | Some (_, n) => inl (addr n)
       | None => inr (fallback_of master ((Z.of_nat j, n) :: rest) fb)
       end))) as Hskip.
  { intros fb' Hno. rewrite IH2. unfold stops_at, fallback_of. cbn [List.find List.filter]. rewrite Hno. cbn [andb].
    f_equal. unfold set_nextSlave. cbn. f_equal. destruct (List.find _ rest) as [[? ?]|]; [done|].
    rewrite last_cons. by destruct (list.last rest) as [[? ?]|]. }
  change (_nextSlave m' =? _master m') with (Z.of_nat j =? master).
  destruct (Z.of_nat j =? master) eqn:Em; [apply Hskip; unfold slave_ok; cbn; by rewrite Em|].
  destruct (okForSecondaryQueries n) eqn:Eok; [|apply Hskip; unfold slave_ok; cbn; by rewrite Eok, andb_false_r].
  assert (slave_ok master (Z.of_nat j, n) = true) as Hok by (unfold slave_ok; cbn; by rewrite Em, Eok).
  change (negb pl || isLocalSecondary (_localThresholdMillis m') n) with (slave_near pl thr (Z.of_nat j, n)).
  unfold stops_at, fallback_of. cbn [List.find List.filter]. rewrite Hok. cbn [andb].
  destruct (slave_near pl thr (Z.of_nat j, n)); [done|]. rewrite IH2. unfold stops_at, fallback_of.
  f_equal.
  - unfold set_nextSlave. cbn. f_equal. destruct (List.find _ rest) as [[? ?]|]; [done|].
    rewrite last_cons. by destruct (list.last rest) as [[? ?]|].
  - f_equal. destruct (List.find _ rest) as [[? ?]|]; [done|]. rewrite last_cons.
    by destruct (list.last (List.filter (slave_ok master) rest)) as [[? ?]|].
Qed.

Definition usable_master (m : ReplicaSetMonitor) : option Node :=
  if _master m <? 0 then None
  else match _nodes m !! Z.to_nat (_master m) with Some n => if ok n then Some n else None | None => None end.

(** getSlave goes round the members from the one after the last, passing over
    the master: it gives the first that is ok, a secondary, not hidden and, when
    that is asked for, near, otherwise the last that is only not near, otherwise
    the master if it is ok, and throws 15899 only when there is no such member. *)
Theorem getSlave_correct preferLocal m :
  Forall (fun n => host_empty (addr n) = false) (_nodes m) -> 0 <= _nextSlave m < 2 ^ 31 -> size m <= 2 ^ 31 ->
  let thr := _localThresholdMillis m in
  let l := rotate (S (Z.to_nat (_nextSlave m))) (numbered (_nodes m)) in
  getSlave preferLocal m =
  (set_nextSlave (stops_at preferLocal thr (_master m) l (_nextSlave m)) m,
   match choose (slave_near preferLocal thr) (slave_ok (_master m)) l with
   | Some (_, n) => Ok (addr n)
   | None => match usable_master m with Some n => Ok (addr n) | None => Err (MsgAssert 15899) end
   end).
Proof.
  intros Ha Hn Hs thr l. unfold getSlave.
  assert (getSlave_loop (length (_nodes m)) preferLocal HostAndPort_empty m =
    (set_nextSlave (stops_at preferLocal thr (_master m) l (_nextSlave m)) m,
     Ok (match List.find (fun p => slave_ok (_master m) p && slave_near preferLocal thr p) l with
         | Some (_, n) => inl (addr n)
         | None => inr (fallback_of (_master m) l HostAndPort_empty)
         end))) as ->.
  { subst l. destruct (decide (_nodes m = [])) as [E|Hne]; [rewrite E; by destruct m|].
    rewrite getSlave_loop_spec; [|done|].
    - rewrite <- (numbered_length (_nodes m)), visits_rotate. done.
    - split; [|done]. unfold size, zlen. destruct (_nodes m); [done|]. cbn. lia. }
  f_equal. unfold choose. destruct (List.find _ l) as [[i n]|]; [done|]. cbn [bind]. unfold fallback_of.
  destruct (list.last (List.filter (slave_ok (_master m)) l)) as [[i n]|] eqn:El; cbn [bind].
  - assert (host_empty (addr n) = false) as ->; [|done].
    apply last_Some in El as [l' El].
    assert (In (i, n) (List.filter (slave_ok (_master m)) l)) as [Hin _]%filter_In
      by (rewrite El; apply in_or_app; right; by left).
    subst l. apply list_elem_of_In, elem_of_rotate, list_elem_of_lookup in Hin as [j Hj].
    rewrite numbered_lookup in Hj. destruct (_nodes m !! j) as [n'|] eqn:Ej; [|done]. cbn in Hj. simplify_eq.
    by apply (Forall_lookup_1 _ _ _ _ Ha Ej).
  - unfold usable_master, at_node, nth_node, size. cbn [set_nextSlave _master _nodes].
    change (negb (host_empty HostAndPort_empty)) with false. cbv iota. rewrite Z.geb_leb.
    destruct (Z.ltb_spec (_master m) 0) as [Hneg|Hneg]; [by replace (0 <=? _master m) with false by lia|].
    replace (0 <=? _master m) with true by lia. cbn [andb]. unfold zlen.
    destruct (Z.ltb_spec (_master m) (Z.of_nat (length (_nodes m)))) as [Hlt|Hge].
    + destruct (lookup_lt_is_Some_2 (_nodes m) (Z.to_nat (_master m))) as [n Hat]; [lia|]. rewrite Hat. cbn [bind].
      destruct (ok n); [|done]. cbn [massert bind]. done.
    + rewrite lookup_ge_None_2 by lia. done.
Qed.

Lemma getSlave_correct_witness :
  let m := set_nodes [sample_node "a" "ny" false 1; sample_node "b" "ny" true 30; sample_node "c" "ny" true 2]
             (set_master 0 (Monitor_new (bstr "rs") 15)) in
  getSlave true m = (set_nextSlave 2 m, Ok (MkHost (bstr "c") 27017)).
Proof.
  intros m. rewrite (getSlave_correct true m).
  - vm_compute. reflexivity.
  - repeat (apply Forall_cons_2; [reflexivity|]). apply Forall_nil_2.
  - split; reflexivity || discriminate.
  - discriminate.
Defined.

(** ** The average of the ping time *)

(** The smoothed ping time lies between the old one and the new sample, and so
    never overflows. *)
Theorem smooth_ping_bounds ping commandTime :
  0 <= ping < 2 ^ 31 -> 0 <= commandTime < 2 ^ 31 ->
  exists v, smooth_ping ping commandTime = Ok v /\ Z.min ping commandTime <= v <= Z.max ping commandTime.
Proof.
  intros Hp Hc. unfold smooth_ping. destruct (Z.eqb_spec ping 0); [exists commandTime; split; [done|lia]|].
  assert (Z.min ping commandTime <= ping + Z.quot (commandTime - ping) 4 <= Z.max ping commandTime) as Hb.
  { destruct (Z.le_gt_cases ping commandTime).
    - pose proof (Z.quot_pos (commandTime - ping) 4). pose proof (Z.quot_le_upper_bound (commandTime - ping) 4 (commandTime - ping)). lia.
    - rewrite <- (Z.opp_involutive (commandTime - ping)), Z.quot_opp_l by lia.
      pose proof (Z.quot_pos (- (commandTime - ping)) 4).
      pose proof (Z.quot_le_upper_bound (- (commandTime - ping)) 4 (- (commandTime - ping))). lia. }
  eexists. split; [|exact Hb]. unfold in_s. change (2 ^ (32 - 1)) with (2 ^ 31).
  destruct (Z.leb_spec (- 2 ^ 31) (commandTime - ping)); [|lia].
  destruct (Z.ltb_spec (commandTime - ping) (2 ^ 31)); [|lia].
  destruct (Z.leb_spec (- 2 ^ 31) (ping + Z.quot (commandTime - ping) 4)); [|lia].
  destruct (Z.ltb_spec (ping + Z.quot (commandTime - ping) 4) (2 ^ 31)); [|lia]. done.
Qed.

Lemma smooth_ping_bounds_witness : exists v, smooth_ping 100 20 = Ok v /\ 20 <= v <= 100.
Proof. apply (smooth_ping_bounds 100 20); lia. Defined.

(** ** The list of hosts *)

Lemma string_insert_in s l x : In x (string_insert s l) <-> x = s \/ In x l.
Proof.
  induction l as [|y l IH]; cbn [string_insert]; [cbn; intuition congruence|].
  destruct (Z.ltb_spec (lex_cmp s y) 0); [cbn; intuition congruence|].
  destruct (Z.ltb_spec (lex_cmp y s) 0).
  - cbn [In]. rewrite IH. intuition congruence.
  - assert (s = y) as -> by (apply lex_cmp_eq; rewrite (lex_cmp_antisym s y) in *; lia). cbn [In]. intuition congruence.
Qed.

Lemma string_insert_sorted s l : StronglySorted (fun a b => lex_cmp a b < 0) l ->
  StronglySorted (fun a b => lex_cmp a b < 0) (string_insert s l).
Proof.
  induction 1 as [|y l Hl IH Hy]; cbn [string_insert]; [by repeat constructor|].
  destruct (Z.ltb_spec (lex_cmp s y) 0) as [Hlt|Hge].
  - constructor; [by constructor|]. constructor; [done|]. eapply List.Forall_impl; [|exact Hy].
    intros z Hz. by apply (lex_cmp_lt_trans s y z).
  - destruct (Z.ltb_spec (lex_cmp y s) 0) as [Hlt|]; [|by constructor].
    constructor; [done|]. rewrite List.Forall_forall in Hy |- *. intros z [-> |Hz]%string_insert_in; [done|by apply Hy].
Qed.

Lemma sorted_NoDup l : StronglySorted (fun a b => lex_cmp a b < 0) l -> NoDup l.
Proof.
  induction 1 as [|y l _ IH Hy]; [apply NoDup_nil_2|]. apply NoDup_cons_2; [|done]. intros Hin.
  rewrite List.Forall_forall in Hy. specialize (Hy y (proj1 (list_elem_of_In _ _) Hin)). rewrite lex_cmp_refl in Hy. lia.
Qed.

(** The string and the address that an element of the list stands for. *)
Definition host_name (f : field) : list byte := match snd f with VString t => c_str t | _ => [] end.
Definition host_of (f : field) : option HostAndPort :=
  match snd f with
  | VString t => match HostAndPort_string (c_str t) with Ok h => Some h | Err _ => None end
  | _ => None
  end.

Lemma host_of_rep e n v h : elem_ok e n v -> host_of (n, v) = Some h ->
  Elem_String e = Ok (host_name (n, v)) /\ HostAndPort_string (host_name (n, v)) = Ok h.
Proof.
  intros Hok Hh. unfold host_of, host_name in *. cbn [snd] in *. destruct v; try done.
  rewrite (Elem_String_rep _ _ _ Hok). split; [done|]. by destruct (HostAndPort_string (c_str s)); simplify_eq.
Qed.

Section host_list.
Context (hostList : BSONObj) (d : doc) (m : ReplicaSetMonitor).
Hypothesis Hrep : obj_rep hostList d.
Hypothesis Hhosts : Forall (fun f => is_Some (host_of f)) d.

Definition listed : list HostAndPort := omap host_of d.
Definition position (h : HostAndPort) : option nat := index_of h (_nodes m) 0.
Definition known (f : field) : bool :=
  match host_of f with Some h => match position h with Some _ => true | None => false end | None => false end.

Lemma find_listed e n v h : elem_ok e n v -> host_of (n, v) = Some h ->
  Elem_String e = Ok (host_name (n, v)) /\
  _find_inlock (host_name (n, v)) m = Ok (match position h with Some k => Z.of_nat k | None => -1 end).
Proof.
  intros Hok Hh. destruct (host_of_rep _ _ _ _ Hok Hh) as [H1 H2]. split; [done|].
  unfold _find_inlock. rewrite (find_from_spec _ _ h H2). unfold position. by destruct (index_of h (_nodes m) 0).
Qed.

Lemma host_of_listed f : In f d -> exists h, host_of f = Some h /\ In h listed.
Proof.
  intros Hin. rewrite List.Forall_forall in Hhosts. destruct (Hhosts f Hin) as [h Hh]. exists h. split; [done|].
  unfold listed. apply list_elem_of_In, list_elem_of_omap. exists f. by rewrite list_elem_of_In.
Qed.

Lemma listed_host h : In h listed -> exists f, In f d /\ host_of f = Some h.
Proof.
  unfold listed. rewrite <- list_elem_of_In, list_elem_of_omap. intros (f & Hf & Hh). exists f. by rewrite <- list_elem_of_In.
Qed.

Lemma listed_length : length listed = length d.
Proof.
  unfold listed. clear Hrep. induction d as [|f d' IH]; [done|]. apply Forall_cons_1 in Hhosts as [[h Hh] Hr].
  cbn [omap list_omap]. rewrite Hh. cbn. by rewrite IH.
Qed.

Lemma should_change_rep orig : _shouldChangeHosts hostList orig m =
  Ok (negb (bool_decide (d = [])) && (negb (forallb known d) || negb (orig =? zlen d))).
Proof.
  unfold _shouldChangeHosts.
  edestruct (for_elements_sim (R := Z * bool)
    (fun n e =>
      let* toCheck := Elem_String e in
      let* index := _find_inlock toCheck m in
      Ok (if index >=? 0 then Continue (n + 1) else Return (n + 1, true)))
    (fun n f => if known f then Continue (n + 1) else Return (n + 1, true))
    (fun n n' => n = n') (fun r r' => r = r') hostList d 0 0 Hrep) as (st & -> & Hst); [|done|].
  - intros n n' e k v -> Hok Hin _. destruct (host_of_listed _ Hin) as (h & Hh & _).
    destruct (find_listed _ _ _ _ Hok Hh) as [-> Hf]. cbn [bind]. rewrite Hf. cbn [bind]. unfold known. rewrite Hh.
    destruct (position h) as [p|]; eexists; (split; [done|]).
    + replace (Z.of_nat p >=? 0) with true by (symmetry; apply Z.geb_le; lia). by constructor.
    + by constructor.
  - assert (forall n, 0 <= n -> forall st, step_rel (fun n n' => n = n') (fun r r' : Z * bool => r = r') st
        (run_fields (fun n f => if known f then Continue (n + 1) else Return (n + 1, true)) d n) ->
      exists c k, finish (fun n => Ok (n, false)) (Ok st) = Ok (k, c) /\ c = negb (forallb known d) /\
        n <= k /\ (d <> [] -> n < k) /\ (c = false -> k = n + zlen d)) as Hrun.
    { clear. induction d as [|f d' IH]; intros n Hn st; cbn [run_fields forallb].
      - inversion 1; subst. exists false, n. split; [done|]. split; [done|]. split; [lia|]. split; [done|].
        intros _. rewrite zlen_nil. lia.
      - destruct (known f); cbn [andb].
        + intros H. destruct (IH (n + 1) ltac:(lia) st H) as (c & k & H1 & H2 & H3 & H4 & H5). exists c, k.
          split; [done|]. split; [done|]. split; [lia|]. split; [lia|]. intros Hc. rewrite zlen_cons, (H5 Hc). lia.
        + inversion 1; subst. exists true, (n + 1). split; [done|]. split; [done|]. split; [lia|]. split; [lia|done]. }
    destruct (Hrun 0 ltac:(lia) st Hst) as (c & k & -> & Hc & Hk & Hk' & Hlen). cbn [bind]. f_equal.
    case_bool_decide as Ed.
    + subst d. cbn in Hc. subst c. rewrite (Hlen eq_refl). cbn. by rewrite andb_false_r.
    + specialize (Hk' Ed). replace (k >? 0) with true by (symmetry; apply Z.gtb_lt; lia). rewrite andb_true_r. cbn [negb andb]. rewrite <- Hc.
      destruct c; [done|]. cbn [orb]. by rewrite (Hlen eq_refl), Z.add_0_l.
Qed.

(** A position that some listed host has, and the unknown hosts. *)
Definition is_position (seen : doc) (i : nat) : bool :=
  existsb (fun f => match host_of f with Some h => bool_decide (position h = Some i) | None => false end) seen.

Lemma diff_rep : exists added,
  _getHostDiff_inlock hostList m = Ok (added, List.filter (fun i => negb (is_position d i)) (seq 0 (length (_nodes m)))) /\
  StronglySorted (fun a b => lex_cmp a b < 0) added /\
  (forall s, In s added <-> exists f, In f d /\ known f = false /\ s = host_name f).
Proof.
  unfold _getHostDiff_inlock.
  edestruct (for_elements_inv (R := list (list byte) * list Z)
    (fun s e =>
      let '(added, found) := s in
      let* toCheck := Elem_String e in
      let* nodeIndex := _find_inlock toCheck m in
      Ok (Continue (if nodeIndex <? 0 then (string_insert toCheck added, found) else (added, nodeIndex :: found))))
    (fun seen s => StronglySorted (fun a b => lex_cmp a b < 0) (fst s) /\
      (forall x, In x (fst s) <-> exists f, In f seen /\ known f = false /\ x = host_name f) /\
      forall i, existsb (Z.eqb (Z.of_nat i)) (snd s) = is_position seen i) d hostList ([], []) Hrep)
    as ([added found] & -> & Hs & Ha & Hf).
  - intros pre n v post [added found] e Hall (Hs & Ha & Hf) Hok _. cbn [fst snd] in *.
    assert (In (n, v) d) as Hin by (rewrite Hall; apply in_or_app; right; by left).
    destruct (host_of_listed _ Hin) as (h & Hh & _).
    destruct (find_listed _ _ _ _ Hok Hh) as [-> Hfi]. cbn [bind]. rewrite Hfi. cbn [bind].
    eexists. split; [reflexivity|].
    assert (known (n, v) = match position h with Some _ => true | None => false end) as Hk by (unfold known; by rewrite Hh).
    assert (forall i, is_position (pre ++ [(n, v)]) i = is_position pre i || bool_decide (position h = Some i)) as Hp.
    { intros i. unfold is_position. rewrite existsb_app. cbn [existsb]. by rewrite Hh, orb_false_r. }
    destruct (position h) as [p|].
    + destruct (Z.ltb_spec (Z.of_nat p) 0); [lia|]. cbn [fst snd]. split; [done|]. split.
      * intros x. rewrite Ha. split; intros (f & Hfin & Hkf & ->); exists f; (split; [|done]).
        -- apply in_or_app. by left.
        -- apply in_app_or in Hfin as [?|[<- |[]]]; [done|congruence].
      * intros i. cbn [existsb]. rewrite Hp, Hf, orb_comm. f_equal.
        destruct (Z.eqb_spec (Z.of_nat i) (Z.of_nat p)) as [E|E]; symmetry; [apply bool_decide_eq_true|apply bool_decide_eq_false];
          [f_equal; lia|intros [= ->]; lia].
    + change (-1 <? 0) with true. cbn [fst snd]. split; [by apply string_insert_sorted|]. split.
      * intros x. rewrite string_insert_in, Ha. split.
        -- intros [-> |(f & Hfin & Hkf & ->)]; [exists (n, v)|exists f]; (split; [apply in_or_app|done]); [right; by left|by left].
        -- intros (f & [Hfin|[<- |[]]]%in_app_or & Hkf & ->); [right; by exists f|by left].
      * intros i. rewrite Hp, Hf. by rewrite orb_false_r.
  - split; [constructor|]. split; [|done]. intros x. split; [done|]. by intros (f & [] & _).
  - cbn [finish bind fst snd] in *. exists added. split; [|done]. do 2 f_equal. apply List.filter_ext. intros i. by rewrite Hf.
Qed.
End host_list.

(** ** Erasing *)

Fixpoint kept {A} (gone : nat -> bool) (i : nat) (l : list A) : list A :=
  match l with
  | [] => []
  | x :: r => if gone i then kept gone (S i) r else x :: kept gone (S i) r
  end.

Lemma kept_snoc {A} gone (l : list A) x : forall i,
  kept gone i (l ++ [x]) = kept gone i l ++ (if gone (i + length l)%nat then [] else [x]).
Proof.
  induction l as [|y l IH]; intros i; cbn [app kept length].
  - rewrite Nat.add_0_r. by destruct (gone i).
  - rewrite IH, Nat.add_succ_r. by destruct (gone i).
Qed.

Lemma erase_kept gone (a : list Node) : forall b,
  erase_nodes (List.filter gone (seq 0 (length a))) (a ++ b) = kept gone 0 a ++ b.
Proof.
  unfold erase_nodes. induction a as [|x a IH] using rev_ind; intros b; [done|].
  rewrite length_app. cbn [length]. rewrite Nat.add_1_r, seq_S, List.filter_app, rev_app_distr. cbn [List.filter].
  rewrite kept_snoc. cbn [Nat.add]. rewrite <- !app_assoc. destruct (gone (length a)); cbn [rev app fold_left].
  - rewrite delete_middle. apply IH.
  - by rewrite (IH (x :: b)).
Qed.

(** ** Adding *)

(** The assertion 16530 never fails: a connection string of one host is single. *)
Lemma one_host_single h : _type (ConnectionString_host h) = MASTER \/ _type (ConnectionString_host h) = CUSTOM.
Proof. unfold ConnectionString_host, _finishInit. cbn. destruct (starts_dollar (host h)); auto. Qed.

Definition parsed (s : list byte) : HostAndPort :=
  match HostAndPort_string s with Ok h => h | Err _ => HostAndPort_empty end.

Lemma add_nodes_ok connect added : forall ns, (forall s, In s added -> exists h, HostAndPort_string s = Ok h) ->
  add_nodes connect added ns = (ns ++ map (fun s => Node_new (parsed s) (connect (parsed s))) added, Ok tt).
Proof.
  induction added as [|s added IH]; intros ns Hp; cbn [add_nodes map]; [by rewrite app_nil_r|].
  destruct (Hp s ltac:(by left)) as [h Hh]. assert (parsed s = h) as -> by (unfold parsed; by rewrite Hh). rewrite Hh.
  assert (bool_decide (_type (ConnectionString_host h) = MASTER) || bool_decide (_type (ConnectionString_host h) = CUSTOM) = true) as ->.
  { destruct (one_host_single h) as [-> | ->]; done. }
  rewrite IH by (intros x Hx; apply Hp; by right). by rewrite <- app_assoc.
Qed.

(** ** The set after a change *)

(** No two addresses are equal; no two nodes have equal addresses. *)
Definition distinct_hosts (hs : list HostAndPort) : Prop := forall i j a b,
  hs !! i = Some a -> hs !! j = Some b -> host_eq a b = true -> i = j.
Definition distinct_nodes (ns : list Node) : Prop := distinct_hosts (map addr ns).

(** The nodes are the hosts. *)
Definition same_hosts (hs : list HostAndPort) (ns : list Node) : Prop :=
  (forall h, In h hs -> exists n, In n ns /\ host_eq h (addr n) = true) /\
  (forall n, In n ns -> exists h, In h hs /\ host_eq h (addr n) = true).

Lemma host_eq_sym a b : host_eq a b = true -> host_eq b a = true.
Proof. intros H. assert (a ≡ b) as H' by exact H. change (b ≡ a). by symmetry. Qed.
Lemma host_eq_trans a b c : host_eq a b = true -> host_eq b c = true -> host_eq a c = true.
Proof. intros H H'. assert (a ≡ b) as H1 by exact H. assert (b ≡ c) as H2 by exact H'. change (a ≡ c). by transitivity b. Qed.

Lemma distinct_cons h hs : distinct_hosts (h :: hs) -> distinct_hosts hs /\ forall x, In x hs -> host_eq h x = false.
Proof.
  intros H. split.
  - intros i j a b Hi Hj He. specialize (H (S i) (S j) a b Hi Hj He). lia.
  - intros x Hx. apply not_true_iff_false. intros He. apply list_elem_of_In, list_elem_of_lookup in Hx as [i Hi].
    by specialize (H 0%nat (S i) h x eq_refl Hi He).
Qed.

Lemma distinct_app a b : distinct_hosts (a ++ b) <->
  distinct_hosts a /\ distinct_hosts b /\ forall x y, In x a -> In y b -> host_eq x y = false.
Proof.
  induction a as [|h a IH].
  - cbn [app]. split; [|tauto]. intros H. split; [|by split]. intros i j x y Hi. by rewrite lookup_nil in Hi.
  - split.
    + intros H. apply distinct_cons in H as [H Hh]. apply IH in H as (Ha & Hb & Hab). split; [|split; [done|]].
      * assert (forall x, In x a -> host_eq h x = false) as Hha by (intros x Hx; apply Hh, in_or_app; by left).
        clear -Ha Hha. intros [|i] [|j] x y; cbn; intros Hi Hj He; [done| | |by f_equal; apply (Ha i j x y)]; exfalso.
        -- simplify_eq. apply list_elem_of_lookup_2, list_elem_of_In in Hj. by rewrite Hha in He.
        -- simplify_eq. apply list_elem_of_lookup_2, list_elem_of_In in Hi. apply host_eq_sym in He. by rewrite Hha in He.
      * intros x y [<- |Hx] Hy; [apply Hh, in_or_app; by right|by apply Hab].
    + intros (Ha & Hb & Hab). apply distinct_cons in Ha as Ha'. destruct Ha' as [Ha' Hh].
      assert (distinct_hosts (a ++ b)) as H.
      { apply IH. split; [done|]. split; [done|]. intros x y Hx. apply Hab. by right. }
      assert (forall x, In x (a ++ b) -> host_eq h x = false) as Hall.
      { intros x [Hx|Hx]%in_app_or; [by apply Hh|apply Hab; [by left|done]]. }
      clear -H Hall. intros [|i] [|j] x y; cbn; intros Hi Hj He; [done| | |by f_equal; apply (H i j x y)]; exfalso.
      * simplify_eq. apply list_elem_of_lookup_2, list_elem_of_In in Hj. by rewrite Hall in He.
      * simplify_eq. apply list_elem_of_lookup_2, list_elem_of_In in Hi. apply host_eq_sym in He. by rewrite Hall in He.
Qed.

Lemma distinct_filter (f : Node -> bool) ns : distinct_nodes ns -> distinct_nodes (List.filter f ns).
Proof.
  unfold distinct_nodes. induction ns as [|n ns IH]; [done|]. cbn [List.filter map]. intros H.
  apply distinct_cons in H as [H Hn]. destruct (f n); [|by apply IH]. cbn [map].
  apply (distinct_app [addr n]). split; [|split; [by apply IH|]].
  - intros [|i] [|j] x y; cbn; try done; by rewrite lookup_nil.
  - intros x y [<- |[]] Hy. apply Hn. apply in_map_iff in Hy as (k & <- & [Hk _]%filter_In). by apply in_map.
Qed.

Section change.
Context (hostList : BSONObj) (d : doc) (m : ReplicaSetMonitor).
Hypothesis Hrep : obj_rep hostList d.
Hypothesis Hhosts : Forall (fun f => is_Some (host_of f)) d.
Hypothesis Hnodes : distinct_nodes (_nodes m).
Hypothesis Hlisted : distinct_hosts (listed d).

Definition reported (n : Node) : bool := existsb (fun h => host_eq h (addr n)) (listed d).
Definition positions : list nat := omap (position m) (listed d).

Lemma position_some h i : position m h = Some i -> exists n, _nodes m !! i = Some n /\ host_eq h (addr n) = true.
Proof. apply index_of_some. Qed.

Lemma position_at h i n : _nodes m !! i = Some n -> host_eq h (addr n) = true -> position m h = Some i.
Proof using Hnodes.
  intros Hn He. destruct (position m h) as [j|] eqn:E.
  - apply position_some in E as (n' & Hn' & He'). f_equal. apply (Hnodes j i (addr n') (addr n)).
    + by rewrite list_lookup_fmap, Hn'.
    + by rewrite list_lookup_fmap, Hn.
    + by apply (host_eq_trans _ h); [apply host_eq_sym|].
  - pose proof (proj1 (index_of_none h (_nodes m)) E n) as Hno. rewrite Hno in He; [done|].
    by eapply list_elem_of_In, list_elem_of_lookup_2.
Qed.

Lemma is_position_in i : is_position m d i = true <-> i ∈ positions.
Proof.
  unfold is_position, positions, listed. rewrite existsb_exists. setoid_rewrite list_elem_of_omap. split.
  - intros (f & Hin & Hf). destruct (host_of f) as [h|] eqn:Eh; [|done]. apply bool_decide_eq_true in Hf.
    exists h. split; [|done]. apply list_elem_of_omap. exists f. by rewrite list_elem_of_In.
  - intros (h & Hin & Hh). apply list_elem_of_omap in Hin as (f & Hin & Hf). exists f. rewrite <- list_elem_of_In.
    split; [done|]. rewrite Hf. by apply bool_decide_eq_true.
Qed.

Lemma positions_NoDup : NoDup positions.
Proof using Hlisted.
  unfold positions. revert Hlisted. induction (listed d) as [|h hs IH]; intros Hd; [apply NoDup_nil_2|].
  apply distinct_cons in Hd as [Hd Hh]. cbn [omap list_omap]. destruct (position m h) as [i|] eqn:E; [|by apply IH].
  apply NoDup_cons_2; [|by apply IH]. rewrite list_elem_of_omap. intros (h' & Hin & Hp).
  apply position_some in E as (n & Hn & He), Hp as (n' & Hn' & He'). simplify_eq.
  assert (host_eq h h' = true) as Hx; [|by rewrite Hh in Hx by (by apply list_elem_of_In)].
  apply (host_eq_trans _ (addr n)); [done|by apply host_eq_sym].
Qed.

Lemma positions_bound : positions ⊆ seq 0 (length (_nodes m)).
Proof.
  intros i (h & _ & Hp)%list_elem_of_omap. apply position_some in Hp as (n & Hn & _).
  apply elem_of_seq. apply lookup_lt_Some in Hn. lia.
Qed.

Lemma positions_known : forallb (known m) d = true -> length positions = length d.
Proof using Hhosts.
  unfold positions, listed. clear Hlisted Hrep. induction d as [|f d' IH]; [done|]. cbn [forallb].
  apply Forall_cons_1 in Hhosts as [[h Hh] Hr]. intros [Hk Hks]%andb_prop. cbn [omap list_omap]. rewrite Hh.
  unfold known in Hk. rewrite Hh in Hk. cbn [omap list_omap]. destruct (position m h); [|done]. cbn. by rewrite IH.
Qed.

Lemma reported_position i n : _nodes m !! i = Some n -> is_position m d i = reported n.
Proof using Hnodes.
  intros Hn. apply eq_true_iff_eq. rewrite is_position_in. unfold positions, reported.
  rewrite list_elem_of_omap, existsb_exists. split.
  - intros (h & Hin & Hp). exists h. split; [by apply list_elem_of_In|].
    apply position_some in Hp as (n' & Hn' & He). by simplify_eq.
  - intros (h & Hin & He). exists h. split; [by apply list_elem_of_In|]. by apply (position_at h i n).
Qed.

Lemma kept_filter {A} (gone : nat -> bool) (f : A -> bool) l : forall k,
  (forall i n, l !! i = Some n -> gone (k + i)%nat = negb (f n)) -> kept gone k l = List.filter f l.
Proof.
  induction l as [|x l IH]; intros k H; [done|]. cbn [kept List.filter].
  specialize (H 0%nat x eq_refl) as H0. rewrite Nat.add_0_r in H0. rewrite H0.
  rewrite (IH (S k)). { by destruct (f x). }
  intros i n Hn. rewrite <- (H (S i) n Hn). f_equal. lia.
Qed.

Lemma erased : erase_nodes (List.filter (fun i => negb (is_position m d i)) (seq 0 (length (_nodes m)))) (_nodes m) =
  List.filter reported (_nodes m).
Proof using Hnodes.
  pose proof (erase_kept (fun i => negb (is_position m d i)) (_nodes m) []) as H. rewrite !app_nil_r in H. rewrite H.
  apply kept_filter. intros i n Hn. cbn [Nat.add]. by rewrite (reported_position i n).
Qed.

(** When the hosts are known and as many as the nodes, the two are the same. *)
Lemma positions_all : forallb (known m) d = true -> length d = length (_nodes m) ->
  forall i, (i < length (_nodes m))%nat -> is_position m d i = true.
Proof using Hhosts Hlisted.
  intros Hk Hl i Hi. apply is_position_in.
  assert (incl (seq 0 (length (_nodes m))) positions) as Hincl.
  { apply NoDup_length_incl.
    - apply NoDup_ListNoDup, positions_NoDup.
    - by rewrite length_seq, positions_known, Hl.
    - intros j Hj. apply list_elem_of_In, positions_bound. by apply list_elem_of_In. }
  apply list_elem_of_In, Hincl, in_seq. lia.
Qed.

Lemma same_unchanged : forallb (known m) d = true -> length d = length (_nodes m) -> same_hosts (listed d) (_nodes m).
Proof using Hhosts Hlisted Hnodes.
  intros Hk Hl. split.
  - intros h (f & Hin & Hf)%listed_host. rewrite forallb_forall in Hk. specialize (Hk f Hin). unfold known in Hk.
    rewrite Hf in Hk. destruct (position m h) as [i|] eqn:E; [|done]. apply position_some in E as (n & Hn & He).
    exists n. split; [|done]. by eapply list_elem_of_In, list_elem_of_lookup_2.
  - intros n Hin. apply list_elem_of_In, list_elem_of_lookup in Hin as [i Hi].
    pose proof (positions_all Hk Hl i ltac:(by eapply lookup_lt_Some)) as Hp.
    rewrite (reported_position i n Hi) in Hp. by apply existsb_exists in Hp.
Qed.

(** The hosts to add. *)
Context (connect : HostAndPort -> option (list byte)) (added : list (list byte)).
Hypothesis Hsorted : StronglySorted (fun a b => lex_cmp a b < 0) added.
Hypothesis Hadded : forall s, In s added <-> exists f, In f d /\ known m f = false /\ s = host_name f.

Definition new_nodes : list Node := map (fun s => Node_new (parsed s) (connect (parsed s))) added.

Lemma added_parsed s : In s added ->
  exists f h, In f d /\ host_of f = Some h /\ s = host_name f /\ HostAndPort_string s = Ok h /\ parsed s = h /\ position m h = None.
Proof using Hhosts Hadded.
  intros (f & Hin & Hk & ->)%Hadded. destruct (host_of_listed d Hhosts f Hin) as (h & Hh & _). exists f, h.
  unfold known in Hk. rewrite Hh in Hk. assert (HostAndPort_string (host_name f) = Ok h) as Hp.
  { unfold host_of, host_name in *. destruct (snd f); try done.
    destruct (HostAndPort_string (c_str s)); [|done]. by simplify_eq. }
  split; [done|]. split; [done|]. split; [done|]. split; [done|]. split; [unfold parsed; by rewrite Hp|].
  by destruct (position m h).
Qed.

Lemma listed_lookup a f h : d !! a = Some f -> host_of f = Some h -> listed d !! a = Some h.
Proof using Hhosts.
  unfold listed. clear Hrep Hlisted Hadded. revert a. induction d as [|g d' IH]; intros a Ha Hf; [done|].
  apply Forall_cons_1 in Hhosts as [[x Hx] Hr]. cbn [omap list_omap]. rewrite Hx.
  destruct a as [|a]; cbn in *; [by simplify_eq|by apply IH].
Qed.

Lemma new_distinct : distinct_hosts (map addr new_nodes).
Proof using Hhosts Hlisted Hsorted Hadded.
  intros i j a b Hi Hj He. unfold new_nodes in *. rewrite !list_lookup_fmap in Hi, Hj.
  destruct (added !! i) as [s|] eqn:Es; [|done]. destruct (added !! j) as [t|] eqn:Et; [|done]. cbn in Hi, Hj. simplify_eq.
  assert (s = t) as ->.
  { destruct (added_parsed s) as (f & h & Hin & Hh & -> & _ & Hp & _); [by eapply list_elem_of_In, list_elem_of_lookup_2|].
    destruct (added_parsed t) as (g & k & Hin' & Hk & -> & _ & Hp' & _); [by eapply list_elem_of_In, list_elem_of_lookup_2|].
    rewrite Hp, Hp' in He. apply list_elem_of_In, list_elem_of_lookup in Hin as [x Hx], Hin' as [y Hy].
    pose proof (listed_lookup x f h Hx Hh) as H1. pose proof (listed_lookup y g k Hy Hk) as H2.
    assert (x = y) as -> by apply (Hlisted x y h k H1 H2 He). by simplify_eq. }
  by eapply (NoDup_lookup added); [apply sorted_NoDup| |].
Qed.

Lemma changed_distinct : distinct_nodes (List.filter reported (_nodes m) ++ new_nodes).
Proof using All.
  unfold distinct_nodes. rewrite map_app. apply distinct_app. split; [by apply distinct_filter|].
  split; [apply new_distinct|]. intros x y Hx Hy.
  apply in_map_iff in Hx as (n & <- & [Hn _]%filter_In), Hy as (n' & <- & Hn').
  apply in_map_iff in Hn' as (s & <- & (f & h & _ & _ & _ & _ & Hp & Hno)%added_parsed).
  cbn [addr Node_new]. rewrite Hp. apply not_true_iff_false. intros He%host_eq_sym.
  by rewrite (proj1 (index_of_none h (_nodes m)) Hno n Hn) in He.
Qed.

Lemma changed_same : same_hosts (listed d) (List.filter reported (_nodes m) ++ new_nodes).
Proof using Hhosts Hadded.
  split.
  - intros h Hh. pose proof Hh as (f & Hin & Hf)%listed_host. destruct (position m h) as [i|] eqn:E.
    + apply position_some in E as (n & Hn & He). exists n. split; [|done]. apply in_or_app. left. apply filter_In.
      split; [by eapply list_elem_of_In, list_elem_of_lookup_2|]. apply existsb_exists. by exists h.
    + assert (In (host_name f) added) as Hs.
      { apply Hadded. exists f. split; [done|]. split; [|done]. unfold known. by rewrite Hf, E. }
      exists (Node_new (parsed (host_name f)) (connect (parsed (host_name f)))). split.
      * apply in_or_app. right. apply in_map_iff. by exists (host_name f).
      * assert (parsed (host_name f) = h) as ->; [|by change (h ≡ h)].
        unfold parsed, host_name, host_of in *. destruct (snd f); try done.
        destruct (HostAndPort_string (c_str s)); [|done]. by simplify_eq.
  - intros n [[_ (h & Hh & He)%existsb_exists]%filter_In|Hn]%in_app_or; [by exists h|].
    apply in_map_iff in Hn as (s & <- & (f & h & Hin & Hh & _ & _ & Hp & _)%added_parsed). exists h. split.
    + destruct (host_of_listed d Hhosts f Hin) as (h' & Hh' & Hl). congruence.
    + cbn [addr Node_new]. rewrite Hp. by change (h ≡ h).
Qed.
End change.

(** C32: The nodes follow the reported hosts.  For a list of hosts with distinct
    addresses, and nodes with distinct addresses, _checkHosts does not throw, and
    afterwards the nodes are exactly the hosts of the list, if it is not empty,
    still with distinct addresses: those that were known keep their state and
    order, the others are new, and those that are not listed are gone; the master
    is forgotten when anything changed, and otherwise nothing is. *)
Theorem _checkHosts_correct connect hostList d m :
  obj_rep hostList d -> Forall (fun f => is_Some (host_of f)) d ->
  distinct_nodes (_nodes m) -> distinct_hosts (listed d) ->
  exists m' changed, _checkHosts connect hostList m = (m', changed, Ok tt) /\
    distinct_nodes (_nodes m') /\ (d <> [] -> same_hosts (listed d) (_nodes m')) /\
    (changed = false -> m' = m) /\
    (changed = true -> _master m' = -1 /\ exists new, _nodes m' = List.filter (reported d) (_nodes m) ++ new /\
       Forall (fun n => n = Node_new (addr n) (connect (addr n))) new).
Proof.
  intros Hrep Hh Hn Hl. unfold _checkHosts. rewrite (should_change_rep hostList d m Hrep Hh).
  destruct (decide (d = [])) as [Ed|Ed].
  { rewrite bool_decide_true by done. exists m, false. done. }
  rewrite bool_decide_false by done. cbn [negb andb].
  assert (forallb (known m) d = true -> (size m =? zlen d) = true -> length d = length (_nodes m)) as Hlen
    by (unfold size, zlen; lia).
  destruct (negb (forallb (known m) d) || negb (size m =? zlen d)) eqn:Ec.
  2: { apply orb_false_elim in Ec as [E1%negb_false_iff E2%negb_false_iff]. exists m, false.
       split; [done|]. split; [done|]. split; [|done]. intros _. apply same_unchanged; try done. by apply Hlen. }
  destruct (diff_rep hostList d m Hrep Hh) as (added & -> & Hs & Ha).
  set (removed := List.filter (fun i => negb (is_position m d i)) (seq 0 (length (_nodes m)))).
  assert ((0 <? length added)%nat || (0 <? length removed)%nat = true) as ->.
  { destruct (forallb (known m) d) eqn:Ek.
    - cbn in Ec. apply orb_true_iff. right. apply Nat.ltb_lt. destruct removed as [|x r] eqn:Er; [exfalso|cbn; lia].
      assert (forall i, (i < length (_nodes m))%nat -> i ∈ positions d m) as Hall.
      { intros i Hi. apply is_position_in. destruct (is_position m d i) eqn:E; [done|].
        assert (In i removed) as Hin; [|by rewrite Er in Hin]. unfold removed. apply filter_In.
        split; [apply in_seq; lia|by rewrite E]. }
      assert (positions d m ≡ₚ seq 0 (length (_nodes m))) as Hp.
      { apply NoDup_Permutation; [by apply positions_NoDup|apply NoDup_ListNoDup, seq_NoDup|]. intros i. split.
        - apply positions_bound.
        - intros Hi%elem_of_seq. apply Hall. lia. }
      apply Permutation_length in Hp. rewrite length_seq, (positions_known d m Hh Ek) in Hp.
      unfold size, zlen in Ec. lia.
    - apply orb_true_iff. left. apply Nat.ltb_lt. assert (exists f, In f d /\ known m f = false) as (f & Hin & Hf).
      { clear -Ek. induction d as [|f d IH]; [done|]. cbn in Ek. destruct (known m f) eqn:E.
        - destruct (IH Ek) as (g & Hg & Hk). exists g. split; [by right|done].
        - exists f. split; [by left|done]. }
      assert (In (host_name f) added) as Hina by (apply Ha; by exists f). destruct added; [done|cbn; lia]. }
  subst removed. rewrite (erased d m Hn). rewrite add_nodes_ok.
  2: { intros s Hin. destruct (added_parsed d m Hh added Ha s Hin) as (f & h & _ & _ & _ & Hp & _). by exists h. }
  eexists _, true. split; [reflexivity|]. cbn [set_master set_nodes _nodes _master]. split; [by eapply changed_distinct|].
  split; [intros _; by apply changed_same|]. split; [done|]. intros _. split; [done|].
  exists (new_nodes connect added). split; [done|]. apply List.Forall_forall. intros n (s & <- & _)%in_map_iff. done.
Qed.

Definition host_list (hosts : list string) : doc := number_fields 0 (map (fun s => VString (bstr s)) hosts).

Definition two_nodes : ReplicaSetMonitor :=
  set_nodes [sample_node "a" "ny" false 1; sample_node "b" "ny" true 2] (set_master 0 (Monitor_new (bstr "rs") 15)).

(** The comment on _checkHosts says that it adds hosts, that known ones make it do
    nothing, and that [changed] tells of new hosts.  A list of known hosts without
    all of them removes the others, says it changed, and forgets the master. *)
Example fewer_hosts :
  _checkHosts (fun _ => None) (obj_of (host_list ["a"])) two_nodes =
    (set_master (-1) (set_nodes [sample_node "a" "ny" false 1] two_nodes), true, Ok tt).
Proof. vm_compute. reflexivity. Qed.

Lemma _checkHosts_correct_witness : exists m' changed,
  _checkHosts (fun _ => None) (obj_of (host_list ["c:1"; "b"])) two_nodes = (m', changed, Ok tt) /\
  same_hosts (listed (host_list ["c:1"; "b"])) (_nodes m').
Proof.
  destruct (_checkHosts_correct (fun _ => None) (obj_of (host_list ["c:1"; "b"])) (host_list ["c:1"; "b"]) two_nodes)
    as (m' & changed & H1 & _ & H2 & _).
  - by apply obj_of_rep.
  - change (host_list ["c:1"; "b"]) with [(bstr "0", VString (bstr "c:1")); (bstr "1", VString (bstr "b"))].
    apply Forall_cons_2; [by eexists|]. apply Forall_cons_2; [by eexists|]. apply Forall_nil_2.
  - intros [|[|i]] [|[|j]] a b Ha Hb He; cbn in Ha, Hb; simplify_eq; done.
  - change (listed (host_list ["c:1"; "b"])) with [MkHost (bstr "c") 1; MkHost (bstr "b") (-1)].
    intros [|[|i]] [|[|j]] a b Ha Hb He; cbn in Ha, Hb; simplify_eq; done.
  - exists m', changed. split; [exact H1|]. apply H2. discriminate.
Defined.

(** A host that the reply lists twice, as a host and as a passive one, makes the
    assertion fail each time: the counts differ and there is nothing to change. *)
Example repeated_host :
  _checkHosts (fun _ => None) (obj_of (host_list ["a:27017"; "b:27017"; "b:27017"])) two_nodes =
    (two_nodes, false, Err VerifyFailed).
Proof. vm_compute. reflexivity. Qed.

(** Two spellings of one address give two nodes. *)
Example two_spellings :
  map addr (_nodes (fst (fst (_checkHosts (fun _ => None) (obj_of (host_list ["c"; "c:27017"])) two_nodes)))) =
    [MkHost (bstr "c") (-1); MkHost (bstr "c") 27017].
Proof. vm_compute. reflexivity. Qed.
