(* ===== verification/NodeErrors.v ===== *)
(** * NodeErrors: what does not use an index of the nodes
    (client/dbclient_rs.cpp, and what it calls)

    The error of an index outside the nodes of a replica set comes only from
    the nodes.  Nothing that a monitor calls to read or build an object, or to
    parse an address, gives it; that is shown here once for all of them, by
    going through their definitions, so that MonitorThreads.v has to look only
    at what the monitor itself does with its indices. *)

From stdpp Require Import base list numbers strings option tactics.
From Stdlib Require Import Strings.Byte ZArith Lia.
From S2P Require Import Prelude Memory Decimal HostPort BsonTypes Format Element Obj Access Compare Order Builder JsObj JsObjSpec ObjFields ReadPref NodeSelect Monitor.

Definition index_kept {A} (r : result A) : Prop := r <> Err IndexOutside.

Lemma index_kept_bind {A B} (r : result A) (k : A -> result B) :
  index_kept r -> (forall a, r = Ok a -> index_kept (k a)) -> index_kept (bind r k).
Proof. intros Hr Hk. destruct r as [a|e]; [by apply Hk|]. unfold index_kept in *. cbn. congruence. Qed.

Lemma index_kept_error {A B} e : index_kept (Err e : result A) -> index_kept (Err e : result B).
Proof. unfold index_kept. congruence. Qed.

Lemma index_kept_neq {A} e : index_kept (Err e : result A) -> e <> IndexOutside.
Proof. unfold index_kept. congruence. Qed.

Create HintDb index_kept.

Lemma index_loop {S R} (body : S -> BSONElement -> result (step S R)) n : forall i s,
  (forall i, index_kept (next i)) -> (forall s e, index_kept (body s e)) -> index_kept (loop_more body n i s).
Proof.
  induction n as [|n IH]; intros i s Hn Hb; cbn [loop_more]; [done|]. destruct (more i); [|done].
  apply index_kept_bind; [apply Hn|]. intros [e i'] _. apply index_kept_bind; [apply Hb|]. intros [s'|r] _; [by apply IH|done].
Qed.

Ltac head_of t := lazymatch t with ?f _ => head_of f | _ => t end.

(** Goes through a definition: its parts in sequence, both ways of a choice, the
    body of a loop, and the definitions it calls. *)
Ltac index_step :=
  first
  [ solve [auto with index_kept]
  | discriminate
  | match goal with
    | |- index_kept (bind _ _) => apply index_kept_bind; [|intros ? _]
    | |- index_kept (loop_more _ _ _ _) => apply index_loop; [solve [auto with index_kept]|intros ? ?]
    | |- index_kept (if ?b then _ else _) => destruct b
    | |- index_kept (match ?x with _ => _ end) => destruct x
    | |- index_kept ?t => let f := head_of t in progress (unfold f; cbv beta zeta)
    end ].
Ltac index_tac := repeat index_step.

(** ** Reading objects *)

Lemma index_strnlen_go bs : forall i n, index_kept (strnlen_go bs i n).
Proof. induction bs as [|b bs IH]; intros i [|n]; cbn [strnlen_go]; index_tac. Qed.
#[export] Hint Resolve index_strnlen_go : index_kept.

Lemma index_type e : index_kept (type e).
Proof. index_tac. Qed.
Lemma index_value_ptr e : index_kept (value_ptr e).
Proof. index_tac. Qed.
#[export] Hint Resolve index_type index_value_ptr : index_kept.
Lemma index_size e : index_kept (Element.size e).
Proof. index_tac. Qed.
Lemma index_objsize o : index_kept (objsize o).
Proof. index_tac. Qed.
#[export] Hint Resolve index_size index_objsize : index_kept.
Lemma index_next i : index_kept (next i).
Proof. index_tac. Qed.
Lemma index_iterator o : index_kept (BSONObjIterator_of o).
Proof. index_tac. Qed.
#[export] Hint Resolve index_next index_iterator : index_kept.

Lemma index_getField o name : index_kept (getField o name).
Proof. index_tac. Qed.
#[export] Hint Resolve index_getField : index_kept.
Lemma index_hasField o name : index_kept (hasField o name).
Proof. index_tac. Qed.
Lemma index_isABSONObj e : index_kept (isABSONObj e).
Proof. index_tac. Qed.
Lemma index_userCheck e : index_kept (embeddedObjectUserCheck e).
Proof. index_tac. Qed.
Lemma index_String e : index_kept (Elem_String e).
Proof. index_tac. Qed.
Lemma index_Number e : index_kept (Elem_Number e).
Proof. index_tac. Qed.
Lemma index_trueValue e : index_kept (trueValue e).
Proof. index_tac. Qed.
Lemma index_isEmpty o : index_kept (isEmpty o).
Proof. index_tac. Qed.
#[export] Hint Resolve index_hasField index_isABSONObj index_userCheck index_String index_Number index_trueValue index_isEmpty : index_kept.

(** ** Comparing *)

Lemma index_or_else m k : index_kept m -> index_kept k -> index_kept (or_else m k).
Proof. intros Hm Hk. index_tac. Qed.
#[export] Hint Resolve index_or_else : index_kept.

Lemma index_strcmp p q : index_kept (strcmp p q).
Proof. index_tac. Qed.
Lemma index_memcmp p q n : index_kept (memcmp p q n).
Proof. index_tac. Qed.
Lemma index_number e : index_kept (number e).
Proof. index_tac. Qed.
#[export] Hint Resolve index_strcmp index_memcmp index_number : index_kept.

Lemma index_compare_values cmp l r : (forall a b, index_kept (cmp a b)) -> index_kept (compareElementValues cmp l r).
Proof. intros Hc. index_tac. Qed.
#[export] Hint Resolve index_compare_values : index_kept.
Lemma index_compare_elements cmp c l r : (forall a b, index_kept (cmp a b)) -> index_kept (elem_woCompare cmp c l r).
Proof. intros Hc. index_tac. Qed.
#[export] Hint Resolve index_compare_elements : index_kept.

Lemma index_wo_loop cmp ordered n : (forall l r, index_kept (cmp l r)) -> forall i j k, index_kept (wo_loop cmp ordered n i j k).
Proof. intros Hc. induction n as [|n IH]; intros i j k; cbn [wo_loop]; index_tac. Qed.
#[export] Hint Resolve index_wo_loop : index_kept.
Lemma index_woCompare d : forall o r k c, index_kept (woCompare_go d o r k c).
Proof. induction d as [|d IH]; intros o r k c; cbn [woCompare_go]; index_tac. Qed.
#[export] Hint Resolve index_woCompare : index_kept.
Lemma index_valuesEqual l r : index_kept (valuesEqual l r).
Proof. index_tac. Qed.
#[export] Hint Resolve index_valuesEqual : index_kept.

(** ** Building *)

Lemma index_grow_size n : forall a m, index_kept (grow_size n a m).
Proof. induction n as [|n IH]; intros a m; cbn [grow_size]; index_tac. Qed.
#[export] Hint Resolve index_grow_size : index_kept.
Lemma index_append bs b : index_kept (bb_append bs b).
Proof. index_tac. Qed.
Lemma index_init d : index_kept (BSONObj_init d).
Proof. index_tac. Qed.
#[export] Hint Resolve index_append index_init : index_kept.
Lemma index_copy o : index_kept (copy o).
Proof. index_tac. Qed.
#[export] Hint Resolve index_copy : index_kept.

(** ** What a monitor reads *)

Lemma index_address s : index_kept (HostAndPort_string s).
Proof. index_tac. Qed.
#[export] Hint Resolve index_address : index_kept.
Lemma index_find_from ns s : forall i, index_kept (find_from i ns s).
Proof. induction ns as [|n ns IH]; intros i; cbn [find_from]; index_tac. Qed.
Lemma index_find s m : index_kept (_find_inlock s m).
Proof. apply index_find_from. Qed.
#[export] Hint Resolve index_find : index_kept.
Lemma index_member_name e : index_kept (member_name e).
Proof. index_tac. Qed.
Lemma index_member_ok e : index_kept (member_ok e).
Proof. index_tac. Qed.
Lemma index_status_members o : index_kept (status_members o).
Proof. index_tac. Qed.
Lemma index_of_this_set o name : index_kept (of_this_set o name).
Proof. index_tac. Qed.
Lemma index_reported_primary o : index_kept (reported_primary o).
Proof. index_tac. Qed.
Lemma index_reported_hosts o : index_kept (reported_hosts o).
Proof. index_tac. Qed.
Lemma index_update_node o t n : index_kept (update_node o t n).
Proof. index_tac. Qed.
Lemma index_shouldChange hl n m : index_kept (_shouldChangeHosts hl n m).
Proof. index_tac. Qed.
Lemma index_hostDiff hl m : index_kept (_getHostDiff_inlock hl m).
Proof. index_tac. Qed.
#[export] Hint Resolve index_member_name index_member_ok index_status_members index_of_this_set index_reported_primary
  index_reported_hosts index_update_node index_shouldChange index_hostDiff : index_kept.

Lemma index_add_nodes connect l : forall ns, index_kept (snd (add_nodes connect l ns)).
Proof.
  induction l as [|s l IH]; intros ns; cbn [add_nodes]; [done|]. pose proof (index_address s) as Hs.
  destruct (HostAndPort_string s) as [h|e]; [by destruct (_ || _)|]. exact (index_kept_error e Hs).
Qed.

Lemma index_checkHosts connect hl m : index_kept (snd (_checkHosts connect hl m)).
Proof.
  unfold _checkHosts. pose proof (index_shouldChange hl (size m) m) as Hs.
  destruct (_shouldChangeHosts _ _ _) as [[|]|e]; [|done|exact (index_kept_error e Hs)].
  pose proof (index_hostDiff hl m) as Hd. destruct (_getHostDiff_inlock hl m) as [[added removed]|e]; [|exact (index_kept_error e Hd)].
  destruct (_ || _); [|done]. pose proof (index_add_nodes connect added (erase_nodes removed (_nodes m))) as Ha.
  by destruct (add_nodes _ _ _) as [ns [u|e]].
Qed.

(** ** Selecting a node *)

Lemma index_matchesTag n tag : index_kept (matchesTag n tag).
Proof. index_tac. Qed.
Lemma index_currentTag ts : index_kept (getCurrentTag ts).
Proof. index_tac. Qed.
Lemma index_nextTag ts : index_kept (TagSet_next ts).
Proof. index_tac. Qed.
#[export] Hint Resolve index_matchesTag index_currentTag index_nextTag : index_kept.

(** The index is taken modulo the number of nodes. *)
Lemma index_select_loop k nodes tag secOnly thr : nodes <> [] -> forall i s, index_kept (_selectNode_loop k nodes tag secOnly thr i s).
Proof.
  intros Hne. induction k as [|k IH]; intros i s; cbn [_selectNode_loop]; [done|]. apply index_kept_bind; [|intros n _; index_tac].
  unfold nth_node. destruct (lookup_lt_is_Some_2 nodes (S i mod length nodes)%nat) as [n ->]; [|done].
  apply Nat.mod_upper_bound. by destruct nodes.
Qed.

Lemma index_select_one nodes tag secOnly thr l p : index_kept (_selectNode nodes tag secOnly thr l p).
Proof. unfold _selectNode. destruct nodes as [|n nodes]; [done|]. by apply index_select_loop. Qed.
#[export] Hint Resolve index_select_one : index_kept.

Lemma index_select_tags fuel nodes secOnly thr : forall ts s, index_kept (select_tags fuel nodes secOnly thr ts s).
Proof. induction fuel as [|fuel IH]; intros ts s; cbn [select_tags]; index_tac. Qed.
#[export] Hint Resolve index_select_tags : index_kept.

Lemma index_select p ts m : index_kept (select_inlock p ts m).
Proof. index_tac. Qed.
