(* ===== verification/MonitorThreads.v ===== *)
(** * MonitorThreads: the threads that share a monitor of a replica set
    (client/dbclient_rs.cpp)

    The methods of the monitor take its lock [_lock] for short parts and give it
    back to talk to the servers; [_checkConnectionLock] is held for a whole
    check of one connection, [_setsLock] while the nodes are gathered from the
    seeds.  Here each part in [_lock] is one action of a thread, and so is each
    access without it; a thread is at a [pc], and the actions of all threads
    interleave (Pool.v).  What a server answers, and whether a connection is
    made, is any choice at all.

    The theorems: no thread goes outside the vector of nodes, and the assertions
    on the master hold, although both are checked in one part and relied on in a
    later one; and the three locks cannot block all threads. *)

From stdpp Require Import base list numbers strings option relations tactics.
From Stdlib Require Import Strings.Byte ZArith Lia.
From S2P Require Import Prelude Memory Decimal HostPort BsonTypes Format Element Obj Access Order Builder JsObj JsObjSpec ObjFields ReadPref NodeSelect Monitor NodeErrors Pool.

(** ** The shared state *)

Record Shared := MkShared {
  mon : ReplicaSetMonitor;
  _checkConnectionLock : bool;
  _setsLock : bool;
  (* the seeds kept for the set *)
  seeds : list HostAndPort;
  (* the constructor has returned *)
  published : bool
}.

Definition set_mon (m : ReplicaSetMonitor) (s : Shared) : Shared :=
  MkShared m (_checkConnectionLock s) (_setsLock s) (seeds s) (published s).
Definition set_checkConnectionLock (b : bool) (s : Shared) : Shared :=
  MkShared (mon s) b (_setsLock s) (seeds s) (published s).
Definition set_setsLock (b : bool) (s : Shared) : Shared :=
  MkShared (mon s) (_checkConnectionLock s) b (seeds s) (published s).
Definition set_published (b : bool) (s : Shared) : Shared :=
  MkShared (mon s) (_checkConnectionLock s) (_setsLock s) (seeds s) b.

(** ** What a thread is at *)

(** The method an exception left. *)
Inductive site := InGetMaster | InGetSlave | InSelect | InNotify | InCheck | InPopulate.

Inductive outcome :=
  | NoCall
  | Returned
  | GotHost (h : HostAndPort)
  | GotSelection (s : Selection)
  | Threw (w : site) (e : err).

Inductive call :=
  | CallGetMaster
  | CallGetSlave (preferLocal : bool)
  | CallGetSlavePrev (prev : HostAndPort)
  | CallSelect (p : ReadPreference) (ts : TagSet)
  | CallNotifyFailure (server : HostAndPort)
  | CallNotifySlaveFailure (server : HostAndPort)
  | CallCheck (checkAllSecondaries : bool).

(** What [_check] returns to; the seeds are gathered by the constructor or by
    [check]. *)
Inductive kont :=
  | ToGetMaster
  | ToSelect (p : ReadPreference) (ts : TagSet)
  | ToCheck
  | ToPopulate (constructor : bool).

(** The variables of [_check]. *)
Record CheckVars := MkVars {
  checkAllSecondaries : bool;
  retry : nat;
  node_i : Z;
  triedQuickCheck : bool;
  newMaster : Z;
  check_kont : kont
}.

(** What [_checkConnection] returns to. *)
Inductive conn_kont :=
  | ToNode (v : CheckVars)
  | ToQuick (v : CheckVars) (probablePrimaryIdx : Z)
  | ToCheckMaster (all : bool)
  | ToSeeds (constructor : bool) (rest : list HostAndPort).

(** Its arguments, and [isMaster] and [maybePrimary] so far. *)
Record ConnVars := MkConnVars {
  cv_conn : list byte;
  nodesOffset : Z;
  isMaster : bool;
  maybePrimary : list byte;
  conn_kont_of : conn_kont
}.

Inductive pc :=
  | Idle (last : outcome)
  | GetMaster1 | GetMaster2
  | GetSlavePrev (prev : HostAndPort)
  | GetSlave (preferLocal : bool)
  | Select1 (p : ReadPreference) (ts : TagSet)
  | Select2 (p : ReadPreference) (ts : TagSet)
  | NotifyFailure (server : HostAndPort)
  | NotifySlaveFailure (server : HostAndPort)
  (* check *)
  | CheckEmpty (all : bool)
  | CheckMasterConn (all : bool)
  | CheckReadMaster (all : bool) (c : list byte)
  (* _populateHosts_inSetsLock *)
  | Construct
  | PopLock
  | PopVerify (constructor : bool)
  | PopNext (constructor : bool) (rest : list HostAndPort)
  | PopConnect (constructor : bool) (h : HostAndPort) (rest : list HostAndPort)
  | PopUnlock (constructor : bool) (o : outcome)
  (* _check *)
  | CheckStart (v : CheckVars)
  | CheckNode (v : CheckVars)
  | CheckAfter (v : CheckVars) (c : list byte) (maybe : list byte)
  | QuickFind (v : CheckVars) (maybe : list byte)
  | QuickAfter (v : CheckVars) (c : list byte) (idx : Z)
  | CheckEnd (v : CheckVars)
  (* _checkConnection *)
  | ConnLock (v : ConnVars)
  | ConnMatch (v : ConnVars)
  | ConnCall (v : ConnVars)
  | ConnNotMember (v : ConnVars)
  | ConnUpdate (v : ConnVars) (o : BSONObj) (commandTime : Z)
  | ConnReport (v : ConnVars) (o : BSONObj)
  (* _shouldChangeHosts outside the lock *)
  | HostsCount (v : ConnVars) (hostList : BSONObj)
  | HostsFind (v : ConnVars) (hostList : BSONObj) (origHosts numHosts : Z) (hi : BSONObjIterator)
  | HostsChange (v : ConnVars) (hostList : BSONObj)
  (* _checkStatus *)
  | StatusCall (v : ConnVars)
  | StatusFind (v : ConnVars) (hi : BSONObjIterator)
  | StatusSet (v : ConnVars) (m : Z) (good : bool) (hi : BSONObjIterator)
  | ConnCatch (v : ConnVars)
  | ConnUnlock (v : ConnVars)
  (* outside the vector of nodes; outside an object or undefined, where an
     exception would have gone to the handler *)
  | BadIndex
  | Broken (handler : pc) (e : err).

(** What a thread may choose: the call to make, and what the servers do. *)
Inductive conn_outcome := Connected | NoConnection | ConnectThrows.

Inductive choice :=
  | Run
  | Start (c : call)
  | Connect (f : HostAndPort -> conn_outcome)
  | IsMasterReply (r : option (BSONObj * Z))
  | StatusReply (r : option (option BSONObj)).

(** [_getConnWithRefresh]: the node after it, and its connection. *)
Definition _getConnWithRefresh (f : HostAndPort -> conn_outcome) (n : Node) : Node * option (list byte) :=
  match conn n with
  | Some c => (n, Some c)
  | None =>
      match f (addr n) with
      | Connected => (set_conn (Some (host_toString true (addr n))) n, Some (host_toString true (addr n)))
      | NoConnection => (n, None)
      | ConnectThrows => (set_ok false n, None)
      end
  end.

(** An exception goes to its handler; an access outside a buffer does not. *)
Definition throw (e : err) (handler : pc) : pc := if is_exception e then handler else Broken handler e.

(** ** _check *)

Definition return_to (k : kont) : pc :=
  match k with
  | ToGetMaster => GetMaster2
  | ToSelect p ts => Select2 p ts
  | ToCheck => Idle Returned
  | ToPopulate c => PopUnlock c Returned
  end.

Definition leave (k : kont) (e : err) : pc :=
  throw e (match k with
           | ToPopulate c => PopUnlock c (Threw InPopulate e)
           | _ => Idle (Threw InCheck e)
           end).

Definition start_check (all : bool) (k : kont) : pc := CheckStart (MkVars all 0 0 false (-1) k).

Definition with_i (i : Z) (v : CheckVars) : CheckVars :=
  MkVars (checkAllSecondaries v) (retry v) i (triedQuickCheck v) (newMaster v) (check_kont v).
Definition with_newMaster (n : Z) (v : CheckVars) : CheckVars :=
  MkVars (checkAllSecondaries v) (retry v) (node_i v) (triedQuickCheck v) n (check_kont v).
Definition with_tried (v : CheckVars) : CheckVars :=
  MkVars (checkAllSecondaries v) (retry v) (node_i v) true (newMaster v) (check_kont v).

(** The next turn of the loop over the nodes. *)
Definition next_node (v : CheckVars) : pc := CheckNode (with_i (node_i v + 1) v).

(** The end of a turn of the loop over [retry]. *)
Definition end_retry (v : CheckVars) : pc :=
  if newMaster v >=? 0 then return_to (check_kont v)
  else if (S (retry v) <? 2)%nat
  then CheckStart (MkVars (checkAllSecondaries v) (S (retry v)) 0 false (newMaster v) (check_kont v))
  else CheckEnd v.

(** What comes after the check of the node itself. *)
Definition quick_check (v : CheckVars) (maybe : list byte) : pc :=
  if negb (triedQuickCheck v) && negb (bool_decide (maybe = [])) then QuickFind v maybe else next_node v.

(** A node whose connection is made when it has none: [k] goes on with it. *)
Definition with_conn (f : HostAndPort -> conn_outcome) (i : Z) (m : ReplicaSetMonitor) (skip : pc)
    (k : list byte -> pc) : ReplicaSetMonitor * pc :=
  match at_node i m with
  | Err _ => (m, BadIndex)
  | Ok n =>
      let '(n, c) := _getConnWithRefresh f n in
      (set_nodes (<[Z.to_nat i := n]> (_nodes m)) m, match c with Some c => k c | None => skip end)
  end.

Definition check_connection (c : list byte) (offset : Z) (k : conn_kont) : pc :=
  ConnLock (MkConnVars c offset false [] k).

(** A connection that answered as master: the node that has it is the master,
    if the nodes are still the same. *)
Definition found_master (v : CheckVars) (c : list byte) (i : Z) (m : ReplicaSetMonitor) (go : CheckVars -> pc)
    : ReplicaSetMonitor * pc :=
  if _checkConnMatch_inlock c i m then
    (set_master i m, if checkAllSecondaries v then go (with_newMaster i v) else return_to (check_kont v))
  else (m, end_retry v).

(** The parts of [_check] in the lock. *)
Definition check_step (c : choice) (m : ReplicaSetMonitor) (p : pc) : option (ReplicaSetMonitor * pc) :=
  match p, c with
  | CheckStart v, Run =>
      Some (m, if checkAllSecondaries v then CheckNode v
               else match getMaster_known m with
                    | Err e => leave (check_kont v) e
                    | Ok (Some _) => return_to (check_kont v)
                    | Ok None => CheckNode v
                    end)
  | CheckNode v, Connect f =>
      Some (if node_i v >=? size m then (m, end_retry v)
            else with_conn f (node_i v) m (next_node v) (fun c => check_connection c (node_i v) (ToNode v)))
  | CheckAfter v c maybe, Run => Some (found_master v c (node_i v) m (fun v => quick_check v maybe))
  | QuickFind v maybe, Connect f =>
      Some (match _find_inlock maybe m with
            | Err e => (m, leave (check_kont v) e)
            | Ok idx =>
                if idx >=? 0 then
                  with_conn f idx m (next_node v) (fun c => check_connection c idx (ToQuick (with_tried v) idx))
                else (m, next_node v)
            end)
  | QuickAfter v c idx, Run => Some (found_master v c idx m next_node)
  | CheckEnd v, Run => Some (no_master (checkAllSecondaries v) m, return_to (check_kont v))
  | _, _ => None
  end.

(** ** _checkConnection *)

(** What the caller does with the answer. *)
Definition conn_return (v : ConnVars) : pc :=
  match conn_kont_of v with
  | ToNode cv => if isMaster v then CheckAfter cv (cv_conn v) (maybePrimary v) else quick_check cv (maybePrimary v)
  | ToQuick cv idx => if isMaster v then QuickAfter cv (cv_conn v) idx else next_node cv
  | ToCheckMaster all => if isMaster v && negb all then Idle Returned else start_check all ToCheck
  | ToSeeds c rest => PopNext c rest
  end.

Definition with_answer (isM : bool) (maybe : list byte) (v : ConnVars) : ConnVars :=
  MkConnVars (cv_conn v) (nodesOffset v) isM maybe (conn_kont_of v).

(** Any exception in the [try] block: [errorOccured] is set. *)
Definition caught (v : ConnVars) (e : err) : pc := throw e (ConnCatch v).

(** [isMaster] as the reply has it, and whether the server is of this set. *)
Definition read_reply (o : BSONObj) (name : list byte) : result (bool * bool) :=
  let* e := getField o (bstr "ismaster") in
  let* isM := trueValue e in
  let* this := of_this_set o name in
  Ok (isM, this).

(** The loop of [_shouldChangeHosts] with the lock taken for each host. *)
Definition hosts_find (v : ConnVars) (hostList : BSONObj) (origHosts numHosts : Z) (hi : BSONObjIterator)
    (m : ReplicaSetMonitor) : pc :=
  if more hi then
    match (let* '(e, hi) := next hi in
           let* toCheck := Elem_String e in
           let* index := _find_inlock toCheck m in
           Ok (index, hi)) with
    | Err e => caught v e
    | Ok (index, hi) =>
        if index >=? 0 then HostsFind v hostList origHosts (numHosts + 1) hi else HostsChange v hostList
    end
  else if negb (origHosts =? numHosts) && (numHosts >? 0) then HostsChange v hostList else StatusCall v.

(** A turn of the loop of [_checkStatus] up to the node it found. *)
Definition status_find (v : ConnVars) (hi : BSONObjIterator) (m : ReplicaSetMonitor) : pc :=
  if more hi then
    match (let* '(e, hi) := next hi in
           let* host := member_name e in
           let* i := _find_inlock host m in
           if i <? 0 then Ok (StatusFind v hi)
           else let* good := member_ok e in Ok (StatusSet v i good hi)) with
    | Err e => caught v e
    | Ok p => p
    end
  else ConnUnlock v.

(** The first part: [nodesOffset] must still be of this connection. *)
Definition conn_match (v : ConnVars) (m : ReplicaSetMonitor) : pc :=
  if nodesOffset v >=? 0 then
    if _checkConnMatch_inlock (cv_conn v) (nodesOffset v) m then ConnCall v else ConnUnlock v
  else ConnCall v.

Definition conn_reply (r : option (BSONObj * Z)) (v : ConnVars) (m : ReplicaSetMonitor) : pc :=
  match r with
  | None => ConnCatch v
  | Some (o, commandTime) =>
      match read_reply o (_name m) with
      | Err e => caught v e
      | Ok (isM, this) =>
          let v := with_answer isM (maybePrimary v) v in
          if this then if nodesOffset v >=? 0 then ConnUpdate v o commandTime else ConnReport v o
          else if nodesOffset v >=? 0 then ConnNotMember (with_answer false (maybePrimary v) v)
          else ConnUnlock (with_answer false (maybePrimary v) v)
      end
  end.

(** [maybePrimary] is set even when gathering the hosts throws. *)
Definition conn_report (v : ConnVars) (o : BSONObj) : pc :=
  match reported_primary o with
  | Err e => caught v e
  | Ok p =>
      let v := with_answer (isMaster v) (default (maybePrimary v) p) v in
      match reported_hosts o with Err e => caught v e | Ok hostList => HostsCount v hostList end
  end.

(** Setting a flag of the node at an index found earlier. *)
Definition set_ok_at (b : bool) (i : Z) (m : ReplicaSetMonitor) (k : pc) : ReplicaSetMonitor * pc :=
  match change_node (set_ok b) i m with Err _ => (m, BadIndex) | Ok m => (m, k) end.

Definition conn_update (v : ConnVars) (o : BSONObj) (commandTime : Z) (m : ReplicaSetMonitor) : ReplicaSetMonitor * pc :=
  match at_node (nodesOffset v) m with
  | Err _ => (m, BadIndex)
  | Ok _ =>
      match update_at o commandTime (nodesOffset v) m with
      | Err e => (m, caught v e)
      | Ok m => (m, ConnReport v o)
      end
  end.

Definition conn_step (c : choice) (m : ReplicaSetMonitor) (p : pc) : option (ReplicaSetMonitor * pc) :=
  match p, c with
  | ConnMatch v, Run => Some (m, conn_match v m)
  | ConnCall v, IsMasterReply r => Some (m, conn_reply r v m)
  | ConnNotMember v, Run => Some (set_ok_at false (nodesOffset v) m (ConnUnlock v))
  | ConnUpdate v o t, Run => Some (conn_update v o t m)
  | ConnReport v o, Run => Some (m, conn_report v o)
  | HostsCount v hostList, Run =>
      Some (m, match BSONObjIterator_of hostList with
               | Err e => caught v e
               | Ok hi => HostsFind v hostList (size m) 0 hi
               end)
  | HostsFind v hostList orig n hi, Run => Some (m, hosts_find v hostList orig n hi m)
  | HostsChange v hostList, Connect f =>
      let connect h := match f h with Connected => Some (host_toString true h) | _ => None end in
      let '(m, _, r) := _checkHosts connect hostList m in
      Some (m, match r with Err e => caught v e | Ok _ => StatusCall v end)
  | StatusCall v, StatusReply r =>
      Some (m, match r with
               | None => ConnCatch v
               | Some None => ConnUnlock v
               | Some (Some status) =>
                   match (let* ms := status_members status in
                          match ms with
                          | None => Ok None
                          | Some o => let* hi := BSONObjIterator_of o in Ok (Some hi)
                          end) with
                   | Err e => caught v e
                   | Ok None => ConnUnlock v
                   | Ok (Some hi) => StatusFind v hi
                   end
               end)
  | StatusFind v hi, Run => Some (m, status_find v hi m)
  | StatusSet v i good hi, Run => Some (set_ok_at good i m (StatusFind v hi))
  | ConnCatch v, Run =>
      Some (if (nodesOffset v >=? 0) && _checkConnMatch_inlock (cv_conn v) (nodesOffset v) m
            then set_ok_at false (nodesOffset v) m (ConnUnlock v) else (m, ConnUnlock v))
  | _, _ => None
  end.

(** ** The methods *)

Definition finish_call {A} (w : site) (r : result A) (ok : A -> pc) : pc :=
  match r with Ok a => ok a | Err e => throw e (Idle (Threw w e)) end.

(** A method that changes the monitor in one part. *)
Definition change_call (w : site) (m : ReplicaSetMonitor) (r : result ReplicaSetMonitor) : ReplicaSetMonitor * pc :=
  match r with Ok m' => (m', Idle Returned) | Err e => (m, throw e (Idle (Threw w e))) end.

Definition select_part (p : ReadPreference) (ts : TagSet) (m : ReplicaSetMonitor) (again : TagSet -> pc)
    : ReplicaSetMonitor * pc :=
  match select_inlock p ts m with
  | Err e => (m, throw e (Idle (Threw InSelect e)))
  | Ok (s, ts, m) => (m, if host_empty (selected_host s) then again ts else Idle (GotSelection s))
  end.

(** The loop of [_populateHosts_inSetsLock] over the seeds. *)
Definition populate_next (constructor : bool) (seeds : list HostAndPort) (m : ReplicaSetMonitor) : pc :=
  match seeds with
  | [] => start_check true (ToPopulate constructor)
  | h :: rest =>
      match _find_inlock (host_toString true h) m with
      | Err e => throw e (PopUnlock constructor (Threw InPopulate e))
      | Ok i => if i >=? 0 then PopNext constructor rest else PopConnect constructor h rest
      end
  end.

Definition populate_connect (f : HostAndPort -> conn_outcome) (constructor : bool) (h : HostAndPort)
    (rest : list HostAndPort) : pc :=
  let t := _type (ConnectionString_host h) in
  if bool_decide (t = MASTER) || bool_decide (t = CUSTOM) then
    match f h with
    | Connected => check_connection (host_toString true h) (-1) (ToSeeds constructor rest)
    | _ => PopNext constructor rest
    end
  else PopUnlock constructor (Threw InPopulate (UserAssert 16531)).

Definition call_step (c : choice) (m : ReplicaSetMonitor) (p : pc) : option (ReplicaSetMonitor * pc) :=
  match p, c with
  | GetMaster1, Run =>
      Some (m, finish_call InGetMaster (getMaster_known m) (fun r =>
        match r with Some h => Idle (GotHost h) | None => start_check false ToGetMaster end))
  | GetMaster2, Run => Some (m, finish_call InGetMaster (getMaster_checked m) (fun h => Idle (GotHost h)))
  | GetSlavePrev prev, Run =>
      Some (m, finish_call InGetSlave (getSlave_prev prev m) (fun good =>
        if good then Idle (GotHost prev) else GetSlave true))
  | GetSlave preferLocal, Run =>
      let '(m, r) := Monitor.getSlave preferLocal m in
      Some (m, finish_call InGetSlave r (fun h => Idle (GotHost h)))
  | Select1 p ts, Run => Some (select_part p ts m (fun ts => start_check false (ToSelect p ts)))
  | Select2 p ts, Run =>
      Some (match select_inlock p ts m with
            | Err e => (m, throw e (Idle (Threw InSelect e)))
            | Ok (s, _, m) => (m, Idle (GotSelection s))
            end)
  | NotifyFailure server, Run => Some (change_call InNotify m (notifyFailure server m))
  | NotifySlaveFailure server, Run => Some (change_call InNotify m (notifySlaveFailure server m))
  | CheckEmpty all, Run =>
      Some (m, if bool_decide (_nodes m = []) then PopLock else CheckMasterConn all)
  | CheckMasterConn all, Connect f =>
      Some (if _master m >=? 0 then
              if _master m <? size m
              then with_conn f (_master m) m (start_check all ToCheck) (CheckReadMaster all)
              else (m, Idle (Threw InCheck VerifyFailed))
            else (m, start_check all ToCheck))
  (* without the lock *)
  | CheckReadMaster all c, Run => Some (m, check_connection c (_master m) (ToCheckMaster all))
  | PopNext c rest, Run => Some (m, populate_next c rest m)
  | PopConnect c h rest, Connect f => Some (m, populate_connect f c h rest)
  | _, _ => None
  end.

Definition start_call (c : call) : pc :=
  match c with
  | CallGetMaster => GetMaster1
  | CallGetSlave preferLocal => GetSlave preferLocal
  | CallGetSlavePrev prev => GetSlavePrev prev
  | CallSelect p ts => Select1 p ts
  | CallNotifyFailure server => NotifyFailure server
  | CallNotifySlaveFailure server => NotifySlaveFailure server
  | CallCheck all => CheckEmpty all
  end.

(** The actions on the other locks and the seeds; all others only touch the
    monitor. *)
Definition lock_step (c : choice) (s : Shared) (p : pc) : option (Shared * pc) :=
  match p, c with
  | Idle _, Start call => if published s then Some (s, start_call call) else None
  | Construct, Run =>
      if _setsLock s then None
      else Some (set_setsLock true s,
                 if bool_decide (seeds s = []) then PopUnlock true (Threw InPopulate (UserAssert 13642)) else PopVerify true)
  | PopLock, Run => if _setsLock s then None else Some (set_setsLock true s, PopVerify false)
  (* without the lock of the monitor *)
  | PopVerify c, Run =>
      Some (s, if bool_decide (_nodes (mon s) = []) then PopNext c (seeds s)
               else PopUnlock c (Threw InPopulate VerifyFailed))
  | PopUnlock c o, Run =>
      Some (set_setsLock false (if c && match o with Returned => true | _ => false end then set_published true s else s),
            Idle o)
  | ConnLock v, Run => if _checkConnectionLock s then None else Some (set_checkConnectionLock true s, ConnMatch v)
  | ConnUnlock v, Run => Some (set_checkConnectionLock false s, conn_return v)
  | _, _ => None
  end.

Definition exec (c : choice) (s : Shared) (p : pc) : option (Shared * pc) :=
  match lock_step c s p with
  | Some r => Some r
  | None =>
      match call_step c (mon s) p with
      | Some (m, p') => Some (set_mon m s, p')
      | None =>
          match check_step c (mon s) p with
          | Some (m, p') => Some (set_mon m s, p')
          | None => '(m, p') ← conn_step c (mon s) p; Some (set_mon m s, p')
          end
      end
  end.

Definition threads : Type := world Shared pc.

(** A monitor that the first thread constructs, and [n] other threads. *)
Definition monitor_start (name : list byte) (localThresholdMillis : Z) (seeds : list HostAndPort) (n : nat) : threads :=
  World (MkShared (Monitor_new name localThresholdMillis) false false seeds false)
    (Construct :: replicate n (Idle NoCall)).

Definition monitor_reachable (name : list byte) (localThresholdMillis : Z) (seeds : list HostAndPort) (n : nat)
    (w : threads) : Prop := rtc (pool_step exec) (monitor_start name localThresholdMillis seeds n) w.

(** ** What holds in every world *)

(** Between taking and giving back [_checkConnectionLock]. *)
Fixpoint inside (p : pc) : bool :=
  match p with
  | ConnMatch _ | ConnCall _ | ConnNotMember _ | ConnUpdate _ _ _ | ConnReport _ _ | HostsCount _ _
  | HostsFind _ _ _ _ _ | HostsChange _ _ | StatusCall _ | StatusFind _ _ | StatusSet _ _ _ _
  | ConnCatch _ | ConnUnlock _ => true
  | Broken h _ => inside h
  | _ => false
  end.

Definition for_populate (k : kont) : bool := match k with ToPopulate _ => true | _ => false end.
Definition conn_for_populate (v : ConnVars) : bool :=
  match conn_kont_of v with
  | ToNode cv | ToQuick cv _ => for_populate (check_kont cv)
  | ToSeeds _ _ => true
  | ToCheckMaster _ => false
  end.

(** Between taking and giving back [_setsLock]. *)
Fixpoint gathering (p : pc) : bool :=
  match p with
  | PopVerify _ | PopNext _ _ | PopConnect _ _ _ | PopUnlock _ _ => true
  | CheckStart v | CheckNode v | CheckAfter v _ _ | QuickFind v _ | QuickAfter v _ _ | CheckEnd v =>
      for_populate (check_kont v)
  | ConnLock v | ConnMatch v | ConnCall v | ConnNotMember v | ConnUpdate v _ _ | ConnReport v _ | HostsCount v _
  | HostsFind v _ _ _ _ | HostsChange v _ | StatusCall v | StatusFind v _ | StatusSet v _ _ _
  | ConnCatch v | ConnUnlock v => conn_for_populate v
  | Broken h _ => gathering h
  | _ => false
  end.

(** The assertions that must not fail are those on the master. *)
Definition outcome_ok (o : outcome) : Prop :=
  match o with Threw (InGetMaster | InGetSlave | InNotify | InCheck) e => e <> VerifyFailed | _ => True end.

Definition conn_vars_ok (v : ConnVars) : Prop :=
  match conn_kont_of v with ToNode cv | ToQuick cv _ => 0 <= node_i cv | _ => True end.

(** With [n] nodes, where a thread may be. *)
Definition pc_ok (n : Z) (p : pc) : Prop :=
  match p with
  | BadIndex => False
  | Idle o | PopUnlock _ o => outcome_ok o
  | CheckStart v | CheckNode v | CheckAfter v _ _ | QuickFind v _ | QuickAfter v _ _ | CheckEnd v => 0 <= node_i v
  | ConnCall v => conn_vars_ok v /\ nodesOffset v < n
  | ConnNotMember v | ConnUpdate v _ _ => conn_vars_ok v /\ 0 <= nodesOffset v < n
  | StatusSet v i _ _ => conn_vars_ok v /\ 0 <= i < n
  | ConnLock v | ConnMatch v | ConnReport v _ | HostsCount v _ | HostsFind v _ _ _ _ | HostsChange v _
  | StatusCall v | StatusFind v _ | ConnCatch v | ConnUnlock v => conn_vars_ok v
  | _ => True
  end.

Lemma pc_ok_outside n n' p : inside p = false -> pc_ok n p -> pc_ok n' p.
Proof. by destruct p. Qed.

Definition master_ok (m : ReplicaSetMonitor) : Prop := -1 <= _master m < size m.

(** *** The monitor *)

Lemma throw_ok n e h : pc_ok n h -> pc_ok n (throw e h).
Proof. unfold throw. by destruct (is_exception e). Qed.
Lemma throw_flags e h : inside (throw e h) = inside h /\ gathering (throw e h) = gathering h.
Proof. unfold throw. by destruct (is_exception e). Qed.

Lemma at_node_ok i m : 0 <= i < size m -> exists n, at_node i m = Ok n.
Proof.
  intros Hi. unfold at_node, nth_node, size, zlen in *. destruct (Z.ltb_spec i 0); [lia|].
  destruct (lookup_lt_is_Some_2 (_nodes m) (Z.to_nat i)) as [n ->]; [lia|]. by exists n.
Qed.

Lemma size_insert i n m : size (set_nodes (<[i := n]> (_nodes m)) m) = size m.
Proof. unfold size, zlen. cbn. by rewrite length_insert. Qed.

Lemma change_node_ok f i m m' : change_node f i m = Ok m' -> size m' = size m /\ _master m' = _master m.
Proof. unfold change_node. destruct (at_node i m); [|done]. cbn [bind]. intros [= <-]. by rewrite size_insert. Qed.

Lemma find_from_range server ns : forall i x, find_from i ns server = Ok x -> 0 <= i -> x = -1 \/ i <= x < i + zlen ns.
Proof.
  induction ns as [|n ns IH]; intros i x; cbn [find_from]; [intros [= <-]; auto|].
  destruct (HostAndPort_string server); [|done]. cbn [bind]. rewrite zlen_cons. pose proof (zlen_nonneg ns).
  destruct (host_eq _ _); [intros [= <-]; lia|]. intros H' Hi. destruct (IH _ _ H' ltac:(lia)); lia.
Qed.

Lemma find_range server m x : _find_inlock server m = Ok x -> x = -1 \/ 0 <= x < size m.
Proof. intros H. destruct (find_from_range _ _ _ _ H ltac:(lia)); [by left|right; unfold size; lia]. Qed.

Lemma HostAndPort_string_error s e : HostAndPort_string s = Err e -> e <> VerifyFailed.
Proof.
  unfold HostAndPort_string, init. destruct (bool_decide _); cbn [massert bind]; [|by intros [= <-]].
  destruct (break_last _ _) as [[a b]|]; [|done]. unfold atoi. destruct (CNumber.strtoll b).
  - destruct (in_s _ _); cbn [bind]; [|by intros [= <-]]. destruct (_ >? 0); cbn; [done|by intros [= <-]].
  - cbn. by intros [= <-].
Qed.

Lemma find_error server m e : _find_inlock server m = Err e -> e <> VerifyFailed.
Proof.
  unfold _find_inlock. generalize 0. induction (_nodes m) as [|n ns IH]; intros i; cbn [find_from]; [done|].
  destruct (HostAndPort_string server) eqn:E; cbn [bind].
  - destruct (host_eq _ _); [done|]. apply IH.
  - intros [= <-]. by eapply HostAndPort_string_error.
Qed.

Lemma match_range c i m : _checkConnMatch_inlock c i m = true -> 0 <= i < size m.
Proof.
  unfold _checkConnMatch_inlock. destruct (_nodes m !! Z.to_nat i) eqn:E; [|done].
  apply lookup_lt_Some in E. intros [H _]%andb_prop. unfold size, zlen. lia.
Qed.

Lemma at_node_error i m e : at_node i m = Err e -> e = IndexOutside.
Proof.
  unfold at_node, nth_node. destruct (i <? 0); [by intros [= <-]|]. destruct (_ !! _); [done|by intros [= <-]].
Qed.

Lemma change_node_error f i m e : change_node f i m = Err e -> e = IndexOutside.
Proof.
  unfold change_node. destruct (at_node i m) eqn:E; [done|]. intros [= <-]. by apply at_node_error in E.
Qed.

Lemma getMaster_known_ok m : master_ok m -> exists r, getMaster_known m = Ok r.
Proof.
  intros [H1 H2]. unfold getMaster_known. replace (_master m <? size m) with true by (symmetry; apply Z.ltb_lt; lia).
  cbn [verify bind]. destruct (Z.geb_spec (_master m) 0); [|by eexists].
  destruct (at_node_ok (_master m) m) as [n ->]; [lia|]. by eexists.
Qed.

Lemma getMaster_checked_error m e : master_ok m -> getMaster_checked m = Err e -> e <> VerifyFailed.
Proof.
  intros [H1 H2]. unfold getMaster_checked. destruct (_ >=? 0); cbn [uassert bind]; [|by intros [= <-]].
  replace (_master m <? size m) with true by (symmetry; apply Z.ltb_lt; lia). cbn [verify bind].
  destruct (at_node _ _) eqn:E; [done|]. intros [= <-]. by apply at_node_error in E as ->.
Qed.

Lemma getSlave_loop_frame k : forall pl fb m m' r, getSlave_loop k pl fb m = (m', r) ->
  size m' = size m /\ _master m' = _master m /\ r <> Err VerifyFailed.
Proof.
  induction k as [|k IH]; intros pl fb m m' r; cbn [getSlave_loop]; [by intros [= <- <-]|].
  set (m1 := set_nextSlave (slave_after m) m).
  assert (forall fb, getSlave_loop k pl fb m1 = (m', r) ->
    size m' = size m /\ _master m' = _master m /\ r <> Err VerifyFailed) as Hgo by (intros fb' H; by apply IH in H).
  destruct (_ =? _); [by apply Hgo|]. destruct (at_node _ _) as [n|e] eqn:E.
  - destruct (okForSecondaryQueries n); [|by apply Hgo].
    destruct (_ || _); [by intros [= <- <-]|by apply Hgo].
  - apply at_node_error in E as ->. by intros [= <- <-].
Qed.

Lemma getSlave_frame pl m m' r : Monitor.getSlave pl m = (m', r) ->
  size m' = size m /\ _master m' = _master m /\ forall e, r = Err e -> e <> VerifyFailed.
Proof.
  unfold Monitor.getSlave. destruct (getSlave_loop _ _ _ m) as [m1 r1] eqn:E.
  apply getSlave_loop_frame in E as (Hs & Hm & Hr). intros [= <- <-]. split; [done|]. split; [done|].
  intros e. destruct r1 as [[h|fb]|e']; cbn [bind]; [done| |by intros [= <-] ->].
  destruct (negb _); [done|]. destruct ((_ >=? 0) && _).
  - destruct (at_node _ _) as [n|x] eqn:Ex; cbn [bind].
    + destruct (ok n); cbn [massert bind]; [done|by intros [= <-]].
    + apply at_node_error in Ex as ->. by intros [= <-].
  - cbn. by intros [= <-].
Qed.

Lemma select_frame p ts m s ts' m' : select_inlock p ts m = Ok (s, ts', m') -> size m' = size m /\ _master m' = _master m.
Proof.
  unfold select_inlock. destruct (selectNode _ _ _ _ _) as [[s1 ts1]|]; [|done]. by intros [= _ _ <-].
Qed.

Lemma notifyFailure_frame h m m' : master_ok m -> notifyFailure h m = Ok m' -> size m' = size m /\ master_ok m'.
Proof.
  intros Hm. unfold notifyFailure. destruct (_ && _); [|by intros [= <-]].
  destruct (at_node _ _); [|done]. cbn [bind]. destruct (host_eq _ _); [|by intros [= <-]].
  destruct (change_node _ _ _) as [m1|] eqn:E; [|done]. apply change_node_ok in E as [Hs _].
  cbn [bind]. intros [= <-]. split; [done|]. unfold master_ok in *. cbn.
  change (size (set_master (-1) m1)) with (size m1). rewrite Hs. lia.
Qed.

Lemma notifyFailure_error h m e : notifyFailure h m = Err e -> e <> VerifyFailed.
Proof.
  unfold notifyFailure. destruct (_ && _); [|done]. destruct (at_node _ _) eqn:E; cbn [bind].
  - destruct (host_eq _ _); [|done]. destruct (change_node _ _ _) eqn:E'; [done|]. intros [= <-].
    by apply change_node_error in E' as ->.
  - intros [= <-]. by apply at_node_error in E as ->.
Qed.

Lemma notifySlaveFailure_frame h m m' : master_ok m -> notifySlaveFailure h m = Ok m' -> size m' = size m /\ master_ok m'.
Proof.
  intros Hm. unfold notifySlaveFailure. destruct (_find_inlock _ _) as [x|]; [|done]. cbn [bind].
  destruct (_ >=? 0); [|by intros [= <-]]. intros [Hs Hm']%change_node_ok. split; [done|].
  unfold master_ok in *. by rewrite Hs, Hm'.
Qed.

Lemma notifySlaveFailure_error h m e : notifySlaveFailure h m = Err e -> e <> VerifyFailed.
Proof.
  unfold notifySlaveFailure. destruct (_find_inlock _ _) eqn:E; cbn [bind].
  - destruct (_ >=? 0); [|done]. by intros ->%change_node_error.
  - intros [= <-]. by eapply find_error.
Qed.

(** A loop that succeeds keeps an invariant that its body keeps. *)
Lemma for_elements_partial {S R} (body : S -> BSONElement -> result (step S R)) (I : S -> Prop) o s st :
  (forall s e st, I s -> body s e = Ok st -> exists s', st = Continue s' /\ I s') -> I s ->
  for_elements o s body = Ok st -> exists s', st = Continue s' /\ I s'.
Proof.
  intros Hb Hs H. unfold for_elements in H. apply bind_ok_inv in H as (i & _ & H).
  revert i s Hs H. generalize (fuel_of o). induction n as [|n IH]; intros i s Hs H; [done|].
  cbn [loop_more] in H. destruct (more i); [|injection H as <-; by exists s].
  apply bind_ok_inv in H as ([e i'] & _ & H). apply bind_ok_inv in H as (st' & Hst & H).
  destruct (Hb s e st' Hs Hst) as (s1 & -> & Hs1). by apply (IH i' s1).
Qed.

Lemma diff_parsed hl m added removed : _nodes m <> [] -> _getHostDiff_inlock hl m = Ok (added, removed) ->
  forall s, In s added -> exists h, HostAndPort_string s = Ok h.
Proof.
  intros Hne H. unfold _getHostDiff_inlock in H. apply bind_ok_inv in H as ([a f] & H & [= <- <-]).
  destruct (for_elements _ _ _) as [st|] eqn:E; [|done].
  apply (for_elements_partial _ (fun st => forall s, In s (fst st) -> exists h, HostAndPort_string s = Ok h)) in E
    as (s' & -> & Hs'); [by injection H as ->| |by intros s []].
  intros [a1 f1] e st' Hi Hb. apply bind_ok_inv in Hb as (x & _ & Hb). apply bind_ok_inv in Hb as (i & Hf & Hb).
  destruct (i <? 0); injection Hb as <-; (eexists; split; [done|]); [|done]. cbn [fst] in *.
  intros s [-> |Hs]%string_insert_in; [|by apply Hi]. unfold _find_inlock in Hf. destruct (_nodes m) as [|n ns]; [done|].
  cbn [find_from] in Hf. apply bind_ok_inv in Hf as (h & Hh & _). by exists h.
Qed.

Lemma _checkHosts_master connect hl m m' c r : master_ok m -> _checkHosts connect hl m = (m', c, r) -> master_ok m'.
Proof.
  intros Hm. unfold _checkHosts. destruct (_shouldChangeHosts _ _ _) as [[|]|]; [|by intros [= <- _ _]..].
  destruct (_getHostDiff_inlock hl m) as [[added removed]|] eqn:Ed; [|by intros [= <- _ _]].
  destruct (_ || _); [|by intros [= <- _ _]].
  destruct (add_nodes connect added (erase_nodes removed (_nodes m))) as [ns r'] eqn:Ea.
  destruct (decide (_nodes m = [])) as [En|En].
  - assert (_master m = -1) as Hneg by (unfold master_ok, size, zlen in Hm; rewrite En in Hm; cbn in Hm; lia).
    destruct r'; intros [= <- _ _]; unfold master_ok, size, zlen; cbn; lia.
  - rewrite (add_nodes_ok _ _ _ (diff_parsed hl m added removed En Ed)) in Ea. injection Ea as <- <-.
    intros [= <- _ _]. unfold master_ok, size, zlen. cbn. lia.
Qed.

(** *** The actions *)

(** What an action that leaves the other locks alone does. *)
Record good_step (m m' : ReplicaSetMonitor) (p p' : pc) : Prop := {
  good_master : master_ok m';
  good_pc : pc_ok (size m') p';
  good_size : inside p = false -> size m' = size m;
  good_inside : inside p' = inside p;
  good_gathering : gathering p' = gathering p
}.

Lemma good_same m p p' : master_ok m -> pc_ok (size m) p' -> inside p' = inside p -> gathering p' = gathering p ->
  good_step m m p p'.
Proof. by split. Qed.

Lemma good_frame m m' p p' : master_ok m -> size m' = size m -> _master m' = _master m ->
  pc_ok (size m) p' -> inside p' = inside p -> gathering p' = gathering p -> good_step m m' p p'.
Proof. intros Hm Hs Hm' Hp Hi Hg. split; try done; [unfold master_ok in *; by rewrite Hs, Hm'|by rewrite Hs]. Qed.

Lemma good_throw m p e h : master_ok m -> pc_ok (size m) h -> inside h = inside p -> gathering h = gathering p ->
  good_step m m p (throw e h).
Proof.
  intros Hm Hp Hi Hg. destruct (throw_flags e h) as [H1 H2]. apply good_same; [done|by apply throw_ok|congruence|congruence].
Qed.

(** Where [_check] goes, outside a check of a connection. *)
Definition plain (g : bool) (p : pc) : Prop := inside p = false /\ gathering p = g /\ forall n, pc_ok n p.

Lemma plain_return k : plain (for_populate k) (return_to k).
Proof. by destruct k. Qed.
Lemma plain_leave k e : e <> VerifyFailed -> plain (for_populate k) (leave k e).
Proof.
  intros He. unfold leave, plain.
  match goal with |- inside (throw e ?h) = _ /\ _ => destruct (throw_flags e h) as [-> ->] end.
  split; [by destruct k|]. split; [by destruct k|]. intros n. apply throw_ok. by destruct k.
Qed.
Lemma plain_next v : 0 <= node_i v -> plain (for_populate (check_kont v)) (next_node v).
Proof. intros H. split; [done|]. split; [done|]. intros n. cbn. lia. Qed.
Lemma plain_quick v maybe : 0 <= node_i v -> plain (for_populate (check_kont v)) (quick_check v maybe).
Proof. intros H. unfold quick_check. destruct (_ && _); [done|]. by apply plain_next. Qed.
Lemma plain_end v : 0 <= node_i v -> plain (for_populate (check_kont v)) (end_retry v).
Proof.
  intros H. unfold end_retry. destruct (_ >=? 0); [apply plain_return|]. destruct (_ <? _)%nat; done.
Qed.
Lemma plain_connection c i k g : conn_vars_ok (MkConnVars c i false [] k) ->
  conn_for_populate (MkConnVars c i false [] k) = g -> plain g (check_connection c i k).
Proof. done. Qed.
Create HintDb monitor.
#[local] Hint Resolve plain_return plain_leave plain_next plain_quick plain_end plain_connection : monitor.

Lemma plain_good m p q g : master_ok m -> plain g q -> inside p = false -> gathering p = g -> good_step m m p q.
Proof. intros Hm (Hi & Hg & Hp) H1 H2. apply good_same; [done|done|congruence|congruence]. Qed.

Lemma plain_frame m m' p q g : master_ok m -> size m' = size m -> _master m' = _master m ->
  plain g q -> inside p = false -> gathering p = g -> good_step m m' p q.
Proof. intros Hm Hs Hm' (Hi & Hg & Hp) H1 H2. apply good_frame; [done|done|done|done|congruence|congruence]. Qed.

Lemma with_conn_good f i m p skip k m' q g : master_ok m -> 0 <= i < size m -> with_conn f i m skip k = (m', q) ->
  plain g skip -> (forall c, plain g (k c)) -> inside p = false -> gathering p = g -> good_step m m' p q.
Proof.
  intros Hm Hi H Hskip Hk H1 H2. unfold with_conn in H. destruct (at_node_ok i m Hi) as [n Hn]. rewrite Hn in H.
  destruct (_getConnWithRefresh f n) as [n' c]. injection H as <- <-.
  apply (plain_frame m _ p _ g); [done|apply size_insert|done| |done|done]. by destruct c.
Qed.

Lemma found_master_good v c i m p go m' q : master_ok m -> 0 <= node_i v -> found_master v c i m go = (m', q) ->
  (forall w, 0 <= node_i w -> check_kont w = check_kont v -> plain (for_populate (check_kont v)) (go w)) ->
  inside p = false -> gathering p = for_populate (check_kont v) -> good_step m m' p q.
Proof.
  intros Hm Hv H Hgo H1 H2. unfold found_master in H. destruct (_checkConnMatch_inlock c i m) eqn:E; injection H as <- <-.
  - apply match_range in E. assert (plain (for_populate (check_kont v))
      (if checkAllSecondaries v then go (with_newMaster i v) else return_to (check_kont v))) as (Hi & Hg & Hp).
    { destruct (checkAllSecondaries v); [by apply Hgo|auto with monitor]. }
    split; [unfold master_ok; cbn; change (size (set_master i m)) with (size m); lia|done|done|congruence|congruence].
  - eapply plain_good; [done|by apply plain_end|done|done].
Qed.

Lemma check_step_good c m p m' q : master_ok m -> pc_ok (size m) p -> check_step c m p = Some (m', q) ->
  good_step m m' p q.
Proof.
  intros Hm Hp H. destruct p; try done; destruct c; try done; cbn [check_step pc_ok] in *.
  - injection H as <- <-. apply (plain_good m _ _ (for_populate (check_kont v))); [done| |done|done].
    destruct (checkAllSecondaries v); [done|].
    destruct (getMaster_known_ok m Hm) as [[h|] ->]; [apply plain_return|done].
  - destruct (Z.geb_spec (node_i v) (size m)).
    + injection H as <- <-. eapply plain_good; [done|by apply plain_end|done|done].
    + injection H as H. eapply with_conn_good; [done| |exact H|by apply plain_next|by intros|done|done]. lia.
  - injection H as H. eapply found_master_good; [done|done|exact H| |done|done].
    intros w Hw <-. by apply plain_quick.
  - destruct (_find_inlock maybe m) as [idx|e] eqn:E.
    + destruct (Z.geb_spec idx 0).
      * injection H as H. eapply with_conn_good; [done| |exact H|by apply plain_next|by intros|done|done].
        apply find_range in E. lia.
      * injection H as <- <-. eapply plain_good; [done|by apply plain_next|done|done].
    + injection H as <- <-. eapply plain_good; [done|by eapply plain_leave, find_error|done|done].
  - injection H as H. eapply found_master_good; [done|done|exact H| |done|done].
    intros w Hw <-. by apply plain_next.
  - injection H as <- <-. destruct (plain_return (check_kont v)) as (Hi & Hg & Hq).
    assert (forall all, size (no_master all m) = size m /\ _master (no_master all m) = -1) as Hno.
    { intros all. unfold no_master. destruct all; [destruct (isAnyNodeOk _)|]; unfold size, zlen; cbn; by rewrite length_map. }
    destruct (Hno (checkAllSecondaries v)) as [Hs Hm']. split; [|done|done|done|done].
    unfold master_ok in *. rewrite Hs, Hm'. lia.
Qed.

(** Where [_checkConnection] goes, with [n] nodes. *)
Definition in_conn (n : Z) (v : ConnVars) (p : pc) : Prop :=
  inside p = true /\ gathering p = conn_for_populate v /\ pc_ok n p.

Lemma in_conn_same m v p q : master_ok m -> inside p = true -> gathering p = conn_for_populate v ->
  in_conn (size m) v q -> good_step m m p q.
Proof. intros Hm H1 H2 (Hi & Hg & Hp). apply good_same; [done|done|congruence|congruence]. Qed.

Lemma in_conn_caught n v e : conn_vars_ok v -> in_conn n v (caught v e).
Proof. intros Hv. unfold in_conn, caught. destruct (throw_flags e (ConnCatch v)) as [-> ->]. split; [done|]. split; [done|]. by apply throw_ok. Qed.

Lemma hosts_find_ok n v hl orig k hi m : conn_vars_ok v -> in_conn n v (hosts_find v hl orig k hi m).
Proof.
  intros Hv. unfold hosts_find. destruct (more hi); [|by destruct (_ && _)].
  destruct (bind _ _) as [[i hi']|e]; [|by apply in_conn_caught]. by destruct (i >=? 0).
Qed.

Lemma status_find_ok v hi m : conn_vars_ok v -> in_conn (size m) v (status_find v hi m).
Proof.
  intros Hv. unfold status_find. destruct (more hi); [|done].
  destruct (next hi) as [[e hi']|x]; cbn [bind]; [|by apply in_conn_caught].
  destruct (member_name e) as [h|x]; cbn [bind]; [|by apply in_conn_caught].
  destruct (_find_inlock h m) as [i|x] eqn:Ei; cbn [bind]; [|by apply in_conn_caught].
  destruct (Z.ltb_spec i 0); [done|]. destruct (member_ok e) as [g|x]; cbn [bind]; [|by apply in_conn_caught].
  apply find_range in Ei as [-> |Hi]; [lia|]. done.
Qed.

Lemma conn_reply_ok r v m : conn_vars_ok v -> nodesOffset v < size m -> in_conn (size m) v (conn_reply r v m).
Proof.
  intros Hv Ho. unfold conn_reply. destruct r as [[o t]|]; [|done].
  destruct (read_reply o (_name m)) as [[isM this]|e]; [|by apply in_conn_caught].
  cbv zeta. change (nodesOffset (with_answer isM (maybePrimary v) v)) with (nodesOffset v).
  destruct this; destruct (Z.geb_spec (nodesOffset v) 0);
    (split; [done|]; split; [done|]; cbn [pc_ok]; first [exact Hv | split; [exact Hv|cbn; lia]]).
Qed.

Lemma conn_report_ok n v o : conn_vars_ok v -> in_conn n v (conn_report v o).
Proof.
  intros Hv. unfold conn_report. destruct (reported_primary o) as [p|e]; [|by apply in_conn_caught].
  destruct (reported_hosts o) as [hl|e]; [done|].
  unfold in_conn, caught. set (w := with_answer _ _ _). destruct (throw_flags e (ConnCatch w)) as [-> ->].
  split; [done|]. split; [done|]. by apply throw_ok.
Qed.

Lemma set_ok_at_good b i m p v q m' k : master_ok m -> 0 <= i < size m -> set_ok_at b i m k = (m', q) ->
  inside p = true -> gathering p = conn_for_populate v -> in_conn (size m) v k -> good_step m m' p q.
Proof.
  intros Hm Hi H H1 H2 (Hki & Hkg & Hk). unfold set_ok_at in H.
  destruct (change_node (set_ok b) i m) as [m1|] eqn:E.
  - injection H as <- <-. apply change_node_ok in E as [Hs Hm']. apply good_frame; [done|done|done|done|congruence|congruence].
  - unfold change_node in E. destruct (at_node_ok i m Hi) as [n Hn]. by rewrite Hn in E.
Qed.

Lemma conn_update_good v o t m p m' q : master_ok m -> 0 <= nodesOffset v < size m -> conn_vars_ok v ->
  conn_update v o t m = (m', q) -> inside p = true -> gathering p = conn_for_populate v -> good_step m m' p q.
Proof.
  intros Hm Hi Hv H H1 H2. unfold conn_update, update_at in H. destruct (at_node_ok _ m Hi) as [n Hn]. rewrite Hn in H.
  cbn [bind] in H. destruct (update_node o t n) as [n'|e]; injection H as <- <-.
  - apply good_frame; [done|apply size_insert|done|done|done|done].
  - eapply in_conn_same; [done|done|done|by apply in_conn_caught].
Qed.

Lemma conn_step_good c m p m' q : master_ok m -> pc_ok (size m) p -> conn_step c m p = Some (m', q) -> good_step m m' p q.
Proof.
  intros Hm Hp H. destruct p; try done; destruct c; try done; cbn [conn_step pc_ok] in *.
  - injection H as <- <-. apply (in_conn_same m v); [done|done|done|]. unfold conn_match.
    destruct (Z.geb_spec (nodesOffset v) 0); [|split; [done|]; split; [done|]; split; [done|unfold master_ok in Hm; lia]].
    destruct (_checkConnMatch_inlock _ _ _) eqn:E; [|done]. apply match_range in E. split; [done|]. split; [done|].
    split; [done|lia].
  - injection H as <- <-. apply (in_conn_same m v); [done|done|done|]. destruct Hp. by apply conn_reply_ok.
  - destruct Hp as [Hv Hi]. injection H as H. eapply (set_ok_at_good _ _ _ _ v); [done|exact Hi|exact H|done|done|done].
  - destruct Hp as [Hv Hi]. injection H as H. by eapply conn_update_good.
  - injection H as <- <-. apply (in_conn_same m v); [done|done|done|]. by apply conn_report_ok.
  - injection H as <- <-. apply (in_conn_same m v); [done|done|done|].
    destruct (BSONObjIterator_of hostList); [done|by apply in_conn_caught].
  - injection H as <- <-. apply (in_conn_same m v); [done|done|done|]. by apply hosts_find_ok.
  - destruct (_checkHosts _ hostList m) as [[m1 ch] r] eqn:E. injection H as <- <-.
    apply _checkHosts_master in E; [|done].
    assert (in_conn (size m1) v (match r with Ok _ => StatusCall v | Err e => caught v e end)) as (Hi & Hg & Hq)
      by (destruct r; [done|by apply in_conn_caught]).
    split; [done|done|done|exact Hi|exact Hg].
  - injection H as <- <-. apply (in_conn_same m v); [done|done|done|]. destruct r as [[st|]|]; [|done..].
    destruct (bind _ _) as [[hi|]|e]; [done|done|by apply in_conn_caught].
  - injection H as <- <-. apply (in_conn_same m v); [done|done|done|]. by apply status_find_ok.
  - destruct Hp as [Hv Hi]. injection H as H. eapply (set_ok_at_good _ _ _ _ v); [done|exact Hi|exact H|done|done|done].
  - destruct ((nodesOffset v >=? 0) && _) eqn:E.
    + apply andb_prop in E as [_ E%match_range]. injection H as H.
      eapply (set_ok_at_good _ _ _ _ v); [done|exact E|exact H|done|done|done].
    + injection H as <- <-. by apply (in_conn_same m v).
Qed.

Lemma plain_finish {A} w (r : result A) f : (forall a, r = Ok a -> plain false (f a)) ->
  (forall e, r = Err e -> outcome_ok (Threw w e)) -> plain false (finish_call w r f).
Proof.
  intros Hf He. destruct r as [a|e]; cbn [finish_call]; [by apply Hf|].
  destruct (throw_flags e (Idle (Threw w e))) as [H1 H2]. split; [done|]. split; [done|]. intros n. apply throw_ok. by apply He.
Qed.

Lemma plain_throw w e : outcome_ok (Threw w e) -> plain false (throw e (Idle (Threw w e))).
Proof. intros He. apply (plain_finish w (Err e : result unit) (fun _ => BadIndex)); [done|by intros ? [= <-]]. Qed.

Lemma change_call_good w m r p m' q : master_ok m -> change_call w m r = (m', q) -> inside p = false -> gathering p = false ->
  (forall m1, r = Ok m1 -> size m1 = size m /\ master_ok m1) -> (forall e, r = Err e -> outcome_ok (Threw w e)) ->
  good_step m m' p q.
Proof.
  intros Hm H Hi Hg Hok He. unfold change_call in H. destruct r as [m1|e]; injection H as <- <-.
  - destruct (Hok m1 eq_refl) as [Hs H1]. split; done.
  - eapply plain_good; [done|by apply plain_throw, He|done|done].
Qed.

Lemma call_step_good c m p m' q : master_ok m -> pc_ok (size m) p -> call_step c m p = Some (m', q) -> good_step m m' p q.
Proof.
  intros Hm Hp H. destruct p; try done; destruct c; try done; cbn [call_step pc_ok] in *.
  - injection H as <- <-. apply (plain_good m _ _ false); [done| |done|done].
    destruct (getMaster_known_ok m Hm) as [r ->]. apply plain_finish; [by intros [h|] _|done].
  - injection H as <- <-. apply (plain_good m _ _ false); [done| |done|done].
    apply plain_finish; [done|]. intros e He. by apply (getMaster_checked_error m e).
  - injection H as <- <-. apply (plain_good m _ _ false); [done| |done|done].
    apply plain_finish; [by intros [|]|]. intros e. unfold getSlave_prev.
    pose proof (port_range prev). replace (port prev >=? 0) with true by (symmetry; apply Z.geb_le; lia).
    cbn [verify bind]. destruct (bool_decide _); [done|]. by destruct (List.find _ _).
  - destruct (Monitor.getSlave preferLocal m) as [m1 r] eqn:E. injection H as <- <-.
    apply getSlave_frame in E as (Hs & Hm' & He). apply (plain_frame m _ _ _ false); [done|done|done| |done|done].
    by apply plain_finish.
  - injection H as H. unfold select_part in H. destruct (select_inlock p ts m) as [[[s ts'] m1]|e] eqn:E; injection H as <- <-.
    + apply select_frame in E as [Hs Hm']. apply (plain_frame m _ _ _ false); [done|done|done| |done|done].
      by destruct (host_empty _).
    + eapply plain_good; [done|by apply plain_throw|done|done].
  - destruct (select_inlock p ts m) as [[[s ts'] m1]|e] eqn:E; injection H as <- <-.
    + apply select_frame in E as [Hs Hm']. by apply (plain_frame m _ _ _ false).
    + eapply plain_good; [done|by apply plain_throw|done|done].
  - injection H as H. eapply change_call_good; [done|exact H|done|done| |].
    + intros m1 H1. by eapply notifyFailure_frame.
    + intros e He. by eapply notifyFailure_error.
  - injection H as H. eapply change_call_good; [done|exact H|done|done| |].
    + intros m1 H1. by eapply notifySlaveFailure_frame.
    + intros e He. by eapply notifySlaveFailure_error.
  - injection H as <- <-. apply (plain_good m _ _ false); [done| |done|done]. by destruct (bool_decide _).
  - destruct (Z.geb_spec (_master m) 0); [|by injection H as <- <-; apply (plain_good m _ _ false)].
    destruct Hm as [Hm1 Hm2]. replace (_master m <? size m) with true in H by (symmetry; apply Z.ltb_lt; lia).
    injection H as H. by eapply (with_conn_good _ _ _ _ _ _ _ _ false); [done|split; [|exact Hm2]|exact H|..].
  - injection H as <- <-. by apply (plain_good m _ _ false).
  - injection H as <- <-. unfold populate_next. destruct rest as [|h rest]; [by apply (plain_good m _ _ true)|].
    destruct (_find_inlock _ m) as [i|e].
    + apply (plain_good m _ _ true); [done| |done|done]. by destruct (i >=? 0).
    + by apply good_throw.
  - injection H as <- <-. apply (plain_good m _ _ true); [done| |done|done]. unfold populate_connect.
    destruct (_ || _); [|done]. by destruct (f h).
Qed.

(** *** The invariant *)

Record Inv (w : threads) : Prop := {
  inv_master : master_ok (mon (shared w));
  inv_pc : forall i p, agents w !! i = Some p -> pc_ok (size (mon (shared w))) p;
  inv_conn : count inside (agents w) = Z.b2z (_checkConnectionLock (shared w));
  inv_sets : count gathering (agents w) = Z.b2z (_setsLock (shared w))
}.

(** What one action must do to keep it. *)
Record good_exec (s s' : Shared) (p p' : pc) : Prop := {
  exec_master : master_ok (mon s');
  exec_pc : pc_ok (size (mon s')) p';
  exec_size : inside p = false -> size (mon s') = size (mon s);
  exec_conn : Z.b2z (_checkConnectionLock s') = Z.b2z (_checkConnectionLock s) - Z.b2z (inside p) + Z.b2z (inside p');
  exec_sets : Z.b2z (_setsLock s') = Z.b2z (_setsLock s) - Z.b2z (gathering p) + Z.b2z (gathering p')
}.

Lemma conn_return_plain v : conn_vars_ok v -> plain (conn_for_populate v) (conn_return v).
Proof.
  unfold conn_vars_ok, conn_for_populate, conn_return. destruct (conn_kont_of v) as [cv|cv i|all|c rest]; intros Hv.
  - destruct (isMaster v); [done|by apply plain_quick].
  - destruct (isMaster v); [done|by apply plain_next].
  - by destruct (_ && _).
  - done.
Qed.

Lemma lock_step_good c s p s' q : master_ok (mon s) -> pc_ok (size (mon s)) p ->
  (inside p = true -> _checkConnectionLock s = true) -> (gathering p = true -> _setsLock s = true) ->
  lock_step c s p = Some (s', q) -> good_exec s s' p q.
Proof.
  intros Hm Hp Hc Hs H. destruct p; try done; destruct c; try done; cbn [lock_step pc_ok] in *.
  - destruct (published s); [|done]. injection H as <- <-. destruct c; split; done || (cbn; lia).
  - destruct (_setsLock s) eqn:E; [done|]. injection H as <- <-.
    destruct (bool_decide _); split; try done; cbn; rewrite ?E; cbn; lia.
  - destruct (_setsLock s) eqn:E; [done|]. injection H as <- <-. split; try done; cbn; rewrite ?E; cbn; lia.
  - injection H as <- <-. destruct (bool_decide _); split; done || (cbn; lia).
  - injection H as <- <-. specialize (Hs eq_refl). destruct (constructor && _); split; try done; cbn; rewrite ?Hs; cbn; lia.
  - destruct (_checkConnectionLock s) eqn:E; [done|]. injection H as <- <-. split; try done; cbn; rewrite ?E; cbn; lia.
  - injection H as <- <-. destruct (conn_return_plain v Hp) as (Hi & Hg & Hq). specialize (Hc eq_refl).
    split; try done; cbn [mon set_checkConnectionLock _checkConnectionLock _setsLock]; rewrite ?Hi, ?Hg, ?Hc; cbn; lia.
Qed.

Lemma good_step_exec s m p q : good_step (mon s) m p q -> good_exec s (set_mon m s) p q.
Proof. intros [H1 H2 H3 H4 H5]. split; try done; cbn [set_mon _checkConnectionLock _setsLock]; rewrite ?H4, ?H5; lia. Qed.

Lemma exec_good c s p s' q : master_ok (mon s) -> pc_ok (size (mon s)) p ->
  (inside p = true -> _checkConnectionLock s = true) -> (gathering p = true -> _setsLock s = true) ->
  exec c s p = Some (s', q) -> good_exec s s' p q.
Proof.
  intros Hm Hp Hc Hs H. unfold exec in H. destruct (lock_step c s p) as [[s1 q1]|] eqn:E1.
  { injection H as <- <-. by eapply lock_step_good. }
  destruct (call_step c (mon s) p) as [[m q1]|] eqn:E2.
  { injection H as <- <-. by eapply good_step_exec, call_step_good. }
  destruct (check_step c (mon s) p) as [[m q1]|] eqn:E3.
  { injection H as <- <-. by eapply good_step_exec, check_step_good. }
  destruct (conn_step c (mon s) p) as [[m q1]|] eqn:E4; [|done].
  injection H as <- <-. by eapply good_step_exec, conn_step_good.
Qed.

Lemma flag_of_count (f : pc -> bool) ps i p b : ps !! i = Some p -> count f ps = Z.b2z b -> f p = true -> b = true.
Proof. intros Hi Hc Hf. pose proof (count_pos f ps i p Hi Hf). destruct b; [done|cbn in Hc; lia]. Qed.

Lemma Inv_step w i c p s' q : Inv w -> agents w !! i = Some p -> exec c (shared w) p = Some (s', q) ->
  Inv (World s' (<[i := q]> (agents w))).
Proof.
  intros [Hm Hpc Hc Hs] Hi He. destruct (exec_good c (shared w) p s' q Hm (Hpc i p Hi)) as [H1 H2 H3 H4 H5]; [..|done|].
  { by apply (flag_of_count inside (agents w) i). }
  { by apply (flag_of_count gathering (agents w) i). }
  split; cbn [shared agents].
  - done.
  - intros j r Hj. destruct (decide (j = i)) as [-> |Hne].
    + rewrite list_lookup_insert_eq in Hj by (by eapply lookup_lt_Some). by simplify_eq.
    + rewrite list_lookup_insert_ne in Hj by done. specialize (Hpc j r Hj). destruct (inside p) eqn:Ep.
      * destruct (inside r) eqn:Er; [|by eapply pc_ok_outside].
        pose proof (count_two inside (agents w) i j p r ltac:(done) Hi Hj Ep Er). destruct (_checkConnectionLock (shared w)); cbn in Hc; lia.
      * by rewrite (H3 eq_refl).
  - rewrite (count_insert inside _ _ _ _ Hi). lia.
  - rewrite (count_insert gathering _ _ _ _ Hi). lia.
Qed.

Lemma Inv_reachable name thr seeds n w : monitor_reachable name thr seeds n w -> Inv w.
Proof.
  apply pool_invariant.
  - split; cbn [shared agents monitor_start mon].
    + done.
    + intros [|i] p; cbn; [by intros [= <-]|]. intros [-> _]%lookup_replicate. done.
    + cbn. by rewrite count_replicate, Z.mul_0_r.
    + cbn. by rewrite count_replicate, Z.mul_0_r.
  - intros w1 i c p s' q. apply Inv_step.
Qed.

(** *** Indices *)

(** The thread used no index outside the nodes. *)
Definition in_nodes (p : pc) : bool :=
  match p with BadIndex | Broken _ IndexOutside => false | _ => true end.

Lemma in_nodes_throw e h : e <> IndexOutside -> in_nodes h = true -> in_nodes (throw e h) = true.
Proof. intros He Hh. unfold throw. destruct (is_exception e); [done|]. by destruct e. Qed.

Lemma in_nodes_leave k e : e <> IndexOutside -> in_nodes (leave k e) = true.
Proof. intros He. apply (in_nodes_throw e _ He). by destruct k. Qed.

Lemma in_nodes_caught v e : e <> IndexOutside -> in_nodes (caught v e) = true.
Proof. intros He. by apply (in_nodes_throw e). Qed.

Lemma in_nodes_finish {A} w (r : result A) f : index_kept r -> (forall a, in_nodes (f a) = true) -> in_nodes (finish_call w r f) = true.
Proof. intros Hr Hf. destruct r as [a|e]; [apply Hf|]. apply in_nodes_throw; [by apply index_kept_neq in Hr|done]. Qed.

Lemma in_nodes_change w m r : index_kept r -> in_nodes (snd (change_call w m r)) = true.
Proof. intros Hr. destruct r as [a|e]; [done|]. apply in_nodes_throw; [by apply index_kept_neq in Hr|done]. Qed.

Lemma in_nodes_return k : in_nodes (return_to k) = true.
Proof. by destruct k. Qed.
Lemma in_nodes_quick v maybe : in_nodes (quick_check v maybe) = true.
Proof. unfold quick_check. by destruct (_ && _). Qed.
Lemma in_nodes_end v : in_nodes (end_retry v) = true.
Proof. unfold end_retry. destruct (_ >=? 0); [apply in_nodes_return|]. by destruct (_ <? _)%nat. Qed.

(** The uses of the indices that the monitor keeps. *)
Lemma index_at_node i m : 0 <= i < size m -> index_kept (at_node i m).
Proof. intros Hi. by destruct (at_node_ok i m Hi) as [n ->]. Qed.

Lemma index_change_node f i m : 0 <= i < size m -> index_kept (change_node f i m).
Proof. intros Hi. unfold change_node. by destruct (at_node_ok i m Hi) as [n ->]. Qed.

Lemma index_getMaster_checked m : master_ok m -> index_kept (getMaster_checked m).
Proof.
  intros [H1 H2]. unfold getMaster_checked. destruct (Z.geb_spec (_master m) 0); [|done]. cbn [uassert bind].
  apply index_kept_bind; [index_tac|]. intros ? _. apply index_kept_bind; [apply index_at_node; lia|done].
Qed.

Lemma index_getSlave_prev prev m : index_kept (getSlave_prev prev m).
Proof. index_tac. Qed.

Lemma index_notifyFailure h m : master_ok m -> index_kept (notifyFailure h m).
Proof.
  intros [H1 H2]. unfold notifyFailure. destruct (Z.geb_spec (_master m) 0); [|done]. destruct (_ <? _); [|done]. cbn [andb].
  apply index_kept_bind; [apply index_at_node; lia|]. intros n _. destruct (host_eq _ _); [|done].
  apply index_kept_bind; [apply index_change_node; lia|done].
Qed.

Lemma index_notifySlaveFailure h m : index_kept (notifySlaveFailure h m).
Proof.
  unfold notifySlaveFailure. apply index_kept_bind; [index_tac|]. intros x Hx%find_range.
  destruct (Z.geb_spec x 0); [|done]. apply index_change_node. lia.
Qed.

(** [_nextSlave] is an [int], and the number of nodes is not. *)
Lemma slave_after_range m : 0 < size m < 2 ^ 31 -> 0 <= slave_after m < size m.
Proof.
  intros [H1 H2]. unfold slave_after. pose proof (Z.mod_pos_bound (u64 (_nextSlave m + 1)) (size m) H1) as Hr.
  rewrite wrap_s_small; [done|lia|change (2 ^ (32 - 1)) with (2 ^ 31); lia].
Qed.

Lemma index_getSlave_loop k pl : forall fb m, 0 < size m < 2 ^ 31 -> index_kept (snd (getSlave_loop k pl fb m)).
Proof.
  induction k as [|k IH]; intros fb m Hs; cbn [getSlave_loop]; [done|]. set (m1 := set_nextSlave (slave_after m) m).
  assert (forall fb, index_kept (snd (getSlave_loop k pl fb m1))) as Hgo by (intros fb'; by apply IH).
  destruct (_ =? _); [apply Hgo|]. destruct (at_node_ok (_nextSlave m1) m1) as [n ->]; [by apply (slave_after_range m)|].
  destruct (okForSecondaryQueries n); [|apply Hgo]. by destruct (_ || _).
Qed.

Lemma index_getSlave pl m : master_ok m -> size m < 2 ^ 31 -> index_kept (snd (Monitor.getSlave pl m)).
Proof.
  intros Hm Hs. unfold Monitor.getSlave.
  assert (index_kept (snd (getSlave_loop (length (_nodes m)) pl HostAndPort_empty m))) as Hl.
  { destruct (_nodes m) as [|n ns] eqn:E; [done|]. apply index_getSlave_loop. unfold size, zlen in *. rewrite E in *. cbn in *. lia. }
  destruct (getSlave_loop _ _ _ m) as [m1 r1] eqn:E. apply getSlave_loop_frame in E as (Hs1 & Hm1 & _). cbn [snd] in *.
  apply index_kept_bind; [done|]. intros [h|fb] _; [done|]. destruct (negb _); [done|].
  unfold master_ok in Hm. destruct (Z.geb_spec (_master m1) 0); cbn [andb]; [|done].
  replace (_master m1 <? size m1) with true by (symmetry; apply Z.ltb_lt; lia).
  apply index_kept_bind; [apply index_kept_bind; [apply index_at_node; lia|done]|]. intros u _.
  apply index_kept_bind; [index_tac|]. intros ? _. apply index_kept_bind; [apply index_at_node; lia|done].
Qed.

Lemma with_conn_in_nodes f i m skip k m' q : with_conn f i m skip k = (m', q) -> q <> BadIndex ->
  in_nodes skip = true -> (forall c, in_nodes (k c) = true) -> in_nodes q = true.
Proof.
  intros H Hq Hs Hk. unfold with_conn in H. destruct (at_node i m) as [n|e]; [|by injection H as <- <-].
  destruct (_getConnWithRefresh f n) as [n' [c|]]; by injection H as <- <-.
Qed.

Lemma call_step_in_nodes c m p m' q : master_ok m -> call_step c m p = Some (m', q) -> q <> BadIndex ->
  in_nodes q = true \/ (exists pl, p = GetSlave pl) /\ 2 ^ 31 <= size m.
Proof.
  intros Hm H Hq. destruct p; try done; destruct c; try done; cbn [call_step] in H;
    try (injection H as <- <-; left).
  - apply in_nodes_finish; [by destruct (getMaster_known_ok m Hm) as [r ->]|by intros [h|]].
  - apply in_nodes_finish; [by apply index_getMaster_checked|done].
  - apply in_nodes_finish; [apply index_getSlave_prev|by intros []].
  - destruct (Z.lt_ge_cases (size m) (2 ^ 31)) as [Hs|]; [left|right; split; [by eexists|done]].
    pose proof (index_getSlave preferLocal m Hm Hs) as Hi. destruct (Monitor.getSlave preferLocal m) as [m1 r]. injection H as <- <-.
    by apply in_nodes_finish.
  - left. injection H as H. unfold select_part in H. pose proof (index_select p ts m) as Hi.
    destruct (select_inlock p ts m) as [[[s ts'] m1]|e]; injection H as <- <-; [by destruct (host_empty _)|apply in_nodes_throw; [by apply index_kept_neq in Hi|done]].
  - left. injection H as H. pose proof (index_select p ts m) as Hi.
    destruct (select_inlock p ts m) as [[[s ts'] m1]|e]; injection H as <- <-; [done|apply in_nodes_throw; [by apply index_kept_neq in Hi|done]].
  - left. injection H as H. pose proof (in_nodes_change InNotify m _ (index_notifyFailure server m Hm)) as Hi. by rewrite H in Hi.
  - left. injection H as H. pose proof (in_nodes_change InNotify m _ (index_notifySlaveFailure server m)) as Hi. by rewrite H in Hi.
  - by destruct (bool_decide _).
  - left. injection H as H. destruct (_ >=? 0); [|by injection H as <- <-]. destruct (_ <? _); [|by injection H as <- <-].
    by eapply with_conn_in_nodes.
  - done.
  - unfold populate_next. match goal with |- context [match ?l with [] => _ | _ => _ end] => destruct l as [|h rest'] end; [done|]. pose proof (index_find (host_toString true h) m) as Hi.
    destruct (_find_inlock _ m) as [i|e]; [by destruct (i >=? 0)|apply in_nodes_throw; [by apply index_kept_neq in Hi|done]].
  - unfold populate_connect. destruct (_ || _); [|done]. by destruct (f h).
Qed.

Lemma found_master_in_nodes v c i m go m' q : found_master v c i m go = (m', q) ->
  (forall w, in_nodes (go w) = true) -> in_nodes q = true.
Proof.
  intros H Hgo. unfold found_master in H. destruct (_checkConnMatch_inlock c i m); injection H as <- <-; [|apply in_nodes_end].
  destruct (checkAllSecondaries v); [apply Hgo|apply in_nodes_return].
Qed.

Lemma check_step_in_nodes c m p m' q : master_ok m -> check_step c m p = Some (m', q) -> q <> BadIndex -> in_nodes q = true.
Proof.
  intros Hm H Hq. destruct p; try done; destruct c; try done; cbn [check_step] in H.
  - injection H as <- <-. destruct (checkAllSecondaries v); [done|].
    destruct (getMaster_known_ok m Hm) as [[h|] ->]; [apply in_nodes_return|done].
  - injection H as H. destruct (_ >=? size m); [injection H as <- <-; apply in_nodes_end|by eapply with_conn_in_nodes].
  - injection H as H. eapply found_master_in_nodes; [exact H|]. intros w. apply in_nodes_quick.
  - injection H as H. pose proof (index_find maybe m) as Hi. destruct (_find_inlock maybe m) as [idx|e].
    + destruct (idx >=? 0); [by eapply with_conn_in_nodes|by injection H as <- <-].
    + injection H as <- <-. apply in_nodes_leave. by apply index_kept_neq in Hi.
  - injection H as H. by eapply found_master_in_nodes.
  - injection H as <- <-. apply in_nodes_return.
Qed.

(** An answer that is read goes on, or to the handler. *)
Lemma in_nodes_read {A} v (r : result A) f : index_kept r -> (forall a, in_nodes (f a) = true) ->
  in_nodes (match r with Ok a => f a | Err e => caught v e end) = true.
Proof. intros Hr Hf. destruct r as [a|e]; [apply Hf|]. apply in_nodes_caught. by apply index_kept_neq in Hr. Qed.

Lemma set_ok_at_in_nodes b i m k m' q : set_ok_at b i m k = (m', q) -> q <> BadIndex -> in_nodes k = true -> in_nodes q = true.
Proof. intros H Hq Hk. unfold set_ok_at in H. by destruct (change_node _ i m); injection H as <- <-. Qed.

Lemma hosts_find_in_nodes v hl orig n hi m : in_nodes (hosts_find v hl orig n hi m) = true.
Proof.
  unfold hosts_find. destruct (more hi); [|by destruct (_ && _)].
  match goal with |- context [match ?r with Ok _ => _ | Err _ => _ end] => assert (index_kept r) as Hr by index_tac; destruct r as [[i hi']|e] end.
  - by destruct (i >=? 0).
  - apply in_nodes_caught. by apply index_kept_neq in Hr.
Qed.

Lemma status_find_in_nodes v hi m : in_nodes (status_find v hi m) = true.
Proof.
  unfold status_find. destruct (more hi); [|done].
  pose proof (index_next hi) as H1. destruct (next hi) as [[e hi']|x]; cbn [bind]; [|apply in_nodes_caught; by apply index_kept_neq in H1].
  pose proof (index_member_name e) as H2. destruct (member_name e) as [h|x]; cbn [bind]; [|apply in_nodes_caught; by apply index_kept_neq in H2].
  pose proof (index_find h m) as H3. destruct (_find_inlock h m) as [i|x]; cbn [bind]; [|apply in_nodes_caught; by apply index_kept_neq in H3].
  destruct (i <? 0); [done|]. pose proof (index_member_ok e) as H4.
  destruct (member_ok e) as [g|x]; cbn [bind]; [done|apply in_nodes_caught; by apply index_kept_neq in H4].
Qed.

Lemma conn_reply_in_nodes r v m : in_nodes (conn_reply r v m) = true.
Proof.
  unfold conn_reply. destruct r as [[o t]|]; [|done]. apply (in_nodes_read v (read_reply o (_name m))); [index_tac|].
  intros [isM this]. by destruct this; destruct (_ >=? 0).
Qed.

Lemma conn_report_in_nodes v o : in_nodes (conn_report v o) = true.
Proof.
  unfold conn_report. apply (in_nodes_read v (reported_primary o)); [index_tac|]. intros p.
  apply in_nodes_read; [apply index_reported_hosts|done].
Qed.

Lemma conn_update_in_nodes v o t m m' q : conn_update v o t m = (m', q) -> q <> BadIndex -> in_nodes q = true.
Proof.
  intros H Hq. unfold conn_update, update_at in H. destruct (at_node _ m) as [n|e]; [|by injection H as <- <-]. cbn [bind] in H.
  pose proof (index_update_node o t n) as Hi. destruct (update_node o t n) as [n'|e]; injection H as <- <-; [done|].
  apply in_nodes_caught. by apply index_kept_neq in Hi.
Qed.

Lemma conn_step_in_nodes c m p m' q : conn_step c m p = Some (m', q) -> q <> BadIndex -> in_nodes q = true.
Proof.
  intros H Hq. destruct p; try done; destruct c; try done; cbn [conn_step] in H; try (injection H as H).
  - subst. unfold conn_match. destruct (_ >=? 0); [|done]. by destruct (_checkConnMatch_inlock _ _ _).
  - subst. apply conn_reply_in_nodes.
  - by eapply set_ok_at_in_nodes.
  - by eapply conn_update_in_nodes.
  - subst. apply conn_report_in_nodes.
  - subst. by apply in_nodes_read; [index_tac|].
  - subst. apply hosts_find_in_nodes.
  - match type of H with context [_checkHosts ?f ?l m] => pose proof (index_checkHosts f l m) as Hi end.
    destruct (_checkHosts _ _ m) as [[m1 ch] r]. injection H as <- <-. by apply in_nodes_read.
  - subst. destruct r as [[st|]|]; [|done..].
    match goal with |- context [match ?r with Ok _ => _ | Err _ => _ end] => assert (index_kept r) as Hr by index_tac; destruct r as [[hi|]|e] end; try done.
    apply in_nodes_caught. by apply index_kept_neq in Hr.
  - subst. apply status_find_in_nodes.
  - by eapply set_ok_at_in_nodes.
  - destruct (_ && _); [by eapply set_ok_at_in_nodes|by injection H as <- <-].
Qed.

Lemma lock_step_in_nodes c s p s' q : lock_step c s p = Some (s', q) -> in_nodes q = true.
Proof.
  intros H. destruct p; try done; destruct c; try done; cbn [lock_step] in H.
  - destruct (published s); [|done]. injection H as <- <-. by destruct c.
  - destruct (_setsLock s); [done|]. injection H as <- <-. by destruct (bool_decide _).
  - destruct (_setsLock s); [done|]. by injection H as <- <-.
  - injection H as <- <-. by destruct (bool_decide _).
  - by injection H as <- <-.
  - destruct (_checkConnectionLock s); [done|]. by injection H as <- <-.
  - injection H as <- <-. unfold conn_return. destruct (conn_kont_of v) as [cv|cv i|all|c rest]; try done.
    + destruct (isMaster v); [done|apply in_nodes_quick].
    + by destruct (isMaster v).
    + by destruct (_ && _).
Qed.

Lemma exec_in_nodes c s p s' q : master_ok (mon s) -> exec c s p = Some (s', q) -> q <> BadIndex ->
  in_nodes q = true \/ (exists pl, p = GetSlave pl) /\ 2 ^ 31 <= size (mon s).
Proof.
  intros Hm H Hq. unfold exec in H. destruct (lock_step c s p) as [[s1 q1]|] eqn:E1.
  { injection H as <- <-. left. by eapply lock_step_in_nodes. }
  destruct (call_step c (mon s) p) as [[m q1]|] eqn:E2.
  { injection H as <- <-. by eapply call_step_in_nodes. }
  destruct (check_step c (mon s) p) as [[m q1]|] eqn:E3.
  { injection H as <- <-. left. by eapply check_step_in_nodes. }
  destruct (conn_step c (mon s) p) as [[m q1]|] eqn:E4; [|done].
  injection H as <- <-. left. by eapply conn_step_in_nodes.
Qed.

(** C29: Threads that use one monitor in any interleaving, with servers that
    answer anything or nothing: [_master] is always an index of the nodes or
    -1; no action uses an index outside the nodes, in any method, although most
    indices are found in one part and used in a later one (but for [getSlave],
    whose index is an [int], with 2^31 nodes or more); the assertions of
    [getMaster], [getSlave], [notifyFailure], [check] and [_check] hold; and no
    two threads are in a check of a connection, or gather the nodes, at a
    time. *)
Theorem monitor_safe name thr hosts n w :
  monitor_reachable name thr hosts n w ->
  -1 <= _master (mon (shared w)) < size (mon (shared w))
  /\ (forall i p, agents w !! i = Some p -> p <> BadIndex)
  /\ (forall i c p s q, agents w !! i = Some p -> exec c (shared w) p = Some (s, q) ->
        in_nodes q = true \/ (exists pl, p = GetSlave pl) /\ 2 ^ 31 <= size (mon (shared w)))
  /\ (forall i s, agents w !! i = Some (Idle (Threw s VerifyFailed)) -> s = InSelect \/ s = InPopulate)
  /\ (forall i j p q, i <> j -> agents w !! i = Some p -> agents w !! j = Some q ->
        (inside p && inside q = false) /\ (gathering p && gathering q = false)).
Proof.
  intros H. pose proof (Inv_reachable _ _ _ _ _ H) as HI. pose proof HI as [Hm Hp Hc Hs].
  split; [done|]. split; [|split; [|split]].
  - intros i p Hi ->. exact (Hp i _ Hi).
  - intros i c p s q Hi He. eapply exec_in_nodes; [done|exact He|]. intros ->.
    destruct (exec_good c (shared w) p s BadIndex Hm (Hp i p Hi)) as [_ [] _ _ _]; [..|done].
    + by apply (flag_of_count inside (agents w) i).
    + by apply (flag_of_count gathering (agents w) i).
  - intros i s Hi. apply Hp in Hi. destruct s; auto; by exfalso; apply Hi.
  - intros i j p q Hij Hi Hj. split; apply not_true_is_false; intros [H1 H2]%andb_prop.
    + pose proof (count_two inside _ i j p q Hij Hi Hj H1 H2). destruct (_checkConnectionLock _); cbn in Hc; lia.
    + pose proof (count_two gathering _ i j p q Hij Hi Hj H1 H2). destruct (_setsLock _); cbn in Hs; lia.
Qed.

(** ** Progress *)

(** At rest, or where the program has no defined behaviour. *)
Definition resting (p : pc) : bool :=
  match p with Idle _ | BadIndex | Broken _ _ => true | _ => false end.
Definition broken (p : pc) : bool := match p with BadIndex | Broken _ _ => true | _ => false end.

(** The threads that must wait for a lock. *)
Definition waits (s : Shared) (p : pc) : bool :=
  match p with
  | ConnLock _ => _checkConnectionLock s
  | PopLock | Construct => _setsLock s
  | _ => false
  end.

Lemma exec_possible c s p :
  is_Some (lock_step c s p) \/ is_Some (call_step c (mon s) p) \/ is_Some (check_step c (mon s) p)
    \/ is_Some (conn_step c (mon s) p) -> exists c r, exec c s p = Some r.
Proof.
  intros H. exists c. unfold exec.
  destruct (lock_step c s p); [by eexists|]. destruct (call_step c _ p) as [[m q]|]; [by eexists|].
  destruct (check_step c _ p) as [[m q]|]; [by eexists|]. destruct (conn_step c _ p) as [[m q]|]; [by eexists|].
  by destruct H as [[]|[[]|[[]|[]]]].
Qed.

Lemma step_possible s p : resting p = false -> waits s p = false -> exists c r, exec c s p = Some r.
Proof.
  intros Hr Hw. set (no := fun _ : HostAndPort => NoConnection).
  destruct p; try done; cbn [waits resting] in *;
    first [ apply (exec_possible Run); cbn; rewrite ?Hw; (left; by eexists) || (right; left; by eexists)
              || (right; right; left; by eexists) || (right; right; right; by eexists)
          | apply (exec_possible (Connect no)); (right; left; by eexists)
              || (right; right; left; by eexists) || (right; right; right; by eexists)
          | by exists (IsMasterReply None); eexists
          | by exists (StatusReply None); eexists
          | idtac ].
  - apply (exec_possible Run). right. left. cbn. destruct (Monitor.getSlave _ _). by eexists.
  - apply (exec_possible (Connect no)). right. right. right. cbn. destruct (_checkHosts _ _ _) as [[? ?] ?]. by eexists.
Qed.

(** A world where some thread can act that is not at rest. *)
Definition moves (w : threads) : Prop :=
  exists i p c w', agents w !! i = Some p /\ resting p = false /\ act exec i c w = Some w'.

Lemma moves_intro w i p : agents w !! i = Some p -> resting p = false -> waits (shared w) p = false -> moves w.
Proof.
  intros Hi Hr Hw. destruct (step_possible (shared w) p Hr Hw) as (c & [s q] & He).
  exists i, p, c, (World s (<[i := q]> (agents w))). split; [done|]. split; [done|]. unfold act. by rewrite Hi; cbn; rewrite He.
Qed.

Lemma inside_awake s p : inside p = true -> broken p = false -> resting p = false /\ waits s p = false.
Proof. by destruct p. Qed.

(** Someone inside a check of a connection can act. *)
Lemma conn_moves w : Inv w -> (forall i p, agents w !! i = Some p -> broken p = false) ->
  _checkConnectionLock (shared w) = true -> moves w.
Proof.
  intros HI Hb Hl. pose proof (inv_conn w HI) as Hc. rewrite Hl in Hc.
  destruct (count_exists inside (agents w)) as (i & p & Hi & Hp); [rewrite Hc; done|].
  destruct (inside_awake (shared w) p Hp (Hb i p Hi)). by eapply moves_intro.
Qed.

Lemma gathering_awake s p : gathering p = true -> broken p = false ->
  resting p = false /\ (waits s p = true -> _checkConnectionLock s = true).
Proof. by destruct p. Qed.

Lemma sets_moves w : Inv w -> (forall i p, agents w !! i = Some p -> broken p = false) ->
  _setsLock (shared w) = true -> moves w.
Proof.
  intros HI Hb Hl. pose proof (inv_sets w HI) as Hs. rewrite Hl in Hs.
  destruct (count_exists gathering (agents w)) as (i & p & Hi & Hp); [rewrite Hs; done|].
  destruct (gathering_awake (shared w) p Hp (Hb i p Hi)) as [Hr Hw].
  destruct (waits (shared w) p) eqn:E; [apply conn_moves; auto|by eapply moves_intro].
Qed.

(** C30: The three locks cannot block all threads: in any world that threads
    can reach, while some thread is in a call, some thread in a call can act;
    [_setsLock] is held across whole checks of connections, which take
    [_checkConnectionLock] in turn, but never the other way round. *)
Theorem monitor_progress name thr hosts n w :
  monitor_reachable name thr hosts n w ->
  (forall i p, agents w !! i = Some p -> broken p = false) ->
  (exists i p, agents w !! i = Some p /\ resting p = false) -> moves w.
Proof.
  intros HI%Inv_reachable Hb (i & p & Hi & Hr).
  destruct (waits (shared w) p) eqn:E; [|by eapply moves_intro].
  destruct p; try done; cbn [waits] in E; [by apply sets_moves..|by apply conn_moves].
Qed.

(** ** A set whose seed is not reachable at first

    The constructor finds no node.  Two threads then call [check], and both see
    that there are no nodes; the first gathers them.  The second has waited for
    [_setsLock], and its assertion that there are no nodes fails. *)
Definition seed : HostAndPort := MkHost (bstr "a") 1.

Definition answer : BSONObj :=
  obj_of [(bstr "setName", VString (bstr "rs")); (bstr "ismaster", VBool true);
          (bstr "hosts", VArray [(bstr "0", VString (bstr "a:1"))])].

Definition up (_ : HostAndPort) : conn_outcome := Connected.
Definition down (_ : HostAndPort) : conn_outcome := NoConnection.

Definition no_seed : list choice :=
  [Run; Run; Run; Connect down; Run; Run; Connect down; Run; Connect down; Run; Run].
Definition one_seed : list choice :=
  [Run; Run; Run; Connect up; Run; Run; IsMasterReply (Some (answer, 3)); Run; Run; Run; Connect up;
   StatusReply (Some None); Run; Run; Run; Connect up; Run; Run; IsMasterReply (Some (answer, 3)); Run; Run; Run; Run; Run;
   StatusReply (Some None); Run; Run; Connect up; Run].

Definition by_thread (i : nat) (cs : list choice) : list (nat * choice) := map (pair i) cs.

Definition race : list (nat * choice) :=
  by_thread 0 no_seed ++ by_thread 1 [Start (CallCheck false); Run] ++ by_thread 2 [Start (CallCheck false); Run]
    ++ by_thread 1 one_seed ++ by_thread 2 [Run; Run; Run].

Definition race_start : threads := monitor_start (bstr "rs") 15 [seed] 2.

Lemma race_reached : exists w, run_schedule exec race race_start = Some w /\
  agents w = [Idle Returned; Idle Returned; Idle (Threw InPopulate VerifyFailed)] /\
  size (mon (shared w)) = 1 /\ _master (mon (shared w)) = 0.
Proof. vm_compute. eexists. done. Qed.

Lemma schedule_reached sched w : run_schedule exec sched race_start = Some w ->
  monitor_reachable (bstr "rs") 15 [seed] 2 w.
Proof. apply run_schedule_reachable. Qed.

(** The exception reaches the caller of [check], although the set is healthy. *)
Example two_populate : exists w,
  monitor_reachable (bstr "rs") 15 [seed] 2 w /\ size (mon (shared w)) = 1 /\ _master (mon (shared w)) = 0 /\
  agents w !! 2%nat = Some (Idle (Threw InPopulate VerifyFailed)).
Proof.
  destruct race_reached as (w & H & Ha & Hs & Hm). exists w.
  split; [exact (schedule_reached race w H)|]. split; [exact Hs|]. split; [exact Hm|by rewrite Ha].
Qed.

Lemma monitor_safe_witness : exists w, run_schedule exec race race_start = Some w /\
  -1 <= _master (mon (shared w)) < size (mon (shared w)).
Proof.
  destruct race_reached as (w & H & _). exists w. split; [exact H|].
  apply (monitor_safe (bstr "rs") 15 [seed] 2 w). exact (schedule_reached _ w H).
Defined.

Definition both_wait : list (nat * choice) :=
  by_thread 0 no_seed ++ by_thread 1 [Start (CallCheck false); Run; Run] ++ by_thread 2 [Start (CallCheck false); Run].

Lemma both_wait_reached : exists w, run_schedule exec both_wait race_start = Some w /\
  agents w = [Idle Returned; PopVerify false; PopLock] /\ _setsLock (shared w) = true.
Proof. vm_compute. eexists. done. Qed.

(** One thread waits for the other. *)
Lemma monitor_progress_witness : exists w, run_schedule exec both_wait race_start = Some w /\ moves w.
Proof.
  destruct both_wait_reached as (w & H & Ha & _). exists w. split; [exact H|].
  apply (monitor_progress (bstr "rs") 15 [seed] 2 w).
  - exact (schedule_reached _ w H).
  - rewrite Ha. clear. by intros [|[|[|i]]] p [= <-].
  - exists 2%nat, PopLock. rewrite Ha. split; reflexivity.
Defined.
