(* ===== verification/Wire.v ===== *)
(** * Wire: the messages of the wire protocol (util/net/message.h,
    db/dbmessage.h, and the requests of client/dbclient.cpp)

    A message is one buffer, or several that are sent as one: a header of 16
    bytes with the length, two identifiers and the operation, then the data.
    [DbMessage] reads the data of a request piece by piece: a name of a
    collection, numbers, objects; [QueryMessage] is a query read like that, and
    [QueryResult] the reply to one.

    The theorems: what the client writes the readers read back; buffers that
    are put together are the message of their bytes; and with validation of
    objects the reader stays inside the message, whatever it holds. *)

From stdpp Require Import base list numbers strings option tactics.
From Stdlib Require Import Strings.Byte ZArith Lia.
From S2P Require Import Prelude Memory Status BsonTypes Format Element Obj Validate ValidateSpec Access Order Builder.

(** ** MsgData *)

Definition opReply : Z := 1.
Definition dbMsg : Z := 1000.
Definition dbUpdate : Z := 2001.
Definition dbInsert : Z := 2002.
Definition dbQuery : Z := 2004.
Definition dbGetMore : Z := 2005.
Definition dbDelete : Z := 2006.
Definition dbKillCursors : Z := 2007.

Definition doesOpGetAResponse (op : Z) : bool := (op =? dbQuery) || (op =? dbGetMore).

Definition opToString (op : Z) : result (list byte) :=
  if op =? 0 then Ok (bstr "none")
  else if op =? opReply then Ok (bstr "reply")
  else if op =? dbMsg then Ok (bstr "msg")
  else if op =? dbUpdate then Ok (bstr "update")
  else if op =? dbInsert then Ok (bstr "insert")
  else if op =? dbQuery then Ok (bstr "query")
  else if op =? dbGetMore then Ok (bstr "getmore")
  else if op =? dbDelete then Ok (bstr "remove")
  else if op =? dbKillCursors then Ok (bstr "killcursors")
  else let* _ := massert 16141 (op =? 0) in Ok [].

Definition opIsWrite (op : Z) : result bool :=
  if (op =? 0) || (op =? opReply) || (op =? dbMsg) || (op =? dbQuery) || (op =? dbGetMore) || (op =? dbKillCursors)
  then Ok false
  else if (op =? dbUpdate) || (op =? dbInsert) || (op =? dbDelete) then Ok true
  else Err VerifyFailed.

(** Where the fields are. *)
Definition MsgDataHeaderSize : Z := 16.
Definition off_responseTo : Z := 8.
Definition off_operation : Z := 12.
Definition off_data : Z := MsgDataHeaderSize.

(** A write inside a buffer. *)
Definition store (d : list byte) (at_ : Z) (bs : list byte) : result (list byte) :=
  if (0 <=? at_) && (at_ + zlen bs <=? zlen d) then Ok (patch d at_ bs) else Err OutOfBounds.

Definition md_len (d : list byte) : result Z := load_s32 (Ptr d 0).
Definition set_len (n : Z) (d : list byte) : result (list byte) := store d 0 (le32 n).
Definition md_operation (d : list byte) : result Z :=
  let* bs := loads (Ptr d off_operation) 2 in Ok (s16 (le_val bs)).
Definition setOperation (o : Z) (d : list byte) : result (list byte) :=
  store d off_operation (le16 o ++ [x00; x00]).
Definition dataAsInt (d : list byte) : result Z := load_s32 (Ptr d off_data).
Definition dataLen (d : list byte) : result Z :=
  let* n := md_len d in if in_s 32 (n - MsgDataHeaderSize) then Ok (n - MsgDataHeaderSize) else Err UndefinedBehaviour.

Definition md_valid (d : list byte) : result bool :=
  let* n := md_len d in
  if (n <=? 0) || (4 * BSONObjMaxInternalSize <? n) then Ok false
  else
    let* op := md_operation d in
    Ok (negb ((op <? 0) || (30000 <? op))).

Definition getCursor (d : list byte) : result Z :=
  let* r := load_u32 (Ptr d off_responseTo) in
  let* _ := verify (0 <? r) in
  let* op := md_operation d in
  let* _ := verify (op =? opReply) in
  load_s64 (Ptr d (off_data + 4)).

(** ** Message *)

(** [_data] has the sizes of its buffers beside them. *)
Record Message := MkMessage {
  _buf : option (list byte);
  _data : list (list byte * Z);
  _freeIt : bool
}.

Definition Message_new : Message := MkMessage None [] false.

Definition msg_empty (m : Message) : bool :=
  match _buf m, _data m with None, [] => true | _, _ => false end.

Definition msg_header (m : Message) : result (list byte) :=
  match _buf m, _data m with
  | Some d, _ => Ok d
  | None, (d, _) :: _ => Ok d
  | None, [] => Err VerifyFailed
  end.

Definition msg_operation (m : Message) : result Z := let* d := msg_header m in md_operation d.

Definition singleData (m : Message) : result (list byte) :=
  let* _ := massert 13273 (match _buf m with Some _ => true | None => false end) in msg_header m.

Fixpoint sum_sizes (l : list (list byte * Z)) (res : Z) : result Z :=
  match l with
  | [] => Ok res
  | (_, n) :: l' => if in_s 32 (res + n) then sum_sizes l' (res + n) else Err UndefinedBehaviour
  end.

Definition msg_size (m : Message) : result Z :=
  match _buf m with Some d => md_len d | None => sum_sizes (_data m) 0 end.

Definition msg_dataSize (m : Message) : result Z :=
  let* n := msg_size m in if in_s 32 (n - 16) then Ok (n - 16) else Err UndefinedBehaviour.

Fixpoint copy_all (l : list (list byte * Z)) : result (list byte) :=
  match l with
  | [] => Ok []
  | (d, n) :: l' => let* bs := loads (Ptr d 0) n in let* r := copy_all l' in Ok (bs ++ r)
  end.

Definition concat_ (m : Message) : result Message :=
  match _buf m with
  | Some _ => Ok m
  | None =>
      if msg_empty m then Ok m
      else
        let* _ := verify (_freeIt m) in
        let* _ := sum_sizes (_data m) 0 in
        let* bs := copy_all (_data m) in
        Ok (MkMessage (Some bs) [] true)
  end.

(** [operator=]: what it moves from [r], and what is left of [r]. *)
Definition msg_assign (m r : Message) : result (Message * Message) :=
  let* _ := verify (msg_empty m) in
  let* _ := verify (_freeIt r) in
  Ok (MkMessage (_buf r) (_data r) true, MkMessage None [] false).

Definition msg_reset (m : Message) : Message := Message_new.

(** [header()->len += n]. *)
Definition add_len (n : Z) (d : list byte) : result (list byte) :=
  let* l := md_len d in if in_s 32 (l + n) then set_len (l + n) d else Err UndefinedBehaviour.

Definition appendData (d : list byte) (n : Z) (m : Message) : result Message :=
  if n <=? 0 then Ok m
  else if msg_empty m then let* d := set_len n d in Ok (MkMessage (Some d) (_data m) true)
  else
    let* _ := verify (_freeIt m) in
    let* l := match _buf m with
              | Some b => let* k := md_len b in Ok (_data m ++ [(b, k)])
              | None => Ok (_data m)
              end in
    match l ++ [(d, n)] with
    | [] => Err UndefinedBehaviour
    | (h, k) :: l => let* h := add_len n h in Ok (MkMessage None ((h, k) :: l) (_freeIt m))
    end.

Definition setData_msg (d : list byte) (freeIt : bool) (m : Message) : result Message :=
  let* _ := verify (msg_empty m) in Ok (MkMessage (Some d) (_data m) freeIt).

(** [junk] is what the allocated block holds where the identifiers are; they are
    set when the message is sent. *)
Definition setData (junk : list byte) (operation : Z) (msgdata : list byte) (m : Message) : result Message :=
  let* _ := verify (msg_empty m) in
  let* d := setOperation operation (le32 (zlen msgdata + 16) ++ take 8 (junk ++ repeat x00 8) ++ repeat x00 4 ++ msgdata) in
  Ok (MkMessage (Some d) (_data m) true).

Definition setData_cstr (junk : list byte) (operation : Z) (msgtxt : ptr) (m : Message) : result Message :=
  let* s := cstr msgtxt in setData junk operation (s ++ [x00]) m.

(** ** DbMessage *)

(** The message, the end of its data, the next object (none once the last one is
    read), and the mark; all are offsets in its one buffer.  [reserved] is at
    [off_data] and [data], the name of the collection, after it. *)
Record DbMessage := MkDbMessage {
  m_buf : list byte;
  theEnd : Z;
  nextjsobj : option Z;
  mark : option Z
}.

Definition off_ns : Z := off_data + 4.

Definition DbMessage_of (m : Message) : result DbMessage :=
  let* d := singleData m in
  let* n := dataLen d in
  Ok (MkDbMessage d (off_data + n) (Some off_ns) None).

Definition at_off (d : DbMessage) (o : Z) : ptr := Ptr (m_buf d) o.
Definition set_next (o : option Z) (d : DbMessage) : DbMessage := MkDbMessage (m_buf d) (theEnd d) o (mark d).

Definition reservedField (d : DbMessage) : result Z := load_s32 (at_off d off_data).
Definition getns (d : DbMessage) : result (list byte) := cstr (at_off d off_ns).
Definition afterNS (d : DbMessage) : result Z := let* n := strlen (at_off d off_ns) in Ok (off_ns + n + 1).
Definition getInt (num : Z) (d : DbMessage) : result Z :=
  let* o := afterNS d in load_s32 (at_off d (o + 4 * num)).
Definition getQueryNToReturn (d : DbMessage) : result Z := getInt 1 d.
Definition getInt64 (offsetBytes : Z) (d : DbMessage) : result Z :=
  let* o := afterNS d in load_s64 (at_off d (o + offsetBytes)).
Definition resetPull (d : DbMessage) : DbMessage := set_next (Some off_ns) d.

(** Past the name, when nothing has been read yet. *)
Definition skip_ns (d : DbMessage) : result Z :=
  match nextjsobj d with
  | None => Err UndefinedBehaviour
  | Some o => if o =? off_ns then afterNS d else Ok o
  end.

Definition pullInt (d : DbMessage) : result (Z * DbMessage) :=
  let* o := skip_ns d in
  let* i := load_s32 (at_off d o) in
  Ok (i, set_next (Some (o + 4)) d).

Definition pullInt64 (d : DbMessage) : result (Z * DbMessage) :=
  let* o := skip_ns d in
  let* i := load_s64 (at_off d o) in
  Ok (i, set_next (Some (o + 8)) d).

(** The [const] forms call themselves. *)
Fixpoint pullInt_const (fuel : nat) (d : DbMessage) : result Z :=
  match fuel with O => Err OutOfFuel | S fuel' => pullInt_const fuel' d end.

Definition getOID (d : DbMessage) : result (list byte) := let* o := afterNS d in loads (at_off d o) 12.

Definition getQueryStuff (d : DbMessage) : result (ptr * Z) :=
  let* o := afterNS d in
  let* n := load_s32 (at_off d o) in
  Ok (at_off d (o + 4), n).

Definition moreJSObjs (d : DbMessage) : bool := match nextjsobj d with Some _ => true | None => false end.

(** Where the next object starts. *)
Definition next_position (d : DbMessage) : result Z :=
  match nextjsobj d with
  | None => Err UndefinedBehaviour
  | Some o =>
      if o =? off_ns then let* o := afterNS d in let* _ := massert 13066 (o <? theEnd d) in Ok o else Ok o
  end.

(** [objcheck] is the setting of the command line. *)
Definition nextJsObj (objcheck : bool) (fuel : nat) (d : DbMessage) : result (BSONObj * DbMessage) :=
  let* o := next_position d in
  let* _ := massert 10304 (5 <=? theEnd d - o) in
  let* _ := if objcheck then
              let* s := BsonValidate.validateBSON fuel (at_off d o) (theEnd d - o) in
              massert 10307 (isOK s)
            else Ok tt in
  let* js := BSONObj_init (at_off d o) in
  let* n := objsize js in
  let* _ := verify (5 <=? n) in
  let* _ := verify (n <? theEnd d - off_ns) in
  Ok (js, set_next (if theEnd d <=? o + n then None else Some (o + n)) d).

Definition markGet (d : DbMessage) : option Z := nextjsobj d.
Definition markSet (d : DbMessage) : DbMessage := MkDbMessage (m_buf d) (theEnd d) (nextjsobj d) (nextjsobj d).
Definition markReset (toMark : option Z) (d : DbMessage) : result DbMessage :=
  let t := match toMark with None => mark d | Some _ => toMark end in
  let* _ := verify (match t with Some _ => true | None => false end) in
  Ok (set_next t d).

(** ** QueryMessage *)

Record QueryMessage := MkQueryMessage {
  qm_ns : list byte;
  ntoskip : Z;
  ntoreturn : Z;
  queryOptions : Z;
  qm_query : BSONObj;
  qm_fields : BSONObj
}.

Definition QueryMessage_of (objcheck : bool) (fuel : nat) (d : DbMessage) : result (QueryMessage * DbMessage) :=
  let* ns := getns d in
  let* '(skip_, d) := pullInt d in
  let* '(ret, d) := pullInt d in
  let* '(query, d) := nextJsObj objcheck fuel d in
  let* '(fields, d) := if moreJSObjs d then nextJsObj objcheck fuel d else Ok (BSONObj_empty, d) in
  let* opts := dataAsInt (m_buf d) in
  Ok (MkQueryMessage ns skip_ ret opts query fields, d).

(** ** QueryResult *)

Definition QueryResultSize : Z := 36.
Definition resultFlags (d : list byte) : result Z := dataAsInt d.
Definition qr_cursorId (d : list byte) : result Z := load_s64 (Ptr d 20).
Definition qr_startingFrom (d : list byte) : result Z := load_s32 (Ptr d 28).
Definition qr_nReturned (d : list byte) : result Z := load_s32 (Ptr d 32).
Definition qr_data (d : list byte) : ptr := Ptr d QueryResultSize.

Definition setResultFlagsToOk (d : list byte) : result (list byte) := store d off_data (le32 8).
Definition initializeResultFlags (d : list byte) : result (list byte) := store d off_data (le32 0).

Definition reply_fields (queryResultFlags cursorId startingFrom nReturned n : Z) (d : list byte) : result (list byte) :=
  let* d := store d off_data (le32 queryResultFlags) in
  let* d := set_len n d in
  let* d := setOperation opReply d in
  let* d := store d 20 (le64 cursorId) in
  let* d := store d 28 (le32 startingFrom) in
  store d 32 (le32 nReturned).

(** The reply with the objects in the [size_] bytes at [data]. *)
Definition replyToQuery (queryResultFlags : Z) (data : ptr) (size_ nReturned startingFrom cursorId : Z) : result Message :=
  let* b := (skip QueryResultSize ;> appendBuf data size_) (BufBuilder_new 32768) in
  let* d := reply_fields queryResultFlags cursorId startingFrom nReturned (len b) (buf b) in
  setData_msg d true Message_new.

Definition replyToQuery_obj (queryResultFlags : Z) (response : Message) (responseObj : BSONObj) : result Message :=
  let* n := objsize responseObj in
  let* b := (skip QueryResultSize ;> appendBuf responseObj n) (BufBuilder_new 512) in
  let* d := reply_fields queryResultFlags 0 0 1 (len b) (buf b) in
  setData_msg d true response.

(** ** The requests of the client *)

Definition UpdateOption_Upsert : Z := 1.
Definition UpdateOption_Multi : Z := 2.
Definition RemoveOption_JustOne : Z := 1.
Definition InsertOption_ContinueOnError : Z := 1.
Definition WriteOption_FromWriteback : Z := - 2 ^ 31.
Definition Reserved_InsertOption_ContinueOnError : Z := 1.
Definition Reserved_FromWriteback : Z := 2.

Definition appendSelfToBufBuilder (o : BSONObj) (b : BufBuilder) : result BufBuilder :=
  let* n := objsize o in
  let* _ := verify (negb (n =? 0)) in
  appendBuf o n b.

Fixpoint append_objs (os : list BSONObj) (b : BufBuilder) : result BufBuilder :=
  match os with
  | [] => Ok b
  | o :: os' => let* b := appendSelfToBufBuilder o b in append_objs os' b
  end.

Definition append_fields (fieldsToReturn : option BSONObj) (b : BufBuilder) : result BufBuilder :=
  match fieldsToReturn with Some f => appendSelfToBufBuilder f b | None => Ok b end.

Definition assembleRequest (junk ns : list byte) (query : BSONObj) (nToReturn nToSkip : Z)
    (fieldsToReturn : option BSONObj) (opts : Z) (toSend : Message) : result Message :=
  let* b := (appendNum_int opts ;> appendStr ns true ;> appendNum_int nToSkip ;> appendNum_int nToReturn ;>
             appendSelfToBufBuilder query ;> append_fields fieldsToReturn) (BufBuilder_new 512) in
  setData junk dbQuery (buf b) toSend.

Definition insert_reserved (flags : Z) : Z :=
  let r := if negb (Z.land flags InsertOption_ContinueOnError =? 0) then Reserved_InsertOption_ContinueOnError else 0 in
  if negb (Z.land flags WriteOption_FromWriteback =? 0) then Z.lor r Reserved_FromWriteback else r.

(** [insert] of one object is that of a vector of one. *)
Definition insert_msg (junk ns : list byte) (v : list BSONObj) (flags : Z) : result Message :=
  let* b := (appendNum_int (insert_reserved flags) ;> appendStr ns true ;> append_objs v) (BufBuilder_new 512) in
  setData junk dbInsert (buf b) Message_new.

Definition insert_one (junk ns : list byte) (obj : BSONObj) (flags : Z) : result Message :=
  insert_msg junk ns [obj] flags.

Definition from_writeback (flags : Z) : bool := negb (Z.land flags WriteOption_FromWriteback =? 0).
Definition without_writeback (flags : Z) : Z :=
  if from_writeback flags then Z.lxor flags WriteOption_FromWriteback else flags.

(** The bit of the option itself is set, not [Reserved_FromWriteback]. *)
Definition remove_reserved (flags : Z) : Z := if from_writeback flags then WriteOption_FromWriteback else 0.
Definition remove_msg (junk ns : list byte) (query : BSONObj) (flags : Z) : result Message :=
  let* b := (appendNum_int (remove_reserved flags) ;> appendStr ns true ;> appendNum_int (without_writeback flags) ;>
             appendSelfToBufBuilder query) (BufBuilder_new 512) in
  setData junk dbDelete (buf b) Message_new.
Definition remove_one (junk ns : list byte) (query : BSONObj) (justOne : bool) : result Message :=
  remove_msg junk ns query (if justOne then RemoveOption_JustOne else 0).

Definition update_reserved (flags : Z) : Z := if from_writeback flags then Reserved_FromWriteback else 0.
Definition update_msg (junk ns : list byte) (query obj : BSONObj) (flags : Z) : result Message :=
  let* b := (appendNum_int (update_reserved flags) ;> appendStr ns true ;> appendNum_int (without_writeback flags) ;>
             appendSelfToBufBuilder query ;> appendSelfToBufBuilder obj) (BufBuilder_new 512) in
  setData junk dbUpdate (buf b) Message_new.
Definition update_flags (upsert multi : bool) : Z :=
  Z.lor (if upsert then UpdateOption_Upsert else 0) (if multi then UpdateOption_Multi else 0).

(** ** A message and its data *)

(** The bytes of a message with the identifiers [ids]. *)
Definition wire (ids : list byte) (op : Z) (body : list byte) : list byte :=
  le32 (zlen body + 16) ++ ids ++ le16 op ++ [x00; x00] ++ body.

Lemma zlen_wire ids op body : length ids = 8%nat -> zlen (wire ids op body) = zlen body + 16.
Proof.
  intros Hi. assert (zlen ids = 8) as Hz by (unfold zlen; lia). unfold wire. rewrite !zlen_app, !zlen_le_bytes, Hz.
  change (zlen [x00; x00]) with 2. lia.
Qed.

Lemma wire_data ids op body : length ids = 8%nat -> Ptr (wire ids op body) off_data ↦ body.
Proof.
  intros Hi. change (Ptr (wire ids op body) off_data) with (Ptr (wire ids op body) 0 +! 16).
  apply (points_app_r _ (le32 (zlen body + 16) ++ ids ++ le16 op ++ [x00; x00])).
  - rewrite <- !app_assoc. cbn [app]. apply points_start.
  - rewrite !zlen_app, !zlen_le_bytes. unfold zlen at 1. by rewrite Hi.
Qed.

Lemma wire_len ids op body : in_s 32 (zlen body + 16) = true -> md_len (wire ids op body) = Ok (zlen body + 16).
Proof. intros H. eapply points_load_s32; [apply points_start|done]. Qed.

Lemma store_at a b c bs n : n = zlen a -> zlen b = zlen bs -> store (a ++ b ++ c) n bs = Ok (a ++ bs ++ c).
Proof.
  intros -> Hb. unfold store. rewrite !zlen_app. pose proof (zlen_nonneg a). pose proof (zlen_nonneg c).
  pose proof (zlen_nonneg b). destruct (Z.leb_spec 0 (zlen a)); [|lia].
  destruct (Z.leb_spec (zlen a + zlen bs) (zlen a + (zlen b + zlen c))); [|lia]. cbn [andb]. f_equal. unfold patch.
  rewrite zlen_nat, take_app_length. f_equal. f_equal. unfold zlen in Hb. rewrite drop_app_ge by lia.
  replace (length a + length bs - length a)%nat with (length b) by lia. by rewrite drop_app_length.
Qed.

Lemma setData_wire junk op body : setData junk op body Message_new =
  Ok (MkMessage (Some (wire (take 8 (junk ++ repeat x00 8)) op body)) [] true).
Proof.
  unfold setData. cbn [Message_new msg_empty _buf _data verify bind]. unfold setOperation.
  set (ids := take 8 (junk ++ repeat x00 8)).
  assert (length ids = 8%nat) as Hi by (unfold ids; rewrite length_take, length_app, repeat_length; lia).
  rewrite (app_assoc (le32 _) ids), (store_at _ (repeat x00 4) body); [|rewrite zlen_app, zlen_le_bytes; unfold zlen at 1; by rewrite Hi|done].
  cbn [bind]. unfold wire. by rewrite <- !app_assoc.
Qed.

Lemma ids_length junk : length (take 8 (junk ++ repeat x00 8)) = 8%nat.
Proof. rewrite length_take, length_app, repeat_length. lia. Qed.

Lemma wire_operation ids op body : length ids = 8%nat -> in_s 16 op = true -> md_operation (wire ids op body) = Ok op.
Proof.
  intros Hi Hop. unfold md_operation, wire. change (Ptr ?b off_operation) with (Ptr b 0 +! 12).
  erewrite (points_loads _ (le16 op)); [| |by rewrite zlen_le_bytes].
  - cbn [bind]. rewrite le_val_bytes. f_equal.
    apply in_s_spec in Hop. change (256 ^ Z.of_nat 2) with (2 ^ 16). rewrite wrap_s_mod by lia. by apply wrap_s_small.
  - eapply points_app_r; [rewrite app_assoc; apply points_start|].
    rewrite zlen_app, zlen_le_bytes. unfold zlen at 1. by rewrite Hi.
Qed.

(** ** Reading a request *)

(** [d] has [rest_] left to read, after the name [ns]. *)
Definition pending (d : DbMessage) (ns rest_ : list byte) : Prop :=
  no_nul ns = true /\
  match nextjsobj d with
  | None => rest_ = []
  | Some o =>
      if o =? off_ns then at_off d off_ns ↦ ns ++ x00 :: rest_ /\ theEnd d = off_ns + zlen ns + 1 + zlen rest_
      else off_ns < o /\ at_off d o ↦ rest_ /\ theEnd d = o + zlen rest_
  end.

(** The position after the name, wherever the reader is. *)
Lemma pending_position d ns b rest_ : pending d ns (b :: rest_) -> exists o,
  skip_ns d = Ok o /\ off_ns < o /\ at_off d o ↦ b :: rest_ /\ theEnd d = o + zlen (b :: rest_).
Proof.
  intros [Hn H]. unfold skip_ns. destruct (nextjsobj d) as [o|]; [|done]. destruct (Z.eqb_spec o off_ns) as [Heq|Hne].
  - destruct H as [Hp He]. unfold afterNS. rewrite (points_strlen _ _ _ Hp Hn). cbn [bind].
    exists (off_ns + zlen ns + 1). pose proof (zlen_nonneg ns). split; [done|]. split; [lia|]. split; [|done].
    replace (at_off d (off_ns + zlen ns + 1)) with (at_off d off_ns +! (zlen ns + 1)) by (unfold padd, at_off; cbn; f_equal; lia).
    apply (points_app_r _ (ns ++ [x00])); [by rewrite <- app_assoc|by rewrite zlen_app, zlen_cons, zlen_nil].
  - destruct H as (Ho & Hp & He). by exists o.
Qed.

Lemma pending_past d ns rest_ o : no_nul ns = true -> off_ns < o -> at_off d o ↦ rest_ -> theEnd d = o + zlen rest_ ->
  pending (set_next (Some o) d) ns rest_.
Proof.
  intros Hn Ho Hp He. split; [done|]. cbn [set_next nextjsobj]. destruct (Z.eqb_spec o off_ns); [lia|]. done.
Qed.

Lemma at_off_app d o a b : at_off d o ↦ a ++ b -> at_off d (o + zlen a) ↦ b.
Proof. intros H. change (at_off d (o + zlen a)) with (at_off d o +! zlen a). by eapply points_app_r. Qed.

Lemma cons_of (l : list byte) : l <> [] -> exists b r, l = b :: r.
Proof. destruct l as [|b r]; [done|]. intros _. by exists b, r. Qed.

Lemma pullInt_rep d ns z rest_ : pending d ns (le32 z ++ rest_) -> in_s 32 z = true -> exists d',
  pullInt d = Ok (z, d') /\ pending d' ns rest_ /\ m_buf d' = m_buf d /\ theEnd d' = theEnd d.
Proof.
  intros Hp Hz. destruct (cons_of (le32 z ++ rest_)) as (b & r & E); [by vm_compute|]. rewrite E in Hp.
  destruct (pending_position _ _ _ _ Hp) as (o & Hs & Ho & Hpt & He). rewrite <- E in Hpt, He.
  unfold pullInt. rewrite Hs. cbn [bind]. rewrite (points_load_s32 _ _ _ Hpt Hz). cbn [bind].
  eexists. split; [done|]. split; [|by split]. rewrite zlen_app, zlen_le_bytes in He.
  apply pending_past; [apply Hp|lia| |lia]. replace (o + 4) with (o + zlen (le32 z)) by (by rewrite zlen_le_bytes).
  by apply at_off_app.
Qed.

Lemma pullInt64_rep d ns z rest_ : pending d ns (le64 z ++ rest_) -> in_s 64 z = true -> exists d',
  pullInt64 d = Ok (z, d') /\ pending d' ns rest_ /\ m_buf d' = m_buf d /\ theEnd d' = theEnd d.
Proof.
  intros Hp Hz. destruct (cons_of (le64 z ++ rest_)) as (b & r & E); [by vm_compute|]. rewrite E in Hp.
  destruct (pending_position _ _ _ _ Hp) as (o & Hs & Ho & Hpt & He). rewrite <- E in Hpt, He.
  unfold pullInt64. rewrite Hs. cbn [bind]. rewrite (points_load_s64 _ _ _ Hpt Hz). cbn [bind].
  eexists. split; [done|]. split; [|by split]. rewrite zlen_app, zlen_le_bytes in He.
  apply pending_past; [apply Hp|lia| |lia]. replace (o + 8) with (o + zlen (le64 z)) by (by rewrite zlen_le_bytes).
  by apply at_off_app.
Qed.

Lemma nextJsObj_rep objcheck fuel d ns dd rest_ : pending d ns (enc_doc dd ++ rest_) -> wf_doc dd = true ->
  theEnd d < 2 ^ 31 -> 3 * theEnd d + 2 <= Z.of_nat fuel -> exists js d',
  nextJsObj objcheck fuel d = Ok (js, d') /\ obj_rep js dd /\ pending d' ns rest_ /\ m_buf d' = m_buf d /\
  theEnd d' = theEnd d /\ moreJSObjs d' = bool_decide (rest_ <> []).
Proof.
  intros Hp Hw Hend Hf. destruct (cons_of (enc_doc dd ++ rest_)) as (b & r & E); [done|].
  rewrite E in Hp. destruct (pending_position _ _ _ _ Hp) as (o & Hs & Ho & Hpt & He). rewrite <- E in Hpt, He.
  assert (obj_rep (at_off d o) dd) as Hob by (split; [by eapply points_app_l|done]).
  pose proof (obj_small _ _ Hob) as Hz. rewrite zlen_app in He. pose proof (zlen_nonneg rest_).
  assert (next_position d = Ok o) as Ho'.
  { unfold next_position, skip_ns in *. destruct (nextjsobj d) as [o'|]; [|done]. destruct (o' =? off_ns); [|done].
    rewrite Hs. cbn [bind]. by rewrite (proj2 (Z.ltb_lt _ _)) by lia. }
  unfold nextJsObj. rewrite Ho'. cbn [bind]. rewrite (proj2 (Z.leb_le _ _)) by lia. cbn [massert bind].
  assert ((if objcheck then let* s := BsonValidate.validateBSON fuel (at_off d o) (theEnd d - o) in massert 10307 (isOK s)
           else Ok tt) = Ok tt) as ->.
  { destruct objcheck; [|done]. replace (theEnd d - o) with (zlen (enc_doc dd ++ rest_)) by (rewrite zlen_app; lia).
    change off_ns with 20 in Ho.
    rewrite (start_complete _ _ Hpt ltac:(rewrite zlen_app; lia) fuel dd (enc_elems dd) rest_);
      [done|by apply lays_enc_doc|done|rewrite zlen_app; lia]. }
  cbn [bind]. rewrite (BSONObj_init_rep _ _ Hob). cbn [bind]. rewrite (objsize_rep _ _ Hob). cbn [bind].
  rewrite (proj2 (Z.leb_le 5 _)) by lia. cbn [verify bind]. rewrite (proj2 (Z.ltb_lt _ (theEnd d - off_ns))) by lia.
  cbn [verify bind]. do 2 eexists. split; [done|]. split; [done|].
  destruct (Z.leb_spec (theEnd d) (o + zlen (enc_doc dd))) as [Hle|Hgt].
  - assert (rest_ = []) as -> by (destruct rest_; [done|rewrite zlen_cons in *; pose proof (zlen_nonneg rest_); lia]).
    split; [split; [apply Hp|done]|]. split; [done|]. split; [done|]. by rewrite bool_decide_false by auto.
  - split; [apply pending_past; [apply Hp|lia|by apply at_off_app|lia]|]. split; [done|]. split; [done|].
    rewrite bool_decide_true; [done|]. intros ->. rewrite zlen_nil in *. lia.
Qed.

Lemma start_reading ids op r ns rest_ : let body := le32 r ++ ns ++ x00 :: rest_ in
  length ids = 8%nat -> zlen body + 16 < 2 ^ 31 -> in_s 32 r = true -> no_nul ns = true ->
  exists d, DbMessage_of (MkMessage (Some (wire ids op body)) [] true) = Ok d /\ pending d ns rest_ /\
    m_buf d = wire ids op body /\ theEnd d = 16 + zlen body /\ reservedField d = Ok r /\ getns d = Ok ns.
Proof.
  intros body Hi Hz Hr Hn. pose proof (zlen_nonneg body).
  assert (in_s 32 (zlen body + 16) = true) as Hs.
  { apply in_s_spec. change (2 ^ (32 - 1)) with (2 ^ 31). lia. }
  exists (MkDbMessage (wire ids op body) (16 + zlen body) (Some off_ns) None).
  pose proof (wire_data ids op body Hi) as Hd.
  assert (Ptr (wire ids op body) off_ns ↦ ns ++ x00 :: rest_) as Hns.
  { change (Ptr (wire ids op body) off_ns) with (Ptr (wire ids op body) off_data +! zlen (le32 r)).
    by eapply points_app_r. }
  split; [|split; [|split; [done|split; [done|split]]]].
  - unfold DbMessage_of, singleData, dataLen. cbn [_buf massert bind msg_header]. rewrite (wire_len ids op body Hs).
    cbn [bind]. replace (zlen body + 16 - MsgDataHeaderSize) with (zlen body) by (unfold MsgDataHeaderSize; lia).
    assert (in_s 32 (zlen body) = true) as ->; [|done].
    apply in_s_spec. change (2 ^ (32 - 1)) with (2 ^ 31). lia.
  - split; [done|]. cbn [nextjsobj]. rewrite Z.eqb_refl. split; [exact Hns|]. cbn [theEnd]. unfold body.
    rewrite !zlen_app, zlen_le_bytes, zlen_cons. unfold off_ns, off_data, MsgDataHeaderSize. lia.
  - by eapply points_load_s32.
  - by eapply points_cstr.
Qed.

(** ** What the requests write *)

Lemma writes_self o d : obj_rep o d -> writes (appendSelfToBufBuilder o) (enc_doc d).
Proof.
  intros Ho b Hb Hf. unfold appendSelfToBufBuilder. rewrite (objsize_rep o d Ho). cbn [bind].
  pose proof (obj_small o d Ho). destruct (Z.eqb_spec (zlen (enc_doc d)) 0); [lia|]. cbn [negb verify bind].
  apply (writes_buf o _ (enc_doc d)); [|done|done]. by apply points_loads_all; [apply Ho|].
Qed.

Lemma writes_objs os ds : Forall2 obj_rep os ds -> writes (append_objs os) (concat (map enc_doc ds)).
Proof.
  induction 1 as [|o d os ds Ho _ IH]; [intros b Hb _; exists b; cbn; by rewrite app_nil_r|].
  exact (writes_seq _ _ _ _ (writes_self o d Ho) IH).
Qed.

Definition opt_doc (df : option doc) : list byte := match df with Some f => enc_doc f | None => [] end.
Definition opt_rep (fo : option BSONObj) (df : option doc) : Prop :=
  match fo, df with Some o, Some d => obj_rep o d | None, None => True | _, _ => False end.

Lemma writes_fields fo df : opt_rep fo df -> writes (append_fields fo) (opt_doc df).
Proof.
  destruct fo as [o|], df as [d|]; try done; [apply writes_self|].
  intros _ b Hb _. exists b. cbn. by rewrite app_nil_r.
Qed.

(** The message of a chain of appends. *)
Lemma request_message (m : BufBuilder -> result BufBuilder) body junk op : writes m body -> zlen body <= BufferMaxSize ->
  exists b, m (BufBuilder_new 512) = Ok b /\
    setData junk op (buf b) Message_new = Ok (MkMessage (Some (wire (take 8 (junk ++ repeat x00 8)) op body)) [] true).
Proof.
  intros Hm Hz. destruct (Hm (BufBuilder_new 512)) as (b & Hb & E & _); [done|done|].
  exists b. split; [done|]. rewrite E. cbn [buf BufBuilder_new app]. apply setData_wire.
Qed.

Lemma buffer_max : BufferMaxSize = 67108864.
Proof. done. Qed.

(** The message is one buffer of [size] bytes of data, as long as it says. *)
Definition on_wire (m : Message) (op size : Z) : Prop :=
  exists ids body, length ids = 8%nat /\ zlen body = size /\ m = MkMessage (Some (wire ids op body)) [] true.

(** The server reads in [m] this query. *)
Definition reads_query (objcheck : bool) (fuel : nat) (m : Message) (ns : list byte) (dq : doc) (df : option doc)
    (nToReturn nToSkip opts : Z) : Prop :=
  exists d q d', msg_operation m = Ok dbQuery /\ DbMessage_of m = Ok d /\
    QueryMessage_of objcheck fuel d = Ok (q, d') /\ moreJSObjs d' = false /\
    qm_ns q = ns /\ ntoskip q = nToSkip /\ ntoreturn q = nToReturn /\ queryOptions q = opts /\
    obj_rep (qm_query q) dq /\ obj_rep (qm_fields q) (default [] df) /\
    on_wire m dbQuery (13 + zlen ns + zlen (enc_doc dq) + zlen (opt_doc df)).

Lemma query_reading objcheck fuel junk ns oq dq fo df nToReturn nToSkip opts :
  no_nul ns = true -> obj_rep oq dq -> opt_rep fo df ->
  in_s 32 nToReturn = true -> in_s 32 nToSkip = true -> in_s 32 opts = true ->
  13 + zlen ns + zlen (enc_doc dq) + zlen (opt_doc df) <= BufferMaxSize -> BufferMaxSize * 3 + 50 <= Z.of_nat fuel ->
  exists m, assembleRequest junk ns oq nToReturn nToSkip fo opts Message_new = Ok m /\
    reads_query objcheck fuel m ns dq df nToReturn nToSkip opts.
Proof.
  intros Hn Hq Hf Hret Hskip Hopts Hz Hfuel.
  set (tail_ := enc_doc dq ++ opt_doc df).
  set (body := le32 opts ++ ns ++ x00 :: le32 nToSkip ++ le32 nToReturn ++ tail_).
  assert (zlen body = 13 + zlen ns + zlen (enc_doc dq) + zlen (opt_doc df)) as Hlen
    by (unfold body, tail_; rewrite !zlen_app, zlen_cons, !zlen_app, !zlen_le_bytes; lia).
  destruct (request_message (appendNum_int opts ;> appendStr ns true ;> appendNum_int nToSkip ;> appendNum_int nToReturn ;>
    appendSelfToBufBuilder oq ;> append_fields fo) body junk dbQuery) as (b & Hb & Hm); [|lia|].
  { eapply writes_eq; [repeat (apply writes_seq; [first [apply writes_append|by apply writes_self]|]); by apply writes_fields|].
    unfold body, tail_. by rewrite <- !app_assoc. }
  unfold assembleRequest. rewrite Hb. cbn [bind]. rewrite Hm. rewrite buffer_max in *.
  destruct (start_reading (take 8 (junk ++ repeat x00 8)) dbQuery opts ns (le32 nToSkip ++ le32 nToReturn ++ tail_))
    as (d & Hd & Hp & Hbuf & Hend & _ & Hns); [apply ids_length|fold body; lia|done|done|]. fold body in Hd, Hbuf, Hend.
  destruct (pullInt_rep d ns nToSkip _ Hp Hskip) as (d1 & H1 & Hp1 & Hb1 & He1).
  destruct (pullInt_rep d1 ns nToReturn _ Hp1 Hret) as (d2 & H2 & Hp2 & Hb2 & He2).
  destruct (nextJsObj_rep objcheck fuel d2 ns dq (opt_doc df) Hp2) as (js & d3 & H3 & Hjs & Hp3 & Hb3 & He3 & Hmore);
    [apply Hq|lia|lia|].
  assert (exists f d4, (if moreJSObjs d3 then nextJsObj objcheck fuel d3 else Ok (BSONObj_empty, d3)) = Ok (f, d4) /\
    obj_rep f (default [] df) /\ moreJSObjs d4 = false /\ m_buf d4 = m_buf d) as (f & d4 & H4 & Hf4 & Hm4 & Hb4).
  { rewrite Hmore. destruct fo as [of_|], df as [dfs|]; try done; cbn [opt_doc default].
    - rewrite bool_decide_true by done.
      destruct (nextJsObj_rep objcheck fuel d3 ns dfs []) as (f & d4 & H4 & Hf4 & _ & Hb4 & _ & Hm4);
        [by rewrite app_nil_r|apply Hf|lia|lia|]. exists f, d4. split; [done|]. split; [done|]. split; [done|congruence].
    - rewrite bool_decide_false by (intros H; by apply H). do 2 eexists. split; [done|]. split; [apply obj_rep_empty|].
      split; [|congruence]. rewrite Hmore. by rewrite bool_decide_false by (intros H; by apply H). }
  eexists. split; [done|]. do 3 eexists. split; [by apply wire_operation; [apply ids_length|]|]. split; [exact Hd|].
  unfold QueryMessage_of. rewrite Hns. cbn [bind]. rewrite H1. cbn [bind]. rewrite H2. cbn [bind]. rewrite H3.
  cbn [bind]. rewrite H4. cbn [bind].
  assert (dataAsInt (m_buf d4) = Ok opts) as ->.
  { rewrite Hb4, Hbuf. eapply points_load_s32; [apply wire_data, ids_length|done]. }
  cbn [bind]. split; [done|]. split; [done|]. repeat (split; [done|]).
  do 2 eexists. split; [apply ids_length|]. by split; [exact Hlen|].
Qed.

(** A query that the client assembles is read back by the server: its
    operation, the name of the collection, the numbers and options, the query
    and the fields to return; with validation of objects or without. *)
Theorem query_roundtrip objcheck fuel junk ns oq dq fo df nToReturn nToSkip opts :
  no_nul ns = true -> obj_rep oq dq -> opt_rep fo df ->
  in_s 32 nToReturn = true -> in_s 32 nToSkip = true -> in_s 32 opts = true ->
  13 + zlen ns + zlen (enc_doc dq) + zlen (opt_doc df) <= BufferMaxSize -> BufferMaxSize * 3 + 50 <= Z.of_nat fuel ->
  exists m, assembleRequest junk ns oq nToReturn nToSkip fo opts Message_new = Ok m /\
    reads_query objcheck fuel m ns dq df nToReturn nToSkip opts.
Proof. apply query_reading. Qed.

(** Every object that is left, as a server reads an insert. *)
Fixpoint read_objs (k : nat) (objcheck : bool) (fuel : nat) (d : DbMessage) : result (list BSONObj * DbMessage) :=
  match k with
  | O => Err OutOfFuel
  | S k' =>
      if moreJSObjs d then
        let* '(o, d) := nextJsObj objcheck fuel d in
        let* '(os, d) := read_objs k' objcheck fuel d in
        Ok (o :: os, d)
      else Ok ([], d)
  end.

Lemma read_objs_rep objcheck fuel ds : forall k d ns, pending d ns (concat (map enc_doc ds)) ->
  moreJSObjs d = bool_decide (ds <> []) -> (length ds < k)%nat -> Forall (fun d => wf_doc d = true) ds ->
  theEnd d < 2 ^ 31 -> 3 * theEnd d + 2 <= Z.of_nat fuel ->
  exists os d', read_objs k objcheck fuel d = Ok (os, d') /\ Forall2 obj_rep os ds /\ moreJSObjs d' = false.
Proof.
  induction ds as [|dd ds IH]; intros k d ns Hp Hm Hk Hw Hend Hf; (destruct k as [|k]; [cbn in Hk; lia|]); cbn [read_objs]; rewrite Hm.
  - rewrite bool_decide_false by auto. exists [], d. split; [done|]. split; [constructor|].
    rewrite Hm. by rewrite bool_decide_false by auto.
  - rewrite bool_decide_true by done. apply Forall_cons_1 in Hw as [Hw Hws]. cbn [map concat] in Hp.
    destruct (nextJsObj_rep objcheck fuel d ns dd _ Hp Hw Hend Hf) as (js & d1 & H1 & Hjs & Hp1 & _ & He1 & Hm1).
    rewrite H1. cbn [bind]. destruct (IH k d1 ns Hp1) as (os & d' & H2 & Hos & Hm2).
    + rewrite Hm1. apply bool_decide_ext. destruct ds as [|d2 ds2]; [by split|]. split; [done|]. intros _.
      cbn. by destruct (enc_doc d2) eqn:E.
    + cbn in Hk. lia.
    + done.
    + by rewrite He1.
    + by rewrite He1.
    + rewrite H2. cbn [bind]. exists (js :: os), d'. split; [done|]. split; [by constructor|done].
Qed.

(** *** Flags *)

Lemma writeback_bit f : in_s 32 f = true -> from_writeback f = (f <? 0).
Proof.
  intros H%in_s_spec. change (2 ^ (32 - 1)) with (2 ^ 31) in H. unfold from_writeback, WriteOption_FromWriteback.
  change (- 2 ^ 31) with (Z.lnot (Z.ones 31)). rewrite <- Z.ldiff_land, Z.ldiff_ones_r, Z.shiftl_mul_pow2, Z.shiftr_div_pow2 by lia.
  destruct (Z.ltb_spec f 0).
  - assert (f / 2 ^ 31 = -1) as -> by (symmetry; apply (Z.div_unique _ _ _ (f + 2 ^ 31)); lia). done.
  - by rewrite Z.div_small by lia.
Qed.

Lemma without_writeback_mod f : in_s 32 f = true -> without_writeback f = f mod 2 ^ 31.
Proof.
  intros H. unfold without_writeback. rewrite writeback_bit by done. apply in_s_spec in H.
  change (2 ^ (32 - 1)) with (2 ^ 31) in H. destruct (Z.ltb_spec f 0); [|by rewrite Z.mod_small by lia].
  rewrite <- Z.land_ones by lia. apply Z.bits_inj'. intros n Hn.
  unfold WriteOption_FromWriteback. change (- 2 ^ 31) with (Z.lnot (Z.ones 31)).
  rewrite Z.lxor_spec, Z.land_spec, Z.lnot_spec by done. rewrite Z.testbit_ones_nonneg by lia.
  destruct (Z.ltb_spec n 31); [by destruct (Z.testbit f n)|]. cbn [negb].
  rewrite Z.bits_above_log2_neg; [done|done|]. destruct (Z.eq_dec (Z.pred (- f)) 0) as [-> |]; [cbn; lia|].
  apply Z.log2_lt_pow2; [lia|]. pose proof (Z.pow_le_mono_r 2 31 n). lia.
Qed.

Lemma without_writeback_range f : in_s 32 f = true -> in_s 32 (without_writeback f) = true.
Proof.
  intros H. rewrite without_writeback_mod by done. apply in_s_spec. pose proof (Z.mod_pos_bound f (2 ^ 31)).
  change (2 ^ (32 - 1)) with (2 ^ 31). lia.
Qed.

Lemma insert_reserved_range f : in_s 32 (insert_reserved f) = true.
Proof. unfold insert_reserved. by destruct (negb _), (negb _). Qed.

(** *** Writes *)

(** The message is of this operation and namespace, with this reserved field;
    [d] reads what comes next. *)
Definition opens (m : Message) (op r : Z) (ns : list byte) (d : DbMessage) : Prop :=
  msg_operation m = Ok op /\ DbMessage_of m = Ok d /\ reservedField d = Ok r /\ getns d = Ok ns.

(** What is left in [d] are these documents. *)
Definition holds_docs (objcheck : bool) (fuel : nat) (d : DbMessage) (ds : list doc) : Prop :=
  exists os d', read_objs (S (length ds)) objcheck fuel d = Ok (os, d') /\ Forall2 obj_rep os ds /\ moreJSObjs d' = false.

Definition docs_size (ds : list doc) : Z := zlen (concat (map enc_doc ds)).

Lemma pending_more d ns rest_ : pending d ns rest_ -> rest_ <> [] -> moreJSObjs d = true.
Proof. intros [_ H] Hne. unfold moreJSObjs. by destruct (nextjsobj d). Qed.

Lemma pending_holds objcheck fuel d ns ds : pending d ns (concat (map enc_doc ds)) -> ds <> [] ->
  Forall (fun d => wf_doc d = true) ds -> theEnd d < 2 ^ 31 -> 3 * theEnd d + 2 <= Z.of_nat fuel ->
  holds_docs objcheck fuel d ds.
Proof.
  intros Hp Hne Hw He Hf. apply (read_objs_rep objcheck fuel ds _ d ns); try done; [|lia].
  rewrite (pending_more d ns _ Hp); [by rewrite bool_decide_true by done|].
  destruct ds as [|d1 ds]; [done|]. cbn. by destruct (enc_doc d1) eqn:E.
Qed.

Lemma wf_reps os ds : Forall2 obj_rep os ds -> Forall (fun d => wf_doc d = true) ds.
Proof. induction 1 as [|o d os ds [_ H] _ IH]; by constructor. Qed.

Lemma insert_reading objcheck fuel junk ns os ds flags : no_nul ns = true -> Forall2 obj_rep os ds -> ds <> [] ->
  5 + zlen ns + docs_size ds <= BufferMaxSize -> BufferMaxSize * 3 + 50 <= Z.of_nat fuel ->
  exists m d, insert_msg junk ns os flags = Ok m /\ opens m dbInsert (insert_reserved flags) ns d /\
    holds_docs objcheck fuel d ds.
Proof.
  intros Hn Hos Hne Hz Hf. unfold docs_size in Hz. set (rest_ := concat (map enc_doc ds)) in *.
  set (body := le32 (insert_reserved flags) ++ ns ++ x00 :: rest_).
  assert (zlen body = 5 + zlen ns + zlen rest_) as Hlen by (unfold body; rewrite !zlen_app, zlen_cons, zlen_le_bytes; lia).
  destruct (request_message (appendNum_int (insert_reserved flags) ;> appendStr ns true ;> append_objs os) body junk dbInsert)
    as (b & Hb & Hm); [|lia|].
  { eapply writes_eq; [repeat (apply writes_seq; [apply writes_append|]); by apply writes_objs|].
    unfold body. by rewrite <- !app_assoc. }
  rewrite buffer_max in *.
  destruct (start_reading (take 8 (junk ++ repeat x00 8)) dbInsert (insert_reserved flags) ns rest_)
    as (d & Hd & Hp & _ & Hend & Hr & Hns); [apply ids_length|fold body; lia|apply insert_reserved_range|done|].
  fold body in Hd, Hend. unfold insert_msg. rewrite Hb. cbn [bind]. do 2 eexists. split; [exact Hm|].
  split; [split; [by apply wire_operation; [apply ids_length|]|done]|].
  apply (pending_holds _ _ _ ns); [done|done|by eapply wf_reps|lia|lia].
Qed.

(** The requests with a number after the name. *)
Lemma flagged_reading (m : BufBuilder -> result BufBuilder) objcheck fuel junk op ns r flags ds :
  no_nul ns = true -> in_s 32 r = true -> in_s 16 op = true -> in_s 32 flags = true -> Forall (fun d => wf_doc d = true) ds -> ds <> [] ->
  writes m (concat (map enc_doc ds)) ->
  9 + zlen ns + docs_size ds <= BufferMaxSize -> BufferMaxSize * 3 + 50 <= Z.of_nat fuel ->
  exists b msg d, (appendNum_int r ;> appendStr ns true ;> appendNum_int flags ;> m) (BufBuilder_new 512) = Ok b /\
    setData junk op (buf b) Message_new = Ok msg /\ opens msg op r ns d /\
    exists d1, pullInt d = Ok (flags, d1) /\ holds_docs objcheck fuel d1 ds.
Proof.
  intros Hn Hr Hop Hfl Hw Hne Hwr Hz Hf. unfold docs_size in Hz. set (rest_ := concat (map enc_doc ds)) in *.
  set (body := le32 r ++ ns ++ x00 :: le32 flags ++ rest_).
  assert (zlen body = 9 + zlen ns + zlen rest_) as Hlen
    by (unfold body; rewrite !zlen_app, zlen_cons, zlen_app, !zlen_le_bytes; lia).
  destruct (request_message (appendNum_int r ;> appendStr ns true ;> appendNum_int flags ;> m) body junk op)
    as (b & Hb & Hm); [|lia|].
  { eapply writes_eq; [repeat (apply writes_seq; [apply writes_append|]); exact Hwr|]. unfold body. by rewrite <- !app_assoc. }
  rewrite buffer_max in *.
  destruct (start_reading (take 8 (junk ++ repeat x00 8)) op r ns (le32 flags ++ rest_))
    as (d & Hd & Hp & _ & Hend & Hres & Hns); [apply ids_length|fold body; lia|done|done|].
  fold body in Hd, Hend. destruct (pullInt_rep d ns flags _ Hp Hfl) as (d1 & H1 & Hp1 & _ & He1).
  do 3 eexists. split; [exact Hb|]. split; [exact Hm|]. split; [split; [by apply wire_operation; [apply ids_length|]|done]|].
  exists d1. split; [done|]. apply (pending_holds _ _ _ ns); [done|done|done|lia|lia].
Qed.

(** The reserved fields by the bits of the flags. *)
Lemma land_bit f n : 0 <= n -> (Z.land f (2 ^ n) =? 0) = negb (Z.testbit f n).
Proof.
  intros Hn. destruct (Z.testbit f n) eqn:E.
  - apply Z.eqb_neq. intros H. apply (f_equal (fun z => Z.testbit z n)) in H.
    by rewrite Z.land_spec, E, Z.pow2_bits_true, Z.bits_0 in H.
  - apply Z.eqb_eq, Z.bits_inj'. intros k Hk. rewrite Z.land_spec, Z.bits_0, Z.pow2_bits_eqb by done.
    destruct (Z.eqb_spec n k) as [<- |]; [by rewrite E|apply andb_false_r].
Qed.

Lemma from_writeback_bit f : in_s 32 f = true -> from_writeback f = Z.testbit f 31.
Proof.
  intros H. rewrite writeback_bit by done. apply in_s_spec in H. change (2 ^ (32 - 1)) with (2 ^ 31) in H.
  rewrite Z.testbit_odd, Z.shiftr_div_pow2 by lia. destruct (Z.ltb_spec f 0).
  - replace (f / 2 ^ 31) with (-1); [done|]. apply Z.div_unique with (f + 2 ^ 31); lia.
  - by rewrite Z.div_small by lia.
Qed.

Lemma insert_reserved_bits f : in_s 32 f = true ->
  insert_reserved f = Z.b2z (Z.testbit f 0) + 2 * Z.b2z (Z.testbit f 31).
Proof.
  intros H. unfold insert_reserved. fold (from_writeback f). rewrite from_writeback_bit by done.
  unfold InsertOption_ContinueOnError. change (Z.land f 1) with (Z.land f (2 ^ 0)). rewrite land_bit, negb_involutive by done.
  by destruct (Z.testbit f 0), (Z.testbit f 31).
Qed.
Lemma remove_reserved_bits f : in_s 32 f = true -> remove_reserved f = - 2 ^ 31 * Z.b2z (Z.testbit f 31).
Proof. intros H. unfold remove_reserved. rewrite from_writeback_bit by done. by destruct (Z.testbit f 31). Qed.
Lemma update_reserved_bits f : in_s 32 f = true -> update_reserved f = 2 * Z.b2z (Z.testbit f 31).
Proof. intros H. unfold update_reserved. rewrite from_writeback_bit by done. by destruct (Z.testbit f 31). Qed.

(** C25: The server reads back what the client's writes say: the name of the
    collection, the flags, and the objects: those to insert, the query of a
    remove, the query and the change of an update.  The bit 0 of the flags of an
    insert, to continue after an error, is bit 0 of the reserved field; the bit 31
    of any flags, for a writeback, is bit 1 of the reserved field, and bit 31 of
    that of a remove; the other bits of a remove and an update are the field after
    the name.  The requests fit 64MB and an insert has an object. *)
Theorem writes_roundtrip objcheck fuel junk ns flags os ds oq dq oc dc :
  no_nul ns = true -> in_s 32 flags = true -> Forall2 obj_rep os ds -> ds <> [] -> obj_rep oq dq -> obj_rep oc dc ->
  9 + zlen ns + docs_size ds <= BufferMaxSize -> 9 + zlen ns + docs_size [dq; dc] <= BufferMaxSize ->
  BufferMaxSize * 3 + 50 <= Z.of_nat fuel ->
  (exists m d, insert_msg junk ns os flags = Ok m /\ opens m dbInsert (Z.b2z (Z.testbit flags 0) + 2 * Z.b2z (Z.testbit flags 31)) ns d /\
     holds_docs objcheck fuel d ds) /\
  (exists m d d', remove_msg junk ns oq flags = Ok m /\ opens m dbDelete (- 2 ^ 31 * Z.b2z (Z.testbit flags 31)) ns d /\
     pullInt d = Ok (flags mod 2 ^ 31, d') /\ holds_docs objcheck fuel d' [dq]) /\
  (exists m d d', update_msg junk ns oq oc flags = Ok m /\ opens m dbUpdate (2 * Z.b2z (Z.testbit flags 31)) ns d /\
     pullInt d = Ok (flags mod 2 ^ 31, d') /\ holds_docs objcheck fuel d' [dq; dc]).
Proof.
  intros Hn Hfl Hos Hne Hq Hc Hz1 Hz2 Hf. rewrite <- (without_writeback_mod flags Hfl), <- insert_reserved_bits, <- remove_reserved_bits, <- update_reserved_bits by done.
  pose proof (without_writeback_range flags Hfl) as Hw. unfold docs_size in Hz2. cbn [map concat] in Hz2.
  rewrite app_nil_r, zlen_app in Hz2. pose proof (zlen_nonneg (enc_doc dc)).
  split; [apply insert_reading; try done; lia|]. split.
  - destruct (flagged_reading (appendSelfToBufBuilder oq) objcheck fuel junk dbDelete ns (remove_reserved flags)
      (without_writeback flags) [dq]) as (b & m & d & Hb & Hm & Ho & d1 & H1); try done.
    { unfold remove_reserved. by destruct (from_writeback flags). }
    { constructor; [apply Hq|constructor]. }
    { cbn. rewrite app_nil_r. by apply writes_self. }
    { unfold docs_size. cbn [map concat]. rewrite app_nil_r. lia. }
    unfold remove_msg. rewrite Hb. cbn [bind]. by exists m, d, d1.
  - destruct (flagged_reading (appendSelfToBufBuilder oq ;> appendSelfToBufBuilder oc) objcheck fuel junk dbUpdate ns
      (update_reserved flags) (without_writeback flags) [dq; dc]) as (b & m & d & Hb & Hm & Ho & d1 & H1); try done.
    { unfold update_reserved. by destruct (from_writeback flags). }
    { constructor; [apply Hq|]. constructor; [apply Hc|constructor]. }
    { cbn. rewrite app_nil_r. apply writes_seq; by apply writes_self. }
    { unfold docs_size. cbn [map concat]. rewrite app_nil_r, zlen_app. lia. }
    unfold update_msg. rewrite Hb. cbn [bind]. by exists m, d, d1.
Qed.

(** With the option for writebacks a remove sets bit 31 of the reserved field;
    what the protocol calls [Reserved_FromWriteback], bit 1, is not set. *)
Example remove_from_writeback :
  remove_reserved WriteOption_FromWriteback = - 2 ^ 31 /\
  Z.land (remove_reserved WriteOption_FromWriteback) Reserved_FromWriteback = 0 /\
  update_reserved WriteOption_FromWriteback = Reserved_FromWriteback /\
  insert_reserved WriteOption_FromWriteback = Reserved_FromWriteback.
Proof. done. Qed.

(** A message for the witnesses. *)
Definition query_sample : doc := [(bstr "a", VInt 1)].

Lemma enough_fuel : BufferMaxSize * 3 + 50 <= Z.of_nat (Z.to_nat (BufferMaxSize * 3 + 50)).
Proof. rewrite Z2Nat.id; [done|]. rewrite buffer_max. lia. Qed.

Lemma query_roundtrip_witness : exists m, assembleRequest [] (bstr "db.c") (obj_of query_sample) 10 0 None 4 Message_new = Ok m /\
  msg_operation m = Ok dbQuery.
Proof.
  destruct (query_roundtrip true (Z.to_nat (BufferMaxSize * 3 + 50)) [] (bstr "db.c") (obj_of query_sample) query_sample None None
    10 0 4) as (m & H1 & d & q & d' & H2 & _).
  - reflexivity.
  - by apply obj_of_rep.
  - exact I.
  - reflexivity.
  - reflexivity.
  - reflexivity.
  - by vm_compute.
  - exact enough_fuel.
  - exists m. split; [exact H1|exact H2].
Defined.

Lemma writes_roundtrip_witness : exists m d,
  insert_msg [] (bstr "db.c") [obj_of query_sample; obj_of []] (1 - 2 ^ 31) = Ok m /\ opens m dbInsert 3 (bstr "db.c") d.
Proof.
  destruct (writes_roundtrip true (Z.to_nat (BufferMaxSize * 3 + 50)) [] (bstr "db.c") (1 - 2 ^ 31) [obj_of query_sample; obj_of []]
    [query_sample; []] (obj_of query_sample) query_sample (obj_of []) []) as [(m & d & H1 & H2 & _) _].
  - reflexivity.
  - reflexivity.
  - constructor; [by apply obj_of_rep|]. constructor; [by apply obj_of_rep|constructor].
  - discriminate.
  - by apply obj_of_rep.
  - by apply obj_of_rep.
  - by vm_compute.
  - by vm_compute.
  - exact enough_fuel.
  - exists m, d. split; [exact H1|exact H2].
Defined.

(** ** Messages of any bytes *)

Lemma until_nul_cut bs s : until_nul bs = Some s -> exists r, bs = s ++ x00 :: r.
Proof.
  revert s. induction bs as [|b bs IH]; intros s; cbn [until_nul]; [done|]. destruct (byte_eqb_spec b x00) as [-> |].
  - intros [= <-]. by exists bs.
  - destruct (until_nul bs) as [t|]; [|done]. intros [= <-]. destruct (IH t eq_refl) as (r & ->). by exists r.
Qed.

Lemma cstr_points p s : cstr p = Ok s -> exists r, rest p = Ok (s ++ x00 :: r) /\ no_nul s = true.
Proof.
  unfold cstr. destruct (rest p) as [l|]; [|done]. cbn [bind]. destruct (until_nul l) as [t|] eqn:E; [|done].
  intros [= <-]. destruct (until_nul_cut l t E) as (r & ->). exists r. split; [done|]. by eapply until_nul_no_nul.
Qed.

Lemma at_off_rest d o : 0 <= o <= zlen (m_buf d) -> exists bs, at_off d o ↦ bs /\ zlen bs = zlen (m_buf d) - o.
Proof.
  intros Ho. exists (drop (Z.to_nat o) (m_buf d)). split.
  - split; [cbn; lia|]. exists []. cbn [at_off off mem]. rewrite app_nil_r. split; [done|lia].
  - unfold zlen in *. rewrite length_drop. lia.
Qed.

Lemma validate_status fuel p n s : BsonValidate.validateBSON fuel p n = Ok s -> isOK s = true -> s = Status_OK.
Proof.
  unfold BsonValidate.validateBSON. destruct (n <? 5); [by intros [= <-]|]. unfold BsonValidate.validateBSONIterative.
  generalize (BsonValidate.MkConfig BsonValidate.BeginObj [] (BsonValidate.MkBuffer p 0 n)).
  induction fuel as [|fuel IH]; intros c; cbn [BsonValidate.validate_loop]; (destruct (bool_decide _); [by intros [= <-]|]); [done|].
  destruct (BsonValidate.validate_step c); [apply IH|by intros [= <-]|done].
Qed.

(** The reader of a whole message with a name. *)
Record reader_ok (d : DbMessage) : Prop := {
  ok_end : theEnd d = zlen (m_buf d);
  ok_small : theEnd d < 2 ^ 31;
  ok_name : exists ns, getns d = Ok ns;
  ok_next : match nextjsobj d with Some o => off_ns <= o <= theEnd d | None => True end
}.

Lemma afterNS_ok d : reader_ok d -> exists o, afterNS d = Ok o /\ off_ns < o <= theEnd d.
Proof.
  intros [He _ [ns Hns] _]. unfold getns in Hns. unfold afterNS, strlen. rewrite Hns. cbn [bind].
  exists (off_ns + zlen ns + 1). split; [done|]. apply cstr_points in Hns as (r & Hr & _).
  unfold rest in Hr. destruct (_ || _) eqn:E; [done|]. injection Hr as Hr. cbn [at_off off mem] in *.
  apply orb_false_elim in E as [E1%Z.ltb_ge E2%Z.ltb_ge]. pose proof (zlen_nonneg ns).
  assert (zlen (drop (Z.to_nat off_ns) (m_buf d)) = zlen ns + 1 + zlen r) as Hz
    by (rewrite Hr, zlen_app, zlen_cons; lia).
  unfold zlen in *. rewrite length_drop in Hz. lia.
Qed.

Lemma next_position_ok d : reader_ok d -> nextjsobj d <> None ->
  (exists o, next_position d = Ok o /\ off_ns < o <= theEnd d) \/ next_position d = Err (MsgAssert 13066).
Proof.
  intros Hd Hn. unfold next_position. pose proof (ok_next d Hd) as H. destruct (nextjsobj d) as [o|]; [|done].
  destruct (Z.eqb_spec o off_ns); [|left; exists o; split; [done|lia]].
  destruct (afterNS_ok d Hd) as (o' & -> & Ho'). cbn [bind]. destruct (o' <? theEnd d); cbn [massert bind]; [left; by exists o'|by right].
Qed.

(** What reading an object from a message may throw. *)
Definition reader_error (e : err) : bool :=
  match e with
  | MsgAssert c => bool_decide (c = 13066 \/ c = 10304 \/ c = 10307 \/ c = 10334)
  | VerifyFailed | UndefinedBehaviour => true
  | _ => false
  end.

(** C26: With validation, reading the next object of a message of any bytes, which
    has been received whole and has a name, throws one of its assertions, or
    computes an [int] that overflows in the validator, or gives an object that is
    laid out inside the message, after which the reader is still in it; provided
    no string or binary data that the validator meets has a negative size. *)
Theorem nextJsObj_safe fuel d : reader_ok d -> nextjsobj d <> None ->
  (forall o, next_position d = Ok o -> sizes_ok fuel (start (at_off d o) (theEnd d - o)) = true) ->
  3 * theEnd d + 2 <= Z.of_nat fuel ->
  match nextJsObj true fuel d with
  | Ok (js, d') => reader_ok d' /\ m_buf d' = m_buf d /\
      exists fs b r, lays_fields fs b /\ js ↦ enc_frame b ++ r /\ off js + zlen (enc_frame b ++ r) = theEnd d
  | Err e => reader_error e = true
  end.
Proof.
  intros Hd Hn Hs Hf. unfold nextJsObj.
  destruct (next_position_ok d Hd Hn) as [(o & Ho & Hr) | ->]; [|done]. rewrite Ho. cbn [bind].
  destruct (Z.leb_spec 5 (theEnd d - o)) as [H5|]; cbn [massert bind]; [|done].
  pose proof (ok_end d Hd) as He. pose proof (ok_small d Hd) as Hsm. change off_ns with 20 in Hr.
  destruct (at_off_rest d o) as (bs & Hp & Hz); [lia|]. rewrite <- He in Hz. rewrite <- Hz in *.
  specialize (Hs o Ho). rewrite <- Hz in Hs.
  assert (3 * zlen bs + 2 <= Z.of_nat fuel) as Hf' by lia. assert (zlen bs < 2 ^ 31) as Hz' by lia.
  destruct (validateBSON_outcome fuel _ bs Hp Hz' Hs Hf') as [[s Hv] | ->]; [|done]. rewrite Hv. cbn [bind].
  destruct (isOK s) eqn:Es; cbn [massert bind]; [|done]. unfold start in Hs. rewrite start_left in Hs.
  apply (validate_status _ _ _ _ Hv) in Es as ->.
  destruct (start_sound _ bs Hp Hz' fuel Hs Hv) as (fs & b & r & Hl & ->).
  pose proof Hp as Hp'. unfold enc_frame in Hp'. rewrite <- !app_assoc in Hp'.
  rewrite zlen_app, zlen_enc_frame in *. pose proof (zlen_nonneg b). pose proof (zlen_nonneg r).
  assert (objsize (at_off d o) = Ok (zlen b + 5)) as Hn'.
  { eapply points_load_s32; [exact Hp'|]. apply in_s_spec. change (2 ^ (32 - 1)) with (2 ^ 31). lia. }
  unfold BSONObj_init, isValid. rewrite Hn'. cbn [bind]. destruct (_ && _); cbn [bind]; [|done]. rewrite Hn'. cbn [bind].
  rewrite (proj2 (Z.leb_le 5 _)) by lia. cbn [verify bind]. destruct (_ <? _); cbn [verify bind]; [|done].
  split; [|split; [done|]].
  - destruct Hd as [H1 H2 H3 H4]. split; try done. cbn [set_next nextjsobj theEnd].
    destruct (Z.leb_spec (theEnd d) (o + (zlen b + 5))); [done|]. change off_ns with 20. lia.
  - exists fs, b, r. split; [done|]. split; [done|]. rewrite zlen_app, zlen_enc_frame. cbn [at_off off]. lia.
Qed.

(** Without validation only the size is compared, and with the length of all the
    data: an object may go on past the message. *)
Definition past_end : Message :=
  MkMessage (Some (wire (repeat x00 8) dbInsert (le32 0 ++ bstr "collection" ++ [x00] ++ le32 12 ++ [x00]))) [] true.

Example object_past_end : exists d js d',
  DbMessage_of past_end = Ok d /\ nextJsObj false 0 d = Ok (js, d') /\ objsize js = Ok 12 /\ off js + 5 = theEnd d.
Proof. do 3 eexists. split; [vm_compute; reflexivity|]. split; [vm_compute; reflexivity|]. done. Qed.

(** The numbers are read without a look at the end. *)
Example number_past_end : exists d,
  DbMessage_of (MkMessage (Some (wire (repeat x00 8) dbQuery (le32 0 ++ [x00]))) [] true) = Ok d /\
  pullInt d = Err OutOfBounds.
Proof. eexists. split; [vm_compute; reflexivity|]. vm_compute. reflexivity. Qed.

Definition past_end_reader : DbMessage :=
  MkDbMessage (wire (repeat x00 8) dbInsert (le32 0 ++ bstr "collection" ++ [x00] ++ le32 12 ++ [x00])) 36 (Some off_ns) None.

Lemma nextJsObj_safe_witness : DbMessage_of past_end = Ok past_end_reader /\
  match nextJsObj true 120 past_end_reader with Ok (js, d') => False | Err e => reader_error e = true end.
Proof.
  split; [vm_compute; reflexivity|].
  assert (forall o, next_position past_end_reader = Ok o ->
    sizes_ok 120 (start (at_off past_end_reader o) (theEnd past_end_reader - o)) = true) as Hs.
  { intros o Ho. assert (o = 31) as -> by (vm_compute in Ho; congruence). vm_compute. reflexivity. }
  assert (reader_ok past_end_reader) as Hd by (split; [reflexivity|reflexivity|eexists; vm_compute; reflexivity|done]).
  pose proof (nextJsObj_safe 120 past_end_reader Hd ltac:(discriminate) Hs ltac:(vm_compute; discriminate)) as H.
  vm_compute in H |- *. exact H.
Defined.

(** The const form never returns. *)
Lemma pullInt_const_diverges fuel d : pullInt_const fuel d = Err OutOfFuel.
Proof. by induction fuel. Qed.

(** ** Messages of several buffers *)

Fixpoint append_pieces (ps : list (list byte)) (m : Message) : result Message :=
  match ps with
  | [] => Ok m
  | p :: ps' => let* m := appendData p (zlen p) m in append_pieces ps' m
  end.

(** [bs] with its length in front. *)
Definition stamped (bs : list byte) : list byte := le32 (zlen bs) ++ drop 4 bs.

Definition sized (ds : list (list byte)) : list (list byte * Z) := map (fun d : list byte => (d, zlen d)) ds.

(** The message holds [bs], in one buffer or several. *)
Definition msg_holds (m : Message) (bs : list byte) : Prop :=
  _freeIt m = true /\ exists (h : list byte) (ds : list (list byte)), 4 <= zlen h /\ concat (h :: ds) = stamped bs /\
    ((_buf m = Some h /\ _data m = [] /\ ds = []) \/ (_buf m = None /\ _data m = sized (h :: ds))).

Lemma zlen_stamped bs : 4 <= zlen bs -> zlen (stamped bs) = zlen bs.
Proof. intros H. unfold stamped. rewrite zlen_app, zlen_le_bytes. unfold zlen in *. rewrite length_drop. lia. Qed.

Lemma split4 (h : list byte) : 4 <= zlen h -> exists a t, h = a ++ t /\ zlen a = 4.
Proof.
  intros H. exists (take 4 h), (drop 4 h). split; [by rewrite take_drop|]. unfold zlen in *. rewrite length_take. lia.
Qed.

Lemma set_len_spec n h : 4 <= zlen h -> set_len n h = Ok (le32 n ++ drop 4 h).
Proof.
  intros H. destruct (split4 h H) as (a & t & -> & Ha). unfold set_len.
  change (a ++ t) with ([] ++ a ++ t). rewrite store_at; [|done|by rewrite zlen_le_bytes]. cbn [app].
  assert (4%nat = length a) as -> by (unfold zlen in Ha; lia). by rewrite drop_app_length.
Qed.

Lemma stamped_head h ds bs : 4 <= zlen h -> concat (h :: ds) = stamped bs -> exists t, h = le32 (zlen bs) ++ t /\
  t ++ concat ds = drop 4 bs.
Proof.
  intros H E. destruct (split4 h H) as (a & t & -> & Ha). cbn [concat] in E. unfold stamped in E. rewrite <- app_assoc in E.
  apply app_inj_1 in E as [-> E]; [by exists t|]. unfold zlen in Ha. rewrite length_le_bytes. lia.
Qed.

Lemma stamped_app bs p : 4 <= zlen bs -> stamped (bs ++ p) = le32 (zlen bs + zlen p) ++ drop 4 bs ++ p.
Proof. intros H. unfold stamped. rewrite zlen_app, drop_app_le by (unfold zlen in H; lia). done. Qed.

Lemma appendData_holds m bs p : msg_holds m bs -> 4 <= zlen bs -> zlen bs + zlen p < 2 ^ 31 ->
  exists m', appendData p (zlen p) m = Ok m' /\ msg_holds m' (bs ++ p).
Proof.
  intros (Hfree & h & ds & Hh & E & Hm) Hb Hz. unfold appendData. pose proof (zlen_nonneg p).
  destruct (Z.leb_spec (zlen p) 0).
  { assert (p = []) as -> by (destruct p; [done|rewrite zlen_cons in *; pose proof (zlen_nonneg p); lia]).
    exists m. split; [done|]. rewrite app_nil_r. split; [done|]. by exists h, ds. }
  assert (msg_empty m = false) as -> by (unfold msg_empty; destruct Hm as [[-> _]|[-> ->]]; done).
  rewrite Hfree. cbn [verify bind]. destruct (stamped_head h ds bs Hh E) as (t & Et & Ed).
  assert (md_len h = Ok (zlen bs)) as Hlen.
  { rewrite Et. eapply points_load_s32; [apply points_start|]. apply in_s_spec. change (2 ^ (32 - 1)) with (2 ^ 31). lia. }
  assert (add_len (zlen p) h = Ok (le32 (zlen bs + zlen p) ++ t)) as Hadd.
  { unfold add_len. rewrite Hlen. cbn [bind].
    assert (in_s 32 (zlen bs + zlen p) = true) as -> by (apply in_s_spec; change (2 ^ (32 - 1)) with (2 ^ 31); lia).
    rewrite set_len_spec by done. rewrite Et. by rewrite drop_app_length' by by rewrite length_le_bytes. }
  set (h' := le32 (zlen bs + zlen p) ++ t) in *.
  assert (zlen h' = zlen h) as Hzh by (unfold h'; rewrite Et, !zlen_app, !zlen_le_bytes; done).
  assert (concat (h' :: ds ++ [p]) = stamped (bs ++ p)) as Econc.
  { rewrite stamped_app by done. cbn [concat]. rewrite concat_app. cbn [concat]. rewrite app_nil_r. unfold h'.
    rewrite <- Ed, <- !app_assoc. done. }
  destruct Hm as [(-> & -> & Eds)|(-> & ->)].
  - rewrite Hlen. cbn [bind app]. rewrite Hadd. cbn [bind]. eexists. split; [done|]. split; [done|].
    exists h', [p]. split; [lia|]. split; [by rewrite Eds in Econc|]. right. split; [done|]. cbn. rewrite Hzh. do 2 f_equal.
    rewrite Eds in E. cbn [concat] in E. rewrite app_nil_r in E. by rewrite E, zlen_stamped.
  - cbn [bind]. unfold sized. cbn [map app]. rewrite Hadd. cbn [bind]. eexists. split; [done|]. split; [done|].
    exists h', (ds ++ [p]). split; [lia|]. split; [done|]. right. split; [done|]. unfold sized. cbn. rewrite map_app, Hzh. done.
Qed.

Lemma append_pieces_holds ps : forall m bs, msg_holds m bs -> 4 <= zlen bs -> zlen bs + zlen (concat ps) < 2 ^ 31 ->
  exists m', append_pieces ps m = Ok m' /\ msg_holds m' (bs ++ concat ps).
Proof.
  induction ps as [|p ps IH]; intros m bs Hm Hb Hz; cbn [append_pieces concat].
  - exists m. by rewrite app_nil_r.
  - cbn [concat] in Hz. rewrite zlen_app in Hz. pose proof (zlen_nonneg p). pose proof (zlen_nonneg (concat ps)).
    destruct (appendData_holds m bs p Hm Hb ltac:(lia)) as (m1 & -> & H1). cbn [bind].
    destruct (IH m1 (bs ++ p) H1) as (m' & -> & H'); [rewrite zlen_app; lia|rewrite zlen_app; lia|].
    exists m'. by rewrite app_assoc.
Qed.

Lemma sum_sized ds : forall k, 0 <= k -> k + zlen (concat ds) < 2 ^ 31 -> sum_sizes (sized ds) k = Ok (k + zlen (concat ds)).
Proof.
  induction ds as [|d ds IH]; intros k Hk Hz; cbn [sized map sum_sizes concat]; [by rewrite zlen_nil, Z.add_0_r|].
  cbn [concat] in Hz. rewrite zlen_app in *. pose proof (zlen_nonneg d). pose proof (zlen_nonneg (concat ds)).
  assert (in_s 32 (k + zlen d) = true) as -> by (apply in_s_spec; change (2 ^ (32 - 1)) with (2 ^ 31); lia).
  change (map (fun d : list byte => (d, zlen d)) ds) with (sized ds). rewrite IH by lia. f_equal. lia.
Qed.

Lemma copy_sized ds : copy_all (sized ds) = Ok (concat ds).
Proof.
  induction ds as [|d ds IH]; cbn [sized map copy_all concat]; [done|].
  rewrite (points_loads_all _ d) by (apply points_start || done). cbn [bind].
  change (map (fun d : list byte => (d, zlen d)) ds) with (sized ds). by rewrite IH.
Qed.

(** A message that is given pieces is the message of all their bytes, with its
    length in front: [size] is that length, and [concat] makes it one buffer. *)
Theorem concat_correct p ps : 4 <= zlen p -> zlen (concat (p :: ps)) < 2 ^ 31 ->
  exists m m', append_pieces (p :: ps) Message_new = Ok m /\ msg_size m = Ok (zlen (concat (p :: ps))) /\
    concat_ m = Ok m' /\ _buf m' = Some (stamped (concat (p :: ps))) /\ _data m' = [].
Proof.
  intros Hp Hz. cbn [concat] in *. rewrite zlen_app in Hz. pose proof (zlen_nonneg (concat ps)).
  cbn [append_pieces]. unfold appendData at 1. destruct (Z.leb_spec (zlen p) 0); [lia|].
  cbn [Message_new msg_empty _buf _data]. rewrite set_len_spec by done. cbn [bind].
  destruct (append_pieces_holds ps (MkMessage (Some (stamped p)) [] true) p) as (m & Hm & Hfree & h & ds & Hh & E & Hd);
    [|done|lia|].
  { split; [done|]. exists (stamped p), []. split; [by rewrite zlen_stamped|]. cbn [concat]. rewrite app_nil_r. split; [done|by left]. }
  fold (stamped p). rewrite Hm. exists m. set (bs := p ++ concat ps) in *.
  assert (zlen bs = zlen p + zlen (concat ps)) as Hbs by apply zlen_app.
  assert (zlen (concat (h :: ds)) = zlen bs) as Hl by (rewrite E; apply zlen_stamped; lia).
  unfold msg_size, concat_, msg_empty. destruct Hd as [(Eb & Edt & Eds)|(Eb & Edt)]; rewrite Eb, ?Edt; cbv iota beta.
  - subst ds. cbn [concat] in *. rewrite app_nil_r in *. exists m. split; [done|]. split; [|by rewrite Eb, Edt, E].
    destruct (stamped_head h [] bs Hh) as (t & -> & _); [by cbn [concat]; rewrite app_nil_r|].
    eapply points_load_s32; [apply points_start|]. apply in_s_spec. change (2 ^ (32 - 1)) with (2 ^ 31). lia.
  - rewrite sum_sized by lia. rewrite Hl. cbn [bind Z.add]. eexists. split; [done|]. split; [done|].
    change (sized (h :: ds)) with ((h, zlen h) :: sized ds) at 1. rewrite Hfree. cbn [verify bind].
    rewrite copy_sized. cbn [bind]. by rewrite E.
Qed.

(** ** Replies *)

Definition reply_body (flags cursorId startingFrom nReturned : Z) (data : list byte) : list byte :=
  le32 flags ++ le64 cursorId ++ le32 startingFrom ++ le32 nReturned ++ data.

Lemma store_eq a b c d k bs r : d = a ++ b ++ c -> k = zlen a -> zlen b = zlen bs -> r = a ++ bs ++ c -> store d k bs = Ok r.
Proof. intros -> -> Hb ->. by apply store_at. Qed.

Lemma reply_fields_wire flags cursorId startingFrom nReturned data :
  reply_fields flags cursorId startingFrom nReturned (zlen data + 36) (repeat x00 36 ++ data) =
  Ok (wire (repeat x00 8) opReply (reply_body flags cursorId startingFrom nReturned data)).
Proof.
  unfold reply_fields, setOperation, set_len, wire.
  replace (zlen (reply_body flags cursorId startingFrom nReturned data) + 16) with (zlen data + 36)
    by (unfold reply_body; rewrite !zlen_app, !zlen_le_bytes; lia).
  set (n := zlen data + 36). unfold reply_body. pose (z := fun k => repeat x00 k).
  set (f := le32 flags). set (op := le16 opReply ++ [x00; x00]).
  rewrite (store_eq (z 16%nat) (z 4%nat) (z 16%nat ++ data) _ _ _ (z 16%nat ++ f ++ z 16%nat ++ data)) by done. cbn [bind].
  rewrite (store_eq [] (z 4%nat) (z 12%nat ++ f ++ z 16%nat ++ data) _ _ _ (le32 n ++ z 12%nat ++ f ++ z 16%nat ++ data)) by done.
  cbn [bind].
  rewrite (store_eq (le32 n ++ z 8%nat) (z 4%nat) (f ++ z 16%nat ++ data) _ _ _ ((le32 n ++ z 8%nat) ++ op ++ f ++ z 16%nat ++ data))
    by (done || by rewrite <- app_assoc). cbn [bind].
  rewrite (store_eq ((le32 n ++ z 8%nat) ++ op ++ f) (z 8%nat) (z 8%nat ++ data) _ _ _
    (((le32 n ++ z 8%nat) ++ op ++ f) ++ le64 cursorId ++ z 8%nat ++ data)) by (done || by rewrite <- !app_assoc). cbn [bind].
  rewrite (store_eq (((le32 n ++ z 8%nat) ++ op ++ f) ++ le64 cursorId) (z 4%nat) (z 4%nat ++ data) _ _ _
    ((((le32 n ++ z 8%nat) ++ op ++ f) ++ le64 cursorId) ++ le32 startingFrom ++ z 4%nat ++ data))
    by (done || by rewrite <- !app_assoc). cbn [bind].
  apply (store_eq ((((le32 n ++ z 8%nat) ++ op ++ f) ++ le64 cursorId) ++ le32 startingFrom) (z 4%nat) data);
    first [done|by unfold op; rewrite <- !app_assoc].
Qed.

(** The reply as the client gets it; [ids] are the identifiers it was sent with. *)
Definition reply (ids : list byte) (flags cursorId startingFrom nReturned : Z) (data : list byte) : list byte :=
  wire ids opReply (reply_body flags cursorId startingFrom nReturned data).

Lemma replyToQuery_reply flags p data nReturned startingFrom cursorId : p ↦ data -> zlen data + 36 <= BufferMaxSize ->
  replyToQuery flags p (zlen data) nReturned startingFrom cursorId =
  Ok (MkMessage (Some (reply (repeat x00 8) flags cursorId startingFrom nReturned data)) [] true).
Proof.
  intros Hp Hz. unfold replyToQuery.
  assert (writes (skip QueryResultSize ;> appendBuf p (zlen data)) (repeat x00 36 ++ data)) as Hw.
  { apply writes_seq; [apply writes_append|]. apply writes_buf. by apply points_loads_all. }
  destruct (Hw (BufBuilder_new 32768)) as (b & -> & E & _); [done|unfold fits, len; cbn [buf BufBuilder_new];
    rewrite zlen_app, zlen_nil; change (zlen (repeat x00 36)) with 36; lia|]. cbn [bind].
  cbn [buf BufBuilder_new app] in E. unfold len. rewrite E, zlen_app. change (zlen (repeat x00 36)) with 36.
  rewrite Z.add_comm, reply_fields_wire. done.
Qed.

Section ReplyFields.
Context (ids : list byte) (flags cursorId startingFrom nReturned : Z) (data : list byte).
Hypothesis Hids : length ids = 8%nat.
Let d := reply ids flags cursorId startingFrom nReturned data.

Lemma reply_at : Ptr d off_data ↦ reply_body flags cursorId startingFrom nReturned data.
Proof using Hids. by apply wire_data. Qed.

Lemma resultFlags_reply : in_s 32 flags = true -> resultFlags d = Ok flags.
Proof using Hids. eapply points_load_s32, reply_at. Qed.

Lemma cursorId_at : Ptr d 20 ↦ le64 cursorId ++ le32 startingFrom ++ le32 nReturned ++ data.
Proof using Hids. change (Ptr d 20) with (Ptr d off_data +! zlen (le32 flags)). eapply points_app_r; [apply reply_at|done]. Qed.

Lemma cursorId_reply : in_s 64 cursorId = true -> qr_cursorId d = Ok cursorId.
Proof using Hids. eapply points_load_s64, cursorId_at. Qed.

Lemma startingFrom_at : Ptr d 28 ↦ le32 startingFrom ++ le32 nReturned ++ data.
Proof using Hids. change (Ptr d 28) with (Ptr d 20 +! zlen (le64 cursorId)). eapply points_app_r; [apply cursorId_at|done]. Qed.

Lemma startingFrom_reply : in_s 32 startingFrom = true -> qr_startingFrom d = Ok startingFrom.
Proof using Hids. eapply points_load_s32, startingFrom_at. Qed.

Lemma nReturned_at : Ptr d 32 ↦ le32 nReturned ++ data.
Proof using Hids. change (Ptr d 32) with (Ptr d 28 +! zlen (le32 startingFrom)). eapply points_app_r; [apply startingFrom_at|done]. Qed.

Lemma nReturned_reply : in_s 32 nReturned = true -> qr_nReturned d = Ok nReturned.
Proof using Hids. eapply points_load_s32, nReturned_at. Qed.

Lemma qr_data_reply : qr_data d ↦ data.
Proof using Hids.
  change (qr_data d) with (Ptr d 32 +! zlen (le32 nReturned)). eapply points_app_r; [apply nReturned_at|done].
Qed.
End ReplyFields.
