(* ===== verification/Cursor.v ===== *)
(** * Cursor: queries and the objects they give (client/dbclientcursor.h,
    dbclientcursor.cpp, and the queries of client/dbclient.cpp)

    A cursor holds a batch of objects, a message of Wire.v from the server, and
    asks for the next when it is used up.  The connection it does that with is
    the class [Clients]: what a connection may do to the world, and answer.  An
    operation of the cursor is a function of the cursor and the world; what it
    changed before an exception stays changed.

    The theorems: against a server that serves its documents batch by batch, the
    objects a query gives are the documents, in their order, as many as the
    limit allows, up to a batch without any; whatever a server sends, a cursor never gives more than its
    limit; and a cursor that is dropped while it is alive tells the server. *)

From stdpp Require Import base list numbers strings option tactics.
From Stdlib Require Import Strings.Byte ZArith Lia.
From S2P Require Import Prelude Memory Status HostPort BsonTypes Format Element Obj Validate ValidateSpec Access Order Builder ReadPref Wire.

(** ** Flags *)

Definition QueryOption_CursorTailable : Z := 2 ^ 1.
Definition QueryOption_NoCursorTimeout : Z := 2 ^ 4.
Definition QueryOption_Exhaust : Z := 2 ^ 6.
Definition ResultFlag_CursorNotFound : Z := 1.
Definition ResultFlag_ErrSet : Z := 2.
Definition ResultFlag_ShardConfigStale : Z := 4.

Definition has_flag (flags flag : Z) : bool := negb (Z.land flags flag =? 0).

(** ** What a connection does *)

(** The exceptions that leave a cursor; the one for a stale configuration carries
    the object of the error, a failure to talk to the server has no code here. *)
Inductive exn :=
  | Failure (e : err)
  | SocketException
  | RecvStaleConfigException (error : BSONObj).

(** The methods of DBClientBase that a cursor calls, on the world [W].  A method
    with an out-parameter returns its value: [call] and [recv] the response,
    when they return; [call] and [say] the address of the server that was asked,
    when they set it; [checkResponse] whether to retry, and the host.
    [fresh_bytes] are what a fresh allocation holds; [_failed_shutdown] marks a
    connection as failed and shuts its port down. *)
Class Clients (W conn : Type) := {
  fresh_bytes : list byte;
  cl_call : conn -> Message -> bool -> W -> W * (exn + bool * Message * option (list byte));
  cl_say : conn -> Message -> bool -> W -> W * (exn + option (list byte));
  cl_sayPiggyBack : conn -> Message -> W -> W * (exn + unit);
  cl_recv : conn -> W -> W * (exn + bool * Message);
  cl_checkResponse : conn -> option ptr -> Z -> W -> W * (exn + bool * list byte);
  cl_runCommand : conn -> list byte -> BSONObj -> Z -> W -> W * (exn + bool * BSONObj);
  cl_lazySupported : conn -> bool;
  cl_type : conn -> ConnectionType;
  cl_toString : conn -> W -> list byte;
  cl_getServerAddress : conn -> W -> list byte;
  cl_availableOptions : conn -> W -> W * (exn + Z);
  cl_failed_shutdown : conn -> W -> W;
  getScopedDbConnection : list byte -> W -> W * (exn + conn);
  scoped_done : conn -> W -> W;
  getLazyKillCursor : bool;
  inShutdown : W -> bool
}.

(** ** The cursor *)

Record Batch := MkBatch {
  batch_m : Message;
  nReturned : Z;
  pos : Z;
  batch_data : option ptr
}.

Definition Batch_new : Batch := MkBatch Message_new 0 0 None.

Record DBClientCursor (conn : Type) := MkCursor {
  batch : Batch;
  _client : option conn;
  _originalHost : list byte;
  cur_ns : list byte;
  cur_query : BSONObj;
  nToReturn : Z;
  haveLimit : bool;
  nToSkip : Z;
  fieldsToReturn : option BSONObj;
  opts : Z;
  batchSize : Z;
  _putBack : list BSONObj;
  cur_resultFlags : Z;
  cursorId : Z;
  _ownCursor : bool;
  _scopedHost : list byte;
  _lazyHost : list byte;
  wasError : bool
}.
Arguments MkCursor {conn}.
Arguments batch {conn}.
Arguments _client {conn}.
Arguments _originalHost {conn}.
Arguments cur_ns {conn}.
Arguments cur_query {conn}.
Arguments nToReturn {conn}.
Arguments haveLimit {conn}.
Arguments nToSkip {conn}.
Arguments fieldsToReturn {conn}.
Arguments opts {conn}.
Arguments batchSize {conn}.
Arguments _putBack {conn}.
Arguments cur_resultFlags {conn}.
Arguments cursorId {conn}.
Arguments _ownCursor {conn}.
Arguments _scopedHost {conn}.
Arguments _lazyHost {conn}.
Arguments wasError {conn}.

(** The database of a namespace: what is before the first dot. *)
Fixpoint nsGetDB (ns : list byte) : list byte :=
  match ns with
  | [] => []
  | b :: r => if Byte.eqb b "." then [] else b :: nsGetDB r
  end.

Definition getErrField (o : BSONObj) : result BSONElement :=
  let* first := firstElement o in
  let* n := field_name first in
  if bytes_eqb n (bstr "$err") then Ok first else getField o (bstr "$err").

Definition hasErrField (o : BSONObj) : result bool :=
  let* e := getErrField o in
  let* z := eoo e in
  Ok (negb z).

Section Cursor.
Context {W conn : Type} `{Clients W conn}.

Abbreviation cursor := (DBClientCursor conn).

(** *** Updates of one field *)

Definition set_batch (b : Batch) (c : cursor) : cursor :=
  MkCursor b (_client c) (_originalHost c) (cur_ns c) (cur_query c) (nToReturn c) (haveLimit c) (nToSkip c)
    (fieldsToReturn c) (opts c) (batchSize c) (_putBack c) (cur_resultFlags c) (cursorId c) (_ownCursor c) (_scopedHost c)
    (_lazyHost c) (wasError c).
Definition set_client (x : option conn) (c : cursor) : cursor :=
  MkCursor (batch c) x (_originalHost c) (cur_ns c) (cur_query c) (nToReturn c) (haveLimit c) (nToSkip c)
    (fieldsToReturn c) (opts c) (batchSize c) (_putBack c) (cur_resultFlags c) (cursorId c) (_ownCursor c) (_scopedHost c)
    (_lazyHost c) (wasError c).
Definition set_originalHost (h : option (list byte)) (c : cursor) : cursor :=
  MkCursor (batch c) (_client c) (default (_originalHost c) h) (cur_ns c) (cur_query c) (nToReturn c) (haveLimit c) (nToSkip c)
    (fieldsToReturn c) (opts c) (batchSize c) (_putBack c) (cur_resultFlags c) (cursorId c) (_ownCursor c) (_scopedHost c)
    (_lazyHost c) (wasError c).
Definition set_nToReturn (n : Z) (c : cursor) : cursor :=
  MkCursor (batch c) (_client c) (_originalHost c) (cur_ns c) (cur_query c) n (haveLimit c) (nToSkip c)
    (fieldsToReturn c) (opts c) (batchSize c) (_putBack c) (cur_resultFlags c) (cursorId c) (_ownCursor c) (_scopedHost c)
    (_lazyHost c) (wasError c).
Definition set_putBack (s : list BSONObj) (c : cursor) : cursor :=
  MkCursor (batch c) (_client c) (_originalHost c) (cur_ns c) (cur_query c) (nToReturn c) (haveLimit c) (nToSkip c)
    (fieldsToReturn c) (opts c) (batchSize c) s (cur_resultFlags c) (cursorId c) (_ownCursor c) (_scopedHost c)
    (_lazyHost c) (wasError c).
Definition set_resultFlags (f : Z) (c : cursor) : cursor :=
  MkCursor (batch c) (_client c) (_originalHost c) (cur_ns c) (cur_query c) (nToReturn c) (haveLimit c) (nToSkip c)
    (fieldsToReturn c) (opts c) (batchSize c) (_putBack c) f (cursorId c) (_ownCursor c) (_scopedHost c)
    (_lazyHost c) (wasError c).
Definition set_cursorId (i : Z) (c : cursor) : cursor :=
  MkCursor (batch c) (_client c) (_originalHost c) (cur_ns c) (cur_query c) (nToReturn c) (haveLimit c) (nToSkip c)
    (fieldsToReturn c) (opts c) (batchSize c) (_putBack c) (cur_resultFlags c) i (_ownCursor c) (_scopedHost c)
    (_lazyHost c) (wasError c).
Definition decouple_cursor (c : cursor) : cursor :=
  MkCursor (batch c) (_client c) (_originalHost c) (cur_ns c) (cur_query c) (nToReturn c) (haveLimit c) (nToSkip c)
    (fieldsToReturn c) (opts c) (batchSize c) (_putBack c) (cur_resultFlags c) (cursorId c) false (_scopedHost c)
    (_lazyHost c) (wasError c).
Definition set_scopedHost (h : list byte) (c : cursor) : cursor :=
  MkCursor (batch c) (_client c) (_originalHost c) (cur_ns c) (cur_query c) (nToReturn c) (haveLimit c) (nToSkip c)
    (fieldsToReturn c) (opts c) (batchSize c) (_putBack c) (cur_resultFlags c) (cursorId c) (_ownCursor c) h
    (_lazyHost c) (wasError c).
Definition set_lazyHost (h : list byte) (c : cursor) : cursor :=
  MkCursor (batch c) (_client c) (_originalHost c) (cur_ns c) (cur_query c) (nToReturn c) (haveLimit c) (nToSkip c)
    (fieldsToReturn c) (opts c) (batchSize c) (_putBack c) (cur_resultFlags c) (cursorId c) (_ownCursor c) (_scopedHost c)
    h (wasError c).
Definition set_wasError (b : bool) (c : cursor) : cursor :=
  MkCursor (batch c) (_client c) (_originalHost c) (cur_ns c) (cur_query c) (nToReturn c) (haveLimit c) (nToSkip c)
    (fieldsToReturn c) (opts c) (batchSize c) (_putBack c) (cur_resultFlags c) (cursorId c) (_ownCursor c) (_scopedHost c)
    (_lazyHost c) b.

(** *** Operations on the cursor and the world *)

Definition CM (A : Type) : Type := cursor -> W -> cursor * W * (exn + A).

Definition cret {A} (a : A) : CM A := fun c w => (c, w, inr a).
Definition craise {A} (e : exn) : CM A := fun c w => (c, w, inl e).
Definition cbind {A B} (m : CM A) (k : A -> CM B) : CM B := fun c w =>
  match m c w with
  | (c', w', inr a) => k a c' w'
  | (c', w', inl e) => (c', w', inl e)
  end.
Definition clift {A} (r : result A) : CM A := match r with Ok a => cret a | Err e => craise (Failure e) end.
Definition cget : CM cursor := fun c w => (c, w, inr c).
Definition cmod (f : cursor -> cursor) : CM unit := fun c w => (f c, w, inr tt).
Definition cact {A} (f : W -> W * (exn + A)) : CM A := fun c w => let '(w', r) := f w in (c, w', r).

End Cursor.

Notation "'do!' x := m 'in' k" := (cbind m (fun x => k)) (at level 10, x name, m at level 200, k at level 200) : bson_scope.
Notation "'do!' ' p := m 'in' k" := (cbind m (fun x => match x with p => k end))
  (at level 10, p pattern, m at level 200, k at level 200) : bson_scope.

Section Operations.
Context {W conn : Type} `{Clients W conn}.
Abbreviation cursor := (DBClientCursor conn).
Abbreviation CM := (@CM W conn).

(** *** Construction *)

Definition tailable_opts (options : Z) : bool := has_flag options QueryOption_CursorTailable.

Definition DBClientCursor_query (client : conn) (ns : list byte) (query : BSONObj) (n skip_ : Z) (fields : option BSONObj)
    (queryOptions bs : Z) (w : W) : cursor :=
  MkCursor Batch_new (Some client) (cl_toString client w) ns query n ((0 <? n) && negb (tailable_opts queryOptions)) skip_ fields
    queryOptions (if bs =? 1 then 2 else bs) [] 0 0 true [] [] false.

Definition DBClientCursor_getMore (client : conn) (ns : list byte) (id n options : Z) (w : W) : cursor :=
  MkCursor Batch_new (Some client) (cl_toString client w) ns BSONObj_empty n ((0 <? n) && negb (tailable_opts options)) 0 None
    options 0 [] 0 id true [] [] false.

(** The connection; the code uses the pointer without a look. *)
Definition client_ : CM conn :=
  do! c := cget in match _client c with Some x => cret x | None => craise (Failure UndefinedBehaviour) end.

Definition nextBatchSize (c : cursor) : Z :=
  if nToReturn c =? 0 then batchSize c
  else if batchSize c =? 0 then nToReturn c
  else if batchSize c <? nToReturn c then batchSize c else nToReturn c.

(** The message that asks for more. *)
Definition getMore_msg (options : Z) (ns : list byte) (n id : Z) : result Message :=
  let* b := (appendNum_int options ;> appendStr ns true ;> appendNum_int n ;> appendNum_longlong id) (BufBuilder_new 512) in
  setData fresh_bytes dbGetMore (buf b) Message_new.

Definition _assembleInit (c : cursor) : result Message :=
  if cursorId c =? 0 then
    assembleRequest fresh_bytes (cur_ns c) (cur_query c) (nextBatchSize c) (nToSkip c) (fieldsToReturn c) (opts c) Message_new
  else getMore_msg (opts c) (cur_ns c) (nToReturn c) (cursorId c).

(** *** The objects at hand *)

Definition objsLeftInBatch (c : cursor) : Z := zlen (_putBack c) + nReturned (batch c) - pos (batch c).
Definition moreInCurrentBatch (c : cursor) : bool := 0 <? objsLeftInBatch c.

(** The object at [batch.data]. *)
Definition object_at (d : option ptr) : result (BSONObj * option ptr) :=
  match d with
  | None => Err UndefinedBehaviour
  | Some p =>
      let* o := BSONObj_init p in
      let* n := objsize o in
      Ok (o, Some (p +! n))
  end.

Definition next : CM BSONObj :=
  do! c := cget in
  match _putBack c with
  | o :: s => do! _ := cmod (set_putBack s) in cret o
  | [] =>
      let b := batch c in
      do! _ := clift (uassert 13422 (pos b <? nReturned b)) in
      let b := MkBatch (batch_m b) (nReturned b) (pos b + 1) (batch_data b) in
      do! _ := cmod (set_batch b) in
      do! '(o, d) := clift (object_at (batch_data b)) in
      do! _ := cmod (set_batch (MkBatch (batch_m b) (nReturned b) (pos b) d)) in
      cret o
  end.

Definition putBack (isOwned : bool) (o : BSONObj) : CM unit :=
  do! o := clift (getOwned isOwned o) in
  do! c := cget in
  cmod (set_putBack (o :: _putBack c)).

Definition nextSafe : CM BSONObj :=
  do! o := next in
  do! n := clift (let* p := firstElementFieldName o in cstr p) in
  if bytes_eqb n (bstr "$err") then craise (Failure (UserAssert 13106)) else cret o.

(** [peek_loop k d atMost]: [k] objects are left from [d]. *)
Fixpoint peek_loop (k : nat) (d : option ptr) (m : Z) : result (list BSONObj) :=
  match k with
  | O => Ok []
  | S k' =>
      if m =? 0 then Ok []
      else
        let* '(o, d) := object_at d in
        let* os := peek_loop k' d (m - 1) in
        Ok (o :: os)
  end.

Definition peek (atMost : Z) (c : cursor) : result (list BSONObj) :=
  peek_loop (Z.to_nat (nReturned (batch c) - pos (batch c))) (batch_data (batch c)) atMost.

Definition peekFirst (c : cursor) : result BSONObj :=
  let* v := peek 1 c in Ok (match v with o :: _ => o | [] => BSONObj_empty end).

Definition peekError (c : cursor) : result (option BSONObj) :=
  if negb (wasError c) then Ok None
  else
    let* v := peek 1 c in
    match v with
    | [o] =>
        let* e := hasErrField o in
        let* _ := verify e in
        let* o := copy o in
        Ok (Some o)
    | _ => Err VerifyFailed
    end.

Definition isDead (c : cursor) : bool := cursorId c =? 0.
Definition cur_tailable (c : cursor) : bool := tailable_opts (opts c).
Definition hasResultFlag (flag : Z) (c : cursor) : bool := has_flag (cur_resultFlags c) flag.

(** *** A reply *)

(** [dataReceived(retry, host)] returns the two. *)
Definition dataReceived : CM (bool * list byte) :=
  do! c := cget in
  do! qr := clift (singleData (batch_m (batch c))) in
  do! flags := clift (resultFlags qr) in
  do! _ := cmod (set_resultFlags flags) in
  do! _ := if has_flag flags ResultFlag_ErrSet then cmod (set_wasError true) else cret tt in
  do! id := clift (qr_cursorId qr) in
  do! _ := if has_flag flags ResultFlag_CursorNotFound then
             do! _ := clift (verify (id =? 0)) in
             do! _ := cmod (set_cursorId 0) in
             if negb (cur_tailable c) then craise (Failure (UserAssert 13127)) else cret tt
           else cret tt in
  do! c := cget in
  do! _ := if (cursorId c =? 0) || negb (cur_tailable c) then cmod (set_cursorId id) else cret tt in
  do! n := clift (qr_nReturned qr) in
  do! _ := cmod (set_batch (MkBatch (batch_m (batch c)) n 0 (Some (qr_data qr)))) in
  do! cl := client_ in
  do! r := cact (cl_checkResponse cl (Some (qr_data qr)) n) in
  do! _ := if has_flag flags ResultFlag_ShardConfigStale then
             do! c := cget in
             do! e := clift (peekError c) in
             match e with
             | Some error => craise (RecvStaleConfigException error)
             | None => craise (Failure VerifyFailed)
             end
           else cret tt in
  cret r.

Definition receive (m : Message) : cursor -> cursor := fun c =>
  set_batch (MkBatch m (nReturned (batch c)) (pos (batch c)) (batch_data (batch c))) c.

(** ** Talking to the server *)

Definition set_response (m : Message) : CM unit := cmod (receive m).

Definition init : CM bool :=
  do! c := cget in
  do! toSend := clift (_assembleInit c) in
  do! _ := clift (verify (match _client c with Some _ => true | None => false end)) in
  do! cl := client_ in
  do! '(ok, m, host) := cact (cl_call cl toSend false) in
  do! _ := set_response m in
  do! _ := cmod (set_originalHost host) in
  if negb ok then cret false
  else if msg_empty m then cret false
  else do! _ := dataReceived in cret true.

Definition initLazy (isRetry : bool) : CM unit :=
  do! cl := client_ in
  do! _ := clift (massert 15875 (cl_lazySupported cl)) in
  do! c := cget in
  do! toSend := clift (_assembleInit c) in
  do! host := cact (cl_say cl toSend isRetry) in
  cmod (set_originalHost host).

(** The result and [retry]. *)
Definition initLazyFinish : CM (bool * bool) :=
  do! cl := client_ in
  do! '(recvd, m) := cact (cl_recv cl) in
  do! _ := set_response m in
  if negb recvd || msg_empty m then
    do! '(retry, host) := cact (cl_checkResponse cl None (-1)) in
    do! _ := cmod (set_lazyHost host) in
    cret (false, retry)
  else
    do! '(retry, host) := dataReceived in
    do! _ := cmod (set_lazyHost host) in
    cret (negb retry, retry).

Definition initCommand : CM bool :=
  do! cl := client_ in
  do! c := cget in
  do! '(ok, res) := cact (cl_runCommand cl (nsGetDB (cur_ns c)) (cur_query c) (opts c)) in
  do! m := clift (replyToQuery_obj 0 (batch_m (batch c)) res) in
  do! _ := set_response m in
  do! _ := dataReceived in
  cret ok.

(** Less what has been given. *)
Definition use_limit : CM unit :=
  do! c := cget in
  if haveLimit c then
    let n := nToReturn c - nReturned (batch c) in
    if in_s 32 n then do! _ := cmod (set_nToReturn n) in clift (verify (0 <? n))
    else craise (Failure UndefinedBehaviour)
  else cret tt.

Definition requestMore : CM unit :=
  do! c := cget in
  do! _ := clift (verify (negb (cursorId c =? 0) && (pos (batch c) =? nReturned (batch c)))) in
  do! _ := use_limit in
  do! c := cget in
  do! toSend := clift (getMore_msg (opts c) (cur_ns c) (nextBatchSize c) (cursorId c)) in
  match _client c with
  | Some cl =>
      do! '(_, m, _) := cact (cl_call cl toSend true) in
      do! _ := set_response m in
      do! _ := dataReceived in
      cret tt
  | None =>
      do! _ := clift (verify (negb (bool_decide (_scopedHost c = [])))) in
      do! conn_ := cact (getScopedDbConnection (_scopedHost c)) in
      do! '(_, m, _) := cact (cl_call conn_ toSend true) in
      do! _ := cmod (set_client (Some conn_)) in
      do! _ := set_response m in
      do! _ := dataReceived in
      do! _ := cmod (set_client None) in
      cact (fun w => (scoped_done conn_ w, inr tt))
  end.

Definition exhaustReceiveMore : CM unit :=
  do! c := cget in
  do! _ := clift (verify (negb (cursorId c =? 0) && (pos (batch c) =? nReturned (batch c)))) in
  do! _ := clift (verify (negb (haveLimit c))) in
  do! _ := clift (verify (match _client c with Some _ => true | None => false end)) in
  do! cl := client_ in
  do! '(ok, m) := cact (cl_recv cl) in
  if negb ok then craise (Failure (UserAssert 16465))
  else do! _ := set_response m in do! _ := dataReceived in cret tt.

Definition more : CM bool :=
  do! c := cget in
  if negb (bool_decide (_putBack c = [])) then cret true
  else if haveLimit c && (nToReturn c <=? pos (batch c)) then cret false
  else if pos (batch c) <? nReturned (batch c) then cret true
  else if cursorId c =? 0 then cret false
  else
    do! _ := requestMore in
    do! c := cget in
    cret (pos (batch c) <? nReturned (batch c)).

(** [while (more()) next()], with what a turn gives. *)
Fixpoint drain (fuel : nat) (step : CM BSONObj) : CM (list BSONObj) :=
  match fuel with
  | O => craise (Failure OutOfFuel)
  | S fuel' =>
      do! b := more in
      if b then
        do! o := step in
        do! os := drain fuel' step in
        cret (o :: os)
      else cret []
  end.

Definition itcount (fuel : nat) : CM Z := do! os := drain fuel next in cret (zlen os).

(** [attach(conn)]: [scoped_get] is the connection of [conn], [scoped_host] its host. *)
Definition attach (scoped_get : conn) (scoped_host : list byte) : CM unit :=
  do! c := cget in
  do! _ := clift (verify (bool_decide (_scopedHost c = []))) in
  do! _ := match cl_type scoped_get with
           | SET | SYNC =>
               if negb (bool_decide (_lazyHost c = [])) then cmod (set_scopedHost (_lazyHost c))
               else match _client c with
                    | Some cl =>
                        do! h := (fun c w => (c, w, inr (cl_getServerAddress cl w))) in cmod (set_scopedHost h)
                    | None => clift (massert 14821 false)
                    end
           | _ => cmod (set_scopedHost scoped_host)
           end in
  do! _ := cact (fun w => (scoped_done scoped_get w, inr tt)) in
  do! _ := cmod (set_client None) in
  cmod (set_lazyHost []).

(** *** The end of a cursor *)

Definition killCursors_msg (id : Z) : result Message :=
  let* b := (appendNum_int 0 ;> appendNum_int 1 ;> appendNum_longlong id) (BufBuilder_new 512) in
  setData fresh_bytes dbKillCursors (buf b) Message_new.

Definition kill_with (cl : conn) (m : Message) : CM unit :=
  if getLazyKillCursor then cact (cl_sayPiggyBack cl m)
  else do! _ := cact (cl_say cl m false) in cret tt.

Definition kill_cursor : CM unit :=
  do! c := cget in
  do! stopping := (fun c w => (c, w, inr (inShutdown w))) in
  if negb (cursorId c =? 0) && _ownCursor c && negb stopping then
    do! m := clift (killCursors_msg (cursorId c)) in
    match _client c with
    | Some cl => kill_with cl m
    | None =>
        do! _ := clift (verify (negb (bool_decide (_scopedHost c = [])))) in
        do! conn_ := cact (getScopedDbConnection (_scopedHost c)) in
        do! _ := kill_with conn_ m in
        cact (fun w => (scoped_done conn_ w, inr tt))
    end
  else cret tt.

(** The destructor: DESTRUCTOR_GUARD logs an exception. *)
Definition destroy_cursor (c : cursor) (w : W) : W * result unit :=
  match kill_cursor c w with
  | (_, w', inr _) => (w', Ok tt)
  | (_, w', inl (Failure e)) => (w', if is_exception e then Ok tt else Err e)
  | (_, w', inl _) => (w', Ok tt)
  end.

(** ** Queries *)

(** A cursor with the result of [init]; a null pointer without it. *)
Definition started (c : cursor) (w : W) : W * (exn + option cursor) :=
  match init c w with
  | (c', w', inr true) => (w', inr (Some c'))
  | (c', w', inr false) => let '(w'', _) := destroy_cursor c' w' in (w'', inr None)
  | (c', w', inl e) => let '(w'', _) := destroy_cursor c' w' in (w'', inl e)
  end.

Definition query_ (cl : conn) (ns : list byte) (query : BSONObj) (n skip_ : Z) (fields : option BSONObj)
    (queryOptions bs : Z) (w : W) : W * (exn + option cursor) :=
  started (DBClientCursor_query cl ns query n skip_ fields queryOptions bs w) w.

Definition getMore (cl : conn) (ns : list byte) (id n options : Z) (w : W) : W * (exn + option cursor) :=
  started (DBClientCursor_getMore cl ns id n options w) w.

(** The body of a function that has the cursor in an [auto_ptr]. *)
Definition with_cursor {A} (r : W * (exn + option cursor)) (code : Z) (body : CM A) : W * (exn + A) :=
  match r with
  | (w, inl e) => (w, inl e)
  | (w, inr None) => (w, inl (Failure (UserAssert code)))
  | (w, inr (Some c)) =>
      let '(c', w', r) := body c w in
      let '(w'', d) := destroy_cursor c' w' in
      (w'', match d with Ok _ => r | Err e => inl (Failure e) end)
  end.

(** The turns of the loop of [findN]. *)
Fixpoint take_safe (k : nat) : CM (list BSONObj) :=
  match k with
  | O => cret []
  | S k' =>
      do! b := more in
      if b then
        do! o := nextSafe in
        do! o := clift (copy o) in
        do! os := take_safe k' in
        cret (o :: os)
      else cret []
  end.

(** The virtual [query] of the connection: [query_] or what overrides it. *)
Definition query_fun : Type :=
  list byte -> BSONObj -> Z -> Z -> option BSONObj -> Z -> Z -> W -> W * (exn + option cursor).

Definition findN (vquery : query_fun) (ns : list byte) (query : BSONObj) (n skip_ : Z) (fields : option BSONObj) (queryOptions : Z)
    (w : W) : W * (exn + list BSONObj) :=
  with_cursor (vquery ns query n skip_ fields queryOptions 0 w) 10276 (
    do! c := cget in
    if hasResultFlag ResultFlag_ShardConfigStale c then
      do! e := clift (peekError c) in
      craise (RecvStaleConfigException (default BSONObj_empty e))
    else take_safe (Z.to_nat n)).

Definition findOne (vquery : query_fun) (ns : list byte) (query : BSONObj) (fields : option BSONObj) (queryOptions : Z)
    (w : W) : W * (exn + BSONObj) :=
  match findN vquery ns query 1 0 fields queryOptions w with
  | (w', inr v) => (w', inr (match v with o :: _ => o | [] => BSONObj_empty end))
  | (w', inl e) => (w', inl e)
  end.

(** *** Queries with a function for each object *)

(** DBClientCursorBatchIterator: the cursor, and the number of objects given. *)
Definition batch_nextSafe (n : Z) : CM (BSONObj * Z) :=
  do! c := cget in
  do! _ := clift (massert 13383 (moreInCurrentBatch c)) in
  do! o := nextSafe in
  cret (o, n + 1).

(** DBClientFunConvertor, from an iterator that has given [n]. *)
Fixpoint convert_fun (fuel : nat) (f : BSONObj -> W -> W * (exn + unit)) (n : Z) : CM Z :=
  match fuel with
  | O => craise (Failure OutOfFuel)
  | S fuel' =>
      do! c := cget in
      if moreInCurrentBatch c then
        do! '(o, n) := batch_nextSafe n in
        do! _ := cact (f o) in
        convert_fun fuel' f n
      else cret n
  end.

(** The loop over the batches; [f] gives the [n()] of its iterator. *)
Fixpoint query_loop (fuel : nat) (f : CM Z) (n : Z) : CM Z :=
  match fuel with
  | O => craise (Failure OutOfFuel)
  | S fuel' =>
      do! b := more in
      if b then do! k := f in query_loop fuel' f (u64 (n + k)) else cret n
  end.

Definition mask_options (queryOptions : Z) : Z :=
  Z.land queryOptions (Z.lor QueryOption_NoCursorTimeout QueryOption_SlaveOk).

Definition query_batches (fuel : nat) (vquery : query_fun) (f : CM Z) (ns : list byte) (query : BSONObj) (fields : option BSONObj)
    (queryOptions : Z) (w : W) : W * (exn + Z) :=
  with_cursor (vquery ns query 0 0 fields (mask_options queryOptions) 0 w) 16090 (query_loop fuel f 0).

Definition query_each (fuel : nat) (vquery : query_fun) (f : BSONObj -> W -> W * (exn + unit)) (ns : list byte) (query : BSONObj)
    (fields : option BSONObj) (queryOptions : Z) : W -> W * (exn + Z) :=
  query_batches fuel vquery (convert_fun fuel f 0) ns query fields queryOptions.

(** The two loops of DBClientConnection::query: the batches come unasked. *)
Fixpoint exhaust_loop (fuel : nat) (f : CM Z) (n : Z) : CM Z :=
  match fuel with
  | O => craise (Failure OutOfFuel)
  | S fuel' =>
      do! c := cget in
      if moreInCurrentBatch c then do! k := f in exhaust_loop fuel' f (u64 (n + k))
      else if cursorId c =? 0 then cret n
      else do! _ := exhaustReceiveMore in exhaust_loop fuel' f n
  end.

(** The connection cannot be used after an exception: more may be on its way. *)
Definition or_shutdown {A} (cl : conn) (m : CM A) : CM A := fun c w =>
  match m c w with
  | (c', w', inl e) => (c', cl_failed_shutdown cl w', inl e)
  | r => r
  end.

Definition connection_query (fuel : nat) (vquery : query_fun) (cl : conn) (f : CM Z) (ns : list byte) (query : BSONObj) (fields : option BSONObj)
    (queryOptions : Z) (w : W) : W * (exn + Z) :=
  match cl_availableOptions cl w with
  | (w, inl e) => (w, inl e)
  | (w, inr available) =>
      if negb (has_flag available QueryOption_Exhaust) then query_batches fuel vquery f ns query fields queryOptions w
      else
        with_cursor (vquery ns query 0 0 fields (Z.lor (mask_options queryOptions) QueryOption_Exhaust) 0 w) 13386
          (or_shutdown cl (exhaust_loop fuel f 0))
  end.

End Operations.

(** ** Running an operation *)

Section Running.
Context {W conn : Type} `{Clients W conn}.
Abbreviation CM := (@CM W conn).
Abbreviation cursor := (DBClientCursor conn).

Lemma cbind_ok {A B} (m : CM A) (k : A -> CM B) c w c' w' a : m c w = (c', w', inr a) -> cbind m k c w = k a c' w'.
Proof. intros E. unfold cbind. by rewrite E. Qed.

Lemma cbind_inv {A B} (m : CM A) (k : A -> CM B) c w c' w' b : cbind m k c w = (c', w', inr b) ->
  exists c1 w1 a, m c w = (c1, w1, inr a) /\ k a c1 w1 = (c', w', inr b).
Proof. unfold cbind. destruct (m c w) as [[c1 w1] [e|a]]; [done|]. intros E. by exists c1, w1, a. Qed.

Lemma clift_ok {A} (r : result A) a (c : cursor) (w : W) : r = Ok a -> clift r c w = (c, w, inr a).
Proof. by intros ->. Qed.

Lemma clift_inv {A} (r : result A) a (c c' : cursor) (w w' : W) : clift r c w = (c', w', inr a) -> r = Ok a /\ c' = c /\ w' = w.
Proof. destruct r; [by intros [= <- <- <-]|done]. Qed.

Lemma cact_ok {A} (f : W -> W * (exn + A)) w w' a (c : cursor) : f w = (w', inr a) -> cact f c w = (c, w', inr a).
Proof. intros E. unfold cact. by rewrite E. Qed.
End Running.

Ltac crun := repeat first [ rewrite (cbind_ok _ _ _ _ _ _ _ eq_refl) ]; cbv beta iota.

(** ** The requests of a cursor are read by the server *)

(** The server reads in [m] a request for [n] more objects of the cursor [id]. *)
Definition reads_getMore (m : Message) (ns : list byte) (n id options : Z) : Prop :=
  exists d d1 d2, msg_operation m = Ok dbGetMore /\ DbMessage_of m = Ok d /\ reservedField d = Ok options /\
    getns d = Ok ns /\ pullInt d = Ok (n, d1) /\ pullInt64 d1 = Ok (id, d2) /\ on_wire m dbGetMore (17 + zlen ns).

Section Requests.
Context {W conn : Type} `{Clients W conn}.

Lemma getMore_reading options ns n id : no_nul ns = true -> 17 + zlen ns <= BufferMaxSize ->
  in_s 32 options = true -> in_s 32 n = true -> in_s 64 id = true ->
  exists m, getMore_msg options ns n id = Ok m /\ reads_getMore m ns n id options.
Proof.
  intros Hns Hz Ho Hn Hid. set (body := le32 options ++ ns ++ x00 :: le32 n ++ le64 id).
  assert (zlen body = 17 + zlen ns) as Hlen by (unfold body; rewrite !zlen_app, zlen_cons, zlen_app, !zlen_le_bytes; lia).
  destruct (request_message (appendNum_int options ;> appendStr ns true ;> appendNum_int n ;> appendNum_longlong id) body
    fresh_bytes dbGetMore) as (b & Hb & Hm); [|lia|].
  { eapply writes_eq; [repeat (apply writes_seq; [apply writes_append|]); apply writes_append|].
    unfold body. by rewrite <- !app_assoc. }
  unfold getMore_msg. rewrite Hb. cbn [bind]. rewrite Hm. rewrite buffer_max in Hz.
  destruct (start_reading (take 8 (fresh_bytes ++ repeat x00 8)) dbGetMore options ns (le32 n ++ le64 id))
    as (d & Hd & Hp & _ & _ & Hr & Hg); [apply ids_length|fold body; lia|done|done|]. fold body in Hd.
  destruct (pullInt_rep d ns n _ Hp Hn) as (d1 & H1 & Hp1 & _).
  destruct (pullInt64_rep d1 ns id []) as (d2 & H2 & _); [by rewrite app_nil_r|done|].
  eexists. split; [done|]. exists d, d1, d2. split; [by apply wire_operation; [apply ids_length|]|].
  repeat (split; [done|]). do 2 eexists. split; [apply ids_length|]. by split; [exact Hlen|].
Qed.
End Requests.

(** ** A server that serves its documents in batches *)

(** The message is a reply with these documents, and neither of the flags for a
    lost cursor and a stale configuration. *)
Definition reply_msg (m : Message) (flags id : Z) (ds : list doc) : Prop :=
  exists ids start, length ids = 8%nat /\
    m = MkMessage (Some (reply ids flags id start (Z.of_nat (length ds)) (concat (map enc_doc ds)))) [] true /\
    in_s 32 flags = true /\ in_s 64 id = true /\ in_s 32 (Z.of_nat (length ds)) = true /\
    Forall (fun d => wf_doc d = true) ds /\
    has_flag flags ResultFlag_CursorNotFound = false /\ has_flag flags ResultFlag_ShardConfigStale = false.

(** The number of objects a request asks for. *)
Definition size_asked (n bs : Z) : Z :=
  if n =? 0 then bs else if bs =? 0 then n else if bs <? n then bs else n.

(** What a cursor is for: its connection, its collection and its options. *)
Record purpose (conn : Type) := MkPurpose {
  p_conn : conn;
  p_ns : list byte;
  p_options : Z;
  p_batchSize : Z;
  p_limited : bool
}.
Arguments MkPurpose {conn}.
Arguments p_conn {conn}.
Arguments p_ns {conn}.
Arguments p_options {conn}.
Arguments p_batchSize {conn}.
Arguments p_limited {conn}.

Section Server.
Context {W conn : Type} `{Clients W conn}.
Abbreviation cursor := (DBClientCursor conn).

(** [serves P n id w ds]: asked again and again for the cursor [id], in the world
    [w], the server gives the documents [ds], some at a time, then the cursor 0
    or a batch without documents, whatever it has after that.  [n] is the number
    still wanted when there is a limit: at 0 the server is not asked any more. *)
Inductive serves (P : purpose conn) : Z -> Z -> W -> list doc -> Prop :=
  | serves_end n w : serves P n 0 w []
  | serves_limit n id w ds : p_limited P = true -> n <= 0 -> serves P n id w ds
  | serves_more n id w ds rest_ :
      id <> 0 -> in_s 64 id = true -> ds <> [] ->
      (forall q, reads_getMore q (p_ns P) (size_asked n (p_batchSize P)) id (p_options P) ->
         exists ok m h w1 w2 flags id', cl_call (p_conn P) q true w = (w1, inr (ok, m, h)) /\ reply_msg m flags id' ds /\
           (forall d, exists r, cl_checkResponse (p_conn P) d (Z.of_nat (length ds)) w1 = (w2, inr r)) /\
           serves P (if p_limited P then n - Z.of_nat (length ds) else n) id' w2 rest_) ->
      serves P n id w (ds ++ rest_)
  | serves_stop n id w :
      id <> 0 -> in_s 64 id = true ->
      (forall q, reads_getMore q (p_ns P) (size_asked n (p_batchSize P)) id (p_options P) ->
         exists ok m h w1 w2 flags id', cl_call (p_conn P) q true w = (w1, inr (ok, m, h)) /\ reply_msg m flags id' [] /\
           (forall d, exists r, cl_checkResponse (p_conn P) d 0 w1 = (w2, inr r))) ->
      serves P n id w [].

(** A request within the limits of its fields. *)
Record purpose_ok (P : purpose conn) : Prop := {
  ok_ns : no_nul (p_ns P) = true;
  ok_size : 17 + zlen (p_ns P) <= BufferMaxSize;
  ok_options : in_s 32 (p_options P) = true;
  ok_batchSize : in_s 32 (p_batchSize P) = true;
  ok_tailable : tailable_opts (p_options P) = false
}.

Record serves_purpose (P : purpose conn) (c : cursor) : Prop := {
  sp_client : _client c = Some (p_conn P);
  sp_ns : cur_ns c = p_ns P;
  sp_opts : opts c = p_options P;
  sp_batchSize : batchSize c = p_batchSize P;
  sp_limit : haveLimit c = p_limited P;
  sp_putBack : _putBack c = [];
  sp_range : in_s 32 (nToReturn c) = true
}.

(** The rest of the batch and what the server still has are [ds]. *)
Definition holding (P : purpose conn) (c : cursor) (w : W) (ds : list doc) : Prop :=
  exists p here later, batch_data (batch c) = Some p /\ p ↦ concat (map enc_doc here) /\
    Forall (fun d => wf_doc d = true) here /\ 0 <= pos (batch c) /\
    nReturned (batch c) = pos (batch c) + Z.of_nat (length here) /\ in_s 32 (nReturned (batch c)) = true /\
    ds = here ++ later /\
    serves P (if p_limited P then nToReturn c - nReturned (batch c) else nToReturn c) (cursorId c) w later.

(** What the cursor will give of [ds]. *)
Definition wanted (c : cursor) (ds : list doc) : list doc :=
  if haveLimit c then take (Z.to_nat (nToReturn c - pos (batch c))) ds else ds.

Lemma dataReceived_reply P (c : cursor) w w2 m flags id ds : purpose_ok P -> serves_purpose P c ->
  batch_m (batch c) = m -> reply_msg m flags id ds ->
  (forall d, exists r, cl_checkResponse (p_conn P) d (Z.of_nat (length ds)) w = (w2, inr r)) ->
  exists c' r p, dataReceived c w = (c', w2, inr r) /\ serves_purpose P c' /\ nToReturn c' = nToReturn c /\
    cursorId c' = id /\ batch c' = MkBatch m (Z.of_nat (length ds)) 0 (Some p) /\ p ↦ concat (map enc_doc ds) /\
    cur_resultFlags c' = flags.
Proof.
  intros HP Hc Hm (ids & start & Hi & -> & Hf & Hid & Hn & Hw & Hnf & Hst) Hchk.
  set (buf_ := reply ids flags id start _ _) in *.
  assert (resultFlags buf_ = Ok flags) as Ef by (by apply resultFlags_reply).
  assert (qr_cursorId buf_ = Ok id) as Ei by (by apply cursorId_reply).
  assert (qr_nReturned buf_ = Ok (Z.of_nat (length ds))) as En by (by apply nReturned_reply).
  assert (cur_tailable c = false) as Ht by (unfold cur_tailable; rewrite (sp_opts _ _ Hc); apply HP).
  destruct (Hchk (Some (qr_data buf_))) as [r Hr].
  destruct Hc as [Hcl Hns Hop Hbs Hlim Hpb Hrg].
  eexists _, r, (qr_data buf_). split.
  - unfold dataReceived.
    rewrite (cbind_ok _ _ _ _ _ _ _ eq_refl), Hm.
    rewrite (cbind_ok _ _ _ _ _ _ _ (clift_ok (singleData (MkMessage (Some buf_) [] true)) buf_ _ _ eq_refl)).
    rewrite (cbind_ok _ _ _ _ _ _ _ (clift_ok _ flags _ _ Ef)).
    rewrite (cbind_ok _ _ _ _ _ _ _ eq_refl).
    rewrite (cbind_ok _ _ _ w (if has_flag flags ResultFlag_ErrSet then set_wasError true (set_resultFlags flags c)
      else set_resultFlags flags c) w tt) by (by destruct (has_flag flags ResultFlag_ErrSet)).
    set (c1 := if has_flag flags ResultFlag_ErrSet then _ else _).
    rewrite (cbind_ok _ _ _ _ _ _ _ (clift_ok _ id _ _ Ei)).
    rewrite Hnf, (cbind_ok _ _ _ _ _ _ _ eq_refl), (cbind_ok _ _ _ _ _ _ _ eq_refl).
    assert (cur_tailable c1 = false) as -> by (unfold c1; by destruct (has_flag flags ResultFlag_ErrSet)).
    rewrite orb_true_r.
    rewrite (cbind_ok _ _ _ _ _ _ _ eq_refl).
    rewrite (cbind_ok _ _ _ _ _ _ _ (clift_ok _ (Z.of_nat (length ds)) _ _ En)).
    rewrite (cbind_ok _ _ _ _ _ _ _ eq_refl).
    assert (_client c1 = Some (p_conn P)) as Hcl1 by (unfold c1; by destruct (has_flag flags ResultFlag_ErrSet)).
    assert (batch_m (batch c1) = MkMessage (Some buf_) [] true) as Hm1
      by (unfold c1; by destruct (has_flag flags ResultFlag_ErrSet)).
    rewrite (cbind_ok _ _ _ w _ w (p_conn P)) by (unfold client_, cbind, cget; cbn; by rewrite Hcl1).
    rewrite (cbind_ok _ _ _ w _ w2 r) by (by apply cact_ok).
    rewrite Hst, (cbind_ok _ _ _ _ _ _ _ eq_refl). cbn [set_cursorId batch]. rewrite Hm1. done.
  - set (c1 := if has_flag flags ResultFlag_ErrSet then _ else _).
    split; [|split; [|split; [|split; [|split]]]]; [split| | | |by apply qr_data_reply|]; unfold c1; by destruct (has_flag flags ResultFlag_ErrSet).
Qed.

(** Asked for the cursor, the server replies with [now], and then [K]. *)
Definition replies_to (P : purpose conn) (n id : Z) (w : W) (now : list doc) (K : Z -> W -> Prop) : Prop :=
  forall q, reads_getMore q (p_ns P) (size_asked n (p_batchSize P)) id (p_options P) ->
    exists ok m h w1 w2 flags id', cl_call (p_conn P) q true w = (w1, inr (ok, m, h)) /\ reply_msg m flags id' now /\
      (forall d, exists r, cl_checkResponse (p_conn P) d (Z.of_nat (length now)) w1 = (w2, inr r)) /\ K id' w2.

Lemma serves_asked P n id w ds : serves P n id w ds -> (p_limited P = true -> 0 < n) ->
  (id = 0 /\ ds = []) \/
  (id <> 0 /\ in_s 64 id = true /\ exists now rest_, ds = now ++ rest_ /\ (now = [] -> rest_ = []) /\
     replies_to P n id w now (fun id' w2 =>
       now <> [] -> serves P (if p_limited P then n - Z.of_nat (length now) else n) id' w2 rest_)).
Proof.
  intros Hs Hl. destruct Hs as [n w|n id w ds Hlim Hn|n id w now rest_ H1 H2 H3 H4|n id w H1 H2 H3].
  - by left.
  - specialize (Hl Hlim). lia.
  - right. split; [done|]. split; [done|]. exists now, rest_. split; [done|]. split; [done|]. intros q Hq.
    destruct (H4 q Hq) as (ok & m & h & w1 & w2 & flags & id' & E1 & E2 & E3 & E4).
    exists ok, m, h, w1, w2, flags, id'. by repeat (split; [done|]).
  - right. split; [done|]. split; [done|]. exists [], []. split; [done|]. split; [done|]. intros q Hq.
    destruct (H3 q Hq) as (ok & m & h & w1 & w2 & flags & id' & E1 & E2 & E3).
    exists ok, m, h, w1, w2, flags, id'. by repeat (split; [done|]).
Qed.

Lemma size_asked_range n bs : in_s 32 n = true -> in_s 32 bs = true -> in_s 32 (size_asked n bs) = true.
Proof. intros Hn Hb. unfold size_asked. by destruct (n =? 0), (bs =? 0), (bs <? n). Qed.

(** The number wanted after the batch. *)
Definition wanted_after (P : purpose conn) (c : cursor) : Z :=
  if p_limited P then nToReturn c - nReturned (batch c) else nToReturn c.

(** The request for more, when the batch is used up: the reply is the batch. *)
Lemma requestMore_reply P (c : cursor) w now K : purpose_ok P -> serves_purpose P c -> 0 <= nReturned (batch c) ->
  pos (batch c) = nReturned (batch c) -> cursorId c <> 0 -> in_s 64 (cursorId c) = true ->
  (p_limited P = true -> nReturned (batch c) < nToReturn c) -> replies_to P (wanted_after P c) (cursorId c) w now K ->
  exists c' w' m p, requestMore c w = (c', w', inr tt) /\ serves_purpose P c' /\ nToReturn c' = wanted_after P c /\
    K (cursorId c') w' /\ batch c' = MkBatch m (Z.of_nat (length now)) 0 (Some p) /\ p ↦ concat (map enc_doc now) /\
    Forall (fun d => wf_doc d = true) now /\ in_s 32 (Z.of_nat (length now)) = true.
Proof.
  intros HP Hc H0 Hpos Hid Hid64 Hlim Hask. set (n1 := wanted_after P c) in *.
  set (c1 := if p_limited P then set_nToReturn n1 c else c). pose proof (sp_range _ _ Hc) as Hrg.
  assert (in_s 32 n1 = true) as Hn1.
  { unfold n1, wanted_after. destruct (p_limited P); [|done]. specialize (Hlim eq_refl). apply in_s_spec in Hrg.
    apply in_s_spec. change (2 ^ (32 - 1)) with (2 ^ 31) in *. lia. }
  assert (serves_purpose P c1) as Hc1.
  { destruct Hc. unfold c1. destruct (p_limited P) eqn:El; (split; cbn; try done; congruence). }
  assert (use_limit c w = (c1, w, inr tt)) as Hul.
  { unfold use_limit, cbind, cget. rewrite (sp_limit _ _ Hc). unfold c1, n1, wanted_after in *. destruct (p_limited P); [|done].
    rewrite Hn1. unfold cmod. assert (0 < nToReturn c - nReturned (batch c)) as Hpos1 by (specialize (Hlim eq_refl); lia).
    by rewrite (proj2 (Z.ltb_lt 0 _) Hpos1). }
  assert (opts c1 = p_options P /\ cur_ns c1 = p_ns P /\ nextBatchSize c1 = size_asked n1 (p_batchSize P) /\ cursorId c1 = cursorId c)
    as (E1 & E2 & E3 & E4).
  { destruct Hc1 as [? ? ? Hb _ _ _]. split; [done|]. split; [done|]. unfold nextBatchSize, size_asked. rewrite Hb.
    unfold c1, n1, wanted_after. by destruct (p_limited P). }
  destruct (getMore_reading (p_options P) (p_ns P) (size_asked n1 (p_batchSize P)) (cursorId c)) as (q & Hq & Hread);
    [apply HP|apply HP|apply HP|apply size_asked_range; [done|apply HP]|done|].
  destruct (Hask q Hread) as (ok & m & h & w1 & w2 & flags & id' & Hcall & Hm & Hchk & HK).
  destruct (dataReceived_reply P (receive m c1) w1 w2 m flags id' now HP) as (c2 & r & p2 & Hdr & Hc2 & Hn2 & Hid2 & Hb2 & Hp2 & _);
    [by destruct Hc1; split|done|done|done|].
  pose proof Hm as (_ & _ & _ & _ & _ & _ & Hl32 & Hwn & _).
  exists c2, w2, m, p2. rewrite Hid2, Hb2. split; [|repeat (split; [done|])].
  - unfold requestMore. rewrite (cbind_ok _ _ _ _ _ _ _ eq_refl), Hpos, Z.eqb_refl.
    rewrite (proj2 (Z.eqb_neq (cursorId c) 0) Hid). rewrite (cbind_ok _ _ _ _ _ _ _ eq_refl), (cbind_ok _ _ _ _ _ _ _ Hul).
    rewrite (cbind_ok _ _ _ _ _ _ _ eq_refl), E1, E2, E3, E4, (cbind_ok _ _ _ _ _ _ _ (clift_ok _ q _ _ Hq)).
    rewrite (sp_client _ _ Hc1), (cbind_ok _ _ _ _ _ _ _ (cact_ok _ _ _ _ _ Hcall)).
    rewrite (cbind_ok _ _ _ _ _ _ _ eq_refl). by rewrite (cbind_ok _ _ _ _ _ _ _ Hdr).
  - split; [|done]. rewrite Hn2. unfold receive, c1, n1, wanted_after. by destruct (p_limited P).
Qed.

(** With documents in the reply, the cursor holds them; an empty one is used up. *)
Lemma requestMore_spec P c w ds : purpose_ok P -> serves_purpose P c -> holding P c w ds ->
  pos (batch c) = nReturned (batch c) -> cursorId c <> 0 -> (haveLimit c = true -> pos (batch c) < nToReturn c) ->
  exists c' w', requestMore c w = (c', w', inr tt) /\ serves_purpose P c' /\ wanted c' ds = wanted c ds /\
    (ds <> [] -> holding P c' w' ds /\ pos (batch c') < nReturned (batch c')) /\
    (ds = [] -> nReturned (batch c') <= pos (batch c')).
Proof.
  intros HP Hc (p & here & later & Hd & Hp & Hw & H0 & Hnr & Hr32 & -> & Hs) Hpos Hid Hlim.
  destruct here as [|x here]; [|cbn [length] in Hnr; lia]. cbn [app]. rewrite (sp_limit _ _ Hc), Hpos in Hlim.
  fold (wanted_after P c) in Hs.
  destruct (serves_asked _ _ _ _ _ Hs) as [[? _]|(_ & Hid64 & now & rest_ & -> & Hne & Hask)];
    [intros Hl; specialize (Hlim Hl); unfold wanted_after; rewrite Hl; lia|done|].
  destruct (requestMore_reply P c w now _ HP Hc ltac:(lia) Hpos Hid Hid64 Hlim Hask)
    as (c' & w' & m & q & Hr & Hc' & Hn' & HK & Hb & Hq & Hwn & Hl32).
  exists c', w'. split; [done|]. split; [done|]. split; [|split].
  - unfold wanted. rewrite (sp_limit _ _ Hc'), (sp_limit _ _ Hc), Hb, Hn'. cbn [pos]. unfold wanted_after.
    destruct (p_limited P); [|done]. f_equal. lia.
  - intros Hds. assert (now <> []) as Hnow by (intros ->; by rewrite Hne in Hds). split.
    + exists q, now, rest_. rewrite Hb, Hn'. cbn [batch_data pos nReturned]. split; [done|]. split; [done|]. split; [done|].
      split; [lia|]. split; [lia|]. split; [done|]. split; [done|]. by apply HK.
    + rewrite Hb. cbn [pos nReturned]. destruct now; [done|cbn [length]; lia].
  - intros Hds. rewrite Hb. cbn [pos nReturned]. apply app_eq_nil in Hds as [-> _]. done.
Qed.
End Server.

Section Iteration.
Context {W conn : Type} `{Clients W conn}.
Abbreviation cursor := (DBClientCursor conn).

Lemma wanted_limit (c : cursor) ds : (haveLimit c = true -> pos (batch c) < nToReturn c) -> wanted c ds = [] -> ds = [].
Proof.
  unfold wanted. destruct (haveLimit c); [|done]. intros Hl Ht. specialize (Hl eq_refl).
  destruct ds as [|d ds]; [done|]. by destruct (Z.to_nat _) eqn:E in Ht; [lia|].
Qed.

Lemma wanted_nil (c : cursor) : wanted c [] = [].
Proof. unfold wanted. destruct (haveLimit c); [apply take_nil|done]. Qed.

(** [more] says whether an object is wanted and there, and fetches it. *)
Lemma more_spec P (c : cursor) (w : W) ds : purpose_ok P -> serves_purpose P c -> holding P c w ds ->
  exists c' w', more c w = (c', w', inr (bool_decide (wanted c ds <> []))) /\ serves_purpose P c' /\ wanted c' ds = wanted c ds /\
    (wanted c ds <> [] -> holding P c' w' ds /\ pos (batch c') < nReturned (batch c')).
Proof.
  intros HP Hc Hh. unfold more. rewrite (cbind_ok _ _ _ _ _ _ _ eq_refl), (sp_putBack _ _ Hc).
  rewrite bool_decide_true by done. cbn [negb].
  destruct (haveLimit c && (nToReturn c <=? pos (batch c))) eqn:El.
  { apply andb_true_iff in El as [Hl Hn%Z.leb_le].
    assert (wanted c ds = []) as E by (unfold wanted; rewrite Hl; by replace (Z.to_nat _) with 0%nat by lia).
    exists c, w. rewrite E. by rewrite bool_decide_false by auto. }
  assert (haveLimit c = true -> pos (batch c) < nToReturn c) as Hlim by (intros Hl; rewrite Hl in El; by apply Z.leb_gt in El).
  pose proof Hh as (p & here & later & Hd & Hp & Hw & H0 & Hnr & Hr32 & Eds & Hs).
  destruct (Z.ltb_spec (pos (batch c)) (nReturned (batch c))) as [Hlt|Hge].
  { exists c, w. rewrite bool_decide_true; [done|]. intros E%wanted_limit; [|done]. rewrite E in Eds.
    destruct here; [cbn [length] in Hnr; lia|done]. }
  assert (pos (batch c) = nReturned (batch c)) as Hpos by lia.
  assert (here = []) as -> by (destruct here; [done|cbn [length] in Hnr; lia]). cbn [app] in Eds. subst later.
  destruct (Z.eqb_spec (cursorId c) 0) as [Hid|Hid].
  - destruct (serves_asked _ _ _ _ _ Hs) as [[_ ->]|(Hne & _)]; [|exists c, w|by destruct Hne].
    { intros Hl. rewrite Hl. rewrite (sp_limit _ _ Hc) in Hlim. specialize (Hlim Hl). lia. }
    by rewrite wanted_nil, bool_decide_false by auto.
  - destruct (requestMore_spec P c w ds HP Hc Hh Hpos Hid Hlim) as (c' & w' & Hr & Hc' & Hw' & Hsome & Hnone).
    exists c', w'. rewrite (cbind_ok _ _ _ _ _ _ _ Hr), (cbind_ok _ _ _ _ _ _ _ eq_refl). destruct ds as [|d ds].
    + rewrite !wanted_nil. rewrite (proj2 (Z.ltb_ge _ _) (Hnone eq_refl)). by rewrite bool_decide_false by auto.
    + destruct (Hsome ltac:(done)) as [Hh' Hlt']. rewrite (proj2 (Z.ltb_lt _ _) Hlt'), bool_decide_true; [done|].
      by intros E%wanted_limit.
Qed.

Lemma object_at_rep p d rest_ : p ↦ enc_doc d ++ rest_ -> wf_doc d = true ->
  object_at (Some p) = Ok (p, Some (p +! zlen (enc_doc d))) /\ obj_rep p d.
Proof.
  intros Hp Hw. assert (obj_rep p d) as Ho by (split; [by eapply points_app_l|done]). split; [|done].
  unfold object_at. rewrite (BSONObj_init_rep _ _ Ho). cbn [bind]. by rewrite (objsize_rep _ _ Ho).
Qed.

(** [next], while there are objects in the batch. *)
Lemma next_spec P (c : cursor) (w : W) ds : serves_purpose P c -> holding P c w ds -> pos (batch c) < nReturned (batch c) -> wanted c ds <> [] ->
  exists c' o d ds', next c w = (c', w, inr o) /\ obj_rep o d /\ serves_purpose P c' /\ holding P c' w ds' /\
    wanted c ds = d :: wanted c' ds' /\ ds = d :: ds'.
Proof.
  intros Hc (p & here & later & Hd & Hp & Hw & H0 & Hnr & Hr32 & -> & Hs) Hlt Hne.
  destruct here as [|d here]; [cbn [length] in Hnr; lia|]. cbn [map concat length] in *.
  apply Forall_cons_1 in Hw as [Hwd Hw]. destruct (object_at_rep _ _ _ Hp Hwd) as [Ho Hrep].
  set (c' := set_batch (MkBatch (batch_m (batch c)) (nReturned (batch c)) (pos (batch c) + 1) (Some (p +! zlen (enc_doc d)))) c).
  exists c', p, d, (here ++ later). split; [|split; [done|split; [|split; [|split]]]].
  - unfold next. rewrite (cbind_ok _ _ _ _ _ _ _ eq_refl), (sp_putBack _ _ Hc), (proj2 (Z.ltb_lt _ _) Hlt).
    rewrite !(cbind_ok _ _ _ _ _ _ _ eq_refl). cbn [batch_data batch_m nReturned pos].
    rewrite Hd, Ho. done.
  - by destruct Hc; split.
  - exists (p +! zlen (enc_doc d)), here, later. cbn [c' set_batch batch batch_data pos nReturned nToReturn cursorId].
    split; [done|]. split; [by eapply points_app_r|]. split; [done|]. split; [lia|]. split; [lia|]. done.
  - unfold wanted, c' in *. cbn [set_batch haveLimit nToReturn batch pos] in *. destruct (haveLimit c); [|done].
    destruct (Z.to_nat (nToReturn c - pos (batch c))) as [|k] eqn:E; [done|].
    replace (Z.to_nat (nToReturn c - (pos (batch c) + 1))) with k by lia. done.
  - done.
Qed.

(** A turn of a loop: an object from [next], and what is made of it. *)
Lemma drain_next P fuel : purpose_ok P -> forall c w ds, serves_purpose P c -> holding P c w ds ->
  (length (wanted c ds) < fuel)%nat ->
  exists c' w' os, drain fuel next c w = (c', w', inr os) /\ Forall2 obj_rep os (wanted c ds).
Proof.
  intros HP. induction fuel as [|fuel IH]; intros c w ds Hc Hh Hf; [lia|]. cbn [drain].
  destruct (more_spec P c w ds HP Hc Hh) as (c1 & w1 & Hm & Hc1 & Hw1 & Hfull). rewrite (cbind_ok _ _ _ _ _ _ _ Hm).
  destruct (decide (wanted c ds = [])) as [E|Hne].
  - rewrite E. rewrite bool_decide_false by auto. exists c1, w1, []. by split; [|constructor].
  - rewrite bool_decide_true by done. destruct (Hfull Hne) as [Hh1 Hlt].
    destruct (next_spec P c1 w1 ds Hc1 Hh1 Hlt) as (c2 & o & d & ds2 & Hn & Ho & Hc2 & Hh2 & Hw2 & _); [by rewrite Hw1|].
    rewrite (cbind_ok _ _ _ _ _ _ _ Hn). rewrite <- Hw1, Hw2 in *. cbn [length] in Hf.
    destruct (IH c2 w1 ds2 Hc2 Hh2) as (c' & w' & os & Hdr & Hos); [lia|].
    exists c', w', (o :: os). split; [by rewrite (cbind_ok _ _ _ _ _ _ _ Hdr)|by constructor].
Qed.
End Iteration.

(** ** A query and its objects *)

(** The name of the first field. *)
Definition first_name (d : doc) : list byte := match d with (n, _) :: _ => n | [] => [] end.

Lemma first_name_rep o d : obj_rep o d -> (let* p := firstElementFieldName o in cstr p) = Ok (first_name d).
Proof.
  intros [Hp Hw]. unfold firstElementFieldName.
  assert (o +! 4 ↦ enc_elems d ++ [x00]) as Hq.
  { change 4 with (zlen (le32 0)). replace (zlen (le32 0)) with (zlen (le32 (zlen (enc_elems d) + 5))) by (by rewrite !zlen_le_bytes).
    eapply points_app_r; [exact Hp|done]. }
  destruct d as [|[n v] d].
  - cbn in Hq. rewrite (points_load _ _ _ Hq). done.
  - apply wf_doc_cons in Hw as [Hf _]. rewrite enc_elems_cons in Hq. unfold enc_elem in Hq. cbn [fst snd app] in Hq.
    rewrite (points_load _ _ _ Hq). cbn [bind]. destruct (Byte.eqb (type_byte (vtype v)) x00) eqn:E.
    + exfalso. apply byte_dec_bl in E. by destruct v.
    + cbn [bind]. rewrite <- !app_assoc in Hq. cbn [app] in Hq. cbn [first_name].
      eapply points_cstr; [eapply (points_app_r _ [_]); [exact Hq|done]|]. by apply andb_prop in Hf as [Hf _].
Qed.

Definition no_error (d : doc) : Prop := first_name d <> bstr "$err".

Section Queries.
Context {W conn : Type} `{Clients W conn}.
Abbreviation cursor := (DBClientCursor conn).

Lemma nextSafe_spec P (c : cursor) (w : W) ds : serves_purpose P c -> holding P c w ds -> pos (batch c) < nReturned (batch c) ->
  wanted c ds <> [] -> Forall no_error ds ->
  exists c' o d ds', nextSafe c w = (c', w, inr o) /\ obj_rep o d /\ serves_purpose P c' /\ holding P c' w ds' /\
    wanted c ds = d :: wanted c' ds' /\ Forall no_error ds'.
Proof.
  intros Hc Hh Hlt Hne He. destruct (next_spec P c w ds Hc Hh Hlt Hne) as (c' & o & d & r & Hn & Ho & Hc' & Hh' & Hw' & ->).
  apply Forall_cons_1 in He as [Hd He].
  exists c', o, d, r. split; [|done]. unfold nextSafe. rewrite (cbind_ok _ _ _ _ _ _ _ Hn).
  rewrite (cbind_ok _ _ _ _ _ _ _ (clift_ok _ _ _ _ (first_name_rep _ _ Ho))).
  unfold bytes_eqb. by rewrite bool_decide_false.
Qed.

(** [findN]'s loop: at most [k] copies. *)
Lemma take_safe_spec P k : purpose_ok P -> forall (c : cursor) (w : W) ds, serves_purpose P c -> holding P c w ds -> Forall no_error ds ->
  exists c' w' os, take_safe k c w = (c', w', inr os) /\ Forall2 obj_rep os (take k (wanted c ds)) /\ serves_purpose P c'.
Proof.
  intros HP. induction k as [|k IH]; intros c w ds Hc Hh He; [by exists c, w, []|]. cbn [take_safe].
  destruct (more_spec P c w ds HP Hc Hh) as (c1 & w1 & Hm & Hc1 & Hw1 & Hfull). rewrite (cbind_ok _ _ _ _ _ _ _ Hm).
  destruct (decide (wanted c ds = [])) as [E|Hne].
  - rewrite E, bool_decide_false by auto. by exists c1, w1, [].
  - rewrite bool_decide_true by done. destruct (Hfull Hne) as [Hh1 Hlt].
    destruct (nextSafe_spec P c1 w1 ds Hc1 Hh1 Hlt) as (c2 & o & d & ds2 & Hn & Ho & Hc2 & Hh2 & Hw2 & He2);
      [by rewrite Hw1|done|].
    rewrite (cbind_ok _ _ _ _ _ _ _ Hn), (cbind_ok _ _ _ _ _ _ _ (clift_ok _ _ _ _ (copy_rep _ _ Ho))).
    destruct (IH c2 w1 ds2 Hc2 Hh2 He2) as (c' & w' & os & Hdr & Hos & Hc').
    exists c', w', (Ptr (enc_doc d) 0 :: os). split; [by rewrite (cbind_ok _ _ _ _ _ _ _ Hdr)|].
    rewrite <- Hw1, Hw2. cbn [take]. split; [|done]. constructor; [|done]. apply obj_of_rep, Ho.
Qed.

(** What a query is for. *)
Definition query_purpose (cl : conn) (ns : list byte) (n queryOptions bs : Z) : purpose conn :=
  MkPurpose cl ns queryOptions (if bs =? 1 then 2 else bs) (0 <? n).

(** The server answers the query with its first documents and then serves the
    others: [ds] in all. *)
Definition serves_query (P : purpose conn) (dq : doc) (df : option doc) (n skip_ : Z) (w : W) (ds : list doc) : Prop :=
  exists now later, ds = now ++ later /\
    forall q, (forall objcheck fuel, BufferMaxSize * 3 + 50 <= Z.of_nat fuel ->
        reads_query objcheck fuel q (p_ns P) dq df (size_asked n (p_batchSize P)) skip_ (p_options P)) ->
      exists m h w1 w2 flags id, cl_call (p_conn P) q false w = (w1, inr (true, m, h)) /\ reply_msg m flags id now /\
        (forall d, exists r, cl_checkResponse (p_conn P) d (Z.of_nat (length now)) w1 = (w2, inr r)) /\
        serves P (if p_limited P then n - Z.of_nat (length now) else n) id w2 later.

(** The request is assembled, and the server reads it. *)
Lemma query_assembles cl ns oq dq fo df n skip_ queryOptions bs (w : W) :
  let P := query_purpose cl ns n queryOptions bs in
  purpose_ok P -> obj_rep oq dq -> opt_rep fo df -> in_s 32 n = true -> in_s 32 skip_ = true ->
  13 + zlen ns + zlen (enc_doc dq) + zlen (opt_doc df) <= BufferMaxSize ->
  exists q, _assembleInit (DBClientCursor_query cl ns oq n skip_ fo queryOptions bs w) = Ok q /\
    forall objcheck fuel, BufferMaxSize * 3 + 50 <= Z.of_nat fuel ->
    reads_query objcheck fuel q ns dq df (size_asked n (p_batchSize P)) skip_ queryOptions.
Proof.
  intros P HP Hq Hf Hn Hsk Hz. unfold _assembleInit. cbn [cursorId DBClientCursor_query Z.eqb].
  set (c0 := DBClientCursor_query _ _ _ _ _ _ _ _ _). assert (nextBatchSize c0 = size_asked n (p_batchSize P)) as -> by done.
  assert (in_s 32 (size_asked n (p_batchSize P)) = true) as Hsz by (apply size_asked_range; [done|apply HP]).
  assert (forall objcheck fuel, BufferMaxSize * 3 + 50 <= Z.of_nat fuel -> exists q,
    assembleRequest fresh_bytes ns oq (size_asked n (p_batchSize P)) skip_ fo queryOptions Message_new = Ok q /\
    reads_query objcheck fuel q ns dq df (size_asked n (p_batchSize P)) skip_ queryOptions) as Hex.
  { intros objcheck fuel Hfu. apply query_reading; try done; apply HP. }
  destruct (Hex false _ enough_fuel) as (q & Eq & _). exists q. split; [done|].
  intros objcheck fuel Hfu. destruct (Hex objcheck fuel Hfu) as (q' & Eq' & Hr). rewrite Eq in Eq'. by injection Eq' as ->.
Qed.

(** The reply becomes the batch of the cursor. *)
Lemma query_runs cl ns oq fo n skip_ queryOptions bs (w w1 w2 : W) q m h flags id now :
  let P := query_purpose cl ns n queryOptions bs in
  purpose_ok P -> in_s 32 n = true ->
  _assembleInit (DBClientCursor_query cl ns oq n skip_ fo queryOptions bs w) = Ok q ->
  cl_call cl q false w = (w1, inr (true, m, h)) -> reply_msg m flags id now ->
  (forall d, exists r, cl_checkResponse cl d (Z.of_nat (length now)) w1 = (w2, inr r)) ->
  exists c p, query_ cl ns oq n skip_ fo queryOptions bs w = (w2, inr (Some c)) /\ serves_purpose P c /\
    nToReturn c = n /\ cursorId c = id /\ batch c = MkBatch m (Z.of_nat (length now)) 0 (Some p) /\
    p ↦ concat (map enc_doc now) /\ cur_resultFlags c = flags.
Proof.
  intros P HP Hn Eq Hcall Hm Hchk. set (c0 := DBClientCursor_query cl ns oq n skip_ fo queryOptions bs w).
  assert (serves_purpose P c0) as Hc0.
  { split; try done. cbn. change queryOptions with (p_options P). by rewrite (ok_tailable _ HP), andb_true_r. }
  set (c1 := set_originalHost h (receive m c0)).
  destruct (dataReceived_reply P c1 w1 w2 m flags id now HP) as (c2 & r & p & Hdr & Hc2 & Hn2 & Hid2 & Hb2 & Hp2 & Hfl2);
    [by destruct Hc0; split|done|done|done|].
  exists c2, p. split; [|done].
  pose proof Hm as (ids & start & _ & Em & _).
  unfold query_, started, init. fold c0. rewrite (cbind_ok _ _ _ _ _ _ _ eq_refl), (cbind_ok _ _ _ _ _ _ _ (clift_ok _ _ _ _ Eq)).
  cbn [negb]. rewrite !(cbind_ok _ _ _ _ _ _ _ eq_refl). cbn [negb].
  rewrite (cbind_ok client_ _ c0 w c0 w cl eq_refl). rewrite (cbind_ok _ _ _ _ _ _ _ (cact_ok _ _ _ _ _ Hcall)).
  rewrite !(cbind_ok _ _ _ _ _ _ _ eq_refl). rewrite Em. cbn [negb msg_empty _buf _data]. rewrite <- Em.
  by rewrite (cbind_ok _ _ _ _ _ _ _ Hdr).
Qed.

Lemma query_spec cl ns oq dq fo df n skip_ queryOptions bs (w : W) ds :
  let P := query_purpose cl ns n queryOptions bs in
  purpose_ok P -> obj_rep oq dq -> opt_rep fo df -> in_s 32 n = true -> in_s 32 skip_ = true ->
  13 + zlen ns + zlen (enc_doc dq) + zlen (opt_doc df) <= BufferMaxSize -> serves_query P dq df n skip_ w ds ->
  exists c w1, query_ cl ns oq n skip_ fo queryOptions bs w = (w1, inr (Some c)) /\ serves_purpose P c /\
    holding P c w1 ds /\ wanted c ds = (if 0 <? n then take (Z.to_nat n) ds else ds) /\
    hasResultFlag ResultFlag_ShardConfigStale c = false.
Proof.
  intros P HP Hq Hf Hn Hsk Hz (now & later & -> & Hask).
  destruct (query_assembles cl ns oq dq fo df n skip_ queryOptions bs w HP Hq Hf Hn Hsk Hz) as (q & Eq & Hread).
  destruct (Hask q Hread) as (m & h & w1 & w2 & flags & id & Hcall & Hm & Hchk & Hs).
  destruct (query_runs cl ns oq fo n skip_ queryOptions bs w w1 w2 q m h flags id now HP Hn Eq Hcall Hm Hchk)
    as (c2 & p & E & Hc2 & Hn2 & Hid2 & Hb2 & Hp2 & Hfl2).
  pose proof Hm as (ids & start & _ & Em & _ & _ & Hl32 & Hwn & _ & Hst).
  exists c2, w2. split; [done|]. split; [done|]. split; [|split].
  - exists p, now, later. rewrite Hb2. cbn [batch_data pos nReturned]. split; [done|]. split; [done|]. split; [done|].
    split; [lia|]. split; [lia|]. split; [done|]. split; [done|]. by rewrite Hn2, Hid2.
  - unfold wanted. rewrite (sp_limit _ _ Hc2), Hb2, Hn2. cbn [pos]. by rewrite Z.sub_0_r.
  - unfold hasResultFlag. by rewrite Hfl2.
Qed.
End Queries.

Section Correctness.
Context {W conn : Type} `{Clients W conn}.
Abbreviation cursor := (DBClientCursor conn).


(** The connection lets no error but exceptions out of the message that ends a cursor. *)
Definition kill_ok (cl : conn) : Prop := forall m w,
  (forall e, snd (cl_sayPiggyBack cl m w) = inl (Failure e) -> is_exception e = true) /\
  (forall r e, snd (cl_say cl m r w) = inl (Failure e) -> is_exception e = true).

Lemma killCursors_wire id : killCursors_msg id =
  Ok (MkMessage (Some (wire (take 8 (fresh_bytes ++ repeat x00 8)) dbKillCursors (le32 0 ++ le32 1 ++ le64 id))) [] true).
Proof.
  destruct (request_message (appendNum_int 0 ;> appendNum_int 1 ;> appendNum_longlong id) (le32 0 ++ le32 1 ++ le64 id)
    fresh_bytes dbKillCursors) as (b & Hb & Hm).
  - repeat (apply writes_seq; [apply writes_append|]); apply writes_append.
  - rewrite !zlen_app, !zlen_le_bytes, buffer_max. lia.
  - unfold killCursors_msg. by rewrite Hb.
Qed.

Lemma destroy_cursor_ok (c : cursor) cl (w : W) : _client c = Some cl -> kill_ok cl -> snd (destroy_cursor c w) = Ok tt.
Proof.
  intros Hcl Hk. unfold destroy_cursor, kill_cursor, cbind, cget. rewrite Hcl, killCursors_wire. cbn [clift cret].
  destruct (negb (cursorId c =? 0) && _ownCursor c && negb (inShutdown w)); [|done]. unfold kill_with, cact, cbind.
  set (m := MkMessage _ _ _). destruct (Hk m w) as [H1 H2]. destruct getLazyKillCursor.
  - destruct (cl_sayPiggyBack cl m w) as [w' [[e| |]|u]]; try done. cbn in *. by rewrite (H1 e eq_refl).
  - specialize (H2 false). destruct (cl_say cl m false w) as [w' [[e| |]|u]]; try done. cbn in *. by rewrite (H2 e eq_refl).
Qed.

Lemma findN_spec cl ns oq dq fo df n skip_ queryOptions (w : W) ds :
  purpose_ok (query_purpose cl ns n queryOptions 0) -> obj_rep oq dq -> opt_rep fo df ->
  in_s 32 n = true -> in_s 32 skip_ = true ->
  13 + zlen ns + zlen (enc_doc dq) + zlen (opt_doc df) <= BufferMaxSize ->
  serves_query (query_purpose cl ns n queryOptions 0) dq df n skip_ w ds -> Forall no_error ds -> kill_ok cl ->
  exists w' os, findN (query_ cl) ns oq n skip_ fo queryOptions w = (w', inr os) /\ Forall2 obj_rep os (take (Z.to_nat n) ds).
Proof.
  intros HP Hq Hf Hn Hsk Hz Hs He Hk.
  destruct (query_spec cl ns oq dq fo df n skip_ queryOptions 0 w ds HP Hq Hf Hn Hsk Hz Hs) as (c & w1 & E & Hc & Hh & Hw & Hst).
  destruct (take_safe_spec _ (Z.to_nat n) HP c w1 ds Hc Hh He) as (c' & w2 & os & Ht & Hos & Hc').
  unfold findN, with_cursor. rewrite E, (cbind_ok _ _ _ _ _ _ _ eq_refl), Hst, Ht.
  destruct (destroy_cursor c' w2) as [w3 r] eqn:Ed. pose proof (destroy_cursor_ok c' cl w2 (sp_client _ _ Hc') Hk) as Hd.
  rewrite Ed in Hd. cbn in Hd. subst r. exists w3, os. split; [done|]. rewrite Hw in Hos.
  destruct (Z.ltb_spec 0 n); [by rewrite take_take, Nat.min_id in Hos|].
  by replace (Z.to_nat n) with 0%nat in * by lia.
Qed.

(** findN gives copies of the first [n] documents that the server has for the
    query, none of which is the report of an error; with a number that is not
    above zero it gives none. *)
Theorem findN_correct cl ns oq dq fo df n skip_ queryOptions (w : W) ds :
  purpose_ok (query_purpose cl ns n queryOptions 0) -> obj_rep oq dq -> opt_rep fo df ->
  in_s 32 n = true -> in_s 32 skip_ = true ->
  13 + zlen ns + zlen (enc_doc dq) + zlen (opt_doc df) <= BufferMaxSize ->
  serves_query (query_purpose cl ns n queryOptions 0) dq df n skip_ w ds -> Forall no_error ds -> kill_ok cl ->
  exists w' os, findN (query_ cl) ns oq n skip_ fo queryOptions w = (w', inr os) /\ Forall2 obj_rep os (take (Z.to_nat n) ds).
Proof. apply findN_spec. Qed.

End Correctness.

(** ** Any server *)

Section AnyServer.
Context {W conn : Type} `{Clients W conn}.
Abbreviation cursor := (DBClientCursor conn).
Abbreviation CM := (@CM W conn).

(** An operation that leaves [view] as it is when it returns. *)
Definition keeps {A B} (view : cursor -> A) (m : CM B) : Prop := forall c w c' w' b, m c w = (c', w', inr b) -> view c' = view c.

Lemma keeps_bind {V A B} (view : cursor -> V) (m : CM A) (k : A -> CM B) :
  keeps view m -> (forall a, keeps view (k a)) -> keeps view (cbind m k).
Proof. intros Hm Hk c w c' w' b (c1 & w1 & a & E1 & E2)%cbind_inv. by rewrite (Hk _ _ _ _ _ _ E2), (Hm _ _ _ _ _ E1). Qed.

Lemma keeps_ret {V A} (view : cursor -> V) (a : A) : keeps view (cret a).
Proof. by intros c w c' w' b [= <- <- <-]. Qed.

Lemma keeps_raise {V A} (view : cursor -> V) e : keeps view (craise (A := A) e).
Proof. by intros c w c' w' b. Qed.

Lemma keeps_lift {V A} (view : cursor -> V) (r : result A) : keeps view (clift r).
Proof. intros c w c' w' b (_ & -> & _)%clift_inv. done. Qed.

Lemma keeps_act {V A} (view : cursor -> V) (f : W -> W * (exn + A)) : keeps view (cact f).
Proof. intros c w c' w' b. unfold cact. destruct (f w). by intros [= <- _ _]. Qed.

Lemma keeps_get {V} (view : cursor -> V) : keeps view cget.
Proof. by intros c w c' w' b [= <- <- <-]. Qed.

Lemma keeps_mod {V} (view : cursor -> V) f : (forall c, view (f c) = view c) -> keeps view (cmod f).
Proof. intros Hf c w c' w' b [= <- <- <-]. apply Hf. Qed.

Lemma keeps_client {V} (view : cursor -> V) : keeps view client_.
Proof. apply keeps_bind; [apply keeps_get|]. intros c. destruct (_client c); [apply keeps_ret|apply keeps_raise]. Qed.
End AnyServer.

Create HintDb cursor_keeps.
#[export] Hint Resolve keeps_ret keeps_raise keeps_lift keeps_act keeps_get keeps_client : cursor_keeps.

Ltac keeps_tac :=
  repeat first
    [ solve [auto with cursor_keeps]
    | apply keeps_mod; done
    | apply keeps_bind; [|intros ?]
    | match goal with |- keeps _ (if ?b then _ else _) => destruct b end
    | match goal with |- keeps _ (match ?x with _ => _ end) => destruct x end ].

Section Limit.
Context {W conn : Type} `{Clients W conn}.
Abbreviation cursor := (DBClientCursor conn).

(** What the limit is about. *)
Definition limits (c : cursor) : bool * Z * list BSONObj := (haveLimit c, nToReturn c, _putBack c).

Lemma dataReceived_keeps : keeps limits dataReceived.
Proof. unfold dataReceived. keeps_tac. Qed.

(** After it, the cursor is as [Q] says. *)
Definition ends {A} (Q : cursor -> Prop) (m : @CM W conn A) : Prop := forall c w c' w' b, m c w = (c', w', inr b) -> Q c'.

Lemma ends_bind {A B} Q (m : @CM W conn A) (k : A -> @CM W conn B) : (forall a, ends Q (k a)) -> ends Q (cbind m k).
Proof. intros Hk c w c' w' b (c1 & w1 & a & _ & E)%cbind_inv. by eapply Hk. Qed.

Lemma ends_then {V A B} (view : cursor -> V) v (m : @CM W conn A) (k : A -> @CM W conn B) :
  ends (fun c => view c = v) m -> (forall a, keeps view (k a)) -> ends (fun c => view c = v) (cbind m k).
Proof.
  intros Hm Hk c w c' w' b (c1 & w1 & a & E1 & E2)%cbind_inv. rewrite (Hk _ _ _ _ _ _ E2). by eapply Hm.
Qed.

Definition batch_pos (c : cursor) : Z := pos (batch c).

Lemma dataReceived_pos : ends (fun c => batch_pos c = 0) dataReceived.
Proof.
  unfold dataReceived. do 10 (apply ends_bind; intros ?). apply (ends_then batch_pos).
  - by intros c w c' w' b [= <- _ _].
  - intros _. keeps_tac.
Qed.

(** What follows the request. *)
Lemma requestMore_limit (c : cursor) (w : W) c' w' : haveLimit c = true -> requestMore c w = (c', w', inr tt) ->
  limits c' = (true, nToReturn c - pos (batch c), _putBack c) /\ pos (batch c') = 0 /\ pos (batch c) < nToReturn c.
Proof.
  intros Hl. unfold requestMore. rewrite (cbind_ok _ _ _ _ _ _ _ eq_refl).
  intros (c1 & w1 & [] & (Hv & -> & ->)%clift_inv & E)%cbind_inv.
  assert (pos (batch c) = nReturned (batch c)) as Hpos.
  { destruct (Z.eqb_spec (pos (batch c)) (nReturned (batch c))); [done|]. by rewrite andb_false_r in Hv. }
  apply cbind_inv in E as (c2 & w2 & [] & Hu & E).
  assert (limits c2 = (true, nToReturn c - pos (batch c), _putBack c) /\ pos (batch c) < nToReturn c) as [Hl2 Hlt].
  { unfold use_limit in Hu. rewrite (cbind_ok _ _ _ _ _ _ _ eq_refl), Hl in Hu. destruct (in_s 32 _); [|done].
    rewrite (cbind_ok _ _ _ _ _ _ _ eq_refl) in Hu. apply clift_inv in Hu as (Hv2 & -> & _).
    destruct (Z.ltb_spec 0 (nToReturn c - nReturned (batch c))); [|done]. unfold limits. cbn.
    rewrite Hl, Hpos. split; [done|lia]. }
  rewrite <- Hl2. split; [|split; [|done]].
  - refine ((_ : keeps limits _) _ _ _ _ _ E). keeps_tac.
  - refine ((_ : ends (fun c => batch_pos c = 0) _) _ _ _ _ _ E).
    apply ends_bind. intros c3. apply ends_bind. intros q. destruct (_client c3) as [cl|].
    + apply ends_bind. intros [[? m] ?]. apply ends_bind. intros _. apply (ends_then batch_pos); [apply dataReceived_pos|].
      intros _. keeps_tac.
    + do 2 (apply ends_bind; intros ?). apply ends_bind. intros [[? m] ?]. do 2 (apply ends_bind; intros ?).
      apply (ends_then batch_pos); [apply dataReceived_pos|]. intros _. keeps_tac.
Qed.

(** How many objects the loop over a cursor gives, in [k] turns at most, until
    [more] says no or something throws. *)
Fixpoint given (k : nat) (c : cursor) (w : W) : nat :=
  match k with
  | O => 0
  | S k' =>
      match more c w with
      | (c1, w1, inr true) => match next c1 w1 with (c2, w2, inr _) => S (given k' c2 w2) | _ => 0 end
      | _ => 0
      end
  end.

Lemma more_limit (c : cursor) (w : W) c' w' : haveLimit c = true -> _putBack c = [] -> more c w = (c', w', inr true) ->
  haveLimit c' = true /\ _putBack c' = [] /\ nToReturn c' - pos (batch c') = nToReturn c - pos (batch c) /\
  pos (batch c) < nToReturn c.
Proof.
  intros Hl Hp. unfold more. rewrite (cbind_ok _ _ _ _ _ _ _ eq_refl), Hp, bool_decide_true by done. cbn [negb].
  rewrite Hl. cbn [andb]. destruct (Z.leb_spec (nToReturn c) (pos (batch c))); [done|].
  destruct (pos (batch c) <? nReturned (batch c)); [by intros [= <- _]|]. destruct (cursorId c =? 0); [done|].
  intros (c1 & w1 & [] & Hr & E)%cbind_inv. destruct (requestMore_limit c w c1 w1 Hl Hr) as (Hlim & Hz & _).
  rewrite (cbind_ok _ _ _ _ _ _ _ eq_refl) in E. injection E as <- _ _. unfold limits in Hlim. injection Hlim as H1 H2 H3.
  split; [done|]. split; [by rewrite H3|]. split; [lia|done].
Qed.

Lemma next_limit (c : cursor) (w : W) c' w' o : _putBack c = [] -> next c w = (c', w', inr o) ->
  haveLimit c' = haveLimit c /\ _putBack c' = [] /\ nToReturn c' = nToReturn c /\ pos (batch c') = pos (batch c) + 1.
Proof.
  intros Hp. unfold next. rewrite (cbind_ok _ _ _ _ _ _ _ eq_refl), Hp.
  intros (c1 & w1 & [] & (_ & -> & ->)%clift_inv & E)%cbind_inv.
  rewrite (cbind_ok _ _ _ _ _ _ _ eq_refl) in E. apply cbind_inv in E as (c2 & w2 & [o' d] & (_ & -> & ->)%clift_inv & E).
  rewrite (cbind_ok _ _ _ _ _ _ _ eq_refl) in E. by injection E as <- _ _.
Qed.

(** C20: Whatever servers answer, a cursor with a limit gives no more objects
    than the limit, less what it has given of its batch: over all batches, and
    also when something throws. *)
Theorem limit_kept k (c : cursor) (w : W) : haveLimit c = true -> _putBack c = [] ->
  (given k c w <= Z.to_nat (nToReturn c - pos (batch c)))%nat.
Proof.
  revert c w. induction k as [|k IH]; intros c w Hl Hp; cbn [given]; [lia|].
  destruct (more c w) as [[c1 w1] [|[]]] eqn:Hm; [lia| |lia].
  destruct (more_limit c w c1 w1 Hl Hp Hm) as (Hl1 & Hp1 & Hr1 & Hlt).
  destruct (next c1 w1) as [[c2 w2] [|o]] eqn:Hn; [lia|].
  destruct (next_limit c1 w1 c2 w2 o Hp1 Hn) as (Hl2 & Hp2 & Hn2 & Hpos2).
  specialize (IH c2 w2). rewrite Hl2 in IH. specialize (IH Hl1 Hp2). lia.
Qed.
End Limit.

(** ** One object *)

Section OneObject.
Context {W conn : Type} `{Clients W conn}.
Abbreviation cursor := (DBClientCursor conn).

Definition cursor_id (c : cursor) : Z := cursorId c.

Lemma nextSafe_keeps_id : keeps cursor_id (@nextSafe W conn).
Proof. unfold nextSafe, next. keeps_tac. Qed.

(** A cursor that is dead at the server is dropped without a message. *)
Lemma destroy_dead (c : cursor) (w : W) : cursorId c = 0 -> destroy_cursor c w = (w, Ok tt).
Proof. intros E. unfold destroy_cursor, kill_cursor. rewrite !(cbind_ok _ _ _ _ _ _ _ eq_refl), E. done. Qed.

(** The answer to a query for one object, without a cursor left at the server:
    the object, or the empty object, in the world after the call. *)
Lemma findOne_answer cl ns oq dq queryOptions (w : W) ds (after : W -> Prop) :
  let P := query_purpose cl ns 1 queryOptions 0 in
  purpose_ok P -> obj_rep oq dq -> 18 + zlen ns + zlen (enc_doc dq) <= BufferMaxSize ->
  (forall q, (forall objcheck fuel, BufferMaxSize * 3 + 50 <= Z.of_nat fuel ->
       reads_query objcheck fuel q ns dq None 1 0 queryOptions) ->
     exists m h flags w1 w2, cl_call cl q false w = (w1, inr (true, m, h)) /\ reply_msg m flags 0 ds /\
       (forall d, exists r, cl_checkResponse cl d (Z.of_nat (length ds)) w1 = (w2, inr r)) /\ after w2) ->
  Forall no_error ds -> (length ds <= 1)%nat ->
  exists w2 o, findOne (query_ cl) ns oq None queryOptions w = (w2, inr o) /\ after w2 /\
    match ds with d :: _ => obj_rep o d | [] => o = BSONObj_empty end.
Proof.
  intros P HP Hq Hz Hask He Hl.
  assert (13 + zlen ns + zlen (enc_doc dq) + zlen (opt_doc None) <= BufferMaxSize) as Hz'
    by (change (zlen (opt_doc None)) with 0; lia).
  destruct (query_assembles cl ns oq dq None None 1 0 queryOptions 0 w HP Hq Logic.I eq_refl eq_refl Hz') as (q & Eq & Hread).
  destruct (Hask q Hread) as (m & h & flags & w1 & w2 & Hcall & Hm & Hchk & Hafter).
  destruct (query_runs cl ns oq None 1 0 queryOptions 0 w w1 w2 q m h flags 0 ds HP eq_refl Eq Hcall Hm Hchk)
    as (c & p & E & Hc & Hn & Hid & Hb & Hp & Hfl).
  pose proof Hm as (ids & start & _ & _ & _ & _ & Hl32 & Hwn & _ & Hst).
  assert (hasResultFlag ResultFlag_ShardConfigStale c = false) as Hstale by (unfold hasResultFlag; by rewrite Hfl).
  assert (haveLimit c = true) as Hlim by apply (sp_limit _ _ Hc).
  destruct ds as [|d [|? ?]]; [| |cbn in Hl; lia].
  - exists w2, BSONObj_empty. split; [|done]. unfold findOne, findN, with_cursor. rewrite E, (cbind_ok _ _ _ _ _ _ _ eq_refl), Hstale.
    change (take_safe (Z.to_nat 1)) with (@take_safe W conn _ 1). cbn [take_safe].
    assert (more c w2 = (c, w2, inr false)) as Hmore.
    { unfold more. rewrite !(cbind_ok _ _ _ _ _ _ _ eq_refl), (sp_putBack _ _ Hc), Hlim, Hn, Hb, Hid. done. }
    rewrite (cbind_ok _ _ _ _ _ _ _ Hmore). cbn [cret]. by rewrite destroy_dead.
  - assert (holding P c w2 [d]) as Hh.
    { exists p, [d], []. rewrite Hb. cbn [batch_data pos nReturned length app]. do 7 (split; [done|]). rewrite Hid. apply serves_end. }
    destruct (nextSafe_spec P c w2 [d] Hc Hh) as (c' & o & d' & ds' & Hnx & Ho & _ & _ & Hw & _); [by rewrite Hb| |done|].
    { unfold wanted. by rewrite Hlim, Hn, Hb. }
    assert (d' = d) as -> by (unfold wanted in Hw at 1; rewrite Hlim, Hn, Hb in Hw; cbn in Hw; by injection Hw).
    exists w2, (Ptr (enc_doc d) 0). split; [|split; [done|apply obj_of_rep, Ho]].
    unfold findOne, findN, with_cursor. rewrite E, (cbind_ok _ _ _ _ _ _ _ eq_refl), Hstale.
    change (take_safe (Z.to_nat 1)) with (@take_safe W conn _ 1). cbn [take_safe].
    assert (more c w2 = (c, w2, inr true)) as Hmore.
    { unfold more. rewrite !(cbind_ok _ _ _ _ _ _ _ eq_refl), (sp_putBack _ _ Hc), Hlim, Hn, Hb. done. }
    rewrite (cbind_ok _ _ _ _ _ _ _ Hmore), (cbind_ok _ _ _ _ _ _ _ Hnx), (cbind_ok _ _ _ _ _ _ _ (clift_ok _ _ _ _ (copy_rep _ _ Ho))).
    rewrite !(cbind_ok _ _ _ _ _ _ _ eq_refl). cbn [cret]. rewrite destroy_dead; [done|].
    change (cursor_id c' = 0). by rewrite (nextSafe_keeps_id _ _ _ _ _ Hnx).
Qed.
End OneObject.

(** ** The end of a cursor *)

Section Killed.
Context {W conn : Type} `{Clients W conn}.

(** A cursor that is dropped while it lives on the server, and is ours, sends one
    message: the end of this one cursor.  Otherwise it sends nothing. *)
Theorem cursor_killed (c : DBClientCursor conn) cl (w : W) : _client c = Some cl ->
  let m := MkMessage (Some (wire (take 8 (fresh_bytes ++ repeat x00 8)) dbKillCursors (le32 0 ++ le32 1 ++ le64 (cursorId c)))) [] true in
  fst (destroy_cursor c w) =
    (if negb (cursorId c =? 0) && _ownCursor c && negb (inShutdown w)
     then if getLazyKillCursor then fst (cl_sayPiggyBack cl m w) else fst (cl_say cl m false w)
     else w).
Proof.
  intros Hcl m. unfold destroy_cursor, kill_cursor, cbind, cget. rewrite Hcl, killCursors_wire. fold m. cbn [clift cret].
  destruct (negb (cursorId c =? 0) && _ownCursor c && negb (inShutdown w)); [|done]. unfold kill_with, cact, cbind.
  destruct getLazyKillCursor.
  - by destruct (cl_sayPiggyBack cl m w) as [w' [[e| |]|u]].
  - by destruct (cl_say cl m false w) as [w' [[e| |]|u]].
Qed.
End Killed.

(** ** A server *)

(** The batches that are left, each with the cursor that has it; a request for
    another cursor closes the connection. *)
Definition batches : Type := list (Z * list doc).

Definition reads_id (q : Message) : result Z :=
  let* op := msg_operation q in
  if op =? dbQuery then Ok 0
  else
    let* d := DbMessage_of q in
    let* '(_, d) := pullInt d in
    let* '(id, _) := pullInt64 d in
    Ok id.

Definition served (ds : list doc) (left_ : batches) : Message :=
  MkMessage (Some (reply (repeat x00 8) 0 (match left_ with (id, _) :: _ => id | [] => 0 end) 0
    (Z.of_nat (length ds)) (concat (map enc_doc ds)))) [] true.

Definition batch_call (_ : unit) (q : Message) (_ : bool) (w : batches) :
    batches * (exn + bool * Message * option (list byte)) :=
  match w with
  | (id, ds) :: r =>
      match reads_id q with
      | Ok i => if i =? id then (r, inr (true, served ds r, None)) else (w, inl SocketException)
      | Err e => (w, inl (Failure e))
      end
  | [] => (w, inl SocketException)
  end.

Definition batch_server : Clients batches unit := {|
  fresh_bytes := [];
  cl_call := batch_call;
  cl_say := fun _ _ _ w => (w, inr None);
  cl_sayPiggyBack := fun _ _ w => (w, inr tt);
  cl_recv := fun _ w => match w with (_, ds) :: r => (r, inr (true, served ds r)) | [] => (w, inr (false, Message_new)) end;
  cl_checkResponse := fun _ _ _ w => (w, inr (false, []));
  cl_runCommand := fun _ _ _ _ w => (w, inr (false, BSONObj_empty));
  cl_lazySupported := fun _ => true;
  cl_type := fun _ => MASTER;
  cl_toString := fun _ _ => bstr "server";
  cl_getServerAddress := fun _ _ => bstr "server";
  cl_availableOptions := fun _ w => (w, inr 0);
  cl_failed_shutdown := fun _ w => w;
  getScopedDbConnection := fun _ w => (w, inr tt);
  scoped_done := fun _ w => w;
  getLazyKillCursor := true;
  inShutdown := fun _ => false
|}.

Definition numbered (n : Z) : doc := [(bstr "n", VInt n)].
Definition stored : list doc := map numbered [1; 2; 3; 4; 5].
Definition in_batches : batches := [(0, map numbered [1; 2]); (7, map numbered [3]); (7, map numbered [4; 5])].

Lemma reads_id_query q ns dq df n skip_ options : (forall objcheck fuel, BufferMaxSize * 3 + 50 <= Z.of_nat fuel ->
  reads_query objcheck fuel q ns dq df n skip_ options) -> reads_id q = Ok 0.
Proof.
  intros Hq. destruct (Hq false _ enough_fuel) as (d & qm & d' & Hop & _). unfold reads_id. by rewrite Hop.
Qed.

Lemma reads_id_getMore q ns n id options : reads_getMore q ns n id options -> reads_id q = Ok id.
Proof.
  intros (d & d1 & d2 & Hop & Hd & _ & _ & H1 & H2 & _). unfold reads_id. rewrite Hop. cbn [bind Z.eqb dbGetMore dbQuery].
  change (dbGetMore =? dbQuery) with false. cbv iota. rewrite Hd. cbn [bind]. rewrite H1. cbn [bind]. by rewrite H2.
Qed.

Lemma served_reply ds r : in_s 64 (match r with (id, _) :: _ => id | [] => 0 end) = true ->
  in_s 32 (Z.of_nat (length ds)) = true -> Forall (fun d => wf_doc d = true) ds ->
  reply_msg (served ds r) 0 (match r with (id, _) :: _ => id | [] => 0 end) ds.
Proof. intros Hid Hn Hw. by exists (repeat x00 8), 0. Qed.

Lemma stored_served n bs (Hn : 3 <= n) : serves_query (H := batch_server) (query_purpose tt (bstr "db.c") n 4 bs) [] None n 0
  in_batches stored.
Proof.
  assert (p_limited (query_purpose tt (bstr "db.c") n 4 bs) = true) as El by (apply Z.ltb_lt; lia).
  exists (map numbered [1; 2]), (map numbered [3; 4; 5]). split; [done|]. intros q Hq.
  exists (served (map numbered [1; 2]) (tail in_batches)), None, (tail in_batches), (tail in_batches), 0, 7.
  split; [|split; [apply served_reply; [done|done|by repeat constructor]|split; [by eexists|]]].
  { cbn [cl_call batch_server]. unfold batch_call. cbn [in_batches]. by rewrite (reads_id_query _ _ _ _ _ _ _ Hq). }
  rewrite El. change (map numbered [3; 4; 5]) with (map numbered [3] ++ map numbered [4; 5]).
  apply serves_more; [done|done|done|]. intros q2 Hq2.
  exists true, (served (map numbered [3]) [(7, map numbered [4; 5])]), None, [(7, map numbered [4; 5])], [(7, map numbered [4; 5])], 0, 7.
  split; [|split; [apply served_reply; [done|done|by repeat constructor]|split; [by eexists|]]].
  { cbn [cl_call batch_server]. unfold batch_call. cbn [in_batches tail]. by rewrite (reads_id_getMore _ _ _ _ _ Hq2). }
  rewrite El, <- (app_nil_r (map numbered [4; 5])). destruct (decide (n = 3)) as [-> |Hne]; [by apply serves_limit|].
  apply serves_more; [done|done|done|]. intros q3 Hq3.
  exists true, (served (map numbered [4; 5]) []), None, [], [], 0, 0.
  split; [|split; [apply served_reply; [done|done|by repeat constructor]|split; [by eexists|apply serves_end]]].
  cbn [cl_call batch_server]. unfold batch_call. by rewrite (reads_id_getMore _ _ _ _ _ Hq3).
Qed.

Lemma sample_purpose n bs : in_s 32 (if bs =? 1 then 2 else bs) = true -> purpose_ok (query_purpose tt (bstr "db.c") n 4 bs).
Proof. intros Hb. by split. Qed.


Lemma findN_correct_witness : exists w' os,
  findN (H := batch_server) (query_ (H := batch_server) tt) (bstr "db.c") (obj_of []) 3 0 None 4 in_batches = (w', inr os) /\
  Forall2 obj_rep os (map numbered [1; 2; 3]).
Proof.
  apply (findN_correct (H := batch_server) tt (bstr "db.c") (obj_of []) [] None None 3 0 4 in_batches stored).
  - apply sample_purpose. reflexivity.
  - apply obj_of_rep. reflexivity.
  - exact I.
  - reflexivity.
  - reflexivity.
  - by vm_compute.
  - apply stored_served. lia.
  - repeat constructor; discriminate.
  - intros m w. split; discriminate.
Defined.

(** A query for two objects and a server that sends five. *)
Definition limited_cursor : DBClientCursor unit := DBClientCursor_query (H := batch_server) tt (bstr "db.c") (obj_of []) 2 0 None 0 0 [].

Lemma limit_kept_witness : exists c w, init (H := batch_server) limited_cursor [(0, stored)] = (c, w, inr true) /\
  (given (H := batch_server) 10 c w <= 2)%nat /\ nReturned (batch c) = 5.
Proof.
  do 2 eexists. split; [vm_compute; reflexivity|]. split; [|reflexivity].
  eapply (limit_kept (H := batch_server) 10); reflexivity.
Defined.

(** *** Where a cursor falls short *)

(** A batch without objects ends the loop, although the cursor is alive and the
    server has more. *)
Example empty_batch_ends : exists c w c' w',
  query_ (H := batch_server) tt (bstr "db.c") (obj_of []) 0 0 None 4 0 [(0, [numbered 1]); (7, []); (7, [numbered 2])] = (w, inr (Some c)) /\
  match drain (H := batch_server) 5 next c w with (c1, w1, inr os) => c' = c1 /\ w' = w1 /\ length os = 1%nat | _ => False end /\
  isDead c' = false /\ w' = [(7, [numbered 2])].
Proof.
  do 4 eexists. split; [vm_compute; reflexivity|]. split; [vm_compute; repeat split; reflexivity|]. split; reflexivity.
Qed.

(** The limit is reduced before the call, so after a call that throws the next
    attempt reduces it again: of a limit of 3, one object is left after a batch
    of one and two failed calls. *)
Example limit_reduced_twice :
  match query_ (H := batch_server) tt (bstr "db.c") (obj_of []) 3 0 None 4 0 [(0, [numbered 1]); (7, [])] with
  | (w, inr (Some c)) =>
      match @next batches unit c w with
      | (c', _, inr _) =>
          match more (H := batch_server) c' [] with
          | (c1, _, inl SocketException) =>
              match more (H := batch_server) c1 [] with
              | (c2, _, inl SocketException) => (nToReturn c, nToReturn c1, nToReturn c2) = (3, 2, 1)
              | _ => False
              end
          | _ => False
          end
      | _ => False
      end
  | _ => False
  end.
Proof. vm_compute. reflexivity. Qed.

(** The number of objects is believed: past the last one [next] reads what
    follows the message. *)
Definition overstated : Message :=
  MkMessage (Some (reply (repeat x00 8) 0 0 0 2 (enc_doc (numbered 1)))) [] true.

Definition overstating_server : Clients batches unit := {|
  fresh_bytes := [];
  cl_call := fun _ _ _ w => (w, inr (true, overstated, None));
  cl_say := fun _ _ _ w => (w, inr None);
  cl_sayPiggyBack := fun _ _ w => (w, inr tt);
  cl_recv := fun _ w => (w, inr (false, Message_new));
  cl_checkResponse := fun _ _ _ w => (w, inr (false, []));
  cl_runCommand := fun _ _ _ _ w => (w, inr (false, BSONObj_empty));
  cl_lazySupported := fun _ => true;
  cl_type := fun _ => MASTER;
  cl_toString := fun _ _ => [];
  cl_getServerAddress := fun _ _ => [];
  cl_availableOptions := fun _ w => (w, inr 0);
  cl_failed_shutdown := fun _ w => w;
  getScopedDbConnection := fun _ w => (w, inr tt);
  scoped_done := fun _ w => w;
  getLazyKillCursor := true;
  inShutdown := fun _ => false
|}.

Example next_past_message : exists c, 
  query_ (H := overstating_server) tt (bstr "db.c") (obj_of []) 0 0 None 4 0 [] = ([], inr (Some c)) /\
  match drain (H := overstating_server) 5 next c [] with (_, _, inl (Failure OutOfBounds)) => True | _ => False end.
Proof. eexists. split; [vm_compute; reflexivity|]. vm_compute. exact I. Qed.

(** [requestMore] borrows a connection for a cursor that has none, and forgets to
    take it out again when the reply is an error: the connection goes with its
    scope, the cursor keeps the pointer, and its destructor uses it. *)
Definition stale_reply : Message :=
  MkMessage (Some (reply (repeat x00 8) 6 7 0 1 (enc_doc [(bstr "$err", VString (bstr "stale"))]))) [] true.

Definition detached : DBClientCursor unit :=
  set_scopedHost (bstr "h") (set_client None (DBClientCursor_getMore (H := batch_server) tt (bstr "db.c") 7 0 4 [])).

Definition stale_server : Clients (list Message) unit := {|
  fresh_bytes := [];
  cl_call := fun _ _ _ w => (w, inr (true, stale_reply, None));
  cl_say := fun _ _ _ w => (w, inr None);
  cl_sayPiggyBack := fun _ m w => (w ++ [m], inr tt);
  cl_recv := fun _ w => (w, inr (false, Message_new));
  cl_checkResponse := fun _ _ _ w => (w, inr (false, []));
  cl_runCommand := fun _ _ _ _ w => (w, inr (false, BSONObj_empty));
  cl_lazySupported := fun _ => true;
  cl_type := fun _ => MASTER;
  cl_toString := fun _ _ => [];
  cl_getServerAddress := fun _ _ => [];
  cl_availableOptions := fun _ w => (w, inr 0);
  cl_failed_shutdown := fun _ w => w;
  getScopedDbConnection := fun _ w => (w, inr tt);
  scoped_done := fun _ w => w;
  getLazyKillCursor := true;
  inShutdown := fun _ => false
|}.

Example scoped_client_kept : _client detached = None /\
  match more (H := stale_server) detached [] with
  | (c, w, inl (RecvStaleConfigException _)) => _client c = Some tt /\ w = [] /\ length (fst (destroy_cursor (H := stale_server) c w)) = 1%nat
  | _ => False
  end.
Proof. split; [reflexivity|]. vm_compute. repeat split; reflexivity. Qed.
