(* ===== verification/MessagePort.v ===== *)
(** * MessagePort: messages on a socket (util/net/message_port.cpp,
    util/net/message.cpp)

    A port writes messages to a socket one after the other, and reads them back
    by the length each starts with.  A small message may be kept, to be sent
    with the next one ([piggyBack]).  A socket is the bytes that were sent and
    the bytes that are still to come; what it does when it fails is an
    exception.

    The theorem: the messages said and kept on one end are received at the other,
    whole and in their order, however many are kept, and none stays behind
    once a message has been said. *)

From stdpp Require Import base list numbers strings option tactics.
From Stdlib Require Import Strings.Byte ZArith Lia.
From S2P Require Import Prelude Memory BsonTypes Format Element Obj Builder Wire Cursor.

Definition MaxMessageSizeBytes : Z := 48 * 1000 * 1000.

(** The state of a port: the messages that wait, when there is a buffer for them;
    the bytes its socket has sent; those it will receive, and whether it can
    send.  [NextMsgId] is the counter of the program. *)
Record MessagingPort := MkPort {
  piggyBackData : option (list byte);
  sock_sent : list byte;
  sock_incoming : list byte;
  sock_ok : bool;
  NextMsgId : Z
}.

Definition MessagingPort_new (incoming : list byte) (ok : bool) (id : Z) : MessagingPort := MkPort None [] incoming ok id.

Definition PM (A : Type) : Type := MessagingPort -> MessagingPort * (exn + A).
Definition pret {A} (a : A) : PM A := fun p => (p, inr a).
Definition praise {A} (e : exn) : PM A := fun p => (p, inl e).
Definition pbind {A B} (m : PM A) (k : A -> PM B) : PM B := fun p =>
  match m p with
  | (p', inr a) => k a p'
  | (p', inl e) => (p', inl e)
  end.
Definition plift {A} (r : result A) : PM A := match r with Ok a => pret a | Err e => praise (Failure e) end.
Definition pmod (f : MessagingPort -> MessagingPort) : PM unit := fun p => (f p, inr tt).

Notation "'port!' x := m 'in' k" := (pbind m (fun x => k)) (at level 10, x name, m at level 200, k at level 200) : bson_scope.

(** ** The socket *)

Definition sock_send (bs : list byte) : PM unit := fun p =>
  if sock_ok p then (MkPort (piggyBackData p) (sock_sent p ++ bs) (sock_incoming p) true (NextMsgId p), inr tt)
  else (p, inl SocketException).

(** Exactly [n] bytes. *)
Definition sock_recv (n : Z) : PM (list byte) := fun p =>
  if n <=? zlen (sock_incoming p) then
    (MkPort (piggyBackData p) (sock_sent p) (drop (Z.to_nat n) (sock_incoming p)) (sock_ok p) (NextMsgId p),
     inr (take (Z.to_nat n) (sock_incoming p)))
  else (p, inl SocketException).

(** ** Messages that wait *)

Definition PiggyBackMax : Z := 1300.

Definition set_piggy (x : option (list byte)) (p : MessagingPort) : MessagingPort :=
  MkPort x (sock_sent p) (sock_incoming p) (sock_ok p) (NextMsgId p).
Definition waiting (p : MessagingPort) : list byte := default [] (piggyBackData p).

Definition pb_flush : PM unit := fun p =>
  match waiting p with
  | [] => (p, inr tt)
  | bs => (port! _ := sock_send bs in pmod (set_piggy (Some []))) p
  end.

Definition pb_append (m : Message) : PM unit := fun p =>
  (port! n := plift (let* h := msg_header m in md_len h) in
   port! _ := plift (verify (n <=? PiggyBackMax)) in
   port! _ := if PiggyBackMax <? zlen (waiting p) + n then pb_flush else pret tt in
   port! bs := plift (let* d := singleData m in loads (Ptr d 0) n) in
   fun p => (set_piggy (Some (waiting p ++ bs)) p, inr tt)) p.

(** ** Sending *)

Definition nextMessageId : PM Z := fun p =>
  (MkPort (piggyBackData p) (sock_sent p) (sock_incoming p) (sock_ok p) (u32 (NextMsgId p + 1)), inr (NextMsgId p)).

(** The identifiers, written into the header. *)
Definition set_ids (id responseTo : Z) (m : Message) : result Message :=
  let stamp d := let* d := store d 4 (le32 id) in store d off_responseTo (le32 responseTo) in
  match _buf m, _data m with
  | Some d, l => let* d := stamp d in Ok (MkMessage (Some d) l (_freeIt m))
  | None, (d, n) :: l => let* d := stamp d in Ok (MkMessage None ((d, n) :: l) (_freeIt m))
  | None, [] => Err VerifyFailed
  end.

Fixpoint send_pieces (l : list (list byte * Z)) : PM unit :=
  match l with
  | [] => pret tt
  | (d, n) :: l' =>
      port! bs := plift (loads (Ptr d 0) n) in
      port! _ := sock_send bs in
      send_pieces l'
  end.

Definition msg_send (m : Message) : PM unit :=
  match _buf m with
  | Some d => port! bs := plift (let* n := md_len d in loads (Ptr d 0) n) in sock_send bs
  | None => send_pieces (_data m)
  end.

(** The message with its identifiers, which the caller keeps. *)
Definition port_say (toSend : Message) (responseTo : Z) : PM Message :=
  port! _ := plift (verify (negb (msg_empty toSend))) in
  port! id := nextMessageId in
  port! m := plift (set_ids id responseTo toSend) in
  fun p =>
  (port! n := plift (let* h := msg_header m in md_len h) in
   port! _ := match waiting p with
              | [] => msg_send m
              | w =>
                  if PiggyBackMax <? zlen w + n then port! _ := pb_flush in msg_send m
                  else port! _ := pb_append m in pb_flush
              end in
   pret m) p.

Definition port_piggyBack (toSend : Message) (responseTo : Z) : PM Message :=
  port! n := plift (let* h := msg_header toSend in md_len h) in
  if PiggyBackMax <? n then port_say toSend (-1)
  else
    port! id := nextMessageId in
    port! m := plift (set_ids id responseTo toSend) in
    port! _ := pmod (fun p => set_piggy (Some (waiting p)) p) in
    port! _ := pb_append m in
    pret m.

(** ** Receiving *)

Definition endian_reply : list byte := le32 0x10203040.
Definition http_get : Z := 542393671.
Definition crlf : list byte := [x0d; x0a].
Definition http_text : list byte := bstr "You are trying to access MongoDB on the native driver port. For http diagnostic access, add 1000 to the port number" ++ [x0a].
Definition http_reply : list byte :=
  bstr "HTTP/1.0 200 OK" ++ crlf ++ bstr "Connection: close" ++ crlf ++ bstr "Content-Type: text/plain" ++ crlf ++
  bstr "Content-Length: " ++ bstr "116" ++ crlf ++ crlf ++ http_text.

(** The body of [recv]: the message, or none when the bytes are refused. *)
Fixpoint recv_message (fuel : nat) : PM (option Message) :=
  match fuel with
  | O => praise (Failure OutOfFuel)
  | S fuel' =>
      port! lenbuf := sock_recv 4 in
      let len_ := s32 (le_val lenbuf) in
      if (len_ <? 16) || (MaxMessageSizeBytes <? len_) then
        if len_ =? -1 then port! _ := sock_send endian_reply in recv_message fuel'
        else if len_ =? http_get then port! _ := sock_send http_reply in pret None
        else pret None
      else
        port! bs := sock_recv (len_ - 4) in
        port! m := plift (setData_msg (le32 len_ ++ bs) true Message_new) in
        pret (Some m)
  end.

(** An exception of the socket is caught.  Every turn reads four bytes. *)
Definition port_recv : PM (bool * Message) := fun p =>
  match recv_message (S (length (sock_incoming p))) p with
  | (p', inr (Some m)) => (p', inr (true, m))
  | (p', inr None) => (p', inr (false, Message_new))
  | (p', inl SocketException) => (p', inr (false, Message_new))
  | (p', inl e) => (p', inl e)
  end.

Definition md_id (d : list byte) : result Z := load_u32 (Ptr d 4).
Definition md_responseTo (d : list byte) : result Z := load_u32 (Ptr d off_responseTo).

(** The reply to [toSend]; another message is an error. *)
Definition recv_reply (toSend : Message) : PM (bool * Message) :=
  port! r := port_recv in
  if negb (fst r) then pret r
  else
    port! same := plift (
      let* h := msg_header (snd r) in
      let* a := md_responseTo h in
      let* t := msg_header toSend in
      let* b := md_id t in
      Ok (a =? b)) in
    if (same : bool) then pret r else praise (Failure VerifyFailed).

Definition port_call (toSend : Message) : PM (bool * Message) :=
  port! toSend := port_say toSend (-1) in
  recv_reply toSend.

(** [reply(received, response)] answers [received]. *)
Definition port_reply (received response : Message) : PM Message :=
  port! id := plift (let* h := msg_header received in md_id h) in
  port_say response (s32 id).

(** ** Frames *)

(** Bytes that are a message: the length first, two identifiers, the rest of the
    header; not longer than what a port accepts. *)
Definition frame (d : list byte) : Prop :=
  exists a b c, zlen a = 4 /\ zlen b = 4 /\ d = le32 (zlen d) ++ a ++ b ++ c /\ 16 <= zlen d <= MaxMessageSizeBytes.

(** With these identifiers. *)
Definition stamp_frame (id responseTo : Z) (d : list byte) : list byte :=
  take 4 d ++ le32 id ++ le32 responseTo ++ drop 12 d.

Definition framed_msg (d : list byte) : Message := MkMessage (Some d) [] true.

Lemma frame_split d a b c : zlen a = 4 -> zlen b = 4 -> d = le32 (zlen d) ++ a ++ b ++ c ->
  take 4 d = le32 (zlen d) /\ drop 12 d = c.
Proof.
  intros Ha Hb E. assert (length a = 4%nat /\ length b = 4%nat) as [La Lb] by (unfold zlen in *; lia).
  revert E. generalize (zlen d). intros n ->.
  assert (length (le32 n) = 4%nat) as Ln by done. split.
  - by rewrite take_app_length' by done.
  - rewrite !app_assoc. rewrite drop_app_ge by (rewrite !length_app; lia).
    by replace (12 - _)%nat with 0%nat by (rewrite !length_app; lia).
Qed.

Lemma stamp_frame_ok id rt d : frame d -> frame (stamp_frame id rt d) /\ zlen (stamp_frame id rt d) = zlen d.
Proof.
  intros (a & b & c & Ha & Hb & E & Hz). destruct (frame_split d a b c Ha Hb E) as [Et Ed].
  assert (zlen (stamp_frame id rt d) = zlen d) as Hl.
  { assert (zlen d = 12 + zlen c) as Hd by (rewrite E at 1; rewrite !zlen_app, zlen_le_bytes; lia).
    unfold stamp_frame. rewrite Et, Ed, !zlen_app, !zlen_le_bytes. lia. }
  split; [|done]. exists (le32 id), (le32 rt), (drop 12 d). rewrite !zlen_le_bytes, Hl.
  split; [done|]. split; [done|]. split; [|done]. unfold stamp_frame. by rewrite Et.
Qed.

Lemma frame_len d : frame d -> md_len d = Ok (zlen d).
Proof.
  intros (a & b & c & Ha & Hb & E & Hz). unfold md_len. rewrite E at 1. eapply points_load_s32; [apply points_start|].
  apply in_s_spec. change (2 ^ (32 - 1)) with (2 ^ 31). unfold MaxMessageSizeBytes in Hz. lia.
Qed.

Lemma frame_loads d : loads (Ptr d 0) (zlen d) = Ok d.
Proof. apply points_loads_all; [apply points_start|done]. Qed.

Lemma set_ids_frame id rt d f : frame d -> set_ids id rt (MkMessage (Some d) [] f) = Ok (MkMessage (Some (stamp_frame id rt d)) [] f).
Proof.
  intros (a & b & c & Ha & Hb & E & Hz). destruct (frame_split d a b c Ha Hb E) as [Et Ed].
  unfold set_ids, stamp_frame. cbn [_buf _data]. rewrite Et, Ed.
  rewrite (store_eq (le32 (zlen d)) a (b ++ c) d 4 (le32 id) (le32 (zlen d) ++ le32 id ++ b ++ c));
    [|done|by rewrite zlen_le_bytes|by rewrite zlen_le_bytes|done]. cbn [bind].
  rewrite (store_eq (le32 (zlen d) ++ le32 id) b c (le32 (zlen d) ++ le32 id ++ b ++ c) off_responseTo (le32 rt)
    (le32 (zlen d) ++ le32 id ++ le32 rt ++ c)); [done|by rewrite <- app_assoc|by rewrite zlen_app, !zlen_le_bytes|
    by rewrite zlen_le_bytes|by rewrite <- app_assoc].
Qed.

(** ** What is sent *)

Lemma pbind_ok {A B} (m : PM A) (k : A -> PM B) p p' a : m p = (p', inr a) -> pbind m k p = k a p'.
Proof. intros E. unfold pbind. by rewrite E. Qed.

(** The bytes that have left, and those that wait. *)
Definition flow (p : MessagingPort) : list byte := sock_sent p ++ waiting p.

Record flows (p p' : MessagingPort) (bs : list byte) : Prop := {
  fl_ok : sock_ok p' = true;
  fl_flow : flow p' = flow p ++ bs;
  fl_small : zlen (waiting p') <= PiggyBackMax;
  fl_in : sock_incoming p' = sock_incoming p
}.

Lemma flush_flows p : sock_ok p = true -> exists p', pb_flush p = (p', inr tt) /\ flows p p' [] /\ waiting p' = [] /\
  NextMsgId p' = NextMsgId p.
Proof.
  intros Hok. unfold pb_flush. destruct (waiting p) as [|b w] eqn:Ew.
  - exists p. split; [done|]. split; [|done]. split; [done|by rewrite app_nil_r| |done]. by rewrite Ew.
  - unfold pbind, sock_send. rewrite Hok. eexists. split; [reflexivity|]. split; [|done].
    split; [done| |done|done]. unfold flow, waiting. cbn. by rewrite <- Ew, !app_nil_r.
Qed.

Lemma append_flows p d f : sock_ok p = true -> frame d -> zlen d <= PiggyBackMax -> exists p',
  pb_append (MkMessage (Some d) [] f) p = (p', inr tt) /\ flows p p' d /\ NextMsgId p' = NextMsgId p.
Proof.
  intros Hok Hf Hz. unfold pb_append. cbn [msg_header _buf bind]. rewrite (frame_len d Hf). unfold pbind at 1. cbn [plift pret].
  rewrite (proj2 (Z.leb_le _ _) Hz). unfold pbind at 1. cbn [verify plift pret].
  assert (exists p1, (if PiggyBackMax <? zlen (waiting p) + zlen d then pb_flush else pret tt) p = (p1, inr tt) /\
    flows p p1 [] /\ zlen (waiting p1) + zlen d <= PiggyBackMax /\ NextMsgId p1 = NextMsgId p) as (p1 & E1 & H1 & Hw & Hn).
  { destruct (Z.ltb_spec PiggyBackMax (zlen (waiting p) + zlen d)).
    - destruct (flush_flows p Hok) as (p1 & E & Hfl & Hw & Hn). exists p1. rewrite Hw. split; [done|]. split; [done|].
      split; [by rewrite zlen_nil|done].
    - exists p. split; [done|]. split; [|done]. split; [done|by rewrite app_nil_r| |done]. pose proof (zlen_nonneg d). lia. }
  rewrite (pbind_ok _ _ _ _ _ E1). unfold singleData. cbn [_buf massert bind msg_header]. rewrite frame_loads.
  unfold pbind. cbn [plift pret]. eexists. split; [reflexivity|]. destruct H1 as [Hok1 Hfl Hsm Hin]. split; [|done].
  split; [done| | |done].
  - unfold flow, waiting in *. cbn. rewrite app_assoc, Hfl. by rewrite app_nil_r.
  - unfold waiting at 1. cbn. rewrite zlen_app. done.
Qed.

Lemma flows_trans p1 p2 p3 a b : flows p1 p2 a -> flows p2 p3 b -> flows p1 p3 (a ++ b).
Proof. intros [_ F1 _ I1] [K2 F2 S2 I2]. split; [done| |done|congruence]. by rewrite F2, F1, app_assoc. Qed.

Lemma send_flows p d f : sock_ok p = true -> frame d -> waiting p = [] ->
  exists p', msg_send (MkMessage (Some d) [] f) p = (p', inr tt) /\ flows p p' d /\ waiting p' = [] /\ NextMsgId p' = NextMsgId p.
Proof.
  intros Hok Hf Hw. unfold msg_send. cbn [_buf]. rewrite (frame_len d Hf). cbn [bind]. rewrite frame_loads.
  unfold pbind, sock_send. cbn [plift pret]. rewrite Hok. eexists. split; [reflexivity|]. split; [|done].
  split; [done| |unfold waiting in *; cbn; by rewrite Hw|done].
  unfold flow, waiting in *. cbn. by rewrite Hw, !app_nil_r.
Qed.

Definition next_id (p : MessagingPort) : Z := u32 (NextMsgId p + 1).

Lemma say_flows p d f rt : sock_ok p = true -> frame d -> zlen (waiting p) <= PiggyBackMax ->
  let d' := stamp_frame (NextMsgId p) rt d in
  exists p', port_say (MkMessage (Some d) [] f) rt p = (p', inr (MkMessage (Some d') [] f)) /\ flows p p' d' /\
    waiting p' = [] /\ NextMsgId p' = next_id p.
Proof.
  intros Hok Hf Hw d'. destruct (stamp_frame_ok (NextMsgId p) rt d Hf) as [Hf' _]. fold d' in Hf'.
  unfold port_say. unfold pbind at 1. cbn [msg_empty _buf _data negb verify plift pret].
  unfold pbind at 1, nextMessageId. set (p0 := MkPort _ _ _ _ _).
  unfold pbind at 1. rewrite (set_ids_frame _ _ d f Hf). fold d'. cbn [plift pret].
  unfold pbind at 1. cbn [msg_header _buf bind]. rewrite (frame_len d' Hf'). cbn [plift pret].
  assert (sock_ok p0 = true) as Hok0 by done. assert (waiting p0 = waiting p) as Hw0 by done.
  assert (flows p p0 []) as H0 by (split; [done|by rewrite app_nil_r|done|done]).
  assert (exists p', match waiting p0 with
    | [] => msg_send (MkMessage (Some d') [] f)
    | w => if PiggyBackMax <? zlen w + zlen d' then port! _ := pb_flush in msg_send (MkMessage (Some d') [] f)
           else port! _ := pb_append (MkMessage (Some d') [] f) in pb_flush
    end p0 = (p', inr tt) /\ flows p0 p' d' /\ waiting p' = [] /\ NextMsgId p' = NextMsgId p0) as (p' & E & Hfl & Hw' & Hn').
  { destruct (waiting p0) as [|b w] eqn:Ew; [by apply send_flows|].
    destruct (Z.ltb_spec PiggyBackMax (zlen (b :: w) + zlen d')).
    - destruct (flush_flows p0 Hok0) as (p1 & E1 & F1 & W1 & N1).
      destruct (send_flows p1 d' f) as (p2 & E2 & F2 & W2 & N2); [apply F1|done|done|].
      exists p2. rewrite (pbind_ok _ _ _ _ _ E1), E2. split; [done|]. split; [exact (flows_trans _ _ _ [] d' F1 F2)|].
      split; [done|congruence].
    - pose proof (zlen_nonneg (b :: w)).
      destruct (append_flows p0 d' f Hok0 Hf') as (p1 & E1 & F1 & N1); [lia|].
      destruct (flush_flows p1) as (p2 & E2 & F2 & W2 & N2); [apply F1|].
      exists p2. rewrite (pbind_ok _ _ _ _ _ E1), E2. split; [done|].
      split; [|split; [done|congruence]]. rewrite <- (app_nil_r d'). exact (flows_trans _ _ _ d' [] F1 F2). }
  exists p'. rewrite (pbind_ok _ _ _ _ _ E). split; [done|]. split; [exact (flows_trans _ _ _ [] d' H0 Hfl)|]. by split.
Qed.

Lemma piggyBack_flows p d f : sock_ok p = true -> frame d -> zlen (waiting p) <= PiggyBackMax ->
  let d' := stamp_frame (NextMsgId p) (-1) d in
  exists p', port_piggyBack (MkMessage (Some d) [] f) (-1) p = (p', inr (MkMessage (Some d') [] f)) /\ flows p p' d' /\
    NextMsgId p' = next_id p.
Proof.
  intros Hok Hf Hw d'. destruct (stamp_frame_ok (NextMsgId p) (-1) d Hf) as [Hf' Hz']. fold d' in Hf', Hz'.
  unfold port_piggyBack. unfold pbind at 1. cbn [msg_header _buf bind]. rewrite (frame_len d Hf). cbn [plift pret].
  destruct (Z.ltb_spec PiggyBackMax (zlen d)).
  { destruct (say_flows p d f (-1) Hok Hf Hw) as (p' & E & Hfl & _ & Hn). by exists p'. }
  unfold pbind at 1, nextMessageId. set (p0 := MkPort _ _ _ _ _).
  unfold pbind at 1. rewrite (set_ids_frame _ _ d f Hf). fold d'. cbn [plift pret].
  unfold pbind at 1, pmod. set (p1 := set_piggy _ p0).
  destruct (append_flows p1 d' f) as (p2 & E2 & F2 & N2); [done|done|lia|].
  exists p2. rewrite (pbind_ok _ _ _ _ _ E2). split; [done|]. split; [|done].
  refine (flows_trans p p1 p2 [] d' _ F2). split; [done| |done|done]. unfold flow. cbn. by rewrite app_nil_r.
Qed.

(** ** First in, first out *)

Inductive port_op :=
  | Say (m : Message) (responseTo : Z)
  | PiggyBack (m : Message).

Definition run_op (o : port_op) : PM Message :=
  match o with Say m rt => port_say m rt | PiggyBack m => port_piggyBack m (-1) end.

Fixpoint run_ops (ops : list port_op) : PM unit :=
  match ops with [] => pret tt | o :: ops' => port! _ := run_op o in run_ops ops' end.

Definition op_frame (id : Z) (o : port_op) : list byte :=
  let '(m, rt) := match o with Say m rt => (m, rt) | PiggyBack m => (m, -1) end in
  match _buf m with Some d => stamp_frame id rt d | None => [] end.

Fixpoint op_frames (id : Z) (ops : list port_op) : list (list byte) :=
  match ops with [] => [] | o :: ops' => op_frame id o :: op_frames (u32 (id + 1)) ops' end.

(** The message of the operation is in one buffer, with its length. *)
Definition good_op (o : port_op) : Prop :=
  exists d f, match o with Say m _ => m | PiggyBack m => m end = MkMessage (Some d) [] f /\ frame d.

Definition is_say (o : port_op) : bool := match o with Say _ _ => true | _ => false end.

Lemma run_ops_flows ops : forall p, Forall good_op ops -> sock_ok p = true -> zlen (waiting p) <= PiggyBackMax ->
  exists p', run_ops ops p = (p', inr tt) /\ flows p p' (concat (op_frames (NextMsgId p) ops)) /\
    (is_say (List.last ops (PiggyBack Message_new)) = true -> waiting p' = []).
Proof.
  induction ops as [|o ops IH]; intros p Hg Hok Hw; cbn [run_ops op_frames concat].
  { exists p. split; [done|]. split; [|done]. split; [done|by rewrite app_nil_r|done|done]. }
  apply Forall_cons_1 in Hg as [Ho Hg].
  assert (exists p1 r, run_op o p = (p1, inr r) /\ flows p p1 (op_frame (NextMsgId p) o) /\ NextMsgId p1 = next_id p /\
    (is_say o = true -> waiting p1 = [])) as (p1 & r & E1 & F1 & N1 & W1).
  { destruct Ho as (d & f & Em & Hf). destruct o as [m rt|m]; cbn in Em; subst m.
    - destruct (say_flows p d f rt Hok Hf Hw) as (p' & E & Hfl & Hw' & Hn). eexists p', _. by split; [exact E|].
    - destruct (piggyBack_flows p d f Hok Hf Hw) as (p' & E & Hfl & Hn). eexists p', _. by split; [exact E|]. }
  destruct (IH p1 Hg) as (p2 & E2 & F2 & W2); [apply F1|apply F1|].
  exists p2. rewrite (pbind_ok _ _ _ _ _ E1). split; [done|]. rewrite N1 in F2. split; [by eapply flows_trans|].
  intros Hl. destruct ops as [|o2 ops]; [|by apply W2]. cbn in E2. injection E2 as <-. by apply W1.
Qed.

Lemma op_frames_ok ops : forall id, Forall good_op ops -> Forall frame (op_frames id ops) /\ length (op_frames id ops) = length ops.
Proof.
  induction ops as [|o ops IH]; intros id Hg; [by split|]. apply Forall_cons_1 in Hg as [(d & f & Em & Hf) Hg].
  destruct (IH (u32 (id + 1)) Hg) as [H1 H2]. cbn [op_frames length]. split; [|by rewrite H2]. constructor; [|done].
  unfold op_frame. destruct o as [m rt|m]; cbn in Em; subst m; by apply stamp_frame_ok.
Qed.

Fixpoint recv_n (k : nat) : PM (list Message) :=
  match k with
  | O => pret []
  | S k' =>
      port! r := port_recv in
      port! l := recv_n k' in
      pret (if fst r then snd r :: l else l)
  end.

Lemma recv_frame d rest_ p : frame d -> sock_incoming p = d ++ rest_ ->
  exists p', port_recv p = (p', inr (true, framed_msg d)) /\
    p' = MkPort (piggyBackData p) (sock_sent p) rest_ (sock_ok p) (NextMsgId p).
Proof.
  intros (a & b & c & Ha & Hb & E & Hz) Hin. unfold port_recv. cbn [recv_message].
  assert (zlen d = 12 + zlen c) as Hd by (rewrite E at 1; rewrite !zlen_app, zlen_le_bytes; lia).
  pose proof (zlen_nonneg rest_). pose proof (zlen_nonneg c).
  assert (sock_incoming p = le32 (zlen d) ++ (a ++ b ++ c) ++ rest_) as Hin' by (rewrite Hin; rewrite E at 1; by rewrite <- app_assoc).
  unfold pbind at 1, sock_recv at 1. rewrite Hin', zlen_app, zlen_le_bytes.
  rewrite (proj2 (Z.leb_le 4 _)) by (pose proof (zlen_nonneg ((a ++ b ++ c) ++ rest_)); lia).
  change (Z.to_nat 4) with (length (le32 (zlen d))). rewrite take_app_length, drop_app_length, le_val_bytes.
  assert (s32 (zlen d mod 256 ^ Z.of_nat 4) = zlen d) as ->.
  { unfold MaxMessageSizeBytes in Hz. change (256 ^ Z.of_nat 4) with (2 ^ 32).
    rewrite Z.mod_small by lia. apply wrap_s_small; change (2 ^ (32 - 1)) with (2 ^ 31); lia. }
  rewrite (proj2 (Z.ltb_ge (zlen d) 16)) by lia. rewrite (proj2 (Z.ltb_ge MaxMessageSizeBytes (zlen d))) by lia. cbn [orb].
  unfold pbind at 1, sock_recv. cbn [sock_incoming].
  assert (zlen (a ++ b ++ c) = zlen d - 4) as Hl by (rewrite !zlen_app; lia).
  rewrite zlen_app, Hl. rewrite (proj2 (Z.leb_le (zlen d - 4) _)) by lia.
  assert (Z.to_nat (zlen d - 4) = length (a ++ b ++ c)) as -> by (rewrite <- Hl; apply zlen_nat).
  rewrite take_app_length, drop_app_length. rewrite <- E. unfold pbind, setData_msg. cbn. eexists. by split.
Qed.

Lemma recv_frames fs : forall p rest_, Forall frame fs -> sock_incoming p = concat fs ++ rest_ ->
  exists p', recv_n (length fs) p = (p', inr (map framed_msg fs)) /\ sock_incoming p' = rest_.
Proof.
  induction fs as [|d fs IH]; intros p rest_ Hf Hin; [by exists p|]. apply Forall_cons_1 in Hf as [Hd Hf].
  cbn [concat] in Hin. rewrite <- app_assoc in Hin. destruct (recv_frame d _ p Hd Hin) as (p1 & E1 & ->). set (p1 := MkPort _ _ _ _ _) in *.
  destruct (IH p1 rest_ Hf eq_refl) as (p2 & E2 & Hin2). exists p2. cbn [length recv_n map].
  by rewrite (pbind_ok _ _ _ _ _ E1), (pbind_ok _ _ _ _ _ E2).
Qed.

(** C24: Messages that are said, or kept to go with the next, are received at the
    other end in their order, each as it was sent, with the identifiers of its
    turn; once a message has been said nothing waits; and what waits is never
    more than the buffer holds. *)
Theorem port_fifo ops p q more_ : Forall good_op ops -> sock_ok p = true -> piggyBackData p = None -> sock_sent p = [] ->
  exists p', run_ops ops p = (p', inr tt) /\ zlen (waiting p') <= PiggyBackMax /\
    (is_say (List.last ops (PiggyBack Message_new)) = true -> waiting p' = []) /\
    (sock_incoming q = sock_sent p' ++ waiting p' ++ more_ ->
     exists q', recv_n (length ops) q = (q', inr (map framed_msg (op_frames (NextMsgId p) ops))) /\ sock_incoming q' = more_).
Proof.
  intros Hg Hok Hpb Hs. assert (waiting p = []) as Hw by (unfold waiting; by rewrite Hpb).
  destruct (run_ops_flows ops p Hg Hok) as (p' & E & [_ Hfl Hsm _] & Hlast); [by rewrite Hw|].
  exists p'. split; [done|]. split; [done|]. split; [done|]. intros Hin.
  unfold flow in Hfl. rewrite Hs, Hw in Hfl. cbn [app] in Hfl. rewrite app_assoc, Hfl in Hin.
  destruct (op_frames_ok ops (NextMsgId p) Hg) as [Hfr Hlen]. rewrite <- Hlen. by apply recv_frames.
Qed.

(** A call gets the reply to its message. *)
Lemma port_call_step p d f r rest_ : sock_ok p = true -> frame d -> zlen (waiting p) <= PiggyBackMax -> in_u 32 (NextMsgId p) = true ->
  frame r -> md_responseTo r = Ok (NextMsgId p) -> sock_incoming p = r ++ rest_ ->
  exists p', port_call (MkMessage (Some d) [] f) p = (p', inr (true, framed_msg r)) /\
    sock_sent p' = sock_sent p ++ waiting p ++ stamp_frame (NextMsgId p) (-1) d /\ sock_incoming p' = rest_ /\
    sock_ok p' = true /\ waiting p' = [] /\ NextMsgId p' = next_id p.
Proof.
  intros Hok Hf Hw Hid Hr Hrt Hin. destruct (say_flows p d f (-1) Hok Hf Hw) as (p1 & E1 & [Hok1 F1 _ I1] & W1 & N1).
  unfold flow in F1. rewrite W1, app_nil_r in F1. rewrite <- app_assoc in F1.
  destruct (recv_frame r rest_ p1 Hr) as (p2 & E2 & ->); [congruence|]. set (p2 := MkPort _ _ _ _ _) in *.
  exists p2. unfold port_call. rewrite (pbind_ok _ _ _ _ _ E1). unfold recv_reply. rewrite (pbind_ok _ _ _ _ _ E2).
  cbn [fst snd negb msg_header _buf framed_msg bind]. rewrite Hrt. cbn [bind].
  assert (md_id (stamp_frame (NextMsgId p) (-1) d) = Ok (NextMsgId p)) as ->.
  { destruct Hf as (a & b & c & Ha & Hb & E & Hz). destruct (frame_split d a b c Ha Hb E) as [Et Ed].
    unfold md_id, stamp_frame. rewrite Et. eapply points_load_u32; [|exact Hid].
    change (Ptr ?x 4) with (Ptr x 0 +! 4). eapply points_app_r; [apply points_start|]. by rewrite zlen_le_bytes. }
  unfold pbind. cbn [plift pret bind]. rewrite Z.eqb_refl. split; [done|]. by split.
Qed.

(** ** Two ends *)

Definition kill_sample : list byte := wire (repeat x00 8) dbKillCursors (le32 0 ++ le32 1 ++ le64 7).
Definition ping_sample : list byte := wire (repeat x00 8) dbMsg (bstr "ping" ++ [x00]).

Lemma wire_frame ids op body : length ids = 8%nat -> zlen body + 16 <= MaxMessageSizeBytes -> frame (wire ids op body).
Proof.
  intros Hi Hz. exists (take 4 ids), (drop 4 ids), (le16 op ++ [x00; x00] ++ body).
  assert (zlen (take 4 ids) = 4 /\ zlen (drop 4 ids) = 4) as [H1 H2] by (unfold zlen; rewrite length_take, length_drop; lia).
  rewrite (zlen_wire _ _ _ Hi). pose proof (zlen_nonneg body). split; [done|]. split; [done|]. split; [|lia].
  unfold wire. f_equal. by rewrite !app_assoc, (take_drop 4 ids).
Qed.

Lemma sample_op o : (o = PiggyBack (framed_msg kill_sample) \/ o = Say (framed_msg ping_sample) (-1)) -> good_op o.
Proof.
  intros [-> | ->]; do 2 eexists; (split; [reflexivity|]); apply wire_frame; first [reflexivity|by vm_compute].
Qed.

Definition sample_ops : list port_op :=
  [Say (framed_msg ping_sample) (-1); PiggyBack (framed_msg kill_sample); PiggyBack (framed_msg kill_sample); Say (framed_msg ping_sample) (-1)].

Lemma port_fifo_witness : exists p' q', run_ops sample_ops (MessagingPort_new [] true 5) = (p', inr tt) /\
  recv_n 4 (MessagingPort_new (sock_sent p') true 0) = (q', inr (map framed_msg (op_frames 5 sample_ops))).
Proof.
  destruct (port_fifo sample_ops (MessagingPort_new [] true 5)
    (MessagingPort_new (sock_sent (fst (run_ops sample_ops (MessagingPort_new [] true 5)))) true 0) []) as (p' & E & _ & Hw & Hr).
  - unfold sample_ops. apply Forall_cons_2; [apply sample_op; by right|]. apply Forall_cons_2; [apply sample_op; by left|].
    apply Forall_cons_2; [apply sample_op; by left|]. apply Forall_cons_2; [apply sample_op; by right|apply Forall_nil_2].
  - reflexivity.
  - reflexivity.
  - reflexivity.
  - destruct Hr as (q' & Hq & _).
    + rewrite E, (Hw eq_refl). cbn [fst app]. by rewrite app_nil_r.
    + exists p', q'. split; [exact E|]. rewrite E in Hq. exact Hq.
Defined.

(** ** Where a port falls short *)

(** A message in several buffers is not accepted while a kept message waits, if
    the two are small; without one it is. *)
Definition in_pieces : Message := MkMessage None [(take 16 ping_sample, 16); (drop 16 ping_sample, 5)] true.

Example pieces_refused :
  (let '(p, _) := port_piggyBack (framed_msg kill_sample) (-1) (MessagingPort_new [] true 5) in
   snd (port_say in_pieces (-1) p)) = inl (Failure (MsgAssert 13273)) /\
  match snd (port_say in_pieces (-1) (MessagingPort_new [] true 5)) with inr _ => True | _ => False end.
Proof. split; vm_compute; [reflexivity|exact Logic.I]. Qed.

(** A client may build a request of up to 64MB, and [say] does not look at its
    length, but a port closes the connection on a message above 48MB. *)
Lemma long_refused n rest_ p : MaxMessageSizeBytes < n < 2 ^ 31 -> n <> http_get -> sock_incoming p = le32 n ++ rest_ ->
  snd (port_recv p) = inr (false, Message_new).
Proof.
  intros Hn Hg Hin. unfold port_recv. cbn [recv_message]. unfold pbind at 1, sock_recv. rewrite Hin, zlen_app, zlen_le_bytes.
  pose proof (zlen_nonneg rest_). rewrite (proj2 (Z.leb_le 4 _)) by lia.
  change (Z.to_nat 4) with (length (le32 n)). rewrite take_app_length, le_val_bytes.
  unfold MaxMessageSizeBytes in *. change (256 ^ Z.of_nat 4) with (2 ^ 32). rewrite Z.mod_small by lia.
  rewrite wrap_s_small; [|lia|change (2 ^ (32 - 1)) with (2 ^ 31); lia].
  rewrite (proj2 (Z.ltb_lt _ n)) by lia. rewrite orb_true_r. rewrite (proj2 (Z.eqb_neq n (-1))) by lia.
  by rewrite (proj2 (Z.eqb_neq n http_get)).
Qed.

Lemma limits_differ : MaxMessageSizeBytes < BufferMaxSize.
Proof. reflexivity. Qed.
