(* ===== verification/BuilderSpec.v ===== *)
(** * BuilderSpec: what the builders guarantee

    Documents built field by field, nested documents through sub-builders that
    share their parent's buffer, are exactly the encoding of the fields
    appended; a buffer grows by doubling up to its limit and fails past it; a
    number appended in the smallest type that holds it reads back unchanged. *)

From stdpp Require Import base list numbers strings option tactics.
From Stdlib Require Import Strings.Byte ZArith Lia.
From S2P Require Import Prelude Memory Decimal Double BsonTypes Format Element Obj Access Compare.
From S2P Require Import Builder JsObj JsObjSpec.

(** The append of the source for each kind of value; a nested document is
    built in place by a sub-builder, a scope in a builder of its own. *)
Fixpoint append_value (name : list byte) (v : value) (b : BSONObjBuilder) {struct v}
    : result BSONObjBuilder :=
  let append_fields := fix go (d : doc) (s : BSONObjBuilder) : result BSONObjBuilder :=
    match d with
    | [] => Ok s
    | f :: r => let* s' := append_value (fst f) (snd f) s in go r s'
    end in
  match v with
  | VMinKey => appendMinKey name b
  | VMaxKey => appendMaxKey name b
  | VUndefined => appendUndefined name b
  | VNull => appendNull name b
  | VDouble d => append_double name d b
  | VString s => append_string name s b
  | VCode s => appendCode name s b
  | VSymbol s => appendSymbol name s b
  | VObject d =>
      let* b1 := subobjStart name b in
      let* sub := BSONObjBuilder_on (_b b1) in
      let* sub' := append_fields d sub in
      sub_done b1 sub'
  | VArray d =>
      let* b1 := subarrayStart name b in
      let* sub := BSONObjBuilder_on (_b b1) in
      let* sub' := append_fields d sub in
      sub_done b1 sub'
  | VBinData u x => appendBinData name (zlen x) u (Ptr x 0) b
  | VOID o => append_OID name o b
  | VBool x => append_bool name x b
  | VDate m => appendDate name m b
  | VTimestamp t => appendTimestamp name t b
  | VRegEx p o => appendRegex name p o b
  | VDBRef n o => appendDBRef name n o b
  | VCodeWScope c d =>
      let* s := BSONObjBuilder_new 512 in
      let* s' := append_fields d s in
      let* o := obj s' in
      appendCodeWScope name c o b
  | VInt n => append_int name n b
  | VLong n => append_longlong name n b
  end.

Fixpoint append_doc (d : doc) (b : BSONObjBuilder) : result BSONObjBuilder :=
  match d with
  | [] => Ok b
  | f :: r => let* b' := append_value (fst f) (snd f) b in append_doc r b'
  end.

Definition build (initsize : Z) (d : doc) : result BSONObj :=
  let* b := BSONObjBuilder_new initsize in
  let* b' := append_doc d b in
  obj b'.

Lemma append_doc_rep d :
  Forall (fun f => forall n, wf_value (snd f) = true -> appends (append_value n (snd f)) (n, snd f)) d ->
  Forall (fun f => wf_field f = true) d ->
  forall b pre d0, b_rep b pre d0 -> fits (_b b) (zlen (enc_elems d)) ->
  exists b', append_doc d b = Ok b' /\ b_rep b' pre (d0 ++ d) /\ owned b' = owned b.
Proof.
  induction d as [|[n v] d IH]; intros HP HW b pre d0 Hb Hf; cbn [append_doc].
  - exists b. rewrite app_nil_r. by split.
  - apply Forall_cons_1 in HP as [Hv HP]. apply Forall_cons_1 in HW as [Hw HW].
    apply wf_field_parts in Hw as [_ Hw]. cbn [fst snd] in *.
    unfold fits in Hf. rewrite zlen_enc_elems_cons in Hf. pose proof (zlen_nonneg (enc_elems d)).
    destruct (Hv n Hw b pre d0 Hb) as (b1 & -> & Hb1 & Ho1); [unfold fits; lia|]. cbn [bind].
    destruct (IH HP HW b1 pre (d0 ++ [(n, v)]) Hb1) as (b2 & H2 & Hb2 & Ho2).
    + unfold fits. rewrite (b_rep_len _ _ _ Hb1). rewrite (b_rep_len _ _ _ Hb) in Hf.
      rewrite enc_elems_app, zlen_app, zlen_enc_elems_cons.
      change (zlen (enc_elems [])) with 0. lia.
    + exists b2. split; [done|]. rewrite <- app_assoc in Hb2. split; [done|]. by rewrite Ho2.
Qed.

(** A sub-document built in place. *)
Lemma append_sub_rep t name d v b pre d0 :
  (forall b pre d0, b_rep b pre d0 -> fits (_b b) (zlen (enc_elems d)) ->
    exists b', append_doc d b = Ok b' /\ b_rep b' pre (d0 ++ d) /\ owned b' = owned b) ->
  vtype v = t -> enc_value v = enc_doc d ->
  b_rep b pre d0 -> fits (_b b) (zlen (enc_elem (name, v))) ->
  exists b', (let* b1 := on_b (header t name) b in
              let* sub := BSONObjBuilder_on (_b b1) in
              let* sub' := append_doc d sub in sub_done b1 sub') = Ok b' /\
    b_rep b' pre (d0 ++ [(name, v)]) /\ owned b' = owned b.
Proof.
  intros Hd Ht Hv Hb Hf. unfold fits in Hf. rewrite zlen_enc_elem, Hv, zlen_enc_doc in Hf.
  pose proof (zlen_nonneg (enc_elems d)).
  destruct (sub_start_rep t name b pre d0 Hb) as (b1 & sub & -> & Hsub & Hop & Hs & _);
    [unfold fits; lia|].
  cbn [bind]. rewrite Hsub. cbn [bind].
  assert (zlen (enc_header t name) = zlen name + 2) as Hz
    by (unfold enc_header; rewrite zlen_cons, zlen_app; change (zlen [x00]) with 1; lia).
  assert (len (_b sub) = len (_b b) + (zlen name + 2) + 4) as Hl.
  { rewrite (b_rep_len _ _ _ Hs), zlen_app, Hz. change (zlen (enc_elems [])) with 0.
    unfold len. lia. }
  destruct (Hd sub _ [] Hs) as (sub' & -> & Hs' & _); [unfold fits; lia|].
  cbn [bind].
  destruct (sub_done_rep v t name b b1 sub' pre d0 d Hb Hop Hs') as (b2 & H2 & Hb2 & Ho2 & _);
    [|done|done|by exists b2].
  unfold fits. rewrite (b_rep_len _ _ _ Hs'), zlen_app, Hz. cbn [app]. unfold len in *. lia.
Qed.

Lemma wf_doc_fields d : wf_doc d = true -> Forall (fun f => wf_field f = true) d.
Proof. apply wf_doc_Forall. Qed.

Lemma append_value_rep v : forall name, wf_value v = true -> appends (append_value name v) (name, v).
Proof.
  pattern v. apply value_nested_ind; clear v; [intros v|intros d IH|intros d IH|intros c d IH].
  - destruct v; try exact I; intros name Hw; cbn [append_value].
    + apply appendMinKey_rep. + apply appendMaxKey_rep. + apply appendUndefined_rep.
    + apply appendNull_rep. + apply append_double_rep. + apply append_string_rep.
    + apply appendCode_rep. + apply appendSymbol_rep.
    + apply appendBinData_rep, points_start.
    + cbn [wf_value] in Hw. apply append_OID_rep. lia.
    + apply append_bool_rep. + apply appendDate_rep. + apply appendTimestamp_rep.
    + apply appendRegex_rep.
    + cbn [wf_value] in Hw. apply andb_prop in Hw as [_ Hw]. apply appendDBRef_rep. lia.
    + apply append_int_rep. + apply append_longlong_rep.
  - intros name Hw b pre d0 Hb Hf. rewrite wf_value_object in Hw.
    apply (append_sub_rep Object name d); try done. intros. by apply append_doc_rep; [|apply wf_doc_fields|..].
  - intros name Hw b pre d0 Hb Hf. rewrite wf_value_array in Hw.
    apply (append_sub_rep Array name d); try done. intros. by apply append_doc_rep; [|apply wf_doc_fields|..].
  - intros name Hw b pre d0 Hb Hf. apply wf_value_code in Hw as (_ & Hd & _).
    change (append_value name (VCodeWScope c d) b) with
      (let* s := BSONObjBuilder_new 512 in let* s' := append_doc d s in
       let* o := obj s' in appendCodeWScope name c o b).
    destruct (new_rep 512 ltac:(by vm_compute)) as (s & -> & Hs & Ho & Hl). cbn [bind].
    pose proof (wf_doc_size d Hd) as Hsz. rewrite zlen_enc_doc in Hsz.
    destruct (append_doc_rep d IH (wf_doc_fields d Hd) s _ _ Hs) as (s' & -> & Hs' & Ho').
    { unfold fits. rewrite Hl. change BufferMaxSize with 67108864. rewrite obj_max_val in Hsz. lia. }
    cbn [bind]. destruct (obj_done s' _ d Hs') as (o & -> & Hr); [|done|congruence|].
    { unfold fits. rewrite (b_rep_len _ _ _ Hs'). change (zlen (le32 0)) with 4. cbn [app].
      change BufferMaxSize with 67108864. rewrite obj_max_val in Hsz. lia. }
    cbn [bind]. by apply appendCodeWScope_rep.
Qed.

Lemma build_rep initsize d : 4 <= initsize <= BSONObjMaxInternalSize -> wf_doc d = true ->
  exists o, build initsize d = Ok o /\ obj_rep o d.
Proof.
  intros Hi Hd. unfold build. destruct (new_rep initsize Hi) as (b & -> & Hb & Ho & Hl). cbn [bind].
  pose proof (wf_doc_size d Hd) as Hsz. rewrite zlen_enc_doc in Hsz.
  destruct (append_doc_rep d) with (b := b) (pre := le32 0) (d0 := @nil field)
    as (b' & -> & Hb' & Ho').
  - apply Forall_forall. intros f _ n. apply append_value_rep.
  - by apply wf_doc_fields.
  - done.
  - unfold fits. rewrite Hl. change BufferMaxSize with 67108864. rewrite obj_max_val in Hsz. lia.
  - cbn [bind]. apply (obj_done b' (le32 0)); [done| |done|congruence].
    unfold fits. rewrite (b_rep_len _ _ _ Hb'). change (zlen (le32 0)) with 4. cbn [app].
    change BufferMaxSize with 67108864. rewrite obj_max_val in Hsz. lia.
Qed.

(** C27: building a well-formed document with the builder's own appends,
    nested documents and arrays through sub-builders on the parent's buffer,
    never fails and gives an object whose bytes are the document's encoding,
    whatever the initial size of the buffer. *)
Theorem builder_correct initsize d :
  4 <= initsize <= BSONObjMaxInternalSize -> wf_doc d = true ->
  exists o, build initsize d = Ok o /\ obj_rep o d.
Proof. apply build_rep. Qed.

Lemma builder_correct_witness : exists o,
  build 4 [(bstr "a", VObject [(bstr "b", VArray [(bstr "0", VInt 1)])]);
           (bstr "f", VCodeWScope (bstr "x") [(bstr "y", VNull)])] = Ok o.
Proof.
  destruct (builder_correct 4 [(bstr "a", VObject [(bstr "b", VArray [(bstr "0", VInt 1)])]);
           (bstr "f", VCodeWScope (bstr "x") [(bstr "y", VNull)])]) as (o & Ho & _).
  - by vm_compute.
  - by vm_compute.
  - by exists o.
Defined.

(** ** The buffer *)

(** The doubling loop computes the least power of two, from 64, that holds
    the bytes, as long as that is an [int]. *)
Lemma grow_size_spec fuel : forall k newLen,
  6 <= k <= 30 -> newLen <= 2 ^ 30 -> 30 - k < Z.of_nat fuel ->
  exists j, grow_size fuel (2 ^ k) newLen = Ok (2 ^ j) /\ k <= j <= 30 /\ newLen <= 2 ^ j /\
    (j = k \/ 2 ^ (j - 1) < newLen).
Proof.
  induction fuel as [|fuel IH]; intros k newLen Hk Hn Hf; [lia|]. cbn [grow_size].
  destruct (Z.ltb_spec (2 ^ k) newLen) as [Hlt|Hge]; [|exists k; split; [done|lia]].
  assert (k < 30) by (destruct (Z.eq_dec k 30) as [->|]; lia).
  replace (2 ^ k * 2) with (2 ^ (k + 1)) by (rewrite Z.pow_add_r by lia; lia).
  assert (2 ^ (k + 1) <= 2 ^ 30) by (apply Z.pow_le_mono_r; lia).
  replace (in_s 32 (2 ^ (k + 1))) with true
    by (symmetry; apply in_s_spec; change (2 ^ (32 - 1)) with (2 * 2 ^ 30); lia).
  destruct (IH (k + 1) newLen) as (j & -> & Hj & Hl & Hmin); [lia|done|lia|].
  exists j. split; [done|]. split; [lia|]. split; [done|]. right.
  destruct Hmin as [->|]; [|done]. by replace (k + 1 - 1) with k by lia.
Qed.

(** Past 2^30 bytes the doubling overflows. *)
Lemma grow_size_overflow fuel : forall k newLen,
  6 <= k <= 30 -> 2 ^ 30 < newLen -> 30 - k < Z.of_nat fuel ->
  grow_size fuel (2 ^ k) newLen = Err UndefinedBehaviour.
Proof.
  induction fuel as [|fuel IH]; intros k newLen Hk Hn Hf; [lia|]. cbn [grow_size].
  assert (2 ^ k <= 2 ^ 30) by (apply Z.pow_le_mono_r; lia).
  destruct (Z.ltb_spec (2 ^ k) newLen); [|lia].
  replace (2 ^ k * 2) with (2 ^ (k + 1)) by (rewrite Z.pow_add_r by lia; lia).
  destruct (Z.eq_dec k 30) as [->|].
  - change (in_s 32 (2 ^ (30 + 1))) with false. done.
  - assert (2 ^ (k + 1) <= 2 ^ 30) by (apply Z.pow_le_mono_r; lia).
    replace (in_s 32 (2 ^ (k + 1))) with true
      by (symmetry; apply in_s_spec; change (2 ^ (32 - 1)) with (2 * 2 ^ 30); lia).
    apply IH; lia.
Qed.

Lemma bb_append_cases bs b : buf_ok b -> cap b <= BufferMaxSize ->
  (len b + zlen bs <= BufferMaxSize -> exists b',
     bb_append bs b = Ok b' /\ buf b' = buf b ++ bs /\ buf_ok b' /\ cap b' <= BufferMaxSize /\
     (cap b' = cap b \/
      cap b < len b' /\ exists j, 6 <= j /\ cap b' = 2 ^ j /\ (j = 6 \/ 2 ^ (j - 1) < len b'))) /\
  (BufferMaxSize < len b + zlen bs <= 2 ^ 30 -> bb_append bs b = Err (MsgAssert 13548)) /\
  (2 ^ 30 < len b + zlen bs -> bb_append bs b = Err UndefinedBehaviour).
Proof.
  unfold buf_ok, bb_append, grow, grow_reallocate. change BufferMaxSize with (2 ^ 26).
  intros Hb Hc. pose proof (zlen_nonneg (buf b)) as H0. fold (len b) in H0. pose proof (zlen_nonneg bs).
  destruct (in_s 32 (len b + zlen bs)) eqn:Ei.
  2: { split; [|split]; [intros; exfalso|intros; exfalso|done];
       apply not_true_iff_false in Ei; apply Ei, in_s_spec;
       change (2 ^ (32 - 1)) with (2 * 2 ^ 30); lia. }
  destruct (Z.ltb_spec (cap b) (len b + zlen bs)) as [Hg|Hg].
  - change 64 with (2 ^ 6). split; [|split]; intros Hs.
    + destruct (grow_size_spec 32 6 (len b + zlen bs)) as (j & -> & Hj & Hl & Hm); [lia|lia|lia|].
      cbn [bind]. assert (j <= 26) as Hj26.
      { destruct Hm as [->|Hm]; [lia|]. destruct (Z.le_gt_cases j 26); [done|].
        assert (2 ^ 26 <= 2 ^ (j - 1)) by (apply Z.pow_le_mono_r; lia). lia. }
      assert (2 ^ j <= 2 ^ 26) by (apply Z.pow_le_mono_r; lia).
      destruct (Z.ltb_spec (2 ^ 26) (2 ^ j)); [lia|]. cbn [bind].
      eexists. split; [done|]. cbn [buf cap]. split; [done|].
      unfold len in *. cbn [buf]. rewrite zlen_app. split; [lia|]. split; [lia|]. right.
      split; [lia|]. exists j. split; [lia|]. by split.
    + destruct (grow_size_spec 32 6 (len b + zlen bs)) as (j & -> & Hj & Hl & Hm); [lia|lia|lia|].
      cbn [bind]. by destruct (Z.ltb_spec (2 ^ 26) (2 ^ j)); [|lia].
    + by rewrite grow_size_overflow by lia.
  - cbn [bind]. split; [|split]; intros Hs; [|lia..].
    eexists. split; [done|]. cbn [buf cap]. split; [done|].
    unfold len in *. cbn [buf]. rewrite zlen_app. split; [lia|]. split; [done|]. by left.
Qed.


(** an append to a buffer adds exactly its bytes and keeps the ones
    written before as long as the total stays within 64MB; the allocation is
    kept or becomes the least power of two, at least 64, that holds the bytes,
    and stays within 64MB too.  A total past 64MB throws 13548, up to 2^30;
    past that the doubling of the size overflows. *)
Theorem append_limit bs b : buf_ok b -> cap b <= BufferMaxSize ->
  (len b + zlen bs <= BufferMaxSize -> exists b',
     bb_append bs b = Ok b' /\ buf b' = buf b ++ bs /\ buf_ok b' /\ cap b' <= BufferMaxSize /\
     (cap b' = cap b \/
      cap b < len b' /\ exists j, 6 <= j /\ cap b' = 2 ^ j /\ (j = 6 \/ 2 ^ (j - 1) < len b'))) /\
  (BufferMaxSize < len b + zlen bs <= 2 ^ 30 -> bb_append bs b = Err (MsgAssert 13548)) /\
  (2 ^ 30 < len b + zlen bs -> bb_append bs b = Err UndefinedBehaviour).
Proof. apply bb_append_cases. Qed.

Lemma append_limit_witness : exists b',
  bb_append (bstr "abc") (MkBuf (repeat x00 63) 63) = Ok b' /\
  buf b' = repeat x00 63 ++ bstr "abc".
Proof.
  destruct (append_limit (bstr "abc") (MkBuf (repeat x00 63) 63)) as [H _].
  - by vm_compute.
  - by vm_compute.
  - destruct H as (b' & Hb & Hbuf & _); [by vm_compute|]. by exists b'.
Defined.

(** ** Numbers in the smallest type that holds them *)

Definition number_value (n : Z) : value :=
  if Z.abs n <? 2 ^ 30 then VInt n
  else if Z.abs n <? 2 ^ 40 then VDouble (d_of_Z n) else VLong n.

Lemma appendNumber_rep name n : - 2 ^ 63 < n < 2 ^ 63 ->
  appends (appendNumber_longlong name n) (name, number_value n).
Proof.
  intros Hn b pre d Hb Hf. unfold appendNumber_longlong, number_value in *.
  rewrite ll_abs_spec by done. cbn [bind].
  destruct (Z.ltb_spec (Z.abs n) (2 ^ 30)); [|destruct (Z.ltb_spec (Z.abs n) (2 ^ 40))].
  - rewrite wrap_s_small; [by apply append_int_rep|lia|].
    change (2 ^ (32 - 1)) with (2 * 2 ^ 30). lia.
  - by apply append_double_rep.
  - by apply append_longlong_rep.
Qed.

Lemma number_value_reads e name n : - 2 ^ 63 < n < 2 ^ 63 ->
  elem_ok e name (number_value n) -> numberLong e = Ok n.
Proof.
  unfold number_value. intros Hn He. unfold numberLong. rewrite (type_rep _ _ _ He). cbn [bind].
  destruct (Z.ltb_spec (Z.abs n) (2 ^ 30)); [|destruct (Z.ltb_spec (Z.abs n) (2 ^ 40))]; cbn [vtype].
  - exact (numberInt_rep _ _ _ He).
  - rewrite (numberDouble_rep _ _ _ He). cbn [bind]. unfold d_cast. rewrite d_trunc_of_Z by lia.
    by replace (in_s 64 n) with true by (symmetry; apply in_s_spec; change (2 ^ (64 - 1)) with (2 ^ 63); lia).
  - exact (numberLong_rep _ _ _ He).
Qed.

Lemma int_or_ll_reads e name n : - 2 ^ 63 < n < 2 ^ 63 ->
  elem_ok e name (int_or_ll n) -> numberLong e = Ok n.
Proof.
  unfold int_or_ll. intros Hn He. unfold numberLong. rewrite (type_rep _ _ _ He). cbn [bind].
  destruct (Z.ltb_spec (Z.abs n) (INT_MAX / 2)); cbn [vtype].
  - exact (numberInt_rep _ _ _ He).
  - exact (numberLong_rep _ _ _ He).
Qed.

(** [appendNumber(long long)] stores an integer as an int, a double or a
    long by its magnitude and [appendIntOrLL] as an int or a long, and in each
    case [numberLong] of the stored element gives the integer back, the
    conversion to double losing nothing. *)
Theorem numbers_roundtrip name n : - 2 ^ 63 < n < 2 ^ 63 ->
  exists v w,
    appends (appendNumber_longlong name n) (name, v) /\
    appends (appendIntOrLL name n) (name, w) /\
    vtype v = (if Z.abs n <? 2 ^ 30 then NumberInt
               else if Z.abs n <? 2 ^ 40 then NumberDouble else NumberLong) /\
    vtype w = (if Z.abs n <? INT_MAX / 2 then NumberInt else NumberLong) /\
    (forall e, elem_ok e name v -> numberLong e = Ok n) /\
    (forall e, elem_ok e name w -> numberLong e = Ok n).
Proof.
  intros Hn. exists (number_value n), (int_or_ll n).
  split; [by apply appendNumber_rep|]. split; [by apply appendIntOrLL_rep|].
  split; [unfold number_value; by repeat case_match|].
  split; [unfold int_or_ll; by repeat case_match|].
  split; intros e He; [by apply (number_value_reads e name)|by apply (int_or_ll_reads e name)].
Qed.

Lemma numbers_roundtrip_witness : exists v,
  appends (appendNumber_longlong (bstr "n") (2 ^ 35 + 1)) (bstr "n", v) /\ vtype v = NumberDouble.
Proof.
  destruct (numbers_roundtrip (bstr "n") (2 ^ 35 + 1)) as (v & _ & Hv & _ & Ht & _); [lia|].
  by exists v.
Defined.

(** The least 64-bit integer has no absolute value: both appends negate
    it, which overflows, on every builder. *)
Theorem numbers_least_undefined name b :
  appendNumber_longlong name LLONG_MIN b = Err UndefinedBehaviour /\
  appendIntOrLL name LLONG_MIN b = Err UndefinedBehaviour.
Proof. by split. Qed.
