(* ===== verification/BuilderSafe.v ===== *)
(** * BuilderSafe: builders past their limit

    What every append does, whether the bytes fit or not: it appends the
    encoding of its field or throws one of the two exceptions of a document
    that is too large, and never leaves the buffer in another state, as long
    as the piece appended is itself below 2^29 bytes. *)

From stdpp Require Import base list numbers strings option tactics.
From Stdlib Require Import Strings.Byte ZArith Lia.
From S2P Require Import Prelude Memory Decimal Double BsonTypes Format Element Obj Access Compare.
From S2P Require Import Builder JsObj JsObjSpec BuilderSpec.

(** The exceptions of a buffer that grows past 64MB and of an object past its
    limit. *)
Definition too_large (e : err) : Prop := e = MsgAssert 13548 \/ e = MsgAssert 10334.

Definition buf_inv (x : BufBuilder) : Prop := buf_ok x /\ cap x <= BufferMaxSize.

Definition total_writes (m : BufBuilder -> result BufBuilder) (bs : list byte) : Prop :=
  forall x, buf_inv x ->
  match m x with
  | Ok x' => buf x' = buf x ++ bs /\ buf_inv x'
  | Err e => too_large e
  end.

Lemma total_append bs : zlen bs <= 2 ^ 29 -> total_writes (bb_append bs) bs.
Proof.
  intros Hs x [Hb Hc]. destruct (bb_append_cases bs x Hb Hc) as (H1 & H2 & _).
  assert (len x <= 2 ^ 26) by (unfold buf_ok in Hb; change BufferMaxSize with (2 ^ 26) in Hc; lia).
  destruct (Z.le_gt_cases (len x + zlen bs) BufferMaxSize) as [Hl|Hl].
  - destruct (H1 Hl) as (x' & -> & ? & ? & ? & _). by repeat split.
  - rewrite H2; [by left|]. change (2 ^ 30) with (2 ^ 29 + 2 ^ 29). lia.
Qed.

Lemma total_seq m k a c : total_writes m a -> total_writes k c -> total_writes (m ;> k) (a ++ c).
Proof.
  intros Hm Hk x Hx. unfold seq_w. specialize (Hm x Hx). destruct (m x) as [y|e]; [|done].
  destruct Hm as [E Hy]. cbn [bind]. specialize (Hk y Hy). destruct (k y) as [z|e]; [|done].
  destruct Hk as [E' Hz]. split; [|done]. by rewrite E', E, app_assoc.
Qed.

Lemma total_eq m a c : total_writes m a -> a = c -> total_writes m c.
Proof. by intros ? <-. Qed.

Lemma total_buf p n bs : loads p n = Ok bs -> zlen bs <= 2 ^ 29 -> total_writes (appendBuf p n) bs.
Proof. intros Hp Hs x Hx. unfold appendBuf. rewrite Hp. cbn [bind]. by apply total_append. Qed.

(** A string that fits a piece. *)
Definition small (s : list byte) : Prop := zlen s <= 2 ^ 28.

Lemma small_piece s : small s -> zlen s <= 2 ^ 29.
Proof. unfold small. lia. Qed.
Lemma small_nul s b : small s -> zlen (s ++ (if b : bool then [x00] else [])) <= 2 ^ 29.
Proof. unfold small. rewrite zlen_app. destruct b; [change (zlen [x00]) with 1|rewrite zlen_nil]; lia. Qed.

Lemma total_le n z : (n <= 8)%nat -> zlen (le_bytes n z) <= 2 ^ 29.
Proof. rewrite zlen_le_bytes. lia. Qed.

Lemma total_str s b : small s -> total_writes (appendStr s b) (s ++ if b : bool then [x00] else []).
Proof. intros Hs. apply total_append. by apply small_nul. Qed.

Lemma total_header t name : small name -> total_writes (header t name) (type_byte t :: name ++ [x00]).
Proof.
  intros Hs. eapply total_eq.
  - apply total_seq; apply total_append; [done|]. by apply (small_nul name true).
  - done.
Qed.

Create HintDb total.
#[export] Hint Resolve total_append total_header total_str total_buf total_seq small_piece small_nul total_le : total.
#[export] Hint Extern 1 (zlen [_] <= _) => (rewrite zlen_cons, zlen_nil; lia) : total.
#[export] Hint Extern 1 (_ <= 8)%nat => lia : total.
Ltac total_chain :=
  eapply total_eq;
  [ repeat (apply total_seq; [solve [eauto with total]|]); solve [eauto with total]
  | unfold enc_elem, enc_value, enc_string; cbn [fst snd vtype enc_value app];
    rewrite <- ?app_comm_cons, <- ?app_assoc; cbn [app];
    rewrite ?app_nil_r; try reflexivity ].

(** ** Builders *)

Definition b_inv (b : BSONObjBuilder) (pre : list byte) (d : doc) (o : bool) : Prop :=
  b_rep b pre d /\ cap (_b b) <= BufferMaxSize /\ owned b = o.

Definition total_appends (m : BSONObjBuilder -> result BSONObjBuilder) (f : field) : Prop :=
  forall b pre d o, b_inv b pre d o ->
  match m b with Ok b' => b_inv b' pre (d ++ [f]) o | Err e => too_large e end.

Lemma total_on_b m f : total_writes m (enc_elem f) -> total_appends (on_b m) f.
Proof.
  intros Hm b pre d o ((ph & E & Hp & Ho & Hd & Hok) & Hc & Hw). unfold on_b.
  specialize (Hm (_b b) (conj Hok Hc)). destruct (m (_b b)) as [x|e]; [|done].
  destruct Hm as [Ex [Hxok Hxc]]. cbn [bind]. split; [|done]. exists ph. cbn [set_b _b _offset _doneCalled].
  split; [|by repeat split]. rewrite Ex, E, enc_elems_app, <- !app_assoc.
  unfold enc_elems. simpl. by rewrite app_nil_r.
Qed.

Section appends.
Context (name : list byte) (Hn : small name).

Lemma total_bool v : total_appends (append_bool name v) (name, VBool v).
Proof using Hn. apply total_on_b. total_chain. Qed.
Lemma total_int n : total_appends (append_int name n) (name, VInt n).
Proof using Hn. apply total_on_b. total_chain. Qed.
Lemma total_longlong n : total_appends (append_longlong name n) (name, VLong n).
Proof using Hn. apply total_on_b. total_chain. Qed.
Lemma total_double n : total_appends (append_double name n) (name, VDouble n).
Proof using Hn. apply total_on_b. total_chain. Qed.
Lemma total_date n : total_appends (appendDate name n) (name, VDate n).
Proof using Hn. apply total_on_b. total_chain. Qed.
Lemma total_timestamp n : total_appends (appendTimestamp name n) (name, VTimestamp n).
Proof using Hn. apply total_on_b. total_chain. Qed.
Lemma total_null : total_appends (appendNull name) (name, VNull).
Proof using Hn. apply total_on_b. total_chain. Qed.
Lemma total_undefined : total_appends (appendUndefined name) (name, VUndefined).
Proof using Hn. apply total_on_b. total_chain. Qed.
Lemma total_regex p o : small p -> small o -> total_appends (appendRegex name p o) (name, VRegEx p o).
Proof using Hn. intros. apply total_on_b. total_chain. Qed.

Lemma total_string s : small s -> total_appends (append_string name s) (name, VString s).
Proof using Hn.
  intros Hs. apply total_on_b.
  assert (loads (literal s) (zlen s + 1) = Ok (s ++ [x00])) as Hl.
  { apply points_loads_all; [apply points_start|]. by rewrite zlen_app. }
  pose proof (total_buf _ _ _ Hl (small_nul s true Hs)). total_chain.
Qed.

Lemma total_OID x : zlen x = 12 -> total_appends (append_OID name x) (name, VOID x).
Proof using Hn.
  intros Hx. apply total_on_b.
  assert (loads (Ptr x 0) 12 = Ok x) as Hl by (by apply points_loads_all; [apply points_start|]).
  assert (total_writes (appendBuf (Ptr x 0) 12) x) by (apply (total_buf _ _ _ Hl); lia).
  total_chain.
Qed.

Lemma total_binary u x : small x -> total_appends (appendBinData name (zlen x) u (Ptr x 0)) (name, VBinData u x).
Proof using Hn.
  intros Hx. apply total_on_b.
  assert (loads (Ptr x 0) (zlen x) = Ok x) as Hl by (by apply points_loads_all; [apply points_start|]).
  pose proof (total_buf _ _ _ Hl (small_piece _ Hx)). total_chain.
Qed.
End appends.

(** ** Sub-builders and finished objects *)

Lemma inv_fits b pre d o x : b_inv b pre d o -> buf x = buf (_b b) ++ [x00] -> buf_inv x -> fits (_b b) 1.
Proof.
  intros _ E [Hok Hc]. unfold fits, buf_ok, len in *. rewrite E, zlen_app in Hok.
  change (zlen [x00]) with 1 in Hok. lia.
Qed.

(** Finishing an object either works or throws for want of a byte. *)
Lemma total_done b pre d o : b_inv b pre d o ->
  match _done b with Ok _ => fits (_b b) 1 | Err e => too_large e end.
Proof.
  intros Hb. pose proof Hb as ((ph & E & Hp & Ho & Hd & Hok) & Hc & Hw). unfold _done. rewrite Hd.
  pose proof (total_append [x00] ltac:(by vm_compute) (_b b) (conj Hok Hc)) as H.
  unfold appendNum_char. destruct (bb_append [x00] (_b b)) as [x|e]; [|done].
  destruct H as [Ex Hx]. cbn [bind]. by apply (inv_fits b pre d o x).
Qed.

Lemma done_cap b b' : buf_inv (_b b) -> _done b = Ok b' -> cap (_b b') <= BufferMaxSize.
Proof.
  intros Hx. unfold _done. destruct (_doneCalled b); [by intros [= <-]; apply Hx|].
  pose proof (total_append [x00] ltac:(by vm_compute) (_b b) Hx) as H.
  unfold appendNum_char. destruct (bb_append [x00] (_b b)) as [x|e]; [|done].
  destruct H as [_ [_ H]]. cbn [bind]. by intros [= <-].
Qed.

(** A sub-builder on a header: opened, filled with [d'], finished. *)
Lemma total_sub_start t name b pre d o : small name -> b_inv b pre d o ->
  match (let* b1 := on_b (header t name) b in let* s := BSONObjBuilder_on (_b b1) in Ok (b1, s)) with
  | Ok (b1, s) => opened b b1 (enc_header t name) /\
      b_inv s (buf (_b b) ++ enc_header t name) [] false
  | Err e => too_large e
  end.
Proof.
  intros Hn ((ph & E & Hp & Ho & Hd & Hok) & Hc & Hw). unfold on_b.
  pose proof (total_header t name Hn (_b b) (conj Hok Hc)) as H.
  destruct (header t name (_b b)) as [x|e]; [|done]. destruct H as [Ex Hx]. cbn [bind].
  fold (enc_header t name) in Ex. unfold BSONObjBuilder_on, skip. cbn [set_b _b].
  change (Z.to_nat 4) with 4%nat.
  pose proof (total_append (repeat x00 4) ltac:(by vm_compute) x Hx) as H.
  destruct (bb_append (repeat x00 4) x) as [y|e]; [|done]. destruct H as [Ey [Hyok Hyc]]. cbn [bind].
  split; [by repeat split|]. split; [|by split].
  exists (repeat x00 4). cbn [_b _offset _doneCalled]. rewrite Ey, Ex.
  unfold enc_elems. simpl flat_map. rewrite app_nil_r. repeat split; [|done]. unfold len. by rewrite Ex.
Qed.

Lemma total_sub_done v t name b b1 s pre d d' o : vtype v = t -> enc_value v = enc_doc d' ->
  b_inv b pre d o -> opened b b1 (enc_header t name) ->
  b_inv s (buf (_b b) ++ enc_header t name) d' false ->
  match sub_done b1 s with
  | Ok b2 => b_inv b2 pre (d ++ [(name, v)]) o
  | Err e => too_large e
  end.
Proof.
  intros Ht Hv (Hb & Hc & Hw) Hop Hs. pose proof (total_done _ _ _ _ Hs) as Hd.
  destruct (_done s) as [s'|e] eqn:E; [|unfold sub_done; by rewrite E].
  destruct Hs as (Hs & Hsc & _).
  destruct (sub_done_rep v t name b b1 s pre d d' Hb Hop Hs Hd Ht Hv) as (b2 & H2 & Hb2 & Ho2 & _).
  rewrite H2. split; [done|]. split; [|congruence].
  unfold sub_done in H2. rewrite E in H2. injection H2 as <-. cbn [set_b _b].
  apply (done_cap s); [|done]. split; [|done]. by destruct Hs as (? & _ & _ & _ & _ & ?).
Qed.

(** The object a finished builder gives is the encoding of its document. *)
Lemma total_init pre d : zlen (enc_doc d) < 2 ^ 31 ->
  BSONObj_init (Ptr (pre ++ enc_doc d) (zlen pre)) =
  if zlen (enc_doc d) <=? BSONObjMaxInternalSize then Ok (Ptr (pre ++ enc_doc d) (zlen pre))
  else Err (MsgAssert 10334).
Proof.
  intros Hz. assert (Ptr (pre ++ enc_doc d) (zlen pre) ↦ enc_doc d) as Hp.
  { pose proof (points_start (pre ++ enc_doc d)) as Hp. by apply (points_app_r _ _ _ (zlen pre)) in Hp. }
  pose proof (zlen_enc_doc d) as Hd. pose proof (zlen_nonneg (enc_elems d)).
  unfold BSONObj_init, isValid, objsize.
  assert (load_s32 (Ptr (pre ++ enc_doc d) (zlen pre)) = Ok (zlen (enc_doc d))) as ->.
  { rewrite Hd. eapply points_load_s32; [exact Hp|]. apply in_s_spec. change (2 ^ (32 - 1)) with (2 ^ 31). lia. }
  cbn [bind]. replace (0 <? zlen (enc_doc d)) with true by lia. cbn [andb]. by destruct (_ <=? _).
Qed.

Lemma total_obj b pre d o : b_inv b pre d o -> 
  match _done b with
  | Ok b' => buf (_b b') = pre ++ enc_doc d /\ _offset b' = zlen pre /\ zlen (enc_doc d) < 2 ^ 31
  | Err e => too_large e
  end.
Proof.
  intros Hb. pose proof (total_done _ _ _ _ Hb) as Hd. destruct (_done b) as [b'|e] eqn:E; [|done].
  destruct Hb as (Hb & _). destruct (_done_rep b pre d Hb Hd) as (b2 & E2 & Eb & Eo & _).
  rewrite E in E2. injection E2 as <-. split; [done|]. split; [done|].
  unfold fits in Hd. rewrite (b_rep_len _ _ _ Hb) in Hd. rewrite zlen_enc_doc.
  pose proof (zlen_nonneg pre). change BufferMaxSize with (2 ^ 26) in Hd. lia.
Qed.

Lemma total_new : exists b, BSONObjBuilder_new 512 = Ok b /\ b_inv b (le32 0) [] true.
Proof.
  destruct (new_rep 512 ltac:(by vm_compute)) as (b & Hb & Hr & Ho & _). exists b. split; [done|].
  split; [done|]. split; [|done]. injection Hb as <-. by vm_compute.
Qed.
