(* ===== verification/Storage.v ===== *)
(** * Storage: which documents may be stored, and dotted names

    [okForStorage] against its specification on documents, with the early
    answer its code gives at a reference field. *)

From stdpp Require Import base list numbers strings option tactics.
From Stdlib Require Import Strings.Byte ZArith Lia.
From S2P Require Import Prelude Memory Decimal BsonTypes Format Element Obj Access Compare Order.
From S2P Require Import Builder JsObj JsObjSpec.

(** The document inside a value, a code's scope included. *)
Definition inner_doc (v : value) : option doc :=
  match v with
  | VObject d | VArray d => Some d
  | VCodeWScope _ d => Some d
  | _ => None
  end.

Definition special_name (n : list byte) : bool := has_char "." n || has_char "$" n.
Definition reference_name (n : list byte) : bool :=
  bytes_eqb n (bstr "$ref") || bytes_eqb n (bstr "$id").

(** The answer of the code: a name with a dot or a dollar decides it. *)
Fixpoint storable_value (v : value) : bool :=
  let fields := fix fields (d : doc) : bool :=
    match d with
    | [] => true
    | (n, v) :: r =>
        if special_name n then reference_name n
        else if bytes_eqb n (bstr "_id") && bool_decide (vtype v = RegEx) then false
        else storable_value v && fields r
    end in
  match v with
  | VObject d | VArray d | VCodeWScope _ d => fields d
  | _ => true
  end.

Fixpoint storable (d : doc) : bool :=
  match d with
  | [] => true
  | (n, v) :: r =>
      if special_name n then reference_name n
      else if bytes_eqb n (bstr "_id") && bool_decide (vtype v = RegEx) then false
      else storable_value v && storable r
  end.

Lemma storable_value_inner v :
  storable_value v = match inner_doc v with Some d => storable d | None => true end.
Proof. by destruct v. Qed.

Lemma scope_rep e n c d : elem_ok e n (VCodeWScope c d) ->
  exists o, codeWScopeObject e = Ok o /\ obj_rep o d.
Proof.
  intros Hok. pose proof (elem_wf_value _ _ _ Hok) as Hw. apply wf_value_code in Hw as (Hc & Hd & Hs).
  pose proof (value_points _ _ _ Hok) as Hp. rewrite enc_value_code in Hp.
  pose proof (zlen_nonneg c). pose proof (zlen_nonneg (enc_doc d)).
  assert (data e +! (zlen n + 2) +! 4 ↦ enc_string c ++ enc_doc d) as Hp4
    by (by apply (points_app_r _ _ _ 4) in Hp).
  assert (obj_rep (data e +! (zlen n + 2) +! (4 + 4 + (zlen c + 1))) d) as Ho.
  { split; [|done]. replace (data e +! (zlen n + 2) +! (4 + 4 + (zlen c + 1)))
      with (data e +! (zlen n + 2) +! 4 +! (zlen c + 5)) by (unfold padd; simpl; f_equal; lia).
    apply (points_app_r _ _ _ (zlen c + 5)) in Hp4; [done|]. by rewrite zlen_enc_string. }
  eexists. split; [|exact Ho]. unfold codeWScopeObject. rewrite (type_rep _ _ _ Hok). cbn [bind].
  rewrite (bool_decide_eq_true_2 _ eq_refl). cbn [verify bind].
  rewrite (value_ptr_rep _ _ _ Hok). cbn [bind].
  unfold enc_string in Hp4. rewrite <- app_assoc in Hp4.
  rewrite (points_load_s32 _ _ _ Hp4) by (apply small_s32; lia). cbn [bind].
  by apply (BSONObj_init_rep _ d).
Qed.

(** A document in a field is shorter than the document around it. *)
Lemma inner_doc_shorter d n v s : In (n, v) d -> inner_doc v = Some s ->
  (length (enc_doc s) < length (enc_doc d))%nat.
Proof.
  intros Hin Hs. assert (zlen (enc_doc s) <= zlen (enc_value v)) as Hv.
  { destruct v; try discriminate Hs; injection Hs as ->; [done..|]. rewrite enc_value_code.
    rewrite zlen_app, zlen_le_bytes, zlen_app. pose proof (zlen_nonneg (enc_string code)). lia. }
  assert (zlen (enc_elem (n, v)) <= zlen (enc_elems d)) as Hd.
  { apply in_split in Hin as (d1 & d2 & ->). rewrite enc_elems_app, zlen_app, zlen_enc_elems_cons.
    pose proof (zlen_nonneg (enc_elems d1)). pose proof (zlen_nonneg (enc_elems d2)). lia. }
  rewrite zlen_enc_elem in Hd. pose proof (zlen_nonneg n). pose proof (zlen_enc_doc d).
  unfold zlen in *. lia.
Qed.

Definition storable_step (_ : unit) (f : field) : step unit bool :=
  if special_name (fst f) then Return (reference_name (fst f))
  else if bytes_eqb (fst f) (bstr "_id") && bool_decide (vtype (snd f) = RegEx) then Return false
  else if storable_value (snd f) then Continue tt else Return false.

Lemma storable_run d : run_fields storable_step d tt =
  (if storable d then
     match run_fields storable_step d tt with Continue _ => Continue tt | Return _ => Return true end
   else Return false).
Proof.
  induction d as [|[n v] d IH]; [done|]. cbn [run_fields storable]. unfold storable_step at 1 3.
  cbn [fst snd]. destruct (special_name n); [by destruct (reference_name n)|].
  destruct (bytes_eqb n (bstr "_id") && bool_decide (vtype v = RegEx)); [done|].
  by destruct (storable_value v).
Qed.

Lemma okForStorage_go_rep depth : forall o d,
  obj_rep o d -> (length (enc_doc d) <= depth)%nat -> okForStorage_go depth o = Ok (storable d).
Proof.
  induction depth as [|depth IH]; intros o d Ho Hd.
  { exfalso. pose proof (zlen_enc_doc d). pose proof (zlen_nonneg (enc_elems d)). unfold zlen in *. lia. }
  cbn [okForStorage_go].
  match goal with |- context [for_elements o tt ?body] =>
    edestruct (for_elements_sim body storable_step eq eq o d tt tt Ho) as (st & Hst & Hrel) end;
    [|done|].
  2: { rewrite Hst. clear Hst. rewrite storable_run in Hrel.
       destruct (storable d); [|by inversion Hrel; subst].
       by destruct (run_fields storable_step d tt) as [[]|]; inversion Hrel; subst. }
  intros s ? e n v <- Hok Hin _. rewrite (field_name_rep _ _ _ Hok). cbn [bind].
  unfold storable_step. cbn [fst snd]. unfold special_name.
  destruct (has_char "." n || has_char "$" n); [by eexists; split; [|constructor]|].
  rewrite (type_rep _ _ _ Hok). cbn [bind].
  destruct (bytes_eqb n (bstr "_id") && bool_decide (vtype v = RegEx)); [by eexists; split; [|constructor]|].
  assert (forall s, inner_doc v = Some s -> (length (enc_doc s) <= depth)%nat) as Hs.
  { intros s' Hs'. pose proof (inner_doc_shorter d n v s' Hin Hs'). lia. }
  rewrite storable_value_inner.
  destruct v as [ | | | | | | | | d'|d'| | | | | | | |c d'| | ]; cbn [inner_doc] in *;
    try (by eexists; split; [|constructor]).
  - destruct (embedded_rep _ _ _ d' Hok eq_refl) as (o' & Ho' & Hr & _). rewrite Ho'. cbn [bind].
    rewrite (IH o' d' Hr) by auto. cbn [bind]. by destruct (storable d'); eexists; split; try constructor.
  - destruct (embedded_rep _ _ _ d' Hok eq_refl) as (o' & Ho' & Hr & _). rewrite Ho'. cbn [bind].
    rewrite (IH o' d' Hr) by auto. cbn [bind]. by destruct (storable d'); eexists; split; try constructor.
  - destruct (scope_rep _ _ _ _ Hok) as (o' & Ho' & Hr). rewrite Ho'. cbn [bind].
    rewrite (IH o' d' Hr) by auto. cbn [bind]. by destruct (storable d'); eexists; split; try constructor.
Qed.

(** C28: [okForStorage] never fails on a well-formed object and answers, at
    every depth, scopes of code included: at the first name with a dot or a
    dollar, whether it is "$ref" or "$id"; false at an "_id" that is a regular
    expression; true when the fields run out. *)
Theorem okForStorage_correct o d : obj_rep o d -> okForStorage o = Ok (storable d).
Proof.
  intros Ho. apply okForStorage_go_rep; [done|]. pose proof (obj_bytes_bound _ _ Ho).
  unfold fuel_of. lia.
Qed.

Lemma okForStorage_correct_witness :
  okForStorage (obj_of [(bstr "a", VObject [(bstr "b.c", VNull)])]) = Ok false.
Proof. by apply (okForStorage_correct _ [(bstr "a", VObject [(bstr "b.c", VNull)])]), obj_of_rep. Defined.

(** Because a reference name ends the scan, the fields after it are never
    looked at: an object that is rejected for a field is accepted when a
    reference field comes before it. *)
Theorem okForStorage_reference_hides d :
  okForStorage (obj_of [(bstr "$where", VInt 1)]) = Ok false /\
  (wf_doc ((bstr "$ref", VInt 0) :: d) = true ->
   okForStorage (obj_of ((bstr "$ref", VInt 0) :: d)) = Ok true).
Proof.
  split; [by vm_compute|]. intros Hw. unfold okForStorage.
  erewrite okForStorage_go_rep; [|by apply obj_of_rep|].
  - done.
  - pose proof (obj_bytes_bound _ _ (obj_of_rep _ Hw)). unfold fuel_of. lia.
Qed.

Lemma okForStorage_reference_hides_witness :
  okForStorage (obj_of [(bstr "$ref", VInt 0); (bstr "$where", VInt 1)]) = Ok true.
Proof. apply (okForStorage_reference_hides [(bstr "$where", VInt 1)]). by vm_compute. Defined.
