(* ===== verification/Json.v ===== *)
(** * Json: the parser of extended JSON (db/json.cpp, db/json.h)

    [JParse] is a recursive descent over a C string that appends the values it
    reads to a builder.  Its state is the input left, [_input] up to
    [_input_end]; an operation is a [parser], from the input to its status:
    success with a value and the input left, a parse error with the input where
    the error left it, or an exception of a builder.  The message of a parse
    error is not modelled.

    The recursion of [value] is on fuel, as is the loop over the members of an
    object or an array; JsonSafe.v shows that [fromjson] gives enough. *)

From stdpp Require Import base list numbers strings option tactics.
From Stdlib Require Import Strings.Byte ZArith Lia.
From S2P Require Import Prelude Memory Decimal Codec Double CNumber BsonTypes Format Element Obj.
From S2P Require Import Builder JsObj.

Module JParse.

(** ** Parsers *)

Inductive status (A : Type) :=
  | SOk (a : A) (input : list byte)
  | ParseError (input : list byte)
  | SThrow (e : err).
Arguments SOk {A} a input.
Arguments ParseError {A} input.
Arguments SThrow {A} e.

Definition parser (A : Type) := list byte -> status A.

#[export] Instance parser_ret : MRet parser := fun A a i => SOk a i.
#[export] Instance parser_bind : MBind parser := fun A B k m i =>
  match m i with
  | SOk a i' => k a i'
  | ParseError i' => ParseError i'
  | SThrow e => SThrow e
  end.

Definition parseError {A} : parser A := fun i => ParseError i.

(** An operation on the builder. *)
Definition lift {A} (m : result A) : parser A := fun i =>
  match m with Ok a => SOk a i | Err e => SThrow e end.

(** A loop that consumes input at each turn. *)
Definition with_fuel {A} (loop : nat -> parser A) : parser A := fun i => loop (S (length i)) i.

(** The rest of a computation that stops with a parse error unless [b]. *)
Definition check (b : bool) : parser unit := if b then mret tt else parseError.

(** ** Characters and tokens *)

Definition LBRACE : list byte := bstr "{".
Definition RBRACE : list byte := bstr "}".
Definition LBRACKET : list byte := bstr "[".
Definition RBRACKET : list byte := bstr "]".
Definition LPAREN : list byte := bstr "(".
Definition RPAREN : list byte := bstr ")".
Definition COLON : list byte := bstr ":".
Definition COMMA : list byte := bstr ",".
Definition FORWARDSLASH : list byte := bstr "/".
Definition SINGLEQUOTE : list byte := bstr "'".
Definition DOUBLEQUOTE : list byte := [x22].

(** [match]: [strchr] finds the NUL that ends a set that is not empty. *)
Definition jmatch (matchChar : byte) (matchSet : list byte) : bool :=
  match matchSet with
  | [] => false
  | _ => existsb (Byte.eqb matchChar) (matchSet ++ [x00])
  end.

Definition ALPHA : list byte := bstr "ABCDEFGHIJKLMNOPQRSTUVWXYZabcdefghijklmnopqrstuvwxyz".
Definition DIGIT : list byte := bstr "0123456789".
Definition JOPTIONS : list byte := bstr "gims".
(** [base64::chars]. *)
Definition base64_chars : list byte := b64_chars ++ bstr "=".

Definition isHexString (s : list byte) : bool := forallb isxdigit s.
Definition isBase64String (s : list byte) : bool := forallb (fun c => jmatch c base64_chars) s.

(** The input after [token], when it starts with it. *)
Fixpoint strip_token (token input : list byte) : option (list byte) :=
  match token, input with
  | [], _ => Some input
  | t :: token', c :: input' => if Byte.eqb t c then strip_token token' input' else None
  | _ :: _, [] => None
  end.

Definition accept (token : list byte) (advance : bool) : parser bool := fun i =>
  match strip_token token (skip_space i) with
  | Some i' => SOk true (if advance then i' else i)
  | None => SOk false i
  end.

(** [if (!accept(token)) return parseError(...)]. *)
Definition expect (token : list byte) : parser unit := b ← accept token true; check b.

(** ** Strings *)

Definition encodeUTF8 (first second : Z) : list byte :=
  if (first =? 0) && (second <? 0x80) then [zb second]
  else if first <? 0x08 then
    [zb (Z.lor 0xc0 (Z.lor (Z.shiftl first 2) (Z.shiftr second 6)));
     zb (Z.lor 0x80 (Z.land (Z.lnot 0xc0) second))]
  else
    [zb (Z.lor 0xe0 (Z.shiftr first 4));
     zb (Z.lor 0x80 (Z.land (Z.lnot 0xc0) (Z.lor (Z.shiftl first 2) (Z.shiftr second 6))));
     zb (Z.lor 0x80 (Z.land (Z.lnot 0xc0) second))].

(** [l] in front of the string that is read. *)
Definition push (l : list byte) (m : status (list byte)) : status (list byte) :=
  match m with SOk s i => SOk (l ++ s) i | _ => m end.

(** The letters that stand for another character after a backslash. *)
Definition escape_letter (c : byte) : byte :=
  if Byte.eqb c "b" then x08 else if Byte.eqb c "f" then x0c else if Byte.eqb c "n" then x0a
  else if Byte.eqb c "r" then x0d else if Byte.eqb c "t" then x09 else if Byte.eqb c "v" then x0b
  else c.

(** The hexadecimal and octal escapes, which are rejected. *)
Definition escape_rejected (c : byte) : bool :=
  Byte.eqb c "x" || ((48 <=? bz c) && (bz c <=? 55)).

(** The loop of [chars] from [q]: the string read and the place of its end. *)
Fixpoint chars_go (terminalSet : list byte) (allowedSet : option (list byte)) (q : list byte)
    : status (list byte) :=
  match q with
  | [] => ParseError []
  | c :: r =>
      if jmatch c terminalSet then SOk [] q
      else if match allowedSet with Some a => negb (jmatch c a) | None => false end then SOk [] q
      else if bz c <=? 0x1F then ParseError []
      else if Byte.eqb c x5c then
        match r with
        | [] => ParseError []
        | d :: r1 =>
            if Byte.eqb d "u" then
              match r1 with
              | h1 :: h2 :: h3 :: h4 :: (_ :: _) as r2 =>
                  if isHexString [h1; h2; h3; h4] then
                    match fromHex h1 h2, fromHex h3 h4 with
                    | Ok first, Ok second =>
                        push (encodeUTF8 (bz first) (bz second)) (chars_go terminalSet allowedSet r2)
                    | Err e, _ | _, Err e => SThrow e
                    end
                  else ParseError []
              | _ => ParseError []
              end
            else if escape_rejected d then ParseError []
            else push [escape_letter d] (chars_go terminalSet allowedSet r1)
        end
      else push [c] (chars_go terminalSet allowedSet r)
  end.

(** A failure leaves the input where it was. *)
Definition chars (terminalSet : list byte) (allowedSet : option (list byte)) : parser (list byte) :=
  fun i =>
  match chars_go terminalSet allowedSet i with
  | ParseError _ => ParseError i
  | s => s
  end.

Definition quotedString : parser (list byte) :=
  b ← accept DOUBLEQUOTE true;
  if b : bool then
    result ← chars DOUBLEQUOTE None; expect DOUBLEQUOTE;; mret result
  else
    b ← accept SINGLEQUOTE true;
    if b : bool then
      result ← chars SINGLEQUOTE None; expect SINGLEQUOTE;; mret result
    else parseError.

Definition unquotedKey : parser (list byte) := fun i =>
  match skip_space i with
  | [] => ParseError []
  | c :: r =>
      if jmatch c (ALPHA ++ bstr "_$") then chars [] (Some (ALPHA ++ DIGIT ++ bstr "_$")) (c :: r)
      else ParseError (c :: r)
  end.

Definition field : parser (list byte) :=
  b1 ← accept DOUBLEQUOTE false;
  b2 ← (if b1 : bool then mret true else accept SINGLEQUOTE false);
  if b2 : bool then quotedString else unquotedKey.

(** A failure of [field] is no failure here, whatever input it leaves. *)
Definition acceptField (expectedField : list byte) : parser bool := fun i =>
  match field i with
  | SOk nextField i' => SOk (bytes_eqb expectedField nextField) i'
  | ParseError i' => SOk false i'
  | SThrow e => SThrow e
  end.

Definition expectField (name : list byte) : parser unit := b ← acceptField name; check b.

Definition regexPat : parser (list byte) := chars FORWARDSLASH None.
Definition regexOpt : parser (list byte) := chars [] (Some JOPTIONS).
Definition regexOptCheck (opt : list byte) : parser unit :=
  check (forallb (fun c => jmatch c JOPTIONS) opt).

(** ** Values that are not nested *)

(** A conversion of the C library at the input; no conversion or a value out
    of range is a parse error at the place the number was expected. *)
Definition scan (conv : list byte -> option converted) : parser Z := fun i =>
  match conv i with
  | Some c => if conv_erange c then ParseError i else SOk (conv_value c) (conv_rest c)
  | None => ParseError i
  end.

(** Milliseconds: signed, or unsigned when that is out of range. *)
Definition date_millis : parser Z := fun i =>
  match strtoll i with
  | Some c =>
      if conv_erange c then scan strtoull i else SOk (u64 (conv_value c)) (conv_rest c)
  | None => ParseError i
  end.

(** Seconds or the increment of a timestamp: [uint32_t x = strtoul(...)]. *)
Definition unsigned32 : parser Z :=
  minus ← accept (bstr "-") true; check (negb minus);; n ← scan strtoull; mret (u32 n).

Definition number (fieldName : list byte) (builder : BSONObjBuilder) : parser BSONObjBuilder := fun i =>
  match strtod i with
  | None => ParseError i
  | Some d =>
      if conv_erange d then ParseError i
      else
        let builder' :=
          match strtoll i with
          | Some l =>
              if (length (conv_rest d) <? length (conv_rest l))%nat || conv_erange l
              then append_double fieldName (conv_value d) builder
              else if conv_value l =? s32 (conv_value l)
              then append_int fieldName (s32 (conv_value l)) builder
              else append_longlong fieldName (conv_value l) builder
          | None => append_double fieldName (conv_value d) builder
          end in
        match builder' with
        | Err e => SThrow e
        | Ok b => match conv_rest d with [] => ParseError [] | r => SOk b r end
        end
  end.

Definition date (fieldName : list byte) (builder : BSONObjBuilder) : parser BSONObjBuilder :=
  expect LPAREN;; millis ← date_millis; expect RPAREN;; lift (appendDate fieldName millis builder).

(** A call whose status is ignored: the builder stays, the input is where an
    error left it. *)
Definition ignore_status (p : BSONObjBuilder -> parser BSONObjBuilder) (builder : BSONObjBuilder)
    : parser BSONObjBuilder := fun i =>
  match p builder i with ParseError i' => SOk builder i' | s => s end.

(** Only [new Date]; the status of [date] is ignored. *)
Definition constructor (fieldName : list byte) (builder : BSONObjBuilder) : parser BSONObjBuilder :=
  expect (bstr "Date");; ignore_status (date fieldName) builder.

Definition timestamp (fieldName : list byte) (builder : BSONObjBuilder) : parser BSONObjBuilder :=
  expect LPAREN;; seconds ← unsigned32; expect COMMA;; count ← unsigned32; expect RPAREN;;
  lift (appendTimestamp_inc fieldName (seconds * 1000) count builder).

(** Twenty-four hexadecimal digits. *)
Definition append_id (fieldName id : list byte) (builder : BSONObjBuilder) : parser BSONObjBuilder :=
  check (zlen id =? 24);; check (isHexString id);;
  oid ← lift (OID_init_string id); lift (append_OID fieldName oid builder).

Definition objectId (fieldName : list byte) (builder : BSONObjBuilder) : parser BSONObjBuilder :=
  expect LPAREN;; id ← quotedString; expect RPAREN;; append_id fieldName id builder.

Definition regex (fieldName : list byte) (builder : BSONObjBuilder) : parser BSONObjBuilder :=
  expect FORWARDSLASH;; pat ← regexPat; expect FORWARDSLASH;; opt ← regexOpt; regexOptCheck opt;;
  lift (appendRegex fieldName pat opt builder).

(** ** Special objects: after the brace and the first field *)

Definition objectIdObject (fieldName : list byte) (builder : BSONObjBuilder) : parser BSONObjBuilder :=
  expect COLON;; id ← quotedString; append_id fieldName id builder.

Definition binaryObject (fieldName : list byte) (builder : BSONObjBuilder) : parser BSONObjBuilder :=
  expect COLON;;
  binDataString ← quotedString;
  check (Z.rem (zlen binDataString) 4 =? 0);;
  check (isBase64String binDataString);;
  binData ← lift (b64_decode binDataString);
  expect COMMA;; expectField (bstr "$type");; expect COLON;;
  binDataType ← quotedString;
  check ((zlen binDataType =? 2) && isHexString binDataType);;
  t ← lift (match binDataType with c0 :: c1 :: _ => fromHex c0 c1 | _ => Err OutOfBounds end);
  lift (appendBinData fieldName (zlen binData) t (Ptr binData 0) builder).

Definition dateObject (fieldName : list byte) (builder : BSONObjBuilder) : parser BSONObjBuilder :=
  expect COLON;; millis ← date_millis; lift (appendDate fieldName millis builder).

Definition timestampObject (fieldName : list byte) (builder : BSONObjBuilder) : parser BSONObjBuilder :=
  expect COLON;; expect LBRACE;;
  expectField (bstr "t");; expect COLON;; seconds ← unsigned32; expect COMMA;;
  expectField (bstr "i");; expect COLON;; count ← unsigned32; expect RBRACE;;
  lift (appendTimestamp_inc fieldName (seconds * 1000) count builder).

Definition regexObject (fieldName : list byte) (builder : BSONObjBuilder) : parser BSONObjBuilder :=
  expect COLON;; pat ← quotedString; comma ← accept COMMA true;
  if comma : bool then
    expectField (bstr "$options");; expect COLON;; opt ← quotedString; regexOptCheck opt;;
    lift (appendRegex fieldName pat opt builder)
  else lift (appendRegex fieldName pat [] builder).

Definition undefinedObject (fieldName : list byte) (builder : BSONObjBuilder) : parser BSONObjBuilder :=
  expect COLON;; expect (bstr "true");; lift (appendUndefined fieldName builder).

(** ** Nested values *)

(** A sub-builder opened by [start], filled by [body] and finished by [fin]. *)
Definition sub_builder (start : BSONObjBuilder -> result BSONObjBuilder)
    (body : BSONObjBuilder -> parser BSONObjBuilder)
    (builder : BSONObjBuilder) : parser (BSONObjBuilder * BSONObjBuilder) :=
  parent ← lift (start builder);
  sub ← lift (BSONObjBuilder_on (_b parent));
  sub' ← body sub;
  mret (parent, sub').

(** [subBuilder.done()], which also makes the object. *)
Definition finish_done (p : BSONObjBuilder * BSONObjBuilder) : parser BSONObjBuilder :=
  r ← lift (done (snd p)); mret (set_b (fst p) (_b (snd r))).

(** The destructor of the sub-builder. *)
Definition finish_destroy (p : BSONObjBuilder * BSONObjBuilder) : parser BSONObjBuilder :=
  lift (sub_done (fst p) (snd p)).

Section nested.
Variable value : list byte -> BSONObjBuilder -> parser BSONObjBuilder.

Definition dbRefObject (fieldName : list byte) (builder : BSONObjBuilder) : parser BSONObjBuilder :=
  p ← sub_builder (subobjStart fieldName) (fun subBuilder =>
    expect COLON;; ns ← quotedString;
    subBuilder ← lift (append_string (bstr "$ref") ns subBuilder);
    expect COMMA;; expectField (bstr "$id");; expect COLON;;
    value (bstr "$id") subBuilder) builder;
  finish_done p.

Definition dbRef (fieldName : list byte) (builder : BSONObjBuilder) : parser BSONObjBuilder :=
  p ← sub_builder (subobjStart fieldName) (fun subBuilder =>
    expect LPAREN;; ns ← quotedString;
    subBuilder ← lift (append_string (bstr "$ref") ns subBuilder);
    expect COMMA;;
    subBuilder ← value (bstr "$id") subBuilder;
    expect RPAREN;; mret subBuilder) builder;
  finish_done p.

(** The members after the first, each after a comma. *)
Fixpoint members (fuel : nat) (objBuilder : BSONObjBuilder) : parser BSONObjBuilder :=
  match fuel with
  | O => lift (Err OutOfFuel)
  | S fuel' =>
      comma ← accept COMMA true;
      if comma : bool then
        fieldName ← field; expect COLON;;
        objBuilder' ← value fieldName objBuilder;
        members fuel' objBuilder'
      else mret objBuilder
  end.

(** A normal object from its first field on. *)
Definition normal_object (firstField : list byte) (objBuilder : BSONObjBuilder)
    : parser BSONObjBuilder :=
  expect COLON;;
  objBuilder' ← value firstField objBuilder;
  with_fuel (fun n => members n objBuilder').

Definition object (fieldName : list byte) (builder : BSONObjBuilder) (subObject : bool)
    : parser BSONObjBuilder :=
  expect LBRACE;;
  empty ← accept RBRACE true;
  if empty : bool then
    if subObject then
      p ← sub_builder (subobjStart fieldName) mret builder; finish_done p
    else mret builder
  else
    firstField ← field;
    let special (parse : list byte -> BSONObjBuilder -> parser BSONObjBuilder) :=
      check subObject;; parse fieldName builder in
    builder' ←
      (if bytes_eqb firstField (bstr "$oid") then special objectIdObject
       else if bytes_eqb firstField (bstr "$binary") then special binaryObject
       else if bytes_eqb firstField (bstr "$date") then special dateObject
       else if bytes_eqb firstField (bstr "$timestamp") then special timestampObject
       else if bytes_eqb firstField (bstr "$regex") then special regexObject
       else if bytes_eqb firstField (bstr "$ref") then special dbRefObject
       else if bytes_eqb firstField (bstr "$undefined") then special undefinedObject
       else if subObject then
         p ← sub_builder (subobjStart fieldName) (normal_object firstField) builder;
         finish_destroy p
       else normal_object firstField builder);
    expect RBRACE;; mret builder'.

(** The elements from [index] on; [index] is a [uint32_t], [numStr] takes an
    [int]. *)
Fixpoint elements (fuel : nat) (index : Z) (subBuilder : BSONObjBuilder) : parser BSONObjBuilder :=
  match fuel with
  | O => lift (Err OutOfFuel)
  | S fuel' =>
      subBuilder' ← value (numStr (s32 index)) subBuilder;
      comma ← accept COMMA true;
      if comma : bool then elements fuel' (u32 (index + 1)) subBuilder' else mret subBuilder'
  end.

Definition array (fieldName : list byte) (builder : BSONObjBuilder) : parser BSONObjBuilder :=
  expect LBRACKET;;
  p ← sub_builder (subarrayStart fieldName) (fun subBuilder =>
    empty ← accept RBRACKET false;
    if empty : bool then mret subBuilder
    else with_fuel (fun n => elements n 0 subBuilder)) builder;
  builder' ← finish_done p;
  expect RBRACKET;; mret builder'.

End nested.

(** The first alternative whose token is there. *)
Fixpoint first_accepted (alternatives : list (list byte * bool * parser BSONObjBuilder))
    (otherwise : parser BSONObjBuilder) : parser BSONObjBuilder :=
  match alternatives with
  | [] => otherwise
  | (token, advance, p) :: r =>
      b ← accept token advance; if b : bool then p else first_accepted r otherwise
  end.

Fixpoint value (fuel : nat) (fieldName : list byte) (builder : BSONObjBuilder) {struct fuel}
    : parser BSONObjBuilder :=
  match fuel with
  | O => lift (Err OutOfFuel)
  | S fuel' =>
      let valueString := s ← quotedString; lift (append_string fieldName s builder) in
      first_accepted [
        (LBRACE, false, object (value fuel') fieldName builder true);
        (LBRACKET, false, array (value fuel') fieldName builder);
        (bstr "new", true, constructor fieldName builder);
        (bstr "Date", true, date fieldName builder);
        (bstr "Timestamp", true, timestamp fieldName builder);
        (bstr "ObjectId", true, objectId fieldName builder);
        (bstr "Dbref", true, dbRef (value fuel') fieldName builder);
        (bstr "DBRef", true, dbRef (value fuel') fieldName builder);
        (FORWARDSLASH, false, regex fieldName builder);
        (DOUBLEQUOTE, false, valueString);
        (SINGLEQUOTE, false, valueString);
        (bstr "true", true, lift (append_bool fieldName true builder));
        (bstr "false", true, lift (append_bool fieldName false builder));
        (bstr "null", true, lift (appendNull fieldName builder));
        (bstr "undefined", true, lift (appendUndefined fieldName builder));
        (bstr "NaN", true, lift (append_double fieldName d_nan builder));
        (bstr "Infinity", true, lift (append_double fieldName d_inf builder));
        (bstr "-Infinity", true, lift (append_double fieldName d_ninf builder))]
        (number fieldName builder)
  end.

(** ** The entry point *)

(** [fromjson(jsonString, len)]: the object and the length of the text read;
    what follows the object is not looked at. *)
Definition fromjson (jsonString : list byte) : result (BSONObj * Z) :=
  match jsonString with
  | [] => Ok (BSONObj_empty, 0)
  | _ =>
      let* builder := BSONObjBuilder_new 512 in
      match object (value (length jsonString)) (bstr "UNUSED") builder false jsonString with
      | SOk builder' rest_ =>
          let* o := obj builder' in
          Ok (o, zlen jsonString - zlen rest_)
      | ParseError _ => Err (MsgAssert 16619)
      | SThrow e => Err e
      end
  end.

End JParse.
