(* ===== verification/JsonPrint.v ===== *)
(** * JsonPrint: the printer of extended JSON
    ([BSONElement::jsonString], [BSONObj::jsonString] of db/jsobj.cpp, [escape]
    of bson/bson-inl.h, [_asCode] of bson/bson_db.h)

    The printer with [pretty] zero, as every call of the extension has it.  A
    [StringBuilder] is a [BufBuilder], with its limit; a [stringstream] is the
    bytes written.  The recursion is on the nesting of the elements. *)

From stdpp Require Import base list numbers strings option tactics.
From Stdlib Require Import Strings.Byte ZArith Lia Floats.SpecFloat.
From S2P Require Import Prelude Memory Decimal Codec Double Printf CNumber BsonTypes Format.
From S2P Require Import Element Obj Access Builder.

(** [JsonStringFormat] of bson/oid.h. *)
Inductive JsonStringFormat := Strict | TenGen | JS.
#[export] Instance JsonStringFormat_eq_dec : EqDecision JsonStringFormat.
Proof. solve_decision. Defined.

(** ** Strings *)

Definition quote : list byte := [x22].

(** What [escape] writes for one character. *)
Definition escape_char (escape_slash : bool) (c : byte) : BufBuilder -> result BufBuilder :=
  if Byte.eqb c x22 then bb_append [x5c; x22]
  else if Byte.eqb c x5c then bb_append [x5c; x5c]
  else if Byte.eqb c "/" then bb_append (if escape_slash then [x5c; "/"%byte] else bstr "/")
  else if Byte.eqb c x08 then bb_append [x5c; "b"%byte]
  else if Byte.eqb c x0c then bb_append [x5c; "f"%byte]
  else if Byte.eqb c x0a then bb_append [x5c; "n"%byte]
  else if Byte.eqb c x0d then bb_append [x5c; "r"%byte]
  else if Byte.eqb c x09 then bb_append [x5c; "t"%byte]
  else if (0 <=? sc c) && (sc c <=? 0x1f) then
    bb_append (x5c :: bstr "u00") ;> bb_append (toHexLower [c])
  else bb_append [c].

Fixpoint escape_go (escape_slash : bool) (s : list byte) (ret : BufBuilder) : result BufBuilder :=
  match s with
  | [] => Ok ret
  | c :: r => let* ret' := escape_char escape_slash c ret in escape_go escape_slash r ret'
  end.

Definition escape (s : list byte) (escape_slash : bool) : result (list byte) :=
  let* ret := escape_go escape_slash s (BufBuilder_new 512) in Ok (buf ret).

(** [_asCode()]. *)
Definition _asCode (e : BSONElement) : result (list byte) :=
  let* t := type e in
  match t with
  | BSONString | Code =>
      let* p := valuestr e in
      let* n := valuestrsize e in
      std_string p (n - 1)
  | CodeWScope =>
      let* p := codeWScopeCode e in
      let* v := valuestr e in
      let* n := load_s32 v in
      std_string p (n - 1)
  | _ => Err (UserAssert 10062)
  end.

(** ** Numbers *)

(** [isNaN] and [isInf] of platform/float_utils.h. *)
Definition isNaN (d : Z) : bool := negb (d_eqb d d).
Definition isInf (d : Z) : bool * Z :=
  if d_eqb d d && negb (SFeqb (SFsub 53 1024 (d_spec d) (d_spec d)) (S754_zero false))
  then (true, if d_ltb d d_zero then -1 else 1)
  else (false, 0).

(** A [NumberInt] or a [NumberDouble], through [number()], with sixteen
    digits. *)
Definition json_number (d : Z) : result (list byte) :=
  if d_leb (d_opp d_max) d && d_leb d d_max then Ok (format_double 16 d)
  else if isNaN d then Ok (bstr "NaN")
  else if fst (isInf d) then Ok (if snd (isInf d) =? 1 then bstr "Infinity" else bstr "-Infinity")
  else Err (MsgAssert 10311).

(** [strtol] of a name. *)
Definition name_index (name : list byte) : Z :=
  match strtoll name with Some c => conv_value c | None => 0 end.

(** The flags the formats other than [Strict] keep. *)
Definition shell_flags (flags : list byte) : list byte :=
  filter (fun c => Byte.eqb c "g" || Byte.eqb c "i" || Byte.eqb c "m") flags.

(** ** Elements and objects *)

Section printer.
Variable element_json : JsonStringFormat -> bool -> BSONElement -> result (list byte).

(** The loop of [BSONObj::jsonString]: [e] is the element to print. *)
Fixpoint object_loop (fmt : JsonStringFormat) (fuel : nat) (i : BSONObjIterator) (e : BSONElement)
    (s : BufBuilder) : result BufBuilder :=
  match fuel with
  | O => Err OutOfFuel
  | S fuel' =>
      let* text := element_json fmt true e in
      let* s1 := bb_append text s in
      let* '(e', i') := next i in
      let* last := eoo e' in
      if last then Ok s1
      else
        let* s2 := (bb_append (bstr ",") ;> bb_append (bstr " ")) s1 in
        object_loop fmt fuel' i' e' s2
  end.

Definition object_json (fmt : JsonStringFormat) (o : BSONObj) : result (list byte) :=
  let* empty := isEmpty o in
  if empty then Ok (bstr "{}")
  else
    let* s := bb_append (bstr "{ ") (BufBuilder_new 512) in
    let* i := BSONObjIterator_of o in
    let* '(e, i') := next i in
    let* none := eoo e in
    let* s1 := if none then Ok s else object_loop fmt (fuel_of o) i' e s in
    let* s2 := bb_append (bstr " }") s1 in
    Ok (buf s2).

(** The loop over an array: [count] is the index that comes next, an [int].
    As long as the name of [e] is a larger number the loop writes undefined
    and counts on; those turns are taken together. *)
Fixpoint array_loop (fmt : JsonStringFormat) (fuel : nat) (i : BSONObjIterator) (e : BSONElement)
    (count : Z) : result (list byte) :=
  match fuel with
  | O => Err OutOfFuel
  | S fuel' =>
      let* p := fieldName e in
      let* name := cstr p in
      let index := Z.max count (name_index name) in
      if in_s 32 (index + 1) then
        let holes := concat (repeat (bstr "undefined, ") (Z.to_nat (index - count))) in
        let* text := element_json fmt false e in
        let* '(e', i') := next i in
        let* last := eoo e' in
        if last then Ok (holes ++ text)
        else
          let* r := array_loop fmt fuel' i' e' (index + 1) in
          Ok (holes ++ text ++ bstr ", " ++ r)
      else Err UndefinedBehaviour
  end.

Definition array_json (fmt : JsonStringFormat) (o : BSONObj) : result (list byte) :=
  let* empty := isEmpty o in
  if empty then Ok (bstr "[]")
  else
    let* i := BSONObjIterator_of o in
    let* '(e, i') := next i in
    let* none := eoo e in
    let* body := if none then Ok [] else array_loop fmt (fuel_of o) i' e 0 in
    Ok (bstr "[ " ++ body ++ bstr " ]").

Definition is_strict (fmt : JsonStringFormat) : bool := bool_decide (fmt = Strict).
Definition is_tengen (fmt : JsonStringFormat) : bool := bool_decide (fmt = TenGen).

Definition dbref_json (fmt : JsonStringFormat) (ns oid : list byte) : list byte :=
  (if is_tengen fmt then bstr "Dbref( " else bstr "{ " ++ quote ++ bstr "$ref" ++ quote ++ bstr " : ") ++
  quote ++ ns ++ quote ++ bstr ", " ++
  (if is_tengen fmt then [] else quote ++ bstr "$id" ++ quote ++ bstr " : ") ++
  quote ++ OID_str oid ++ quote ++ bstr " " ++ (if is_tengen fmt then bstr ")" else bstr "}").

Definition oid_json (fmt : JsonStringFormat) (oid : list byte) : list byte :=
  (if is_tengen fmt then bstr "ObjectId( " else bstr "{ " ++ quote ++ bstr "$oid" ++ quote ++ bstr " : ") ++
  quote ++ OID_str oid ++ quote ++ (if is_tengen fmt then bstr " )" else bstr " }").

Definition binary_json (subtype : byte) (bs : list byte) : list byte :=
  bstr "{ " ++ quote ++ bstr "$binary" ++ quote ++ bstr " : " ++ quote ++ b64_encode bs ++
  quote ++ bstr ", " ++ quote ++ bstr "$type" ++ quote ++ bstr " : " ++ quote ++
  toHexLower [subtype] ++ quote ++ bstr " }".

Definition date_json (fmt : JsonStringFormat) (millis : Z) : list byte :=
  (if is_strict fmt then bstr "{ " ++ quote ++ bstr "$date" ++ quote ++ bstr " : " else bstr "Date( ") ++
  dec (s64 millis) ++ (if is_strict fmt then bstr " }" else bstr " )").

(** The pattern is escaped already. *)
Definition regex_json (fmt : JsonStringFormat) (pat flags : list byte) : list byte :=
  if is_strict fmt then
    bstr "{ " ++ quote ++ bstr "$regex" ++ quote ++ bstr " : " ++ quote ++ pat ++ quote ++
    bstr ", " ++ quote ++ bstr "$options" ++ quote ++ bstr " : " ++ quote ++ flags ++ quote ++ bstr " }"
  else bstr "/" ++ pat ++ bstr "/" ++ shell_flags flags.

Definition scope_json (code scope : list byte) : list byte :=
  bstr "{ " ++ quote ++ bstr "$code" ++ quote ++ bstr " : " ++ code ++ bstr " ,  " ++
  quote ++ bstr "$scope" ++ quote ++ bstr " : " ++ scope ++ bstr " }".

Definition timestamp_json (fmt : JsonStringFormat) (seconds inc : Z) : list byte :=
  if is_tengen fmt then bstr "Timestamp( " ++ dec seconds ++ bstr ", " ++ dec inc ++ bstr " )"
  else bstr "{ " ++ quote ++ bstr "$timestamp" ++ quote ++ bstr " : { " ++ quote ++ bstr "t" ++ quote ++
    bstr " : " ++ dec seconds ++ bstr ", " ++ quote ++ bstr "i" ++ quote ++ bstr " : " ++ dec inc ++
    bstr " } }".

Definition undefined_json (fmt : JsonStringFormat) : list byte :=
  if is_strict fmt then bstr "{ " ++ quote ++ bstr "$undefined" ++ quote ++ bstr " : true }"
  else bstr "undefined".

Definition key_json (name : bool) : list byte :=
  bstr "{ " ++ quote ++ (if name then bstr "$minKey" else bstr "$maxKey") ++ quote ++ bstr " : 1 }".

(** The value of an element of type [t]. *)
Definition value_json (fmt : JsonStringFormat) (t : BSONType) (e : BSONElement) : result (list byte) :=
  match t with
  | BSONString | Symbol =>
      let* p := valuestr e in
      let* n := valuestrsize e in
      let* s := std_string p (n - 1) in
      let* text := escape s false in
      Ok (quote ++ text ++ quote)
  | NumberLong => let* n := _numberLong e in Ok (dec n)
  | NumberInt | NumberDouble => let* d := number e in json_number d
  | BSONBool => let* b := boolean e in Ok (if b then bstr "true" else bstr "false")
  | jstNULL => Ok (bstr "null")
  | Undefined => Ok (undefined_json fmt)
  | Object => let* o := embeddedObject e in object_json fmt o
  | Array => let* o := embeddedObject e in array_json fmt o
  | DBRef =>
      let* p := valuestr e in
      let* n := valuestrsize e in
      let* ns := cstr p in
      let* oid := loads (p +! n) 12 in
      Ok (dbref_json fmt ns oid)
  | jstOID => let* oid := __oid e in Ok (oid_json fmt oid)
  | BinData =>
      let* p := value_ptr e in
      let* n := load_s32 p in
      let* u := load (p +! 4) in
      let* bs := if n <? 0 then Ok [] else loads (p +! 5) n in
      Ok (binary_json u bs)
  | Date => let* d := date e in Ok (date_json fmt d)
  | RegEx =>
      let* p := regex e in
      let* pat := cstr p in
      let* text := escape pat (negb (is_strict fmt)) in
      let* q := regexFlags e in
      let* flags := cstr q in
      Ok (regex_json fmt text flags)
  | CodeWScope =>
      let* scope := codeWScopeObject e in
      let* empty := isEmpty scope in
      let* code := _asCode e in
      if empty then Ok code
      else let* s := object_json Strict scope in Ok (scope_json code s)
  | Code => _asCode e
  | Timestamp =>
      let* t := timestampTime e in
      let* i := timestampInc e in
      Ok (timestamp_json fmt (t / 1000) i)
  | MinKey => Ok (key_json true)
  | MaxKey => Ok (key_json false)
  | EOO | InvalidType _ => Err (MsgAssert 10312)
  end.

Definition element_json_with (fmt : JsonStringFormat) (includeFieldNames : bool) (e : BSONElement)
    : result (list byte) :=
  let* label :=
    if includeFieldNames then
      let* p := fieldName e in
      let* name := cstr p in
      let* text := escape name false in
      Ok (quote ++ text ++ quote ++ bstr " : ")
    else Ok [] in
  let* t := type e in
  let* text := value_json fmt t e in
  Ok (label ++ text).
End printer.

Fixpoint elem_jsonString (depth : nat) : JsonStringFormat -> bool -> BSONElement -> result (list byte) :=
  match depth with
  | O => fun _ _ _ => Err OutOfFuel
  | S depth' => element_json_with (elem_jsonString depth')
  end.

Definition jsonString (fmt : JsonStringFormat) (o : BSONObj) : result (list byte) :=
  object_json (elem_jsonString (fuel_of o)) fmt o.
