(* ===== verification/JsonText.v ===== *)
(** * JsonText: the text of a document

    [json_value] and [json_doc] are the text of a value and of a document in
    each format, by recursion on the document.  The byte-level printer writes
    exactly that text, unless it is longer than a [StringBuilder] can hold
    (BufferMaxSize) or an array has a name that is not an [int]. *)

From stdpp Require Import base list numbers strings option tactics.
From Stdlib Require Import Strings.Byte ZArith Lia Floats.SpecFloat.
From S2P Require Import Prelude Memory Decimal Codec Double Printf CNumber BsonTypes Format.
From S2P Require Import Element Obj Access Compare Builder Storage JsonPrint.

(** ** The text *)

Definition escaped (slash : bool) (c : byte) : list byte :=
  if Byte.eqb c x22 then [x5c; x22]
  else if Byte.eqb c x5c then [x5c; x5c]
  else if Byte.eqb c "/" then if slash then [x5c; "/"%byte] else bstr "/"
  else if Byte.eqb c x08 then [x5c; "b"%byte]
  else if Byte.eqb c x0c then [x5c; "f"%byte]
  else if Byte.eqb c x0a then [x5c; "n"%byte]
  else if Byte.eqb c x0d then [x5c; "r"%byte]
  else if Byte.eqb c x09 then [x5c; "t"%byte]
  else if bz c <=? 0x1f then (x5c :: bstr "u00") ++ toHexLower [c]
  else [c].

Definition escape_text (slash : bool) (s : list byte) : list byte := flat_map (escaped slash) s.
Definition quoted (s : list byte) : list byte := quote ++ escape_text false s ++ quote.

Definition number_text (d : Z) : list byte := match json_number d with Ok s => s | Err _ => [] end.

(** The elements undefined before an element whose name is past its place. *)
Definition holes (count : Z) (name : list byte) : list byte :=
  concat (repeat (bstr "undefined, ") (Z.to_nat (Z.max count (name_index name) - count))).

(** Texts separated by a comma. *)
Definition comma_sep : list (list byte) -> list byte :=
  fix go l := match l with
  | [] => []
  | [x] => x
  | x :: r => x ++ bstr ", " ++ go r
  end.

Fixpoint json_value (fmt : JsonStringFormat) (v : value) {struct v} : list byte :=
  let members (fmt : JsonStringFormat) :=
    map (fun f : field => quoted (fst f) ++ bstr " : " ++ json_value fmt (snd f)) in
  let items := fix go (count : Z) (d : doc) : list (list byte) :=
    match d with
    | [] => []
    | f :: r => (holes count (fst f) ++ json_value fmt (snd f)) ::
                go (Z.max count (name_index (fst f)) + 1) r
    end in
  let object (fmt : JsonStringFormat) (d : doc) :=
    match d with [] => bstr "{}" | _ => bstr "{ " ++ comma_sep (members fmt d) ++ bstr " }" end in
  match v with
  | VMinKey => key_json true
  | VMaxKey => key_json false
  | VUndefined => undefined_json fmt
  | VNull => bstr "null"
  | VDouble d => number_text d
  | VString s | VSymbol s => quoted s
  | VCode s => s
  | VObject d => object fmt d
  | VArray d =>
      match d with [] => bstr "[]" | _ => bstr "[ " ++ comma_sep (items 0 d) ++ bstr " ]" end
  | VBinData u x => binary_json u x
  | VOID o => oid_json fmt o
  | VBool b => if b then bstr "true" else bstr "false"
  | VDate m => date_json fmt m
  | VTimestamp t => timestamp_json fmt (t / 2 ^ 32) (t mod 2 ^ 32)
  | VRegEx p o => regex_json fmt (escape_text (negb (is_strict fmt)) p) o
  | VDBRef ns o => dbref_json fmt (c_str ns) o
  | VCodeWScope c d => match d with [] => c | _ => scope_json c (object Strict d) end
  | VInt n => number_text (d_of_Z n)
  | VLong n => dec n
  end.

Definition json_member (fmt : JsonStringFormat) (f : field) : list byte :=
  quoted (fst f) ++ bstr " : " ++ json_value fmt (snd f).
Definition json_items (fmt : JsonStringFormat) : Z -> doc -> list (list byte) :=
  fix go (count : Z) (d : doc) : list (list byte) :=
    match d with
    | [] => []
    | f :: r => (holes count (fst f) ++ json_value fmt (snd f)) ::
                go (Z.max count (name_index (fst f)) + 1) r
    end.

Definition json_doc (fmt : JsonStringFormat) (d : doc) : list byte :=
  match d with [] => bstr "{}" | _ => bstr "{ " ++ comma_sep (map (json_member fmt) d) ++ bstr " }" end.
Definition json_array (fmt : JsonStringFormat) (d : doc) : list byte :=
  match d with [] => bstr "[]" | _ => bstr "[ " ++ comma_sep (json_items fmt 0 d) ++ bstr " ]" end.

(** Every array's names leave the count an [int]. *)
Fixpoint counted (count : Z) (d : doc) : bool :=
  match d with
  | [] => true
  | f :: r => let index := Z.max count (name_index (fst f)) in
              in_s 32 (index + 1) && counted (index + 1) r
  end.
Fixpoint printable (v : value) : bool :=
  match v with
  | VObject d | VCodeWScope _ d => forallb (fun f : field => printable (snd f)) d
  | VArray d => forallb (fun f : field => printable (snd f)) d && counted 0 d
  | _ => true
  end.
Definition printable_doc (d : doc) : bool := forallb (fun f : field => printable (snd f)) d.

Lemma json_value_object fmt d : json_value fmt (VObject d) = json_doc fmt d.
Proof. by destruct d. Qed.
Lemma json_value_scope fmt c d :
  json_value fmt (VCodeWScope c d) = match d with [] => c | _ => scope_json c (json_doc Strict d) end.
Proof. by destruct d. Qed.
Lemma json_value_array fmt d : json_value fmt (VArray d) = json_array fmt d.
Proof. by destruct d. Qed.

(** ** Strings and numbers *)

Lemma sc_control c : (0 <=? sc c) && (sc c <=? 0x1f) = (bz c <=? 0x1f).
Proof.
  assert (Bool.eqb ((0 <=? sc c) && (sc c <=? 0x1f)) (bz c <=? 0x1f) = true) as H
    by (revert c; apply for_all_bytes; by vm_compute).
  by apply eqb_prop.
Qed.

Lemma escape_char_writes slash c : writes (escape_char slash c) (escaped slash c).
Proof.
  unfold escape_char, escaped. rewrite sc_control.
  repeat match goal with |- context [if ?b then _ else _] => destruct b end;
    try apply writes_append.
  apply writes_seq; apply writes_append.
Qed.

Lemma escape_go_writes slash s : writes (escape_go slash s) (escape_text slash s).
Proof.
  induction s as [|c s IH].
  - intros b Hb _. exists b. split; [done|]. split; [by rewrite app_nil_r|done].
  - exact (writes_seq _ _ _ _ (escape_char_writes slash c) IH).
Qed.

Lemma new_buffer_ok : buf_ok (BufBuilder_new 512) /\ len (BufBuilder_new 512) = 0.
Proof. by vm_compute. Qed.

Lemma escape_rep slash s : zlen (escape_text slash s) <= BufferMaxSize ->
  escape s slash = Ok (escape_text slash s).
Proof.
  intros Hs. destruct new_buffer_ok as [Hb Hl]. unfold escape.
  destruct (escape_go_writes slash s _ Hb) as (b' & -> & Eb & _); [unfold fits; lia|].
  cbn [bind]. by rewrite Eb.
Qed.

(** The printing of a number never fails. *)
Lemma json_number_total d : in_u 64 d = true -> json_number d = Ok (number_text d).
Proof.
  intros Hd. unfold number_text. cut (exists s, json_number d = Ok s); [by intros [s ->]|].
  unfold json_number. destruct (d_leb (d_opp d_max) d && d_leb d d_max) eqn:Hf; [by eexists|].
  unfold isNaN. rewrite d_eqb_key by done.
  destruct (d_isnan d) eqn:Hn; [by eexists|]. cbn [negb andb]. rewrite Z.eqb_refl. cbn [negb].
  cut (fst (isInf d) = true); [intros ->; by eexists|].
  assert (forall a b, in_u 64 a = true -> in_u 64 b = true -> d_isnan a = false -> d_isnan b = false ->
    d_leb a b = (d_key a <=? d_key b)) as Hle.
  { intros a b Ha Hb Na Nb. unfold d_leb, SFleb. rewrite d_compare_key by done. unfold Z.leb.
    by destruct (_ ?= _). }
  rewrite !Hle in Hf by done. change (d_key (d_opp d_max)) with (- (2047 * 2 ^ 52 - 1)) in Hf.
  change (d_key d_max) with (2047 * 2 ^ 52 - 1) in Hf.
  assert (d_spec d = S754_infinity (d_sign d)) as Hi.
  { destruct (d_spec_cases d Hd) as [[? _]|[(_ & -> & _)|[(_ & _ & Hm)|(_ & Hm & _)]]];
      [congruence|done|exfalso..]; unfold d_key in Hf; destruct (d_sign d); lia. }
  unfold isInf. rewrite d_eqb_key, Hn, Z.eqb_refl, Hi by done. by destruct (d_sign d).
Qed.

Lemma number_text_int n : in_s 32 n = true -> number_text (d_of_Z n) = dec n.
Proof.
  intros Hn%in_s_spec. change (2 ^ (32 - 1)) with 2147483648 in Hn.
  assert (Z.abs n < 2 ^ 53) as H53 by lia.
  destruct (d_of_Z_key n H53) as (Hu & Hnan & Hk).
  unfold number_text, json_number.
  assert (d_leb (d_opp d_max) (d_of_Z n) && d_leb (d_of_Z n) d_max = true) as ->.
  { unfold d_leb, SFleb. rewrite !d_compare_key by done. rewrite Hk.
    change (d_key (d_opp d_max)) with (- (2047 * 2 ^ 52 - 1)).
    change (d_key d_max) with (2047 * 2 ^ 52 - 1).
    destruct (Z.eqb_spec n 0); [done|].
    pose proof (int_mag_range (Z.abs n) ltac:(lia)).
    rewrite andb_true_iff, <- !Z.leb_compare, !Z.leb_le.
    destruct (Z.ltb_spec n 0); [rewrite (Z.abs_neq n) in * by lia|rewrite (Z.abs_eq n) in * by lia]; lia. }
  destruct (Z.eq_dec n 0) as [->|Hz]; [by vm_compute|]. apply format_double_int; lia.
Qed.

(** ** The printer writes the text *)

Lemma comma_sep_cons x y r : comma_sep (x :: y :: r) = x ++ bstr ", " ++ comma_sep (y :: r).
Proof. done. Qed.

Lemma comma_sep_in x l : In x l -> zlen x <= zlen (comma_sep l).
Proof.
  induction l as [|y l IH]; [done|]. intros [->|Hin].
  - destruct l as [|z l]; [done|]. rewrite comma_sep_cons, !zlen_app.
    pose proof (zlen_nonneg (comma_sep (z :: l))). change (zlen (bstr ", ")) with 2. lia.
  - destruct l as [|z l]; [done|]. rewrite comma_sep_cons, !zlen_app. specialize (IH Hin).
    pose proof (zlen_nonneg y). change (zlen (bstr ", ")) with 2. lia.
Qed.

(** The element after [d]'s first ones: the next field or the end. *)
Lemma next_or_end i d : it_rep i d -> exists e' i', next i = Ok (e', i') /\
  match d with
  | [] => eoo e' = Ok true
  | g :: d' => eoo e' = Ok false /\ elem_ok e' (fst g) (snd g) /\ it_rep i' d'
  end.
Proof.
  destruct d as [|g d]; intros Hi.
  - apply next_rep_end in Hi as (_ & _ & Hn & He). eexists _, _. split; [exact Hn|].
    by apply eoo_rep_true.
  - apply next_rep in Hi as (_ & Hn & Hok & Hi). eexists _, _. split; [exact Hn|].
    split; [by apply (eoo_rep_false _ _ _ Hok)|done].
Qed.

Lemma json_items_cons fmt count f g d : comma_sep (json_items fmt count (f :: g :: d)) =
  (holes count (fst f) ++ json_value fmt (snd f)) ++ bstr ", " ++
  comma_sep (json_items fmt (Z.max count (name_index (fst f)) + 1) (g :: d)).
Proof. done. Qed.

Section refinement.
Context (rec : JsonStringFormat -> bool -> BSONElement -> result (list byte)).

(** [rec] prints the values of the fields [d], with or without the name. *)
Definition prints_members (fmt : JsonStringFormat) (d : doc) : Prop := forall f e, In f d ->
  elem_ok e (fst f) (snd f) -> zlen (json_member fmt f) <= BufferMaxSize ->
  rec fmt true e = Ok (json_member fmt f).
Definition prints_values (fmt : JsonStringFormat) (d : doc) : Prop := forall f e, In f d ->
  elem_ok e (fst f) (snd f) -> zlen (json_value fmt (snd f)) <= BufferMaxSize ->
  rec fmt false e = Ok (json_value fmt (snd f)).

Lemma object_loop_rep fmt d : forall f fuel i e s,
  it_rep i d -> elem_ok e (fst f) (snd f) -> prints_members fmt (f :: d) ->
  (length d < fuel)%nat -> buf_ok s -> fits s (zlen (comma_sep (map (json_member fmt) (f :: d)))) ->
  exists s', object_loop rec fmt fuel i e s = Ok s' /\
    buf s' = buf s ++ comma_sep (map (json_member fmt) (f :: d)) /\ buf_ok s'.
Proof.
  induction d as [|g d IH]; intros f [|fuel] i e s Hi He Hrec Hf Hs Hfit; simpl in Hf; try lia;
    cbn [object_loop]; pose proof (zlen_nonneg (buf s)) as Hb0; unfold fits, len in Hfit.
  - cbn [map comma_sep] in *. rewrite (Hrec f e) by (done || (by left) || lia). cbn [bind].
    destruct (bb_append_ok (json_member fmt f) s Hs) as (s1 & -> & E1 & H1); [done|]. cbn [bind].
    destruct (next_or_end i [] Hi) as (e' & i' & -> & He'). cbn [bind]. rewrite He'. cbn [bind].
    by exists s1.
  - cbn [map] in *. rewrite comma_sep_cons, !zlen_app in Hfit. change (zlen (bstr ", ")) with 2 in Hfit.
    pose proof (zlen_nonneg (comma_sep (json_member fmt g :: map (json_member fmt) d))).
    pose proof (zlen_nonneg (json_member fmt f)).
    rewrite (Hrec f e) by (done || (by left) || lia). cbn [bind].
    destruct (bb_append_ok (json_member fmt f) s Hs) as (s1 & -> & E1 & H1); [unfold fits, len; lia|].
    cbn [bind].
    destruct (next_or_end i (g :: d) Hi) as (e' & i' & -> & Hend & Hg & Hi'). cbn [bind].
    rewrite Hend. cbn [bind].
    destruct (writes_seq _ _ _ _ (writes_append (bstr ",")) (writes_append (bstr " ")) s1 H1)
      as (s2 & -> & E2 & H2).
    { unfold fits, len. rewrite E1, zlen_app. change (zlen (bstr "," ++ bstr " ")) with 2. lia. }
    cbn [bind]. destruct (IH g fuel i' e' s2 Hi' Hg) as (s3 & -> & E3 & H3); [|lia|done| |].
    + intros h e0 Hh. apply Hrec. by right.
    + unfold fits, len. rewrite E2, E1, !zlen_app. change (zlen (bstr ",")) with 1.
      change (zlen (bstr " ")) with 1. cbn [map]. lia.
    + exists s3. split; [done|]. split; [|done]. rewrite E3, E2, E1, <- !app_assoc. done.
Qed.

Lemma object_json_rep fmt o d : obj_rep o d -> prints_members fmt d ->
  zlen (json_doc fmt d) <= BufferMaxSize -> object_json rec fmt o = Ok (json_doc fmt d).
Proof.
  intros Ho Hrec Hz. unfold object_json. rewrite (isEmpty_rep _ _ Ho). cbn [bind].
  destruct d as [|f d]; [done|]. rewrite bool_decide_eq_false_2 by done.
  unfold json_doc in *. rewrite !zlen_app in Hz. change (zlen (bstr "{ ")) with 2 in Hz.
  change (zlen (bstr " }")) with 2 in Hz. destruct new_buffer_ok as [Hb Hl].
  destruct (bb_append_ok (bstr "{ ") _ Hb) as (s & -> & Es & Hs).
  { unfold fits. rewrite Hl. by vm_compute. }
  cbn [bind]. destruct (iterator_rep _ _ Ho) as (i & -> & Hi & _). cbn [bind].
  destruct (next_or_end i _ Hi) as (e & i' & -> & Hend & He & Hi'). cbn [bind]. rewrite Hend. cbn [bind].
  assert (len s = 2) as Hls by (unfold len; by rewrite Es).
  pose proof (fuel_enough _ _ Ho) as Hfuel. cbn [length] in Hfuel.
  destruct (object_loop_rep fmt d f (fuel_of o) i' e s Hi' He Hrec) as (s1 & -> & E1 & H1);
    [lia|done|unfold fits; lia|]. cbn [bind].
  destruct (bb_append_ok (bstr " }") s1 H1) as (s2 & -> & E2 & _).
  { unfold fits, len in *. rewrite E1, zlen_app. change (zlen (bstr " }")) with 2. lia. }
  cbn [bind]. by rewrite E2, E1, Es, <- !app_assoc.
Qed.

Lemma array_loop_rep fmt d : forall f fuel i e count,
  it_rep i d -> elem_ok e (fst f) (snd f) -> prints_values fmt (f :: d) ->
  (length d < fuel)%nat -> counted count (f :: d) = true ->
  zlen (comma_sep (json_items fmt count (f :: d))) <= BufferMaxSize ->
  array_loop rec fmt fuel i e count = Ok (comma_sep (json_items fmt count (f :: d))).
Proof.
  induction d as [|g d IH]; intros f [|fuel] i e count Hi He Hrec Hf Hc Hz; simpl in Hf; try lia;
    cbn [array_loop]; rewrite (fieldName_rep _ _ _ He); cbn [bind];
    rewrite (fieldName_cstr _ _ _ He); cbn [bind counted] in *;
    apply andb_prop in Hc as [-> Hc].
  - cbn [json_items comma_sep] in *. rewrite zlen_app in Hz.
    pose proof (zlen_nonneg (holes count (fst f))).
    rewrite (Hrec f e) by (done || (by left) || lia). cbn [bind].
    destruct (next_or_end i [] Hi) as (e' & i' & -> & He'). cbn [bind]. by rewrite He'.
  - rewrite json_items_cons in *. rewrite !zlen_app in Hz. change (zlen (bstr ", ")) with 2 in Hz.
    pose proof (zlen_nonneg (holes count (fst f))). pose proof (zlen_nonneg (json_value fmt (snd f))).
    pose proof (zlen_nonneg (comma_sep (json_items fmt (Z.max count (name_index (fst f)) + 1) (g :: d)))).
    rewrite (Hrec f e) by (done || (by left) || lia). cbn [bind].
    destruct (next_or_end i (g :: d) Hi) as (e' & i' & -> & Hend & Hg & Hi'). cbn [bind].
    rewrite Hend. cbn [bind]. rewrite (IH g fuel i' e') by (try done; try lia; intros h e0 Hh; apply Hrec; by right).
    cbn [bind]. unfold holes. by rewrite <- app_assoc.
Qed.

Lemma array_json_rep fmt o d : obj_rep o d -> prints_values fmt d -> counted 0 d = true ->
  zlen (json_array fmt d) <= BufferMaxSize -> array_json rec fmt o = Ok (json_array fmt d).
Proof.
  intros Ho Hrec Hc Hz. unfold array_json. rewrite (isEmpty_rep _ _ Ho). cbn [bind].
  destruct d as [|f d]; [done|]. rewrite bool_decide_eq_false_2 by done.
  unfold json_array in *. rewrite !zlen_app in Hz. change (zlen (bstr "[ ")) with 2 in Hz.
  change (zlen (bstr " ]")) with 2 in Hz. destruct (iterator_rep _ _ Ho) as (i & -> & Hi & _). cbn [bind].
  destruct (next_or_end i _ Hi) as (e & i' & -> & Hend & He & Hi'). cbn [bind]. rewrite Hend. cbn [bind].
  pose proof (fuel_enough _ _ Ho) as Hfuel. cbn [length] in Hfuel.
  by rewrite (array_loop_rep fmt d f) by (done || lia).
Qed.
End refinement.

(** ** Values *)

Lemma string_json {A} e n v s (K : list byte -> result A) :
  elem_ok e n v -> str_payload v = Some s ->
  (let* p := valuestr e in let* k := valuestrsize e in let* t := std_string p (k - 1) in K t) = K s.
Proof.
  intros Hok Hs. rewrite (valuestr_rep _ _ _ Hok). cbn [bind].
  rewrite (valuestrsize_rep _ _ _ Hok _ Hs). cbn [bind].
  by rewrite (str_contents_rep _ _ _ Hok _ Hs).
Qed.

Lemma dbref_json_rep {A} e n ns o (K : list byte -> list byte -> result A) :
  elem_ok e n (VDBRef ns o) ->
  (let* p := valuestr e in let* k := valuestrsize e in let* s := cstr p in
   let* oid := loads (p +! k) 12 in K s oid) = K (c_str ns) o.
Proof.
  intros Hok. rewrite (valuestr_rep _ _ _ Hok). cbn [bind].
  rewrite (valuestrsize_rep _ _ _ Hok ns eq_refl). cbn [bind].
  pose proof (value_points _ _ _ Hok) as Hp. pose proof (elem_wf_value _ _ _ Hok) as Hw.
  cbn [enc_value wf_value] in *. apply andb_prop in Hw as [_ Ho]. unfold enc_string in Hp.
  rewrite <- !app_assoc in Hp. apply (points_app_r _ _ _ 4) in Hp; [|done].
  assert (cstr (data e +! (zlen n + 2) +! 4) = Ok (c_str ns)) as ->.
  { apply points_rest in Hp as [post Hpost]. unfold cstr. rewrite Hpost. cbn [bind]. unfold c_str.
    destruct (until_nul_last ns) as [s Hs]. rewrite <- !app_assoc, !app_assoc.
    rewrite <- (app_assoc (ns ++ [x00])). rewrite (until_nul_app_some _ _ _ Hs).
    destruct (until_nul ns) as [t|] eqn:Et.
    - rewrite (until_nul_app_some _ _ _ Et) in Hs. by injection Hs as <-.
    - f_equal. clear -Hs Et. revert s Hs. induction ns as [|x ns IH]; intros s; simpl in *.
      + by intros [= <-].
      + destruct (Byte.eqb x x00); [done|]. destruct (until_nul ns); [done|].
        destruct (until_nul (ns ++ [x00])); [|done]. intros [= <-]. f_equal. by apply IH. }
  cbn [bind]. rewrite app_assoc in Hp. apply (points_app_r _ _ _ (zlen ns + 1)) in Hp;
    [|by rewrite zlen_app].
  rewrite (points_loads_all _ _ _ Hp) by lia. done.
Qed.

Lemma bindata_json_rep {A} e n u x (K : byte -> list byte -> result A) :
  elem_ok e n (VBinData u x) ->
  (let* p := value_ptr e in let* k := load_s32 p in let* t := load (p +! 4) in
   let* bs := if k <? 0 then Ok [] else loads (p +! 5) k in K t bs) = K u x.
Proof.
  intros Hok. rewrite (value_ptr_rep _ _ _ Hok). cbn [bind].
  pose proof (value_points _ _ _ Hok) as Hp. pose proof (elem_wf_value _ _ _ Hok) as Hw.
  cbn [enc_value wf_value] in *. pose proof (zlen_nonneg x).
  rewrite (points_load_s32 _ _ _ Hp) by (apply small_s32; lia). cbn [bind].
  pose proof Hp as Hq. apply (points_app_r _ _ _ 4) in Hp; [|done].
  rewrite (points_load _ _ _ Hp). cbn [bind]. destruct (Z.ltb_spec (zlen x) 0); [lia|].
  assert (data e +! (zlen n + 2) +! 5 ↦ x) as Hx.
  { apply (points_app_r _ (le32 (zlen x) ++ [u])); [by rewrite <- app_assoc|].
    by rewrite zlen_app, zlen_le_bytes. }
  by rewrite (points_loads_all _ _ _ Hx eq_refl).
Qed.

Lemma timestamp_json_rep e n t : elem_ok e n (VTimestamp t) ->
  timestampTime e = Ok (t / 2 ^ 32 * 1000) /\ timestampInc e = Ok (t mod 2 ^ 32).
Proof.
  intros Hok. unfold timestampTime, timestampInc. rewrite (value_ptr_rep _ _ _ Hok). cbn [bind].
  pose proof (value_points _ _ _ Hok) as Hp. pose proof (elem_wf_value _ _ _ Hok) as Hw%in_u_spec.
  cbn [enc_value] in Hp.
  assert (le64 t = le32 (t mod 2 ^ 32) ++ le32 (t / 2 ^ 32)) as E.
  { change (le64 t) with (le_bytes (4 + 4) t). rewrite le_bytes_split.
    change (256 ^ Z.of_nat 4) with (2 ^ 32). f_equal. rewrite <- (le_bytes_mod 4 t). done. }
  rewrite E in Hp. assert (0 <= t mod 2 ^ 32 < 2 ^ 32) by (apply Z.mod_pos_bound; lia).
  assert (0 <= t / 2 ^ 32 < 2 ^ 32) by
    (split; [apply Z.div_pos; lia|apply Z.div_lt_upper_bound; [lia|]; change (2 ^ 32 * 2 ^ 32) with (2 ^ 64); lia]).
  pose proof Hp as Hq. apply (points_app_r _ _ _ 4) in Hq; [|done].
  rewrite <- (app_nil_r (le32 (t / 2 ^ 32))) in Hq.
  rewrite (points_load_u32 _ _ _ Hq) by (by apply in_u_spec). cbn [bind].
  rewrite (points_load_u32 _ _ _ Hp) by (by apply in_u_spec). cbn [bind].
  rewrite wrap_u_small by (change (2 ^ 64) with (2 ^ 32 * 2 ^ 32); lia). done.
Qed.

Lemma scope_code_rep e n c d : elem_ok e n (VCodeWScope c d) -> _asCode e = Ok c.
Proof.
  intros Hok. unfold _asCode. rewrite (type_rep _ _ _ Hok). cbn [bind vtype].
  destruct (codeWScope_rep _ _ _ _ Hok) as (a & _ & Ha & _). 
  unfold codeWScopeCode in *. rewrite (type_rep _ _ _ Hok) in *. cbn [bind vtype massert] in *.
  rewrite bool_decide_eq_true_2 in * by done. cbn [massert bind] in *.
  rewrite (value_ptr_rep _ _ _ Hok) in *. cbn [bind] in *. injection Ha as <-.
  rewrite (valuestr_rep _ _ _ Hok). cbn [bind].
  pose proof (value_points _ _ _ Hok) as Hp. rewrite enc_value_code in Hp.
  pose proof (elem_wf_value _ _ _ Hok) as (Hc & Hd & Hs)%wf_value_code.
  apply (points_app_r _ _ _ 4) in Hp; [|done]. unfold enc_string in Hp. rewrite <- !app_assoc in Hp.
  pose proof (zlen_nonneg c). pose proof (zlen_nonneg (enc_doc d)).
  rewrite (points_load_s32 _ _ _ Hp) by (apply small_s32; lia). cbn [bind]. unfold std_string.
  apply (points_app_r _ _ _ 4) in Hp; [|done]. rewrite padd_padd in Hp.
  apply (points_loads _ _ _ _ Hp). lia.
Qed.

Lemma zlen_mid (a b c : list byte) k : zlen (a ++ b ++ c) <= k -> zlen b <= k.
Proof. rewrite !zlen_app. pose proof (zlen_nonneg a). pose proof (zlen_nonneg c). lia. Qed.

(** The value of an element, given that [rec] prints what is nested in it. *)
Lemma value_json_rep rec fmt e n v : elem_ok e n v -> printable v = true ->
  zlen (json_value fmt v) <= BufferMaxSize ->
  (forall d, inner_doc v = Some d -> prints_values rec fmt d /\ forall fmt', prints_members rec fmt' d) ->
  value_json rec fmt (vtype v) e = Ok (json_value fmt v).
Proof.
  intros Hok Hpr Hz Hin. pose proof (elem_wf_value _ _ _ Hok) as Hw.
  destruct v; cbn [vtype value_json]; try done.
  - unfold number, numberDouble. rewrite (type_rep _ _ _ Hok). cbn [bind vtype].
    rewrite (numberDouble_rep _ _ _ Hok). by apply json_number_total.
  - rewrite (string_json _ _ _ s _ Hok eq_refl).
    rewrite escape_rep; [done|]. apply (zlen_mid quote _ quote), Hz.
  - unfold _asCode. rewrite (type_rep _ _ _ Hok). cbn [bind vtype].
    rewrite (valuestr_rep _ _ _ Hok). cbn [bind]. rewrite (valuestrsize_rep _ _ _ Hok s eq_refl).
    exact (str_contents_rep _ _ _ Hok s eq_refl).
  - rewrite (string_json _ _ _ s _ Hok eq_refl).
    rewrite escape_rep; [done|]. apply (zlen_mid quote _ quote), Hz.
  - destruct (embedded_rep _ _ _ d Hok eq_refl) as (o & -> & Ho & _). cbn [bind].
    rewrite json_value_object in *. apply object_json_rep; [done|by apply Hin|done].
  - destruct (embedded_rep _ _ _ d Hok eq_refl) as (o & -> & Ho & _). cbn [bind].
    rewrite json_value_array in *. cbn [printable] in Hpr. apply andb_prop in Hpr as [_ Hc].
    apply array_json_rep; [done|by apply Hin|done|done].
  - by rewrite (bindata_json_rep _ _ _ _ _ Hok).
  - by rewrite (oid_rep _ _ _ Hok).
  - by rewrite (boolean_rep _ _ _ Hok).
  - by rewrite (date_rep _ _ (VDate millis) millis (or_introl eq_refl) Hok).
  - destruct (timestamp_json_rep _ _ _ Hok) as [-> ->]. cbn [bind]. by rewrite Z.div_mul by lia.
  - destruct (regex_rep _ _ _ _ Hok) as (a & b & -> & Ha & Hb & Hb'). cbn [bind]. rewrite Ha. cbn [bind].
    rewrite escape_rep; [cbn [bind]; rewrite Hb; cbn [bind]; by rewrite Hb'|].
    cbn [json_value] in Hz. unfold regex_json in Hz. destruct (is_strict fmt).
    + do 5 rewrite app_assoc in Hz. apply zlen_mid in Hz. exact Hz.
    + by apply zlen_mid in Hz.
  - by rewrite (dbref_json_rep _ _ _ _ _ Hok).
  - destruct (scope_rep _ _ _ _ Hok) as (o & -> & Ho). cbn [bind].
    rewrite (isEmpty_rep _ _ Ho). cbn [bind]. rewrite (scope_code_rep _ _ _ _ Hok). cbn [bind].
    rewrite json_value_scope in *. destruct scope as [|f scope]; [done|].
    rewrite bool_decide_eq_false_2 by done.
    rewrite (object_json_rep rec Strict o (f :: scope)); [done|done|by apply Hin|].
    unfold scope_json in Hz. do 10 rewrite app_assoc in Hz. by apply zlen_mid in Hz.
  - unfold number, numberDouble. rewrite (type_rep _ _ _ Hok). cbn [bind vtype].
    rewrite (numberInt_rep _ _ _ Hok). cbn [bind]. cbn [wf_value] in Hw.
    apply json_number_total. apply in_s_spec in Hw. change (2 ^ (32 - 1)) with 2147483648 in Hw.
    by destruct (d_of_Z_key n0 ltac:(lia)).
  - by rewrite (numberLong_rep _ _ _ Hok).
Qed.

(** The text of an element, with its name when that is asked for. *)
Definition json_element (fmt : JsonStringFormat) (with_name : bool) (f : field) : list byte :=
  (if with_name then quoted (fst f) ++ bstr " : " else []) ++ json_value fmt (snd f).

Lemma element_value_shorter n v d : In (n, v) d ->
  (length (enc_value v) < length (enc_doc d))%nat.
Proof.
  intros Hin. assert (zlen (enc_elem (n, v)) <= zlen (enc_elems d)) as Hd.
  { apply in_split in Hin as (d1 & d2 & ->). rewrite enc_elems_app, zlen_app, zlen_enc_elems_cons.
    pose proof (zlen_nonneg (enc_elems d1)). pose proof (zlen_nonneg (enc_elems d2)). lia. }
  rewrite zlen_enc_elem in Hd. pose proof (zlen_nonneg n). pose proof (zlen_enc_doc d).
  unfold zlen in *. lia.
Qed.

Lemma inner_doc_length v d : inner_doc v = Some d -> (length (enc_doc d) <= length (enc_value v))%nat.
Proof.
  destruct v; try discriminate; intros [= ->]; [done..|]. rewrite enc_value_code, !length_app. lia.
Qed.

Lemma printable_inner v d : printable v = true -> inner_doc v = Some d -> printable_doc d = true.
Proof.
  destruct v; try discriminate; cbn [printable]; intros Hp [= ->]; [done| |done].
  by apply andb_prop in Hp as [Hp _].
Qed.

Lemma elem_jsonString_rep depth : forall fmt w e n v, elem_ok e n v -> printable v = true ->
  (length (enc_value v) < depth)%nat -> zlen (json_element fmt w (n, v)) <= BufferMaxSize ->
  elem_jsonString depth fmt w e = Ok (json_element fmt w (n, v)).
Proof.
  induction depth as [|depth IH]; intros fmt w e n v Hok Hp Hd Hz; [lia|].
  unfold json_element in *. cbn [elem_jsonString fst snd] in *. unfold element_json_with.
  rewrite zlen_app in Hz. pose proof (zlen_nonneg (json_value fmt v)).
  assert (forall d f x, inner_doc v = Some d -> In f d -> elem_ok x (fst f) (snd f) ->
    forall fmt' w', zlen (json_element fmt' w' f) <= BufferMaxSize ->
    elem_jsonString depth fmt' w' x = Ok (json_element fmt' w' f)) as Hin.
  { intros d [k y] x Hv Hf Hx fmt' w' Hz'. cbn [fst snd] in Hx. apply IH; [done| | |done].
    - pose proof (printable_inner v d Hp Hv) as Hpd. unfold printable_doc in Hpd.
      rewrite forallb_forall in Hpd. exact (Hpd _ Hf).
    - pose proof (element_value_shorter _ _ _ Hf). pose proof (inner_doc_length _ _ Hv). cbn [snd]. lia. }
  assert ((if w then let* p := fieldName e in let* name := cstr p in let* text := escape name false in
           Ok (quote ++ text ++ quote ++ bstr " : ") else Ok [])
          = Ok (if w then quoted n ++ bstr " : " else [])) as ->.
  { destruct w; [|done]. rewrite (fieldName_rep _ _ _ Hok). cbn [bind].
    rewrite (fieldName_cstr _ _ _ Hok). cbn [bind]. unfold quoted in *. rewrite !zlen_app in Hz.
    pose proof (zlen_nonneg quote). pose proof (zlen_nonneg (bstr " : ")).
    rewrite escape_rep by lia. cbn [bind]. by rewrite <- !app_assoc. }
  cbn [bind]. rewrite (type_rep _ _ _ Hok). cbn [bind]. rewrite (value_json_rep _ _ _ n v); [done|done|done| |].
  { pose proof (zlen_nonneg (if w then quoted n ++ bstr " : " else [])). lia. }
  intros d Hv. split; [|intros fmt']; intros f x Hf Hx Hzf.
  - exact (Hin d f x Hv Hf Hx fmt false Hzf).
  - rewrite (Hin d f x Hv Hf Hx fmt' true); unfold json_element, json_member in *;
      rewrite <- app_assoc; done.
Qed.

Lemma jsonString_rep fmt o d : obj_rep o d -> printable_doc d = true ->
  zlen (json_doc fmt d) <= BufferMaxSize -> jsonString fmt o = Ok (json_doc fmt d).
Proof.
  intros Ho Hp Hz. apply object_json_rep; [done| |done]. intros [n v] e Hf Hok Hzf. cbn [fst snd] in Hok.
  unfold printable_doc in Hp. rewrite forallb_forall in Hp. specialize (Hp _ Hf).
  rewrite (elem_jsonString_rep _ fmt true e n v Hok Hp); unfold json_element, json_member in *;
    try by rewrite <- app_assoc.
  destruct Ho as [(_ & post & Hm & Hl) _]. apply (f_equal length) in Hm.
  rewrite length_drop, length_app in Hm. pose proof (element_value_shorter _ _ _ Hf).
  unfold fuel_of. lia.
Qed.

(** C12: the text the printer gives for an object that encodes a document is
    [json_doc], in every format, whatever the document's nesting: as long as
    the text fits the 64MB of a [StringBuilder] and the arrays' names are ints,
    no access is out of bounds and nothing throws.  A date is printed as a signed
    number. *)
Theorem jsonString_correct fmt o d : obj_rep o d -> printable_doc d = true ->
  zlen (json_doc fmt d) <= BufferMaxSize -> jsonString fmt o = Ok (json_doc fmt d).
Proof. apply jsonString_rep. Qed.

Definition sample_json : doc :=
  [(bstr "a", VArray [(bstr "0", VInt 7); (bstr "3", VDouble d_inf)]);
   (bstr "b/", VObject [(bstr "s", VString [x22; x01; "/"%byte])]);
   (bstr "c", VCodeWScope (bstr "f()") [(bstr "x", VRegEx (bstr "/") (bstr "gs"))])].

Lemma jsonString_correct_witness :
  jsonString TenGen (Ptr (enc_doc sample_json) 0) = Ok (json_doc TenGen sample_json) /\
  json_doc TenGen sample_json =
    bstr "{ " ++ [x22] ++ bstr "a" ++ [x22] ++ bstr " : [ 7, undefined, undefined, Infinity ], " ++
    [x22] ++ bstr "b/" ++ [x22] ++ bstr " : { " ++ [x22] ++ bstr "s" ++ [x22] ++ bstr " : " ++
    [x22; x5c; x22] ++ [x5c] ++ bstr "u0001/" ++ [x22] ++ bstr " }, " ++
    [x22] ++ bstr "c" ++ [x22] ++ bstr " : { " ++ [x22] ++ bstr "$code" ++ [x22] ++ bstr " : f() ,  " ++
    [x22] ++ bstr "$scope" ++ [x22] ++ bstr " : { " ++ [x22] ++ bstr "x" ++ [x22] ++ bstr " : { " ++
    [x22] ++ bstr "$regex" ++ [x22] ++ bstr " : " ++ [x22] ++ bstr "/" ++ [x22] ++ bstr ", " ++
    [x22] ++ bstr "$options" ++ [x22] ++ bstr " : " ++ [x22] ++ bstr "gs" ++ [x22] ++ bstr " } } } }".
Proof.
  split; [apply (jsonString_correct TenGen)|by vm_compute].
  - split; [apply points_start|by vm_compute].
  - by vm_compute.
  - by vm_compute.
Defined.

(** The parser takes dates from 2^63 on because the printer is said to write them
    without a sign; it writes them with one. *)
Example date_signed :
  jsonString TenGen (Ptr (enc_doc [(bstr "d", VDate (2 ^ 64 - 1))]) 0) =
    Ok (bstr "{ " ++ [x22] ++ bstr "d" ++ [x22] ++ bstr " : Date( -1 ) }").
Proof. by vm_compute. Qed.
