(* ===== verification/JsonSpec.v ===== *)
(** * JsonSpec: what the JSON parser reads

    The parser reads back what the printer writes, for the documents the text
    can carry ([json_carries]); its UTF-8 encoder writes what a decoder of the
    standard reads.  What it does on other texts is in JsonSafe.v. *)

From stdpp Require Import base list numbers strings option tactics.
From Stdlib Require Import Strings.Byte ZArith Lia.
From S2P Require Import Prelude Memory Decimal Codec Double Printf CNumber BsonTypes Format.
From S2P Require Import Element Obj Access Builder JsObj JsObjSpec BuilderSpec Json JsonPrint JsonText.

Abbreviation parser := JParse.parser.
Abbreviation SOk := JParse.SOk.
Abbreviation pbind := (@mbind JParse.parser JParse.parser_bind _ _).
Abbreviation pret := (@mret JParse.parser JParse.parser_ret _).

(** ** Running a parser *)

Lemma bind_run {A B} (m : parser A) (k : A -> parser B) i a i' :
  m i = SOk a i' -> pbind k m i = k a i'.
Proof. intros H. unfold mbind, JParse.parser_bind. by rewrite H. Qed.

Lemma strip_token_app t r : JParse.strip_token t (t ++ r) = Some r.
Proof. induction t as [|c t IH]; [done|]. cbn. by rewrite byte_eqb_refl. Qed.

(** A token that stands at the input. *)
Lemma accept_here t b r : match t with c :: _ => isspace c = false | [] => False end ->
  JParse.accept t b (t ++ r) = SOk true (if b then r else t ++ r).
Proof.
  intros Ht. destruct t as [|c t]; [done|]. unfold JParse.accept.
  replace (skip_space ((c :: t) ++ r)) with ((c :: t) ++ r) by (cbn; by rewrite Ht).
  by rewrite strip_token_app.
Qed.

Lemma expect_run t i r : JParse.accept t true i = SOk true r -> JParse.expect t i = SOk tt r.
Proof. intros H. unfold JParse.expect. by rewrite (bind_run _ _ _ _ _ H). Qed.

(** ** Strings *)

(** One character of a string, as [escape] writes it. *)
Lemma chars_escaped slash term c d r : (slash, term) = (false, [x22]) \/ (slash, term) = (true, bstr "/") ->
  JParse.chars_go term None (escaped slash c ++ d :: r) =
  JParse.push [c] (JParse.chars_go term None (d :: r)).
Proof. intros [[= -> ->]|[= -> ->]]; by destruct c. Qed.

Lemma chars_go_text slash term q s r :
  (slash, term) = (false, [x22]) /\ q = x22 \/ (slash, term) = (true, bstr "/") /\ q = "/"%byte ->
  JParse.chars_go term None (escape_text slash s ++ q :: r) = SOk s (q :: r).
Proof.
  intros Hq. assert ((slash, term) = (false, [x22]) \/ (slash, term) = (true, bstr "/")) as Ht by tauto.
  induction s as [|c s IH].
  - by destruct Hq as [[[= -> ->] ->]|[[= -> ->] ->]].
  - cbn [escape_text flat_map]. rewrite <- app_assoc. fold (escape_text slash s).
    destruct (escape_text slash s ++ q :: r) as [|d y] eqn:E; [by destruct (escape_text slash s)|].
    rewrite chars_escaped by done. by rewrite IH.
Qed.

Lemma quotedString_run s i r : JParse.accept JParse.DOUBLEQUOTE true i = SOk true (escape_text false s ++ quote ++ r) ->
  JParse.quotedString i = SOk s r.
Proof.
  intros H. unfold JParse.quotedString. rewrite (bind_run _ _ _ _ _ H). cbn iota.
  erewrite bind_run.
  2: { unfold JParse.chars. change (quote ++ r) with (x22 :: r).
       rewrite (chars_go_text false [x22] x22) by (by left). reflexivity. }
  by erewrite bind_run by (apply expect_run; reflexivity).
Qed.

Lemma accept_quote s r : JParse.accept JParse.DOUBLEQUOTE true (quoted s ++ r) =
  SOk true (escape_text false s ++ quote ++ r).
Proof. unfold quoted, quote. rewrite <- !app_assoc. reflexivity. Qed.

Lemma field_run s i r : skip_space i = quoted s ++ r -> JParse.field i = SOk s r.
Proof.
  intros H. unfold JParse.field.
  assert (JParse.accept JParse.DOUBLEQUOTE false i = SOk true i) as H1.
  { unfold JParse.accept. by rewrite H. }
  rewrite (bind_run _ _ _ _ _ H1). cbn iota. erewrite bind_run by reflexivity. cbn iota.
  apply quotedString_run. pose proof (accept_quote s r) as H2. unfold JParse.accept in *.
  rewrite H. unfold quoted, quote in *. rewrite <- !app_assoc in *. exact H2.
Qed.

(** Run the steps that the head of the input decides. *)
Ltac prun :=
  repeat (erewrite bind_run by (first [reflexivity | apply expect_run; reflexivity]); cbn iota).

(** ** Values that are not nested *)

(** The parser call that reads the value [v]. *)
Definition reads (fmt : JsonStringFormat) (v : value)
    (append : list byte -> BSONObjBuilder -> result BSONObjBuilder) : Prop :=
  forall fuel name b r, delim r ->
  JParse.value (S fuel) name b (bstr " " ++ json_value fmt v ++ r) = JParse.lift (append name b) r.

Lemma reads_bool fmt x : reads fmt (VBool x) (fun name => append_bool name x).
Proof.
  intros fuel name b r Hr. destruct x; cbn [json_value JParse.value JParse.first_accepted]; prun; done.
Qed.

Lemma reads_null fmt : reads fmt VNull appendNull.
Proof. intros fuel name b r Hr. cbn [json_value JParse.value JParse.first_accepted]. by prun. Qed.

(** The special objects: the first field decides. *)
Definition special_objects (value : list byte -> BSONObjBuilder -> parser BSONObjBuilder)
    : list (list byte * (list byte -> BSONObjBuilder -> parser BSONObjBuilder)) :=
  [(bstr "$oid", JParse.objectIdObject); (bstr "$binary", JParse.binaryObject);
   (bstr "$date", JParse.dateObject); (bstr "$timestamp", JParse.timestampObject);
   (bstr "$regex", JParse.regexObject); (bstr "$ref", JParse.dbRefObject value);
   (bstr "$undefined", JParse.undefinedObject)].

Lemma bind_eq {A B} (m m' : parser A) (k : A -> parser B) i i' :
  m i = m' i' -> pbind k m i = pbind k m' i'.
Proof. unfold mbind, JParse.parser_bind. by intros ->. Qed.

Lemma close_brace (m : result BSONObjBuilder) r :
  pbind (fun b' => pbind (fun _ => pret b') (JParse.expect JParse.RBRACE)) (JParse.lift m)
    (bstr " }" ++ r) = JParse.lift m r.
Proof. by destruct m. Qed.

Lemma object_special value key p name b m text r : In (key, p) (special_objects value) ->
  p name b text = JParse.lift m (bstr " }" ++ r) ->
  JParse.object value name b true (bstr " { " ++ quoted key ++ text) = JParse.lift m r.
Proof.
  intros Hin Hp. unfold JParse.object. prun.
  erewrite bind_run by (apply (field_run key); reflexivity). rewrite <- close_brace.
  apply bind_eq. rewrite <- Hp.
  repeat destruct Hin as [[= <- <-]|Hin]; try done; reflexivity.
Qed.

(** A value that is written as a special object. *)
Lemma value_special fuel key p name b m text r : In (key, p) (special_objects (JParse.value fuel)) ->
  p name b text = JParse.lift m (bstr " }" ++ r) ->
  JParse.value (S fuel) name b (bstr " { " ++ quoted key ++ text) = JParse.lift m r.
Proof.
  intros Hin Hp. cbn [JParse.value JParse.first_accepted]. prun. by apply (object_special _ key p).
Qed.

Lemma reads_undefined fmt : reads fmt VUndefined appendUndefined.
Proof.
  intros fuel name b r Hr. cbn [json_value]. unfold undefined_json. destruct (is_strict fmt).
  - apply (value_special fuel (bstr "$undefined") JParse.undefinedObject _ _ _ (bstr " : true }" ++ r));
      [simpl; tauto|]. unfold JParse.undefinedObject. by prun.
  - cbn [JParse.value JParse.first_accepted]. by prun.
Qed.

Lemma check_run b i : b = true -> JParse.check b i = SOk tt i.
Proof. by intros ->. Qed.
Lemma lift_run {A} (m : result A) a i : m = Ok a -> JParse.lift m i = SOk a i.
Proof. by intros ->. Qed.

(** Text that [escape] leaves as it is. *)
Definition plain (c : byte) : bool := bool_decide (escaped false c = [c]).

Lemma escape_plain s : forallb plain s = true -> escape_text false s = s.
Proof.
  induction s as [|c s IH]; [done|]. cbn [forallb escape_text flat_map].
  rewrite andb_true_iff. intros [Hc%bool_decide_eq_true Hs]. rewrite Hc.
  fold (escape_text false s). by rewrite IH.
Qed.

Lemma plain_subset (f : byte -> bool) s :
  forallb (fun c => implb (f c) (plain c)) all_bytes = true -> forallb f s = true -> forallb plain s = true.
Proof.
  intros Hf. rewrite !forallb_forall. intros Hs c Hc. specialize (Hs c Hc).
  pose proof (for_all_bytes _ Hf c) as H. cbv beta in H. by rewrite Hs in H.
Qed.

(** A quoted string of plain text. *)
Lemma quotedString_plain s i r : forallb plain s = true ->
  JParse.accept JParse.DOUBLEQUOTE true i = SOk true (s ++ quote ++ r) -> JParse.quotedString i = SOk s r.
Proof. intros Hs Hi. apply quotedString_run. by rewrite escape_plain. Qed.

Lemma reads_string fmt s : reads fmt (VString s) (fun name => append_string name s).
Proof.
  intros fuel name b r Hr. cbn [json_value JParse.value JParse.first_accepted]. prun.
  erewrite bind_run; [reflexivity|]. apply quotedString_run.
  pose proof (accept_quote s r) as H. unfold JParse.accept in *. exact H.
Qed.

Lemma isxdigit_hex bs : forallb isxdigit (toHexLower bs) = true.
Proof.
  unfold toHexLower. induction bs as [|b bs IH]; [done|].
  unfold toHex_with in *. cbn [flat_map app forallb]. rewrite IH, andb_true_r.
  revert b. apply for_all_bytes. by vm_compute.
Qed.

Lemma hex_plain bs : forallb plain (toHexLower bs) = true.
Proof. apply (plain_subset isxdigit); [by vm_compute|]. apply isxdigit_hex. Qed.

Lemma append_id_run name o b i : zlen o = 12 ->
  JParse.append_id name (OID_str o) b i = JParse.lift (append_OID name o b) i.
Proof.
  intros Ho. assert (zlen (OID_str o) = 24) as Hl.
  { unfold OID_str, toHexLower, zlen in *. rewrite length_toHex. lia. }
  unfold JParse.append_id. erewrite bind_run by (apply check_run; by rewrite Hl).
  erewrite bind_run by (apply check_run, isxdigit_hex).
  erewrite bind_run; [reflexivity|]. apply lift_run. unfold OID_init_string. rewrite Hl. cbn [verify bind].
  apply fromHex_pairs_toHex. by left.
Qed.

Lemma reads_oid fmt o : zlen o = 12 -> reads fmt (VOID o) (fun name => append_OID name o).
Proof.
  intros Ho fuel name b r Hr. cbn [json_value]. unfold oid_json. destruct (is_tengen fmt).
  - rewrite <- !app_assoc. cbn [JParse.value JParse.first_accepted]. prun. unfold JParse.objectId. prun.
    erewrite bind_run by (apply quotedString_plain; [apply hex_plain|reflexivity]).
    erewrite bind_run by (apply expect_run; reflexivity). by apply append_id_run.
  - rewrite <- !app_assoc.
    apply (value_special fuel (bstr "$oid") JParse.objectIdObject _ _ _
      (bstr " : " ++ quote ++ OID_str o ++ quote ++ bstr " }" ++ r)); [simpl; tauto|].
    unfold JParse.objectIdObject. prun.
    erewrite bind_run by (apply quotedString_plain; [apply hex_plain|reflexivity]). by apply append_id_run.
Qed.

(** ** Numbers in the text *)

Lemma strtoll_text n r : in_s 64 n = true -> delim r ->
  strtoll (bstr " " ++ dec n ++ r) = Some (Converted n false r).
Proof.
  intros Hn Hr. change (strtoll (bstr " " ++ dec n ++ r)) with (strtoll (dec n ++ r)).
  destruct (dec_cons n) as (c & a & E & Hc & _). rewrite E, strtoll_local by done.
  rewrite <- E, strtoll_dec by done. done.
Qed.

Lemma strtoull_text n r : 0 <= n < 2 ^ 64 -> delim r ->
  strtoull (bstr " " ++ dec n ++ r) = Some (Converted n false r).
Proof.
  intros Hn Hr. change (strtoull (bstr " " ++ dec n ++ r)) with (strtoull (dec n ++ r)).
  pose proof (strtoull_dec n Hn) as H. unfold strtoull in *.
  destruct (dec_cons n) as (c & a & E & Hc & _). rewrite E in *. rewrite scan_integer_local by done.
  destruct (scan_integer (c :: a)) as [[[neg m] y]|]; [|done]. cbn [option_map fst snd].
  destruct (m <? 2 ^ 64); [by injection H as -> ->|discriminate H].
Qed.

Lemma strtod_text n r : Z.abs n < 2 ^ 64 -> delim r ->
  exists bits, strtod (bstr " " ++ dec n ++ r) = Some (Converted bits false r).
Proof.
  intros Hn Hr. change (strtod (bstr " " ++ dec n ++ r)) with (strtod (dec n ++ r)).
  destruct (dec_cons n) as (c & a & E & Hc & _). rewrite E, strtod_local by done.
  destruct (strtod_dec n Hn) as [bits H]. rewrite <- E, H. by exists bits.
Qed.

(** Milliseconds survive being written as a signed integer. *)
Lemma date_millis_run m r : in_u 64 m = true -> delim r ->
  JParse.date_millis (bstr " " ++ dec (s64 m) ++ r) = SOk m r.
Proof.
  intros Hm%in_u_spec Hr. unfold JParse.date_millis.
  rewrite strtoll_text by (done || (apply in_s_spec, wrap_s_range; lia)). cbn [conv_erange conv_value conv_rest].
  by rewrite wrap_s_u, wrap_u_small by lia.
Qed.

Lemma reads_date fmt m : in_u 64 m = true -> reads fmt (VDate m) (fun name => appendDate name m).
Proof.
  intros Hm fuel name b r Hr. cbn [json_value]. unfold date_json. destruct (is_strict fmt).
  - rewrite <- !app_assoc. apply (value_special fuel (bstr "$date") JParse.dateObject _ _ _
      (bstr " : " ++ dec (s64 m) ++ bstr " }" ++ r)); [simpl; tauto|].
    unfold JParse.dateObject. prun. erewrite bind_run; [reflexivity|].
    apply date_millis_run; [done|by right].
  - rewrite <- !app_assoc. cbn [JParse.value JParse.first_accepted]. prun. unfold JParse.date. prun.
    erewrite bind_run by (apply (date_millis_run m (bstr " )" ++ r)); [done|by right]).
    erewrite bind_run by (apply expect_run; reflexivity). done.
Qed.

Lemma digit_not_minus d t : is_digit d = true ->
  JParse.accept (bstr "-") true (bstr " " ++ d :: t) = SOk false (bstr " " ++ d :: t).
Proof.
  intros Hd. unfold JParse.accept. cbn [app]. destruct (digit_facts d Hd) as (Hm & _ & Hs & _).
  change (skip_space (bstr " " ++ d :: t)) with (skip_space (d :: t)). rewrite skip_space_start by done.
  change (JParse.strip_token (bstr "-") (d :: t)) with (if Byte.eqb "-" d then Some t else None).
  destruct (byte_eqb_spec "-" d) as [<-|]; [discriminate Hd|done].
Qed.

Lemma unsigned32_run n r : 0 <= n < 2 ^ 32 -> delim r ->
  JParse.unsigned32 (bstr " " ++ dec n ++ r) = SOk n r.
Proof.
  intros Hn Hr. unfold JParse.unsigned32.
  destruct (dec_cons n) as (c & a & E & _ & [Hc|[-> _]]).
  2: { unfold dec in E. destruct (Z.ltb_spec n 0); [lia|].
       destruct (dec_nonneg_spec n) as (Hs & _); [lia|]. rewrite E in Hs. discriminate Hs. }
  assert (JParse.accept (bstr "-") true (bstr " " ++ dec n ++ r) = SOk false (bstr " " ++ dec n ++ r)) as H1.
  { rewrite E. by apply digit_not_minus. }
  rewrite (bind_run _ _ _ _ _ H1). erewrite bind_run by (by apply check_run).
  erewrite bind_run by (unfold JParse.scan; rewrite strtoull_text by (done || lia); reflexivity).
  cbn [conv_value conv_rest]. by rewrite wrap_u_small.
Qed.

Lemma timestamp_append name t b : 0 <= t < 2 ^ 64 ->
  appendTimestamp_inc name (t / 2 ^ 32 * 1000) (t mod 2 ^ 32) b = appendTimestamp name t b.
Proof.
  intros Ht. unfold appendTimestamp_inc. rewrite Z.div_mul by lia.
  rewrite wrap_u_small; [f_equal; pose proof (Z.div_mod t (2 ^ 32)); lia|].
  split; [apply Z.div_pos; lia|apply Z.div_lt_upper_bound; [lia|]].
  change (2 ^ 32 * 2 ^ 32) with (2 ^ 64). lia.
Qed.

Lemma reads_timestamp fmt t : in_u 64 t = true -> reads fmt (VTimestamp t) (fun name => appendTimestamp name t).
Proof.
  intros Ht%in_u_spec fuel name b r Hr. cbn [json_value].
  assert (0 <= t / 2 ^ 32 < 2 ^ 32) as Hs.
  { split; [apply Z.div_pos; lia|apply Z.div_lt_upper_bound; [lia|]].
    change (2 ^ 32 * 2 ^ 32) with (2 ^ 64). lia. }
  pose proof (Z.mod_pos_bound t (2 ^ 32) ltac:(lia)) as Hi.
  rewrite <- (timestamp_append name t b Ht). unfold timestamp_json.
  set (s := t / 2 ^ 32) in *. set (i := t mod 2 ^ 32) in *. clearbody s i.
  destruct (is_tengen fmt).
  - rewrite <- !app_assoc. cbn [JParse.value JParse.first_accepted]. prun. unfold JParse.timestamp. prun.
    erewrite bind_run by (apply (unsigned32_run s (bstr ", " ++ dec i ++ bstr " )" ++ r)); [done|by left]).
    prun. erewrite bind_run by (apply (unsigned32_run i (bstr " )" ++ r)); [done|by right]).
    erewrite bind_run by (apply expect_run; reflexivity). done.
  - rewrite <- !app_assoc. apply (value_special fuel (bstr "$timestamp") JParse.timestampObject _ _ _
      (bstr " : { " ++ quote ++ bstr "t" ++ quote ++ bstr " : " ++ dec s ++ bstr ", " ++ quote ++
       bstr "i" ++ quote ++ bstr " : " ++ dec i ++ bstr " } }" ++ r)); [simpl; tauto|].
    unfold JParse.timestampObject. prun.
    erewrite bind_run by (apply (unsigned32_run s (bstr ", " ++ quote ++ bstr "i" ++ quote ++ bstr " : " ++
      dec i ++ bstr " } }" ++ r)); [done|by left]).
    prun. erewrite bind_run by (apply (unsigned32_run i (bstr " } }" ++ r)); [done|by right]).
    erewrite bind_run by (apply expect_run; reflexivity). done.
Qed.

(** ** Binary data and regular expressions *)

(** Every character of a base64 text satisfies what the alphabet does. *)
Lemma b64_encode_forall (P : byte -> bool) bs : forallb P (b64_chars ++ bstr "=") = true ->
  forallb P (b64_encode bs) = true.
Proof.
  intros HP. rewrite forallb_app in HP. apply andb_prop in HP as [HP Heq].
  change (P "="%byte && true = true) in Heq. rewrite andb_true_r in Heq. rewrite forallb_forall in HP.
  assert (forall x, P (b64_e x) = true) as He.
  { intros x. apply HP, nth_In. assert (0 <= Z.land x 63 < 64) as Hy.
    { change 63 with (Z.ones 6). rewrite Z.land_ones by lia. by apply Z.mod_pos_bound. }
    change (length b64_chars) with 64%nat. lia. }
  induction bs as [|a|a b|a b c r IH] using list_ind3; [done|..].
  - unfold b64_encode. change (Z.rem (zlen [a]) 3 =? 1) with true.
    change (bstr "==") with ["="; "="]%byte. cbn [b64_encode_go app forallb]. by rewrite !He, Heq.
  - unfold b64_encode. change (Z.rem (zlen [a; b]) 3 =? 1) with false.
    change (Z.rem (zlen [a; b]) 3 =? 2) with true.
    change (bstr "=") with ["="]%byte. cbn [b64_encode_go app forallb]. by rewrite !He, Heq.
  - rewrite b64_encode_step, forallb_app, IH. cbn [forallb]. by rewrite !He.
Qed.

Lemma reads_binary fmt u x : reads fmt (VBinData u x) (fun name => appendBinData name (zlen x) u (Ptr x 0)).
Proof.
  intros fuel name b r Hr. cbn [json_value]. unfold binary_json.
  destruct (b64_roundtrip x) as [Hd Hl]. rewrite <- !app_assoc.
  assert (forallb plain (b64_encode x) = true) as Hp by (apply b64_encode_forall; by vm_compute).
  assert (JParse.isBase64String (b64_encode x) = true) as Hc by (apply b64_encode_forall; by vm_compute).
  assert (Z.rem (zlen (b64_encode x)) 4 = 0) as Hm.
  { pose proof (zlen_nonneg x). assert (0 <= (zlen x + 2) / 3) by (apply Z.div_pos; lia).
    rewrite Hl, Z.rem_mod_nonneg by lia. by rewrite Z.mul_comm, Z_mod_mult. }
  apply (value_special fuel (bstr "$binary") JParse.binaryObject _ _ _
    (bstr " : " ++ quote ++ b64_encode x ++ quote ++ bstr ", " ++ quote ++ bstr "$type" ++ quote ++
     bstr " : " ++ quote ++ toHexLower [u] ++ quote ++ bstr " }" ++ r)); [simpl; tauto|].
  unfold JParse.binaryObject. prun.
  erewrite bind_run by (apply quotedString_plain; [exact Hp|reflexivity]).
  erewrite bind_run by (apply check_run; by rewrite Hm).
  erewrite bind_run by (by apply check_run).
  erewrite bind_run.
  2: { apply lift_run. unfold b64_decode. rewrite Hm. cbn [uassert bind Z.eqb]. rewrite Hd. reflexivity. }
  prun. erewrite bind_run by (apply quotedString_plain; [apply hex_plain|reflexivity]).
  erewrite bind_run by (apply check_run; exact (isxdigit_hex [u])).
  erewrite bind_run; [reflexivity|]. apply lift_run. cbn [toHexLower toHex_with flat_map app].
  apply fromHex_toHex. by left.
Qed.

(** The flags a format keeps. *)
Definition regex_flags (fmt : JsonStringFormat) : list byte :=
  if is_strict fmt then bstr "gims" else bstr "gim".
Definition flags_ok (fmt : JsonStringFormat) (o : list byte) : bool :=
  forallb (fun c => existsb (Byte.eqb c) (regex_flags fmt)) o.

Lemma flags_subset fmt (f : byte -> bool) o :
  forallb (fun c => implb (existsb (Byte.eqb c) (bstr "gims")) (f c)) all_bytes = true ->
  flags_ok fmt o = true -> forallb f o = true.
Proof.
  intros Hf. unfold flags_ok. rewrite !forallb_forall. intros Ho c Hc. specialize (Ho c Hc).
  pose proof (for_all_bytes _ Hf c) as H. cbv beta in H.
  assert (existsb (Byte.eqb c) (bstr "gims") = true) as E; [|by rewrite E in H].
  unfold regex_flags in Ho. destruct (is_strict fmt); [done|].
  change (bstr "gims") with (bstr "gim" ++ bstr "s"). rewrite existsb_app, Ho. done.
Qed.

Lemma regexOpt_run fmt o r : flags_ok fmt o = true -> delim r -> JParse.regexOpt (o ++ r) = SOk o r.
Proof.
  intros Ho Hr. unfold JParse.regexOpt, JParse.chars.
  assert (JParse.chars_go [] (Some JParse.JOPTIONS) (o ++ r) = SOk o r) as ->; [|done].
  assert (forallb (fun c => existsb (Byte.eqb c) (bstr "gims")) o = true) as Hg
    by (apply (flags_subset fmt); [by vm_compute|done]). clear Ho.
  induction o as [|c o IH].
  - destruct r as [|c r]; [done|]. by destruct Hr as [-> | ->].
  - cbn [forallb] in Hg. apply andb_prop in Hg as [Hc Hg]. cbn [app]. specialize (IH Hg).
    assert (forall k, JParse.chars_go [] (Some JParse.JOPTIONS) (c :: k) =
      JParse.push [c] (JParse.chars_go [] (Some JParse.JOPTIONS) k)) as ->.
    { intros k. clear -Hc. by destruct c. }
    by rewrite IH.
Qed.

Lemma reads_regex fmt p o : flags_ok fmt o = true ->
  reads fmt (VRegEx p o) (fun name => appendRegex name p o).
Proof.
  intros Ho fuel name b r Hr. cbn [json_value]. unfold regex_json.
  assert (forallb (fun c => JParse.jmatch c JParse.JOPTIONS) o = true) as Hopt
    by (apply (flags_subset fmt); [by vm_compute|done]).
  destruct (is_strict fmt) eqn:E; cbn [negb].
  - assert (forallb plain o = true) as Hp by (apply (flags_subset fmt); [by vm_compute|done]).
    rewrite <- !app_assoc. apply (value_special fuel (bstr "$regex") JParse.regexObject _ _ _
      (bstr " : " ++ quote ++ escape_text false p ++ quote ++ bstr ", " ++ quote ++ bstr "$options" ++
       quote ++ bstr " : " ++ quote ++ o ++ quote ++ bstr " }" ++ r)); [simpl; tauto|].
    unfold JParse.regexObject. prun.
    erewrite bind_run by (apply (quotedString_run p); reflexivity).
    prun. erewrite bind_run by (apply quotedString_plain; [exact Hp|reflexivity]).
    erewrite bind_run by (by apply check_run). done.
  - rewrite <- !app_assoc. cbn [JParse.value JParse.first_accepted].
    assert (shell_flags o = o) as ->.
    { unfold flags_ok, regex_flags in Ho. rewrite E in Ho. clear -Ho.
      induction o as [|c o IH]; [done|]. cbn [forallb] in Ho. apply andb_prop in Ho as [Hc Ho].
      unfold shell_flags in *. rewrite filter_cons_True; [by rewrite (IH Ho)|].
      apply Is_true_true. cbn in Hc. by rewrite orb_false_r, orb_assoc in Hc. }
    prun. unfold JParse.regex. prun.
    erewrite bind_run.
    2: { unfold JParse.regexPat, JParse.chars. change (bstr "/" ++ o ++ r) with ("/"%byte :: o ++ r).
         rewrite (chars_go_text true (bstr "/") "/") by (by right). reflexivity. }
    erewrite bind_run by (apply expect_run; reflexivity).
    erewrite bind_run by (by apply (regexOpt_run fmt)).
    erewrite bind_run by (by apply check_run). done.
Qed.

(** ** Numbers *)

Definition numeric_start (t : list byte) : bool :=
  match t with
  | c :: r => is_digit c || (Byte.eqb c "-" && match r with d :: _ => is_digit d | [] => false end)
  | [] => false
  end.

(** No token starts as a number does. *)
Lemma value_number fuel name b t : numeric_start t = true ->
  JParse.value (S fuel) name b (bstr " " ++ t) = JParse.number name b (bstr " " ++ t).
Proof.
  destruct t as [|c t]; [done|]. cbn [numeric_start]. intros H.
  cbn [JParse.value JParse.first_accepted].
  destruct c; try discriminate H; try (by prun);
    destruct t as [|d t]; try discriminate H; destruct d; try discriminate H; by prun.
Qed.

Lemma numeric_dec n r : numeric_start (dec n ++ r) = true.
Proof.
  destruct (dec_cons n) as (c & a & -> & _ & [Hc|[-> (d & y & -> & Hd)]]); cbn.
  - by rewrite Hc.
  - by rewrite Hd.
Qed.

Lemma number_run_int n r name b : in_s 64 n = true -> delim r ->
  JParse.number name b (bstr " " ++ dec n ++ r) =
  JParse.lift (if n =? s32 n then append_int name (s32 n) b else append_longlong name n b) r.
Proof.
  intros Hn Hr. unfold JParse.number. pose proof Hn as Hb%in_s_spec.
  change (2 ^ (64 - 1)) with (2 ^ 63) in Hb.
  destruct (strtod_text n r) as [bits ->]; [lia|done|]. cbn [conv_erange conv_rest].
  rewrite strtoll_text by done. cbn [conv_erange conv_rest conv_value]. rewrite Nat.ltb_irrefl.
  cbn [orb]. destruct r as [|c r]; [done|].
  by destruct (if n =? s32 n then append_int name (s32 n) b else append_longlong name n b).
Qed.

Lemma reads_int fmt n : in_s 32 n = true -> reads fmt (VInt n) (fun name => append_int name n).
Proof.
  intros Hn fuel name b r Hr. cbn [json_value]. rewrite number_text_int by done.
  rewrite value_number by apply numeric_dec. pose proof Hn as Hb%in_s_spec.
  change (2 ^ (32 - 1)) with 2147483648 in Hb.
  rewrite number_run_int; [|apply in_s_spec; change (2 ^ (64 - 1)) with 9223372036854775808; lia|done].
  rewrite wrap_s_small by (change (2 ^ (32 - 1)) with 2147483648; lia). by rewrite Z.eqb_refl.
Qed.

Lemma reads_long fmt n : in_s 64 n = true -> in_s 32 n = false ->
  reads fmt (VLong n) (fun name => append_longlong name n).
Proof.
  intros Hn Hn' fuel name b r Hr. cbn [json_value].
  rewrite value_number by apply numeric_dec. rewrite number_run_int by done.
  destruct (Z.eqb_spec n (s32 n)) as [E|]; [|done]. exfalso. apply not_true_iff_false in Hn'.
  apply Hn', in_s_spec. rewrite E. by apply wrap_s_range.
Qed.

Definition is_nil {A} (l : list A) : bool := match l with [] => true | _ => false end.

(** The sixteen digits of a [double] read back as it, and as a [double]. *)
Definition reads_back (d : Z) : bool :=
  let t := number_text d in
  numeric_start t &&
  match strtod t with
  | Some c => (conv_value c =? d) && negb (conv_erange c) && is_nil (conv_rest c)
  | None => false
  end &&
  match strtoll t with Some l => negb (is_nil (conv_rest l)) || conv_erange l | None => true end.
Definition double_ok (d : Z) : bool := (d =? d_nan) || (d =? d_inf) || (d =? d_ninf) || reads_back d.

Lemma numeric_start_app t r : numeric_start t = true -> numeric_start (t ++ r) = true /\
  exists c a, t = c :: a /\ isspace c = false.
Proof.
  destruct t as [|c t]; [done|]. cbn [numeric_start app]. intros [Hc|[Hm Hd]%andb_prop]%orb_prop.
  - split; [by rewrite Hc|]. exists c, t. split; [done|]. apply (digit_facts c Hc).
  - split; [|exists c, t; split; [done|by destruct c]].
    destruct t as [|d t]; [done|]. cbn [app]. by rewrite Hm, Hd, orb_true_r.
Qed.

Lemma reads_double fmt d : double_ok d = true -> reads fmt (VDouble d) (fun name => append_double name d).
Proof.
  intros Hd fuel name b r Hr. cbn [json_value].
  unfold double_ok in Hd. rewrite !orb_true_iff, !Z.eqb_eq in Hd.
  destruct Hd as [[[-> | ->]| ->]|Hd].
  - change (number_text d_nan) with (bstr "NaN"). cbn [JParse.value JParse.first_accepted]. by prun.
  - change (number_text d_inf) with (bstr "Infinity"). cbn [JParse.value JParse.first_accepted]. by prun.
  - change (number_text d_ninf) with (bstr "-Infinity"). cbn [JParse.value JParse.first_accepted]. by prun.
  - unfold reads_back in Hd. set (t := number_text d) in *. clearbody t.
    rewrite !andb_true_iff in Hd. destruct Hd as [[Hn Hs] Hl].
    destruct (numeric_start_app t r Hn) as (Hnr & c & a & -> & Hc).
    rewrite value_number by done. unfold JParse.number.
    change (strtod (bstr " " ++ (c :: a) ++ r)) with (strtod ((c :: a) ++ r)).
    change (strtoll (bstr " " ++ (c :: a) ++ r)) with (strtoll ((c :: a) ++ r)).
    rewrite strtod_local, strtoll_local by done.
    destruct (strtod (c :: a)) as [x|]; [|done]. cbn [option_map local_conv conv_erange conv_rest conv_value].
    rewrite !andb_true_iff, Z.eqb_eq, negb_true_iff in Hs. destruct Hs as [[Hv He] Hrest].
    rewrite He, Hv. destruct (conv_rest x) as [|? ?]; [|done]. cbn [app].
    destruct (strtoll (c :: a)) as [l|]; cbn [option_map local_conv conv_erange conv_rest conv_value].
    + replace ((length r <? length (conv_rest l ++ r))%nat || conv_erange l) with true.
      * destruct (append_double name d b); [|done]. by destruct r.
      * symmetry. apply orb_true_iff in Hl as [Hl|Hl]; [|by rewrite Hl, orb_true_r].
        apply orb_true_iff. left. apply Nat.ltb_lt. rewrite length_app.
        destruct (conv_rest l); [done|]. simpl. lia.
    + destruct (append_double name d b); [|done]. by destruct r.
Qed.

(** ** Nested documents *)

Definition reserved (name : list byte) : bool :=
  existsb (bytes_eqb name) [bstr "$oid"; bstr "$binary"; bstr "$date"; bstr "$timestamp";
                            bstr "$regex"; bstr "$ref"; bstr "$undefined"].
Definition first_ok (d : doc) : bool := match d with f :: _ => negb (reserved (fst f)) | [] => true end.

(** The values whose text stands for them in the format. *)
Fixpoint carries (fmt : JsonStringFormat) (v : value) : bool :=
  match v with
  | VNull | VBool _ | VUndefined | VString _ | VOID _ | VDate _ | VTimestamp _ | VBinData _ _
  | VInt _ => true
  | VLong n => negb (in_s 32 n)
  | VDouble d => double_ok d
  | VRegEx _ o => flags_ok fmt o
  | VObject d => first_ok d && forallb (fun f : field => carries fmt (snd f)) d
  | VArray d => indexed 0 d && forallb (fun f : field => carries fmt (snd f)) d
  | _ => false
  end.
Definition json_carries (fmt : JsonStringFormat) (d : doc) : bool :=
  first_ok d && forallb (fun f : field => carries fmt (snd f)) d.

(** The parser reads the text of [v] and appends [v]. *)
Definition parses (fmt : JsonStringFormat) (v : value) : Prop := forall fuel name b pre d0 r,
  b_rep b pre d0 -> fits (_b b) (zlen (enc_elem (name, v))) -> delim r ->
  (length (json_value fmt v ++ r) < fuel)%nat ->
  exists b', JParse.value fuel name b (bstr " " ++ json_value fmt v ++ r) = SOk b' r /\
    b_rep b' pre (d0 ++ [(name, v)]) /\ owned b' = owned b.

Lemma reads_parses fmt v append : reads fmt v append ->
  (forall name, appends (append name) (name, v)) -> parses fmt v.
Proof.
  intros Hr Ha [|fuel] name b pre d0 r Hb Hf Hd Hl; [lia|].
  destruct (Ha name b pre d0 Hb Hf) as (b' & Hb' & Hrep & Ho). exists b'.
  rewrite (Hr fuel name b r Hd). by rewrite Hb'.
Qed.

(** The texts after the first, each after a comma. *)
Definition tail_text (l : list (list byte)) : list byte := flat_map (fun x => bstr ", " ++ x) l.

Lemma comma_sep_tail x l : comma_sep (x :: l) = x ++ tail_text l.
Proof.
  revert x. induction l as [|y l IH]; intros x; [by rewrite app_nil_r|].
  rewrite comma_sep_cons, IH. cbn [tail_text flat_map]. by rewrite <- app_assoc.
Qed.

Lemma tail_delim l r : delim r -> delim (tail_text l ++ r).
Proof. destruct l as [|x l]; [done|]. intros _. by left. Qed.

Lemma members_run fmt f d : Forall (fun g : field => parses fmt (snd g)) d ->
  forall n b pre d0 r, b_rep b pre d0 -> fits (_b b) (zlen (enc_elems d)) ->
  (length d < n)%nat -> (length (tail_text (map (json_member fmt) d) ++ bstr " }" ++ r) <= f)%nat ->
  exists b', JParse.members (JParse.value f) n b (tail_text (map (json_member fmt) d) ++ bstr " }" ++ r)
    = SOk b' (bstr " }" ++ r) /\ b_rep b' pre (d0 ++ d) /\ owned b' = owned b.
Proof.
  induction d as [|[k v] d IH]; intros HP [|n] b pre d0 r Hb Hf Hn Hl; simpl in Hn; try lia.
  - exists b. rewrite app_nil_r. by split.
  - apply Forall_cons_1 in HP as [Hv HP]. cbn [snd] in Hv.
    unfold fits in Hf. rewrite zlen_enc_elems_cons in Hf. pose proof (zlen_nonneg (enc_elems d)).
    cbn [map tail_text flat_map] in *. fold (tail_text (map (json_member fmt) d)) in *.
    set (t := tail_text (map (json_member fmt) d)) in *.
    unfold json_member in *. cbn [fst snd] in *. rewrite <- !app_assoc in *.
    destruct (Hv f k b pre d0 (t ++ bstr " }" ++ r) Hb) as (b1 & Hb1 & Hr1 & Ho1).
    { unfold fits. lia. }
    { apply tail_delim. by right. }
    { rewrite !length_app in *. simpl in *. lia. }
    destruct (IH HP n b1 pre (d0 ++ [(k, v)]) r Hr1) as (b2 & Hb2 & Hr2 & Ho2).
    { unfold fits. rewrite (b_rep_len _ _ _ Hr1), (b_rep_len _ _ _ Hb) in *.
      rewrite enc_elems_app, zlen_app, zlen_enc_elems_cons. change (zlen (enc_elems [])) with 0. lia. }
    { lia. }
    { rewrite !length_app in *. simpl in *. lia. }
    exists b2. split; [|split; [by rewrite <- app_assoc in Hr2|congruence]]. cbn [JParse.members].
    prun. erewrite bind_run by (apply (field_run k); reflexivity).
    prun. erewrite bind_run by exact Hb1. exact Hb2.
Qed.

Lemma tail_length {A} (f : A -> list byte) l r : (length l <= length (tail_text (map f l) ++ r))%nat.
Proof.
  rewrite length_app. induction l as [|x l IH]; [simpl; lia|].
  unfold tail_text in *. cbn [map flat_map length]. rewrite !length_app.
  change (length (bstr ", ")) with 2%nat. lia.
Qed.

Lemma normal_object_run fmt f k v d : Forall (fun g : field => parses fmt (snd g)) ((k, v) :: d) ->
  forall b pre d0 r, b_rep b pre d0 -> fits (_b b) (zlen (enc_elems ((k, v) :: d))) ->
  (length (bstr " : " ++ json_value fmt v ++ tail_text (map (json_member fmt) d) ++ bstr " }" ++ r) <= f)%nat ->
  exists b', JParse.normal_object (JParse.value f) k b
      (bstr " : " ++ json_value fmt v ++ tail_text (map (json_member fmt) d) ++ bstr " }" ++ r)
    = SOk b' (bstr " }" ++ r) /\ b_rep b' pre (d0 ++ (k, v) :: d) /\ owned b' = owned b.
Proof.
  intros HP b pre d0 r Hb Hf Hl. apply Forall_cons_1 in HP as [Hv HP]. cbn [snd] in Hv.
  unfold fits in Hf. rewrite zlen_enc_elems_cons in Hf. pose proof (zlen_nonneg (enc_elems d)).
  set (t := tail_text (map (json_member fmt) d)) in *.
  destruct (Hv f k b pre d0 (t ++ bstr " }" ++ r) Hb) as (b1 & Hb1 & Hr1 & Ho1).
  { unfold fits. lia. }
  { apply tail_delim. by right. }
  { rewrite !length_app in *. simpl in *. lia. }
  destruct (members_run fmt f d HP (S (length (t ++ bstr " }" ++ r))) b1 pre (d0 ++ [(k, v)]) r Hr1)
    as (b2 & Hb2 & Hr2 & Ho2).
  { unfold fits. rewrite (b_rep_len _ _ _ Hr1), (b_rep_len _ _ _ Hb) in *.
    rewrite enc_elems_app, zlen_app, zlen_enc_elems_cons. change (zlen (enc_elems [])) with 0. lia. }
  { pose proof (tail_length (json_member fmt) d (bstr " }" ++ r)). unfold t. lia. }
  { fold t. rewrite !length_app in *. simpl in *. lia. }
  exists b2. split; [|split; [by rewrite <- app_assoc in Hr2|congruence]].
  unfold JParse.normal_object. prun. erewrite bind_run by exact Hb1. exact Hb2.
Qed.

(** A sub-builder finished by [done] is finished as its destructor does. *)
Lemma finish_done_run p sub pre d i : b_rep sub pre d -> fits (_b sub) 1 -> wf_doc d = true ->
  JParse.finish_done (p, sub) i = JParse.lift (sub_done p sub) i.
Proof.
  intros Hs Hf Hw. destruct (_done_rep _ _ _ Hs Hf) as (s & Hd & Es & Eo & _).
  assert (done sub = Ok (Ptr (pre ++ enc_doc d) (zlen pre), s)) as E.
  { unfold done. rewrite Hd. cbn [bind]. unfold objdata. rewrite Es, Eo.
    by rewrite (BSONObj_init_rep _ _ (obj_at pre d Hw)). }
  unfold JParse.finish_done, sub_done. rewrite Hd. erewrite bind_run by (apply lift_run; exact E). done.
Qed.

(** The sub-builder of a nested document, whatever fills it. *)
Lemma sub_builder_run t name v d b pre d0 body i i' :
  vtype v = t -> enc_value v = enc_doc d ->
  b_rep b pre d0 -> fits (_b b) (zlen (enc_elem (name, v))) ->
  (forall s pre', b_rep s pre' [] -> fits (_b s) (zlen (enc_elems d)) ->
    exists s', body s i = SOk s' i' /\ b_rep s' pre' d) ->
  exists b1 s pre' b2, JParse.sub_builder (on_b (header t name)) body b i = SOk (b1, s) i' /\
    b_rep s pre' d /\ fits (_b s) 1 /\
    sub_done b1 s = Ok b2 /\ b_rep b2 pre (d0 ++ [(name, v)]) /\ owned b2 = owned b.
Proof.
  intros Ht Hv Hb Hf Hbody. unfold fits in Hf. rewrite zlen_enc_elem, Hv, zlen_enc_doc in Hf.
  pose proof (zlen_nonneg (enc_elems d)).
  destruct (sub_start_rep t name b pre d0 Hb) as (b1 & sub & H1 & Hsub & Hop & Hs & _);
    [unfold fits; lia|].
  assert (zlen (enc_header t name) = zlen name + 2) as Hz
    by (unfold enc_header; rewrite zlen_cons, zlen_app; change (zlen [x00]) with 1; lia).
  assert (len (_b sub) = len (_b b) + (zlen name + 2) + 4) as Hl.
  { rewrite (b_rep_len _ _ _ Hs), zlen_app, Hz. change (zlen (enc_elems [])) with 0. unfold len. lia. }
  destruct (Hbody sub _ Hs) as (s & Hrun & Hrep); [unfold fits; lia|].
  assert (fits (_b s) 1) as Hfs.
  { unfold fits. rewrite (b_rep_len _ _ _ Hrep), zlen_app, Hz. unfold len in *. lia. }
  destruct (sub_done_rep v t name b b1 s pre d0 d Hb Hop Hrep Hfs Ht Hv) as (b2 & H2 & Hb2 & Ho2 & _).
  exists b1, s, (buf (_b b) ++ enc_header t name), b2.
  split; [|by repeat split]. unfold JParse.sub_builder.
  erewrite bind_run by (by apply lift_run). erewrite bind_run by (apply lift_run; exact Hsub).
  by erewrite bind_run by exact Hrun.
Qed.

Lemma not_reserved k : reserved k = false ->
  bytes_eqb k (bstr "$oid") = false /\ bytes_eqb k (bstr "$binary") = false /\
  bytes_eqb k (bstr "$date") = false /\ bytes_eqb k (bstr "$timestamp") = false /\
  bytes_eqb k (bstr "$regex") = false /\ bytes_eqb k (bstr "$ref") = false /\
  bytes_eqb k (bstr "$undefined") = false.
Proof. unfold reserved. cbn [existsb]. rewrite !orb_false_iff. tauto. Qed.

(** An object that is not special, nested or not. *)
Lemma object_normal value k name b sub text i : reserved k = false ->
  JParse.accept JParse.LBRACE true i = SOk true (bstr " " ++ quoted k ++ text) ->
  JParse.object value name b sub i =
  pbind (fun b' => pbind (fun _ => pret b') (JParse.expect JParse.RBRACE))
    (if sub then pbind JParse.finish_destroy
       (JParse.sub_builder (subobjStart name) (JParse.normal_object value k) b)
     else JParse.normal_object value k b) text.
Proof.
  intros Hk Hi. unfold JParse.object. erewrite bind_run by (apply expect_run; exact Hi). prun.
  erewrite bind_run by (apply (field_run k); reflexivity).
  destruct (not_reserved k Hk) as (-> & -> & -> & -> & -> & -> & ->). reflexivity.
Qed.

Lemma json_doc_cons fmt k v d r : json_doc fmt ((k, v) :: d) ++ r =
  bstr "{ " ++ quoted k ++ bstr " : " ++ json_value fmt v ++
  tail_text (map (json_member fmt) d) ++ bstr " }" ++ r.
Proof.
  unfold json_doc. cbn [map]. rewrite comma_sep_tail. unfold json_member at 1. cbn [fst snd].
  by rewrite <- !app_assoc.
Qed.

Lemma wf_value_inner v d : wf_value v = true -> sub_doc v = Some d -> wf_doc d = true.
Proof. destruct v; try discriminate; intros Hw [= ->]; exact Hw. Qed.

Lemma parses_object fmt d : Forall (fun g : field => parses fmt (snd g)) d -> first_ok d = true ->
  wf_doc d = true -> parses fmt (VObject d).
Proof.
  intros HP Hk Hw [|f] name b pre d0 r Hb Hf Hd Hl; [lia|]. rewrite json_value_object in *.
  cbn [JParse.value JParse.first_accepted]. destruct d as [|[k v] d].
  - destruct (sub_builder_run Object name (VObject []) [] b pre d0 (fun s => pret s) r r eq_refl eq_refl Hb Hf)
      as (b1 & s & pre' & b2 & Hrun & Hs & Hfs & Hdone & Hrep & Ho).
    { intros s pre' Hs _. by exists s. }
    exists b2. split; [|done]. prun. unfold JParse.object. prun.
    erewrite bind_run by exact Hrun. by rewrite (finish_done_run _ _ _ _ _ Hs Hfs Hw), Hdone.
  - rewrite json_doc_cons in *. cbn [first_ok fst] in Hk. apply negb_true_iff in Hk.
    set (text := bstr " : " ++ json_value fmt v ++ tail_text (map (json_member fmt) d) ++ bstr " }" ++ r) in *.
    destruct (sub_builder_run Object name (VObject ((k, v) :: d)) ((k, v) :: d) b pre d0
      (JParse.normal_object (JParse.value f) k) text (bstr " }" ++ r) eq_refl eq_refl Hb Hf)
      as (b1 & s & pre' & b2 & Hrun & Hs & Hfs & Hdone & Hrep & Ho).
    { intros s pre' Hs Hfs.
      destruct (normal_object_run fmt f k v d HP s pre' [] r Hs Hfs) as (s' & H1 & H2 & _).
      - change (length text <= f)%nat. clearbody text. rewrite !length_app in Hl.
        change (length (bstr "{ ")) with 2%nat in Hl. lia.
      - by exists s'. }
    exists b2. split; [|done]. prun.
    rewrite (object_normal _ k _ _ _ text) by (done || reflexivity). cbn iota.
    change (SOk b2 r) with (JParse.lift (Ok b2) r). rewrite <- (close_brace (Ok b2) r). apply bind_eq. erewrite bind_run by exact Hrun.
    unfold JParse.finish_destroy. cbn [fst snd]. by apply lift_run.
Qed.

(** ** Arrays *)

Lemma name_index_dec k : in_s 64 k = true -> name_index (dec k) = k.
Proof. intros Hk. unfold name_index. by rewrite strtoll_dec. Qed.

(** The text of an array whose names are its positions. *)
Lemma json_items_indexed fmt d : forall k, indexed k d = true -> 0 <= k -> k + zlen d < 2 ^ 31 ->
  json_items fmt k d = map (fun f : field => json_value fmt (snd f)) d.
Proof.
  induction d as [|[n v] d IH]; intros k Hd Hk Hz; [done|]. rewrite zlen_cons in Hz.
  pose proof (zlen_nonneg d).
  cbn [indexed] in Hd. apply andb_prop in Hd as [Hn%bool_decide_eq_true Hd]. subst n.
  change (json_items fmt k ((dec k, v) :: d)) with
    ((holes k (dec k) ++ json_value fmt v) :: json_items fmt (Z.max k (name_index (dec k)) + 1) d).
  unfold holes. rewrite name_index_dec by (apply in_s_spec; change (2 ^ (64 - 1)) with (2 ^ 63); lia).
  rewrite Z.max_id, Z.sub_diag. cbn [Z.to_nat repeat concat app map snd]. by rewrite IH by (done || lia).
Qed.

Abbreviation item_text fmt := (fun f : field => json_value fmt (snd f)).

Lemma elements_run fmt f d : forall k v n index b pre d0 r,
  Forall (fun g : field => parses fmt (snd g)) ((k, v) :: d) -> indexed index ((k, v) :: d) = true ->
  0 <= index -> index + zlen d < 2 ^ 31 - 1 ->
  b_rep b pre d0 -> fits (_b b) (zlen (enc_elems ((k, v) :: d))) -> (length d < n)%nat ->
  (length (json_value fmt v ++ tail_text (map (item_text fmt) d) ++ bstr " ]" ++ r) < f)%nat ->
  exists b', JParse.elements (JParse.value f) n index b
      (bstr " " ++ json_value fmt v ++ tail_text (map (item_text fmt) d) ++ bstr " ]" ++ r)
    = SOk b' (bstr " ]" ++ r) /\ b_rep b' pre (d0 ++ (k, v) :: d) /\ owned b' = owned b.
Proof.
  induction d as [|[k' v'] d IH]; intros k v [|n] index b pre d0 r HP Hi Hx Hz Hb Hf Hn Hl;
    simpl in Hn; try lia; apply Forall_cons_1 in HP as [Hv HP]; cbn [snd] in Hv;
    cbn [indexed] in Hi; apply andb_prop in Hi as [Hk%bool_decide_eq_true Hi]; subst k;
    unfold fits in Hf; rewrite zlen_enc_elems_cons in Hf;
    cbn [JParse.elements]; unfold numStr;
    (rewrite (wrap_s_small 32 index) by (change (2 ^ (32 - 1)) with (2 ^ 31);
       match type of Hz with _ + zlen ?l < _ => pose proof (zlen_nonneg l) end; lia)).
  - cbn [map tail_text flat_map app] in *.
    destruct (Hv f (dec index) b pre d0 (bstr " ]" ++ r) Hb) as (b1 & Hb1 & Hr1 & Ho1);
      [unfold fits; change (zlen (enc_elems [])) with 0 in Hf; lia|by right|exact Hl|].
    exists b1. split; [|done]. erewrite bind_run by exact Hb1. by prun.
  - cbn [map tail_text flat_map] in *. fold (tail_text (map (item_text fmt) d)) in *.
    set (t := tail_text (map (item_text fmt) d)) in *. cbn [snd] in *. rewrite <- !app_assoc in *.
    pose proof (zlen_nonneg (enc_elems ((k', v') :: d))). rewrite zlen_cons in Hz.
    destruct (Hv f (dec index) b pre d0 (bstr ", " ++ json_value fmt v' ++ t ++ bstr " ]" ++ r) Hb)
      as (b1 & Hb1 & Hr1 & Ho1); [unfold fits; lia|by left|exact Hl|].
    destruct (IH k' v' n (index + 1) b1 pre (d0 ++ [(dec index, v)]) r HP Hi)
      as (b2 & Hb2 & Hr2 & Ho2); [lia|lia|done| |lia| |].
    { unfold fits. rewrite (b_rep_len _ _ _ Hr1), (b_rep_len _ _ _ Hb) in *.
      rewrite enc_elems_app, zlen_app, (zlen_enc_elems_cons (dec index, v)).
      change (zlen (enc_elems [])) with 0. lia. }
    { rewrite !length_app in *. simpl in *. lia. }
    exists b2. split; [|split; [by rewrite <- app_assoc in Hr2|congruence]].
    erewrite bind_run by exact Hb1. prun.
    rewrite wrap_u_small by (change (2 ^ 32) with (2 * 2 ^ 31); pose proof (zlen_nonneg d); lia).
    exact Hb2.
Qed.

Lemma doc_length_bound d : 7 * zlen d <= zlen (enc_doc d) * 4.
Proof.
  rewrite zlen_enc_doc. induction d as [|[n v] d IH]; [by vm_compute|].
  rewrite zlen_enc_elems_cons, zlen_enc_elem, zlen_cons. pose proof (zlen_nonneg n).
  pose proof (zlen_nonneg (enc_value v)). lia.
Qed.

Lemma json_array_cons fmt k v d r : indexed 0 ((k, v) :: d) = true -> zlen ((k, v) :: d) < 2 ^ 31 ->
  json_array fmt ((k, v) :: d) ++ r =
  bstr "[ " ++ json_value fmt v ++ tail_text (map (item_text fmt) d) ++ bstr " ]" ++ r.
Proof.
  intros Hi Hz. unfold json_array. rewrite json_items_indexed by (done || lia).
  cbn [map]. rewrite comma_sep_tail. by rewrite <- !app_assoc.
Qed.

(** No value starts with a bracket that closes. *)
Lemma numeric_no_bracket t r : numeric_start t = true ->
  JParse.accept JParse.RBRACKET false (bstr " " ++ t ++ r) = SOk false (bstr " " ++ t ++ r).
Proof.
  destruct t as [|c t]; [done|]. cbn [numeric_start]. intros [Hc|[Hc _]%andb_prop]%orb_prop;
    by destruct c; try discriminate Hc.
Qed.

Lemma no_bracket fmt v r : carries fmt v = true -> wf_value v = true ->
  JParse.accept JParse.RBRACKET false (bstr " " ++ json_value fmt v ++ r)
  = SOk false (bstr " " ++ json_value fmt v ++ r).
Proof.
  intros Hc Hw. destruct v; try discriminate Hc; cbn [carries] in Hc; try done.
  - cbn [json_value]. unfold undefined_json. by destruct (is_strict fmt).
  - cbn [json_value]. unfold double_ok in Hc. rewrite !orb_true_iff, !Z.eqb_eq in Hc.
    destruct Hc as [[[-> | ->]| ->]|Hc]; [done..|]. unfold reads_back in Hc.
    rewrite !andb_true_iff in Hc. destruct Hc as [[Hn _] _]. by apply numeric_no_bracket.
  - rewrite json_value_object. by destruct d.
  - rewrite json_value_array. by destruct d.
  - cbn [json_value]. unfold oid_json. by destruct (is_tengen fmt).
  - by destruct b.
  - cbn [json_value]. unfold date_json. by destruct (is_strict fmt).
  - cbn [json_value]. unfold timestamp_json. by destruct (is_tengen fmt).
  - cbn [json_value]. unfold regex_json. by destruct (is_strict fmt).
  - cbn [json_value]. rewrite number_text_int by exact Hw. apply numeric_no_bracket.
    pose proof (numeric_dec n []) as H. by rewrite app_nil_r in H.
  - cbn [json_value]. apply numeric_no_bracket. pose proof (numeric_dec n []) as H. by rewrite app_nil_r in H.
Qed.

Lemma parses_array fmt d : Forall (fun g : field => parses fmt (snd g)) d -> indexed 0 d = true ->
  wf_doc d = true -> forallb (fun f : field => carries fmt (snd f)) d = true -> parses fmt (VArray d).
Proof.
  intros HP Hi Hw Hcar [|f] name b pre d0 r Hb Hf Hd Hl; [lia|]. rewrite json_value_array in *.
  pose proof (doc_length_bound d) as Hz. pose proof (wf_doc_size d Hw) as Hsz. rewrite obj_max_val in Hsz.
  cbn [JParse.value JParse.first_accepted]. destruct d as [|[k v] d].
  - destruct (sub_builder_run Array name (VArray []) [] b pre d0
      (fun s => pbind (fun empty : bool => if empty then pret s else
         JParse.with_fuel (fun n => JParse.elements (JParse.value f) n 0 s)) (JParse.accept JParse.RBRACKET false))
      (bstr "]" ++ r) (bstr "]" ++ r) eq_refl eq_refl Hb Hf)
      as (b1 & s & pre' & b2 & Hrun & Hs & Hfs & Hdone & Hrep & Ho).
    { intros s pre' Hs _. by exists s. }
    exists b2. split; [|done]. prun. unfold JParse.array. prun.
    erewrite bind_run by exact Hrun.
    erewrite bind_run by (rewrite (finish_done_run _ _ _ _ _ Hs Hfs Hw), Hdone; reflexivity). done.
  - rewrite json_array_cons in * by (done || lia).
    set (text := json_value fmt v ++ tail_text (map (item_text fmt) d) ++ bstr " ]" ++ r) in *.
    destruct (sub_builder_run Array name (VArray ((k, v) :: d)) ((k, v) :: d) b pre d0
      (fun s => pbind (fun empty : bool => if empty then pret s else
         JParse.with_fuel (fun n => JParse.elements (JParse.value f) n 0 s)) (JParse.accept JParse.RBRACKET false))
      (bstr " " ++ text) (bstr " ]" ++ r) eq_refl eq_refl Hb Hf)
      as (b1 & s & pre' & b2 & Hrun & Hs & Hfs & Hdone & Hrep & Ho).
    { intros s pre' Hs Hfs. rewrite zlen_cons in Hz.
      destruct (elements_run fmt f d k v (S (length (bstr " " ++ text))) 0 s pre' [] r HP Hi)
        as (s' & H1 & H2 & _); [lia|lia|done|done| | |].
      - pose proof (tail_length (item_text fmt) d (bstr " ]" ++ r)). unfold text.
        rewrite !length_app in *. lia.
      - change (length text < f)%nat. clearbody text. rewrite !length_app in Hl.
        change (length (bstr "[ ")) with 2%nat in Hl. lia.
      - exists s'. split; [|done]. cbn [forallb snd] in Hcar. apply andb_prop in Hcar as [Hc _].
        apply wf_doc_cons in Hw as [[_ Hwv]%wf_field_parts _].
        erewrite bind_run by (by apply (no_bracket fmt v)). exact H1. }
    exists b2. split; [|done]. prun. unfold JParse.array. prun. erewrite bind_run by exact Hrun.
    erewrite bind_run by (rewrite (finish_done_run _ _ _ _ _ Hs Hfs Hw), Hdone; reflexivity). done.
Qed.

(** ** The round trip *)

Lemma fields_parse fmt d :
  Forall (fun f : field => carries fmt (snd f) = true -> wf_value (snd f) = true -> parses fmt (snd f)) d ->
  wf_doc d = true -> forallb (fun f : field => carries fmt (snd f)) d = true ->
  Forall (fun f : field => parses fmt (snd f)) d.
Proof.
  intros IH Hw%wf_doc_Forall Hc. rewrite forallb_forall in Hc. rewrite Forall_forall in *.
  intros [n v] Hin. destruct (wf_field_parts n v (Hw _ Hin)) as [_ Hv].
  apply (IH _ Hin); [|done]. exact (Hc (n, v) Hin).
Qed.

Lemma carried_parses fmt v : carries fmt v = true -> wf_value v = true -> parses fmt v.
Proof.
  pattern v. apply value_nested_ind; clear v.
  - intros v. destruct v; try exact I; intros Hc Hw; try discriminate Hc; cbn [carries wf_value] in *.
    + eapply reads_parses; [apply reads_undefined|intros; apply appendUndefined_rep].
    + eapply reads_parses; [apply reads_null|intros; apply appendNull_rep].
    + eapply reads_parses; [by apply reads_double|intros; apply append_double_rep].
    + eapply reads_parses; [apply reads_string|intros; apply append_string_rep].
    + eapply reads_parses; [apply reads_binary|intros; apply appendBinData_rep, points_start].
    + eapply reads_parses; [apply reads_oid; lia|intros; apply append_OID_rep; lia].
    + eapply reads_parses; [apply reads_bool|intros; apply append_bool_rep].
    + eapply reads_parses; [by apply reads_date|intros; apply appendDate_rep].
    + eapply reads_parses; [by apply reads_timestamp|intros; apply appendTimestamp_rep].
    + eapply reads_parses; [by apply reads_regex|intros; apply appendRegex_rep].
    + eapply reads_parses; [by apply reads_int|intros; apply append_int_rep].
    + eapply reads_parses; [apply reads_long; [done|by apply negb_true_iff]|intros; apply append_longlong_rep].
  - intros d IH Hc Hw. cbn [carries] in Hc. apply andb_prop in Hc as [Hk Hc].
    rewrite wf_value_object in Hw. apply parses_object; [|done|done]. by apply (fields_parse fmt).
  - intros d IH Hc Hw. cbn [carries] in Hc. apply andb_prop in Hc as [Hi Hc].
    rewrite wf_value_array in Hw. apply parses_array; [|done..]. by apply (fields_parse fmt).
  - done.
Qed.

Lemma json_text_nonempty fmt d : exists r, json_doc fmt d = "{"%byte :: r.
Proof. by destruct d; eexists. Qed.

Lemma fromjson_rep fmt d : wf_doc d = true -> json_carries fmt d = true ->
  exists o, JParse.fromjson (json_doc fmt d) = Ok (o, zlen (json_doc fmt d)) /\ obj_rep o d.
Proof.
  intros Hw [Hk Hc]%andb_prop.
  assert (Forall (fun f : field => parses fmt (snd f)) d) as HP.
  { apply fields_parse; [|done..]. apply Forall_forall. intros f _. apply carried_parses. }
  destruct (new_rep 512 ltac:(by vm_compute)) as (b & Hnew & Hb & Ho & Hl).
  pose proof (wf_doc_size d Hw) as Hsz. rewrite zlen_enc_doc, obj_max_val in Hsz.
  assert (exists b', JParse.object (JParse.value (length (json_doc fmt d))) (bstr "UNUSED") b false
      (json_doc fmt d) = SOk b' [] /\ b_rep b' (le32 0) d /\ owned b' = owned b) as (b' & Hrun & Hb' & Ho').
  { destruct d as [|[k v] d]; [by exists b|].
    rewrite <- (app_nil_r (json_doc fmt ((k, v) :: d))). rewrite json_doc_cons.
    cbn [first_ok fst] in Hk. apply negb_true_iff in Hk.
    set (text := bstr " : " ++ json_value fmt v ++ tail_text (map (json_member fmt) d) ++ bstr " }" ++ []).
    destruct (normal_object_run fmt (length (bstr "{ " ++ quoted k ++ text)) k v d HP b (le32 0) [] [] Hb)
      as (b' & Hrun & Hb' & Ho').
    - unfold fits. rewrite Hl. change BufferMaxSize with 67108864. lia.
    - fold text. rewrite !length_app. lia.
    - exists b'. split; [|done].
      rewrite (object_normal _ k _ _ _ text) by (done || reflexivity). cbn iota.
      change (SOk b' []) with (JParse.lift (Ok b') []). rewrite <- close_brace. by apply bind_eq. }
  destruct (obj_done b' (le32 0) d Hb') as (o & Hobj & Hr); [|done|congruence|].
  { unfold fits. rewrite (b_rep_len _ _ _ Hb'). change (zlen (le32 0)) with 4.
    change BufferMaxSize with 67108864. lia. }
  exists o. split; [|done]. unfold JParse.fromjson. destruct (json_text_nonempty fmt d) as [r Er].
  rewrite Er in *. rewrite Hnew. cbn [bind]. rewrite Hrun, Hobj. cbn [bind].
  by rewrite zlen_nil, Z.sub_0_r.
Qed.

(** ** Escaped characters *)

(** The value of a continuation byte. *)
Definition utf8_tail (c : byte) : option Z :=
  if (0x80 <=? bz c) && (bz c <? 0xc0) then Some (bz c - 0x80) else None.

(** The first character of a UTF-8 text, of at most three bytes, and the rest;
    the longer forms of a character that has a shorter one are refused. *)
Definition utf8_decode (s : list byte) : option (Z * list byte) :=
  match s with
  | [] => None
  | c :: r =>
      if bz c <? 0x80 then Some (bz c, r)
      else if (0xc0 <=? bz c) && (bz c <? 0xe0) then
        match r with
        | c1 :: r => n1 ← utf8_tail c1; let n := (bz c - 0xc0) * 64 + n1 in
            if n <? 0x80 then None else Some (n, r)
        | [] => None
        end
      else if (0xe0 <=? bz c) && (bz c <? 0xf0) then
        match r with
        | c1 :: c2 :: r => n1 ← utf8_tail c1; n2 ← utf8_tail c2;
            let n := (bz c - 0xe0) * 4096 + n1 * 64 + n2 in
            if n <? 0x800 then None else Some (n, r)
        | _ => None
        end
      else None
  end.

Definition utf8_agrees (h l : byte) : bool :=
  match utf8_decode (JParse.encodeUTF8 (bz h) (bz l)) with
  | Some (n, []) => n =? 256 * bz h + bz l
  | _ => false
  end.

Lemma utf8_agrees_all : forallb (fun h => forallb (utf8_agrees h) all_bytes) all_bytes = true.
Proof. by vm_compute. Qed.

Lemma utf8_decode_app s n r : utf8_decode s = Some (n, []) -> utf8_decode (s ++ r) = Some (n, r).
Proof.
  destruct s as [|c s]; [done|]. cbn [utf8_decode app]. destruct (bz c <? 0x80); [by intros [= <- ->]|].
  destruct (_ && _); [|destruct (_ && _); [|done]].
  - destruct s as [|c1 s]; [done|]. cbn [app]. destruct (utf8_tail c1); [|done]. cbn [mbind option_bind].
    destruct (_ <? _); [done|]. by intros [= <- ->].
  - destruct s as [|c1 [|c2 s]]; [done|done|]. cbn [app]. destruct (utf8_tail c1); [|done].
    cbn [mbind option_bind]. destruct (utf8_tail c2); [|done]. cbn [mbind option_bind].
    destruct (_ <? _); [done|]. by intros [= <- ->].
Qed.

(** The bytes written for an escaped character, given as the two halves of
    its code unit, are the UTF-8 encoding of the code unit, in its shortest
    form, whatever follows it in the text. *)
Theorem encodeUTF8_correct (h l : byte) r :
  utf8_decode (JParse.encodeUTF8 (bz h) (bz l) ++ r) = Some (256 * bz h + bz l, r).
Proof.
  apply utf8_decode_app. pose proof (for_all_bytes _ utf8_agrees_all h) as H. cbv beta in H.
  pose proof (for_all_bytes _ H l) as Hl. unfold utf8_agrees in Hl.
  destruct (utf8_decode _) as [[n [|c s]]|]; [|done|done]. by apply Z.eqb_eq in Hl as ->.
Qed.
