(* ===== verification/JsonSafe.v ===== *)
(** * JsonSafe: the JSON parser on any input

    Whatever the text, [fromjson] stops with the fuel it is given, reads
    nothing outside the text, and either fails with one of the exceptions of
    the parser and the builder or returns the encoding of a document: every
    field was written whole, every value is one of the types JSON text has and
    is in the range of its type.  The names and the regular expressions of the
    document are C strings unless the text escapes a NUL, as u0000.

    [safe p n Q] is the judgement the proof composes: on an input of at most
    [n] characters [p] leaves a suffix of it, its result satisfies [Q] with the
    length left, and it throws only what [too_large] allows. *)

From stdpp Require Import base list numbers strings option tactics.
From Stdlib Require Import Strings.Byte ZArith Lia.
From S2P Require Import Prelude Memory Decimal Codec Double Printf CNumber BsonTypes Format.
From S2P Require Import Element Obj Access Builder JsObj JsObjSpec BuilderSpec BuilderSafe Json JsonSpec.

(** ** Inputs *)

(** The text of an escaped NUL, without its backslash, occurs in [i]. *)
Fixpoint has_u0000 (i : list byte) : bool :=
  match JParse.strip_token (bstr "u0000") i with
  | Some _ => true
  | None => match i with [] => false | _ :: r => has_u0000 r end
  end.

Lemma has_u0000_cons c i : has_u0000 (c :: i) = false -> has_u0000 i = false.
Proof. cbn [has_u0000]. by destruct (JParse.strip_token (bstr "u0000") (c :: i)). Qed.

Section safe.
(** Whether the inputs are known not to escape a NUL. *)
Variable plain_nul : bool.

Definition text_ok (i : list byte) : Prop :=
  zlen i <= 2 ^ 28 /\ no_nul i = true /\ (plain_nul = true -> has_u0000 i = false).

Definition str_ok (s : list byte) : Prop := small s /\ (plain_nul = true -> no_nul s = true).

Lemma text_ok_suffix i i' : i' `suffix_of` i -> text_ok i -> text_ok i'.
Proof.
  intros [a ->] (Hl & Hn & Hu). unfold text_ok in *.
  rewrite zlen_app in Hl. pose proof (zlen_nonneg a). unfold no_nul in Hn |- *. rewrite forallb_app in Hn.
  apply andb_prop in Hn as [_ Hn]. split; [lia|]. split; [done|].
  intros Hp. specialize (Hu Hp). clear -Hu. induction a as [|c a IH]; [done|].
  apply IH. by apply has_u0000_cons in Hu.
Qed.

Definition safe {A} (p : parser A) (n : nat) (Q : A -> nat -> Prop) : Prop :=
  forall i, text_ok i -> (length i <= n)%nat ->
  match p i with
  | JParse.SOk a i' => i' `suffix_of` i /\ Q a (length i')
  | JParse.ParseError i' => i' `suffix_of` i
  | JParse.SThrow e => too_large e
  end.

Lemma safe_bind {A B} (m : parser A) (k : A -> parser B) n P Q :
  safe m n P -> (forall a n', P a n' -> (n' <= n)%nat -> safe (k a) n' Q) -> safe (pbind k m) n Q.
Proof.
  intros Hm Hk i Hi Hl. unfold mbind, JParse.parser_bind. specialize (Hm i Hi Hl).
  destruct (m i) as [a i'|i'|e]; [|done..]. destruct Hm as [Hs HP].
  pose proof (suffix_length _ _ Hs) as Hlen.
  specialize (Hk a (length i') HP ltac:(lia) i' (text_ok_suffix _ _ Hs Hi) ltac:(lia)).
  destruct (k a i') as [b j|j|e]; [|by trans i'|done]. destruct Hk as [Hj HQ]. split; [by trans i'|done].
Qed.

Lemma safe_weaken {A} (p : parser A) n P Q :
  safe p n P -> (forall a n', P a n' -> (n' <= n)%nat -> Q a n') -> safe p n Q.
Proof.
  intros Hp HPQ i Hi Hl. specialize (Hp i Hi Hl). destruct (p i) as [a i'|i'|e]; [|done..].
  destruct Hp as [Hs HP]. split; [done|]. apply HPQ; [done|]. pose proof (suffix_length _ _ Hs). lia.
Qed.

Lemma safe_smaller {A} (p : parser A) n n' Q : safe p n Q -> (n' <= n)%nat -> safe p n' Q.
Proof. intros Hp Hn i Hi Hl. apply Hp; [done|lia]. Qed.

Lemma safe_ret {A} (a : A) n (Q : A -> nat -> Prop) :
  (forall n', (n' <= n)%nat -> Q a n') -> safe (pret a) n Q.
Proof. intros HQ i Hi Hl. split; [done|]. by apply HQ. Qed.

Lemma safe_error {A} n (Q : A -> nat -> Prop) : safe JParse.parseError n Q.
Proof. intros i Hi Hl. by unfold JParse.parseError. Qed.

Lemma safe_check b n (Q : unit -> nat -> Prop) :
  (b = true -> forall n', (n' <= n)%nat -> Q tt n') -> safe (JParse.check b) n Q.
Proof. intros HQ. destruct b; [|apply safe_error]. apply safe_ret. by apply HQ. Qed.

(** An operation on a builder that works or throws. *)
Lemma safe_lift {A} (m : result A) n (Q : A -> nat -> Prop) :
  match m with Ok a => forall n', (n' <= n)%nat -> Q a n' | Err e => too_large e end ->
  safe (JParse.lift m) n Q.
Proof. intros Hm i Hi Hl. unfold JParse.lift. destruct m; [|done]. split; [done|]. by apply Hm. Qed.

(** ** Tokens *)

Lemma skip_space_suffix i : skip_space i `suffix_of` i.
Proof.
  induction i as [|c i IH]; cbn [skip_space]; [done|]. destruct (isspace c); [by apply suffix_cons_r|done].
Qed.

Lemma strip_token_suffix t : forall i i', JParse.strip_token t i = Some i' -> i = t ++ i'.
Proof.
  induction t as [|c t IH]; intros [|d i] i'; cbn; try (by intros [= ->]); try done.
  destruct (byte_eqb_spec c d) as [->|]; [|done]. intros H. by rewrite (IH _ _ H).
Qed.

(** A token accepted takes a character at least. *)
Lemma safe_accept t adv n : t <> [] ->
  safe (JParse.accept t adv) n (fun b n' => b = true -> adv = true -> (n' < n)%nat).
Proof.
  intros Ht i Hi Hl. unfold JParse.accept.
  destruct (JParse.strip_token t (skip_space i)) as [i'|] eqn:E; [|by split].
  destruct adv; [|by split]. apply strip_token_suffix in E.
  pose proof (skip_space_suffix i) as Hs. pose proof (suffix_length _ _ Hs) as Hlen.
  split; [trans (skip_space i); [|done]; rewrite E; by apply suffix_app_r|].
  intros _ _. rewrite E, length_app in Hlen. destruct t; [done|]. simpl in Hlen. lia.
Qed.

Lemma safe_expect t n : t <> [] -> safe (JParse.expect t) n (fun _ n' => (n' < n)%nat).
Proof.
  intros Ht. eapply safe_bind; [by apply safe_accept|]. intros b n' Hb Hn. apply safe_check.
  intros -> n2 Hn2. specialize (Hb eq_refl eq_refl). lia.
Qed.

(** ** Strings *)

Definition encodeUTF8_of (a b : byte) : list byte := JParse.encodeUTF8 (bz a) (bz b).

Lemma utf8_facts a b : zlen (encodeUTF8_of a b) <= 3 /\
  (Byte.eqb a x00 && Byte.eqb b x00 = false -> no_nul (encodeUTF8_of a b) = true).
Proof.
  assert ((zlen (encodeUTF8_of a b) <=? 3) &&
    implb (negb (Byte.eqb a x00 && Byte.eqb b x00)) (no_nul (encodeUTF8_of a b)) = true) as H.
  { revert a b. apply for_all_pairs. by vm_compute. }
  apply andb_prop in H as [Hl%Z.leb_le Hn]. split; [done|]. intros E. by rewrite E in Hn.
Qed.

Lemma fromHex_zero h l c : fromHex h l = Ok c -> Byte.eqb c x00 = true ->
  h = "0"%byte /\ l = "0"%byte.
Proof.
  intros Hc Hz.
  assert (implb (match fromHex h l with Ok c => Byte.eqb c x00 | Err _ => false end)
    (Byte.eqb h "0" && Byte.eqb l "0") = true) as H by (revert h l Hc; intros h l _; revert h l;
    apply for_all_pairs; by vm_compute).
  rewrite Hc, Hz in H. cbn [implb] in H. apply andb_prop in H as [Hh Hl].
  by destruct (byte_eqb_spec h "0"), (byte_eqb_spec l "0").
Qed.

Lemma fromHex_hex h l : isxdigit h = true -> isxdigit l = true -> exists c, fromHex h l = Ok c.
Proof.
  intros Hh Hl.
  assert (implb (isxdigit h && isxdigit l) (match fromHex h l with Ok _ => true | Err _ => false end) = true)
    as H by (revert h l Hh Hl; intros h l _ _; revert h l; apply for_all_pairs; by vm_compute).
  rewrite Hh, Hl in H. cbn [andb implb] in H. destruct (fromHex h l); [by eexists|done].
Qed.

Lemma escape_letter_nul d : Byte.eqb d x00 = false -> Byte.eqb (JParse.escape_letter d) x00 = false.
Proof. by destruct d. Qed.

Definition chars_post (q : list byte) (m : JParse.status (list byte)) : Prop :=
  match m with
  | JParse.SOk s i' => i' `suffix_of` q /\ zlen s + zlen i' <= zlen q /\
      (no_nul q = true -> has_u0000 q = false -> no_nul s = true)
  | JParse.ParseError _ => True
  | JParse.SThrow _ => False
  end.

Lemma push_post l q q' m : chars_post q' m -> q' `suffix_of` q -> zlen l + zlen q' <= zlen q ->
  (no_nul q = true -> has_u0000 q = false -> no_nul l = true /\ no_nul q' = true /\ has_u0000 q' = false) ->
  chars_post q (JParse.push l m).
Proof.
  destruct m as [s i'| |]; cbn; [|done..]. intros (Hs & Hl & Hn) Hq Hz Hl'.
  split; [by trans q'|]. rewrite zlen_app. split; [lia|]. intros H1 H2.
  destruct (Hl' H1 H2) as (Ha & Hb & Hc). unfold no_nul in *. by rewrite forallb_app, Ha, Hn.
Qed.

Lemma suffix_tail (l q : list byte) : q `suffix_of` l ++ q.
Proof. by apply suffix_app_r. Qed.

Lemma chars_go_post term allowed k : forall q, (length q <= k)%nat ->
  chars_post q (JParse.chars_go term allowed q).
Proof.
  induction k as [|k IH]; intros q Hq; [by destruct q; simpl in Hq; try lia|].
  destruct q as [|c r]; [done|]. simpl in Hq.
  assert (chars_post (c :: r) (JParse.SOk [] (c :: r))) as Hstop
    by (split; [done|]; split; [by rewrite zlen_nil|done]).
  cbn [JParse.chars_go]. destruct (JParse.jmatch c term); [exact Hstop|].
  destruct (match allowed with Some a => negb (JParse.jmatch c a) | None => false end); [exact Hstop|].
  destruct (bz c <=? 31); [done|].
  destruct (Byte.eqb c x5c) eqn:Ec.
  - destruct r as [|d r1]; [done|]. destruct (Byte.eqb d "u") eqn:Ed.
    + destruct r1 as [|h1 [|h2 [|h3 [|h4 [|h5 r2]]]]]; try done.
      destruct (JParse.isHexString [h1; h2; h3; h4]) eqn:Eh; [|done].
      unfold JParse.isHexString in Eh. cbn [forallb] in Eh. rewrite !andb_true_iff in Eh.
      destruct Eh as (H1 & H2 & H3 & H4 & _).
      destruct (fromHex_hex h1 h2 H1 H2) as [a Ha], (fromHex_hex h3 h4 H3 H4) as [b Hb]. rewrite Ha, Hb.
      destruct (utf8_facts a b) as [Hl Hnul]. unfold encodeUTF8_of in *.
      destruct (byte_eqb_spec d "u") as [->|]; [|done].
      apply (push_post _ _ (h5 :: r2)).
      * apply IH. simpl in *. lia.
      * apply (suffix_tail [c; "u"%byte; h1; h2; h3; h4]).
      * rewrite !zlen_cons. lia.
      * intros Hq0 Hu. unfold no_nul in *. cbn [forallb] in Hq0. rewrite !andb_true_iff in Hq0.
        split; [|split; [cbn [forallb]; rewrite !andb_true_iff; tauto|by do 6 apply has_u0000_cons in Hu]].
        apply Hnul. apply not_true_is_false. intros [Za Zb]%andb_prop.
        destruct (fromHex_zero _ _ _ Ha Za) as [-> ->], (fromHex_zero _ _ _ Hb Zb) as [-> ->].
        by apply has_u0000_cons in Hu.
    + destruct (JParse.escape_rejected d); [done|]. apply (push_post _ _ r1).
      * apply IH. simpl in *. lia.
      * apply (suffix_tail [c; d]).
      * rewrite !zlen_cons, zlen_nil. lia.
      * intros Hq0 Hu. unfold no_nul in *. cbn [forallb] in Hq0 |- *.
        rewrite !andb_true_iff, !negb_true_iff in *. destruct Hq0 as (_ & Hd & Hr).
        split; [split; [by apply escape_letter_nul|done]|]. split; [done|].
        by do 2 apply has_u0000_cons in Hu.
  - apply (push_post _ _ r); [apply IH; lia|apply (suffix_tail [c])|rewrite !zlen_cons, zlen_nil; lia|].
    intros Hq0 Hu. unfold no_nul in *. cbn [forallb] in Hq0 |- *. rewrite !andb_true_iff in *.
    split; [tauto|]. split; [tauto|]. by apply has_u0000_cons in Hu.
Qed.

Lemma safe_chars term allowed n : safe (JParse.chars term allowed) n (fun s _ => str_ok s).
Proof.
  intros i (Hl & Hn & Hu) Hlen. unfold JParse.chars.
  pose proof (chars_go_post term allowed (length i) i ltac:(lia)) as H.
  destruct (JParse.chars_go term allowed i) as [s i'| |e]; [|done|done].
  destruct H as (Hs & Hz & Hnul). split; [done|]. split; [unfold small; pose proof (zlen_nonneg i'); lia|].
  intros Hp. by apply Hnul, Hu.
Qed.

Lemma safe_then {A B} (m : parser A) (p : parser B) n P Q :
  safe m n P -> (forall n', (n' <= n)%nat -> safe p n' Q) -> safe (pbind (fun _ => p) m) n Q.
Proof. intros Hm Hp. eapply safe_bind; [exact Hm|]. intros a n' _ Hn. by apply Hp. Qed.

(** Steps whose result matters no more: a token, a string. *)
Ltac skip_tokens := repeat (eapply safe_then; [apply safe_expect; done|]; intros ? ?).

Lemma safe_quotedString n : safe JParse.quotedString n (fun s _ => str_ok s).
Proof.
  assert (forall t k, t <> [] -> safe (pbind (fun s => pbind (fun _ => pret s) (JParse.expect t))
    (JParse.chars t None)) k (fun s _ => str_ok s)) as Hq.
  { intros t k Ht. eapply safe_bind; [apply safe_chars|]. intros s n' Hs _.
    eapply safe_then; [by apply safe_expect|]. intros n2 _. by apply safe_ret. }
  unfold JParse.quotedString. eapply safe_bind; [by apply safe_accept|]. intros b n' _ _.
  destruct b; [by apply Hq|].
  eapply safe_bind; [by apply safe_accept|]. intros b n2 _ _. destruct b; [by apply Hq|apply safe_error].
Qed.

Lemma safe_field n : safe JParse.field n (fun s _ => str_ok s).
Proof.
  unfold JParse.field. eapply safe_bind; [by apply safe_accept|]. intros b1 n1 _ _.
  eapply (safe_bind _ _ _ (fun _ _ => True)).
  { destruct b1; [by apply safe_ret|]. eapply safe_weaken; [by apply safe_accept|done]. }
  intros b2 n2 _ _. destruct b2; [apply safe_quotedString|].
  intros i Hi Hl. unfold JParse.unquotedKey. pose proof (skip_space_suffix i) as Hs.
  pose proof (suffix_length _ _ Hs) as Hlen. destruct (skip_space i) as [|c r] eqn:E; [done|].
  destruct (JParse.jmatch c _); [|done].
  pose proof (safe_chars [] (Some (JParse.ALPHA ++ JParse.DIGIT ++ bstr "_$")) n2 (c :: r)
    (text_ok_suffix _ _ Hs Hi) ltac:(lia)) as H.
  destruct (JParse.chars _ _ (c :: r)) as [s i'|i'|e]; [|by trans (c :: r)|done].
  destruct H as [H1 H2]. split; [by trans (c :: r)|done].
Qed.

Lemma safe_expectField name n : safe (JParse.expectField name) n (fun _ _ => True).
Proof.
  unfold JParse.expectField. eapply (safe_bind _ _ _ (fun _ _ => True)); [|intros b n' _ _; by apply safe_check].
  intros i Hi Hl. unfold JParse.acceptField. pose proof (safe_field n i Hi Hl) as H.
  destruct (JParse.field i) as [s i'|i'|e]; [|by split|done]. by destruct H.
Qed.

(** ** Numbers *)

Lemma take_sign_suffix s neg r : take_sign s = (neg, r) -> r `suffix_of` s.
Proof.
  unfold take_sign. destruct s as [|c s]; [by intros [= _ <-]|].
  destruct (Byte.eqb c "-"); [intros [= _ <-]; by apply suffix_cons_r|].
  destruct (Byte.eqb c "+"); intros [= _ <-]; [by apply suffix_cons_r|done].
Qed.

Lemma span_suffix f s a b : span f s = (a, b) -> b `suffix_of` s.
Proof. intros [-> _]%span_spec. apply suffix_tail. Qed.

Lemma scan_integer_suffix s x r : scan_integer s = Some (x, r) -> r `suffix_of` s.
Proof.
  unfold scan_integer. destruct (take_sign (skip_space s)) as [neg s1] eqn:E1.
  destruct (span is_digit s1) as [ds y] eqn:E2. intros H.
  assert (y = r) as -> by (destruct ds; [done|by injection H]).
  trans s1; [by apply (span_suffix is_digit _ ds)|].
  trans (skip_space s); [by apply (take_sign_suffix _ neg)|apply skip_space_suffix].
Qed.

Lemma strtoll_facts s c : strtoll s = Some c ->
  conv_rest c `suffix_of` s /\ in_s 64 (conv_value c) = true.
Proof.
  unfold strtoll. destruct (scan_integer s) as [[[neg m] r]|] eqn:E; [|done].
  apply scan_integer_suffix in E. destruct (in_s 64 (if neg then - m else m)) eqn:Ein.
  - by intros [= <-].
  - intros [= <-]. split; [done|]. by destruct neg.
Qed.

Lemma strtoull_suffix s c : strtoull s = Some c -> conv_rest c `suffix_of` s.
Proof.
  unfold strtoull. destruct (scan_integer s) as [[[neg m] r]|] eqn:E; [|done].
  apply scan_integer_suffix in E. by destruct (m <? 2 ^ 64); intros [= <-].
Qed.

Lemma scan_digits_suffix f s x r : scan_digits f s = Some (x, r) -> r `suffix_of` s.
Proof.
  unfold scan_digits. destruct (span f s) as [ds y] eqn:E1. apply span_suffix in E1.
  destruct y as [|c y].
  - destruct ds; [done|]. by intros [= _ <-].
  - destruct (Byte.eqb c ".").
    + destruct (span f y) as [fs z] eqn:E2. apply span_suffix in E2.
      assert (y `suffix_of` s) by (trans (c :: y); [by apply suffix_cons_r|done]).
      assert (z `suffix_of` s) by (by trans y). destruct ds, fs; try done; by intros [= _ <-].
    + destruct ds; [done|]. by intros [= _ <-].
Qed.

Lemma scan_exponent_suffix e s x r : scan_exponent e s = (x, r) -> r `suffix_of` s.
Proof.
  unfold scan_exponent. destruct s as [|c s]; [by intros [= _ <-]|].
  destruct (Byte.eqb (tolower c) e); [|by intros [= _ <-]].
  destruct (take_sign s) as [neg r1] eqn:E1. apply take_sign_suffix in E1.
  destruct (span is_digit r1) as [ds r2] eqn:E2. apply span_suffix in E2.
  destruct ds; intros [= _ <-]; [done|]. apply suffix_cons_r. by trans r1.
Qed.

Lemma scale_rest neg num base x r : conv_rest (scale neg num base x r) = r.
Proof. unfold scale. by destruct (0 <=? x). Qed.

Lemma scan_decimal_suffix neg s c : scan_decimal neg s = Some c -> conv_rest c `suffix_of` s.
Proof.
  unfold scan_decimal. destruct (scan_digits is_digit s) as [[[ds k] r]|] eqn:E; [|done].
  destruct (scan_exponent "e" r) as [x r'] eqn:E'. intros [= <-]. rewrite scale_rest.
  trans r; [by apply (scan_exponent_suffix "e" _ x)|by apply (scan_digits_suffix _ _ _ _ E)].
Qed.

Lemma scan_hexadecimal_suffix neg s c : scan_hexadecimal neg s = Some c -> conv_rest c `suffix_of` s.
Proof.
  unfold scan_hexadecimal. destruct (scan_digits isxdigit s) as [[[ds k] r]|] eqn:E; [|done].
  destruct (scan_exponent "p" r) as [x r'] eqn:E'. intros [= <-]. rewrite scale_rest.
  trans r; [by apply (scan_exponent_suffix "p" _ x)|by apply (scan_digits_suffix _ _ _ _ E)].
Qed.

Lemma strip_word_suffix w : forall s r, strip_word w s = Some r -> r `suffix_of` s.
Proof.
  induction w as [|c w IH]; intros s r; [by intros [= ->]|]. destruct s as [|d s]; [done|]. cbn.
  destruct (Byte.eqb c (tolower d)); [|done]. intros H. apply suffix_cons_r. by apply IH.
Qed.

Lemma nan_tail_suffix s : nan_tail s `suffix_of` s.
Proof.
  unfold nan_tail. destruct s as [|c s]; [done|]. destruct (Byte.eqb c "("); [|done].
  destruct (span isalnum_ s) as [a y] eqn:E. apply span_suffix in E. cbn [snd].
  destruct y as [|d y]; [done|]. destruct (Byte.eqb d ")"); [|done].
  apply suffix_cons_r. trans (d :: y); [by apply suffix_cons_r|done].
Qed.

Lemma strtod_suffix s c : strtod s = Some c -> conv_rest c `suffix_of` s.
Proof.
  unfold strtod. destruct (take_sign (skip_space s)) as [neg s1] eqn:E1.
  assert (s1 `suffix_of` s) as Hs.
  { trans (skip_space s); [by apply (take_sign_suffix _ neg)|apply skip_space_suffix]. }
  destruct (strip_word (bstr "infinity") s1) as [r|] eqn:Ei.
  { intros [= <-]. trans s1; [by apply (strip_word_suffix _ _ _ Ei)|done]. }
  destruct (strip_word (bstr "inf") s1) as [r|] eqn:Ei2.
  { intros [= <-]. trans s1; [by apply (strip_word_suffix _ _ _ Ei2)|done]. }
  destruct (strip_word (bstr "nan") s1) as [r|] eqn:En.
  { intros [= <-]. cbn [conv_rest]. trans r; [apply nan_tail_suffix|].
    trans s1; [by apply (strip_word_suffix _ _ _ En)|done]. }
  destruct (strip_word (bstr "0x") s1) as [r|] eqn:Ex.
  - destruct (scan_hexadecimal neg r) as [h|] eqn:Eh.
    + intros [= <-]. trans r; [by apply (scan_hexadecimal_suffix neg)|].
      trans s1; [by apply (strip_word_suffix _ _ _ Ex)|done].
    + intros H. trans s1; [by apply (scan_decimal_suffix neg)|done].
  - intros H. trans s1; [by apply (scan_decimal_suffix neg)|done].
Qed.

Lemma fromHex_pairs_ok s : JParse.isHexString s = true -> exists x, fromHex_pairs s = Ok x.
Proof.
  assert (forall k s, (length s <= k)%nat -> JParse.isHexString s = true -> exists x, fromHex_pairs s = Ok x) as H.
  { clear s. induction k as [|k IH]; intros [|c0 [|c1 s]] Hl Hs; simpl in Hl; try lia; try by eexists.
    unfold JParse.isHexString in *. cbn [forallb] in Hs. rewrite !andb_true_iff in Hs.
    destruct Hs as (H0 & H1 & Hs). destruct (fromHex_hex c0 c1 H0 H1) as [c Hc].
    destruct (IH s ltac:(lia) Hs) as [x Hx]. cbn [fromHex_pairs]. rewrite Hc. cbn [bind]. rewrite Hx.
    by eexists. }
  by apply (H (length s)).
Qed.

Lemma b64_decode_length s : zlen (b64_decode_go s) <= zlen s.
Proof.
  assert (forall k s, (length s <= k)%nat -> zlen (b64_decode_go s) <= zlen s) as H.
  { clear s. induction k as [|k IH]; intros [|c0 [|c1 [|c2 [|c3 s]]]] Hl; simpl in Hl; try lia;
      try (transitivity 0; [done|apply zlen_nonneg]).
    assert (exists l, b64_decode_go (c0 :: c1 :: c2 :: c3 :: s) = l ++ b64_decode_go s /\ zlen l <= 3)
      as (l & -> & Hz) by (eexists; split; [reflexivity|unfold zlen; rewrite length_take; simpl; lia]).
    rewrite zlen_app, !zlen_cons. specialize (IH s ltac:(lia)). lia. }
  by apply (H (length s)).
Qed.

(** ** The documents the parser builds *)

(** A name or a pattern: a C string when no NUL is escaped. *)
Definition name_ok (s : list byte) : bool := negb plain_nul || no_nul s.

(** The types JSON text has, each value in the range of its type. *)
Fixpoint typed (v : value) : bool :=
  match v with
  | VUndefined | VNull | VString _ | VBinData _ _ | VBool _ => true
  | VDouble b | VDate b | VTimestamp b => in_u 64 b
  | VOID o => zlen o =? 12
  | VRegEx p o => name_ok p && name_ok o
  | VInt n => in_s 32 n
  | VLong n => in_s 64 n
  | VObject d | VArray d => forallb (fun f : field => name_ok (fst f) && typed (snd f)) d
  | _ => false
  end.
Definition typed_doc (d : doc) : bool := forallb (fun f : field => name_ok (fst f) && typed (snd f)) d.

(** The builder has got zero or more typed fields. *)
Definition grown (pre : list byte) (d : doc) (o : bool) (b : BSONObjBuilder) (_ : nat) : Prop :=
  exists fs, typed_doc fs = true /\ b_inv b pre (d ++ fs) o.

Lemma name_ok_str s : str_ok s -> name_ok s = true.
Proof. intros [_ Hs]. unfold name_ok. destruct plain_nul; [by apply Hs|done]. Qed.

Lemma grown_trans pre d o (n : nat) b' n' fs : typed_doc fs = true ->
  grown pre (d ++ fs) o b' n' -> grown pre d o b' n.
Proof.
  intros Hf (gs & Hg & Hb). exists (fs ++ gs). split; [|by rewrite app_assoc].
  unfold typed_doc in *. by rewrite forallb_app, Hf, Hg.
Qed.

(** An append of a typed value, whatever the model of the value it is stored
    from. *)
Lemma safe_append m name v w b pre d o n : total_appends m (name, v) ->
  enc_elem (name, v) = enc_elem (name, w) -> typed w = true -> str_ok name -> b_inv b pre d o ->
  safe (JParse.lift (m b)) n (grown pre d o).
Proof.
  intros Hm He Hw Hn Hb. apply safe_lift. pose proof (Hm b pre d o Hb) as H1.
  destruct (m b) as [b'|e]; [|done].
  intros n' _. exists [(name, w)]. split.
  - unfold typed_doc. cbn. by rewrite Hw, (name_ok_str _ Hn).
  - destruct H1 as ((ph & E & H) & Hr). split; [|done]. exists ph. split; [|done].
    rewrite E. do 2 f_equal. rewrite !enc_elems_app. f_equal. unfold enc_elems. cbn [flat_map].
    by rewrite He.
Qed.

Lemma enc_u64 (f : Z -> value) name z : (forall x, vtype (f x) = vtype (f 0) /\ enc_value (f x) = le64 x) ->
  enc_elem (name, f z) = enc_elem (name, f (u64 z)).
Proof.
  intros Hf. unfold enc_elem. cbn [fst snd]. destruct (Hf z) as [-> ->], (Hf (u64 z)) as [-> ->].
  do 3 f_equal. symmetry. apply (le_bytes_mod 8).
Qed.

Lemma u64_in z : in_u 64 (u64 z) = true.
Proof. apply in_u_spec, wrap_u_range. lia. Qed.

Section leaves.
Context (name : list byte) (b : BSONObjBuilder) (pre : list byte) (d : doc) (o : bool).
Context (Hname : str_ok name) (Hb : b_inv b pre d o).
Abbreviation G := (grown pre d o).
Let Hs : small name := proj1 Hname.

Lemma safe_double z n : safe (JParse.lift (append_double name z b)) n G.
Proof using Hname Hb.
  apply (safe_append _ name (VDouble z) (VDouble (u64 z))); [by apply total_double| |apply u64_in|done|done].
  by apply (enc_u64 VDouble).
Qed.

Lemma safe_date_append z n : safe (JParse.lift (appendDate name z b)) n G.
Proof using Hname Hb.
  apply (safe_append _ name (VDate z) (VDate (u64 z))); [by apply total_date| |apply u64_in|done|done].
  by apply (enc_u64 VDate).
Qed.

Lemma safe_timestamp_append z i n : safe (JParse.lift (appendTimestamp_inc name z i b)) n G.
Proof using Hname Hb.
  unfold appendTimestamp_inc. set (t := u32 (z / 1000) * 2 ^ 32 + i).
  apply (safe_append _ name (VTimestamp t) (VTimestamp (u64 t)));
    [by apply total_timestamp| |apply u64_in|done|done]. by apply (enc_u64 VTimestamp).
Qed.

Lemma safe_leaf m v n : total_appends m (name, v) -> typed v = true -> safe (JParse.lift (m b)) n G.
Proof using Hname Hb. intros Hm Hv. by apply (safe_append m name v v). Qed.

Lemma safe_scan conv n : (forall i c, conv i = Some c -> conv_rest c `suffix_of` i) ->
  safe (JParse.scan conv) n (fun _ _ => True).
Proof.
  intros Hc i Hi Hl. unfold JParse.scan. destruct (conv i) as [c|] eqn:E; [|done].
  destruct (conv_erange c); [done|]. split; [by apply Hc|done].
Qed.

Lemma safe_date_millis n : safe JParse.date_millis n (fun _ _ => True).
Proof.
  intros i Hi Hl. unfold JParse.date_millis. destruct (strtoll i) as [c|] eqn:E; [|done].
  destruct (conv_erange c); [|split; [by destruct (strtoll_facts _ _ E)|done]].
  apply (safe_scan strtoull n strtoull_suffix i Hi Hl).
Qed.

Lemma safe_unsigned32 n : safe JParse.unsigned32 n (fun _ _ => True).
Proof.
  unfold JParse.unsigned32. eapply safe_bind; [by apply safe_accept|]. intros m n1 _ _.
  eapply safe_then; [by apply (safe_check _ _ (fun _ _ => True))|]. intros n2 _.
  eapply safe_bind; [apply safe_scan, strtoull_suffix|]. intros z n3 _ _. by apply safe_ret.
Qed.

Lemma safe_number n : safe (JParse.number name b) n G.
Proof using Hname Hb.
  intros i Hi Hl. unfold JParse.number. destruct (strtod i) as [c|] eqn:E; [|done].
  apply strtod_suffix in E. destruct (conv_erange c); [done|].
  set (m := match strtoll i with Some _ => _ | None => _ end).
  assert (match m with Ok b' => G b' 0%nat | Err e => too_large e end) as Hm.
  { assert (forall (x : result BSONObjBuilder) k, safe (JParse.lift x) k G ->
      match x with Ok b' => G b' 0%nat | Err e => too_large e end) as Hx.
    { intros x k Hx. specialize (Hx [] ltac:(by repeat split) ltac:(simpl; lia)).
      unfold JParse.lift in Hx. destruct x; [|done]. by destruct Hx. }
    subst m. destruct (strtoll i) as [l|] eqn:El; [|apply (Hx _ 0%nat), safe_double].
    destruct (strtoll_facts _ _ El) as [_ Hlv].
    destruct ((length (conv_rest c) <? length (conv_rest l))%nat || conv_erange l);
      [apply (Hx _ 0%nat), safe_double|].
    destruct (conv_value l =? s32 (conv_value l)).
    - apply (Hx _ 0%nat), (safe_leaf _ (VInt (s32 (conv_value l)))); [by apply total_int|].
      apply in_s_spec, wrap_s_range. lia.
    - apply (Hx _ 0%nat), (safe_leaf _ (VLong (conv_value l))); [by apply total_longlong|done]. }
  destruct m as [b'|e]; [|done].
  destruct (conv_rest c) as [|x r]; [by destruct i; [|apply suffix_nil]|]. by split.
Qed.

Lemma safe_date n : safe (JParse.date name b) n G.
Proof using Hname Hb.
  unfold JParse.date. skip_tokens. eapply safe_bind; [apply safe_date_millis|]. intros m n1 _ _.
  skip_tokens. apply safe_date_append.
Qed.

Lemma safe_constructor n : safe (JParse.constructor name b) n G.
Proof using Hname Hb.
  unfold JParse.constructor. skip_tokens. intros i Hi Hl. unfold JParse.ignore_status.
  pose proof (safe_date _ i Hi Hl) as H'. destruct (JParse.date name b i) as [b' i'|i'|e]; [done| |done].
  split; [done|]. exists []. by rewrite app_nil_r.
Qed.

Lemma safe_timestamp n : safe (JParse.timestamp name b) n G.
Proof using Hname Hb.
  unfold JParse.timestamp. skip_tokens. eapply safe_bind; [apply safe_unsigned32|]. intros s n1 _ _.
  skip_tokens. eapply safe_bind; [apply safe_unsigned32|]. intros i n2 _ _.
  skip_tokens. apply safe_timestamp_append.
Qed.

Lemma safe_append_id id n : safe (JParse.append_id name id b) n G.
Proof using Hname Hb.
  unfold JParse.append_id.
  eapply (safe_bind _ _ _ (fun _ _ => zlen id = 24)); [apply safe_check; intros Hz _ _; lia|].
  intros _ n1 Hl _.
  eapply (safe_bind _ _ _ (fun _ _ => JParse.isHexString id = true)); [by apply safe_check|].
  intros _ n2 Hh _.
  eapply (safe_bind _ _ _ (fun x _ => zlen x = 12)).
  - apply safe_lift. destruct (OID_init_string id) as [x|e] eqn:E; [intros _ _; by apply (OID_init_length id)|].
    exfalso. unfold OID_init_string in E. rewrite Hl in E. cbn [verify bind] in E.
    destruct (fromHex_pairs_ok id Hh) as [x Hx]. change (24 =? 24) with true in E. cbn in E. congruence.
  - intros x n3 Hx _. apply (safe_leaf _ (VOID x)); [by apply total_OID|]. cbn. lia.
Qed.

Lemma safe_objectId n : safe (JParse.objectId name b) n G.
Proof using Hname Hb.
  unfold JParse.objectId. skip_tokens. eapply safe_bind; [apply safe_quotedString|]. intros id n1 _ _.
  skip_tokens. apply safe_append_id.
Qed.

Lemma safe_objectIdObject n : safe (JParse.objectIdObject name b) n G.
Proof using Hname Hb.
  unfold JParse.objectIdObject. skip_tokens. eapply safe_bind; [apply safe_quotedString|].
  intros id n1 _ _. apply safe_append_id.
Qed.

Lemma safe_appendRegex p q n : str_ok p -> str_ok q -> safe (JParse.lift (appendRegex name p q b)) n G.
Proof using Hname Hb.
  intros Hp Hq. apply (safe_leaf _ (VRegEx p q)); [apply total_regex; [done|apply Hp|apply Hq]|].
  cbn [typed]. by rewrite !name_ok_str.
Qed.

Lemma safe_regex n : safe (JParse.regex name b) n G.
Proof using Hname Hb.
  unfold JParse.regex. skip_tokens. eapply safe_bind; [apply safe_chars|]. intros p n1 Hp _. skip_tokens.
  eapply safe_bind; [apply safe_chars|]. intros q n2 Hq _.
  eapply safe_then; [by apply (safe_check _ _ (fun _ _ => True))|]. intros n3 _. by apply safe_appendRegex.
Qed.

Lemma safe_regexObject n : safe (JParse.regexObject name b) n G.
Proof using Hname Hb.
  unfold JParse.regexObject. skip_tokens. eapply safe_bind; [apply safe_quotedString|]. intros p n1 Hp _.
  eapply safe_bind; [by apply safe_accept|]. intros comma n2 _ _. destruct comma.
  - eapply safe_then; [apply safe_expectField|]. intros n3 _. skip_tokens.
    eapply safe_bind; [apply safe_quotedString|]. intros q n4 Hq _.
    eapply safe_then; [by apply (safe_check _ _ (fun _ _ => True))|]. intros n5 _. by apply safe_appendRegex.
  - apply safe_appendRegex; [done|]. by split.
Qed.

Lemma safe_dateObject n : safe (JParse.dateObject name b) n G.
Proof using Hname Hb.
  unfold JParse.dateObject. skip_tokens. eapply safe_bind; [apply safe_date_millis|]. intros m n1 _ _.
  apply safe_date_append.
Qed.

Lemma safe_timestampObject n : safe (JParse.timestampObject name b) n G.
Proof using Hname Hb.
  unfold JParse.timestampObject. skip_tokens. eapply safe_then; [apply safe_expectField|]. intros n1 _.
  skip_tokens. eapply safe_bind; [apply safe_unsigned32|]. intros s n2 _ _. skip_tokens.
  eapply safe_then; [apply safe_expectField|]. intros n3 _. skip_tokens.
  eapply safe_bind; [apply safe_unsigned32|]. intros i n4 _ _. skip_tokens. apply safe_timestamp_append.
Qed.

Lemma safe_undefinedObject n : safe (JParse.undefinedObject name b) n G.
Proof using Hname Hb.
  unfold JParse.undefinedObject. skip_tokens. apply (safe_leaf _ VUndefined); [by apply total_undefined|done].
Qed.

Lemma safe_binaryObject n : safe (JParse.binaryObject name b) n G.
Proof using Hname Hb.
  unfold JParse.binaryObject. skip_tokens. eapply safe_bind; [apply safe_quotedString|]. intros s n1 Hs1 _.
  eapply (safe_bind _ _ _ (fun _ _ => Z.rem (zlen s) 4 = 0)); [apply safe_check; intros Hz _ _; lia|].
  intros _ n2 Hm _. eapply safe_then; [by apply (safe_check _ _ (fun _ _ => True))|]. intros n3 _.
  eapply (safe_bind _ _ _ (fun x _ => small x)).
  { apply safe_lift. unfold b64_decode. rewrite Hm. cbn [uassert bind Z.eqb]. intros _ _.
    unfold small. pose proof (b64_decode_length s). destruct Hs1 as [Hs1 _]. unfold small in Hs1. lia. }
  intros x n4 Hx _. skip_tokens. eapply safe_then; [apply safe_expectField|]. intros n5 _. skip_tokens.
  eapply safe_bind; [apply safe_quotedString|]. intros t n6 _ _.
  eapply (safe_bind _ _ _ (fun _ _ => (zlen t =? 2) && JParse.isHexString t = true)); [by apply safe_check|].
  intros _ n7 [Hl Hh]%andb_prop _.
  eapply (safe_bind _ _ _ (fun _ _ => True)).
  { apply safe_lift. destruct t as [|c0 [|c1 t]]; [done|done|]. unfold JParse.isHexString in Hh.
    cbn [forallb] in Hh. rewrite !andb_true_iff in Hh. destruct Hh as (Hh0 & Hh1 & _).
    by destruct (fromHex_hex c0 c1 Hh0 Hh1) as [c ->]. }
  intros u n8 _ _. apply (safe_leaf _ (VBinData u x)); [by apply total_binary|done].
Qed.
End leaves.

Lemma safe_assoc {A B C} (m : parser A) (g : A -> parser B) (k : B -> parser C) n P Q :
  safe (pbind g m) n P -> (forall b n', P b n' -> (n' <= n)%nat -> safe (k b) n' Q) ->
  safe (pbind (fun a => pbind k (g a)) m) n Q.
Proof.
  intros Hm Hk i Hi Hl. pose proof (safe_bind (pbind g m) k n P Q Hm Hk i Hi Hl) as H.
  unfold mbind, JParse.parser_bind in *. by destruct (m i).
Qed.

(** ** Nested values *)

(** A way to finish a sub-builder: as its destructor does, or an exception. *)
Definition finishes (fin : BSONObjBuilder * BSONObjBuilder -> parser BSONObjBuilder) : Prop :=
  forall p s pre d i, b_inv s pre d false ->
  fin (p, s) i = JParse.lift (sub_done p s) i \/ exists e, fin (p, s) i = JParse.SThrow e /\ too_large e.

Lemma finishes_destroy : finishes JParse.finish_destroy.
Proof. intros p s pre d i _. by left. Qed.

Lemma finishes_done : finishes JParse.finish_done.
Proof.
  intros p s pre d i Hs. unfold JParse.finish_done, sub_done, mbind, JParse.parser_bind, JParse.lift, done.
  cbn [fst snd]. pose proof (total_obj _ _ _ _ Hs) as H. destruct (_done s) as [s'|e]; cbn [bind]; [|by left].
  destruct H as (Eb & Eo & Hz). unfold objdata. rewrite Eb, Eo, total_init by done.
  destruct (zlen (enc_doc d) <=? BSONObjMaxInternalSize); cbn [bind]; [by left|].
  right. eexists. split; [done|]. by right.
Qed.

Lemma safe_sub fin t (V : doc -> value) name body b pre d o n : finishes fin ->
  (forall x, vtype (V x) = t /\ enc_value (V x) = enc_doc x /\ typed (V x) = typed_doc x) ->
  str_ok name -> b_inv b pre d o ->
  (forall s pre', b_inv s pre' [] false -> safe (body s) n (grown pre' [] false)) ->
  safe (pbind fin (JParse.sub_builder (on_b (header t name)) body b)) n (grown pre d o).
Proof.
  intros Hfin HV Hname Hb Hbody i Hi Hl. pose proof (total_sub_start t name b pre d o (proj1 Hname) Hb) as H.
  unfold JParse.sub_builder, mbind, JParse.parser_bind.
  destruct (on_b (header t name) b) as [b1|e]; cbn [JParse.lift bind] in *; [|exact H].
  destruct (BSONObjBuilder_on (_b b1)) as [s|e]; cbn [JParse.lift bind] in *; [|exact H].
  destruct H as [Hop Hs0]. specialize (Hbody s _ Hs0 i Hi Hl).
  destruct (body s i) as [s' i'|i'|e]; [|done..].
  destruct Hbody as [Hsuf (fs & Hfs & Hinv)]. cbn [app] in Hinv.
  cbn [mret JParse.parser_ret]. destruct (Hfin b1 s' _ _ i' Hinv) as [-> |(e & -> & He)]; [|done].
  destruct (HV fs) as (Ht & He & Hty).
  pose proof (total_sub_done (V fs) t name b b1 s' pre d fs o Ht He Hb Hop Hinv) as H2.
  unfold JParse.lift. destruct (sub_done b1 s') as [b2|e]; [|done]. split; [done|].
  exists [(name, V fs)]. split; [|done]. unfold typed_doc. cbn. by rewrite (name_ok_str _ Hname), Hty, Hfs.
Qed.

Lemma safe_grown {p : parser BSONObjBuilder} pre d o n fs : typed_doc fs = true ->
  safe p n (grown pre (d ++ fs) o) -> safe p n (grown pre d o).
Proof.
  intros Hf Hp. eapply safe_weaken; [exact Hp|]. intros b' n' Hg _. by apply (grown_trans _ _ _ n' _ n' fs).
Qed.

Definition value_safe (f : nat) : Prop := forall name b pre d o n, str_ok name -> b_inv b pre d o ->
  (n < f)%nat -> safe (JParse.value f name b) n (grown pre d o).

Section nested.
Context (f : nat) (Hval : value_safe f).

Lemma safe_members k : forall b pre d o n, b_inv b pre d o -> (n < k)%nat -> (n < f)%nat ->
  safe (JParse.members (JParse.value f) k b) n (grown pre d o).
Proof using Hval.
  induction k as [|k IH]; intros b pre d o n Hb Hk Hf; [lia|]. cbn [JParse.members].
  eapply safe_bind; [by apply safe_accept|]. intros comma n1 Hlt _. destruct comma.
  - specialize (Hlt eq_refl eq_refl). eapply safe_bind; [apply safe_field|]. intros name n2 Hname Hn2.
    skip_tokens. eapply safe_bind; [apply Hval; [done|exact Hb|lia]|].
    intros b' n4 (fs & Hfs & Hb') Hn4. apply (safe_grown _ _ _ _ fs Hfs). apply IH; [done|lia|lia].
  - apply safe_ret. intros n' _. exists []. by rewrite app_nil_r.
Qed.

Lemma safe_with_fuel (loop : nat -> parser BSONObjBuilder) n Q :
  (forall m, (m <= n)%nat -> safe (loop (S m)) m Q) -> safe (JParse.with_fuel loop) n Q.
Proof. intros H i Hi Hl. by apply (H (length i)). Qed.

Lemma safe_normal_object name b pre d o n : str_ok name -> b_inv b pre d o -> (n < f)%nat ->
  safe (JParse.normal_object (JParse.value f) name b) n (grown pre d o).
Proof using Hval.
  intros Hname Hb Hn. unfold JParse.normal_object. skip_tokens.
  eapply safe_bind; [apply Hval; [done|exact Hb|lia]|]. intros b' n2 (fs & Hfs & Hb') Hn2.
  apply (safe_grown _ _ _ _ fs Hfs). apply safe_with_fuel. intros m Hm. apply safe_members; [done|lia|lia].
Qed.

Lemma safe_elements k : forall index b pre d o n, b_inv b pre d o -> (n < k)%nat -> (n < f)%nat ->
  safe (JParse.elements (JParse.value f) k index b) n (grown pre d o).
Proof using Hval.
  induction k as [|k IH]; intros index b pre d o n Hb Hk Hf; [lia|]. cbn [JParse.elements].
  assert (str_ok (numStr (s32 index))) as Hname.
  { split; [|intros _; apply dec_no_nul]. unfold small, numStr, dec.
    pose proof (wrap_s_range 32 index ltac:(lia)) as Hr. change (2 ^ (32 - 1)) with 2147483648 in Hr.
    assert (forall m, 0 <= m <= 2147483648 -> zlen (dec_nonneg m) <= 10) as Hd.
    { intros m Hm. destruct (dec_nonneg_spec m ltac:(lia)) as (_ & _ & _ & H & _). apply H; [lia|].
      change (10 ^ 10) with 10000000000. lia. }
    destruct (Z.ltb_spec (s32 index) 0).
    - rewrite zlen_cons. pose proof (Hd (- s32 index) ltac:(lia)). change (2 ^ 28) with 268435456. lia.
    - pose proof (Hd (s32 index) ltac:(lia)). change (2 ^ 28) with 268435456. lia. }
  eapply safe_bind; [apply Hval; [exact Hname|exact Hb|done]|]. intros b' n1 (fs & Hfs & Hb') Hn1.
  apply (safe_grown _ _ _ _ fs Hfs).
  eapply safe_bind; [by apply safe_accept|]. intros comma n2 Hlt Hn2. destruct comma.
  - specialize (Hlt eq_refl eq_refl). apply IH; [done|lia|lia].
  - apply safe_ret. intros n' _. exists []. by rewrite app_nil_r.
Qed.

Section nested_value.
Context (name : list byte) (b : BSONObjBuilder) (pre : list byte) (d : doc) (o : bool).
Context (Hname : str_ok name) (Hb : b_inv b pre d o).

Lemma str_ok_const s : (zlen s <=? 2 ^ 28) && no_nul s = true -> str_ok s.
Proof. intros [Hl%Z.leb_le Hn]%andb_prop. by split. Qed.

Lemma grown_none pre' d' o' s n : b_inv s pre' d' o' -> grown pre' d' o' s n.
Proof. intros H. exists []. by rewrite app_nil_r. Qed.

Lemma safe_array n : (n <= f)%nat -> safe (JParse.array (JParse.value f) name b) n (grown pre d o).
Proof using Hval Hname Hb.
  intros Hn. unfold JParse.array. eapply safe_bind; [by apply safe_expect|]. intros u n1 Hlt _; cbv beta in Hlt.
  eapply (safe_assoc _ _ _ _ (grown pre d o)).
  - apply (safe_sub _ Array VArray); [apply finishes_done|done|done|exact Hb|]. intros s pre' Hs.
    eapply safe_bind; [by apply safe_accept|]. intros empty n2 _ Hn2. destruct empty.
    + apply safe_ret. intros n' _. by apply grown_none.
    + apply safe_with_fuel. intros m Hm. apply safe_elements; [done|lia|lia].
  - intros b' n2 Hg Hn2. skip_tokens. apply safe_ret. intros ? _. exact Hg.
Qed.

(** A sub-builder for a reference: the namespace, then the identifier. *)
Lemma safe_ref_fields s pre' ns n (k : BSONObjBuilder -> parser BSONObjBuilder) :
  b_inv s pre' [] false -> str_ok ns ->
  (forall s' d', b_inv s' pre' d' false -> typed_doc d' = true -> safe (k s') n (grown pre' d' false)) ->
  safe (pbind k (JParse.lift (append_string (bstr "$ref") ns s))) n (grown pre' [] false).
Proof.
  intros Hs Hns Hk.
  eapply safe_bind; [apply (safe_leaf _ s pre' [] false (str_ok_const (bstr "$ref") eq_refl) Hs _ (VString ns));
    [apply total_string; [by vm_compute|apply Hns]|done]|].
  intros s' n' (fs & Hfs & Hs') Hn'. apply (safe_grown pre' [] false n' fs Hfs).
  eapply safe_smaller; [by apply Hk|done].
Qed.

Lemma safe_dbRef n : (n < f)%nat -> safe (JParse.dbRef (JParse.value f) name b) n (grown pre d o).
Proof using Hval Hname Hb.
  intros Hn. unfold JParse.dbRef. apply (safe_sub _ Object VObject); [apply finishes_done|done|done|exact Hb|].
  intros s pre' Hs. eapply safe_bind; [by apply safe_expect|]. intros u n1 Hlt _; cbv beta in Hlt.
  eapply safe_bind; [apply safe_quotedString|]. intros ns n2 Hns Hn2.
  apply safe_ref_fields; [done|done|]. intros s' d' Hs' Hd'. skip_tokens.
  eapply safe_bind; [apply Hval; [by apply str_ok_const|exact Hs'|lia]|]. intros s2 n4 Hg Hn4.
  skip_tokens. apply safe_ret. intros ? _. exact Hg.
Qed.

Lemma safe_dbRefObject n : (n < f)%nat -> safe (JParse.dbRefObject (JParse.value f) name b) n (grown pre d o).
Proof using Hval Hname Hb.
  intros Hn. unfold JParse.dbRefObject. apply (safe_sub _ Object VObject); [apply finishes_done|done|done|exact Hb|].
  intros s pre' Hs. eapply safe_bind; [by apply safe_expect|]. intros u n1 Hlt _; cbv beta in Hlt.
  eapply safe_bind; [apply safe_quotedString|]. intros ns n2 Hns Hn2.
  apply safe_ref_fields; [done|done|]. intros s' d' Hs' Hd'. skip_tokens.
  eapply safe_then; [apply safe_expectField|]. intros n4 Hn4. skip_tokens.
  apply Hval; [by apply str_ok_const|exact Hs'|lia].
Qed.

Lemma safe_object sub n : (n <= f)%nat -> safe (JParse.object (JParse.value f) name b sub) n (grown pre d o).
Proof using Hval Hname Hb.
  intros Hn. unfold JParse.object. eapply safe_bind; [by apply safe_expect|]. intros u n1 Hlt _; cbv beta in Hlt.
  eapply safe_bind; [by apply safe_accept|]. intros empty n2 _ Hn2. destruct empty.
  { destruct sub; [|apply safe_ret; intros n' _; by apply grown_none].
    apply (safe_sub _ Object VObject); [apply finishes_done|done|done|exact Hb|]. intros s pre' Hs.
    apply safe_ret. intros n' _. by apply grown_none. }
  eapply safe_bind; [apply safe_field|]. intros first n3 Hfirst Hn3.
  eapply (safe_bind _ _ _ (grown pre d o)).
  2: { intros b' n4 Hg Hn4. skip_tokens. apply safe_ret. intros ? _. exact Hg. }
  repeat match goal with
  | |- safe (if bytes_eqb _ _ then _ else _) _ _ => destruct (bytes_eqb _ _);
      [eapply safe_then; [by apply (safe_check _ _ (fun _ _ => True))|]; intros n4 Hn4|]
  end.
  - by apply safe_objectIdObject.
  - by apply safe_binaryObject.
  - by apply safe_dateObject.
  - by apply safe_timestampObject.
  - by apply safe_regexObject.
  - apply safe_dbRefObject. lia.
  - by apply safe_undefinedObject.
  - destruct sub; [|apply safe_normal_object; [done|exact Hb|lia]].
    apply (safe_sub _ Object VObject); [apply finishes_destroy|done|done|exact Hb|].
    intros s pre' Hs. apply safe_normal_object; [done|exact Hs|lia].
Qed.

(** An alternative runs after its token. *)
Lemma safe_first_accepted alts other n Q :
  Forall (fun x => fst (fst x) <> [] /\
    forall n', (n' <= n)%nat -> (snd (fst x) = true -> (n' < n)%nat) -> safe (snd x) n' Q) alts ->
  safe other n Q -> safe (JParse.first_accepted alts other) n Q.
Proof.
  intros H Ho. assert (forall k, (k <= n)%nat -> safe (JParse.first_accepted alts other) k Q) as Hk; [|by apply Hk].
  induction alts as [|[[t adv] p] alts IH]; intros k Hk; [by eapply safe_smaller|].
  apply Forall_cons_1 in H as [[Ht Hp] H]. cbn [fst snd JParse.first_accepted] in *.
  eapply safe_bind; [by apply safe_accept|]. intros a n1 Hlt Hn1. destruct a.
  - apply Hp; [lia|]. intros Ha. specialize (Hlt eq_refl Ha). lia.
  - apply IH; [done|lia].
Qed.

Lemma safe_value_step n : (n < S f)%nat -> safe (JParse.value (S f) name b) n (grown pre d o).
Proof using Hval Hname Hb.
  intros Hn. cbn [JParse.value]. apply safe_first_accepted; [|by apply safe_number].
  assert (forall m, safe (pbind (fun s => JParse.lift (append_string name s b)) JParse.quotedString) m
    (grown pre d o)) as Hstr.
  { intros m. eapply safe_bind; [apply safe_quotedString|]. intros s n1 Hs _.
    apply (safe_leaf name b pre d o Hname Hb _ (VString s)); [|done].
    apply total_string; [apply Hname|apply Hs]. }
  assert (forall x m, safe (JParse.lift (append_bool name x b)) m (grown pre d o)) as Hbool.
  { intros x m. apply (safe_leaf name b pre d o Hname Hb _ (VBool x)); [|done]. apply total_bool, Hname. }
  repeat apply Forall_cons_2; try apply Forall_nil_2;
    (split; [done|]); cbn [fst snd]; intros m Hm Hlt; try (specialize (Hlt eq_refl)).
  - apply safe_object. lia.
  - apply safe_array. lia.
  - by apply safe_constructor.
  - by apply safe_date.
  - by apply safe_timestamp.
  - by apply safe_objectId.
  - apply safe_dbRef. lia.
  - apply safe_dbRef. lia.
  - by apply safe_regex.
  - apply Hstr.
  - apply Hstr.
  - apply Hbool.
  - apply Hbool.
  - apply (safe_leaf name b pre d o Hname Hb _ VNull); [apply total_null, Hname|done].
  - apply (safe_leaf name b pre d o Hname Hb _ VUndefined); [apply total_undefined, Hname|done].
  - by apply safe_double.
  - by apply safe_double.
  - by apply safe_double.
Qed.
End nested_value.
End nested.

(** Fuel more than the length of the input is enough. *)
Lemma value_safe_all f : value_safe f.
Proof.
  induction f as [|f IH]; intros name b pre d o n Hname Hb Hn; [lia|]. by apply safe_value_step.
Qed.

Lemma fromjson_safe_core s : text_ok s ->
  match JParse.fromjson s with
  | Ok (x, n) => exists d, typed_doc d = true /\ x ↦ enc_doc d /\
      zlen (enc_doc d) <= BSONObjMaxInternalSize /\ 0 <= n <= zlen s
  | Err e => e = MsgAssert 16619 \/ too_large e
  end.
Proof.
  intros Hs. unfold JParse.fromjson. destruct s as [|c s].
  { exists []. split; [done|]. split; [apply (points_start (enc_doc []))|]. by vm_compute. }
  destruct total_new as (b & -> & Hb). cbn [bind].
  pose proof (safe_object (length (c :: s)) (value_safe_all _) (bstr "UNUSED") b (le32 0) [] true
    (str_ok_const (bstr "UNUSED") eq_refl) Hb false (length (c :: s)) (Nat.le_refl _) (c :: s) Hs (Nat.le_refl _)) as H.
  destruct (JParse.object _ _ _ _ _) as [b' i|i|e]; [|by left|by right].
  destruct H as [Hsuf (d & Hd & Hb')]. cbn [app] in Hb'.
  pose proof (total_obj _ _ _ _ Hb') as H. destruct Hb' as (_ & _ & Ho). unfold obj. rewrite Ho.
  cbn [massert bind]. destruct (_done b') as [b2|e]; cbn [bind]; [|by right].
  destruct H as (Eb & Eo & Hz). unfold objdata. rewrite Eb, Eo, total_init by done.
  destruct (Z.leb_spec (zlen (enc_doc d)) BSONObjMaxInternalSize); cbn [bind]; [|by right; right].
  exists d. split; [done|]. split.
  { pose proof (points_start (le32 0 ++ enc_doc d)) as Hp. by apply (points_app_r _ _ _ (zlen (le32 0))) in Hp. }
  split; [done|]. pose proof (suffix_length _ _ Hsuf). unfold zlen. lia.
Qed.
End safe.

(** ** Well-formed documents *)

Lemma typed_fields_wf d : Forall (fun f : field => typed true (snd f) = true ->
    zlen (enc_value (snd f)) + 7 <= BSONObjMaxInternalSize -> wf_value (snd f) = true) d ->
  typed_doc true d = true -> zlen (enc_doc d) <= BSONObjMaxInternalSize -> wf_doc d = true.
Proof.
  intros IH Ht Hz. unfold wf_doc. apply andb_true_intro. split; [|by apply Z.leb_le].
  rewrite zlen_enc_doc in Hz. induction IH as [|[n v'] d Hv IH IHd]; [done|].
  unfold typed_doc in *. cbn [forallb fst snd] in *. rewrite !andb_true_iff in Ht.
  destruct Ht as [[Hn Hv'] Ht]. rewrite zlen_enc_elems_cons, zlen_enc_elem in Hz.
  pose proof (zlen_nonneg n). pose proof (zlen_nonneg (enc_elems d)). pose proof (zlen_nonneg (enc_value v')).
  rewrite IHd by (done || lia). unfold wf_field. cbn [fst snd]. rewrite Hv by (done || lia).
  unfold name_ok in Hn. cbn in Hn. by rewrite Hn.
Qed.

(** A typed value within the size limit of an object is well-formed, when its
    names are C strings. *)
Lemma typed_wf v : typed true v = true -> zlen (enc_value v) + 7 <= BSONObjMaxInternalSize ->
  wf_value v = true.
Proof.
  pattern v. apply value_nested_ind; clear v.
  - intros v. destruct v; try exact I; intros Ht Hz; try discriminate Ht; cbn [typed wf_value] in *; try done.
    + cbn [enc_value] in Hz. rewrite zlen_enc_string in Hz. lia.
    + cbn [enc_value] in Hz. rewrite zlen_app, zlen_le_bytes, zlen_cons in Hz. lia.
    + unfold name_ok in Ht. cbn [negb orb] in Ht. rewrite Ht. cbn [andb]. cbn [enc_value] in Hz.
      rewrite zlen_app, zlen_cons, zlen_app in Hz. change (zlen [x00]) with 1 in Hz. lia.
  - intros d IH Ht Hz. rewrite wf_value_object. rewrite enc_value_object in Hz. apply typed_fields_wf; [done|done|lia].
  - intros d IH Ht Hz. rewrite wf_value_array. rewrite enc_value_array in Hz. apply typed_fields_wf; [done|done|lia].
  - done.
Qed.

Lemma typed_doc_wf d : typed_doc true d = true -> zlen (enc_doc d) <= BSONObjMaxInternalSize -> wf_doc d = true.
Proof. apply typed_fields_wf, List.Forall_forall. intros f _. apply typed_wf. Qed.

Lemma name_ok_weaken n : name_ok true n = true -> name_ok false n = true.
Proof. done. Qed.

Lemma typed_weaken v : typed true v = true -> typed false v = true.
Proof.
  assert (forall d, Forall (fun f : field => typed true (snd f) = true -> typed false (snd f) = true) d ->
    forallb (fun f : field => name_ok true (fst f) && typed true (snd f)) d = true ->
    forallb (fun f : field => name_ok false (fst f) && typed false (snd f)) d = true) as Hd.
  { intros d H Ht. rewrite forallb_forall in *. rewrite List.Forall_forall in H. intros f Hf.
    specialize (Ht f Hf). apply andb_prop in Ht as [_ Ht]. by apply H. }
  pattern v. apply value_nested_ind; clear v; [|by intros d; apply Hd..|done].
  intros v. by destruct v.
Qed.

Lemma typed_doc_weaken d : typed_doc true d = true -> typed_doc false d = true.
Proof.
  unfold typed_doc. rewrite !forallb_forall. intros H f Hf. specialize (H f Hf).
  apply andb_prop in H as [_ H]. by apply typed_weaken.
Qed.

(** C9: the parser stops on every text and with the fuel it is given: its
    result is the encoding of a document within the size limit, whose values
    are of the types of JSON text and in the range of their types, and the
    length read is within the text; or one of three exceptions, a parse error
    and the two of a document that is too large.  It never reads outside the
    text or a buffer. *)
Theorem fromjson_total s : no_nul s = true -> zlen s <= 2 ^ 28 ->
  match JParse.fromjson s with
  | Ok (x, n) => exists d, typed_doc false d = true /\ x ↦ enc_doc d /\
      zlen (enc_doc d) <= BSONObjMaxInternalSize /\ 0 <= n <= zlen s
  | Err e => e = MsgAssert 16619 \/ too_large e
  end.
Proof. intros Hn Hz. by apply (fromjson_safe_core false). Qed.

Lemma fromjson_total_witness : exists e, JParse.fromjson (bstr "{ a : [ 1, { ") = Err e /\
  (e = MsgAssert 16619 \/ too_large e).
Proof.
  pose proof (fromjson_total (bstr "{ a : [ 1, { ") eq_refl ltac:(by vm_compute)) as H.
  eexists. split; [by vm_compute|exact H].
Defined.

(** C8: a text that escapes no NUL gives a well-formed document whenever it is
    accepted: the names are C strings, the strings have their length, the
    nested sizes agree. *)
Theorem fromjson_well_formed s x n : no_nul s = true -> zlen s <= 2 ^ 28 -> has_u0000 s = false ->
  JParse.fromjson s = Ok (x, n) -> exists d, typed_doc true d = true /\ obj_rep x d.
Proof.
  intros Hn Hz Hu Hs. pose proof (fromjson_safe_core true s) as H. rewrite Hs in H.
  destruct H as (d & Hd & Hx & Hsz & _); [by repeat split|]. exists d. split; [done|].
  split; [done|]. by apply typed_doc_wf.
Qed.

Lemma fromjson_well_formed_witness : exists x n d,
  JParse.fromjson (bstr "{ a : [ 1.5, new Date(7) ] }") = Ok (x, n) /\ obj_rep x d.
Proof.
  destruct (JParse.fromjson (bstr "{ a : [ 1.5, new Date(7) ] }")) as [[x n]|e] eqn:E.
  - destruct (fromjson_well_formed (bstr "{ a : [ 1.5, new Date(7) ] }") x n eq_refl ltac:(by vm_compute) eq_refl E) as (d & _ & Hd). exists x, n, d. exact (conj eq_refl Hd).
  - exfalso. revert E. by vm_compute.
Defined.
