(* ===== verification/Pgbson.v ===== *)
(** * Pgbson: the functions of the PostgreSQL extension
    (pgbson_exports.cpp, pgbson_internal.cpp, pgbson_internal.hpp)

    The text input and output of the type are in PgText.v.  What PostgreSQL
    and Boost provide is a parameter: [PgApi] holds the accessors of a datum,
    of a row and of the catalog, [iso_extended] is Boost's notation of a date.
    A detoasted variable-length datum is a pointer to its data and their
    length; a datum returned is a value of [Datum], with the size word the code
    stores for a variable-length one. *)

From stdpp Require Import base list numbers strings option tactics.
From Stdlib Require Import Strings.Byte ZArith Lia.
From S2P Require Import Prelude Memory Decimal Codec Double Printf BsonTypes Format Element Obj.
From S2P Require Import Access Compare Builder JsObj.

(** ** Data exchanged with PostgreSQL *)

Record varlena := MkVarlena { VARDATA_ANY : ptr; data_len : Z }.
Definition VARHDRSZ : Z := 4.
Definition VARSIZE (v : varlena) : Z := data_len v + VARHDRSZ.

Inductive Datum :=
  | DText (varsize : Z) (bytes : list byte)
  | DBytea (varsize : Z) (bytes : list byte)
  | DCString (bytes : list byte)
  | DInt32 (n : Z)
  | DInt64 (n : Z)
  | DFloat8 (bits : Z)
  | DBool (b : bool)
  | DNull.

Definition return_string (s : list byte) : Datum := DText (zlen s + VARHDRSZ) s.

(** [return_cstring]: the terminator is copied too. *)
Definition return_cstring (s : list byte) : Datum := DCString (s ++ [x00]).

Definition return_bson (b : BSONObj) : result Datum :=
  let* n := objsize b in
  let* bs := loads b n in
  Ok (DBytea (n + VARHDRSZ) bs).

(** [BSONObj object(VARDATA_ANY(arg))]. *)
Definition arg_object (arg : varlena) : result BSONObj := BSONObj_init (VARDATA_ANY arg).

(** [std::string(VARDATA(arg2), VARSIZE(arg2)-VARHDRSZ)]. *)
Definition arg_string (arg : varlena) : result (list byte) :=
  std_string (VARDATA_ANY arg) (VARSIZE arg - VARHDRSZ).

(** [catch (...)] around [m], reporting an error. *)
Definition catch_all {A} (code : pg_errcode) (msg : list byte) (m : result A) : result A :=
  match m with
  | Err e => if is_exception e then Err (Ereport code msg) else Err e
  | Ok a => Ok a
  end.

Definition pgbson_version : Datum := return_string (bstr "1.0").

(** ** Binary input and output *)

Record StringInfo := MkStringInfo { si_data : ptr; cursor : Z }.

(** The datum and the cursor after it. *)
Definition bson_recv (buf : StringInfo) : result (Datum * StringInfo) :=
  catch_all ERRCODE_INVALID_BINARY_REPRESENTATION (bstr "invalid binary input for BSON")
    (let* object := BSONObj_init (si_data buf) in
     let* n := objsize object in
     let* d := return_bson object in
     Ok (d, MkStringInfo (si_data buf) (cursor buf + n))).

Definition bson_send (arg : varlena) : result Datum :=
  let* bs := loads (VARDATA_ANY arg) (data_len arg) in
  Ok (DBytea (VARSIZE arg) bs).

(** ** Reading a field *)

Definition bson_type_name (e : BSONElement) : result (list byte) :=
  let* t := type e in Ok (bstr (typeName t)).

Section get.
(** [to_iso_extended_string] of the time so many milliseconds after 1970. *)
Context (iso_extended : Z -> result (list byte)).

Definition convert_element_text (e : BSONElement) : result Datum :=
  let* t := type e in
  match t with
  | BSONString | DBRef | Symbol =>
      let* p := valuestr e in
      let* n := valuestrsize e in
      let* s := std_string p (n - 1) in
      Ok (return_string s)
  | NumberDouble => let* d := _numberDouble e in Ok (return_string (format_double 6 d))
  | jstOID => let* o := __oid e in Ok (return_string (OID_str o))
  | BSONBool =>
      let* b := boolean e in Ok (return_string (if b then bstr "true" else bstr "false"))
  | Date => let* m := date e in let* s := iso_extended (s64 m) in Ok (return_string s)
  | RegEx => let* p := regex e in let* s := cstr p in Ok (return_string s)
  | NumberInt => let* n := _numberInt e in Ok (return_string (dec n))
  | NumberLong => let* n := _numberLong e in Ok (return_string (dec n))
  | _ => Err (ConversionError (bstr "text"))
  end.
End get.

Definition convert_element_int (e : BSONElement) : result Datum :=
  let* t := type e in
  match t with
  | NumberInt => let* n := _numberInt e in Ok (DInt32 n)
  | _ => Err (ConversionError (bstr "int4"))
  end.

Definition convert_element_double (e : BSONElement) : result Datum :=
  let* t := type e in
  match t with
  | NumberDouble => let* d := _numberDouble e in Ok (DFloat8 d)
  | NumberInt => let* n := _numberInt e in Ok (DFloat8 (d_of_Z n))
  | _ => Err (ConversionError (bstr "float8"))
  end.

Definition convert_element_int64 (e : BSONElement) : result Datum :=
  let* t := type e in
  match t with
  | NumberLong => let* n := _numberLong e in Ok (DInt64 n)
  | NumberInt => let* n := _numberInt e in Ok (DInt64 n)
  | _ => Err (ConversionError (bstr "int8"))
  end.

(** The messages of [bson_get]; a driver assertion's text is left out. *)
Definition conversion_message (field_name type_name target : list byte) : list byte :=
  bstr "Field " ++ c_str field_name ++ bstr " is of type " ++ type_name ++
  bstr " and can not be converted to " ++ target.
Definition exception_message (field_name type_name what : list byte) : list byte :=
  bstr "Error converting filed " ++ c_str field_name ++ bstr " of type " ++ type_name ++
  bstr ": " ++ what.

Definition what_of (e : err) : list byte :=
  match e with StdException w => w | _ => [] end.

Definition bson_get (convert_element : BSONElement -> result Datum) (arg arg2 : varlena)
    : result Datum :=
  let* object := arg_object arg in
  let* field_name := arg_string arg2 in
  let* e := getFieldDotted_string object field_name in
  let* z := eoo e in
  if z then Ok DNull
  else
    match convert_element e with
    | Ok d => Ok d
    | Err (ConversionError t) =>
        let* tn := bson_type_name e in
        Err (Ereport ERRCODE_INTERNAL_ERROR (conversion_message field_name tn t))
    | Err x =>
        if is_exception x then
          let* tn := bson_type_name e in
          Err (Ereport ERRCODE_INTERNAL_ERROR (exception_message field_name tn (what_of x)))
        else Err x
    end.

Definition bson_get_text (iso_extended : Z -> result (list byte)) : varlena -> varlena -> result Datum :=
  bson_get (convert_element_text iso_extended).
Definition bson_get_int : varlena -> varlena -> result Datum := bson_get convert_element_int.
Definition bson_get_double : varlena -> varlena -> result Datum := bson_get convert_element_double.
Definition bson_get_bigint : varlena -> varlena -> result Datum := bson_get convert_element_int64.

(** An object with one field, without a name, that holds the element's value. *)
Definition wrap_element (el : BSONElement) : result BSONObj :=
  let* builder := BSONObjBuilder_new 512 in
  let* builder := appendAs el [] builder in
  obj builder.

Definition bson_get_bson (arg arg2 : varlena) : result Datum :=
  let* object := arg_object arg in
  let* field_name := arg_string arg2 in
  let* el := getFieldDotted_string object field_name in
  let* z := eoo el in
  if z then Ok DNull
  else
    let* t := type el in
    if bool_decide (t = Object) then let* o := embeddedObject el in return_bson o
    else let* o := wrap_element el in return_bson o.

(** ** Comparing and hashing *)

Definition bson_compare (arg0 arg1 : varlena) : result Datum :=
  let* object0 := arg_object arg0 in
  let* object1 := arg_object arg1 in
  let* c := woCompare object0 object1 in
  Ok (DInt32 c).

Definition bson_binary_equal (arg0 arg1 : varlena) : result Datum :=
  let* object0 := arg_object arg0 in
  let* object1 := arg_object arg1 in
  let* b := binaryEqual object0 object1 in
  Ok (DBool b).

Definition bson_hash (arg0 : varlena) : result Datum :=
  let* object0 := arg_object arg0 in
  let* h := hash object0 in
  Ok (DInt32 h).

(** The operators of pgbson--1.0.sql, tests on the result of [bson_compare]. *)
Definition compare_test (test : Z -> bool) (arg0 arg1 : varlena) : result bool :=
  let* d := bson_compare arg0 arg1 in
  Ok (match d with DInt32 c => test c | _ => false end).

Definition bson_equal : varlena -> varlena -> result bool := compare_test (fun c => c =? 0).
Definition bson_not_equal : varlena -> varlena -> result bool := compare_test (fun c => negb (c =? 0)).
Definition bson_lt : varlena -> varlena -> result bool := compare_test (fun c => c <? 0).
Definition bson_lte : varlena -> varlena -> result bool := compare_test (fun c => c <=? 0).
Definition bson_gt : varlena -> varlena -> result bool := compare_test (fun c => 0 <? c).
Definition bson_gte : varlena -> varlena -> result bool := compare_test (fun c => 0 <=? c).

(** ** Arrays *)

Definition bson_array_size (arg arg2 : varlena) : result Datum :=
  let* object := arg_object arg in
  let* field_name := arg_string arg2 in
  let* el := getFieldDotted_string object field_name in
  let* z := eoo el in
  if z then Ok DNull
  else
    let* t := type el in
    if bool_decide (t = Array) then
      let* o := embeddedObject el in
      let* n := nFields o in
      Ok (DInt32 n)
    else Ok (DInt32 1).

(** The context of the set-returning function, kept between its calls. *)
Record FunctionContext := MkFunctionContext { array : list BSONElement; deepCopy : BSONObj }.
Record FuncCallContext := MkFuncCallContext { call_cntr : Z; user_fctx : FunctionContext }.

Inductive srf_result :=
  | SRF_RETURN_NEXT (d : Datum)
  | SRF_RETURN_DONE.

(** What the first call sets up. *)
Definition unwind_firstcall (arg arg2 : varlena) : result FuncCallContext :=
  let* object := arg_object arg in
  let* field_name := arg_string arg2 in
  let* c := copy object in
  let* el := getFieldDotted_string object field_name in
  let* z := eoo el in
  let* a :=
    if z then Ok []
    else
      let* t := type el in
      if bool_decide (t = Array) then Elem_Array el else Ok [el] in
  Ok (MkFuncCallContext 0 (MkFunctionContext a c)).

Definition unwind_object (el : BSONElement) : result BSONObj :=
  let* b := isABSONObj el in
  if b then embeddedObject el else wrap_element el.

(** One call: [None] is the state before the first call and after the last. *)
Definition bson_unwind_array (arg arg2 : varlena) (state : option FuncCallContext)
    : result (srf_result * option FuncCallContext) :=
  let* funcctx :=
    match state with
    | None => unwind_firstcall arg arg2
    | Some f => Ok f
    end in
  let context := user_fctx funcctx in
  if call_cntr funcctx =? zlen (array context) then Ok (SRF_RETURN_DONE, None)
  else
    match array context !! Z.to_nat (call_cntr funcctx) with
    | None => Err OutOfBounds
    | Some el =>
        let* o := unwind_object el in
        let* d := return_bson o in
        Ok (SRF_RETURN_NEXT d, Some (MkFuncCallContext (call_cntr funcctx + 1) context))
    end.

(** The rows a query gets: the calls until the function is done. *)
Fixpoint srf_rows (fuel : nat) (f : option FuncCallContext -> result (srf_result * option FuncCallContext))
    (state : option FuncCallContext) : result (list Datum) :=
  match fuel with
  | O => Err OutOfFuel
  | S fuel' =>
      let* '(r, state') := f state in
      match r with
      | SRF_RETURN_DONE => Ok []
      | SRF_RETURN_NEXT d => let* rows := srf_rows fuel' f state' in Ok (d :: rows)
      end
  end.

(** ** Rows to objects *)

(** The type of a column: the ones the code tells apart, and the others. *)
Inductive Oid :=
  | BOOLOID | CHAROID | INT8OID | INT2OID | INT4OID
  | TEXTOID | JSONOID | XMLOID
  | FLOAT4OID | FLOAT8OID | RECORDOID | TIMESTAMPOID
  | OtherOid (n : Z).

Record attribute := MkAttribute { attname : list byte; atttypid : Oid; attisdropped : bool }.

(** What the code uses of PostgreSQL to look into a datum: the accessors of
    each type, a [float4] being widened to a [double]; the attributes of a
    row's type and the value, or null, of each; the catalog's name of a type;
    the text the output function of a type writes. *)
Class PgApi (D : Type) := {
  DatumGetBool : D -> bool;
  DatumGetChar : D -> byte;
  DatumGetInt16 : D -> Z;
  DatumGetInt32 : D -> Z;
  DatumGetInt64 : D -> Z;
  DatumGetFloat4 : D -> Z;
  DatumGetFloat8 : D -> Z;
  DatumGetTimestamp : D -> Z;
  DatumGetTextP : D -> varlena;
  DatumGetBson : D -> varlena;
  rowtype_attrs : D -> list attribute;
  heap_getattr : D -> nat -> D * bool;
  SearchSysCache_typname : Oid -> option (list byte);
  OutputFunctionCall : Oid -> D -> ptr
}.

Section rows.
Context {D : Type} `{PgApi D}.

Definition get_typename (typid : Oid) : list byte :=
  match SearchSysCache_typname typid with
  | Some n => n
  | None => []
  end.

(** [datum_to_bson], given [composite_to_bson] for a nested row; timestamps as
    64-bit integers, the configuration PostgreSQL defaults to. *)
Definition datum_to_bson (composite : BSONObjBuilder -> D -> result BSONObjBuilder)
    (field_name : list byte) (builder : BSONObjBuilder) (val : D) (is_null : bool) (typid : Oid)
    : result BSONObjBuilder :=
  if is_null then appendNull field_name builder
  else
    match typid with
    | BOOLOID => append_bool field_name (DatumGetBool val) builder
    | CHAROID => append_strsz field_name (Ptr [DatumGetChar val] 0) 1 builder
    | INT8OID => append_longlong field_name (DatumGetInt64 val) builder
    | INT2OID => append_int field_name (DatumGetInt16 val) builder
    | INT4OID => append_int field_name (DatumGetInt32 val) builder
    | TEXTOID | JSONOID | XMLOID =>
        let t := DatumGetTextP val in
        append_strsz field_name (VARDATA_ANY t) (VARSIZE t - VARHDRSZ + 1) builder
    | FLOAT4OID => append_double field_name (DatumGetFloat4 val) builder
    | FLOAT8OID => append_double field_name (DatumGetFloat8 val) builder
    | RECORDOID =>
        let* b1 := subobjStart field_name builder in
        let* sub := BSONObjBuilder_on (_b b1) in
        let* sub := composite sub val in
        let* '(_, sub) := done sub in
        Ok (set_b b1 (_b sub))
    | TIMESTAMPOID => appendDate field_name (u64 (DatumGetTimestamp val)) builder
    | OtherOid _ =>
        if bytes_eqb (get_typename typid) (bstr "bson") then
          let* o := arg_object (DatumGetBson val) in
          append_obj field_name o builder
        else append_cstr field_name (OutputFunctionCall typid val) builder
    end.

(** The loop over the attributes of a row, from the [i]th on. *)
Fixpoint append_attrs (composite : BSONObjBuilder -> D -> result BSONObjBuilder)
    (tuple : D) (attrs : list attribute) (i : nat) (builder : BSONObjBuilder)
    : result BSONObjBuilder :=
  match attrs with
  | [] => Ok builder
  | a :: attrs' =>
      if attisdropped a then append_attrs composite tuple attrs' (S i) builder
      else
        let (val, isnull) := heap_getattr tuple (i + 1) in
        let* builder' := datum_to_bson composite (attname a) builder val isnull (atttypid a) in
        append_attrs composite tuple attrs' (S i) builder'
  end.

(** [composite_to_bson]: the fuel bounds the nesting of rows. *)
Fixpoint composite_to_bson (depth : nat) (builder : BSONObjBuilder) (composite : D)
    : result BSONObjBuilder :=
  match depth with
  | O => Err OutOfFuel
  | S depth' =>
      append_attrs (composite_to_bson depth') composite (rowtype_attrs composite) 0 builder
  end.

Definition row_to_bson (depth : nat) (record : D) : result Datum :=
  let* builder := BSONObjBuilder_new 512 in
  let* builder := composite_to_bson depth builder record in
  let* o := obj builder in
  return_bson o.
End rows.
