(* ===== verification/PgbsonSpec.v ===== *)
(** * PgbsonSpec: what the functions of the extension return

    Each function on arguments that hold well-formed documents, against the
    documents: reading a field, comparing, hashing, arrays, rows. *)

From stdpp Require Import base list numbers strings option tactics.
From Stdlib Require Import Strings.Byte ZArith Lia.
From S2P Require Import Prelude Memory Decimal Codec Double Printf BsonTypes Format Element Obj.
From S2P Require Import Access Compare Order Builder JsObj JsObjSpec BuilderSpec Storage Pgbson.

(** ** Arguments and results *)

Definition bson_arg (v : varlena) (d : doc) : Prop :=
  obj_rep (VARDATA_ANY v) d /\ data_len v = zlen (enc_doc d).
Definition text_arg (v : varlena) (s : list byte) : Prop :=
  VARDATA_ANY v ↦ s /\ data_len v = zlen s.

Definition bson_of (d : doc) : varlena := MkVarlena (obj_of d) (zlen (enc_doc d)).
Definition text_of (s : string) : varlena := MkVarlena (Ptr (bstr s) 0) (zlen (bstr s)).

Definition bson_datum (d : doc) : Datum := DBytea (zlen (enc_doc d) + VARHDRSZ) (enc_doc d).

Lemma bson_of_arg d : wf_doc d = true -> bson_arg (bson_of d) d.
Proof. intros. split; [by apply obj_of_rep|done]. Qed.
Lemma text_of_arg s : text_arg (text_of s) (bstr s).
Proof. split; [apply points_start|done]. Qed.

Lemma arg_object_rep v d : bson_arg v d -> arg_object v = Ok (VARDATA_ANY v).
Proof. intros [Ho _]. by apply (BSONObj_init_rep _ d). Qed.

Lemma arg_string_rep v s : text_arg v s -> arg_string v = Ok s.
Proof.
  intros [Hp Hl]. unfold arg_string, VARSIZE, std_string. apply points_loads_all; [done|]. lia.
Qed.

Lemma return_bson_rep o d : obj_rep o d -> return_bson o = Ok (bson_datum d).
Proof.
  intros Ho. unfold return_bson. rewrite (objsize_rep _ _ Ho). cbn [bind].
  by rewrite (points_loads_all o _ _ (proj1 Ho) eq_refl).
Qed.

(** The field a text argument names. *)
Definition lookup_field (d : doc) (s : list byte) : option field :=
  find_dotted (S (length (c_str s))) d (c_str s).

Lemma lookup_rep v d s : bson_arg v d ->
  exists e, getFieldDotted_string (VARDATA_ANY v) s = Ok e /\
    found (mem (VARDATA_ANY v)) e (lookup_field d s).
Proof. intros [Ho _]. by apply getFieldDotted_rep. Qed.

(** A field found has room for a document around its value. *)
Lemma elem_size_in d n v : wf_doc d = true -> In (n, v) d ->
  zlen (enc_elem (n, v)) + 5 <= BSONObjMaxInternalSize /\ wf_value v = true.
Proof.
  intros Hd Hin. split.
  - apply wf_doc_size in Hd. rewrite zlen_enc_doc in Hd.
    apply in_split in Hin as (d1 & d2 & ->).
    rewrite enc_elems_app, zlen_app, zlen_enc_elems_cons in Hd.
    pose proof (zlen_nonneg (enc_elems d1)). pose proof (zlen_nonneg (enc_elems d2)). lia.
  - apply wf_doc_Forall in Hd. rewrite List.Forall_forall in Hd. specialize (Hd _ Hin).
    by apply wf_field_parts in Hd as [_ ?].
Qed.

Lemma find_dotted_size fuel : forall d name n v, wf_doc d = true ->
  find_dotted fuel d name = Some (n, v) ->
  zlen (enc_elem (n, v)) + 5 <= BSONObjMaxInternalSize /\ wf_value v = true.
Proof.
  induction fuel as [|fuel IH]; intros d name n v Hd Hf; [done|]. cbn [find_dotted] in Hf.
  destruct (find_field d name) as [f|] eqn:Ef.
  - injection Hf as ->. destruct (find_field_wf _ _ _ Hd Ef) as (_ & Hin & _).
    by apply (elem_size_in d).
  - destruct (split_dot name) as [[lft rgt]|]; [|done].
    destruct (find_field d lft) as [f|] eqn:Ef'; [|done]. cbn [mbind option_bind] in Hf.
    destruct (sub_doc (snd f)) as [d'|] eqn:Es; [|done]. cbn [mbind option_bind] in Hf.
    apply (IH d' rgt n v); [|done].
    destruct (find_field_wf _ _ _ Hd Ef') as (_ & Hin & _). destruct f as [n' v'].
    destruct (elem_size_in d n' v' Hd Hin) as [_ Hw].
    destruct v'; simplify_eq/=; [by rewrite <- wf_value_object|by rewrite <- wf_value_array].
Qed.

Lemma wf_doc_single v : zlen (enc_elem ([], v)) + 5 <= BSONObjMaxInternalSize ->
  wf_value v = true -> wf_doc [([], v)] = true.
Proof.
  intros Hs Hw. unfold wf_doc, wf_field. cbn [forallb fst snd no_nul]. rewrite Hw. cbn [andb].
  apply Z.leb_le. rewrite zlen_enc_doc, zlen_enc_elems_cons. change (zlen (enc_elems [])) with 0. lia.
Qed.

Lemma wrap_element_rep e n v : elem_ok e n v ->
  zlen (enc_elem (n, v)) + 5 <= BSONObjMaxInternalSize ->
  exists o, wrap_element e = Ok o /\ obj_rep o [([], v)].
Proof.
  intros Hok Hs. assert (wf_doc [([], v)] = true) as Hw.
  { apply wf_doc_single; [|exact (elem_wf_value _ _ _ Hok)].
    rewrite zlen_enc_elem in *. change (zlen (@nil byte)) with 0. pose proof (zlen_nonneg n). lia. }
  unfold wrap_element. destruct (new_rep 512 ltac:(by vm_compute)) as (b & -> & Hb & Ho & Hl). cbn [bind].
  pose proof (wf_doc_size _ Hw) as Hsz. rewrite zlen_enc_doc, zlen_enc_elems_cons in Hsz.
  change (zlen (enc_elems [])) with 0 in Hsz. rewrite obj_max_val in Hsz.
  destruct (appendAs_rep e n v [] Hok b _ _ Hb) as (b' & -> & Hb' & Ho').
  { unfold fits. rewrite Hl. change BufferMaxSize with 67108864. lia. }
  cbn [bind]. apply (obj_done b' (le32 0)); [done| |done|congruence].
  unfold fits. rewrite (b_rep_len _ _ _ Hb'). change (zlen (le32 0)) with 4.
  change BufferMaxSize with 67108864. cbn [app]. rewrite zlen_enc_elems_cons.
  change (zlen (enc_elems [])) with 0. lia.
Qed.

(** ** Reading a field *)

Section get_spec.
Context (iso_extended : Z -> result (list byte)).

(** The text, integer, double and big integer of a value. *)
Definition text_value (v : value) : result Datum :=
  match v with
  | VString s | VSymbol s | VDBRef s _ => Ok (return_string s)
  | VDouble b => Ok (return_string (format_double 6 b))
  | VOID o => Ok (return_string (OID_str o))
  | VBool b => Ok (return_string (if b then bstr "true" else bstr "false"))
  | VDate m => let* s := iso_extended (s64 m) in Ok (return_string s)
  | VRegEx p _ => Ok (return_string p)
  | VInt n | VLong n => Ok (return_string (dec n))
  | _ => Err (ConversionError (bstr "text"))
  end.
End get_spec.

Definition int_value (v : value) : result Datum :=
  match v with VInt n => Ok (DInt32 n) | _ => Err (ConversionError (bstr "int4")) end.
Definition double_value (v : value) : result Datum :=
  match v with
  | VDouble b => Ok (DFloat8 b)
  | VInt n => Ok (DFloat8 (d_of_Z n))
  | _ => Err (ConversionError (bstr "float8"))
  end.
Definition int64_value (v : value) : result Datum :=
  match v with
  | VLong n | VInt n => Ok (DInt64 n)
  | _ => Err (ConversionError (bstr "int8"))
  end.

(** Null when there is no field, an error that names the field, its type and
    the type asked for when the value does not convert. *)
Definition get_spec (conv : value -> result Datum) (d : doc) (s : list byte) : result Datum :=
  match lookup_field d s with
  | None => Ok DNull
  | Some (_, v) =>
      let tn := bstr (typeName (vtype v)) in
      match conv v with
      | Ok r => Ok r
      | Err (ConversionError t) => Err (Ereport ERRCODE_INTERNAL_ERROR (conversion_message s tn t))
      | Err x =>
          if is_exception x then
            Err (Ereport ERRCODE_INTERNAL_ERROR (exception_message s tn (what_of x)))
          else Err x
      end
  end.

Lemma bson_get_rep conv aconv arg arg2 d s :
  (forall e n v, elem_ok e n v -> conv e = aconv v) ->
  bson_arg arg d -> text_arg arg2 s -> bson_get conv arg arg2 = get_spec aconv d s.
Proof.
  intros Hc Ha Ht. unfold bson_get, get_spec.
  rewrite (arg_object_rep _ _ Ha), (arg_string_rep _ _ Ht). cbn [bind].
  destruct (lookup_rep arg d s Ha) as (e & He & Hf). rewrite He. cbn [bind].
  rewrite (found_eoo _ _ _ Hf). cbn [bind]. destruct (lookup_field d s) as [[n v]|]; [|done].
  destruct Hf as [Hok _]. rewrite (Hc _ _ _ Hok). unfold bson_type_name.
  rewrite (type_rep _ _ _ Hok). cbn [bind]. by destruct (aconv v) as [|[]].
Qed.

Lemma convert_text_rep iso e n v : elem_ok e n v -> convert_element_text iso e = text_value iso v.
Proof.
  intros Hok. unfold convert_element_text. rewrite (type_rep _ _ _ Hok). cbn [bind].
  assert (forall s, str_payload v = Some s ->
    (let* p := valuestr e in let* k := valuestrsize e in let* x := std_string p (k - 1) in
     Ok (return_string x)) = Ok (return_string s)) as Hstr.
  { intros s Hs. rewrite (valuestr_rep _ _ _ Hok), (valuestrsize_rep _ _ _ Hok s Hs). cbn [bind].
    by rewrite (str_contents_rep _ _ _ Hok s Hs). }
  destruct v; cbn [vtype text_value]; try done; try (by apply Hstr).
  - by rewrite (numberDouble_rep _ _ _ Hok).
  - by rewrite (oid_rep _ _ _ Hok).
  - by rewrite (boolean_rep _ _ _ Hok).
  - by rewrite (date_rep _ _ _ _ (or_introl eq_refl) Hok).
  - unfold regex. rewrite (type_rep _ _ _ Hok). cbn [bind vtype].
    rewrite (bool_decide_eq_true_2 _ eq_refl). cbn [verify bind].
    rewrite (value_ptr_rep _ _ _ Hok). cbn [bind].
    pose proof (elem_wf_value _ _ _ Hok) as Hw. cbn [wf_value] in Hw.
    apply andb_prop in Hw as [[Hw _]%andb_prop _].
    by rewrite (points_cstr _ pat _ (value_points _ _ _ Hok) Hw).
  - by rewrite (numberInt_rep _ _ _ Hok).
  - by rewrite (numberLong_rep _ _ _ Hok).
Qed.

Lemma convert_int_rep e n v : elem_ok e n v -> convert_element_int e = int_value v.
Proof.
  intros Hok. unfold convert_element_int. rewrite (type_rep _ _ _ Hok). cbn [bind].
  destruct v; cbn [vtype int_value]; try done. by rewrite (numberInt_rep _ _ _ Hok).
Qed.

Lemma convert_double_rep e n v : elem_ok e n v -> convert_element_double e = double_value v.
Proof.
  intros Hok. unfold convert_element_double. rewrite (type_rep _ _ _ Hok). cbn [bind].
  destruct v; cbn [vtype double_value]; try done.
  - by rewrite (numberDouble_rep _ _ _ Hok).
  - by rewrite (numberInt_rep _ _ _ Hok).
Qed.

Lemma convert_int64_rep e n v : elem_ok e n v -> convert_element_int64 e = int64_value v.
Proof.
  intros Hok. unfold convert_element_int64. rewrite (type_rep _ _ _ Hok). cbn [bind].
  destruct v; cbn [vtype int64_value]; try done.
  - by rewrite (numberInt_rep _ _ _ Hok).
  - by rewrite (numberLong_rep _ _ _ Hok).
Qed.

(** C5: [bson_get_text], [bson_get_int], [bson_get_double] and
    [bson_get_bigint] return null when the dotted name leads to no field, the
    field's value in the type asked for when it converts, and otherwise report
    an internal error whose message names the field, its type and the target;
    a date's text is Boost's, whose exceptions are reported the same way. *)
Theorem bson_get_correct iso arg arg2 d s : bson_arg arg d -> text_arg arg2 s ->
  bson_get_text iso arg arg2 = get_spec (text_value iso) d s /\
  bson_get_int arg arg2 = get_spec int_value d s /\
  bson_get_double arg arg2 = get_spec double_value d s /\
  bson_get_bigint arg arg2 = get_spec int64_value d s.
Proof.
  intros Ha Ht. split; [|split; [|split]]; apply bson_get_rep; try done.
  - apply convert_text_rep.
  - apply convert_int_rep.
  - apply convert_double_rep.
  - apply convert_int64_rep.
Qed.

Lemma bson_get_correct_witness :
  bson_get_bigint (bson_of (doc_sample 1)) (text_of "c.y.0") = Ok (DInt64 (-5)) /\
  bson_get_int (bson_of (doc_sample 1)) (text_of "zz") = Ok DNull.
Proof.
  destruct (bson_get_correct (fun _ => Err OutOfFuel) (bson_of (doc_sample 1)) (text_of "c.y.0")
    (doc_sample 1) (bstr "c.y.0")) as (_ & _ & _ & ->).
  - by apply bson_of_arg.
  - apply text_of_arg.
  - destruct (bson_get_correct (fun _ => Err OutOfFuel) (bson_of (doc_sample 1)) (text_of "zz")
      (doc_sample 1) (bstr "zz")) as (_ & -> & _).
    + by apply bson_of_arg.
    + apply text_of_arg.
    + by vm_compute.
Defined.

(** when no field name of the document has a dot, the dotted name of a
    path finds what following the path through the nested documents finds. *)
Theorem getFieldDotted_path o d path : obj_rep o d ->
  path <> [] -> forallb dot_free path = true -> doc_dot_free d = true ->
  exists e, getFieldDotted o (join_dot path) = Ok e /\ found (mem o) e (get_path d path).
Proof.
  intros Ho Hp Hf Hd. destruct (getFieldDotted_rep o d (join_dot path) Ho) as (e & He & Hfound).
  rewrite find_dotted_path in Hfound by (done || lia). by exists e.
Qed.

Lemma getFieldDotted_path_witness : exists e,
  getFieldDotted (obj_of (doc_sample 1)) (bstr "c.y.0") = Ok e /\ elem_ok e (bstr "0") (VLong (-5)).
Proof.
  destruct (getFieldDotted_path (obj_of (doc_sample 1)) (doc_sample 1)
    [bstr "c"; bstr "y"; bstr "0"]) as (e & He & Hf).
  - by apply obj_of_rep.
  - done.
  - done.
  - done.
  - exists e. split; [exact He|]. apply Hf.
Defined.

(** ** Fields as documents, arrays *)

(** What a value becomes as a document: itself when it holds one. *)
Definition get_bson_doc (v : value) : doc :=
  match v with VObject d => d | _ => [([], v)] end.

Lemma object_or_not v :
  (exists d, v = VObject d) \/ (vtype v <> Object /\ get_bson_doc v = [([], v)]).
Proof. destruct v; eauto. Qed.

Lemma array_or_not v : (exists a, v = VArray a) \/
  (vtype v <> Array /\ match v with VArray a => map snd a | _ => [v] end = [v]).
Proof. destruct v; eauto. Qed.

(** [bson_get_bson] returns null when there is no such field, the nested
    document of an object field, and for any other value, an array included, a
    document whose single field has an empty name and that value. *)
Theorem bson_get_bson_correct arg arg2 d s : bson_arg arg d -> text_arg arg2 s ->
  bson_get_bson arg arg2 =
    Ok (match lookup_field d s with
        | None => DNull
        | Some (_, v) => bson_datum (get_bson_doc v)
        end).
Proof.
  intros Ha Ht. unfold bson_get_bson.
  rewrite (arg_object_rep _ _ Ha), (arg_string_rep _ _ Ht). cbn [bind].
  destruct (lookup_rep arg d s Ha) as (e & He & Hf). rewrite He. cbn [bind].
  rewrite (found_eoo _ _ _ Hf). cbn [bind].
  destruct (lookup_field d s) as [[n v]|] eqn:El; [|done]. destruct Hf as [Hok _].
  rewrite (type_rep _ _ _ Hok). cbn [bind].
  destruct (object_or_not v) as [[d' ->]|[Hno Hdoc]].
  - cbn [vtype]. rewrite (bool_decide_eq_true_2 _ eq_refl).
    destruct (embedded_rep _ _ _ d' Hok eq_refl) as (o & -> & Ho & _). cbn [bind].
    by apply return_bson_rep.
  - rewrite (bool_decide_eq_false_2 _ Hno).
    destruct (find_dotted_size _ _ _ _ _ (proj2 (proj1 Ha)) El) as [Hs _].
    destruct (wrap_element_rep e n v Hok Hs) as (o & -> & Ho). cbn [bind].
    rewrite (return_bson_rep _ _ Ho). by rewrite Hdoc.
Qed.

Lemma bson_get_bson_correct_witness :
  bson_get_bson (bson_of (doc_sample 1)) (text_of "a") = Ok (bson_datum [([], VInt 1)]).
Proof.
  rewrite (bson_get_bson_correct _ _ (doc_sample 1) (bstr "a")).
  - by vm_compute.
  - by apply bson_of_arg.
  - apply text_of_arg.
Defined.

(** [bson_array_size] returns null when there is no such field, the number
    of elements of an array, and 1 for any other value, nested objects
    included. *)
Theorem bson_array_size_correct arg arg2 d s : bson_arg arg d -> text_arg arg2 s ->
  bson_array_size arg arg2 =
    Ok (match lookup_field d s with
        | None => DNull
        | Some (_, VArray a) => DInt32 (zlen a)
        | Some _ => DInt32 1
        end).
Proof.
  intros Ha Ht. unfold bson_array_size.
  rewrite (arg_object_rep _ _ Ha), (arg_string_rep _ _ Ht). cbn [bind].
  destruct (lookup_rep arg d s Ha) as (e & He & Hf). rewrite He. cbn [bind].
  rewrite (found_eoo _ _ _ Hf). cbn [bind].
  destruct (lookup_field d s) as [[n v]|]; [|done]. destruct Hf as [Hok _].
  rewrite (type_rep _ _ _ Hok). cbn [bind]. destruct v; cbn [vtype]; try done.
  rewrite (bool_decide_eq_true_2 _ eq_refl).
  destruct (embedded_rep _ _ _ _ Hok eq_refl) as (o & -> & Ho & _). cbn [bind].
  by rewrite (nFields_rep _ _ Ho).
Qed.

Lemma bson_array_size_correct_witness :
  bson_array_size (bson_of (doc_sample 1)) (text_of "c.y") = Ok (DInt32 1) /\
  bson_array_size (bson_of (doc_sample 1)) (text_of "c") = Ok (DInt32 1).
Proof.
  rewrite (bson_array_size_correct _ _ (doc_sample 1) (bstr "c.y")) by (apply text_of_arg || by apply bson_of_arg).
  rewrite (bson_array_size_correct _ _ (doc_sample 1) (bstr "c")) by (apply text_of_arg || by apply bson_of_arg).
  by vm_compute.
Defined.

(** What an element becomes in [bson_unwind_array]: itself when it is an
    object or an array. *)
Definition unwind_doc (v : value) : doc :=
  match sub_doc v with Some d => d | None => [([], v)] end.

(** The values a field unwinds to. *)
Definition unwind_values (d : doc) (s : list byte) : list value :=
  match lookup_field d s with
  | None => []
  | Some (_, VArray a) => map snd a
  | Some (_, v) => [v]
  end.

(** An array the code can put into a vector: names in order, within its limit. *)
Definition unwindable (d : doc) (s : list byte) : bool :=
  match lookup_field d s with
  | Some (_, VArray a) => indexed 0 a && (zlen a <=? 1000000)
  | _ => true
  end.

(** The elements of the context hold the values, with room to wrap them. *)
Definition elem_value (e : BSONElement) (v : value) : Prop :=
  exists n, elem_ok e n v /\ zlen (enc_elem (n, v)) + 5 <= BSONObjMaxInternalSize.

Lemma unwind_object_rep e v : elem_value e v ->
  exists o, unwind_object e = Ok o /\ obj_rep o (unwind_doc v).
Proof.
  intros (n & Hok & Hs). unfold unwind_object, isABSONObj, unwind_doc.
  rewrite (type_rep _ _ _ Hok). cbn [bind]. destruct (sub_doc v) as [d|] eqn:Ed.
  - replace (match vtype v with Object | Array => true | _ => false end) with true
      by (by destruct v).
    destruct (embedded_rep _ _ _ d Hok Ed) as (o & -> & Ho & _). by exists o.
  - replace (match vtype v with Object | Array => true | _ => false end) with false
      by (by destruct v).
    by apply (wrap_element_rep e n v).
Qed.

Lemma unwind_firstcall_rep arg arg2 d s : bson_arg arg d -> text_arg arg2 s ->
  unwindable d s = true ->
  exists es c, unwind_firstcall arg arg2 = Ok (MkFuncCallContext 0 (MkFunctionContext es c)) /\
    Forall2 elem_value es (unwind_values d s).
Proof.
  intros Ha Ht Hu. unfold unwind_firstcall, unwind_values, unwindable in *.
  rewrite (arg_object_rep _ _ Ha), (arg_string_rep _ _ Ht). cbn [bind].
  rewrite (copy_rep _ _ (proj1 Ha)). cbn [bind]. set (c := Ptr (enc_doc d) 0).
  destruct (lookup_rep arg d s Ha) as (e & He & Hf). rewrite He. cbn [bind].
  rewrite (found_eoo _ _ _ Hf). cbn [bind].
  destruct (lookup_field d s) as [[n v]|] eqn:El; [|by exists [], c].
  destruct Hf as [Hok _]. rewrite (type_rep _ _ _ Hok). cbn [bind].
  destruct (find_dotted_size _ _ _ _ _ (proj2 (proj1 Ha)) El) as [Hs Hw].
  destruct (array_or_not v) as [[a ->]|[Hno Hone]].
  - cbn [vtype]. rewrite (bool_decide_eq_true_2 _ eq_refl).
    apply andb_prop in Hu as [Hi Hl%Z.leb_le].
    destruct (Elem_Array_rep e n a Hok Hi Hl) as (es & -> & Hes). cbn [bind].
    exists es, c. split; [done|]. rewrite wf_value_array in Hw.
    assert (forall f, In f a -> wf_field f = true /\ zlen (enc_elem f) + 5 <= BSONObjMaxInternalSize) as Hin.
    { intros [m w] Hin. destruct (elem_size_in a m w Hw Hin) as [? _].
      apply wf_doc_Forall in Hw. rewrite List.Forall_forall in Hw. by split; [apply Hw|]. }
    clear -Hes Hin. unfold elems_of in Hes. induction Hes as [|x [m w] es a [Hx _] _ IH]; [by constructor|].
    constructor.
    + exists m. split; [done|]. by apply (Hin (m, w)); left.
    + apply IH. intros f Hf. apply Hin. by right.
  - rewrite (bool_decide_eq_false_2 _ Hno). cbn [bind]. exists [e], c. split; [done|].
    rewrite Hone. constructor; [by exists n|constructor].
Qed.

Lemma srf_rows_rep arg arg2 c es pre vs fuel :
  Forall2 elem_value es vs -> (length es < fuel)%nat ->
  srf_rows fuel (bson_unwind_array arg arg2)
    (Some (MkFuncCallContext (zlen pre) (MkFunctionContext (pre ++ es) c)))
  = Ok (map (fun v => bson_datum (unwind_doc v)) vs).
Proof.
  revert pre es vs. induction fuel as [|fuel IH]; intros pre es vs Hes Hf; [lia|].
  cbn [srf_rows]. unfold bson_unwind_array at 1. cbn [bind user_fctx call_cntr array].
  destruct Hes as [|e v es vs He Hes].
  - by rewrite app_nil_r, Z.eqb_refl.
  - rewrite zlen_app, zlen_cons. pose proof (zlen_nonneg es).
    destruct (Z.eqb_spec (zlen pre) (zlen pre + (1 + zlen es))); [lia|].
    rewrite zlen_nat, list_lookup_middle by done.
    destruct (unwind_object_rep e v He) as (o & -> & Ho). cbn [bind].
    rewrite (return_bson_rep _ _ Ho). cbn [bind].
    specialize (IH (pre ++ [e]) es vs Hes). rewrite zlen_app, <- app_assoc in IH.
    change (zlen [e]) with 1 in IH. cbn [app] in IH. cbn [length] in Hf.
    rewrite IH by lia. done.
Qed.

(** C7: called until it is done, [bson_unwind_array] returns one row for each
    element of the array, in order, an object or an array as a document of its
    own and any other value wrapped in one; no row when there is no such field;
    one row for a field that is no array; and it is done after exactly as many
    calls as there are rows and one, the call after the last one starting
    afresh. *)
Theorem bson_unwind_array_correct arg arg2 d s fuel :
  bson_arg arg d -> text_arg arg2 s -> unwindable d s = true ->
  (length (unwind_values d s) < fuel)%nat ->
  srf_rows fuel (bson_unwind_array arg arg2) None =
    Ok (map (fun v => bson_datum (unwind_doc v)) (unwind_values d s)).
Proof.
  intros Ha Ht Hu Hf. destruct (unwind_firstcall_rep _ _ _ _ Ha Ht Hu) as (es & c & Hc & Hes).
  assert (bson_unwind_array arg arg2 None =
    bson_unwind_array arg arg2 (Some (MkFuncCallContext 0 (MkFunctionContext es c)))) as Hfirst
    by (unfold bson_unwind_array; by rewrite Hc).
  pose proof (srf_rows_rep arg arg2 c es [] _ fuel Hes) as Hrows.
  apply Forall2_length in Hes. rewrite <- Hes in Hf. specialize (Hrows Hf).
  destruct fuel as [|fuel]; [lia|]. cbn [srf_rows] in *. by rewrite Hfirst.
Qed.

Lemma bson_unwind_array_correct_witness :
  srf_rows 2 (bson_unwind_array (bson_of (doc_sample 1)) (text_of "c.y")) None =
    Ok [bson_datum [([], VLong (-5))]].
Proof.
  rewrite (bson_unwind_array_correct _ _ (doc_sample 1) (bstr "c.y")).
  - by vm_compute.
  - by apply bson_of_arg.
  - apply text_of_arg.
  - by vm_compute.
  - vm_compute. lia.
Defined.

(** An array whose names skip a position. *)
Definition doc_hole : doc := [(bstr "a", VArray [(bstr "0", VInt 1); (bstr "2", VInt 3)])].

(** An array whose names skip a position leaves an empty element in the
    vector: the first call answers and the second one throws, out of a function
    called from C. *)
Theorem bson_unwind_array_hole :
  wf_doc doc_hole = true /\
  result_map fst (bson_unwind_array (bson_of doc_hole) (text_of "a") None) =
    Ok (SRF_RETURN_NEXT (bson_datum [([], VInt 1)])) /\
  srf_rows 4 (bson_unwind_array (bson_of doc_hole) (text_of "a")) None = Err VerifyFailed.
Proof. split; [done|]. split; vm_compute; reflexivity. Qed.

(** ** Comparing and hashing *)

Lemma sgn_tests p q : Z.sgn q = - Z.sgn p ->
  (q <? 0) = (0 <? p) /\ (q =? 0) = (p =? 0) /\ (0 <? q) = (p <? 0).
Proof. by destruct p, q. Qed.

Lemma sgn_tests_one p : (0 <=? p) = negb (p <? 0) /\ (p <=? 0) = negb (0 <? p) /\
  (if p <? 0 then (p =? 0) = false /\ (0 <? p) = false else (p =? 0) = negb (0 <? p)).
Proof. by destruct p. Qed.

(** C13: the six comparison operators agree with one another: each is the
    negation of its negator, exchanging the arguments exchanges less and
    greater, exactly one of less, equal and greater holds, none of them throws
    on documents that do not mix dates and timestamps, and a document equals
    itself. *)
Theorem operators_consistent b x y d d' :
  bson_arg x d -> bson_arg y d' -> doc_dates_ok b d = true -> doc_dates_ok b d' = true ->
  exists lt eq gt,
    bson_lt x y = Ok lt /\ bson_equal x y = Ok eq /\ bson_gt x y = Ok gt /\
    bson_gte x y = Ok (negb lt) /\ bson_not_equal x y = Ok (negb eq) /\ bson_lte x y = Ok (negb gt) /\
    bson_lt y x = Ok gt /\ bson_equal y x = Ok eq /\ bson_gt y x = Ok lt /\
    (if lt then eq = false /\ gt = false else eq = negb gt) /\ (d = d' -> eq = true).
Proof.
  intros Hx Hy Hd Hd'. destruct (compare_doc_antisym b d d' Hd Hd') as (c & H1 & H2).
  rewrite <- (woCompare_rep _ _ _ _ (proj1 Hx) (proj1 Hy)) in H1.
  rewrite <- (woCompare_rep _ _ _ _ (proj1 Hy) (proj1 Hx)) in H2.
  apply sgn_of_inv in H1 as (p & Hp & Hps). apply sgn_of_inv in H2 as (q & Hq & Hqs).
  assert (forall test, compare_test test x y = Ok (test p)) as Hxy.
  { intros test. unfold compare_test, bson_compare.
    by rewrite (arg_object_rep _ _ Hx), (arg_object_rep _ _ Hy); cbn [bind]; rewrite Hp. }
  assert (forall test, compare_test test y x = Ok (test q)) as Hyx.
  { intros test. unfold compare_test, bson_compare.
    by rewrite (arg_object_rep _ _ Hx), (arg_object_rep _ _ Hy); cbn [bind]; rewrite Hq. }
  assert (d = d' -> p = 0) as Hrefl.
  { intros <-. pose proof (woCompare_rep _ _ _ _ (proj1 Hx) (proj1 Hy)) as H.
    rewrite Hp, compare_doc_refl in H. injection H as H. by apply Z.sgn_null_iff. }
  exists (p <? 0), (p =? 0), (0 <? p). unfold bson_lt, bson_equal, bson_gt, bson_gte, bson_lte, bson_not_equal.
  rewrite !Hxy, !Hyx.
  destruct (sgn_tests p q) as (-> & -> & ->); [congruence|].
  destruct (sgn_tests_one p) as (-> & -> & Hone).
  repeat (split; [reflexivity|]). split; [exact Hone|]. intros E. by rewrite (Hrefl E).
Qed.

Lemma operators_consistent_witness : exists lt,
  bson_lt (bson_of (doc_sample 1)) (bson_of (doc_sample 2)) = Ok lt.
Proof.
  destruct (operators_consistent true (bson_of (doc_sample 1)) (bson_of (doc_sample 2))
    (doc_sample 1) (doc_sample 2)) as (lt & _ & _ & H & _);
    [by apply bson_of_arg|by apply bson_of_arg|done|done|by exists lt].
Defined.

(** C14: the hash operator class is sound: [bson_binary_equal] holds exactly
    when the documents are the same, documents it equates hash alike and
    compare equal, and the hash is a positive [int] of at least 2^27. *)
Theorem hash_class_sound x y d d' : bson_arg x d -> bson_arg y d' ->
  exists eq h h', bson_binary_equal x y = Ok (DBool eq) /\ (eq = true <-> d = d') /\
    bson_hash x = Ok (DInt32 h) /\ bson_hash y = Ok (DInt32 h') /\
    2 ^ 27 <= h < 2 ^ 31 /\ (eq = true -> h = h' /\ bson_compare x y = Ok (DInt32 0)).
Proof.
  intros Hx Hy.
  destruct (binaryEqual_rep _ _ _ _ (proj1 Hx) (proj1 Hy)) as (eq & He & Heq).
  assert (forall v d, bson_arg v d -> exists h, hash (VARDATA_ANY v) = Ok h) as Hh.
  { intros v d0 [Ho _]. unfold hash. rewrite (objsize_rep _ _ Ho). cbn [bind].
    pose proof (zlen_enc_doc d0). pose proof (zlen_nonneg (enc_elems d0)).
    destruct (Z.leb_spec (zlen (enc_doc d0)) 0); [lia|].
    rewrite (points_loads_all _ _ _ (proj1 Ho) eq_refl). cbn [bind]. by eexists. }
  destruct (Hh x d Hx) as (h & Hhx). destruct (Hh y d' Hy) as (h' & Hhy).
  exists eq, h, h'. unfold bson_binary_equal, bson_hash, bson_compare.
  rewrite (arg_object_rep _ _ Hx), (arg_object_rep _ _ Hy). cbn [bind]. rewrite He, Hhx, Hhy. cbn [bind].
  split; [done|]. split; [done|]. split; [done|]. split; [done|].
  split; [by apply (hash_range _ _ Hhx)|]. intros ->. split.
  - apply binaryEqual_hash in He. congruence.
  - pose proof (proj1 Heq eq_refl) as <-.
    pose proof (woCompare_rep _ _ _ _ (proj1 Hx) (proj1 Hy)) as H. rewrite compare_doc_refl in H.
    apply sgn_of_inv in H as (c & Hc & Hs). apply (proj1 (Z.sgn_null_iff c)) in Hs. by rewrite Hc, Hs.
Qed.

Lemma hash_class_sound_witness : exists eq,
  bson_binary_equal (bson_of (doc_sample 1)) (bson_of (doc_sample 1)) = Ok (DBool eq).
Proof.
  destruct (hash_class_sound (bson_of (doc_sample 1)) (bson_of (doc_sample 1)) (doc_sample 1) (doc_sample 1))
    as (eq & h & h' & H & _); [by apply bson_of_arg|by apply bson_of_arg|by exists eq].
Defined.

(** ** Binary input and output *)

(** C16: [bson_recv] on any input, of any length, takes the size that the input
    starts with at its word: an input too short for a size is read past its end;
    a size that is not positive or past the limit is reported as invalid input; a
    size within the input copies exactly that many bytes and moves the cursor by
    it, whatever they are; and a size past the end of the input reads past its
    end. *)
Theorem bson_recv_correct bs c :
  let n := s32 (le_val (take 4 bs)) in
  bson_recv (MkStringInfo (Ptr bs 0) c) =
    if zlen bs <? 4 then Err OutOfBounds
    else if (0 <? n) && (n <=? BSONObjMaxInternalSize) then
      if n <=? zlen bs then
        Ok (DBytea (n + VARHDRSZ) (take (Z.to_nat n) bs), MkStringInfo (Ptr bs 0) (c + n))
      else Err OutOfBounds
    else Err (Ereport ERRCODE_INVALID_BINARY_REPRESENTATION (bstr "invalid binary input for BSON")).
Proof.
  intros n. unfold bson_recv. cbn [si_data cursor].
  assert (forall k, loads (Ptr bs 0) k =
    if (0 <=? k) && (k <=? zlen bs) then Ok (take (Z.to_nat k) bs) else Err OutOfBounds) as Hl.
  { intros k. unfold loads, rest. cbn [off mem]. pose proof (zlen_nonneg bs). by destruct (Z.ltb_spec (zlen bs) 0); [lia|]. }
  destruct (Z.ltb_spec (zlen bs) 4) as [Hb|Hb].
  { unfold BSONObj_init, isValid, objsize, load_s32. rewrite Hl. by destruct (Z.leb_spec 4 (zlen bs)); [lia|]. }
  assert (objsize (Ptr bs 0) = Ok n) as Hn.
  { unfold objsize, load_s32. rewrite Hl. destruct (Z.leb_spec 4 (zlen bs)); [|lia]. done. }
  unfold BSONObj_init, isValid, return_bson. rewrite Hn. cbn [bind].
  destruct (Z.ltb_spec 0 n); [|done].
  destruct (Z.leb_spec n BSONObjMaxInternalSize); [|done]. cbn [andb bind]. rewrite Hn. cbn [bind].
  rewrite Hl. destruct (Z.leb_spec 0 n); [|lia]. cbn [andb].
  by destruct (n <=? zlen bs).
Qed.

(** C15: what [bson_send] writes [bson_recv] reads back as the same document. *)
Theorem send_recv_roundtrip x d c : bson_arg x d ->
  exists bs, bson_send x = Ok (DBytea (VARSIZE x) bs) /\
    bson_recv (MkStringInfo (Ptr bs 0) c) =
      Ok (bson_datum d, MkStringInfo (Ptr bs 0) (c + zlen (enc_doc d))).
Proof.
  intros [Ho Hl]. exists (enc_doc d). unfold bson_send.
  rewrite (points_loads_all _ _ _ (proj1 Ho) Hl). split; [done|].
  assert (obj_rep (Ptr (enc_doc d) 0) d) as Hr by (split; [apply points_start|apply Ho]).
  unfold bson_recv. cbn [si_data cursor]. rewrite (BSONObj_init_rep _ _ Hr). cbn [bind].
  rewrite (objsize_rep _ _ Hr). cbn [bind]. by rewrite (return_bson_rep _ _ Hr).
Qed.

Lemma send_recv_roundtrip_witness : exists bs,
  bson_send (bson_of (doc_sample 1)) = Ok (DBytea (VARSIZE (bson_of (doc_sample 1))) bs).
Proof.
  destruct (send_recv_roundtrip (bson_of (doc_sample 1)) (doc_sample 1) 0) as (bs & H & _);
    [by apply bson_of_arg|by exists bs].
Defined.
