(* ===== verification/Rows.v ===== *)
(** * Rows: [row_to_bson] against the rows it is given

    [row_bytes k row w] says what the code writes for the row [row], nested at
    most [k] deep: one field for each attribute that is not dropped, in order.
    A column of type "char" is written without the terminator of a string, and a
    text with whatever byte of memory follows its data; when none does, the code
    reads outside.  [row_doc k row d] says that a row without such columns
    stands for the document [d].  The documented behaviour of PostgreSQL's
    accessors is in the premises of [scalar_column] and [column_bytes]: the data
    of a text are its bytes, the text output of a type ends with a NUL, and a
    datum of the type bson holds an object. *)

From stdpp Require Import base list numbers strings option tactics.
From Stdlib Require Import Strings.Byte ZArith Lia.
From S2P Require Import Prelude Memory Decimal Double BsonTypes Format Element Obj Access Compare.
From S2P Require Import Order Builder JsObj JsObjSpec BuilderSpec Pgbson PgbsonSpec.

(** ** Builders that hold any bytes *)

(** As [b_rep], of bytes that need not be a document. *)
Definition b_raw (b : BSONObjBuilder) (pre es : list byte) : Prop :=
  exists ph, buf (_b b) = pre ++ ph ++ es /\ zlen ph = 4 /\
    _offset b = zlen pre /\ _doneCalled b = false /\ buf_ok (_b b).

Lemma b_raw_len b pre es : b_raw b pre es -> len (_b b) = zlen pre + 4 + zlen es.
Proof. intros (ph & E & Hp & _). unfold len. rewrite E, !zlen_app. lia. Qed.

(** What is written, whole or up to a read outside the memory of a datum. *)
Inductive written := Whole (bs : list byte) | Outside (bs : list byte).

Definition bytes_of (w : written) : list byte := match w with Whole bs | Outside bs => bs end.
Definition prepend (bs : list byte) (w : written) : written :=
  match w with Whole c => Whole (bs ++ c) | Outside c => Outside (bs ++ c) end.

Definition raw_appends (m : BSONObjBuilder -> result BSONObjBuilder) (bs : list byte) : Prop :=
  forall b pre es, b_raw b pre es -> fits (_b b) (zlen bs) ->
  exists b', m b = Ok b' /\ b_raw b' pre (es ++ bs) /\ owned b' = owned b.
Definition raw_ends (m : BSONObjBuilder -> result BSONObjBuilder) (bs : list byte) : Prop :=
  forall b pre es, b_raw b pre es -> fits (_b b) (zlen bs) -> m b = Err OutOfBounds.
Definition does (m : BSONObjBuilder -> result BSONObjBuilder) (w : written) : Prop :=
  match w with Whole bs => raw_appends m bs | Outside bs => raw_ends m bs end.

Lemma bytes_prepend bs w : bytes_of (prepend bs w) = bs ++ bytes_of w.
Proof. by destruct w. Qed.

Lemma on_b_raw m bs : writes m bs -> raw_appends (on_b m) bs.
Proof.
  intros Hm b pre es (ph & E & Hp & Ho & Hd & Hok) Hf.
  destruct (Hm (_b b) Hok Hf) as (x & Hx & Ex & Hxok). unfold on_b. rewrite Hx. cbn [bind].
  eexists. split; [reflexivity|]. split; [|done]. exists ph. cbn [set_b _b _offset _doneCalled].
  split; [|by repeat split]. by rewrite Ex, E, <- !app_assoc.
Qed.

Lemma raw_ok b pre es : b_raw b pre es -> buf_ok (_b b).
Proof. by intros (ph & _ & _ & _ & _ & Hok). Qed.

(** One write after another, the second of which may read outside. *)
Lemma written_seq m k bs w : raw_appends m bs -> does k w ->
  does (fun b => let* b1 := m b in k b1) (prepend bs w).
Proof.
  intros Hm Hk. assert (forall b pre es n, b_raw b pre es -> 0 <= n -> fits (_b b) (zlen bs + n) ->
    exists b1, m b = Ok b1 /\ b_raw b1 pre (es ++ bs) /\ owned b1 = owned b /\ fits (_b b1) n) as Hfirst.
  { intros b pre es n Hb Hn Hf. unfold fits in Hf. destruct (Hm b pre es Hb) as (b1 & H1 & Hb1 & Ho1); [unfold fits; lia|].
    exists b1. split; [done|]. split; [done|]. split; [done|]. unfold fits.
    rewrite (b_raw_len _ _ _ Hb1), zlen_app. rewrite (b_raw_len _ _ _ Hb) in Hf. lia. }
  destruct w as [c|c]; cbn [prepend does] in *; intros b pre es Hb Hf; rewrite zlen_app in Hf;
    destruct (Hfirst b pre es (zlen c) Hb (zlen_nonneg c) Hf) as (b1 & -> & Hb1 & Ho1 & Hf1); cbn [bind].
  - destruct (Hk b1 pre (es ++ bs) Hb1 Hf1) as (b2 & -> & Hb2 & Ho2).
    exists b2. rewrite <- app_assoc in Hb2. split; [done|]. split; [done|congruence].
  - by apply (Hk b1 pre (es ++ bs)).
Qed.

(** The size is put where room was left for it. *)
Lemma _done_raw b pre es : b_raw b pre es -> fits (_b b) 1 ->
  exists b', _done b = Ok b' /\ buf (_b b') = pre ++ enc_frame es /\ _offset b' = zlen pre /\
    owned b' = owned b /\ buf_ok (_b b').
Proof.
  intros (ph & E & Hp & Ho & Hd & Hok) Hf. unfold _done. rewrite Hd.
  destruct (bb_append_ok [x00] (_b b) Hok Hf) as (x & Hx & Ex & Hxok).
  unfold appendNum_char. rewrite Hx. cbn [bind]. eexists. split; [reflexivity|].
  cbn [_b buf _offset owned]. rewrite E, <- app_assoc in Ex.
  unfold len. rewrite Ex, Ho, <- app_assoc, !zlen_app, Hp. change (zlen [x00]) with 1.
  rewrite patch_app by (rewrite length_le_bytes; unfold zlen in Hp; lia). split.
  - unfold enc_frame. by replace (zlen pre + (4 + (zlen es + 1)) - zlen pre) with (zlen es + 5) by lia.
  - split; [done|]. split; [done|]. unfold buf_ok, len in *. cbn [buf cap].
    rewrite Ex in Hxok. rewrite !zlen_app, zlen_le_bytes in *. lia.
Qed.

Lemma zlen_frame es : zlen (enc_frame es) = zlen es + 5.
Proof. unfold enc_frame. rewrite !zlen_app, zlen_le_bytes. change (zlen [x00]) with 1. lia. Qed.

Definition small (es : list byte) : Prop := zlen (enc_frame es) <= BSONObjMaxInternalSize.

Lemma frame_points pre es : Ptr (pre ++ enc_frame es) (zlen pre) ↦ enc_frame es.
Proof. exact (points_app_r _ _ _ (zlen pre) (points_start (pre ++ enc_frame es)) eq_refl). Qed.

Lemma frame_size pre es : small es -> objsize (Ptr (pre ++ enc_frame es) (zlen pre)) = Ok (zlen (enc_frame es)).
Proof.
  unfold small. rewrite zlen_frame, obj_max_val. intros Hs. pose proof (zlen_nonneg es).
  pose proof (frame_points pre es) as Hp. unfold objsize. unfold enc_frame in Hp. erewrite points_load_s32; [done|exact Hp|]. apply small_s32. rewrite obj_max_val. lia.
Qed.

Lemma frame_init pre es : small es ->
  BSONObj_init (Ptr (pre ++ enc_frame es) (zlen pre)) = Ok (Ptr (pre ++ enc_frame es) (zlen pre)).
Proof.
  intros Hs. unfold BSONObj_init, isValid. rewrite (frame_size pre es Hs). cbn [bind].
  unfold small in Hs. rewrite zlen_frame in *. pose proof (zlen_nonneg es). by replace (_ && _) with true by lia.
Qed.

Section rows.
Context {D : Type} `{PgApi D}.

(** ** Columns *)

(** The value of a column that is not null, a row, a text or a "char". *)
Inductive scalar_column : Oid -> D -> value -> Prop :=
  | col_bool x : scalar_column BOOLOID x (VBool (DatumGetBool x))
  | col_int8 x : scalar_column INT8OID x (VLong (DatumGetInt64 x))
  | col_int2 x : scalar_column INT2OID x (VInt (DatumGetInt16 x))
  | col_int4 x : scalar_column INT4OID x (VInt (DatumGetInt32 x))
  | col_float4 x : scalar_column FLOAT4OID x (VDouble (DatumGetFloat4 x))
  | col_float8 x : scalar_column FLOAT8OID x (VDouble (DatumGetFloat8 x))
  | col_timestamp x : scalar_column TIMESTAMPOID x (VDate (u64 (DatumGetTimestamp x)))
  | col_bson n x d : get_typename (OtherOid n) = bstr "bson" -> bson_arg (DatumGetBson x) d ->
      scalar_column (OtherOid n) x (VObject d)
  | col_output n x s r : get_typename (OtherOid n) <> bstr "bson" ->
      OutputFunctionCall (OtherOid n) x ↦ s ++ x00 :: r -> no_nul s = true ->
      scalar_column (OtherOid n) x (VString s).

(** The data of a text, and the memory after them. *)
Definition text_datum (v : varlena) (s : list byte) : Prop := VARDATA_ANY v ↦ s /\ data_len v = zlen s.
Definition ends_at_data (v : varlena) : Prop := off (VARDATA_ANY v) + data_len v = zlen (mem (VARDATA_ANY v)).

(** What is written for a column after its type and name. *)
Inductive column_bytes : Oid -> D -> BSONType -> written -> Prop :=
  | bytes_value t x v : scalar_column t x v -> column_bytes t x (vtype v) (Whole (enc_value v))
  | bytes_char x : column_bytes CHAROID x BSONString (Whole (le32 1 ++ [DatumGetChar x]))
  | bytes_text t x s c : In t [TEXTOID; JSONOID; XMLOID] -> text_datum (DatumGetTextP x) s ->
      VARDATA_ANY (DatumGetTextP x) ↦ s ++ [c] ->
      column_bytes t x BSONString (Whole (le32 (zlen s + 1) ++ s ++ [c]))
  | bytes_text_end t x s : In t [TEXTOID; JSONOID; XMLOID] -> text_datum (DatumGetTextP x) s ->
      ends_at_data (DatumGetTextP x) ->
      column_bytes t x BSONString (Outside (le32 (zlen s + 1))).

(** The fields of a row; [nested] says what is written for a row in it. *)
Inductive attrs_bytes (nested : D -> written -> Prop) (tuple : D) : list attribute -> nat -> written -> Prop :=
  | bytes_nil i : attrs_bytes nested tuple [] i (Whole [])
  | bytes_dropped a attrs i w : attisdropped a = true ->
      attrs_bytes nested tuple attrs (S i) w -> attrs_bytes nested tuple (a :: attrs) i w
  | bytes_null a attrs i w x : attisdropped a = false -> heap_getattr tuple (i + 1) = (x, true) ->
      attrs_bytes nested tuple attrs (S i) w ->
      attrs_bytes nested tuple (a :: attrs) i (prepend (enc_header jstNULL (attname a)) w)
  | bytes_column a attrs i w x ty bs : attisdropped a = false -> heap_getattr tuple (i + 1) = (x, false) ->
      column_bytes (atttypid a) x ty (Whole bs) -> attrs_bytes nested tuple attrs (S i) w ->
      attrs_bytes nested tuple (a :: attrs) i (prepend (enc_header ty (attname a) ++ bs) w)
  | bytes_column_end a attrs i x ty bs : attisdropped a = false -> heap_getattr tuple (i + 1) = (x, false) ->
      column_bytes (atttypid a) x ty (Outside bs) ->
      attrs_bytes nested tuple (a :: attrs) i (Outside (enc_header ty (attname a) ++ bs))
  | bytes_record a attrs i w x es : attisdropped a = false -> heap_getattr tuple (i + 1) = (x, false) ->
      atttypid a = RECORDOID -> nested x (Whole es) -> attrs_bytes nested tuple attrs (S i) w ->
      attrs_bytes nested tuple (a :: attrs) i (prepend (enc_header Object (attname a) ++ enc_frame es) w)
  | bytes_record_end a attrs i x es : attisdropped a = false -> heap_getattr tuple (i + 1) = (x, false) ->
      atttypid a = RECORDOID -> nested x (Outside es) ->
      attrs_bytes nested tuple (a :: attrs) i (Outside (enc_header Object (attname a) ++ le32 0 ++ es)).

Fixpoint row_bytes (k : nat) (tuple : D) (w : written) : Prop :=
  match k with
  | O => False
  | S k' => attrs_bytes (row_bytes k') tuple (rowtype_attrs tuple) 0 w
  end.

(** Rows that stand for a document. *)
Inductive attrs_doc (nested : D -> doc -> Prop) (tuple : D) : list attribute -> nat -> doc -> Prop :=
  | attrs_nil i : attrs_doc nested tuple [] i []
  | attrs_dropped a attrs i d : attisdropped a = true ->
      attrs_doc nested tuple attrs (S i) d -> attrs_doc nested tuple (a :: attrs) i d
  | attrs_null a attrs i d x : attisdropped a = false -> heap_getattr tuple (i + 1) = (x, true) ->
      attrs_doc nested tuple attrs (S i) d ->
      attrs_doc nested tuple (a :: attrs) i ((attname a, VNull) :: d)
  | attrs_scalar a attrs i d x v : attisdropped a = false -> heap_getattr tuple (i + 1) = (x, false) ->
      scalar_column (atttypid a) x v -> attrs_doc nested tuple attrs (S i) d ->
      attrs_doc nested tuple (a :: attrs) i ((attname a, v) :: d)
  | attrs_record a attrs i d x d' : attisdropped a = false ->
      heap_getattr tuple (i + 1) = (x, false) -> atttypid a = RECORDOID -> nested x d' ->
      attrs_doc nested tuple attrs (S i) d ->
      attrs_doc nested tuple (a :: attrs) i ((attname a, VObject d') :: d).

Fixpoint row_doc (k : nat) (tuple : D) (d : doc) : Prop :=
  match k with
  | O => False
  | S k' => attrs_doc (row_doc k') tuple (rowtype_attrs tuple) 0 d
  end.

Lemma header_elem name v : enc_header (vtype v) name ++ enc_value v = enc_elem (name, v).
Proof. unfold enc_header, enc_elem. cbn [fst snd]. by rewrite <- app_comm_cons, <- app_assoc. Qed.

Lemma attrs_doc_bytes (nested : D -> doc -> Prop) (bytes : D -> written -> Prop) tuple attrs i d :
  (forall x d', nested x d' -> bytes x (Whole (enc_elems d'))) ->
  attrs_doc nested tuple attrs i d -> attrs_bytes bytes tuple attrs i (Whole (enc_elems d)).
Proof.
  intros Hn Ha. assert (forall f d, Whole (enc_elems (f :: d)) = prepend (enc_elem f) (Whole (enc_elems d))) as Hcons by done.
  induction Ha; rewrite ?Hcons, <- ?header_elem.
  - constructor.
  - by constructor.
  - rewrite app_nil_r. by eapply bytes_null.
  - eapply bytes_column; try done. by constructor.
  - rewrite enc_value_object. eapply bytes_record; try done. by apply Hn.
Qed.

Lemma row_doc_bytes k : forall x d, row_doc k x d -> row_bytes k x (Whole (enc_elems d)).
Proof. induction k as [|k IH]; intros x d Hr; [done|]. by eapply attrs_doc_bytes. Qed.

(** ** What the code does *)

Lemma raw_strsz name p n bs : loads p n = Ok bs ->
  raw_appends (append_strsz name p n) (enc_header BSONString name ++ le32 n ++ bs).
Proof. intros Hp. apply on_b_raw. unfold enc_header. writes_chain. Qed.

Lemma strsz_outside name p n b : buf_ok (_b b) -> fits (_b b) (zlen (enc_header BSONString name ++ le32 n)) ->
  loads p n = Err OutOfBounds -> append_strsz name p n b = Err OutOfBounds.
Proof.
  intros Hb Hf Hp. unfold append_strsz, on_b.
  destruct (writes_seq _ _ _ _ (writes_header BSONString name) (writes_append (le32 n)) (_b b) Hb Hf) as (c & Hc & _).
  unfold seq_w, appendNum_int in *. destruct (header BSONString name (_b b)) as [b1|]; [|done].
  cbn [bind] in *. rewrite Hc. cbn [bind]. unfold appendBuf. by rewrite Hp.
Qed.

Lemma scalar_does composite name t x v : scalar_column t x v ->
  raw_appends (fun b => datum_to_bson composite name b x false t) (enc_header (vtype v) name ++ enc_value v).
Proof.
  intros Hc. rewrite header_elem. destruct Hc; cbn [datum_to_bson]; try (apply on_b_raw; writes_chain).
  - intros b pre es Hb Hf. unfold bytes_eqb. rewrite (bool_decide_eq_true_2 _ H0). rewrite (arg_object_rep _ _ H1). cbn [bind].
    destruct H1 as [Ho _]. unfold append_obj. rewrite (objsize_rep _ _ Ho). cbn [bind].
    apply (on_b_raw _ (enc_elem (name, VObject d))); [|done|done].
    assert (loads (VARDATA_ANY (DatumGetBson x)) (zlen (enc_doc d)) = Ok (enc_doc d)) by (apply points_loads_all; [apply Ho|done]).
    writes_chain.
  - unfold bytes_eqb. rewrite (bool_decide_eq_false_2 _ H0). unfold append_cstr.
    rewrite (points_strlen _ _ _ H1 H2). cbn [bind]. rewrite <- header_elem.
    apply raw_strsz. apply points_loads_all; [|by rewrite zlen_app].
    apply (points_app_l _ _ r). by rewrite <- app_assoc.
Qed.

Lemma text_column composite name t x : In t [TEXTOID; JSONOID; XMLOID] -> forall b,
  datum_to_bson composite name b x false t =
  append_strsz name (VARDATA_ANY (DatumGetTextP x)) (data_len (DatumGetTextP x) + 1) b.
Proof.
  intros Ht b. assert (VARSIZE (DatumGetTextP x) - VARHDRSZ + 1 = data_len (DatumGetTextP x) + 1) as E by (unfold VARSIZE; lia).
  simpl in Ht. destruct Ht as [<-|[<-|[<-|[]]]]; cbn [datum_to_bson]; by rewrite E.
Qed.

Lemma loads_past p n : off p + n = zlen (mem p) -> loads p (n + 1) = Err OutOfBounds.
Proof.
  intros Hn. unfold loads, rest. destruct (_ || _) eqn:E; [done|]. apply orb_false_elim in E as [E1 E2]. cbn [bind].
  rewrite Z.ltb_ge in E1, E2. unfold zlen in *. rewrite length_drop.
  destruct (Z.leb_spec (n + 1) (Z.of_nat (length (mem p) - Z.to_nat (off p)))); [lia|]. by rewrite andb_false_r.
Qed.

Lemma column_does composite name t x ty w : column_bytes t x ty w ->
  does (fun b => datum_to_bson composite name b x false t) (prepend (enc_header ty name) w).
Proof.
  intros Hc. destruct Hc as [t x v Hv|x|t x s c Ht [_ Hl] Hp|t x s Ht [_ Hl] He]; cbn [prepend does].
  - by apply scalar_does.
  - cbn [datum_to_bson]. apply (raw_strsz name (Ptr [DatumGetChar x] 0) 1). apply points_loads_all; [apply points_start|done].
  - intros b pre es. rewrite text_column, Hl by done. apply (raw_strsz name _ (zlen s + 1) (s ++ [c])).
    apply points_loads_all; [done|by rewrite zlen_app].
  - intros b pre es Hb Hf. rewrite text_column, Hl by done. apply strsz_outside; [by eapply raw_ok|done|].
    rewrite <- Hl. by apply loads_past.
Qed.

(** A row in a row. *)
Lemma sub_start_raw name b pre es : b_raw b pre es -> fits (_b b) (zlen name + 6) ->
  exists b' sub, subobjStart name b = Ok b' /\ BSONObjBuilder_on (_b b') = Ok sub /\
    b_raw sub (buf (_b b) ++ enc_header Object name) [] /\ _offset b' = _offset b /\ owned b' = owned b /\
    _doneCalled b' = _doneCalled b.
Proof.
  intros Hb Hf. pose proof Hb as (ph & E & Hp & Ho & Hd & Hok). unfold fits in Hf.
  assert (zlen (enc_header Object name) = zlen name + 2) as Hz
    by (unfold enc_header; rewrite zlen_cons, zlen_app; change (zlen [x00]) with 1; lia).
  destruct (writes_header Object name (_b b) Hok) as (x & Hx & Ex & Hxok); [unfold fits; fold (enc_header Object name); lia|].
  fold (enc_header Object name) in Ex.
  destruct (bb_append_ok (repeat x00 4) x Hxok) as (y & Hy & Ey & Hyok).
  { unfold fits, len in *. rewrite Ex, zlen_app. change (zlen (repeat x00 4)) with 4. lia. }
  unfold subobjStart, on_b. rewrite Hx. cbn [bind]. eexists _, _. split; [reflexivity|].
  unfold BSONObjBuilder_on, skip. cbn [set_b _b]. change (Z.to_nat 4) with 4%nat. rewrite Hy. cbn [bind].
  split; [reflexivity|]. split; [|done]. exists (repeat x00 4). cbn [_b _offset _doneCalled]. rewrite Ey, Ex, app_nil_r.
  split; [done|]. split; [done|]. split; [unfold len; by rewrite Ex|done].
Qed.

Lemma zlen_header name : zlen (enc_header Object name) = zlen name + 2.
Proof. unfold enc_header. rewrite zlen_cons, zlen_app. change (zlen [x00]) with 1. lia. Qed.

Lemma nested_does composite name x es : does (fun b => composite b x) (Whole es) -> small es ->
  does (fun b => datum_to_bson composite name b x false RECORDOID) (Whole (enc_header Object name ++ enc_frame es)).
Proof.
  intros Hc Hs b pre es0 Hb Hf. cbn [datum_to_bson]. unfold fits in Hf.
  rewrite zlen_app, zlen_header, zlen_frame in Hf. pose proof (zlen_nonneg es).
  destruct (sub_start_raw name b pre es0 Hb) as (b1 & sub & -> & Hsub & Hrs & Eo & Ew & Ed); [unfold fits; lia|].
  cbn [bind]. rewrite Hsub. cbn [bind]. pose proof (b_raw_len _ _ _ Hrs) as Hl. rewrite zlen_app, zlen_header in Hl.
  change (zlen []) with 0 in Hl. fold (len (_b b)) in Hl.
  destruct (Hc sub _ [] Hrs) as (sub' & -> & Hs' & _); [unfold fits; lia|]. cbn [bind app] in *.
  assert (fits (_b sub') 1) as Hf1.
  { unfold fits. rewrite (b_raw_len _ _ _ Hs'), zlen_app, zlen_header. fold (len (_b b)). lia. }
  destruct (_done_raw _ _ _ Hs' Hf1) as (s & Hd & Eb & Eo' & _ & Hok). unfold done. rewrite Hd. cbn [bind].
  unfold objdata. rewrite Eb, Eo', frame_init by done. cbn [bind]. eexists. split; [reflexivity|]. split; [|done].
  destruct Hb as (ph & E & Hp & Ho & Hdn & _). exists ph. cbn [set_b _b _offset _doneCalled]. rewrite Eb, E.
  split; [by rewrite <- !app_assoc|]. split; [done|]. split; [congruence|]. split; [congruence|done].
Qed.

Lemma nested_ends composite name x es : does (fun b => composite b x) (Outside es) ->
  does (fun b => datum_to_bson composite name b x false RECORDOID) (Outside (enc_header Object name ++ le32 0 ++ es)).
Proof.
  intros Hc b pre es0 Hb Hf. cbn [datum_to_bson]. unfold fits in Hf.
  rewrite !zlen_app, zlen_header, zlen_le_bytes in Hf. pose proof (zlen_nonneg es).
  destruct (sub_start_raw name b pre es0 Hb) as (b1 & sub & -> & Hsub & Hrs & _); [unfold fits; lia|].
  cbn [bind]. rewrite Hsub. cbn [bind]. rewrite (Hc sub _ [] Hrs); [done|].
  unfold fits. rewrite (b_raw_len _ _ _ Hrs), zlen_app, zlen_header. change (zlen []) with 0. fold (len (_b b)). lia.
Qed.

Lemma small_part a b : small (a ++ b) -> small b.
Proof. unfold small. rewrite !zlen_frame, zlen_app. pose proof (zlen_nonneg a). lia. Qed.

Lemma small_inner a es c : small ((a ++ enc_frame es) ++ c) -> small es.
Proof. unfold small. rewrite !zlen_frame, !zlen_app, zlen_frame. pose proof (zlen_nonneg a). pose proof (zlen_nonneg c). lia. Qed.

Lemma attrs_does (nested : D -> written -> Prop) composite tuple attrs i w :
  (forall x w', nested x w' -> small (bytes_of w') -> does (fun b => composite b x) w') ->
  attrs_bytes nested tuple attrs i w -> small (bytes_of w) -> does (append_attrs composite tuple attrs i) w.
Proof.
  intros Hn Ha. induction Ha as [i|a attrs i w Hdr Ha IH|a attrs i w x Hdr Hx Ha IH|a attrs i w x ty bs Hdr Hx Hc Ha IH
    |a attrs i x ty bs Hdr Hx Hc|a attrs i w x es Hdr Hx Ht Hes Ha IH|a attrs i x es Hdr Hx Ht Hes];
    intros Hs; cbn [append_attrs]; rewrite ?Hdr, ?Hx, ?bytes_prepend in *.
  - intros b pre es Hb _. exists b. rewrite app_nil_r. by split.
  - by apply IH.
  - apply (written_seq (fun b => datum_to_bson composite (attname a) b x true (atttypid a))); [|by eapply IH, small_part].
    cbn [datum_to_bson]. apply on_b_raw. apply writes_header.
  - apply (written_seq (fun b => datum_to_bson composite (attname a) b x false (atttypid a))); [|by eapply IH, small_part].
    exact (column_does composite (attname a) _ _ _ _ Hc).
  - intros b pre es Hb Hf. pose proof (column_does composite (attname a) _ _ _ _ Hc b pre es Hb Hf) as Hr. cbn beta in Hr. by rewrite Hr.
  - rewrite Ht. apply (written_seq (fun b => datum_to_bson composite (attname a) b x false RECORDOID)); [|by eapply IH, small_part].
    apply nested_does; [|by eapply small_inner]. apply (Hn x (Whole es)); [done|by eapply small_inner].
  - rewrite Ht. intros b pre es0 Hb Hf. assert (small es) as Hs' by (by do 2 apply small_part in Hs).
    pose proof (nested_ends composite (attname a) x es (Hn x (Outside es) Hes Hs') b pre es0 Hb Hf) as Hr. cbn beta in Hr. by rewrite Hr.
Qed.

Lemma composite_does depth : forall k x w, row_bytes k x w -> (k <= depth)%nat -> small (bytes_of w) ->
  does (fun b => composite_to_bson depth b x) w.
Proof.
  induction depth as [|depth IH]; intros [|k] x w Hr Hk Hs; try done; try lia.
  cbn [composite_to_bson]. apply (attrs_does (row_bytes k)); [|done|done].
  intros y w' Hy Hs'. apply (IH k y w'); [done|lia|done].
Qed.

(** What [row_to_bson] gives. *)
Definition row_datum (w : written) : result Datum :=
  match w with
  | Whole es => Ok (DBytea (zlen (enc_frame es) + VARHDRSZ) (enc_frame es))
  | Outside _ => Err OutOfBounds
  end.

Lemma row_to_bson_bytes k depth x w : row_bytes k x w -> (k <= depth)%nat -> small (bytes_of w) ->
  row_to_bson depth x = row_datum w.
Proof.
  intros Hr Hk Hs. unfold row_to_bson.
  destruct (new_rep 512 ltac:(by vm_compute)) as (b & -> & Hb & Ho & Hl). cbn [bind].
  pose proof (composite_does depth k x w Hr Hk Hs) as Hd. pose proof Hs as Hsz. unfold small in Hsz. rewrite zlen_frame, obj_max_val in Hsz.
  assert (b_raw b (le32 0) []) as Hraw by exact Hb.
  assert (forall n, n <= zlen (bytes_of w) + 1 -> fits (_b b) n) as Hf.
  { intros n Hn. unfold fits. rewrite Hl. change BufferMaxSize with 67108864. lia. }
  destruct w as [es|es]; cbn [does bytes_of row_datum] in *.
  - destruct (Hd b _ _ Hraw) as (b' & -> & Hb' & Ho'); [apply Hf; lia|]. cbn [bind app] in *.
    assert (fits (_b b') 1) as Hf1.
    { unfold fits. rewrite (b_raw_len _ _ _ Hb'). change (zlen (le32 0)) with 4. change BufferMaxSize with 67108864. lia. }
    destruct (_done_raw _ _ _ Hb' Hf1) as (b2 & H2 & Eb & Eo & _). unfold obj. rewrite Ho', Ho. cbn [massert bind].
    rewrite H2. cbn [bind]. unfold objdata. rewrite Eb, Eo, frame_init by done. cbn [bind].
    unfold return_bson. rewrite frame_size by done. cbn [bind].
    by rewrite (points_loads_all _ _ _ (frame_points _ es) eq_refl).
  - rewrite (Hd b _ _ Hraw); [done|]. apply Hf. lia.
Qed.

(** C6: [row_to_bson] writes for a row one field for each attribute that is not
    dropped, in order and under its name: null for a null, a value of the
    column's type, a nested object for a row, a sub-document for a bson column,
    the text output for the types that are not named.  A row without text and
    "char" columns gives the document of these fields.  A "char" is written as a
    string of size one without a terminator, and a text with the byte of memory
    after its data in the place of the terminator; when the datum ends with its
    data, the code reads outside.  That holds up to the size limit of an object,
    and any depth of recursion that covers the nesting of the row does. *)
Theorem row_to_bson_correct k depth x : (k <= depth)%nat ->
  (forall d, row_doc k x d -> zlen (enc_doc d) <= BSONObjMaxInternalSize -> row_to_bson depth x = Ok (bson_datum d)) /\
  (forall w, row_bytes k x w -> zlen (enc_frame (bytes_of w)) <= BSONObjMaxInternalSize -> row_to_bson depth x = row_datum w).
Proof.
  intros Hk. split.
  - intros d Hr Hs. exact (row_to_bson_bytes k depth x _ (row_doc_bytes k x d Hr) Hk Hs).
  - intros w Hr Hs. by apply (row_to_bson_bytes k).
Qed.

(** A text column whose datum ends with its data, as a text does, makes the
    code read the byte after it: the access is outside the datum. *)
Theorem text_column_overread composite name b x t s :
  In t [TEXTOID; JSONOID; XMLOID] ->
  DatumGetTextP x = MkVarlena (Ptr s 0) (zlen s) ->
  buf_ok (_b b) -> fits (_b b) (zlen name + 6) ->
  datum_to_bson composite name b x false t = Err OutOfBounds.
Proof.
  intros Ht Hx Hb Hf. rewrite text_column, Hx by done. cbn [VARDATA_ANY data_len].
  apply strsz_outside; [done| |by apply (loads_past (Ptr s 0))].
  unfold fits in *. unfold enc_header. rewrite zlen_app, zlen_cons, zlen_app, zlen_le_bytes. change (zlen [x00]) with 1. lia.
Qed.
End rows.

(** ** A concrete PostgreSQL *)

Inductive sample_datum :=
  | SBool (b : bool)
  | SChar (c : byte)
  | SInt (n : Z)
  | SFloat (bits : Z)
  | SVarlena (v : varlena)
  | SOutput (p : ptr)
  | SRow (columns : list (attribute * (sample_datum * bool))).

Definition no_varlena : varlena := MkVarlena (Ptr [] 0) 0.

#[export] Instance sample_api : PgApi sample_datum := {
  DatumGetBool x := match x with SBool b => b | _ => false end;
  DatumGetChar x := match x with SChar c => c | _ => x00 end;
  DatumGetInt16 x := match x with SInt n => s16 n | _ => 0 end;
  DatumGetInt32 x := match x with SInt n => s32 n | _ => 0 end;
  DatumGetInt64 x := match x with SInt n => s64 n | _ => 0 end;
  DatumGetFloat4 x := match x with SFloat b => b | _ => 0 end;
  DatumGetFloat8 x := match x with SFloat b => b | _ => 0 end;
  DatumGetTimestamp x := match x with SInt n => s64 n | _ => 0 end;
  DatumGetTextP x := match x with SVarlena v => v | _ => no_varlena end;
  DatumGetBson x := match x with SVarlena v => v | _ => no_varlena end;
  rowtype_attrs x := match x with SRow l => map fst l | _ => [] end;
  heap_getattr x i :=
    match x with SRow l => nth (i - 1) (map snd l) (SInt 0, true) | _ => (SInt 0, true) end;
  SearchSysCache_typname t :=
    match t with OtherOid 16384 => Some (bstr "bson") | OtherOid _ => Some (bstr "uuid") | _ => None end;
  OutputFunctionCall _ x := match x with SOutput p => p | _ => literal [] end
}.

(** A row with a dropped column, a null and a row in it. *)
Definition sample_row : sample_datum :=
  SRow [(MkAttribute (bstr "a") INT4OID false, (SInt 7, false));
        (MkAttribute (bstr "x") INT4OID true, (SInt 0, true));
        (MkAttribute (bstr "n") INT8OID false, (SInt 0, true));
        (MkAttribute (bstr "u") (OtherOid 2950) false, (SOutput (literal (bstr "0a1b")), false));
        (MkAttribute (bstr "r") RECORDOID false,
          (SRow [(MkAttribute (bstr "c") BOOLOID false, (SBool true, false))], false))].

Definition sample_row_doc : doc :=
  [(bstr "a", VInt 7); (bstr "n", VNull); (bstr "u", VString (bstr "0a1b")); (bstr "r", VObject [(bstr "c", VBool true)])].

(** A row with one column of type "char" and one of type text, whose datum has
    [after] behind its data. *)
Definition text_row (c : byte) (after : list byte) : sample_datum :=
  SRow [(MkAttribute (bstr "c") CHAROID false, (SChar c, false));
        (MkAttribute (bstr "t") TEXTOID false, (SVarlena (MkVarlena (Ptr (bstr "hi" ++ after) 0) 2), false))].

Lemma sample_row_rep : row_doc 2 sample_row sample_row_doc.
Proof.
  cbn [row_doc sample_row rowtype_attrs sample_api map fst]. unfold sample_row_doc.
  eapply attrs_scalar; [done|reflexivity|exact (col_int4 (SInt 7))|].
  eapply attrs_dropped; [done|].
  eapply attrs_null; [done|reflexivity|].
  eapply attrs_scalar; [done|reflexivity| |].
  { apply (col_output 2950 _ (bstr "0a1b") []); [done|apply points_start|done]. }
  eapply attrs_record; [done|reflexivity|done| |apply attrs_nil].
  eapply attrs_scalar; [done|reflexivity|exact (col_bool (SBool true))|apply attrs_nil].
Qed.

Definition char_field (c : byte) : list byte := enc_header BSONString (bstr "c") ++ le32 1 ++ [c].
Definition text_field (c : byte) : list byte := enc_header BSONString (bstr "t") ++ le32 3 ++ bstr "hi" ++ [c].

Lemma text_row_ends c : row_bytes 1 (text_row c []) (Outside (char_field c ++ enc_header BSONString (bstr "t") ++ le32 3)).
Proof.
  apply (bytes_column _ _ (MkAttribute (bstr "c") CHAROID false) _ 0 (Outside (enc_header BSONString (bstr "t") ++ le32 3)) (SChar c));
    [done|reflexivity|exact (bytes_char (SChar c))|].
  eapply bytes_column_end; [done|reflexivity|]. apply (bytes_text_end TEXTOID _ (bstr "hi")); [by left| |reflexivity].
  split; [apply points_start|done].
Qed.

Lemma text_row_whole c after r : row_bytes 1 (text_row c (after :: r)) (Whole (char_field c ++ text_field after ++ [])).
Proof.
  apply (bytes_column _ _ (MkAttribute (bstr "c") CHAROID false) _ 0 (Whole (text_field after ++ [])) (SChar c));
    [done|reflexivity|exact (bytes_char (SChar c))|].
  apply (bytes_column _ _ (MkAttribute (bstr "t") TEXTOID false) _ 1 (Whole []) (SVarlena (MkVarlena (Ptr (bstr "hi" ++ after :: r) 0) 2)));
    [done|reflexivity| |apply bytes_nil].
  apply (bytes_text TEXTOID _ (bstr "hi") after); [by left|split; [|done]|].
  - apply (points_app_l _ (bstr "hi") (after :: r)), points_start.
  - apply (points_app_l _ (bstr "hi" ++ [after]) r), points_start.
Qed.

Lemma row_to_bson_correct_witness :
  row_to_bson 2 sample_row = Ok (bson_datum sample_row_doc) /\
  row_to_bson 1 (text_row "x"%byte []) = Err OutOfBounds /\
  row_to_bson 1 (text_row "x"%byte ["!"%byte]) = row_datum (Whole (char_field "x"%byte ++ text_field "!"%byte ++ [])).
Proof.
  split; [|split].
  - apply (proj1 (row_to_bson_correct 2 2 sample_row (le_n 2))); [exact sample_row_rep|by vm_compute].
  - apply (proj2 (row_to_bson_correct 1 1 (text_row "x"%byte []) (le_n 1)) _ (text_row_ends _)). by vm_compute.
  - apply (proj2 (row_to_bson_correct 1 1 (text_row "x"%byte ["!"%byte]) (le_n 1)) _ (text_row_whole _ _ [])). by vm_compute.
Defined.

Lemma text_column_overread_witness : exists b,
  BSONObjBuilder_new 512 = Ok b /\
  datum_to_bson (fun b _ => Ok b) (bstr "t") b
    (SVarlena (MkVarlena (Ptr (bstr "hi") 0) 2)) false TEXTOID = Err OutOfBounds.
Proof.
  destruct (new_rep 512 ltac:(by vm_compute)) as (b & Hb & Hr & _ & Hl). exists b. split; [done|].
  apply (text_column_overread _ _ b _ TEXTOID (bstr "hi")); [by left|reflexivity| |].
  - by destruct Hr as (ph & _ & _ & _ & _ & Hok).
  - unfold fits. rewrite Hl. by vm_compute.
Defined.

(** A row with one column of type "char". *)
Definition char_row (c : byte) : sample_datum :=
  SRow [(MkAttribute (bstr "c") CHAROID false, (SChar c, false))].

(** A column of type "char" is stored without the terminator of a string,
    so the character is taken for it: whatever the character, the field reads
    back as the empty text. *)
Theorem char_column_lost iso c : exists bs,
  row_to_bson 1 (char_row c) = Ok (DBytea (zlen bs + VARHDRSZ) bs) /\
  bson_get_text iso (MkVarlena (Ptr bs 0) (zlen bs)) (text_of "c") = Ok (return_string []).
Proof.
  exists (le32 13 ++ [x02; "c"; x00; x01; x00; x00; x00; c; x00]%byte).
  destruct c; split; vm_compute; reflexivity.
Qed.
