(* ===== verification/PgText.v ===== *)
(** * PgText: the text input and output of the type
    ([bson_in], [bson_out] of pgbson_exports.cpp)

    [bson_out] prints the object with [jsonString()], [bson_in] parses a C
    string with [fromjson] and copies the object; any exception of the parser
    becomes an error of PostgreSQL.  What [bson_out] prints [bson_in] reads
    back, for every document whose values the text can carry. *)

From stdpp Require Import base list numbers strings option tactics.
From Stdlib Require Import Strings.Byte ZArith Lia.
From S2P Require Import Prelude Memory Decimal Codec Double Printf CNumber BsonTypes Format.
From S2P Require Import Element Obj Access Builder JsObj JsObjSpec BuilderSpec Json JsonPrint JsonText.
From S2P Require Import BuilderSafe JsonSpec JsonSafe Pgbson PgbsonSpec.

(** [object.jsonString()]: strict, not pretty. *)
Definition bson_out (arg : varlena) : result Datum :=
  let* object := arg_object arg in
  let* json := jsonString Strict object in
  Ok (return_cstring json).

(** The argument is a C string. *)
Definition bson_in (arg : ptr) : result Datum :=
  catch_all ERRCODE_INVALID_TEXT_REPRESENTATION (bstr "invalid input syntax for BSON")
    (let* s := cstr arg in
     let* r := JParse.fromjson s in
     return_bson (fst r)).

(** ** The text of a document is a C string *)

Lemma escape_no_nul slash s : no_nul (escape_text slash s) = true.
Proof.
  induction s as [|c s IH]; [done|]. cbn [escape_text flat_map]. rewrite no_nul_app.
  fold (escape_text slash s). rewrite IH, andb_true_r. destruct slash; by destruct c.
Qed.

Lemma forallb_subset (f g : byte -> bool) s :
  forallb (fun c => implb (f c) (g c)) all_bytes = true -> forallb f s = true -> forallb g s = true.
Proof.
  intros Hf. rewrite !forallb_forall. intros Hs c Hc. specialize (Hs c Hc).
  pose proof (for_all_bytes _ Hf c) as H. cbv beta in H. by rewrite Hs in H.
Qed.

Lemma hex_no_nul bs : no_nul (toHexLower bs) = true.
Proof. apply (forallb_subset isxdigit); [by vm_compute|apply isxdigit_hex]. Qed.

Lemma number_text_no_nul d : no_nul (number_text d) = true.
Proof.
  unfold number_text, json_number. destruct (_ && _); [apply format_double_no_nul|].
  destruct (isNaN d); [done|]. destruct (fst (isInf d)); [|done]. by destruct (_ =? 1).
Qed.

Ltac no_nul_text := rewrite ?no_nul_app, ?escape_no_nul, ?dec_no_nul, ?hex_no_nul, ?number_text_no_nul; try done.

Lemma comma_sep_no_nul l : Forall (fun x => no_nul x = true) l -> no_nul (comma_sep l) = true.
Proof.
  induction 1 as [|x l Hx Hl IH]; [done|]. destruct l as [|y l]; [exact Hx|].
  by rewrite comma_sep_cons, !no_nul_app, Hx, IH.
Qed.

(** What the texts of the fields have in common. *)
Lemma carried_fields (P : field -> Prop) d :
  Forall (fun f : field => carries Strict (snd f) = true -> wf_value (snd f) = true -> P f) d ->
  forallb (fun f : field => carries Strict (snd f)) d = true -> wf_doc d = true -> Forall P d.
Proof.
  intros IH Hc Hw%wf_doc_Forall. rewrite forallb_forall in Hc. rewrite List.Forall_forall in *.
  intros [n v] Hin. destruct (wf_field_parts n v (Hw _ Hin)) as [_ Hv].
  apply (IH _ Hin); [|done]. exact (Hc (n, v) Hin).
Qed.

Lemma doc_small d : wf_doc d = true -> zlen d < 2 ^ 31 - 1.
Proof. intros Hw. pose proof (doc_length_bound d). apply wf_doc_size in Hw. rewrite obj_max_val in Hw. lia. Qed.

Lemma json_doc_no_nul_fields d : Forall (fun f : field => no_nul (json_value Strict (snd f)) = true) d ->
  no_nul (json_doc Strict d) = true.
Proof.
  intros H. destruct d as [|f d]; [done|]. unfold json_doc. rewrite !no_nul_app, comma_sep_no_nul; [done|].
  apply Forall_map. eapply List.Forall_impl; [|exact H]. intros g Hg. cbv beta.
  unfold json_member, quoted. no_nul_text.
Qed.

Lemma json_value_no_nul v : carries Strict v = true -> wf_value v = true -> no_nul (json_value Strict v) = true.
Proof.
  pattern v. apply value_nested_ind; clear v.
  - intros v. destruct v; try exact I; intros Hc Hw; try discriminate Hc; try done; cbn [json_value];
      try (no_nul_text; fail).
    + unfold quoted. by no_nul_text.
    + unfold binary_json. no_nul_text.
      assert (no_nul (b64_encode data) = true) as -> by (apply b64_encode_forall; by vm_compute). done.
    + unfold oid_json, OID_str. by no_nul_text.
    + by destruct b.
    + unfold date_json. by no_nul_text.
    + unfold timestamp_json. change (is_tengen Strict) with false. cbn iota. by no_nul_text.
    + unfold regex_json. change (is_strict Strict) with true. cbn iota. no_nul_text.
      assert (no_nul opts = true) as ->; [|done]. cbn [wf_value] in Hw.
      rewrite !andb_true_iff in Hw. tauto.
  - intros d IH Hc Hw. rewrite json_value_object. cbn [carries] in Hc. apply andb_prop in Hc as [_ Hc].
    rewrite wf_value_object in Hw. apply json_doc_no_nul_fields.
    by apply (carried_fields (fun f => no_nul (json_value Strict (snd f)) = true)).
  - intros d IH Hc Hw. rewrite json_value_array. cbn [carries] in Hc. apply andb_prop in Hc as [Hi Hc].
    rewrite wf_value_array in Hw. destruct d as [|f d]; [done|]. unfold json_array.
    rewrite !no_nul_app, comma_sep_no_nul; [done|].
    rewrite json_items_indexed; [|done|lia|pose proof (doc_small _ Hw); lia]. apply Forall_map.
    by apply (carried_fields (fun f => no_nul (json_value Strict (snd f)) = true)).
  - done.
Qed.

Lemma json_doc_no_nul d : json_carries Strict d = true -> wf_doc d = true -> no_nul (json_doc Strict d) = true.
Proof.
  intros [_ Hc]%andb_prop Hw. apply json_doc_no_nul_fields.
  apply (carried_fields (fun f => no_nul (json_value Strict (snd f)) = true)); [|done|done].
  apply List.Forall_forall. intros f _. apply json_value_no_nul.
Qed.

(** ** What the parser reads the printer can print *)

Lemma indexed_counted d : forall k, indexed k d = true -> 0 <= k -> k + zlen d < 2 ^ 31 ->
  counted k d = true.
Proof.
  induction d as [|[n v] d IH]; intros k Hd Hk Hz; [done|]. rewrite zlen_cons in Hz.
  pose proof (zlen_nonneg d). cbn [indexed counted fst] in *.
  apply andb_prop in Hd as [Hn%bool_decide_eq_true Hd]. subst n.
  rewrite name_index_dec by (apply in_s_spec; change (2 ^ (64 - 1)) with (2 ^ 63); lia).
  rewrite Z.max_id, IH by (done || lia). rewrite andb_true_r. apply in_s_spec.
  change (2 ^ (32 - 1)) with (2 ^ 31). lia.
Qed.

Lemma carried_printable v : carries Strict v = true -> wf_value v = true -> printable v = true.
Proof.
  assert (forall d, Forall (fun f : field => carries Strict (snd f) = true -> wf_value (snd f) = true ->
      printable (snd f) = true) d ->
    forallb (fun f : field => carries Strict (snd f)) d = true -> wf_doc d = true -> printable_doc d = true) as Hf.
  { intros d IH Hc Hw. apply forallb_forall. apply List.Forall_forall. by apply carried_fields. }
  pattern v. apply value_nested_ind; clear v.
  - intros v. by destruct v.
  - intros d IH Hc Hw. cbn [carries] in Hc. apply andb_prop in Hc as [_ Hc]. by apply Hf.
  - intros d IH Hc Hw. cbn [carries] in Hc. apply andb_prop in Hc as [Hi Hc]. cbn [printable].
    apply andb_true_intro. split; [by apply Hf|].
    apply indexed_counted; [done|lia|]. rewrite wf_value_array in Hw. pose proof (doc_small _ Hw). lia.
  - done.
Qed.

Lemma json_carries_printable d : json_carries Strict d = true -> wf_doc d = true -> printable_doc d = true.
Proof.
  intros [_ Hc]%andb_prop Hw. apply forallb_forall, List.Forall_forall.
  apply (carried_fields (fun f => printable (snd f) = true)); [|done|done].
  apply List.Forall_forall. intros f _. apply carried_printable.
Qed.

Lemma bson_in_rep s d : no_nul s = true -> (exists o n, JParse.fromjson s = Ok (o, n) /\ obj_rep o d) ->
  bson_in (Ptr (s ++ [x00]) 0) = Ok (bson_datum d).
Proof.
  intros Hs (o & n & Hj & Ho). unfold bson_in.
  assert (cstr (Ptr (s ++ [x00]) 0) = Ok s) as ->.
  { eapply points_cstr; [apply points_start|done]. }
  cbn [bind]. rewrite Hj. cbn [bind fst]. by rewrite (return_bson_rep _ _ Ho).
Qed.

(** C2: the text of a value of the type reads back as the same value: for a
    document of strings, numbers, booleans, nulls, identifiers, dates,
    timestamps, binary data, regular expressions and nested documents and
    arrays, [bson_out] gives a C string that [bson_in] turns into the same
    bytes.  [json_carries] says what the text loses: a double whose sixteen
    digits are not it, a long that is an int, a name the parser reserves, and
    the types the text does not tell apart. *)
Theorem text_roundtrip x d : bson_arg x d -> json_carries Strict d = true ->
  zlen (json_doc Strict d) <= BufferMaxSize ->
  exists s, bson_out x = Ok (DCString (s ++ [x00])) /\ no_nul s = true /\
    bson_in (Ptr (s ++ [x00]) 0) = Ok (bson_datum d).
Proof.
  intros [Ho Hl] Hc Hz. pose proof (proj2 Ho) as Hw. exists (json_doc Strict d).
  unfold bson_out. rewrite (arg_object_rep x d) by (by split). cbn [bind].
  rewrite (jsonString_rep Strict _ _ Ho) by (done || by apply json_carries_printable). cbn [bind].
  split; [done|]. pose proof (json_doc_no_nul d Hc Hw) as Hn. split; [done|].
  apply bson_in_rep; [done|]. destruct (fromjson_rep Strict d Hw Hc) as (o & Hj & Hr). eauto.
Qed.

Definition text_sample : doc :=
  [(bstr "s", VString (bstr "a" ++ [x22; x00; x5c; xc3; xa9])); (bstr "n", VInt (-5));
   (bstr "l", VLong (2 ^ 40)); (bstr "d", VDouble 4609434218613702656); (bstr "i", VDouble d_ninf);
   (bstr "o", VObject [(bstr "x", VArray [(bstr "0", VNull); (bstr "1", VBool true)])]);
   (bstr "t", VDate (2 ^ 64 - 1)); (bstr "ts", VTimestamp (7 * 2 ^ 32 + 9));
   (bstr "b", VBinData x05 (bstr "hello")); (bstr "r", VRegEx (bstr "^a/b") (bstr "gi"));
   (bstr "id", VOID (bstr "0123456789ab")); (bstr "u", VUndefined)].

Lemma text_roundtrip_witness : exists s, bson_out (bson_of text_sample) = Ok (DCString (s ++ [x00])).
Proof.
  destruct (text_roundtrip (bson_of text_sample) text_sample) as (s & H & _).
  - by apply bson_of_arg; vm_compute.
  - by vm_compute.
  - by vm_compute.
  - by exists s.
Defined.

(** ** The parser's result on any C string *)

Lemma cstr_text s : no_nul s = true -> cstr (Ptr (s ++ [x00]) 0) = Ok s.
Proof. intros Hs. eapply points_cstr; [apply points_start|done]. Qed.

(** An object in memory is copied whole, whatever it holds. *)
Lemma return_bson_points o d : o ↦ enc_doc d -> zlen (enc_doc d) <= BSONObjMaxInternalSize ->
  return_bson o = Ok (bson_datum d).
Proof.
  intros Ho Hz. pose proof (zlen_enc_doc d) as He. pose proof (zlen_nonneg (enc_elems d)).
  rewrite obj_max_val in Hz. unfold return_bson, objsize.
  rewrite (points_load_s32 o (zlen (enc_doc d)) (enc_elems d ++ [x00])).
  - cbn [bind]. by rewrite (points_loads_all _ _ _ Ho eq_refl).
  - rewrite He. exact Ho.
  - apply small_s32. rewrite obj_max_val. lia.
Qed.

Definition bson_in_error : err :=
  Ereport ERRCODE_INVALID_TEXT_REPRESENTATION (bstr "invalid input syntax for BSON").

Lemma parser_exception e : e = MsgAssert 16619 \/ too_large e -> is_exception e = true.
Proof. by intros [->|[->| ->]]. Qed.

Lemma bson_in_safe plain s : no_nul s = true -> zlen s <= 2 ^ 28 -> implb plain (negb (has_u0000 s)) = true ->
  match bson_in (Ptr (s ++ [x00]) 0) with
  | Ok x => exists d, x = bson_datum d /\ typed_doc plain d = true /\ zlen (enc_doc d) <= BSONObjMaxInternalSize
  | Err e => e = bson_in_error
  end.
Proof.
  intros Hn Hz Hu. unfold bson_in. rewrite cstr_text by done. cbn [bind].
  pose proof (fromjson_safe_core plain s) as H.
  destruct (JParse.fromjson s) as [[x n]|e]; cbn [bind fst].
  - destruct H as (d & Hd & Hx & Hsz & _).
    { repeat split; [done|done|]. destruct plain; [|done]. intros _. by destruct (has_u0000 s). }
    rewrite (return_bson_points _ _ Hx Hsz). exists d. by repeat split.
  - unfold catch_all. rewrite parser_exception; [done|]. apply H.
    repeat split; [done|done|]. destruct plain; [|done]. intros _. by destruct (has_u0000 s).
Qed.

(** The text input function answers every C string: with a datum, the
    encoding of a document of the types of JSON text within the size limit, or
    with its one error message; no other exception escapes from it and it
    reads nothing outside the string.  When the string escapes no NUL the
    datum is a well-formed document. *)
Theorem bson_in_total s : no_nul s = true -> zlen s <= 2 ^ 28 ->
  match bson_in (Ptr (s ++ [x00]) 0) with
  | Ok x => exists d, x = bson_datum d /\ typed_doc false d = true /\
      zlen (enc_doc d) <= BSONObjMaxInternalSize /\ (has_u0000 s = false -> wf_doc d = true)
  | Err e => e = bson_in_error
  end.
Proof.
  intros Hn Hz. destruct (has_u0000 s) eqn:Hu.
  - pose proof (bson_in_safe false s Hn Hz eq_refl) as H. destruct (bson_in _) as [x|e]; [|done].
    destruct H as (d & Hx & Hd & Hsz). by exists d.
  - pose proof (bson_in_safe true s Hn Hz ltac:(by rewrite Hu)) as H. destruct (bson_in _) as [x|e]; [|done].
    destruct H as (d & Hx & Hd & Hsz). exists d. repeat split; [done| |done|].
    + by apply typed_doc_weaken.
    + intros _. by apply typed_doc_wf.
Qed.

Lemma bson_in_total_witness : exists e, bson_in (Ptr (bstr "{ a : tru }" ++ [x00]) 0) = Err e /\ e = bson_in_error.
Proof.
  pose proof (bson_in_total (bstr "{ a : tru }") eq_refl ltac:(by vm_compute)) as H.
  eexists. split; [by vm_compute|exact H].
Defined.

(** a name that escapes a NUL is not refused, and what is stored is not the
    text: the name ends at the NUL, the rest of it is taken for the bytes of
    the value, and the number 1 of the text is printed as 65634. *)
Theorem text_nul_in_name : exists n bs, bson_in (Ptr (bstr "{ 'a\u0000b' : 1 }" ++ [x00]) 0) = Ok (DBytea n bs) /\
  bson_out (MkVarlena (Ptr bs 0) (zlen bs)) =
    Ok (DCString (bstr "{ " ++ [x22] ++ bstr "a" ++ [x22] ++ bstr " : 65634 }" ++ [x00])).
Proof.
  exists 18, (le32 14 ++ [x10; "a"%byte; x00; "b"%byte; x00; x01; x00; x00; x00; x00]).
  split; by vm_compute.
Qed.

(** Input that is not an object of the language is accepted: a date
    without its number, whose error is dropped with the field, and any text
    after the closing brace. *)
Theorem text_lenient : bson_in (Ptr (bstr "{ a : new Date }" ++ [x00]) 0) = Ok (bson_datum []) /\
  bson_in (Ptr (bstr "{ a : 1 } } is not read" ++ [x00]) 0) = Ok (bson_datum [(bstr "a", VInt 1)]).
Proof. split; by vm_compute. Qed.
