(* ===== verification/Commands.v ===== *)
(** * Commands: commands to a server (DBClientWithCommands of
    client/dbclientinterface.h and dbclient.cpp, db/namespacestring.h)

    A command is an object; it is run as a query for one object of the collection
    $cmd of a database, and the answer's field [ok] tells whether it succeeded.
    [runCommand] is virtual: the other functions here use the connection's, of
    the class [Clients].  The text of messages is left out.

    The theorems: a command reaches the server as the query of its object, and the
    result is the server's answer; authentication with a password succeeds
    exactly when a server that keeps only the digest of the password and makes
    a fresh nonce accepts it. *)

From stdpp Require Import base list numbers strings option tactics.
From Stdlib Require Import Strings.Byte ZArith Lia.
From S2P Require Import Prelude Memory Status Codec Double Text BsonTypes Format Element Obj Validate ValidateSpec Access Extract Order.
From S2P Require Import Builder JsObj JsObjSpec ReadPref Wire Md5 Md5Spec Json Decimal Cursor.

(** ** Namespaces *)

Definition nsGetCollection (ns : list byte) : list byte :=
  if bool_decide (nsGetDB ns = ns) then [] else drop (S (length (nsGetDB ns))) ns.

Record NamespaceString := MkNamespace { ns_db : list byte; coll : list byte }.

(** A name without a dot leaves both parts empty. *)
Definition NamespaceString_of (ns : list byte) : NamespaceString :=
  let s := c_str ns in
  if bool_decide (nsGetDB s = s) then MkNamespace [] []
  else MkNamespace (nsGetDB s) (drop (S (length (nsGetDB s))) s).

Definition namespace_ns (n : NamespaceString) : list byte := ns_db n ++ bstr "." ++ coll n.
Definition isSystem (n : NamespaceString) : bool :=
  match starts_with (bstr "system.") (c_str (coll n)) with Some _ => true | None => false end.
Definition isCommand (n : NamespaceString) : bool := bytes_eqb (coll n) (bstr "$cmd").

Definition db_bad_char (b : byte) : bool := existsb (Byte.eqb b) (bstr "/\. " ++ [x22]).

(** [strcspn] stops at a NUL. *)
Definition validDBName (db : list byte) : bool :=
  negb ((zlen db =? 0) || (64 <? zlen db)) && negb (existsb db_bad_char (c_str db)) && no_nul db.

Definition isValid_ns (n : NamespaceString) : bool := validDBName (ns_db n) && negb (bool_decide (coll n = [])).

Definition oplog (ns : list byte) : bool := bytes_eqb ns (bstr "local.oplog.rs") || bytes_eqb ns (bstr "local.oplog.$main").
Definition normal (ns : list byte) : bool := negb (existsb (Byte.eqb "$") ns) || oplog ns.
Definition special (ns : list byte) : bool :=
  negb (normal ns) || match find_sub (bstr ".system.") ns with Some _ => true | None => false end.

Definition validCollectionName (dbcoll : list byte) : bool :=
  match drop (length (nsGetDB dbcoll)) dbcoll with
  | _ :: _ :: _ => normal dbcoll
  | _ => false
  end.

Definition MaxDatabaseNameLen : Z := 128.
Definition nsToDatabaseSubstring (ns : list byte) : result (list byte) :=
  if bool_decide (nsGetDB ns = ns) then let* _ := massert 10078 (zlen ns <? MaxDatabaseNameLen) in Ok ns
  else let* _ := massert 10088 (zlen (nsGetDB ns) <? MaxDatabaseNameLen) in Ok (nsGetDB ns).

(** ** Answers *)

Definition isOk (o : BSONObj) : result bool := let* e := getField o (bstr "ok") in trueValue e.

Definition isNotMasterErrorString (e : BSONElement) : result bool :=
  let* t := type e in
  if bool_decide (t = BSONString) then
    let* p := valuestr e in
    let* s := cstr p in
    Ok (match find_sub (bstr "not master") s with Some _ => true | None => false end)
  else Ok false.

(** ** Digests *)

Definition password_digest (st : Md5.md5_state) (pieces : list (list byte)) : result (list byte) :=
  let* st := append_all (Md5.md5_init st) pieces in
  let* d := Md5.md5_finish st in
  Ok (Md5.digestToString d).

(** [st] is what the state holds before. *)
Definition createPasswordDigest (st : Md5.md5_state) (username clearTextPassword : list byte) : result (list byte) :=
  password_digest st [username; bstr ":mongo:"; clearTextPassword].

(** ** Objects of commands *)

(** An object built by these appends: with [done()], and with [BSON(...)]. *)
Definition command_done (m : BSONObjBuilder -> result BSONObjBuilder) : result BSONObj :=
  let* b := BSONObjBuilder_new 512 in
  let* b := m b in
  let* '(o, _) := done b in
  Ok o.

Definition BSON (m : BSONObjBuilder -> result BSONObjBuilder) : result BSONObj :=
  let* b := BSONObjBuilder_new 64 in
  let* b := m b in
  obj b.

Definition then_ (m k : BSONObjBuilder -> result BSONObjBuilder) : BSONObjBuilder -> result BSONObjBuilder :=
  fun b => let* b := m b in k b.
Definition when_ (c : bool) (m : BSONObjBuilder -> result BSONObjBuilder) : BSONObjBuilder -> result BSONObjBuilder :=
  fun b => if c then m b else Ok b.

(** An object from text, made when the program starts. *)
Definition static_json (text : list byte) : BSONObj :=
  match JParse.fromjson text with Ok (o, _) => o | Err _ => BSONObj_empty end.

Definition getpreverrorcmdobj : BSONObj := static_json (bstr "{getpreverror:1}").
Definition getnoncecmdobj : BSONObj := static_json (bstr "{getnonce:1}").
Definition ismastercmdobj : BSONObj := static_json (bstr "{" ++ [x22] ++ bstr "ismaster" ++ [x22] ++ bstr ":1}").
Definition getprofilingcmdobj : BSONObj := static_json (bstr "{" ++ [x22] ++ bstr "profile" ++ [x22] ++ bstr ":-1}").

Definition _countCmd (myns : list byte) (query : BSONObj) (limit skip_ : Z) : result BSONObj :=
  let ns := NamespaceString_of myns in
  let* b := BSONObjBuilder_new 512 in
  let* b := then_ (append_string (bstr "count") (coll ns)) (then_ (append_obj (bstr "query") query)
    (then_ (when_ (negb (limit =? 0)) (append_int (bstr "limit") limit))
       (when_ (negb (skip_ =? 0)) (append_int (bstr "skip") skip_)))) b in
  obj b.

Definition getlasterror_obj (fsync j : bool) (w wtimeout : Z) : result BSONObj :=
  let* b := BSONObjBuilder_new 512 in
  let* b := then_ (append_int (bstr "getlasterror") 1) (then_ (when_ fsync (append_int (bstr "fsync") 1))
    (then_ (when_ j (append_int (bstr "j") 1))
    (then_ (if 1 <=? w then append_int (bstr "w") w
            else when_ (w =? -1) (append_string (bstr "w") (bstr "majority")))
       (when_ (0 <? wtimeout) (append_int (bstr "wtimeout") wtimeout))))) b in
  obj b.

(** The name of an index: the keys and their values, joined. *)
Definition index_part (e : BSONElement) : result (list byte) :=
  let* n := field_name e in
  let* num := isNumber e in
  let* v := if num then let* i := numberInt e in Ok (dec i) else str e in
  Ok (n ++ bstr "_" ++ v).

Definition genIndexName (keys : BSONObj) : result (list byte) :=
  finish (fun ss => Ok (default [] ss)) (for_elements keys None (fun ss e =>
    let* p := index_part e in
    Ok (Continue (Some (match ss with None => p | Some ss => ss ++ bstr "_" ++ p end))))).

(** ** Running commands *)

Definition WM (W A : Type) : Type := W -> W * (exn + A).
Definition wret {W A} (a : A) : WM W A := fun w => (w, inr a).
Definition wraise {W A} (e : exn) : WM W A := fun w => (w, inl e).
Definition wbind {W A B} (m : WM W A) (k : A -> WM W B) : WM W B := fun w =>
  match m w with
  | (w', inr a) => k a w'
  | (w', inl e) => (w', inl e)
  end.
Definition wlift {W A} (r : result A) : WM W A := match r with Ok a => wret a | Err e => wraise (Failure e) end.

Notation "'act!' x := m 'in' k" := (wbind m (fun x => k)) (at level 10, x name, m at level 200, k at level 200) : bson_scope.
Notation "'act!' ' p := m 'in' k" := (wbind m (fun x => match x with p => k end))
  (at level 10, p pattern, m at level 200, k at level 200) : bson_scope.

(** A status that is not a success is an exception with its code. *)
Definition error_number (c : ErrorCodes.Error) : Z :=
  match c with
  | ErrorCodes.OK => 0 | ErrorCodes.InternalError => 1 | ErrorCodes.BadValue => 2 | ErrorCodes.DuplicateKey => 3
  | ErrorCodes.NoSuchKey => 4 | ErrorCodes.GraphContainsCycle => 5 | ErrorCodes.HostUnreachable => 6
  | ErrorCodes.HostNotFound => 7 | ErrorCodes.UnknownError => 8 | ErrorCodes.FailedToParse => 9
  | ErrorCodes.CannotMutateObject => 10 | ErrorCodes.UserNotFound => 11 | ErrorCodes.UnsupportedFormat => 12
  | ErrorCodes.Unauthorized => 13 | ErrorCodes.TypeMismatch => 14 | ErrorCodes.Overflow => 15
  | ErrorCodes.InvalidLength => 16 | ErrorCodes.ProtocolError => 17 | ErrorCodes.AuthenticationFailed => 18
  | ErrorCodes.CannotReuseObject => 19 | ErrorCodes.IllegalOperation => 20 | ErrorCodes.EmptyArrayOperation => 21
  | ErrorCodes.InvalidBSON => 22 | ErrorCodes.AlreadyInitialized => 23 | ErrorCodes.LockTimeout => 24
  | ErrorCodes.RemoteValidationError => 25
  end.

Definition uassertStatusOK (s : Status) : result unit :=
  if isOK s then Ok tt else Err (UserAssert (if location s =? 0 then error_number (code s) else location s)).

Section Commands.
Context {W conn : Type} `{Clients W conn}.

(** [DBClientWithCommands::runCommand]; [vquery] is the virtual query.  The
    result is whether the command is ok, and the answer. *)
Definition runCommand_base (vquery : @query_fun W conn) (dbname : list byte) (cmd : BSONObj) (options : Z) :
    WM W (bool * BSONObj) :=
  act! info := findOne vquery (dbname ++ bstr ".$cmd") cmd None options in
  act! ok := wlift (isOk info) in
  wret (ok, info).

Definition runCommand (cl : conn) (dbname : list byte) (cmd : BSONObj) (options : Z) : WM W (bool * BSONObj) :=
  cl_runCommand cl dbname cmd options.

Definition simpleCommand (cl : conn) (dbname command : list byte) : WM W (bool * BSONObj) :=
  act! o := wlift (command_done (append_int command 1)) in
  runCommand cl dbname o 0.

Definition resetError (cl : conn) : WM W bool :=
  act! '(ok, _) := simpleCommand cl (bstr "admin") (bstr "reseterror") in wret ok.
Definition repairDatabase (cl : conn) (dbname : list byte) : WM W (bool * BSONObj) :=
  simpleCommand cl dbname (bstr "repairDatabase").

Definition _lookupAvailableOptions (cl : conn) : WM W Z :=
  act! cmd := wlift (BSON (append_int (bstr "availablequeryoptions") 1)) in
  act! '(ok, ret) := runCommand cl (bstr "admin") cmd 0 in
  if ok then wlift (getIntField ret (bstr "options")) else wret 0.

(** The cache and the options. *)
Definition availableOptions (cl : conn) (cached : option Z) : WM W (option Z * Z) :=
  match cached with
  | Some o => wret (cached, o)
  | None => act! o := _lookupAvailableOptions cl in wret (Some o, o)
  end.

Definition count (cl : conn) (myns : list byte) (query : BSONObj) (options limit skip_ : Z) : WM W Z :=
  let ns := NamespaceString_of myns in
  act! cmd := wlift (_countCmd myns query limit skip_) in
  act! '(ok, res) := runCommand cl (c_str (ns_db ns)) cmd options in
  if ok then act! n := wlift (let* e := getField res (bstr "n") in numberLong e) in wret (u64 n)
  else wraise (Failure (UserAssert 11010)).

Definition exists_ns (cl : conn) (ns : list byte) : WM W bool :=
  let db := nsGetDB ns ++ bstr ".system.namespaces" in
  act! q := wlift (BSON (append_string (bstr "name") ns)) in
  act! n := count cl (c_str db) q QueryOption_SlaveOk 0 0 in
  wret (negb (n =? 0)).

Definition getLastErrorDetailed (cl : conn) (db : list byte) (fsync j : bool) (w wtimeout : Z) : WM W BSONObj :=
  act! o := wlift (getlasterror_obj fsync j w wtimeout) in
  act! '(_, info) := runCommand cl db o 0 in
  wret info.

Definition getPrevError (cl : conn) : WM W BSONObj :=
  act! '(_, info) := runCommand cl (bstr "admin") getpreverrorcmdobj 0 in wret info.

Definition logout (cl : conn) (dbname : list byte) : WM W BSONObj :=
  act! cmd := wlift (BSON (append_int (bstr "logout") 1)) in
  act! '(_, info) := runCommand cl dbname cmd 0 in wret info.

(** Whether the command succeeded, whether the server is a master, the answer. *)
Definition isMaster (cl : conn) : WM W (bool * bool * BSONObj) :=
  act! '(ok, info) := runCommand cl (bstr "admin") ismastercmdobj 0 in
  act! m := wlift (let* e := getField info (bstr "ismaster") in trueValue e) in
  wret (ok, m, info).

Definition createCollection (cl : conn) (ns : list byte) (size_ : Z) (capped : bool) (max_ : Z) : WM W (bool * BSONObj) :=
  act! _ := wlift (verify (negb capped || negb (size_ =? 0))) in
  act! db := wlift (nsToDatabaseSubstring ns) in
  act! name := wlift (cstr (Ptr (c_str ns ++ [x00]) (zlen db + 1))) in
  act! cmd := wlift (command_done (then_ (append_string (bstr "create") name)
    (then_ (when_ (negb (size_ =? 0)) (append_longlong (bstr "size") size_))
    (then_ (when_ capped (append_bool (bstr "capped") true))
       (when_ (negb (max_ =? 0)) (append_int (bstr "max") max_)))))) in
  runCommand cl (c_str db) cmd 0.

Definition copyDatabase (cl : conn) (fromdb todb fromhost : list byte) : WM W (bool * BSONObj) :=
  act! cmd := wlift (command_done (then_ (append_int (bstr "copydb") 1) (then_ (append_string (bstr "fromhost") fromhost)
    (then_ (append_string (bstr "fromdb") fromdb) (append_string (bstr "todb") todb))))) in
  runCommand cl (bstr "admin") cmd 0.

Definition setDbProfilingLevel (cl : conn) (dbname : list byte) (level : Z) : WM W (bool * BSONObj) :=
  act! _ := if negb (level =? 0) then
              act! _ := createCollection cl (c_str (dbname ++ bstr ".system.profile")) (1024 * 1024) true 0 in wret tt
            else wret tt in
  act! cmd := wlift (command_done (append_int (bstr "profile") level)) in
  runCommand cl dbname cmd 0.

Definition getDbProfilingLevel (cl : conn) (dbname : list byte) : WM W (option Z) :=
  act! '(ok, info) := runCommand cl dbname getprofilingcmdobj 0 in
  if ok then act! l := wlift (getIntField info (bstr "was")) in wret (Some l) else wret None.

Definition mapreduce (cl : conn) (ns jsmapf jsreducef : list byte) (query out : BSONObj) : WM W BSONObj :=
  act! cmd := wlift (
    let* z := isEmpty query in
    command_done (then_ (append_string (bstr "mapreduce") (nsGetCollection ns)) (then_ (appendCode (bstr "map") jsmapf)
      (then_ (appendCode (bstr "reduce") jsreducef) (then_ (when_ (negb z) (append_obj (bstr "query") query))
         (append_obj (bstr "out") out)))))) in
  act! '(_, info) := runCommand cl (nsGetDB ns) cmd 0 in
  wret info.

(** The result, the answer and the value, when there is one. *)
Definition eval_js (cl : conn) (dbname jscode : list byte) (args : option BSONObj) : WM W (bool * BSONObj * option BSONElement) :=
  act! cmd := wlift (command_done (then_ (appendCode (bstr "$eval") jscode)
    (match args with Some a => appendArray (bstr "args") a | None => fun b => Ok b end))) in
  act! '(ok, info) := runCommand cl dbname cmd 0 in
  if ok then act! v := wlift (getField info (bstr "retval")) in wret (true, info, Some v) else wret (false, info, None).

Definition validate_ns (cl : conn) (ns : list byte) (scandata : bool) : WM W bool :=
  act! cmd := wlift (BSON (then_ (append_string (bstr "validate") (nsGetCollection ns)) (append_bool (bstr "scandata") scandata))) in
  act! '(ok, _) := runCommand cl (c_str (nsGetDB ns)) cmd 0 in
  wret ok.

Definition dropCollection (cl : conn) (ns : list byte) : WM W (bool * BSONObj) :=
  let db := nsGetDB ns in
  let c := nsGetCollection ns in
  act! _ := wlift (uassert 10011 (negb (zlen c =? 0))) in
  act! cmd := wlift (BSON (append_string (bstr "drop") c)) in
  runCommand cl (c_str db) cmd 0.

Definition dropDatabase (cl : conn) (dbname : list byte) : WM W (bool * BSONObj) := simpleCommand cl dbname (bstr "dropDatabase").

Definition dropIndex (cl : conn) (ns indexName : list byte) : WM W unit :=
  act! db := wlift (nsToDatabaseSubstring ns) in
  act! cmd := wlift (BSON (then_ (append_string (bstr "deleteIndexes") (coll (NamespaceString_of ns)))
    (append_string (bstr "index") indexName))) in
  act! '(ok, _) := runCommand cl db cmd 0 in
  wlift (uassert 10007 ok).

Definition dropIndex_keys (cl : conn) (ns : list byte) (keys : BSONObj) : WM W unit :=
  act! n := wlift (genIndexName keys) in dropIndex cl ns n.

Definition dropIndexes (cl : conn) (ns : list byte) : WM W unit :=
  act! db := wlift (nsToDatabaseSubstring ns) in
  act! cmd := wlift (BSON (then_ (append_string (bstr "deleteIndexes") (coll (NamespaceString_of ns)))
    (append_string (bstr "index") (bstr "*")))) in
  act! '(ok, _) := runCommand cl db cmd 0 in
  wlift (uassert 10008 ok).

(** The names in the array of the answer. *)
Definition database_name (e : BSONElement) : result (list byte) :=
  let* o := embeddedObjectUserCheck e in
  let* n := getField o (bstr "name") in
  let* p := valuestr n in
  cstr p.

Definition getDatabaseNames (cl : conn) : WM W (list (list byte)) :=
  act! cmd := wlift (BSON (append_int (bstr "listDatabases") 1)) in
  act! '(ok, info) := runCommand cl (bstr "admin") cmd 0 in
  act! _ := wlift (uassert 10005 ok) in
  wlift (
    let* e := getField info (bstr "databases") in
    let* t := type e in
    let* _ := uassert 10006 (bool_decide (t = Array)) in
    let* o := embeddedObjectUserCheck e in
    finish (fun names => Ok names) (for_elements o [] (fun names e =>
      let* n := database_name e in Ok (Continue (names ++ [n]))))).

(** The names of [system.namespaces] without a dollar sign; a null cursor is
    noticed by [more]. *)
Fixpoint collect_names (fuel : nat) : @CM W conn (list (list byte)) :=
  match fuel with
  | O => craise (Failure OutOfFuel)
  | S fuel' =>
      do! b := more in
      if b then
        do! o := next in
        do! name := clift (let* e := getField o (bstr "name") in let* p := valuestr e in cstr p) in
        do! r := collect_names fuel' in
        cret (if existsb (Byte.eqb "$") name then r else name :: r)
      else cret []
  end.

Definition getCollectionNames (fuel : nat) (vquery : @query_fun W conn) (db : list byte) : WM W (list (list byte)) := fun w =>
  with_cursor (vquery (c_str (db ++ bstr ".system.namespaces")) BSONObj_empty 0 0 None 0 0 w) 13348 (collect_names fuel).

(** *** Authentication *)

Definition _authMongoCR (cl : conn) (st : Md5.md5_state) (dbname username password_text : list byte) (digestPassword : bool) :
    WM W bool :=
  act! password := wlift (if digestPassword then createPasswordDigest st username password_text else Ok password_text) in
  act! '(ok, info) := runCommand cl dbname getnoncecmdobj 0 in
  if negb ok then wret false
  else
    act! nonce := wlift (
      let* e := getField info (bstr "nonce") in
      let* t := type e in
      let* _ := verify (bool_decide (t = BSONString)) in
      let* p := valuestr e in
      cstr p) in
    act! key := wlift (password_digest st [nonce; username; password]) in
    act! authCmd := wlift (command_done (then_ (append_int (bstr "authenticate") 1) (then_ (append_string (bstr "nonce") nonce)
      (then_ (append_string (bstr "user") username) (append_string (bstr "key") key))))) in
    act! '(ok, _) := runCommand cl dbname authCmd 0 in
    wret ok.

Definition string_param (params : BSONObj) (name : string) : WM W (list byte) :=
  act! '(s, v) := wlift (bsonExtractStringField params (bstr name) []) in
  act! _ := wlift (uassertStatusOK s) in
  wret v.

(** [sasl] is the function that the SASL library sets, when it is linked. *)
Definition _auth (cl : conn) (st : Md5.md5_state) (sasl : option (BSONObj -> WM W Status)) (params : BSONObj) : WM W unit :=
  act! mechanism := string_param params "mechanism" in
  if bytes_eqb mechanism (bstr "MONGODB-CR") then
    act! userSource := string_param params "userSource" in
    act! user := string_param params "user" in
    act! password := string_param params "pwd" in
    act! '(s, digestPassword) := wlift (bsonExtractBooleanFieldWithDefault params (bstr "digestPassword") true false) in
    act! _ := wlift (uassertStatusOK s) in
    act! ok := _authMongoCR cl st userSource user password digestPassword in
    wlift (uassert (error_number ErrorCodes.AuthenticationFailed) ok)
  else
    match sasl with
    | Some f => act! s := f params in wlift (uassertStatusOK s)
    | None => wraise (Failure (UserAssert (error_number ErrorCodes.BadValue)))
    end.

Definition auth_params (dbname username password_text : list byte) (digestPassword : bool) : result BSONObj :=
  BSON (then_ (append_string (bstr "mechanism") (bstr "MONGODB-CR")) (then_ (append_string (bstr "userSource") dbname)
    (then_ (append_string (bstr "user") username) (then_ (append_string (bstr "pwd") password_text)
       (append_bool (bstr "digestPassword") digestPassword))))).

(** A rejection is a result, any other exception passes; [vauth] is the virtual [_auth]. *)
Definition auth (vauth : BSONObj -> WM W unit) (dbname username password_text : list byte) (digestPassword : bool) : WM W bool :=
  fun w =>
  match (act! p := wlift (auth_params dbname username password_text digestPassword) in vauth p) w with
  | (w', inr tt) => (w', inr true)
  | (w', inl (Failure (UserAssert c))) =>
      if c =? error_number ErrorCodes.AuthenticationFailed then (w', inr false) else (w', inl (Failure (UserAssert c)))
  | (w', inl e) => (w', inl e)
  end.

End Commands.

(** ** What the objects are *)

Lemma does_seq m k a b : does m a -> does k b -> does (then_ m k) (a ++ b).
Proof. apply ReadPref.does_then. Qed.

Lemma does_when c m a : does m a -> does (when_ c m) (if c then a else []).
Proof. intros Hm. destruct c; [exact Hm|apply does_nothing]. Qed.

Section building.
Context (m : BSONObjBuilder -> result BSONObjBuilder) (d : doc).
Hypothesis Hm : does m d.
Hypothesis Hw : wf_doc d = true.

Lemma build_run initsize : 4 <= initsize <= BSONObjMaxInternalSize -> exists b b1,
  BSONObjBuilder_new initsize = Ok b /\ m b = Ok b1 /\ b_rep b1 (le32 0) d /\ owned b1 = true /\ fits (_b b1) 1.
Proof using Hm Hw.
  intros Hi. destruct (new_rep initsize Hi) as (b & Eb & Hb & Ho & _). pose proof (wf_doc_size d Hw) as Hz.
  rewrite zlen_enc_doc, obj_max_val in Hz. rewrite obj_max_val in Hi.
  assert (BufferMaxSize = 67108864) as Hmax by done.
  destruct (Hm b (le32 0) [] Hb) as (b1 & E1 & H1 & O1).
  - unfold fits. rewrite (b_rep_len _ _ _ Hb), zlen_le_bytes. change (zlen (enc_elems [])) with 0. lia.
  - exists b, b1. split; [done|]. split; [done|]. split; [done|]. split; [congruence|].
    unfold fits. rewrite (b_rep_len _ _ _ H1), zlen_le_bytes. cbn [app]. lia.
Qed.

Lemma command_done_rep : exists o, command_done m = Ok o /\ obj_rep o d.
Proof using Hm Hw.
  destruct (build_run 512) as (b & b1 & E & E1 & H1 & Ho & Hf); [rewrite obj_max_val; lia|].
  destruct (_done_rep _ _ _ H1 Hf) as (b2 & Hd & Eb & Eo & _).
  pose proof (obj_at (le32 0) d Hw) as Hat. exists (Ptr (le32 0 ++ enc_doc d) (zlen (le32 0))).
  unfold command_done. rewrite E. cbn [bind]. rewrite E1. cbn [bind]. unfold done. rewrite Hd. cbn [bind].
  unfold objdata. rewrite Eb, Eo, (BSONObj_init_rep _ d Hat). split; [reflexivity|exact Hat].
Qed.

Lemma object_rep initsize : 4 <= initsize <= BSONObjMaxInternalSize -> exists o,
  (let* b := BSONObjBuilder_new initsize in let* b := m b in obj b) = Ok o /\ obj_rep o d.
Proof using Hm Hw.
  intros Hi. destruct (build_run initsize Hi) as (b & b1 & E & E1 & H1 & Ho & Hf).
  destruct (obj_done _ _ _ H1 Hf Hw Ho) as (o & Hd & Hob). exists o. rewrite E. cbn [bind].
  rewrite E1. cbn [bind]. by rewrite Hd.
Qed.

Lemma BSON_rep : exists o, BSON m = Ok o /\ obj_rep o d.
Proof using Hm Hw. apply object_rep. rewrite obj_max_val. lia. Qed.
End building.

(** The truth of a value; a field that is missing is false. *)
Definition value_true (v : value) : bool :=
  match v with
  | VNull | VUndefined => false
  | _ => default true (truth v)
  end.
Definition doc_true (d : doc) (name : list byte) : bool :=
  match find_field d name with Some (_, v) => value_true v | None => false end.

Lemma trueValue_rep o d name : obj_rep o d -> (let* e := getField o name in trueValue e) = Ok (doc_true d name).
Proof.
  intros Ho. destruct (getField_rep o d name Ho) as (e & -> & Hf). cbn [bind]. unfold doc_true.
  destruct (find_field d name) as [[n v]|].
  - destruct Hf as [Hok _]. unfold value_true. destruct (truth v) as [b|] eqn:Et.
    + rewrite (truth_rep e n v b Hok Et). by destruct v.
    + unfold trueValue. rewrite (type_rep _ _ _ Hok). cbn [bind]. by destruct v.
  - cbn in Hf. subst e. done.
Qed.

Lemma isOk_rep o d : obj_rep o d -> isOk o = Ok (doc_true d (bstr "ok")).
Proof. apply trueValue_rep. Qed.

Lemma string_field_rep o d name n s : obj_rep o d -> find_field d name = Some (n, VString s) -> no_nul s = true ->
  (let* e := getField o name in let* t := type e in let* _ := verify (bool_decide (t = BSONString)) in
   let* p := valuestr e in cstr p) = Ok s.
Proof.
  intros Ho Hf Hs. destruct (getField_rep o d name Ho) as (e & -> & He). rewrite Hf in He. destruct He as [Hok _].
  cbn [bind]. rewrite (type_rep _ _ _ Hok). cbn [bind vtype]. rewrite bool_decide_true by done. cbn [verify bind].
  rewrite (valuestr_rep _ _ _ Hok). cbn [bind]. destruct (valuestr_points _ _ _ Hok s eq_refl) as [r Hr].
  by eapply points_cstr.
Qed.

(** ** The digest of a password, and the key *)

Definition hex_md5 (m : list byte) : list byte := toHexLower (rfc_md5 m).
Definition digest_of (user password : list byte) : list byte := hex_md5 (user ++ bstr ":mongo:" ++ password).
Definition cr_key (nonce user digest : list byte) : list byte := hex_md5 (nonce ++ user ++ digest).

Lemma password_digest_rep st pieces : length (Md5.buf st) = 64%nat -> Forall (fun p => zlen p < 2 ^ 28) pieces ->
  password_digest st pieces = Ok (hex_md5 (concat pieces)).
Proof.
  intros Hb Hp. unfold password_digest. destruct (append_all_holds pieces (Md5.md5_init st) []) as (st1 & -> & H1);
    [by apply init_holds|done|]. cbn [bind]. rewrite (finish_holds _ _ H1). cbn [bind]. by rewrite digestToString_hex.
Qed.

Lemma zlen_hex_md5 m : zlen (hex_md5 m) = 32.
Proof.
  assert (forall l, zlen (toHexLower l) = 2 * zlen l) as Hhex.
  { intros l. unfold toHexLower, toHex_with. induction l as [|b l IH]; [done|].
    cbn [flat_map app]. rewrite !zlen_cons, IH. lia. }
  unfold hex_md5, rfc_md5. rewrite Hhex, !zlen_app, !zlen_le_bytes. done.
Qed.

(** ** Authentication *)

(** What the client sends after it got [nonce]. *)
Definition authenticate_doc (nonce user key : list byte) : doc :=
  [(bstr "authenticate", VInt 1); (bstr "nonce", VString nonce); (bstr "user", VString user); (bstr "key", VString key)].

Definition params_doc (dbname user password : list byte) (digest : bool) : doc :=
  [(bstr "mechanism", VString (bstr "MONGODB-CR")); (bstr "userSource", VString dbname); (bstr "user", VString user);
   (bstr "pwd", VString password); (bstr "digestPassword", VBool digest)].

Lemma auth_params_rep dbname user password digest : wf_doc (params_doc dbname user password digest) = true ->
  exists o, auth_params dbname user password digest = Ok o /\ obj_rep o (params_doc dbname user password digest).
Proof.
  intros Hw. apply BSON_rep; [|done].
  repeat (apply (does_seq _ _ [_]); [apply does_append, append_string_rep|]). apply does_append, append_bool_rep.
Qed.

Lemma getnoncecmd : obj_rep getnoncecmdobj [(bstr "getnonce", VInt 1)].
Proof.
  split; [|by vm_compute]. split; [by vm_compute|]. exists []. split; [vm_compute; reflexivity|by vm_compute].
Qed.

(** A server that checks the key against the digest it has stored of a password. *)
Section AuthSpec.
Context {W conn : Type} `{Clients W conn}.

Record cr_server (cl : conn) (dbname user nonce stored : list byte) (w w2 : W) : Prop := {
  cr_nonce : forall o, obj_rep o [(bstr "getnonce", VInt 1)] -> exists w1 info d n,
    cl_runCommand cl dbname o 0 w = (w1, inr (true, info)) /\ obj_rep info d /\
    find_field d (bstr "nonce") = Some (n, VString nonce) /\
    forall o' key, obj_rep o' (authenticate_doc nonce user key) -> exists info',
      cl_runCommand cl dbname o' 0 w1 = (w2, inr (bool_decide (key = cr_key nonce user stored), info'))
}.

Lemma string_param_rep o d (w : W) (name : string) n s : obj_rep o d -> find_field d (bstr name) = Some (n, VString s) ->
  string_param o name w = (w, inr s).
Proof.
  intros Ho Hf. unfold string_param, wbind, wlift. rewrite (bsonExtractStringField_rep o d _ Ho). unfold spec_string. by rewrite Hf.
Qed.

Lemma authMongoCR_rep cl st dbname user password nonce stored (w w2 : W) :
  length (Md5.buf st) = 64%nat -> cr_server cl dbname user nonce stored w w2 ->
  zlen user < 2 ^ 28 -> zlen password < 2 ^ 28 -> zlen nonce < 2 ^ 28 -> no_nul nonce = true ->
  wf_doc (authenticate_doc nonce user (cr_key nonce user (digest_of user password))) = true ->
  _authMongoCR cl st dbname user password true w =
  (w2, inr (bool_decide (cr_key nonce user (digest_of user password) = cr_key nonce user stored))).
Proof.
  intros Hst [Hs] Hu Hp Hn Hnul Hw. unfold _authMongoCR, createPasswordDigest.
  rewrite password_digest_rep; [|done|apply Forall_cons_2; [exact Hu|apply Forall_cons_2; [by vm_compute|apply Forall_cons_2; [exact Hp|constructor]]]].
  assert (hex_md5 (concat [user; bstr ":mongo:"; password]) = digest_of user password) as -> by (cbn [concat]; by rewrite app_nil_r).
  destruct (Hs getnoncecmdobj getnoncecmd) as (w1 & info & d & n & E1 & Hinfo & Hf & Hauth).
  unfold wbind at 1. cbn [wlift wret]. unfold wbind at 1, runCommand at 1. rewrite E1. cbn [negb].
  unfold wbind at 1. rewrite (string_field_rep info d _ n nonce Hinfo Hf Hnul). cbn [wlift wret].
  unfold wbind at 1. rewrite password_digest_rep; [|done|].
  2: { apply Forall_cons_2; [exact Hn|apply Forall_cons_2; [exact Hu|apply Forall_cons_2; [|constructor]]].
    unfold digest_of. by rewrite zlen_hex_md5. }
  assert (hex_md5 (concat [nonce; user; digest_of user password]) = cr_key nonce user (digest_of user password)) as ->
    by (cbn [concat]; by rewrite app_nil_r).
  set (key := cr_key nonce user (digest_of user password)) in *. cbn [wlift wret].
  destruct (command_done_rep (then_ (append_int (bstr "authenticate") 1) (then_ (append_string (bstr "nonce") nonce)
    (then_ (append_string (bstr "user") user) (append_string (bstr "key") key)))) (authenticate_doc nonce user key)) as (o & Eo & Ho).
  - apply (does_seq _ _ [_]); [apply does_append, append_int_rep|].
    repeat (apply (does_seq _ _ [_]); [apply does_append, append_string_rep|]). apply does_append, append_string_rep.
  - done.
  - unfold wbind at 1. rewrite Eo. cbn [wlift wret]. destruct (Hauth o key Ho) as (info' & E2).
    unfold wbind, runCommand. by rewrite E2.
Qed.

(** C23: Authentication with a password: the parameters are put into an object and
    read back from it, the server is asked for a nonce, and the key that is
    sent is the MD5 of the nonce, the name and the digest of name and password;
    the result is true exactly when this is the key that the server computes
    from the digest it has stored.  A rejection is a result, not an exception. *)
Theorem auth_correct cl st sasl dbname user password nonce stored (w w2 : W) :
  length (Md5.buf st) = 64%nat -> cr_server cl dbname user nonce stored w w2 ->
  zlen user < 2 ^ 28 -> zlen password < 2 ^ 28 -> zlen nonce < 2 ^ 28 -> no_nul nonce = true ->
  wf_doc (params_doc dbname user password true) = true ->
  wf_doc (authenticate_doc nonce user (cr_key nonce user (digest_of user password))) = true ->
  auth (_auth cl st sasl) dbname user password true w =
  (w2, inr (bool_decide (cr_key nonce user (digest_of user password) = cr_key nonce user stored))).
Proof.
  intros Hst Hs Hu Hp Hn Hnul Hwp Hw.
  destruct (auth_params_rep dbname user password true Hwp) as (o & Eo & Ho).
  assert (_auth cl st sasl o w = (w2, if bool_decide (cr_key nonce user (digest_of user password) = cr_key nonce user stored)
    then inr tt else inl (Failure (UserAssert 18)))) as Ea.
  { unfold _auth. unfold wbind at 1. rewrite (string_param_rep o _ w "mechanism" _ _ Ho eq_refl).
    change (bytes_eqb (bstr "MONGODB-CR") (bstr "MONGODB-CR")) with true. cbv iota.
    unfold wbind at 1. rewrite (string_param_rep o _ w "userSource" _ _ Ho eq_refl).
    unfold wbind at 1. rewrite (string_param_rep o _ w "user" _ _ Ho eq_refl).
    unfold wbind at 1. rewrite (string_param_rep o _ w "pwd" _ _ Ho eq_refl).
    destruct (bsonExtract_correct o _ (bstr "digestPassword") Ho) as (_ & _ & _ & ->).
    assert (spec_boolean_default (params_doc dbname user password true) (bstr "digestPassword") true false = (Status_OK, true)) as -> by reflexivity.
    unfold wbind. cbn [wlift wret]. change (uassertStatusOK Status_OK) with (Ok tt). cbn. change (uassertStatusOK Status_OK) with (Ok tt). cbn.
    rewrite (authMongoCR_rep cl st dbname user password nonce stored w w2) by done.
    by destruct (bool_decide _). }
  unfold auth, wbind. rewrite Eo. cbn [wlift wret]. rewrite Ea. by destruct (bool_decide _).
Qed.
End AuthSpec.

(** ** A command is the query of its object *)

Section RunSpec.
Context {W conn : Type} `{Clients W conn}.

(** A command reaches the server as a query of the collection $cmd of the
    database, for one object, with the options given; the result is a copy of
    the server's answer, and whether its [ok] is true. *)
Theorem runCommand_correct cl dbname oq dq options (w : W) answer others :
  purpose_ok (query_purpose cl (dbname ++ bstr ".$cmd") 1 options 0) -> obj_rep oq dq ->
  18 + zlen dbname + zlen (enc_doc dq) <= BufferMaxSize ->
  serves_query (query_purpose cl (dbname ++ bstr ".$cmd") 1 options 0) dq None 1 0 w (answer :: others) ->
  Forall no_error (answer :: others) -> kill_ok cl ->
  exists w' info, runCommand_base (query_ cl) dbname oq options w = (w', inr (doc_true answer (bstr "ok"), info)) /\
    obj_rep info answer.
Proof.
  intros HP Hq Hz Hs He Hk.
  destruct (findN_spec cl (dbname ++ bstr ".$cmd") oq dq None None 1 0 options w (answer :: others)) as (w' & os & Ef & Hos);
    try done.
  { rewrite zlen_app. change (zlen (bstr ".$cmd")) with 5. change (zlen (opt_doc None)) with 0. lia. }
  cbn in Hos. inversion Hos as [|info ? ? ? Hinfo Hnil]; subst. inversion Hnil; subst.
  exists w', info. split; [|done]. unfold runCommand_base, wbind, findOne. rewrite Ef. rewrite (isOk_rep _ _ Hinfo). done.
Qed.
End RunSpec.

Lemma runCommand_correct_witness : exists w' info,
  runCommand_base (H := batch_server) (query_ (H := batch_server) tt) (bstr "admin") (obj_of [(bstr "ping", VInt 1)]) 0
    [(0, [[(bstr "ok", VInt 1)]])] = (w', inr (true, info)) /\ obj_rep info [(bstr "ok", VInt 1)].
Proof.
  apply (runCommand_correct (H := batch_server) tt (bstr "admin") (obj_of [(bstr "ping", VInt 1)]) [(bstr "ping", VInt 1)] 0
    [(0, [[(bstr "ok", VInt 1)]])] [(bstr "ok", VInt 1)] []).
  - split; reflexivity || by vm_compute.
  - apply obj_of_rep. reflexivity.
  - by vm_compute.
  - exists [[(bstr "ok", VInt 1)]], []. split; [reflexivity|]. intros q Hq.
    exists (served [[(bstr "ok", VInt 1)]] []), None, [], [], 0, 0.
    split; [|split; [apply served_reply; [reflexivity|reflexivity|by repeat constructor]|split; [by eexists|apply serves_end]]].
    cbn [cl_call batch_server]. unfold batch_call. by rewrite (reads_id_query _ _ _ _ _ _ _ Hq).
  - repeat constructor. discriminate.
  - intros m w. split; discriminate.
Defined.

(** A server that has stored the digest of a password. *)
Definition sample_nonce : list byte := bstr "2375531c32080ae8".
Definition nonce_answer : doc := [(bstr "nonce", VString sample_nonce); (bstr "ok", VInt 1)].

Definition auth_run (_ : unit) (_ : list byte) (cmd : BSONObj) (_ : Z) (stored : list byte) :
    list byte * (exn + bool * BSONObj) :=
  match (let* e := getField cmd (bstr "key") in let* z := eoo e in if z then Ok None else let* s := str e in Ok (Some s)) with
  | Ok None => (stored, inr (true, obj_of nonce_answer))
  | Ok (Some key) => (stored, inr (bool_decide (key = cr_key sample_nonce (bstr "user") stored), BSONObj_empty))
  | Err e => (stored, inl (Failure e))
  end.

Definition auth_server : Clients (list byte) unit := {|
  fresh_bytes := [];
  cl_call := fun _ _ _ w => (w, inl SocketException);
  cl_say := fun _ _ _ w => (w, inr None);
  cl_sayPiggyBack := fun _ _ w => (w, inr tt);
  cl_recv := fun _ w => (w, inr (false, Message_new));
  cl_checkResponse := fun _ _ _ w => (w, inr (false, []));
  cl_runCommand := auth_run;
  cl_lazySupported := fun _ => true;
  cl_type := fun _ => HostPort.MASTER;
  cl_toString := fun _ _ => [];
  cl_getServerAddress := fun _ _ => [];
  cl_availableOptions := fun _ w => (w, inr 0);
  cl_failed_shutdown := fun _ w => w;
  getScopedDbConnection := fun _ w => (w, inr tt);
  scoped_done := fun _ w => w;
  getLazyKillCursor := true;
  inShutdown := fun _ => false
|}.

Lemma auth_server_checks stored : cr_server (H := auth_server) tt (bstr "db") (bstr "user") sample_nonce stored stored stored.
Proof.
  split. intros o Ho. exists stored, (obj_of nonce_answer), nonce_answer, (bstr "nonce").
  split; [|split; [by apply obj_of_rep|split; [reflexivity|]]].
  - cbn [cl_runCommand auth_server]. unfold auth_run. destruct (getField_rep o _ (bstr "key") Ho) as (e & -> & He).
    change (find_field _ _) with (None (A := field)) in He. cbn [bind]. by rewrite (found_eoo _ _ _ He).
  - intros o' key Ho'. cbn [cl_runCommand auth_server]. unfold auth_run.
    destruct (getField_rep o' _ (bstr "key") Ho') as (e & -> & He).
    change (find_field _ _) with (Some (bstr "key", VString key)) in He. cbn [bind]. rewrite (found_eoo _ _ _ He). cbn [bind].
    destruct He as [Hok _]. unfold str. rewrite (type_rep _ _ _ Hok). cbn [bind vtype]. rewrite bool_decide_true by done.
    rewrite (valuestr_rep _ _ _ Hok). cbn [bind]. rewrite (valuestrsize_rep _ _ _ Hok key eq_refl). cbn [bind].
    rewrite (str_contents_rep _ _ _ Hok key eq_refl). by eexists.
Qed.

(** The right password, and a wrong one. *)
Lemma auth_correct_witness :
  let stored := digest_of (bstr "user") (bstr "secret") in
  auth (_auth (H := auth_server) tt md5_start None) (bstr "db") (bstr "user") (bstr "secret") true stored = (stored, inr true) /\
  auth (_auth (H := auth_server) tt md5_start None) (bstr "db") (bstr "user") (bstr "Secret") true stored = (stored, inr false).
Proof.
  intros stored. split.
  - rewrite (auth_correct (H := auth_server) tt md5_start None (bstr "db") (bstr "user") (bstr "secret") sample_nonce stored stored stored).
    + vm_compute. reflexivity.
    + reflexivity.
    + apply auth_server_checks.
    + reflexivity.
    + reflexivity.
    + reflexivity.
    + reflexivity.
    + by vm_compute.
    + by vm_compute.
  - rewrite (auth_correct (H := auth_server) tt md5_start None (bstr "db") (bstr "user") (bstr "Secret") sample_nonce stored stored stored).
    + vm_compute. reflexivity.
    + reflexivity.
    + apply auth_server_checks.
    + reflexivity.
    + reflexivity.
    + reflexivity.
    + reflexivity.
    + by vm_compute.
    + by vm_compute.
Defined.

(** ** Names of collections *)

Lemma nsGetDB_split ns : nsGetDB ns = ns \/ exists c, ns = nsGetDB ns ++ bstr "." ++ c /\ nsGetDB ns <> ns.
Proof.
  induction ns as [|b ns IH]; [by left|]. cbn [nsGetDB]. destruct (Byte.eqb b ".") eqn:E.
  - right. exists ns. apply byte_dec_bl in E as ->. split; [done|discriminate].
  - destruct IH as [-> |(c & Hc & Hne)]; [by left|]. right. exists c. cbn. split; [by f_equal|congruence].
Qed.

(** The two parts of a name give it back, and no part of the first is a dot. *)
Theorem namespace_parts ns : existsb (Byte.eqb ".") ns = true -> no_nul ns = true ->
  let n := NamespaceString_of ns in
  namespace_ns n = ns /\ ns_db n = nsGetDB ns /\ coll n = nsGetCollection ns /\ existsb (Byte.eqb ".") (ns_db n) = false.
Proof.
  intros Hd Hn. assert (forall l, existsb (Byte.eqb ".") (nsGetDB l) = false) as Hfree.
  { induction l as [|b l IH]; [done|]. cbn [nsGetDB]. destruct (Byte.eqb b ".") eqn:E; [done|]. cbn [existsb].
    rewrite IH, orb_false_r. destruct (Byte.eqb "." b) eqn:E2; [|done]. apply byte_dec_bl in E2 as <-. done. }
  assert (c_str ns = ns) as Hc.
  { unfold c_str. assert (until_nul ns = None) as ->; [|done]. clear -Hn. induction ns as [|b ns IH]; [done|].
    cbn in Hn. apply andb_prop in Hn as [Hb Hn]. cbn [until_nul]. destruct (Byte.eqb b x00); [done|]. by rewrite IH. }
  destruct (nsGetDB_split ns) as [E|(c & E & Hne)]; [by rewrite <- E, Hfree in Hd|].
  unfold NamespaceString_of, nsGetCollection. rewrite Hc, bool_decide_false by done. cbn [ns_db coll].
  split; [|split; [done|split; [done|apply Hfree]]]. unfold namespace_ns. cbn [ns_db coll].
  clear -E. revert E. generalize (nsGetDB ns) as p. intros p ->. f_equal.
  rewrite drop_app_ge by lia. replace (S _ - _)%nat with 1%nat by lia. done.
Qed.

(** Without a dot the database of a [NamespaceString] is empty, while [nsGetDB]
    gives the whole name; [createCollection] reads behind the end of the name. *)
Example no_dot : NamespaceString_of (bstr "test") = MkNamespace [] [] /\ nsGetDB (bstr "test") = bstr "test" /\
  createCollection (H := auth_server) tt (bstr "test") 0 false 0 [] = ([], inl (Failure OutOfBounds)).
Proof. repeat split; vm_compute; reflexivity. Qed.
