(* ===== verification/Connection.v ===== *)
(** * Connection: a connection to one server (DBClientConnection of
    client/dbclientinterface.h and dbclient.cpp)

    A connection has a port of MessagePort.v and remembers whether it failed.  A
    failed connection is opened again by the next operation, not more than once
    in two seconds and only when it is told to reconnect; the users that had
    authenticated are then authenticated again, with the commands of Commands.v,
    which run on the connection itself.  A connection is an instance of
    [Clients], so cursors of Cursor.v work on it.

    The theorems: a relation of worlds that the methods of a connection respect
    is respected by cursors and commands, whatever the server sends; so, whatever
    is done with a connection, it is opened again at most once in two seconds;
    and the objects of a query are the documents in the replies that arrive at
    the port. *)

From stdpp Require Import base list numbers strings option tactics.
From Stdlib Require Import Strings.Byte ZArith Lia.
From S2P Require Import Prelude Memory Status HostPort BsonTypes Format Element Obj Access Order Builder Embedded ReadPref Wire Md5 Md5Spec.
From S2P Require Import Cursor MessagePort Commands.

Record DBClientConnection := MkConnection {
  clientSet : bool;
  conn_port : option MessagingPort;
  _failed : bool;
  autoReconnect : bool;
  lastReconnectTry : Z;
  conn_server : HostAndPort;
  _serverString : list byte;
  authCache : list (list byte * BSONObj);
  _cachedAvailableOptions : option Z
}.

Definition DBClientConnection_new (autoReconnect : bool) (clientSet : bool) : DBClientConnection :=
  MkConnection clientSet None false autoReconnect 0 HostAndPort_empty [] [] None.

(** What is outside: the clock, and how often it was read; what the attempts to
    open a socket give, and how many were made; whether an address cannot be
    used; the counter of messages before there is a port; and how often the set
    was told that its master is not one. *)
Record Env := MkEnv {
  clock : nat -> Z;
  ticks : nat;
  dials : nat -> option (list byte * bool);
  dialed : nat;
  any_address : list byte -> Z -> bool;
  first_id : Z;
  isntMaster_calls : nat
}.

Definition CW : Type := DBClientConnection * Env.

Definition set_port (x : option MessagingPort) (c : DBClientConnection) : DBClientConnection :=
  MkConnection (clientSet c) x (_failed c) (autoReconnect c) (lastReconnectTry c) (conn_server c) (_serverString c) (authCache c)
    (_cachedAvailableOptions c).
Definition set_failed (b : bool) (c : DBClientConnection) : DBClientConnection :=
  MkConnection (clientSet c) (conn_port c) b (autoReconnect c) (lastReconnectTry c) (conn_server c) (_serverString c) (authCache c)
    (_cachedAvailableOptions c).
Definition set_lastTry (t : Z) (c : DBClientConnection) : DBClientConnection :=
  MkConnection (clientSet c) (conn_port c) (_failed c) (autoReconnect c) t (conn_server c) (_serverString c) (authCache c)
    (_cachedAvailableOptions c).
Definition set_server (h : HostAndPort) (s : list byte) (c : DBClientConnection) : DBClientConnection :=
  MkConnection (clientSet c) (conn_port c) (_failed c) (autoReconnect c) (lastReconnectTry c) h s (authCache c)
    (_cachedAvailableOptions c).
Definition set_authCache (m : list (list byte * BSONObj)) (c : DBClientConnection) : DBClientConnection :=
  MkConnection (clientSet c) (conn_port c) (_failed c) (autoReconnect c) (lastReconnectTry c) (conn_server c) (_serverString c) m
    (_cachedAvailableOptions c).
Definition set_options (o : option Z) (c : DBClientConnection) : DBClientConnection :=
  MkConnection (clientSet c) (conn_port c) (_failed c) (autoReconnect c) (lastReconnectTry c) (conn_server c) (_serverString c) (authCache c)
    o.
(** [setReplSetClientCallback]. *)
Definition setReplSetClientCallback (b : bool) (c : DBClientConnection) : DBClientConnection :=
  MkConnection b (conn_port c) (_failed c) (autoReconnect c) (lastReconnectTry c) (conn_server c) (_serverString c) (authCache c)
    (_cachedAvailableOptions c).

Definition conn_get : WM CW DBClientConnection := fun w => (w, inr (fst w)).
Definition conn_mod (f : DBClientConnection -> DBClientConnection) : WM CW unit := fun w => ((f (fst w), snd w), inr tt).

(** [time(0)]. *)
Definition time_now : WM CW Z := fun '(c, e) =>
  ((c, MkEnv (clock e) (S (ticks e)) (dials e) (dialed e) (any_address e) (first_id e) (isntMaster_calls e)), inr (clock e (ticks e))).

Definition tell_isntMaster : WM CW unit := fun '(c, e) =>
  ((c, MkEnv (clock e) (ticks e) (dials e) (dialed e) (any_address e) (first_id e) (S (isntMaster_calls e))), inr tt).

(** [port()]. *)
Definition on_port {A} (m : PM A) : WM CW A := fun '(c, e) =>
  match conn_port c with
  | None => ((c, e), inl (Failure VerifyFailed))
  | Some p => let '(p', r) := m p in ((set_port (Some p') c, e), r)
  end.

(** An operation that marks the connection when the socket fails. *)
Definition or_failed {A} (m : WM CW A) : WM CW A := fun w =>
  match m w with
  | (w', inl SocketException) => ((set_failed true (fst w'), snd w'), inl SocketException)
  | r => r
  end.

(** ** Opening *)

(** A port without a socket, and what the next attempt to connect it gives. *)
Definition new_port : WM CW unit := fun '(c, e) =>
  let id := match conn_port c with Some p => NextMsgId p | None => first_id e end in
  ((set_port (Some (MessagingPort_new [] false id)) c, e), inr tt).

Definition dial : WM CW bool := fun '(c, e) =>
  let e' := MkEnv (clock e) (ticks e) (dials e) (S (dialed e)) (any_address e) (first_id e) (isntMaster_calls e) in
  match dials e (dialed e), conn_port c with
  | Some (incoming, ok), Some p => ((set_port (Some (MessagingPort_new incoming ok (NextMsgId p))) c, e'), inr true)
  | _, _ => ((c, e'), inr false)
  end.

(** The server's address is set, then a socket is opened to it. *)
Definition _connect : WM CW bool :=
  act! c := conn_get in
  act! _ := conn_mod (set_server (conn_server c) (host_toString true (conn_server c))) in
  act! _ := new_port in
  act! bad := (fun w => (w, inr (any_address (snd w) (host (conn_server c)) (port (conn_server c))))) in
  if bool_decide (host (conn_server c) = []) || bad then wret false
  else
    act! ok := dial in
    if ok then wret true else act! _ := conn_mod (set_failed true) in wret false.

Definition connect (h : HostAndPort) : WM CW bool :=
  act! _ := conn_mod (set_server h (host_toString true h)) in
  _connect.

(** The users are authenticated again; a rejection is only logged. *)
Fixpoint reauth (vauth : BSONObj -> WM CW unit) (users : list (list byte * BSONObj)) : WM CW unit :=
  match users with
  | [] => wret tt
  | (_, o) :: users' => fun w =>
      match vauth o w with
      | (w', inl (Failure (UserAssert k))) =>
          if k =? error_number ErrorCodes.AuthenticationFailed then reauth vauth users' w'
          else (w', inl (Failure (UserAssert k)))
      | (w', inl e) => (w', inl e)
      | (w', inr _) => reauth vauth users' w'
      end
  end.

(** [vauth] is the virtual [_auth]. *)
Definition _checkConnection (vauth : BSONObj -> WM CW unit) : WM CW unit :=
  act! c := conn_get in
  if negb (_failed c) then wret tt
  else
    act! wait := (if lastReconnectTry c =? 0 then wret false
                  else act! now := time_now in wret (now - lastReconnectTry c <? 2)) in
    if (wait : bool) then wraise SocketException
    else if negb (autoReconnect c) then wraise SocketException
    else
      act! now := time_now in
      act! _ := conn_mod (set_lastTry now) in
      act! _ := conn_mod (set_failed false) in
      act! ok := _connect in
      if negb ok then act! _ := conn_mod (set_failed true) in wraise SocketException
      else act! c := conn_get in reauth vauth (authCache c).

Definition checkConnection (vauth : BSONObj -> WM CW unit) : WM CW unit :=
  act! c := conn_get in
  if _failed c then _checkConnection vauth else wret tt.

(** ** Messages *)

Definition conn_say (vauth : BSONObj -> WM CW unit) (toSend : Message) : WM CW (option (list byte)) :=
  act! _ := checkConnection vauth in
  act! _ := or_failed (on_port (port_say toSend (-1))) in
  wret None.

Definition conn_sayPiggyBack (toSend : Message) : WM CW unit :=
  act! _ := on_port (port_piggyBack toSend (-1)) in wret tt.

Definition conn_recv : WM CW (bool * Message) :=
  act! r := on_port port_recv in
  if fst r then wret r else act! _ := conn_mod (set_failed true) in wret r.

Definition conn_call (vauth : BSONObj -> WM CW unit) (toSend : Message) (assertOk : bool) :
    WM CW (bool * Message * option (list byte)) :=
  act! _ := checkConnection vauth in
  act! r := or_failed (on_port (port_call toSend)) in
  if fst r then wret (r, None)
  else
    act! _ := conn_mod (set_failed true) in
    if assertOk then wraise (Failure (UserAssert 10278)) else wret (r, None).

(** Whether to retry, and the host. *)
Definition conn_checkResponse (data : option ptr) (nReturned : Z) : WM CW (bool * list byte) :=
  act! c := conn_get in
  act! _ := (if clientSet c && negb (nReturned =? 0) then
    act! bad := wlift (
      let* p := match data with Some p => Ok p | None => Err VerifyFailed end in
      let* o := BSONObj_init p in
      let* e := getErrField o in
      isNotMasterErrorString e) in
    if bad then tell_isntMaster else wret tt else wret tt) in
  wret (false, _serverString c).

(** [lazy] is [_lazyKillCursor]. *)
Definition conn_killCursor (vauth : BSONObj -> WM CW unit) (fresh : list byte) (lazy : bool) (cursorId : Z) : WM CW unit :=
  act! m := wlift (
    let* b := (appendNum_int 0 ;> appendNum_int 1 ;> appendNum_longlong cursorId) (BufBuilder_new 512) in
    setData fresh dbKillCursors (buf b) Message_new) in
  if lazy then conn_sayPiggyBack m else act! _ := conn_say vauth m in wret tt.

(** [toStringLong]. *)
Definition conn_toStringLong (c : DBClientConnection) : list byte :=
  _serverString c ++ (if _failed c then bstr " failed" else []).

(** ** The connection of a cursor *)

(** What is not the connection's: the bytes of a fresh allocation,
    [_lazyKillCursor], whether the program is shutting down, the pool that
    cursors take other connections from, what an MD5 state holds before, and the
    function of the SASL library. *)
Section Connection.
Context (fresh : list byte) (lazy : bool) (stopping : Env -> bool).
Context (pool_get : list byte -> CW -> CW * (exn + unit)) (pool_done : CW -> CW).
Context (st : Md5.md5_state) (sasl : option (BSONObj -> WM CW Status)).

Abbreviation runner := (list byte -> BSONObj -> Z -> WM CW (bool * BSONObj)).

(** An exception leaves the connection failed and its port shut down. *)
Definition failed_shutdown : CW -> CW := fun '(c, e) =>
  match conn_port c with
  | Some p => (set_port (Some (MkPort (piggyBackData p) (sock_sent p) [] false (NextMsgId p))) (set_failed true c), e)
  | None => (set_failed true c, e)
  end.

(** [run] is the virtual [runCommand]. *)
Definition lookup_options (run : runner) : WM CW Z :=
  act! c := conn_get in
  match _cachedAvailableOptions c with
  | Some o => wret o
  | None =>
      act! cmd := wlift (BSON (append_int (bstr "availablequeryoptions") 1)) in
      act! '(ok, ret) := run (bstr "admin") cmd 0 in
      act! o := (if ok then wlift (getIntField ret (bstr "options")) else wret 0) in
      act! _ := conn_mod (set_options (Some o)) in
      wret o
  end.

(** A connection with these two functions. *)
Definition connection_clients (vauth : BSONObj -> WM CW unit) (run : runner) : Clients CW unit := {|
  fresh_bytes := fresh;
  cl_call := fun _ => conn_call vauth;
  cl_say := fun _ m _ => conn_say vauth m;
  cl_sayPiggyBack := fun _ => conn_sayPiggyBack;
  cl_recv := fun _ => conn_recv;
  cl_checkResponse := fun _ => conn_checkResponse;
  cl_runCommand := fun _ => run;
  cl_lazySupported := fun _ => true;
  cl_type := fun _ => MASTER;
  cl_toString := fun _ w => _serverString (fst w);
  cl_getServerAddress := fun _ w => _serverString (fst w);
  cl_availableOptions := fun _ => lookup_options run;
  cl_failed_shutdown := fun _ => failed_shutdown;
  getScopedDbConnection := pool_get;
  scoped_done := fun _ => pool_done;
  getLazyKillCursor := lazy;
  inShutdown := fun w => stopping (snd w)
|}.

(** [query], which looks at the connection first. *)
Definition conn_query (vauth : BSONObj -> WM CW unit) (run : runner) : @query_fun CW unit :=
  fun ns query n skip_ fields queryOptions bs =>
    act! _ := checkConnection vauth in
    query_ (H := connection_clients vauth run) tt ns query n skip_ fields queryOptions bs.

Definition conn_runCommand (vauth : BSONObj -> WM CW unit) (run : runner) : runner := fun dbname cmd options =>
  act! '(ok, info) := runCommand_base (H := connection_clients vauth run) (conn_query vauth run) dbname cmd options in
  if ok then wret (true, info)
  else
    act! c := conn_get in
    act! _ := (if clientSet c then
      act! bad := wlift (let* e := getField info (bstr "errmsg") in isNotMasterErrorString e) in
      if bad then tell_isntMaster else wret tt else wret tt) in
    wret (false, info).

Definition conn_auth (run : runner) (vauth : BSONObj -> WM CW unit) (isOwned : bool) (params : BSONObj) : WM CW unit :=
  act! c := conn_get in
  act! _ := (if autoReconnect c then
    act! '(k, o) := wlift (
      let* e := getField params (bstr "userSource") in
      let* k := str e in
      let* o := getOwned isOwned params in
      Ok (k, o)) in
    conn_mod (set_authCache (map_set k o (authCache c)))
    else wret tt) in
  _auth (H := connection_clients vauth run) tt st sasl params.

(** The two functions use each other: a command may have to open the connection
    again, and the users are then authenticated with commands.  A level is one
    such turn inside another. *)
Fixpoint level (n : nat) : (BSONObj -> WM CW unit) * runner :=
  match n with
  | O => (fun _ => wraise (Failure OutOfFuel), fun _ _ _ => wraise (Failure OutOfFuel))
  | S n' =>
      let '(vauth, run) := level n' in
      (conn_auth run vauth true, conn_runCommand vauth run)
  end.

Definition clients_at (n : nat) : Clients CW unit := connection_clients (fst (level n)) (snd (level n)).
End Connection.

(** ** Changes of the world

    A relation of worlds that every method of a connection respects is respected
    by cursors and commands, whatever the server sends. *)

Class Respects {W conn : Type} (H : Clients W conn) (R : W -> W -> Prop) := {
  rs_call : forall cl m b w, R w (fst (cl_call cl m b w));
  rs_say : forall cl m b w, R w (fst (cl_say cl m b w));
  rs_sayPiggyBack : forall cl m w, R w (fst (cl_sayPiggyBack cl m w));
  rs_recv : forall cl w, R w (fst (cl_recv cl w));
  rs_checkResponse : forall cl d n w, R w (fst (cl_checkResponse cl d n w));
  rs_runCommand : forall cl d c o w, R w (fst (cl_runCommand cl d c o w));
  rs_scoped : forall h w, R w (fst (getScopedDbConnection h w));
  rs_done : forall cl w, R w (scoped_done cl w)
}.

Section Respect.
Context {W conn : Type} (R : W -> W -> Prop) `{!PreOrder R}.

Definition through {A} (m : @CM W conn A) : Prop := forall c w, R w (snd (fst (m c w))).
Definition onward {A} (m : WM W A) : Prop := forall w, R w (fst (m w)).

Lemma through_bind {A B} (m : @CM W conn A) (k : A -> @CM W conn B) : through m -> (forall a, through (k a)) -> through (cbind m k).
Proof.
  intros Hm Hk c w. unfold cbind. specialize (Hm c w). destruct (m c w) as [[c1 w1] [e|a]]; [done|].
  by etrans; [|apply Hk].
Qed.

Lemma through_here {A} (m : @CM W conn A) : (forall c w, snd (fst (m c w)) = w) -> through m.
Proof. intros Hm c w. rewrite Hm. reflexivity. Qed.

Lemma through_lift {A} (r : result A) : through (clift r).
Proof. destruct r; by apply through_here. Qed.

Lemma through_act {A} (f : W -> W * (exn + A)) : onward f -> through (cact f).
Proof. intros Hf c w. unfold cact. specialize (Hf w). by destruct (f w). Qed.

Lemma onward_bind {A B} (m : WM W A) (k : A -> WM W B) : onward m -> (forall a, onward (k a)) -> onward (wbind m k).
Proof.
  intros Hm Hk w. unfold wbind. specialize (Hm w). destruct (m w) as [w1 [e|a]]; [done|]. by etrans; [|apply Hk].
Qed.

Lemma onward_here {A} (m : WM W A) : (forall w, fst (m w) = w) -> onward m.
Proof. intros Hm w. rewrite Hm. reflexivity. Qed.

Lemma onward_lift {A} (r : result A) : onward (wlift r).
Proof. destruct r; by apply onward_here. Qed.
End Respect.

Create HintDb respects.
#[export] Hint Resolve through_lift through_act onward_lift : respects.
#[export] Hint Extern 2 (through ?R (cret _)) => apply (through_here R); reflexivity : respects.
#[export] Hint Extern 2 (through ?R (craise _)) => apply (through_here R); reflexivity : respects.
#[export] Hint Extern 2 (through ?R cget) => apply (through_here R); reflexivity : respects.
#[export] Hint Extern 2 (through ?R (cmod _)) => apply (through_here R); reflexivity : respects.
#[export] Hint Extern 2 (through ?R (set_response _)) => apply (through_here R); reflexivity : respects.
#[export] Hint Extern 5 (through ?R (fun _ _ => _)) => apply (through_here R); reflexivity : respects.
#[export] Hint Extern 2 (onward ?R (wret _)) => apply (onward_here R); reflexivity : respects.
#[export] Hint Extern 2 (onward ?R (wraise _)) => apply (onward_here R); reflexivity : respects.
#[export] Hint Extern 5 (onward _ (cl_call _ _ _)) => intros w; apply rs_call : respects.
#[export] Hint Extern 5 (onward _ (cl_say _ _ _)) => intros w; apply rs_say : respects.
#[export] Hint Extern 5 (onward _ (cl_sayPiggyBack _ _)) => intros w; apply rs_sayPiggyBack : respects.
#[export] Hint Extern 5 (onward _ (cl_recv _)) => intros w; apply rs_recv : respects.
#[export] Hint Extern 5 (onward _ (cl_checkResponse _ _ _)) => intros w; apply rs_checkResponse : respects.
#[export] Hint Extern 5 (onward _ (cl_runCommand _ _ _ _)) => intros w; apply rs_runCommand : respects.
#[export] Hint Extern 5 (onward _ (fun _ => (scoped_done _ _, _))) => intros w; apply rs_done : respects.
#[export] Hint Extern 5 (onward _ (getScopedDbConnection _)) => intros w; apply rs_scoped : respects.

Ltac respect :=
  repeat first
    [ solve [eauto with respects]
    | match goal with |- through ?R _ => apply (through_bind R); [|intros ?] end
    | match goal with |- onward ?R _ => apply (onward_bind R); [|intros ?] end
    | match goal with |- _ _ (if ?b then _ else _) => destruct b end
    | match goal with |- _ _ (match ?x with _ => _ end) => destruct x end ].

Section RespectOps.
Context {W conn : Type} `{H : Clients W conn} (R : W -> W -> Prop) `{!PreOrder R} `{!Respects H R}.

Lemma through_client : through R (@client_ W conn).
Proof. unfold client_. respect. Qed.
Hint Resolve through_client : respects.

Lemma through_dataReceived : through R (@dataReceived W conn H).
Proof. unfold dataReceived. respect. Qed.
Hint Resolve through_dataReceived : respects.

Lemma through_init : through R (@init W conn H).
Proof. unfold init. respect. Qed.
Hint Resolve through_init : respects.

Lemma through_requestMore : through R (@requestMore W conn H).
Proof. unfold requestMore, use_limit. respect. Qed.
Hint Resolve through_requestMore : respects.

Lemma through_more : through R (@more W conn H).
Proof. unfold more. respect. Qed.

Lemma through_next : through R (@next W conn).
Proof. unfold next. respect. Qed.
Hint Resolve through_more through_next : respects.

Lemma through_nextSafe : through R (@nextSafe W conn).
Proof. unfold nextSafe. respect. Qed.
Hint Resolve through_nextSafe : respects.

Lemma through_take_safe k : through R (take_safe k).
Proof. induction k; cbn [take_safe]; respect. Qed.
Hint Resolve through_take_safe : respects.

Lemma through_drain fuel step : through R step -> through R (drain fuel step).
Proof. intros Hs. induction fuel; cbn [drain]; respect. Qed.

Lemma through_kill_cursor : through R (@kill_cursor W conn H).
Proof. unfold kill_cursor, kill_with. respect. Qed.

Lemma destroy_respects c w : R w (fst (destroy_cursor c w)).
Proof.
  unfold destroy_cursor. pose proof (through_kill_cursor c w) as Hk. destruct (kill_cursor c w) as [[c' w'] [[e| |e]|u]]; exact Hk.
Qed.

Lemma started_respects c : onward R (started c).
Proof.
  intros w. unfold started. pose proof (through_init c w) as Hi. destruct (init c w) as [[c' w'] [e|[]]]; cbn in Hi |- *; [|done|].
  all: pose proof (destroy_respects c' w') as Hd; destruct (destroy_cursor c' w'); by etrans.
Qed.

Lemma query_respects cl ns q n skip_ fields o bs : onward R (query_ cl ns q n skip_ fields o bs).
Proof. intros w. apply started_respects. Qed.

Lemma with_cursor_respects {A} (m : WM W (option (DBClientCursor conn))) code_ (body : @CM W conn A) :
  onward R m -> through R body -> onward R (fun w => with_cursor (m w) code_ body).
Proof.
  intros Hm Hb w. specialize (Hm w). unfold with_cursor. destruct (m w) as [w1 [e|[c|]]]; [done| |done].
  specialize (Hb c w1). destruct (body c w1) as [[c' w'] r]. pose proof (destroy_respects c' w') as Hd.
  destruct (destroy_cursor c' w'). cbn in *. etrans; [exact Hm|]. by etrans.
Qed.

Context (vquery : @query_fun W conn).
Context (Hv : forall ns q n skip_ fields o bs, onward R (vquery ns q n skip_ fields o bs)).

Lemma findN_respects ns q n skip_ fields o : onward R (findN vquery ns q n skip_ fields o).
Proof. unfold findN. apply with_cursor_respects; [apply Hv|]. respect. Qed.

Lemma findOne_respects ns q fields o : onward R (findOne vquery ns q fields o).
Proof.
  intros w. pose proof (findN_respects ns q 1 0 fields o w) as Hf. unfold findOne.
  by destruct (findN vquery ns q 1 0 fields o w) as [w' [e|v]].
Qed.

Lemma runCommand_base_respects db cmd o : onward R (runCommand_base vquery db cmd o).
Proof. unfold runCommand_base. apply (onward_bind R); [apply findOne_respects|]. intros info. respect. Qed.

Lemma authMongoCR_respects cl st db user pw digest : onward R (_authMongoCR cl st db user pw digest).
Proof. unfold _authMongoCR, runCommand. respect. Qed.

Lemma auth_respects cl st sasl params : (forall f, sasl = Some f -> forall o, onward R (f o)) -> onward R (_auth cl st sasl params).
Proof.
  intros Hs. unfold _auth, string_param. pose proof authMongoCR_respects. 
  respect.
Qed.
End RespectOps.

(** ** Attempts to connect *)

(** The clock does not go back, and does not show 0. *)
Definition runs_forward (clk : nat -> Z) : Prop := (forall i, 0 < clk i) /\ forall i j, (i <= j)%nat -> clk i <= clk j.

(** The last attempt; before the first one, the time that lets it be made. *)
Definition last_or (w : CW) : Z :=
  if lastReconnectTry (fst w) =? 0 then clock (snd w) (ticks (snd w)) - 2 else lastReconnectTry (fst w).

(** From [w] to [w'] every two seconds let one attempt be made, and none when the
    connection does not reconnect. *)
Record throttled (w w' : CW) : Prop := {
  th_clock : clock (snd w') = clock (snd w);
  th_auto : autoReconnect (fst w') = autoReconnect (fst w);
  th_ticks : (ticks (snd w) <= ticks (snd w'))%nat;
  th_dialed : (dialed (snd w) <= dialed (snd w'))%nat;
  th_never : autoReconnect (fst w) = false -> dialed (snd w') = dialed (snd w);
  th_space : runs_forward (clock (snd w)) -> 2 * Z.of_nat (dialed (snd w') - dialed (snd w)) <= last_or w' - last_or w;
  th_last : runs_forward (clock (snd w)) -> lastReconnectTry (fst w) <= clock (snd w) (ticks (snd w)) ->
    lastReconnectTry (fst w') <= clock (snd w') (ticks (snd w'))
}.

#[export] Instance throttled_preorder : PreOrder throttled.
Proof.
  split.
  - intros w. split; try done. intros _. rewrite Nat.sub_diag. lia.
  - intros w1 w2 w3 [C1 A1 T1 D1 N1 S1 L1] [C2 A2 T2 D2 N2 S2 L2]. split; [congruence|congruence|lia|lia| | |].
    + intros Ha. rewrite N2; [by apply N1|congruence].
    + intros Hr. specialize (S1 Hr). rewrite C1 in S2. specialize (S2 Hr). lia.
    + intros Hr Hl. apply L2; [by rewrite C1|]. by apply L1.
Qed.

(** A step that does not touch what attempts depend on; a step may read the clock. *)
Lemma throttled_same (w w' : CW) : clock (snd w') = clock (snd w) -> (ticks (snd w) <= ticks (snd w'))%nat ->
  dialed (snd w') = dialed (snd w) -> lastReconnectTry (fst w') = lastReconnectTry (fst w) ->
  autoReconnect (fst w') = autoReconnect (fst w) -> throttled w w'.
Proof.
  intros Hc Ht Hd Hl Ha. split; [done|done|done|lia|done| |].
  - intros [_ Hm]. specialize (Hm _ _ Ht). unfold last_or. rewrite Hc, Hl, Hd, Nat.sub_diag. destruct (_ =? 0); lia.
  - intros [_ Hm] Hle. rewrite Hl, Hc. specialize (Hm _ _ Ht). lia.
Qed.

(** What an operation outside the opening of a connection leaves. *)
Definition idle {A} (m : WM CW A) : Prop := forall w, let w' := fst (m w) in
  clock (snd w') = clock (snd w) /\ ticks (snd w') = ticks (snd w) /\ dialed (snd w') = dialed (snd w) /\
  lastReconnectTry (fst w') = lastReconnectTry (fst w) /\ autoReconnect (fst w') = autoReconnect (fst w).

Lemma idle_throttled {A} (m : WM CW A) : idle m -> onward throttled m.
Proof. intros Hm w. destruct (Hm w) as (H1 & H2 & H3 & H4 & H5). apply throttled_same; auto. by rewrite H2. Qed.

Lemma idle_port {A} (m : PM A) : idle (on_port m).
Proof. intros [c e]. unfold on_port. destruct (conn_port c) as [p|]; [|done]. by destruct (m p). Qed.

Lemma idle_mod f : (forall c, lastReconnectTry (f c) = lastReconnectTry c /\ autoReconnect (f c) = autoReconnect c) -> idle (conn_mod f).
Proof. intros Hf w. cbn. destruct (Hf (fst w)). auto. Qed.

Lemma idle_isntMaster : idle tell_isntMaster.
Proof. by intros [c e]. Qed.

Lemma idle_get : idle conn_get.
Proof. by intros w. Qed.

Lemma or_failed_onward {A} (m : WM CW A) : onward throttled m -> onward throttled (or_failed m).
Proof.
  intros Hm w. specialize (Hm w). unfold or_failed. destruct (m w) as [w' [[e| |e]|a]]; cbn in *; [done| |done|done].
  etrans; [exact Hm|]. by apply throttled_same.
Qed.

Create HintDb throttle.
#[export] Hint Resolve idle_throttled idle_port idle_isntMaster idle_get or_failed_onward : throttle.
#[export] Hint Extern 2 (idle (conn_mod _)) => apply idle_mod; intros ?; split; reflexivity : throttle.

Ltac throttle :=
  repeat first
    [ solve [eauto with respects throttle]
    | match goal with |- onward ?R _ => apply (onward_bind R); [|intros ?] end
    | match goal with |- onward _ (if ?b then _ else _) => destruct b end
    | match goal with |- onward _ (match ?x with _ => _ end) => destruct x end ].

Lemma connect_once (w : CW) : let w' := fst (_connect w) in
  clock (snd w') = clock (snd w) /\ ticks (snd w') = ticks (snd w) /\
  (dialed (snd w) <= dialed (snd w') <= S (dialed (snd w)))%nat /\
  lastReconnectTry (fst w') = lastReconnectTry (fst w) /\ autoReconnect (fst w') = autoReconnect (fst w).
Proof.
  destruct w as [c e]. unfold _connect, wbind, conn_get, conn_mod, new_port. cbn [fst snd].
  destruct (_ || _); cbn -[dials dial]; [split_and!; [done|done|lia|lia|done|done]|]. unfold dial. cbn [conn_port set_port set_server].
  destruct (dials e (dialed e)) as [[incoming ok]|]; cbn; (split_and!; [done|done|lia|lia|done|done]).
Qed.

Lemma reauth_onward vauth users : (forall o, onward throttled (vauth o)) -> onward throttled (reauth vauth users).
Proof.
  intros Hv. induction users as [|[k o] users IH]; [by apply (onward_here throttled)|]. intros w. cbn [reauth].
  specialize (Hv o w). destruct (vauth o w) as [w' [[[]| |]|[]]]; cbn in Hv; try done; try (etrans; [exact Hv|apply IH]).
  destruct (_ =? _); [|done]. etrans; [exact Hv|apply IH].
Qed.

Lemma attempt_throttled c e t : autoReconnect c = true -> (ticks e <= t)%nat ->
  (lastReconnectTry c <> 0 -> exists i, (ticks e <= i <= t)%nat /\ 2 <= clock e i - lastReconnectTry c) ->
  forall w', clock (snd w') = clock e -> ticks (snd w') = S t -> (dialed e <= dialed (snd w') <= S (dialed e))%nat ->
  lastReconnectTry (fst w') = clock e t -> autoReconnect (fst w') = true -> throttled (c, e) w'.
Proof.
  intros Ha Ht Hw w' Hc Htk Hd Hl Hau. split; cbn [fst snd]; [done|congruence|lia|lia|congruence| |].
  - intros [Hpos Hm]. pose proof (Hpos t). unfold last_or. cbn [fst snd]. rewrite Hl, (proj2 (Z.eqb_neq _ _)) by lia.
    destruct (Z.eqb_spec (lastReconnectTry c) 0) as [E|E].
    + specialize (Hm _ _ Ht). lia.
    + destruct (Hw E) as (i & Hi & Hs). assert (clock e i <= clock e t) by (apply Hm; lia). lia.
  - intros [_ Hm] _. rewrite Hl, Hc, Htk. apply Hm. lia.
Qed.

Lemma check_throttled vauth : (forall o, onward throttled (vauth o)) -> onward throttled (_checkConnection vauth).
Proof.
  intros Hv [c e]. unfold _checkConnection. unfold wbind at 1. cbn [conn_get fst]. destruct (_failed c); [|reflexivity]. cbn [negb].
  assert (exists t b, (if lastReconnectTry c =? 0 then wret false
      else act! now := time_now in wret (now - lastReconnectTry c <? 2)) (c, e) =
    ((c, MkEnv (clock e) t (dials e) (dialed e) (any_address e) (first_id e) (isntMaster_calls e)), inr b) /\ (ticks e <= t)%nat /\
    (b = false -> lastReconnectTry c <> 0 -> exists i, (ticks e <= i <= t)%nat /\ 2 <= clock e i - lastReconnectTry c))
    as (t & b & Ew & Ht & Hb).
  { destruct (Z.eqb_spec (lastReconnectTry c) 0) as [E|E].
    - exists (ticks e), false. destruct e. split; [done|]. split; [done|]. by intros _ [].
    - unfold wbind, time_now, wret. eexists _, _. split; [reflexivity|]. split; [lia|]. intros Hlt _.
      apply Z.ltb_ge in Hlt. exists (ticks e). split; [lia|done]. }
  unfold wbind at 1. rewrite Ew. destruct b; [by apply throttled_same|]. specialize (Hb eq_refl).
  destruct (autoReconnect c) eqn:Ha; cbn [negb]; [|by apply throttled_same]. unfold wbind at 1, time_now at 1. cbn [ticks clock dials dialed any_address first_id isntMaster_calls].
  unfold wbind at 1, conn_mod at 1. unfold wbind at 1, conn_mod at 1. cbn [fst snd]. set (w1 := (set_failed _ _, _)). unfold wbind at 1.
  destruct (connect_once w1) as (H1 & H2 & H3 & H4 & H5).
  assert (throttled (c, e) (fst (_connect w1))) as Hth.
  { apply (attempt_throttled c e t Ha Ht Hb); [by rewrite H1|by rewrite H2|exact H3|by rewrite H4|by rewrite H5]. }
  destruct (_connect w1) as [w2 [x|ok]]; [exact Hth|]. cbn [fst] in Hth. etrans; [exact Hth|]. destruct ok; cbn [negb].
  - unfold wbind, conn_get. by apply reauth_onward.
  - by apply throttled_same.
Qed.

Lemma checkConnection_throttled vauth : (forall o, onward throttled (vauth o)) -> onward throttled (checkConnection vauth).
Proof. intros Hv. pose proof (check_throttled vauth Hv). unfold checkConnection. throttle. Qed.
#[export] Hint Resolve throttled_preorder checkConnection_throttled : throttle.

Section Levels.
Context (fresh : list byte) (lazy : bool) (stopping : Env -> bool).
Context (pool_get : list byte -> CW -> CW * (exn + unit)) (pool_done : CW -> CW).
Context (st : Md5.md5_state) (sasl : option (BSONObj -> WM CW Status)).
(** The pool has other connections, and the SASL library keeps to the rule. *)
Context (pool_get_idle : forall h w, fst (pool_get h w) = w) (pool_done_idle : forall w, pool_done w = w).
Context (sasl_idle : forall f, sasl = Some f -> forall o, onward throttled (f o)).

Abbreviation the_clients := (connection_clients fresh lazy stopping pool_get pool_done).
Abbreviation the_query := (conn_query fresh lazy stopping pool_get pool_done).
Abbreviation the_level := (level fresh lazy stopping pool_get pool_done st sasl).

Definition throttles (l : (BSONObj -> WM CW unit) * (list byte -> BSONObj -> Z -> WM CW (bool * BSONObj))) : Prop :=
  (forall o, onward throttled (fst l o)) /\ forall d c o, onward throttled (snd l d c o).

Lemma conn_respects vauth run : throttles (vauth, run) -> Respects (the_clients vauth run) throttled.
Proof.
  intros [Hv Hr]. cbn in Hv, Hr. split; intros; cbn.
  - apply (checkConnection_throttled vauth) in Hv. revert w. change (onward throttled (conn_call vauth m b)). unfold conn_call. throttle.
  - apply (checkConnection_throttled vauth) in Hv. revert w. change (onward throttled (conn_say vauth m)). unfold conn_say. throttle.
  - revert w. change (onward throttled (conn_sayPiggyBack m)). unfold conn_sayPiggyBack. throttle.
  - revert w. change (onward throttled conn_recv). unfold conn_recv. throttle.
  - revert w. change (onward throttled (conn_checkResponse d n)). unfold conn_checkResponse. throttle.
  - apply Hr.
  - by rewrite pool_get_idle.
  - by rewrite pool_done_idle.
Qed.

Lemma conn_query_throttled vauth run ns q n skip_ fields o bs : throttles (vauth, run) ->
  onward throttled (the_query vauth run ns q n skip_ fields o bs).
Proof.
  intros Hl. pose proof (conn_respects vauth run Hl). destruct Hl as [Hv _]. unfold conn_query.
  apply (onward_bind throttled); [by apply checkConnection_throttled|]. intros _. apply query_respects; typeclasses eauto.
Qed.

Lemma level_throttled n : throttles (the_level n).
Proof.
  induction n as [|n IH]; [by split; intros; apply (onward_here throttled)|]. cbn [level].
  destruct (the_level n) as [vauth run]. pose proof (conn_respects vauth run IH) as Hr. split; cbn [fst snd].
  - intros o. pose proof (auth_respects (H := the_clients vauth run) throttled tt st sasl o sasl_idle). unfold conn_auth. throttle.
  - intros d c o. pose proof (runCommand_base_respects (H := the_clients vauth run) throttled (the_query vauth run)
      (fun ns q n skip_ fields o bs => conn_query_throttled vauth run ns q n skip_ fields o bs IH) d c o).
    unfold conn_runCommand. throttle.
Qed.
End Levels.

(** *** Whatever is done with a connection *)

Inductive conn_op :=
  | OpCall (m : Message) (assertOk : bool)
  | OpSay (m : Message)
  | OpPiggyBack (m : Message)
  | OpRecv
  | OpKill (id : Z)
  | OpQuery (ns : list byte) (query : BSONObj) (n skip_ : Z) (fields : option BSONObj) (queryOptions bs : Z) (turns : nat)
  | OpFindOne (ns : list byte) (query : BSONObj) (fields : option BSONObj) (queryOptions : Z)
  | OpCommand (dbname : list byte) (cmd : BSONObj) (options : Z)
  | OpAuth (isOwned : bool) (params : BSONObj).

Section Use.
Context (fresh : list byte) (lazy : bool) (stopping : Env -> bool).
Context (pool_get : list byte -> CW -> CW * (exn + unit)) (pool_done : CW -> CW).
Context (st : Md5.md5_state) (sasl : option (BSONObj -> WM CW Status)).
Abbreviation the_clients := (connection_clients fresh lazy stopping pool_get pool_done).
Abbreviation the_query := (conn_query fresh lazy stopping pool_get pool_done).
Abbreviation the_level := (level fresh lazy stopping pool_get pool_done st sasl).

(** With [n] levels; an exception is the end of the operation, not of the connection. *)
Definition use (n : nat) (o : conn_op) (w : CW) : CW :=
  let '(vauth, run) := the_level n in
  match o with
  | OpCall m b => fst (conn_call vauth m b w)
  | OpSay m => fst (conn_say vauth m w)
  | OpPiggyBack m => fst (conn_sayPiggyBack m w)
  | OpRecv => fst (conn_recv w)
  | OpKill id => fst (conn_killCursor vauth fresh lazy id w)
  | OpQuery ns q k skip_ fields opts bs turns =>
      fst (with_cursor (H := the_clients vauth run) (the_query vauth run ns q k skip_ fields opts bs w) 0
             (drain (H := the_clients vauth run) turns next))
  | OpFindOne ns q fields opts => fst (findOne (H := the_clients vauth run) (the_query vauth run) ns q fields opts w)
  | OpCommand db cmd opts => fst (conn_runCommand fresh lazy stopping pool_get pool_done vauth run db cmd opts w)
  | OpAuth b params => fst (conn_auth fresh lazy stopping pool_get pool_done st sasl run vauth b params w)
  end.

Definition uses (n : nat) (ops : list conn_op) (w : CW) : CW := fold_left (fun w o => use n o w) ops w.

Context (pool_get_idle : forall h w, fst (pool_get h w) = w) (pool_done_idle : forall w, pool_done w = w).
Context (sasl_idle : forall f, sasl = Some f -> forall o, onward throttled (f o)).

Lemma use_throttled n o w : throttled w (use n o w).
Proof.
  pose proof (level_throttled fresh lazy stopping pool_get pool_done st sasl pool_get_idle pool_done_idle sasl_idle (S n)) as HS.
  pose proof (level_throttled fresh lazy stopping pool_get pool_done st sasl pool_get_idle pool_done_idle sasl_idle n) as Hl.
  cbn [level] in HS. unfold use. destruct (the_level n) as [vauth run]. destruct HS as [_ Hcmd].
  pose proof (conn_respects fresh lazy stopping pool_get pool_done pool_get_idle pool_done_idle vauth run Hl) as Hr.
  pose proof (fun ns q n skip_ fields o bs => conn_query_throttled fresh lazy stopping pool_get pool_done pool_get_idle
    pool_done_idle vauth run ns q n skip_ fields o bs Hl) as Hq.
  destruct o.
  - apply (rs_call (Respects := Hr) tt).
  - apply (rs_say (Respects := Hr) tt _ false).
  - apply (rs_sayPiggyBack (Respects := Hr) tt).
  - apply (rs_recv (Respects := Hr) tt).
  - revert w. change (onward throttled (conn_killCursor vauth fresh lazy id)). unfold conn_killCursor.
    pose proof (fun m => rs_say (Respects := Hr) tt m false : onward throttled (conn_say vauth m)).
    pose proof (fun m => rs_sayPiggyBack (Respects := Hr) tt m : onward throttled (conn_sayPiggyBack m)). throttle.
  - apply (with_cursor_respects (H := the_clients vauth run) throttled (the_query vauth run ns query n0 skip_ fields queryOptions bs)); [apply Hq|].
    apply (through_drain throttled), (through_next throttled).
  - by apply (findOne_respects (H := the_clients vauth run) throttled).
  - apply Hcmd.
  - revert w. change (onward throttled (conn_auth fresh lazy stopping pool_get pool_done st sasl run vauth isOwned params)).
    pose proof (auth_respects (H := the_clients vauth run) throttled tt st sasl params sasl_idle). unfold conn_auth. throttle.
Qed.

(** C18: Whatever is done with a connection, and whatever the server and the network
    do, [k] attempts to open it again take at least [2 * (k - 1)] seconds; a
    connection that is not told to reconnect is never opened again. *)
Theorem reconnects_throttled n ops w : runs_forward (clock (snd w)) -> lastReconnectTry (fst w) = 0 ->
  let w' := uses n ops w in
  let attempts := (dialed (snd w') - dialed (snd w))%nat in
  2 * (Z.of_nat attempts - 1) <= clock (snd w) (ticks (snd w')) - clock (snd w) (ticks (snd w)) /\
  (autoReconnect (fst w) = false -> attempts = 0%nat).
Proof.
  intros Hr Hl w' attempts. assert (throttled w w') as [Hc _ Ht _ Hn Hs Hle].
  { unfold w', uses. subst w' attempts. clear Hr Hl. revert w. induction ops as [|o ops IH]; intros w; [reflexivity|].
    cbn [fold_left]. etrans; [by apply use_throttled|apply IH]. }
  specialize (Hs Hr). specialize (Hle Hr). rewrite Hl in Hle. destruct Hr as [Hpos Hm]. pose proof (Hpos (ticks (snd w))).
  specialize (Hle ltac:(lia)). rewrite Hc in Hle. unfold last_or in Hs. rewrite Hl, Hc in Hs. cbn [Z.eqb] in Hs. split.
  - fold attempts in Hs. destruct (_ =? 0); lia.
  - intros Ha. unfold attempts. rewrite (Hn Ha). lia.
Qed.
End Use.

(** ** Documents through a connection *)

(** The replies that arrive: to the requests with the identifiers from [id] on,
    each with a cursor and documents. *)
Definition reply_of (id : Z) (b : Z * list doc) : list byte :=
  reply (le32 0 ++ le32 id) 0 (fst b) 0 (Z.of_nat (length (snd b))) (concat (map enc_doc (snd b))).

Fixpoint replies (id : Z) (bs : list (Z * list doc)) : list byte :=
  match bs with [] => [] | b :: bs' => reply_of id b ++ replies (u32 (id + 1)) bs' end.

Record batch_ok (b : Z * list doc) : Prop := {
  bo_id : in_s 64 (fst b) = true;
  bo_wf : Forall (fun d => wf_doc d = true) (snd b);
  bo_size : zlen (concat (map enc_doc (snd b))) + 36 <= MaxMessageSizeBytes
}.

(** What is left for the cursor [id]: batches with documents, the last with the
    cursor 0. *)
Inductive chain : Z -> list (Z * list doc) -> Prop :=
  | chain_end : chain 0 []
  | chain_more id b bs : id <> 0 -> in_s 64 id = true -> batch_ok b -> snd b <> [] -> chain (fst b) bs -> chain id (b :: bs).

(** A connection that can be used, with these bytes on their way. *)
Record usable (w : CW) (id : Z) (incoming : list byte) : Prop := {
  us_failed : _failed (fst w) = false;
  us_plain : clientSet (fst w) = false;
  us_port : exists p, conn_port (fst w) = Some p /\ sock_ok p = true /\ zlen (waiting p) <= PiggyBackMax /\
    NextMsgId p = id /\ in_u 32 id = true /\ sock_incoming p = incoming
}.

Lemma batch_count b : batch_ok b -> in_s 32 (Z.of_nat (length (snd b))) = true.
Proof.
  intros [_ _ Hz]. apply in_s_spec. change (2 ^ (32 - 1)) with (2 ^ 31).
  assert (Z.of_nat (length (snd b)) <= zlen (concat (map enc_doc (snd b)))) as Hl.
  { clear. induction (snd b) as [|d ds IH]; [done|]. cbn [map concat length]. rewrite zlen_app.
    pose proof (zlen_enc_doc d). pose proof (zlen_nonneg (enc_elems d)). lia. }
  unfold MaxMessageSizeBytes in Hz. lia.
Qed.

Lemma reply_of_frame id b : batch_ok b -> frame (reply_of id b).
Proof.
  intros [_ _ Hz]. apply wire_frame; [done|]. unfold reply_body. rewrite !zlen_app, !zlen_le_bytes. lia.
Qed.

Lemma reply_of_to id b : in_u 32 id = true -> md_responseTo (reply_of id b) = Ok id.
Proof.
  intros Hid. unfold md_responseTo, reply_of, reply, wire. eapply points_load_u32; [|exact Hid].
  change (Ptr ?x off_responseTo) with (Ptr x 0 +! 8).
  eapply (points_app_r _ (le32 _ ++ le32 0)); [|by rewrite zlen_app, !zlen_le_bytes].
  rewrite <- !app_assoc. apply points_start.
Qed.

Section Documents.
Context (fresh : list byte) (lazy : bool) (stopping : Env -> bool).
Context (pool_get : list byte -> CW -> CW * (exn + unit)) (pool_done : CW -> CW).
Context (vauth : BSONObj -> WM CW unit) (run : list byte -> BSONObj -> Z -> WM CW (bool * BSONObj)).

#[local] Instance the_clients : Clients CW unit := connection_clients fresh lazy stopping pool_get pool_done vauth run.

Lemma call_reply w id b q op size assertOk rest_ : usable w id (reply_of id b ++ rest_) -> batch_ok b ->
  on_wire q op size -> 0 <= size -> size + 16 <= MaxMessageSizeBytes ->
  exists w', conn_call vauth q assertOk w = (w', inr (true, framed_msg (reply_of id b), None)) /\ usable w' (u32 (id + 1)) rest_.
Proof.
  intros [Hf Hp (p & Ep & Hok & Hw & Hid & Hu & Hin)] Hb (ids & body & Hids & Hz & ->) H0 Hs. destruct w as [c e]. cbn [fst] in *.
  destruct (port_call_step p (wire ids op body) true (reply_of id b) rest_) as (p' & E & _ & Hin' & Hok' & Hw' & Hn');
    [done|by apply wire_frame; [|lia]|done|by subst id|by apply reply_of_frame|subst id; by apply reply_of_to|done|].
  exists (set_port (Some p') c, e). split.
  - unfold conn_call, checkConnection, wbind, conn_get. cbn [fst]. rewrite Hf. cbn [wret]. unfold or_failed, on_port. rewrite Ep, E. done.
  - split; [done|done|]. exists p'. cbn. rewrite Hw', Hn', Hin'. repeat split; try done; [unfold next_id; by subst id|apply in_u_spec, wrap_u_range; lia].
Qed.

Lemma reply_is_reply id b : batch_ok b -> reply_msg (framed_msg (reply_of id b)) 0 (fst b) (snd b).
Proof. intros Hb. exists (le32 0 ++ le32 id), 0. pose proof (batch_count b Hb). destruct Hb as [H1 H2 _]. by repeat split. Qed.

Lemma plain_checkResponse w d n : clientSet (fst w) = false -> exists r, conn_checkResponse d n w = (w, inr r).
Proof. intros Hp. unfold conn_checkResponse, wbind, conn_get. rewrite Hp. by eexists. Qed.

(** A cursor is served by the replies. *)
Lemma replies_serve P cid bs : chain cid bs -> 33 + zlen (p_ns P) <= MaxMessageSizeBytes ->
  forall n w id rest_, usable w id (replies id bs ++ rest_) -> serves P n cid w (concat (map snd bs)).
Proof.
  intros Hc Hns. induction Hc as [|cid b bs Hne Hid Hb Hds Hc IH]; intros n w id rest_ Hu; [apply serves_end|].
  cbn [replies map concat] in *. rewrite <- app_assoc in Hu. apply serves_more; [done|done|done|].
  intros q (_ & _ & _ & _ & _ & _ & _ & _ & _ & Hq). pose proof (zlen_nonneg (p_ns P)).
  destruct (call_reply w id b q _ _ true _ Hu Hb Hq) as (w' & E & Hu'); [lia|lia|].
  exists true, (framed_msg (reply_of id b)), None, w', w', 0, (fst b). split; [exact E|].
  split; [by apply reply_is_reply|]. split; [intros d; apply plain_checkResponse, Hu'|]. by eapply IH.
Qed.

End Documents.

(** ** A connection at work *)

Definition no_pool (_ : list byte) (w : CW) : CW * (exn + unit) := (w, inl SocketException).

(** A clock that shows one second more each time; every attempt to connect fails. *)
Definition dead_env : Env := MkEnv (fun i => 100 + Z.of_nat i) 0 (fun _ => None) 0 (fun _ _ => false) 0 0.
Definition some_host : HostAndPort := MkHost (bstr "db1") 27017.
Definition failed_connection (again : bool) : DBClientConnection :=
  set_failed true (set_server some_host (bstr "db1:27017") (DBClientConnection_new again false)).

(** Ten messages; five attempts are made. *)
Definition ten_says : list conn_op := repeat (OpSay (framed_msg ping_sample)) 10.

Lemma reconnects_throttled_witness :
  let run_ again := uses [] true (fun _ => false) no_pool id md5_start None 0 ten_says (failed_connection again, dead_env) in
  2 * (Z.of_nat (dialed (snd (run_ true))) - 1) <= clock dead_env (ticks (snd (run_ true))) - clock dead_env 0 /\
  dialed (snd (run_ true)) = 5%nat /\ dialed (snd (run_ false)) = 0%nat.
Proof.
  assert (runs_forward (clock dead_env)) as Hr by (split; cbn; lia).
  intros run_. split; [|split].
  - destruct (reconnects_throttled [] true (fun _ => false) no_pool id md5_start None (fun _ _ => eq_refl) (fun _ => eq_refl)
      (fun f (E : None = Some f) => match E with end) 0 ten_says (failed_connection true, dead_env) Hr eq_refl) as [H _].
    cbv zeta in H. change (dialed (snd (failed_connection true, dead_env))) with 0%nat in H. rewrite Nat.sub_0_r in H. exact H.
  - vm_compute. reflexivity.
  - vm_compute. reflexivity.
Defined.

(** A connection to a server whose replies are on their way. *)
Definition in_replies : list (Z * list doc) := [(7, map numbered [1; 2]); (7, map numbered [3]); (0, map numbered [4; 5])].
Definition fed_env : Env :=
  MkEnv (fun i => 100 + Z.of_nat i) 0 (fun _ => Some (replies 5 in_replies, true)) 0 (fun _ _ => false) 5 0.
Definition fed_world : CW := fst (connect some_host (DBClientConnection_new true false, fed_env)).

Lemma batch_ok_dec (b : Z * list doc) :
  in_s 64 (fst b) && forallb wf_doc (snd b) && (zlen (concat (map enc_doc (snd b))) + 36 <=? MaxMessageSizeBytes) = true -> batch_ok b.
Proof.
  intros [[H1 H2]%andb_prop H3]%andb_prop. split; [done| |by apply Z.leb_le]. apply List.Forall_forall. by apply List.forallb_forall.
Qed.


(** ** Where a connection falls short *)

(** A cursor that got no reply passes a null pointer and the number -1, which the
    connection of a replica set answers with an assertion. *)
Example null_response (w : CW) : clientSet (fst w) = true -> snd (conn_checkResponse None (-1) w) = inl (Failure VerifyFailed).
Proof. intros Hc. unfold conn_checkResponse, wbind, conn_get. by rewrite Hc. Qed.

(** A connection that could not be opened because its host has no name, or is the
    address 0.0.0.0, is not marked as failed: the next operation does not try to
    connect, but uses the port that has no socket, and fails. *)
Definition unusable_env : Env := MkEnv (fun i => 100 + Z.of_nat i) 0 (fun _ => Some ([], true)) 0 (fun _ _ => true) 5 0.

Example not_opened_again :
  let '(w, r) := connect some_host (DBClientConnection_new true false, unusable_env) in
  r = inr false /\ _failed (fst w) = false /\
  (let '(w', r') := conn_say (fun _ => wret tt) (framed_msg ping_sample) w in r' = inl SocketException /\ dialed (snd w') = 0%nat).
Proof. vm_compute. auto. Qed.
