(* ===== verification/Decode.v ===== *)
(** * Decode: a document from its bytes

    The inverse of the encoding of Format.v.  It is not code of the driver: it
    says that a well-formed document is determined by its bytes, and lets a
    server of a witness keep documents. *)

From stdpp Require Import base list numbers option tactics.
From Stdlib Require Import Strings.Byte ZArith Lia.
From S2P Require Import Prelude Memory BsonTypes Format.

Definition dec_take (n : nat) (bs : list byte) : option (list byte * list byte) :=
  if (n <=? length bs)%nat then Some (take n bs, drop n bs) else None.

Definition dec_cstr (bs : list byte) : option (list byte * list byte) :=
  s ← until_nul bs; Some (s, drop (S (length s)) bs).

Definition dec_le (n : nat) (bs : list byte) : option (Z * list byte) :=
  '(x, r) ← dec_take n bs; Some (le_val x, r).

Definition dec_string (bs : list byte) : option (list byte * list byte) :=
  '(n, r) ← dec_le 4 bs;
  '(s, r) ← dec_take (Z.to_nat (n - 1)) r;
  '(_, r) ← dec_take 1 r;
  Some (s, r).

Definition dec_value (nested : list byte -> option (doc * list byte)) (t : BSONType) (bs : list byte) :
    option (value * list byte) :=
  let framed r := '(_, r) ← dec_take 4 r; nested r in
  match t with
  | MinKey => Some (VMinKey, bs)
  | MaxKey => Some (VMaxKey, bs)
  | Undefined => Some (VUndefined, bs)
  | jstNULL => Some (VNull, bs)
  | NumberDouble => '(n, r) ← dec_le 8 bs; Some (VDouble n, r)
  | BSONString => '(s, r) ← dec_string bs; Some (VString s, r)
  | Code => '(s, r) ← dec_string bs; Some (VCode s, r)
  | Symbol => '(s, r) ← dec_string bs; Some (VSymbol s, r)
  | Object => '(d, r) ← framed bs; Some (VObject d, r)
  | Array => '(d, r) ← framed bs; Some (VArray d, r)
  | BinData =>
      '(n, r) ← dec_le 4 bs;
      '(u, r) ← dec_take 1 r;
      '(x, r) ← dec_take (Z.to_nat n) r;
      match u with [u] => Some (VBinData u x, r) | _ => None end
  | jstOID => '(o, r) ← dec_take 12 bs; Some (VOID o, r)
  | BSONBool => '(b, r) ← dec_le 1 bs; Some (VBool (b =? 1), r)
  | Date => '(n, r) ← dec_le 8 bs; Some (VDate n, r)
  | Timestamp => '(n, r) ← dec_le 8 bs; Some (VTimestamp n, r)
  | RegEx => '(p, r) ← dec_cstr bs; '(o, r) ← dec_cstr r; Some (VRegEx p o, r)
  | DBRef => '(n, r) ← dec_string bs; '(o, r) ← dec_take 12 r; Some (VDBRef n o, r)
  | CodeWScope =>
      '(_, r) ← dec_take 4 bs;
      '(c, r) ← dec_string r;
      '(d, r) ← framed r;
      Some (VCodeWScope c d, r)
  | NumberInt => '(n, r) ← dec_le 4 bs; Some (VInt (s32 n), r)
  | NumberLong => '(n, r) ← dec_le 8 bs; Some (VLong (s64 n), r)
  | EOO | InvalidType _ => None
  end.

(** The elements up to the end of the object, and what follows it. *)
Fixpoint dec_elems (fuel : nat) (bs : list byte) : option (doc * list byte) :=
  match fuel, bs with
  | O, _ | _, [] => None
  | S fuel', t :: r =>
      if Byte.eqb t x00 then Some ([], r)
      else
        '(n, r) ← dec_cstr r;
        '(v, r) ← dec_value (dec_elems fuel') (byte_type t) r;
        '(d, r) ← dec_elems fuel' r;
        Some ((n, v) :: d, r)
  end.

Definition decode (bs : list byte) : option doc := '(d, _) ← dec_elems (length bs) (drop 4 bs); Some d.

(** ** The inverse *)

Lemma dec_take_app n x r : length x = n -> dec_take n (x ++ r) = Some (x, r).
Proof.
  intros <-. unfold dec_take. rewrite length_app. rewrite (proj2 (Nat.leb_le _ _)) by lia.
  by rewrite take_app_length, drop_app_length.
Qed.

Lemma dec_le_app n z r : dec_le n (le_bytes n z ++ r) = Some (z mod 256 ^ Z.of_nat n, r).
Proof. unfold dec_le. rewrite dec_take_app by apply length_le_bytes. cbn. by rewrite le_val_bytes. Qed.

Lemma dec_le_u n w z r : w = 8 * Z.of_nat n -> in_u w z = true -> dec_le n (le_bytes n z ++ r) = Some (z, r).
Proof.
  intros -> Hz%in_u_spec. rewrite dec_le_app, Z.mod_small; [done|]. by rewrite Z.pow_mul_r in Hz by lia.
Qed.

Lemma dec_cstr_app s r : no_nul s = true -> dec_cstr (s ++ x00 :: r) = Some (s, r).
Proof.
  intros Hs. unfold dec_cstr. rewrite until_nul_app by done. cbn. f_equal. f_equal.
  rewrite drop_app_ge by lia. by replace (S _ - _)%nat with 1%nat by lia.
Qed.

Lemma dec_string_app s r : zlen s + 1 < 2 ^ 32 -> dec_string (enc_string s ++ r) = Some (s, r).
Proof.
  intros Hs. pose proof (zlen_nonneg s). unfold dec_string, enc_string. rewrite <- !app_assoc.
  rewrite (dec_le_u 4 32) by (done || by apply in_u_spec; lia). cbn [mbind option_bind].
  replace (Z.to_nat (zlen s + 1 - 1)) with (length s) by (unfold zlen; lia).
  rewrite dec_take_app by done. cbn [mbind option_bind]. by rewrite dec_take_app by done.
Qed.

Lemma dec_framed nested d r : (forall r, nested (enc_elems d ++ x00 :: r) = Some (d, r)) ->
  ('(_, r) ← dec_take 4 (enc_doc d ++ r); nested r) = Some (d, r).
Proof.
  intros Hn. unfold enc_doc, enc_frame. rewrite <- !app_assoc. rewrite dec_take_app by done. apply Hn.
Qed.

(** The document inside a value. *)
Definition nested_doc (v : value) : doc := match v with VObject d | VArray d | VCodeWScope _ d => d | _ => [] end.

Lemma dec_value_app nested v r : wf_value v = true -> (forall r, nested (enc_elems (nested_doc v) ++ x00 :: r) = Some (nested_doc v, r)) ->
  dec_value nested (vtype v) (enc_value v ++ r) = Some (v, r).
Proof.
  intros Hw Hn. assert (BSONObjMaxInternalSize < 2 ^ 31) as Hmax by done.
  destruct v; cbn [vtype dec_value nested_doc] in *; rewrite ?enc_value_object, ?enc_value_array; cbn [enc_value];
    rewrite ?wf_value_object, ?wf_value_array in Hw; cbn [wf_value] in Hw;
    try (rewrite dec_string_app by (apply Z.ltb_lt in Hw; lia); done); try done;
    try (rewrite (dec_le_u 8 64) by done; done);
    try (by rewrite (dec_framed nested d r Hn)).
  - apply Z.ltb_lt in Hw. pose proof (zlen_nonneg data). rewrite <- app_assoc. change ((subtype :: data) ++ r) with ([subtype] ++ data ++ r).
    rewrite (dec_le_u 4 32) by (done || by apply in_u_spec; lia). cbn [mbind option_bind].
    rewrite (dec_take_app 1 [subtype]) by done. cbn [mbind option_bind].
    by rewrite dec_take_app by (unfold zlen; lia).
  - apply Z.eqb_eq in Hw. by rewrite dec_take_app by (unfold zlen in Hw; lia).
  - by destruct b.
  - apply andb_prop in Hw as [[Hp Ho]%andb_prop _]. rewrite <- app_assoc. cbn [app]. rewrite dec_cstr_app by done. cbn [mbind option_bind].
    rewrite <- app_assoc. cbn [app]. by rewrite dec_cstr_app.
  - apply andb_prop in Hw as [Hs%Z.ltb_lt Ho%Z.eqb_eq]. rewrite <- app_assoc, dec_string_app by lia. cbn [mbind option_bind].
    by rewrite dec_take_app by (unfold zlen in Ho; lia).
  - destruct (wf_value_code code scope Hw) as (_ & _ & Hz). pose proof (zlen_nonneg (enc_doc scope)).
    change (enc_frame _) with (enc_doc scope). rewrite <- app_assoc, dec_take_app by done. cbn [mbind option_bind].
    rewrite <- app_assoc, dec_string_app by lia. cbn [mbind option_bind]. by rewrite (dec_framed nested scope r Hn).
  - rewrite dec_le_app. cbn [mbind option_bind]. do 3 f_equal. change (256 ^ Z.of_nat 4) with (2 ^ 32).
    apply in_s_spec in Hw. rewrite wrap_s_mod by lia. by apply wrap_s_small.
  - rewrite dec_le_app. cbn [mbind option_bind]. do 3 f_equal. change (256 ^ Z.of_nat 8) with (2 ^ 64).
    apply in_s_spec in Hw. rewrite wrap_s_mod by lia. by apply wrap_s_small.
Qed.

Lemma nested_smaller v : (length (enc_elems (nested_doc v)) <= length (enc_value v))%nat.
Proof.
  destruct v; cbn [nested_doc]; try (cbn; lia); rewrite ?enc_value_object, ?enc_value_array, ?enc_value_code; unfold enc_doc, enc_frame;
    rewrite ?length_app; lia.
Qed.

Lemma nested_wf v : wf_value v = true -> forallb wf_field (nested_doc v) = true.
Proof.
  intros Hw. destruct v; try done; cbn [nested_doc].
  - rewrite wf_value_object in Hw. by apply andb_prop in Hw as [? _].
  - rewrite wf_value_array in Hw. by apply andb_prop in Hw as [? _].
  - destruct (wf_value_code _ _ Hw) as (_ & Hd & _). by apply andb_prop in Hd as [? _].
Qed.

Lemma type_byte_not_end v : Byte.eqb (type_byte (vtype v)) x00 = false.
Proof. by destruct v. Qed.

Lemma dec_elems_app fuel : forall d r, forallb wf_field d = true -> (length (enc_elems d) < fuel)%nat ->
  dec_elems fuel (enc_elems d ++ x00 :: r) = Some (d, r).
Proof.
  induction fuel as [|fuel IH]; intros d r Hd Hl; [lia|]. destruct d as [|[n v] d]; [done|].
  cbn [forallb] in Hd. apply andb_prop in Hd as [[Hn Hv]%wf_field_parts Hd].
  rewrite enc_elems_cons in Hl |- *. unfold enc_elem in Hl |- *. cbn [fst snd] in Hl |- *.
  rewrite <- app_assoc. cbn [app dec_elems]. rewrite type_byte_not_end, <- app_assoc. cbn [app].
  cbn [app length] in Hl. rewrite !length_app in Hl. cbn [length] in Hl. rewrite ?length_app in Hl. cbn [length] in Hl.
  rewrite dec_cstr_app by done. cbn [mbind option_bind]. rewrite byte_type_type_byte by apply vtype_valid.
  pose proof (nested_smaller v). rewrite dec_value_app; [|done|intros r'; apply IH; [by apply nested_wf|lia]].
  cbn [mbind option_bind]. by rewrite IH by (done || lia).
Qed.

Theorem decode_encode d : wf_doc d = true -> decode (enc_doc d) = Some d.
Proof.
  intros [Hd _]%andb_prop. unfold decode, enc_doc, enc_frame. rewrite drop_app_length' by done.
  rewrite dec_elems_app; [done|done|]. rewrite !length_app. cbn. lia.
Qed.

(** Two well-formed documents with the same bytes are the same. *)
Corollary encoding_inj d d' : wf_doc d = true -> wf_doc d' = true -> enc_doc d = enc_doc d' -> d = d'.
Proof. intros H H' E. apply decode_encode in H, H'. congruence. Qed.

(** ** Equality of documents is decided *)

Definition docs_eq_dec (value_dec : forall v w : value, {v = w} + {v <> w}) : forall d d' : doc, {d = d'} + {d <> d'}.
Proof.
  fix go 1. intros [|[n v] d] [|[n' v'] d']; [by left|by right|by right|].
  destruct (decide (n = n')) as [->|]; [|right; congruence]. destruct (value_dec v v') as [->|]; [|right; congruence].
  destruct (go d d') as [->|]; [by left|right; congruence].
Defined.

#[global] Instance value_eq_dec : EqDecision value.
Proof.
  unfold EqDecision, Decision. fix go 1. intros v w.
  destruct v, w; try (by right); try (by left);
    try (match goal with |- {?c ?a = ?c ?b} + {_} => destruct (decide (a = b)) as [->|]; [by left|right; congruence] end);
    try (match goal with |- {?c ?x ?a = ?c ?y ?b} + {_} =>
      destruct (decide (x = y)) as [->|]; [destruct (decide (a = b)) as [->|]; [by left|]|]; right; congruence end).
  - destruct (docs_eq_dec go d d0) as [->|]; [by left|right; congruence].
  - destruct (docs_eq_dec go d d0) as [->|]; [by left|right; congruence].
  - destruct (decide (code = code0)) as [->|]; [|right; congruence].
    destruct (docs_eq_dec go scope scope0) as [->|]; [by left|right; congruence].
Defined.

Lemma decode_rest d r : wf_doc d = true -> decode (enc_doc d ++ r) = Some d.
Proof.
  intros [Hd _]%andb_prop. unfold decode, enc_doc, enc_frame. rewrite <- !app_assoc, drop_app_length' by done.
  cbn [app]. rewrite dec_elems_app; [done|done|]. rewrite !length_app. cbn. lia.
Qed.
