(* ===== verification/Indexes.v ===== *)
(** * Indexes: the indexes of a collection (client/dbclient.cpp,
    db/namespace-inl.h)

    An index is asked for by inserting its description into the collection
    system.indexes.  A connection remembers the ones it asked for, by collection
    and name, and does not ask again.

    The theorem: [ensureIndex] sends the description the first time and nothing
    after it, until the memory is cleared. *)

From stdpp Require Import base list numbers strings option tactics.
From Stdlib Require Import Strings.Byte ZArith Lia.
From S2P Require Import Prelude Memory Text BsonTypes Format Element Obj Builder JsObj JsObjSpec ReadPref Wire Cursor Commands.

(** ** Namespace *)

Definition MaxNsLen : Z := 128.

(** The characters of [buf]. *)
Definition Namespace_of (ns : list byte) : result (list byte) :=
  let* _ := uassert 10080 (zlen ns <? MaxNsLen - 1) in Ok (c_str ns).

Definition ns_hasDollarSign (buf : list byte) : bool := existsb (Byte.eqb "$") buf.

Definition extraName (buf : list byte) (i : Z) : result (list byte) :=
  let s := buf ++ bstr "$extr" ++ [zb (97 + i)] in
  let* _ := massert 10348 (zlen s <? MaxNsLen) in Ok s.

(** [strstr] finds the first occurrence. *)
Definition isExtra (buf : list byte) : bool :=
  match find_sub (bstr "$extr") buf with
  | Some (_, [_]) => true
  | _ => false
  end.

Fixpoint ns_hash_go (p : list byte) (x : Z) : Z :=
  match p with [] => x | c :: p' => ns_hash_go p' (u32 (x * 131 + sc c)) end.
Definition ns_hash (buf : list byte) : Z := Z.lor (Z.land (ns_hash_go buf 0) 0x7fffffff) 0x8000000.

Definition getSisterNS (buf local_ : list byte) : result (list byte) :=
  let* _ := verify (negb (bool_decide (head local_ = Some "."%byte))) in
  Ok (nsGetDB buf ++ bstr "." ++ local_).

(** ** Indexes *)

(** [_seenIndexes] of the connection, a part of the world. *)
Class IndexCache (W : Type) := {
  _seenIndexes : W -> list (list byte);
  set_seen : list (list byte) -> W -> W;
  seen_set : forall l w, _seenIndexes (set_seen l w) = l
}.

Section Indexes.
Context {W conn : Type} `{Clients W conn} `{IndexCache W}.

(** [insert] of one object: the message, said. *)
Definition client_insert (cl : conn) (ns : list byte) (o : BSONObj) : WM W unit :=
  act! m := wlift (insert_one fresh_bytes ns o 0) in
  act! _ := cl_say cl m false in
  wret tt.

(** The collection of the indexes of the database of [ns]. *)
Definition index_ns (ns : list byte) : result (list byte) :=
  let* n := Namespace_of (c_str ns) in
  let* s := getSisterNS n (bstr "system.indexes") in
  Ok (c_str s).

(** The description, and the key under which it is remembered. *)
Definition index_name (name : list byte) (keys : BSONObj) : result (list byte) :=
  if bool_decide (name = []) then genIndexName keys else Ok name.

Definition cache_key (ns name : list byte) : list byte := ns ++ bstr "--" ++ name.

Definition index_doc (ns : list byte) (keys : BSONObj) (unique : bool) (name : list byte) (background : bool) (version ttl : Z)
    (b : BSONObjBuilder) : result BSONObjBuilder :=
  then_ (append_string (bstr "ns") ns) (then_ (append_obj (bstr "key") keys) (then_ (append_string (bstr "name") name)
    (then_ (when_ (0 <=? version) (append_int (bstr "v") version))
    (then_ (when_ unique (append_bool (bstr "unique") unique))
    (then_ (when_ background (append_bool (bstr "background") true))
       (when_ (0 <? ttl) (append_int (bstr "expireAfterSeconds") ttl))))))) b.

(** What is remembered stays after an exception. *)
Definition ensureIndex (cl : conn) (ns : list byte) (keys : BSONObj) (unique : bool) (name : list byte) (cache background : bool)
    (version ttl : Z) : WM W bool :=
  act! nn := wlift (index_name name keys) in
  fun w =>
    if bool_decide (cache_key ns nn ∈ _seenIndexes w) then (w, inr false)
    else
      (act! _ := (if cache then fun w => (set_seen (cache_key ns nn :: _seenIndexes w) w, inr tt) else wret tt) in
       act! o := wlift (
         let* b := BSONObjBuilder_new 512 in
         let* b := index_doc ns keys unique nn background version ttl b in
         obj b) in
       act! sys := wlift (index_ns ns) in
       act! _ := client_insert cl sys o in
       wret true) w.

Definition resetIndexCache : WM W unit := fun w => (set_seen [] w, inr tt).

Definition dropIndex_reset (cl : conn) (ns indexName : list byte) : WM W unit :=
  act! _ := dropIndex cl ns indexName in resetIndexCache.
Definition dropIndexes_reset (cl : conn) (ns : list byte) : WM W unit :=
  act! _ := dropIndexes cl ns in resetIndexCache.

Definition getIndexes (vquery : @query_fun W conn) (ns : list byte) : W -> W * (exn + option (DBClientCursor conn)) :=
  act! sys := wlift (index_ns ns) in
  act! q := wlift (BSON (append_string (bstr "ns") ns)) in
  vquery sys q 0 0 None 0 0.

(** [all.push_back(i->next().getOwned())]: the objects are in the message of the cursor. *)
Definition next_owned : @CM W conn BSONObj := do! o := next in clift (getOwned false o).

Fixpoint insert_all (cl : conn) (ns : list byte) (os : list BSONObj) : WM W unit :=
  match os with
  | [] => wret tt
  | o :: os' => act! sys := wlift (index_ns ns) in act! _ := client_insert cl sys o in insert_all cl ns os'
  end.

(** The body of a function that uses a cursor without a look at the pointer. *)
Definition auto_cursor {A} (r : W * (exn + option (DBClientCursor conn))) (body : @CM W conn A) : W * (exn + A) :=
  match r with
  | (w, inr None) => (w, inl (Failure UndefinedBehaviour))
  | _ => with_cursor r 0 body
  end.

Definition reIndex (fuel : nat) (cl : conn) (vquery : @query_fun W conn) (ns : list byte) (w : W) : W * (exn + unit) :=
  auto_cursor (getIndexes vquery ns w) (
    do! all := drain fuel next_owned in
    do! _ := cact (dropIndexes_reset cl ns) in
    cact (insert_all cl ns all)).
End Indexes.

(** ** What is sent *)

(** The hash is positive, as the comment asks. *)
Lemma ns_hash_positive buf : 0 < ns_hash buf.
Proof.
  unfold ns_hash. set (x := Z.land _ _). assert (0 <= x) by (apply Z.land_nonneg; by right).
  assert (0 <= Z.lor x 0x8000000) by (by apply Z.lor_nonneg).
  destruct (Z.eq_dec (Z.lor x 0x8000000) 0) as [[_ E]%Z.lor_eq_0_iff|]; [done|lia].
Qed.

(** The document of an index. *)
Definition index_spec (ns : list byte) (keys : doc) (unique : bool) (name : list byte) (background : bool) (version ttl : Z) : doc :=
  [(bstr "ns", VString ns); (bstr "key", VObject keys); (bstr "name", VString name)] ++
  (if 0 <=? version then [(bstr "v", VInt version)] else []) ++
  (if unique then [(bstr "unique", VBool unique)] else []) ++
  (if background then [(bstr "background", VBool true)] else []) ++
  (if 0 <? ttl then [(bstr "expireAfterSeconds", VInt ttl)] else []).

Lemma index_doc_rep ns keys dk unique name background version ttl : obj_rep keys dk ->
  does (index_doc ns keys unique name background version ttl) (index_spec ns dk unique name background version ttl).
Proof.
  intros Hk. unfold index_doc, index_spec.
  apply (does_seq _ _ [_]); [apply does_append, append_string_rep|].
  apply (does_seq _ _ [_]); [by apply does_append, append_obj_rep|].
  apply (does_seq _ _ [_]); [apply does_append, append_string_rep|].
  apply does_seq; [apply does_when, does_append, append_int_rep|].
  apply does_seq; [apply does_when, does_append, append_bool_rep|].
  apply does_seq; [apply does_when, does_append, append_bool_rep|]. apply does_when, does_append, append_int_rep.
Qed.

Section Sent.
Context {W conn : Type} `{Clients W conn} `{IndexCache W}.

(** The server reads in [m] an insert of this document. *)
Definition reads_insert (m : Message) (ns : list byte) (d : doc) : Prop :=
  forall objcheck fuel, BufferMaxSize * 3 + 50 <= Z.of_nat fuel ->
  exists dm, opens m dbInsert 0 ns dm /\ holds_docs objcheck fuel dm [d].

Lemma client_insert_sends cl ns o d (w : W) : no_nul ns = true -> obj_rep o d -> 5 + zlen ns + zlen (enc_doc d) <= BufferMaxSize ->
  exists m, reads_insert m ns d /\ client_insert cl ns o w =
    (let '(w', r) := cl_say cl m false w in (w', match r with inr _ => inr tt | inl e => inl e end)).
Proof.
  intros Hn Ho Hz.
  assert (forall objcheck fuel, BufferMaxSize * 3 + 50 <= Z.of_nat fuel -> exists m dm, insert_msg fresh_bytes ns [o] 0 = Ok m /\
    opens m dbInsert 0 ns dm /\ holds_docs objcheck fuel dm [d]) as Hr.
  { intros objcheck fuel Hf. apply (insert_reading objcheck fuel fresh_bytes ns [o] [d] 0); try done.
    - constructor; [done|constructor].
    - unfold docs_size. cbn. by rewrite app_nil_r. }
  destruct (Hr false _ enough_fuel) as (m & _ & Em & _). exists m. split.
  - intros objcheck fuel Hf. destruct (Hr objcheck fuel Hf) as (m' & dm & Em' & Ho' & Hd). rewrite Em in Em'. injection Em' as <-.
    by exists dm.
  - unfold client_insert, insert_one, wbind. rewrite Em. cbn [wlift wret]. by destruct (cl_say cl m false w) as [w' [e|h]].
Qed.

(** A connection that sends, and does not touch the memory of indexes. *)
Definition sends (cl : conn) : Prop :=
  forall m w, exists w' h, cl_say cl m false w = (w', inr h) /\ _seenIndexes w' = _seenIndexes w.

(** The description of an index is inserted into the collection of indexes of the
    database, once: [ensureIndex] answers true and remembers it, and answers
    false, without a message, as long as it is remembered. *)
Theorem ensureIndex_correct cl ns keys dk unique name nn background version ttl sys (w : W) :
  let d := index_spec ns dk unique nn background version ttl in
  let run w := ensureIndex cl ns keys unique name true background version ttl w in
  sends cl -> obj_rep keys dk -> wf_doc d = true -> index_name name keys = Ok nn -> index_ns ns = Ok sys -> no_nul sys = true ->
  5 + zlen sys + zlen (enc_doc d) <= BufferMaxSize ->
  (cache_key ns nn ∉ _seenIndexes w -> exists m w' h, reads_insert m sys d /\
     cl_say cl m false (set_seen (cache_key ns nn :: _seenIndexes w) w) = (w', inr h) /\ run w = (w', inr true) /\
     _seenIndexes w' = cache_key ns nn :: _seenIndexes w) /\
  (cache_key ns nn ∈ _seenIndexes w -> run w = (w, inr false)).
Proof.
  intros d run Hs Hk Hw Hnn Hsys Hnul Hz. unfold run, ensureIndex. rewrite Hnn. split; intros Hin; unfold wbind at 1; cbn [wlift wret].
  - rewrite bool_decide_false by done. unfold wbind at 1. set (w1 := set_seen _ w).
    destruct (object_rep _ d (index_doc_rep ns keys dk unique nn background version ttl Hk) Hw 512) as (o & Eo & Ho);
      [rewrite obj_max_val; lia|].
    unfold wbind at 1. rewrite Eo. cbn [wlift wret]. unfold wbind at 1. rewrite Hsys. cbn [wlift wret].
    destruct (client_insert_sends cl sys o d w1 Hnul Ho Hz) as (m & Hm & E). destruct (Hs m w1) as (w' & h & Es & Hseen).
    exists m, w', h. unfold wbind. rewrite E, Es. split; [done|]. split; [done|]. split; [done|]. by rewrite Hseen; unfold w1; rewrite seen_set.
  - by rewrite bool_decide_true.
Qed.
End Sent.

(** ** Examples *)

Example sister : getSisterNS (bstr "test.people") (bstr "system.indexes") = Ok (bstr "test.system.indexes").
Proof. reflexivity. Qed.

(** A server that cannot be reached: the index is remembered although nothing was
    sent, and the second call says that there is nothing to do. *)
Definition unreachable : Clients (list (list byte)) unit := {|
  fresh_bytes := [];
  cl_call := fun _ _ _ w => (w, inl SocketException);
  cl_say := fun _ _ _ w => (w, inl SocketException);
  cl_sayPiggyBack := fun _ _ w => (w, inl SocketException);
  cl_recv := fun _ w => (w, inr (false, Message_new));
  cl_checkResponse := fun _ _ _ w => (w, inr (false, []));
  cl_runCommand := fun _ _ _ _ w => (w, inl SocketException);
  cl_lazySupported := fun _ => true;
  cl_type := fun _ => HostPort.MASTER;
  cl_toString := fun _ _ => [];
  cl_getServerAddress := fun _ _ => [];
  cl_availableOptions := fun _ w => (w, inr 0);
  cl_failed_shutdown := fun _ w => w;
  getScopedDbConnection := fun _ w => (w, inr tt);
  scoped_done := fun _ w => w;
  getLazyKillCursor := true;
  inShutdown := fun _ => false
|}.

Definition cache_only : IndexCache (list (list byte)) :=
  {| _seenIndexes := fun w => w; set_seen := fun l _ => l; seen_set := fun l _ => eq_refl |}.

Example remembered_unsent :
  let run w := ensureIndex (H := unreachable) (H0 := cache_only) tt (bstr "test.c") (Ptr (enc_doc [(bstr "a", VInt 1)]) 0) false [] true false (-1) 0 w in
  let '(w, r) := run [] in r = inl SocketException /\ snd (run w) = inr false.
Proof. vm_compute. by split. Qed.
