(* ===== verification/GridFs.v ===== *)
(** * GridFs: files in a database (client/gridfs.h, gridfs.cpp)

    A file is an object of the collection of files and its bytes are in chunks,
    objects of another collection that name the file and their number.  The
    identifier of a new file and the time are arguments; a stream is the bytes it
    gives, and a file that is written is a list of bytes.

    The theorem: against a server that keeps what is inserted and finds it, a
    file that was stored is found by its name and written as it was. *)

From stdpp Require Import base list numbers strings option tactics.
From Stdlib Require Import Strings.Byte ZArith Lia.
From Stdlib Require Import Floats.SpecFloat.
From S2P Require Import Prelude Memory Double BsonTypes Format Decode Element Obj Validate ValidateSpec Access Order Builder JsObj JsObjSpec.
From S2P Require Import HostPort Text ReadPref Wire Cursor Commands Indexes.

(** ** Arithmetic of doubles *)

Definition d_div (a b : Z) : Z := d_bits (SFdiv 53 1024 (d_spec a) (d_spec b)).

(** [(int) ceil(x)]. *)
Definition d_ceil (b : Z) : option Z :=
  match d_spec b with
  | S754_zero _ => Some 0
  | S754_finite s m e =>
      Some (if 0 <=? e then (if s then - (Zpos m * 2 ^ e) else Zpos m * 2 ^ e)
            else if s then - (Zpos m / 2 ^ (- e)) else (Zpos m + 2 ^ (- e) - 1) / 2 ^ (- e))
  | _ => None
  end.
Definition ceil_int (b : Z) : result Z :=
  match d_ceil b with
  | Some n => if in_s 32 n then Ok n else Err UndefinedBehaviour
  | None => Err UndefinedBehaviour
  end.

(** The cast of a [double] to [unsigned long long]. *)
Definition d_cast_u64 (b : Z) : result Z :=
  match d_trunc b with
  | Some n => if in_u 64 n then Ok n else Err UndefinedBehaviour
  | None => Err UndefinedBehaviour
  end.

(** ** Chunks *)

Definition DEFAULT_CHUNK_SIZE : Z := 256 * 1024.

(** [GridFSChunk(fileObject, chunkNumber, data, len)]. *)
Definition GridFSChunk_new (fileObject : BSONObj) (chunkNumber : Z) (data : ptr) (len_ : Z) : result BSONObj :=
  let* b := BSONObjBuilder_new 512 in
  let* e := getField fileObject (bstr "_id") in
  let* b := appendAs e (bstr "files_id") b in
  let* b := append_int (bstr "n") chunkNumber b in
  let* b := appendBinData (bstr "data") len_ x00 data b in
  obj b.

(** The bytes, and [len()]. *)
Definition chunk_data (c : BSONObj) : result (ptr * Z) := let* e := getField c (bstr "data") in binDataClean e.
Definition chunk_len (c : BSONObj) : result Z := let* '(_, n) := chunk_data c in Ok n.

(** ** GridFS *)

Record GridFS := MkGridFS {
  _dbName : list byte;
  _prefix : list byte;
  _filesNS : list byte;
  _chunksNS : list byte;
  _chunkSize : Z
}.

Definition grid_of (dbName prefix : list byte) (chunkSize : Z) : GridFS :=
  MkGridFS dbName prefix (dbName ++ bstr "." ++ prefix ++ bstr ".files") (dbName ++ bstr "." ++ prefix ++ bstr ".chunks") chunkSize.

Definition setChunkSize (size_ : Z) (g : GridFS) : result GridFS :=
  let* _ := massert 13296 (negb (size_ =? 0)) in
  Ok (MkGridFS (_dbName g) (_prefix g) (_filesNS g) (_chunksNS g) size_).
Definition getChunkSize (g : GridFS) : Z := _chunkSize g.

(** The length of the next chunk when [left_] bytes are left: both sides of the
    comparison are [unsigned], the result an [int]. *)
Definition next_chunk (chunkSize left_ : Z) : Z := s32 (if chunkSize <? u32 left_ then chunkSize else u32 left_).

Section GridFS.
Context {W conn : Type} `{Clients W conn} `{IndexCache W}.

Definition GridFS_new (cl : conn) (dbName prefix : list byte) : WM W GridFS :=
  let g := grid_of dbName prefix DEFAULT_CHUNK_SIZE in
  act! k := wlift (BSON (append_int (bstr "filename") 1)) in
  act! _ := ensureIndex cl (_filesNS g) k false [] true false (-1) 0 in
  act! k := wlift (BSON (then_ (append_int (bstr "files_id") 1) (append_int (bstr "n") 1))) in
  act! _ := ensureIndex cl (_chunksNS g) k true [] true false (-1) 0 in
  wret g.

Definition insert_chunk (g : GridFS) (cl : conn) (idObj : BSONObj) (chunkNumber : Z) (data : ptr) (len_ : Z) : WM W unit :=
  act! c := wlift (GridFSChunk_new idObj chunkNumber data len_) in
  client_insert cl (c_str (_chunksNS g)) c.

(** The loop over the data: [left_] bytes from [data] on. *)
Fixpoint store_chunks (fuel : nat) (g : GridFS) (cl : conn) (idObj : BSONObj) (chunkNumber : Z) (data : ptr) (left_ : Z) : WM W unit :=
  match fuel with
  | O => wraise (Failure OutOfFuel)
  | S fuel' =>
      if 0 <? left_ then
        let n := next_chunk (_chunkSize g) left_ in
        act! _ := insert_chunk g cl idObj chunkNumber data n in
        if in_s 32 (chunkNumber + 1) then store_chunks fuel' g cl idObj (chunkNumber + 1) (data +! n) (left_ - n)
        else wraise (Failure UndefinedBehaviour)
      else wret tt
  end.

(** [getLastErrorString(info) == ""]: the text of an object is not empty. *)
Definition last_error_empty (info : BSONObj) : result bool :=
  let* ok := isOk info in
  let* e := getField info (bstr (if ok then "err" else "errmsg")) in
  let* z := eoo e in
  if z then Ok true
  else if ok then
    let* t := type e in
    if bool_decide (t = Object) then Ok false else let* s := str e in Ok (bool_decide (s = []))
  else Ok false.

(** [file << ...]; [now] is DATENOW. *)
Definition file_object (g : GridFS) (name id : list byte) (length_ : Z) (contentType : list byte) (now : Z) (md5 : BSONElement)
    (b : BSONObjBuilder) : result BSONObjBuilder :=
  then_ (append_OID (bstr "_id") id) (then_ (append_string (bstr "filename") name)
    (then_ (append_unsigned (bstr "chunkSize") (_chunkSize g)) (then_ (appendDate (bstr "uploadDate") now)
    (then_ (appendAs md5 (bstr "md5"))
    (then_ (if length_ <? 2 ^ 30 then append_int (bstr "length") (s32 length_) else append_longlong (bstr "length") (s64 length_))
       (when_ (negb (bool_decide (contentType = []))) (append_string (bstr "contentType") contentType))))))) b.

Definition insertFile (g : GridFS) (cl : conn) (name id : list byte) (length_ : Z) (contentType : list byte) (now : Z) : WM W BSONObj :=
  act! errObj := getLastErrorDetailed cl (bstr "admin") false false 0 0 in
  act! fine := wlift (last_error_empty errObj) in
  act! _ := wlift (uassert 16428 fine) in
  act! cmd := wlift (BSON (then_ (append_OID (bstr "filemd5") id) (append_string (bstr "root") (_prefix g)))) in
  act! '(ok, res) := runCommand cl (c_str (_dbName g)) cmd 0 in
  if negb ok then wraise (Failure (UserAssert 9008))
  else
    act! ret := wlift (
      let* md5 := getField res (bstr "md5") in
      let* b := BSONObjBuilder_new 512 in
      let* b := file_object g name id length_ contentType now md5 b in
      obj b) in
    act! _ := client_insert cl (c_str (_filesNS g)) ret in
    wret ret.

(** [storeFile(data, length, ...)]. *)
Definition storeFile (fuel : nat) (g : GridFS) (cl : conn) (data : ptr) (length_ : Z) (remoteName contentType id : list byte) (now : Z) :
    WM W BSONObj :=
  act! idObj := wlift (BSON (append_OID (bstr "_id") id)) in
  act! _ := store_chunks fuel g cl idObj 0 data length_ in
  insertFile g cl remoteName id length_ contentType now.

(** The loop over a stream: the end of the file is seen by a read that asks for
    more than there is. *)
Fixpoint store_stream (fuel : nat) (g : GridFS) (cl : conn) (idObj : BSONObj) (chunkNumber : Z) (stream : list byte) (eof : bool)
    (length_ : Z) : WM W Z :=
  match fuel with
  | O => wraise (Failure OutOfFuel)
  | S fuel' =>
      if eof then wret length_
      else
        let buf := take (Z.to_nat (_chunkSize g)) stream in
        let eof := zlen stream <? _chunkSize g in
        act! _ := insert_chunk g cl idObj chunkNumber (Ptr buf 0) (s32 (zlen buf)) in
        if in_s 32 (chunkNumber + 1) then
          store_stream fuel' g cl idObj (chunkNumber + 1) (drop (Z.to_nat (_chunkSize g)) stream) eof (u64 (length_ + zlen buf))
        else wraise (Failure UndefinedBehaviour)
  end.

(** [storeFile(fileName, ...)]; no stream when the file cannot be opened. *)
Definition storeFile_stream (fuel : nat) (g : GridFS) (cl : conn) (fileName : list byte) (exists_ : bool) (stream : option (list byte))
    (remoteName contentType id : list byte) (now : Z) : WM W BSONObj :=
  act! _ := wlift (uassert 10012 (bytes_eqb fileName (bstr "-") || exists_)) in
  act! stream := wlift (match stream with Some s => Ok s | None => Err (UserAssert 10013) end) in
  act! idObj := wlift (BSON (append_OID (bstr "_id") id)) in
  act! n := store_stream fuel g cl idObj 0 stream false 0 in
  insertFile g cl (if bool_decide (remoteName = []) then fileName else remoteName) id n contentType now.
End GridFS.

(** ** GridFile *)

Section GridFile.
Context {W conn : Type} `{Clients W conn}.

(** A file is its object. *)
Definition file_exists (f : BSONObj) : result bool := let* z := isEmpty f in Ok (negb z).
Definition _exists (f : BSONObj) : result unit := let* b := file_exists f in uassert 10015 b.

Definition getFilename (f : BSONObj) : result (list byte) := let* e := getField f (bstr "filename") in str e.
Definition file_chunkSize (f : BSONObj) : result Z :=
  let* e := getField f (bstr "chunkSize") in let* d := number e in d_cast 32 d.
Definition getContentLength (f : BSONObj) : result Z :=
  let* e := getField f (bstr "length") in let* d := number e in d_cast_u64 d.
Definition getContentType (f : BSONObj) : result (list byte) :=
  let* e := getField f (bstr "contentType") in let* p := valuestr e in cstr p.
Definition getUploadDate (f : BSONObj) : result Z := let* e := getField f (bstr "uploadDate") in date e.
Definition getMD5 (f : BSONObj) : result (list byte) := let* e := getField f (bstr "md5") in str e.
Definition getMetadata (f : BSONObj) : result BSONObj :=
  let* e := getField f (bstr "metadata") in
  let* z := eoo e in
  if z then Ok BSONObj_empty else embeddedObject e.

Definition num_chunks (length_ chunkSize : Z) : result Z := ceil_int (d_div (d_of_Z length_) (d_of_Z chunkSize)).
Definition getNumChunks (f : BSONObj) : result Z :=
  let* n := getContentLength f in
  let* c := file_chunkSize f in
  num_chunks n c.

Definition chunk_query (f : BSONObj) (n : Z) : result BSONObj :=
  let* e := getField f (bstr "_id") in
  let* b := BSONObjBuilder_new 512 in
  let* b := appendAs e (bstr "files_id") b in
  let* b := append_int (bstr "n") n b in
  obj b.

Context (vquery : @query_fun W conn).

Definition getChunk (g : GridFS) (f : BSONObj) (n : Z) : WM W BSONObj :=
  act! _ := wlift (_exists f) in
  act! q := wlift (chunk_query f n) in
  act! o := findOne vquery (c_str (_chunksNS g)) q None 0 in
  act! z := wlift (isEmpty o) in
  act! _ := wlift (uassert 10014 (negb z)) in
  wret o.

(** The chunks from number [i] on; [out] is what the stream has. *)
Fixpoint write_chunks (k : nat) (g : GridFS) (f : BSONObj) (i : Z) (out : list byte) : WM W (list byte) :=
  match k with
  | O => wret out
  | S k' =>
      act! c := getChunk g f i in
      act! bs := wlift (let* '(p, n) := chunk_data c in loads p n) in
      write_chunks k' g f (i + 1) (out ++ bs)
  end.

(** What is written, and the length that is returned. *)
Definition write (g : GridFS) (f : BSONObj) : WM W (list byte * Z) :=
  act! _ := wlift (_exists f) in
  act! num := wlift (getNumChunks f) in
  act! out := write_chunks (Z.to_nat num) g f 0 [] in
  act! n := wlift (getContentLength f) in
  wret (out, n).

Definition findFile_query (g : GridFS) (query : BSONObj) : WM W BSONObj :=
  act! order := wlift (BSON (append_int (bstr "uploadDate") (-1))) in
  act! q := wlift (BSON (then_ (append_obj (bstr "query") query) (append_obj (bstr "orderby") order))) in
  findOne vquery (c_str (_filesNS g)) q None 0.

Definition findFile (g : GridFS) (fileName : list byte) : WM W BSONObj :=
  act! q := wlift (BSON (append_string (bstr "filename") fileName)) in
  findFile_query g q.

Definition list_files (g : GridFS) (o : BSONObj) : W -> W * (exn + option (DBClientCursor conn)) :=
  vquery (c_str (_filesNS g)) o 0 0 None 0 0.

Definition client_remove (cl : conn) (ns : list byte) (query : BSONObj) : WM W unit :=
  act! m := wlift (remove_one fresh_bytes ns query false) in
  act! _ := cl_say cl m false in
  wret tt.

(** [while (files->more())]: each file and its chunks are removed. *)
Fixpoint remove_files (fuel : nat) (g : GridFS) (cl : conn) : @CM W conn unit :=
  match fuel with
  | O => craise (Failure OutOfFuel)
  | S fuel' =>
      do! b := more in
      if b then
        do! file := next in
        do! id := clift (getField file (bstr "_id")) in
        do! q := clift (BSON (appendAs id (bstr "_id"))) in
        do! _ := cact (client_remove cl (c_str (_filesNS g)) q) in
        do! q := clift (BSON (appendAs id (bstr "files_id"))) in
        do! _ := cact (client_remove cl (c_str (_chunksNS g)) q) in
        remove_files fuel' g cl
      else cret tt
  end.

Definition removeFile (fuel : nat) (g : GridFS) (cl : conn) (fileName : list byte) : WM W unit := fun w =>
  match BSON (append_string (bstr "filename") fileName) with
  | Err e => (w, inl (Failure e))
  | Ok q => auto_cursor (vquery (_filesNS g) q 0 0 None 0 0 w) (remove_files fuel g cl)
  end.
End GridFile.

(** ** The number of chunks *)

Lemma shiftl_53 m : Z.shiftl m 53 = m * 2 ^ 53.
Proof. by rewrite Z.shiftl_mul_pow2. Qed.

Lemma div_eucl_parts a b : Z.div_eucl a b = (a / b, a mod b).
Proof. unfold Z.div, Z.modulo. by destruct (Z.div_eucl a b). Qed.

(** The quotient of two integers, with the exponent [t] at which it has 53 or 54 bits. *)
Lemma div_value n c : 0 < n < 2 ^ 31 -> 0 < c < 2 ^ 31 -> exists m e, let t := 53 - Z.log2 n + Z.log2 c in let x := n * 2 ^ t / c in
  d_spec (d_div (d_of_Z n) (d_of_Z c)) = S754_finite false m e /\ - t <= e <= - t + 2 /\
  x - 1 <= Zpos m * 2 ^ (e + t) <= x + 2 /\ ((n * 2 ^ t) mod c = 0 -> x mod 2 = 0 -> Zpos m * 2 ^ (e + t) = x).
Proof.
  intros Hn Hc. destruct (d_of_Z_normal n) as (ma & Ea & Ha); [lia|]. destruct (d_of_Z_normal c) as (mb & Eb & Hb); [lia|].
  destruct (normal_significand n) as [Hk1 Hs1]; [lia|]. destruct (normal_significand c) as [Hk2 Hs2]; [lia|].
  assert (Z.log2 n < 31) by (apply Z.log2_lt_pow2; lia). assert (Z.log2 c < 31) by (apply Z.log2_lt_pow2; lia).
  set (k1 := Z.log2 n) in *. set (k2 := Z.log2 c) in *. set (t := 53 - k1 + k2).
  assert (0 < 2 ^ (52 - k2)) as Hp by (apply Z.pow_pos_nonneg; lia).
  assert (Zpos ma * 2 ^ 53 = n * 2 ^ t * 2 ^ (52 - k2)) as Em.
  { rewrite Ha, <- !Z.mul_assoc, <- !Z.pow_add_r by lia. do 2 f_equal. lia. }
  set (x := n * 2 ^ t / c).
  assert (Zpos ma * 2 ^ 53 / Zpos mb = x) as Ex by (rewrite Em, Hb; apply Z.div_mul_cancel_r; lia).
  assert ((Zpos ma * 2 ^ 53) mod Zpos mb = (n * 2 ^ t) mod c * 2 ^ (52 - k2)) as Er by (rewrite Em, Hb; apply Z.mul_mod_distr_r; lia).
  assert (2 ^ 52 <= x < 2 ^ 54) as Hx.
  { rewrite <- Ex. split; [apply Z.div_le_lower_bound|apply Z.div_lt_upper_bound]; lia. }
  destruct (round_value x (new_location (Zpos mb) ((n * 2 ^ t) mod c * 2 ^ (52 - k2))) (- t) Hx) as (m & e & E & Hm & He & Hv & Hexact); [lia|].
  exists m, e. cbv zeta. replace (e + t) with (e - - t) by lia. split; [|split; [lia|split; [exact Hv|]]].
  - unfold d_div. rewrite Ea, Eb. cbn [SFdiv xorb]. unfold SFdiv_core_binary. cbn [Zdigits2]. rewrite !digits2_log2.
    rewrite !(Z.log2_unique _ 52) by lia. unfold fexp, emin.
    replace (Z.min _ _) with (- t) by lia. replace (_ - _ - - t) with 53 by lia. rewrite shiftl_53.
    by rewrite div_eucl_parts, Ex, Er, E, d_spec_bits by lia.
  - intros Hr Hev. apply Hexact; [|done]. rewrite Hr, Z.mul_0_l. unfold new_location, new_location_even, new_location_odd.
    by destruct (Z.even _).
Qed.

(** A quotient rounded at a bit that is worth less than a part of [c]. *)
Lemma ceil_value n c m e t : 0 < c -> e < 0 -> 0 <= e + t -> 2 * c < 2 ^ t ->
  n * 2 ^ t / c - 1 <= m * 2 ^ (e + t) <= n * 2 ^ t / c + 2 -> (n mod c = 0 -> m * 2 ^ (e + t) = n * 2 ^ t / c) ->
  (m + 2 ^ (- e) - 1) / 2 ^ (- e) = (n + c - 1) / c.
Proof.
  intros Hc He Het Ht Hv Hx. assert (2 ^ t = 2 ^ (- e) * 2 ^ (e + t)) as ET by (rewrite <- Z.pow_add_r by lia; f_equal; lia).
  assert (0 < 2 ^ (- e)) by (apply Z.pow_pos_nonneg; lia). assert (0 < 2 ^ (e + t)) by (apply Z.pow_pos_nonneg; lia).
  set (D := 2 ^ (- e)) in *. set (K := 2 ^ (e + t)) in *. set (T := 2 ^ t) in *. set (q := (n + c - 1) / c).
  assert ((q - 1) * c < n <= q * c) as Hq.
  { pose proof (Z.div_mod (n + c - 1) c ltac:(lia)) as Hd. pose proof (Z.mod_pos_bound (n + c - 1) c Hc). fold q in Hd. lia. }
  assert ((q - 1) * T < m * K <= q * T) as Hm.
  { pose proof (Z.div_mod (n * T) c ltac:(lia)) as Hd. pose proof (Z.mod_pos_bound (n * T) c Hc) as Hr.
    destruct (Z.eq_dec n (q * c)) as [E|E].
    - rewrite Hx by (rewrite E; apply Z_mod_mult). replace (n * T) with (q * T * c) by (rewrite E; ring). rewrite Z.div_mul by lia. nia.
    - assert ((q - 1) * c * T + T <= n * T <= q * c * T - T) by nia. set (u := n * T / c) in *. split; [|].
      + assert ((q - 1) * T + 1 < u); [|lia]. apply (Z.mul_lt_mono_pos_l c); [done|]. lia.
      + assert (u < q * T - 1); [|lia]. apply (Z.mul_lt_mono_pos_l c); [done|]. lia. }
  symmetry. apply (Z.div_unique _ _ _ (m + D - 1 - D * q)); [|lia]. left. nia.
Qed.

(** The number of chunks is the quotient rounded up: the quotient of the two
    doubles is not exact, and never on the other side of an integer. *)
Lemma num_chunks_exact n c : 0 <= n < 2 ^ 31 -> 0 < c < 2 ^ 31 ->
  num_chunks n c = Ok ((n + c - 1) / c).
Proof.
  intros Hn Hc. assert (0 <= (n + c - 1) / c < n + 1) as Hq.
  { split; [apply Z.div_pos; lia|]. apply Z.div_lt_upper_bound; nia. }
  unfold num_chunks, ceil_int. assert (d_ceil (d_div (d_of_Z n) (d_of_Z c)) = Some ((n + c - 1) / c)) as ->.
  2:{ by rewrite (proj2 (in_s_spec 32 _)) by (change (2 ^ (32 - 1)) with (2 ^ 31); lia). }
  destruct (Z.eq_dec n 0) as [->|Hz].
  - rewrite (Z.div_small (0 + c - 1) c) by lia. destruct (d_of_Z_normal c) as (mb & Eb & _); [lia|]. unfold d_div. by rewrite Eb.
  - destruct (div_value n c) as (m & e & E & He & Hv & Hx); [lia..|]. unfold d_ceil. rewrite E.
    assert (Z.log2 n < 31) by (apply Z.log2_lt_pow2; lia). pose proof (Z.log2_nonneg c).
    rewrite (proj2 (Z.leb_gt 0 e)) by lia. f_equal. set (t := 53 - Z.log2 n + Z.log2 c) in *.
    assert (2 * c < 2 ^ t) as Ht.
    { pose proof (Z.log2_spec c ltac:(lia)). apply Z.lt_le_trans with (2 ^ (Z.succ (Z.succ (Z.log2 c)))).
      - rewrite (Z.pow_succ_r 2 (Z.succ _)) by lia. lia.
      - apply Z.pow_le_mono_r; lia. }
    apply (ceil_value n c (Zpos m) e t); [lia..|exact Hv|]. intros Hm.
    assert (2 ^ t = 2 * 2 ^ (t - 1)) as E2 by (rewrite <- Z.pow_succ_r by lia; f_equal; lia).
    pose proof (Z.div_mod n c ltac:(lia)) as Hd. rewrite Hm, Z.add_0_r in Hd. set (k := n / c) in *.
    assert (n * 2 ^ t / c = k * 2 ^ (t - 1) * 2) as Eq.
    { rewrite Hd, E2. replace (c * k * (2 * 2 ^ (t - 1))) with (k * 2 ^ (t - 1) * 2 * c) by ring. apply Z.div_mul. lia. }
    apply Hx; [|rewrite Eq; apply Z_mod_mult].
    rewrite Hd. replace (c * k * 2 ^ t) with (k * 2 ^ t * c) by ring. apply Z_mod_mult.
Qed.

(** ** Documents of a file *)

Definition chunk_doc (id : list byte) (i : Z) (bs : list byte) : doc :=
  [(bstr "files_id", VOID id); (bstr "n", VInt i); (bstr "data", VBinData x00 bs)].

Definition length_value (n : Z) : value := if n <? 2 ^ 30 then VInt n else VLong n.

Definition file_doc (g : GridFS) (name id : list byte) (n : Z) (contentType : list byte) (now : Z) (md5 : value) : doc :=
  [(bstr "_id", VOID id); (bstr "filename", VString name); (bstr "chunkSize", VInt (_chunkSize g)); (bstr "uploadDate", VDate now);
   (bstr "md5", md5); (bstr "length", length_value n)] ++
  (if bool_decide (contentType = []) then [] else [(bstr "contentType", VString contentType)]).

Lemma object_with e m d : does (m e) d -> wf_doc d = true -> exists o b,
  BSONObjBuilder_new 512 = Ok b /\ (let* b := m (e : BSONElement) b in obj b) = Ok o /\ obj_rep o d.
Proof.
  intros Hm Hw. destruct (object_rep _ _ Hm Hw 512) as (o & Eo & Ho); [rewrite obj_max_val; lia|].
  destruct (new_rep 512) as (b & Eb & _); [rewrite obj_max_val; lia|]. rewrite Eb in Eo. exists o, b. by split.
Qed.

Lemma chunk_rep idObj id i p bs : obj_rep idObj [(bstr "_id", VOID id)] -> p ↦ bs -> wf_doc (chunk_doc id i bs) = true ->
  exists c, GridFSChunk_new idObj i p (zlen bs) = Ok c /\ obj_rep c (chunk_doc id i bs).
Proof.
  intros Hid Hp Hw. destruct (getField_rep idObj _ (bstr "_id") Hid) as (e & Ee & [He _]).
  destruct (object_with e (fun e => then_ (appendAs e (bstr "files_id")) (then_ (append_int (bstr "n") i)
    (appendBinData (bstr "data") (zlen bs) x00 p))) (chunk_doc id i bs)) as (c & b & Eb & Ec & Hc); [|done|].
  { apply (does_seq _ _ [_]); [apply does_append; exact (appendAs_rep _ _ _ _ He)|].
    apply (does_seq _ _ [_]); [apply does_append, append_int_rep|]. by apply does_append, appendBinData_rep. }
  exists c. split; [|done]. unfold GridFSChunk_new. rewrite Eb. cbn [bind]. rewrite Ee. cbn [bind]. rewrite <- Ec.
  unfold then_. rewrite !bind_assoc. by destruct (appendAs e (bstr "files_id") b) as [b1|]; cbn [bind]; rewrite ?bind_assoc.
Qed.

Lemma chunk_data_rep o id i bs : obj_rep o (chunk_doc id i bs) -> exists p, chunk_data o = Ok (p, zlen bs) /\ p ↦ bs.
Proof.
  intros Ho. destruct (getField_rep o _ (bstr "data") Ho) as (e & Ee & [He _]). unfold chunk_data. rewrite Ee. cbn [bind].
  change (find_field _ _) with (Some (bstr "data", VBinData x00 bs)) in He. cbn in He.
  pose proof (value_points _ _ _ He) as Hp. pose proof (elem_wf_value _ _ _ He) as Hw. cbn in Hp, Hw.
  unfold binDataClean, binDataType. rewrite (type_rep _ _ _ He). cbn [bind verify]. rewrite bool_decide_true by done. cbn [bind verify].
  rewrite (value_ptr_rep _ _ _ He). cbn [bind].
  pose proof Hp as Hq. apply (points_app_r _ _ _ 4) in Hq; [|done]. rewrite (points_load _ _ _ Hq). cbn [bind].
  change (negb (bz x00 =? ByteArrayDeprecated)) with true. cbv iota. unfold binData.
  rewrite (type_rep _ _ _ He). cbn [bind vtype]. rewrite bool_decide_true by done. cbn [bind verify].
  assert (valuestrsize e = Ok (zlen bs)) as ->.
  { unfold valuestrsize. rewrite (value_ptr_rep _ _ _ He). cbn [bind]. pose proof (zlen_nonneg bs).
    apply (points_load_s32 _ _ _ Hp), small_s32. lia. }
  cbn [bind]. rewrite (value_ptr_rep _ _ _ He). cbn [bind]. eexists. split; [reflexivity|].
  apply (points_app_r _ (le32 (zlen bs) ++ [x00])); [by rewrite <- app_assoc|]. by rewrite zlen_app, zlen_le_bytes.
Qed.

Lemma file_object_rep g name id n contentType now e m md5 : elem_ok e m md5 -> zlen id = 12 -> 0 <= n < 2 ^ 63 ->
  0 <= _chunkSize g < 2 ^ 31 -> does (file_object g name id n contentType now e) (file_doc g name id n contentType now md5).
Proof.
  intros He Hid Hn Hc. unfold file_object, file_doc.
  apply (does_seq _ _ [_]); [by apply does_append, append_OID_rep|].
  apply (does_seq _ _ [_]); [apply does_append, append_string_rep|].
  apply (does_seq _ _ [_]); [|].
  { unfold append_unsigned. rewrite wrap_s_small by (change (2 ^ (32 - 1)) with (2 ^ 31); lia). apply does_append, append_int_rep. }
  apply (does_seq _ _ [_]); [apply does_append, appendDate_rep|].
  apply (does_seq _ _ [_]); [apply does_append; exact (appendAs_rep _ _ _ _ He)|].
  apply (does_seq _ _ [_]).
  { unfold length_value. destruct (Z.ltb_spec n (2 ^ 30)).
    - rewrite wrap_s_small by (change (2 ^ (32 - 1)) with (2 ^ 31); lia). apply does_append, append_int_rep.
    - rewrite wrap_s_small by (change (2 ^ (64 - 1)) with (2 ^ 63); lia). apply does_append, append_longlong_rep. }
  destruct (bool_decide_reflect (contentType = [])); cbn [negb].
  - apply does_nothing.
  - apply (does_when true _ [_]), does_append, append_string_rep.
Qed.

(** ** A server that keeps documents *)

Definition matches (cq d : doc) : Prop := Forall (fun f => find_field d (fst f) = Some f) cq.

(** A query for documents with these fields, and one for the last of them; the
    name of the first field tells which. *)
Definition asks (cq dq : doc) : Prop :=
  (dq = cq /\ first_name cq <> bstr "query") \/ dq = [(bstr "query", VObject cq); (bstr "orderby", VObject [(bstr "uploadDate", VInt (-1))])].

Section Server.
Context {W conn : Type} `{Clients W conn}.
Context (cl : conn) (g : GridFS) (stored : W -> list byte -> list doc).

Definition same_docs (w w' : W) : Prop := forall ns, stored w' ns = stored w ns.

(** What is inserted is kept; a query that one document matches is answered with
    it; there is no error to report, and a digest of every file. *)
Record grid_server : Prop := {
  gs_insert : forall m ns d w, reads_insert m ns d -> exists w' h, cl_say cl m false w = (w', inr h) /\
    stored w' ns = stored w ns ++ [d] /\ forall ns', ns' <> ns -> stored w' ns' = stored w ns';
  gs_find : forall w q ns cq dq d, asks cq dq ->
    (forall objcheck fuel, BufferMaxSize * 3 + 50 <= Z.of_nat fuel -> reads_query objcheck fuel q ns dq None 1 0 0) ->
    d ∈ stored w ns -> matches cq d -> wf_doc d = true -> (forall d', d' ∈ stored w ns -> matches cq d' -> d' = d) ->
    exists m h flags w1 w2, cl_call cl q false w = (w1, inr (true, m, h)) /\ reply_msg m flags 0 [d] /\
      (forall p, exists r, cl_checkResponse cl p 1 w1 = (w2, inr r)) /\ same_docs w w2;
  gs_lasterror : forall o w, obj_rep o [(bstr "getlasterror", VInt 1)] -> exists info di w',
    cl_runCommand cl (bstr "admin") o 0 w = (w', inr (true, info)) /\ obj_rep info di /\ doc_true di (bstr "ok") = true /\
    (find_field di (bstr "err") = None \/ exists n, find_field di (bstr "err") = Some (n, VNull)) /\ same_docs w w';
  gs_filemd5 : forall o id w, obj_rep o [(bstr "filemd5", VOID id); (bstr "root", VString (_prefix g))] -> exists info di n md5 w',
    cl_runCommand cl (c_str (_dbName g)) o 0 w = (w', inr (true, info)) /\ obj_rep info di /\
    find_field di (bstr "md5") = Some (n, VString md5) /\ zlen md5 = 32 /\ same_docs w w'
}.

(** ** Storing *)

Fixpoint pieces (k : nat) (cs : Z) (data : list byte) : list (list byte) :=
  match k with O => [] | S k' => take (Z.to_nat cs) data :: pieces k' cs (drop (Z.to_nat cs) data) end.

Fixpoint chunk_docs (id : list byte) (i : Z) (ps : list (list byte)) : list doc :=
  match ps with [] => [] | x :: ps' => chunk_doc id i x :: chunk_docs id (i + 1) ps' end.

Lemma chunk_wf id i bs : zlen id = 12 -> 0 <= i < 2 ^ 31 -> zlen bs + 45 <= BSONObjMaxInternalSize ->
  wf_doc (chunk_doc id i bs) = true /\ zlen (enc_doc (chunk_doc id i bs)) = zlen bs + 45.
Proof.
  intros Hid Hi Hz. assert (zlen (enc_doc (chunk_doc id i bs)) = zlen bs + 45) as Hl.
  { rewrite zlen_enc_doc. unfold chunk_doc. rewrite !zlen_enc_elems_cons, !zlen_enc_elem. cbn [enc_value].
    rewrite Hid, zlen_app, zlen_cons, !zlen_le_bytes. change (zlen (enc_elems [])) with 0.
    change (zlen (bstr "files_id")) with 8. change (zlen (bstr "n")) with 1. change (zlen (bstr "data")) with 4. lia. }
  split; [|done]. unfold wf_doc. rewrite Hl. rewrite (proj2 (Z.leb_le _ _)) by lia. rewrite andb_true_r. cbn [chunk_doc forallb wf_field fst snd wf_value].
  unfold wf_field. change (no_nul _) with true at 1. cbn [fst snd wf_value]. change (no_nul (bstr "n")) with true.
  change (no_nul (bstr "data")) with true. rewrite (proj2 (Z.eqb_eq (zlen id) 12)) by done.
  rewrite (proj2 (in_s_spec 32 i)) by (change (2 ^ (32 - 1)) with (2 ^ 31); lia).
  rewrite (proj2 (Z.ltb_lt (zlen bs) _)) by lia. done.
Qed.

Lemma next_chunk_len cs n : 0 < cs < 2 ^ 31 -> 0 < n < 2 ^ 31 -> next_chunk cs n = Z.min cs n.
Proof.
  intros Hc Hn. unfold next_chunk. rewrite (wrap_u_small 32 n) by lia.
  rewrite wrap_s_small; [|lia|]; change (2 ^ (32 - 1)) with (2 ^ 31); destruct (Z.ltb_spec cs n); lia.
Qed.

Record grid_ok : Prop := {
  go_chunks : no_nul (_chunksNS g) = true;
  go_files : no_nul (_filesNS g) = true;
  go_differ : _filesNS g <> _chunksNS g;
  go_short : zlen (_chunksNS g) < 2 ^ 20 /\ zlen (_filesNS g) < 2 ^ 20;
  go_prefix : zlen (_prefix g) < 2 ^ 20;
  go_size : 0 < _chunkSize g /\ _chunkSize g + 45 <= BSONObjMaxInternalSize
}.

Lemma lift_bind {A B} (x : A) (m : result A) (k : A -> WM W B) w : m = Ok x -> wbind (wlift m) k w = k x w.
Proof. by intros ->. Qed.
Lemma act_bind {A B} (x : A) (m : WM W A) (k : A -> WM W B) w w' : m w = (w', inr x) -> wbind m k w = k x w'.
Proof. unfold wbind. by intros ->. Qed.

Definition grows (ns : list byte) (ds : list doc) (w w' : W) : Prop :=
  stored w' ns = stored w ns ++ ds /\ forall ns', ns' <> ns -> stored w' ns' = stored w ns'.

Lemma grows_nil ns w : grows ns [] w w.
Proof. split; [by rewrite app_nil_r|done]. Qed.
Lemma grows_app ns a b w w1 w2 : grows ns a w w1 -> grows ns b w1 w2 -> grows ns (a ++ b) w w2.
Proof. intros [E1 H1] [E2 H2]. split; [by rewrite E2, E1, app_assoc|]. intros ns' Hn. by rewrite H2, H1. Qed.

Context (Hserver : grid_server) (Hg : grid_ok).

Lemma insert_grows ns o d w : no_nul ns = true -> obj_rep o d -> 5 + zlen ns + zlen (enc_doc d) <= BufferMaxSize ->
  exists w', client_insert cl ns o w = (w', inr tt) /\ grows ns [d] w w'.
Proof.
  intros Hn Ho Hz. destruct (client_insert_sends cl ns o d w Hn Ho Hz) as (m & Hm & E).
  destruct (gs_insert Hserver m ns d w Hm) as (w' & h & Es & Hst & Hot). exists w'. rewrite E, Es. by repeat split.
Qed.

Lemma insert_chunk_grows idObj id i p bs w : obj_rep idObj [(bstr "_id", VOID id)] -> zlen id = 12 -> 0 <= i < 2 ^ 31 ->
  p ↦ bs -> zlen bs <= _chunkSize g ->
  exists w', insert_chunk g cl idObj i p (zlen bs) w = (w', inr tt) /\ grows (_chunksNS g) [chunk_doc id i bs] w w'.
Proof.
  intros Ho Hid Hi Hp Hz. pose proof (go_size Hg) as [_ Hcs]. pose proof (go_short Hg) as [Hsh _].
  destruct (chunk_wf id i bs Hid Hi) as [Hw Hl]; [lia|].
  destruct (chunk_rep idObj id i p bs Ho Hp Hw) as (c & Ec & Hc). unfold insert_chunk. rewrite (lift_bind _ _ _ _ Ec).
  rewrite (c_str_no_nul _ (go_chunks Hg)). apply insert_grows; [apply Hg|done|]. rewrite Hl.
  change BufferMaxSize with (64 * 1024 * 1024). change BSONObjMaxInternalSize with (16 * 1024 * 1024 + 16 * 1024) in Hcs. lia.
Qed.

Lemma store_chunks_grows idObj id : obj_rep idObj [(bstr "_id", VOID id)] -> zlen id = 12 -> forall k fuel i p data w,
  p ↦ data -> (k < fuel)%nat -> 0 <= i -> i + Z.of_nat k < 2 ^ 31 -> zlen data < 2 ^ 31 ->
  (Z.of_nat k - 1) * _chunkSize g < zlen data <= Z.of_nat k * _chunkSize g ->
  exists w', store_chunks fuel g cl idObj i p (zlen data) w = (w', inr tt) /\
    grows (_chunksNS g) (chunk_docs id i (pieces k (_chunkSize g) data)) w w'.
Proof.
  intros Ho Hid. pose proof (go_size Hg) as [Hc0 Hcs]. change BSONObjMaxInternalSize with (16 * 1024 * 1024 + 16 * 1024) in Hcs.
  induction k as [|k IH]; intros fuel i p data w Hp Hf Hi Hik Hlen Hk; destruct fuel as [|fuel]; [lia| |lia|]; cbn [store_chunks].
  - pose proof (zlen_nonneg data). rewrite (proj2 (Z.ltb_ge 0 _)) by lia. exists w. split; [done|apply grows_nil].
  - rewrite (proj2 (Z.ltb_lt 0 _)) by nia. rewrite next_chunk_len by nia. cbv zeta.
    set (a := take (Z.to_nat (_chunkSize g)) data). set (b := drop (Z.to_nat (_chunkSize g)) data).
    assert (data = a ++ b) as Ed by (symmetry; apply take_drop).
    assert (zlen a = _chunkSize g `min` zlen data) as Ha by (unfold a, zlen; rewrite length_take; lia).
    assert (zlen b = zlen data - zlen a) as Hb by (rewrite Ed, zlen_app; lia).
    rewrite <- Ha. rewrite Ed in Hp.
    destruct (insert_chunk_grows idObj id i p a w Ho Hid) as (w1 & E1 & G1); [lia|by apply points_app_l in Hp|lia|].
    rewrite (act_bind _ _ _ _ _ E1). rewrite (proj2 (in_s_spec 32 (i + 1))) by (change (2 ^ (32 - 1)) with (2 ^ 31); lia).
    rewrite <- Hb. destruct (IH fuel (i + 1) (p +! zlen a) b w1) as (w2 & E2 & G2); [by apply (points_app_r _ a b)|lia..| |].
    { rewrite Hb, Ha. nia. }
    exists w2. split; [done|]. cbn [pieces chunk_docs]. by apply (grows_app _ [_] _ _ w1).
Qed.

Lemma last_error_fine info di : obj_rep info di -> doc_true di (bstr "ok") = true ->
  (find_field di (bstr "err") = None \/ exists n, find_field di (bstr "err") = Some (n, VNull)) -> last_error_empty info = Ok true.
Proof.
  intros Ho Hok Herr. unfold last_error_empty. rewrite (isOk_rep _ _ Ho), Hok. cbn [bind].
  destruct (getField_rep info di (bstr "err") Ho) as (e & -> & He). cbn [bind].
  destruct Herr as [Hn|[n Hn]]; rewrite Hn in He.
  - by rewrite He.
  - destruct He as [He _]. rewrite (eoo_rep_false _ _ _ He). cbn [bind]. unfold str. rewrite (type_rep _ _ _ He). done.
Qed.

Definition file_fits (name id : list byte) (n : Z) (contentType : list byte) (now : Z) : Prop :=
  zlen name <= 2 ^ 20 /\ zlen id = 12 /\ 0 <= n < 2 ^ 31 /\ zlen contentType <= 2 ^ 20 /\ 0 <= now < 2 ^ 64.

Lemma file_wf name id n contentType now md5 : file_fits name id n contentType now -> zlen md5 = 32 ->
  wf_doc (file_doc g name id n contentType now (VString md5)) = true /\
  zlen (enc_doc (file_doc g name id n contentType now (VString md5))) <= 2 ^ 22.
Proof.
  intros (Hn & Hid & Hl & Ht & Hnow) Hm. pose proof (go_size Hg) as [Hc0 Hcs]. unfold file_doc.
  change BSONObjMaxInternalSize with 16793600 in Hcs. pose proof (zlen_nonneg name). pose proof (zlen_nonneg contentType).
  assert (zlen (enc_value (length_value n)) <= 8 /\ wf_value (length_value n) = true) as [Hlv Hlw].
  { unfold length_value. destruct (n <? 2 ^ 30); cbn [enc_value wf_value]; rewrite zlen_le_bytes; (split; [lia|]); apply in_s_spec.
    - change (2 ^ (32 - 1)) with (2 ^ 31). lia.
    - change (2 ^ (64 - 1)) with (2 ^ 63). lia. }
  set (tl := if bool_decide (contentType = []) then [] else _).
  assert (zlen (enc_elems tl) <= 2 ^ 20 + 20 /\ forallb wf_field tl = true) as [Htl Htw].
  { unfold tl. destruct (bool_decide_reflect (contentType = [])); [split; [change (zlen (enc_elems [])) with 0; lia|done]|].
    rewrite zlen_enc_elems_cons, zlen_enc_elem. cbn [enc_value]. rewrite zlen_enc_string. change (zlen (enc_elems [])) with 0.
    change (zlen (bstr "contentType")) with 11. split; [lia|]. cbn [forallb]. unfold wf_field. cbn [fst snd wf_value].
    change (no_nul (bstr "contentType")) with true. change BSONObjMaxInternalSize with 16793600.
    by rewrite (proj2 (Z.ltb_lt _ _)) by lia. }
  set (d := _ ++ tl). assert (zlen (enc_doc d) <= 2 ^ 22) as Hz.
  { unfold d. rewrite zlen_enc_doc. cbn [app]. rewrite !zlen_enc_elems_cons, !zlen_enc_elem. cbn [enc_value].
    rewrite !zlen_enc_string, Hm, Hid, !zlen_le_bytes. change (zlen (bstr "_id")) with 3. change (zlen (bstr "filename")) with 8.
    change (zlen (bstr "chunkSize")) with 9. change (zlen (bstr "uploadDate")) with 10. change (zlen (bstr "md5")) with 3.
    change (zlen (bstr "length")) with 6. lia. }
  split; [|done]. unfold wf_doc. change BSONObjMaxInternalSize with 16793600. rewrite (proj2 (Z.leb_le (zlen (enc_doc d)) _)) by lia.
  rewrite andb_true_r. unfold d. rewrite forallb_app, Htw, andb_true_r. cbn [forallb]. unfold wf_field. cbn [fst snd wf_value].
  rewrite Hlw, Hid, Hm, (proj2 (in_s_spec 32 (_chunkSize g))), (proj2 (in_u_spec 64 now));
    [|lia|change (2 ^ (32 - 1)) with (2 ^ 31); lia].
  change BSONObjMaxInternalSize with 16793600. by rewrite (proj2 (Z.ltb_lt (zlen name + 1) _)) by lia.
Qed.

Lemma same_grows ns ds w w1 w2 : same_docs w w1 -> grows ns ds w1 w2 -> grows ns ds w w2.
Proof. intros Hs [E Ho]. split; [by rewrite E, Hs|]. intros ns' Hn. by rewrite Ho, Hs. Qed.

Lemma last_error_object : exists o, getlasterror_obj false false 0 0 = Ok o /\ obj_rep o [(bstr "getlasterror", VInt 1)].
Proof.
  apply (object_rep (fun b => then_ (append_int (bstr "getlasterror") 1) (then_ Ok (then_ Ok (then_ Ok Ok))) b) _); [|done|rewrite obj_max_val; lia].
  apply (does_seq _ _ [_] []); [apply does_append, append_int_rep|]. repeat (apply (does_seq _ _ [] []); [apply does_nothing|]). apply does_nothing.
Qed.

Lemma md5_command id : zlen id = 12 -> exists o,
  BSON (then_ (append_OID (bstr "filemd5") id) (append_string (bstr "root") (_prefix g))) = Ok o /\
  obj_rep o [(bstr "filemd5", VOID id); (bstr "root", VString (_prefix g))].
Proof.
  intros Hid. pose proof (go_prefix Hg) as Hp. apply BSON_rep.
  - apply (does_seq _ _ [_]); [by apply does_append, append_OID_rep|]. apply does_append, append_string_rep.
  - unfold wf_doc. rewrite zlen_enc_doc, !zlen_enc_elems_cons, !zlen_enc_elem. cbn [forallb]. unfold wf_field.
    cbn [fst snd wf_value enc_value]. rewrite zlen_enc_string, Hid. change BSONObjMaxInternalSize with 16793600.
    change (zlen (enc_elems [])) with 0. change (zlen (bstr "filemd5")) with 7. change (zlen (bstr "root")) with 4.
    rewrite (proj2 (Z.ltb_lt _ _)), (proj2 (Z.leb_le _ _)) by lia. done.
Qed.

Lemma insertFile_grows name id n contentType now w : file_fits name id n contentType now -> exists w' o md5,
  insertFile g cl name id n contentType now w = (w', inr o) /\ zlen md5 = 32 /\
  obj_rep o (file_doc g name id n contentType now (VString md5)) /\
  grows (_filesNS g) [file_doc g name id n contentType now (VString md5)] w w'.
Proof.
  intros Hf. pose proof Hf as (_ & Hid & Hn & _). destruct last_error_object as (oe & Eoe & Hoe).
  destruct (gs_lasterror Hserver oe w Hoe) as (ie & de & w1 & Ee & Hie & Hok & Herr & S1).
  destruct (md5_command id Hid) as (om & Eom & Hom).
  destruct (gs_filemd5 Hserver om id w1 Hom) as (im & dm & nm & md5 & w2 & Em & Him & Hmd & Hlm & S2).
  destruct (file_wf name id n contentType now md5 Hf Hlm) as [Hw Hz].
  destruct (getField_rep im dm (bstr "md5") Him) as (e & Ege & He). rewrite Hmd in He. destruct He as [He _].
  destruct (object_with e (fun e => file_object g name id n contentType now e) _
    (file_object_rep g name id n contentType now e _ _ He Hid ltac:(lia) ltac:(pose proof (go_size Hg) as [? Hcs];
      change BSONObjMaxInternalSize with 16793600 in Hcs; lia)) Hw) as (o & b & Eb & Eo & Ho).
  destruct (insert_grows (_filesNS g) o _ w2 (go_files Hg) Ho) as (w3 & Ei & G).
  { pose proof (go_short Hg) as [_ ?]. change BufferMaxSize with 67108864. lia. }
  exists w3, o, md5. split; [|split; [done|split; [done|exact (same_grows _ _ _ _ _ S1 (same_grows _ _ _ _ _ S2 G))]]].
  unfold insertFile. rewrite (act_bind ie _ _ w w1).
  2:{ unfold getLastErrorDetailed. rewrite (lift_bind _ _ _ _ Eoe). unfold runCommand. by rewrite (act_bind _ _ _ _ _ Ee). }
  rewrite (lift_bind _ _ _ _ (last_error_fine ie de Hie Hok Herr)), (lift_bind tt _ _ _ eq_refl), (lift_bind _ _ _ _ Eom).
  unfold runCommand. rewrite (act_bind _ _ _ _ _ Em). cbn [negb]. rewrite (lift_bind o).
  2:{ rewrite Ege. cbn [bind]. rewrite Eb. cbn [bind]. exact Eo. }
  rewrite (c_str_no_nul _ (go_files Hg)). by rewrite (act_bind _ _ _ _ _ Ei).
Qed.

(** *** Reading *)

Lemma ask_one ns oq cq dq d w : no_nul ns = true -> zlen ns < 2 ^ 20 -> obj_rep oq dq -> asks cq dq ->
  zlen (enc_doc dq) <= 2 ^ 22 -> d ∈ stored w ns -> matches cq d -> wf_doc d = true ->
  (forall d', d' ∈ stored w ns -> matches cq d' -> d' = d) -> no_error d ->
  exists w' o, findOne (query_ cl) ns oq None 0 w = (w', inr o) /\ same_docs w w' /\ obj_rep o d.
Proof.
  intros Hn Hl Ho Ha Hz Hin Hm Hw Hu He. apply (findOne_answer cl ns oq dq 0 w [d] (same_docs w)).
  - split; cbn [query_purpose p_ns p_options p_batchSize]; try done. change BufferMaxSize with 67108864. lia.
  - done.
  - change BufferMaxSize with 67108864. lia.
  - intros q Hq. destruct (gs_find Hserver w q ns cq dq d Ha Hq Hin Hm Hw Hu) as (m & h & flags & w1 & w2 & E & Hr & Hc & Hs).
    by exists m, h, flags, w1, w2.
  - by constructor.
  - done.
Qed.

Lemma name_query name : zlen name <= 2 ^ 20 -> exists o,
  BSON (append_string (bstr "filename") name) = Ok o /\ obj_rep o [(bstr "filename", VString name)] /\
  zlen (enc_doc [(bstr "filename", VString name)]) = zlen name + 20.
Proof.
  intros Hl. assert (zlen (enc_doc [(bstr "filename", VString name)]) = zlen name + 20) as Hz.
  { rewrite zlen_enc_doc, !zlen_enc_elems_cons, !zlen_enc_elem. cbn [enc_value]. rewrite zlen_enc_string.
    change (zlen (enc_elems [])) with 0. change (zlen (bstr "filename")) with 8. lia. }
  destruct (BSON_rep (append_string (bstr "filename") name) [(bstr "filename", VString name)]) as (o & Eo & Ho).
  - apply does_append, append_string_rep.
  - unfold wf_doc. rewrite Hz. cbn [forallb]. unfold wf_field. cbn [fst snd wf_value]. change BSONObjMaxInternalSize with 16793600.
    rewrite (proj2 (Z.ltb_lt _ _)), (proj2 (Z.leb_le _ _)) by lia. done.
  - by exists o.
Qed.

Lemma file_object_reads f name id n contentType now md5 :
  obj_rep f (file_doc g name id n contentType now md5) -> 0 <= n < 2 ^ 31 ->
  _exists f = Ok tt /\ getContentLength f = Ok n /\ file_chunkSize f = Ok (_chunkSize g) /\
  exists e m, getField f (bstr "_id") = Ok e /\ elem_ok e m (VOID id).
Proof.
  intros Ho Hn. pose proof (go_size Hg) as [Hc0 Hcs]. change BSONObjMaxInternalSize with 16793600 in Hcs. split; [|split; [|split]].
  - unfold _exists, file_exists. by rewrite (isEmpty_rep _ _ Ho).
  - destruct (getField_rep f _ (bstr "length") Ho) as (e & Ee & [He _]).
    change (find_field _ _) with (Some (bstr "length", length_value n)) in He. cbn iota in He.
    unfold getContentLength. rewrite Ee. cbn [bind]. assert (number e = Ok (d_of_Z n)) as ->.
    { unfold number, numberDouble. rewrite (type_rep _ _ _ He). unfold length_value in He |- *. destruct (n <? 2 ^ 30); cbn [bind vtype].
      - by rewrite (numberInt_rep _ _ _ He).
      - by rewrite (numberLong_rep _ _ _ He). }
    cbn [bind]. unfold d_cast_u64. rewrite d_trunc_of_Z by lia. by rewrite (proj2 (in_u_spec 64 n)) by lia.
  - destruct (getField_rep f _ (bstr "chunkSize") Ho) as (e & Ee & [He _]).
    change (find_field _ _) with (Some (bstr "chunkSize", VInt (_chunkSize g))) in He. cbn iota in He.
    unfold file_chunkSize. rewrite Ee. cbn [bind]. unfold number, numberDouble. rewrite (type_rep _ _ _ He). cbn [bind vtype].
    rewrite (numberInt_rep _ _ _ He). cbn [bind]. unfold d_cast. rewrite d_trunc_of_Z by lia.
    by rewrite (proj2 (in_s_spec 32 _)) by (change (2 ^ (32 - 1)) with (2 ^ 31); lia).
  - destruct (getField_rep f _ (bstr "_id") Ho) as (e & Ee & [He _]). exists e, (bstr "_id"). by split.
Qed.

Lemma findFile_found name d w : zlen name <= 2 ^ 20 -> d ∈ stored w (_filesNS g) -> matches [(bstr "filename", VString name)] d ->
  wf_doc d = true -> (forall d', d' ∈ stored w (_filesNS g) -> matches [(bstr "filename", VString name)] d' -> d' = d) -> no_error d ->
  exists w' o, findFile (query_ cl) g name w = (w', inr o) /\ same_docs w w' /\ obj_rep o d.
Proof.
  intros Hl Hin Hm Hw Hu He. destruct (name_query name Hl) as (q & Eq & Hq & Hz).
  set (od := [(bstr "uploadDate", VInt (-1))]). set (cq := [(bstr "filename", VString name)]) in *.
  destruct (BSON_rep (append_int (bstr "uploadDate") (-1)) od) as (oo & Eoo & Hoo); [apply does_append, append_int_rep|done|].
  set (dq := [(bstr "query", VObject cq); (bstr "orderby", VObject od)]).
  assert (zlen (enc_doc dq) <= 2 ^ 22) as Hzq.
  { unfold dq. rewrite zlen_enc_doc, !zlen_enc_elems_cons, !zlen_enc_elem, !enc_value_object, Hz.
    change (zlen (enc_doc od)) with 21. change (zlen (enc_elems [])) with 0. change (zlen (bstr "query")) with 5.
    change (zlen (bstr "orderby")) with 7. lia. }
  destruct (BSON_rep (then_ (append_obj (bstr "query") q) (append_obj (bstr "orderby") oo)) dq) as (oq & Eoq & Hoq).
  - apply (does_seq _ _ [_]); apply does_append, append_obj_rep; done.
  - unfold wf_doc. rewrite (proj2 (Z.leb_le _ _)) by (change BSONObjMaxInternalSize with 16793600; lia).
    unfold dq. cbn [forallb]. unfold wf_field. cbn [fst snd]. rewrite !wf_value_object. change (wf_doc od) with true.
    destruct Hq as [_ Hwq]. by rewrite Hwq.
  - unfold findFile, findFile_query. rewrite (lift_bind _ _ _ _ Eq), (lift_bind _ _ _ _ Eoo), (lift_bind _ _ _ _ Eoq).
    rewrite (c_str_no_nul _ (go_files Hg)).
    apply (ask_one _ _ cq dq); [apply Hg|apply Hg|done|by right|done..].
Qed.

Definition chunk_key (id : list byte) (i : Z) : doc := [(bstr "files_id", VOID id); (bstr "n", VInt i)].

Lemma chunk_asks id i : asks (chunk_key id i) (chunk_key id i).
Proof. left. split; [done|discriminate]. Qed.

Lemma chunk_query_rep f e m id i : getField f (bstr "_id") = Ok e -> elem_ok e m (VOID id) -> zlen id = 12 -> 0 <= i < 2 ^ 31 ->
  exists o, chunk_query f i = Ok o /\ obj_rep o (chunk_key id i) /\ zlen (enc_doc (chunk_key id i)) <= 2 ^ 22.
Proof.
  intros Ee He Hid Hi. assert (zlen (enc_doc (chunk_key id i)) = 34) as Hz.
  { rewrite zlen_enc_doc. unfold chunk_key. rewrite !zlen_enc_elems_cons, !zlen_enc_elem. cbn [enc_value].
    rewrite Hid, zlen_le_bytes. reflexivity. }
  destruct (object_with e (fun e => then_ (appendAs e (bstr "files_id")) (append_int (bstr "n") i)) (chunk_key id i)) as (o & b & Eb & Eo & Ho).
  - apply (does_seq _ _ [_]); [apply does_append; exact (appendAs_rep _ _ _ _ He)|]. apply does_append, append_int_rep.
  - unfold wf_doc. rewrite Hz. unfold chunk_key. cbn [forallb]. unfold wf_field. cbn [fst snd wf_value]. rewrite Hid.
    by rewrite (proj2 (in_s_spec 32 i)) by (change (2 ^ (32 - 1)) with (2 ^ 31); lia).
  - exists o. split; [|by rewrite Hz]. unfold chunk_query. rewrite Ee. cbn [bind]. rewrite Eb. cbn [bind]. rewrite <- Eo. unfold then_.
    by rewrite bind_assoc.
Qed.

Lemma getChunk_found f e m id i bs w : _exists f = Ok tt -> getField f (bstr "_id") = Ok e -> elem_ok e m (VOID id) -> zlen id = 12 ->
  0 <= i < 2 ^ 31 -> zlen bs <= _chunkSize g -> chunk_doc id i bs ∈ stored w (_chunksNS g) ->
  (forall d', d' ∈ stored w (_chunksNS g) -> matches (chunk_key id i) d' -> d' = chunk_doc id i bs) ->
  exists w' c p, getChunk (query_ cl) g f i w = (w', inr c) /\ same_docs w w' /\ chunk_data c = Ok (p, zlen bs) /\ p ↦ bs.
Proof.
  intros Hx Ee He Hid Hi Hz Hin Hu. pose proof (go_size Hg) as [_ Hcs]. destruct (chunk_query_rep f e m id i Ee He Hid Hi) as (q & Eq & Hq & Hzq).
  destruct (chunk_wf id i bs Hid Hi) as [Hw _]; [lia|].
  destruct (ask_one (_chunksNS g) q _ _ (chunk_doc id i bs) w (go_chunks Hg) (proj1 (go_short Hg)) Hq (chunk_asks id i) Hzq Hin)
    as (w' & c & Ef & Hs & Hc); [by repeat constructor|done|done|done|].
  destruct (chunk_data_rep c id i bs Hc) as (p & Ep & Hp). exists w', c, p. split; [|done].
  unfold getChunk. rewrite (lift_bind _ _ _ _ Hx), (lift_bind _ _ _ _ Eq), (c_str_no_nul _ (go_chunks Hg)), (act_bind _ _ _ _ _ Ef).
  rewrite (lift_bind _ _ _ _ (isEmpty_rep _ _ Hc)). by rewrite (lift_bind tt _ _ _ eq_refl).
Qed.

(** The chunks of the file in the collection are those of the pieces. *)
Definition holds_chunks (w : W) (id : list byte) (ps : list (list byte)) : Prop :=
  forall j x, ps !! j = Some x -> chunk_doc id (Z.of_nat j) x ∈ stored w (_chunksNS g) /\
    forall d', d' ∈ stored w (_chunksNS g) -> matches (chunk_key id (Z.of_nat j)) d' -> d' = chunk_doc id (Z.of_nat j) x.

Lemma write_chunks_spec f e m id ps : _exists f = Ok tt -> getField f (bstr "_id") = Ok e -> elem_ok e m (VOID id) -> zlen id = 12 ->
  zlen ps < 2 ^ 31 -> Forall (fun x => zlen x <= _chunkSize g) ps -> forall k j w out, (j + k = length ps)%nat -> holds_chunks w id ps ->
  exists w', write_chunks (query_ cl) k g f (Z.of_nat j) out w = (w', inr (out ++ concat (drop j ps))) /\ same_docs w w'.
Proof.
  intros Hx Ee He Hid Hps Hall. unfold zlen in Hps. induction k as [|k IH]; intros j w out Hjk Hh; cbn [write_chunks].
  - rewrite drop_ge by lia. exists w. by rewrite app_nil_r.
  - destruct (lookup_lt_is_Some_2 ps j) as [x Hj]; [lia|]. destruct (Hh j x Hj) as [Hin Hu].
    destruct (getChunk_found f e m id (Z.of_nat j) x w Hx Ee He Hid ltac:(lia)) as (w1 & c & p & Eg & Hs & Ec & Hp);
      [exact (Forall_lookup_1 _ _ _ _ Hall Hj)|done|done|].
    rewrite (act_bind _ _ _ _ _ Eg). rewrite (lift_bind x) by (rewrite Ec; cbn [bind]; by apply points_loads_all).
    replace (Z.of_nat j + 1) with (Z.of_nat (S j)) by lia.
    destruct (IH (S j) w1 (out ++ x)) as (w2 & E & Hs2); [lia| |].
    { intros j' x' Hj'. rewrite !Hs. by apply Hh. }
    exists w2. rewrite E, <- app_assoc, (drop_S _ _ _ Hj). split; [done|]. intros ns. by rewrite Hs2, Hs.
Qed.

(** *** Pieces *)

Lemma pieces_length k cs data : length (pieces k cs data) = k.
Proof. revert data. induction k as [|k IH]; intros data; cbn; [done|]. by rewrite IH. Qed.

Lemma pieces_short k cs data : 0 <= cs -> Forall (fun x => zlen x <= cs) (pieces k cs data).
Proof.
  intros Hc. revert data. induction k as [|k IH]; intros data; constructor; [|apply IH]. unfold zlen. rewrite length_take. lia.
Qed.

Lemma pieces_concat k cs data : 0 <= cs -> zlen data <= Z.of_nat k * cs -> concat (pieces k cs data) = data.
Proof.
  intros Hc. revert data. induction k as [|k IH]; intros data Hl; cbn.
  - destruct data; [done|]. rewrite zlen_cons in Hl. pose proof (zlen_nonneg data). lia.
  - rewrite IH; [apply take_drop|]. unfold zlen in *. rewrite length_drop. nia.
Qed.

Lemma chunk_docs_elem id ps d : forall i, d ∈ chunk_docs id i ps <-> exists j x, ps !! j = Some x /\ d = chunk_doc id (i + Z.of_nat j) x.
Proof.
  induction ps as [|y ps IH]; intros i; cbn [chunk_docs].
  - rewrite elem_of_nil. split; [done|]. intros (j & x & H1 & _). done.
  - rewrite elem_of_cons, IH. split.
    + intros [->|(j & x & Hj & ->)]; [exists 0%nat, y; by rewrite Z.add_0_r|]. exists (S j), x. split; [done|]. replace (i + Z.of_nat (S j)) with (i + 1 + Z.of_nat j) by lia. done.
    + intros ([|j] & x & Hj & ->); [left; injection Hj as ->; by rewrite Z.add_0_r|]. right. exists j, x. split; [done|].
      replace (i + Z.of_nat (S j)) with (i + 1 + Z.of_nat j) by lia. done.
Qed.

Lemma chunks_held id ps old w : stored w (_chunksNS g) = old ++ chunk_docs id 0 ps ->
  (forall d, d ∈ old -> ~ matches [(bstr "files_id", VOID id)] d) -> holds_chunks w id ps.
Proof.
  intros Es Hfresh j x Hj. rewrite Es. split; [apply elem_of_app; right; apply chunk_docs_elem; by exists j, x|].
  intros d [Hd|Hd]%elem_of_app Hm.
  - destruct (Hfresh d Hd). inversion Hm; subst. by repeat constructor.
  - apply chunk_docs_elem in Hd as (j' & x' & Hj' & ->). inversion Hm as [|? ? _ Hm2]; subst. inversion Hm2 as [|? ? Hn _]; subst.
    cbn in Hn. injection Hn as Hn. assert (j' = j) as -> by lia. congruence.
Qed.

Lemma storeFile_grows fuel k p data name id contentType now w : p ↦ data -> file_fits name id (zlen data) contentType now ->
  (k < fuel)%nat -> Z.of_nat k < 2 ^ 31 -> (Z.of_nat k - 1) * _chunkSize g < zlen data <= Z.of_nat k * _chunkSize g ->
  exists w1 w2 o md5, storeFile fuel g cl p (zlen data) name contentType id now w = (w2, inr o) /\ zlen md5 = 32 /\
    grows (_chunksNS g) (chunk_docs id 0 (pieces k (_chunkSize g) data)) w w1 /\
    grows (_filesNS g) [file_doc g name id (zlen data) contentType now (VString md5)] w1 w2.
Proof.
  intros Hp Hf Hk Hk31 Hn. pose proof Hf as (_ & Hid & Hl & _).
  destruct (BSON_rep (append_OID (bstr "_id") id) [(bstr "_id", VOID id)]) as (oi & Eoi & Hoi).
  { by apply does_append, append_OID_rep. }
  { unfold wf_doc. rewrite zlen_enc_doc, !zlen_enc_elems_cons, !zlen_enc_elem. cbn [forallb]. unfold wf_field.
    cbn [fst snd wf_value enc_value]. by rewrite Hid. }
  destruct (store_chunks_grows oi id Hoi Hid k fuel 0 p data w Hp Hk ltac:(lia) ltac:(lia) ltac:(lia) Hn) as (w1 & E1 & G1).
  destruct (insertFile_grows name id (zlen data) contentType now w1 Hf) as (w2 & o & md5 & E2 & Hm & _ & G2).
  exists w1, w2, o, md5. split; [|done]. unfold storeFile. by rewrite (lift_bind _ _ _ _ Eoi), (act_bind _ _ _ _ _ E1).
Qed.
End Server.

Lemma chunk_count g (data : list byte) : grid_ok g -> zlen data < 2 ^ 31 -> exists k, num_chunks (zlen data) (_chunkSize g) = Ok (Z.of_nat k) /\
  (Z.of_nat k - 1) * _chunkSize g < zlen data <= Z.of_nat k * _chunkSize g /\ Z.of_nat k < 2 ^ 31 /\
  Z.of_nat k <= zlen data / _chunkSize g + 1.
Proof.
  intros Hg Hl. pose proof (go_size _ Hg) as [Hc Hc2]. change BSONObjMaxInternalSize with 16793600 in Hc2. pose proof (zlen_nonneg data).
  set (n := zlen data) in *. set (c := _chunkSize g) in *. pose proof (Z.div_mod (n + c - 1) c ltac:(lia)) as Hd.
  pose proof (Z.mod_pos_bound (n + c - 1) c Hc) as Hr. set (q := (n + c - 1) / c) in *.
  assert (0 <= q) by (apply Z.div_pos; lia). assert (q < n + 1) by nia.
  exists (Z.to_nat q). rewrite Z2Nat.id by done. split; [apply num_chunks_exact; lia|]. split; [lia|]. split; [lia|].
  replace (n / c + 1) with ((n + 1 * c) / c) by (rewrite Z.div_add; lia). apply Z.div_le_mono; lia.
Qed.

(** C21: A file that was stored is found by its name, and what is written of it is
    what was stored, with its length: against a server that keeps what is
    inserted and finds it, for a name and an identifier that are new. *)
Theorem stored_file_read_back {W conn : Type} `{Clients W conn} (cl : conn) g stored fuel p data name id contentType now (w : W) :
  grid_server cl g stored -> grid_ok g -> p ↦ data -> file_fits name id (zlen data) contentType now ->
  zlen data / _chunkSize g + 1 < Z.of_nat fuel ->
  (forall d, d ∈ stored w (_chunksNS g) -> ~ matches [(bstr "files_id", VOID id)] d) ->
  (forall d, d ∈ stored w (_filesNS g) -> ~ matches [(bstr "filename", VString name)] d) ->
  exists w1 o w2 f w3, storeFile fuel g cl p (zlen data) name contentType id now w = (w1, inr o) /\
    findFile (query_ cl) g name w1 = (w2, inr f) /\ write (query_ cl) g f w2 = (w3, inr (data, zlen data)).
Proof.
  intros Hs Hg Hp Hf Hfuel Hc Hn. pose proof Hf as (Hname & Hid & Hl & _).
  destruct (chunk_count g data Hg ltac:(lia)) as (k & Hnum & Hk & Hk31 & Hkf).
  destruct (storeFile_grows cl g stored Hs Hg fuel k p data name id contentType now w Hp Hf ltac:(lia) Hk31 Hk)
    as (w1 & w2 & o & md5 & Est & Hmd & [G1 O1] & [G2 O2]).
  set (fd := file_doc g name id (zlen data) contentType now (VString md5)) in *.
  destruct (file_wf g Hg name id (zlen data) contentType now md5 Hf Hmd) as [Hw _].
  destruct (findFile_found cl g stored Hs Hg name fd w2 Hname) as (w3 & f & Eff & S3 & Hfo).
  { rewrite G2. apply elem_of_app. right. by apply list_elem_of_singleton. }
  { by repeat constructor. }
  { done. }
  { intros d. rewrite G2, (O1 _ (go_differ _ Hg)). intros [Hd|Hd%list_elem_of_singleton]%elem_of_app Hm; [by destruct (Hn d Hd)|done]. }
  { discriminate. }
  destruct (file_object_reads g Hg f name id (zlen data) contentType now _ Hfo Hl) as (Hx & Hlen & Hcs & e & m & Ee & He).
  destruct (write_chunks_spec cl g stored Hs Hg f e m id (pieces k (_chunkSize g) data) Hx Ee He Hid) with (k := k) (j := 0%nat) (w := w3) (out := @nil byte)
    as (w4 & Ew & _).
  { unfold zlen. by rewrite pieces_length. }
  { apply pieces_short. pose proof (go_size _ Hg). lia. }
  { by rewrite pieces_length. }
  { apply (chunks_held _ _ _ _ (stored w (_chunksNS g))); [|done]. rewrite S3, (O2 _ (not_eq_sym (go_differ _ Hg))). exact G1. }
  exists w2, o, w3, f, w4. split; [done|]. split; [done|]. unfold write. rewrite (lift_bind _ _ _ _ Hx).
  rewrite (lift_bind (Z.of_nat k)) by (unfold getNumChunks; rewrite Hlen; cbn [bind]; rewrite Hcs; exact Hnum).
  rewrite Nat2Z.id. rewrite (act_bind _ _ _ _ _ Ew), (lift_bind _ _ _ _ Hlen). rewrite drop_0, app_nil_l.
  rewrite pieces_concat; [done| |lia]. pose proof (go_size _ Hg). lia.
Qed.

(** ** A server *)

(** The documents of the collections, in the order they came. *)
Abbreviation store := (list (list byte * doc)).

Definition collection (w : store) (ns : list byte) : list doc := map snd (filter (fun x => fst x = ns) w).

(** What a message says is read from its bytes. *)
Definition doc_of (o : BSONObj) : option doc := match rest o with Ok bs => decode bs | Err _ => None end.
Definition read_insert (m : Message) : option (list byte * doc) :=
  match (let* d := DbMessage_of m in
         let* ns := getns d in
         let* '(os, _) := read_objs 2 false (Z.to_nat (BufferMaxSize * 3 + 50)) d in
         Ok (ns, os)) with
  | Ok (ns, [o]) => (fun d => (ns, d)) <$> doc_of o
  | _ => None
  end.
Definition read_query (m : Message) : option (list byte * doc) :=
  match (let* d := DbMessage_of m in QueryMessage_of false (Z.to_nat (BufferMaxSize * 3 + 50)) d) with
  | Ok (q, _) => (fun d => (qm_ns q, d)) <$> doc_of (qm_query q)
  | _ => None
  end.

Definition condition (dq : doc) : doc :=
  if bool_decide (first_name dq = bstr "query") then match dq with (_, VObject cq) :: _ => cq | _ => dq end else dq.
Definition is_match (cq d : doc) : bool := forallb (fun f : field => bool_decide (find_field d (fst f) = Some f)) cq.

Definition store_say (m : Message) (w : store) : store :=
  match read_insert m with Some x => w ++ [x] | None => w end.
Definition store_call (q : Message) (w : store) : list doc :=
  match read_query q with
  | Some (ns, dq) => match find (is_match (condition dq)) (collection w ns) with Some d => [d] | None => [] end
  | None => []
  end.
Definition store_command (o : BSONObj) : doc :=
  match doc_of o with
  | Some d => if bool_decide (first_name d = bstr "filemd5") then [(bstr "md5", VString (repeat x30 32)); (bstr "ok", VInt 1)]
              else [(bstr "err", VNull); (bstr "ok", VInt 1)]
  | None => []
  end.

Definition store_server : Clients store unit := {|
  fresh_bytes := [];
  cl_call := fun _ q _ w => (w, inr (true, served (store_call q w) [], None));
  cl_say := fun _ m _ w => (store_say m w, inr None);
  cl_sayPiggyBack := fun _ _ w => (w, inr tt);
  cl_recv := fun _ w => (w, inr (false, Message_new));
  cl_checkResponse := fun _ _ _ w => (w, inr (false, []));
  cl_runCommand := fun _ _ o _ w => (w, inr (true, obj_of (store_command o)));
  cl_lazySupported := fun _ => false;
  cl_type := fun _ => MASTER;
  cl_toString := fun _ _ => bstr "server";
  cl_getServerAddress := fun _ _ => bstr "server";
  cl_availableOptions := fun _ w => (w, inr 0);
  cl_failed_shutdown := fun _ w => w;
  getScopedDbConnection := fun _ w => (w, inr tt);
  scoped_done := fun _ w => w;
  getLazyKillCursor := true;
  inShutdown := fun _ => false
|}.

Lemma doc_of_rep o d : obj_rep o d -> doc_of o = Some d.
Proof. intros [Hp Hw]. destruct (points_rest _ _ Hp) as (post & E). unfold doc_of. rewrite E. by apply decode_rest. Qed.

Lemma read_insert_rep m ns d : reads_insert m ns d -> read_insert m = Some (ns, d).
Proof.
  intros Hm. destruct (Hm false _ enough_fuel) as (dm & (_ & Ed & _ & En) & (os & d' & Er & Hos & _)).
  unfold read_insert. rewrite Ed. cbn [bind]. rewrite En. cbn [bind]. cbn [length] in Er. rewrite Er. cbn [bind].
  inversion Hos as [|o ? ? ? Ho Hnil]; subst. inversion Hnil; subst. by rewrite (doc_of_rep _ _ Ho).
Qed.

Lemma is_match_spec cq d : is_match cq d = true <-> matches cq d.
Proof.
  unfold is_match, matches. rewrite forallb_forall, List.Forall_forall. split; intros Hx f Hf.
  - apply (proj1 (bool_decide_eq_true _)), Hx, Hf.
  - apply (proj2 (bool_decide_eq_true _)), Hx, Hf.
Qed.

Lemma condition_asks cq dq : asks cq dq -> condition dq = cq.
Proof. unfold condition. intros [[-> Hn]| ->]; [by rewrite bool_decide_false|done]. Qed.

Lemma store_grid g : grid_server (H := store_server) tt g collection.
Proof.
  split.
  - intros m ns d w Hm. exists (w ++ [(ns, d)]), None. cbn [cl_say store_server]. unfold store_say. rewrite (read_insert_rep _ _ _ Hm).
    split; [done|]. unfold collection. rewrite !list.filter_app, map_app, filter_cons_True by done. split; [done|].
    intros ns' Hne. by rewrite list.filter_app, filter_cons_False, filter_nil, app_nil_r.
  - intros w q ns cq dq d Ha Hq Hin Hm Hw Hu. assert (store_call q w = [d]) as E.
    { destruct (Hq false _ enough_fuel) as (dm & qm & d' & _ & Ed & Eq & _ & En & _ & _ & _ & Ho & _).
      unfold store_call, read_query. rewrite Ed. cbn [bind]. rewrite Eq, (doc_of_rep _ _ Ho), En. cbn. rewrite (condition_asks _ _ Ha).
      destruct (find _ _) as [d1|] eqn:Ef.
      - apply find_some in Ef as [H1 H2%is_match_spec]. f_equal. apply Hu; [by apply list_elem_of_In|done].
      - pose proof (find_none _ _ Ef d ltac:(by apply list_elem_of_In)) as Hn. by rewrite (proj2 (is_match_spec _ _) Hm) in Hn. }
    exists (served [d] []), None, 0, w, w. cbn [cl_call store_server]. rewrite E. split; [done|].
    split; [apply served_reply; [reflexivity|reflexivity|by constructor]|]. split; [intros p; by exists (false, [])|done].
  - intros o w Ho. eexists _, _, w. cbn [cl_runCommand store_server]. unfold store_command. rewrite (doc_of_rep _ _ Ho).
    split; [done|]. split; [by apply obj_of_rep|]. split; [done|]. split; [right; by eexists|done].
  - intros o id w Ho. eexists _, _, _, _, w. cbn [cl_runCommand store_server]. unfold store_command. rewrite (doc_of_rep _ _ Ho).
    split; [done|]. split; [by apply obj_of_rep|]. split; [reflexivity|]. by split.
Qed.

Definition sample_grid : GridFS := grid_of (bstr "d") (bstr "fs") 4.

Lemma stored_file_read_back_witness : exists w1 o w2 f w3,
  storeFile (H := store_server) 5 sample_grid tt (Ptr (bstr "nine byte") 0) 9 (bstr "a") [] (repeat x00 12) 0 [] = (w1, inr o) /\
  findFile (H := store_server) (query_ (H := store_server) tt) sample_grid (bstr "a") w1 = (w2, inr f) /\
  write (H := store_server) (query_ (H := store_server) tt) sample_grid f w2 = (w3, inr (bstr "nine byte", 9)).
Proof.
  apply (stored_file_read_back (H := store_server) tt sample_grid collection 5 (Ptr (bstr "nine byte") 0) (bstr "nine byte") (bstr "a")
    (repeat x00 12) [] 0 []).
  - apply store_grid.
  - split; [reflexivity|reflexivity|discriminate|split; reflexivity|reflexivity|split; [reflexivity|discriminate]].
  - apply points_start.
  - repeat split; reflexivity || discriminate.
  - reflexivity.
  - intros d Hd. inversion Hd.
  - intros d Hd. inversion Hd.
Defined.

(** ** Where storing falls short *)

(** The bytes that are left are cast to [unsigned]: of 4 GiB and more, 4 GiB are
    always left, and the loop does not end. *)
Lemma huge_not_stored {W conn : Type} `{Clients W conn} fuel g (cl : conn) idObj : 0 <= _chunkSize g -> forall i p left_ (w : W),
  2 ^ 32 <= left_ -> match snd (store_chunks fuel g cl idObj i p left_ w) with inr _ => False | inl _ => True end.
Proof.
  intros Hc. induction fuel as [|fuel IH]; intros i p left_ w Hl; [done|]. cbn [store_chunks].
  rewrite (proj2 (Z.ltb_lt 0 left_)) by lia. cbv zeta. unfold wbind at 1.
  destruct (insert_chunk _ _ _ _ _ _ w) as [w' [e|[]]]; [done|]. destruct (in_s 32 (i + 1)); [|done]. apply IH.
  unfold next_chunk. pose proof (Z.mod_pos_bound left_ (2 ^ 32) ltac:(lia)) as Hm. pose proof (Z.div_mod left_ (2 ^ 32) ltac:(lia)).
  assert (1 <= left_ / 2 ^ 32) by (apply Z.div_le_lower_bound; lia). assert (u32 left_ = left_ mod 2 ^ 32) as E by done.
  set (x := if _chunkSize g <? u32 left_ then _chunkSize g else u32 left_). assert (0 <= x <= u32 left_) as Hx by (unfold x; destruct (Z.ltb_spec (_chunkSize g) (u32 left_)); lia).
  assert (s32 x <= x); [|lia]. destruct (Z.lt_ge_cases x (2 ^ 31)).
  - rewrite wrap_s_small by (change (2 ^ (32 - 1)) with (2 ^ 31); lia). lia.
  - pose proof (wrap_s_range 32 x ltac:(lia)) as Hr. change (2 ^ (32 - 1)) with (2 ^ 31) in Hr. lia.
Qed.

(** The end of a stream is seen by the read after the last byte: a file of one
    whole chunk is stored in two, and the second is empty. *)
Lemma whole_chunk_stored_twice {W conn : Type} `{Clients W conn} (cl : conn) g stored idObj id stream w :
  grid_server cl g stored -> grid_ok g -> obj_rep idObj [(bstr "_id", VOID id)] -> zlen id = 12 -> zlen stream = _chunkSize g ->
  exists w' : W, store_stream 3 g cl idObj 0 stream false 0 w = (w', inr (_chunkSize g)) /\
    grows stored (_chunksNS g) [chunk_doc id 0 stream; chunk_doc id 1 []] w w'.
Proof.
  intros Hs Hg Ho Hid Hz. pose proof (go_size _ Hg) as [Hc Hc2]. change BSONObjMaxInternalSize with 16793600 in Hc2.
  destruct (insert_chunk_grows cl g stored Hs Hg idObj id 0 (Ptr stream 0) stream w Ho Hid) as (w1 & E1 & G1); [lia|apply points_start|lia|].
  destruct (insert_chunk_grows cl g stored Hs Hg idObj id 1 (Ptr [] 0) (@nil byte) w1 Ho Hid) as (w2 & E2 & G2);
    [lia|apply points_start|change (zlen (@nil byte)) with 0; lia|].
  exists w2. split; [|exact (grows_app _ _ [_] [_] _ _ _ G1 G2)]. cbn [store_stream]. cbv zeta.
  rewrite (proj2 (Z.ltb_ge _ _)) by lia. rewrite take_ge, drop_ge by (unfold zlen in Hz; lia).
  rewrite (wrap_s_small 32) by (change (2 ^ (32 - 1)) with (2 ^ 31); lia). rewrite (act_bind _ _ _ _ _ E1). change (in_s 32 (0 + 1)) with true. cbv iota.
  change (zlen (@nil byte)) with 0. rewrite (proj2 (Z.ltb_lt _ _)) by lia. rewrite take_nil.
  change (s32 (zlen (@nil byte))) with (zlen (@nil byte)). change (0 + 1) with 1. rewrite (act_bind _ _ _ _ _ E2).
  change (in_s 32 (1 + 1)) with true. cbv iota. change (zlen (@nil byte)) with 0.
  rewrite Z.add_0_l, Z.add_0_r, !wrap_u_small by (rewrite ?wrap_u_small; lia). by rewrite Hz.
Qed.
