(* ===== verification/ConnPool.v ===== *)
(** * ConnPool: connections kept for later use (client/connpool.h,
    connpool.cpp)

    A pool keeps, for a server and a time-out, a stack of connections that were
    given back.  A connection is a pointer; the heap says which pointers are to
    an object that was not deleted, and use of another is undefined behaviour.
    What a connection does when it is opened or asked, and the clock, are outside
    and a class; a hook is a function on the connection it is given.  Every lock
    section is one function here; between them a caller works with a connection
    that only it holds.

    Here: the operations, and that the pools are ordered by a strict order; what
    callers can rely on is in ConnPoolSafe.v. *)

From stdpp Require Import base list numbers option tactics gmap.
From Stdlib Require Import Strings.Byte ZArith Lia Sorted.
From S2P Require Import Prelude Memory Double HostPort Cursor Commands.

Record Conn := MkPooled {
  isFailed : bool;
  getSockCreationMicroSec : Z;
  getSoTimeout : Z;
  ctype : ConnectionType
}.

Definition INVALID_SOCK_CREATION_TIME : Z := 0xFFFFFFFFFFFFFFFF.

(** [time(0)]; [ConnectionString::connect]; [isMaster]; [inShutdown]. *)
Class Outside (E : Type) := {
  time_ : E -> E * Z;
  connect_ : ConnectionString -> Z -> E -> E * (exn + option Conn);
  ping : Conn -> E -> E * (Conn * (exn + bool));
  inShutdown_ : E -> bool
}.

Record DBConnectionHook (E : Type) := MkHook {
  hook_onCreate : Conn -> E -> E * (Conn * (exn + unit));
  hook_onHandedOut : Conn -> E -> E * (Conn * (exn + unit));
  hook_onDestroy : Conn -> E -> E * (Conn * (exn + unit))
}.
Arguments hook_onCreate {E}.
Arguments hook_onHandedOut {E}.
Arguments hook_onDestroy {E}.

Record StoredConnection := MkStored { st_conn : Z; st_when : Z }.

(** The stack has its top first; [_type] is not set before a connection was
    created. *)
Record PoolForHost := MkPool {
  _hostName : list byte;
  _pool : list StoredConnection;
  _created : Z;
  _minValidCreationTimeMicroSec : Z;
  pool_type : option ConnectionType
}.

Definition PoolForHost_new : PoolForHost := MkPool [] [] 0 0 None.
Definition set_stack (l : list StoredConnection) (p : PoolForHost) : PoolForHost :=
  MkPool (_hostName p) l (_created p) (_minValidCreationTimeMicroSec p) (pool_type p).
Definition set_minValid (t : Z) (p : PoolForHost) : PoolForHost := MkPool (_hostName p) (_pool p) (_created p) t (pool_type p).

Record PoolKey := MkKey { ident : list byte; timeout : Z }.

(** ** The order of the pools *)

Fixpoint serverNameCompare (a b : list byte) : bool :=
  let ends (s : list byte) := match s with [] => true | c :: _ => bool_decide (c = x00) || bool_decide (c = "/"%byte) end in
  if ends a then negb (ends b)
  else if ends b then false
  else match a, b with
       | x :: a', y :: b' => if sc x <? sc y then true else if sc y <? sc x then false else serverNameCompare a' b'
       | _, _ => false
       end.

Definition poolKeyCompare (a b : PoolKey) : bool :=
  if serverNameCompare (ident a) (ident b) then true
  else if serverNameCompare (ident b) (ident a) then false
  else d_ltb (timeout a) (timeout b).

Abbreviation PoolMap := (list (PoolKey * PoolForHost)).

(** [_pools[key]]: where the pool is, with a new one when there is none. *)
Fixpoint pool_index (k : PoolKey) (m : PoolMap) : nat * PoolMap :=
  match m with
  | [] => (0%nat, [(k, PoolForHost_new)])
  | (k', p) :: m' =>
      if poolKeyCompare k' k then let '(i, m2) := pool_index k m' in (S i, (k', p) :: m2)
      else if poolKeyCompare k k' then (0%nat, (k, PoolForHost_new) :: m)
      else (0%nat, m)
  end.

(** ** The pool and the heap *)

Record pool_world (E : Type) := MkPoolWorld {
  heap : gmap Z Conn;
  _pools : PoolMap;
  _hooks : list (DBConnectionHook E);
  _maxPerHost : Z;
  numConnections : Z;
  outer : E
}.
Arguments MkPoolWorld {E}.
Arguments heap {E}.
Arguments _pools {E}.
Arguments _hooks {E}.
Arguments _maxPerHost {E}.
Arguments numConnections {E}.
Arguments outer {E}.

Section Pool.
Context {E : Type} `{Outside E}.
Abbreviation world := (pool_world E).
Abbreviation PM := (WM world).

Definition with_heap (h : gmap Z Conn) (w : world) : world :=
  MkPoolWorld h (_pools w) (_hooks w) (_maxPerHost w) (numConnections w) (outer w).
Definition with_pools (m : PoolMap) (w : world) : world :=
  MkPoolWorld (heap w) m (_hooks w) (_maxPerHost w) (numConnections w) (outer w).
Definition with_outer (e : E) (w : world) : world :=
  MkPoolWorld (heap w) (_pools w) (_hooks w) (_maxPerHost w) (numConnections w) e.

(** The object behind a pointer; [delete]. *)
Definition deref (c : Z) : PM Conn := fun w =>
  match heap w !! c with Some k => (w, inr k) | None => (w, inl (Failure UndefinedBehaviour)) end.
Definition delete_conn (c : Z) : PM unit := fun w =>
  match heap w !! c with
  | Some _ => (with_heap (base.delete c (heap w)) w, inr tt)
  | None => (w, inl (Failure UndefinedBehaviour))
  end.
(** A call on a connection, which may change it. *)
Definition on_conn {A} (f : Conn -> E -> E * (Conn * (exn + A))) (c : Z) : PM A := fun w =>
  match heap w !! c with
  | Some k => let '(e, (k', r)) := f k (outer w) in (with_outer e (with_heap (<[c := k']> (heap w)) w), r)
  | None => (w, inl (Failure UndefinedBehaviour))
  end.
Definition new_conn (k : Conn) : PM Z := fun w =>
  let c := fresh (dom (heap w)) in (with_heap (<[c := k]> (heap w)) w, inr c).
Definition time : PM Z := fun w => let '(e, t) := time_ (outer w) in (with_outer e w, inr t).

(** [catch]: what [h] does with the exception decides. *)
Definition pm_try {A} (m : PM A) (h : exn -> PM A) : PM A := fun w =>
  match m w with
  | (w', inl (Failure UndefinedBehaviour)) => (w', inl (Failure UndefinedBehaviour))
  | (w', inl e) => h e w'
  | r => r
  end.

Fixpoint run_hooks (f : DBConnectionHook E -> Conn -> E -> E * (Conn * (exn + unit))) (hs : list (DBConnectionHook E)) (c : Z) : PM unit :=
  match hs with
  | [] => wret tt
  | h :: hs' => act! _ := on_conn (f h) c in run_hooks f hs' c
  end.
Definition onCreate (c : Z) : PM unit := fun w => run_hooks hook_onCreate (_hooks w) c w.
Definition onHandedOut (c : Z) : PM unit := fun w => run_hooks hook_onHandedOut (_hooks w) c w.
Definition onDestroy (c : Z) : PM unit := fun w => run_hooks hook_onDestroy (_hooks w) c w.
Definition addHook (h : DBConnectionHook E) : PM unit := fun w =>
  (MkPoolWorld (heap w) (_pools w) (_hooks w ++ [h]) (_maxPerHost w) (numConnections w) (outer w), inr tt).
Definition setMaxPerHost (n : Z) : PM unit := fun w =>
  (MkPoolWorld (heap w) (_pools w) (_hooks w) n (numConnections w) (outer w), inr tt).

(** ** PoolForHost *)

(** A method of the pool [i] of the map; what it changes stays after an
    exception. *)
Definition get_pool (i : nat) : PM PoolForHost := fun w =>
  match _pools w !! i with Some (_, p) => (w, inr p) | None => (w, inl (Failure UndefinedBehaviour)) end.
Definition put_pool (i : nat) (f : PoolForHost -> PoolForHost) : PM unit := fun w =>
  (with_pools (alter (fun kp => (fst kp, f (snd kp))) i (_pools w)) w, inr tt).

(** [while ( ! _pool.empty() )], over the stack [l] of the pool. *)
Fixpoint clear_loop (i : nat) (l : list StoredConnection) : PM unit :=
  match l with
  | [] => wret tt
  | sc :: l' => act! _ := delete_conn (st_conn sc) in act! _ := put_pool i (set_stack l') in clear_loop i l'
  end.
Definition host_clear (i : nat) : PM unit := act! p := get_pool i in clear_loop i (_pool p).

Definition reportBadConnectionAt (i : nat) (microSec : Z) : PM unit :=
  act! p := get_pool i in
  if negb (microSec =? INVALID_SOCK_CREATION_TIME) && (_minValidCreationTimeMicroSec p <? microSec) then
    act! _ := put_pool i (set_minValid microSec) in
    host_clear i
  else wret tt.

Definition isBadSocketCreationTime (p : PoolForHost) (microSec : Z) : bool :=
  negb (microSec =? INVALID_SOCK_CREATION_TIME) && (microSec <=? _minValidCreationTimeMicroSec p).

(** [StoredConnection(c)]. *)
Definition push_conn (i : nat) (c : Z) : PM unit :=
  act! t := time in
  put_pool i (fun p => set_stack (MkStored c t :: _pool p) p).

Definition host_done (i : nat) (c : Z) : PM unit :=
  act! k := deref c in
  if isFailed k then
    act! _ := reportBadConnectionAt i (getSockCreationMicroSec k) in
    act! _ := onDestroy c in
    delete_conn c
  else
    act! p := get_pool i in
    fun w => (if (_maxPerHost w <=? Z.of_nat (length (_pool p))) || (getSockCreationMicroSec k <? _minValidCreationTimeMicroSec p) then
      act! _ := onDestroy c in delete_conn c
    else push_conn i c) w.

Definition st_ok (now : Z) (s : StoredConnection) : bool := now - st_when s <? 1800.

Fixpoint get_loop (i : nat) (now socketTimeout : Z) (l : list StoredConnection) : PM (option Z) :=
  match l with
  | [] => wret None
  | sc :: l' =>
      act! _ := put_pool i (set_stack l') in
      if negb (st_ok now sc) then
        act! _ := onDestroy (st_conn sc) in
        act! _ := delete_conn (st_conn sc) in
        get_loop i now socketTimeout l'
      else
        act! k := deref (st_conn sc) in
        act! _ := wlift (verify (d_eqb (getSoTimeout k) socketTimeout)) in
        wret (Some (st_conn sc))
  end.
Definition host_get (i : nat) (socketTimeout : Z) : PM (option Z) :=
  act! now := time in
  act! p := get_pool i in
  get_loop i now socketTimeout (_pool p).

(** Those that answer are pushed again in the order they came off. *)
Fixpoint flush_loop (i : nat) (l all : list StoredConnection) : PM (list StoredConnection) :=
  match l with
  | [] => wret all
  | sc :: l' =>
      act! _ := put_pool i (set_stack l') in
      act! alive := pm_try (act! _ := on_conn ping (st_conn sc) in wret true)
                      (fun _ => act! _ := delete_conn (st_conn sc) in wret false) in
      flush_loop i l' (if alive : bool then all ++ [sc] else all)
  end.
Definition push_all (i : nat) (all : list StoredConnection) : PM unit :=
  put_pool i (fun p => set_stack (rev all ++ _pool p) p).
Definition host_flush (i : nat) : PM unit :=
  act! p := get_pool i in
  act! all := flush_loop i (_pool p) [] in
  push_all i all.

Definition getStaleConnections (i : nat) (stale : list Z) : PM (list Z) :=
  act! now := time in
  act! p := get_pool i in
  act! _ := put_pool i (set_stack []) in
  act! _ := push_all i (List.filter (st_ok now) (_pool p)) in
  wret (stale ++ map st_conn (List.filter (fun s => negb (st_ok now s)) (_pool p))).

(** 2^63 connections are not reached. *)
Definition createdOne (i : nat) (c : Z) : PM unit :=
  act! k := deref c in
  put_pool i (fun p => MkPool (_hostName p) (_pool p) (_created p + 1) (_minValidCreationTimeMicroSec p)
    (if _created p =? 0 then Some (ctype k) else pool_type p)).

Definition initializeHostName (i : nat) (hostName : list byte) : PM unit :=
  put_pool i (fun p => MkPool (if bool_decide (_hostName p = []) then hostName else _hostName p) (_pool p) (_created p)
    (_minValidCreationTimeMicroSec p) (pool_type p)).

(** ** DBConnectionPool *)

Definition at_key {A} (k : PoolKey) (f : nat -> PM A) : PM A := fun w =>
  let '(i, m) := pool_index k (_pools w) in f i (with_pools m w).

Definition _get (host : list byte) (socketTimeout : Z) : PM (option Z) := fun w =>
  (act! _ := wlift (verify (negb (inShutdown_ (outer w)))) in
   at_key (MkKey host socketTimeout) (fun i =>
     act! _ := initializeHostName i host in
     host_get i socketTimeout)) w.

Definition deleting {A} (c : Z) (m : PM A) : PM A := pm_try m (fun e => act! _ := delete_conn c in wraise e).

Definition _finishCreate (host : list byte) (socketTimeout c : Z) : PM Z :=
  act! _ := at_key (MkKey host socketTimeout) (fun i =>
    act! _ := initializeHostName i host in
    createdOne i c) in
  act! _ := deleting c (act! _ := onCreate c in onHandedOut c) in
  wret c.

(** A connection that [connect] opened is a new object. *)
Definition connect_new (cs : ConnectionString) (socketTimeout : Z) : PM (option Z) := fun w =>
  match connect_ cs socketTimeout (outer w) with
  | (e, inl ex) => (with_outer e w, inl ex)
  | (e, inr None) => (with_outer e w, inr None)
  | (e, inr (Some k)) => (act! c := new_conn k in wret (Some c)) (with_outer e w)
  end.

(** [get(url)] and [get(host)]. *)
Definition pool_get_url (url : ConnectionString) (socketTimeout : Z) : PM Z :=
  act! c := _get (conn_toString url) socketTimeout in
  match c with
  | Some c => act! _ := deleting c (onHandedOut c) in wret c
  | None =>
      act! c := connect_new url socketTimeout in
      match c with
      | None => wraise (Failure (UserAssert 13328))
      | Some c => _finishCreate (conn_toString url) socketTimeout c
      end
  end.
Definition pool_get (host : list byte) (socketTimeout : Z) : PM Z :=
  act! c := _get host socketTimeout in
  match c with
  | Some c => act! _ := deleting c (onHandedOut c) in wret c
  | None =>
      act! cs := wlift (parse host) in
      act! _ := wlift (uassert 13071 (isValid cs)) in
      act! c := connect_new cs socketTimeout in
      match c with
      | None => wraise SocketException
      | Some c => _finishCreate host socketTimeout c
      end
  end.

Definition pool_release (host : list byte) (c : Z) : PM unit :=
  act! k := deref c in
  at_key (MkKey host (getSoTimeout k)) (fun i => host_done i c).

(** A loop over the pools: [n] from [i] on. *)
Fixpoint each_pool (n i : nat) (f : nat -> PM unit) : PM unit :=
  match n with
  | O => wret tt
  | S n' => act! _ := f i in each_pool n' (S i) f
  end.
Definition all_pools (f : nat -> PM unit) : PM unit := fun w => each_pool (length (_pools w)) 0 f w.

Definition pool_flush : PM unit := all_pools host_flush.
Definition pool_clear : PM unit := all_pools host_clear.

Definition same_server (a b : list byte) : bool := negb (serverNameCompare a b) && negb (serverNameCompare b a).
Definition removeHost (host : list byte) : PM unit := fun w =>
  let keys := map fst (_pools w) in
  all_pools (fun i =>
    match keys !! i with
    | Some k => if same_server host (ident k) then host_clear i else wret tt
    | None => wret tt
    end) w.

Definition isConnectionGood (host : list byte) (c : option Z) : PM bool :=
  match c with
  | None => wret false
  | Some c =>
      act! k := deref c in
      if isFailed k then wret false
      else at_key (MkKey host (getSoTimeout k)) (fun i =>
        act! p := get_pool i in
        wret (negb (isBadSocketCreationTime p (getSockCreationMicroSec k))))
  end.

Fixpoint all_stale (n i : nat) (stale : list Z) : PM (list Z) :=
  match n with
  | O => wret stale
  | S n' => act! stale := getStaleConnections i stale in all_stale n' (S i) stale
  end.
Fixpoint delete_stale (l : list Z) : PM unit :=
  match l with
  | [] => wret tt
  | c :: l' =>
      act! _ := pm_try (act! _ := onDestroy c in delete_conn c) (fun _ => wret tt) in
      delete_stale l'
  end.
Definition taskDoWork : PM unit := fun w =>
  (act! toDelete := all_stale (length (_pools w)) 0 [] in delete_stale toDelete) w.

(** ** ScopedDbConnection *)

Record ScopedDbConnection := MkScoped { sc_host : list byte; sc_conn : option Z; sc_timeout : Z }.

Definition count (d : Z) : PM unit := fun w =>
  (MkPoolWorld (heap w) (_pools w) (_hooks w) (_maxPerHost w) (u32 (numConnections w + d)) (outer w), inr tt).

Definition set_so_timeout (t : Z) (k : Conn) : Conn := MkPooled (isFailed k) (getSockCreationMicroSec k) t (ctype k).
Definition _setSocketTimeout (s : ScopedDbConnection) : PM unit :=
  match sc_conn s with
  | None => wret tt
  | Some c =>
      act! k := deref c in
      if bool_decide (ctype k = MASTER) || bool_decide (ctype k = SYNC) then
        on_conn (fun k e => (e, (set_so_timeout (sc_timeout s) k, inr tt))) c
      else wret tt
  end.

(** The constructors: the base class counts, and counts down when the rest
    throws. *)
Definition scoped {A} (m : PM A) : PM A := act! _ := count 1 in pm_try m (fun e => act! _ := count (-1) in wraise e).
Definition scoped_end {A} (m : PM A) : PM unit := act! _ := pm_try m (fun e => act! _ := count (-1) in wraise e) in count (-1).
Definition Scoped_host (host : list byte) (socketTimeout : Z) : PM ScopedDbConnection :=
  scoped (act! c := pool_get host socketTimeout in
          let s := MkScoped host (Some c) socketTimeout in
          act! _ := _setSocketTimeout s in wret s).
Definition Scoped_url (url : ConnectionString) (socketTimeout : Z) : PM ScopedDbConnection :=
  scoped (act! c := pool_get_url url socketTimeout in
          let s := MkScoped (conn_toString url) (Some c) socketTimeout in
          act! _ := _setSocketTimeout s in wret s).
Definition Scoped_empty : PM ScopedDbConnection := scoped (wret (MkScoped [] None 0)).
Definition Scoped_bind (host : list byte) (c : option Z) (socketTimeout : Z) : PM ScopedDbConnection :=
  scoped (let s := MkScoped host c socketTimeout in act! _ := _setSocketTimeout s in wret s).

Definition scoped_arrow (s : ScopedDbConnection) : result Z := match sc_conn s with Some c => Ok c | None => Err (UserAssert 11004) end.
Definition scoped_conn (s : ScopedDbConnection) : result Z := match sc_conn s with Some c => Ok c | None => Err (UserAssert 11005) end.
Definition scoped_get (s : ScopedDbConnection) : result Z := match sc_conn s with Some c => Ok c | None => Err (UserAssert 13102) end.
Definition scoped_ok (s : ScopedDbConnection) : bool := bool_decide (is_Some (sc_conn s)).

Definition without_conn (s : ScopedDbConnection) : ScopedDbConnection := MkScoped (sc_host s) None (sc_timeout s).
(** [delete] of a null pointer does nothing. *)
Definition scoped_kill (s : ScopedDbConnection) : PM ScopedDbConnection :=
  act! _ := (match sc_conn s with Some c => delete_conn c | None => wret tt end) in
  wret (without_conn s).
Definition scoped_done (s : ScopedDbConnection) : PM ScopedDbConnection :=
  match sc_conn s with
  | None => wret s
  | Some c => act! _ := pool_release (sc_host s) c in wret (without_conn s)
  end.

(** The destructor; that of the base class runs after an exception, too. *)
Definition Scoped_destroy (s : ScopedDbConnection) : PM unit :=
  scoped_end (
    match sc_conn s with
    | None => wret s
    | Some c =>
        act! k := deref c in
        if isFailed k then
          if getSockCreationMicroSec k =? INVALID_SOCK_CREATION_TIME then scoped_kill s else scoped_done s
        else scoped_kill s
    end).

Definition clearPool : PM unit := pool_clear.
End Pool.

(** ** The order of server names *)

(** The part of a name before a slash. *)
Fixpoint server_part (s : list byte) : list Z :=
  match s with
  | [] => []
  | c :: s' => if bool_decide (c = x00) || bool_decide (c = "/"%byte) then [] else sc c :: server_part s'
  end.

Fixpoint lex_lt (a b : list Z) : bool :=
  match a, b with
  | [], [] => false
  | [], _ => true
  | _, [] => false
  | x :: a', y :: b' => (x <? y) || (x =? y) && lex_lt a' b'
  end.

Lemma serverNameCompare_lex a b : serverNameCompare a b = lex_lt (server_part a) (server_part b).
Proof.
  revert b. induction a as [|x a IH]; intros [|y b]; cbn [serverNameCompare server_part negb]; [done| | |].
  - by destruct (_ || _).
  - by destruct (_ || _).
  - destruct (bool_decide (x = x00) || _); [by destruct (bool_decide (y = x00) || _)|].
    destruct (bool_decide (y = x00) || _); [done|]. cbn [lex_lt]. rewrite IH.
    destruct (Z.ltb_spec (sc x) (sc y)); [done|]. destruct (Z.ltb_spec (sc y) (sc x)); [by rewrite (proj2 (Z.eqb_neq _ _)) by lia|].
    by rewrite (proj2 (Z.eqb_eq _ _)) by lia.
Qed.

Lemma lex_lt_irrefl a : lex_lt a a = false.
Proof. induction a as [|x a IH]; [done|]. cbn. by rewrite Z.ltb_irrefl, Z.eqb_refl, IH. Qed.

Lemma lex_lt_trans a b c : lex_lt a b = true -> lex_lt b c = true -> lex_lt a c = true.
Proof.
  revert b c. induction a as [|x a IH]; intros [|y b] [|z c]; cbn; try done.
  intros [?%Z.ltb_lt|[?%Z.eqb_eq ?]%andb_prop]%orb_prop [?%Z.ltb_lt|[?%Z.eqb_eq ?]%andb_prop]%orb_prop; apply orb_true_iff.
  - left. apply Z.ltb_lt. lia.
  - left. apply Z.ltb_lt. lia.
  - left. apply Z.ltb_lt. lia.
  - right. apply andb_true_iff. split; [apply Z.eqb_eq; lia|by apply (IH b)].
Qed.

Lemma lex_lt_total a b : lex_lt a b = false -> lex_lt b a = false -> a = b.
Proof.
  revert b. induction a as [|x a IH]; intros [|y b]; cbn; try done.
  intros [?%Z.ltb_ge H1]%orb_false_elim [?%Z.ltb_ge H2]%orb_false_elim. assert (x = y) as -> by lia. rewrite Z.eqb_refl in *.
  f_equal. by apply IH.
Qed.

(** Two names are the same server when their parts before a slash are. *)
Lemma same_server_part a b : same_server a b = bool_decide (server_part a = server_part b).
Proof.
  unfold same_server. rewrite !serverNameCompare_lex. destruct (bool_decide_reflect (server_part a = server_part b)) as [->|Hne].
  - by rewrite lex_lt_irrefl.
  - destruct (lex_lt (server_part a) _) eqn:E1; [done|]. destruct (lex_lt (server_part b) _) eqn:E2; [done|].
    by destruct Hne; apply lex_lt_total.
Qed.

(** A time-out that is a number. *)
Definition d_ok (t : Z) : Prop := in_u 64 t = true /\ d_isnan t = false.

(** The order of the keys is strict and transitive, so that a map can be sorted
    by it. *)
Lemma poolKeyCompare_irrefl a : d_ok (timeout a) -> poolKeyCompare a a = false.
Proof.
  intros [Ha Na]. unfold poolKeyCompare. rewrite serverNameCompare_lex, lex_lt_irrefl, d_ltb_key, Na, Z.ltb_irrefl by done. done.
Qed.

Lemma poolKeyCompare_trans a b c : d_ok (timeout a) -> d_ok (timeout b) -> d_ok (timeout c) ->
  poolKeyCompare a b = true -> poolKeyCompare b c = true -> poolKeyCompare a c = true.
Proof.
  intros [Ha Na] [Hb Nb] [Hc Nc]. unfold poolKeyCompare. rewrite !serverNameCompare_lex, !d_ltb_key, Na, Nb, Nc by done. cbn.
  set (x := server_part (ident a)). set (y := server_part (ident b)). set (z := server_part (ident c)).
  destruct (lex_lt x y) eqn:E1; [|destruct (lex_lt y x) eqn:E1'; [done|]].
  - intros _. destruct (lex_lt y z) eqn:E2; [by rewrite (lex_lt_trans x y z)|]. destruct (lex_lt z y) eqn:E2'; [done|].
    rewrite <- (lex_lt_total y z) by done. by rewrite E1.
  - rewrite (lex_lt_total x y) by done. destruct (lex_lt y z); [done|]. destruct (lex_lt z y); [done|].
    intros ?%Z.ltb_lt ?%Z.ltb_lt. apply Z.ltb_lt. lia.
Qed.
