(* ===== verification/ConnPoolOrder.v ===== *)
(** * ConnPoolOrder: the pools stay in their order, and times only grow
    (client/connpool.cpp)

    No operation removes a pool, exchanges its key or brings the keys out of
    order, and none makes the time of the last failure of a pool earlier.  That
    needs nothing of the connections: [mono] holds of every step, whatever it
    does to the heap and however it ends. *)

From stdpp Require Import base list numbers strings option tactics gmap.
From Stdlib Require Import Strings.Byte ZArith Lia Sorted.
From S2P Require Import Prelude Memory Double HostPort Cursor Commands ConnPool.

(** ** Maps of pools *)

(** Neither key is before the other, which is what makes them one for a map. *)
Definition same_key (a b : PoolKey) : Prop := poolKeyCompare a b = false /\ poolKeyCompare b a = false.

Definition keys_ok (m : PoolMap) : Prop :=
  StronglySorted (fun a b => poolKeyCompare a b = true) (map fst m) /\ Forall (fun k => d_ok (timeout k)) (map fst m).

Lemma lex_lt_asym a b : lex_lt a b = true -> lex_lt b a = false.
Proof. intros H1. destruct (lex_lt b a) eqn:H2; [|done]. by rewrite <- (lex_lt_irrefl a), (lex_lt_trans a b a). Qed.

Lemma poolKeyCompare_asym a b : d_ok (timeout a) -> d_ok (timeout b) -> poolKeyCompare a b = true -> poolKeyCompare b a = false.
Proof.
  intros Ha Hb H1. destruct (poolKeyCompare b a) eqn:H2; [|done].
  by rewrite <- (poolKeyCompare_irrefl a Ha), (poolKeyCompare_trans a b a).
Qed.

(** Keys that are the same compare alike with others. *)
Lemma same_key_less a b c : d_ok (timeout a) -> d_ok (timeout b) -> d_ok (timeout c) ->
  same_key a b -> poolKeyCompare a c = true -> poolKeyCompare b c = true.
Proof.
  intros [Ha Na] [Hb Nb] [Hc Nc] [H1 H2]. unfold poolKeyCompare in *. rewrite !serverNameCompare_lex, !d_ltb_key, ?Na, ?Nb, ?Nc in * by done.
  cbn in *. destruct (lex_lt (server_part (ident a)) (server_part (ident b))) eqn:E1; [done|].
  destruct (lex_lt (server_part (ident b)) (server_part (ident a))) eqn:E2; [done|].
  rewrite (lex_lt_total _ _ E1 E2) in *. destruct (lex_lt (server_part (ident b)) (server_part (ident c))); [done|].
  destruct (lex_lt (server_part (ident c)) _); [done|]. apply Z.ltb_ge in H1, H2. intros ?%Z.ltb_lt. apply Z.ltb_lt. lia.
Qed.

Lemma same_key_sym a b : same_key a b -> same_key b a.
Proof. by intros [? ?]. Qed.

(** Every later map has the pools of an earlier one. *)
Definition grows (m m' : PoolMap) : Prop :=
  (keys_ok m -> keys_ok m') /\
  forall k p, In (k, p) m -> exists p', In (k, p') m' /\ _minValidCreationTimeMicroSec p <= _minValidCreationTimeMicroSec p'.

#[export] Instance grows_preorder : PreOrder grows.
Proof.
  split.
  - intros m. split; [done|]. intros k p Hp. exists p. split; [done|lia].
  - intros a b c [Ha1 Ha2] [Hb1 Hb2]. split; [auto|]. intros k p Hp. destruct (Ha2 k p Hp) as (q & Hq & ?).
    destruct (Hb2 k q Hq) as (r & Hr & ?). exists r. split; [done|lia].
Qed.

Lemma grows_alter i f (m : PoolMap) : (forall k p, m !! i = Some (k, p) -> _minValidCreationTimeMicroSec p <= _minValidCreationTimeMicroSec (f p)) ->
  grows m (alter (fun kp => (fst kp, f (snd kp))) i m).
Proof.
  intros Hf. assert (map fst (alter (fun kp => (fst kp, f (snd kp))) i m) = map fst m) as Hk.
  { clear Hf. revert i. induction m as [|[k p] m IH]; intros i; [done|]. destruct i; cbn; [done|]. f_equal. apply IH. }
  split; [unfold keys_ok; by rewrite Hk|]. clear Hk. intros k p Hin. revert i Hf. induction m as [|[k' q] m IH]; intros i Hf; [done|].
  destruct i as [|i]; cbn.
  - destruct Hin as [[= -> ->]|Hin].
    + exists (f p). split; [by left|]. by apply (Hf k).
    + exists p. split; [by right|lia].
  - destruct Hin as [[= -> ->]|Hin].
    + exists p. split; [by left|lia].
    + destruct (IH Hin i) as (p' & Hp' & ?); [by intros k2 p2 H2; apply (Hf k2)|]. exists p'. split; [by right|done].
Qed.

(** A key that is looked up is put where the order has it. *)
Lemma pool_index_in k m x : In x (map fst (snd (pool_index k m))) -> x = k \/ In x (map fst m).
Proof.
  induction m as [|[k' p] m IH]; cbn [pool_index]; [by intros [<-|[]]; left|].
  destruct (poolKeyCompare k' k); [|destruct (poolKeyCompare k k')].
  - destruct (pool_index k m) as [i m']. cbn in *. intros [<-|Hx]; [by right; left|]. destruct (IH Hx); auto.
  - cbn. intros [<-|[<-|Hx]]; auto.
  - by right.
Qed.

Lemma pool_index_keys k m : d_ok (timeout k) -> keys_ok m -> keys_ok (snd (pool_index k m)).
Proof.
  intros Hk [Hs Hd]. induction m as [|[k' p] m IH]; cbn [pool_index].
  { cbn. split; [by repeat constructor|]. by apply Forall_singleton. }
  cbn [map fst] in Hs, Hd. apply StronglySorted_inv in Hs as [Hs Hlt]. apply Forall_cons in Hd as [Hk' Hd].
  destruct (poolKeyCompare k' k) eqn:E1; [|destruct (poolKeyCompare k k') eqn:E2].
  - destruct (IH Hs Hd) as [IH1 IH2]. pose proof (pool_index_in k m) as Hin. destruct (pool_index k m) as [i m']. cbn [snd map fst] in *.
    split; [|by constructor]. constructor; [done|]. apply List.Forall_forall. intros x [->|Hx]%Hin; [done|].
    rewrite List.Forall_forall in Hlt. by apply Hlt.
  - cbn [snd map fst]. split; [|by apply Forall_cons_2; [|apply Forall_cons_2]]. constructor; [by constructor|]. constructor; [done|].
    apply List.Forall_forall. intros x Hx. rewrite List.Forall_forall in Hlt, Hd. apply (poolKeyCompare_trans k k' x); auto.
  - split; [by constructor|by constructor].
Qed.

Lemma pool_index_grows k m : d_ok (timeout k) -> grows m (snd (pool_index k m)).
Proof.
  intros Hk. split; [by apply pool_index_keys|]. intros k' p Hin. exists p. split; [|lia]. revert Hin.
  induction m as [|[k2 p2] m IH]; cbn [pool_index]; [done|].
  destruct (poolKeyCompare k2 k); [|destruct (poolKeyCompare k k2)].
  - destruct (pool_index k m) as [i m']. cbn in *. intros [?|?]; auto.
  - intros ?. by right.
  - done.
Qed.

(** Two pools of the same key are one. *)
Lemma same_key_unique m k k' p p' : keys_ok m -> In (k, p) m -> In (k', p') m -> same_key k k' -> p = p'.
Proof.
  intros [Hs Hd]. induction m as [|[k2 p2] m IH]; [done|]. cbn [map fst] in *. apply StronglySorted_inv in Hs as [Hs Hlt].
  apply Forall_cons in Hd as [_ Hd]. rewrite List.Forall_forall in Hlt.
  assert (forall x q, In (x, q) m -> poolKeyCompare k2 x = true) as Hx.
  { intros x q Hq. apply Hlt. apply in_map_iff. by exists (x, q). }
  intros [[= -> ->]|H1] [[= -> ->]|H2] [E1 E2]; [done| | |by apply IH].
  - by rewrite (Hx _ _ H2) in E1.
  - by rewrite (Hx _ _ H1) in E2.
Qed.

(** ** Steps *)

Section Mono.
Context {E : Type} `{Outside E}.
Abbreviation world := (pool_world E).
Abbreviation PM := (WM world).

Definition mono {A} (m : PM A) : Prop := forall w, grows (_pools w) (_pools (fst (m w))).

Lemma mono_keep {A} (m : PM A) : (forall w, _pools (fst (m w)) = _pools w) -> mono m.
Proof. intros Hm w. by rewrite Hm. Qed.

Lemma mono_bind {A B} (m : PM A) (k : A -> PM B) : mono m -> (forall a, mono (k a)) -> mono (wbind m k).
Proof.
  intros Hm Hk w. specialize (Hm w). unfold wbind. destruct (m w) as [w' [e|a]]; [done|]. cbn in Hm.
  etransitivity; [exact Hm|apply Hk].
Qed.

Lemma mono_try {A} (m : PM A) h : mono m -> (forall e, mono (h e)) -> mono (pm_try m h).
Proof.
  intros Hm Hh w. specialize (Hm w). unfold pm_try. destruct (m w) as [w' [e|a]]; [|done]. cbn in Hm.
  assert (grows (_pools w) (_pools (fst (h e w')))) as Hx by (etransitivity; [exact Hm|apply Hh]).
  by destruct e as [[]| |].
Qed.

Lemma mono_self {A} (f : world -> PM A) : (forall w, mono (f w)) -> mono (fun w => f w w).
Proof. intros Hf w. apply Hf. Qed.

Lemma mono_put i f : (forall p, _minValidCreationTimeMicroSec p <= _minValidCreationTimeMicroSec (f p)) -> mono (put_pool i f).
Proof. intros Hf w. apply grows_alter. intros. apply Hf. Qed.

Lemma mono_at_key {A} k (f : nat -> PM A) : d_ok (timeout k) -> (forall i, mono (f i)) -> mono (at_key k f).
Proof.
  intros Hk Hf w. unfold at_key. pose proof (pool_index_grows k (_pools w) Hk) as Hg. destruct (pool_index k (_pools w)) as [i m'].
  etransitivity; [exact Hg|]. apply (Hf i (with_pools m' w)).
Qed.

Lemma mono_ret {A} (a : A) : mono (wret a).
Proof. by apply mono_keep. Qed.
Lemma mono_raise {A} e : mono (wraise (A := A) e).
Proof. by apply mono_keep. Qed.
Lemma mono_lift {A} (r : result A) : mono (wlift r).
Proof. apply mono_keep. intros w. by destruct r. Qed.
Lemma mono_deref c : mono (deref c).
Proof. apply mono_keep. intros w. unfold deref. by destruct (heap w !! c). Qed.
Lemma mono_delete c : mono (delete_conn c).
Proof. apply mono_keep. intros w. unfold delete_conn. by destruct (heap w !! c). Qed.
Lemma mono_on_conn {A} (f : Conn -> E -> E * (Conn * (exn + A))) c : mono (on_conn f c).
Proof.
  apply mono_keep. intros w. unfold on_conn. destruct (heap w !! c) as [k|]; [|done]. by destruct (f k (outer w)) as [e [k' r]].
Qed.
Lemma mono_time : mono time.
Proof. apply mono_keep. intros w. unfold time. by destruct (time_ (outer w)). Qed.
Lemma mono_get_pool i : mono (get_pool i).
Proof. apply mono_keep. intros w. unfold get_pool. by destruct (_pools w !! i) as [[k p]|]. Qed.
Lemma mono_stack i l : mono (put_pool i (set_stack l)).
Proof. apply mono_put. intros p. cbn. lia. Qed.
End Mono.

Create HintDb mono.
#[export] Hint Resolve mono_ret mono_raise mono_lift mono_deref mono_delete mono_on_conn mono_time mono_get_pool mono_stack : mono.

(** Steps in sequence, and both ways of a choice. *)
Ltac mono_tac := repeat first
  [ solve [auto with mono]
  | apply mono_bind; [|intros ?]
  | apply mono_try; [|intros ?]
  | apply mono_put; intros ?; cbn; lia
  | match goal with
    | |- mono (if ?b then _ else _) => destruct b
    | |- mono (match ?x with _ => _ end) => destruct x
    end ].

Section Operations.
Context {E : Type} `{Outside E}.
Abbreviation world := (pool_world E).
Abbreviation PM := (WM world).

Lemma mono_hooks f (hs : list (DBConnectionHook E)) c : mono (run_hooks f hs c).
Proof. induction hs as [|h hs IH]; cbn [run_hooks]; mono_tac. Qed.
Lemma mono_onDestroy c : mono (onDestroy (E := E) c).
Proof. intros w. apply mono_hooks. Qed.
Lemma mono_onCreate c : mono (onCreate (E := E) c).
Proof. intros w. apply mono_hooks. Qed.
Lemma mono_onHandedOut c : mono (onHandedOut (E := E) c).
Proof. intros w. apply mono_hooks. Qed.
#[local] Hint Resolve mono_onDestroy mono_onCreate mono_onHandedOut : mono.

Lemma mono_clear_loop i l : mono (clear_loop (E := E) i l).
Proof. induction l as [|sc l IH]; cbn [clear_loop]; mono_tac. Qed.
#[local] Hint Resolve mono_clear_loop : mono.
Lemma mono_clear i : mono (host_clear (E := E) i).
Proof. unfold host_clear. mono_tac. Qed.
#[local] Hint Resolve mono_clear : mono.

(** The time is set to a later one. *)
Lemma mono_reportBad i t : mono (reportBadConnectionAt (E := E) i t).
Proof.
  intros w. unfold reportBadConnectionAt, wbind at 1, get_pool. destruct (_pools w !! i) as [[k p]|] eqn:Ep; [|done].
  destruct (_ && _) eqn:Ec; [|done]. apply andb_prop in Ec as [_ Hlt%Z.ltb_lt]. unfold wbind at 1, put_pool.
  etransitivity; [|apply mono_clear]. apply grows_alter. intros k' p'. rewrite Ep. intros [= <- <-]. cbn. lia.
Qed.
#[local] Hint Resolve mono_reportBad : mono.

Lemma mono_push i c : mono (push_conn (E := E) i c).
Proof. unfold push_conn. mono_tac. Qed.
#[local] Hint Resolve mono_push : mono.
Lemma mono_done i c : mono (host_done (E := E) i c).
Proof.
  unfold host_done. mono_tac. apply (mono_self (fun w => if _ || (getSockCreationMicroSec _ <? _) then _ else _)).
  intros w. mono_tac.
Qed.
Lemma mono_get_loop i now t l : mono (get_loop (E := E) i now t l).
Proof. induction l as [|sc l IH]; cbn [get_loop]; mono_tac. Qed.
#[local] Hint Resolve mono_done mono_get_loop : mono.
Lemma mono_get i t : mono (host_get (E := E) i t).
Proof. unfold host_get. mono_tac. Qed.
Lemma mono_flush_loop i l : forall all, mono (flush_loop (E := E) i l all).
Proof. induction l as [|sc l IH]; intros all; cbn [flush_loop]; mono_tac. Qed.
Lemma mono_push_all i all : mono (push_all (E := E) i all).
Proof. unfold push_all. mono_tac. Qed.
#[local] Hint Resolve mono_get mono_flush_loop mono_push_all : mono.
Lemma mono_flush i : mono (host_flush (E := E) i).
Proof. unfold host_flush. mono_tac. Qed.
Lemma mono_stale i stale : mono (getStaleConnections (E := E) i stale).
Proof. unfold getStaleConnections. mono_tac. Qed.
Lemma mono_created i c : mono (createdOne (E := E) i c).
Proof. unfold createdOne. mono_tac. Qed.
Lemma mono_name i host : mono (initializeHostName (E := E) i host).
Proof. unfold initializeHostName. mono_tac. Qed.
Lemma mono_deleting {A} c (m : PM A) : mono m -> mono (deleting c m).
Proof. intros Hm. unfold deleting. mono_tac. Qed.
Lemma mono_connect cs t : mono (connect_new (E := E) cs t).
Proof.
  intros w. unfold connect_new. by destruct (connect_ cs t (outer w)) as [e [ex|[k|]]].
Qed.
#[local] Hint Resolve mono_flush mono_stale mono_created mono_name mono_deleting mono_connect : mono.

Lemma mono__get host t : d_ok t -> mono (_get (E := E) host t).
Proof.
  intros Ht. unfold _get. apply (mono_self (fun w => wbind _ _)). intros w. apply mono_bind; [auto with mono|]. intros ?.
  apply mono_at_key; [done|]. intros i. mono_tac.
Qed.
Lemma mono_finishCreate host t c : d_ok t -> mono (_finishCreate (E := E) host t c).
Proof.
  intros Ht. unfold _finishCreate. apply mono_bind; [apply mono_at_key; [done|]; intros i; mono_tac|]. intros ?.
  apply mono_bind; [apply mono_deleting; mono_tac|]. intros ?. mono_tac.
Qed.
#[local] Hint Resolve mono__get mono_finishCreate : mono.

Lemma mono_pool_get_url url t : d_ok t -> mono (pool_get_url (E := E) url t).
Proof. intros Ht. unfold pool_get_url. mono_tac. Qed.
Lemma mono_pool_get host t : d_ok t -> mono (pool_get (E := E) host t).
Proof. intros Ht. unfold pool_get. mono_tac. Qed.

(** The time-out of the connection is part of the key. *)
Lemma mono_release host c (w : world) : (forall k, heap w !! c = Some k -> d_ok (getSoTimeout k)) ->
  grows (_pools w) (_pools (fst (pool_release host c w))).
Proof.
  intros Hd. unfold pool_release, wbind, deref. destruct (heap w !! c) as [k|]; [|done].
  apply (mono_at_key (MkKey host (getSoTimeout k)) (fun i => host_done i c)); [by apply Hd|]. auto with mono.
Qed.
Lemma mono_isConnectionGood host c (w : world) : (forall k, heap w !! c = Some k -> d_ok (getSoTimeout k)) ->
  grows (_pools w) (_pools (fst (isConnectionGood host (Some c) w))).
Proof.
  intros Hd. unfold isConnectionGood, wbind at 1, deref. destruct (heap w !! c) as [k|]; [|done]. destruct (isFailed k); [done|].
  apply (mono_at_key (MkKey host (getSoTimeout k))); [by apply Hd|]. intros i. mono_tac.
Qed.

Lemma mono_each_pool n (f : nat -> PM unit) : (forall i, mono (f i)) -> forall i, mono (each_pool n i f).
Proof. intros Hf. induction n as [|n IH]; intros i; cbn [each_pool]; mono_tac. Qed.
Lemma mono_pool_flush : mono (pool_flush (E := E)).
Proof. intros w. apply mono_each_pool. auto with mono. Qed.
Lemma mono_pool_clear : mono (pool_clear (E := E)).
Proof. intros w. apply mono_each_pool. auto with mono. Qed.
Lemma mono_removeHost host : mono (removeHost (E := E) host).
Proof. intros w. apply mono_each_pool. intros i. mono_tac. Qed.
Lemma mono_all_stale n : forall i stale, mono (all_stale (E := E) n i stale).
Proof. induction n as [|n IH]; intros i stale; cbn [all_stale]; mono_tac. Qed.
Lemma mono_delete_stale l : mono (delete_stale (E := E) l).
Proof. induction l as [|c l IH]; cbn [delete_stale]; mono_tac. Qed.
Lemma mono_taskDoWork : mono (taskDoWork (E := E)).
Proof. intros w. apply mono_bind; [apply mono_all_stale|]. intros l. apply mono_delete_stale. Qed.
End Operations.
