(* ===== verification/ConnPoolSafe.v ===== *)
(** * ConnPoolSafe: what callers of the pool can rely on (client/connpool.cpp)

    A triple of a precondition, a postcondition and a condition for exceptions,
    with a rule for every step of ConnPool.v.  The invariant [pool_ok] has the
    set of connections in use as an argument: it says that those and the ones in
    the pools are different objects that were not deleted, and that a pool has
    none that is older than one that failed.

    The theorem: whatever the callers do, no connection is used or deleted after
    it was deleted, none is in the pool twice or in the pool and in use, and once
    a connection that failed was given back, its pool has none that is older. *)

From stdpp Require Import base list numbers strings option tactics gmap.
From Stdlib Require Import Strings.Byte ZArith Lia.
From S2P Require Import Prelude Memory Double HostPort Cursor Commands ConnPool ConnPoolOrder.

(** ** What holds of the pools *)

Definition conns (l : list StoredConnection) : list Z := map st_conn l.
Definition stacks (m : PoolMap) : list Z := concat (map (fun kp => conns (_pool (snd kp))) m).

Lemma d_same a b : d_ok a -> d_ok b -> d_eqb a b = true <-> d_key a = d_key b.
Proof. intros [Ha Na] [Hb Nb]. rewrite d_eqb_key, Na, Nb by done. apply Z.eqb_eq. Qed.

Lemma stacks_app a b : stacks (a ++ b) = stacks a ++ stacks b.
Proof. unfold stacks. by rewrite map_app, concat_app. Qed.

Lemma stacks_split (m : PoolMap) i k p : m !! i = Some (k, p) -> exists a b, m = a ++ (k, p) :: b /\ length a = i /\
  stacks m ≡ₚ conns (_pool p) ++ stacks (a ++ b).
Proof.
  intros Hi. exists (take i m), (drop (S i) m). split; [by rewrite (take_drop_middle m i (k, p) Hi)|].
  split; [rewrite length_take; apply lookup_lt_Some in Hi; lia|].
  rewrite <- (take_drop_middle m i (k, p) Hi) at 1. rewrite !stacks_app. cbn. rewrite !app_assoc.
  apply Permutation_app_tail, Permutation_app_comm.
Qed.

(** A hook and an answer leave a connection with a number as its time-out. *)
Definition hook_calm {E} (f : Conn -> E -> E * (Conn * (exn + unit))) : Prop :=
  forall k e, d_ok (getSoTimeout k) -> let '(_, (k', r)) := f k e in
    d_ok (getSoTimeout k') /\ r <> inl (Failure UndefinedBehaviour).
Definition hooks_calm {E} (h : DBConnectionHook E) : Prop :=
  hook_calm (hook_onCreate h) /\ hook_calm (hook_onHandedOut h) /\ hook_calm (hook_onDestroy h).

(** A connection that is asked keeps its time-out, and its socket is not older. *)
Class Calm (E : Type) `{Outside E} := {
  connect_calm : forall cs t e, d_ok t -> match snd (connect_ cs t e) with
    | inr (Some k) => d_ok (getSoTimeout k)
    | inr None => True
    | inl x => x <> Failure UndefinedBehaviour
    end;
  ping_calm : forall k e, let '(_, (k', r)) := ping k e in getSoTimeout k' = getSoTimeout k /\
    getSockCreationMicroSec k <= getSockCreationMicroSec k' /\ r <> inl (Failure UndefinedBehaviour)
}.

Section Safety.
Context {E : Type} `{Calm E}.
Abbreviation world := (pool_world E).
Abbreviation PM := (WM world).

(** What a connection in the pool of [k] and [p] is; [fresh_] asks that it is not
    older than one that failed. *)
Definition belongs (h : gmap Z Conn) (fresh_ : Prop) (k : PoolKey) (p : PoolForHost) (c : Z) : Prop :=
  exists kc, h !! c = Some kc /\ d_eqb (getSoTimeout kc) (timeout k) = true /\
    (fresh_ -> _minValidCreationTimeMicroSec p <= getSockCreationMicroSec kc).

(** [out] are connections in use; of the pool [x], the times are not known. *)
Record pool_ok (x : option nat) (out : gset Z) (w : world) : Prop := {
  po_nodup : NoDup (stacks (_pools w));
  po_out : forall c, c ∈ out -> is_Some (heap w !! c) /\ c ∉ stacks (_pools w);
  po_belongs : forall i k p, _pools w !! i = Some (k, p) -> d_ok (timeout k) /\
    forall c, c ∈ conns (_pool p) -> belongs (heap w) (x <> Some i) k p c;
  po_times : forall c k, heap w !! c = Some k -> d_ok (getSoTimeout k);
  po_hooks : Forall hooks_calm (_hooks w)
}.

Lemma in_stacks (m : PoolMap) i k p c : m !! i = Some (k, p) -> c ∈ conns (_pool p) -> c ∈ stacks m.
Proof. intros Hi Hc. destruct (stacks_split m i k p Hi) as (a & b & _ & _ & ->). apply elem_of_app. by left. Qed.

Lemma stacks_in (m : PoolMap) c : c ∈ stacks m -> exists i k p, m !! i = Some (k, p) /\ c ∈ conns (_pool p).
Proof.
  unfold stacks. intros (l & Hl & Hc)%list_elem_of_In%in_concat. apply in_map_iff in Hl as ([k p] & <- & Hin).
  apply list_elem_of_In, list_elem_of_lookup in Hin as [i Hi]. apply list_elem_of_In in Hc. by exists i, k, p.
Qed.

(** The stack of a pool is exchanged: what comes to it was in use, and what is
    dropped is in use after it. *)
Lemma restack x out out' (w : world) i k p p' (added dropped : list Z) :
  pool_ok x out w -> _pools w !! i = Some (k, p) -> conns (_pool p') ++ dropped ≡ₚ conns (_pool p) ++ added -> NoDup added ->
  (forall c, c ∈ added -> c ∈ out) -> (forall c, c ∈ out' <-> (c ∈ out /\ c ∉ added) \/ c ∈ dropped) ->
  (forall c, c ∈ conns (_pool p') -> belongs (heap w) (x <> Some i) k p' c) ->
  pool_ok x out' (with_pools (alter (fun kp => (fst kp, p')) i (_pools w)) w).
Proof.
  intros [Hnd Hout Hbel Htm Hhk] Hi Hperm Hadd Hsub Hout' Hnew.
  destruct (stacks_split _ i k p Hi) as (a & b & Em & Ea & Hst).
  assert (alter (fun kp => (fst kp, p')) i (_pools w) = a ++ (k, p') :: b) as Ealt.
  { rewrite Em. rewrite list.alter_app_r_alt by lia. by rewrite Ea, Nat.sub_diag. }
  assert (stacks (a ++ (k, p') :: b) ≡ₚ conns (_pool p') ++ stacks (a ++ b)) as Hst'.
  { rewrite !stacks_app. change (stacks ((k, p') :: b)) with (conns (_pool p') ++ stacks b). rewrite !app_assoc.
    apply Permutation_app_tail, Permutation_app_comm. }
  assert (NoDup ((conns (_pool p') ++ dropped) ++ stacks (a ++ b))) as Hall.
  { rewrite Hperm, <- app_assoc, (Permutation_app_comm added), app_assoc, <- Hst. apply NoDup_app. split; [done|]. split; [|done].
    intros c Hc Ha. apply (proj2 (Hout c (Hsub c Ha))), Hc. }
  split; cbn [_pools heap with_pools _hooks]; rewrite ?Ealt; [| | |done|done].
  - rewrite Hst'. rewrite <- app_assoc in Hall. apply NoDup_app in Hall as (H1 & H2 & H3). apply NoDup_app in H3 as (_ & _ & H3).
    apply NoDup_app. split; [done|]. split; [|done]. intros c Hc Hs. apply (H2 c Hc), elem_of_app. by right.
  - intros c [[Hc Hna]|Hd]%Hout'.
    + destruct (Hout c Hc) as [Hl Hns]. split; [done|]. rewrite Hst'. rewrite Hst in Hns. apply not_elem_of_app in Hns as [Hn1 Hn2].
      apply not_elem_of_app. split; [|done]. intros Hp'. assert (c ∈ conns (_pool p) ++ added) as [?|?]%elem_of_app; [|done..].
      rewrite <- Hperm. apply elem_of_app. by left.
    + assert (c ∈ conns (_pool p) ++ added) as Hc by (rewrite <- Hperm; apply elem_of_app; by right). split.
      * apply elem_of_app in Hc as [Hc|Hc]; [|by apply Hout, Hsub]. destruct (Hbel i k p Hi) as [_ Hb].
        destruct (Hb c Hc) as (kc & E1 & _). by exists kc.
      * rewrite Hst'. apply not_elem_of_app. rewrite (Permutation_app_comm (conns _)), <- app_assoc in Hall.
        apply NoDup_app in Hall as (_ & Hd2 & _). split; intros Hx; apply (Hd2 c Hd), elem_of_app; auto.
  - intros j k' q Hj. rewrite <- Ealt in Hj. destruct (decide (j = i)) as [->|Hne].
    + rewrite list_lookup_alter_eq, Hi in Hj. injection Hj as <- <-. split; [by apply (Hbel i k p)|]. done.
    + rewrite list_lookup_alter_ne in Hj by done. by apply Hbel.
Qed.

Lemma delete_ok x out (w : world) c : pool_ok x out w -> c ∈ out ->
  exists w', delete_conn c w = (w', inr tt) /\ pool_ok x (out ∖ {[c]}) w' /\ _pools w' = _pools w /\ outer w' = outer w.
Proof.
  intros [Hnd Hout Hbel Htm Hhk] Hc. destruct (Hout c Hc) as [[k Ek] Hns]. eexists. unfold delete_conn. rewrite Ek. split; [done|].
  split; [|done]. split; cbn [heap _pools with_heap _hooks]; [done| | | |done].
  - intros d Hd. apply elem_of_difference in Hd as [Hd Hne%not_elem_of_singleton]. destruct (Hout d Hd) as [Hl Hs]. split; [|done].
    by rewrite lookup_delete_ne.
  - intros i k' p Hi. destruct (Hbel i k' p Hi) as [Ht Hb]. split; [done|]. intros d Hd. destruct (Hb d Hd) as (kc & E1 & E2).
    exists kc. split; [|done]. rewrite lookup_delete_ne; [done|]. intros ->. apply Hns. by apply (in_stacks _ i k' p).
  - intros d kd [_ Hd]%lookup_delete_Some. by apply (Htm d).
Qed.

(** A connection in use may change, and one that is new is in use. *)
Lemma change_ok x out (w : world) c k e : pool_ok x out w -> c ∉ stacks (_pools w) -> d_ok (getSoTimeout k) ->
  pool_ok x (out ∪ {[c]}) (with_outer e (with_heap (<[c := k]> (heap w)) w)).
Proof.
  intros [Hnd Hout Hbel Htm Hhk] Hc Hk. split; cbn [heap _pools with_heap with_outer _hooks]; [done| | | |done].
  - intros d [Hd|Hd%elem_of_singleton]%elem_of_union; [|subst d; split; [by rewrite lookup_insert_eq|done]].
    destruct (Hout d Hd) as [[kd Ed] Hs]. split; [|done]. apply lookup_insert_is_Some'. right. by exists kd.
  - intros i k' p Hi. destruct (Hbel i k' p Hi) as [Ht Hb]. split; [done|]. intros d Hd. destruct (Hb d Hd) as (kc & E1 & E2).
    exists kc. split; [|done]. rewrite lookup_insert_ne; [done|]. intros ->. apply Hc. by apply (in_stacks _ i k' p).
  - intros d kd [[_ <-] | [_ Hd]]%lookup_insert_Some; [done|by apply (Htm d)].
Qed.

Lemma outer_ok x out (w : world) e : pool_ok x out w -> pool_ok x out (with_outer e w).
Proof. intros [? ? ? ? ?]. by split. Qed.

Lemma same_set x (out out' : gset Z) (w : world) : out = out' -> pool_ok x out w -> pool_ok x out' w.
Proof. by intros ->. Qed.

(** *** Steps *)

(** From [P], [m] ends with a value and [Q], or with an exception that is not the
    use of a bad pointer, and [X]. *)
Definition safe {A} (P : world -> Prop) (m : PM A) (Q : A -> world -> Prop) (X : world -> Prop) : Prop :=
  forall w, P w -> match m w with
    | (w', inr a) => Q a w'
    | (w', inl e) => e <> Failure UndefinedBehaviour /\ X w'
    end.

Lemma pm_bind_safe {A B} P (m : PM A) (k : A -> PM B) R Q X :
  safe P m R X -> (forall a, safe (R a) (k a) Q X) -> safe P (wbind m k) Q X.
Proof.
  intros Hm Hk w Hw. specialize (Hm w Hw). unfold wbind. destruct (m w) as [w' [e|a]]; [done|]. by apply Hk.
Qed.

Lemma pm_ret_safe {A} (P : world -> Prop) (a : A) Q X : (forall w, P w -> Q a w) -> safe P (wret a) Q X.
Proof. intros Hq w Hw. by apply Hq. Qed.

Lemma pm_raise_safe {A} (P : world -> Prop) e (Q : A -> world -> Prop) (X : world -> Prop) :
  e <> Failure UndefinedBehaviour -> (forall w, P w -> X w) -> safe P (wraise e) Q X.
Proof. intros He Hx w Hw. split; [done|by apply Hx]. Qed.

Lemma pm_lift_safe {A} (P : world -> Prop) (r : result A) (Q : A -> world -> Prop) (X : world -> Prop) : r <> Err UndefinedBehaviour ->
  (forall a w, r = Ok a -> P w -> Q a w) -> (forall w, P w -> X w) -> safe P (wlift r) Q X.
Proof.
  intros Hr Hq Hx w Hw. destruct r as [a|e]; cbn [wlift]; [by apply Hq|]. split; [congruence|by apply Hx].
Qed.

Lemma pm_weaken_safe {A} (P P' : world -> Prop) (m : PM A) (Q Q' : A -> world -> Prop) (X X' : world -> Prop) : safe P' m Q' X' ->
  (forall w, P w -> P' w) -> (forall a w, Q' a w -> Q a w) -> (forall w, X' w -> X w) -> safe P m Q X.
Proof.
  intros Hm Hp Hq Hx w Hw. specialize (Hm w (Hp w Hw)). destruct (m w) as [w' [e|a]]; [|by apply Hq].
  destruct Hm as [? ?]. split; [done|by apply Hx].
Qed.

Lemma pm_try_safe {A} P (m : PM A) h Q Y X : safe P m Q Y -> (forall e, e <> Failure UndefinedBehaviour -> safe Y (h e) Q X) ->
  safe P (pm_try m h) Q X.
Proof.
  intros Hm Hh w Hw. specialize (Hm w Hw). unfold pm_try. destruct (m w) as [w' [e|a]]; [|done]. destruct Hm as [He HY].
  specialize (Hh e He w' HY). destruct e as [[]| |]; done.
Qed.

(** The pools are [m]. *)
Definition ok (x : option nat) (out : gset Z) (m : PoolMap) (w : world) : Prop := pool_ok x out w /\ _pools w = m.

Lemma in_use x out m c w : ok x out m w -> c ∈ out -> exists k, heap w !! c = Some k /\ d_ok (getSoTimeout k).
Proof. intros [Hw _] Hc. destruct (po_out _ _ _ Hw c Hc) as [[k Ek] _]. exists k. split; [done|by apply (po_times _ _ _ Hw c)]. Qed.

Lemma safe_deref x out m c : c ∈ out -> safe (ok x out m) (deref c) (fun k w => ok x out m w /\ heap w !! c = Some k) (fun _ => False).
Proof. intros Hc w Hw. destruct (in_use _ _ _ _ _ Hw Hc) as (k & Ek & _). unfold deref. by rewrite Ek. Qed.

Lemma safe_delete x out m c : c ∈ out -> safe (ok x out m) (delete_conn c) (fun _ => ok x (out ∖ {[c]}) m) (fun _ => False).
Proof.
  intros Hc w [Hw Hm]. destruct (delete_ok x out w c Hw Hc) as (w' & -> & Hw' & Hp & _). split; [done|congruence].
Qed.

Lemma safe_time x out m : safe (ok x out m) time (fun _ => ok x out m) (fun _ => False).
Proof. intros w [Hw Hm]. unfold time. destruct (time_ (outer w)) as [e t]. split; [by apply outer_ok|done]. Qed.

Lemma safe_on_conn {A} x out m c (f : Conn -> E -> E * (Conn * (exn + A))) (R : A -> Conn -> Prop) : c ∈ out ->
  (forall k e, d_ok (getSoTimeout k) -> let '(_, (k', r)) := f k e in d_ok (getSoTimeout k') /\ r <> inl (Failure UndefinedBehaviour) /\
     match r with inr a => R a k' | _ => True end) ->
  safe (ok x out m) (on_conn f c) (fun a w => ok x out m w /\ exists k, heap w !! c = Some k /\ R a k) (ok x out m).
Proof.
  intros Hc Hf w Hw. destruct (in_use _ _ _ _ _ Hw Hc) as (k & Ek & Hk). unfold on_conn. rewrite Ek.
  specialize (Hf k (outer w) Hk). destruct (f k (outer w)) as [e [k' r]]. destruct Hf as (Hk' & He & Hr). destruct Hw as [Hw Hm].
  assert (ok x out m (with_outer e (with_heap (<[c:=k']> (heap w)) w))) as Hok.
  { split; [|done]. apply (same_set x (out ∪ {[c]})); [set_solver|]. apply change_ok; [done|by apply (po_out _ _ _ Hw)|done]. }
  destruct r as [e'|a]; [split; [congruence|done]|]. split; [done|]. exists k'. split; [|done]. cbn. by rewrite lookup_insert_eq.
Qed.

Lemma safe_hooks x out m c f (hs : list (DBConnectionHook E)) : c ∈ out -> Forall (fun h => hook_calm (f h)) hs ->
  safe (ok x out m) (run_hooks f hs c) (fun _ => ok x out m) (ok x out m).
Proof.
  intros Hc. induction 1 as [|h hs Hh _ IH]; cbn [run_hooks]; [by apply pm_ret_safe|].
  eapply pm_bind_safe; [apply (safe_on_conn x out m c (f h) (fun _ _ => True) Hc)|].
  - intros k e Hk. specialize (Hh k e Hk). destruct (f h k e) as [? [k' [|]]]; naive_solver.
  - intros a. eapply pm_weaken_safe; [exact IH|naive_solver..].
Qed.

Lemma safe_onDestroy x out m c : c ∈ out -> safe (ok x out m) (onDestroy c) (fun _ => ok x out m) (ok x out m).
Proof.
  intros Hc w Hw. unfold onDestroy. apply (safe_hooks x out m c hook_onDestroy (_hooks w) Hc); [|done].
  eapply Forall_impl; [apply (po_hooks _ _ _ (proj1 Hw))|]. by intros h (_ & _ & ?).
Qed.
Lemma safe_onCreate x out m c : c ∈ out -> safe (ok x out m) (onCreate c) (fun _ => ok x out m) (ok x out m).
Proof.
  intros Hc w Hw. unfold onCreate. apply (safe_hooks x out m c hook_onCreate (_hooks w) Hc); [|done].
  eapply Forall_impl; [apply (po_hooks _ _ _ (proj1 Hw))|]. by intros h (? & _ & _).
Qed.
Lemma safe_onHandedOut x out m c : c ∈ out -> safe (ok x out m) (onHandedOut c) (fun _ => ok x out m) (ok x out m).
Proof.
  intros Hc w Hw. unfold onHandedOut. apply (safe_hooks x out m c hook_onHandedOut (_hooks w) Hc); [|done].
  eapply Forall_impl; [apply (po_hooks _ _ _ (proj1 Hw))|]. by intros h (_ & ? & _).
Qed.

(** A connection is told and deleted; after an exception it is still there. *)
Lemma safe_destroy x out m c : c ∈ out ->
  safe (ok x out m) (act! _ := onDestroy c in delete_conn c) (fun _ => ok x (out ∖ {[c]}) m) (ok x out m).
Proof.
  intros Hc. eapply pm_bind_safe; [by apply safe_onDestroy|]. intros ?. eapply pm_weaken_safe; [by apply (safe_delete x out m)|done..].
Qed.

Definition change (i : nat) (p' : PoolForHost) (m : PoolMap) : PoolMap := alter (fun kp => (fst kp, p')) i m.

Lemma change_lookup i p p' k (m : PoolMap) : m !! i = Some (k, p) -> change i p' m !! i = Some (k, p').
Proof. intros Hi. unfold change. by rewrite list_lookup_alter_eq, Hi. Qed.
Lemma change_keys i p' (m : PoolMap) : map fst (change i p' m) = map fst m.
Proof.
  unfold change. revert i. induction m as [|[k p] m IH]; intros i; [done|]. destruct i; cbn; [done|].
  f_equal. apply IH.
Qed.
Lemma change_change i p p' (m : PoolMap) : change i p' (change i p m) = change i p' m.
Proof. unfold change. revert i. induction m as [|[k q] m IH]; intros i; [done|]. destruct i; cbn; [done|]. f_equal. apply IH. Qed.
Lemma change_same i k p (m : PoolMap) : m !! i = Some (k, p) -> change i p m = m.
Proof.
  unfold change. revert i. induction m as [|[k' q] m IH]; intros i Hi; [done|]. destruct i; cbn in *; [by injection Hi as -> ->|].
  f_equal. by apply IH.
Qed.

Lemma put_change i k p f (m : PoolMap) (w : world) : _pools w = m -> m !! i = Some (k, p) ->
  put_pool i f w = (with_pools (change i (f p) m) w, inr tt).
Proof.
  intros <- Hi. unfold put_pool, change. do 2 f_equal. apply list_alter_ext; [|done]. intros [k' p'] Ek. rewrite Hi in Ek. by simplify_eq.
Qed.

Lemma safe_get_pool x out m i k p : m !! i = Some (k, p) ->
  safe (ok x out m) (get_pool i) (fun q w => q = p /\ ok x out m w) (fun _ => False).
Proof. intros Hi w [Hw Hm]. unfold get_pool. by rewrite Hm, Hi. Qed.

Definition same_pool (p p' : PoolForHost) : Prop := _minValidCreationTimeMicroSec p' = _minValidCreationTimeMicroSec p.

(** The stack loses [dropped]. *)
Lemma safe_drop x out out' m i k p f dropped : m !! i = Some (k, p) -> conns (_pool (f p)) ++ dropped ≡ₚ conns (_pool p) ->
  same_pool p (f p) -> (forall c, c ∈ out' <-> c ∈ out \/ c ∈ dropped) ->
  safe (ok x out m) (put_pool i f) (fun _ => ok x out' (change i (f p) m)) (fun _ => False).
Proof.
  intros Hi Hp Hs Ho w [Hw Hm]. rewrite (put_change i k p f m w Hm Hi). split; [|done]. rewrite <- Hm in Hi |- *.
  apply (restack x out out' w i k p (f p) [] dropped); [done|done|by rewrite app_nil_r|constructor|by intros c ?%elem_of_nil| |].
  - intros c. rewrite Ho, elem_of_nil. naive_solver.
  - intros c Hc. destruct (po_belongs _ _ _ Hw i k p Hi) as [_ Hb]. destruct (Hb c) as (kc & E1 & E2 & E3).
    + rewrite <- Hp. apply elem_of_app. by left.
    + exists kc. rewrite Hs. done.
Qed.

Lemma in_conns x out m w i k p c : ok x out m w -> m !! i = Some (k, p) -> c ∈ conns (_pool p) -> c ∉ out.
Proof. intros [Hw <-] Hi Hc Ho. apply (proj2 (po_out _ _ _ Hw c Ho)). by apply (in_stacks _ i k p). Qed.

(** *** Clearing a pool *)

Lemma safe_clear_loop x out i k l : forall p m, m !! i = Some (k, p) -> _pool p = l ->
  safe (ok x out m) (clear_loop i l) (fun _ w => exists p', _pool p' = [] /\ same_pool p p' /\ ok x out (change i p' m) w) (fun _ => False).
Proof.
  induction l as [|sc l IH]; intros p m Hi Hl; cbn [clear_loop].
  - apply pm_ret_safe. intros w Hw. exists p. split; [done|]. split; [done|]. by rewrite (change_same i k).
  - intros w Hw. assert (st_conn sc ∈ conns (_pool p)) as Hin by (rewrite Hl; by left).
    assert (exists kc, heap w !! st_conn sc = Some kc) as [kc Ekc].
    { destruct Hw as [Hw Hm]. rewrite <- Hm in Hi. destruct (po_belongs _ _ _ Hw i k p Hi) as [_ Hb]. destruct (Hb _ Hin) as (kc & ? & _). by exists kc. }
    assert (m !! i = Some (k, p)) as Hi0 by done.
    assert (forall K : PM unit, (act! _ := delete_conn (st_conn sc) in act! _ := put_pool i (set_stack l) in K) w =
      (act! _ := put_pool i (set_stack l) in act! _ := delete_conn (st_conn sc) in K) w) as Hswap.
    { intros K. unfold wbind, delete_conn, put_pool. cbn [heap with_pools]. rewrite Ekc. done. }
    rewrite Hswap. apply (pm_bind_safe (ok x out m) _ _ (fun _ => ok x (out ∪ {[st_conn sc]}) (change i (set_stack l p) m)) _ (fun _ => False)); [| |done].
    + apply (safe_drop x out _ m i k p (set_stack l) [st_conn sc]); [done| |done|set_solver].
      rewrite Hl. cbn. by rewrite Permutation_app_comm.
    + intros ?. eapply pm_bind_safe; [apply safe_delete; set_solver|]. intros ?.
      eapply pm_weaken_safe; [apply (IH (set_stack l p)); [by apply (change_lookup i p)|done]| | |done].
      * intros w1 [H1 H2]. split; [|exact H2]. eapply same_set; [|exact H1]. pose proof (in_conns _ _ _ _ _ _ _ _ Hw Hi0 Hin). set_solver.
      * intros _ w1 (p' & Hp' & Hs & H1). exists p'. rewrite change_change in H1. done.
Qed.

Lemma safe_clear x out m i k p : m !! i = Some (k, p) ->
  safe (ok x out m) (host_clear i) (fun _ w => exists p', _pool p' = [] /\ same_pool p p' /\ ok x out (change i p' m) w) (fun _ => False).
Proof.
  intros Hi. eapply pm_bind_safe; [by apply (safe_get_pool x out m i k p)|]. intros q.
  intros w [-> Hw]. by apply (safe_clear_loop x out i k (_pool p) p m).
Qed.

Lemma exempt out (w : world) i : pool_ok None out w -> pool_ok (Some i) out w.
Proof.
  intros [? ? Hb ? ?]. split; [done|done| |done|done]. intros j k p Hj. destruct (Hb j k p Hj) as [Ht Hc]. split; [done|].
  intros c Hin. destruct (Hc c Hin) as (kc & E1 & E2 & E3). exists kc. split; [done|]. split; [done|]. intros _. by apply E3.
Qed.

Lemma not_exempt out (w : world) i k p : pool_ok (Some i) out w -> _pools w !! i = Some (k, p) -> _pool p = [] -> pool_ok None out w.
Proof.
  intros [? ? Hb ? ?] Hi Hp. split; [done|done| |done|done]. intros j k' q Hj. destruct (Hb j k' q Hj) as [Ht Hc]. split; [done|].
  intros c Hin. destruct (decide (j = i)) as [->|Hne].
  - rewrite Hi in Hj. injection Hj as <- <-. rewrite Hp in Hin. by apply elem_of_nil in Hin.
  - destruct (Hc c Hin) as (kc & E1 & E2 & E3). exists kc. split; [done|]. split; [done|]. intros _. apply E3. congruence.
Qed.

Lemma safe_reportBad out m i k p t : m !! i = Some (k, p) ->
  safe (ok None out m) (reportBadConnectionAt i t) (fun _ w => exists p', _minValidCreationTimeMicroSec p <= _minValidCreationTimeMicroSec p' /\
    (t <> INVALID_SOCK_CREATION_TIME -> t <= _minValidCreationTimeMicroSec p') /\ ok None out (change i p' m) w) (fun _ => False).
Proof.
  intros Hi. eapply pm_bind_safe; [by apply (safe_get_pool None out m i k p)|]. intros q w [-> Hw].
  destruct (Z.eqb_spec t INVALID_SOCK_CREATION_TIME) as [Et|Et]; cbn [negb andb].
  { exists p. rewrite (change_same i k p m Hi). split; [lia|]. split; [done|done]. }
  destruct (Z.ltb_spec (_minValidCreationTimeMicroSec p) t) as [Hlt|Hge].
  2:{ exists p. rewrite (change_same i k p m Hi). split; [lia|]. split; [lia|done]. }
  set (q := set_minValid t p). destruct Hw as [Hw Hm]. unfold wbind at 1. rewrite (put_change i k p _ m w Hm Hi). fold q.
  assert (ok (Some i) out (change i q m) (with_pools (change i q m) w)) as Hq.
  { split; [|done]. rewrite <- Hm in Hi |- *. apply (restack (Some i) out out w i k p q [] []); [by apply exempt|done|done|constructor| | |].
    - by intros c ?%elem_of_nil.
    - intros c. rewrite elem_of_nil. naive_solver.
    - intros c Hc. destruct (po_belongs _ _ _ Hw i k p Hi) as [_ Hb]. destruct (Hb c Hc) as (kc & E1 & E2 & _). exists kc. done. }
  pose proof (safe_clear (Some i) out (change i q m) i k q (change_lookup i p q k m Hi) _ Hq) as Hc.
  destruct (host_clear i _) as [w' [e|[]]]; [by destruct Hc|]. destruct Hc as (p' & Hnil & Hs & Hok). rewrite change_change in Hok.
  exists p'. rewrite Hs. split; [cbn; lia|]. split; [cbn; lia|]. destruct Hok as [Hok Hm']. split; [|done].
  apply (not_exempt out w' i k p' Hok); [|done]. rewrite Hm'. by apply (change_lookup i p).
Qed.

Lemma get_pool_eq x out m i k p w : ok x out m w -> m !! i = Some (k, p) -> get_pool i w = (w, inr p).
Proof. intros [_ <-] Hi. unfold get_pool. by rewrite Hi. Qed.

(** A connection is pushed. *)
Lemma safe_push out m i k p c : m !! i = Some (k, p) -> c ∈ out ->
  safe (fun w => ok None out m w /\ belongs (heap w) True k p c) (push_conn i c)
    (fun _ w => exists s, st_conn s = c /\ ok None (out ∖ {[c]}) (change i (set_stack (s :: _pool p) p) m) w) (fun _ => False).
Proof.
  intros Hi Hc w [[Hw Hm] (kc & E1 & E2 & E3)]. unfold push_conn, wbind, time. destruct (time_ (outer w)) as [e t].
  rewrite (put_change i k p _ m (with_outer e w) Hm Hi). exists (MkStored c t). split; [done|]. split; [|done]. rewrite <- Hm in Hi |- *.
  apply (restack None out _ (with_outer e w) i k p _ [c] []); [by apply outer_ok|done| |apply NoDup_singleton| | |].
  - cbn. rewrite app_nil_r. apply Permutation_cons_append.
  - by intros d ->%list_elem_of_singleton.
  - intros d. rewrite list_elem_of_singleton, elem_of_nil. set_solver.
  - intros d [->|Hd]%elem_of_cons; cbn [st_conn].
    + exists kc. split; [done|]. split; [done|]. intros _. by apply E3.
    + destruct (po_belongs _ _ _ Hw i k p Hi) as [_ Hb]. by apply Hb.
Qed.

Lemma safe_done out m i k p c : m !! i = Some (k, p) -> c ∈ out ->
  safe (fun w => ok None out m w /\ forall kc, heap w !! c = Some kc -> d_eqb (getSoTimeout kc) (timeout k) = true) (host_done i c)
    (fun _ w => exists p', _minValidCreationTimeMicroSec p <= _minValidCreationTimeMicroSec p' /\ ok None (out ∖ {[c]}) (change i p' m) w)
    (fun w => exists p', ok None out (change i p' m) w).
Proof.
  intros Hi Hc w [Hw Ht]. destruct (in_use _ _ _ _ _ Hw Hc) as (kc & Ek & _). specialize (Ht kc Ek).
  assert (forall p', safe (ok None out (change i p' m)) (act! _ := onDestroy c in delete_conn c)
    (fun _ => ok None (out ∖ {[c]}) (change i p' m)) (ok None out (change i p' m))) as Hd by (intros p'; by apply safe_destroy).
  unfold host_done, wbind at 1, deref. rewrite Ek. destruct (isFailed kc).
  - pose proof (safe_reportBad out m i k p (getSockCreationMicroSec kc) Hi w Hw) as Hr. unfold wbind at 1.
    destruct (reportBadConnectionAt i _ w) as [w1 [e|[]]]; [by destruct Hr|]. destruct Hr as (p' & Hp' & _ & Hok).
    specialize (Hd p' w1 Hok). destruct ((act! _ := onDestroy c in delete_conn c) w1) as [w2 [e|[]]]; [|by exists p'].
    destruct Hd. split; [done|by exists p'].
  - unfold wbind at 1. rewrite (get_pool_eq _ _ m i k p w Hw Hi). specialize (Hd p). rewrite (change_same i k p m Hi) in Hd.
    destruct (_ || _) eqn:Econd.
    + specialize (Hd w Hw). destruct ((act! _ := onDestroy c in delete_conn c) w) as [w2 [e|[]]].
      * destruct Hd. split; [done|]. exists p. by rewrite (change_same i k p m Hi).
      * exists p. split; [lia|]. by rewrite (change_same i k p m Hi).
    + apply orb_false_elim in Econd as [_ Hlt%Z.ltb_ge].
      pose proof (safe_push out m i k p c Hi Hc w) as Hp. destruct (push_conn i c w) as [w2 [e|[]]].
      * destruct Hp; [|done]. split; [done|]. by exists kc.
      * destruct Hp as (s & _ & Hok); [split; [done|by exists kc]|]. by exists (set_stack (s :: _pool p) p).
Qed.

(** A connection that nobody knows any more stays in the heap. *)
Lemma forget x (out out' : gset Z) m (w : world) : out' ⊆ out -> ok x out m w -> ok x out' m w.
Proof. intros Hs [[? Ho ? ? ?] Hm]. split; [|done]. split; try done. intros c Hc. apply Ho, Hs, Hc. Qed.

Definition keeps (i : nat) (p : PoolForHost) (out : gset Z) (m : PoolMap) (w : world) : Prop :=
  exists p', _minValidCreationTimeMicroSec p <= _minValidCreationTimeMicroSec p' /\ ok None out (change i p' m) w.

Lemma keeps_step i p q out m w : keeps i q out (change i q m) w -> _minValidCreationTimeMicroSec p <= _minValidCreationTimeMicroSec q ->
  keeps i p out m w.
Proof. intros (p' & Hp & Hw) Hq. exists p'. split; [lia|]. by rewrite change_change in Hw. Qed.

Lemma keeps_same i k p out m w : m !! i = Some (k, p) -> ok None out m w -> keeps i p out m w.
Proof. intros Hi Hw. exists p. split; [lia|]. by rewrite (change_same i k p m Hi). Qed.

Definition given (i : nat) (p : PoolForHost) (out : gset Z) (m : PoolMap) (r : option Z) (w : world) : Prop :=
  match r with
  | Some c => c ∉ out /\ keeps i p (out ∪ {[c]}) m w /\
      exists kc, heap w !! c = Some kc /\ _minValidCreationTimeMicroSec p <= getSockCreationMicroSec kc
  | None => keeps i p out m w
  end.

Lemma safe_get_loop out i k now t l : d_ok t -> d_key t = d_key (timeout k) -> forall p m, m !! i = Some (k, p) -> _pool p = l ->
  safe (ok None out m) (get_loop i now t l) (given i p out m) (keeps i p out m).
Proof.
  intros Ht Hkey. induction l as [|sc l IH]; intros p m Hi Hl; cbn [get_loop].
  - apply pm_ret_safe. intros w Hw. by apply (keeps_same i k).
  - intros w Hw. set (c := st_conn sc). assert (c ∈ conns (_pool p)) as Hin by (rewrite Hl; by left).
    pose proof (in_conns _ _ _ _ _ _ _ _ Hw Hi Hin) as Hnc.
    destruct Hw as [Hw Hm]. pose proof Hi as Hi'. rewrite <- Hm in Hi'. destruct (po_belongs _ _ _ Hw i k p Hi') as [Htk Hb].
    destruct (Hb c Hin) as (kc & Ekc & Heq & Hmin). set (q := set_stack l p). set (m' := change i q m).
    pose proof (safe_drop None out (out ∪ {[c]}) m i k p (set_stack l) [c] Hi) as Hd.
    assert (conns (_pool (set_stack l p)) ++ [c] ≡ₚ conns (_pool p)) as Hperm by (rewrite Hl; cbn; by rewrite Permutation_app_comm).
    assert (forall d, d ∈ out ∪ {[c]} <-> d ∈ out \/ d ∈ [c]) as Hset by set_solver.
    specialize (Hd Hperm eq_refl Hset w (conj Hw Hm)). unfold wbind at 1. rewrite (put_change i k p _ m w Hm Hi) in Hd |- *.
    fold q m' in Hd |- *. set (w1 := with_pools m' w) in *. destruct (st_ok now sc); cbn [negb].
    + unfold wbind at 1, deref. cbn [heap with_pools w1]. rewrite Ekc. unfold wbind. assert (d_eqb (getSoTimeout kc) t = true) as ->.
      { pose proof (po_times _ _ _ Hw c kc Ekc) as Htc. apply d_same; [done|done|]. rewrite Hkey. by apply d_same. }
      cbn [verify wlift wret]. split; [done|]. split; [exists q; split; [cbn; lia|exact Hd]|]. exists kc. split; [done|]. by apply Hmin.
    + assert (m' !! i = Some (k, q)) as Hi2 by by apply (change_lookup i p).
      assert (forall o w', keeps i q o m' w' -> keeps i p o m w') as Hstep by (intros o w' Hk; apply (keeps_step i p q); [done|cbn; lia]).
      refine (pm_bind_safe (ok None (out ∪ {[c]}) m') _ _ (fun _ => ok None (out ∪ {[c]}) m') _ (keeps i p out m) _ _ w1 Hd).
      { eapply pm_weaken_safe; [apply (safe_onDestroy None (out ∪ {[c]}) m' c); set_solver|done|done|]. intros w' Hw'. apply Hstep, (keeps_same i k); [done|].
        apply (forget None (out ∪ {[c]})); [set_solver|done]. }
      intros ?. eapply pm_bind_safe; [eapply pm_weaken_safe; [apply (safe_delete None (out ∪ {[c]}) m' c); set_solver|done|done|done]|].
      intros ?. eapply pm_weaken_safe; [apply (IH q m' Hi2 eq_refl)| | |].
      * intros w' [H1 H2]. split; [|done]. eapply same_set; [|exact H1]. set_solver.
      * intros [d|] w'; [|by apply Hstep]. intros (H1 & H2 & H3). split; [done|]. split; [by apply Hstep|done].
      * intros w'. apply Hstep.
Qed.

Lemma safe_get out m i k p t : m !! i = Some (k, p) -> d_ok t -> d_key t = d_key (timeout k) ->
  safe (ok None out m) (host_get i t) (given i p out m) (keeps i p out m).
Proof.
  intros Hi Ht Hk. eapply pm_bind_safe; [eapply pm_weaken_safe; [apply safe_time|done|done|done]|]. intros now.
  eapply pm_bind_safe; [eapply pm_weaken_safe; [by apply (safe_get_pool None out m i k p)|done|intros ? ? Hx; exact Hx|done]|].
  intros q w [-> Hw]. by apply (safe_get_loop out i k now t (_pool p) Ht Hk p m).
Qed.

(** *** Flushing *)

(** [all] were taken off the stack of the pool and belong to it. *)
Definition held (out : gset Z) (k : PoolKey) (p : PoolForHost) (all : list StoredConnection) (m : PoolMap) (w : world) : Prop :=
  ok None (out ∪ list_to_set (conns all)) m w /\ NoDup (conns all) /\ (forall c, c ∈ conns all -> c ∉ out) /\
  forall c, c ∈ conns all -> belongs (heap w) True k p c.

Lemma ping_step x out m c w kc : ok x out m w -> c ∈ out -> heap w !! c = Some kc -> exists w' r k', on_conn ping c w = (w', r) /\
  r <> inl (Failure UndefinedBehaviour) /\ ok x out m w' /\ heap w' = <[c := k']> (heap w) /\ getSoTimeout k' = getSoTimeout kc /\
  getSockCreationMicroSec kc <= getSockCreationMicroSec k'.
Proof.
  intros [Hw Hm] Hc Ek. unfold on_conn. rewrite Ek. pose proof (ping_calm kc (outer w)) as Hp. destruct (ping kc (outer w)) as [e [k' r]].
  destruct Hp as (H1 & H2 & H3). eexists _, r, k'. split; [done|]. split; [done|]. split; [|done]. split; [|done].
  eapply same_set; [|apply (change_ok x out w c k' e Hw)]; [set_solver|by apply (po_out _ _ _ Hw)|]. rewrite H1. by apply (po_times _ _ _ Hw c).
Qed.

Lemma belongs_change h c k' k p d : c <> d -> belongs h True k p d -> belongs (<[c := k']> h) True k p d.
Proof. intros Hne (kc & E1 & E2). exists kc. split; [|done]. by rewrite lookup_insert_ne. Qed.

(** The connection [c] answered, or did not and was deleted. *)
Lemma held_kept out k p all m (w w2 : world) sc k' : held out k p all m w -> st_conn sc ∉ out -> st_conn sc ∉ conns all ->
  ok None ((out ∪ list_to_set (conns all)) ∪ {[st_conn sc]}) m w2 -> heap w2 = <[st_conn sc := k']> (heap w) ->
  belongs (heap w2) True k p (st_conn sc) -> held out k p (all ++ [sc]) m w2.
Proof.
  intros (Hw & Hnd & Hdis & Hbel) Hno Hna Hw2 Hh2 Hb. unfold held. assert (conns (all ++ [sc]) = conns all ++ [st_conn sc]) as -> by apply map_app.
  split; [|split; [|split]].
  - destruct Hw2 as [Hw2 ?]. split; [|done]. eapply same_set; [|exact Hw2]. rewrite list_to_set_app_L. cbn. set_solver.
  - apply NoDup_app. split; [done|]. split; [|apply NoDup_singleton]. by intros d Hd ->%list_elem_of_singleton.
  - intros d [Hd| ->%list_elem_of_singleton]%elem_of_app; [by apply Hdis|done].
  - intros d [Hd| ->%list_elem_of_singleton]%elem_of_app; [|done]. rewrite Hh2. apply belongs_change; [by intros <-|]. by apply Hbel.
Qed.

Lemma held_deleted out k p all m (w w2 : world) c k' : held out k p all m w -> c ∉ out -> c ∉ conns all ->
  ok None ((out ∪ list_to_set (conns all)) ∪ {[c]}) m w2 -> heap w2 = <[c := k']> (heap w) ->
  exists w3, delete_conn c w2 = (w3, inr tt) /\ held out k p all m w3.
Proof.
  intros (Hw & Hnd & Hdis & Hbel) Hno Hna Hw2 Hh2. pose proof (safe_delete None (out ∪ list_to_set (conns all) ∪ {[c]}) m c ltac:(set_solver) w2 Hw2) as Hdel.
  unfold delete_conn in *. rewrite Hh2, lookup_insert_eq in *. eexists. split; [done|]. split; [|split; [done|split; [done|]]].
  - destruct Hdel as [Hdel ?]. split; [|done]. eapply same_set; [|exact Hdel]. set_solver.
  - intros d Hd. cbn [heap with_heap]. destruct (Hbel d Hd) as (kd & E1 & E2). exists kd. split; [|done].
    rewrite lookup_delete_ne, lookup_insert_ne; [done|by intros <-..].
Qed.

Lemma safe_flush_loop out i k l : forall p m all, m !! i = Some (k, p) -> _pool p = l ->
  safe (held out k p all m) (flush_loop i l all)
    (fun all' w => exists p', _pool p' = [] /\ same_pool p p' /\ held out k p' all' (change i p' m) w) (fun _ => False).
Proof.
  induction l as [|sc l IH]; intros p m all Hi Hl w (Hw & Hnd & Hdis & Hbel); cbn [flush_loop].
  { exists p. rewrite (change_same i k p m Hi). done. }
  set (c := st_conn sc). set (q := set_stack l p). set (o := out ∪ list_to_set (conns all)) in *.
  assert (c ∈ conns (_pool p)) as Hin by (rewrite Hl; by left). pose proof (in_conns _ _ _ _ _ _ _ _ Hw Hi Hin) as Hnc.
  assert (belongs (heap w) True k p c) as (kc & Ekc & Heq & Hmin).
  { destruct Hw as [Hw Hm]. rewrite <- Hm in Hi. destruct (po_belongs _ _ _ Hw i k p Hi) as [_ Hb]. destruct (Hb c Hin) as (kc & ? & ? & Hx).
    exists kc. split; [done|]. split; [done|]. intros _. by apply Hx. }
  pose proof (safe_drop None o (o ∪ {[c]}) m i k p (set_stack l) [c] Hi) as Hd.
  assert (conns (_pool (set_stack l p)) ++ [c] ≡ₚ conns (_pool p)) as Hperm by (rewrite Hl; cbn; by rewrite Permutation_app_comm).
  specialize (Hd Hperm eq_refl ltac:(set_solver) w Hw). unfold wbind at 1.
  rewrite (put_change i k p _ m w (proj2 Hw) Hi) in Hd |- *. fold q in Hd |- *. set (m' := change i q m) in *. set (w1 := with_pools m' w) in *.
  assert (m' !! i = Some (k, q)) as Hi2 by by apply (change_lookup i p).
  destruct (ping_step None (o ∪ {[c]}) m' c w1 kc Hd ltac:(set_solver) Ekc) as (w2 & r & k' & Er & Hr & Hw2 & Hh2 & Ht2 & Hc2).
  assert (c ∉ conns all) as Hna by set_solver. assert (c ∉ out) as Hno by set_solver.
  assert (forall all' w', held out k q all' m' w' -> match flush_loop i l all' w' with
    | (w'', inr a) => exists p', _pool p' = [] /\ same_pool p p' /\ held out k p' a (change i p' m) w''
    | (w'', inl e) => e <> Failure UndefinedBehaviour /\ False end) as Hrest.
  { intros all' w' Hheld. pose proof (IH q m' all' Hi2 eq_refl w' Hheld) as Hx. destruct (flush_loop i l all' w') as [w'' [e|a]]; [done|].
    destruct Hx as (p' & H1 & H2 & H3). exists p'. unfold m' in H3. rewrite change_change in H3. done. }
  assert (forall d, ok None (o ∪ d) m' w1 -> held out k q all m' w1) as Hheld.
  { intros d Hok. split; [|done]. apply (forget None (o ∪ d)); [set_solver|done]. }
  specialize (Hheld _ Hd). unfold wbind at 1, pm_try, wbind at 1. rewrite Er. destruct r as [e|b].
  - destruct (held_deleted out k q all m' w1 w2 c k' Hheld Hno Hna Hw2 Hh2) as (w3 & Edel & Hw3).
    assert ((act! _ := delete_conn c in wret false) w2 = (w3, inr false)) as Eh by (unfold wbind; by rewrite Edel).
    destruct e as [[]| |]; try (rewrite Eh; by apply Hrest). by destruct Hr.
  - cbn [wret]. apply Hrest, (held_kept out k q all m' w1 w2 sc k' Hheld Hno Hna Hw2 Hh2).
    exists k'. fold c. rewrite Hh2, lookup_insert_eq. split; [done|]. rewrite Ht2. split; [done|]. intros _. cbn. specialize (Hmin Logic.I). lia.
Qed.

(** The pools are those of the keys [ks]. *)
Definition okp (out : gset Z) (ks : list PoolKey) (w : world) : Prop := pool_ok None out w /\ map fst (_pools w) = ks.

Lemma okp_ok out ks w : okp out ks w -> ok None out (_pools w) w.
Proof. by intros [? _]. Qed.
Lemma ok_okp out i p' m ks w : ok None out (change i p' m) w -> map fst m = ks -> okp out ks w.
Proof. intros [? Hm] <-. split; [done|]. by rewrite Hm, change_keys. Qed.

(** A triple about every pool of these keys. *)
Lemma safe_okp {A} out ks i k (f : PM A) (Q : A -> world -> Prop) (X : world -> Prop) : ks !! i = Some k ->
  (forall m p, map fst m = ks -> m !! i = Some (k, p) -> safe (ok None out m) f Q X) -> safe (okp out ks) f Q X.
Proof.
  intros Hi Hf w [Hw Hk]. destruct (_pools w !! i) as [[k' p]|] eqn:Ep.
  - assert (k' = k) as ->; [|by apply (Hf (_pools w) p)]. rewrite <- Hk in Hi. apply list_lookup_fmap_Some in Hi as ([k2 p2] & -> & E2). cbn. congruence.
  - rewrite <- Hk in Hi. apply list_lookup_fmap_Some in Hi as (x & _ & E2). congruence.
Qed.

Lemma safe_push_all out m i k p all : m !! i = Some (k, p) -> _pool p = [] ->
  safe (held out k p all m) (push_all i all) (fun _ => ok None out (change i (set_stack (rev all) p) m)) (fun _ => False).
Proof.
  intros Hi Hp w ([Hw Hm] & Hnd & Hdis & Hbel). unfold push_all. rewrite (put_change i k p _ m w Hm Hi), Hp, app_nil_r. split; [|done].
  rewrite <- Hm in Hi |- *. assert (conns (rev all) ≡ₚ conns all) as Hperm by (unfold conns; rewrite map_rev; symmetry; apply Permutation_rev).
  apply (restack None _ out w i k p _ (conns all) [] Hw Hi).
  - rewrite Hp, app_nil_r. exact Hperm.
  - done.
  - set_solver.
  - intros c. rewrite elem_of_nil. set_solver.
  - intros c Hc. cbn in Hc. rewrite Hperm in Hc. destruct (Hbel c Hc) as (kc & E1 & E2 & E3). exists kc. split; [done|]. split; [done|]. intros _. by apply E3.
Qed.

Lemma safe_flush out ks i k : ks !! i = Some k -> safe (okp out ks) (host_flush i) (fun _ => okp out ks) (fun _ => False).
Proof.
  intros Hk. apply (safe_okp out ks i k _ _ _ Hk). intros m p Hks Hi.
  eapply pm_bind_safe; [by apply (safe_get_pool None out m i k p)|]. intros q. 
  eapply pm_bind_safe.
  - intros w [-> Hw]. refine (safe_flush_loop out i k (_pool p) p m [] Hi eq_refl w _). split; [|split; [constructor|split; by intros c ?%elem_of_nil]].
    cbn. by apply (forget None out); [set_solver|].
  - intros all w (p' & Hnil & Hs & Hheld). pose proof (safe_push_all out _ i k p' all (change_lookup i p p' k m Hi) Hnil w Hheld) as Hx.
    destruct (push_all i all w) as [w' [e|[]]]; [done|]. rewrite change_change in Hx. by apply (ok_okp out i (set_stack (rev all) p') m).
Qed.

Lemma filter_split (f : StoredConnection -> bool) l :
  conns (rev (List.filter f l)) ++ conns (List.filter (fun s => negb (f s)) l) ≡ₚ conns l.
Proof.
  assert (conns (rev (List.filter f l)) ≡ₚ conns (List.filter f l)) as -> by (unfold conns; rewrite map_rev; symmetry; apply Permutation_rev).
  induction l as [|s l IH]; [done|]. cbn [List.filter]. destruct (f s); cbn.
  - by rewrite <- IH.
  - rewrite <- Permutation_middle. by rewrite <- IH.
Qed.

Definition stale_ok (out : gset Z) (stale : list Z) (w : world) : Prop :=
  NoDup stale /\ forall c, c ∈ stale -> c ∉ out.

Lemma safe_stale out ks i k stale : ks !! i = Some k ->
  safe (fun w => okp (out ∪ list_to_set stale) ks w /\ stale_ok out stale w) (getStaleConnections i stale)
    (fun stale' w => okp (out ∪ list_to_set stale') ks w /\ stale_ok out stale' w) (fun _ => False).
Proof.
  intros Hk w [Hw [Hnd Hdis]]. unfold getStaleConnections, wbind at 1, time. destruct (time_ (outer w)) as [e now]. set (w0 := with_outer e w).
  assert (okp (out ∪ list_to_set stale) ks w0) as [Hw0 Hks] by (destruct Hw; split; [by apply outer_ok|done]). clearbody w0.
  rewrite <- Hks in Hk. apply list_lookup_fmap_Some in Hk as ([k' p] & -> & Hi). cbn [fst] in *.
  unfold wbind at 1, get_pool. rewrite Hi. set (gone := List.filter (fun s => negb (st_ok now s)) (_pool p)). set (good := List.filter (st_ok now) (_pool p)).
  unfold wbind at 1. rewrite (put_change i k' p (set_stack []) (_pools w0) w0 eq_refl Hi). set (q := set_stack [] p).
  unfold wbind at 1, push_all. rewrite (put_change i k' q _ (change i q (_pools w0)) (with_pools (change i q (_pools w0)) w0) eq_refl (change_lookup i p q k' _ Hi)), change_change.
  cbn [wret]. set (p' := set_stack (rev good ++ _pool q) q). assert (_pool p' = rev good) as Ep' by (unfold p'; cbn; apply app_nil_r).
  assert (NoDup (conns (_pool p)) /\ forall c, c ∈ conns (_pool p) -> c ∉ out /\ c ∉ stale) as [Hndp Hno].
  { split; [|intros c Hc; pose proof (in_conns _ _ _ _ _ _ _ _ (conj Hw0 eq_refl) Hi Hc); set_solver].
    destruct (stacks_split _ i k' p Hi) as (a & b & _ & _ & Hst). pose proof (po_nodup _ _ _ Hw0) as Hx. rewrite Hst in Hx.
    by apply NoDup_app in Hx as (? & _). }
  pose proof (filter_split (st_ok now) (_pool p)) as Hperm. fold good gone in Hperm.
  assert (NoDup (conns gone)) as Hndg by (rewrite <- Hperm in Hndp; by apply NoDup_app in Hndp as (_ & _ & ?)).
  assert (forall c, c ∈ conns gone -> c ∈ conns (_pool p)) as Hgp by (intros c Hc; rewrite <- Hperm; apply elem_of_app; by right).
  split; [split; [|by rewrite <- Hks; apply (change_keys i p' (_pools w0))]|split].
  - apply (restack None (out ∪ list_to_set stale) _ w0 i k' p p' [] (conns gone) Hw0 Hi).
    + by rewrite Ep', app_nil_r.
    + constructor.
    + by intros c ?%elem_of_nil.
    + intros c. rewrite list_to_set_app_L, elem_of_nil. set_solver.
    + intros c Hc. destruct (po_belongs _ _ _ Hw0 i k' p Hi) as [_ Hb]. apply Hb. rewrite <- Hperm. apply elem_of_app. left. by rewrite <- Ep'.
  - apply NoDup_app. split; [done|]. split; [|done]. intros c Hc Hg. by apply (Hno c (Hgp c Hg)).
  - intros c [Hc|Hc]%elem_of_app; [by apply Hdis|]. by apply Hno, Hgp.
Qed.

(** *** The pool of a key *)

Lemma not_less_key a b : d_ok (timeout a) -> d_ok (timeout b) -> poolKeyCompare a b = false -> poolKeyCompare b a = false ->
  d_key (timeout a) = d_key (timeout b).
Proof.
  intros [Ha Na] [Hb Nb]. unfold poolKeyCompare. destruct (serverNameCompare (ident a) (ident b)); [done|].
  destruct (serverNameCompare (ident b) (ident a)); [done|]. rewrite !d_ltb_key, Na, Nb by done. cbn.
  intros ?%Z.ltb_ge ?%Z.ltb_ge. lia.
Qed.

Lemma pool_index_spec k m : let '(i, m') := pool_index k m in exists k' p, m' !! i = Some (k', p) /\
  (k' = k \/ poolKeyCompare k' k = false /\ poolKeyCompare k k' = false) /\
  (m' = m \/ exists a b, m = a ++ b /\ m' = a ++ (k, PoolForHost_new) :: b).
Proof.
  induction m as [|[k' p] m IH]; cbn [pool_index].
  { exists k, PoolForHost_new. split; [done|]. split; [by left|]. right. by exists [], []. }
  destruct (poolKeyCompare k' k) eqn:E1; [|destruct (poolKeyCompare k k') eqn:E2].
  - destruct (pool_index k m) as [i m']. destruct IH as (k2 & p2 & Hi & Hk & Hm). exists k2, p2. split; [done|]. split; [done|].
    destruct Hm as [->|(a & b & -> & ->)]; [by left|]. right. by exists ((k', p) :: a), b.
  - exists k, PoolForHost_new. split; [done|]. split; [by left|]. right. by exists [], ((k', p) :: m).
  - exists k', p. split; [done|]. split; [by right|by left].
Qed.

Lemma insert_ok out (w : world) k a b : pool_ok None out w -> _pools w = a ++ b -> d_ok (timeout k) ->
  pool_ok None out (with_pools (a ++ (k, PoolForHost_new) :: b) w).
Proof.
  intros [Hnd Hout Hbel Htm Hhk] Em Hk. assert (stacks (a ++ (k, PoolForHost_new) :: b) = stacks (_pools w)) as Hst by by rewrite Em, !stacks_app.
  split; cbn [_pools heap with_pools _hooks]; rewrite ?Hst; [done|done| |done|done].
  intros i k' p Hi. assert (In (k', p) (a ++ (k, PoolForHost_new) :: b)) as Hin by by eapply list_elem_of_In, list_elem_of_lookup_2.
  apply in_app_iff in Hin. cbn in Hin. assert ((k', p) = (k, PoolForHost_new) \/ In (k', p) (_pools w)) as [[= -> ->]|Hw].
  { rewrite Em, in_app_iff. naive_solver. }
  - split; [done|]. by intros c ?%elem_of_nil.
  - apply list_elem_of_In, list_elem_of_lookup in Hw as [j Hj]. destruct (Hbel j k' p Hj) as [Ht Hb]. split; [done|].
    intros c Hc. destruct (Hb c Hc) as (kc & E1 & E2 & E3). exists kc. split; [done|]. split; [done|]. intros _. by apply E3.
Qed.

Lemma safe_at_key_heap {A} out h k (f : nat -> PM A) (Q : A -> world -> Prop) (X : world -> Prop) : d_ok (timeout k) ->
  (forall i k' p m, d_ok (timeout k') -> d_key (timeout k) = d_key (timeout k') -> m !! i = Some (k', p) ->
     safe (fun w => ok None out m w /\ heap w = h) (f i) Q X) ->
  safe (fun w => pool_ok None out w /\ heap w = h) (at_key k f) Q X.
Proof.
  intros Hk Hf w [Hw Hh]. unfold at_key. pose proof (pool_index_spec k (_pools w)) as Hi. destruct (pool_index k (_pools w)) as [i m'].
  destruct Hi as (k' & p & Hi & Heq & Hm). assert (pool_ok None out (with_pools m' w)) as Hw'.
  { destruct Hm as [->|(a & b & Em & ->)]; [by destruct w|]. by apply insert_ok. }
  destruct (po_belongs _ _ _ Hw' i k' p Hi) as [Hk' _]. apply (Hf i k' p m'); [done| |done|split; [by split|done]].
  destruct Heq as [->|[E1 E2]]; [done|]. by apply not_less_key.
Qed.

Lemma safe_at_key {A} out k (f : nat -> PM A) (Q : A -> world -> Prop) (X : world -> Prop) : d_ok (timeout k) ->
  (forall i k' p m, d_ok (timeout k') -> d_key (timeout k) = d_key (timeout k') -> m !! i = Some (k', p) ->
     safe (ok None out m) (f i) Q X) ->
  safe (pool_ok None out) (at_key k f) Q X.
Proof.
  intros Hk Hf w Hw. apply (safe_at_key_heap out (heap w) k f Q X Hk); [|done]. intros i k' p m H1 H2 H3 w' [Hw' _]. by apply (Hf i k' p m).
Qed.

(** A change of a pool that leaves its stack. *)
Lemma safe_put out m i k p f : m !! i = Some (k, p) -> _pool (f p) = _pool p -> same_pool p (f p) ->
  safe (ok None out m) (put_pool i f) (fun _ => ok None out (change i (f p) m)) (fun _ => False).
Proof.
  intros Hi Hp Hs. apply (safe_drop None out out m i k p f []); [done|by rewrite Hp, app_nil_r|done|]. intros c. rewrite elem_of_nil. naive_solver.
Qed.

Lemma keeps_ok i p out m w : keeps i p out m w -> pool_ok None out w.
Proof. by intros (p' & _ & ? & _). Qed.

(** The connection that came is in use now. *)
Definition gave (out : gset Z) (r : option Z) (w : world) : Prop :=
  match r with Some c => c ∉ out /\ pool_ok None (out ∪ {[c]}) w | None => pool_ok None out w end.

Lemma safe__get out host t : d_ok t -> safe (pool_ok None out) (_get host t) (gave out) (pool_ok None out).
Proof.
  intros Ht w Hw. unfold _get. refine (pm_bind_safe (pool_ok None out) _ _ (fun _ => pool_ok None out) _ _ _ _ w Hw).
  - apply pm_lift_safe; [by destruct (negb _)|done|done].
  - intros ?. apply safe_at_key; [done|]. intros i k' p m Hk' Hkey Hi. eapply pm_bind_safe.
    + eapply pm_weaken_safe; [apply (safe_put out m i k' p); [done|done|done]|done|intros ? ? Hx; exact Hx|done].
    + intros u. set (q := MkPool (if bool_decide (_hostName p = []) then host else _hostName p) (_pool p) (_created p)
        (_minValidCreationTimeMicroSec p) (pool_type p)). eapply pm_weaken_safe; [apply (safe_get out (change i q m) i k' q t); [by apply (change_lookup i p)|done|done]|done| |].
      * intros [c|] w'; cbn [given gave]; [|by apply keeps_ok]. intros (Hc & Hk & _). split; [done|]. by apply keeps_ok in Hk.
      * intros w'. apply keeps_ok.
Qed.

(** Work on a connection in use; after an exception it is deleted. *)
Lemma safe_deleting {A} out c (f : PM A) : c ∉ out ->
  (forall m, safe (ok None (out ∪ {[c]}) m) f (fun _ => ok None (out ∪ {[c]}) m) (ok None (out ∪ {[c]}) m)) ->
  safe (pool_ok None (out ∪ {[c]})) (deleting c f) (fun _ => pool_ok None (out ∪ {[c]})) (pool_ok None out).
Proof.
  intros Hc Hf w Hw. refine (pm_try_safe (ok None (out ∪ {[c]}) (_pools w)) _ _ _ (ok None (out ∪ {[c]}) (_pools w)) _ _ _ w (conj Hw eq_refl)).
  - eapply pm_weaken_safe; [apply (Hf (_pools w))|done|by intros a w' [? _]|done].
  - intros e He. eapply pm_bind_safe; [eapply pm_weaken_safe; [apply (safe_delete None (out ∪ {[c]}) (_pools w) c); set_solver|done|intros ? ? Hx; exact Hx|done]|].
    intros u. apply pm_raise_safe; [done|]. intros w' [Hw' _]. eapply same_set; [|exact Hw']. set_solver.
Qed.

Lemma safe_finishCreate out host t c : d_ok t -> c ∉ out ->
  safe (pool_ok None (out ∪ {[c]})) (_finishCreate host t c) (fun d w => d = c /\ pool_ok None (out ∪ {[c]}) w) (pool_ok None out).
Proof.
  intros Ht Hc. eapply pm_bind_safe.
  - apply (safe_at_key _ _ _ (fun _ => pool_ok None (out ∪ {[c]}))); [done|]. intros i k' p m _ _ Hi. eapply pm_bind_safe.
    + eapply pm_weaken_safe; [apply (safe_put (out ∪ {[c]}) m i k' p); [done|done|done]|done|intros ? ? Hx; exact Hx|done].
    + intros u. set (q := MkPool (if bool_decide (_hostName p = []) then host else _hostName p) (_pool p) (_created p)
        (_minValidCreationTimeMicroSec p) (pool_type p)). eapply pm_bind_safe; [eapply pm_weaken_safe; [apply (safe_deref None (out ∪ {[c]}) (change i q m) c); set_solver|done|intros ? ? Hx; exact Hx|done]|].
      intros kc w [Hw _]. pose proof (fun f H1 H2 => safe_put (out ∪ {[c]}) (change i q m) i k' q f (change_lookup i p q k' m Hi) H1 H2 w Hw) as Hp.
      specialize (Hp (fun p => MkPool (_hostName p) (_pool p) (_created p + 1) (_minValidCreationTimeMicroSec p)
        (if _created p =? 0 then Some (ctype kc) else pool_type p)) eq_refl eq_refl).
      destruct (put_pool i _ w) as [w' [e|[]]]; [by destruct Hp|by destruct Hp].
  - intros u. eapply pm_bind_safe.
    + apply safe_deleting; [done|]. intros m. eapply pm_bind_safe; [apply safe_onCreate; set_solver|]. intros ?. apply safe_onHandedOut. set_solver.
    + intros ?. by apply pm_ret_safe.
Qed.

Lemma safe_connect out cs t : d_ok t -> safe (pool_ok None out) (connect_new cs t) (gave out) (pool_ok None out).
Proof.
  intros Ht w Hw. unfold connect_new. pose proof (connect_calm cs t (outer w) Ht) as Hc. destruct (connect_ cs t (outer w)) as [e [ex|[k|]]]; cbn [snd] in Hc.
  - split; [done|by apply outer_ok].
  - unfold wbind, new_conn. cbn [wret gave]. set (w0 := with_outer e w). set (c := fresh (dom (heap w0))).
    assert (pool_ok None out w0) as Hw0 by by apply outer_ok.
    assert (c ∉ dom (heap w0)) as Hfr by apply is_fresh. split.
    + intros Ho. destruct (po_out _ _ _ Hw0 c Ho) as [Hl _]. by apply Hfr, elem_of_dom.
    + replace (with_heap _ w0) with (with_outer (outer w0) (with_heap (<[c := k]> (heap w0)) w0)) by done. apply change_ok; [done| |done].
      intros (i & k' & p & Hi & Hin)%stacks_in. destruct (po_belongs _ _ _ Hw0 i k' p Hi) as [_ Hb]. destruct (Hb c Hin) as (kc & E1 & _).
      apply Hfr, elem_of_dom. by exists kc.
  - by apply outer_ok.
Qed.

(** What a caller gets is in use by nobody else. *)
Lemma safe_got out c t host (f : PM (option Z)) e : d_ok t -> e <> Failure UndefinedBehaviour ->
  safe (pool_ok None out) f (gave out) (pool_ok None out) ->
  safe (gave out c) (match c with
    | Some c => act! _ := deleting c (onHandedOut c) in wret c
    | None => act! c := f in match c with None => wraise e | Some c => _finishCreate host t c end
    end) (fun c w => c ∉ out /\ pool_ok None (out ∪ {[c]}) w) (pool_ok None out).
Proof.
  intros Ht He Hf. destruct c as [c|].
  - intros w [Hc Hw]. refine (pm_bind_safe (pool_ok None (out ∪ {[c]})) _ _ (fun _ => pool_ok None (out ∪ {[c]})) _ _ _ _ w Hw).
    + apply safe_deleting; [done|]. intros m. apply safe_onHandedOut. set_solver.
    + intros ?. by apply pm_ret_safe.
  - eapply pm_bind_safe; [exact Hf|]. intros [c|]; [|by apply pm_raise_safe]. intros w [Hc Hw].
    pose proof (safe_finishCreate out host t c Ht Hc w Hw) as Hx. destruct (_finishCreate host t c w) as [w' [x|d]]; [done|].
    by destruct Hx as [-> ?].
Qed.

Lemma safe_pool_get_url out url t : d_ok t ->
  safe (pool_ok None out) (pool_get_url url t) (fun c w => c ∉ out /\ pool_ok None (out ∪ {[c]}) w) (pool_ok None out).
Proof. intros Ht. eapply pm_bind_safe; [by apply safe__get|]. intros c. apply safe_got; [done|done|]. by apply safe_connect. Qed.

Lemma safe_pool_get out host t : d_ok t -> parse host <> Err UndefinedBehaviour ->
  safe (pool_ok None out) (pool_get host t) (fun c w => c ∉ out /\ pool_ok None (out ∪ {[c]}) w) (pool_ok None out).
Proof.
  intros Ht Hp. eapply pm_bind_safe; [by apply safe__get|]. intros c.
  pose proof (safe_got out c t host (act! cs := wlift (parse host) in act! _ := wlift (uassert 13071 (isValid cs)) in connect_new cs t)
    SocketException Ht ltac:(done)) as Hg.
  assert (safe (pool_ok None out) (act! cs := wlift (parse host) in act! _ := wlift (uassert 13071 (isValid cs)) in connect_new cs t)
    (gave out) (pool_ok None out)) as Hc.
  { eapply pm_bind_safe; [apply pm_lift_safe with (Q := fun _ => pool_ok None out); done|]. intros cs.
    eapply pm_bind_safe; [apply pm_lift_safe with (Q := fun _ => pool_ok None out); [by destruct (isValid cs)|done|done]|]. intros ?. by apply safe_connect. }
  specialize (Hg Hc). destruct c as [c|]; [exact Hg|]. intros w Hw. specialize (Hg w Hw). unfold wbind in *.
  destruct (wlift (parse host) w) as [w1 [e|cs]]; [done|]. by destruct (wlift (uassert _ _) w1) as [w2 [e|u]].
Qed.

Lemma safe_release out host c : c ∈ out ->
  safe (pool_ok None out) (pool_release host c) (fun _ => pool_ok None (out ∖ {[c]})) (pool_ok None out).
Proof.
  intros Hc w Hw. destruct (in_use None out (_pools w) c w (conj Hw eq_refl) Hc) as (k & Ek & Hk).
  unfold pool_release, wbind, deref. rewrite Ek.
  apply (safe_at_key_heap out (heap w) (MkKey host (getSoTimeout k)) (fun i => host_done i c)); [done| |done].
  intros i k' p m Hk' Hkey Hi. eapply pm_weaken_safe; [apply (safe_done out m i k' p c Hi Hc)| | |].
  - intros w' [Hw' Hh]. split; [done|]. rewrite Hh. intros kc Ekc. rewrite Ek in Ekc. injection Ekc as <-. by apply d_same.
  - by intros ? w' (p' & _ & ? & _).
  - by intros w' (p' & ? & _).
Qed.

(** *** All pools *)

Lemma safe_each_pool out ks (f : nat -> PM unit) :
  (forall i k, ks !! i = Some k -> safe (okp out ks) (f i) (fun _ => okp out ks) (fun _ => False)) ->
  forall n i, (i + n = length ks)%nat -> safe (okp out ks) (each_pool n i f) (fun _ => okp out ks) (fun _ => False).
Proof.
  intros Hf n. induction n as [|n IH]; intros i Hi; cbn [each_pool]; [by apply pm_ret_safe|].
  destruct (lookup_lt_is_Some_2 ks i) as [k Hk]; [lia|]. eapply pm_bind_safe; [by apply (Hf i k)|]. intros u. apply IH. lia.
Qed.

Lemma safe_all_pools out (f : list PoolKey -> nat -> PM unit) :
  (forall ks i k, ks !! i = Some k -> safe (okp out ks) (f ks i) (fun _ => okp out ks) (fun _ => False)) ->
  safe (pool_ok None out) (fun w => all_pools (f (map fst (_pools w))) w) (fun _ => pool_ok None out) (fun _ => False).
Proof.
  intros Hf w Hw. unfold all_pools. pose proof (safe_each_pool out (map fst (_pools w)) (f (map fst (_pools w))) (Hf _) (length (_pools w)) 0) as He.
  specialize (He ltac:(by rewrite length_map) w (conj Hw eq_refl)). destruct (each_pool _ _ _ w) as [w' [e|[]]]; [by destruct He|].
  by destruct He.
Qed.

Lemma safe_host_clear out ks i k : ks !! i = Some k -> safe (okp out ks) (host_clear i) (fun _ => okp out ks) (fun _ => False).
Proof.
  intros Hk. apply (safe_okp out ks i k _ _ _ Hk). intros m p Hks Hi.
  eapply pm_weaken_safe; [by apply (safe_clear None out m i k p)|done| |done]. intros ? w (p' & _ & _ & Hw). by apply (ok_okp out i p' m).
Qed.

Lemma safe_pool_flush out : safe (pool_ok None out) pool_flush (fun _ => pool_ok None out) (fun _ => False).
Proof. apply (safe_all_pools out (fun _ => host_flush)). intros ks i k. apply safe_flush. Qed.

Lemma safe_pool_clear out : safe (pool_ok None out) pool_clear (fun _ => pool_ok None out) (fun _ => False).
Proof. apply (safe_all_pools out (fun _ => host_clear)). intros ks i k. apply safe_host_clear. Qed.

Lemma safe_removeHost out host : safe (pool_ok None out) (removeHost host) (fun _ => pool_ok None out) (fun _ => False).
Proof.
  apply (safe_all_pools out (fun ks i => match ks !! i with
    | Some k => if same_server host (ident k) then host_clear i else wret tt | None => wret tt end)).
  intros ks i k Hk. rewrite Hk. destruct (same_server _ _); [by apply (safe_host_clear out ks i k)|by apply pm_ret_safe].
Qed.

Lemma safe_all_stale out ks : forall n i stale, (i + n = length ks)%nat ->
  safe (fun w => okp (out ∪ list_to_set stale) ks w /\ stale_ok out stale w) (all_stale n i stale)
    (fun stale' w => pool_ok None (out ∪ list_to_set stale') w /\ stale_ok out stale' w) (fun _ => False).
Proof.
  induction n as [|n IH]; intros i stale Hi; cbn [all_stale]; [apply pm_ret_safe; by intros w [[? _] ?]|].
  destruct (lookup_lt_is_Some_2 ks i) as [k Hk]; [lia|]. eapply pm_bind_safe; [by apply (safe_stale out ks i k)|]. intros stale'. apply IH. lia.
Qed.

Lemma safe_delete_stale out l :
  safe (fun w => pool_ok None (out ∪ list_to_set l) w /\ stale_ok out l w) (delete_stale l) (fun _ => pool_ok None out) (fun _ => False).
Proof.
  induction l as [|c l IH]; cbn [delete_stale]; [apply pm_ret_safe; intros w [Hw _]; eapply same_set; [|exact Hw]; set_solver|].
  intros w [Hw [Hnd Hdis]]. apply NoDup_cons in Hnd as [Hc Hnd]. set (o := out ∪ list_to_set (c :: l)) in *.
  assert (o ∖ {[c]} = out ∪ list_to_set l) as Eo.
  { assert (c ∉ out) by (apply Hdis; by left). unfold o. cbn. set_solver. }
  refine (pm_bind_safe (ok None o (_pools w)) _ _ (fun _ => pool_ok None (out ∪ list_to_set l)) _ _ _ _ w (conj Hw eq_refl)).
  - refine (pm_try_safe _ _ _ _ (ok None o (_pools w)) _ _ _).
    + eapply pm_weaken_safe; [apply (safe_destroy None o (_pools w) c); unfold o; cbn; set_solver|done| |done].
      intros ? w' [Hw' _]. by rewrite <- Eo.
    + intros e _. apply pm_ret_safe. intros w' Hw'. rewrite <- Eo. apply (forget None o (o ∖ {[c]}) (_pools w) w') in Hw'; [|set_solver]. by destruct Hw'.
  - intros ?. eapply pm_weaken_safe; [exact IH|intros w' Hw'; split; [exact Hw'|split; [done|]]|done|done].
    intros d Hd. apply Hdis. by right.
Qed.

Lemma safe_taskDoWork out : safe (pool_ok None out) taskDoWork (fun _ => pool_ok None out) (fun _ => False).
Proof.
  intros w Hw. unfold taskDoWork. refine (pm_bind_safe (fun w' => okp (out ∪ list_to_set []) (map fst (_pools w)) w' /\ stale_ok out [] w') _ _
    (fun s w' => pool_ok None (out ∪ list_to_set s) w' /\ stale_ok out s w') _ _ _ _ w _).
  - apply safe_all_stale. by rewrite length_map.
  - intros l. apply safe_delete_stale.
  - split; [split; [|done]|split; [constructor|by intros c ?%elem_of_nil]]. eapply same_set; [|exact Hw]. set_solver.
Qed.

Lemma safe_isConnectionGood out host c : c ∈ out ->
  safe (pool_ok None out) (isConnectionGood host (Some c)) (fun _ => pool_ok None out) (fun _ => False).
Proof.
  intros Hc w Hw. destruct (in_use None out (_pools w) c w (conj Hw eq_refl) Hc) as (k & Ek & Hk).
  unfold isConnectionGood, wbind at 1, deref. rewrite Ek. destruct (isFailed k); [done|].
  apply (safe_at_key out (MkKey host (getSoTimeout k)) _ _ _ Hk); [|done]. intros i k' p m _ _ Hi.
  eapply pm_bind_safe; [by apply (safe_get_pool None out m i k' p)|]. intros q. apply pm_ret_safe. by intros w' [_ [? _]].
Qed.

(** ** Callers *)

(** What a caller does; [Use] is anything it does with a connection of its own. *)
Inductive call :=
  | Get (host : list byte) (t : Z)
  | GetUrl (url : ConnectionString) (t : Z)
  | Release (host : list byte) (c : Z)
  | Kill (c : Z)
  | Use (c : Z) (f : Conn -> Conn)
  | Good (host : list byte) (c : Z)
  | Flush
  | Clear
  | RemoveHost (host : list byte)
  | Work.

Definition run_call (x : call) : PM (option Z) :=
  let none (m : PM unit) := act! _ := m in wret None in
  match x with
  | Get host t => act! c := pool_get host t in wret (Some c)
  | GetUrl url t => act! c := pool_get_url url t in wret (Some c)
  | Release host c => none (pool_release host c)
  | Kill c => none (delete_conn c)
  | Use c f => none (on_conn (fun k e => (e, (f k, inr tt))) c)
  | Good host c => act! _ := isConnectionGood host (Some c) in wret None
  | Flush => none pool_flush
  | Clear => none pool_clear
  | RemoveHost host => none (removeHost host)
  | Work => none taskDoWork
  end.

(** A caller uses only what it got; a time-out is a number. *)
Definition allowed (out : gset Z) (x : call) : Prop :=
  match x with
  | Get host t => d_ok t /\ parse host <> Err UndefinedBehaviour
  | GetUrl _ t => d_ok t
  | Release _ c | Kill c | Good _ c => c ∈ out
  | Use c f => c ∈ out /\ forall k, d_ok (getSoTimeout k) -> d_ok (getSoTimeout (f k))
  | _ => True
  end.

Definition in_use_after (out : gset Z) (x : call) (r : exn + option Z) : gset Z :=
  match x, r with
  | (Get _ _ | GetUrl _ _), inr (Some c) => out ∪ {[c]}
  | (Release _ c | Kill c), inr _ => out ∖ {[c]}
  | _, _ => out
  end.

(** The failure that a caller reports: of a connection that is given back, the
    key of its pool and when it was opened. *)
Definition failures (x : call) (w : world) : list (PoolKey * Z) :=
  match x with
  | Release host c =>
      match heap w !! c with
      | Some k => if isFailed k && negb (getSockCreationMicroSec k =? INVALID_SOCK_CREATION_TIME)
                  then [(MkKey host (getSoTimeout k), getSockCreationMicroSec k)] else []
      | None => []
      end
  | _ => []
  end.

(** The connections in use, the failures so far, and the world. *)
Inductive reach : gset Z -> list (PoolKey * Z) -> world -> Prop :=
  | reach_start w : heap w = ∅ -> _pools w = [] -> Forall hooks_calm (_hooks w) -> reach ∅ [] w
  | reach_call out fs w x : reach out fs w -> allowed out x ->
      reach (in_use_after out x (snd (run_call x w))) (failures x w ++ fs) (fst (run_call x w)).

(** A call ends without undefined behaviour, and gives what nobody has. *)
Definition fine (out : gset Z) (x : call) (w : world) : Prop :=
  snd (run_call x w) <> inl (Failure UndefinedBehaviour) /\
  match x, snd (run_call x w) with (Get _ _ | GetUrl _ _), inr (Some c) => c ∉ out | _, _ => True end.

Lemma call_none out out' (m : PM unit) w : safe (pool_ok None out) m (fun _ => pool_ok None out') (pool_ok None out) -> pool_ok None out w ->
  snd ((act! _ := m in wret (@None Z)) w) <> inl (Failure UndefinedBehaviour) /\
  pool_ok None (match snd ((act! _ := m in wret (@None Z)) w) with inr _ => out' | inl _ => out end) (fst ((act! _ := m in wret (@None Z)) w)).
Proof.
  intros Hm Hw. specialize (Hm w Hw). unfold wbind. destruct (m w) as [w' [e|u]]; cbn in *; [|done]. destruct Hm. split; [congruence|done].
Qed.

Lemma call_some out (m : PM Z) w : safe (pool_ok None out) m (fun c w => c ∉ out /\ pool_ok None (out ∪ {[c]}) w) (pool_ok None out) ->
  pool_ok None out w -> let r := (act! c := m in wret (Some c)) w in
  snd r <> inl (Failure UndefinedBehaviour) /\ match snd r with inr (Some c) => c ∉ out | _ => True end /\
  pool_ok None (match snd r with inr (Some c) => out ∪ {[c]} | _ => out end) (fst r).
Proof.
  intros Hm Hw. specialize (Hm w Hw). unfold wbind. destruct (m w) as [w' [e|c]]; cbn in *; [|done]. destruct Hm. split; [congruence|done].
Qed.

Lemma safe_no_raise {A} P (m : PM A) Q (X : world -> Prop) : safe P m Q (fun _ => False) -> safe P m Q X.
Proof. intros Hm. eapply pm_weaken_safe; [exact Hm|done..]. Qed.

Lemma safe_pools {A} out out' (f : PM A) : (forall m, safe (ok None out m) f (fun _ => ok None out' m) (fun _ => False)) ->
  safe (pool_ok None out) f (fun _ => pool_ok None out') (pool_ok None out).
Proof.
  intros Hf w Hw. specialize (Hf (_pools w) w (conj Hw eq_refl)). destruct (f w) as [w' [e|a]]; [by destruct Hf|by destruct Hf].
Qed.

Lemma run_call_ok out x w : pool_ok None out w -> allowed out x ->
  fine out x w /\ pool_ok None (in_use_after out x (snd (run_call x w))) (fst (run_call x w)).
Proof.
  intros Hw Ha. unfold fine. destruct x as [host t|url t|host c|c|c f|host c| | |host|]; cbn [run_call allowed in_use_after] in *.
  - destruct Ha as [Ht Hp]. pose proof (call_some out _ w (safe_pool_get out host t Ht Hp) Hw) as Hc. naive_solver.
  - pose proof (call_some out _ w (safe_pool_get_url out url t Ha) Hw) as Hc. naive_solver.
  - pose proof (call_none out (out ∖ {[c]}) _ w (safe_release out host c Ha) Hw) as Hc. naive_solver.
  - pose proof (call_none out (out ∖ {[c]}) (delete_conn c) w (safe_pools _ _ _ (fun m => safe_delete None out m c Ha)) Hw) as Hc. naive_solver.
  - destruct Ha as [Hc Hf]. assert (safe (pool_ok None out) (on_conn (fun k (e : E) => (e, (f k, @inr exn unit tt))) c) (fun _ => pool_ok None out) (pool_ok None out)) as Hs.
    { intros w' Hw'. pose proof (safe_on_conn None out (_pools w') c (fun k (e : E) => (e, (f k, @inr exn unit tt))) (fun _ _ => True) Hc) as Hs.
      specialize (Hs ltac:(intros k e Hk; split; [by apply Hf|done]) w' (conj Hw' eq_refl)).
      destruct (on_conn _ c w') as [w2 [e|u]]; [by destruct Hs as [? [? _]]|by destruct Hs as [[? _] _]]. }
    pose proof (call_none out out _ w Hs Hw) as Hc'. destruct (snd _); naive_solver.
  - assert (safe (pool_ok None out) (act! _ := isConnectionGood host (Some c) in wret tt) (fun _ => pool_ok None out) (pool_ok None out)) as Hs.
    { eapply pm_bind_safe; [by apply safe_no_raise, safe_isConnectionGood|]. intros ?. by apply pm_ret_safe. }
    pose proof (call_none out out _ w Hs Hw) as Hc'. unfold wbind in *. destruct (isConnectionGood _ _ w) as [w' [e|b]]; cbn in *; naive_solver.
  - pose proof (call_none out out _ w (safe_no_raise _ _ _ _ (safe_pool_flush out)) Hw) as Hc. destruct (snd _); naive_solver.
  - pose proof (call_none out out _ w (safe_no_raise _ _ _ _ (safe_pool_clear out)) Hw) as Hc. destruct (snd _); naive_solver.
  - pose proof (call_none out out _ w (safe_no_raise _ _ _ _ (safe_removeHost out host)) Hw) as Hc. destruct (snd _); naive_solver.
  - pose proof (call_none out out _ w (safe_no_raise _ _ _ _ (safe_taskDoWork out)) Hw) as Hc. destruct (snd _); naive_solver.
Qed.

(** *** Failures *)

(** The pool of the key of a failure knows of it, or of a later one. *)
Definition remembered (fs : list (PoolKey * Z)) (m : PoolMap) : Prop :=
  forall k t, In (k, t) fs -> d_ok (timeout k) /\
    exists k' p, In (k', p) m /\ same_key k k' /\ t <= _minValidCreationTimeMicroSec p.

Lemma remembered_grows fs m m' : grows m m' -> remembered fs m -> remembered fs m'.
Proof.
  intros [_ Hg] Hr k t Hin. destruct (Hr k t Hin) as (Hk & k' & p & Hp & Hs & Ht). split; [done|].
  destruct (Hg k' p Hp) as (p' & Hp' & ?). exists k', p'. split; [done|]. split; [done|lia].
Qed.

Lemma run_call_grows out x w : pool_ok None out w -> allowed out x -> grows (_pools w) (_pools (fst (run_call x w))).
Proof.
  intros Hw Ha. assert (forall c k, heap w !! c = Some k -> d_ok (getSoTimeout k)) as Hd by apply (po_times _ _ _ Hw).
  assert (forall A B (m : PM A) (b : B), fst ((act! _ := m in wret b) w) = fst (m w)) as Hnone
    by (intros A B m b; unfold wbind; by destruct (m w) as [w' [e|a]]).
  destruct x as [host t|url t|host c|c|c f|host c| | |host|]; cbn [run_call allowed] in *; rewrite ?Hnone.
  - apply mono_bind; [apply mono_pool_get, Ha|auto with mono].
  - apply mono_bind; [by apply mono_pool_get_url|auto with mono].
  - apply mono_release. intros k. apply Hd.
  - apply mono_delete.
  - apply mono_on_conn.
  - apply mono_isConnectionGood. intros k. apply Hd.
  - apply mono_pool_flush.
  - apply mono_pool_clear.
  - apply mono_removeHost.
  - apply mono_taskDoWork.
Qed.

(** When a connection that failed is given back, the pool remembers when it was
    opened, also if a hook throws. *)
Lemma failed_given_back out m i k p c (w : world) kc : m !! i = Some (k, p) -> c ∈ out -> ok None out m w -> heap w !! c = Some kc ->
  isFailed kc = true -> getSockCreationMicroSec kc <> INVALID_SOCK_CREATION_TIME ->
  exists p', _pools (fst (host_done i c w)) !! i = Some (k, p') /\ getSockCreationMicroSec kc <= _minValidCreationTimeMicroSec p'.
Proof.
  intros Hi Hc Hw Ek Hf Ht. unfold host_done, wbind at 1, deref. rewrite Ek, Hf. unfold wbind at 1.
  pose proof (safe_reportBad out m i k p (getSockCreationMicroSec kc) Hi w Hw) as Hr.
  destruct (reportBadConnectionAt _ _ w) as [w1 [e|[]]]; [by destruct Hr|]. destruct Hr as (p' & _ & Hmin & Hok).
  exists p'. split; [|by apply Hmin]. pose proof (safe_destroy None out (change i p' m) c Hc w1 Hok) as Hd.
  destruct ((act! _ := onDestroy c in delete_conn c) w1) as [w2 [e|[]]]; cbn [fst].
  - destruct Hd as [_ [_ ->]]. by apply (change_lookup i p).
  - destruct Hd as [_ ->]. by apply (change_lookup i p).
Qed.

Lemma released_remembered out host c kc (w : world) : pool_ok None out w -> c ∈ out -> heap w !! c = Some kc -> isFailed kc = true ->
  getSockCreationMicroSec kc <> INVALID_SOCK_CREATION_TIME ->
  remembered [(MkKey host (getSoTimeout kc), getSockCreationMicroSec kc)] (_pools (fst (pool_release host c w))).
Proof.
  intros Hw Hc Ek Hf Ht k t [[= <- <-]|[]]. set (k := MkKey host (getSoTimeout kc)).
  assert (d_ok (timeout k)) as Hk by apply (po_times _ _ _ Hw c kc Ek). split; [done|].
  unfold pool_release, wbind, deref. rewrite Ek. unfold at_key. fold k. pose proof (pool_index_spec k (_pools w)) as Hi.
  destruct (pool_index k (_pools w)) as [i m']. destruct Hi as (k' & p & Hi & Heq & Hm).
  assert (pool_ok None out (with_pools m' w)) as Hw'.
  { destruct Hm as [->|(a & b & Em & ->)]; [by destruct w|]. by apply insert_ok. }
  destruct (failed_given_back out m' i k' p c (with_pools m' w) kc Hi Hc (conj Hw' eq_refl) Ek Hf Ht) as (p' & Hp' & Hle).
  exists k', p'. split; [by eapply list_elem_of_In, list_elem_of_lookup_2|]. split; [|done].
  destruct Heq as [->|[H1 H2]]; [|by split]. split; by apply poolKeyCompare_irrefl.
Qed.

Lemma failures_remembered out x w : pool_ok None out w -> allowed out x -> remembered (failures x w) (_pools (fst (run_call x w))).
Proof.
  intros Hw Ha. destruct x as [host t|url t|host c|c|c f|host c| | |host|]; try (by intros k t' []).
  cbn [failures allowed] in *. destruct (heap w !! c) as [kc|] eqn:Ek; [|by intros k t []].
  destruct (isFailed kc) eqn:Ef; [|by intros k t []]. destruct (Z.eqb_spec (getSockCreationMicroSec kc) INVALID_SOCK_CREATION_TIME) as [|Ht];
    [by intros k t []|]. pose proof (released_remembered out host c kc w Hw Ha Ek Ef Ht) as Hr.
  cbn [run_call]. unfold wbind. by destruct (pool_release host c w) as [w' [e|u]].
Qed.

Lemma reach_ok out fs w : reach out fs w -> pool_ok None out w /\ keys_ok (_pools w) /\ remembered fs (_pools w).
Proof.
  induction 1 as [w Hh Hp Hk|out fs w x _ (IH & Hkeys & Hrem) Ha].
  - split; [|split; [rewrite Hp; split; constructor|by intros k t []]].
    split; rewrite ?Hp, ?Hh; [constructor|by intros c ?%elem_of_empty|by intros i k p|by intros c k|done].
  - pose proof (run_call_grows out x w IH Ha) as Hg. split; [by apply run_call_ok|]. split; [by apply Hg|].
    intros k t [Hin|Hin]%in_app_iff; [by apply (failures_remembered out x w IH Ha)|].
    by apply (remembered_grows fs (_pools w)).
Qed.

Lemma same_key_trans a b c : d_ok (timeout a) -> d_ok (timeout b) -> d_ok (timeout c) -> same_key a b -> same_key b c -> same_key a c.
Proof.
  intros Ha Hb Hc Hab Hbc. split; apply not_true_iff_false; intros Hx.
  - pose proof (same_key_less a b c Ha Hb Hc Hab Hx) as H1. destruct Hbc as [H2 _]. congruence.
  - pose proof (same_key_less c b a Hc Hb Ha (same_key_sym _ _ Hbc) Hx) as H1. destruct Hab as [_ H2]. congruence.
Qed.

Lemma none_older out fs w k t i k' p c kc : pool_ok None out w -> keys_ok (_pools w) -> remembered fs (_pools w) ->
  In (k, t) fs -> _pools w !! i = Some (k', p) -> same_key k k' -> c ∈ conns (_pool p) -> heap w !! c = Some kc ->
  t <= getSockCreationMicroSec kc.
Proof.
  intros Hw Hkeys Hrem Hin Hi Hsame Hc Ek. destruct (Hrem k t Hin) as (Hk & k2 & p2 & H2 & Hs2 & Ht).
  assert (forall x q, In (x, q) (_pools w) -> d_ok (timeout x)) as Hd.
  { intros x q Hq. destruct Hkeys as [_ Hd]. rewrite List.Forall_forall in Hd. apply Hd, in_map_iff. by exists (x, q). }
  assert (In (k', p) (_pools w)) as Hp by (by eapply list_elem_of_In, list_elem_of_lookup_2).
  assert (p2 = p) as ->.
  { apply (same_key_unique (_pools w) k2 k'); [done|done|done|]. apply (same_key_trans k2 k k'); [by eapply Hd|done|by eapply Hd| |done].
    by apply same_key_sym. }
  destruct (po_belongs _ _ _ Hw i k' p Hi) as [_ Hb]. destruct (Hb c Hc) as (kc' & E1 & _ & E3). rewrite Ek in E1. injection E1 as <-.
  specialize (E3 ltac:(done)). lia.
Qed.

(** C22: Whatever callers do with connections they got, no connection is in the
    pool twice, or in the pool and in use, or used or deleted after it was
    deleted; a connection in the pool has the time-out of its pool; after a
    connection that failed was given back, and it is known when it was opened,
    none in the pool of its host and time-out was opened before it, whatever
    calls come later; and no two callers get the same connection. *)
Theorem pool_safe out fs (w : world) : reach out fs w ->
  NoDup (stacks (_pools w)) /\ (forall c, c ∈ stacks (_pools w) -> is_Some (heap w !! c) /\ c ∉ out) /\
  (forall c, c ∈ out -> is_Some (heap w !! c)) /\
  (forall i k p c, _pools w !! i = Some (k, p) -> c ∈ conns (_pool p) -> exists kc, heap w !! c = Some kc /\
     d_eqb (getSoTimeout kc) (timeout k) = true /\ _minValidCreationTimeMicroSec p <= getSockCreationMicroSec kc) /\
  (forall k t i k' p c kc, In (k, t) fs -> _pools w !! i = Some (k', p) -> same_key k k' -> c ∈ conns (_pool p) ->
     heap w !! c = Some kc -> t <= getSockCreationMicroSec kc) /\
  forall x, allowed out x -> fine out x w.
Proof.
  intros (Hw & Hkeys & Hrem)%reach_ok. split; [apply Hw|]. split; [|split; [by intros c Hc; apply (po_out _ _ _ Hw)|split; [|split]]].
  - intros c Hc. pose proof Hc as (i & k & p & Hi & Hin)%stacks_in. destruct (po_belongs _ _ _ Hw i k p Hi) as [_ Hb].
    destruct (Hb c Hin) as (kc & Ek & _). split; [by exists kc|]. intros Ho. by apply (po_out _ _ _ Hw c Ho).
  - intros i k p c Hi Hc. destruct (po_belongs _ _ _ Hw i k p Hi) as [_ Hb]. destruct (Hb c Hc) as (kc & E1 & E2 & E3).
    exists kc. split; [done|]. split; [done|by apply E3].
  - intros k t i k' p c kc. by apply (none_older out fs w).
  - intros x Hx. by apply run_call_ok.
Qed.
End Safety.


(** ** A server that always answers *)

(** Outside there is the number of connections that hooks saw destroyed. *)
#[export] Instance answering : Outside Z := {|
  time_ := fun e => (e, 0);
  connect_ := fun _ t e => (e, inr (Some (MkPooled false 10 t MASTER)));
  ping := fun k e => (e, (k, inr true));
  inShutdown_ := fun _ => false
|}.

#[export] Instance answering_calm : Calm Z.
Proof. split; [done|]. intros k e. cbn. split; [done|]. split; [lia|done]. Qed.

Definition counting : DBConnectionHook Z := {|
  hook_onCreate := fun k e => (e, (k, inr tt));
  hook_onHandedOut := fun k e => (e, (k, inr tt));
  hook_onDestroy := fun k e => (e + 1, (k, inr tt))
|}.

Definition start : pool_world Z := MkPoolWorld ∅ [] [counting] 50 0 0.
Definition here : list byte := bstr "h:1".

Lemma counting_calm : Forall hooks_calm (_hooks start).
Proof. apply Forall_singleton. split; [done|]. by split. Qed.

(** A call from what was reached. *)
Definition after (x : call) (s : gset Z * list (PoolKey * Z) * pool_world Z) : gset Z * list (PoolKey * Z) * pool_world Z :=
  let '(out, fs, w) := s in (in_use_after out x (snd (run_call x w)), failures x w ++ fs, fst (run_call x w)).
Definition reached (s : gset Z * list (PoolKey * Z) * pool_world Z) : Prop := let '(out, fs, w) := s in reach out fs w.

Lemma after_reached x s : reached s -> allowed (fst (fst s)) x -> reached (after x s).
Proof. destruct s as [[out fs] w]. apply reach_call. Qed.

Definition break_conn (k : Conn) : Conn := MkPooled true (getSockCreationMicroSec k) (getSoTimeout k) (ctype k).

(** Two connections are got, one is given back, the other fails and is given
    back, and then one is got again, which is a new one. *)
Definition two_got : gset Z * list (PoolKey * Z) * pool_world Z := after (Get here 0) (after (Get here 0) (∅, [], start)).
Definition one_back := after (Release here 1) two_got.
Definition one_failed := after (Release here 0) (after (Use 0 break_conn) one_back).

Lemma one_failed_reached : reached one_failed.
Proof.
  assert (d_ok 0 /\ parse here <> Err UndefinedBehaviour) as Hh by (split; [by split|by vm_compute]).
  repeat first [apply after_reached | apply reach_start]; try done; try apply counting_calm.
Qed.

Lemma pool_safe_witness : map (fun kp => conns (_pool (snd kp))) (_pools (snd one_back)) = [[1]] /\
  snd (fst one_failed) = [(MkKey here 0, 10)] /\ stacks (_pools (snd one_failed)) = [] /\
  fine (fst (fst one_failed)) (Get here 0) (snd one_failed).
Proof.
  split; [vm_compute; reflexivity|]. split; [vm_compute; reflexivity|]. split; [vm_compute; reflexivity|].
  assert (reach (fst (fst one_failed)) (snd (fst one_failed)) (snd one_failed)) as H.
  { pose proof one_failed_reached as H. destruct one_failed as [[out fs] w]. exact H. }
  destruct (pool_safe _ _ _ H) as (_ & _ & _ & _ & _ & Hf). apply (Hf (Get here 0)).
  split; [split; reflexivity|by vm_compute].
Defined.

(** ** Where the pool falls short *)

Definition one (k : Conn) (p : PoolForHost) : pool_world Z :=
  MkPoolWorld {[1 := k]} [(MkKey here 0, p)] [counting] 50 0 0.

(** A connection opened in the microsecond of the last failure is kept, although
    the pool calls it bad. *)
Example kept_although_bad :
  let k := MkPooled false 10 0 MASTER in
  let p := MkPool here [] 1 10 (Some MASTER) in
  isBadSocketCreationTime p (getSockCreationMicroSec k) = true /\
  map (fun kp => conns (_pool (snd kp))) (_pools (fst (pool_release here 1 (one k p)))) = [[1]].
Proof. split; by vm_compute. Qed.

(** Hooks are told of a connection that is destroyed when it is given back, and
    not when the pool is cleared. *)
Example cleared_untold :
  let failed := MkPooled true INVALID_SOCK_CREATION_TIME 0 MASTER in
  let p l := MkPool here l 1 0 (Some MASTER) in
  outer (fst (pool_release here 1 (one failed (p [])))) = 1 /\
  outer (fst (pool_clear (one failed (p [MkStored 1 0])))) = 0 /\ heap (fst (pool_clear (one failed (p [MkStored 1 0])))) = ∅.
Proof. repeat split; by vm_compute. Qed.

(** To flush a pool turns its stack around, so that the connection that was idle
    longest is given out first. *)
Example flush_turns_around :
  let k := MkPooled false 10 0 MASTER in
  let w := MkPoolWorld {[1 := k; 2 := k]} [(MkKey here 0, MkPool here [MkStored 2 5; MkStored 1 3] 2 0 (Some MASTER))] [] 50 0 0 in
  map (fun kp => conns (_pool (snd kp))) (_pools (fst (pool_flush w))) = [[1; 2]].
Proof. by vm_compute. Qed.
